(* ===== verification/_CoqProject ===== *)
-Q . S2P
Prelude.v
LibC.v
Buffers.v
PrimeTable.v
CFloat.v
ImTypes.v
ImHashTable.v
ImTable.v
ImInsert.v
ImVector.v
Beai3Dict.v
DictFacts.v
DictLife.v
DictMachine.v
ThreadPool.v
ThreadPoolFacts.v
ThreadPoolSteps.v
ThreadPoolQueue.v
ThreadPoolDrain.v
PoolTheorems.v
IntrusiveList.v
IntrusiveListFacts.v
ListTheorems.v
Calendar.v
BasString.v
BasStringFacts.v
BasDate.v
BasDateFacts.v
Samples.v
DictTheorems.v
ImSerialize.v
ImTree.v
ImSerializeFacts.v
ImTreeFacts.v
ImSerializeRun.v
ImDuplicate.v
SerializeTheorems.v
BasCodec.v
BasCodecFacts.v
BasLogFacts.v
BasDes.v
BasDesFacts.v
BasDesRounds.v
BasBase64.v
BasTheorems.v
CodecTheorems.v
CHeap.v
LibString.v
LibStringFacts.v
LibFile.v
LibFileFacts.v
LibHex.v
LibTheorems.v
LibDoFile.v
LibDoFileFacts.v
LibDoFileTheorems.v
BasProbe.v
BasHashTypes.v
BasTable.v
BasHash.v
BasHashFacts.v
ShmMem.v
ShmAlloc.v
ShmMemFacts.v
ShmHash.v
ShmSearch.v
ShmSamples.v
ShmHashFacts.v
ShmTableFacts.v
ShmLoadFacts.v
ShmKeyFacts.v
ShmIndexFacts.v
ShmCatalogue.v
ShmSearchFacts.v
BasHashTheorems.v
ShmTheorems.v
Annotations.v
BasConfig.v
BasConfigFacts.v
BasConfigTheorems.v
