(* ===== verification/Prelude.v ===== *)
(** * FrameCode: a verification development

    FrameCode is a collection of C building blocks for server programs.  Its
    own logic sits in [src/Frame_Lib] (a dictionary library, string and date
    routines, encoders, lists, text and file routines) and in small frames
    around threads and processes.  This library models that logic in Rocq and
    proves what the code promises, and where it breaks its promise.  The paths
    below are relative to [src/Frame_Lib/src] unless they start with [Frame_].

    ** The parts of the program

    - The dictionary library, [Lib_Dict/Dict_New_CanUse].  Applications call
      [utils/beai3/Beai3Dict.c], which keeps typed values under string keys in
      the open-addressing hash tables of [src/im_hashtable.c] and arrays of
      dictionaries in the growable vectors of [src/im_vector.c]; the number of
      buckets comes from the primes of [src/prime_number.h].  A value up to 16
      bytes lies in the bucket, a longer one in a block of its own
      ("external"), a nested table or vector is referred to by a pointer and is
      freed with its owner.
    - The bas library, [Excellent_Code/Lib_bas]: [bas_string.c] (blanks, case,
      check digits, identity numbers, comparison, search), [bas_date.c] (date
      arithmetic over the C library's calendar), [bas_hex_util.c] and
      [bas_encrypt.c] (text encodings), [bas_encString.c] (DES and base 64),
      [bas_hash_table.c] (a hash table over the caller's functions) and
      [bas_shm_search_table.c] (database tables loaded into a shared memory
      segment, with a heap, hash tables and indexes of its own, that other
      processes search), [bas_profile.c] (profiles with sections and entries),
      [bas_expand_macro.c] (file names with macros) and [bas_getopt.c] (the
      options of a command line).
    - The intrusive list, [Lib_List/lib_list.h]: doubly linked rings of nodes
      inside the caller's structs.
    - The thread pool, [Frame_ThreadPool/C/Frame_ThreadPool/src]: threads that
      add tasks to a queue under a mutex and a condition variable, threads that
      take and do them, and a main thread that ends them.
    - The text and file routines, [Lib_String/lib_string.c],
      [Lib_File/lib_file.c], [Lib_File/lib_conf_file.c] and
      [Lib_HEX/lib_HEX.c]: strings edited in place or in allocated blocks, the
      lines of a file, configuration files with fields, keys and values, and
      numbers in bases 2, 8 and 16.
    - A tool that removes the comments from C sources,
      [Frame_Multitool/Bin_Text/Bin_DelCodeAnnotation.c].
    Inside the dictionary library the interface calls the tables and vectors,
    they call each other to destroy nested objects, and the table asks the
    prime table for its sizes.  The threads of the pool meet in its queue.  The
    look-ups of [lib_conf_file.c] are made of the routines of [lib_string.c].
    The other parts do not call one another.

    ** How the code is represented

    - [Prelude]: integers are [Z], wrapped at their width ([u32], [s32], ...)
      where the C type wraps; [outcome] is what a piece of C does: [Ok], [Fault]
      (undefined behaviour: an access out of bounds, a signed overflow, a
      dangling pointer) or [NoFuel].  A definition with a loop whose end is not
      evident takes fuel, and a theorem says which fuel is enough, so that
      [NoFuel] is never the answer: [n / 2 + 1] probes for [im_find_element],
      two nested insertions for a rehash, two units per level of nesting for a
      destruction or a serialisation, four rounds for [basAddMonths].
    - [LibC]: the part of the C library the sources call ([strlen], [strncpy],
      [memset], [atoi], [sprintf] of integers, the character classes).
    - [CFloat]: [float], [double] and [long double] on the standard library's
      [spec_float], with the conversions of the getters.
    - [Calendar]: the Gregorian calendar by its rules, [struct tm], [gmtime],
      [mktime] and [localtime] over the class [TimeZone]; the laws a proof needs
      are the classes [TimeZoneLaws] and [TimeZoneMidnight], with an instance
      per fixed offset.
    - [ImTypes]: a block memory for the dictionary library.  A pointer is a
      block and an offset; a cell is a table, a vector or a run of bytes; the
      number of allocations that still succeed is part of the memory, so the
      error paths of [malloc] and [calloc] are executable.

    ** Components, files and theorems

    - Prime table ([prime_number.h]): [PrimeTable].  The list is the increasing
      list of the primes below a million; the class [BucketCounts] is what
      [bsearch_number_of_buckets] relies on.
    - Hash tables ([im_hashtable.c]): definitions in [ImHashTable];
      [ImTable] has the number theory of quadratic probing, the invariant
      [table_wf] and the finite map [table_map] a table implements, [ImInsert]
      insertion, rehash and deletion on the memory.
    - Vectors ([im_vector.c]): [ImVector], with the invariant [vector_wf] and
      the sequence [vector_seq].
    - Dictionary interface ([Beai3Dict.c]): definitions in [Beai3Dict].
      [DictFacts] relates a dictionary in memory to a finite map ([dict]) with
      the blocks it owns, [DictLife] covers construction, destruction and the
      listing of keys, [DictMachine] states the abstract machine and the
      simulation.  [DictTheorems] has the theorems, with the concrete worlds of
      [Samples]: the refinement of the whole interface by a finite map, then
      one theorem per operation and the error paths.
    - Serialising and duplicating ([im_hashtable.c], [im_vector.c],
      [SerializeDict]): [ImSerialize] has the code the two files share, written
      once over the class [Container] of a structure with buckets and used at
      its two instances, [ImDuplicate] likewise the copying ([Duplicable]).
      [ImTree] says what a dictionary means: a tree of tables, arrays, texts and
      plain values; [object_at] finds a tree in memory, its parts in blocks of
      their own or attached behind the buckets, and lists the blocks it owns.
      [ImSerializeFacts] has the laws of a container and the runs of the
      operations, [ImTreeFacts] the destruction of trees and that equal trees read
      the same, [ImSerializeRun] the loop over the buckets and the induction over
      the tree.
      [SerializeTheorems]: serialising gathers the tree in one block of the
      answered length, the bytes can be copied and read, destruction frees every
      block of a tree, and how a failed serialisation and the duplication go
      wrong.  Twice the depth of the tree is enough fuel, and [cost] bounds the
      allocations.  Writing behind the buckets is checked against the room that
      [attached_size] says the block has ([attached_end]).
    - String routines ([bas_string.c]): definitions in [BasString], lemmas in
      [BasStringFacts].  Date routines ([bas_date.c]): [BasDate],
      [BasDateFacts].  Their theorems are in [BasTheorems].
    - Buffers ([Buffers]): counted loops, [memcpy], [memset] and [sprintf] with
      their bounds checked, shared by the bas library's files.
    - Encoders of the bas library: [BasCodec] has [bas_hex_util.c] (hexadecimal
      and packed decimal) and [bas_encrypt.c] (the printable encoding of log
      messages and [ldecodefd2fd], its decoder over a file); [BasCodecFacts]
      and [BasLogFacts] have the lemmas, [CodecTheorems] the round
      trips.  A file is the list of the bytes left to read; the decoder's loop
      reads one byte each round, so one more round than the file has bytes is
      enough.
    - Encryption ([bas_encString.c]): [BasDes] has DES bit by bit, the two-key
      string encryption and base 64; [BasDesFacts] the tables and
      permutations, [BasDesRounds] the sixteen rounds and the inverse,
      [BasBase64] the two conversions.  [CodecTheorems] shows that decryption
      inverts encryption, and where the code leaves DES (one entry of [PC_2])
      and its buffers: [base64_decode] clears four bytes of an array of three,
      which is a fault of the model, so that base 64 is encoded but never
      decoded, and [basEncString] ends at its key.
    - Thread pool ([Frame_ThreadPool/C]): [ThreadPool] has the pool, the nodes
      of the queue in memory and every thread's place; [act] is one statement
      of one thread, [run] an interleaving.  [ThreadPoolFacts] states the
      invariant, [ThreadPoolSteps] shows that each action keeps it,
      [ThreadPoolQueue] relates the pool to an abstract queue ([fifo]), and
      [ThreadPoolDrain] gives the measure of progress.  [PoolTheorems]: no
      statement faults, mutual exclusion, first-in first-out, every task done
      once at rest, what [threadpool_destroy] frees, and how it can hang.  The
      search for the end of the queue has the size of the memory as its fuel.
    - Intrusive list ([Lib_List/lib_list.h]): [IntrusiveList] has the functions
      and loop macros, [IntrusiveListFacts] rings and what each operation
      does to them, [ListTheorems] sequences of calls and the loops, whose fuel is
      the number of nodes.
    - Text and files of Frame_Lib: [CHeap] has the allocator as a parameter and
      the commands that use it, with the number of live blocks; [gives d m a]
      says that a command ends with [a] and [d] more live blocks.  It also has
      [fgetc], [fgets], [fseek] and [fputs] on a file in memory.  [LibString],
      [LibFile] and [LibHex] have the sources' routines; [LibStringFacts] shows
      what the ones in place leave in the array, [LibFileFacts] follows the
      look-ups line by line and has the counting, brackets and lines,
      and [LibHex] ends with the number bases.  [LibTheorems]: keys and values, the
      look-ups in configuration files with the blocks they lose, reading files
      by lines, and the routines that never do their work.  One round per line
      and one for the end of the file is enough for a look-up.
    - Hash table of the bas library ([bas_hash_table.c]): [BasProbe] has the
      probe sequence both hash tables share, with its number theory (the
      perturbation is gone after seven rounds, then the walk has full period,
      so [iMask + 8] rounds are enough), [BasHashTypes] the structs and the
      hash, [BasTable] open addressing over a list of slots as a finite map.
      [BasHash] has the routines, [BasHashFacts] relates a table to a map
      ([inv]), [BasHashTheorems]: the refinement, what is freed, how a removal
      hides keys.
    - Search tables in shared memory ([bas_shm_search_table.c]): [ShmMem] has
      the segment as a map from addresses to objects that must not overlap,
      [ShmAlloc] the heap, [ShmHash] its hash table, [ShmSearch] keys, loader,
      searches and iterator; the chain of free blocks has the number of objects
      as its fuel, the halving search the number of rows.  [ShmMemFacts]
      has the frames of the commands and the heap with one
      free block at its end ([tail_ok]), [ShmHashFacts] and [ShmTableFacts] the
      hash table as a finite map, with one relation ([grows]) for the
      effect of a loader's command, [ShmKeyFacts] the text of keys,
      [ShmLoadFacts] the definition and the rows, [ShmIndexFacts] the indexes,
      [ShmCatalogue] what a segment with tables holds and that a load adds to
      it; [ShmSearchFacts] the order of keys with the halving and scanning
      searches, and what a search answers.
      [ShmTheorems]: initialise, load, search as one refinement, the iterator,
      the hash table, blocks, and the failures; [ShmSamples] concrete tables.
    - Configuration of the bas library: [BasConfig] has [bas_profile.c],
      [bas_expand_macro.c] and [bas_getopt.c], over the environment as a
      function and a file as its bytes.  [BasConfigFacts] takes a text as a list
      of pieces (characters, macros) and a command line as a list of groups of
      options, options with values and operands (the first character of an
      operand the code reads as options is their [lead]), and shows what the
      code does with each; it does so for the lines of a profile, with
      [profile_lookup] as the reference, and for trimming.  [BasConfigTheorems]
      puts them together.  The fuel of a loop over an array is its length, that
      of the loop over a profile the number of bytes plus one, that of the
      search for the next option the number of arguments left plus one; the
      caller's loop [read_options] needs one call more than there are options.
    - Comment remover: [Annotations] has the program as a step on a mode and the
      last character, the pieces of a source as the program delimits them, that
      every source without the byte 255 is a list of them, and the theorem
      that the output is the pieces without the comments.
    - Rewriting source files ([Do_File] of [lib_file.c]): [LibDoFile] has one
      definition per letter on the text of a line, the loop over the lines, and
      the files as a map from names to bytes.  [LibDoFileFacts] runs the loop
      over a file of lines ([file_text]) and has what each letter does to one;
      [LibDoFileTheorems]: line ends and tabs converted and back, empty lines
      deleted, braces indented ([code] is a source of statements and blocks),
      and the letters whose work never arrives.  The loop has one round more
      than the file has bytes.
    ** Not modelled

    - The copies of the dictionary library ([Dict_FromBafe_Original_NoUsed],
      [Dict_AlreadyDepend_NoKnowNoUseOrUSe], [Frame_Socket/C/Socket_Bafe]) are
      the same code again.
    - The header [bas/bas_global.h] of the bas library is not in the
      repository: its constants, the sizes of its structs and whether the index
      pointers of a search table share a union are the classes [BasGlobal],
      [BasHashConst] and [ShmLayout], with what the code needs of them as
      [BasHashLaws] and [SizeLaws]; [iStdSize] is taken as a [size_t].
    - Of [bas_shm_search_table.c], the log messages, and the database behind a
      cursor, which is the rows it fetches; two processes that write the
      segment at the same time.  The theorems on loaded tables are about HASH
      and BINARY tables in a segment with one section; TABLE indexes, two
      sections and blocks freed in the middle of the heap are modelled only.
    - Of [bas_string.c], the varargs [basSprintf], the amount formatting and
      the parsing of configuration lines; the regular expressions of the C
      library.
    - Sockets, pipes, the shared memory calls, message queues, process control,
      Tuxedo, database and file utilities: system calls around little logic.
      Of the bas library also [bas_xml.c] (calls of libxml2), logging, and the
      copy of the configuration in shared memory.
      Of the thread pool, the log macros, the demonstration applications and
      the C++ variant; [malloc] of a queue node is taken to succeed.
    - [lib_xml.c] and [lib_time.c].  In [lib_string.c] and [lib_conf_file.c], what stands under
      [#if 0].
    - Vendored code (the Redis allocator), tests, experiments, scripts, Windows
      code. *)

(** Machine integers at their width, the three-valued outcome of a piece of C
    code, byte buffers, and the tactics and list lemmas the components
    share. *)

From Stdlib Require Export ZArith Lia.
From stdpp Require Export base strings gmap numbers list_numbers list.

#[export] Set Default Proof Using "Type".

Declare Scope frame_scope.
Delimit Scope frame_scope with frame.

Open Scope Z_scope.

(** ** Integers of a fixed width (LP64: short 16, int 32, long and long long 64) *)

Definition uwrap (w z : Z) : Z := z mod 2 ^ w.
Definition swrap (w z : Z) : Z := (z + 2 ^ (w - 1)) mod 2 ^ w - 2 ^ (w - 1).

Abbreviation u8 := (uwrap 8).
Abbreviation u16 := (uwrap 16).
Abbreviation u32 := (uwrap 32).
Abbreviation u64 := (uwrap 64).
Abbreviation s8 := (swrap 8).
Abbreviation s16 := (swrap 16).
Abbreviation s32 := (swrap 32).
Abbreviation s64 := (swrap 64).

Lemma uwrap_id w z : 0 <= z < 2 ^ w -> uwrap w z = z.
Proof. intros H. unfold uwrap. by apply Z.mod_small. Qed.

Lemma uwrap_range w z : 0 < w -> 0 <= uwrap w z < 2 ^ w.
Proof. intros H. unfold uwrap. apply Z.mod_pos_bound. lia. Qed.

Lemma pow_half w : 0 < w -> 2 ^ w = 2 * 2 ^ (w - 1).
Proof. intros H. rewrite <- Z.pow_succ_r by lia. f_equal. lia. Qed.

Lemma swrap_id w z : 0 < w -> - 2 ^ (w - 1) <= z < 2 ^ (w - 1) -> swrap w z = z.
Proof.
  intros Hw H. unfold swrap. rewrite Z.mod_small; [lia|].
  rewrite (pow_half w) by lia. lia.
Qed.

Lemma swrap_range w z : 0 < w -> - 2 ^ (w - 1) <= swrap w z < 2 ^ (w - 1).
Proof.
  intros Hw. unfold swrap.
  pose proof (Z.mod_pos_bound (z + 2 ^ (w - 1)) (2 ^ w) ltac:(lia)) as Hb.
  pose proof (pow_half w Hw). lia.
Qed.

(** The common instances, with the powers of two evaluated so that [lia]
    discharges the side conditions. *)
Lemma u32_id z : 0 <= z < 4294967296 -> u32 z = z.
Proof. intros H. by apply uwrap_id. Qed.
Lemma s32_id z : -2147483648 <= z < 2147483648 -> s32 z = z.
Proof. intros H. apply swrap_id; [lia|]. exact H. Qed.
Lemma s64_id z : -9223372036854775808 <= z < 9223372036854775808 -> s64 z = z.
Proof. intros H. apply swrap_id; [lia|]. exact H. Qed.
Lemma s16_id z : -32768 <= z < 32768 -> s16 z = z.
Proof. intros H. apply swrap_id; [lia|]. exact H. Qed.
Lemma u16_id z : 0 <= z < 65536 -> u16 z = z.
Proof. intros H. by apply uwrap_id. Qed.
Lemma u64_id z : 0 <= z < 18446744073709551616 -> u64 z = z.
Proof. intros H. by apply uwrap_id. Qed.

(** [no_wrap] removes every wrap-around whose operand is in range. *)
Ltac no_wrap :=
  repeat match goal with
  | |- context [uwrap 32 ?z] => rewrite (u32_id z) by lia
  | |- context [swrap 32 ?z] => rewrite (s32_id z) by lia
  | |- context [swrap 64 ?z] => rewrite (s64_id z) by lia
  | |- context [swrap 16 ?z] => rewrite (s16_id z) by lia
  | |- context [uwrap 16 ?z] => rewrite (u16_id z) by lia
  | |- context [uwrap 64 ?z] => rewrite (u64_id z) by lia
  end.

(** Linear arithmetic with quotients and remainders. *)
Ltac div_lia := Z.to_euclidean_division_equations; lia.

(** A [char] read as a number: [char] is signed on the platforms built for. *)
Definition schar (b : Z) : Z := s8 b.

(** ** Outcomes

    [Ok] is a normal return.  [Fault] is undefined behaviour the C code runs
    into: an access outside an object, a NULL dereference, the use of a freed
    block, an out-of-range conversion.  [NoFuel] means that a loop or a
    recursion did not finish within the fuel it was given. *)
Inductive outcome (A : Type) : Type :=
  | Ok (a : A)
  | Fault
  | NoFuel.
Arguments Ok {A} a.
Arguments Fault {A}.
Arguments NoFuel {A}.

#[export] Instance outcome_ret : MRet outcome := @Ok.
#[export] Instance outcome_bind : MBind outcome := λ A B f o,
  match o with Ok a => f a | Fault => Fault | NoFuel => NoFuel end.

(** An access that is a fault when it misses. *)
Definition or_fault {A} (o : option A) : outcome A :=
  match o with Some a => Ok a | None => Fault end.

Lemma outcome_bind_ok {A B} (o : outcome A) (f : A -> outcome B) b :
  (a ← o; f a) = Ok b -> exists a, o = Ok a /\ f a = Ok b.
Proof. destruct o; simpl; intros H; [eauto|discriminate|discriminate]. Qed.

(** [ok_inv H] turns [H : (x ← o; f x) = Ok b] into the facts about its steps. *)
Ltac ok_inv H :=
  let a := fresh "a" in let E := fresh "E" in
  apply outcome_bind_ok in H as (a & E & H).

(** Two results of the same step are equal. *)
Ltac rewrite_ok :=
  repeat match goal with
  | H1 : ?a = Ok ?x, H2 : ?a = Ok ?y |- _ => rewrite H1 in H2; injection H2 as H2; subst
  end.

(** ** Lists indexed by [Z] *)

Section zlist.
Context {A : Type}.
Implicit Types (l : list A) (i : Z).

Definition zlen l : Z := Z.of_nat (length l).

(** [l[i]]; outside the object the access is a fault. *)
Definition zget l i : outcome A :=
  if i <? 0 then Fault else or_fault (l !! Z.to_nat i).

(** [l[i] = x]; outside the object the write is a fault. *)
Definition zset l i (x : A) : outcome (list A) :=
  if (0 <=? i) && (i <? zlen l) then Ok (<[Z.to_nat i := x]> l) else Fault.

Lemma zlen_nonneg l : 0 <= zlen l.
Proof. unfold zlen. lia. Qed.

Lemma zget_lookup l i x : 0 <= i -> l !! Z.to_nat i = Some x -> zget l i = Ok x.
Proof. intros Hi Hl. unfold zget. destruct (Z.ltb_spec i 0); [lia|]. by rewrite Hl. Qed.

Lemma zget_Ok l i x : zget l i = Ok x <-> 0 <= i /\ l !! Z.to_nat i = Some x.
Proof.
  unfold zget. destruct (Z.ltb_spec i 0).
  - split; [discriminate|lia].
  - destruct (l !! Z.to_nat i); simpl; split; [intros [= ->]|intros [_ [= ->]]|..]; intuition congruence.
Qed.

Lemma zget_in_range l i : 0 <= i < zlen l -> exists x, zget l i = Ok x.
Proof.
  intros H. unfold zlen in H.
  destruct (lookup_lt_is_Some_2 l (Z.to_nat i)) as [x Hx]; [lia|].
  exists x. apply zget_lookup; [lia|done].
Qed.

Lemma zget_Ok_range l i x : zget l i = Ok x -> 0 <= i < zlen l.
Proof.
  intros H. apply zget_Ok in H as [Hi Hl]. apply lookup_lt_Some in Hl.
  unfold zlen. lia.
Qed.

Lemma zget_out_of_range l i : i < 0 \/ zlen l <= i -> zget l i = Fault.
Proof.
  intros H. unfold zget, zlen in *. destruct (Z.ltb_spec i 0); [done|].
  rewrite lookup_ge_None_2 by lia. done.
Qed.

Lemma zset_in_range l i x :
  0 <= i < zlen l -> zset l i x = Ok (<[Z.to_nat i := x]> l).
Proof.
  intros H. unfold zset.
  destruct (Z.leb_spec 0 i), (Z.ltb_spec i (zlen l)); simpl; done || lia.
Qed.

Lemma zset_Ok l i x l' :
  zset l i x = Ok l' -> 0 <= i < zlen l /\ l' = <[Z.to_nat i := x]> l.
Proof.
  unfold zset. destruct (Z.leb_spec 0 i), (Z.ltb_spec i (zlen l)); simpl;
    intros Hx; [by injection Hx as <-|discriminate..].
Qed.

Lemma zlen_insert l (n : nat) x : zlen (<[n := x]> l) = zlen l.
Proof. unfold zlen. by rewrite length_insert. Qed.

Lemma zlen_app l1 l2 : zlen (l1 ++ l2) = zlen l1 + zlen l2.
Proof. unfold zlen. rewrite length_app. lia. Qed.

Lemma zlen_cons x l : zlen (x :: l) = 1 + zlen l.
Proof. unfold zlen. simpl. lia. Qed.

Lemma zget_app_l l1 l2 i : i < zlen l1 -> zget (l1 ++ l2) i = zget l1 i.
Proof.
  intros H. unfold zget, zlen in *. destruct (Z.ltb_spec i 0); [done|].
  rewrite lookup_app_l by lia. done.
Qed.

Lemma zget_app_r l1 l2 i : zlen l1 <= i -> zget (l1 ++ l2) i = zget l2 (i - zlen l1).
Proof.
  intros H. unfold zget, zlen in *.
  destruct (Z.ltb_spec i 0); [lia|]. destruct (Z.ltb_spec (i - Z.of_nat (length l1)) 0); [lia|].
  rewrite lookup_app_r by lia. do 2 f_equal. lia.
Qed.

Lemma zget_0_cons x l : zget (x :: l) 0 = Ok x.
Proof. done. Qed.

Lemma zget_cons x l i : 0 < i -> zget (x :: l) i = zget l (i - 1).
Proof.
  intros H. change (x :: l) with ([x] ++ l).
  rewrite zget_app_r; [done|]. unfold zlen. simpl. lia.
Qed.
End zlist.

Create Rewrite HintDb zlen.
#[export] Hint Rewrite @zlen_app @zlen_cons @zlen_insert @length_insert : zlen.
#[export] Hint Resolve zlen_nonneg : core.

(** Lengths of concrete layouts. *)
Ltac zlen_lia :=
  repeat match goal with
  | |- context [zlen (_ ++ _)] => rewrite zlen_app
  | |- context [zlen (_ :: _)] => rewrite zlen_cons
  | H : context [zlen (_ ++ _)] |- _ => rewrite zlen_app in H
  | H : context [zlen (_ :: _)] |- _ => rewrite zlen_cons in H
  end;
  unfold zlen in *; cbn [length] in *; lia.

(** A list cut at a position. *)
Lemma split_at {A} (s : list A) n : (n <= length s)%nat -> exists a b, s = a ++ b /\ length a = n.
Proof. intros H. exists (take n s), (drop n s). rewrite take_drop, length_take. split; [done|lia]. Qed.

Lemma split_last {A} (l : list A) n : length l = S n -> exists l' x, l = l' ++ [x] /\ length l' = n.
Proof.
  intros Hl. destruct (exists_last (l := l)) as (l' & x & ->); [by destruct l|].
  exists l', x. split; [done|]. rewrite length_app in Hl. simpl in Hl. lia.
Qed.

Lemma split_at_end {A} (l : list A) k : (k <= length l)%nat -> exists u v, l = u ++ v /\ length v = k.
Proof.
  intros Hk. exists (take (length l - k) l), (drop (length l - k) l). rewrite take_drop, length_drop. split; [done|lia].
Qed.

(** Counting the elements of a list that satisfy a boolean predicate. *)
Section count.
Context {A : Type} (f : A -> bool).

Definition countb (l : list A) : Z := zlen (List.filter f l).

Lemma countb_nil : countb [] = 0.
Proof. done. Qed.
Lemma countb_cons x l : countb (x :: l) = (if f x then 1 else 0) + countb l.
Proof. unfold countb. simpl. destruct (f x); [rewrite zlen_cons|]; lia. Qed.
Lemma countb_app l1 l2 : countb (l1 ++ l2) = countb l1 + countb l2.
Proof. unfold countb. by rewrite List.filter_app, zlen_app. Qed.
Lemma countb_bounds l : 0 <= countb l <= zlen l.
Proof.
  induction l as [|x l IH]; [done|]. rewrite countb_cons, zlen_cons. destruct (f x); lia.
Qed.

Lemma countb_insert l (i : nat) x y :
  l !! i = Some y ->
  countb (<[i := x]> l) = countb l - (if f y then 1 else 0) + (if f x then 1 else 0).
Proof.
  revert i; induction l as [|z l IH]; intros [|i] Hl; simplify_eq/=.
  - rewrite !countb_cons. lia.
  - rewrite !countb_cons, (IH i) by done. lia.
Qed.

Lemma countb_replicate n x : countb (replicate n x) = if f x then Z.of_nat n else 0.
Proof.
  induction n as [|n IH]; simpl; [by destruct (f x)|].
  rewrite countb_cons, IH. destruct (f x); lia.
Qed.
End count.

Lemma countb_negb {A} (f : A -> bool) l : countb (λ x, negb (f x)) l + countb f l = zlen l.
Proof.
  induction l as [|x l IH]; [done|]. rewrite !countb_cons, zlen_cons. destruct (f x); simpl; lia.
Qed.

Lemma countb_le_pointwise {A} (f g : A -> bool) l :
  (forall x, f x = true -> g x = true) -> countb f l <= countb g l.
Proof.
  intros H. induction l as [|x l IH]; [done|]. rewrite !countb_cons.
  specialize (H x). destruct (f x), (g x); lia.
Qed.

(** The first [n] positions at which a decidable property can hold: either it
    holds at none of them or there is a least one. *)
Lemma least_witness (P : nat -> Prop) `{!forall i, Decision (P i)} (n : nat) :
  (exists i, (i <= n)%nat /\ P i /\ forall j, (j < i)%nat -> ~ P j) \/
  (forall i, (i <= n)%nat -> ~ P i).
Proof.
  induction n as [|n IH].
  - destruct (decide (P 0%nat)) as [HP|HP].
    + left. exists 0%nat. split_and!; [lia|exact HP|lia].
    + right. intros i Hi. replace i with 0%nat by lia. exact HP.
  - destruct IH as [(i & Hi & HP & Hleast)|Hnone].
    + left. exists i. split_and!; [lia|exact HP|exact Hleast].
    + destruct (decide (P (S n))) as [HP|HP].
      * left. exists (S n). split_and!; [lia|exact HP|]. intros j Hj. apply Hnone. lia.
      * right. intros i Hi. destruct (decide (i = S n)) as [->|]; [exact HP|]. apply Hnone. lia.
Qed.

(** ** A pigeonhole on positions *)

Section indices.
Context {A : Type} (f : A -> bool).

Definition indices (l : list A) : list nat :=
  List.filter (λ i, match l !! i with Some x => f x | None => false end) (seq 0 (length l)).

Lemma length_indices l : zlen (indices l) = countb f l.
Proof using Type.
  induction l as [|x l IH] using rev_ind; [done|].
  unfold indices. rewrite length_app, seq_app, List.filter_app, zlen_app. simpl.
  rewrite lookup_app_r, Nat.sub_diag by lia. simpl.
  replace (List.filter _ (seq 0 (length l))) with (indices l).
  - rewrite IH, countb_app, countb_cons, countb_nil. destruct (f x); done.
  - unfold indices. apply filter_ext_in. intros i Hi%in_seq.
    rewrite lookup_app_l by lia. done.
Qed.

Lemma elem_of_indices l i : i ∈ indices l <-> exists x, l !! i = Some x /\ f x = true.
Proof using Type.
  unfold indices. rewrite list_elem_of_In, filter_In, in_seq.
  split.
  - intros [Hi Hx]. destruct (l !! i) as [x|]; [eauto|done].
  - intros (x & Hl & Hx). rewrite Hl. pose proof (lookup_lt_Some _ _ _ Hl). split; [lia|done].
Qed.

(** A list of more distinct positions than there are elements satisfying
    [f] has a position that does not. *)
Lemma pigeonhole l (ps : list nat) :
  NoDup ps -> countb f l < zlen ps -> (forall i, i ∈ ps -> (i < length l)%nat) ->
  exists i x, i ∈ ps /\ l !! i = Some x /\ f x = false.
Proof using Type.
  intros Hnd Hlen Hr.
  destruct (decide (Forall (λ i, i ∈ indices l) ps)) as [Hall|Hsome].
  - exfalso. rewrite Forall_forall in Hall.
    assert (ps ⊆+ indices l) as Hsub by by apply NoDup_submseteq.
    apply submseteq_length in Hsub. rewrite <- length_indices in Hlen. unfold zlen in Hlen. lia.
  - apply not_Forall_Exists in Hsome; [|apply _]. apply Exists_exists in Hsome as (i & Hi & Hn).
    destruct (lookup_lt_is_Some_2 l i) as [x Hx]; [by apply Hr|].
    exists i, x. split_and!; [done|done|]. destruct (f x) eqn:E; [|done].
    destruct Hn. apply elem_of_indices. eauto.
Qed.
End indices.
