(* ===== verification/LibC.v ===== *)
(** * The part of the C library the sources call

    Character classes, the [str*] family, [atoi]/[atol], and the integer
    conversions of [sprintf].  A C string is the list of its bytes; a buffer
    is the list of all its bytes, the terminating NUL and the slack after it
    included.  A list that ends stands for a string that ends: reading past
    its end gives the NUL. *)

From S2P Require Import Prelude.

Abbreviation bytes := (list Z).

(** A string literal of the source as bytes. *)
Definition lit (s : string) : bytes :=
  List.map (λ c, Z.of_N (Ascii.N_of_ascii c)) (String.list_ascii_of_string s).

(** The bytes before the first NUL. *)
Fixpoint content (s : bytes) : bytes :=
  match s with
  | [] => []
  | c :: s' => if c =? 0 then [] else c :: content s'
  end.

(** A byte of a C string is a nonzero [unsigned char]. *)
Definition cchar (c : Z) : Prop := 0 < c < 256.
Definition cstring (s : bytes) : Prop := Forall cchar s.

#[export] Instance cchar_dec c : Decision (cchar c).
Proof. unfold cchar. apply _. Defined.
#[export] Instance cstring_dec s : Decision (cstring s).
Proof. unfold cstring. apply _. Defined.

Lemma content_cstring s : cstring s -> content s = s.
Proof.
  induction 1 as [|c s Hc Hs IH]; [done|]. simpl.
  destruct (Z.eqb_spec c 0) as [->|]; [destruct Hc; lia|]. by rewrite IH.
Qed.

Lemma content_idemp s : content (content s) = content s.
Proof.
  induction s as [|c s IH]; [done|]. simpl. destruct (c =? 0) eqn:E; [done|].
  simpl. by rewrite E, IH.
Qed.

Lemma content_app s r : cstring s -> content (s ++ 0 :: r) = s.
Proof.
  induction 1 as [|c s Hc Hs IH]; [done|]. simpl.
  destruct (Z.eqb_spec c 0) as [->|]; [destruct Hc; lia|]. by rewrite IH.
Qed.

(** ** string.h *)

(** [strlen] of a buffer: a fault when the buffer holds no NUL. *)
Fixpoint strlen (buf : bytes) : outcome Z :=
  match buf with
  | [] => Fault
  | c :: buf' => if c =? 0 then Ok 0 else n ← strlen buf'; Ok (1 + n)
  end.

Lemma strlen_app s r : cstring s -> strlen (s ++ 0 :: r) = Ok (zlen s).
Proof.
  induction 1 as [|c s Hc Hs IH]; [done|]. simpl.
  destruct (Z.eqb_spec c 0) as [->|]; [destruct Hc; lia|].
  rewrite IH. simpl. by rewrite zlen_cons.
Qed.

Fixpoint strncmp (n : nat) (a b : bytes) : Z :=
  match n with
  | O => 0
  | S n =>
      let x := hd 0 a in
      let y := hd 0 b in
      if x =? y then if x =? 0 then 0 else strncmp n (tl a) (tl b)
      else x - y
  end.

(** [strncmp] sees at most [n] bytes of each content, and nothing else. *)
Lemma strncmp_eq n a b :
  strncmp n a b = 0 <-> take n (content a) = take n (content b).
Proof.
  revert a b; induction n as [|n IH]; intros a b; [done|].
  destruct a as [|x a], b as [|y b]; simpl.
  - done.
  - destruct y; simpl; split; intros; done || lia.
  - destruct (Z.eqb_spec x 0) as [->|]; simpl; split; intros; done || lia.
  - destruct (Z.eqb_spec x y) as [->|Hxy].
    + destruct (y =? 0); [done|]. rewrite IH. simpl. split; congruence.
    + destruct (Z.eqb_spec x 0), (Z.eqb_spec y 0); simpl; split; intros; simplify_eq; done || lia.
Qed.

(** The [n] bytes [strncpy] writes: the source, cut or padded with NULs. *)
Definition strncpy (n : nat) (src : bytes) : bytes :=
  let s := take n (content src) in s ++ replicate (n - length s) 0.

Lemma strncpy_length n src : length (strncpy n src) = n.
Proof.
  unfold strncpy. rewrite length_app, length_replicate, length_take. lia.
Qed.

Lemma content_nonzero s : Forall (λ c, c <> 0) (content s).
Proof.
  induction s as [|c s IH]; [constructor|]. simpl.
  destruct (Z.eqb_spec c 0); constructor; done.
Qed.

Lemma content_nonzero_app s r : Forall (λ c, c <> 0) s -> content (s ++ r) = s ++ content r.
Proof.
  induction 1 as [|c s Hc Hs IH]; [done|]. simpl.
  destruct (Z.eqb_spec c 0); [done|]. by rewrite IH.
Qed.

Lemma content_replicate_0 n r : content (replicate n 0 ++ 0 :: r) = [].
Proof. by destruct n. Qed.

(** What was copied reads back, up to the first [n] bytes, whatever follows. *)
Lemma take_content_strncpy n src r :
  take n (content (strncpy n src ++ r)) = take n (content src).
Proof.
  unfold strncpy. set (s := take n (content src)).
  assert (Forall (λ c, c <> 0) s) as Hs by apply Forall_take, content_nonzero.
  rewrite <- app_assoc, content_nonzero_app by done.
  destruct (decide (length s = n)) as [Hl|Hl].
  - rewrite take_app_le by lia. by apply take_ge; lia.
  - destruct (n - length s)%nat eqn:E; simpl.
    + subst s. rewrite length_take in *. lia.
    + rewrite app_nil_r. subst s. by rewrite take_take, Nat.min_id.
Qed.

(** ** ctype.h, C locale *)

Definition isspace (c : Z) : bool := (c =? 32) || ((9 <=? c) && (c <=? 13)).
Definition isdigit (c : Z) : bool := (48 <=? c) && (c <=? 57).
Definition toupper (c : Z) : Z := if (97 <=? c) && (c <=? 122) then c - 32 else c.
Definition tolower (c : Z) : Z := if (65 <=? c) && (c <=? 90) then c + 32 else c.

(** ** Decimal conversions *)

(** The value of the leading digits, starting from [acc]. *)
Fixpoint digits_value (acc : Z) (s : bytes) : Z :=
  match s with
  | c :: s' => if isdigit c then digits_value (acc * 10 + (c - 48)) s' else acc
  | [] => acc
  end.

Fixpoint skip_spaces (s : bytes) : bytes :=
  match s with
  | c :: s' => if isspace c then skip_spaces s' else s
  | [] => []
  end.

(** [strtol(s, NULL, 10)]: white space, an optional sign, digits; the result
    is clamped to the range of [long]. *)
Definition strtol (s : bytes) : Z :=
  let v := match skip_spaces s with
           | 45 :: s' => - digits_value 0 s'
           | 43 :: s' => digits_value 0 s'
           | s' => digits_value 0 s'
           end in
  Z.max (-9223372036854775808) (Z.min 9223372036854775807 v).

(** glibc: [atol] and [atoll] are [strtol], [atoi] is its [int] truncation. *)
Definition atol (s : bytes) : Z := strtol s.
Definition atoll (s : bytes) : Z := strtol s.
Definition atoi (s : bytes) : Z := s32 (strtol s).

(** The decimal digits of a natural number, least significant first in the
    accumulator; 1 + log2 digits are always enough. *)
Fixpoint dec_digits (fuel : nat) (n : Z) (acc : bytes) : bytes :=
  match fuel with
  | O => acc
  | S fuel =>
      let acc' := (48 + n mod 10) :: acc in
      if n / 10 =? 0 then acc' else dec_digits fuel (n / 10) acc'
  end.

Definition dec_nat (n : Z) : bytes := dec_digits (S (Z.to_nat (Z.log2 n))) n [].

(** ["%d"], ["%ld"], ["%u"], ... of the value [z]. *)
Definition dec (z : Z) : bytes := if z <? 0 then 45 :: dec_nat (- z) else dec_nat z.

(** A field of at least [w] characters: blanks on the left (["%*d"]). *)
Definition pad_left (w : nat) (c : Z) (s : bytes) : bytes := replicate (w - length s) c ++ s.
(** ["%-*s"]. *)
Definition pad_right (w : nat) (c : Z) (s : bytes) : bytes := s ++ replicate (w - length s) c.

(** ["%0<w>d"]: zeros after the sign. *)
Definition dec0 (w : nat) (z : Z) : bytes :=
  if z <? 0 then 45 :: pad_left (w - 1) 48 (dec_nat (- z)) else pad_left w 48 (dec_nat z).

Lemma isdigit_true c : isdigit c = true <-> 48 <= c <= 57.
Proof. unfold isdigit. lia. Qed.

Definition all_digits (s : bytes) : Prop := Forall (λ c, 48 <= c <= 57) s.

Lemma digits_value_app acc s r :
  all_digits s -> digits_value acc (s ++ r) = digits_value (digits_value acc s) r.
Proof.
  intros Hs. revert acc. induction Hs as [|c s Hc Hs IH]; intros acc; [done|].
  simpl. rewrite (proj2 (isdigit_true c)) by done. apply IH.
Qed.

Lemma digits_value_zeros n s : digits_value 0 (replicate n 48 ++ s) = digits_value 0 s.
Proof. induction n as [|n IH]; [done|]. apply IH. Qed.

Lemma dec_digits_spec fuel n acc :
  0 <= n -> n < 10 ^ Z.of_nat fuel -> (0 < fuel)%nat ->
  exists s, dec_digits fuel n acc = s ++ acc /\ all_digits s /\ s <> [] /\
    (forall a, digits_value a s = a * 10 ^ zlen s + n) /\ zlen s <= Z.of_nat fuel /\
    (forall k, 0 < k -> n < 10 ^ k -> zlen s <= k).
Proof.
  revert n acc. induction fuel as [|fuel IH]; intros n acc Hn Hb Hf; [lia|].
  pose proof (Z.mod_pos_bound n 10 ltac:(lia)) as Hm.
  pose proof (Z.div_mod n 10 ltac:(lia)) as Hd.
  assert (0 <= n / 10) as Hq by (apply Z.div_pos; lia).
  cbn [dec_digits]. destruct (Z.eqb_spec (n / 10) 0) as [E|E].
  - exists [48 + n mod 10]. split_and!; [done|repeat constructor; lia|done| | |].
    + intros a. simpl. rewrite (proj2 (isdigit_true _)) by lia.
      change (zlen [48 + n mod 10]) with 1. lia.
    + change (zlen [48 + n mod 10]) with 1. lia.
    + change (zlen [48 + n mod 10]) with 1. lia.
  - rewrite Nat2Z.inj_succ, Z.pow_succ_r in Hb by lia.
    assert (n / 10 < 10 ^ Z.of_nat fuel) as Hb' by (apply Z.div_lt_upper_bound; lia).
    destruct fuel as [|fuel'].
    { change (10 ^ Z.of_nat 0) with 1 in Hb'. lia. }
    destruct (IH (n / 10) ((48 + n mod 10) :: acc) Hq Hb' ltac:(lia))
      as (s & -> & Hs & Hne & Hv & Hl & Hk).
    exists (s ++ [48 + n mod 10]). split_and!.
    + by rewrite <- app_assoc.
    + apply Forall_app. split; [done|]. repeat constructor; lia.
    + by destruct s.
    + intros a. rewrite digits_value_app, Hv by done. simpl.
      rewrite (proj2 (isdigit_true _)) by lia.
      rewrite zlen_app. change (zlen [48 + n mod 10]) with 1.
      rewrite Z.pow_add_r by (pose proof (zlen_nonneg s); lia). lia.
    + rewrite zlen_app. change (zlen [48 + n mod 10]) with 1. lia.
    + intros k Hk0 Hkn. rewrite zlen_app. change (zlen [48 + n mod 10]) with 1.
      destruct (decide (k = 1)) as [->|].
      { change (10 ^ 1) with 10 in Hkn. rewrite Z.div_small in E by lia. lia. }
      assert (zlen s <= k - 1); [|lia]. apply Hk; [lia|].
      apply Z.div_lt_upper_bound; [lia|]. rewrite <- Z.pow_succ_r by lia.
      by replace (Z.succ (k - 1)) with k by lia.
Qed.

Lemma dec_nat_spec n :
  0 <= n -> all_digits (dec_nat n) /\ dec_nat n <> [] /\
    (forall a, digits_value a (dec_nat n) = a * 10 ^ zlen (dec_nat n) + n) /\
    (forall k, 0 < k -> n < 10 ^ k -> zlen (dec_nat n) <= k).
Proof.
  intros Hn. unfold dec_nat.
  destruct (dec_digits_spec (S (Z.to_nat (Z.log2 n))) n []) as (s & -> & Hs & Hne & Hv & _ & Hk);
    [done| |lia|by rewrite app_nil_r].
  rewrite Nat2Z.inj_succ, Z2Nat.id by apply Z.log2_nonneg.
  destruct (decide (n = 0)) as [->|]; [done|].
  pose proof (Z.log2_spec n ltac:(lia)) as [_ H].
  eapply Z.lt_le_trans; [exact H|]. apply Z.pow_le_mono_l.
  pose proof (Z.log2_nonneg n). lia.
Qed.

(** Digits are neither white space nor a sign, so [strtol] reads them. *)
Lemma strtol_digits s :
  s <> [] -> all_digits s ->
  strtol s = Z.max (-9223372036854775808) (Z.min 9223372036854775807 (digits_value 0 s)).
Proof.
  intros Hne Hs. destruct Hs as [|c s Hc Hs]; [done|]. unfold strtol.
  assert (skip_spaces (c :: s) = c :: s) as ->.
  { simpl. unfold isspace. destruct (Z.eqb_spec c 32), (Z.leb_spec 9 c), (Z.leb_spec c 13); done || lia. }
  assert (c <> 45 /\ c <> 43) as [? ?] by lia.
  destruct c as [|p|p]; [done| |done].
  repeat (destruct p as [p|p|]; try done).
Qed.

(** Reading back a printed number, whatever the zero padding. *)
Lemma strtol_dec0 w n : 0 <= n <= 9223372036854775807 -> strtol (dec0 w n) = n.
Proof.
  intros Hn. unfold dec0. destruct (Z.ltb_spec n 0); [lia|].
  destruct (dec_nat_spec n) as (Hd & Hne & Hv & _); [lia|].
  unfold pad_left. rewrite strtol_digits.
  - rewrite digits_value_zeros, Hv. lia.
  - intros H0. apply app_eq_nil in H0 as [_ H0]. done.
  - apply Forall_app. split; [|done]. apply Forall_replicate. lia.
Qed.

Lemma length_dec0 w n :
  (0 < w)%nat -> 0 <= n < 10 ^ Z.of_nat w -> length (dec0 w n) = w.
Proof.
  intros Hw Hn. unfold dec0. destruct (Z.ltb_spec n 0); [lia|].
  destruct (dec_nat_spec n) as (_ & _ & _ & Hk); [lia|].
  specialize (Hk (Z.of_nat w) ltac:(lia) ltac:(lia)). unfold zlen in Hk.
  unfold pad_left. rewrite length_app, length_replicate. lia.
Qed.

Lemma dec0_digits w n : 0 <= n -> all_digits (dec0 w n).
Proof.
  intros Hn. unfold dec0. destruct (Z.ltb_spec n 0); [lia|].
  destruct (dec_nat_spec n) as (Hd & _); [lia|].
  apply Forall_app. split; [|done]. apply Forall_replicate. lia.
Qed.

Lemma digits_cstring s : all_digits s -> cstring s.
Proof. intros H. eapply Forall_impl; [exact H|]. simpl. unfold cchar. lia. Qed.

#[export] Hint Resolve digits_cstring dec0_digits : core.
