(* ===== verification/Buffers.v ===== *)
(** * Buffers

    Counted loops over a state, [memcpy] and [memset] in a buffer with its
    bounds checked, and the access to a buffer whose layout is known. *)

From S2P Require Import Prelude LibC.

(** [for(i = i0; n more iterations; i += d)] over a state; the body says
    whether to go on. *)
Fixpoint for_loop {S : Type} (n : nat) (i d : Z) (body : Z -> S -> outcome (S * bool)) (s : S) : outcome S :=
  match n with
  | O => Ok s
  | Datatypes.S n =>
      r ← body i s;
      if r.2 : bool then for_loop n (i + d) d body r.1 else Ok r.1
  end.

(** [memcpy] and [memset] into a buffer; [memcpy] out of one. *)
Definition poke (buf : bytes) (at_ : Z) (src : bytes) : outcome bytes :=
  if (0 <=? at_) && (at_ + zlen src <=? zlen buf) then
    Ok (take (Z.to_nat at_) buf ++ src ++ drop (Z.to_nat (at_ + zlen src)) buf)
  else Fault.
Definition peek (buf : bytes) (at_ n : Z) : outcome bytes :=
  if (0 <=? at_) && (0 <=? n) && (at_ + n <=? zlen buf) then Ok (take (Z.to_nat n) (drop (Z.to_nat at_) buf))
  else Fault.
Definition memset (c : Z) (n : Z) : bytes := replicate (Z.to_nat n) c.

(** [strcpy(dst, src)]. *)
Definition strcpy (dst src : bytes) : outcome bytes := _ ← strlen src; poke dst 0 (content src ++ [0]).

(** [sprintf(buf, ...)] of a text. *)
Definition sprintf_to (buf text : bytes) : outcome bytes := poke buf 0 (text ++ [0]).

(** An [int] expression that may overflow. *)
Definition int_range (z : Z) : outcome Z := if (-2147483648 <=? z) && (z <=? 2147483647) then Ok z else Fault.

(** ** Reading and writing a known layout *)

Lemma zget_middle {A} (a : list A) x b i : i = zlen a -> zget (a ++ x :: b) i = Ok x.
Proof. intros ->. rewrite zget_app_r by lia. by rewrite Z.sub_diag. Qed.

Lemma zset_middle {A} (a : list A) x b i y : i = zlen a -> zset (a ++ x :: b) i y = Ok (a ++ y :: b).
Proof.
  intros ->. rewrite zset_in_range.
  - unfold zlen. rewrite Nat2Z.id. f_equal. rewrite insert_app_r_alt by lia. by rewrite Nat.sub_diag.
  - rewrite zlen_app, zlen_cons. pose proof (zlen_nonneg a). pose proof (zlen_nonneg b). lia.
Qed.

Lemma zset_0_cons {A} (x : A) l y : zset (x :: l) 0 y = Ok (y :: l).
Proof. exact (zset_middle [] x l 0 y eq_refl). Qed.

Lemma poke_layout a b c src i : i = zlen a -> zlen b = zlen src -> poke (a ++ b ++ c) i src = Ok (a ++ src ++ c).
Proof.
  intros -> Hb. unfold poke. pose proof (zlen_nonneg a). pose proof (zlen_nonneg c).
  rewrite !zlen_app. destruct (Z.leb_spec 0 (zlen a)); [|lia].
  destruct (Z.leb_spec (zlen a + zlen src) (zlen a + (zlen b + zlen c))); [|lia]. simpl. f_equal.
  unfold zlen in *. rewrite Nat2Z.id, take_app_length. f_equal. f_equal.
  rewrite app_assoc. apply drop_app_length'. rewrite length_app. lia.
Qed.

Lemma peek_layout a b c i n : i = zlen a -> n = zlen b -> peek (a ++ b ++ c) i n = Ok b.
Proof.
  intros -> ->. unfold peek. pose proof (zlen_nonneg a). pose proof (zlen_nonneg b). pose proof (zlen_nonneg c).
  rewrite !zlen_app. destruct (Z.leb_spec 0 (zlen a)); [|lia]. destruct (Z.leb_spec 0 (zlen b)); [|lia].
  destruct (Z.leb_spec (zlen a + zlen b) (zlen a + (zlen b + zlen c))); [|lia]. simpl. f_equal.
  unfold zlen. by rewrite !Nat2Z.id, drop_app_length, take_app_length.
Qed.

Lemma peek_prefix a t n : n = zlen a -> peek (a ++ t) 0 n = Ok a.
Proof. intros H. exact (peek_layout [] a t 0 n eq_refl H). Qed.

Lemma poke_prefix a t src : zlen a = zlen src -> poke (a ++ t) 0 src = Ok (src ++ t).
Proof. intros H. exact (poke_layout [] a t src 0 eq_refl H). Qed.
