(* ===== verification/PrimeTable.v ===== *)
(** * The table of bucket counts ([prime_number.h]) and its search

    [prime_number.h] is an initialiser that lists, in increasing order, the
    primes below 1,000,000: 78,498 entries, from 2 to 999983.  The list is
    written here as a comprehension instead of as 19,628 lines of literals.
    [bsearch_number_of_buckets] of [im_hashtable.c] is proved against the
    interface [BucketCounts], which the table implements. *)

From Stdlib Require Import Zdivisibility Sorting.Sorted.
From S2P Require Import Prelude.

(** ** The table *)

Definition is_prime (n : Z) : bool :=
  (1 <? n) && forallb (λ d, negb (n mod d =? 0)) (seqZ 2 (Z.sqrt n - 1)).

Definition prime_number : list Z := List.filter is_prime (seqZ 2 999998).

(** ** The search *)

Section bsearch.
Context (table : list Z).

Fixpoint bsearch_loop (fuel : nat) (number_of_buckets start end_ : Z) : outcome Z :=
  if 1 <? end_ - start then
    match fuel with
    | O => NoFuel
    | S fuel =>
        let i := Z.shiftr (start + end_) 1 in
        p ← zget table i;
        if p <? number_of_buckets then bsearch_loop fuel number_of_buckets i end_
        else if number_of_buckets <? p then bsearch_loop fuel number_of_buckets start i
        else bsearch_loop fuel number_of_buckets start end_
    end
  else zget table end_.

(** [capacity << 1] is computed in [int]; the fuel is the number of entries,
    each iteration narrows the interval. *)
Definition bsearch_in (capacity : Z) : outcome Z :=
  bsearch_loop (length table) (s32 (Z.shiftl capacity 1)) 0 (zlen table - 1).
End bsearch.

Definition bsearch_number_of_buckets (capacity : Z) : outcome Z :=
  bsearch_in prime_number capacity.

(** ** What the search needs of the table *)

Class BucketCounts (table : list Z) (largest : Z) : Prop := {
  bc_sorted i j x y : table !! i = Some x -> table !! j = Some y -> (i < j)%nat -> x < y;
  bc_prime x : x ∈ table -> Z.prime x;
  bc_complete x : Z.prime x -> x <= largest -> x ∈ table;
  bc_first : table !! 0%nat = Some 2;
  bc_largest : last table = Some largest;
  bc_largest_bounds : 3 <= largest < 1073741824;
}.

(** A prime other than 2 is odd, so the even number searched for is no entry
    past the first. *)

Lemma prime_odd p : Z.prime p -> p <> 2 -> Z.odd p = true.
Proof.
  intros Hp H2. destruct (Z.odd p) eqn:E; [done|].
  rewrite <- Z.negb_even in E. apply negb_false_iff, Z.even_spec in E as [k Hk].
  pose proof (Z.prime_ge_2 p Hp).
  exfalso. apply (proj2 Hp 2); [lia|]. exists k. lia.
Qed.

Section search.
Context (table : list Z) (largest : Z) `{HT : BucketCounts table largest}.

Lemma table_second : exists x, table !! 1%nat = Some x.
Proof using HT.
  pose proof bc_largest as Hl. pose proof bc_first as Hf.
  pose proof (@bc_largest_bounds _ _ HT).
  apply lookup_lt_is_Some_2.
  destruct table as [|x [|y t]]; simpl in *; [done| |lia].
  simplify_eq. lia.
Qed.

Lemma table_last i : i = zlen table - 1 -> zget table i = Ok largest.
Proof using HT.
  intros ->. destruct table_second as [x Hx]. apply lookup_lt_Some in Hx.
  pose proof bc_largest as Hl. rewrite last_lookup in Hl.
  apply zget_lookup; unfold zlen; [lia|]. rewrite <- Hl. f_equal. lia.
Qed.

Lemma bc_sorted_Z i j x y : zget table i = Ok x -> zget table j = Ok y -> i < j -> x < y.
Proof using HT.
  rewrite !zget_Ok. intros [Hi Hx] [Hj Hy] Hij.
  eapply bc_sorted; [exact Hx|exact Hy|lia].
Qed.

Lemma zget_elem i x : zget table i = Ok x -> x ∈ table.
Proof using Type. rewrite zget_Ok. intros [_ H]. by eapply list_elem_of_lookup_2. Qed.

(** The loop returns the entry after [start] when the interval brackets the
    number searched for. *)
Lemma bsearch_loop_spec fuel number start end_ pe :
  (Z.to_nat (end_ - start) <= fuel)%nat -> 0 <= start < end_ ->
  Z.even number = true ->
  (start = 0 \/ exists ps, zget table start = Ok ps /\ ps < number) ->
  zget table end_ = Ok pe -> (number < pe \/ pe = largest) ->
  exists e p, bsearch_loop table fuel number start end_ = Ok p /\ zget table e = Ok p /\
    1 <= e <= end_ /\ (number < p \/ p = largest) /\
    (e = 1 \/ exists q, zget table (e - 1) = Ok q /\ q < number).
Proof using HT.
  revert start end_ pe. induction fuel as [|fuel IH]; intros start end_ pe Hf Hse Hev Hs He Hpe; [lia|].
  cbn [bsearch_loop]. destruct (Z.ltb_spec 1 (end_ - start)) as [Hgap|Hgap].
  2:{ assert (end_ = start + 1) as -> by lia.
      exists (start + 1), pe. split_and!; [done|done|lia|lia|done|].
      destruct Hs as [->|Hs]; [by left|]. right. by replace (start + 1 - 1) with start by lia. }
  rewrite Z.shiftr_div_pow2 by lia. change (2 ^ 1) with 2.
  set (i := (start + end_) / 2).
  assert (start < i < end_) as Hi.
  { unfold i. split; [|apply Z.div_lt_upper_bound; lia].
    apply Z.lt_le_trans with (start + 1); [lia|]. apply Z.div_le_lower_bound; lia. }
  pose proof (zget_Ok_range _ _ _ He) as Hr.
  destruct (zget_in_range table i) as [p Hp]; [lia|]. rewrite Hp. cbn [mbind outcome_bind].
  assert (p <> number) as Hne.
  { intros ->. assert (Z.prime number) as Hprime by (eapply bc_prime, zget_elem, Hp).
    assert (2 < number).
    { eapply (bc_sorted_Z 0 i); [|exact Hp|lia].
      apply zget_lookup; [lia|]. apply bc_first. }
    assert (Z.odd number = true) as Ho by (apply prime_odd; [done|lia]).
    rewrite <- Z.negb_even, Hev in Ho. done. }
  destruct (Z.ltb_spec p number) as [Hlt|Hge].
  - destruct (IH i end_ pe) as (e & q & ? & ? & ? & ? & ?); [lia|lia|done| |done|done|].
    { right. eauto. }
    exists e, q. split_and!; try done; lia.
  - destruct (Z.ltb_spec number p); [|lia].
    destruct (IH start i p) as (e & q & ? & ? & ? & ? & ?); [lia|lia|done|done|done|by left|].
    exists e, q. split_and!; try done; lia.
Qed.

(** The result of the search: an odd prime, above [2 * capacity] unless the
    table is exhausted, and the least such one. *)
Lemma bsearch_in_spec capacity :
  0 <= capacity < 1073741824 ->
  exists p, bsearch_in table capacity = Ok p /\ Z.prime p /\ 3 <= p <= largest /\ Z.odd p = true /\
    (2 * capacity < p \/ p = largest) /\
    (forall q, Z.prime q -> 2 < q -> 2 * capacity < q -> p <= q).
Proof using HT.
  intros Hc. unfold bsearch_in.
  assert (s32 (Z.shiftl capacity 1) = 2 * capacity) as ->.
  { rewrite Z.shiftl_mul_pow2 by lia. change (2 ^ 1) with 2. rewrite s32_id; lia. }
  destruct table_second as [x1 Hx1]. pose proof (lookup_lt_Some _ _ _ Hx1) as Hlen.
  destruct (bsearch_loop_spec (length table) (2 * capacity) 0 (zlen table - 1) largest)
    as (e & p & -> & Hp & He & Hgt & Hprev).
  - unfold zlen. lia.
  - unfold zlen. lia.
  - by rewrite Z.even_mul.
  - by left.
  - by apply table_last.
  - by right.
  - assert (Z.prime p) as Hprime by (eapply bc_prime, zget_elem, Hp).
    assert (zget table 0 = Ok 2) as Hz by (apply zget_lookup; [lia|apply bc_first]).
    assert (2 < p) as H2 by (eapply (bc_sorted_Z 0 e); [done|done|lia]).
    assert (zget table (zlen table - 1) = Ok largest) as Hlast by by apply table_last.
    assert (p <= largest) as Hple.
    { destruct (decide (e = zlen table - 1)) as [E|]; [rewrite E, Hlast in Hp; injection Hp as Hp; lia|].
      pose proof (zget_Ok_range _ _ _ Hp).
      apply Z.lt_le_incl. eapply (bc_sorted_Z e (zlen table - 1)); [done|done|lia]. }
    exists p. split_and!; [done|done|lia|done|apply prime_odd; [done|lia]|done|].
    intros q Hq Hq2 Hqc. destruct (decide (p <= q)) as [|Hpq]; [done|].
    assert (q ∈ table) as Hin by (apply bc_complete; [done|lia]).
    apply list_elem_of_lookup in Hin as [j Hj].
    assert (zget table (Z.of_nat j) = Ok q) as Hj' by (apply zget_lookup; [lia|by rewrite Nat2Z.id]).
    assert (Z.of_nat j < e) as Hje.
    { destruct (decide (e <= Z.of_nat j)) as [Hle|]; [|lia].
      destruct (decide (e = Z.of_nat j)) as [E|]; [rewrite <- E, Hp in Hj'; injection Hj' as Hj'; lia|].
      pose proof (bc_sorted_Z e (Z.of_nat j) p q Hp Hj' ltac:(lia)). lia. }
    assert (0 < Z.of_nat j) as Hj0.
    { destruct (decide (Z.of_nat j = 0)) as [E|]; [|lia]. rewrite E, Hz in Hj'. injection Hj' as Hj'. lia. }
    destruct Hprev as [->|(r & Hr & Hrc)]; [lia|].
    destruct (decide (Z.of_nat j = e - 1)) as [E|]; [rewrite E, Hr in Hj'; injection Hj' as Hj'; lia|].
    pose proof (bc_sorted_Z (Z.of_nat j) (e - 1) q r Hj' Hr ltac:(lia)). lia.
Qed.
End search.

(** ** The table implements the interface *)

Lemma is_prime_spec n : is_prime n = true <-> Z.prime n.
Proof.
  unfold is_prime. rewrite andb_true_iff, Z.ltb_lt, forallb_forall.
  unfold Z.prime. split.
  - intros [H1 Hd]. split; [done|]. intros d Hdr [k Hk].
    assert (forall e, 1 < e <= Z.sqrt n -> ~ (e | n)) as Hsmall.
    { intros e He [q Hq]. specialize (Hd e). rewrite negb_true_iff, Z.eqb_neq in Hd.
      apply Hd; [|rewrite Hq; apply Z.mod_mul; lia].
      apply list_elem_of_In, elem_of_seqZ. lia. }
    destruct (decide (d <= Z.sqrt n)).
    + apply (Hsmall d); [lia|by exists k].
    + pose proof (Z.sqrt_spec n ltac:(lia)) as [Hs1 Hs2].
      apply (Hsmall k); [|exists d; lia].
      split; [nia|]. destruct (decide (k <= Z.sqrt n)); [done|]. nia.
  - intros [H1 Hd]. split; [done|]. intros d Hin.
    apply list_elem_of_In, elem_of_seqZ in Hin.
    apply negb_true_iff, Z.eqb_neq. intros Hm. apply (Hd d).
    + pose proof (Z.sqrt_lt_lin n H1). lia.
    + apply Z.mod_divide; lia.
Qed.

Lemma filter_sorted (f : Z -> bool) a n i j x y :
  List.filter f (seqZ a n) !! i = Some x -> List.filter f (seqZ a n) !! j = Some y ->
  (i < j)%nat -> x < y.
Proof.
  assert (forall l, StronglySorted Z.lt l -> forall i j x y,
    List.filter f l !! i = Some x -> List.filter f l !! j = Some y -> (i < j)%nat -> x < y) as Hgen.
  { induction 1 as [|z l Hl IH Hz]; intros i' j' x' y' Hx Hy Hij; [done|].
    simpl in *. destruct (f z); [|by eapply IH].
    destruct i' as [|i'], j' as [|j']; simpl in *; [lia| |lia|eapply IH; eauto with lia].
    simplify_eq. apply list_elem_of_lookup_2, list_elem_of_In, filter_In in Hy as [Hy _].
    apply list_elem_of_In in Hy. rewrite Forall_forall in Hz. by apply Hz. }
  apply Hgen. unfold seqZ. generalize (Z.to_nat n). clear. intros k.
  generalize 0%nat at 1. induction k as [|k IH]; intros s; simpl; constructor; [apply IH|].
  apply Forall_fmap, Forall_seq. intros. simpl. lia.
Qed.

Lemma elem_of_prime_number p : p ∈ prime_number <-> Z.prime p /\ p < 1000000.
Proof.
  unfold prime_number. rewrite list_elem_of_In, filter_In, <- list_elem_of_In, elem_of_seqZ, is_prime_spec.
  split; intros [H1 H2]; split; try done; try lia. apply Z.prime_ge_2 in H1. lia.
Qed.

#[export] Instance prime_number_counts : BucketCounts prime_number 999983.
Proof.
  constructor.
  - intros i j x y. apply filter_sorted.
  - intros x Hx. by apply elem_of_prime_number in Hx as [? _].
  - intros x Hx Hl. apply elem_of_prime_number. split; [done|lia].
  - done.
  - unfold prime_number.
    assert (seqZ 2 999998 = seqZ 2 999981 ++ 999983 :: seqZ 999984 16) as ->.
    { change (999983 :: seqZ 999984 16) with (seqZ (2 + 999981) (999998 - 999981)).
      rewrite <- seqZ_app by lia. f_equal. }
    rewrite List.filter_app.
    assert (List.filter is_prime (999983 :: seqZ 999984 16) = [999983]) as -> by (vm_compute; done).
    by rewrite last_snoc.
  - lia.
Qed.

(** Finding an entry of the table without enumerating it. *)
Lemma bsearch_number_of_buckets_at capacity p :
  0 <= capacity -> 2 * capacity < 999983 -> is_prime p = true -> 2 < p -> 2 * capacity < p ->
  forallb (λ q, negb (is_prime q)) (seqZ (Z.max 3 (2 * capacity)) (p - Z.max 3 (2 * capacity))) = true ->
  p <= 999983 ->
  bsearch_number_of_buckets capacity = Ok p.
Proof.
  intros Hc0 Hc Hp Hp2 Hpc Hnone Hmax. apply is_prime_spec in Hp.
  destruct (bsearch_in_spec prime_number 999983 capacity) as (q & Hq & Hqp & Hqb & _ & Hqc & Hleast); [lia|].
  unfold bsearch_number_of_buckets. rewrite Hq. f_equal.
  pose proof (Hleast p Hp ltac:(lia) ltac:(lia)) as Hle.
  destruct (decide (q = p)) as [|Hne]; [done|]. exfalso.
  rewrite forallb_forall in Hnone. specialize (Hnone q).
  rewrite negb_true_iff in Hnone. apply is_prime_spec in Hqp. rewrite Hnone in Hqp; [done|].
  apply list_elem_of_In, elem_of_seqZ. lia.
Qed.

#[global] Opaque prime_number.
