(* ===== verification/CFloat.v ===== *)
(** * C floating-point conversions

    [float], [double] and [long double] (binary32, binary64 and the x87
    80-bit format) as the [spec_float] values of the Standard Library's
    specification of IEEE 754, with the conversions the dictionary accessors
    perform: between the formats, to and from integers, from text ([atof]) and
    to text (["%.2f"]). *)

From Stdlib Require Import Floats.SpecFloat.
From S2P Require Import Prelude LibC.

(** A binary format: precision and largest exponent. *)
Record format := Format { prec : Z; emax : Z }.
Definition binary32 : format := Format 24 128.
Definition binary64 : format := Format 53 1024.
Definition x87 : format := Format 64 16384.

Definition float_of_Z (t : format) (z : Z) : spec_float :=
  binary_normalize (prec t) (emax t) z 0 false.

(** Conversion between formats: round to nearest, ties to even. *)
Definition float_round (t : format) (f : spec_float) : spec_float :=
  match f with
  | S754_finite s m e => binary_normalize (prec t) (emax t) (if s then Zneg m else Zpos m) e s
  | _ => f
  end.

(** Truncation toward zero; none for an infinity or a NaN. *)
Definition float_trunc (f : spec_float) : option Z :=
  match f with
  | S754_zero _ => Some 0
  | S754_finite s m e =>
      let v := if 0 <=? e then Zpos m * 2 ^ e else Zpos m / 2 ^ (- e) in
      Some (if s then - v else v)
  | _ => None
  end.

(** Conversion to an integer type [lo .. hi]: undefined outside the range. *)
Definition float_to_int (lo hi : Z) (f : spec_float) : outcome Z :=
  match float_trunc f with
  | Some z => if (lo <=? z) && (z <=? hi) then Ok z else Fault
  | None => Fault
  end.

(** ** [atof] *)

(** [m * 10^k], correctly rounded. *)
Definition float_of_decimal (t : format) (neg : bool) (m k : Z) : spec_float :=
  match m with
  | Zpos p =>
      if 0 <=? k then binary_normalize (prec t) (emax t) ((if neg then -1 else 1) * (m * 10 ^ k)) 0 neg
      else let '(q, e, l) := SFdiv_core_binary (prec t) (emax t) m 0 (10 ^ (- k)) 0 in
           binary_round_aux (prec t) (emax t) neg q e l
  | _ => S754_zero neg
  end.

Definition float_of_binary (t : format) (neg : bool) (m k : Z) : spec_float :=
  match m with
  | Zpos p => binary_normalize (prec t) (emax t) (if neg then - m else m) k neg
  | _ => S754_zero neg
  end.

Definition hexval (c : Z) : option Z :=
  if isdigit c then Some (c - 48)
  else if (97 <=? c) && (c <=? 102) then Some (c - 87)
  else if (65 <=? c) && (c <=? 70) then Some (c - 55) else None.
Definition decval (c : Z) : option Z := if isdigit c then Some (c - 48) else None.

(** The leading digits of a mantissa: the value, the number of digits, the
    rest of the text. *)
Fixpoint scan_digits (val : Z -> option Z) (base acc count : Z) (s : bytes) : Z * Z * bytes :=
  match s with
  | c :: s' =>
      match val c with
      | Some d => scan_digits val base (acc * base + d) (count + 1) s'
      | None => (acc, count, s)
      end
  | [] => (acc, count, [])
  end.

(** An exponent part introduced by the letter [e] (lower case), if complete. *)
Definition scan_exponent (e : Z) (s : bytes) : Z :=
  match s with
  | c :: s' =>
      if tolower c =? e then
        let '(neg, s'') := match s' with
                           | 45 :: r => (true, r) | 43 :: r => (false, r) | r => (false, r)
                           end in
        let '(x, _, _) := scan_digits decval 10 0 0 s'' in
        if (neg : bool) then - x else x
      else 0
  | [] => 0
  end.

(** Mantissa digits around an optional point: the value, the number of digits
    after the point, the number of digits, the rest. *)
Definition scan_mantissa (val : Z -> option Z) (base : Z) (s : bytes) : Z * Z * Z * bytes :=
  let '(m, n, r) := scan_digits val base 0 0 s in
  match r with
  | 46 :: r' => let '(m', n', r'') := scan_digits val base m 0 r' in (m', n', n + n', r'')
  | _ => (m, 0, n, r)
  end.

Definition starts_with_ci (p s : bytes) : bool :=
  bool_decide (List.map tolower (take (length p) s) = p).

(** [strtod(s, NULL)] in the C locale: a sign, then an infinity, a NaN, a
    hexadecimal or a decimal number; 0 when there is none. *)
Definition atof (s : bytes) : spec_float :=
  let '(neg, s) := match skip_spaces s with
                   | 45 :: r => (true, r) | 43 :: r => (false, r) | r => (false, r)
                   end in
  if starts_with_ci (lit "inf") s then S754_infinity neg
  else if starts_with_ci (lit "nan") s then S754_nan
  else
    let '(hm, hf, hn, hr) := scan_mantissa hexval 16 (drop 2 s) in
    if starts_with_ci (lit "0x") s && (0 <? hn) then
      float_of_binary binary64 neg hm (scan_exponent 112 hr - 4 * hf)
    else
      let '(m, f, n, r) := scan_mantissa decval 10 s in
      if n =? 0 then S754_zero false
      else float_of_decimal binary64 neg m (scan_exponent 101 r - f).

(** ** ["%.2f"] *)

(** [x / y] rounded to the nearest integer, ties to even. *)
Definition div_half_even (x y : Z) : Z :=
  let q := x / y in
  let r := x mod y in
  match 2 * r ?= y with
  | Lt => q
  | Gt => q + 1
  | Eq => if Z.even q then q else q + 1
  end.

(** A magnitude in hundredths, printed with two decimals. *)
Definition print_hundredths (h : Z) : bytes := dec_nat (h / 100) ++ 46 :: dec0 2 (h mod 100).

Definition print_2f (f : spec_float) : bytes :=
  match f with
  | S754_nan => lit "nan"
  | S754_infinity s => (if s then [45] else []) ++ lit "inf"
  | S754_zero s => (if s then [45] else []) ++ lit "0.00"
  | S754_finite s m e =>
      (if s then [45] else []) ++
      print_hundredths (if 0 <=? e then Zpos m * 2 ^ e * 100 else div_half_even (Zpos m * 100) (2 ^ (- e)))
  end.

Example atof_decimal : print_2f (atof (lit " -12.375e1xyz")) = lit "-123.75".
Proof. vm_compute. reflexivity. Qed.
Example atof_none : atof (lit "abc") = S754_zero false.
Proof. vm_compute. reflexivity. Qed.
Example atof_hex : print_2f (atof (lit "0x1.8p3")) = lit "12.00".
Proof. vm_compute. reflexivity. Qed.
Example float_round_down : float_to_int (-32768) 32767 (float_round binary32 (atof (lit "-7.9"))) = Ok (-7).
Proof. vm_compute. reflexivity. Qed.

(** ** Properties of the conversions *)

Lemma div_half_even_exact x y : 0 < y -> x mod y = 0 -> div_half_even x y = x / y.
Proof.
  intros Hy Hx. unfold div_half_even. rewrite Hx.
  destruct (Z.compare_spec (2 * 0) y); [lia|done|lia].
Qed.

(** The rounded quotient is a nearest integer. *)
Lemma div_half_even_near x y : 0 < y -> 2 * Z.abs (x - y * div_half_even x y) <= y.
Proof.
  intros Hy. unfold div_half_even.
  pose proof (Z.div_mod x y ltac:(lia)). pose proof (Z.mod_pos_bound x y Hy).
  set (q := x / y) in *. set (r := x mod y) in *.
  destruct (Z.compare_spec (2 * r) y); [destruct (Z.even q)|..]; nia.
Qed.
