(* ===== verification/ImTypes.v ===== *)
(** * The data of the dictionary library and the memory it lives in

    [im_types.h], the structures of [im_hashtable.h] and [im_vector.h], and a
    block memory.  A pointer is a block and a byte offset in it.  An object
    (a table with its buckets, a vector with its buckets, a run of bytes) is a
    cell at its address; the objects serialised behind the buckets of a table
    or vector ("attached") are cells of the same block at larger offsets. *)

From S2P Require Import Prelude LibC CFloat.
From Stdlib Require Import Floats.SpecFloat.

(** ** [im_types.h] *)

Inductive im_info : Type :=
  | IM_EMPTY | IM_DELETED
  | IM_SHORT | IM_INT | IM_LONG | IM_LONGLONG
  | IM_USHORT | IM_UINT | IM_ULONG | IM_ULONGLONG
  | IM_FLOAT | IM_DOUBLE | IM_LONGDOUBLE
  | IM_STRING | IM_BLOCK
  | IM_EXTERNAL_STRING | IM_EXTERNAL_BLOCK
  | IM_EXTERNAL_NESTED | IM_EXTERNAL_VECTOR
  | IM_ATTACHED_STRING | IM_ATTACHED_BLOCK
  | IM_ATTACHED_NESTED | IM_ATTACHED_VECTOR.

#[export] Instance im_info_eq_dec : EqDecision im_info.
Proof. solve_decision. Defined.

(** A pointer: [None] is NULL. *)
Abbreviation addr := (positive * Z)%type.
Abbreviation ptr := (option addr).

(** The union [im_value], by the member last written.  [external_string],
    [external_block], [external_nested] and [external_vector] are the same
    structure, and so are the four attached members. *)
Inductive im_value : Type :=
  | short_value (z : Z) | int_value (z : Z) | long_value (z : Z) | longlong_value (z : Z)
  | unsigned_short_value (z : Z) | unsigned_int_value (z : Z)
  | unsigned_long_value (z : Z) | unsigned_longlong_value (z : Z)
  | float_value (f : spec_float) | double_value (f : spec_float) | longdouble_value (f : spec_float)
  | string_value (b : bytes)
  | external_object (object_size : Z) (object_alloc : ptr)
  | attached_object (object_size object_offset : Z)
  | value_zero.

Definition sizeof_im_value : Z := 16.
Definition IM_ALLOCSIZE : Z := 8192.
Definition IM_ALIGNMENT : Z := 8.
Definition IM_ALIGN_MASK : Z := IM_ALIGNMENT - 1.

Definition im_align_offset (a : Z) : Z :=
  Z.land (IM_ALIGNMENT - Z.land a IM_ALIGN_MASK) IM_ALIGN_MASK.

(** ** [im_hashtable.h] and [im_vector.h] *)

Definition KEY_MAX_LENGTH : nat := 38 + 64.

(** [key] is the whole array [char key[KEY_MAX_LENGTH + 1]]. *)
Record im_hash_bucket : Type := HashBucket {
  hb_key : bytes;
  hb_info : im_info;
  hb_value_length : Z;
  hb_value : im_value;
}.

Record im_hashtable : Type := HashTable {
  h_number_of_buckets : Z;
  h_inuse : Z;
  h_empty : Z;
  h_attached_size : Z;
  h_attached_offset : Z;
  h_buckets : list im_hash_bucket;
}.

Record im_vector_bucket : Type := VectorBucket {
  vb_info : im_info;
  vb_value_length : Z;
  vb_value : im_value;
}.

Record im_vector : Type := Vector {
  v_number_of_buckets : Z;
  v_inuse : Z;
  v_attached_size : Z;
  v_attached_offset : Z;
  v_buckets : list im_vector_bucket;
}.

(** What [calloc] leaves in a bucket. *)
Definition hash_bucket_zero : im_hash_bucket :=
  HashBucket (replicate (S KEY_MAX_LENGTH) 0) IM_EMPTY 0 value_zero.
Definition vector_bucket_zero : im_vector_bucket := VectorBucket IM_EMPTY 0 value_zero.

(** [((im_hashtable * )0)->buckets + n] and [((im_vector * )0)->buckets + n] as
    sizes (LP64, 16-byte alignment of [long double]). *)
Definition hash_size (n : Z) : Z := 32 + 128 * n.
Definition vector_size (n : Z) : Z := 32 + 32 * n.

(** Functional record updates. *)
Definition set_h_buckets (bs : list im_hash_bucket) (h : im_hashtable) : im_hashtable :=
  HashTable (h_number_of_buckets h) (h_inuse h) (h_empty h) (h_attached_size h) (h_attached_offset h) bs.
Definition set_h_inuse (n : Z) (h : im_hashtable) : im_hashtable :=
  HashTable (h_number_of_buckets h) n (h_empty h) (h_attached_size h) (h_attached_offset h) (h_buckets h).
Definition set_h_empty (n : Z) (h : im_hashtable) : im_hashtable :=
  HashTable (h_number_of_buckets h) (h_inuse h) n (h_attached_size h) (h_attached_offset h) (h_buckets h).
Definition set_h_attached (size offset : Z) (h : im_hashtable) : im_hashtable :=
  HashTable (h_number_of_buckets h) (h_inuse h) (h_empty h) size offset (h_buckets h).
Definition set_hb_info (i : im_info) (b : im_hash_bucket) : im_hash_bucket :=
  HashBucket (hb_key b) i (hb_value_length b) (hb_value b).
Definition set_v_buckets (bs : list im_vector_bucket) (v : im_vector) : im_vector :=
  Vector (v_number_of_buckets v) (v_inuse v) (v_attached_size v) (v_attached_offset v) bs.
Definition set_v_inuse (n : Z) (v : im_vector) : im_vector :=
  Vector (v_number_of_buckets v) n (v_attached_size v) (v_attached_offset v) (v_buckets v).
Definition set_v_attached (size offset : Z) (v : im_vector) : im_vector :=
  Vector (v_number_of_buckets v) (v_inuse v) size offset (v_buckets v).

(** ** Memory *)

Inductive cell : Type :=
  | CHash (h : im_hashtable)
  | CVector (v : im_vector)
  | CBytes (b : bytes).

(** [m_quota] is the number of allocations that still succeed: after them
    [malloc], [calloc] and [realloc] return NULL. *)
Record mem : Type := Mem {
  m_cells : gmap addr cell;
  m_next : positive;
  m_quota : nat;
}.

Definition mem_empty (quota : nat) : mem := Mem ∅ 1 quota.

(** ** Effectful code *)

Definition M (A : Type) : Type := mem -> outcome (A * mem).

#[export] Instance M_ret : MRet M := λ A a m, Ok (a, m).
#[export] Instance M_bind : MBind M := λ A B f c m,
  match c m with Ok (a, m') => f a m' | Fault => Fault | NoFuel => NoFuel end.

Definition fault {A} : M A := λ _, Fault.
Definition no_fuel {A} : M A := λ _, NoFuel.
Definition lift {A} (o : outcome A) : M A := λ m, a ← o; Ok (a, m).
Definition get_mem : M mem := λ m, Ok (m, m).

(** Running a sequence step by step. *)
Lemma M_bind_ok {A B} (c : M A) (f : A -> M B) m a m' :
  c m = Ok (a, m') -> (x ← c; f x) m = f a m'.
Proof. intros H. unfold mbind, M_bind. by rewrite H. Qed.

Lemma M_lift_ok {A B} (o : outcome A) (f : A -> M B) m a :
  o = Ok a -> (x ← lift o; f x) m = f a m.
Proof. intros ->. done. Qed.

Lemma M_ret_bind {A B} (a : A) (f : A -> M B) m : (x ← mret a; f x) m = f a m.
Proof. done. Qed.

Lemma M_bind_assoc {A B D} (c : M A) (f : A -> M B) (g : B -> M D) m :
  (y ← (x ← c; f x); g y) m = (x ← c; y ← f x; g y) m.
Proof. unfold mbind, M_bind. by destruct (c m) as [[a m']| |]. Qed.

Lemma M_bind_inv {A B} (c : M A) (f : A -> M B) m r :
  (x ← c; f x) m = Ok r -> exists a m', c m = Ok (a, m') /\ f a m' = Ok r.
Proof.
  unfold mbind, M_bind. destruct (c m) as [[a m']| |]; intros H; [eauto|discriminate..].
Qed.

(** [for (i = from; i < from + n; i++) f(i)]. *)
Fixpoint for_range (n : nat) (from : Z) (f : Z -> M unit) : M unit :=
  match n with
  | O => mret tt
  | S n => f from ;; for_range n (from + 1) f
  end.

(** ** Memory operations *)

Definition set_cells (f : gmap addr cell -> gmap addr cell) (m : mem) : mem :=
  Mem (f (m_cells m)) (m_next m) (m_quota m).

Definition load (p : ptr) : M cell := λ m,
  match p with
  | Some a => match m_cells m !! a with Some c => Ok (c, m) | None => Fault end
  | None => Fault
  end.
Definition load_hash (p : ptr) : M im_hashtable :=
  c ← load p; match c with CHash h => mret h | _ => fault end.
Definition load_vector (p : ptr) : M im_vector :=
  c ← load p; match c with CVector v => mret v | _ => fault end.
Definition load_bytes (p : ptr) : M bytes :=
  c ← load p; match c with CBytes b => mret b | _ => fault end.

(** A write to an object that is there. *)
Definition store (p : ptr) (c : cell) : M unit := λ m,
  match p with
  | Some a => match m_cells m !! a with
              | Some _ => Ok (tt, set_cells <[a := c]> m)
              | None => Fault
              end
  | None => Fault
  end.

(** [malloc]/[calloc] of an object: a fresh block, or NULL. *)
Definition alloc (c : cell) : M ptr := λ m,
  match m_quota m with
  | O => Ok (None, m)
  | S q => Ok (Some (m_next m, 0), Mem (<[(m_next m, 0) := c]> (m_cells m)) (m_next m + 1) q)
  end.

Definition drop_block (b : positive) (cs : gmap addr cell) : gmap addr cell :=
  filter (λ kc : addr * cell, kc.1.1 <> b) cs.

(** [free]: of NULL, nothing; of the start of a live block, every object in
    it goes; of anything else, undefined. *)
Definition freep (p : ptr) : M unit := λ m,
  match p with
  | None => Ok (tt, m)
  | Some (b, o) =>
      if o =? 0 then
        match m_cells m !! (b, 0) with
        | Some _ => Ok (tt, set_cells (drop_block b) m)
        | None => Fault
        end
      else Fault
  end.

(** [k] is one of the [len] bytes at [a]. *)
Definition in_area (a : addr) (len : Z) (k : addr) : bool :=
  bool_decide (k.1 = a.1) && (a.2 <=? k.2) && (k.2 <? a.2 + len).

(** The objects of the [len] bytes at [src], moved to [dst]. *)
Definition cells_in (src : addr) (len : Z) (dst : addr) (cs : gmap addr cell) : list (addr * cell) :=
  omap (λ kc : addr * cell,
    if in_area src len kc.1 then Some ((dst.1, dst.2 + (kc.1.2 - src.2)), kc.2) else None)
    (map_to_list cs).

Definition copy_cells (src : addr) (len : Z) (dst : addr) (cs : gmap addr cell) : gmap addr cell :=
  list_to_map (cells_in src len dst cs) ∪ filter (λ kc : addr * cell, in_area dst len kc.1 = false) cs.

(** [memcpy] between disjoint areas, object by object. *)
Definition memcpy (dst src : ptr) (len : Z) : M unit := λ m,
  match dst, src with
  | Some d, Some s => Ok (tt, set_cells (copy_cells s len d) m)
  | _, _ => if len =? 0 then Ok (tt, m) else Fault
  end.

(** [realloc] of a live block: its objects move to a fresh block, or NULL and
    the old block stays. *)
Definition realloc (p : ptr) (size : Z) : M ptr := λ m,
  match p with
  | Some (b, o) =>
      if o =? 0 then
        match m_cells m !! (b, 0), m_quota m with
        | None, _ => Fault
        | _, O => Ok (None, m)
        | _, S q =>
            let b' := m_next m in
            Ok (Some (b', 0),
                Mem (drop_block b (copy_cells (b, 0) size (b', 0) (m_cells m)))
                    (b' + 1) q)
        end
      else Fault
  | None => Fault
  end.

(** Pointer arithmetic in bytes. *)
Definition ptr_add (p : ptr) (n : Z) : ptr :=
  match p with Some (b, o) => Some (b, o + n) | None => None end.

(** ** What the memory operations leave alone *)

Lemma in_area_spec a len k :
  in_area a len k = true <-> k.1 = a.1 /\ a.2 <= k.2 < a.2 + len.
Proof.
  unfold in_area. rewrite !andb_true_iff, bool_decide_eq_true, Z.leb_le, Z.ltb_lt. lia.
Qed.

Lemma elem_of_cells_in src len dst cs k c :
  (k, c) ∈ cells_in src len dst cs <->
  exists k', cs !! k' = Some c /\ in_area src len k' = true /\ k = (dst.1, dst.2 + (k'.2 - src.2)).
Proof.
  unfold cells_in. rewrite list_elem_of_omap. split.
  - intros ([k' c'] & Hin & Hk). apply elem_of_map_to_list in Hin. simpl in Hk.
    destruct (in_area src len k') eqn:E; [|done]. simplify_eq. eauto.
  - intros (k' & Hin & E & ->). exists (k', c). rewrite elem_of_map_to_list. simpl. by rewrite E.
Qed.

Lemma cells_in_nodup src len dst cs : NoDup (cells_in src len dst cs).*1.
Proof.
  unfold cells_in. pose proof (NoDup_fst_map_to_list cs) as Hnd. revert Hnd.
  induction (map_to_list cs) as [|[k c] l IH]; simpl; intros Hnd; [constructor|].
  inversion_clear Hnd as [|? ? Hk Hl]. destruct (in_area src len k) eqn:E; [|by apply IH].
  simpl. constructor; [|by apply IH].
  intros Hin. apply list_elem_of_fmap in Hin as ([k1 c1] & Heq & Hin). simpl in Heq. subst k1.
  apply list_elem_of_omap in Hin as ([k2 c2] & Hin2 & Heq). simpl in Heq.
  destruct (in_area src len k2) eqn:E2; [|done]. simplify_eq.
  apply in_area_spec in E as [E ?], E2 as [E2 ?].
  apply Hk. apply list_elem_of_fmap. exists (k2, c1). split; [|done].
  destruct k as [b o], k2 as [b2 o2]; simpl in *. subst. f_equal. lia.
Qed.

(** A cell outside the destination is the one that was there. *)
Lemma copy_cells_outside src len dst cs k :
  in_area dst len k = false -> copy_cells src len dst cs !! k = cs !! k.
Proof.
  intros Hk. unfold copy_cells. rewrite lookup_union.
  replace (list_to_map (cells_in src len dst cs) !! k) with (@None cell).
  - rewrite (left_id_L None (∪)). destruct (cs !! k) as [c|] eqn:E.
    + apply map_lookup_filter_Some. done.
    + apply map_lookup_filter_None. by left.
  - symmetry. apply not_elem_of_list_to_map_1. intros Hin.
    apply list_elem_of_fmap in Hin as ([k' c] & -> & Hin).
    apply elem_of_cells_in in Hin as (k0 & _ & Ha & ->). apply in_area_spec in Ha as [? ?].
    assert (in_area dst len (dst.1, dst.2 + (k0.2 - src.2)) = true) as Hc; [|simpl in *; congruence].
    apply in_area_spec. simpl. lia.
Qed.

(** A cell of the source appears in the destination. *)
Lemma copy_cells_inside src len dst cs b o c :
  cs !! (b, o) = Some c -> in_area src len (b, o) = true ->
  copy_cells src len dst cs !! (dst.1, dst.2 + (o - src.2)) = Some c.
Proof.
  intros Hc Ha. unfold copy_cells. apply lookup_union_Some_l, elem_of_list_to_map_1.
  - apply cells_in_nodup.
  - apply elem_of_cells_in. by exists (b, o).
Qed.

Lemma drop_block_ne b cs k : k.1 <> b -> drop_block b cs !! k = cs !! k.
Proof.
  intros Hk. unfold drop_block. destruct (cs !! k) as [c|] eqn:E.
  - by apply map_lookup_filter_Some.
  - apply map_lookup_filter_None. by left.
Qed.

Lemma drop_block_eq b cs o : drop_block b cs !! (b, o) = None.
Proof. unfold drop_block. apply map_lookup_filter_None. right. simpl. intros c _. by intros []. Qed.
