(* ===== verification/ImHashTable.v ===== *)
(** * The open-addressing hash table ([im_hashtable.c]) and the destruction
    of nested objects ([im_hashtable.c], [im_vector.c])

    Quadratic probing over a prime number of buckets: the [c]-th probe of a
    key is at its hash code plus [c^2].  A deleted bucket keeps its key and is
    still met by the probes. *)

From S2P Require Import Prelude LibC PrimeTable CFloat ImTypes.

(** ** Hash code and probing *)

(** [sizeof(hashtable->buckets[0].key) - 1]. *)
Definition key_bound : nat := KEY_MAX_LENGTH.

Fixpoint im_hashcode_loop (i : nat) (key : bytes) (hashcode : Z) : Z :=
  match i, key with
  | S i, c :: key' =>
      if c =? 0 then hashcode
      else im_hashcode_loop i key' (u32 (u32 (Z.shiftl hashcode 5) + schar c))
  | _, _ => hashcode
  end.

Definition im_hashcode (hashtable : im_hashtable) (key : bytes) : outcome Z :=
  if h_number_of_buckets hashtable =? 0 then Fault
  else Ok (im_hashcode_loop key_bound key 0 mod h_number_of_buckets hashtable).

(** One probe's advance: [position += (++collision << 1) - 1], then at most
    two subtractions of the number of buckets. *)
Definition im_next_position (n position collision : Z) : Z :=
  let position := s32 (position + (Z.shiftl collision 1 - 1)) in
  let position := if n <=? u32 position then s32 (position - n) else position in
  if n <=? u32 position then s32 (position - n) else position.

Definition im_stop (b : im_hash_bucket) (key : bytes) : bool :=
  bool_decide (hb_info b = IM_EMPTY) || (strncmp key_bound (hb_key b) key =? 0).

Fixpoint im_find_loop (fuel : nat) (hashtable : im_hashtable) (key : bytes)
    (position collision : Z) : outcome Z :=
  match fuel with
  | O => NoFuel
  | S fuel =>
      b ← zget (h_buckets hashtable) position;
      if im_stop b key then Ok position
      else
        let collision := s32 (collision + 1) in
        im_find_loop fuel hashtable key
          (im_next_position (h_number_of_buckets hashtable) position collision) collision
  end.

(** The probe sequence repeats after [number_of_buckets] probes, so that fuel
    decides whether the loop ends at all. *)
Definition im_find_element (hashtable : im_hashtable) (key : bytes) : outcome Z :=
  position ← im_hashcode hashtable key;
  im_find_loop (S (Z.to_nat (h_number_of_buckets hashtable))) hashtable key (s32 position) 0.

Definition is_free (b : im_hash_bucket) : bool :=
  bool_decide (hb_info b = IM_EMPTY) || bool_decide (hb_info b = IM_DELETED).

(** The bucket pointer returned: the bucket, or NULL. *)
Definition im_retrieve_element (hashtable : im_hashtable) (position : Z) : outcome (option im_hash_bucket) :=
  b ← zget (h_buckets hashtable) position;
  if is_free b then Ok None else Ok (Some b).

Definition im_retrieve_element_by_key (hashtable : im_hashtable) (key : bytes) : outcome (option im_hash_bucket) :=
  position ← im_find_element hashtable key;
  im_retrieve_element hashtable position.

(** ** Destruction

    The two static functions [free_bucket], of [im_hashtable.c] and of
    [im_vector.c], and the two destructors call each other; each call takes
    one unit of fuel, so twice the nesting depth is enough. *)

Fixpoint hashtable_free_bucket (fuel : nat) (hashtable : ptr) (position : Z) : M unit :=
  match fuel with
  | O => no_fuel
  | S fuel =>
      h ← load_hash hashtable;
      b ← lift (zget (h_buckets h) position);
      let base := ptr_add hashtable (hash_size (h_number_of_buckets h)) in
      match hb_info b, hb_value b with
      | IM_EXTERNAL_STRING, external_object _ p => freep p
      | IM_EXTERNAL_BLOCK, external_object _ p => freep p
      | IM_EXTERNAL_NESTED, external_object _ p => im_destroy_hashtable_with_info fuel p (hb_info b)
      | IM_EXTERNAL_VECTOR, external_object _ p => im_destroy_vector_with_info fuel p (hb_info b)
      | IM_ATTACHED_NESTED, attached_object _ o => im_destroy_hashtable_with_info fuel (ptr_add base o) (hb_info b)
      | IM_ATTACHED_VECTOR, attached_object _ o => im_destroy_vector_with_info fuel (ptr_add base o) (hb_info b)
      | (IM_EXTERNAL_STRING | IM_EXTERNAL_BLOCK | IM_EXTERNAL_NESTED | IM_EXTERNAL_VECTOR
         | IM_ATTACHED_NESTED | IM_ATTACHED_VECTOR), _ => fault
      | _, _ => mret tt
      end
  end
with im_destroy_hashtable_with_info (fuel : nat) (hashtable : ptr) (info : im_info) : M unit :=
  match fuel with
  | O => no_fuel
  | S fuel =>
      h ← load_hash hashtable;
      for_range (Z.to_nat (h_number_of_buckets h)) 0 (hashtable_free_bucket fuel hashtable) ;;
      if bool_decide (info = IM_EXTERNAL_NESTED) then freep hashtable else mret tt
  end
with vector_free_bucket (fuel : nat) (vector : ptr) (position : Z) : M unit :=
  match fuel with
  | O => no_fuel
  | S fuel =>
      v ← load_vector vector;
      b ← lift (zget (v_buckets v) position);
      let base := ptr_add vector (vector_size (v_number_of_buckets v)) in
      match vb_info b, vb_value b with
      | IM_EXTERNAL_STRING, external_object _ p => freep p
      | IM_EXTERNAL_BLOCK, external_object _ p => freep p
      | IM_EXTERNAL_NESTED, external_object _ p => im_destroy_hashtable_with_info fuel p (vb_info b)
      | IM_EXTERNAL_VECTOR, external_object _ p => im_destroy_vector_with_info fuel p (vb_info b)
      | IM_ATTACHED_NESTED, attached_object _ o => im_destroy_hashtable_with_info fuel (ptr_add base o) (vb_info b)
      | IM_ATTACHED_VECTOR, attached_object _ o => im_destroy_vector_with_info fuel (ptr_add base o) (vb_info b)
      | (IM_EXTERNAL_STRING | IM_EXTERNAL_BLOCK | IM_EXTERNAL_NESTED | IM_EXTERNAL_VECTOR
         | IM_ATTACHED_NESTED | IM_ATTACHED_VECTOR), _ => fault
      | _, _ => mret tt
      end
  end
with im_destroy_vector_with_info (fuel : nat) (vector : ptr) (info : im_info) : M unit :=
  match fuel with
  | O => no_fuel
  | S fuel =>
      v ← load_vector vector;
      for_range (Z.to_nat (v_inuse v)) 0 (vector_free_bucket fuel vector) ;;
      if bool_decide (info = IM_EXTERNAL_VECTOR) then freep vector else mret tt
  end.

Definition im_destroy_hashtable (fuel : nat) (hashtable : ptr) : M unit :=
  im_destroy_hashtable_with_info fuel hashtable IM_EXTERNAL_NESTED.

(** ** Construction and deletion *)

(** The record [im_initialize_hashtable] builds. *)
Definition empty_hashtable (number_of_buckets : Z) : im_hashtable :=
  HashTable number_of_buckets 0 number_of_buckets 0 0
    (replicate (Z.to_nat number_of_buckets) hash_bucket_zero).

Definition im_initialize_hashtable (capacity : Z) : M ptr :=
  number_of_buckets ← lift (bsearch_number_of_buckets capacity);
  alloc (CHash (empty_hashtable (u32 number_of_buckets))).

Definition im_delete_element (fuel : nat) (hashtable : ptr) (position : Z) : M Z :=
  h ← load_hash hashtable;
  b ← lift (zget (h_buckets h) position);
  if is_free b then mret (-1)
  else
    hashtable_free_bucket fuel hashtable position ;;
    h ← load_hash hashtable;
    b ← lift (zget (h_buckets h) position);
    bs ← lift (zset (h_buckets h) position (set_hb_info IM_DELETED b));
    store hashtable (CHash (set_h_inuse (u32 (h_inuse h - 1)) (set_h_buckets bs h))) ;;
    mret position.

Definition im_delete_element_by_key (fuel : nat) (hashtable : ptr) (key : bytes) : M Z :=
  h ← load_hash hashtable;
  position ← lift (im_find_element h key);
  im_delete_element fuel hashtable position.

Definition im_empty_hashtable (fuel : nat) (hashtable : ptr) : M unit :=
  h ← load_hash hashtable;
  for_range (Z.to_nat (h_number_of_buckets h)) 0 (λ i,
    hashtable_free_bucket fuel hashtable i ;;
    h ← load_hash hashtable;
    b ← lift (zget (h_buckets h) i);
    bs ← lift (zset (h_buckets h) i (set_hb_info IM_EMPTY b));
    store hashtable (CHash (set_h_buckets bs h))) ;;
  h ← load_hash hashtable;
  store hashtable (CHash (set_h_attached (h_attached_size h) 0
    (set_h_empty (h_number_of_buckets h) (set_h_inuse 0 h)))).

(** ** Insertion and rehashing *)

(** The bucket write of [im_insert_element], once [im_find_element] gave the
    position: the result code and the table after it. *)
Definition im_put_bucket (h : im_hashtable) (position : Z) (bucket : im_hash_bucket) : outcome (Z * im_hashtable) :=
  b ← zget (h_buckets h) position;
  if is_free b then
    let h := if bool_decide (hb_info b = IM_EMPTY) then set_h_empty (u32 (h_empty h - 1)) h else h in
    bs ← zset (h_buckets h) position bucket;
    Ok (position, set_h_inuse (u32 (h_inuse h + 1)) (set_h_buckets bs h))
  else Ok (-1, h).

(** [(empty - 1 <= number_of_buckets >> 1)], unsigned. *)
Definition im_must_rehash (h : im_hashtable) : bool :=
  u32 (h_empty h - 1) <=? Z.shiftr (h_number_of_buckets h) 1.

(** The loop of [im_rehash_hashtable] over the buckets of the old table:
    [None] is the jump to [error]. *)
Fixpoint rehash_loop (insert : ptr -> im_hash_bucket -> M (Z * ptr))
    (bs : list im_hash_bucket) (new : ptr) : M (option ptr * ptr) :=
  match bs with
  | [] => mret (Some new, new)
  | b :: bs =>
      if is_free b then rehash_loop insert bs new
      else
        r ← insert new b;
        if r.1 <? 0 then mret (None, r.2) else rehash_loop insert bs r.2
  end.

(** [im_rehash_hashtable(&hashtable)]: the result code and the pointer
    afterwards. [insert] is [im_insert_element]. *)
Definition im_rehash_hashtable_with (insert : ptr -> im_hash_bucket -> M (Z * ptr))
    (hashtable : ptr) : M (Z * ptr) :=
  h ← load_hash hashtable;
  new ← im_initialize_hashtable (s32 (u32 (Z.shiftl (h_inuse h) 1)));
  match new with
  | None => mret (-1, hashtable)
  | Some _ =>
      n ← load_hash new;
      let old_hash_size := hash_size (h_number_of_buckets h) in
      let new_hash_size := hash_size (h_number_of_buckets n) in
      tmp ← (if h_attached_offset h =? 0 then mret new
             else realloc new (new_hash_size + h_attached_offset h));
      match tmp with
      | None => freep new ;; mret (-1, hashtable)
      | Some _ =>
          let new := tmp in
          n ← load_hash new;
          store new (CHash (set_h_attached (h_attached_offset h) (h_attached_offset n) n)) ;;
          memcpy (ptr_add new new_hash_size) (ptr_add hashtable old_hash_size) (h_attached_offset h) ;;
          n ← load_hash new;
          store new (CHash (set_h_attached (h_attached_size n) (h_attached_offset h) n)) ;;
          r ← rehash_loop insert (h_buckets h) new;
          match r with
          | (None, new) => freep new ;; mret (-1, hashtable)
          | (Some new, _) => freep hashtable ;; mret (0, new)
          end
      end
  end.

(** [im_insert_element(&hashtable, bucket)].  A rehash inserts into a table
    that is at most a quarter full, which does not rehash again, so two units
    of fuel are enough while the sizes of [prime_number.h] last. *)
Fixpoint im_insert_element (fuel : nat) (hashtable : ptr) (bucket : im_hash_bucket) : M (Z * ptr) :=
  match fuel with
  | O => no_fuel
  | S fuel =>
      if is_free bucket then mret (-1, hashtable)
      else
        h ← load_hash hashtable;
        r ← (if im_must_rehash h then im_rehash_hashtable_with (im_insert_element fuel) hashtable
             else mret (0, hashtable));
        if r.1 <? 0 then mret (-1, r.2)
        else
          let hashtable := r.2 in
          h ← load_hash hashtable;
          position ← lift (im_find_element h (hb_key bucket));
          p ← lift (im_put_bucket h position bucket);
          store hashtable (CHash p.2) ;;
          mret (p.1, hashtable)
  end.

Definition im_rehash_hashtable (fuel : nat) (hashtable : ptr) : M (Z * ptr) :=
  im_rehash_hashtable_with (im_insert_element fuel) hashtable.
