(* ===== verification/ImTable.v ===== *)
(** * Quadratic probing finds every key and terminates

    The number theory behind [im_find_element]: the first [(n + 1) / 2] probes
    of a key are distinct because the number [n] of buckets is prime, so a
    table whose empty buckets outnumber [n / 2] always stops the loop, and the
    invariant of the table with the proof that a bucket write keeps it. *)

From Stdlib Require Import Zdivisibility.
From S2P Require Import Prelude LibC PrimeTable ImTypes ImHashTable.

(** ** Keys as the table compares them: the first 102 bytes of the content *)

Definition key_of (key : bytes) : bytes := take key_bound (content key).

Definition key_equiv (k1 k2 : bytes) : Prop := key_of k1 = key_of k2.

#[export] Instance key_equiv_equivalence : Equivalence key_equiv.
Proof. split; red; unfold key_equiv; congruence. Qed.

#[export] Instance key_equiv_dec k1 k2 : Decision (key_equiv k1 k2).
Proof. unfold key_equiv. apply _. Defined.

Lemma strncmp_key b k : (strncmp key_bound b k =? 0) = bool_decide (key_equiv b k).
Proof.
  apply eq_bool_prop_intro. rewrite Is_true_true, Z.eqb_eq, bool_decide_spec.
  apply strncmp_eq.
Qed.

Lemma im_stop_spec b key :
  im_stop b key = true <-> hb_info b = IM_EMPTY \/ key_equiv (hb_key b) key.
Proof.
  unfold im_stop. rewrite strncmp_key, orb_true_iff, !bool_decide_eq_true. done.
Qed.

Lemma im_hashcode_loop_key i key acc :
  im_hashcode_loop i key acc = im_hashcode_loop i (take i (content key)) acc.
Proof.
  revert key acc. induction i as [|i IH]; intros [|c key] acc; try done. simpl.
  destruct (c =? 0) eqn:E; [done|]. simpl. rewrite E. apply IH.
Qed.

#[export] Instance im_hashcode_loop_proper :
  Proper (key_equiv ==> eq ==> eq) (im_hashcode_loop key_bound).
Proof.
  intros k1 k2 Hk ? acc ->. rewrite (im_hashcode_loop_key _ k1), (im_hashcode_loop_key _ k2).
  by unfold key_equiv, key_of in Hk; rewrite Hk.
Qed.

#[export] Instance im_stop_proper b : Proper (key_equiv ==> eq) (im_stop b).
Proof.
  intros k1 k2 Hk. unfold im_stop. rewrite !strncmp_key. f_equal.
  apply bool_decide_ext. by rewrite Hk.
Qed.

#[export] Instance im_find_loop_proper fuel h :
  Proper (key_equiv ==> eq ==> eq ==> eq) (im_find_loop fuel h).
Proof.
  intros k1 k2 Hk ? p -> ? c ->. revert p c. induction fuel as [|fuel IH]; intros p c; [done|].
  cbn [im_find_loop]. destruct (zget (h_buckets h) p) as [b| |]; [|done..].
  cbn [mbind outcome_bind]. rewrite Hk. by destruct (im_stop b k2); [|rewrite IH].
Qed.

(** Equivalent keys are found at the same bucket. *)
#[export] Instance im_find_element_proper h : Proper (key_equiv ==> eq) (im_find_element h).
Proof.
  intros k1 k2 Hk. unfold im_find_element, im_hashcode. rewrite Hk.
  destruct (h_number_of_buckets h =? 0); [done|]. cbn [mbind outcome_bind]. by rewrite Hk.
Qed.

(** ** The probe sequence *)

Definition probe (n home c : Z) : Z := (home + c * c) mod n.

Lemma probe_range n home c : 0 < n -> 0 <= probe n home c < n.
Proof. intros. apply Z.mod_pos_bound. lia. Qed.

Lemma im_next_position_mod n position c :
  3 <= n < 268435456 -> 0 <= position < n -> 1 <= c <= n ->
  im_next_position n position c = (position + (2 * c - 1)) mod n.
Proof.
  intros Hn Hp Hc. unfold im_next_position.
  rewrite Z.shiftl_mul_pow2 by lia. change (2 ^ 1) with 2.
  assert (forall z q, 0 <= z - q * n < n -> z mod n = z - q * n) as Hmod.
  { intros z q Hq. symmetry. apply (Z.mod_unique_pos _ _ q); lia. }
  set (z := position + (2 * c - 1)). replace (position + (c * 2 - 1)) with z by lia.
  assert (0 <= z < 3 * n) as Hz by lia. clearbody z. no_wrap.
  destruct (Z.leb_spec n z); no_wrap.
  - destruct (Z.leb_spec n (z - n)); no_wrap; [rewrite (Hmod z 2)|rewrite (Hmod z 1)]; lia.
  - destruct (Z.leb_spec n z); [lia|]. rewrite (Hmod z 0); lia.
Qed.

Lemma probe_next n home c :
  3 <= n < 268435456 -> 0 <= c < n ->
  im_next_position n (probe n home c) (c + 1) = probe n home (c + 1).
Proof.
  intros Hn Hc. rewrite im_next_position_mod; [|done|apply probe_range; lia|lia].
  unfold probe. rewrite Zplus_mod_idemp_l. f_equal. lia.
Qed.

(** The first [(n + 1) / 2] probes are pairwise distinct. *)
Lemma probe_inj n home c d :
  Z.prime n -> 0 <= c -> c < d -> 2 * d < n -> probe n home c <> probe n home d.
Proof.
  intros Hn Hc Hcd Hd Heq. pose proof (Z.prime_ge_2 n Hn) as Hn2. unfold probe in Heq.
  assert (n | (d - c) * (d + c)) as Hdiv.
  { replace ((d - c) * (d + c)) with ((home + d * d) - (home + c * c)) by lia.
    apply Z.mod_divide; [lia|]. rewrite Zminus_mod, Heq, Z.sub_diag. apply Z.mod_0_l. lia. }
  apply Z.divide_prime_mul in Hdiv as [H|H]; [| |done]; apply Z.divide_pos_le in H; lia.
Qed.

(** ** The invariant of a hash table and the map it represents

    [table_wf] is what every operation keeps; [table_map] is the finite map
    from keys to live buckets that the table implements.  Lookup, the bucket
    write of an insertion and the marking of a deletion are shown to be the
    map's lookup, insertion and deletion. *)

Definition is_empty (b : im_hash_bucket) : bool := bool_decide (hb_info b = IM_EMPTY).
Definition is_live (b : im_hash_bucket) : bool := negb (is_free b).

Lemma is_live_not_empty b : is_live b = true -> is_empty b = false.
Proof.
  unfold is_live, is_free, is_empty. destruct (bool_decide (hb_info b = IM_EMPTY)); done.
Qed.

Lemma not_empty_info b : is_empty b = false <-> hb_info b <> IM_EMPTY.
Proof. unfold is_empty. by rewrite bool_decide_eq_false. Qed.

(** The shape of a table: a prime number of buckets, more than half of them
    never used since the last rehash. *)
Record table_shape (h : im_hashtable) : Prop := {
  ts_length : zlen (h_buckets h) = h_number_of_buckets h;
  ts_prime : Z.prime (h_number_of_buckets h);
  ts_odd : Z.odd (h_number_of_buckets h) = true;
  ts_bounds : 3 <= h_number_of_buckets h < 268435456;
  ts_empty : h_empty h = countb is_empty (h_buckets h);
  ts_inuse : h_inuse h = countb is_live (h_buckets h);
  ts_load : h_number_of_buckets h < 2 * h_empty h;
}.

(** Every bucket that holds a key, deleted or not, is where the probes of its
    key stop. *)
Record table_wf (h : im_hashtable) : Prop := {
  tw_shape : table_shape h;
  tw_reach p b : h_buckets h !! p = Some b -> is_empty b = false ->
    im_find_element h (hb_key b) = Ok (Z.of_nat p);
}.

Section finding.
Context (h : im_hashtable) (Hs : table_shape h).
Abbreviation n := (h_number_of_buckets h).

Definition home_of (key : bytes) : Z := im_hashcode_loop key_bound key 0 mod n.
Definition probe_of (key : bytes) (c : Z) : Z := probe n (home_of key) c.

(** The loop stops at probe [c]. *)
Definition stops_at (key : bytes) (c : Z) : Prop :=
  exists b, zget (h_buckets h) (probe_of key c) = Ok b /\ im_stop b key = true.

Lemma probe_of_range key c : 0 <= probe_of key c < n.
Proof using Hs. apply probe_range. pose proof (ts_bounds _ Hs). lia. Qed.

Lemma probe_of_bucket key c : exists b, zget (h_buckets h) (probe_of key c) = Ok b.
Proof using Hs. apply zget_in_range. rewrite (ts_length _ Hs). apply probe_of_range. Qed.

#[local] Instance stops_at_dec key c : Decision (stops_at key c).
Proof using Type.
  unfold stops_at. destruct (zget (h_buckets h) (probe_of key c)) as [b| |].
  - destruct (im_stop b key) eqn:E; [left; eauto|right]. intros (b' & ? & ?). congruence.
  - right. by intros (b' & ? & ?).
  - right. by intros (b' & ? & ?).
Defined.

Lemma find_loop_stops fuel key c k :
  0 <= c -> (k < fuel)%nat -> c + Z.of_nat k < n ->
  stops_at key (c + Z.of_nat k) -> (forall j, c <= j < c + Z.of_nat k -> ~ stops_at key j) ->
  im_find_loop fuel h key (probe_of key c) c = Ok (probe_of key (c + Z.of_nat k)).
Proof using Hs.
  pose proof (ts_bounds _ Hs) as Hn.
  revert c k. induction fuel as [|fuel IH]; intros c k Hc Hf Hk Hstop Hbefore; [lia|].
  cbn [im_find_loop]. destruct (probe_of_bucket key c) as [b Hb]. rewrite Hb.
  cbn [mbind outcome_bind]. destruct k as [|k].
  - rewrite Z.add_0_r in *. destruct Hstop as (b' & Hb' & Hst). rewrite_ok. by rewrite Hst.
  - destruct (im_stop b key) eqn:E.
    { exfalso. apply (Hbefore c); [lia|]. exists b. done. }
    no_wrap. unfold probe_of at 1. rewrite probe_next by lia.
    replace (c + Z.of_nat (S k)) with ((c + 1) + Z.of_nat k) in * by lia.
    apply IH; [lia|lia|lia|done|]. intros j Hj. apply Hbefore. lia.
Qed.

(** The first stopping probe is the result. *)
Lemma find_element_at key (c : nat) :
  Z.of_nat c < n -> stops_at key (Z.of_nat c) ->
  (forall j, 0 <= j < Z.of_nat c -> ~ stops_at key j) ->
  im_find_element h key = Ok (probe_of key (Z.of_nat c)).
Proof using Hs.
  intros Hc Hstop Hbefore. pose proof (ts_bounds _ Hs) as Hn.
  unfold im_find_element, im_hashcode. destruct (Z.eqb_spec n 0) as [Hz|Hz]; [lia|]. clear Hz.
  cbn [mbind outcome_bind]. fold (home_of key).
  assert (0 <= home_of key < n) as Hh by (apply Z.mod_pos_bound; lia).
  no_wrap. assert (home_of key = probe_of key 0) as ->.
  { unfold probe_of, probe. rewrite Z.add_0_r, Z.mod_small; lia. }
  rewrite (find_loop_stops _ _ 0 c); [by rewrite Z.add_0_l|lia|lia|lia|done|].
  intros j Hj. apply Hbefore. lia.
Qed.

(** The loop stops within the first [(n + 1) / 2] probes. *)
Lemma probes_stop key : exists c : nat, 2 * Z.of_nat c < n /\ stops_at key (Z.of_nat c).
Proof using Hs.
  pose proof (ts_bounds _ Hs) as Hn. pose proof (ts_odd _ Hs) as Ho. pose proof (ts_prime _ Hs) as Hp.
  pose proof (ts_load _ Hs) as Hload. rewrite (ts_empty _ Hs) in Hload.
  apply Z.odd_spec in Ho as [q Hq].
  set (ps := (λ c : nat, Z.to_nat (probe_of key (Z.of_nat c))) <$> seq 0 (Z.to_nat (q + 1))).
  destruct (pigeonhole (λ b, negb (is_empty b)) (h_buckets h) ps) as (i & b & Hi & Hb & He).
  - apply NoDup_fmap_2_strong; [|apply NoDup_seq].
    intros c d Hc Hd Heq. apply elem_of_seq in Hc, Hd.
    assert (probe_of key (Z.of_nat c) = probe_of key (Z.of_nat d)) as Heq'.
    { apply Z2Nat.inj; [apply probe_of_range|apply probe_of_range|done]. }
    destruct (Nat.lt_trichotomy c d) as [Hlt|[->|Hlt]]; [|done|].
    + exfalso. eapply (probe_inj n (home_of key)); [done| | | |exact Heq']; lia.
    + exfalso. eapply (probe_inj n (home_of key)); [done| | | |symmetry; exact Heq']; lia.
  - pose proof (countb_negb is_empty (h_buckets h)) as Hsum. rewrite (ts_length _ Hs) in Hsum.
    unfold ps, zlen. rewrite length_fmap, length_seq. lia.
  - intros i Hi. apply list_elem_of_fmap in Hi as (c & -> & _).
    pose proof (probe_of_range key (Z.of_nat c)). pose proof (ts_length _ Hs) as Hl. unfold zlen in Hl. lia.
  - apply list_elem_of_fmap in Hi as (c & -> & Hc). apply elem_of_seq in Hc.
    exists c. split; [lia|]. exists b. split.
    + apply zget_lookup; [apply probe_of_range|done].
    + apply im_stop_spec. left. apply negb_false_iff in He. unfold is_empty in He.
      by apply bool_decide_eq_true in He.
Qed.

(** [im_find_element] ends, after at most [n / 2] collisions, at the first
    bucket that is empty or holds the key. *)
Lemma find_element_spec key :
  exists (c : nat) b, 2 * Z.of_nat c < n /\
    im_find_element h key = Ok (probe_of key (Z.of_nat c)) /\
    zget (h_buckets h) (probe_of key (Z.of_nat c)) = Ok b /\ im_stop b key = true /\
    (forall j, 0 <= j < Z.of_nat c -> ~ stops_at key j).
Proof using Hs.
  destruct (probes_stop key) as (c0 & Hc0 & Hst0).
  destruct (least_witness (λ c, stops_at key (Z.of_nat c)) c0) as [(c & Hc & Hst & Hleast)|Hnone].
  - assert (forall j, 0 <= j < Z.of_nat c -> ~ stops_at key j) as Hbefore.
    { intros j Hj. rewrite <- (Z2Nat.id j) by lia. apply Hleast. lia. }
    pose proof (ts_bounds _ Hs). destruct Hst as (b & Hb & Hst).
    exists c, b. split_and!; [lia| |done|done|done].
    apply find_element_at; [lia|by exists b|done].
  - exfalso. by apply (Hnone c0).
Qed.

(** The position found is in range and its bucket stops the probes. *)
Lemma find_element_bucket key :
  exists (p : nat) b, im_find_element h key = Ok (Z.of_nat p) /\ h_buckets h !! p = Some b /\
    (p < length (h_buckets h))%nat /\ (is_empty b = true \/ key_equiv (hb_key b) key).
Proof using Hs.
  destruct (find_element_spec key) as (c & b & _ & Hf & Hb & Hst & _).
  apply zget_Ok in Hb as [Hp Hb]. exists (Z.to_nat (probe_of key (Z.of_nat c))), b.
  rewrite Z2Nat.id by done. split_and!; [done|done|by eapply lookup_lt_Some|].
  apply im_stop_spec in Hst as [?|?]; [left|by right]. by apply bool_decide_eq_true.
Qed.
End finding.

(** ** The map a table represents *)

Definition table_map (h : im_hashtable) : gmap bytes im_hash_bucket :=
  list_to_map ((λ b, (key_of (hb_key b), b)) <$> List.filter is_live (h_buckets h)).

Lemma key_of_idemp k : key_of (key_of k) = key_of k.
Proof.
  unfold key_of. assert (content (take key_bound (content k)) = take key_bound (content k)) as ->.
  { assert (Forall (λ c, c <> 0) (take key_bound (content k))) as Hn by apply Forall_take, content_nonzero.
    rewrite <- (app_nil_r (take _ _)) at 1. rewrite content_nonzero_app by done. by rewrite app_nil_r. }
  by rewrite take_take, Nat.min_id.
Qed.

Section wf.
Context (h : im_hashtable) (Hwf : table_wf h).
Let Hs := tw_shape h Hwf.

(** A key is held by at most one used bucket. *)
Lemma used_unique p q b b' :
  h_buckets h !! p = Some b -> h_buckets h !! q = Some b' ->
  is_empty b = false -> is_empty b' = false ->
  key_equiv (hb_key b) (hb_key b') -> p = q.
Proof using Hwf.
  intros Hb Hb' Hu Hu' Hk.
  pose proof (tw_reach h Hwf _ _ Hb Hu) as Hf. pose proof (tw_reach h Hwf _ _ Hb' Hu') as Hf'.
  rewrite Hk in Hf. rewrite Hf' in Hf. injection Hf as Hf. lia.
Qed.

(** A used bucket with the key is the one found. *)
Lemma find_used p b key :
  h_buckets h !! p = Some b -> is_empty b = false -> key_equiv (hb_key b) key ->
  im_find_element h key = Ok (Z.of_nat p).
Proof using Hwf. intros Hb Hu Hk. rewrite <- Hk. by eapply tw_reach. Qed.

Lemma elem_of_live i b : h_buckets h !! i = Some b -> is_live b = true ->
  (key_of (hb_key b), b) ∈ ((λ b, (key_of (hb_key b), b)) <$> List.filter is_live (h_buckets h)).
Proof using Type.
  intros Hb Hl. apply list_elem_of_fmap. exists b. split; [done|].
  apply list_elem_of_In, filter_In. split; [|done]. apply list_elem_of_In. by eapply list_elem_of_lookup_2.
Qed.

Lemma table_map_lookup_live p b :
  h_buckets h !! p = Some b -> is_live b = true -> table_map h !! key_of (hb_key b) = Some b.
Proof using Hwf.
  intros Hb Hl. unfold table_map. apply elem_of_list_to_map_1'.
  - intros b' Hin. apply list_elem_of_fmap in Hin as (b2 & Heq & Hin). simplify_eq.
    apply list_elem_of_In, filter_In in Hin as [Hin Hl2]. apply list_elem_of_In, list_elem_of_lookup in Hin as [q Hq].
    assert (p = q) as ->; [|congruence].
    eapply used_unique; [exact Hb|exact Hq|by apply is_live_not_empty..|]. done.
  - by eapply elem_of_live.
Qed.

Lemma table_map_Some k b :
  table_map h !! k = Some b ->
  exists p, h_buckets h !! p = Some b /\ is_live b = true /\ k = key_of (hb_key b).
Proof using Type.
  intros Hk. apply elem_of_list_to_map_2 in Hk.
  apply list_elem_of_fmap in Hk as (b' & Heq & Hin). simplify_eq.
  apply list_elem_of_In, filter_In in Hin as [Hin Hl].
  apply list_elem_of_In, list_elem_of_lookup in Hin as [q Hq]. eauto.
Qed.

(** Lookup through the probes is lookup in the map. *)
Lemma retrieve_by_key_map key :
  im_retrieve_element_by_key h key = Ok (table_map h !! key_of key).
Proof using Hwf.
  unfold im_retrieve_element_by_key.
  destruct (find_element_bucket h Hs key) as (p & b & Hf & Hb & Hp & Hst). rewrite Hf.
  cbn [mbind outcome_bind]. unfold im_retrieve_element.
  rewrite (zget_lookup _ _ b) by (rewrite ?Nat2Z.id; done || lia). cbn [mbind outcome_bind].
  destruct (is_live b) eqn:Hl.
  - assert (is_free b = false) as -> by (unfold is_live in Hl; by destruct (is_free b)).
    destruct Hst as [He|Hk]; [by rewrite (is_live_not_empty _ Hl) in He|].
    rewrite <- Hk. f_equal. symmetry. by eapply table_map_lookup_live.
  - assert (is_free b = true) as -> by (unfold is_live in Hl; by destruct (is_free b)).
    f_equal. destruct (table_map h !! key_of key) as [b'|] eqn:E; [|done].
    exfalso. apply table_map_Some in E as (q & Hq & Hl' & Hk).
    assert (im_find_element h key = Ok (Z.of_nat q)) as Hf'.
    { eapply find_used; [exact Hq|by apply is_live_not_empty|]. done. }
    rewrite Hf in Hf'. injection Hf' as Hpq. assert (p = q) as -> by lia. congruence.
Qed.
End wf.

(** Two maps over the keys of tables that agree on every key are equal. *)
Lemma table_map_ext (h : im_hashtable) (m : gmap bytes im_hash_bucket) :
  (forall k b, m !! k = Some b -> key_of k = k) ->
  (forall k, table_map h !! key_of k = m !! key_of k) -> table_map h = m.
Proof.
  intros Hm Heq. apply map_eq. intros k. destruct (decide (key_of k = k)) as [<-|Hk]; [apply Heq|].
  destruct (m !! k) as [b|] eqn:E; [by apply Hm in E|].
  destruct (table_map h !! k) as [b|] eqn:E'; [|done].
  apply table_map_Some in E' as (p & _ & _ & ->). by rewrite key_of_idemp in Hk.
Qed.

Lemma table_map_normal h k b : table_map h !! k = Some b -> key_of k = k.
Proof. intros H. apply table_map_Some in H as (p & _ & _ & ->). apply key_of_idemp. Qed.

(** The live keys are distinct. *)
Lemma live_keys_distinct h :
  table_wf h -> NoDup ((λ b, key_of (hb_key b)) <$> List.filter is_live (h_buckets h)).
Proof.
  intros Hwf. pose proof (used_unique h Hwf) as Hu. clear Hwf. revert Hu.
  induction (h_buckets h) as [|b l IH]; intros Hu; [constructor|]. simpl.
  assert (NoDup ((λ b, key_of (hb_key b)) <$> List.filter is_live l)) as Hnd.
  { apply IH. intros p q b1 b2 H1 H2 He1 He2 Hk. pose proof (Hu (S p) (S q) b1 b2 H1 H2 He1 He2 Hk). lia. }
  destruct (is_live b) eqn:Hl; [|done]. simpl. constructor; [|done].
  intros Hin. apply list_elem_of_fmap in Hin as (b' & Hk & Hin).
  apply list_elem_of_In, filter_In in Hin as [Hin Hl'].
  apply list_elem_of_In, list_elem_of_lookup in Hin as [q Hq].
  pose proof (Hu 0%nat (S q) b b' eq_refl Hq (is_live_not_empty _ Hl) (is_live_not_empty _ Hl') Hk). lia.
Qed.

(** The size of the map is the [inuse] counter. *)
Lemma table_map_size h : table_wf h -> Z.of_nat (size (table_map h)) = h_inuse h.
Proof.
  intros Hwf. rewrite (ts_inuse _ (tw_shape _ Hwf)). unfold countb, zlen. f_equal.
  unfold table_map. rewrite map_size_list_to_map; [by rewrite length_fmap|].
  rewrite <- list_fmap_compose. by apply live_keys_distinct.
Qed.

Lemma table_map_lookup_iff h k b :
  table_wf h -> table_map h !! k = Some b <->
  exists p, h_buckets h !! p = Some b /\ is_live b = true /\ k = key_of (hb_key b).
Proof.
  intros Hwf. split; [apply table_map_Some|]. intros (p & Hp & Hl & ->). by eapply table_map_lookup_live.
Qed.

(** ** Writing a used bucket where its key is found *)

Section update.
Context (h h' : im_hashtable) (Hwf : table_wf h) (Hs' : table_shape h').
Context (p : nat) (b' : im_hash_bucket) (key : bytes).
Hypothesis (Hn : h_number_of_buckets h' = h_number_of_buckets h).
Hypothesis (Hbs : h_buckets h' = <[p := b']> (h_buckets h)).
Hypothesis (Hfind : im_find_element h key = Ok (Z.of_nat p)).
Hypothesis (Hused : is_empty b' = false).
Hypothesis (Hkey : key_equiv (hb_key b') key).
Let Hs := tw_shape h Hwf.

Lemma update_pos_lt : (p < length (h_buckets h))%nat.
Proof using Hfind Hwf.
  destruct (find_element_bucket h Hs key) as (q & b & Hf & _ & Hq & _).
  rewrite Hfind in Hf. injection Hf as Hf. by replace p with q by lia.
Qed.

Lemma update_probe k c : probe_of h' k c = probe_of h k c.
Proof using Hn. unfold probe_of, home_of. by rewrite Hn. Qed.

Lemma update_get i : (Z.to_nat i <> p)%nat -> zget (h_buckets h') i = zget (h_buckets h) i.
Proof using Hbs. intros Hi. rewrite Hbs. unfold zget. by rewrite list_lookup_insert_ne. Qed.

Lemma update_get_p i : i = Z.of_nat p -> zget (h_buckets h') i = Ok b'.
Proof using Hbs Hfind Hwf.
  intros ->. rewrite Hbs. apply zget_lookup; [lia|]. rewrite Nat2Z.id.
  apply list_lookup_insert_eq, update_pos_lt.
Qed.

(** A probe of the new table stops only where one of the old table did. *)
Lemma update_stops k c :
  stops_at h' k c -> ~ key_equiv k key -> stops_at h k c.
Proof using Hbs Hfind Hkey Hn Hused Hwf.
  intros (b & Hb & Hst) Hk. rewrite update_probe in Hb.
  destruct (decide (Z.to_nat (probe_of h k c) = p)) as [E|E].
  - pose proof (probe_of_range h Hs k c).
    rewrite update_get_p in Hb by lia. injection Hb as <-.
    exfalso. apply im_stop_spec in Hst as [He|He]; [by apply not_empty_info in Hused|].
    apply Hk. by rewrite <- He, Hkey.
  - rewrite update_get in Hb by done. by exists b.
Qed.

Lemma update_find_key : im_find_element h' key = Ok (Z.of_nat p).
Proof using Hbs Hfind Hkey Hn Hs' Hused Hwf.
  destruct (find_element_spec h Hs key) as (c & b & Hc & Hf & Hb & Hst & Hbefore).
  assert (probe_of h key (Z.of_nat c) = Z.of_nat p) as Hp by congruence.
  pose proof (ts_bounds _ Hs) as Hbd.
  rewrite (find_element_at h' Hs' key c), update_probe; [by rewrite Hp|lia|..].
  - exists b'. rewrite update_probe, update_get_p by done. split; [done|].
    apply im_stop_spec. by right.
  - intros j Hj (b2 & Hb2 & Hst2). apply (Hbefore j Hj). rewrite update_probe in Hb2.
    pose proof (probe_of_range h Hs key j) as Hr.
    destruct (decide (Z.to_nat (probe_of h key j) = p)) as [E|E].
    + exists b. split; [|done]. rewrite <- Hb. f_equal. lia.
    + rewrite update_get in Hb2 by done. by exists b2.
Qed.

Lemma update_find_other k q :
  ~ key_equiv k key -> im_find_element h k = Ok (Z.of_nat q) -> q <> p ->
  im_find_element h' k = Ok (Z.of_nat q).
Proof using Hbs Hfind Hkey Hn Hs' Hused Hwf.
  intros Hk Hq Hqp.
  destruct (find_element_spec h Hs k) as (c & b & Hc & Hf & Hb & Hst & Hbefore).
  assert (probe_of h k (Z.of_nat c) = Z.of_nat q) as Hp by congruence.
  pose proof (ts_bounds _ Hs) as Hbd.
  rewrite (find_element_at h' Hs' k c), update_probe; [by rewrite Hp|lia|..].
  - exists b. rewrite update_probe, update_get; [done|]. rewrite Hp. lia.
  - intros j Hj Hst2. apply (Hbefore j Hj). by apply update_stops.
Qed.

Lemma update_used_elsewhere q b :
  h_buckets h !! q = Some b -> is_empty b = false -> q <> p -> ~ key_equiv (hb_key b) key.
Proof using Hfind Hwf.
  intros Hb Hu Hqp Hk. pose proof (find_used h Hwf q b key Hb Hu Hk) as Hf.
  rewrite Hfind in Hf. injection Hf as Hf. lia.
Qed.

Lemma update_wf : table_wf h'.
Proof using Hbs Hfind Hkey Hn Hs' Hused Hwf.
  constructor; [done|]. intros q b Hb Hu. rewrite Hbs in Hb.
  destruct (decide (q = p)) as [->|Hqp].
  - rewrite list_lookup_insert_eq in Hb by apply update_pos_lt. injection Hb as <-.
    rewrite Hkey. apply update_find_key.
  - rewrite list_lookup_insert_ne in Hb by done.
    apply update_find_other; [by eapply update_used_elsewhere|by apply (tw_reach h Hwf)|done].
Qed.

Lemma update_map :
  table_map h' = (if is_live b' then insert (key_of key) b' else delete (key_of key)) (table_map h).
Proof using Hbs Hfind Hkey Hn Hs' Hused Hwf.
  apply map_eq. intros k. apply option_eq. intros b.
  rewrite (table_map_lookup_iff h' _ _ update_wf), Hbs.
  transitivity (key_of key = k /\ is_live b' = true /\ b = b' \/ key_of key <> k /\ table_map h !! k = Some b).
  - rewrite (table_map_lookup_iff h _ _ Hwf). split.
    + intros (q & Hq & Hl & ->). destruct (decide (q = p)) as [->|Hqp].
      * rewrite list_lookup_insert_eq in Hq by apply update_pos_lt. injection Hq as <-.
        left. split_and!; [by symmetry|done|done].
      * rewrite list_lookup_insert_ne in Hq by done. right. split; [|by exists q].
        intros Heq. eapply (update_used_elsewhere q b); [done|by apply is_live_not_empty|done|].
        by symmetry.
    + intros [(<- & Hl & ->)|(Hk & q & Hq & Hl & ->)].
      * exists p. rewrite list_lookup_insert_eq by apply update_pos_lt. by split_and!.
      * exists q. split_and!; [|done|done]. rewrite list_lookup_insert_ne; [done|]. intros ->.
        assert (im_find_element h (hb_key b) = Ok (Z.of_nat q)) as Hfb.
        { apply (tw_reach h Hwf); [done|by apply is_live_not_empty]. }
        destruct (find_element_bucket h Hs key) as (q' & b2 & Hf & Hb2 & _ & Hst).
        rewrite Hfind in Hf. injection Hf as Hf. assert (q = q') as <- by lia. simplify_eq.
        destruct Hst as [He|He]; [by rewrite (is_live_not_empty _ Hl) in He|]. by apply Hk.
  - destruct (is_live b'); [rewrite lookup_insert|rewrite lookup_delete]; case_decide; naive_solver.
Qed.
End update.

(** The search reads the buckets and their number only. *)
Lemma find_element_ext h1 h2 key :
  h_buckets h1 = h_buckets h2 -> h_number_of_buckets h1 = h_number_of_buckets h2 ->
  im_find_element h1 key = im_find_element h2 key.
Proof.
  intros Hb Hn. unfold im_find_element, im_hashcode. rewrite Hn.
  destruct (h_number_of_buckets h2 =? 0); [done|]. cbn [mbind outcome_bind].
  generalize (S (Z.to_nat (h_number_of_buckets h2))). intros fuel.
  generalize (s32 (im_hashcode_loop key_bound key 0 mod h_number_of_buckets h2)). generalize 0.
  induction fuel as [|fuel IH]; intros c p; [done|]. cbn [im_find_loop]. rewrite Hb, Hn.
  destruct (zget (h_buckets h2) p) as [b| |]; [|done..]. cbn [mbind outcome_bind].
  destruct (im_stop b key); [done|]. apply IH.
Qed.

Lemma set_attached_wf s o h : table_wf h -> table_wf (set_h_attached s o h).
Proof.
  intros [[] Hr]. constructor; [by constructor|]. intros p b Hb Hu.
  rewrite (find_element_ext _ h) by done. by apply Hr.
Qed.

(** ** The table operations on the map *)

Lemma must_rehash_false h :
  table_shape h -> im_must_rehash h = false -> h_number_of_buckets h < 2 * (h_empty h - 1).
Proof.
  intros Hs. pose proof (ts_bounds _ Hs). pose proof (ts_load _ Hs). pose proof (ts_odd _ Hs) as Ho.
  pose proof (countb_bounds is_empty (h_buckets h)) as Hc. rewrite (ts_length _ Hs), <- (ts_empty _ Hs) in Hc.
  unfold im_must_rehash. rewrite Z.shiftr_div_pow2 by lia. change (2 ^ 1) with 2.
  apply Z.odd_spec in Ho as [q Hq]. no_wrap. rewrite Z.leb_gt.
  assert (h_number_of_buckets h / 2 = q) as -> by (rewrite Hq; symmetry; apply (Z.div_unique_pos _ _ q 1); lia). lia.
Qed.

Lemma must_rehash_false_intro h :
  table_shape h -> h_number_of_buckets h < 2 * (h_empty h - 1) -> im_must_rehash h = false.
Proof.
  intros Hs Hl. pose proof (ts_bounds _ Hs).
  pose proof (countb_bounds is_empty (h_buckets h)) as Hc. rewrite (ts_length _ Hs), <- (ts_empty _ Hs) in Hc.
  unfold im_must_rehash. rewrite Z.shiftr_div_pow2 by lia. change (2 ^ 1) with 2.
  no_wrap. apply Z.leb_gt. apply Z.div_lt_upper_bound; lia.
Qed.

(** What an insertion leaves of the counters. *)
Record put_result (h h' : im_hashtable) : Prop := {
  pr_number : h_number_of_buckets h' = h_number_of_buckets h;
  pr_inuse : h_inuse h' = h_inuse h + 1;
  pr_empty : h_empty h - 1 <= h_empty h' <= h_empty h;
  pr_attached : h_attached_size h' = h_attached_size h /\ h_attached_offset h' = h_attached_offset h;
}.

Section operations.
Context (h : im_hashtable) (Hwf : table_wf h).
Let Hs := tw_shape h Hwf.

(** The position found for a key that is not in the map is a free bucket. *)
Lemma find_absent key p :
  table_map h !! key_of key = None -> im_find_element h key = Ok (Z.of_nat p) ->
  exists b, h_buckets h !! p = Some b /\ is_free b = true.
Proof using Hwf.
  intros Hnone Hf. destruct (find_element_bucket h Hs key) as (q & b & Hf' & Hb & _ & Hst).
  assert (p = q) as -> by (rewrite Hf in Hf'; injection Hf'; lia). exists b. split; [done|].
  destruct (is_free b) eqn:E; [done|]. exfalso.
  assert (is_live b = true) as Hl by (unfold is_live; by rewrite E).
  destruct Hst as [He|Hk]; [by rewrite (is_live_not_empty _ Hl) in He|].
  rewrite <- Hk, (table_map_lookup_live h Hwf q b Hb Hl) in Hnone. done.
Qed.

(** The position found for a key of the map is its bucket. *)
Lemma find_present key b :
  table_map h !! key_of key = Some b ->
  exists p, im_find_element h key = Ok (Z.of_nat p) /\ h_buckets h !! p = Some b /\ is_live b = true.
Proof using Hwf.
  intros Hsome. apply table_map_Some in Hsome as (p & Hp & Hl & Hk). exists p. split_and!; [|done|done].
  eapply (find_used h Hwf); [exact Hp|by apply is_live_not_empty|]. by symmetry.
Qed.

Lemma put_bucket_absent b :
  is_free b = false -> im_must_rehash h = false -> table_map h !! key_of (hb_key b) = None ->
  exists p h', im_find_element h (hb_key b) = Ok p /\ im_put_bucket h p b = Ok (p, h') /\ 0 <= p /\
    table_wf h' /\ table_map h' = <[key_of (hb_key b) := b]> (table_map h) /\ put_result h h'.
Proof using Hwf.
  intros Hlive Hre Hnone. apply must_rehash_false in Hre; [|done].
  destruct (find_element_bucket h Hs (hb_key b)) as (p & _ & Hf & _ & Hp & _).
  destruct (find_absent (hb_key b) p Hnone Hf) as (b0 & Hb0 & Hfree).
  pose proof (ts_bounds _ Hs) as Hbd. pose proof (ts_length _ Hs) as Hlen. pose proof (ts_load _ Hs).
  pose proof (countb_bounds is_live (h_buckets h)) as Hcl. rewrite <- (ts_inuse _ Hs) in Hcl.
  pose proof (countb_bounds is_empty (h_buckets h)) as Hce. rewrite <- (ts_empty _ Hs) in Hce.
  exists (Z.of_nat p). unfold im_put_bucket.
  rewrite (zget_lookup _ _ b0) by (rewrite ?Nat2Z.id; done || lia). cbn [mbind outcome_bind]. rewrite Hfree.
  assert (is_live b0 = false) as Hnl by (unfold is_live; by rewrite Hfree).
  assert (is_live b = true) as Hl by (unfold is_live; by rewrite Hlive).
  pose proof (is_live_not_empty _ Hl) as Hne.
  set (h1 := if bool_decide (hb_info b0 = IM_EMPTY) then _ else _).
  assert (h_buckets h1 = h_buckets h /\ h_number_of_buckets h1 = h_number_of_buckets h /\
    h_inuse h1 = h_inuse h /\ h_empty h1 = h_empty h - (if is_empty b0 then 1 else 0) /\
    h_attached_size h1 = h_attached_size h /\ h_attached_offset h1 = h_attached_offset h)
    as (E1 & E2 & E3 & E4 & E5 & E6).
  { unfold h1, is_empty. destruct (bool_decide _); simpl; no_wrap; split_and!; done || lia. }
  clearbody h1. rewrite E1, zset_in_range by (unfold zlen; lia). rewrite Nat2Z.id. cbn [mbind outcome_bind].
  eexists. split; [done|]. split; [done|]. split; [lia|].
  set (h' := set_h_inuse _ _).
  assert (h_empty h' = countb is_empty (h_buckets h')) as He'.
  { simpl. rewrite (countb_insert _ _ _ _ b0 Hb0), Hne, E4, (ts_empty _ Hs). lia. }
  assert (h_inuse h' = h_inuse h + 1) as Hi'.
  { simpl. rewrite E3. no_wrap. done. }
  assert (table_shape h') as Hs'.
  { constructor; simpl; rewrite ?E2.
    - rewrite zlen_insert. done.
    - apply Hs.
    - apply Hs.
    - done.
    - exact He'.
    - rewrite E3. no_wrap.
      rewrite (countb_insert _ _ _ _ b0 Hb0), Hnl, Hl, (ts_inuse _ Hs). lia.
    - rewrite E4. destruct (is_empty b0); lia. }
  assert (table_wf h') as Hwf' by (eapply (update_wf h h' Hwf Hs' p b (hb_key b)); simpl; congruence || done).
  split_and!; [done| |].
  - rewrite (update_map h h' Hwf Hs' p b (hb_key b)); [by rewrite Hl|simpl; congruence || done..].
  - constructor; simpl; [done|exact Hi'|rewrite E4; destruct (is_empty b0); lia|done].
Qed.

Lemma put_bucket_present b b0 :
  table_map h !! key_of (hb_key b) = Some b0 ->
  exists p, im_find_element h (hb_key b) = Ok p /\ im_put_bucket h p b = Ok (-1, h).
Proof using Hwf.
  intros Hsome. destruct (find_present _ _ Hsome) as (p & Hf & Hp & Hl).
  exists (Z.of_nat p). split; [done|]. unfold im_put_bucket.
  rewrite (zget_lookup _ _ b0) by (rewrite ?Nat2Z.id; done || lia). cbn [mbind outcome_bind].
  unfold is_live in Hl. by destruct (is_free b0).
Qed.

(** Marking a live bucket deleted. *)
Lemma mark_deleted p b :
  h_buckets h !! p = Some b -> is_live b = true ->
  let h' := set_h_inuse (h_inuse h - 1) (set_h_buckets (<[p := set_hb_info IM_DELETED b]> (h_buckets h)) h) in
  table_wf h' /\ table_map h' = delete (key_of (hb_key b)) (table_map h).
Proof using Hwf.
  intros Hp Hl h'. pose proof (is_live_not_empty _ Hl) as Hne.
  assert (table_shape h') as Hs'.
  { constructor; simpl.
    - rewrite zlen_insert. apply Hs.
    - apply Hs.
    - apply Hs.
    - apply Hs.
    - rewrite (countb_insert _ _ _ _ b Hp), Hne. simpl. rewrite (ts_empty _ Hs). lia.
    - rewrite (countb_insert _ _ _ _ b Hp), Hl. simpl. rewrite (ts_inuse _ Hs). lia.
    - apply Hs. }
  pose proof (tw_reach h Hwf p b Hp Hne) as Hf.
  assert (is_empty (set_hb_info IM_DELETED b) = false) as Hne' by done.
  split.
  - by eapply (update_wf h h' Hwf Hs' p (set_hb_info IM_DELETED b) (hb_key b)).
  - by rewrite (update_map h h' Hwf Hs' p (set_hb_info IM_DELETED b) (hb_key b)).
Qed.
End operations.

Lemma empty_hashtable_wf n :
  Z.prime n -> Z.odd n = true -> 3 <= n < 268435456 -> table_wf (empty_hashtable n).
Proof.
  intros Hp Ho Hn. constructor; [constructor; simpl|].
  - unfold zlen. rewrite length_replicate. lia.
  - done.
  - done.
  - done.
  - rewrite countb_replicate. simpl. lia.
  - by rewrite countb_replicate.
  - lia.
  - intros p b Hb Hu. apply lookup_replicate in Hb as [-> _]. done.
Qed.

Lemma empty_hashtable_map n : table_map (empty_hashtable n) = ∅.
Proof.
  apply map_eq. intros k. rewrite lookup_empty. destruct (table_map _ !! k) as [b|] eqn:E; [|done].
  apply table_map_Some in E as (p & Hp & Hl & _). apply lookup_replicate in Hp as [-> _]. done.
Qed.
