(* ===== verification/ImInsert.v ===== *)
(** * Construction, insertion, rehashing and deletion in memory

    [im_initialize_hashtable], [im_insert_element], [im_rehash_hashtable] and
    [im_delete_element] run on the memory, allocation failures included, and
    are shown to perform the operations of the map of [ImTable] and to leave
    every other object alone. *)

From Stdlib Require Import Zdivisibility.
From S2P Require Import Prelude LibC PrimeTable ImTypes ImHashTable ImTable.

(** ** Running the memory operations *)

(** Every object is in a block already handed out. *)
Definition mem_wf (m : mem) : Prop :=
  forall k c, m_cells m !! k = Some c -> (k.1 < m_next m)%positive.

Definition upd (a : addr) (c : cell) (m : mem) : mem := set_cells <[a := c]> m.

Lemma m_cells_set f m : m_cells (set_cells f m) = f (m_cells m).
Proof. done. Qed.

Section run.
Context (m : mem) (a : addr).

Lemma load_hash_run h : m_cells m !! a = Some (CHash h) -> load_hash (Some a) m = Ok (h, m).
Proof using Type. intros H. unfold load_hash, load, mbind, M_bind. by rewrite H. Qed.

Lemma load_vector_run v : m_cells m !! a = Some (CVector v) -> load_vector (Some a) m = Ok (v, m).
Proof using Type. intros H. unfold load_vector, load, mbind, M_bind. by rewrite H. Qed.

Lemma load_bytes_run b : m_cells m !! a = Some (CBytes b) -> load_bytes (Some a) m = Ok (b, m).
Proof using Type. intros H. unfold load_bytes, load, mbind, M_bind. by rewrite H. Qed.

Lemma store_run c0 c : m_cells m !! a = Some c0 -> store (Some a) c m = Ok (tt, upd a c m).
Proof using Type. intros H. unfold store. by rewrite H. Qed.

Lemma upd_same c : m_cells (upd a c m) !! a = Some c.
Proof using Type. apply lookup_insert_eq. Qed.

Lemma upd_other c k : k <> a -> m_cells (upd a c m) !! k = m_cells m !! k.
Proof using Type. intros H. by apply lookup_insert_ne. Qed.

Lemma upd_upd c c' : upd a c' (upd a c m) = upd a c' m.
Proof using Type. unfold upd, set_cells. simpl. by rewrite insert_insert_eq. Qed.

Lemma upd_mem_wf c c0 : mem_wf m -> m_cells m !! a = Some c0 -> mem_wf (upd a c m).
Proof using Type.
  intros Hm Ha k c' Hk. simpl in *. destruct (decide (k = a)) as [->|Hne]; [by eapply Hm|].
  rewrite lookup_insert_ne in Hk by done. by eapply Hm.
Qed.
End run.

(** [run H]: the first step of the sequence succeeds by [H]. *)
Ltac run H := rewrite (M_bind_ok _ _ _ _ _ H); cbv beta.
Ltac run_lift H := rewrite (M_lift_ok _ _ _ _ H); cbv beta.
Ltac run_ret := rewrite M_ret_bind; cbv beta.

(** ** Construction *)

Lemma initialize_run capacity n m :
  bsearch_number_of_buckets capacity = Ok n -> 0 <= n < 4294967296 ->
  im_initialize_hashtable capacity m =
    match m_quota m with
    | O => Ok (None, m)
    | S q => Ok (Some (m_next m, 0),
                 Mem (<[(m_next m, 0) := CHash (empty_hashtable n)]> (m_cells m)) (m_next m + 1) q)
    end.
Proof. intros Hb Hn. unfold im_initialize_hashtable. run_lift Hb. no_wrap. done. Qed.

(** ** Insertion that does not rehash *)

Section insert.
Context (fuel : nat) (m : mem) (a : addr) (h : im_hashtable) (b : im_hash_bucket).
Hypothesis (Ha : m_cells m !! a = Some (CHash h)) (Hwf : table_wf h).
Hypothesis (Hb : is_free b = false).

Lemma insert_run_absent :
  im_must_rehash h = false -> table_map h !! key_of (hb_key b) = None ->
  exists p h', im_insert_element (S fuel) (Some a) b m = Ok ((p, Some a), upd a (CHash h') m) /\
    0 <= p /\ table_wf h' /\ table_map h' = <[key_of (hb_key b) := b]> (table_map h) /\ put_result h h'.
Proof using Ha Hwf Hb.
  intros Hre Hnone.
  destruct (put_bucket_absent h Hwf b Hb Hre Hnone) as (p & h' & Hf & Hput & Hp & Hwf' & Hmap & Hpr).
  exists p, h'. split_and!; try done. cbn [im_insert_element]. rewrite Hb.
  run (load_hash_run _ _ _ Ha). rewrite Hre. run_ret. cbn [fst snd].
  change (0 <? 0) with false. cbv iota. run (load_hash_run _ _ _ Ha).
  run_lift Hf. run_lift Hput. cbn [fst snd]. run (store_run _ _ _ (CHash h') Ha). done.
Qed.

Lemma insert_run_present b0 :
  im_must_rehash h = false -> table_map h !! key_of (hb_key b) = Some b0 ->
  im_insert_element (S fuel) (Some a) b m = Ok ((-1, Some a), m).
Proof using Ha Hwf Hb.
  intros Hre Hsome. destruct (put_bucket_present h Hwf b b0 Hsome) as (p & Hf & Hput).
  cbn [im_insert_element]. rewrite Hb.
  run (load_hash_run _ _ _ Ha). rewrite Hre. run_ret. cbn [fst snd].
  change (0 <? 0) with false. cbv iota. run (load_hash_run _ _ _ Ha).
  run_lift Hf. run_lift Hput. cbn [fst snd]. run (store_run _ _ _ (CHash h) Ha).
  unfold mret, M_ret. do 2 f_equal. unfold upd, set_cells. rewrite insert_id by done. by destruct m.
Qed.
End insert.

(** A bucket that is empty or deleted is refused. *)
Lemma insert_free_refused fuel a b m :
  is_free b = true -> im_insert_element (S fuel) a b m = Ok ((-1, a), m).
Proof. intros Hb. cbn [im_insert_element]. by rewrite Hb. Qed.

(** ** The loop of a rehash *)

(** The live buckets of a list, as a map. *)
Definition buckets_map (bs : list im_hash_bucket) : gmap bytes im_hash_bucket :=
  list_to_map ((λ b, (key_of (hb_key b), b)) <$> List.filter is_live bs).

Lemma buckets_map_cons b bs :
  buckets_map (b :: bs) = (if is_live b then <[key_of (hb_key b) := b]> (buckets_map bs) else buckets_map bs).
Proof. unfold buckets_map. simpl. by destruct (is_live b). Qed.

(** Distinct live keys. *)
Definition live_keys (bs : list im_hash_bucket) : list bytes :=
  (λ b, key_of (hb_key b)) <$> List.filter is_live bs.

Lemma live_keys_cons b bs :
  live_keys (b :: bs) = if is_live b then key_of (hb_key b) :: live_keys bs else live_keys bs.
Proof. unfold live_keys. simpl. by destruct (is_live b). Qed.

Lemma elem_of_live_keys bs k :
  k ∈ live_keys bs <-> exists b, b ∈ bs /\ is_live b = true /\ k = key_of (hb_key b).
Proof.
  unfold live_keys. rewrite list_elem_of_fmap. split.
  - intros (b & -> & Hb). apply list_elem_of_In, filter_In in Hb as [Hb Hl].
    exists b. split_and!; [by apply list_elem_of_In|done|done].
  - intros (b & Hb & Hl & ->). exists b. split; [done|].
    apply list_elem_of_In, filter_In. split; [by apply list_elem_of_In|done].
Qed.

Lemma buckets_map_None bs k : k ∉ live_keys bs -> buckets_map bs !! k = None.
Proof.
  intros Hk. apply not_elem_of_list_to_map_1. rewrite <- list_fmap_compose. exact Hk.
Qed.

Section rehash_loop.
Context (fuel : nat) (a : addr).

Lemma rehash_loop_run bs m h :
  m_cells m !! a = Some (CHash h) -> table_wf h ->
  NoDup (live_keys bs) -> (forall k, k ∈ live_keys bs -> table_map h !! k = None) ->
  h_number_of_buckets h < 2 * (h_empty h - countb is_live bs) ->
  exists h', rehash_loop (im_insert_element (S fuel)) bs (Some a) m = Ok ((Some (Some a), Some a), upd a (CHash h') m) /\
    table_wf h' /\ table_map h' = buckets_map bs ∪ table_map h /\
    h_number_of_buckets h' = h_number_of_buckets h /\
    h_inuse h' = h_inuse h + countb is_live bs /\
    h_empty h - countb is_live bs <= h_empty h' /\
    h_attached_size h' = h_attached_size h /\ h_attached_offset h' = h_attached_offset h.
Proof using Type.
  revert m h. induction bs as [|b bs IH]; intros m h Ha Hwf Hnd Hfresh Hroom.
  - exists h. unfold upd, set_cells. simpl. rewrite insert_id by done.
    rewrite countb_nil. unfold buckets_map. simpl. rewrite (left_id_L ∅ (∪)).
    split_and!; try done; try lia. by destruct m.
  - cbn [rehash_loop]. rewrite countb_cons in *. destruct (is_live b) eqn:Hl.
    + assert (is_free b = false) as Hfree by (unfold is_live in Hl; by destruct (is_free b)).
      rewrite Hfree. rewrite live_keys_cons, Hl in *. apply NoDup_cons in Hnd as [Hk Hnd].
      pose proof (countb_bounds is_live bs) as Hcb.
      destruct (insert_run_absent fuel m a h b Ha Hwf Hfree) as (p & h1 & Hins & Hp & Hwf1 & Hmap1 & Hpr).
      { apply must_rehash_false_intro; [apply Hwf|lia]. }
      { apply Hfresh. set_solver. }
      destruct Hpr as [En Ei Ee [Es Eo]].
      run Hins. cbn [fst snd]. destruct (Z.ltb_spec p 0); [lia|].
      destruct (IH (upd a (CHash h1) m) h1) as (h' & Hrun & Hwf' & Hmap' & En' & Ei' & Ee' & Es' & Eo').
      { apply upd_same. } { done. } { done. }
      { intros k Hk'. rewrite Hmap1, lookup_insert_ne; [|set_solver]. apply Hfresh. set_solver. }
      { lia. }
      exists h'. rewrite Hrun, upd_upd. split_and!; try done; try lia; try congruence.
      rewrite Hmap', Hmap1, buckets_map_cons, Hl.
      rewrite <- insert_union_l. symmetry. apply insert_union_r. by apply buckets_map_None.
    + assert (is_free b = true) as Hfree by (unfold is_live in Hl; by destruct (is_free b)).
      rewrite Hfree. rewrite live_keys_cons, Hl in *.
      destruct (IH m h Ha Hwf Hnd Hfresh ltac:(lia)) as (h' & Hrun & Hrest).
      exists h'. split; [exact Hrun|]. by rewrite buckets_map_cons, Hl.
Qed.
End rehash_loop.

(** ** Rehashing *)

(** A fresh object, grown by [extra] bytes: it may move once more; the objects
    already there stay as they are. *)
Lemma grow_new_run m c size extra :
  mem_wf m -> 0 < size -> 0 <= extra -> (2 <= m_quota m)%nat ->
  let m1 := Mem (<[(m_next m, 0) := c]> (m_cells m)) (m_next m + 1) (pred (m_quota m)) in
  exists nb m2,
    (if extra =? 0 then mret (Some (m_next m, 0)) else realloc (Some (m_next m, 0)) (size + extra)) m1
      = Ok (Some (nb, 0), m2) /\
    m_cells m2 !! (nb, 0) = Some c /\ mem_wf m2 /\
    (m_next m <= nb < m_next m2)%positive /\
    (forall k, (k.1 < m_next m)%positive -> m_cells m2 !! k = m_cells m !! k) /\
    (m_quota m <= m_quota m2 + 2)%nat.
Proof.
  intros Hm Hsize Hextra Hq m1. destruct (Z.eqb_spec extra 0) as [->|Hne].
  - exists (m_next m), m1. split_and!; [done|apply lookup_insert_eq| |simpl; lia|simpl; lia| |].
    + intros k c' Hk. simpl in *. destruct (decide (k = (m_next m, 0))) as [->|Hkn]; [simpl; lia|].
      rewrite lookup_insert_ne in Hk by done. apply Hm in Hk. lia.
    + intros k Hk. simpl. rewrite lookup_insert_ne; [done|]. intros <-. simpl in Hk. lia.
    + simpl. lia.
  - destruct (m_quota m) as [|[|q]] eqn:Eq; [lia|lia|].
    eexists (m_next m + 1)%positive, _. split; [|split_and!].
    + unfold realloc. simpl. by rewrite lookup_insert_eq.
    + simpl. rewrite drop_block_ne by (simpl; lia).
      apply (copy_cells_inside (m_next m, 0) _ ((m_next m + 1)%positive, 0) _ (m_next m) 0).
      * apply lookup_insert_eq.
      * apply in_area_spec. simpl. lia.
    + intros k c' Hk. simpl in *. unfold drop_block in Hk. apply map_lookup_filter_Some in Hk as [Hk _].
      unfold copy_cells in Hk. apply lookup_union_Some_raw in Hk as [Hk|[_ Hk]].
      * apply elem_of_list_to_map_2, elem_of_cells_in in Hk as (k' & _ & _ & ->). simpl. lia.
      * apply map_lookup_filter_Some in Hk as [Hk _].
        destruct (decide (k = (m_next m, 0))) as [->|Hkn]; [simpl; lia|].
        rewrite lookup_insert_ne in Hk by done. apply Hm in Hk. lia.
    + simpl. lia.
    + simpl. lia.
    + intros k Hk. simpl. rewrite drop_block_ne by lia. rewrite copy_cells_outside.
      * rewrite lookup_insert_ne; [done|]. intros <-. simpl in Hk. lia.
      * apply not_true_iff_false. rewrite in_area_spec. simpl. lia.
    + simpl. lia.
Qed.

(** ** Moving an object and its attached area to another block

    The memory once the object [c'] is written in block [nb], the [len] bytes
    attached to the old object (at offset [so] of block [b]) are copied behind
    it (at offset [dn]), and block [b] is freed. *)

Record transferred (m m' : mem) (b nb : positive) (so dn len : Z) (c' : cell) : Prop := {
  tr_cell : m_cells m' !! (nb, 0) = Some c';
  tr_attached o c : 0 <= o < len -> m_cells m !! (b, so + o) = Some c -> m_cells m' !! (nb, dn + o) = Some c;
  tr_freed o : m_cells m' !! (b, o) = None;
  tr_frame k : k.1 <> b -> (k.1 < m_next m)%positive -> m_cells m' !! k = m_cells m !! k;
  tr_mem_wf : mem_wf m';
  tr_fresh : (m_next m <= nb < m_next m')%positive;
  tr_quota : (m_quota m <= m_quota m' + 2)%nat;
}.

Section transfer.
Context (m m2 : mem) (b nb : positive) (so dn len : Z) (c1 c' : cell).
Hypothesis (Hm : mem_wf m) (Hm2 : mem_wf m2) (Hb : (b < m_next m)%positive).
Hypothesis (Hnb : (m_next m <= nb < m_next m2)%positive) (Hdn : 0 < dn) (Hso : 0 < so).
Hypothesis (Hframe : forall k, (k.1 < m_next m)%positive -> m_cells m2 !! k = m_cells m !! k).

(** The area is copied ... *)
Definition after_copy : mem := set_cells (copy_cells (b, 0 + so) len (nb, 0 + dn)) (upd (nb, 0) c1 m2).

Lemma memcpy_after_copy :
  memcpy (ptr_add (Some (nb, 0)) dn) (ptr_add (Some (b, 0)) so) len (upd (nb, 0) c1 m2) = Ok (tt, after_copy).
Proof using Type. done. Qed.

Lemma after_copy_header : m_cells after_copy !! (nb, 0) = Some c1.
Proof using Hdn.
  unfold after_copy. rewrite m_cells_set, copy_cells_outside; [apply upd_same|].
  apply not_true_iff_false. rewrite in_area_spec. simpl. clear - Hdn. lia.
Qed.

Lemma after_copy_other k : k.1 <> nb -> m_cells after_copy !! k = m_cells m2 !! k.
Proof using Type.
  intros Hk. unfold after_copy. rewrite m_cells_set, copy_cells_outside.
  - apply upd_other. by intros ->.
  - apply not_true_iff_false. rewrite in_area_spec. simpl. by intros [].
Qed.

Lemma after_copy_old k : (k.1 < m_next m)%positive -> m_cells after_copy !! k = m_cells m !! k.
Proof using Hframe Hnb. intros Hk. rewrite after_copy_other by (intros E; rewrite E in Hk; lia). by apply Hframe. Qed.

Lemma transfer_free c0 :
  m_cells m !! (b, 0) = Some c0 ->
  freep (Some (b, 0)) (upd (nb, 0) c' after_copy) = Ok (tt, set_cells (drop_block b) (upd (nb, 0) c' after_copy)).
Proof using Hb Hframe Hnb.
  intros Hc. unfold freep. change (0 =? 0) with true. cbv iota.
  rewrite upd_other by (intros [= ->]; lia). by rewrite after_copy_old, Hc.
Qed.

Hypothesis (Hquota : (m_quota m <= m_quota m2 + 2)%nat).

(** ... and the old block goes. *)
Lemma transfer_done :
  transferred m (set_cells (drop_block b) (upd (nb, 0) c' after_copy)) b nb so dn len c'.
Proof using Hb Hdn Hframe Hm2 Hnb Hso Hquota.
  constructor.
  - rewrite m_cells_set, drop_block_ne by (simpl; lia). apply upd_same.
  - intros o c Ho Hc. rewrite m_cells_set, drop_block_ne by (simpl; lia).
    rewrite upd_other by (intros [= ?]; lia). unfold after_copy. rewrite m_cells_set.
    pose proof (copy_cells_inside (b, 0 + so) len (nb, 0 + dn) (m_cells (upd (nb, 0) c1 m2)) b (so + o) c) as Hin.
    cbn [fst snd] in Hin. replace (0 + dn + (so + o - (0 + so))) with (dn + o) in Hin by lia. apply Hin.
    + rewrite upd_other by (intros [= ->]; lia). rewrite Hframe by (simpl; lia). done.
    + apply in_area_spec. simpl. lia.
  - intros o. rewrite m_cells_set. apply drop_block_eq.
  - intros k Hk Hkn. rewrite m_cells_set, drop_block_ne by done.
    rewrite upd_other by (intros ->; simpl in Hkn; lia). by apply after_copy_old.
  - intros k c Hk. rewrite m_cells_set in Hk. unfold drop_block in Hk. apply map_lookup_filter_Some in Hk as [Hk _].
    change (k.1 < m_next m2)%positive. destruct (decide (k.1 = nb)) as [->|Hkn]; [lia|].
    rewrite upd_other in Hk by (by intros ->). rewrite after_copy_other in Hk by done. by apply Hm2 in Hk.
  - change (m_next m <= nb < m_next m2)%positive. done.
  - exact Hquota.
Qed.
End transfer.

(** The bucket count of a rehash. *)
Lemma rehash_size h :
  table_shape h -> 4 * h_inuse h < 999983 ->
  exists n, bsearch_number_of_buckets (s32 (u32 (Z.shiftl (h_inuse h) 1))) = Ok n /\
    Z.prime n /\ Z.odd n = true /\ 3 <= n <= 999983 /\ 4 * h_inuse h < n.
Proof.
  intros Hs Hi. pose proof (countb_bounds is_live (h_buckets h)) as Hc. rewrite <- (ts_inuse _ Hs) in Hc.
  rewrite Z.shiftl_mul_pow2 by lia. change (2 ^ 1) with 2. no_wrap.
  destruct (bsearch_in_spec prime_number 999983 (h_inuse h * 2)) as (n & Hn & Hp & Hb & Ho & Hgt & _); [lia|].
  exists n. split_and!; [exact Hn|done|done|lia|lia|lia].
Qed.

(** The state after a rehash, as the callers use it. *)
Record rehashed (m : mem) (b : positive) (h : im_hashtable) (m' : mem) (nb : positive) (h' : im_hashtable) : Prop := {
  rh_transfer : transferred m m' b nb (hash_size (h_number_of_buckets h)) (hash_size (h_number_of_buckets h'))
    (h_attached_offset h) (CHash h');
  rh_wf : table_wf h';
  rh_map : table_map h' = table_map h;
  rh_inuse : h_inuse h' = h_inuse h;
  rh_size : 4 * h_inuse h < h_number_of_buckets h';
  rh_clean : im_must_rehash h' = false;
  rh_attached_offset : h_attached_offset h' = h_attached_offset h;
}.

Section rehash.
Context (fuel : nat) (m : mem) (b : positive) (h : im_hashtable).
Hypothesis (Ha : m_cells m !! (b, 0) = Some (CHash h)) (Hwf : table_wf h) (Hm : mem_wf m).
Hypothesis (Hinuse : 4 * h_inuse h < 999983) (Hatt : 0 <= h_attached_offset h).

(** Moving the attached area into the new block and filling the new table. *)
Lemma rehash_fill n nb m2 :
  Z.prime n -> Z.odd n = true -> 3 <= n <= 999983 -> 4 * h_inuse h < n ->
  m_cells m2 !! (nb, 0) = Some (CHash (empty_hashtable n)) -> mem_wf m2 ->
  (m_next m <= nb < m_next m2)%positive ->
  (forall k, (k.1 < m_next m)%positive -> m_cells m2 !! k = m_cells m !! k) ->
  (m_quota m <= m_quota m2 + 2)%nat ->
  exists m' h',
    (n0 ← load_hash (Some (nb, 0));
     store (Some (nb, 0)) (CHash (set_h_attached (h_attached_offset h) (h_attached_offset n0) n0)) ;;
     memcpy (ptr_add (Some (nb, 0)) (hash_size n)) (ptr_add (Some (b, 0)) (hash_size (h_number_of_buckets h)))
       (h_attached_offset h) ;;
     n0 ← load_hash (Some (nb, 0));
     store (Some (nb, 0)) (CHash (set_h_attached (h_attached_size n0) (h_attached_offset h) n0)) ;;
     r ← rehash_loop (im_insert_element (S fuel)) (h_buckets h) (Some (nb, 0));
     match r with
     | (None, new) => freep new ;; mret (-1, Some (b, 0))
     | (Some new, _) => freep (Some (b, 0)) ;; mret (0, new)
     end) m2 = Ok ((0, Some (nb, 0)), m') /\ rehashed m b h m' nb h'.
Proof using Ha Hatt Hm Hwf.
  intros Hp Ho Hn Hroom Hnb Hm2 Hfresh Hframe Hquota.
  pose proof (tw_shape _ Hwf) as Hs. pose proof (ts_bounds _ Hs) as Hbd.
  pose proof (countb_bounds is_live (h_buckets h)) as Hc. rewrite <- (ts_inuse _ Hs) in Hc.
  assert (b < m_next m)%positive as Hb by (by apply Hm in Ha).
  set (e1 := set_h_attached (h_attached_offset h) 0 (empty_hashtable n)).
  set (e2 := set_h_attached (h_attached_offset h) (h_attached_offset h) (empty_hashtable n)).
  run (load_hash_run _ _ _ Hnb). run (store_run _ _ _ (CHash e1) Hnb).
  pose proof (memcpy_after_copy m2 b nb (hash_size (h_number_of_buckets h)) (hash_size n)
    (h_attached_offset h) (CHash e1)) as Hcpy. run Hcpy.
  assert (0 < hash_size n /\ 0 < hash_size (h_number_of_buckets h)) as [Hpn Hph] by (unfold hash_size; lia).
  pose proof (after_copy_header m2 b nb (hash_size (h_number_of_buckets h)) (hash_size n)
    (h_attached_offset h) (CHash e1) Hpn) as Hm3.
  set (m3 := after_copy _ _ _ _ _ _ _) in *.
  run (load_hash_run _ _ _ Hm3). run (store_run _ _ _ (CHash e2) Hm3).
  assert (table_wf e2) as He2wf by (by apply set_attached_wf, empty_hashtable_wf; [..|lia]).
  assert (table_map e2 = ∅) as He2map by apply empty_hashtable_map.
  destruct (rehash_loop_run fuel (nb, 0) (h_buckets h) (upd (nb, 0) (CHash e2) m3) e2)
    as (h' & Hrun & Hwf' & Hmap' & En & Ei & Ee & Es & Eo).
  { apply upd_same. } { done. } { by apply live_keys_distinct. }
  { intros k _. by rewrite He2map, lookup_empty. }
  { simpl. rewrite <- (ts_inuse _ Hs). lia. }
  run Hrun. rewrite upd_upd. cbn [fst snd].
  run (transfer_free m m2 b nb (hash_size (h_number_of_buckets h)) (hash_size n) (h_attached_offset h)
    (CHash e1) (CHash h') Hb Hfresh Hframe (CHash h) Ha).
  eexists _, h'. split; [done|]. simpl in En, Ei, Ee. rewrite <- (ts_inuse _ Hs) in Ei, Ee. constructor.
  - rewrite En. by apply transfer_done.
  - done.
  - by rewrite Hmap', He2map, (right_id_L ∅ (∪)).
  - lia.
  - lia.
  - apply must_rehash_false_intro; [apply Hwf'|]. lia.
  - by rewrite Eo.
Qed.

(** A rehash succeeds while memory lasts, keeps the map and the attached
    objects, frees the old table and leaves the other blocks alone. *)
Lemma rehash_run :
  (2 <= m_quota m)%nat ->
  exists nb m' h',
    im_rehash_hashtable_with (im_insert_element (S fuel)) (Some (b, 0)) m = Ok ((0, Some (nb, 0)), m') /\
    rehashed m b h m' nb h'.
Proof using Ha Hatt Hinuse Hm Hwf.
  intros Hq. pose proof (tw_shape _ Hwf) as Hs.
  destruct (rehash_size h Hs Hinuse) as (n & Hbs & Hp & Ho & Hn & Hroom).
  unfold im_rehash_hashtable_with. run (load_hash_run _ _ _ Ha).
  destruct (grow_new_run m (CHash (empty_hashtable n)) (hash_size n) (h_attached_offset h) Hm)
    as (nb & m2 & Hgrow & Hnb & Hm2 & Hfresh & Hframe & Hquota); [unfold hash_size; lia|done|done|].
  pose proof (initialize_run _ n m Hbs ltac:(lia)) as Hinit.
  destruct (m_quota m) as [|q] eqn:Eq; [lia|]. simpl in Hgrow. run Hinit.
  assert (m_cells (Mem (<[(m_next m, 0) := CHash (empty_hashtable n)]> (m_cells m)) (m_next m + 1) q)
    !! (m_next m, 0) = Some (CHash (empty_hashtable n))) as Hnew by apply lookup_insert_eq.
  run (load_hash_run _ _ _ Hnew). cbn zeta. run Hgrow.
  destruct (rehash_fill n nb m2 Hp Ho Hn Hroom Hnb Hm2 Hfresh Hframe) as (m' & h' & Hrun & Hre); [by rewrite Eq|].
  exists nb, m', h'. split; [|exact Hre]. exact Hrun.
Qed.
End rehash.

(** ** Insertion *)

(** The table at block [b] became the table at block [nb]: either it was
    written in place or it moved to a fresh block and the old one is gone. *)
Record moved (m : mem) (b : positive) (h : im_hashtable) (m' : mem) (nb : positive) (h' : im_hashtable) : Prop := {
  mv_cell : m_cells m' !! (nb, 0) = Some (CHash h');
  mv_wf : table_wf h';
  mv_attached_offset : h_attached_offset h' = h_attached_offset h;
  mv_attached o c : 0 <= o < h_attached_offset h ->
    m_cells m !! (b, hash_size (h_number_of_buckets h) + o) = Some c ->
    m_cells m' !! (nb, hash_size (h_number_of_buckets h') + o) = Some c;
  mv_frame k : k.1 <> b -> (k.1 < m_next m)%positive -> m_cells m' !! k = m_cells m !! k;
  mv_mem_wf : mem_wf m';
  mv_block : nb = b /\ h_number_of_buckets h' = h_number_of_buckets h \/
    ((m_next m <= nb)%positive /\ forall o, m_cells m' !! (b, o) = None);
  mv_next : (m_next m <= m_next m')%positive;
  mv_quota : (m_quota m <= m_quota m' + 2)%nat;
}.

Section insert_element.
Context (fuel : nat) (m : mem) (b : positive) (h : im_hashtable) (bk : im_hash_bucket).
Hypothesis (Ha : m_cells m !! (b, 0) = Some (CHash h)) (Hwf : table_wf h) (Hm : mem_wf m).
Hypothesis (Hinuse : 4 * h_inuse h < 999983) (Hatt : 0 <= h_attached_offset h).
Hypothesis (Hlive : is_free bk = false).

(** Once the table need not be rehashed, [im_insert_element] writes the
    bucket when its key is new and fails when it is there. *)
Lemma insert_tail nb m1 h1 :
  m_cells m1 !! (nb, 0) = Some (CHash h1) -> table_wf h1 -> im_must_rehash h1 = false ->
  exists r h',
    (h ← load_hash (Some (nb, 0));
     position ← lift (im_find_element h (hb_key bk));
     p ← lift (im_put_bucket h position bk);
     store (Some (nb, 0)) (CHash p.2) ;; mret (p.1, Some (nb, 0))) m1
      = Ok ((r, Some (nb, 0)), upd (nb, 0) (CHash h') m1) /\
    table_wf h' /\ h_number_of_buckets h' = h_number_of_buckets h1 /\
    h_attached_offset h' = h_attached_offset h1 /\
    match table_map h1 !! key_of (hb_key bk) with
    | None => 0 <= r /\ table_map h' = <[key_of (hb_key bk) := bk]> (table_map h1) /\ h_inuse h' = h_inuse h1 + 1
    | Some _ => r = -1 /\ h' = h1
    end.
Proof using Hlive.
  intros Hc Hwf1 Hre. run (load_hash_run _ _ _ Hc).
  destruct (table_map h1 !! key_of (hb_key bk)) as [b0|] eqn:E.
  - destruct (put_bucket_present h1 Hwf1 bk b0 E) as (p & Hf & Hput).
    exists (-1), h1. run_lift Hf. run_lift Hput. cbn [fst snd]. by run (store_run _ _ _ (CHash h1) Hc).
  - destruct (put_bucket_absent h1 Hwf1 bk Hlive Hre E) as (p & h' & Hf & Hput & Hp & Hwf' & Hmap & [En Ei Ee [Es Eo]]).
    exists p, h'. run_lift Hf. run_lift Hput. cbn [fst snd]. run (store_run _ _ _ (CHash h') Hc).
    split_and!; done.
Qed.

Lemma insert_element_run :
  (2 <= m_quota m)%nat ->
  exists r nb m' h', im_insert_element (S (S fuel)) (Some (b, 0)) bk m = Ok ((r, Some (nb, 0)), m') /\
    moved m b h m' nb h' /\
    match table_map h !! key_of (hb_key bk) with
    | None => 0 <= r /\ table_map h' = <[key_of (hb_key bk) := bk]> (table_map h) /\ h_inuse h' = h_inuse h + 1
    | Some _ => r = -1 /\ table_map h' = table_map h /\ h_inuse h' = h_inuse h
    end.
Proof using Ha Hatt Hinuse Hlive Hm Hwf.
  intros Hq. remember (S fuel) as fuel1. cbn [im_insert_element]. subst fuel1.
  rewrite Hlive. run (load_hash_run _ _ _ Ha).
  destruct (im_must_rehash h) eqn:Hre.
  - destruct (rehash_run fuel m b h Ha Hwf Hm Hinuse Hatt Hq) as (nb & m1 & h1 & Hrun & Hr). run Hrun.
    cbn [fst snd]. change (0 <? 0) with false. cbv iota.
    destruct (insert_tail nb m1 h1) as (r & h' & Htail & Hwf' & En & Eo & Hres); [apply Hr|apply Hr|apply Hr|].
    exists r, nb, (upd (nb, 0) (CHash h') m1), h'. split; [exact Htail|].
    rewrite (rh_map _ _ _ _ _ _ Hr) in Hres. pose proof (rh_transfer _ _ _ _ _ _ Hr) as Ht.
    pose proof (tr_fresh _ _ _ _ _ _ _ _ Ht) as Hfresh.
    assert (b < m_next m)%positive as Hb by (by apply Hm in Ha).
    split; [constructor|].
    + apply upd_same.
    + done.
    + by rewrite Eo, (rh_attached_offset _ _ _ _ _ _ Hr).
    + intros o c Ho Hc. rewrite En. pose proof (ts_bounds _ (tw_shape _ (rh_wf _ _ _ _ _ _ Hr))).
      rewrite upd_other by (unfold hash_size; intros [= ?]; lia). by apply (tr_attached _ _ _ _ _ _ _ _ Ht).
    + intros k Hk Hkn. rewrite upd_other by (intros ->; simpl in Hkn; lia). by apply (tr_frame _ _ _ _ _ _ _ _ Ht).
    + eapply upd_mem_wf; [apply Ht|apply Ht].
    + right. split; [lia|]. intros o. rewrite upd_other by (intros [= ?]; lia). apply (tr_freed _ _ _ _ _ _ _ _ Ht).
    + change (m_next m <= m_next m1)%positive. lia.
    + apply (tr_quota _ _ _ _ _ _ _ _ Ht).
    + pose proof (rh_inuse _ _ _ _ _ _ Hr) as Hi.
      destruct (table_map h !! key_of (hb_key bk)).
      * destruct Hres as [-> ->]. split_and!; [done|apply Hr|done].
      * by rewrite <- Hi.
  - run_ret. cbn [fst snd]. change (0 <? 0) with false. cbv iota.
    destruct (insert_tail b m h) as (r & h' & Htail & Hwf' & En & Eo & Hres); [done..|].
    exists r, b, (upd (b, 0) (CHash h') m), h'. split; [exact Htail|]. split; [constructor|].
    + apply upd_same.
    + done.
    + done.
    + intros o c Ho Hc. rewrite En. pose proof (ts_bounds _ (tw_shape _ Hwf)).
      rewrite upd_other by (unfold hash_size; intros [= ?]; lia). done.
    + intros k Hk Hkn. rewrite upd_other; [done|]. by intros ->.
    + by eapply upd_mem_wf.
    + by left.
    + done.
    + simpl. lia.
    + destruct (table_map h !! key_of (hb_key bk)); [destruct Hres as [-> ->]|]; done.
Qed.

(** When the rehash it needs cannot allocate, the insertion fails and
    nothing has changed. *)
Lemma insert_element_no_memory :
  im_must_rehash h = true -> m_quota m = 0%nat ->
  im_insert_element (S (S fuel)) (Some (b, 0)) bk m = Ok ((-1, Some (b, 0)), m).
Proof using Ha Hinuse Hlive Hwf.
  intros Hre Hq. remember (S fuel) as fuel1. cbn [im_insert_element]. subst fuel1.
  rewrite Hlive. run (load_hash_run _ _ _ Ha). rewrite Hre.
  destruct (rehash_size h (tw_shape _ Hwf) Hinuse) as (n & Hbs & _ & _ & Hn & _).
  pose proof (initialize_run _ n m Hbs ltac:(lia)) as Hinit. rewrite Hq in Hinit.
  assert (im_rehash_hashtable_with (im_insert_element (S fuel)) (Some (b, 0)) m = Ok ((-1, Some (b, 0)), m)) as Hrun.
  { unfold im_rehash_hashtable_with. run (load_hash_run _ _ _ Ha). run Hinit. done. }
  run Hrun. done.
Qed.
End insert_element.

(** ** Deletion *)

Section delete.
Context (fuel : nat) (m m1 : mem) (a : addr) (h : im_hashtable) (p : nat) (bk : im_hash_bucket).
Hypothesis (Ha : m_cells m !! a = Some (CHash h)) (Hwf : table_wf h).
Hypothesis (Hp : h_buckets h !! p = Some bk).

Lemma delete_element_run :
  is_live bk = true -> hashtable_free_bucket fuel (Some a) (Z.of_nat p) m = Ok (tt, m1) ->
  m_cells m1 !! a = Some (CHash h) ->
  exists h', im_delete_element fuel (Some a) (Z.of_nat p) m = Ok (Z.of_nat p, upd a (CHash h') m1) /\
    table_wf h' /\ table_map h' = delete (key_of (hb_key bk)) (table_map h) /\
    h_number_of_buckets h' = h_number_of_buckets h /\ h_inuse h' = h_inuse h - 1 /\
    h_attached_offset h' = h_attached_offset h.
Proof using Ha Hp Hwf.
  intros Hl Hfree Ha1. destruct (mark_deleted h Hwf p bk Hp Hl) as [Hwf' Hmap].
  eexists. split; [|split; [exact Hwf'|split; [exact Hmap|done]]].
  unfold im_delete_element. run (load_hash_run _ _ _ Ha).
  assert (zget (h_buckets h) (Z.of_nat p) = Ok bk) as Hg by (apply zget_lookup; [lia|by rewrite Nat2Z.id]).
  run_lift Hg. assert (is_free bk = false) as -> by (unfold is_live in Hl; by destruct (is_free bk)).
  run Hfree. run (load_hash_run _ _ _ Ha1). run_lift Hg.
  assert (zset (h_buckets h) (Z.of_nat p) (set_hb_info IM_DELETED bk)
    = Ok (<[p := set_hb_info IM_DELETED bk]> (h_buckets h))) as Hset.
  { rewrite zset_in_range; [by rewrite Nat2Z.id|]. apply lookup_lt_Some in Hp. unfold zlen. lia. }
  run_lift Hset. run (store_run _ _ _ (CHash (set_h_inuse (u32 (h_inuse h - 1))
    (set_h_buckets (<[p := set_hb_info IM_DELETED bk]> (h_buckets h)) h))) Ha1).
  unfold mret, M_ret. do 3 f_equal. unfold set_h_inuse. simpl.
  assert (0 < h_inuse h < 4294967296) as Hi.
  { pose proof (tw_shape _ Hwf) as Hs. rewrite (ts_inuse _ Hs).
    pose proof (countb_bounds is_live (h_buckets h)) as Hc. rewrite (ts_length _ Hs) in Hc.
    pose proof (ts_bounds _ Hs). split; [|lia].
    pose proof (countb_insert is_live (h_buckets h) p (set_hb_info IM_DELETED bk) bk Hp) as Hci.
    rewrite Hl in Hci. simpl in Hci.
    pose proof (countb_bounds is_live (<[p := set_hb_info IM_DELETED bk]> (h_buckets h))). lia. }
  do 2 f_equal. no_wrap. done.
Qed.

Lemma delete_free_run :
  is_free bk = true -> im_delete_element fuel (Some a) (Z.of_nat p) m = Ok (-1, m).
Proof using Ha Hp.
  intros Hfree. unfold im_delete_element. run (load_hash_run _ _ _ Ha).
  assert (zget (h_buckets h) (Z.of_nat p) = Ok bk) as Hg by (apply zget_lookup; [lia|by rewrite Nat2Z.id]).
  run_lift Hg. by rewrite Hfree.
Qed.
End delete.
