(* ===== verification/ImVector.v ===== *)
(** * The growable vector ([im_vector.c])

    The operations on vectors, and the sequence they represent: the first
    [inuse] buckets. *)

From S2P Require Import Prelude LibC PrimeTable ImTypes ImHashTable ImTable ImInsert.

(** ** Operations *)

Definition vector_is_free (b : im_vector_bucket) : bool :=
  bool_decide (vb_info b = IM_EMPTY) || bool_decide (vb_info b = IM_DELETED).

(** The record [im_initialize_vector] builds. *)
Definition empty_vector (capacity : Z) : im_vector :=
  Vector (u32 capacity) 0 0 0 (replicate (Z.to_nat capacity) vector_bucket_zero).

Definition im_initialize_vector (capacity : Z) : M ptr := alloc (CVector (empty_vector capacity)).

Definition im_destroy_vector (fuel : nat) (vector : ptr) : M unit :=
  im_destroy_vector_with_info fuel vector IM_EXTERNAL_VECTOR.

(** The loop of [im_resize_vector] over the buckets of the old vector:
    [None] is the jump to [error]. *)
Fixpoint resize_loop (add : ptr -> im_vector_bucket -> M (Z * ptr))
    (bs : list im_vector_bucket) (new : ptr) : M (option ptr * ptr) :=
  match bs with
  | [] => mret (Some new, new)
  | b :: bs =>
      r ← add new b;
      if r.1 <? 0 then mret (None, r.2) else resize_loop add bs r.2
  end.

Definition im_resize_vector_with (add : ptr -> im_vector_bucket -> M (Z * ptr))
    (vector : ptr) : M (Z * ptr) :=
  v ← load_vector vector;
  new ← im_initialize_vector (s32 (u32 (Z.shiftl (v_number_of_buckets v) 1)));
  match new with
  | None => mret (-1, vector)
  | Some _ =>
      n ← load_vector new;
      let old_vector_size := vector_size (v_number_of_buckets v) in
      let new_vector_size := vector_size (v_number_of_buckets n) in
      tmp ← (if v_attached_offset v =? 0 then mret new
             else realloc new (new_vector_size + v_attached_offset v));
      match tmp with
      | None => freep new ;; mret (-1, vector)
      | Some _ =>
          let new := tmp in
          n ← load_vector new;
          store new (CVector (set_v_attached (v_attached_offset v) (v_attached_offset n) n)) ;;
          memcpy (ptr_add new new_vector_size) (ptr_add vector old_vector_size) (v_attached_offset v) ;;
          n ← load_vector new;
          store new (CVector (set_v_attached (v_attached_size n) (v_attached_offset v) n)) ;;
          r ← resize_loop add (take (Z.to_nat (v_number_of_buckets v)) (v_buckets v)) new;
          match r with
          | (None, new) => freep new ;; mret (-1, vector)
          | (Some new, _) => freep vector ;; mret (0, new)
          end
      end
  end.

(** [im_add_element(&vector, bucket)]; a resized vector has room for the
    buckets copied into it, so two units of fuel are enough. *)
Fixpoint im_add_element (fuel : nat) (vector : ptr) (bucket : im_vector_bucket) : M (Z * ptr) :=
  match fuel with
  | O => no_fuel
  | S fuel =>
      if vector_is_free bucket then mret (-1, vector)
      else
        v ← load_vector vector;
        r ← (if v_number_of_buckets v <=? v_inuse v then im_resize_vector_with (im_add_element fuel) vector
             else mret (0, vector));
        if r.1 <? 0 then mret (-1, r.2)
        else
          let vector := r.2 in
          v ← load_vector vector;
          bs ← lift (zset (v_buckets v) (v_inuse v) bucket);
          store vector (CVector (set_v_inuse (u32 (v_inuse v + 1)) (set_v_buckets bs v))) ;;
          mret (s32 (v_inuse v), vector)
  end.

Definition im_resize_vector (fuel : nat) (vector : ptr) : M (Z * ptr) :=
  im_resize_vector_with (im_add_element fuel) vector.

(** [position >= 0 && position < vector->inuse]. *)
Definition in_use (v : im_vector) (position : Z) : bool :=
  (0 <=? position) && (u32 position <? v_inuse v).

(** The [memmove] of [im_del_element]: the buckets after [position] move down,
    the last one keeps its copy. *)
Definition shift_down (inuse position : nat) (bs : list im_vector_bucket) : list im_vector_bucket :=
  take position bs ++ take (inuse - position - 1) (drop (S position) bs) ++ drop (inuse - 1) bs.

Definition im_del_element (fuel : nat) (vector : ptr) (position : Z) : M Z :=
  v ← load_vector vector;
  if in_use v position then
    vector_free_bucket fuel vector position ;;
    v ← load_vector vector;
    store vector (CVector (set_v_inuse (u32 (v_inuse v - 1))
      (set_v_buckets (shift_down (Z.to_nat (v_inuse v)) (Z.to_nat position) (v_buckets v)) v))) ;;
    mret position
  else mret (-1).

Definition im_set_element (fuel : nat) (vector : ptr) (position : Z) (bucket : im_vector_bucket) : M Z :=
  if vector_is_free bucket then mret (-1)
  else
    v ← load_vector vector;
    if in_use v position then
      vector_free_bucket fuel vector position ;;
      v ← load_vector vector;
      bs ← lift (zset (v_buckets v) position bucket);
      store vector (CVector (set_v_buckets bs v)) ;;
      mret position
    else mret (-1).

(** The bucket pointer returned: the bucket, or NULL. *)
Definition im_get_element (v : im_vector) (position : Z) : outcome (option im_vector_bucket) :=
  if in_use v position then b ← zget (v_buckets v) position; Ok (Some b) else Ok None.

Definition im_empty_vector (fuel : nat) (vector : ptr) : M unit :=
  v ← load_vector vector;
  for_range (Z.to_nat (v_inuse v)) 0 (vector_free_bucket fuel vector) ;;
  v ← load_vector vector;
  store vector (CVector (set_v_attached (v_attached_size v) 0 (set_v_inuse 0 v))).

(** ** The sequence a vector represents *)

Record vector_wf (v : im_vector) : Prop := {
  vw_length : zlen (v_buckets v) = v_number_of_buckets v;
  vw_inuse : 0 <= v_inuse v <= v_number_of_buckets v;
  vw_bounds : 1 <= v_number_of_buckets v < 536870912;
  vw_attached : 0 <= v_attached_offset v;
  vw_live : Forall (λ b, vector_is_free b = false) (take (Z.to_nat (v_inuse v)) (v_buckets v));
}.

Definition vector_seq (v : im_vector) : list im_vector_bucket :=
  take (Z.to_nat (v_inuse v)) (v_buckets v).

Lemma vector_seq_length v : vector_wf v -> zlen (vector_seq v) = v_inuse v.
Proof.
  intros [Hl Hi _ _ _]. unfold vector_seq, zlen in *. rewrite length_take. lia.
Qed.

Lemma in_use_spec v i :
  vector_wf v -> -2147483648 <= i < 2147483648 -> in_use v i = true <-> 0 <= i < v_inuse v.
Proof.
  intros [_ Hi _ _ _] Hr. unfold in_use. rewrite andb_true_iff, Z.leb_le, Z.ltb_lt.
  split; intros [H1 H2]; [rewrite u32_id in H2 by lia; lia|rewrite u32_id by lia; lia].
Qed.

Lemma get_element_seq v i :
  vector_wf v -> -2147483648 <= i < 2147483648 ->
  im_get_element v i = Ok (if i <? 0 then None else vector_seq v !! Z.to_nat i).
Proof.
  intros Hwf Hr. pose proof (in_use_spec v i Hwf Hr) as Hu. pose proof Hwf as [Hl Hi _ _ _].
  unfold im_get_element. destruct (in_use v i).
  - destruct Hu as [Hu _]. specialize (Hu eq_refl). destruct (Z.ltb_spec i 0); [lia|].
    destruct (zget_in_range (v_buckets v) i) as [b Hb]; [lia|]. rewrite Hb.
    cbn [mbind outcome_bind]. apply zget_Ok in Hb as [_ Hb].
    unfold vector_seq. by rewrite lookup_take_lt by lia; rewrite Hb.
  - destruct (Z.ltb_spec i 0) as [|Hge]; [done|].
    assert (vector_seq v !! Z.to_nat i = None) as ->; [|done].
    apply lookup_ge_None. pose proof (vector_seq_length v Hwf) as Hsl. unfold zlen in Hsl.
    destruct Hu as [_ Hu]. destruct (decide (i < v_inuse v)); [by specialize (Hu ltac:(lia))|lia].
Qed.

Lemma empty_vector_wf c : 1 <= c < 536870912 -> vector_wf (empty_vector c).
Proof.
  intros Hc. constructor; simpl; no_wrap; try lia; [|by rewrite take_0].
  unfold zlen. rewrite length_replicate. lia.
Qed.

(** ** Appending *)

Section push.
Context (fuel : nat) (m : mem) (a : addr) (v : im_vector) (b : im_vector_bucket).
Hypothesis (Ha : m_cells m !! a = Some (CVector v)) (Hwf : vector_wf v).
Hypothesis (Hb : vector_is_free b = false).

Definition pushed : im_vector :=
  set_v_inuse (v_inuse v + 1) (set_v_buckets (<[Z.to_nat (v_inuse v) := b]> (v_buckets v)) v).

Lemma pushed_seq : v_inuse v < v_number_of_buckets v -> vector_seq pushed = vector_seq v ++ [b].
Proof using Hwf.
  intros Hroom. destruct Hwf as [Hl Hi _ _ _]. unfold vector_seq, pushed. simpl. unfold zlen in Hl.
  replace (Z.to_nat (v_inuse v + 1)) with (S (Z.to_nat (v_inuse v))) by lia.
  erewrite take_S_r; [|apply list_lookup_insert_eq; lia].
  by rewrite take_insert_ge by lia.
Qed.

Lemma pushed_wf : v_inuse v < v_number_of_buckets v -> vector_wf pushed.
Proof using Hb Hwf.
  intros Hroom. pose proof (pushed_seq Hroom) as Hseq. destruct Hwf as [Hl Hi Hbd Ho Hlive].
  constructor; try done.
  - simpl. by rewrite zlen_insert.
  - simpl. lia.
  - fold (vector_seq pushed). rewrite Hseq. apply Forall_app. split; [exact Hlive|]. by constructor.
Qed.

Lemma store_pushed :
  v_inuse v < v_number_of_buckets v ->
  (v ← load_vector (Some a);
   bs ← lift (zset (v_buckets v) (v_inuse v) b);
   store (Some a) (CVector (set_v_inuse (u32 (v_inuse v + 1)) (set_v_buckets bs v))) ;;
   mret (s32 (v_inuse v), Some a)) m = Ok ((v_inuse v, Some a), upd a (CVector pushed) m).
Proof using Ha Hwf.
  intros Hroom. destruct Hwf as [Hl Hi Hbd _ _]. run (load_vector_run _ _ _ Ha).
  assert (zset (v_buckets v) (v_inuse v) b = Ok (<[Z.to_nat (v_inuse v) := b]> (v_buckets v))) as Hz
    by (apply zset_in_range; lia).
  run_lift Hz. no_wrap. by run (store_run _ _ _ (CVector pushed) Ha).
Qed.

Lemma add_element_room :
  v_inuse v < v_number_of_buckets v ->
  im_add_element (S fuel) (Some a) b m = Ok ((v_inuse v, Some a), upd a (CVector pushed) m).
Proof using Ha Hb Hwf.
  intros Hroom. cbn [im_add_element]. rewrite Hb. run (load_vector_run _ _ _ Ha).
  destruct (Z.leb_spec (v_number_of_buckets v) (v_inuse v)); [lia|]. run_ret. cbn [fst snd].
  change (0 <? 0) with false. cbv iota. by apply store_pushed.
Qed.
End push.

Section resize.
Context (fuel : nat).

Lemma resize_loop_run bs a m v :
  m_cells m !! a = Some (CVector v) -> vector_wf v ->
  Forall (λ b, vector_is_free b = false) bs -> v_inuse v + zlen bs <= v_number_of_buckets v ->
  exists v', resize_loop (im_add_element (S fuel)) bs (Some a) m = Ok ((Some (Some a), Some a), upd a (CVector v') m) /\
    vector_wf v' /\ vector_seq v' = vector_seq v ++ bs /\
    v_number_of_buckets v' = v_number_of_buckets v /\ v_inuse v' = v_inuse v + zlen bs /\
    v_attached_offset v' = v_attached_offset v.
Proof using Type.
  revert m v. induction bs as [|b bs IH]; intros m v Ha Hwf Hlive Hroom.
  - exists v. unfold upd, set_cells. rewrite insert_id by done. rewrite app_nil_r. change (zlen []) with 0.
    split_and!; try done; try lia. by destruct m.
  - rewrite zlen_cons in *. pose proof (zlen_nonneg bs). inversion_clear Hlive as [|? ? Hb Hbs].
    cbn [resize_loop]. run (add_element_room fuel m a v b Ha Hwf Hb ltac:(lia)). cbn [fst snd].
    pose proof (vw_inuse _ Hwf). destruct (Z.ltb_spec (v_inuse v) 0); [lia|].
    destruct (IH (upd a (CVector (pushed v b)) m) (pushed v b)) as (v' & Hrun & Hwf' & Hseq & En & Ei & Eo).
    { apply upd_same. } { apply pushed_wf; [done|done|lia]. } { done. } { simpl. lia. }
    exists v'. rewrite Hrun, upd_upd. simpl in *. split_and!; try done; try lia.
    rewrite Hseq, pushed_seq by (done || lia). by rewrite <- app_assoc.
Qed.
End resize.

(** ** Resizing *)

(** The vector at block [b] became the vector at block [nb]. *)
Record vector_moved (m : mem) (b : positive) (v : im_vector) (m' : mem) (nb : positive) (v' : im_vector) : Prop := {
  vm_cell : m_cells m' !! (nb, 0) = Some (CVector v');
  vm_wf : vector_wf v';
  vm_attached_offset : v_attached_offset v' = v_attached_offset v;
  vm_attached o c : 0 <= o < v_attached_offset v ->
    m_cells m !! (b, vector_size (v_number_of_buckets v) + o) = Some c ->
    m_cells m' !! (nb, vector_size (v_number_of_buckets v') + o) = Some c;
  vm_frame k : k.1 <> b -> (k.1 < m_next m)%positive -> m_cells m' !! k = m_cells m !! k;
  vm_mem_wf : mem_wf m';
  vm_block : nb = b \/ (m_next m <= nb)%positive;
}.

Section resize_run.
Context (fuel : nat) (m : mem) (b : positive) (v : im_vector).
Hypothesis (Ha : m_cells m !! (b, 0) = Some (CVector v)) (Hwf : vector_wf v) (Hm : mem_wf m).
Hypothesis (Hfull : v_inuse v = v_number_of_buckets v) (Hbig : v_number_of_buckets v < 268435456).

Lemma resize_run :
  (2 <= m_quota m)%nat ->
  exists nb m' v',
    im_resize_vector_with (im_add_element (S fuel)) (Some (b, 0)) m = Ok ((0, Some (nb, 0)), m') /\
    vector_moved m b v m' nb v' /\ vector_seq v' = vector_seq v /\
    v_number_of_buckets v' = 2 * v_number_of_buckets v /\ v_inuse v' = v_inuse v.
Proof using Ha Hbig Hfull Hm Hwf.
  intros Hq. destruct Hwf as [Hl Hi Hbd Ho Hlive]. set (n := v_number_of_buckets v) in *.
  unfold im_resize_vector_with. run (load_vector_run _ _ _ Ha). fold n.
  assert (s32 (u32 (Z.shiftl n 1)) = 2 * n) as ->.
  { rewrite Z.shiftl_mul_pow2 by lia. change (2 ^ 1) with 2. no_wrap. lia. }
  destruct (grow_new_run m (CVector (empty_vector (2 * n))) (vector_size (2 * n)) (v_attached_offset v) Hm)
    as (nb & m2 & Hgrow & Hnb & Hm2 & Hfresh & Hframe & Hquota); [unfold vector_size; lia|done|done|].
  assert (im_initialize_vector (2 * n) m = Ok (Some (m_next m, 0),
    Mem (<[(m_next m, 0) := CVector (empty_vector (2 * n))]> (m_cells m)) (m_next m + 1) (pred (m_quota m)))) as Hinit.
  { unfold im_initialize_vector, alloc. destruct (m_quota m); [lia|done]. }
  run Hinit. assert (forall q, m_cells (Mem (<[(m_next m, 0) := CVector (empty_vector (2 * n))]> (m_cells m))
    (m_next m + 1) q) !! (m_next m, 0) = Some (CVector (empty_vector (2 * n)))) as Hnew by (intros q; apply lookup_insert_eq).
  run (load_vector_run _ _ _ (Hnew (pred (m_quota m)))). cbn zeta.
  assert (v_number_of_buckets (empty_vector (2 * n)) = 2 * n) as -> by (simpl; no_wrap; done). run Hgrow.
  set (e1 := set_v_attached (v_attached_offset v) 0 (empty_vector (2 * n))).
  set (e2 := set_v_attached (v_attached_offset v) (v_attached_offset v) (empty_vector (2 * n))).
  assert (b < m_next m)%positive as Hb by (by apply Hm in Ha).
  run (load_vector_run _ _ _ Hnb). run (store_run _ _ _ (CVector e1) Hnb).
  run (memcpy_after_copy m2 b nb (vector_size n) (vector_size (2 * n)) (v_attached_offset v) (CVector e1)).
  assert (0 < vector_size n /\ 0 < vector_size (2 * n)) as [Hpn Hp2] by (unfold vector_size; lia).
  pose proof (after_copy_header m2 b nb (vector_size n) (vector_size (2 * n)) (v_attached_offset v) (CVector e1) Hp2) as Hm3.
  set (m3 := after_copy _ _ _ _ _ _ _) in *.
  run (load_vector_run _ _ _ Hm3). run (store_run _ _ _ (CVector e2) Hm3).
  assert (vector_wf e2) as He2.
  { destruct (empty_vector_wf (2 * n)) as []; [lia|]. by constructor. }
  assert (Z.to_nat n = length (v_buckets v)) as Hlen by (unfold zlen in Hl; lia).
  destruct (resize_loop_run fuel (take (Z.to_nat n) (v_buckets v)) (nb, 0) (upd (nb, 0) (CVector e2) m3) e2)
    as (v' & Hrun & Hwf' & Hseq & En & Ei & Eo).
  { apply upd_same. } { done. } { by rewrite <- Hfull. }
  { rewrite take_ge by lia. simpl. no_wrap. lia. }
  run Hrun. rewrite upd_upd. cbn [fst snd].
  run (transfer_free m m2 b nb (vector_size n) (vector_size (2 * n)) (v_attached_offset v)
    (CVector e1) (CVector v') Hb Hfresh Hframe (CVector v) Ha).
  assert (v_number_of_buckets v' = 2 * n) as En' by (rewrite En; simpl; no_wrap; done).
  pose proof (transfer_done m m2 b nb _ _ (v_attached_offset v) (CVector e1) (CVector v') Hm2 Hb Hfresh Hp2 Hpn Hframe Hquota) as Ht.
  eexists nb, _, v'. split; [done|]. split; [|split_and!].
  - constructor; [apply Ht|done|done| |apply Ht|apply Ht|].
    + rewrite En'. apply Ht.
    + right. apply Ht.
  - rewrite Hseq. unfold vector_seq. by rewrite Hfull.
  - done.
  - rewrite Ei. simpl. rewrite take_ge by lia. lia.
Qed.
End resize_run.

(** [im_add_element] appends the bucket; a full vector is first copied to one
    of twice the size. *)
Lemma add_element_run fuel m b v bk :
  m_cells m !! (b, 0) = Some (CVector v) -> vector_wf v -> mem_wf m ->
  v_number_of_buckets v < 268435456 -> vector_is_free bk = false -> (2 <= m_quota m)%nat ->
  exists nb m' v',
    im_add_element (S (S fuel)) (Some (b, 0)) bk m = Ok ((v_inuse v, Some (nb, 0)), m') /\
    vector_moved m b v m' nb v' /\ vector_seq v' = vector_seq v ++ [bk] /\ v_inuse v' = v_inuse v + 1 /\
    v_number_of_buckets v' = (if v_inuse v <? v_number_of_buckets v then 1 else 2) * v_number_of_buckets v.
Proof.
  intros Ha Hwf Hm Hbig Hb Hq. pose proof (vw_inuse _ Hwf) as Hi. pose proof (vw_bounds _ Hwf) as Hbd.
  destruct (Z.ltb_spec (v_inuse v) (v_number_of_buckets v)) as [Hroom|Hfull].
  - exists b, (upd (b, 0) (CVector (pushed v bk)) m), (pushed v bk).
    split; [by apply add_element_room|]. split; [constructor|].
    + apply upd_same.
    + by apply pushed_wf.
    + done.
    + intros o c Ho Hc. rewrite upd_other by (unfold vector_size; simpl; intros [= ?]; lia). done.
    + intros k Hk _. apply upd_other. by intros ->.
    + by eapply upd_mem_wf.
    + by left.
    + split_and!; [by apply pushed_seq|done|simpl; lia].
  - destruct (resize_run fuel m b v Ha Hwf Hm ltac:(lia) Hbig Hq) as (nb & m1 & v1 & Hrun & Hmv & Hseq & En & Ei).
    remember (S fuel) as fuel1. cbn [im_add_element]. subst fuel1. rewrite Hb.
    run (load_vector_run _ _ _ Ha). destruct (Z.leb_spec (v_number_of_buckets v) (v_inuse v)); [|lia].
    run Hrun. cbn [fst snd]. change (0 <? 0) with false. cbv iota.
    pose proof (vm_cell _ _ _ _ _ _ Hmv) as Hc. pose proof (vm_wf _ _ _ _ _ _ Hmv) as Hwf1.
    rewrite (store_pushed m1 (nb, 0) v1 bk Hc Hwf1) by lia.
    eexists nb, _, (pushed v1 bk). split; [by rewrite Ei|]. split; [constructor|].
    + apply upd_same.
    + apply pushed_wf; [done|done|lia].
    + apply Hmv.
    + intros o c Ho Hc'. pose proof (vw_bounds _ Hwf1).
      rewrite upd_other by (unfold vector_size; simpl; intros [= ?]; lia). by apply (vm_attached _ _ _ _ _ _ Hmv).
    + intros k Hk Hkn. rewrite upd_other; [by apply Hmv|]. intros ->. simpl in *.
      destruct (vm_block _ _ _ _ _ _ Hmv); [done|lia].
    + eapply upd_mem_wf; [apply Hmv|apply Hmv].
    + apply Hmv.
    + split_and!; [rewrite pushed_seq by (done || lia); by rewrite Hseq| |exact En].
      change (v_inuse v1 + 1 = v_inuse v + 1). lia.
Qed.

(** ** Deleting and replacing an element *)

Lemma take_shift_down n i (bs : list im_vector_bucket) :
  (i < n)%nat -> (n <= length bs)%nat -> take (n - 1) (shift_down n i bs) = delete i (take n bs).
Proof.
  intros Hi Hn. rewrite delete_take_drop. unfold shift_down.
  rewrite take_take, Nat.min_l by lia. rewrite take_drop_commute.
  replace (S i + (n - i - 1))%nat with n by lia.
  rewrite app_assoc, take_app_le by (rewrite length_app, length_drop, !length_take; lia).
  apply take_ge. rewrite length_app, length_drop, !length_take. lia.
Qed.

Section element.
Context (fuel : nat) (m m1 : mem) (a : addr) (v : im_vector) (i : Z).
Hypothesis (Ha : m_cells m !! a = Some (CVector v)) (Hwf : vector_wf v).
Hypothesis (Hr : -2147483648 <= i < 2147483648).

Lemma del_element_run :
  0 <= i < v_inuse v -> vector_free_bucket fuel (Some a) i m = Ok (tt, m1) ->
  m_cells m1 !! a = Some (CVector v) ->
  exists v', im_del_element fuel (Some a) i m = Ok (i, upd a (CVector v') m1) /\
    vector_wf v' /\ vector_seq v' = delete (Z.to_nat i) (vector_seq v).
Proof using Ha Hr Hwf.
  intros Hi Hfree Ha1. pose proof (in_use_spec v i Hwf Hr) as Hu. destruct Hu as [_ Hu].
  destruct Hwf as [Hl Hin Hbd Ho Hlive].
  eexists. split; [|split].
  - unfold im_del_element. run (load_vector_run _ _ _ Ha). rewrite Hu by done. run Hfree.
    run (load_vector_run _ _ _ Ha1).
    match goal with |- (store _ ?c ;; _) _ = _ => run (store_run _ _ _ c Ha1) end. done.
  - assert (u32 (v_inuse v - 1) = v_inuse v - 1) as Hw by (no_wrap; done).
    assert (vector_seq v = take (Z.to_nat (v_inuse v)) (v_buckets v)) as Hs by done.
    constructor; simpl; rewrite ?Hw; try done; try lia.
    + unfold zlen in *. unfold shift_down.
      rewrite !length_app, length_drop, !length_take, length_drop. lia.
    + replace (Z.to_nat (v_inuse v - 1)) with (Z.to_nat (v_inuse v) - 1)%nat by lia.
      rewrite take_shift_down by (unfold zlen in *; lia). by apply Forall_delete.
  - unfold vector_seq. simpl. no_wrap.
    replace (Z.to_nat (v_inuse v - 1)) with (Z.to_nat (v_inuse v) - 1)%nat by lia.
    apply take_shift_down; unfold zlen in *; lia.
Qed.

Lemma del_element_refused : ~ 0 <= i < v_inuse v -> im_del_element fuel (Some a) i m = Ok (-1, m).
Proof using Ha Hr Hwf.
  intros Hi. pose proof (in_use_spec v i Hwf Hr) as Hu. unfold im_del_element.
  run (load_vector_run _ _ _ Ha). destruct (in_use v i); [|done]. by destruct Hi; apply Hu.
Qed.

Lemma set_element_run b :
  vector_is_free b = false -> 0 <= i < v_inuse v ->
  vector_free_bucket fuel (Some a) i m = Ok (tt, m1) -> m_cells m1 !! a = Some (CVector v) ->
  exists v', im_set_element fuel (Some a) i b m = Ok (i, upd a (CVector v') m1) /\
    vector_wf v' /\ vector_seq v' = <[Z.to_nat i := b]> (vector_seq v).
Proof using Ha Hr Hwf.
  intros Hb Hi Hfree Ha1. pose proof (in_use_spec v i Hwf Hr) as [_ Hu].
  pose proof Hwf as [Hl Hin Hbd Ho Hlive].
  assert (vector_seq (set_v_buckets (<[Z.to_nat i := b]> (v_buckets v)) v)
    = <[Z.to_nat i := b]> (vector_seq v)) as Hseq.
  { unfold vector_seq. simpl. apply take_insert_lt. lia. }
  eexists. split; [|split; [|exact Hseq]].
  - unfold im_set_element. rewrite Hb. run (load_vector_run _ _ _ Ha). rewrite Hu by done. run Hfree.
    run (load_vector_run _ _ _ Ha1).
    assert (zset (v_buckets v) i b = Ok (<[Z.to_nat i := b]> (v_buckets v))) as Hz by (apply zset_in_range; lia).
    run_lift Hz. match goal with |- (store _ ?c ;; _) _ = _ => run (store_run _ _ _ c Ha1) end. done.
  - constructor; try done.
    + simpl. by rewrite zlen_insert.
    + fold (vector_seq (set_v_buckets (<[Z.to_nat i := b]> (v_buckets v)) v)). rewrite Hseq.
      by apply Forall_insert.
Qed.
End element.

(** A vector of capacity 0 stays of capacity 0 when it is resized (0 << 1), and
    the bucket is then written past its end. *)
Lemma add_element_capacity_0 bk q :
  vector_is_free bk = false ->
  (p ← im_initialize_vector 0; im_add_element 2 p bk) (mem_empty (S (S q))) = Fault.
Proof.
  intros Hb. assert (im_initialize_vector 0 (mem_empty (S (S q)))
    = Ok (Some (1%positive, 0), Mem {[ (1%positive, 0) := CVector (empty_vector 0) ]} 2 (S q))) as Hinit by done.
  run Hinit. cbn [im_add_element]. rewrite Hb. vm_compute. done.
Qed.
