(* ===== verification/Beai3Dict.v ===== *)
(** * The dictionary interface ([Beai3Dict.c])

    The functions applications call: construction and destruction, the typed
    getters with their conversions, the typed setters, and the arrays of
    dictionaries.  A [DictHandle] is a pointer to a table or a vector, a
    [DictHandle *] argument that may be NULL is an [option ptr], and so is a
    [DictKey].  A getter returns its code and what it wrote to [*value]. *)

From Stdlib Require Import Floats.SpecFloat.
From S2P Require Import Prelude LibC PrimeTable CFloat ImTypes ImHashTable ImVector.

Abbreviation DictHandle := ptr.
Abbreviation DictKey := (option bytes).

(** ** Construction and destruction *)

Definition InitDict (capacity : Z) : M DictHandle :=
  if capacity <? 0 then mret None else im_initialize_hashtable capacity.

Definition DestroyDict (fuel : nat) (handle : DictHandle) : M unit :=
  match handle with None => mret tt | Some _ => im_destroy_hashtable fuel handle end.

Definition InitArray (capacity : Z) : M DictHandle :=
  if capacity <? 0 then mret None else im_initialize_vector capacity.

Definition DestroyArray (fuel : nat) (handle : DictHandle) : M unit :=
  match handle with None => mret tt | Some _ => im_destroy_vector fuel handle end.

Definition ClearDict (fuel : nat) (handle : DictHandle) : M unit :=
  match handle with None => mret tt | Some _ => im_empty_hashtable fuel handle end.

Definition ClearArray (fuel : nat) (handle : DictHandle) : M unit :=
  match handle with None => mret tt | Some _ => im_empty_vector fuel handle end.

(** ** Getters *)

(** The start of every getter: the argument check and the lookup. [f] is the
    [switch] on the bucket found. *)
Definition with_bucket {T} (handle : DictHandle) (key : DictKey) (value : bool)
    (f : im_hashtable -> im_hash_bucket -> M (Z * option T)) : M (Z * option T) :=
  match handle, key, value with
  | Some _, Some key, true =>
      h ← load_hash handle;
      bucket ← lift (im_retrieve_element_by_key h key);
      match bucket with None => mret (-1, None) | Some b => f h b end
  | _, _, _ => mret (-1, None)
  end.

(** The address of an object attached to the table. *)
Definition attached (handle : DictHandle) (h : im_hashtable) (object_offset : Z) : ptr :=
  ptr_add handle (hash_size (h_number_of_buckets h) + object_offset).

(** The [switch] of the eleven numeric getters; they differ in the conversions
    of the assignment from an integer, from a floating-point value and from a
    text. *)
Section get_number.
Context {T : Type} (of_int : Z -> T) (of_float : spec_float -> outcome T) (of_text : bytes -> outcome T).

Definition number_of_bucket (handle : DictHandle) (h : im_hashtable) (b : im_hash_bucket) : M (Z * option T) :=
  match hb_info b, hb_value b with
  | IM_SHORT, short_value z
  | IM_INT, int_value z
  | IM_LONG, long_value z
  | IM_LONGLONG, longlong_value z
  | IM_USHORT, unsigned_short_value z
  | IM_UINT, unsigned_int_value z
  | IM_ULONG, unsigned_long_value z
  | IM_ULONGLONG, unsigned_longlong_value z => mret (0, Some (of_int z))
  | IM_FLOAT, float_value f
  | IM_DOUBLE, double_value f
  | IM_LONGDOUBLE, longdouble_value f => x ← lift (of_float f); mret (0, Some x)
  | IM_STRING, string_value s => x ← lift (of_text s); mret (0, Some x)
  | IM_EXTERNAL_STRING, external_object _ p =>
      s ← load_bytes p; x ← lift (of_text s); mret (0, Some x)
  | IM_ATTACHED_STRING, attached_object _ o =>
      s ← load_bytes (attached handle h o); x ← lift (of_text s); mret (0, Some x)
  | (IM_BLOCK | IM_EXTERNAL_BLOCK | IM_ATTACHED_BLOCK | IM_EXTERNAL_NESTED | IM_ATTACHED_NESTED
     | IM_EXTERNAL_VECTOR | IM_ATTACHED_VECTOR | IM_EMPTY | IM_DELETED), _ => mret (-1, None)
  | _, _ => fault
  end.

Definition get_number (handle : DictHandle) (key : DictKey) (value : bool) : M (Z * option T) :=
  with_bucket handle key value (number_of_bucket handle).
End get_number.

(** Ranges of the integer types. *)
Definition to_short := float_to_int (-32768) 32767.
Definition to_int := float_to_int (-2147483648) 2147483647.
Definition to_long := float_to_int (-9223372036854775808) 9223372036854775807.
Definition to_ushort := float_to_int 0 65535.
Definition to_uint := float_to_int 0 4294967295.
Definition to_ulong := float_to_int 0 18446744073709551615.

Definition GetDictShort := get_number s16 to_short (λ s, Ok (s16 (atoi s))).
Definition GetDictInt := get_number s32 to_int (λ s, Ok (s32 (atoi s))).
Definition GetDictLong := get_number s64 to_long (λ s, Ok (s64 (atol s))).
Definition GetDictLongLong := get_number s64 to_long (λ s, Ok (s64 (atoll s))).
Definition GetDictUShort := get_number u16 to_ushort (λ s, Ok (u16 (atoi s))).
Definition GetDictUInt := get_number u32 to_uint (λ s, Ok (u32 (atoi s))).
Definition GetDictULong := get_number u64 to_ulong (λ s, Ok (u64 (atol s))).
Definition GetDictULongLong := get_number u64 to_ulong (λ s, Ok (u64 (atoll s))).

Definition get_float (t : format) :=
  get_number (float_of_Z t) (λ f, Ok (float_round t f)) (λ s, Ok (float_round t (atof s))).

Definition GetDictFloat := get_float binary32.
Definition GetDictDouble := get_float binary64.
Definition GetDictLongDouble := get_float x87.

(** [snprintf(value, size, ...)] of a text, for [size > 0]. *)
Definition snprintf (size : Z) (text : bytes) : bytes := take (Z.to_nat (size - 1)) text ++ [0].

(** [strncpy(value, s, size); value[size - 1] = '\0';], for [size > 0]. *)
Definition strncpy_term (size : Z) (s : bytes) : bytes :=
  <[Z.to_nat (size - 1) := 0]> (strncpy (Z.to_nat size) s).

(** The bytes [GetDictString] leaves in [value], or none. *)
Definition string_of_bucket (size : Z) (handle : DictHandle) (h : im_hashtable) (b : im_hash_bucket) : M (option bytes) :=
  match hb_info b, hb_value b with
  | IM_SHORT, short_value z
  | IM_INT, int_value z
  | IM_LONG, long_value z
  | IM_LONGLONG, longlong_value z
  | IM_USHORT, unsigned_short_value z
  | IM_UINT, unsigned_int_value z
  | IM_ULONG, unsigned_long_value z
  | IM_ULONGLONG, unsigned_longlong_value z => mret (Some (snprintf size (dec z)))
  | IM_FLOAT, float_value f
  | IM_DOUBLE, double_value f
  | IM_LONGDOUBLE, longdouble_value f => mret (Some (snprintf size (print_2f f)))
  | IM_STRING, string_value s => mret (Some (strncpy_term size s))
  | IM_EXTERNAL_STRING, external_object _ p => s ← load_bytes p; mret (Some (strncpy_term size s))
  | IM_ATTACHED_STRING, attached_object _ o =>
      s ← load_bytes (attached handle h o); mret (Some (strncpy_term size s))
  | (IM_BLOCK | IM_EXTERNAL_BLOCK | IM_ATTACHED_BLOCK | IM_EXTERNAL_NESTED | IM_ATTACHED_NESTED
     | IM_EXTERNAL_VECTOR | IM_ATTACHED_VECTOR | IM_EMPTY | IM_DELETED), _ => mret None
  | _, _ => fault
  end.

Definition GetDictString (handle : DictHandle) (key : DictKey) (value : bool) (size : Z) : M (Z * option bytes) :=
  if size <=? 0 then mret (-1, None)
  else with_bucket handle key value (λ h b,
    text ← string_of_bucket size handle h b;
    match text with
    | None => mret (-1, None)
    | Some buf => n ← lift (strlen buf); mret (s32 n, Some buf)
    end).

(** [memcpy] of [n] bytes out of an object that holds them. *)
Definition take_bytes (n : Z) (s : bytes) : outcome bytes :=
  if n <=? zlen s then Ok (take (Z.to_nat n) s) else Fault.

Definition GetDictBlock (handle : DictHandle) (key : DictKey) (value : bool) (size : Z) : M (Z * option bytes) :=
  if size <=? 0 then mret (-1, None)
  else with_bucket handle key value (λ h b,
    let copy_size := if size <? hb_value_length b then size else hb_value_length b in
    match hb_info b, hb_value b with
    | IM_BLOCK, string_value s => x ← lift (take_bytes copy_size s); mret (s32 copy_size, Some x)
    | IM_EXTERNAL_BLOCK, external_object _ p =>
        s ← load_bytes p; x ← lift (take_bytes copy_size s); mret (s32 copy_size, Some x)
    | IM_ATTACHED_BLOCK, attached_object _ o =>
        s ← load_bytes (attached handle h o); x ← lift (take_bytes copy_size s); mret (s32 copy_size, Some x)
    | (IM_BLOCK | IM_EXTERNAL_BLOCK | IM_ATTACHED_BLOCK), _ => fault
    | _, _ => mret (-1, None)
    end).

Definition GetDictDict (handle : DictHandle) (key : DictKey) (value : bool) : M (Z * option DictHandle) :=
  with_bucket handle key value (λ h b,
    match hb_info b, hb_value b with
    | IM_EXTERNAL_NESTED, external_object _ p => mret (0, Some p)
    | IM_ATTACHED_NESTED, attached_object _ o => mret (0, Some (attached handle h o))
    | (IM_EXTERNAL_NESTED | IM_ATTACHED_NESTED), _ => fault
    | _, _ => mret (-1, None)
    end).

Definition GetDictArray (handle : DictHandle) (key : DictKey) (value : bool) : M (Z * option DictHandle) :=
  with_bucket handle key value (λ h b,
    match hb_info b, hb_value b with
    | IM_EXTERNAL_VECTOR, external_object _ p => mret (0, Some p)
    | IM_ATTACHED_VECTOR, attached_object _ o => mret (0, Some (attached handle h o))
    | (IM_EXTERNAL_VECTOR | IM_ATTACHED_VECTOR), _ => fault
    | _, _ => mret (-1, None)
    end).

(** ** Setters *)

(** [existing = im_find_element( *handle, key); if(existing >= 0)
    im_delete_element( *handle, existing);] *)
Definition remove_existing (fuel : nat) (handle : DictHandle) (key : bytes) : M unit :=
  h ← load_hash handle;
  existing ← lift (im_find_element h key);
  if 0 <=? existing then im_delete_element fuel handle existing ;; mret tt else mret tt.

(** The start of every setter, then [f]; the result is the code returned and
    [*handle] afterwards. *)
Definition with_handle (fuel : nat) (handle : option DictHandle) (key : DictKey)
    (f : DictHandle -> bytes -> M (Z * DictHandle)) : M (Z * option DictHandle) :=
  match handle, key with
  | Some (Some a), Some key =>
      remove_existing fuel (Some a) key ;;
      r ← f (Some a) key;
      mret (r.1, Some r.2)
  | _, _ => mret (-1, handle)
  end.

(** The key field: [strncpy] of [sizeof(key) - 1] bytes, and the last byte. *)
Definition key_field (key : bytes) (last : Z) : bytes := strncpy KEY_MAX_LENGTH key ++ [last].

Definition set_scalar (info : im_info) (size : Z) (fuel : nat) (handle : option DictHandle) (key : DictKey)
    (value : im_value) : M (Z * option DictHandle) :=
  with_handle fuel handle key (λ handle key,
    im_insert_element fuel handle (HashBucket (key_field key 0) info size value)).

Definition SetDictShort fuel handle key value := set_scalar IM_SHORT 2 fuel handle key (short_value value).
Definition SetDictInt fuel handle key value := set_scalar IM_INT 4 fuel handle key (int_value value).
Definition SetDictLong fuel handle key value := set_scalar IM_LONG 8 fuel handle key (long_value value).
Definition SetDictLongLong fuel handle key value := set_scalar IM_LONGLONG 8 fuel handle key (longlong_value value).
Definition SetDictUShort fuel handle key value := set_scalar IM_USHORT 2 fuel handle key (unsigned_short_value value).
Definition SetDictUInt fuel handle key value := set_scalar IM_UINT 4 fuel handle key (unsigned_int_value value).
Definition SetDictULong fuel handle key value := set_scalar IM_ULONG 8 fuel handle key (unsigned_long_value value).
Definition SetDictULongLong fuel handle key value :=
  set_scalar IM_ULONGLONG 8 fuel handle key (unsigned_longlong_value value).
Definition SetDictFloat fuel handle key value := set_scalar IM_FLOAT 4 fuel handle key (float_value value).
Definition SetDictDouble fuel handle key value := set_scalar IM_DOUBLE 8 fuel handle key (double_value value).
Definition SetDictLongDouble fuel handle key value :=
  set_scalar IM_LONGDOUBLE 16 fuel handle key (longdouble_value value).

(** The largest [value_length] accepted. *)
Definition VALUE_MAX_LENGTH : Z := 1048576.

(** [SetDictString] and [SetDictBlock] do not write the last byte of the key
    field: [junk] is what the stack held there.  The result of [malloc] is not
    checked before the copy. *)
Definition SetDictString (junk : Z) (fuel : nat) (handle : option DictHandle) (key : DictKey)
    (value : option bytes) : M (Z * option DictHandle) :=
  match value with
  | None => mret (-1, handle)
  | Some value =>
      with_handle fuel handle key (λ handle key,
        n ← lift (strlen value);
        let value_length := n + 1 in
        if VALUE_MAX_LENGTH <? value_length then mret (-1, handle)
        else
          let text := strncpy (Z.to_nat (value_length - 1)) value ++ [0] in
          if value_length <=? sizeof_im_value then
            im_insert_element fuel handle (HashBucket (key_field key junk) IM_STRING value_length (string_value text))
          else
            object_alloc ← alloc (CBytes text);
            match object_alloc with
            | None => fault
            | Some _ =>
                im_insert_element fuel handle
                  (HashBucket (key_field key junk) IM_EXTERNAL_STRING value_length
                     (external_object value_length object_alloc))
            end)
  end.

Definition SetDictBlock (junk : Z) (fuel : nat) (handle : option DictHandle) (key : DictKey)
    (value : option bytes) (size : Z) : M (Z * option DictHandle) :=
  match value with
  | None => mret (-1, handle)
  | Some value =>
      if size <? 0 then mret (-1, handle)
      else
        with_handle fuel handle key (λ handle key,
          if VALUE_MAX_LENGTH <? size then mret (-1, handle)
          else if size <=? sizeof_im_value then
            block ← lift (take_bytes size value);
            im_insert_element fuel handle (HashBucket (key_field key junk) IM_BLOCK size (string_value block))
          else
            block ← lift (take_bytes size value);
            object_alloc ← alloc (CBytes block);
            match object_alloc with
            | None => fault
            | Some _ =>
                im_insert_element fuel handle
                  (HashBucket (key_field key junk) IM_EXTERNAL_BLOCK size (external_object size object_alloc))
            end)
  end.

Definition SetDictDict (fuel : nat) (handle : option DictHandle) (key : DictKey) (value : DictHandle) :
    M (Z * option DictHandle) :=
  with_handle fuel handle key (λ handle key,
    hashtable ← load_hash value;
    let size := hash_size (h_number_of_buckets hashtable) in
    let value_length := size + h_attached_offset hashtable in
    if VALUE_MAX_LENGTH <? value_length then mret (-1, handle)
    else
      im_insert_element fuel handle
        (HashBucket (key_field key 0) IM_EXTERNAL_NESTED value_length
           (external_object (size + h_attached_size hashtable) value))).

Definition SetDictArray (fuel : nat) (handle : option DictHandle) (key : DictKey) (value : DictHandle) :
    M (Z * option DictHandle) :=
  with_handle fuel handle key (λ handle key,
    vector ← load_vector value;
    let size := vector_size (v_number_of_buckets vector) in
    let value_length := size + v_attached_offset vector in
    if VALUE_MAX_LENGTH <? value_length then mret (-1, handle)
    else
      im_insert_element fuel handle
        (HashBucket (key_field key 0) IM_EXTERNAL_VECTOR value_length
           (external_object (size + v_attached_size vector) value))).

Definition DeleteDict (fuel : nat) (handle : DictHandle) (key : bytes) : M Z :=
  im_delete_element_by_key fuel handle key.

(** ** Arrays of dictionaries and counts *)

Definition GetArrayLength (handle : DictHandle) : M Z :=
  match handle with
  | None => mret (-1)
  | Some _ => v ← load_vector handle; mret (s32 (v_inuse v))
  end.

Definition GetArrayDict (handle : DictHandle) (index : Z) (value : bool) : M (Z * option DictHandle) :=
  match handle, value with
  | Some _, true =>
      v ← load_vector handle;
      bucket ← lift (im_get_element v index);
      match bucket with
      | None => mret (-1, None)
      | Some b =>
          match vb_info b, vb_value b with
          | IM_EXTERNAL_NESTED, external_object _ p => mret (index, Some p)
          | IM_ATTACHED_NESTED, attached_object _ o =>
              mret (index, Some (ptr_add handle (vector_size (v_number_of_buckets v) + o)))
          | (IM_EXTERNAL_NESTED | IM_ATTACHED_NESTED), _ => fault
          | _, _ => mret (-1, None)
          end
      end
  | _, _ => mret (-1, None)
  end.

Definition AddArrayDict (fuel : nat) (handle : option DictHandle) (value : DictHandle) : M (Z * option DictHandle) :=
  match handle with
  | Some (Some a) =>
      hashtable ← load_hash value;
      let size := hash_size (h_number_of_buckets hashtable) in
      let value_length := size + h_attached_offset hashtable in
      if VALUE_MAX_LENGTH <? value_length then mret (-1, handle)
      else
        r ← im_add_element fuel (Some a)
              (VectorBucket IM_EXTERNAL_NESTED value_length (external_object (size + h_attached_size hashtable) value));
        mret (r.1, Some r.2)
  | _ => mret (-1, handle)
  end.

Definition GetDictNElement (handle : DictHandle) : M Z :=
  match handle with
  | None => mret (-1)
  | Some _ => h ← load_hash handle; mret (s32 (h_inuse h))
  end.

(** The keys written to [keyv], in the order of the buckets. *)
Fixpoint keyv_loop (bs : list im_hash_bucket) (count keyc : Z) : list bytes :=
  match bs with
  | [] => []
  | b :: bs =>
      if count <? keyc then
        if is_free b then keyv_loop bs count keyc else hb_key b :: keyv_loop bs (count + 1) keyc
      else []
  end.

Definition GetDictKeyv (handle : DictHandle) (keyc : Z) : M (Z * list bytes) :=
  h ← load_hash handle;
  let keyv := keyv_loop (take (Z.to_nat (h_number_of_buckets h)) (h_buckets h)) 0 keyc in
  mret (zlen keyv, keyv).
