(* ===== verification/DictFacts.v ===== *)
(** * A dictionary as a finite map from keys to values

    [dict m blk h D]: the table [h] at block [blk] of the memory [m] is well
    formed, its live buckets hold numbers, texts and blocks, each text or block
    too long for a bucket is alone in a block the table owns, and the values by
    key are the map [D].  The memory-level steps of the dictionary functions
    are shown to be lookup, insertion and deletion on [D] that leave alone
    every block the dictionary does not own. *)

From Stdlib Require Import Floats.SpecFloat.
From S2P Require Import Prelude LibC PrimeTable CFloat ImTypes ImHashTable ImTable ImInsert ImVector Beai3Dict.

(** ** Values *)

Inductive dict_value : Type :=
  | DInt (z : Z)
  | DFloat (f : spec_float)
  | DText (buf : bytes)
  | DBlock (block : bytes).

(** The block a bucket owns. *)
Definition owned (b : im_hash_bucket) : option positive :=
  match hb_info b, hb_value b with
  | (IM_EXTERNAL_STRING | IM_EXTERNAL_BLOCK), external_object _ (Some (q, _)) => Some q
  | _, _ => None
  end.

Definition bytes_at (cs : gmap addr cell) (p : ptr) : option bytes :=
  match p with
  | Some (q, 0) => match cs !! (q, 0) with Some (CBytes s) => Some s | _ => None end
  | _ => None
  end.

(** The value a bucket holds. *)
Definition bucket_value (cs : gmap addr cell) (b : im_hash_bucket) : option dict_value :=
  let block s := if zlen s =? hb_value_length b then Some (DBlock s) else None in
  match hb_info b, hb_value b with
  | IM_SHORT, short_value z
  | IM_INT, int_value z
  | IM_LONG, long_value z
  | IM_LONGLONG, longlong_value z
  | IM_USHORT, unsigned_short_value z
  | IM_UINT, unsigned_int_value z
  | IM_ULONG, unsigned_long_value z
  | IM_ULONGLONG, unsigned_longlong_value z => Some (DInt z)
  | IM_FLOAT, float_value f
  | IM_DOUBLE, double_value f
  | IM_LONGDOUBLE, longdouble_value f => Some (DFloat f)
  | IM_STRING, string_value s => Some (DText s)
  | IM_EXTERNAL_STRING, external_object _ p => s ← bytes_at cs p; Some (DText s)
  | IM_BLOCK, string_value s => block s
  | IM_EXTERNAL_BLOCK, external_object _ p => s ← bytes_at cs p; block s
  | _, _ => None
  end.

(** [q] belongs to the table: it is the block of one of its values. *)
Definition owns (h : im_hashtable) (q : positive) : Prop :=
  exists k b, table_map h !! k = Some b /\ owned b = Some q.

Record dict (m : mem) (blk : positive) (h : im_hashtable) (D : gmap bytes dict_value) : Prop := {
  d_cell : m_cells m !! (blk, 0) = Some (CHash h);
  d_wf : table_wf h;
  d_mem : mem_wf m;
  d_attached : 0 <= h_attached_offset h;
  d_value k : D !! k = table_map h !! k ≫= bucket_value (m_cells m);
  d_some k b : table_map h !! k = Some b -> is_Some (bucket_value (m_cells m) b);
  d_apart : ~ owns h blk;
  d_unshared k1 k2 b1 b2 q : table_map h !! k1 = Some b1 -> table_map h !! k2 = Some b2 ->
    owned b1 = Some q -> owned b2 = Some q -> k1 = k2;
}.

Lemma bytes_at_Some cs p s :
  bytes_at cs p = Some s -> exists q, p = Some (q, 0) /\ cs !! (q, 0) = Some (CBytes s).
Proof.
  destruct p as [[q [| |]]|]; simpl; try done.
  destruct (cs !! (q, 0)) as [[]|] eqn:E; try done. intros [= ->]. eauto.
Qed.

(** Buckets with a value are live, and what they own is a live block. *)
Lemma bucket_value_live cs b v : bucket_value cs b = Some v -> is_live b = true.
Proof.
  unfold bucket_value, is_live, is_free. destruct (hb_info b); try done; by destruct (hb_value b).
Qed.

Lemma bucket_value_owned cs b v q :
  bucket_value cs b = Some v -> owned b = Some q -> exists s, cs !! (q, 0) = Some (CBytes s).
Proof.
  unfold bucket_value, owned. destruct (hb_info b); try done; destruct (hb_value b) as [| | | | | | | | | | | |sz [[q' o]|]| |]; try done;
    intros Hv [= <-]; apply bind_Some in Hv as (s & Hs & _); apply bytes_at_Some in Hs as (q2 & [= -> ->] & Hc); eauto.
Qed.

Lemma bucket_value_ext cs cs' b :
  (forall q, owned b = Some q -> cs' !! (q, 0) = cs !! (q, 0)) ->
  bucket_value cs' b = bucket_value cs b.
Proof.
  intros H. unfold bucket_value, owned in *. destruct (hb_info b); try done;
    destruct (hb_value b) as [| | | | | | | | | | | |sz [[q o]|]| |]; try done;
    destruct o; simpl; try done; by rewrite (H q).
Qed.

Section dict.
Context (m : mem) (blk : positive) (h : im_hashtable) (D : gmap bytes dict_value).
Hypothesis (Hd : dict m blk h D).

Lemma d_lookup k b : table_map h !! k = Some b ->
  exists v, bucket_value (m_cells m) b = Some v /\ D !! k = Some v.
Proof using Hd.
  intros Hb. destruct (d_some _ _ _ _ Hd k b Hb) as [v Hv]. exists v. split; [done|].
  rewrite (d_value _ _ _ _ Hd), Hb. exact Hv.
Qed.

Lemma d_lookup_None k : table_map h !! k = None -> D !! k = None.
Proof using Hd. intros Hb. by rewrite (d_value _ _ _ _ Hd), Hb. Qed.

Lemma d_lookup_Some k v : D !! k = Some v ->
  exists b, table_map h !! k = Some b /\ bucket_value (m_cells m) b = Some v.
Proof using Hd. rewrite (d_value _ _ _ _ Hd). intros H. by apply bind_Some in H. Qed.

Lemma owns_below q : owns h q -> (q < m_next m)%positive.
Proof using Hd.
  intros (k & b & Hb & Hq). destruct (d_lookup k b Hb) as (v & Hv & _).
  destruct (bucket_value_owned _ _ _ _ Hv Hq) as [s Hs]. by apply (d_mem _ _ _ _ Hd) in Hs.
Qed.

Lemma blk_below : (blk < m_next m)%positive.
Proof using Hd. pose proof (d_cell _ _ _ _ Hd) as Hc. by apply (d_mem _ _ _ _ Hd) in Hc. Qed.

(** The dictionary depends on its table and on the blocks it owns only. *)
Lemma dict_frame m' :
  mem_wf m' -> (forall k, k.1 = blk \/ owns h k.1 -> m_cells m' !! k = m_cells m !! k) -> dict m' blk h D.
Proof using Hd.
  intros Hm' Hf.
  assert (forall k b, table_map h !! k = Some b -> bucket_value (m_cells m') b = bucket_value (m_cells m) b) as He.
  { intros k b Hb. apply bucket_value_ext. intros q Hq. apply Hf. right. by exists k, b. }
  destruct Hd as [Hc Hwf Hm Ha Hv Hs Hap Hun]. constructor; try done.
  - rewrite Hf by (by left). done.
  - intros k. rewrite Hv. destruct (table_map h !! k) as [b|] eqn:E; [|done]. simpl. by rewrite (He k).
  - intros k b Hb. rewrite (He k) by done. by eapply Hs.
Qed.

(** Lookup in the dictionary. *)
Lemma retrieve_dict {T} key (f : im_hashtable -> im_hash_bucket -> M (Z * option T)) :
  with_bucket (Some (blk, 0)) (Some key) true f m =
    match table_map h !! key_of key with None => Ok ((-1, None), m) | Some b => f h b m end.
Proof using Hd.
  unfold with_bucket. run (load_hash_run _ _ _ (d_cell _ _ _ _ Hd)).
  run_lift (retrieve_by_key_map h (d_wf _ _ _ _ Hd) key). by destruct (table_map h !! key_of key).
Qed.
End dict.

(** ** Getters *)

Section getters.
Context (m : mem) (blk : positive) (h : im_hashtable) (D : gmap bytes dict_value).
Hypothesis (Hd : dict m blk h D).
Context {T : Type} (of_int : Z -> T) (of_float : spec_float -> outcome T) (of_text : bytes -> outcome T).

(** What a numeric getter returns for a value. *)
Definition number_of_value (v : option dict_value) : outcome (Z * option T) :=
  match v with
  | Some (DInt z) => Ok (0, Some (of_int z))
  | Some (DFloat f) => x ← of_float f; Ok (0, Some x)
  | Some (DText s) => x ← of_text s; Ok (0, Some x)
  | Some (DBlock _) | None => Ok (-1, None)
  end.

Lemma load_bytes_at cs p s :
  bytes_at (m_cells cs) p = Some s -> load_bytes p cs = Ok (s, cs).
Proof using Type. intros H. apply bytes_at_Some in H as (q & -> & Hq). by apply load_bytes_run. Qed.

Lemma lift_code (o : outcome T) (m1 : mem) :
  (x ← lift o; mret (0, Some x)) m1 = lift (x ← o; Ok (0, Some x)) m1.
Proof using Type. by destruct o. Qed.

Lemma get_number_run key :
  get_number of_int of_float of_text (Some (blk, 0)) (Some key) true m =
    lift (number_of_value (D !! key_of key)) m.
Proof using Hd.
  unfold get_number. rewrite (retrieve_dict m blk h D Hd).
  destruct (table_map h !! key_of key) as [b|] eqn:E; [|by rewrite (d_lookup_None m blk h D Hd _ E)].
  destruct (d_lookup m blk h D Hd _ _ E) as (v & Hv & ->). clear E.
  unfold bucket_value, number_of_bucket in *.
  destruct (hb_info b); try done; destruct (hb_value b); try done; simplify_eq; simpl; try done;
    try (apply bind_Some in Hv as (s & Hs & Hv); simplify_eq/=);
    repeat case_match; simplify_eq; try done;
    try (run (load_bytes_at _ _ _ Hs));
    apply lift_code.
Qed.
End getters.

(** What [GetDictString] returns for a value. *)
Definition text_of_value (size : Z) (v : option dict_value) : option bytes :=
  match v with
  | Some (DInt z) => Some (snprintf size (dec z))
  | Some (DFloat f) => Some (snprintf size (print_2f f))
  | Some (DText s) => Some (strncpy_term size s)
  | Some (DBlock _) | None => None
  end.

(** ... and [GetDictBlock]. *)
Definition block_of_value (size : Z) (v : option dict_value) : option bytes :=
  match v with Some (DBlock s) => Some (take (Z.to_nat size) s) | _ => None end.

Section get_buffers.
Context (m : mem) (blk : positive) (h : im_hashtable) (D : gmap bytes dict_value).
Hypothesis (Hd : dict m blk h D).

Lemma get_string_run key size :
  0 < size ->
  GetDictString (Some (blk, 0)) (Some key) true size m =
    match text_of_value size (D !! key_of key) with
    | None => Ok ((-1, None), m)
    | Some buf => (n ← lift (strlen buf); mret (s32 n, Some buf)) m
    end.
Proof using Hd.
  intros Hs. unfold GetDictString. destruct (Z.leb_spec size 0); [lia|].
  rewrite (retrieve_dict m blk h D Hd).
  destruct (table_map h !! key_of key) as [b|] eqn:E; [|by rewrite (d_lookup_None m blk h D Hd _ E)].
  destruct (d_lookup m blk h D Hd _ _ E) as (v & Hv & ->). clear E.
  assert (string_of_bucket size (Some (blk, 0)) h b m = Ok (text_of_value size (Some v), m)) as Hrun.
  { unfold bucket_value, string_of_bucket in *.
    destruct (hb_info b); try done; destruct (hb_value b); try done; simplify_eq; simpl; try done;
      try (apply bind_Some in Hv as (s & Hs' & Hv); simplify_eq/=);
      repeat case_match; simplify_eq; try done;
      try (by run (load_bytes_at _ _ _ Hs')). }
  run Hrun. by destruct (text_of_value size (Some v)).
Qed.

Lemma take_bytes_ok n s : n <= zlen s -> take_bytes n s = Ok (take (Z.to_nat n) s).
Proof using Type. intros H. unfold take_bytes. destruct (Z.leb_spec n (zlen s)); [done|lia]. Qed.

Lemma get_block_run key size :
  0 < size < 2147483648 ->
  GetDictBlock (Some (blk, 0)) (Some key) true size m =
    match block_of_value size (D !! key_of key) with
    | None => Ok ((-1, None), m)
    | Some block => Ok ((zlen block, Some block), m)
    end.
Proof using Hd.
  intros Hs. unfold GetDictBlock. destruct (Z.leb_spec size 0); [lia|].
  rewrite (retrieve_dict m blk h D Hd).
  destruct (table_map h !! key_of key) as [b|] eqn:E; [|by rewrite (d_lookup_None m blk h D Hd _ E)].
  destruct (d_lookup m blk h D Hd _ _ E) as (v & Hv & ->). clear E.
  assert (forall s, zlen s = hb_value_length b ->
    take_bytes (if size <? hb_value_length b then size else hb_value_length b) s = Ok (take (Z.to_nat size) s) /\
    s32 (if size <? hb_value_length b then size else hb_value_length b) = zlen (take (Z.to_nat size) s)) as Hlen.
  { intros s <-. pose proof (zlen_nonneg s). destruct (Z.ltb_spec size (zlen s)) as [Hlt|Hge].
    - rewrite take_bytes_ok by lia. split; [done|]. no_wrap. unfold zlen in *. rewrite length_take. lia.
    - assert (take (Z.to_nat size) s = s) as -> by (apply take_ge; unfold zlen in *; lia).
      rewrite take_bytes_ok by lia. no_wrap. split; [|done]. f_equal. apply take_ge. unfold zlen. lia. }
  unfold bucket_value in Hv.
  destruct (hb_info b); try done; destruct (hb_value b); try done; simplify_eq; simpl; try done;
    try (apply bind_Some in Hv as (s & Hs' & Hv); simplify_eq/=); try done;
    try (run (load_bytes_at _ _ _ Hs'));
    match type of Hv with
    | context [zlen ?s =? _] =>
        destruct (Z.eqb_spec (zlen s) (hb_value_length b)) as [Hl|]; [|done]; simplify_eq;
        destruct (Hlen s Hl) as [Ht ->]; by rewrite Ht
    end.
Qed.
End get_buffers.

(** ** Deletion *)

(** The memory once the block a bucket owns is freed. *)
Definition without (o : option positive) (m : mem) : mem :=
  match o with Some q => set_cells (drop_block q) m | None => m end.

Lemma without_ne o m k : o <> Some k.1 -> m_cells (without o m) !! k = m_cells m !! k.
Proof.
  intros H. destruct o as [q|]; [|done]. simpl. rewrite drop_block_ne; [done|]. intros E. by rewrite E in H.
Qed.

Lemma without_mem_wf o m : mem_wf m -> mem_wf (without o m).
Proof.
  intros Hm. destruct o as [q|]; [|done]. intros k c Hk. simpl in *. unfold drop_block in Hk.
  apply map_lookup_filter_Some in Hk as [Hk _]. by apply Hm in Hk.
Qed.

(** [free_bucket] on a bucket that holds a value frees the block it owns. *)
Lemma free_bucket_run fuel m a h p b v :
  m_cells m !! a = Some (CHash h) -> h_buckets h !! p = Some b ->
  bucket_value (m_cells m) b = Some v ->
  hashtable_free_bucket (S fuel) (Some a) (Z.of_nat p) m = Ok (tt, without (owned b) m).
Proof.
  intros Ha Hp Hv. cbn [hashtable_free_bucket]. run (load_hash_run _ _ _ Ha).
  assert (zget (h_buckets h) (Z.of_nat p) = Ok b) as Hg by (apply zget_lookup; [lia|by rewrite Nat2Z.id]).
  run_lift Hg. unfold bucket_value, owned in *.
  destruct (hb_info b); try done; destruct (hb_value b) as [| | | | | | | | | | | |sz p0| |]; try done;
    apply bind_Some in Hv as (s & Hs & _); apply bytes_at_Some in Hs as (q & -> & Hc);
    unfold freep; change (0 =? 0) with true; cbv iota; by rewrite Hc.
Qed.

(** The rest of the memory is as it was: the blocks the dictionary neither is
    nor owns. *)
Definition frame (m : mem) (blk : positive) (h : im_hashtable) (m' : mem) : Prop :=
  forall k, k.1 <> blk -> ~ owns h k.1 -> (k.1 < m_next m)%positive -> m_cells m' !! k = m_cells m !! k.

(** From the table [h] at [blk] to the table [h'] at [nb]: the rest of the
    memory is as it was, what is new is in fresh blocks, at most three of
    them. *)
Record dict_step (m : mem) (blk : positive) (h : im_hashtable) (m' : mem) (nb : positive) (h' : im_hashtable) : Prop := {
  ds_frame : frame m blk h m';
  ds_block : nb = blk \/ (m_next m <= nb)%positive;
  ds_owns q : owns h' q -> owns h q \/ (m_next m <= q)%positive;
  ds_next : (m_next m <= m_next m')%positive;
  ds_quota : (m_quota m <= m_quota m' + 3)%nat;
}.

Lemma owns_delete h h' key q : table_map h' = delete key (table_map h) -> owns h' q -> owns h q.
Proof. intros Hm (k & b & Hb & Hq). rewrite Hm in Hb. apply lookup_delete_Some in Hb as [_ Hb]. by exists k, b. Qed.

Section changes.
Context (m : mem) (blk : positive) (h : im_hashtable) (D : gmap bytes dict_value).
Hypothesis (Hd : dict m blk h D).

(** Deleting the bucket of a key of the dictionary. *)
Lemma delete_dict fuel key p b :
  table_map h !! key_of key = Some b -> h_buckets h !! p = Some b -> is_live b = true ->
  exists m' h',
    im_delete_element (S fuel) (Some (blk, 0)) (Z.of_nat p) m = Ok (Z.of_nat p, m') /\
    dict m' blk h' (delete (key_of key) D) /\ frame m blk h m' /\
    table_map h' = delete (key_of key) (table_map h) /\
    h_inuse h' = h_inuse h - 1 /\ h_number_of_buckets h' = h_number_of_buckets h /\
    m_next m' = m_next m /\ m_quota m' = m_quota m.
Proof using Hd.
  intros Hb Hp Hl. destruct (d_lookup m blk h D Hd _ _ Hb) as (v & Hv & HDv).
  pose proof Hd as [Hc Hwf Hm Ha Hval Hsome Hap Hun].
  destruct (table_map_Some h _ _ Hb) as (_ & _ & _ & Hk).
  assert (owned b <> Some blk) as Hnb by (intros E; apply Hap; by exists (key_of key), b).
  destruct (delete_element_run (S fuel) m (without (owned b) m) (blk, 0) h p b Hc Hwf Hp Hl)
    as (h' & Hrun & Hwf' & Hmap & Hn & Hi & Ho).
  { by eapply free_bucket_run. }
  { by rewrite without_ne. }
  rewrite <- Hk in Hmap. eexists _, h'. split; [exact Hrun|].
  assert (forall k b', table_map h' !! k = Some b' -> table_map h !! k = Some b' /\ k <> key_of key) as Hsub.
  { intros k b' Hb'. rewrite Hmap in Hb'. apply lookup_delete_Some in Hb' as [? ?]. done. }
  assert (forall k b', table_map h' !! k = Some b' ->
    bucket_value (m_cells (upd (blk, 0) (CHash h') (without (owned b) m))) b' = bucket_value (m_cells m) b') as He.
  { intros k b' Hb'. apply Hsub in Hb' as [Hb' Hne]. apply bucket_value_ext. intros q Hq.
    rewrite upd_other by (intros [= ->]; apply Hap; by exists k, b').
    apply without_ne. intros Hq'. by apply Hne, (Hun _ _ b' b q). }
  split; [constructor|split_and!].
  - apply upd_same.
  - done.
  - eapply upd_mem_wf; [by apply without_mem_wf|]. by rewrite without_ne.
  - lia.
  - intros k. rewrite Hmap. destruct (decide (k = key_of key)) as [->|Hne].
    + by rewrite !lookup_delete_eq.
    + rewrite !lookup_delete_ne by done. rewrite Hval. destruct (table_map h !! k) as [b'|] eqn:E; [|done].
      simpl. symmetry. apply (He k). by rewrite Hmap, lookup_delete_ne.
  - intros k b' Hb'. rewrite (He k) by done. apply Hsub in Hb' as [Hb' _]. by eapply Hsome.
  - intros (k & b' & Hb' & Hq). apply Hsub in Hb' as [Hb' _]. apply Hap. by exists k, b'.
  - intros k1 k2 b1 b2 q H1 H2. apply Hsub in H1 as [H1 _], H2 as [H2 _]. by apply Hun.
  - intros k Hk1 Hk2 _. rewrite upd_other by (by intros ->). apply without_ne.
    intros Hq. apply Hk2. by exists (key_of key), b.
  - done.
  - done.
  - done.
  - destruct (owned b); done.
  - destruct (owned b); done.
Qed.

(** [im_find_element] then [im_delete_element], as every setter does. *)
Lemma remove_existing_run fuel key :
  exists m' h',
    remove_existing (S fuel) (Some (blk, 0)) key m = Ok (tt, m') /\
    dict m' blk h' (delete (key_of key) D) /\ frame m blk h m' /\
    table_map h' = delete (key_of key) (table_map h) /\ h_inuse h' <= h_inuse h /\
    h_number_of_buckets h' = h_number_of_buckets h /\ m_next m' = m_next m /\ m_quota m' = m_quota m.
Proof using Hd.
  unfold remove_existing. pose proof (d_cell _ _ _ _ Hd) as Hc. pose proof (d_wf _ _ _ _ Hd) as Hwf.
  run (load_hash_run _ _ _ Hc). destruct (table_map h !! key_of key) as [b|] eqn:E.
  - destruct (find_present h Hwf key b E) as (p & Hf & Hp & Hl). run_lift Hf.
    destruct (Z.leb_spec 0 (Z.of_nat p)); [|lia].
    destruct (delete_dict fuel key p b E Hp Hl) as (m' & h' & Hrun & Hrest). run Hrun.
    exists m', h'. split; [done|]. intuition lia.
  - destruct (find_element_bucket h (tw_shape _ Hwf) key) as (p & b & Hf & Hp & _). run_lift Hf.
    destruct (Z.leb_spec 0 (Z.of_nat p)); [|lia].
    destruct (find_absent h Hwf key p E Hf) as (b' & Hp' & Hfree).
    run (delete_free_run (S fuel) m (blk, 0) h p b' Hc Hp' Hfree).
    exists m, h. split; [done|]. rewrite !delete_id by (done || by eapply d_lookup_None).
    by split_and!.
Qed.

(** [DeleteDict]. *)
Lemma delete_dict_by_key fuel key :
  exists r m' h',
    im_delete_element_by_key (S fuel) (Some (blk, 0)) key m = Ok (r, m') /\
    dict m' blk h' (delete (key_of key) D) /\ dict_step m blk h m' blk h' /\
    match D !! key_of key with Some _ => 0 <= r | None => r = -1 /\ m' = m end.
Proof using Hd.
  unfold im_delete_element_by_key. pose proof (d_cell _ _ _ _ Hd) as Hc. pose proof (d_wf _ _ _ _ Hd) as Hwf.
  run (load_hash_run _ _ _ Hc). destruct (table_map h !! key_of key) as [b|] eqn:E.
  - destruct (find_present h Hwf key b E) as (p & Hf & Hp & Hl). run_lift Hf.
    destruct (delete_dict fuel key p b E Hp Hl) as (m' & h' & Hrun & Hd' & Hfr & Hdel & _ & _ & Hnx & Hqu).
    exists (Z.of_nat p), m', h'. split_and!; [done|done| |].
    { constructor; [done|by left| |lia|lia]. intros q Hq. left. by eapply owns_delete. }
    destruct (d_lookup m blk h D Hd _ _ E) as (v & _ & ->). lia.
  - destruct (find_element_bucket h (tw_shape _ Hwf) key) as (p & b & Hf & Hp & _). run_lift Hf.
    destruct (find_absent h Hwf key p E Hf) as (b' & Hp' & Hfree).
    rewrite (delete_free_run (S fuel) m (blk, 0) h p b' Hc Hp' Hfree).
    exists (-1), m, h. rewrite (d_lookup_None m blk h D Hd _ E).
    split; [done|]. rewrite delete_id by (by eapply d_lookup_None). split; [done|]. split; [|done].
    constructor; [done|by left|by left|lia|lia].
Qed.
End changes.

(** ** Insertion *)

Lemma key_of_key_field key last : key_of (key_field key last) = key_of key.
Proof. unfold key_of, key_field. apply take_content_strncpy. Qed.

(** The outcome of a setter: a code [r] with [ok r], and a dictionary [D'] at
    the handle written back; the rest of the memory is as before. *)
Definition dict_becomes (ok : Z -> Prop) (m : mem) (blk : positive) (h : im_hashtable)
    (D' : gmap bytes dict_value) (o : outcome (Z * option DictHandle * mem)) : Prop :=
  exists r nb m' h', o = Ok ((r, Some (Some (nb, 0))), m') /\ ok r /\ dict m' nb h' D' /\
    dict_step m blk h m' nb h'.

Section insertion.
Context (m : mem) (blk : positive) (h : im_hashtable) (D : gmap bytes dict_value).
Hypothesis (Hd : dict m blk h D).
Context (bk : im_hash_bucket) (v : dict_value).
Hypothesis (Hv : bucket_value (m_cells m) bk = Some v).
Hypothesis (Hown : forall q, owned bk = Some q -> q <> blk /\ ~ owns h q).
Hypothesis (Hnone : D !! key_of (hb_key bk) = None).
Abbreviation key := (key_of (hb_key bk)).

Lemma absent_in_table : table_map h !! key = None.
Proof using Hd Hnone.
  destruct (table_map h !! key) as [b|] eqn:E; [|done].
  destruct (d_lookup m blk h D Hd _ _ E) as (v' & _ & H). by rewrite Hnone in H.
Qed.

Lemma live_not_free : is_free bk = false.
Proof using Hv. apply bucket_value_live in Hv. unfold is_live in Hv. by destruct (is_free bk). Qed.

(** The dictionary after the bucket is in the table. *)
Lemma dict_insert m' nb h' :
  moved m blk h m' nb h' -> table_map h' = <[key := bk]> (table_map h) -> dict m' nb h' (<[key := v]> D).
Proof using Hd Hv Hown Hnone.
  intros Hmv Hmap. pose proof absent_in_table as Hab.
  assert (forall k b, table_map h' !! k = Some b -> k = key /\ b = bk \/ table_map h !! k = Some b) as Hsub.
  { intros k b Hb. rewrite Hmap in Hb. apply lookup_insert_Some in Hb as [[<- <-]|[_ Hb]]; auto. }
  assert (forall k b q, table_map h' !! k = Some b -> owned b = Some q ->
    q <> blk /\ (q < m_next m)%positive) as Hq.
  { intros k b q Hb Ho. apply Hsub in Hb as [[-> ->]|Hb].
    - split; [by apply Hown|]. destruct (bucket_value_owned _ _ _ _ Hv Ho) as [s Hs].
      by apply (d_mem _ _ _ _ Hd) in Hs.
    - split; [intros ->; apply (d_apart _ _ _ _ Hd); by exists k, b|].
      apply (owns_below m blk h D Hd). by exists k, b. }
  assert (forall k b, table_map h' !! k = Some b ->
    bucket_value (m_cells m') b = bucket_value (m_cells m) b) as He.
  { intros k b Hb. apply bucket_value_ext. intros q Ho. destruct (Hq k b q Hb Ho).
    by apply (mv_frame _ _ _ _ _ _ Hmv). }
  constructor.
  - apply Hmv.
  - apply Hmv.
  - apply Hmv.
  - rewrite (mv_attached_offset _ _ _ _ _ _ Hmv). apply Hd.
  - intros k. destruct (table_map h' !! k) as [b|] eqn:E.
    + simpl. rewrite (He k b E). apply Hsub in E as [[-> ->]|E].
      * by rewrite lookup_insert_eq.
      * rewrite lookup_insert_ne by (intros <-; congruence). rewrite (d_value _ _ _ _ Hd). by rewrite E.
    + rewrite Hmap in E. apply lookup_insert_None in E as [E Hne]. rewrite lookup_insert_ne by done.
      by rewrite (d_lookup_None m blk h D Hd).
  - intros k b Hb. rewrite (He k b Hb). apply Hsub in Hb as [[-> ->]|Hb]; [by rewrite Hv|].
    by eapply (d_some _ _ _ _ Hd).
  - intros (k & b & Hb & Ho). destruct (Hq k b nb Hb Ho) as [Hne Hlt].
    destruct (mv_block _ _ _ _ _ _ Hmv) as [[? _]|[? _]]; [done|lia].
  - intros k1 k2 b1 b2 q H1 H2 Ho1 Ho2. apply Hsub in H1, H2.
    destruct H1 as [[-> ->]|H1], H2 as [[-> ->]|H2]; [done| | |by eapply (d_unshared _ _ _ _ Hd)].
    + exfalso. apply (Hown q Ho1). by exists k2, b2.
    + exfalso. apply (Hown q Ho2). by exists k1, b1.
Qed.

Lemma insert_dict fuel :
  4 * h_inuse h < 999983 -> (2 <= m_quota m)%nat ->
  exists r nb m' h', im_insert_element (S (S fuel)) (Some (blk, 0)) bk m = Ok ((r, Some (nb, 0)), m') /\
    0 <= r /\ dict m' nb h' (<[key := v]> D) /\
    (forall k, k.1 <> blk -> (k.1 < m_next m)%positive -> m_cells m' !! k = m_cells m !! k) /\
    (nb = blk \/ (m_next m <= nb)%positive) /\ (m_next m <= m_next m')%positive /\ (m_quota m <= m_quota m' + 2)%nat /\
    (forall q, owns h' q -> owns h q \/ owned bk = Some q).
Proof using Hd Hv Hown Hnone.
  intros Hi Hq.
  destruct (insert_element_run fuel m blk h bk (d_cell _ _ _ _ Hd) (d_wf _ _ _ _ Hd) (d_mem _ _ _ _ Hd) Hi
    (d_attached _ _ _ _ Hd) live_not_free Hq) as (r & nb & m' & h' & Hrun & Hmv & Hres).
  rewrite absent_in_table in Hres. destruct Hres as (Hr & Hmap & _).
  exists r, nb, m', h'. split_and!; [done|done|by apply dict_insert|apply Hmv| |apply Hmv|apply Hmv|].
  - destruct (mv_block _ _ _ _ _ _ Hmv) as [[? _]|[? _]]; auto.
  - intros q (k & b & Hb & Ho). rewrite Hmap in Hb. apply lookup_insert_Some in Hb as [[_ <-]|[_ Hb]]; [by right|].
    left. by exists k, b.
Qed.
End insertion.

(** A fresh block beside the dictionary. *)
Lemma alloc_dict m blk h D c q :
  dict m blk h D -> m_quota m = S q ->
  exists m', alloc c m = Ok (Some (m_next m, 0), m') /\ dict m' blk h D /\
    m_cells m' !! (m_next m, 0) = Some c /\ m_next m' = (m_next m + 1)%positive /\ m_quota m' = q /\
    (forall k, (k.1 < m_next m)%positive -> m_cells m' !! k = m_cells m !! k).
Proof.
  intros Hd Hq. unfold alloc. rewrite Hq. eexists. split; [done|].
  assert (forall k, (k.1 < m_next m)%positive ->
    <[(m_next m, 0) := c]> (m_cells m) !! k = m_cells m !! k) as Hf.
  { intros k Hk. rewrite lookup_insert_ne; [done|]. intros <-. simpl in Hk. lia. }
  split_and!; try done.
  - apply (dict_frame m blk h D Hd).
    + intros k c' Hk. simpl in *. apply lookup_insert_Some in Hk as [[<- _]|[_ Hk]]; simpl; [lia|].
      apply (d_mem _ _ _ _ Hd) in Hk. lia.
    + intros k Hk. apply Hf. destruct Hk as [->|Hk]; [by eapply blk_below|by eapply owns_below].
  - apply lookup_insert_eq.
Qed.

(** ** Setters *)

Lemma strlen_content buf n : strlen buf = Ok n -> zlen (content buf) = n.
Proof.
  revert n. induction buf as [|c buf IH]; intros n; [done|]. cbn [strlen content].
  destruct (c =? 0); [by intros [= <-]|]. intros H. ok_inv H. injection H as <-.
  rewrite zlen_cons. by rewrite (IH a).
Qed.

Lemma strncpy_whole buf n : strlen buf = Ok n -> strncpy (Z.to_nat n) buf = content buf.
Proof.
  intros H. apply strlen_content in H. unfold strncpy, zlen in *.
  rewrite take_ge by lia. replace (Z.to_nat n - length (content buf))%nat with 0%nat by lia. apply app_nil_r.
Qed.

Lemma with_handle_unfold fuel a key f m m1 :
  remove_existing fuel (Some a) key m = Ok (tt, m1) ->
  with_handle fuel (Some (Some a)) (Some key) f m = (r ← f (Some a) key; mret (r.1, Some r.2)) m1.
Proof. intros H. unfold with_handle. by run H. Qed.

Lemma with_handle_ext fuel a key f g m :
  (forall m1, f (Some a) key m1 = g (Some a) key m1) ->
  with_handle fuel (Some (Some a)) (Some key) f m = with_handle fuel (Some (Some a)) (Some key) g m.
Proof.
  intros H. unfold with_handle, mbind, M_bind. destruct (remove_existing _ _ _ _) as [[[] m1]| |]; [|done..].
  by rewrite H.
Qed.

Section setters.
Context (m : mem) (blk : positive) (h : im_hashtable) (D : gmap bytes dict_value) (key : bytes).
Hypothesis (Hd : dict m blk h D).

(** A setter whose value fits in the bucket. *)
Lemma set_inline_run fuel bk v :
  (forall cs, bucket_value cs bk = Some v) -> owned bk = None -> key_of (hb_key bk) = key_of key ->
  4 * h_inuse h < 999983 -> (2 <= m_quota m)%nat ->
  dict_becomes (λ r, 0 <= r) m blk h (<[key_of key := v]> D)
    (with_handle (S (S fuel)) (Some (Some (blk, 0))) (Some key)
       (λ handle _, im_insert_element (S (S fuel)) handle bk) m).
Proof using Hd.
  intros Hv Ho Hk Hi Hq.
  destruct (remove_existing_run m blk h D Hd (S fuel) key)
    as (m1 & h1 & Hrun & Hd1 & Hfr & Hdel & Hi1 & _ & Hnx & Hqu).
  rewrite (with_handle_unfold _ _ _ _ _ _ Hrun).
  destruct (insert_dict m1 blk h1 _ Hd1 bk v) with (fuel := fuel)
    as (r & nb & m' & h' & Hins & Hr & Hd' & Hfr' & Hnb & Hnx' & Hqu' & Hown).
  { apply Hv. } { by rewrite Ho. } { rewrite Hk. apply lookup_delete_eq. } { lia. } { lia. }
  run Hins. exists r, nb, m', h'. split_and!; [done|done|by rewrite Hk, insert_delete_eq in Hd'|].
  constructor; [|lia| |lia|lia].
  - intros k Hk1 Hk2 Hk3. rewrite Hfr' by (done || by rewrite Hnx). by apply Hfr.
  - intros q Hqo. apply Hown in Hqo as [Hqo|Hqo]; [|congruence]. left. by eapply owns_delete.
Qed.

(** A setter whose value goes to a block of its own. *)
Lemma set_external_run fuel s bk v :
  (forall q cs, cs !! (q, 0) = Some (CBytes s) -> bucket_value cs (bk (Some (q, 0))) = Some v) ->
  (forall q, owned (bk (Some (q, 0))) = Some q) ->
  (forall p, key_of (hb_key (bk p)) = key_of key) ->
  4 * h_inuse h < 999983 -> (3 <= m_quota m)%nat ->
  dict_becomes (λ r, 0 <= r) m blk h (<[key_of key := v]> D)
    (with_handle (S (S fuel)) (Some (Some (blk, 0))) (Some key)
       (λ handle _, object_alloc ← alloc (CBytes s);
          match object_alloc with
          | None => fault
          | Some _ => im_insert_element (S (S fuel)) handle (bk object_alloc)
          end) m).
Proof using Hd.
  intros Hv Ho Hk Hi Hq.
  destruct (remove_existing_run m blk h D Hd (S fuel) key)
    as (m1 & h1 & Hrun & Hd1 & Hfr & Hdel & Hi1 & _ & Hnx & Hqu).
  rewrite (with_handle_unfold _ _ _ _ _ _ Hrun).
  destruct (m_quota m1) as [|q] eqn:Eq; [lia|].
  destruct (alloc_dict m1 blk h1 _ (CBytes s) q Hd1 Eq) as (m2 & Hal & Hd2 & Hc & Hnx2 & Hq2 & Hfr2).
  destruct (insert_dict m2 blk h1 _ Hd2 (bk (Some (m_next m1, 0))) v) with (fuel := fuel)
    as (r & nb & m' & h' & Hins & Hr & Hd' & Hfr' & Hnb & Hnx' & Hqu' & Hown).
  { by apply Hv. }
  { rewrite Ho. intros q' [= <-]. split.
    - pose proof (blk_below m1 blk h1 _ Hd1). lia.
    - intros Hc'. apply (owns_below m1 blk h1 _ Hd1) in Hc'. lia. }
  { rewrite Hk. apply lookup_delete_eq. } { lia. } { lia. }
  assert ((object_alloc ← alloc (CBytes s);
          match object_alloc with
          | None => fault
          | Some _ => im_insert_element (S (S fuel)) (Some (blk, 0)) (bk object_alloc)
          end) m1 = Ok (r, Some (nb, 0), m')) as Hf by (run Hal; exact Hins).
  run Hf. exists r, nb, m', h'. split_and!; [done|done|by rewrite Hk, insert_delete_eq in Hd'|].
  constructor; [|lia| |lia|lia].
  - intros k Hk1 Hk2 Hk3. rewrite Hfr' by (done || lia). rewrite Hfr2 by lia. by apply Hfr.
  - intros q' Hqo. apply Hown in Hqo as [Hqo|Hqo]; [left; by eapply owns_delete|right].
    rewrite Ho in Hqo. injection Hqo as <-. lia.
Qed.

(** A setter that gives up once the old entry is removed. *)
Lemma set_refused_run fuel f :
  (forall m1, f (Some (blk, 0)) key m1 = Ok ((-1, Some (blk, 0)), m1)) ->
  dict_becomes (λ r, r = -1) m blk h (delete (key_of key) D)
    (with_handle (S fuel) (Some (Some (blk, 0))) (Some key) f m).
Proof using Hd.
  intros Hf. destruct (remove_existing_run m blk h D Hd fuel key) as (m1 & h1 & Hrun & Hd1 & Hfr & Hdel & _ & _ & Hnx & Hqu).
  rewrite (with_handle_unfold _ _ _ _ _ _ Hrun). run (Hf m1).
  exists (-1), blk, m1, h1. split_and!; [done|done|done|].
  constructor; [done|by left| |lia|lia]. intros q Hq. left. by eapply owns_delete.
Qed.

Lemma set_scalar_run fuel info size value v :
  (forall cs, bucket_value cs (HashBucket (key_field key 0) info size value) = Some v) ->
  owned (HashBucket (key_field key 0) info size value) = None ->
  4 * h_inuse h < 999983 -> (2 <= m_quota m)%nat ->
  dict_becomes (λ r, 0 <= r) m blk h (<[key_of key := v]> D)
    (set_scalar info size (S (S fuel)) (Some (Some (blk, 0))) (Some key) value m).
Proof using Hd. intros Hv Ho Hi Hq. by apply set_inline_run; [..|apply key_of_key_field|done|done]. Qed.

Lemma set_string_run junk fuel value n :
  strlen value = Ok n -> n < VALUE_MAX_LENGTH ->
  4 * h_inuse h < 999983 -> (3 <= m_quota m)%nat ->
  dict_becomes (λ r, 0 <= r) m blk h (<[key_of key := DText (content value ++ [0])]> D)
    (SetDictString junk (S (S fuel)) (Some (Some (blk, 0))) (Some key) (Some value) m).
Proof using Hd.
  intros Hn Hmax Hi Hq. pose proof (strlen_content _ _ Hn) as Hlen.
  pose proof (zlen_nonneg (content value)).
  assert (strncpy (Z.to_nat (n + 1 - 1)) value = content value) as Hcpy.
  { replace (n + 1 - 1) with n by lia. by apply strncpy_whole. }
  unfold SetDictString. destruct (Z.leb_spec (n + 1) sizeof_im_value) as [Hle|Hgt].
  - rewrite (with_handle_ext _ _ _ _ (λ handle _, im_insert_element (S (S fuel)) handle
      (HashBucket (key_field key junk) IM_STRING (n + 1) (string_value (content value ++ [0]))))).
    + by apply set_inline_run; [..|apply key_of_key_field|done|lia].
    + intros m1. run_lift Hn. cbn zeta. rewrite Hcpy.
      destruct (Z.ltb_spec VALUE_MAX_LENGTH (n + 1)); [lia|]. by destruct (Z.leb_spec (n + 1) sizeof_im_value); [|lia].
  - rewrite (with_handle_ext _ _ _ _ (λ handle _, object_alloc ← alloc (CBytes (content value ++ [0]));
      match object_alloc with
      | None => fault
      | Some _ => im_insert_element (S (S fuel)) handle
          (HashBucket (key_field key junk) IM_EXTERNAL_STRING (n + 1) (external_object (n + 1) object_alloc))
      end)).
    + apply (set_external_run fuel _ (λ p, HashBucket (key_field key junk) IM_EXTERNAL_STRING (n + 1)
        (external_object (n + 1) p))); [|done|intros; apply key_of_key_field|done|done].
      intros q cs Hc. unfold bucket_value. simpl. by rewrite Hc.
    + intros m1. run_lift Hn. cbn zeta. rewrite Hcpy.
      destruct (Z.ltb_spec VALUE_MAX_LENGTH (n + 1)); [lia|]. by destruct (Z.leb_spec (n + 1) sizeof_im_value); [lia|].
Qed.

Lemma set_string_refused junk fuel value n :
  strlen value = Ok n -> VALUE_MAX_LENGTH <= n ->
  dict_becomes (λ r, r = -1) m blk h (delete (key_of key) D)
    (SetDictString junk (S fuel) (Some (Some (blk, 0))) (Some key) (Some value) m).
Proof using Hd.
  intros Hn Hmax. unfold SetDictString. apply set_refused_run. intros m1. run_lift Hn. cbn zeta.
  by destruct (Z.ltb_spec VALUE_MAX_LENGTH (n + 1)); [|lia].
Qed.

Lemma set_block_run junk fuel value size :
  0 <= size <= zlen value -> size <= VALUE_MAX_LENGTH ->
  4 * h_inuse h < 999983 -> (3 <= m_quota m)%nat ->
  dict_becomes (λ r, 0 <= r) m blk h (<[key_of key := DBlock (take (Z.to_nat size) value)]> D)
    (SetDictBlock junk (S (S fuel)) (Some (Some (blk, 0))) (Some key) (Some value) size m).
Proof using Hd.
  intros Hs Hmax Hi Hq. pose proof (take_bytes_ok size value ltac:(lia)) as Ht.
  assert (zlen (take (Z.to_nat size) value) = size) as Hlen by (unfold zlen in *; rewrite length_take; lia).
  unfold SetDictBlock. destruct (Z.ltb_spec size 0); [lia|].
  destruct (Z.leb_spec size sizeof_im_value) as [Hle|Hgt].
  - rewrite (with_handle_ext _ _ _ _ (λ handle _, im_insert_element (S (S fuel)) handle
      (HashBucket (key_field key junk) IM_BLOCK size (string_value (take (Z.to_nat size) value))))).
    + apply set_inline_run; [|done|apply key_of_key_field|done|lia].
      intros cs. unfold bucket_value. simpl. by rewrite Hlen, Z.eqb_refl.
    + intros m1. destruct (Z.ltb_spec VALUE_MAX_LENGTH size); [lia|]. by run_lift Ht.
  - rewrite (with_handle_ext _ _ _ _ (λ handle _, object_alloc ← alloc (CBytes (take (Z.to_nat size) value));
      match object_alloc with
      | None => fault
      | Some _ => im_insert_element (S (S fuel)) handle
          (HashBucket (key_field key junk) IM_EXTERNAL_BLOCK size (external_object size object_alloc))
      end)).
    + apply (set_external_run fuel _ (λ p, HashBucket (key_field key junk) IM_EXTERNAL_BLOCK size
        (external_object size p))); [|done|intros; apply key_of_key_field|done|done].
      intros q cs Hc. unfold bucket_value. simpl. by rewrite Hc; simpl; rewrite Hlen, Z.eqb_refl.
    + intros m1. destruct (Z.ltb_spec VALUE_MAX_LENGTH size); [lia|]. by run_lift Ht.
Qed.
End setters.

(** ** A text read back *)

Lemma strncpy_term_content size s :
  0 < size ->
  let k := Z.to_nat (size - 1) in
  strncpy_term size s = take k (content s) ++ 0 :: replicate (k - length (content s)) 0.
Proof.
  intros Hs k. unfold strncpy_term, strncpy. fold k. replace (Z.to_nat size) with (S k) by lia. clearbody k.
  set (c := content s). clearbody c. destruct (Nat.le_gt_cases (S k) (length c)) as [Hle|Hgt].
  - destruct (lookup_lt_is_Some_2 c k) as [x Hx]; [lia|]. rewrite (take_S_r c k x Hx).
    assert (length (take k c) = k) as Hk by (rewrite length_take; lia).
    rewrite length_app, Hk. cbn [length]. replace (S k - (k + 1))%nat with 0%nat by lia.
    replace (k - length c)%nat with 0%nat by lia. cbn [replicate]. rewrite app_nil_r, insert_app_r_alt by lia.
    by rewrite Hk, Nat.sub_diag.
  - rewrite !(take_ge c) by lia. rewrite insert_app_r_alt by lia.
    replace (S k - length c)%nat with (S (k - length c)) by lia. by rewrite insert_replicate.
Qed.

(** What [GetDictString] gives for a text: its first [size - 1] bytes, padded
    with NULs, and their number. *)
Lemma get_text_run m blk h D key size text :
  dict m blk h D -> 0 < size < 2147483648 -> D !! key_of key = Some (DText text) ->
  let k := Z.to_nat (size - 1) in
  GetDictString (Some (blk, 0)) (Some key) true size m =
    Ok ((Z.min (zlen (content text)) (size - 1),
         Some (take k (content text) ++ 0 :: replicate (k - length (content text)) 0)), m).
Proof.
  intros Hd Hs Hv k. rewrite (get_string_run m blk h D Hd) by lia. rewrite Hv. cbn [text_of_value].
  rewrite strncpy_term_content by lia. fold k.
  assert (forall c r, Forall (λ x, x <> 0) c -> strlen (c ++ 0 :: r) = Ok (zlen c)) as Hlen.
  { intros c r. induction 1 as [|x c Hx Hc IH]; [done|]. cbn [app strlen].
    destruct (Z.eqb_spec x 0); [done|]. rewrite IH. cbn [mbind outcome_bind]. by rewrite zlen_cons. }
  rewrite Hlen by apply Forall_take, content_nonzero. unfold lift, mbind, M_bind, outcome_bind, mret, M_ret.
  assert (zlen (take k (content text)) = Z.min (zlen (content text)) (size - 1)) as ->
    by (unfold zlen, k; rewrite length_take; lia).
  rewrite s32_id; [done|]. pose proof (zlen_nonneg (content text)). lia.
Qed.

(** ** Elements of vectors *)

(** An element that is no dictionary and no array: [o] is the block it owns. *)
Definition plain_element (cs : gmap addr cell) (b : im_vector_bucket) (o : option positive) : Prop :=
  match vb_info b, vb_value b with
  | (IM_EXTERNAL_STRING | IM_EXTERNAL_BLOCK), external_object _ p =>
      exists q s, p = Some (q, 0) /\ cs !! (q, 0) = Some (CBytes s) /\ o = Some q
  | (IM_EXTERNAL_STRING | IM_EXTERNAL_BLOCK | IM_EXTERNAL_NESTED | IM_EXTERNAL_VECTOR
     | IM_ATTACHED_NESTED | IM_ATTACHED_VECTOR), _ => False
  | _, _ => o = None
  end.

Section elements.
Context (fuel : nat) (m : mem) (blk : positive) (v : im_vector) (i : Z) (b : im_vector_bucket) (o : option positive).
Hypothesis (Ha : m_cells m !! (blk, 0) = Some (CVector v)) (Hwf : vector_wf v).
Hypothesis (Hi : 0 <= i < v_inuse v) (Hb : vector_seq v !! Z.to_nat i = Some b).
Hypothesis (Hplain : plain_element (m_cells m) b o).

Lemma vector_free_run : vector_free_bucket (S fuel) (Some (blk, 0)) i m = Ok (tt, without o m).
Proof using Ha Hb Hi Hplain.
  cbn [vector_free_bucket]. run (load_vector_run _ _ _ Ha).
  assert (zget (v_buckets v) i = Ok b) as Hg.
  { apply zget_lookup; [lia|]. unfold vector_seq in Hb. by apply lookup_take_Some in Hb as [Hb _]. }
  run_lift Hg. unfold plain_element in Hplain.
  destruct (vb_info b); try done; try (by subst o); destruct (vb_value b) as [| | | | | | | | | | | |sz p0| |]; try done;
    destruct Hplain as (q & s & -> & Hc & ->); unfold freep; change (0 =? 0) with true; cbv iota; by rewrite Hc.
Qed.

(** Deleting the element, or writing another over it. *)
Lemma vector_element_run b' :
  o <> Some blk -> vector_is_free b' = false ->
  (exists v', im_del_element (S fuel) (Some (blk, 0)) i m = Ok (i, upd (blk, 0) (CVector v') (without o m)) /\
     vector_wf v' /\ vector_seq v' = delete (Z.to_nat i) (vector_seq v)) /\
  (exists v', im_set_element (S fuel) (Some (blk, 0)) i b' m = Ok (i, upd (blk, 0) (CVector v') (without o m)) /\
     vector_wf v' /\ vector_seq v' = <[Z.to_nat i := b']> (vector_seq v)).
Proof using All.
  intros Hapart Hb'. pose proof (vw_inuse _ Hwf). pose proof (vw_bounds _ Hwf).
  assert (m_cells (without o m) !! (blk, 0) = Some (CVector v)) as Hc by (by rewrite without_ne).
  split; [eapply del_element_run|eapply set_element_run]; try done; try lia; apply vector_free_run.
Qed.
End elements.
