(* ===== verification/DictLife.v ===== *)
(** * Construction, clearing and destruction of a dictionary; its keys

    [InitDict] builds the empty dictionary; [DestroyDict] and [ClearDict] free
    every block the dictionary owns, each once, and nothing else;
    [GetDictNElement] and [GetDictKeyv] count and list its keys. *)

From Stdlib Require Import Zdivisibility.
From S2P Require Import Prelude LibC PrimeTable CFloat ImTypes ImHashTable ImTable ImInsert ImVector Beai3Dict DictFacts.

(** ** Releasing the blocks of a range of buckets *)

(** The buckets from [i] on can be released: what they own is there, is not
    the table's block and is owned once. *)
Record releasable (m : mem) (blk : positive) (bs : list im_hash_bucket) (i : nat) : Prop := {
  rl_value p b : (i <= p)%nat -> bs !! p = Some b -> is_live b = true -> is_Some (bucket_value (m_cells m) b);
  rl_apart p b : (i <= p)%nat -> bs !! p = Some b -> owned b <> Some blk;
  rl_unshared p1 p2 b1 b2 q : (i <= p1)%nat -> (i <= p2)%nat -> bs !! p1 = Some b1 -> bs !! p2 = Some b2 ->
    owned b1 = Some q -> owned b2 = Some q -> p1 = p2;
}.

(** [q] is owned by one of the buckets from [i] on. *)
Definition owned_from (bs : list im_hash_bucket) (i : nat) (q : positive) : Prop :=
  exists p b, (i <= p)%nat /\ bs !! p = Some b /\ owned b = Some q.

(** Outside the table's block, what those buckets own is gone and the rest is
    as it was. *)
Record released (m : mem) (blk : positive) (bs : list im_hash_bucket) (i : nat) (m' : mem) : Prop := {
  re_gone k : owned_from bs i k.1 -> m_cells m' !! k = None;
  re_kept k : k.1 <> blk -> ~ owned_from bs i k.1 -> m_cells m' !! k = m_cells m !! k;
  re_next : m_next m' = m_next m;
  re_quota : m_quota m' = m_quota m;
}.

Lemma owned_live b q : owned b = Some q -> is_live b = true.
Proof. unfold owned, is_live, is_free. by destruct (hb_info b). Qed.

Lemma dict_releasable m blk h D : dict m blk h D -> releasable m blk (h_buckets h) 0.
Proof.
  intros Hd. pose proof (d_wf _ _ _ _ Hd) as Hwf.
  assert (forall p b, h_buckets h !! p = Some b -> is_live b = true ->
    table_map h !! key_of (hb_key b) = Some b) as Hk by (intros; by eapply table_map_lookup_live).
  constructor.
  - intros p b _ Hb Hl. eapply (d_some _ _ _ _ Hd). by eapply Hk.
  - intros p b _ Hb Ho. apply (d_apart _ _ _ _ Hd). exists (key_of (hb_key b)), b.
    split; [|done]. eapply Hk; [done|]. by eapply owned_live.
  - intros p1 p2 b1 b2 q _ _ Hb1 Hb2 Ho1 Ho2.
    pose proof (owned_live _ _ Ho1) as Hl1. pose proof (owned_live _ _ Ho2) as Hl2.
    eapply (used_unique h Hwf); [exact Hb1|exact Hb2|by apply is_live_not_empty..|].
    eapply (d_unshared _ _ _ _ Hd); [by eapply Hk|by eapply Hk|done|done].
Qed.

Lemma owned_from_step bs i b q :
  bs !! i = Some b -> owned_from bs i q <-> owned b = Some q \/ owned_from bs (S i) q.
Proof.
  intros Hb. split.
  - intros (p & b' & Hp & Hb' & Ho). destruct (decide (p = i)) as [->|Hne].
    + left. congruence.
    + right. exists p, b'. split_and!; [lia|done|done].
  - intros [Ho|(p & b' & Hp & Hb' & Ho)]; [exists i, b; eauto|exists p, b'; split_and!; [lia|done|done]].
Qed.

Section step.
Context (m : mem) (blk : positive) (bs : list im_hash_bucket) (i : nat) (b : im_hash_bucket).
Hypothesis (Hr : releasable m blk bs i) (Hb : bs !! i = Some b).

(** [free_bucket] of the next bucket, in any table that has it there. *)
Lemma free_step fuel h :
  m_cells m !! (blk, 0) = Some (CHash h) -> h_buckets h !! i = Some b ->
  hashtable_free_bucket (S fuel) (Some (blk, 0)) (Z.of_nat i) m = Ok (tt, without (owned b) m).
Proof using Hb Hr.
  intros Hc Hi. destruct (is_live b) eqn:Hl.
  - destruct (rl_value _ _ _ _ Hr i b) as [v Hv]; [lia|done|done|]. by eapply free_bucket_run.
  - cbn [hashtable_free_bucket]. run (load_hash_run _ _ _ Hc).
    assert (zget (h_buckets h) (Z.of_nat i) = Ok b) as Hg by (apply zget_lookup; [lia|by rewrite Nat2Z.id]).
    run_lift Hg. unfold is_live, is_free, owned in *. by destruct (hb_info b).
Qed.

Lemma without_table : m_cells (without (owned b) m) !! (blk, 0) = m_cells m !! (blk, 0).
Proof using Hb Hr. apply without_ne. by eapply (rl_apart _ _ _ _ Hr). Qed.

(** After it, and after any write to the table itself, the rest can be
    released. *)
Lemma releasable_step m1 :
  (forall k, k.1 <> blk -> m_cells m1 !! k = m_cells (without (owned b) m) !! k) -> releasable m1 blk bs (S i).
Proof using Hb Hr.
  intros H1. destruct Hr as [Hv Ha Hu]. constructor.
  - intros p b' Hp Hb' Hl. rewrite (bucket_value_ext (m_cells m)); [eapply (Hv p); [lia|done|done]|].
    intros q Hq. rewrite H1 by (simpl; intros ->; by apply (Ha p b'); [lia|..]). apply without_ne.
    intros Ho. assert (p = i); [|lia]. by eapply (Hu p i b' b q); [lia|lia|..].
  - intros p b' Hp. apply Ha. lia.
  - intros p1 p2 b1 b2 q Hp1 Hp2. apply Hu; lia.
Qed.

Lemma released_step m1 m' :
  (forall k, k.1 <> blk -> m_cells m1 !! k = m_cells (without (owned b) m) !! k) ->
  m_next m1 = m_next m -> m_quota m1 = m_quota m ->
  released m1 blk bs (S i) m' -> released m blk bs i m'.
Proof using Hb Hr.
  intros H1 Hn Hq [Hg Hk Hn' Hq']. constructor; [..|congruence|congruence].
  - intros k Ho. apply (owned_from_step _ _ _ _ Hb) in Ho as [Ho|Ho]; [|by apply Hg].
    assert (k.1 <> blk) as Hkb by (intros Hk'; apply (rl_apart _ _ _ _ Hr i b); [lia|done|by rewrite Ho, Hk']).
    rewrite Hk, H1; [|done|done|].
    + rewrite Ho. destruct k as [q o]. apply drop_block_eq.
    + intros (p & b' & Hp & Hb' & Ho'). assert (p = i); [|lia].
      by eapply (rl_unshared _ _ _ _ Hr p i b' b k.1); [lia|lia|..].
  - intros k Hkb Hno. rewrite (owned_from_step _ _ _ _ Hb) in Hno. apply Decidable.not_or in Hno as [Ho Hno].
    rewrite Hk, H1 by done. by apply without_ne.
Qed.
End step.

Lemma dict_owned_from m blk h D q : dict m blk h D -> owned_from (h_buckets h) 0 q <-> owns h q.
Proof.
  intros Hd. split.
  - intros (p & b & _ & Hb & Ho). exists (key_of (hb_key b)), b. split; [|done].
    eapply table_map_lookup_live; [apply Hd|done|by eapply owned_live].
  - intros (k & b & Hb & Ho). apply table_map_Some in Hb as (p & Hb & _). exists p, b. split_and!; [lia|done|done].
Qed.

Lemma without_fields o m : m_next (without o m) = m_next m /\ m_quota (without o m) = m_quota m.
Proof. by destruct o. Qed.

Lemma released_nil m blk bs i : (length bs <= i)%nat -> released m blk bs i m.
Proof.
  intros Hi. constructor; try done. intros k (p & b & Hp & Hb & _). apply lookup_lt_Some in Hb. lia.
Qed.

(** ** [DestroyDict] *)

Lemma destroy_loop fuel n m blk h i :
  m_cells m !! (blk, 0) = Some (CHash h) -> releasable m blk (h_buckets h) i ->
  length (h_buckets h) = (i + n)%nat ->
  exists m', for_range n (Z.of_nat i) (hashtable_free_bucket (S fuel) (Some (blk, 0))) m = Ok (tt, m') /\ released m blk (h_buckets h) i m' /\ m_cells m' !! (blk, 0) = Some (CHash h).
Proof.
  revert m i. induction n as [|n IH]; intros m i Hc Hr Hlen.
  - exists m. split; [done|]. split; [apply released_nil; lia|done].
  - destruct (lookup_lt_is_Some_2 (h_buckets h) i) as [b Hb]; [lia|].
    cbn [for_range]. run (free_step m blk _ i b Hr Hb fuel h Hc Hb).
    destruct (without_fields (owned b) m) as [Hn Hq].
    destruct (IH (without (owned b) m) (S i)) as (m' & Hrun & Hre & Hc').
    { by rewrite (without_table m blk _ i b Hr Hb). }
    { by eapply releasable_step. }
    { lia. }
    exists m'. replace (Z.of_nat i + 1) with (Z.of_nat (S i)) by lia. split_and!; [done| |done].
    by eapply released_step.
Qed.

Lemma destroy_run fuel m blk h D :
  dict m blk h D ->
  exists m', DestroyDict (S (S fuel)) (Some (blk, 0)) m = Ok (tt, m') /\ (forall k, k.1 = blk \/ owns h k.1 -> m_cells m' !! k = None) /\ (forall k, k.1 <> blk -> ~ owns h k.1 -> m_cells m' !! k = m_cells m !! k).
Proof.
  intros Hd. pose proof (d_cell _ _ _ _ Hd) as Hc. pose proof (tw_shape _ (d_wf _ _ _ _ Hd)) as Hs.
  pose proof (ts_length _ Hs) as Hlen. pose proof (ts_bounds _ Hs). unfold zlen in Hlen.
  destruct (destroy_loop fuel (length (h_buckets h)) m blk h 0 Hc (dict_releasable _ _ _ _ Hd) eq_refl)
    as (m1 & Hrun & Hre & Hc1).
  assert (forall q, owned_from (h_buckets h) 0 q <-> owns h q) as Hown by (intros q; by eapply dict_owned_from).
  exists (set_cells (drop_block blk) m1). split_and!.
  - unfold DestroyDict, im_destroy_hashtable. cbn [im_destroy_hashtable_with_info].
    run (load_hash_run _ _ _ Hc). rewrite <- Hlen, Nat2Z.id. change 0 with (Z.of_nat 0). run Hrun.
    rewrite bool_decide_eq_true_2 by done. unfold freep. change (Z.of_nat 0 =? 0) with true. cbv iota. by rewrite Hc1.
  - intros [q o] Hk. rewrite m_cells_set. simpl in Hk. destruct (decide (q = blk)) as [->|Hne]; [apply drop_block_eq|].
    rewrite drop_block_ne by done. apply (re_gone _ _ _ _ _ Hre). destruct Hk as [->|Hk]; [done|]. by apply Hown.
  - intros k Hk1 Hk2. rewrite m_cells_set, drop_block_ne by done. apply (re_kept _ _ _ _ _ Hre); [done|].
    by rewrite Hown.
Qed.

(** ** [ClearDict] *)

(** The body of the loop of [im_empty_hashtable]. *)
Definition clear_body (fuel : nat) (hashtable : ptr) (i : Z) : M unit :=
  hashtable_free_bucket fuel hashtable i ;;
  h ← load_hash hashtable;
  b ← lift (zget (h_buckets h) i);
  bs ← lift (zset (h_buckets h) i (set_hb_info IM_EMPTY b));
  store hashtable (CHash (set_h_buckets bs h)).

Lemma clear_loop fuel n blk bs i : forall m h,
  m_cells m !! (blk, 0) = Some (CHash h) -> mem_wf m -> releasable m blk bs i ->
  length (h_buckets h) = (i + n)%nat -> drop i (h_buckets h) = drop i bs ->
  exists m' l, for_range n (Z.of_nat i) (clear_body (S fuel) (Some (blk, 0))) m = Ok (tt, m') /\
    released m blk bs i m' /\ mem_wf m' /\ m_cells m' !! (blk, 0) = Some (CHash (set_h_buckets l h)) /\
    l = take i (h_buckets h) ++ (set_hb_info IM_EMPTY <$> drop i (h_buckets h)).
Proof.
  revert i. induction n as [|n IH]; intros i m h Hc Hm Hr Hlen Hdrop.
  - exists m, (h_buckets h). rewrite take_ge, drop_ge by lia. simpl. rewrite app_nil_r. split_and!; try done.
    + apply released_nil. apply (f_equal length) in Hdrop. rewrite !length_drop in Hdrop. lia.
    + rewrite Hc. by destruct h.
  - destruct (lookup_lt_is_Some_2 (h_buckets h) i) as [b Hb]; [lia|].
    assert (bs !! i = Some b) as Hb'.
    { rewrite <- (Nat.add_0_r i), <- lookup_drop, <- Hdrop, lookup_drop, Nat.add_0_r. done. }
    pose proof (drop_S _ _ _ Hb) as Hd1.
    cbn [for_range]. set (l1 := <[i := set_hb_info IM_EMPTY b]> (h_buckets h)).
    assert (m_cells (without (owned b) m) !! (blk, 0) = Some (CHash h)) as Hc1
      by (by rewrite (without_table m blk bs i b Hr Hb')).
    assert (clear_body (S fuel) (Some (blk, 0)) (Z.of_nat i) m
      = Ok (tt, upd (blk, 0) (CHash (set_h_buckets l1 h)) (without (owned b) m))) as Hbody.
    { unfold clear_body. run (free_step m blk bs i b Hr Hb' fuel h Hc Hb). run (load_hash_run _ _ _ Hc1).
      assert (zget (h_buckets h) (Z.of_nat i) = Ok b) as Hg by (apply zget_lookup; [lia|by rewrite Nat2Z.id]).
      run_lift Hg.
      assert (zset (h_buckets h) (Z.of_nat i) (set_hb_info IM_EMPTY b) = Ok l1) as Hz
        by (rewrite zset_in_range; [by rewrite Nat2Z.id|unfold zlen; lia]).
      run_lift Hz. by rewrite (store_run _ _ _ _ Hc1). }
    run Hbody. set (m1 := upd _ _ _) in *.
    destruct (without_fields (owned b) m) as [Hn Hq].
    assert (forall k, k.1 <> blk -> m_cells m1 !! k = m_cells (without (owned b) m) !! k) as Hm1.
    { intros k Hk. apply upd_other. by intros ->. }
    destruct (IH (S i) m1 (set_h_buckets l1 h)) as (m' & l & Hrun & Hre & Hm' & Hc' & Hl).
    { apply upd_same. }
    { eapply upd_mem_wf; [by apply without_mem_wf|exact Hc1]. }
    { by eapply (releasable_step m blk bs i b). }
    { simpl. unfold l1. rewrite length_insert. lia. }
    { simpl. unfold l1. rewrite drop_insert_lt by lia.
      rewrite <- !(Nat.add_1_r i), <- !drop_drop. by rewrite Hdrop. }
    exists m', l. replace (Z.of_nat i + 1) with (Z.of_nat (S i)) by lia. split_and!; [done| |done|exact Hc'|].
    + by eapply (released_step m blk bs i b).
    + rewrite Hl. simpl. unfold l1. rewrite drop_insert_lt by lia. rewrite Hd1. simpl.
      erewrite take_S_r by (apply list_lookup_insert_eq; lia). rewrite take_insert_ge by lia.
      by rewrite <- app_assoc.
Qed.

Lemma countb_all {A} (f : A -> bool) l : (forall x, x ∈ l -> f x = true) -> countb f l = zlen l.
Proof.
  induction l as [|x l IH]; intros H; [done|]. rewrite countb_cons, zlen_cons, (H x), IH by set_solver. done.
Qed.

Lemma countb_none {A} (f : A -> bool) l : (forall x, x ∈ l -> f x = false) -> countb f l = 0.
Proof.
  induction l as [|x l IH]; intros H; [done|]. rewrite countb_cons, (H x), IH by set_solver. done.
Qed.

(** A table whose buckets are all empty, keys left in them or not. *)
Lemma all_empty_wf h :
  zlen (h_buckets h) = h_number_of_buckets h -> Z.prime (h_number_of_buckets h) ->
  Z.odd (h_number_of_buckets h) = true -> 3 <= h_number_of_buckets h < 268435456 ->
  h_inuse h = 0 -> h_empty h = h_number_of_buckets h ->
  (forall b, b ∈ h_buckets h -> hb_info b = IM_EMPTY) -> table_wf h /\ table_map h = ∅.
Proof.
  intros Hl Hp Ho Hb Hi He Hall. split.
  - constructor; [constructor; try done|].
    + rewrite countb_all; [lia|]. intros b Hin. unfold is_empty. by rewrite Hall.
    + rewrite countb_none; [done|]. intros b Hin. unfold is_live, is_free. by rewrite Hall.
    + lia.
    + intros p b Hin Hne. unfold is_empty in Hne. rewrite Hall in Hne; [done|]. by eapply list_elem_of_lookup_2.
  - apply map_eq. intros k. rewrite lookup_empty. destruct (table_map h !! k) as [b|] eqn:E; [|done].
    apply table_map_Some in E as (p & Hin & Hlive & _). unfold is_live, is_free in Hlive.
    rewrite Hall in Hlive; [done|]. by eapply list_elem_of_lookup_2.
Qed.

Lemma empty_dict m blk h :
  m_cells m !! (blk, 0) = Some (CHash h) -> mem_wf m -> table_wf h -> table_map h = ∅ ->
  0 <= h_attached_offset h -> dict m blk h ∅.
Proof.
  intros Hc Hm Hwf Hmap Ha. constructor; try done.
  - intros k. by rewrite Hmap, !lookup_empty.
  - intros k b Hb. by rewrite Hmap, lookup_empty in Hb.
  - intros (k & b & Hb & _). by rewrite Hmap, lookup_empty in Hb.
  - intros k1 k2 b1 b2 q Hb. by rewrite Hmap, lookup_empty in Hb.
Qed.

Lemma clear_run fuel m blk h D :
  dict m blk h D ->
  exists m' h', ClearDict (S fuel) (Some (blk, 0)) m = Ok (tt, m') /\ dict m' blk h' ∅ /\
    h_number_of_buckets h' = h_number_of_buckets h /\ m_quota m' = m_quota m /\ m_next m' = m_next m /\
    (forall k, owns h k.1 -> m_cells m' !! k = None) /\
    (forall k, k.1 <> blk -> ~ owns h k.1 -> m_cells m' !! k = m_cells m !! k).
Proof.
  intros Hd. pose proof (d_cell _ _ _ _ Hd) as Hc. pose proof (tw_shape _ (d_wf _ _ _ _ Hd)) as Hs.
  pose proof (ts_length _ Hs) as Hlen. pose proof (ts_bounds _ Hs) as Hbd.
  destruct (clear_loop fuel (length (h_buckets h)) blk (h_buckets h) 0 m h Hc (d_mem _ _ _ _ Hd)
    (dict_releasable _ _ _ _ Hd) eq_refl eq_refl) as (m1 & l & Hrun & Hre & Hm1 & Hc1 & Hl).
  simpl in Hl. rewrite drop_0 in Hl. change (Z.of_nat 0) with 0 in Hrun.
  set (h' := set_h_attached (h_attached_size h) 0
    (set_h_empty (h_number_of_buckets h) (set_h_inuse 0 (set_h_buckets l h)))).
  exists (upd (blk, 0) (CHash h') m1), h'. split_and!.
  - unfold ClearDict, im_empty_hashtable. run (load_hash_run _ _ _ Hc).
    replace (Z.to_nat (h_number_of_buckets h)) with (length (h_buckets h)) by (unfold zlen in Hlen; lia).
    fold (clear_body (S fuel) (Some (blk, 0))). run Hrun. run (load_hash_run _ _ _ Hc1).
    by rewrite (store_run _ _ _ _ Hc1).
  - destruct (all_empty_wf h') as [Hwf' Hmap']; try done.
    + simpl. rewrite Hl. unfold zlen in *. by rewrite length_fmap.
    + apply Hs.
    + apply Hs.
    + simpl. rewrite Hl. intros b Hb. by apply list_elem_of_fmap in Hb as (b0 & -> & _).
    + apply empty_dict; try done; [apply upd_same|by eapply upd_mem_wf].
  - done.
  - apply (re_quota _ _ _ _ _ Hre).
  - apply (re_next _ _ _ _ _ Hre).
  - intros k Hk. rewrite upd_other by (intros ->; by apply (d_apart _ _ _ _ Hd)).
    apply (re_gone _ _ _ _ _ Hre). by eapply dict_owned_from.
  - intros k Hk Hno. rewrite upd_other by (by intros ->). apply (re_kept _ _ _ _ _ Hre); [done|].
    by rewrite dict_owned_from.
Qed.

(** ** [InitDict] *)

Lemma init_dict_run capacity m :
  mem_wf m -> 0 <= capacity < 1073741824 -> (1 <= m_quota m)%nat ->
  exists m' h, InitDict capacity m = Ok (Some (m_next m, 0), m') /\ dict m' (m_next m) h ∅ /\
    (2 * capacity < h_number_of_buckets h \/ h_number_of_buckets h = 999983) /\
    (forall q, Z.prime q -> 2 < q -> 2 * capacity < q -> h_number_of_buckets h <= q) /\
    m_quota m' = pred (m_quota m) /\
    (forall k, (k.1 < m_next m)%positive -> m_cells m' !! k = m_cells m !! k).
Proof.
  intros Hm Hc Hq. destruct (bsearch_in_spec prime_number 999983 capacity Hc) as (n & Hn & Hp & Hb & Ho & Hgt & Hleast).
  unfold InitDict. destruct (Z.ltb_spec capacity 0); [lia|].
  rewrite (initialize_run capacity n m Hn) by lia.
  destruct (m_quota m) as [|q]; [lia|]. eexists _, (empty_hashtable n). split; [done|].
  split; [|split; [exact Hgt|split; [exact Hleast|split; [done|]]]].
  - apply empty_dict.
    + apply lookup_insert_eq.
    + intros k c Hk. simpl in *. apply lookup_insert_Some in Hk as [[<- _]|[_ Hk]]; simpl; [lia|].
      apply Hm in Hk. lia.
    + apply empty_hashtable_wf; [done|done|lia].
    + apply empty_hashtable_map.
    + done.
  - intros k Hk. simpl. rewrite lookup_insert_ne; [done|]. intros <-. simpl in Hk. lia.
Qed.

(** ** Counting and listing the keys *)

Lemma dict_size m blk h D : dict m blk h D -> Z.of_nat (size D) = h_inuse h.
Proof.
  intros Hd. rewrite <- (table_map_size h) by apply Hd. f_equal.
  assert (dom D = dom (table_map h)) as He.
  { apply set_eq. intros k. rewrite !elem_of_dom. split.
    - intros [v Hv]. destruct (d_lookup_Some m blk h D Hd _ _ Hv) as (b & Hb & _). eauto.
    - intros [b Hb]. destruct (d_lookup m blk h D Hd _ _ Hb) as (v & _ & Hv). eauto. }
  by rewrite <- !size_dom, He.
Qed.

Lemma keyv_loop_take bs count keyc :
  keyv_loop bs count keyc = take (Z.to_nat (keyc - count)) (hb_key <$> List.filter is_live bs).
Proof.
  revert count. induction bs as [|b bs IH]; intros count; [by destruct (Z.to_nat (keyc - count))|]. cbn [keyv_loop List.filter].
  destruct (Z.ltb_spec count keyc) as [Hlt|Hge].
  - unfold is_live at 1. destruct (is_free b); simpl; [apply IH|].
    replace (Z.to_nat (keyc - count)) with (S (Z.to_nat (keyc - (count + 1)))) by lia. simpl. by rewrite IH.
  - replace (Z.to_nat (keyc - count)) with 0%nat by lia. done.
Qed.

Lemma keyv_run m blk h D keyc :
  dict m blk h D ->
  GetDictKeyv (Some (blk, 0)) keyc m =
    Ok ((Z.min (Z.max 0 keyc) (Z.of_nat (size D)),
         take (Z.to_nat keyc) (hb_key <$> List.filter is_live (h_buckets h))), m).
Proof.
  intros Hd. unfold GetDictKeyv. run (load_hash_run _ _ _ (d_cell _ _ _ _ Hd)).
  pose proof (tw_shape _ (d_wf _ _ _ _ Hd)) as Hs. pose proof (ts_length _ Hs) as Hlen. unfold zlen in Hlen.
  rewrite take_ge by lia. rewrite keyv_loop_take, Z.sub_0_r. unfold mret, M_ret. do 3 f_equal.
  rewrite (dict_size _ _ _ _ Hd), (ts_inuse _ Hs). unfold countb, zlen. rewrite length_take, length_fmap. lia.
Qed.

(** The keys of the live buckets are those of the dictionary, each once. *)
Lemma keyv_keys m blk h D :
  dict m blk h D ->
  NoDup (key_of <$> (hb_key <$> List.filter is_live (h_buckets h))) /\
  (forall k, k ∈ key_of <$> (hb_key <$> List.filter is_live (h_buckets h)) <-> is_Some (D !! k)).
Proof.
  intros Hd. rewrite <- list_fmap_compose. split; [by apply live_keys_distinct, Hd|]. intros k.
  rewrite list_elem_of_fmap. split.
  - intros (b & -> & Hb). apply list_elem_of_In, filter_In in Hb as [Hb Hl].
    apply list_elem_of_In, list_elem_of_lookup in Hb as [p Hp].
    destruct (d_lookup m blk h D Hd (key_of (hb_key b)) b) as (v & _ & Hv); [by eapply table_map_lookup_live; [apply Hd|..]|].
    by exists v.
  - intros [v Hv]. destruct (d_lookup_Some m blk h D Hd _ _ Hv) as (b & Hb & _).
    apply table_map_Some in Hb as (p & Hp & Hl & ->). exists b. split; [done|].
    apply list_elem_of_In, filter_In. split; [|done]. apply list_elem_of_In. by eapply list_elem_of_lookup_2.
Qed.
