(* ===== verification/DictMachine.v ===== *)
(** * The dictionary as an abstract machine

    What an application sees: a sequence of calls on a handle.  The machine of
    the specification has a finite map from keys to values for state and says
    what every call answers; the calls on the handle, in memory, answer the
    same and leave alone everything but the dictionary's own blocks. *)

From Stdlib Require Import Floats.SpecFloat.
From S2P Require Import Prelude LibC CFloat ImTypes ImHashTable ImTable ImInsert Beai3Dict DictFacts DictLife.

(** ** Calls and answers *)

Inductive dict_op : Type :=
  | OpSetInt (key : bytes) (z : Z)
  | OpSetDouble (key : bytes) (f : spec_float)
  | OpSetString (key text : bytes)
  | OpSetBlock (key data : bytes) (size : Z)
  | OpDelete (key : bytes)
  | OpClear
  | OpGetInt (key : bytes)
  | OpGetDouble (key : bytes)
  | OpGetString (key : bytes) (size : Z)
  | OpGetBlock (key : bytes) (size : Z)
  | OpCount.

(** A setter answers whether it succeeded, a getter its code and the value. *)
Inductive dict_reply : Type :=
  | RDone (ok : bool)
  | RInt (r : Z * option Z)
  | RDouble (r : Z * option spec_float)
  | RBytes (r : Z * option bytes)
  | RCount (n : Z).

(** ** The specification *)

Definition spec_op (op : dict_op) (D : gmap bytes dict_value) : outcome (dict_reply * gmap bytes dict_value) :=
  match op with
  | OpSetInt key z => Ok (RDone true, <[key_of key := DInt z]> D)
  | OpSetDouble key f => Ok (RDone true, <[key_of key := DFloat f]> D)
  | OpSetString key text =>
      if zlen (content text) <? VALUE_MAX_LENGTH then Ok (RDone true, <[key_of key := DText (content text ++ [0])]> D)
      else Ok (RDone false, delete (key_of key) D)
  | OpSetBlock key data size =>
      if size <? 0 then Ok (RDone false, D)
      else if size <=? VALUE_MAX_LENGTH then Ok (RDone true, <[key_of key := DBlock (take (Z.to_nat size) data)]> D)
      else Ok (RDone false, delete (key_of key) D)
  | OpDelete key => Ok (RDone (bool_decide (is_Some (D !! key_of key))), delete (key_of key) D)
  | OpClear => Ok (RDone true, ∅)
  | OpGetInt key =>
      r ← number_of_value s32 to_int (λ s, Ok (s32 (atoi s))) (D !! key_of key); Ok (RInt r, D)
  | OpGetDouble key =>
      r ← number_of_value (float_of_Z binary64) (λ f, Ok (float_round binary64 f))
            (λ s, Ok (float_round binary64 (atof s))) (D !! key_of key);
      Ok (RDouble r, D)
  | OpGetString key size =>
      if size <=? 0 then Ok (RBytes (-1, None), D)
      else
        match text_of_value size (D !! key_of key) with
        | None => Ok (RBytes (-1, None), D)
        | Some buf => n ← strlen buf; Ok (RBytes (s32 n, Some buf), D)
        end
  | OpGetBlock key size =>
      if size <=? 0 then Ok (RBytes (-1, None), D)
      else
        match block_of_value size (D !! key_of key) with
        | None => Ok (RBytes (-1, None), D)
        | Some block => Ok (RBytes (zlen block, Some block), D)
        end
  | OpCount => Ok (RCount (Z.of_nat (size D)), D)
  end.

Fixpoint spec_ops (ops : list dict_op) (D : gmap bytes dict_value) : outcome (list dict_reply * gmap bytes dict_value) :=
  match ops with
  | [] => Ok ([], D)
  | op :: ops => r ← spec_op op D; rs ← spec_ops ops r.2; Ok (r.1 :: rs.1, rs.2)
  end.

(** The arguments are what the C types and the callers' duties make them: a
    text is terminated, a block to copy from is as long as said. *)
Definition op_ok (op : dict_op) : Prop :=
  match op with
  | OpSetString _ text => 0 ∈ text
  | OpSetBlock _ data size => size <= zlen data
  | OpGetBlock _ size => size < 2147483648
  | _ => True
  end.

(** ** The implementation *)

Section machine.
(** [junk] is the byte some setters leave uninitialised. *)
Context (junk : Z).

Definition answer {A} (c : M A) (f : A -> dict_reply) (handle : DictHandle) : M (dict_reply * DictHandle) :=
  r ← c; mret (f r, handle).

(** A setter: its code, and the handle it writes back. *)
Definition set_answer (c : M (Z * option DictHandle)) (handle : DictHandle) : M (dict_reply * DictHandle) :=
  r ← c; mret (RDone (0 <=? r.1), default handle r.2).

Definition perform (op : dict_op) (handle : DictHandle) : M (dict_reply * DictHandle) :=
  match op with
  | OpSetInt key z => set_answer (SetDictInt 2 (Some handle) (Some key) z) handle
  | OpSetDouble key f => set_answer (SetDictDouble 2 (Some handle) (Some key) f) handle
  | OpSetString key text => set_answer (SetDictString junk 2 (Some handle) (Some key) (Some text)) handle
  | OpSetBlock key data size => set_answer (SetDictBlock junk 2 (Some handle) (Some key) (Some data) size) handle
  | OpDelete key => answer (DeleteDict 1 handle key) (λ r, RDone (0 <=? r)) handle
  | OpClear => answer (ClearDict 1 handle) (λ _, RDone true) handle
  | OpGetInt key => answer (GetDictInt handle (Some key) true) RInt handle
  | OpGetDouble key => answer (GetDictDouble handle (Some key) true) RDouble handle
  | OpGetString key size => answer (GetDictString handle (Some key) true size) RBytes handle
  | OpGetBlock key size => answer (GetDictBlock handle (Some key) true size) RBytes handle
  | OpCount => answer (GetDictNElement handle) RCount handle
  end.

Fixpoint perform_ops (ops : list dict_op) (handle : DictHandle) : M (list dict_reply * DictHandle) :=
  match ops with
  | [] => mret ([], handle)
  | op :: ops =>
      r ← perform op handle; rs ← perform_ops ops r.2; mret (r.1 :: rs.1, rs.2)
  end.

(** ** One call *)

(** [o] is the answer and the dictionary of the specification, in memory. *)
Definition simulates {A} (m : mem) (blk : positive) (h : im_hashtable)
    (spec : outcome (A * gmap bytes dict_value)) (n : nat) (o : outcome (A * DictHandle * mem)) : Prop :=
  match spec with
  | Ok (r, D') => exists nb m' h', o = Ok ((r, Some (nb, 0)), m') /\ dict m' nb h' D' /\
      frame m blk h m' /\ (nb = blk \/ (m_next m <= nb)%positive) /\
      (forall q, owns h' q -> owns h q \/ (m_next m <= q)%positive) /\
      (m_next m <= m_next m')%positive /\ (m_quota m <= m_quota m' + n)%nat
  | Fault => o = Fault
  | NoFuel => o = NoFuel
  end.

Section call.
Context (m : mem) (blk : positive) (h : im_hashtable) (D : gmap bytes dict_value).
Hypothesis (Hd : dict m blk h D).

Lemma simulates_set ok (b : bool) D' c :
  dict_becomes ok m blk h D' (c m) -> (forall r, ok r -> (0 <=? r) = b) ->
  simulates m blk h (Ok (RDone b, D')) 3 (set_answer c (Some (blk, 0)) m).
Proof using Type.
  intros (r & nb & m' & h' & Hrun & Hok & Hd' & Hs) Hb. exists nb, m', h'. unfold set_answer. run Hrun.
  rewrite <- (Hb r Hok). destruct Hs. by split_and!.
Qed.

Lemma simulates_same {A} (r : A) n o :
  o = Ok ((r, Some (blk, 0)), m) -> simulates m blk h (Ok (r, D)) n o.
Proof using Hd.
  intros ->. exists blk, m, h. split_and!; [done|done|by intros k _ _ _|by left|by left|lia|lia].
Qed.

(** A getter that computes an outcome from the memory as it is. *)
Lemma simulates_get {A} (o : outcome A) f c n :
  c m = lift o m -> simulates m blk h (r ← o; Ok (f r, D)) n (answer c f (Some (blk, 0)) m).
Proof using Hd.
  intros Hc. unfold answer, mbind, M_bind. rewrite Hc. unfold lift. destruct o as [x| |]; [|done|done].
  by apply simulates_same.
Qed.

Lemma simulates_clear : simulates m blk h (Ok (RDone true, ∅)) 3 (perform OpClear (Some (blk, 0)) m).
Proof using Hd.
  destruct (clear_run 0 m blk h D Hd) as (m' & h' & Hrun & Hd' & _ & Hq & Hn & _ & Hfr).
  exists blk, m', h'. unfold perform, answer. run Hrun. split_and!; [done|done| |by left| |lia|lia].
  - intros k Hk Ho _. by apply Hfr.
  - intros q (k & b & Hb & _). destruct (d_lookup _ _ _ _ Hd' _ _ Hb) as (v & _ & Hv). by rewrite lookup_empty in Hv.
Qed.

Lemma simulates_delete key :
  simulates m blk h (spec_op (OpDelete key) D) 3 (perform (OpDelete key) (Some (blk, 0)) m).
Proof using Hd.
  destruct (delete_dict_by_key m blk h D Hd 0 key) as (r & m' & h' & Hrun & Hd' & [Hfr Hnb Ho Hnx Hq] & Hr).
  exists blk, m', h'. unfold perform, answer, DeleteDict. run Hrun. split_and!; try done.
  destruct (D !! key_of key).
  - rewrite bool_decide_eq_true_2 by done. by destruct (Z.leb_spec 0 r); [|lia].
  - by destruct Hr as [-> ->].
Qed.
End call.

Lemma strlen_terminated text : 0 ∈ text -> strlen text = Ok (zlen (content text)).
Proof.
  induction text as [|c text IH]; [by intros ?%not_elem_of_nil|]. intros H. cbn [strlen content].
  destruct (Z.eqb_spec c 0) as [|Hc]; [done|].
  apply elem_of_cons in H as [H|H]; [congruence|]. rewrite IH by done. cbn [mbind outcome_bind]. by rewrite zlen_cons.
Qed.

Section run.
Context (m : mem) (blk : positive) (h : im_hashtable) (D : gmap bytes dict_value).
Hypothesis (Hd : dict m blk h D).

Lemma simulates_set_block key data size :
  size <= zlen data -> 4 * h_inuse h < 999983 -> (3 <= m_quota m)%nat ->
  simulates m blk h (spec_op (OpSetBlock key data size) D) 3 (perform (OpSetBlock key data size) (Some (blk, 0)) m).
Proof using Hd.
  intros Hs Hi Hq. cbn [spec_op perform]. destruct (Z.ltb_spec size 0) as [Hneg|Hpos].
  - apply (simulates_same m blk h D Hd). unfold set_answer, SetDictBlock.
    by destruct (Z.ltb_spec size 0); [|lia].
  - destruct (Z.leb_spec size VALUE_MAX_LENGTH) as [Hle|Hgt].
    + eapply simulates_set; [by apply (set_block_run m blk h D key Hd)|]. intros r Hr. cbn in Hr. by apply Z.leb_le.
    + unfold SetDictBlock. destruct (Z.ltb_spec size 0); [lia|].
      eapply simulates_set; [apply (set_refused_run m blk h D key Hd)|by intros r ->].
      intros m1. by destruct (Z.ltb_spec VALUE_MAX_LENGTH size); [|lia].
Qed.

Lemma simulates_set_string key text :
  0 ∈ text -> 4 * h_inuse h < 999983 -> (3 <= m_quota m)%nat ->
  simulates m blk h (spec_op (OpSetString key text) D) 3 (perform (OpSetString key text) (Some (blk, 0)) m).
Proof using Hd.
  intros Ht Hi Hq. apply strlen_terminated in Ht. cbn [spec_op perform].
  destruct (Z.ltb_spec (zlen (content text)) VALUE_MAX_LENGTH) as [Hlt|Hge].
  - eapply simulates_set; [by eapply (set_string_run m blk h D key Hd)|]. intros r Hr. cbn in Hr. by apply Z.leb_le.
  - eapply simulates_set; [by eapply (set_string_refused m blk h D key Hd)|by intros r ->].
Qed.

Lemma simulates_get_string key size :
  simulates m blk h (spec_op (OpGetString key size) D) 3 (perform (OpGetString key size) (Some (blk, 0)) m).
Proof using Hd.
  cbn [spec_op perform]. destruct (Z.leb_spec size 0) as [Hle|Hgt].
  - apply (simulates_same m blk h D Hd). unfold answer, GetDictString. by destruct (Z.leb_spec size 0); [|lia].
  - pose proof (get_string_run m blk h D Hd key size Hgt) as Hrun.
    destruct (text_of_value size (D !! key_of key)) as [buf|].
    + assert (GetDictString (Some (blk, 0)) (Some key) true size m =
        lift (n ← strlen buf; Ok (s32 n, Some buf)) m) as Hget by (rewrite Hrun; by destruct (strlen buf)).
      pose proof (simulates_get m blk h D Hd _ RBytes _ 3 Hget) as Hsim. by destruct (strlen buf).
    + apply (simulates_same m blk h D Hd). unfold answer. by run Hrun.
Qed.

Lemma perform_simulates op :
  op_ok op -> 4 * h_inuse h < 999983 -> (3 <= m_quota m)%nat ->
  simulates m blk h (spec_op op D) 3 (perform op (Some (blk, 0)) m).
Proof using Hd.
  intros Hop Hi Hq. assert (forall r : Z, 0 <= r -> (0 <=? r) = true) as Hpos by (intros; by apply Z.leb_le).
  destruct op.
  - eapply simulates_set; [by apply (set_scalar_run m blk h D key Hd); [..|lia]|exact Hpos].
  - eapply simulates_set; [by apply (set_scalar_run m blk h D key Hd); [..|lia]|exact Hpos].
  - by apply simulates_set_string.
  - by apply simulates_set_block.
  - by apply simulates_delete.
  - by apply (simulates_clear m blk h D Hd).
  - apply (simulates_get m blk h D Hd _ RInt). exact (get_number_run m blk h D Hd _ _ _ key).
  - apply (simulates_get m blk h D Hd _ RDouble). exact (get_number_run m blk h D Hd _ _ _ key).
  - by apply simulates_get_string.
  - cbn [spec_op perform op_ok] in *. destruct (Z.leb_spec size 0) as [Hle|Hgt].
    + apply (simulates_same m blk h D Hd). unfold answer, GetDictBlock. by destruct (Z.leb_spec size 0); [|lia].
    + pose proof (get_block_run m blk h D Hd key size ltac:(lia)) as Hrun.
      destruct (block_of_value size (D !! key_of key)); apply (simulates_same m blk h D Hd); unfold answer; by run Hrun.
  - assert (GetDictNElement (Some (blk, 0)) m = Ok (Z.of_nat (size D), m)) as Hrun.
    { unfold GetDictNElement. run (load_hash_run _ _ _ (d_cell _ _ _ _ Hd)). pose proof (dict_size _ _ _ _ Hd) as Hs.
      rewrite s32_id by lia. by rewrite Hs. }
    apply (simulates_same m blk h D Hd). unfold perform, answer. by run Hrun.
Qed.
End run.

(** ** A run *)

(** A call adds at most one key. *)
Lemma spec_op_size op D r D' : spec_op op D = Ok (r, D') -> (size D' <= S (size D))%nat.
Proof using Type.
  assert (forall k v, (size (<[k:=v]> D) <= S (size D))%nat) as Hins.
  { intros k v. rewrite map_size_insert. destruct (D !! k); unfold id; lia. }
  assert (forall k, (size (delete k D) <= S (size D))%nat) as Hdel.
  { intros k. rewrite map_size_delete. destruct (D !! k); unfold id; lia. }
  intros H. destruct op; cbn [spec_op] in H; repeat case_match; try ok_inv H; simplify_eq;
    auto; rewrite ?map_size_empty; lia.
Qed.

Lemma perform_ops_simulates ops : forall m blk h D,
  dict m blk h D -> Forall op_ok ops -> 4 * Z.of_nat (size D + length ops) < 999983 ->
  (3 * length ops <= m_quota m)%nat ->
  simulates m blk h (spec_ops ops D) (3 * length ops) (perform_ops ops (Some (blk, 0)) m).
Proof using Type.
  induction ops as [|op ops IH]; intros m blk h D Hd Hops Hsize Hq.
  { by apply simulates_same. }
  inversion_clear Hops as [|? ? Hop Hops']. cbn [spec_ops perform_ops length] in *.
  pose proof (dict_size _ _ _ _ Hd) as Hin.
  pose proof (perform_simulates m blk h D Hd op Hop ltac:(lia) ltac:(lia)) as Hone.
  unfold simulates in Hone. destruct (spec_op op D) as [[r D1]| |] eqn:E; [|unfold mbind, M_bind; by rewrite Hone..].
  destruct Hone as (nb1 & m1 & h1 & Hrun1 & Hd1 & Hfr1 & Hb1 & Ho1 & Hn1 & Hq1).
  apply spec_op_size in E. run Hrun1. cbn [fst snd mbind outcome_bind].
  pose proof (IH m1 nb1 h1 D1 Hd1 Hops' ltac:(lia) ltac:(lia)) as Hrest. unfold simulates in Hrest.
  destruct (spec_ops ops D1) as [[rs D2]| |]; [|unfold mbind, M_bind; by rewrite Hrest..].
  destruct Hrest as (nb2 & m2 & h2 & Hrun2 & Hd2 & Hfr2 & Hb2 & Ho2 & Hn2 & Hq2).
  exists nb2, m2, h2. run Hrun2. split_and!; [done|done| |lia| |lia|lia].
  - intros k Hk Ho Hlt. rewrite Hfr2; [by apply Hfr1| |intros Hc; apply Ho1 in Hc as [?|?]; [done|lia]|lia].
    destruct Hb1 as [->|?]; [done|lia].
  - intros q Hc. apply Ho2 in Hc as [Hc|?]; [|right; lia]. by apply Ho1 in Hc as [?|?]; [left|right; lia].
Qed.
End machine.
