(* ===== verification/ThreadPool.v ===== *)
(** * The thread pool

    [Frame_ThreadPool/C]: the threads of [Call_Addwork_Thread] and
    [Call_Dowork_Thread], the queue between them ([Into_Queue]), and the main
    thread with [threadpool_destroy].  A world is the pool, the memory of the
    list nodes and the place every thread is at; [act] is one action of one
    thread, [None] where the thread has to wait.  The application's [AddWork]
    and [DoWork] are not under the pool: which tasks are handed to
    [Into_Queue], and when, is left open by the actions [Call] and [Return].
    The log macros are left out, and [malloc] of a node is taken to succeed, as
    the code takes it. *)

From S2P Require Import Prelude LibC Buffers.

(** ** The data *)

Inductive tid := Adder (i : nat) | Doer (i : nat).

#[export] Instance tid_eq_dec : EqDecision tid.
Proof. solve_decision. Defined.

Record CList_Task := ListTask { pList_Task : Z; next : Z }.

(** [queue_lock_F] is the thread that holds the mutex.  Who waits for the
    condition variable [queue_ready_F] is told by the threads' places.  The
    threads are numbered, and the arrays of their ids hold the numbers. *)
Record CThread_pool := ThreadPool {
  queue_lock_F : option tid;
  queue_head_F : Z;
  cur_queue_size_F : Z;
  max_thread_num_F : Z;
  add_threadid_F : option (list nat);
  add_thread_num_F : Z;
  do_threadid_F : option (list nat);
  do_thread_num_F : Z;
  shutdown_F : Z
}.

Definition set_lock (l : option tid) (p : CThread_pool) : CThread_pool :=
  ThreadPool l (queue_head_F p) (cur_queue_size_F p) (max_thread_num_F p) (add_threadid_F p) (add_thread_num_F p)
    (do_threadid_F p) (do_thread_num_F p) (shutdown_F p).
Definition set_queue (head size : Z) (p : CThread_pool) : CThread_pool :=
  ThreadPool (queue_lock_F p) head size (max_thread_num_F p) (add_threadid_F p) (add_thread_num_F p)
    (do_threadid_F p) (do_thread_num_F p) (shutdown_F p).
Definition set_threadids (adds dos : option (list nat)) (p : CThread_pool) : CThread_pool :=
  ThreadPool (queue_lock_F p) (queue_head_F p) (cur_queue_size_F p) (max_thread_num_F p) adds (add_thread_num_F p)
    dos (do_thread_num_F p) (shutdown_F p).
Definition set_shutdown (s : Z) (p : CThread_pool) : CThread_pool :=
  ThreadPool (queue_lock_F p) (queue_head_F p) (cur_queue_size_F p) (max_thread_num_F p) (add_threadid_F p) (add_thread_num_F p)
    (do_threadid_F p) (do_thread_num_F p) s.

(** Where a thread that adds tasks is: in the application, or before a
    statement of [Into_Queue] with the task or the node it has. *)
Inductive adder_pc :=
  | A_app
  | A_alloc (task : Z)
  | A_lock (node : Z)
  | A_insert (node : Z)
  | A_unlock
  | A_broadcast
  | A_returned.

(** Where a thread that works is: before a statement of [Call_Dowork_Thread],
    blocked in [pthread_cond_wait], or woken there and taking the mutex
    again. *)
Inductive doer_pc :=
  | D_lock
  | D_test
  | D_wait
  | D_blocked
  | D_woken
  | D_check
  | D_quit
  | D_exited
  | D_take
  | D_unlock (node : Z)
  | D_work (node : Z)
  | D_free (node : Z).

(** Where the main thread is: in [pause], or before a statement of
    [threadpool_destroy]. *)
Inductive main_pc :=
  | M_pause
  | M_checks
  | M_shutdown
  | M_broadcast
  | M_join_add (i : nat)
  | M_join_do (i : nat)
  | M_free_queue
  | M_free_pool
  | M_returned (code : Z).

Record world := World {
  pool : option CThread_pool;
  heap : gmap Z CList_Task;
  adders : list adder_pc;
  doers : list doer_pc;
  main : main_pc
}.

Definition set_pool (p : option CThread_pool) (w : world) : world := World p (heap w) (adders w) (doers w) (main w).
Definition set_heap (h : gmap Z CList_Task) (w : world) : world := World (pool w) h (adders w) (doers w) (main w).
Definition adder_to (i : nat) (pc : adder_pc) (w : world) : world := World (pool w) (heap w) (<[i := pc]> (adders w)) (doers w) (main w).
Definition doer_to (i : nat) (pc : doer_pc) (w : world) : world := World (pool w) (heap w) (adders w) (<[i := pc]> (doers w)) (main w).
Definition main_to (pc : main_pc) (w : world) : world := World (pool w) (heap w) (adders w) (doers w) pc.

(** ** The primitives *)

(** A result of an action: [None] when the thread has to wait. *)
Definition result : Type := option (outcome world).

(** [pthread_mutex_lock], after which the thread is at its next place. *)
Definition lock (me : tid) (after : world -> world) (w : world) : result :=
  match pool w with
  | None => Some Fault
  | Some p =>
      match queue_lock_F p with
      | Some _ => None
      | None => Some (Ok (after (set_pool (Some (set_lock (Some me) p)) w)))
      end
  end.

(** [pthread_mutex_unlock]: undefined unless the thread holds the mutex. *)
Definition unlock (me : tid) (w : world) : outcome world :=
  p ← or_fault (pool w);
  if decide (queue_lock_F p = Some me) then Ok (set_pool (Some (set_lock None p)) w) else Fault.

Definition wake (pc : doer_pc) : doer_pc := match pc with D_blocked => D_woken | _ => pc end.

(** [pthread_cond_broadcast]. *)
Definition broadcast (w : world) : outcome world :=
  _ ← or_fault (pool w);
  Ok (World (pool w) (heap w) (adders w) (wake <$> doers w) (main w)).

(** ** [Into_Queue] *)

(** [while( NULL != pMember->next ) pMember = pMember->next;]. *)
Fixpoint last_member (fuel : nat) (h : gmap Z CList_Task) (pMember : Z) : outcome Z :=
  match fuel with
  | O => NoFuel
  | S fuel =>
      m ← or_fault (h !! pMember);
      if next m =? 0 then Ok pMember else last_member fuel h (next m)
  end.

(** Between the lock and the unlock.  A list in memory has at most as many
    members as the memory has nodes. *)
Definition insert_node (pNewWorker : Z) (w : world) : outcome world :=
  p ← or_fault (pool w);
  q ← (if negb (queue_head_F p =? 0) then
         pMember ← last_member (S (size (heap w))) (heap w) (queue_head_F p);
         m ← or_fault (heap w !! pMember);
         Ok (<[pMember := ListTask (pList_Task m) pNewWorker]> (heap w), queue_head_F p)
       else Ok (heap w, pNewWorker));
  n ← int_range (cur_queue_size_F p + 1);
  Ok (set_heap q.1 (set_pool (Some (set_queue q.2 n p)) w)).

Definition adder_step (i : nat) (pc : adder_pc) (w : world) : result :=
  match pc with
  | A_app | A_alloc _ | A_returned => None
  | A_lock node => lock (Adder i) (adder_to i (A_insert node)) w
  | A_insert node => Some (w ← insert_node node w; Ok (adder_to i A_unlock w))
  | A_unlock => Some (w ← unlock (Adder i) w; Ok (adder_to i A_broadcast w))
  | A_broadcast => Some (w ← broadcast w; Ok (adder_to i A_app w))
  end.

(** ** [Call_Dowork_Thread] *)

Definition take_node (i : nat) (w : world) : outcome world :=
  p ← or_fault (pool w);
  n ← int_range (cur_queue_size_F p - 1);
  let pWorker := queue_head_F p in
  m ← or_fault (heap w !! pWorker);
  Ok (doer_to i (D_unlock pWorker) (set_pool (Some (set_queue (next m) n p)) w)).

Definition doer_step (i : nat) (pc : doer_pc) (w : world) : result :=
  match pc with
  | D_lock | D_woken => lock (Doer i) (doer_to i D_test) w
  | D_test =>
      Some (p ← or_fault (pool w);
            Ok (doer_to i (if (cur_queue_size_F p =? 0) && (shutdown_F p =? 0) then D_wait else D_check) w))
  | D_wait => Some (w ← unlock (Doer i) w; Ok (doer_to i D_blocked w))
  | D_blocked | D_exited => None
  | D_check => Some (p ← or_fault (pool w); Ok (doer_to i (if negb (shutdown_F p =? 0) then D_quit else D_take) w))
  | D_quit => Some (w ← unlock (Doer i) w; Ok (doer_to i D_exited w))
  | D_take => Some (take_node i w)
  | D_unlock node => Some (w ← unlock (Doer i) w; Ok (doer_to i (D_work node) w))
  | D_work node => Some (_ ← or_fault (heap w !! node); Ok (doer_to i (D_free node) w))
  | D_free node => Some (_ ← or_fault (heap w !! node); Ok (doer_to i D_lock (set_heap (delete node (heap w)) w)))
  end.

(** ** [threadpool_destroy] *)

(** [pthread_join] of the thread [ids[i]]: it waits until [ended]. *)
Definition join {A} (ids : option (list nat)) (threads : list A) (ended : A -> bool) (i : nat) (w : world) : result :=
  match ids with
  | None => Some Fault
  | Some ids =>
      match ids !! i with
      | None => Some Fault
      | Some j =>
          match threads !! j with
          | None => Some Fault
          | Some pc => if ended pc then Some (Ok w) else None
          end
      end
  end.

Definition returned (pc : adder_pc) : bool := match pc with A_returned => true | _ => false end.
Definition exited (pc : doer_pc) : bool := match pc with D_exited => true | _ => false end.

(** The checks at the start: what is returned, if anything. *)
Definition destroy_checks (p : CThread_pool) : option Z :=
  if bool_decide (add_threadid_F p = None) || bool_decide (do_threadid_F p = None) then Some (-1)
  else if shutdown_F p =? 1 then Some (-1)
  else if negb (shutdown_F p =? 0) then Some (-1)
  else None.

Definition main_step (w : world) : result :=
  match main w with
  | M_pause | M_returned _ => None
  | M_checks =>
      Some (p ← or_fault (pool w);
            Ok (main_to (match destroy_checks p with Some r => M_returned r | None => M_shutdown end) w))
  | M_shutdown => Some (p ← or_fault (pool w); Ok (main_to M_broadcast (set_pool (Some (set_shutdown 1 p)) w)))
  | M_broadcast => Some (w ← broadcast w; Ok (main_to (M_join_add 0) w))
  | M_join_add i =>
      match pool w with
      | None => Some Fault
      | Some p =>
          if Z.of_nat i <? add_thread_num_F p then join (add_threadid_F p) (adders w) returned i (main_to (M_join_add (S i)) w)
          else Some (Ok (main_to (M_join_do 0) (set_pool (Some (set_threadids None (do_threadid_F p) p)) w)))
      end
  | M_join_do i =>
      match pool w with
      | None => Some Fault
      | Some p =>
          if Z.of_nat i <? do_thread_num_F p then join (do_threadid_F p) (doers w) exited i (main_to (M_join_do (S i)) w)
          else Some (Ok (main_to M_free_queue (set_pool (Some (set_threadids (add_threadid_F p) None p)) w)))
      end
  | M_free_queue =>
      Some (p ← or_fault (pool w);
            if queue_head_F p =? 0 then Ok (main_to M_free_pool w)
            else
              m ← or_fault (heap w !! queue_head_F p);
              Ok (set_heap (delete (queue_head_F p) (heap w)) (set_pool (Some (set_queue (next m) (cur_queue_size_F p) p)) w)))
  | M_free_pool =>
      Some (p ← or_fault (pool w);
            if bool_decide (queue_lock_F p = None) then Ok (main_to (M_returned 0) (set_pool None w)) else Fault)
  end.

(** ** The actions *)

Inductive action :=
  | Call (i : nat) (task : Z)    (* the application calls [Into_Queue] *)
  | Return (i : nat)             (* the application's [AddWork] returns *)
  | Alloc (i : nat) (node : Z)   (* [malloc] gives this node *)
  | Add (i : nat)                (* the next statement of an adder *)
  | Do (i : nat)                 (* the next statement of a doer *)
  | Wakeup (i : nat)             (* [pthread_cond_wait] returns for no reason *)
  | Signal                       (* the main thread receives [SIGTERM] *)
  | Main.                        (* the next statement of [threadpool_destroy] *)

Definition act (a : action) (w : world) : result :=
  match a with
  | Call i task => match adders w !! i with Some A_app => Some (Ok (adder_to i (A_alloc task) w)) | _ => None end
  | Return i => match adders w !! i with Some A_app => Some (Ok (adder_to i A_returned w)) | _ => None end
  | Alloc i node =>
      match adders w !! i with
      | Some (A_alloc task) =>
          if bool_decide (node <> 0 /\ heap w !! node = None) then
            Some (Ok (adder_to i (A_lock node) (set_heap (<[node := ListTask task 0]> (heap w)) w)))
          else None
      | _ => None
      end
  | Add i => pc ← adders w !! i; adder_step i pc w
  | Do i => pc ← doers w !! i; doer_step i pc w
  | Wakeup i => match doers w !! i with Some D_blocked => Some (Ok (doer_to i D_woken w)) | _ => None end
  | Signal => match main w with M_pause => Some (Ok (main_to M_checks w)) | _ => None end
  | Main => main_step w
  end.

(** What an action does to the tasks. *)
Inductive event :=
  | Called (task : Z)   (* handed to [Into_Queue] *)
  | Put (task : Z)      (* linked into the queue *)
  | Take (task : Z)     (* taken from it by a doer *)
  | Done (task : Z)     (* handed to [DoWork_Appliction] *)
  | Drop (task : Z).    (* freed with the queue by [threadpool_destroy] *)

Definition task_of (h : gmap Z CList_Task) (node : Z) : list Z := match h !! node with Some m => [pList_Task m] | None => [] end.

Definition events_of (a : action) (w : world) : list event :=
  match a with
  | Call i task => [Called task]
  | Add i => match adders w !! i with Some (A_insert node) => Put <$> task_of (heap w) node | _ => [] end
  | Do i =>
      match doers w !! i with
      | Some D_take => match pool w with Some p => Take <$> task_of (heap w) (queue_head_F p) | None => [] end
      | Some (D_work node) => Done <$> task_of (heap w) node
      | _ => []
      end
  | Main =>
      match main w, pool w with
      | M_free_queue, Some p => if queue_head_F p =? 0 then [] else Drop <$> task_of (heap w) (queue_head_F p)
      | _, _ => []
      end
  | _ => []
  end.

Inductive run : world -> list event -> world -> Prop :=
  | run_nil w : run w [] w
  | run_step w a w1 tr w2 : act a w = Some (Ok w1) -> run w1 tr w2 -> run w (events_of a w ++ tr) w2.

(** The run of given actions: its events and the world it ends in. *)
Fixpoint perform_actions (l : list action) (w : world) : option (list event * world) :=
  match l with
  | [] => Some ([], w)
  | a :: l =>
      match act a w with
      | Some (Ok w1) => r ← perform_actions l w1; Some (events_of a w ++ r.1, r.2)
      | _ => None
      end
  end.

(** ** [ThreadPool_Init] *)

(** [malloc] of an array for [n] threads, filled in by [pthread_create]; the
    size of a negative number of elements cannot be allocated. *)
Definition create_threads (n : Z) : option (list nat) := if n <? 0 then None else Some (seq 0 (Z.to_nat n)).

(** [FunctionName_Addwork] and [FunctionName_Dowork] may be [NULL];
    [iMutex] and [iCond] are what the two initialisations return. *)
Definition ThreadPool_Init (iMutex iCond : Z) (addwork_thread_num : Z) (FunctionName_Addwork : bool)
    (dowork_thread_num : Z) (FunctionName_Dowork : bool) : option world :=
  if negb FunctionName_Addwork then None
  else if negb FunctionName_Dowork then None
  else if 0 =? addwork_thread_num then None
  else if 0 =? addwork_thread_num then None
  else if negb (0 =? iMutex) then None
  else if negb (0 =? iCond) then None
  else
    let p := ThreadPool None 0 0 (addwork_thread_num + dowork_thread_num) (create_threads addwork_thread_num) addwork_thread_num
               (create_threads dowork_thread_num) dowork_thread_num 0 in
    Some (World (Some p) ∅ (replicate (Z.to_nat addwork_thread_num) A_app) (replicate (Z.to_nat dowork_thread_num) D_lock) M_pause).
