(* ===== verification/ThreadPoolFacts.v ===== *)
(** * The invariant of the thread pool

    What holds in every world a pool goes through: who holds the mutex, what
    the threads know of the queue, that the nodes in memory are those of the
    queue and those in the hands of a thread, and that no doer sleeps over a
    task that nobody announces.  Every action keeps it. *)

From S2P Require Import Prelude LibC Buffers ThreadPool.

(** ** Lists of threads *)

Section threads.
Context {A : Type} (f : A -> option Z).

Lemma omap_insert_same (l : list A) i x y : l !! i = Some x -> f y = f x -> omap f (<[i := y]> l) = omap f l.
Proof.
  revert i. induction l as [|a l IH]; intros [|i] Hi Hf; simplify_eq/=; [by rewrite Hf|].
  by rewrite (IH i Hi Hf).
Qed.

Lemma omap_delete (l : list A) i x : l !! i = Some x -> omap f l ≡ₚ option_list (f x) ++ omap f (delete i l).
Proof.
  revert i. induction l as [|a l IH]; intros [|i] Hi; simplify_eq/=; [by destruct (f x)|].
  specialize (IH i Hi). destruct (f a), (f x); simpl in *; rewrite IH; try done. apply Permutation_swap.
Qed.

Lemma omap_insert_delete (l : list A) i x y : l !! i = Some x -> omap f (<[i := y]> l) ≡ₚ option_list (f y) ++ omap f (delete i l).
Proof.
  revert i. induction l as [|a l IH]; intros [|i] Hi; simplify_eq/=; [by destruct (f y)|].
  specialize (IH i Hi). destruct (f a), (f y); simpl in *; rewrite IH; try done. apply Permutation_swap.
Qed.
End threads.

(** ** The queue in memory *)

Fixpoint chain (h : gmap Z CList_Task) (p : Z) (qs : list Z) : Prop :=
  match qs with
  | [] => p = 0
  | q :: qs => p = q /\ q <> 0 /\ exists m, h !! q = Some m /\ chain h (next m) qs
  end.

Lemma chain_frame h h' qs : forall p, chain h p qs -> (forall q, q ∈ qs -> h' !! q = h !! q) -> chain h' p qs.
Proof.
  induction qs as [|q qs IH]; intros p Hc Hh; [done|]. destruct Hc as (-> & Hq & m & Hm & Hc).
  split_and!; [done|done|]. exists m. split; [rewrite Hh by (by left); done|].
  apply IH; [done|]. intros q' Hq'. apply Hh. by right.
Qed.

Lemma last_member_run h l : forall qs p fuel,
  chain h p (qs ++ [l]) -> (length qs < fuel)%nat -> last_member fuel h p = Ok l.
Proof.
  intros qs. induction qs as [|q qs IH]; intros p [|fuel] Hc Hf; try (simpl in Hf; lia); destruct Hc as (-> & Hq & m & Hm & Hc);
    cbn [last_member]; rewrite Hm; cbn [or_fault mbind outcome_bind].
  - simpl in Hc. by rewrite Hc.
  - destruct (Z.eqb_spec (next m) 0) as [E|E]; [|apply IH; [done|simpl in Hf; lia]].
    destruct qs; simpl in Hc; destruct Hc as (E' & H0 & _); congruence.
Qed.

Lemma chain_snoc h n t : forall qs p l m,
  chain h p (qs ++ [l]) -> NoDup (qs ++ [l; n]) -> h !! l = Some m -> n <> 0 -> h !! n = Some (ListTask t 0) ->
  chain (<[l := ListTask (pList_Task m) n]> h) p (qs ++ [l; n]).
Proof.
  induction qs as [|q qs IH]; intros p l m Hc Hnd Hl Hn Ht.
  - destruct Hc as (-> & H0 & _). apply NoDup_cons in Hnd as [Hln _]. split_and!; [done|done|].
    exists (ListTask (pList_Task m) n). split; [apply lookup_insert_eq|]. split_and!; [done|done|].
    exists (ListTask t 0). split; [|done]. rewrite lookup_insert_ne; [done|]. set_solver.
  - destruct Hc as (-> & H0 & m' & Hm' & Hc). apply NoDup_cons in Hnd as [Hq Hnd].
    split_and!; [done|done|]. exists m'. split; [rewrite lookup_insert_ne; [done|set_solver]|]. by apply IH.
Qed.

(** ** The invariant *)

Definition adder_ok (p : CThread_pool) (i : nat) (pc : adder_pc) : Prop :=
  match pc with
  | A_insert _ | A_unlock => queue_lock_F p = Some (Adder i)
  | _ => queue_lock_F p <> Some (Adder i)
  end.

Definition doer_ok (p : CThread_pool) (i : nat) (pc : doer_pc) : Prop :=
  match pc with
  | D_test | D_unlock _ => queue_lock_F p = Some (Doer i)
  | D_wait => queue_lock_F p = Some (Doer i) /\ cur_queue_size_F p = 0
  | D_check => queue_lock_F p = Some (Doer i) /\ (cur_queue_size_F p <> 0 \/ shutdown_F p <> 0)
  | D_take => queue_lock_F p = Some (Doer i) /\ cur_queue_size_F p <> 0
  | D_quit => queue_lock_F p = Some (Doer i) /\ shutdown_F p <> 0
  | D_exited => queue_lock_F p <> Some (Doer i) /\ shutdown_F p <> 0
  | _ => queue_lock_F p <> Some (Doer i)
  end.

Definition adders_ok (p : CThread_pool) (ads : list adder_pc) : Prop := forall i pc, ads !! i = Some pc -> adder_ok p i pc.
Definition doers_ok (p : CThread_pool) (ds : list doer_pc) : Prop := forall i pc, ds !! i = Some pc -> doer_ok p i pc.

(** The holder of the mutex is a thread of the pool. *)
Definition holder_ok (p : CThread_pool) (ads : list adder_pc) (ds : list doer_pc) : Prop :=
  match queue_lock_F p with
  | None => True
  | Some (Adder i) => (i < length ads)%nat
  | Some (Doer i) => (i < length ds)%nat
  end.

(** The node in the hands of a thread. *)
Definition adder_node (pc : adder_pc) : option Z := match pc with A_lock n | A_insert n => Some n | _ => None end.
Definition doer_node (pc : doer_pc) : option Z := match pc with D_unlock n | D_work n | D_free n => Some n | _ => None end.

Definition nodes (h : gmap Z CList_Task) : list Z := (map_to_list h).*1.

(** The queue is the list [qs]; it and the nodes in hands are the memory. *)
Definition queue_is (p : CThread_pool) (h : gmap Z CList_Task) (ads : list adder_pc) (ds : list doer_pc) (qs : list Z) : Prop :=
  chain h (queue_head_F p) qs /\ cur_queue_size_F p = zlen qs /\
  nodes h ≡ₚ qs ++ omap adder_node ads ++ omap doer_node ds.

Definition mem_ok (p : CThread_pool) (h : gmap Z CList_Task) (ads : list adder_pc) (ds : list doer_pc) : Prop :=
  (exists qs, queue_is p h ads ds qs) /\ h !! 0 = None /\
  Forall (λ n, exists t, h !! n = Some (ListTask t 0)) (omap adder_node ads) /\ cur_queue_size_F p <= 2147483647.

(** A doer that sleeps over a task is about to be woken. *)
Definition announces (pc : adder_pc) : Prop := pc = A_unlock \/ pc = A_broadcast.
Definition wakes_ok (p : CThread_pool) (ads : list adder_pc) (ds : list doer_pc) : Prop :=
  cur_queue_size_F p <> 0 -> (exists i, ds !! i = Some D_blocked) -> exists j pc, ads !! j = Some pc /\ announces pc.

(** The thread arrays before they are freed. *)
Definition add_ids (p : CThread_pool) : Prop := add_threadid_F p = create_threads (add_thread_num_F p).
Definition do_ids (p : CThread_pool) : Prop := do_threadid_F p = create_threads (do_thread_num_F p).

Definition returned_below (i : nat) (ads : list adder_pc) : Prop := forall j, (j < i)%nat -> ads !! j = Some A_returned.
Definition exited_below (i : nat) (ds : list doer_pc) : Prop := forall j, (j < i)%nat -> ds !! j = Some D_exited.

Definition main_ok (p : CThread_pool) (ads : list adder_pc) (ds : list doer_pc) (m : main_pc) : Prop :=
  match m with
  | M_pause | M_checks => shutdown_F p = 0 /\ add_ids p /\ do_ids p
  | M_returned c => c = -1 /\ shutdown_F p = 0 /\ add_ids p /\ do_ids p
  | M_shutdown => shutdown_F p = 0 /\ add_ids p /\ do_ids p /\ 0 <= add_thread_num_F p /\ 0 <= do_thread_num_F p
  | M_broadcast => shutdown_F p = 1 /\ add_ids p /\ do_ids p /\ 0 <= add_thread_num_F p /\ 0 <= do_thread_num_F p
  | M_join_add i => shutdown_F p = 1 /\ add_ids p /\ do_ids p /\ 0 <= add_thread_num_F p /\ 0 <= do_thread_num_F p /\
      returned_below i ads /\ (i <= length ads)%nat
  | M_join_do i => shutdown_F p = 1 /\ do_ids p /\ 0 <= do_thread_num_F p /\ returned_below (length ads) ads /\
      exited_below i ds /\ (i <= length ds)%nat
  | M_free_queue | M_free_pool => False
  end.

Definition counts_ok (p : CThread_pool) (ads : list adder_pc) (ds : list doer_pc) : Prop :=
  length ads = Z.to_nat (add_thread_num_F p) /\ length ds = Z.to_nat (do_thread_num_F p).

Record pool_ok (p : CThread_pool) (h : gmap Z CList_Task) (ads : list adder_pc) (ds : list doer_pc) (m : main_pc) : Prop := PoolOk {
  ok_adders : adders_ok p ads;
  ok_doers : doers_ok p ds;
  ok_holder : holder_ok p ads ds;
  ok_mem : mem_ok p h ads ds;
  ok_wakes : wakes_ok p ads ds;
  ok_main : main_ok p ads ds m;
  ok_counts : counts_ok p ads ds
}.

(** The main thread frees what is left of the queue. *)
Definition closing_ok (p : CThread_pool) (h : gmap Z CList_Task) (ads : list adder_pc) (ds : list doer_pc) (m : main_pc) : Prop :=
  queue_lock_F p = None /\ returned_below (length ads) ads /\ exited_below (length ds) ds /\
  (exists qs, chain h (queue_head_F p) qs /\ nodes h ≡ₚ qs) /\ (m = M_free_queue \/ m = M_free_pool /\ queue_head_F p = 0).

Definition pool_inv (w : world) : Prop :=
  match pool w with
  | Some p =>
      pool_ok p (heap w) (adders w) (doers w) (main w) \/ closing_ok p (heap w) (adders w) (doers w) (main w)
  | None => main w = M_returned 0 /\ heap w = ∅ /\ returned_below (length (adders w)) (adders w) /\
      exited_below (length (doers w)) (doers w)
  end.

(** ** What the step of one thread leaves alone *)

Lemma set_lock_same p : set_lock (queue_lock_F p) p = p.
Proof. by destruct p. Qed.

Lemma adders_frame p p' ads :
  adders_ok p ads -> (forall j, queue_lock_F p' = Some (Adder j) <-> queue_lock_F p = Some (Adder j)) -> adders_ok p' ads.
Proof. intros Ha Hl i pc Hi. specialize (Ha i pc Hi). destruct pc; simpl in *; by rewrite Hl. Qed.

Lemma adders_to p p' ads i pc :
  adders_ok p ads -> adder_ok p' i pc -> (forall j, j <> i -> queue_lock_F p' = Some (Adder j) <-> queue_lock_F p = Some (Adder j)) ->
  adders_ok p' (<[i := pc]> ads).
Proof.
  intros Ha Hpc Hl j pc' Hj. apply list_lookup_insert_Some in Hj as [(-> & -> & _) | [Hne Hj]]; [done|].
  specialize (Ha j pc' Hj). destruct pc'; simpl in *; rewrite Hl; done.
Qed.

(** What a doer knows stays true while the others do not touch the queue. *)
Lemma doer_frame p p' j pc :
  doer_ok p j pc -> (queue_lock_F p' = Some (Doer j) <-> queue_lock_F p = Some (Doer j)) ->
  (queue_lock_F p = Some (Doer j) -> cur_queue_size_F p' = cur_queue_size_F p) ->
  (shutdown_F p <> 0 -> shutdown_F p' <> 0) -> doer_ok p' j pc.
Proof. intros Hd Hl Hs Hsh. destruct pc; simpl in *; rewrite ?Hl; try destruct Hd as [Hk Hd]; rewrite ?Hs by done; tauto. Qed.

Lemma doers_frame p p' ds :
  doers_ok p ds -> (forall j, queue_lock_F p' = Some (Doer j) <-> queue_lock_F p = Some (Doer j)) ->
  (forall j, queue_lock_F p = Some (Doer j) -> cur_queue_size_F p' = cur_queue_size_F p) ->
  (shutdown_F p <> 0 -> shutdown_F p' <> 0) -> doers_ok p' ds.
Proof. intros Hd Hl Hs Hsh j pc Hj. apply (doer_frame p); [by apply Hd|apply Hl|apply Hs|done]. Qed.

Lemma doers_to p p' ds i pc :
  doers_ok p ds -> doer_ok p' i pc -> (forall j, j <> i -> queue_lock_F p' = Some (Doer j) <-> queue_lock_F p = Some (Doer j)) ->
  (forall j, j <> i -> queue_lock_F p = Some (Doer j) -> cur_queue_size_F p' = cur_queue_size_F p) ->
  (shutdown_F p <> 0 -> shutdown_F p' <> 0) -> doers_ok p' (<[i := pc]> ds).
Proof.
  intros Hd Hpc Hl Hs Hsh j pc' Hj. apply list_lookup_insert_Some in Hj as [(-> & -> & _) | [Hne Hj]]; [done|].
  apply (doer_frame p); [by apply Hd|by apply Hl|by apply Hs|done].
Qed.

Lemma returned_to k ads i pc pc' :
  returned_below k ads -> ads !! i = Some pc -> pc <> A_returned -> returned_below k (<[i := pc']> ads).
Proof.
  intros Hr Hi Hpc j Hj. specialize (Hr j Hj). destruct (decide (i = j)) as [->|Hne]; [congruence|].
  by rewrite list_lookup_insert_ne.
Qed.

Lemma exited_to k ds i pc pc' :
  exited_below k ds -> ds !! i = Some pc -> pc <> D_exited -> exited_below k (<[i := pc']> ds).
Proof.
  intros Hr Hi Hpc j Hj. specialize (Hr j Hj). destruct (decide (i = j)) as [->|Hne]; [congruence|].
  by rewrite list_lookup_insert_ne.
Qed.

Lemma main_adder p ads ds m i pc pc' :
  main_ok p ads ds m -> ads !! i = Some pc -> pc <> A_returned -> main_ok p (<[i := pc']> ads) ds m.
Proof.
  intros Hm Hi Hpc. destruct m; simpl in *; rewrite ?length_insert; intuition eauto using returned_to.
Qed.

Lemma main_doer p ads ds m i pc pc' :
  main_ok p ads ds m -> ds !! i = Some pc -> pc <> D_exited -> main_ok p ads (<[i := pc']> ds) m.
Proof.
  intros Hm Hi Hpc. destruct m; simpl in *; rewrite ?length_insert; intuition eauto using exited_to.
Qed.

(** The members [main_ok] looks at. *)
Lemma main_frame p p' ads ds m :
  main_ok p ads ds m -> shutdown_F p' = shutdown_F p -> add_threadid_F p' = add_threadid_F p -> do_threadid_F p' = do_threadid_F p ->
  add_thread_num_F p' = add_thread_num_F p -> do_thread_num_F p' = do_thread_num_F p -> main_ok p' ads ds m.
Proof.
  intros Hm E1 E2 E3 E4 E5. unfold main_ok, add_ids, do_ids in *.
  destruct m; rewrite ?E1, ?E2, ?E3, ?E4, ?E5; done.
Qed.

Lemma wakes_adder p p' ads ds i pc pc' :
  wakes_ok p ads ds -> ads !! i = Some pc -> (announces pc -> announces pc') -> cur_queue_size_F p' = cur_queue_size_F p ->
  wakes_ok p' (<[i := pc']> ads) ds.
Proof.
  intros Hw Hi Ha E Hs Hb. rewrite E in Hs. destruct (Hw Hs Hb) as (j & pcj & Hj & Hpc).
  destruct (decide (i = j)) as [->|Hne].
  - exists j, pc'. rewrite list_lookup_insert_eq by (eapply lookup_lt_Some; eassumption). split; [done|]. apply Ha. congruence.
  - exists j, pcj. by rewrite list_lookup_insert_ne.
Qed.

Lemma wakes_doer p p' ads ds i pc :
  wakes_ok p ads ds -> (pc = D_blocked -> cur_queue_size_F p' = 0) -> (cur_queue_size_F p' <> 0 -> cur_queue_size_F p <> 0) ->
  wakes_ok p' ads (<[i := pc]> ds).
Proof.
  intros Hw Hpc Hs Hs' (j & Hj). apply list_lookup_insert_Some in Hj as [(_ & -> & _) | [Hne Hj]].
  - by rewrite Hpc in Hs'.
  - apply Hw; eauto.
Qed.

Lemma holder_frame p p' ads ads' ds ds' :
  holder_ok p ads ds -> length ads' = length ads -> length ds' = length ds ->
  (forall t, queue_lock_F p' = Some t -> queue_lock_F p = Some t \/
     match t with Adder i => (i < length ads)%nat | Doer i => (i < length ds)%nat end) -> holder_ok p' ads' ds'.
Proof.
  intros Hh E1 E2 Hl. unfold holder_ok in *. destruct (queue_lock_F p') as [t|]; [|done].
  destruct (Hl t eq_refl) as [Ht|Ht]; [|by rewrite E1, E2]. rewrite Ht in Hh. by rewrite E1, E2.
Qed.

(** A statement of an adder that changes at most the mutex. *)
Lemma adder_move p h ads ds m i pc pc' l :
  pool_ok p h ads ds m -> ads !! i = Some pc -> adder_ok (set_lock l p) i pc' ->
  (forall t, t <> Adder i -> l = Some t <-> queue_lock_F p = Some t) ->
  adder_node pc' = adder_node pc -> pc <> A_returned -> wakes_ok p (<[i := pc']> ads) ds ->
  pool_ok (set_lock l p) h (<[i := pc']> ads) ds m.
Proof.
  intros [Ha Hd Hh Hm Hw Hmain Hc] Hi Hpc Hl Hn Hr Han. pose proof (lookup_lt_Some _ _ _ Hi) as Hlt. split.
  - apply (adders_to p); [done|done|]. intros j Hj. apply Hl. congruence.
  - apply (doers_frame p); [done| |done|done]. intros j. by apply Hl.
  - apply (holder_frame p _ ads _ ds); [done|apply length_insert|done|]. intros t Ht. simpl in Ht.
    destruct (decide (t = Adder i)) as [->|Hne]; [by right|left; by apply Hl].
  - unfold mem_ok, queue_is in *. rewrite (omap_insert_same adder_node ads i pc pc') by done. exact Hm.
  - exact Han.
  - apply (main_adder _ _ _ _ _ pc); [exact Hmain|done|done].
  - unfold counts_ok in *. by rewrite length_insert.
Qed.

(** A statement of a doer that changes at most the mutex. *)
Lemma doer_move p h ads ds m i pc pc' l :
  pool_ok p h ads ds m -> ds !! i = Some pc -> doer_ok (set_lock l p) i pc' ->
  (forall t, t <> Doer i -> l = Some t <-> queue_lock_F p = Some t) ->
  doer_node pc' = doer_node pc -> pc <> D_exited -> (pc' = D_blocked -> cur_queue_size_F p = 0) ->
  pool_ok (set_lock l p) h ads (<[i := pc']> ds) m.
Proof.
  intros [Ha Hd Hh Hm Hw Hmain Hc] Hi Hpc Hl Hn Hr Han. pose proof (lookup_lt_Some _ _ _ Hi) as Hlt. split.
  - apply (adders_frame p); [done|]. intros j. by apply Hl.
  - apply (doers_to p); [done|done| |done|done]. intros j Hj. apply Hl. congruence.
  - apply (holder_frame p _ ads _ ds); [done|done|apply length_insert|]. intros t Ht. simpl in Ht.
    destruct (decide (t = Doer i)) as [->|Hne]; [by right|left; by apply Hl].
  - unfold mem_ok, queue_is in *. rewrite (omap_insert_same doer_node ds i pc pc') by done. exact Hm.
  - by apply (wakes_doer p).
  - apply (main_doer _ _ _ _ _ pc); [exact Hmain|done|done].
  - unfold counts_ok in *. by rewrite length_insert.
Qed.

(** ** The nodes in memory *)

Lemma elem_nodes h n : n ∈ nodes h <-> is_Some (h !! n).
Proof.
  unfold nodes. rewrite list_elem_of_fmap. split.
  - intros ([k m] & -> & Hk). exists m. by apply elem_of_map_to_list.
  - intros [m Hm]. exists (n, m). split; [done|]. by apply elem_of_map_to_list.
Qed.

Lemma nodes_nodup h : NoDup (nodes h).
Proof. apply NoDup_fst_map_to_list. Qed.

Lemma nodes_size h : length (nodes h) = size h.
Proof. unfold nodes. by rewrite length_fmap, length_map_to_list. Qed.

Lemma nodes_insert h n m : h !! n = None -> nodes (<[n := m]> h) ≡ₚ n :: nodes h.
Proof. intros Hn. unfold nodes. by rewrite map_to_list_insert. Qed.

Lemma nodes_delete h n m : h !! n = Some m -> nodes h ≡ₚ n :: nodes (delete n h).
Proof. intros Hn. unfold nodes. by rewrite <- (map_to_list_delete h n m Hn). Qed.

Lemma nodes_update h n m m' : h !! n = Some m -> nodes (<[n := m']> h) ≡ₚ nodes h.
Proof.
  intros Hn. rewrite (nodes_delete h n m Hn), <- insert_delete_eq, nodes_insert; [done|]. apply lookup_delete_eq.
Qed.

Lemma chain_ext p h h' qs : chain h p qs -> (forall q, q ∈ qs -> h' !! q = h !! q) -> chain h' p qs.
Proof. intros. by eapply chain_frame. Qed.

(** An adder gets its node. *)
Lemma alloc_ok p h ads ds m i task n :
  pool_ok p h ads ds m -> ads !! i = Some (A_alloc task) -> n <> 0 -> h !! n = None ->
  pool_ok p (<[n := ListTask task 0]> h) (<[i := A_lock n]> ads) ds m.
Proof.
  intros [Ha Hd Hh Hm Hw Hmain Hc] Hi Hn Hf. split.
  - apply (adders_to p); [done|exact (Ha i _ Hi)|done].
  - done.
  - apply (holder_frame p _ ads _ ds); [done|apply length_insert|done|by left].
  - destruct Hm as ((qs & Hch & Hs & Hp) & H0 & Hz & Hmax).
    assert (forall q, q ∈ nodes h -> <[n := ListTask task 0]> h !! q = h !! q) as Hne.
    { intros q Hq%elem_nodes. apply lookup_insert_ne. intros <-. destruct Hq; congruence. }
    assert (forall q, q ∈ qs ++ omap adder_node ads ++ omap doer_node ds -> <[n := ListTask task 0]> h !! q = h !! q) as Hne'.
    { intros q Hq. apply Hne. by rewrite Hp. }
    split_and!; [|by rewrite lookup_insert_ne| |done].
    + exists qs. split_and!; [apply (chain_ext _ h); [done|]; intros q Hq; apply Hne'; set_solver|done|].
      rewrite nodes_insert by done. rewrite (omap_insert_delete _ ads i _ (A_lock n) Hi), Hp, (omap_delete _ ads i _ Hi).
      simpl. apply Permutation_middle.
    + rewrite (omap_insert_delete _ ads i _ (A_lock n) Hi). simpl. constructor; [exists task; apply lookup_insert_eq|].
      rewrite (omap_delete _ ads i _ Hi) in Hz. simpl in Hz. rewrite Forall_forall in Hz |- *. intros q Hq.
      destruct (Hz q Hq) as (t & Ht). exists t. rewrite Hne; [done|]. apply elem_nodes. eauto.
  - by apply (wakes_adder p _ _ _ _ (A_alloc task)); [| |intros [|]|].
  - by apply (main_adder _ _ _ _ _ (A_alloc task)).
  - unfold counts_ok in *. by rewrite length_insert.
Qed.

Lemma chain_unique h : forall qs p qs', chain h p qs -> chain h p qs' -> qs = qs'.
Proof.
  induction qs as [|q qs IH]; intros p [|q' qs'] H H'; try done.
  - destruct H' as (E & H0 & _). simpl in H. congruence.
  - destruct H as (E & H0 & _). simpl in H'. congruence.
  - destruct H as (-> & H0 & m & Hm & H). destruct H' as (-> & _ & m' & Hm' & H').
    assert (m' = m) as -> by congruence. f_equal. by apply (IH (next m)).
Qed.

(** Linking a node at the end of the queue: what the code computes, and the
    queue it leaves. *)
Lemma link_run p h ads ds qs i n :
  queue_is p h ads ds qs -> h !! 0 = None -> ads !! i = Some (A_insert n) -> (exists t, h !! n = Some (ListTask t 0)) ->
  exists h' head',
    (forall w, pool w = Some p -> heap w = h -> insert_node n w =
      (k ← int_range (cur_queue_size_F p + 1); Ok (set_heap h' (set_pool (Some (set_queue head' k p)) w)))) /\
    chain h' head' (qs ++ [n]) /\ (forall q, pList_Task <$> h' !! q = pList_Task <$> h !! q) /\
    nodes h' ≡ₚ nodes h /\ (forall q, q ∉ qs -> h' !! q = h !! q).
Proof.
  intros (Hch & Hs & Hp) H0 Hi (t & Ht). assert (n <> 0) as Hn by congruence.
  destruct qs as [|l qs] using rev_ind; [|clear IHqs].
  - simpl in Hch. exists h, n.
    refine (conj _ (conj (conj eq_refl (conj Hn (ex_intro _ _ (conj Ht eq_refl)))) (conj _ (conj _ _)))); [|done|done|done].
    intros w Ep Eh. unfold insert_node. rewrite Ep. cbn [or_fault mbind outcome_bind]. rewrite Hch, <- Eh. done.
  - assert (l ∈ nodes h) as Hl by (rewrite Hp; set_solver). apply elem_nodes in Hl as [m Hm].
    exists (<[l := ListTask (pList_Task m) n]> h), (queue_head_F p).
    pose proof (nodes_nodup h) as Hnd. rewrite Hp in Hnd.
    assert (length qs < S (size h))%nat as Hlen.
    { rewrite <- nodes_size, Hp. rewrite !length_app. simpl. lia. }
    assert (NoDup (qs ++ [l; n])) as Hnd'.
    { change [l; n] with ([l] ++ [n]). rewrite app_assoc. apply NoDup_app in Hnd as (Hnd & Hx & _). apply NoDup_app.
      split_and!; [done| |apply NoDup_singleton]. intros x Hxq ->%list_elem_of_singleton. apply (Hx n Hxq).
      rewrite (omap_delete _ ads i _ Hi). simpl. set_solver. }
    split_and!.
    + intros w Ep Eh. unfold insert_node. rewrite Ep. cbn [or_fault mbind outcome_bind]. rewrite Eh.
      assert (queue_head_F p <> 0) as Hhd by (destruct qs; destruct Hch as (E & H1 & _); congruence).
      apply Z.eqb_neq in Hhd. rewrite Hhd. cbn [negb]. rewrite (last_member_run h l qs) by done.
      cbn [or_fault mbind outcome_bind]. rewrite Hm. done.
    + rewrite <- app_assoc. by apply (chain_snoc h n t).
    + intros q. destruct (decide (q = l)) as [->|Hne]; [rewrite lookup_insert_eq, Hm; done|by rewrite lookup_insert_ne].
    + by apply (nodes_update h l m).
    + intros q Hq. apply lookup_insert_ne. set_solver.
Qed.

(** An adder puts its node in the queue. *)
Lemma insert_ok p h ads ds m i n qs :
  pool_ok p h ads ds m -> ads !! i = Some (A_insert n) -> queue_is p h ads ds qs ->
  exists h' head',
    (forall w, pool w = Some p -> heap w = h -> insert_node n w =
      (k ← int_range (cur_queue_size_F p + 1); Ok (set_heap h' (set_pool (Some (set_queue head' k p)) w)))) /\
    chain h' head' (qs ++ [n]) /\ (forall q, pList_Task <$> h' !! q = pList_Task <$> h !! q) /\
    (cur_queue_size_F p + 1 <= 2147483647 ->
      pool_ok (set_queue head' (cur_queue_size_F p + 1) p) h' (<[i := A_unlock]> ads) ds m).
Proof.
  intros [Ha Hd Hh Hm Hw Hmain Hc] Hi Hq. destruct Hm as (_ & H0 & Hz & _).
  assert (forall q, q ∈ omap adder_node ads -> exists t, h !! q = Some (ListTask t 0)) as Hz'.
  { intros q Hqa. rewrite Forall_forall in Hz. by apply Hz. }
  assert (n ∈ omap adder_node ads) as Hna by (rewrite (omap_delete _ ads i _ Hi); set_solver).
  destruct (link_run p h ads ds qs i n Hq H0 Hi (Hz' n Hna)) as (h' & head' & Hrun & Hch & Ht & Hn & Hsame).
  exists h', head'. split_and!; [done|done|done|]. intros Hmax. pose proof (Ha i _ Hi) as Hlock. simpl in Hlock.
  destruct Hq as (_ & Hs & Hp). pose proof (nodes_nodup h) as Hnd. rewrite Hp in Hnd. split.
  - by apply (adders_to p).
  - apply (doers_frame p); [done|done| |done]. intros j Hj. congruence.
  - apply (holder_frame p _ ads _ ds); [done|apply length_insert|done|by left].
  - split_and!; [| | |done].
    + exists (qs ++ [n]). split_and!; [done|simpl; zlen_lia|].
      rewrite Hn, Hp, (omap_insert_delete _ ads i _ A_unlock Hi), (omap_delete _ ads i _ Hi). simpl. by rewrite <- app_assoc.
    + specialize (Ht 0). rewrite H0 in Ht. by destruct (h' !! 0).
    + rewrite (omap_insert_delete _ ads i _ A_unlock Hi). simpl. apply Forall_forall. intros q Hqd.
      assert (q ∈ omap adder_node ads) as Hqa by (rewrite (omap_delete _ ads i _ Hi); simpl; set_solver).
      rewrite Hsame by (apply NoDup_app in Hnd as (_ & Hx & _); intros Hqs; apply (Hx q Hqs); set_solver). by apply Hz'.
  - intros _ _. exists i, A_unlock. rewrite list_lookup_insert_eq by (eapply lookup_lt_Some; eassumption). split; [done|by left].
  - apply (main_adder _ _ _ _ _ (A_insert n)); [|done|done].  by apply (main_frame p).
  - unfold counts_ok in *. by rewrite length_insert.
Qed.

(** A doer takes the first node of the queue. *)
Lemma take_ok p h ads ds m i qs :
  pool_ok p h ads ds m -> ds !! i = Some D_take -> queue_is p h ads ds qs ->
  exists q qs' t, qs = q :: qs' /\ queue_head_F p = q /\ h !! q = Some t /\ chain h (next t) qs' /\
    int_range (cur_queue_size_F p - 1) = Ok (cur_queue_size_F p - 1) /\
    pool_ok (set_queue (next t) (cur_queue_size_F p - 1) p) h ads (<[i := D_unlock q]> ds) m.
Proof.
  intros [Ha Hd Hh Hm Hw Hmain Hc] Hi Hq. destruct (Hd i _ Hi) as [Hlock Hsize]. destruct Hq as (Hch & Hs & Hp).
  destruct qs as [|q qs]; [done|]. destruct Hch as (Ehd & Hq0 & t & Ht & Hch).
  exists q, qs, t. destruct Hm as (_ & H0 & Hz & Hmax). pose proof (zlen_nonneg qs). rewrite zlen_cons in Hs.
  split_and!; [done|done|done|done| |].
  { unfold int_range. destruct (Z.leb_spec (-2147483648) (cur_queue_size_F p - 1)); [|lia].
    by destruct (Z.leb_spec (cur_queue_size_F p - 1) 2147483647); [|lia]. }
  split.
  - by apply (adders_frame p).
  - apply (doers_to p); [done|exact Hlock|done| |done]. intros j Hne Hj. congruence.
  - apply (holder_frame p _ ads _ ds); [done|done|apply length_insert|by left].
  - split_and!; [|done|done|simpl; lia]. exists qs. split_and!; [done|simpl; lia|].
    rewrite Hp, (omap_insert_delete _ ds i _ (D_unlock q) Hi), (omap_delete _ ds i _ Hi). simpl.
    rewrite <- Permutation_middle, <- Permutation_middle. done.
  - apply (wakes_doer p); [done|done|]. simpl. lia.
  - apply (main_doer _ _ _ _ _ D_take); [|done|done]. by apply (main_frame p).
  - unfold counts_ok in *. by rewrite length_insert.
Qed.

(** The node a doer has done is nobody else's. *)
Lemma free_other p h ads ds i n qs k :
  queue_is p h ads ds qs -> ds !! i = Some (D_free n) ->
  k ∈ qs ++ omap adder_node ads ++ omap doer_node (delete i ds) -> k <> n.
Proof.
  intros (_ & _ & Hp) Hi Hk ->. pose proof (nodes_nodup h) as Hnd. rewrite Hp, (omap_delete _ ds i _ Hi) in Hnd.
  simpl in Hnd. rewrite !app_assoc, <- Permutation_middle in Hnd. apply NoDup_cons in Hnd as [Hn _].
  apply Hn. by rewrite <- app_assoc.
Qed.

(** A doer frees the node it has done. *)
Lemma free_ok p h ads ds m i n :
  pool_ok p h ads ds m -> ds !! i = Some (D_free n) ->
  is_Some (h !! n) /\ pool_ok p (delete n h) ads (<[i := D_lock]> ds) m.
Proof.
  intros [Ha Hd Hh Hm Hw Hmain Hc] Hi. destruct Hm as ((qs & Hch & Hs & Hp) & H0 & Hz & Hmax).
  assert (nodes h ≡ₚ n :: qs ++ omap adder_node ads ++ omap doer_node (delete i ds)) as Hp'.
  { rewrite Hp, (omap_delete _ ds i _ Hi). simpl. by rewrite !app_assoc, <- Permutation_middle. }
  assert (is_Some (h !! n)) as [x Hx] by (apply elem_nodes; rewrite Hp'; by left). split; [by exists x|].
  assert (forall q, q ∈ qs ++ omap adder_node ads ++ omap doer_node (delete i ds) -> delete n h !! q = h !! q) as Hne.
  { intros q Hq. apply lookup_delete_ne. intros <-. by apply (free_other p h ads ds i n qs n). }
  split.
  - done.
  - apply (doers_to p); [done|exact (Hd i _ Hi)|done|done|done].
  - apply (holder_frame p _ ads _ ds); [done|done|apply length_insert|by left].
  - split_and!; [| | |done].
    + exists qs. split_and!; [apply (chain_ext _ h); [done|]; intros q Hq; apply Hne; set_solver|done|].
      rewrite (omap_insert_delete _ ds i _ D_lock Hi). simpl. rewrite (nodes_delete h n x Hx) in Hp'.
      by apply Permutation_cons_inv in Hp'.
    + by apply lookup_delete_None; right.
    + rewrite Forall_forall in Hz |- *. intros q Hq. rewrite Hne by set_solver. by apply Hz.
  - by apply (wakes_doer p).
  - by apply (main_doer _ _ _ _ _ (D_free n)).
  - unfold counts_ok in *. by rewrite length_insert.
Qed.
