(* ===== verification/ThreadPoolSteps.v ===== *)
(** * Every action keeps the invariant of the thread pool

    The actions of an adder, of a doer and of the main thread in turn: none of
    them faults, but for the counter of the queue at its largest value, and
    the world after them is one of the invariant. *)

From S2P Require Import Prelude LibC Buffers ThreadPool ThreadPoolFacts.

(** The outcome of an action that the invariant allows. *)
Definition keeps (r : outcome world) : Prop := exists w, r = Ok w /\ pool_inv w.

Definition works (p : CThread_pool) (w : world) : Prop :=
  pool w = Some p /\ pool_ok p (heap w) (adders w) (doers w) (main w).

Lemma keeps_ok p w : pool w = Some p -> pool_ok p (heap w) (adders w) (doers w) (main w) -> keeps (Ok w).
Proof. intros Ep Hok. exists w. split; [done|]. unfold pool_inv. rewrite Ep. by left. Qed.

(** ** Waking the doers *)

Lemma wake_lookup (ds : list doer_pc) i pc : (wake <$> ds) !! i = Some pc -> exists pc0, ds !! i = Some pc0 /\ pc = wake pc0.
Proof. rewrite list_lookup_fmap. intros H. apply fmap_Some in H as (pc0 & H & ->). eauto. Qed.

Lemma wake_nodes (ds : list doer_pc) : omap doer_node (wake <$> ds) = omap doer_node ds.
Proof. induction ds as [|pc ds IH]; [done|]. rewrite fmap_cons. cbn [omap list_omap]. rewrite <- IH. by destruct pc. Qed.

Lemma wake_exited k (ds : list doer_pc) : exited_below k ds -> exited_below k (wake <$> ds).
Proof. intros H j Hj. rewrite list_lookup_fmap, H by done. done. Qed.

Lemma wake_none p ads ds : wakes_ok p ads (wake <$> ds).
Proof. intros _ (i & Hi). apply wake_lookup in Hi as (pc & _ & E). by destruct pc. Qed.

Lemma broadcast_ok p h ads ds m : pool_ok p h ads ds m -> pool_ok p h ads (wake <$> ds) m.
Proof.
  intros [Ha Hd Hh Hm Hw Hmain Hc]. split.
  - done.
  - intros i pc Hi. apply wake_lookup in Hi as (pc0 & Hi & ->). specialize (Hd i pc0 Hi). by destruct pc0.
  - apply (holder_frame p _ ads _ ds); [done|done|apply length_fmap|by left].
  - unfold mem_ok, queue_is in *. by rewrite wake_nodes.
  - apply wake_none.
  - destruct m; simpl in *; rewrite ?length_fmap; intuition eauto using wake_exited.
  - unfold counts_ok in *. by rewrite length_fmap.
Qed.

(** ** The adders *)

Ltac adder_wakes Hw := by (eapply wakes_adder; [exact Hw|eassumption|intros [?|?]; discriminate|done]).

Lemma lock_free_iff p (me t : tid) : queue_lock_F p = None -> t <> me -> Some me = Some t <-> queue_lock_F p = Some t.
Proof. intros -> Hne. split; congruence. Qed.

Lemma lock_held_iff p (me t : tid) : queue_lock_F p = Some me -> t <> me -> None = Some t <-> queue_lock_F p = Some t.
Proof. intros -> Hne. split; congruence. Qed.

Lemma set_lock_ok p h ads ds m : pool_ok p h ads ds m -> pool_ok (set_lock (queue_lock_F p) p) h ads ds m.
Proof. by rewrite set_lock_same. Qed.

(** Statements that leave the pool as it is. *)
Lemma adder_quiet p h ads ds m i pc pc' :
  pool_ok p h ads ds m -> ads !! i = Some pc -> adder_ok p i pc' -> adder_node pc' = adder_node pc -> pc <> A_returned ->
  wakes_ok p (<[i := pc']> ads) ds -> pool_ok p h (<[i := pc']> ads) ds m.
Proof.
  intros Hok Hi Hpc Hn Hr Hw. rewrite <- (set_lock_same p). by apply (adder_move p h ads ds m i pc); rewrite ?set_lock_same.
Qed.

Lemma doer_quiet p h ads ds m i pc pc' :
  pool_ok p h ads ds m -> ds !! i = Some pc -> doer_ok p i pc' -> doer_node pc' = doer_node pc -> pc <> D_exited ->
  (pc' = D_blocked -> cur_queue_size_F p = 0) -> pool_ok p h ads (<[i := pc']> ds) m.
Proof.
  intros Hok Hi Hpc Hn Hr Hw. rewrite <- (set_lock_same p). by apply (doer_move p h ads ds m i pc); rewrite ?set_lock_same.
Qed.

Lemma int_range_le z : 0 <= z <= 2147483647 -> int_range z = Ok z.
Proof.
  intros Hz. unfold int_range. destruct (Z.leb_spec (-2147483648) z); [|lia]. by destruct (Z.leb_spec z 2147483647); [|lia].
Qed.

Lemma adder_step_ok w p i pc r :
  works p w -> adders w !! i = Some pc -> adder_step i pc w = Some r ->
  keeps r \/ r = Fault /\ (exists n, pc = A_insert n) /\ cur_queue_size_F p = 2147483647.
Proof.
  intros [Ep Hinv] Hi Hr. pose proof (ok_adders _ _ _ _ _ Hinv i pc Hi) as Hpc.
  pose proof (ok_wakes _ _ _ _ _ Hinv) as Hw.
  destruct pc; simpl in Hr; try discriminate.
  - left. unfold lock in Hr. rewrite Ep in Hr. destruct (queue_lock_F p) eqn:El; [discriminate|]. injection Hr as <-.
    eapply keeps_ok; [reflexivity|]. simpl. apply (adder_move p _ _ _ _ i (A_lock node)); try done.
    + intros t Ht. by apply lock_free_iff.
    + adder_wakes Hw.
  - destruct (ok_mem _ _ _ _ _ Hinv) as ((qs & Hq) & _ & _ & Hmax). pose proof (zlen_nonneg qs).
    destruct (insert_ok p _ _ _ _ i node qs Hinv Hi Hq) as (h' & head' & Hrun & _ & _ & Hok).
    rewrite (Hrun w Ep eq_refl) in Hr. destruct Hq as (_ & Hs & _). injection Hr as <-.
    destruct (decide (cur_queue_size_F p = 2147483647)) as [E|E].
    + right. rewrite E. split_and!; [done|eauto|done].
    + left. rewrite int_range_le by lia. cbn [mbind outcome_bind]. eapply keeps_ok; [reflexivity|]. simpl. apply Hok. lia.
  - left. unfold unlock in Hr. rewrite Ep in Hr. cbn [or_fault mbind outcome_bind] in Hr. simpl in Hpc.
    rewrite decide_True in Hr by done. injection Hr as <-. eapply keeps_ok; [reflexivity|]. simpl.
    apply (adder_move p _ _ _ _ i A_unlock); try done.
    + intros t Ht. by apply lock_held_iff with (me := Adder i).
    + eapply wakes_adder; [exact Hw|exact Hi|by right|done].
  - left. unfold broadcast in Hr. rewrite Ep in Hr. injection Hr as <-. eapply keeps_ok; [reflexivity|]. simpl.
    apply (adder_quiet p _ _ _ _ i A_broadcast); try done; [by apply broadcast_ok|apply wake_none].
Qed.

(** ** The doers *)

Lemma doer_lock_ok p w i pc r :
  works p w -> doers w !! i = Some pc -> doer_node pc = None -> pc <> D_exited ->
  lock (Doer i) (doer_to i D_test) w = Some r -> keeps r.
Proof.
  intros [Ep Hinv] Hi Hn He Hr.
  unfold lock in Hr. rewrite Ep in Hr. destruct (queue_lock_F p) eqn:El; [discriminate|]. injection Hr as <-.
  eapply keeps_ok; [reflexivity|]. simpl. apply (doer_move p _ _ _ _ i pc); try done. intros t Ht. by apply lock_free_iff.
Qed.

Lemma doer_unlock_ok p w i pc pc' :
  works p w -> doers w !! i = Some pc -> queue_lock_F p = Some (Doer i) ->
  doer_ok (set_lock None p) i pc' -> doer_node pc' = doer_node pc -> pc <> D_exited ->
  (pc' = D_blocked -> cur_queue_size_F p = 0) -> keeps (w ← unlock (Doer i) w; Ok (doer_to i pc' w)).
Proof.
  intros [Ep Hinv] Hi Hl Hpc Hn He Hb.
  unfold unlock. rewrite Ep. cbn [or_fault mbind outcome_bind]. rewrite decide_True by done.
  eapply keeps_ok; [reflexivity|]. simpl. apply (doer_move p _ _ _ _ i pc); try done.
  intros t Ht. by apply lock_held_iff with (me := Doer i).
Qed.

Lemma doer_quiet_ok p w i pc pc' :
  works p w -> doers w !! i = Some pc -> doer_ok p i pc' -> doer_node pc' = doer_node pc -> pc <> D_exited ->
  pc' <> D_blocked -> keeps (Ok (doer_to i pc' w)).
Proof.
  intros [Ep Hinv] Hi Hpc Hn He Hb.
  apply (keeps_ok p); [exact Ep|]. simpl. by apply (doer_quiet p _ _ _ _ i pc).
Qed.

Lemma doer_node_live p w i pc n :
  works p w -> doers w !! i = Some pc -> doer_node pc = Some n -> is_Some (heap w !! n).
Proof.
  intros [Ep Hinv] Hi Hn.
  destruct (ok_mem _ _ _ _ _ Hinv) as ((qs & _ & _ & Hp) & _). apply elem_nodes. rewrite Hp.
  rewrite (omap_delete doer_node _ i _ Hi), Hn. simpl. set_solver.
Qed.

Lemma doer_step_ok w p i pc r :
  works p w -> doers w !! i = Some pc -> doer_step i pc w = Some r -> keeps r.
Proof.
  intros Hw Hi Hr. pose proof Hw as [Ep Hok].
  pose proof (ok_doers _ _ _ _ _ Hok i pc Hi) as Hpc.
  destruct pc; simpl in Hr; rewrite ?Ep in Hr; cbn [or_fault mbind outcome_bind] in Hr; try discriminate;
    try (injection Hr as <-).
  - by apply (doer_lock_ok p w i D_lock).
  - apply (doer_quiet_ok p w i D_test); try done; destruct (Z.eqb_spec (cur_queue_size_F p) 0), (Z.eqb_spec (shutdown_F p) 0);
      simpl in *; auto.
  - destruct Hpc as [Hl Hs]. by apply (doer_unlock_ok p w i D_wait).
  - by apply (doer_lock_ok p w i D_woken).
  - destruct Hpc as [Hl Hs].
    apply (doer_quiet_ok p w i D_check); try done; destruct (Z.eqb_spec (shutdown_F p) 0); simpl; try done. split; [done|tauto].
  - destruct Hpc as [Hl Hs]. by apply (doer_unlock_ok p w i D_quit).
  - destruct (ok_mem _ _ _ _ _ Hok) as ((qs & Hq) & _).
    destruct (take_ok p _ _ _ _ i qs Hok Hi Hq) as (q & qs' & t & -> & Hhd & Ht & _ & Hn & Hok').
    unfold take_node. rewrite Ep. cbn [or_fault mbind outcome_bind]. rewrite Hn, Hhd, Ht. cbn [or_fault mbind outcome_bind].
    eapply keeps_ok; [reflexivity|exact Hok'].
  - by apply (doer_unlock_ok p w i (D_unlock node)).
  - destruct (doer_node_live p w i _ node Hw Hi eq_refl) as [x Hx]. rewrite Hx. cbn [or_fault mbind outcome_bind].
    by apply (doer_quiet_ok p w i (D_work node)).
  - destruct (free_ok p _ _ _ _ i node Hok Hi) as [[x Hx] Hok']. rewrite Hx. cbn [or_fault mbind outcome_bind].
    apply (keeps_ok p); [exact Ep|exact Hok'].
Qed.

(** ** The main thread *)

Lemma main_to_ok p w m : works p w -> main_ok p (adders w) (doers w) m -> keeps (Ok (main_to m w)).
Proof. intros [Ep Hinv] Hm. apply (keeps_ok p); [done|]. simpl. destruct Hinv. by split. Qed.

Lemma pool_update_ok p p' h ads ds m m' :
  pool_ok p h ads ds m -> main_ok p' ads ds m' -> queue_lock_F p' = queue_lock_F p -> queue_head_F p' = queue_head_F p ->
  cur_queue_size_F p' = cur_queue_size_F p -> (shutdown_F p <> 0 -> shutdown_F p' <> 0) ->
  add_thread_num_F p' = add_thread_num_F p -> do_thread_num_F p' = do_thread_num_F p -> pool_ok p' h ads ds m'.
Proof.
  intros [Ha Hd Hh Hm Hw Hmain Hc] Hmain' E1 E2 E3 E4 E5 E6. split.
  - apply (adders_frame p); [done|]. intros j. by rewrite E1.
  - apply (doers_frame p); try done. intros j. by rewrite E1.
  - apply (holder_frame p _ ads _ ds); [done|done|done|]. rewrite E1. by left.
  - unfold mem_ok, queue_is in *. by rewrite E2, E3.
  - unfold wakes_ok in *. by rewrite E3.
  - done.
  - unfold counts_ok in *. by rewrite E5, E6.
Qed.

Lemma omap_all_none {A} (f : A -> option Z) l : (forall i x, l !! i = Some x -> f x = None) -> omap f l = [].
Proof.
  induction l as [|a l IH]; intros H; [done|]. cbn [omap list_omap]. rewrite (H 0%nat a eq_refl). apply IH.
  intros i x Hi. exact (H (S i) x Hi).
Qed.

Lemma all_returned ads i pc : returned_below (length ads) ads -> ads !! i = Some pc -> pc = A_returned.
Proof. intros H Hi. specialize (H i (lookup_lt_Some _ _ _ Hi)). congruence. Qed.

Lemma all_exited ds i pc : exited_below (length ds) ds -> ds !! i = Some pc -> pc = D_exited.
Proof. intros H Hi. specialize (H i (lookup_lt_Some _ _ _ Hi)). congruence. Qed.

Lemma nobody_holds p ads ds :
  adders_ok p ads -> doers_ok p ds -> holder_ok p ads ds -> returned_below (length ads) ads -> exited_below (length ds) ds ->
  queue_lock_F p = None.
Proof.
  intros Ha Hd Hh Hr He. unfold holder_ok in Hh. destruct (queue_lock_F p) as [[i|i]|] eqn:E; [| |done].
  - by destruct (Ha i A_returned (Hr i Hh)).
  - destruct (Hd i D_exited (He i Hh)). congruence.
Qed.

(** The queue is all the memory once the threads are gone. *)
Lemma nodes_at_end p h ads ds qs :
  queue_is p h ads ds qs -> returned_below (length ads) ads -> exited_below (length ds) ds -> nodes h ≡ₚ qs.
Proof.
  intros (_ & _ & Hp) Hr He. rewrite Hp, (omap_all_none adder_node), (omap_all_none doer_node), !app_nil_r; [done| |].
  - intros i x Hi. by rewrite (all_exited ds i x He Hi).
  - intros i x Hi. by rewrite (all_returned ads i x Hr Hi).
Qed.

Lemma checks_none p :
  add_ids p -> do_ids p -> destroy_checks p = None -> 0 <= add_thread_num_F p /\ 0 <= do_thread_num_F p.
Proof.
  unfold add_ids, do_ids, destroy_checks, create_threads. intros -> ->.
  destruct (Z.ltb_spec (add_thread_num_F p) 0), (Z.ltb_spec (do_thread_num_F p) 0); done.
Qed.

Lemma checks_some p c : destroy_checks p = Some c -> c = -1.
Proof. unfold destroy_checks. repeat case_match; congruence. Qed.

(** Joining a thread: the main thread waits, or goes on with a thread more that
    has ended. *)
Lemma join_run {A} (threads : list A) ended i n w r :
  0 <= n -> length threads = Z.to_nat n -> Z.of_nat i < n -> join (create_threads n) threads ended i w = Some r ->
  r = Ok w /\ (i < length threads)%nat /\ exists pc, threads !! i = Some pc /\ ended pc = true.
Proof.
  intros Hn Hl Hi. unfold create_threads, join. destruct (Z.ltb_spec n 0); [lia|].
  rewrite lookup_seq_lt by lia. change (0 + i)%nat with i.
  destruct (lookup_lt_is_Some_2 threads i) as [pc Hpc]; [lia|]. rewrite Hpc.
  destruct (ended pc) eqn:E; [|done]. intros [= <-]. split_and!; [done|lia|eauto].
Qed.

Lemma below_step {A} (l : list A) i x : (forall j, (j < i)%nat -> l !! j = Some x) -> l !! i = Some x ->
  forall j, (j < S i)%nat -> l !! j = Some x.
Proof. intros H Hi j Hj. destruct (decide (j = i)) as [->|]; [done|]. apply H. lia. Qed.

Lemma main_join_add_ok p w i r : works p w -> main w = M_join_add i -> main_step w = Some r -> keeps r.
Proof.
  intros Hw Em Hr. pose proof Hw as [Ep Hok]. pose proof (ok_main _ _ _ _ _ Hok) as Hmain. pose proof (ok_counts _ _ _ _ _ Hok) as [Hc _].
  unfold main_step in Hr. rewrite Em in Hr, Hmain. rewrite Ep in Hr.
  destruct Hmain as (Hsh & Hai & Hdi & Hn & Hn' & Hb & Hi).
  destruct (Z.ltb_spec (Z.of_nat i) (add_thread_num_F p)) as [Hlt|Hge].
  - rewrite Hai in Hr. apply join_run in Hr as (-> & Hl & pc & Hpc & Hend); [|done|done|done].
    apply (main_to_ok p); [done|]. simpl. destruct pc; try discriminate.
    split_and!; try done. exact (below_step _ i _ Hb Hpc).
  - injection Hr as <-. eapply keeps_ok; [reflexivity|]. simpl. apply (pool_update_ok p _ _ _ _ (main w)); try done.
    assert (i = length (adders w)) as -> by lia. split_and!; try done; [intros j Hj; lia|lia].
Qed.

Lemma main_join_do_ok p w i r : works p w -> main w = M_join_do i -> main_step w = Some r -> keeps r.
Proof.
  intros Hw Em Hr. pose proof Hw as [Ep Hok]. pose proof (ok_main _ _ _ _ _ Hok) as Hmain. pose proof (ok_counts _ _ _ _ _ Hok) as [_ Hc].
  unfold main_step in Hr. rewrite Em in Hr, Hmain. rewrite Ep in Hr.
  destruct Hmain as (Hsh & Hdi & Hn & Hra & Hb & Hi).
  destruct (Z.ltb_spec (Z.of_nat i) (do_thread_num_F p)) as [Hlt|Hge].
  - rewrite Hdi in Hr. apply join_run in Hr as (-> & Hl & pc & Hpc & Hend); [|done|done|done].
    apply (main_to_ok p); [done|]. simpl. destruct pc; try discriminate.
    split_and!; try done. exact (below_step _ i _ Hb Hpc).
  - injection Hr as <-. assert (i = length (doers w)) as -> by lia. destruct Hok as [Ha Hd Hh ((qs & Hq) & _) _ _ _].
    eexists. split; [reflexivity|]. right. simpl. split_and!; [by apply (nobody_holds p (adders w) (doers w))|done|done| |by left].
    exists qs. split; [apply Hq|by apply (nodes_at_end p _ _ _ _ Hq)].
Qed.

Lemma main_step_ok p w r : works p w -> main_step w = Some r -> keeps r.
Proof.
  intros Hw Hr. destruct (main w) eqn:Em; try (by apply (main_join_add_ok p w i)); try (by apply (main_join_do_ok p w i));
    pose proof Hw as [Ep Hok]; pose proof (ok_main _ _ _ _ _ Hok) as Hmain; unfold main_step in Hr; rewrite Em in Hr, Hmain;
    rewrite ?Ep in Hr; try discriminate; try done; cbn [or_fault mbind outcome_bind] in Hr; injection Hr as <-.
  - apply (main_to_ok p); [done|]. destruct Hmain as (Hsh & Hai & Hdi). destruct (destroy_checks p) as [c|] eqn:E.
    + apply checks_some in E as ->. done.
    + pose proof (checks_none p Hai Hdi E). simpl. tauto.
  - destruct Hmain as (Hsh & Hai & Hdi & Hn & Hn'). eapply keeps_ok; [reflexivity|].
    apply (pool_update_ok p _ _ _ _ (main w)); try done.
  - unfold broadcast. rewrite Ep. cbn [or_fault mbind outcome_bind]. destruct Hmain as (Hsh & Hai & Hdi & Hn & Hn').
    apply (keeps_ok p); [done|]. apply (pool_update_ok p p _ _ _ (main w)); try done; [by apply broadcast_ok|].
    simpl. split_and!; try done; [|lia]. intros j Hj. lia.
Qed.

(** Freeing the nodes that are left, and the pool. *)
Lemma closing_step_ok p w r :
  pool w = Some p -> closing_ok p (heap w) (adders w) (doers w) (main w) -> main_step w = Some r -> keeps r.
Proof.
  intros Ep (Hl & Hra & Hex & (qs & Hch & Hp) & Hm) Hr. unfold main_step in Hr. destruct Hm as [Em | [Em Hhd]]; rewrite Em, Ep in Hr;
    cbn [or_fault mbind outcome_bind] in Hr; injection Hr as <-.
  - destruct qs as [|q qs].
    + simpl in Hch. rewrite Hch. simpl. eexists. split; [reflexivity|]. unfold pool_inv. simpl. rewrite Ep. right.
      split_and!; [done|done|done|by exists []|by right].
    + destruct Hch as (Ehd & Hq & t & Ht & Hch). rewrite Ehd. apply Z.eqb_neq in Hq. rewrite Hq, Ht. cbn [or_fault mbind outcome_bind].
      eexists. split; [reflexivity|]. right. simpl. pose proof (nodes_nodup (heap w)) as Hnd. rewrite Hp in Hnd.
      apply NoDup_cons in Hnd as [Hqn Hnd]. split_and!; [done|done|done| |by left]. exists qs. split.
      * apply (chain_ext _ (heap w)); [done|]. intros x Hx. apply lookup_delete_ne. intros ->. done.
      * rewrite (nodes_delete _ _ _ Ht) in Hp. by apply Permutation_cons_inv in Hp.
  - rewrite bool_decide_true by done. eexists. split; [reflexivity|]. unfold pool_inv. simpl. split_and!; try done.
    destruct qs as [|q qs]; [|destruct Hch as (E & H0 & _); congruence].
    apply map_empty. intros k. destruct (heap w !! k) eqn:Ek; [|done].
    assert (k ∈ nodes (heap w)) as Hk by (apply elem_nodes; eauto). rewrite Hp in Hk. set_solver.
Qed.

(** ** All actions *)

Lemma act_ok w a r :
  pool_inv w -> act a w = Some r ->
  keeps r \/ r = Fault /\ exists i n p, a = Add i /\ adders w !! i = Some (A_insert n) /\ pool w = Some p /\ cur_queue_size_F p = 2147483647.
Proof.
  intros Hinv Hr. pose proof Hinv as H. unfold pool_inv in H.
  assert (forall i pc, adders w !! i = Some pc -> returned_below (length (adders w)) (adders w) -> pc = A_returned) as Hra by eauto using all_returned.
  assert (forall i pc, doers w !! i = Some pc -> exited_below (length (doers w)) (doers w) -> pc = D_exited) as Hex by eauto using all_exited.
  destruct (pool w) as [p|] eqn:Ep; [destruct H as [H|H]|].
  - assert (works p w) as Hw by done. pose proof (ok_wakes _ _ _ _ _ H) as Hwk.
    destruct a; simpl in Hr.
    + destruct (adders w !! i) as [[]|] eqn:Hi; try discriminate. injection Hr as <-. left. apply (keeps_ok p); [done|].
      apply (adder_quiet p _ _ _ _ i A_app); try done; [exact (ok_adders _ _ _ _ _ H i _ Hi)|adder_wakes Hwk].
    + destruct (adders w !! i) as [[]|] eqn:Hi; try discriminate. injection Hr as <-. left. apply (keeps_ok p); [done|].
      apply (adder_quiet p _ _ _ _ i A_app); try done; [exact (ok_adders _ _ _ _ _ H i _ Hi)|adder_wakes Hwk].
    + destruct (adders w !! i) as [[]|] eqn:Hi; try discriminate. case_bool_decide as Hn; [|discriminate]. destruct Hn as [Hn Hf]. injection Hr as <-.
      left. apply (keeps_ok p); [done|]. by apply alloc_ok.
    + destruct (adders w !! i) as [pc|] eqn:Hi; [|discriminate].
      destruct (adder_step_ok w p i pc r Hw Hi Hr) as [?|(-> & [n ->] & Hs)]; [by left|right]. split; [done|]. by exists i, n, p.
    + destruct (doers w !! i) as [pc|] eqn:Hi; [|discriminate]. left. by apply (doer_step_ok w p i pc).
    + destruct (doers w !! i) as [[]|] eqn:Hi; try discriminate. injection Hr as <-. left.
      apply (doer_quiet_ok p w i D_blocked); try done. exact (ok_doers _ _ _ _ _ H i _ Hi).
    + destruct (main w) eqn:Em; try discriminate. injection Hr as <-. left. apply (main_to_ok p); [done|].
      exact (ok_main _ _ _ _ _ H).
    + left. by apply (main_step_ok p w).
  - pose proof H as (_ & Hr1 & Hr2 & _ & Hm). left. destruct a; simpl in Hr.
    1-4: destruct (adders w !! i) as [pc|] eqn:Hi; [rewrite (Hra i pc Hi Hr1) in Hr|]; discriminate.
    1-2: destruct (doers w !! i) as [pc|] eqn:Hi; [rewrite (Hex i pc Hi Hr2) in Hr|]; discriminate.
    + destruct Hm as [E | [E _]]; rewrite E in Hr; discriminate.
    + by apply (closing_step_ok p w).
  - destruct H as (Hm & _ & Hr1 & Hr2). left. destruct a; simpl in Hr.
    1-4: destruct (adders w !! i) as [pc|] eqn:Hi; [rewrite (Hra i pc Hi Hr1) in Hr|]; discriminate.
    1-2: destruct (doers w !! i) as [pc|] eqn:Hi; [rewrite (Hex i pc Hi Hr2) in Hr|]; discriminate.
    + by rewrite Hm in Hr.
    + unfold main_step in Hr. by rewrite Hm in Hr.
Qed.
