(* ===== verification/ThreadPoolQueue.v ===== *)
(** * The thread pool as a queue of tasks

    The abstract queue the pool implements, and where every task is: with an
    adder, in the queue, with a doer, or done. *)

From S2P Require Import Prelude LibC Buffers ThreadPool ThreadPoolFacts ThreadPoolSteps.

(** ** The specification *)

(** What an event does to a first-in first-out queue; [None] where the queue
    cannot do it. *)
Definition fifo_event (e : event) (q : list Z) : option (list Z) :=
  match e with
  | Called _ | Done _ => Some q
  | Put t => Some (q ++ [t])
  | Take t | Drop t => match q with t' :: q => if t =? t' then Some q else None | [] => None end
  end.

Fixpoint fifo (tr : list event) (q : list Z) : option (list Z) :=
  match tr with [] => Some q | e :: tr => q ← fifo_event e q; fifo tr q end.

Lemma fifo_app tr1 tr2 q : fifo (tr1 ++ tr2) q = (q ← fifo tr1 q; fifo tr2 q).
Proof. revert q. induction tr1 as [|e tr1 IH]; intros q; [done|]. simpl. destruct (fifo_event e q); [apply IH|done]. Qed.

(** The tasks of the events of a kind. *)
Definition calls (tr : list event) : list Z := omap (λ e, match e with Called t => Some t | _ => None end) tr.
Definition dones (tr : list event) : list Z := omap (λ e, match e with Done t => Some t | _ => None end) tr.
Definition drops (tr : list event) : list Z := omap (λ e, match e with Drop t => Some t | _ => None end) tr.

(** ** Where the tasks are *)

Definition tasks_of (h : gmap Z CList_Task) (qs : list Z) : list Z := flat_map (task_of h) qs.

(** The queue in memory holds the tasks [q]. *)
Definition queue_holds (w : world) (q : list Z) : Prop :=
  match pool w with
  | Some p => exists qs, chain (heap w) (queue_head_F p) qs /\ q = tasks_of (heap w) qs
  | None => q = []
  end.

Definition adder_tasks (h : gmap Z CList_Task) (pc : adder_pc) : list Z :=
  match pc with A_alloc t => [t] | A_lock n | A_insert n => task_of h n | _ => [] end.
Definition doer_tasks (h : gmap Z CList_Task) (pc : doer_pc) : list Z :=
  match pc with D_unlock n | D_work n => task_of h n | _ => [] end.

Definition in_hand (w : world) : list Z :=
  flat_map (adder_tasks (heap w)) (adders w) ++ flat_map (doer_tasks (heap w)) (doers w).

Section flat.
Context {A : Type}.

Lemma flat_delete (f : A -> list Z) l i x : l !! i = Some x -> flat_map f l ≡ₚ f x ++ flat_map f (delete i l).
Proof.
  revert i. induction l as [|a l IH]; intros [|i] Hi; simplify_eq/=; [done|]. rewrite (IH i Hi), !app_assoc.
  by rewrite (Permutation_app_comm (f a)).
Qed.

Lemma flat_insert (f : A -> list Z) l i x y : l !! i = Some x -> flat_map f (<[i := y]> l) ≡ₚ f y ++ flat_map f (delete i l).
Proof.
  revert i. induction l as [|a l IH]; intros [|i] Hi; simplify_eq/=; [done|]. rewrite (IH i Hi), !app_assoc.
  by rewrite (Permutation_app_comm (f a)).
Qed.

Lemma flat_same (f : A -> list Z) l i x y : l !! i = Some x -> f y = f x -> flat_map f (<[i := y]> l) = flat_map f l.
Proof.
  revert i. induction l as [|a l IH]; intros [|i] Hi Hf; simplify_eq/=; [by rewrite Hf|]. by rewrite (IH i Hi Hf).
Qed.

Lemma flat_ext (f g : A -> list Z) l : (forall i x, l !! i = Some x -> f x = g x) -> flat_map f l = flat_map g l.
Proof.
  induction l as [|a l IH]; intros H; [done|]. simpl. rewrite (H 0%nat a eq_refl), IH; [done|].
  intros i x Hi. exact (H (S i) x Hi).
Qed.

Lemma flat_nil (f : A -> list Z) l : (forall i x, l !! i = Some x -> f x = []) -> flat_map f l = [].
Proof. intros H. rewrite (flat_ext f (λ _, [])) by done. clear H. by induction l. Qed.
End flat.

Lemma task_of_some h n m : h !! n = Some m -> task_of h n = [pList_Task m].
Proof. unfold task_of. by intros ->. Qed.

Lemma task_of_ext h h' n : h' !! n = h !! n -> task_of h' n = task_of h n.
Proof. unfold task_of. by intros ->. Qed.

Lemma task_of_same h h' n : pList_Task <$> h' !! n = pList_Task <$> h !! n -> task_of h' n = task_of h n.
Proof. unfold task_of. destruct (h' !! n), (h !! n); simpl; intros; simplify_eq; congruence. Qed.

Lemma tasks_ext h h' qs : (forall n, n ∈ qs -> task_of h' n = task_of h n) -> tasks_of h' qs = tasks_of h qs.
Proof.
  induction qs as [|n qs IH]; intros H; [done|]. simpl. rewrite H by (by left). rewrite IH; [done|].
  intros k Hk. apply H. by right.
Qed.

(** What an action keeps: the queue makes the events of the specification, and
    no task appears or disappears but by a call, by being done or dropped. *)
Definition accounts (w : world) (ev : list event) (w' : world) (q : list Z) : Prop :=
  exists q', fifo ev q = Some q' /\ queue_holds w' q' /\
    calls ev ++ in_hand w ++ q ≡ₚ dones ev ++ drops ev ++ in_hand w' ++ q'.

(** A silent action on one thread. *)
Lemma accounts_silent w w' q :
  queue_holds w q -> (queue_holds w q -> queue_holds w' q) -> in_hand w' = in_hand w -> accounts w [] w' q.
Proof. intros Hq H Hh. exists q. split_and!; [done|by apply H|]. by rewrite Hh. Qed.

Lemma in_hand_adder w w' i pc pc' :
  adders w !! i = Some pc -> adders w' = <[i := pc']> (adders w) -> doers w' = doers w -> heap w' = heap w ->
  adder_tasks (heap w) pc' = adder_tasks (heap w) pc -> in_hand w' = in_hand w.
Proof. intros Hi E1 E2 E3 Ht. unfold in_hand. rewrite E1, E2, E3. by rewrite (flat_same _ _ i pc). Qed.

Lemma in_hand_doer w w' i pc pc' :
  doers w !! i = Some pc -> adders w' = adders w -> doers w' = <[i := pc']> (doers w) -> heap w' = heap w ->
  doer_tasks (heap w) pc' = doer_tasks (heap w) pc -> in_hand w' = in_hand w.
Proof. intros Hi E1 E2 E3 Ht. unfold in_hand. rewrite E1, E2, E3. by rewrite (flat_same _ (doers w) i pc). Qed.

Lemma lock_inv me after w w' :
  lock me after w = Some (Ok w') -> exists p, pool w = Some p /\ w' = after (set_pool (Some (set_lock (Some me) p)) w).
Proof. unfold lock. destruct (pool w) as [p|]; [|done]. destruct (queue_lock_F p); [done|]. intros [= <-]. eauto. Qed.

Lemma unlock_inv me w w' :
  unlock me w = Ok w' -> exists p, pool w = Some p /\ w' = set_pool (Some (set_lock None p)) w.
Proof.
  unfold unlock. destruct (pool w) as [p|]; [|done]. cbn [or_fault mbind outcome_bind]. destruct (decide _); [|done].
  intros [= <-]. eauto.
Qed.

Lemma broadcast_inv w w' :
  broadcast w = Ok w' -> w' = World (pool w) (heap w) (adders w) (wake <$> doers w) (main w) /\ in_hand w' = in_hand w.
Proof.
  unfold broadcast. destruct (pool w) as [p|]; [|done]. intros [= <-]. split; [done|]. unfold in_hand. simpl. f_equal.
  induction (doers w) as [|pc ds IH]; [done|]. rewrite fmap_cons. cbn [flat_map]. rewrite IH. by destruct pc.
Qed.

Lemma hands_adders h h' ads :
  (forall n, n ∈ omap adder_node ads -> task_of h' n = task_of h n) -> flat_map (adder_tasks h') ads = flat_map (adder_tasks h) ads.
Proof.
  intros H. apply flat_ext. intros i pc Hi. destruct pc; simpl; try done;
    apply H, list_elem_of_omap; eexists; (split; [by eapply list_elem_of_lookup_2|done]).
Qed.

Lemma hands_doers h h' ds :
  (forall n, n ∈ omap doer_node ds -> task_of h' n = task_of h n) -> flat_map (doer_tasks h') ds = flat_map (doer_tasks h) ds.
Proof.
  intros H. apply flat_ext. intros i pc Hi. destruct pc; simpl; try done;
    apply H, list_elem_of_omap; eexists; (split; [by eapply list_elem_of_lookup_2|done]).
Qed.

Lemma holds_queue p w q :
  works p w -> queue_holds w q -> exists qs, queue_is p (heap w) (adders w) (doers w) qs /\ q = tasks_of (heap w) qs.
Proof.
  intros [Ep Hok] Hq. unfold queue_holds in Hq. rewrite Ep in Hq. destruct Hq as (qs & Hch & ->).
  destruct (ok_mem _ _ _ _ _ Hok) as ((qs' & Hq) & _). destruct Hq as (Hch' & Hq).
  assert (qs = qs') as -> by (by eapply chain_unique). by exists qs'.
Qed.

Lemma alloc_accounts p w i task n q :
  works p w -> queue_holds w q -> adders w !! i = Some (A_alloc task) -> heap w !! n = None ->
  accounts w [] (adder_to i (A_lock n) (set_heap (<[n := ListTask task 0]> (heap w)) w)) q.
Proof.
  intros Hw Hq Hi Hn. destruct (holds_queue p w q Hw Hq) as (qs & Hqs & ->). destruct Hqs as (Hch & _ & Hp).
  assert (forall k, k ∈ nodes (heap w) -> <[n := ListTask task 0]> (heap w) !! k = heap w !! k) as Hne.
  { intros k [x Hx]%elem_nodes. apply lookup_insert_ne. congruence. }
  exists (tasks_of (heap w) qs). split_and!; [done| |].
  - unfold queue_holds. simpl. destruct Hw as [-> _]. exists qs. split.
    + apply (chain_ext _ (heap w)); [done|]. intros k Hk. apply Hne. rewrite Hp. set_solver.
    + symmetry. apply tasks_ext. intros k Hk. apply task_of_ext, Hne. rewrite Hp. set_solver.
  - unfold calls, dones, drops. cbn [omap list_omap app]. apply Permutation_app_tail. unfold in_hand. simpl. rewrite (flat_insert _ _ i _ (A_lock n) Hi), (flat_delete _ _ i _ Hi). simpl.
    rewrite (task_of_some _ n (ListTask task 0)) by apply lookup_insert_eq. simpl.
    set (h' := <[n := ListTask task 0]> (heap w)) in *.
    rewrite (hands_adders (heap w) h'), (hands_doers (heap w) h'); [done| |]; intros k Hk; apply task_of_ext, Hne; rewrite Hp.
    + set_solver.
    + rewrite (omap_delete adder_node _ i _ Hi). set_solver.
Qed.

Lemma insert_accounts p w i n w' q :
  works p w -> queue_holds w q -> adders w !! i = Some (A_insert n) -> adder_step i (A_insert n) w = Some (Ok w') ->
  accounts w (Put <$> task_of (heap w) n) w' q.
Proof.
  intros Hw Hq Hi Hr. destruct (holds_queue p w q Hw Hq) as (qs & Hqs & ->). pose proof Hw as [Ep Hok].
  destruct (ok_mem _ _ _ _ _ Hok) as (_ & _ & Hz & _). rewrite Forall_forall in Hz.
  destruct (Hz n) as (t & Ht); [rewrite (omap_delete adder_node _ i _ Hi); set_solver|].
  destruct (insert_ok p _ _ _ _ i n qs Hok Hi Hqs) as (h' & head' & Hrun & Hch & Hsame & _).
  cbn [adder_step] in Hr. rewrite (Hrun w Ep eq_refl) in Hr. destruct (int_range _) as [k| |]; [|discriminate..].
  injection Hr as <-. rewrite (task_of_some _ _ _ Ht). exists (tasks_of (heap w) qs ++ [t]). split_and!; [done| |].
  - unfold queue_holds. simpl. exists (qs ++ [n]). split; [done|]. unfold tasks_of. rewrite flat_map_app. f_equal.
    + symmetry. apply tasks_ext. intros x _. by apply task_of_same.
    + simpl. rewrite (task_of_same (heap w)) by apply Hsame. by rewrite (task_of_some _ _ _ Ht).
  - unfold in_hand. simpl. rewrite (flat_insert _ _ i _ A_unlock Hi), (flat_delete _ _ i _ Hi). simpl.
    rewrite (task_of_some _ _ _ Ht). simpl.
    rewrite (hands_adders (heap w) h'), (hands_doers (heap w) h') by (intros; by apply task_of_same).
    rewrite Permutation_cons_append. by rewrite <- !app_assoc.
Qed.

Lemma take_accounts p w i w' q :
  works p w -> queue_holds w q -> doers w !! i = Some D_take -> doer_step i D_take w = Some (Ok w') ->
  accounts w (Take <$> task_of (heap w) (queue_head_F p)) w' q.
Proof.
  intros Hw Hq Hi Hr. destruct (holds_queue p w q Hw Hq) as (qs & Hqs & ->). pose proof Hw as [Ep Hok].
  destruct (take_ok p _ _ _ _ i qs Hok Hi Hqs) as (k & qs' & t & -> & Hhd & Ht & Hch & Hn & _).
  cbn [doer_step] in Hr. unfold take_node in Hr. rewrite Ep in Hr. cbn [or_fault mbind outcome_bind] in Hr.
  rewrite Hn, Hhd, Ht in Hr. injection Hr as <-. rewrite Hhd, (task_of_some _ _ _ Ht). exists (tasks_of (heap w) qs').
  cbn [tasks_of flat_map]. rewrite (task_of_some _ _ _ Ht). cbn [app fmap list_fmap fifo fifo_event mbind option_bind]. rewrite Z.eqb_refl.
  split_and!; [done|by exists qs'|]. unfold in_hand. simpl.
  rewrite (flat_insert _ _ i _ (D_unlock k) Hi), (flat_delete _ (doers w) i _ Hi). simpl. rewrite (task_of_some _ _ _ Ht). simpl.
  rewrite <- !app_assoc. apply Permutation_app_head. simpl. symmetry. apply Permutation_middle.
Qed.

Lemma work_accounts p w i n w' q :
  works p w -> queue_holds w q -> doers w !! i = Some (D_work n) -> doer_step i (D_work n) w = Some (Ok w') ->
  accounts w (Done <$> task_of (heap w) n) w' q.
Proof.
  intros Hw Hq Hi Hr. cbn [doer_step] in Hr. destruct (heap w !! n) as [t|] eqn:Ht; [|discriminate]. injection Hr as <-.
  rewrite (task_of_some _ _ _ Ht). exists q. split_and!; [done|done|]. unfold in_hand. simpl.
  rewrite (flat_insert _ _ i _ (D_free n) Hi), (flat_delete _ (doers w) i _ Hi). simpl. rewrite (task_of_some _ _ _ Ht). simpl.
  rewrite <- Permutation_middle. done.
Qed.

Lemma free_accounts p w i n w' q :
  works p w -> queue_holds w q -> doers w !! i = Some (D_free n) -> doer_step i (D_free n) w = Some (Ok w') ->
  accounts w [] w' q.
Proof.
  intros Hw Hq Hi Hr. destruct (holds_queue p w q Hw Hq) as (qs & Hqs & ->). pose proof Hw as [Ep Hok].
  cbn [doer_step] in Hr. destruct (heap w !! n) as [t|] eqn:Ht; [|discriminate]. injection Hr as <-.
  assert (forall k, k ∈ qs ++ omap adder_node (adders w) ++ omap doer_node (delete i (doers w)) -> delete n (heap w) !! k = heap w !! k) as Hne.
  { intros k Hk. apply lookup_delete_ne. intros <-. by apply (free_other p _ _ _ i n qs n Hqs Hi). }
  exists (tasks_of (heap w) qs). split_and!; [done| |].
  - unfold queue_holds. simpl. rewrite Ep. exists qs. split.
    + apply (chain_ext _ (heap w)); [apply Hqs|]. intros k Hk. apply Hne. set_solver.
    + symmetry. apply tasks_ext. intros k Hk. apply task_of_ext, Hne. set_solver.
  - unfold calls, dones, drops. cbn [omap list_omap app]. apply Permutation_app_tail. unfold in_hand. simpl. rewrite (flat_insert _ _ i _ D_lock Hi), (flat_delete _ (doers w) i _ Hi). simpl.
    rewrite (hands_adders (heap w) (delete n (heap w))), (hands_doers (heap w) (delete n (heap w))); [done| |]; intros k Hk;
      apply task_of_ext, Hne; set_solver.
Qed.

Lemma adder_accounts p w i pc w' q :
  works p w -> queue_holds w q -> adders w !! i = Some pc -> adder_step i pc w = Some (Ok w') ->
  accounts w (events_of (Add i) w) w' q.
Proof.
  intros Hw Hq Hi Hr. pose proof Hw as [Ep Hok]. unfold events_of. rewrite Hi.
  destruct pc; try discriminate; cbn [adder_step] in Hr.
  - apply lock_inv in Hr as (p' & Ep' & ->). assert (p' = p) as -> by congruence.
    apply accounts_silent; [done| |by apply (in_hand_adder _ _ i _ (A_insert node) Hi)]. unfold queue_holds. simpl. by rewrite Ep.
  - by apply (insert_accounts p w i node).
  - destruct (unlock (Adder i) w) eqn:E; [|discriminate..]. apply unlock_inv in E as (p' & Ep' & ->). injection Hr as <-.
    assert (p' = p) as -> by congruence.
    apply accounts_silent; [done| |by apply (in_hand_adder _ _ i _ A_broadcast Hi)]. unfold queue_holds. simpl. by rewrite Ep.
  - destruct (broadcast w) eqn:E; [|discriminate..]. apply broadcast_inv in E as (-> & Eh). injection Hr as <-.
    apply accounts_silent; [done|done|]. rewrite <- Eh. by apply (in_hand_adder _ _ i A_broadcast A_app).
Qed.

Lemma doer_accounts p w i pc w' q :
  works p w -> queue_holds w q -> doers w !! i = Some pc -> doer_step i pc w = Some (Ok w') ->
  accounts w (events_of (Do i) w) w' q.
Proof.
  intros Hw Hq Hi Hr. pose proof Hw as [Ep Hok].
  assert (forall p' pc', queue_head_F p' = queue_head_F p -> doer_tasks (heap w) pc' = doer_tasks (heap w) pc ->
    accounts w [] (doer_to i pc' (set_pool (Some p') w)) q) as Hset.
  { intros p' pc' E Ht. apply accounts_silent; [done| |by apply (in_hand_doer _ _ i _ pc' Hi)].
    unfold queue_holds. simpl. by rewrite Ep, E. }
  assert (forall pc', doer_tasks (heap w) pc' = doer_tasks (heap w) pc -> accounts w [] (doer_to i pc' w) q) as Hquiet.
  { intros pc' Ht. apply accounts_silent; [done|done|by apply (in_hand_doer _ _ i _ pc' Hi)]. }
  assert (forall pc', (w ← unlock (Doer i) w; Ok (doer_to i pc' w)) = Ok w' -> doer_tasks (heap w) pc' = doer_tasks (heap w) pc ->
    accounts w [] w' q) as Hunlock.
  { intros pc' Hu Ht. destruct (unlock (Doer i) w) eqn:E; [|discriminate..]. apply unlock_inv in E as (p' & Ep' & ->).
    injection Hu as <-. assert (p' = p) as -> by congruence. by apply Hset. }
  unfold events_of. rewrite Hi. destruct pc; try discriminate.
  - apply lock_inv in Hr as (p' & Ep' & ->). assert (p' = p) as -> by congruence. by apply Hset.
  - cbn [doer_step] in Hr. rewrite Ep in Hr. injection Hr as <-. apply Hquiet. by destruct (_ && _).
  - injection Hr as Hr. by apply (Hunlock D_blocked).
  - apply lock_inv in Hr as (p' & Ep' & ->). assert (p' = p) as -> by congruence. by apply Hset.
  - cbn [doer_step] in Hr. rewrite Ep in Hr. injection Hr as <-. apply Hquiet. by destruct (negb _).
  - injection Hr as Hr. by apply (Hunlock D_exited).
  - rewrite Ep. by apply (take_accounts p w i).
  - injection Hr as Hr. by apply (Hunlock (D_work node)).
  - by apply (work_accounts p w i node).
  - by apply (free_accounts p w i node).
Qed.

(** What the main thread does before the queue is freed. *)
Lemma main_silent p w w' :
  works p w -> main_step w = Some (Ok w') ->
  adders w' = adders w /\ heap w' = heap w /\ (doers w' = doers w \/ doers w' = wake <$> doers w) /\
  exists p', pool w' = Some p' /\ queue_head_F p' = queue_head_F p.
Proof.
  intros [Ep Hok] Hr. pose proof (ok_main _ _ _ _ _ Hok) as Hm. unfold main_step, join in Hr.
  destruct (main w) eqn:Em; rewrite ?Ep in Hr; cbn [or_fault mbind outcome_bind] in Hr; try discriminate; try done.
  1,2: injection Hr as <-; simpl; split_and!; [done|done|by left|eauto].
  - unfold broadcast in Hr. rewrite Ep in Hr. injection Hr as <-. simpl. split_and!; [done|done|by right|eauto].
  - repeat case_match; try discriminate; injection Hr as <-; simpl; split_and!; try done; try (by left); eauto.
  - repeat case_match; try discriminate; injection Hr as <-; simpl; split_and!; try done; try (by left); eauto.
Qed.

Lemma closing_accounts p w w' q :
  pool w = Some p -> closing_ok p (heap w) (adders w) (doers w) (main w) -> queue_holds w q ->
  main_step w = Some (Ok w') -> accounts w (events_of Main w) w' q.
Proof.
  intros Ep (_ & Hra & Hex & (qs0 & Hch0 & Hp) & Hm) Hq Hr. unfold queue_holds in Hq. rewrite Ep in Hq. destruct Hq as (qs & Hch & ->).
  assert (qs0 = qs) as -> by (by eapply chain_unique). pose proof (nodes_nodup (heap w)) as Hnd. rewrite Hp in Hnd.
  assert (forall h, flat_map (adder_tasks h) (adders w) ++ flat_map (doer_tasks h) (doers w) = []) as Hnil.
  { intros h. rewrite !flat_nil; [done| |]; intros i pc Hi.
    - by rewrite (all_exited _ i pc Hex Hi).
    - by rewrite (all_returned _ i pc Hra Hi). }
  unfold main_step in Hr. unfold events_of. destruct Hm as [Em | [Em Hhd]]; rewrite Em, Ep in *; cbn [or_fault mbind outcome_bind] in Hr.
  - destruct qs as [|k qs].
    + simpl in Hch. rewrite Hch in Hr |- *. simpl in Hr. injection Hr as <-. apply (accounts_silent w _ []); try done.
      * unfold queue_holds. simpl. rewrite Ep. exists []. done.
    + destruct Hch as (Ehd & Hk & t & Ht & Hch). rewrite Ehd in Hr |- *. apply Z.eqb_neq in Hk. rewrite Hk, Ht in Hr. rewrite Hk.
      cbn [or_fault mbind outcome_bind] in Hr. injection Hr as <-. rewrite (task_of_some _ _ _ Ht).
      apply NoDup_cons in Hnd as [Hkn _].
      assert (forall x, x ∈ qs -> delete k (heap w) !! x = heap w !! x) as Hne.
      { intros x Hx. apply lookup_delete_ne. intros ->. done. }
      exists (tasks_of (heap w) qs). cbn [tasks_of flat_map]. rewrite (task_of_some _ _ _ Ht).
      cbn [app fmap list_fmap fifo fifo_event mbind option_bind]. rewrite Z.eqb_refl. split_and!; [done| |].
      * unfold queue_holds. simpl. exists qs. split; [by apply (chain_ext _ (heap w))|].
        symmetry. apply tasks_ext. intros x Hx. by apply task_of_ext, Hne.
      * unfold in_hand. simpl. by rewrite !Hnil.
  - destruct qs as [|k qs]; [|destruct Hch as (E & H0 & _); congruence].
    destruct (bool_decide _); [|discriminate]. injection Hr as <-. exists []. split_and!; [done|done|]. done.
Qed.

(** ** Every action *)

Lemma act_accounts w a w' q :
  pool_inv w -> act a w = Some (Ok w') -> queue_holds w q -> accounts w (events_of a w) w' q.
Proof.
  intros Hinv Hr Hq. pose proof Hinv as H. unfold pool_inv in H.
  destruct (pool w) as [p|] eqn:Ep; [destruct H as [H|H]|].
  - assert (works p w) as Hw by done. destruct a; cbn [act events_of] in *.
    + destruct (adders w !! i) as [[]|] eqn:Hi; try discriminate. injection Hr as <-. exists q. split_and!; [done|done|].
      unfold in_hand. simpl. rewrite (flat_insert _ _ i _ (A_alloc task) Hi), (flat_delete _ _ i _ Hi). done.
    + destruct (adders w !! i) as [[]|] eqn:Hi; try discriminate. injection Hr as <-.
      apply accounts_silent; [done|done|by apply (in_hand_adder _ _ i A_app A_returned)].
    + destruct (adders w !! i) as [[]|] eqn:Hi; try discriminate. case_bool_decide as Hn; [|discriminate]. destruct Hn as [Hn Hf].
      injection Hr as <-. by apply (alloc_accounts p).
    + destruct (adders w !! i) as [pc|] eqn:Hi; [|discriminate]. pose proof (adder_accounts p w i pc w' q Hw Hq Hi Hr) as HH.
      cbn [events_of] in HH. by rewrite Hi in HH.
    + destruct (doers w !! i) as [pc|] eqn:Hi; [|discriminate]. pose proof (doer_accounts p w i pc w' q Hw Hq Hi Hr) as HH.
      cbn [events_of] in HH. by rewrite Hi in HH.
    + destruct (doers w !! i) as [[]|] eqn:Hi; try discriminate. injection Hr as <-.
      apply accounts_silent; [done|done|by apply (in_hand_doer _ _ i D_blocked D_woken)].
    + destruct (main w) eqn:Em; try discriminate. injection Hr as <-. by apply accounts_silent.
    + destruct (main_silent p w w' Hw Hr) as (E1 & E2 & E3 & p' & Ep' & Ehd). pose proof (ok_main _ _ _ _ _ H) as Hm.
      assert (match main w, pool w with M_free_queue, Some p => if queue_head_F p =? 0 then [] else Drop <$> task_of (heap w) (queue_head_F p) | _, _ => [] end = []) as ->.
      { destruct (main w); done. }
      apply accounts_silent; [done| |].
      * unfold queue_holds. by rewrite Ep, Ep', Ehd, E2.
      * unfold in_hand. rewrite E1, E2. f_equal. destruct E3 as [-> | ->]; [done|]. clear.
        induction (doers w) as [|pc ds IH]; [done|]. rewrite fmap_cons. cbn [flat_map]. rewrite IH. by destruct pc.
  - pose proof H as (_ & Hr1 & Hr2 & _ & Hm). destruct a; cbn [act] in Hr.
    1-4: destruct (adders w !! i) as [pc|] eqn:Hi; [rewrite (all_returned _ i pc Hr1 Hi) in Hr|]; discriminate.
    1-2: destruct (doers w !! i) as [pc|] eqn:Hi; [rewrite (all_exited _ i pc Hr2 Hi) in Hr|]; discriminate.
    + destruct Hm as [E | [E _]]; rewrite E in Hr; discriminate.
    + by apply (closing_accounts p).
  - destruct H as (Hm & _ & Hr1 & Hr2). destruct a; cbn [act] in Hr.
    1-4: destruct (adders w !! i) as [pc|] eqn:Hi; [rewrite (all_returned _ i pc Hr1 Hi) in Hr|]; discriminate.
    1-2: destruct (doers w !! i) as [pc|] eqn:Hi; [rewrite (all_exited _ i pc Hr2 Hi) in Hr|]; discriminate.
    + by rewrite Hm in Hr.
    + unfold main_step in Hr. by rewrite Hm in Hr.
Qed.

(** ** Runs *)

Lemma act_keeps w a w' : pool_inv w -> act a w = Some (Ok w') -> pool_inv w'.
Proof. intros Hinv Hr. destruct (act_ok w a _ Hinv Hr) as [(w1 & [= <-] & ?)|[? _]]; [done|discriminate]. Qed.

Lemma run_keeps w tr w' : run w tr w' -> pool_inv w -> pool_inv w'.
Proof. induction 1; eauto using act_keeps. Qed.

Lemma calls_app tr1 tr2 : calls (tr1 ++ tr2) = calls tr1 ++ calls tr2.
Proof. apply omap_app. Qed.
Lemma dones_app tr1 tr2 : dones (tr1 ++ tr2) = dones tr1 ++ dones tr2.
Proof. apply omap_app. Qed.
Lemma drops_app tr1 tr2 : drops (tr1 ++ tr2) = drops tr1 ++ drops tr2.
Proof. apply omap_app. Qed.

Lemma accounts_compose (c1 c2 d1 d2 p1 p2 x y z : list Z) :
  c1 ++ x ≡ₚ d1 ++ p1 ++ y -> c2 ++ y ≡ₚ d2 ++ p2 ++ z -> (c1 ++ c2) ++ x ≡ₚ (d1 ++ d2) ++ (p1 ++ p2) ++ z.
Proof.
  intros H1 H2. rewrite <- !app_assoc, (Permutation_app_swap_app c1), H1, (Permutation_app_swap_app c2 d1),
    (Permutation_app_swap_app c2 p1), H2. by rewrite (Permutation_app_swap_app p1 d2).
Qed.

Lemma run_accounts w tr w' : run w tr w' -> forall q, pool_inv w -> queue_holds w q -> accounts w tr w' q.
Proof.
  induction 1 as [w|w a w1 tr w2 Hr _ IH]; intros q Hinv Hq; [by apply accounts_silent|].
  destruct (act_accounts w a w1 q Hinv Hr Hq) as (q1 & Hf & Hq1 & Hp1).
  destruct (IH q1 (act_keeps w a w1 Hinv Hr) Hq1) as (q2 & Hf2 & Hq2 & Hp2). exists q2. split_and!; [|done|].
  - rewrite fifo_app, Hf. exact Hf2.
  - rewrite calls_app, dones_app, drops_app.
    by apply (accounts_compose _ _ _ _ _ _ _ _ _ Hp1 Hp2).
Qed.

(** ** The pool that [ThreadPool_Init] makes *)

Lemma init_inv iMutex iCond na fa nd fd w :
  ThreadPool_Init iMutex iCond na fa nd fd = Some w -> pool_inv w /\ queue_holds w [] /\ in_hand w = [].
Proof.
  unfold ThreadPool_Init. destruct fa, fd; try discriminate. cbn [negb]. destruct (Z.eqb_spec 0 na); [discriminate|].
  destruct (negb (0 =? iMutex)); [discriminate|]. destruct (negb (0 =? iCond)); [discriminate|]. intros [= <-].
  split_and!.
  - unfold pool_inv. simpl. left. split.
    + intros i pc Hi. apply lookup_replicate in Hi as [-> _]. done.
    + intros i pc Hi. apply lookup_replicate in Hi as [-> _]. done.
    + done.
    + assert (forall n, omap adder_node (replicate n A_app) = []) as E1 by (intros k; by induction k).
      assert (forall n, omap doer_node (replicate n D_lock) = []) as E2 by (intros k; by induction k).
      unfold mem_ok, queue_is. rewrite E1, E2. split_and!; [|done|done|simpl; lia]. exists []. done.
    + intros H. done.
    + done.
    + unfold counts_ok. simpl. by rewrite !length_replicate.
  - exists []. done.
  - unfold in_hand. simpl. rewrite !flat_nil; [done| |]; intros i pc Hi; apply lookup_replicate in Hi as [-> _]; done.
Qed.
