(* ===== verification/ThreadPoolDrain.v ===== *)
(** * The thread pool comes to rest with its tasks done

    The statements of [Into_Queue] and [Call_Dowork_Thread] alone cannot go on
    for ever: each makes a measure of the world smaller.  Where none of them is
    possible and the pool is not being destroyed, the queue is empty and nobody
    has a task in hand. *)

From S2P Require Import Prelude LibC Buffers ThreadPool ThreadPoolFacts ThreadPoolSteps ThreadPoolQueue.

(** The statements of the pool's own code: no call of the application, no
    signal, no wakeup without a reason. *)
Definition internal (a : action) : bool := match a with Alloc _ _ | Add _ | Do _ => true | _ => false end.

Inductive internal_run : nat -> world -> list event -> world -> Prop :=
  | internal_nil w : internal_run 0 w [] w
  | internal_step n w a w1 tr w2 :
      internal a = true -> act a w = Some (Ok w1) -> internal_run n w1 tr w2 -> internal_run (S n) w (events_of a w ++ tr) w2.

(** ** The measure *)

Definition adder_weight (n : nat) (pc : adder_pc) : nat :=
  match pc with
  | A_app | A_returned => 0
  | A_broadcast => 4 * n + 1
  | A_unlock => 4 * n + 2
  | A_insert _ => 4 * n + 11
  | A_lock _ => 4 * n + 12
  | A_alloc _ => 4 * n + 13
  end.

Definition doer_weight (pc : doer_pc) : nat :=
  match pc with
  | D_blocked | D_exited => 0
  | D_take | D_quit => 1
  | D_wait | D_check => 2
  | D_test => 3
  | D_lock | D_woken => 4
  | D_free _ => 5
  | D_work _ => 6
  | D_unlock _ => 7
  end.

Definition queue_weight (w : world) : nat := match pool w with Some p => 8 * Z.to_nat (cur_queue_size_F p) | None => 0 end.

Definition measure (w : world) : nat :=
  sum_list_with (adder_weight (length (doers w))) (adders w) + sum_list_with doer_weight (doers w) + queue_weight w.

Lemma sum_insert {A} (f : A -> nat) l i x y :
  l !! i = Some x -> (sum_list_with f (<[i := y]> l) + f x = sum_list_with f l + f y)%nat.
Proof.
  revert i. induction l as [|a l IH]; intros [|i] Hi; simplify_eq/=; [lia|]. specialize (IH i Hi). lia.
Qed.

(** Waking everybody costs at most four for each doer. *)
Lemma wake_weight (ds : list doer_pc) : (sum_list_with doer_weight (wake <$> ds) <= sum_list_with doer_weight ds + 4 * length ds)%nat.
Proof. induction ds as [|pc ds IH]; [done|]. rewrite fmap_cons. cbn [sum_list_with length]. destruct pc; simpl in *; lia. Qed.

(** The weights after a statement of one thread. *)
Lemma measure_adder w w' i pc pc' :
  adders w !! i = Some pc -> adders w' = <[i := pc']> (adders w) -> doers w' = doers w ->
  (adder_weight (length (doers w)) pc' + queue_weight w' < adder_weight (length (doers w)) pc + queue_weight w)%nat ->
  (measure w' < measure w)%nat.
Proof.
  intros Hi E1 E2 Hlt. unfold measure. rewrite E1, E2.
  pose proof (sum_insert (adder_weight (length (doers w))) (adders w) i pc pc' Hi). lia.
Qed.

Lemma measure_doer w w' i pc pc' :
  doers w !! i = Some pc -> adders w' = adders w -> doers w' = <[i := pc']> (doers w) ->
  (doer_weight pc' + queue_weight w' < doer_weight pc + queue_weight w)%nat -> (measure w' < measure w)%nat.
Proof.
  intros Hi E1 E2 Hlt. unfold measure. rewrite E1, E2, length_insert.
  pose proof (sum_insert doer_weight (doers w) i pc pc' Hi). lia.
Qed.

Lemma adder_decreases p w i pc w' :
  works p w -> adders w !! i = Some pc -> adder_step i pc w = Some (Ok w') -> (measure w' < measure w)%nat.
Proof.
  intros [Ep Hok] Hi Hr. destruct pc; try discriminate; cbn [adder_step] in Hr.
  - apply lock_inv in Hr as (p' & Ep' & ->). assert (p' = p) as -> by congruence.
    apply (measure_adder _ _ i _ (A_insert node) Hi); try done. unfold queue_weight. simpl. rewrite Ep. simpl. lia.
  - destruct (ok_mem _ _ _ _ _ Hok) as ((qs & Hq) & _).
    destruct (insert_ok p _ _ _ _ i node qs Hok Hi Hq) as (h' & head' & Hrun & _). rewrite (Hrun w Ep eq_refl) in Hr.
    destruct Hq as (_ & Hs & _). pose proof (zlen_nonneg qs).
    unfold int_range in Hr. destruct (_ && _); [|discriminate]. injection Hr as <-.
    apply (measure_adder _ _ i _ A_unlock Hi); try done. unfold queue_weight. simpl. rewrite Ep. simpl. lia.
  - destruct (unlock (Adder i) w) eqn:E; [|discriminate..]. apply unlock_inv in E as (p' & Ep' & ->). injection Hr as <-.
    assert (p' = p) as -> by congruence.
    apply (measure_adder _ _ i _ A_broadcast Hi); try done. unfold queue_weight. simpl. rewrite Ep. simpl. lia.
  - destruct (broadcast w) eqn:E; [|discriminate..]. apply broadcast_inv in E as (-> & _). injection Hr as <-.
    unfold measure, queue_weight. simpl. rewrite length_fmap. pose proof (wake_weight (doers w)).
    pose proof (sum_insert (adder_weight (length (doers w))) (adders w) i A_broadcast A_app Hi). simpl in *. lia.
Qed.

Lemma doer_decreases p w i pc w' :
  works p w -> doers w !! i = Some pc -> doer_step i pc w = Some (Ok w') -> (measure w' < measure w)%nat.
Proof.
  intros [Ep Hok] Hi Hr.
  assert (forall p' pc', cur_queue_size_F p' = cur_queue_size_F p -> (doer_weight pc' < doer_weight pc)%nat ->
    (measure (doer_to i pc' (set_pool (Some p') w)) < measure w)%nat) as Hset.
  { intros p' pc' E Hlt. apply (measure_doer _ _ i _ pc' Hi); try done. unfold queue_weight. simpl. rewrite Ep, E. lia. }
  assert (forall pc', (doer_weight pc' < doer_weight pc)%nat -> (measure (doer_to i pc' w) < measure w)%nat) as Hquiet.
  { intros pc' Hlt. apply (measure_doer _ _ i _ pc' Hi); try done. unfold queue_weight. simpl. lia. }
  assert (forall pc', (w ← unlock (Doer i) w; Ok (doer_to i pc' w)) = Ok w' -> (doer_weight pc' < doer_weight pc)%nat ->
    (measure w' < measure w)%nat) as Hunlock.
  { intros pc' Hu Ht. destruct (unlock (Doer i) w) eqn:E; [|discriminate..]. apply unlock_inv in E as (p' & Ep' & ->).
    injection Hu as <-. assert (p' = p) as -> by congruence. by apply Hset. }
  destruct pc; try discriminate.
  - apply lock_inv in Hr as (p' & Ep' & ->). assert (p' = p) as -> by congruence. apply Hset; [done|simpl; lia].
  - cbn [doer_step] in Hr. rewrite Ep in Hr. injection Hr as <-. apply Hquiet. destruct (_ && _); simpl; lia.
  - injection Hr as Hr. apply (Hunlock D_blocked Hr). simpl. lia.
  - apply lock_inv in Hr as (p' & Ep' & ->). assert (p' = p) as -> by congruence. apply Hset; [done|simpl; lia].
  - cbn [doer_step] in Hr. rewrite Ep in Hr. injection Hr as <-. apply Hquiet. destruct (negb _); simpl; lia.
  - injection Hr as Hr. apply (Hunlock D_exited Hr). simpl. lia.
  - destruct (ok_mem _ _ _ _ _ Hok) as ((qs & Hq) & _).
    destruct (take_ok p _ _ _ _ i qs Hok Hi Hq) as (k & qs' & t & -> & Hhd & Ht & Hch & Hn & _).
    cbn [doer_step] in Hr. unfold take_node in Hr. rewrite Ep in Hr. cbn [or_fault mbind outcome_bind] in Hr.
    rewrite Hn, Hhd, Ht in Hr. injection Hr as <-. apply (measure_doer _ _ i _ (D_unlock k) Hi); try done.
    destruct Hq as (_ & Hs & _). rewrite zlen_cons in Hs. pose proof (zlen_nonneg qs').
    unfold queue_weight. simpl. rewrite Ep. simpl. lia.
  - injection Hr as Hr. apply (Hunlock (D_work node) Hr). simpl. lia.
  - cbn [doer_step] in Hr. destruct (heap w !! node); [|discriminate]. injection Hr as <-. apply Hquiet. simpl. lia.
  - cbn [doer_step] in Hr. destruct (heap w !! node); [|discriminate]. injection Hr as <-.
    apply (measure_doer _ _ i _ D_lock Hi); try done. unfold queue_weight. simpl. lia.
Qed.

Lemma internal_decreases w a w' :
  pool_inv w -> internal a = true -> act a w = Some (Ok w') -> (measure w' < measure w)%nat.
Proof.
  intros Hinv Ha Hr. pose proof Hinv as H. unfold pool_inv in H.
  assert (returned_below (length (adders w)) (adders w) -> exited_below (length (doers w)) (doers w) -> False) as Hend.
  { intros Hr1 Hr2. destruct a; try discriminate; cbn [act] in Hr.
    1-2: destruct (adders w !! i) as [pc|] eqn:Hi; [rewrite (all_returned _ i pc Hr1 Hi) in Hr|]; discriminate.
    destruct (doers w !! i) as [pc|] eqn:Hi; [rewrite (all_exited _ i pc Hr2 Hi) in Hr|]; discriminate. }
  destruct (pool w) as [p|] eqn:Ep; [destruct H as [H|H]|].
  - assert (works p w) as Hw by done. destruct a; try discriminate; cbn [act] in Hr.
    + destruct (adders w !! i) as [[]|] eqn:Hi; try discriminate. case_bool_decide as Hn; [|discriminate]. injection Hr as <-.
      apply (measure_adder _ _ i _ (A_lock node) Hi); try done. unfold queue_weight. simpl. lia.
    + destruct (adders w !! i) as [pc|] eqn:Hi; [|discriminate]. by apply (adder_decreases p w i pc).
    + destruct (doers w !! i) as [pc|] eqn:Hi; [|discriminate]. by apply (doer_decreases p w i pc).
  - destruct H as (_ & Hr1 & Hr2 & _). by destruct Hend.
  - destruct H as (_ & _ & Hr1 & Hr2). by destruct Hend.
Qed.

Lemma internal_bound n w tr w' : internal_run n w tr w' -> pool_inv w -> (n + measure w' <= measure w)%nat.
Proof.
  induction 1 as [w|n w a w1 tr w2 Ha Hr _ IH]; intros Hinv; [done|].
  pose proof (internal_decreases w a w1 Hinv Ha Hr). pose proof (IH (act_keeps w a w1 Hinv Hr)). lia.
Qed.

Lemma internal_is_run n w tr w' : internal_run n w tr w' -> run w tr w'.
Proof. induction 1; [constructor|]. by eapply run_step. Qed.

(** ** At rest *)

(** None of the pool's own statements is possible. *)
Definition at_rest (w : world) : Prop := forall a, internal a = true -> act a w = None.

Lemma rest_adder w i pc : at_rest w -> adders w !! i = Some pc -> adder_step i pc w = None.
Proof. intros H Hi. specialize (H (Add i) eq_refl). simpl in H. by rewrite Hi in H. Qed.

Lemma rest_doer w i pc : at_rest w -> doers w !! i = Some pc -> doer_step i pc w = None.
Proof. intros H Hi. specialize (H (Do i) eq_refl). simpl in H. by rewrite Hi in H. Qed.

Lemma rest_unlocked p w : works p w -> at_rest w -> queue_lock_F p = None.
Proof.
  intros [Ep Hok] Hrest. pose proof (ok_holder _ _ _ _ _ Hok) as Hh. unfold holder_ok in Hh.
  destruct (queue_lock_F p) as [[i|i]|] eqn:El; [| |done].
  - destruct (lookup_lt_is_Some_2 _ _ Hh) as [pc Hi]. pose proof (ok_adders _ _ _ _ _ Hok i pc Hi) as Hpc.
    pose proof (rest_adder w i pc Hrest Hi) as Hr. destruct pc; simpl in Hpc, Hr; congruence.
  - destruct (lookup_lt_is_Some_2 _ _ Hh) as [pc Hi]. pose proof (ok_doers _ _ _ _ _ Hok i pc Hi) as Hpc.
    pose proof (rest_doer w i pc Hrest Hi) as Hr. destruct pc; simpl in Hpc, Hr; try congruence; by destruct Hpc.
Qed.

Lemma lock_enabled p w me after : pool w = Some p -> queue_lock_F p = None -> lock me after w <> None.
Proof. unfold lock. by intros -> ->. Qed.

Lemma rest_adders p w i pc :
  works p w -> at_rest w -> adders w !! i = Some pc -> pc = A_app \/ pc = A_returned.
Proof.
  intros Hw Hrest Hi. pose proof (rest_unlocked p w Hw Hrest) as Hl. destruct Hw as [Ep Hok].
  pose proof (rest_adder w i pc Hrest Hi) as Hr. destruct pc; try discriminate; auto.
  - set (n := fresh ({[0]} ∪ dom (heap w) : gset Z)). assert (n ∉ ({[0]} ∪ dom (heap w) : gset Z)) as Hn by apply is_fresh.
    specialize (Hrest (Alloc i n) eq_refl). simpl in Hrest. rewrite Hi in Hrest.
    rewrite bool_decide_true in Hrest; [done|]. apply not_elem_of_union in Hn as [Hn1 Hn2]. split; [set_solver|by apply not_elem_of_dom].
  - by destruct (lock_enabled p w (Adder i) (adder_to i (A_insert node)) Ep Hl).
Qed.

Lemma rest_doers p w i pc :
  works p w -> at_rest w -> main w = M_pause -> doers w !! i = Some pc -> pc = D_blocked.
Proof.
  intros Hw Hrest Hm Hi. pose proof (rest_unlocked p w Hw Hrest) as Hl. destruct Hw as [Ep Hok].
  pose proof (rest_doer w i pc Hrest Hi) as Hr. pose proof (ok_main _ _ _ _ _ Hok) as Hmain. rewrite Hm in Hmain.
  destruct Hmain as [Hsh _]. pose proof (ok_doers _ _ _ _ _ Hok i pc Hi) as Hpc.
  destruct pc; try discriminate; auto; try (by destruct (lock_enabled p w (Doer i) (doer_to i D_test) Ep Hl)).
  by destruct Hpc as [_ Hpc].
Qed.

Lemma rest_empty w q :
  pool_inv w -> at_rest w -> main w = M_pause -> doers w <> [] -> queue_holds w q -> q = [] /\ in_hand w = [].
Proof.
  intros Hinv Hrest Hm Hd Hq. unfold pool_inv in Hinv. destruct (pool w) as [p|] eqn:Ep; [|destruct Hinv as [E _]; congruence].
  destruct Hinv as [Hok|(_ & _ & _ & _ & [E | [E _]])]; [|congruence..]. assert (works p w) as Hw by done.
  destruct (holds_queue p w q Hw Hq) as (qs & (_ & Hs & _) & ->). split.
  - destruct (decide (cur_queue_size_F p = 0)) as [E|E].
    { rewrite E in Hs. destruct qs; [done|]. rewrite zlen_cons in Hs. pose proof (zlen_nonneg qs). lia. }
    destruct (ok_wakes _ _ _ _ _ Hok E) as (j & pc & Hj & Hpc).
    + destruct (doers w) as [|pc ds] eqn:Eds; [done|]. exists 0%nat. simpl. f_equal.
      apply (rest_doers p w 0%nat pc Hw Hrest Hm). by rewrite Eds.
    + destruct (rest_adders p w j pc Hw Hrest Hj) as [-> | ->]; by destruct Hpc.
  - unfold in_hand. rewrite !flat_nil; [done| |]; intros i pc Hi.
    + by rewrite (rest_doers p w i pc Hw Hrest Hm Hi).
    + by destruct (rest_adders p w i pc Hw Hrest Hi) as [-> | ->].
Qed.

(** No action changes the number of doers or takes the main thread back to its
    pause. *)
Definition shape (w w' : world) : Prop := length (doers w') = length (doers w) /\ (main w' = M_pause -> main w = M_pause).

Definition thread_shape (w w' : world) : Prop := length (doers w') = length (doers w) /\ main w' = main w.

Lemma thread_shape_shape w w' : thread_shape w w' -> shape w w'.
Proof. intros [E1 E2]. split; [done|by rewrite E2]. Qed.

Lemma adder_shape i pc w w' : adder_step i pc w = Some (Ok w') -> thread_shape w w'.
Proof.
  intros Hr. destruct pc; try discriminate; cbn [adder_step] in Hr.
  - apply lock_inv in Hr as (p & _ & ->). done.
  - injection Hr as Hr. ok_inv Hr. injection Hr as <-. unfold insert_node in E. ok_inv E. ok_inv E. ok_inv E.
    by injection E as <-.
  - injection Hr as Hr. ok_inv Hr. apply unlock_inv in E as (p & _ & ->). by injection Hr as <-.
  - injection Hr as Hr. ok_inv Hr. apply broadcast_inv in E as (-> & _). injection Hr as <-. split; [apply length_fmap|done].
Qed.

Lemma doer_shape i pc w w' : doer_step i pc w = Some (Ok w') -> thread_shape w w'.
Proof.
  intros Hr.
  assert (forall pc' w0, main w0 = main w -> doers w0 = doers w -> thread_shape w (doer_to i pc' w0)) as Hto.
  { intros pc' w0 E1 E2. split; simpl; [by rewrite length_insert, E2|by rewrite E1]. }
  assert (forall pc', (w ← unlock (Doer i) w; Ok (doer_to i pc' w)) = Ok w' -> thread_shape w w') as Hu.
  { intros pc' Hu. ok_inv Hu. apply unlock_inv in E as (p & _ & ->). injection Hu as <-. by apply Hto. }
  destruct pc; try discriminate; try (apply lock_inv in Hr as (p & _ & ->); by apply Hto);
    try (injection Hr as Hr; by eapply Hu); cbn [doer_step] in Hr; unfold take_node in Hr;
    injection Hr as Hr; repeat (ok_inv Hr); injection Hr as <-; by apply Hto.
Qed.

Lemma main_shape w w' : main_step w = Some (Ok w') -> shape w w'.
Proof.
  intros Hr. unfold main_step, join in Hr. unfold shape. destruct (main w) eqn:Em; try discriminate; repeat case_match; try discriminate;
    try (injection Hr as Hr; repeat (ok_inv Hr); repeat case_match; try discriminate; try (ok_inv Hr));
    try (injection Hr as <-); simplify_eq/=; try (split; [done|congruence]).
  apply broadcast_inv in E as (-> & _). split; [apply length_fmap|done].
Qed.

Lemma act_shape a w w' : act a w = Some (Ok w') -> shape w w'.
Proof.
  intros Hr. destruct a; cbn [act] in Hr.
  - destruct (adders w !! i) as [[]|]; try discriminate. by injection Hr as <-.
  - destruct (adders w !! i) as [[]|]; try discriminate. by injection Hr as <-.
  - destruct (adders w !! i) as [[]|]; try discriminate. case_bool_decide; [|discriminate]. by injection Hr as <-.
  - destruct (adders w !! i) as [pc|]; [|discriminate]. by apply thread_shape_shape, (adder_shape i pc).
  - destruct (doers w !! i) as [pc|]; [|discriminate]. by apply thread_shape_shape, (doer_shape i pc).
  - destruct (doers w !! i) as [[]|]; try discriminate. injection Hr as <-. split; [apply length_insert|done].
  - destruct (main w) eqn:Em; try discriminate. injection Hr as <-. by split; [|simpl; congruence].
  - by apply main_shape.
Qed.

(** While the main thread pauses nothing is dropped. *)
Lemma pause_drops a w : main w = M_pause -> drops (events_of a w) = [].
Proof.
  intros Hm. destruct a; cbn [events_of]; rewrite ?Hm; try done.
  - destruct (adders w !! i) as [[]|]; try done. unfold task_of. by case_match.
  - destruct (doers w !! i) as [[]|]; try done; [destruct (pool w); [|done]|]; unfold task_of; by case_match.
Qed.

Lemma run_pause w tr w' : run w tr w' -> main w' = M_pause -> main w = M_pause /\ drops tr = [].
Proof.
  induction 1 as [w|w a w1 tr w2 Hr _ IH]; intros Hm; [done|]. destruct (IH Hm) as [Hm1 Hd].
  apply act_shape in Hr as [_ Hr]. split; [by apply Hr|]. by rewrite drops_app, (pause_drops a w (Hr Hm1)), Hd.
Qed.

Lemma run_doers w tr w' : run w tr w' -> length (doers w') = length (doers w).
Proof. induction 1 as [w|w a w1 tr w2 Hr _ IH]; [done|]. apply act_shape in Hr as [E _]. congruence. Qed.

Lemma run_trans w1 tr1 w2 tr2 w3 : run w1 tr1 w2 -> run w2 tr2 w3 -> run w1 (tr1 ++ tr2) w3.
Proof. induction 1; intros H2; [done|]. rewrite <- app_assoc. eapply run_step; eauto. Qed.

Lemma internal_calls n w tr w' : internal_run n w tr w' -> calls tr = [].
Proof.
  induction 1 as [w|n w a w1 tr w2 Ha Hr _ IH]; [done|]. rewrite calls_app, IH, app_nil_r.
  destruct a; try discriminate; cbn [events_of]; try done.
  - destruct (adders w !! i) as [[]|]; try done. unfold task_of. by case_match.
  - destruct (doers w !! i) as [[]|]; try done; [destruct (pool w); [|done]|]; unfold task_of; by case_match.
Qed.

Lemma internal_main n w tr w' : internal_run n w tr w' -> main w' = main w.
Proof.
  induction 1 as [w|n w a w1 tr w2 Ha Hr _ IH]; [done|]. rewrite IH. destruct a; try discriminate; cbn [act] in Hr.
  - destruct (adders w !! i) as [[]|]; try discriminate. case_bool_decide; [|discriminate]. by injection Hr as <-.
  - destruct (adders w !! i) as [pc|]; [|discriminate]. by apply (adder_shape i pc).
  - destruct (doers w !! i) as [pc|]; [|discriminate]. by apply (doer_shape i pc).
Qed.

(** The actions of a list are a run. *)
Lemma run_of_actions l : forall w r, perform_actions l w = Some r -> run w r.1 r.2.
Proof.
  induction l as [|a l IH]; intros w r Hr; simpl in Hr; [by injection Hr as <-; constructor|].
  destruct (act a w) as [[w1| |]|] eqn:Ea; try discriminate. destruct (perform_actions l w1) as [r'|] eqn:E; [|discriminate].
  injection Hr as <-. simpl. eapply run_step; [exact Ea|]. exact (IH w1 r' E).
Qed.

Lemma internal_of_actions l : forall w r, Forall (λ a, internal a = true) l -> perform_actions l w = Some r -> internal_run (length l) w r.1 r.2.
Proof.
  induction l as [|a l IH]; intros w r Hl Hr; simpl in Hr; [by injection Hr as <-; constructor|].
  inversion_clear Hl as [|? ? Ha Hl']. destruct (act a w) as [[w1| |]|] eqn:Ea; try discriminate.
  destruct (perform_actions l w1) as [r'|] eqn:E; [|discriminate]. injection Hr as <-. simpl.
  eapply internal_step; [exact Ha|exact Ea|]. exact (IH w1 r' Hl' E).
Qed.
