(* ===== verification/PoolTheorems.v ===== *)
(** * What the thread pool guarantees

    The theorems on [Frame_ThreadPool/C], each applied to a concrete run. *)

From S2P Require Import Prelude LibC Buffers ThreadPool ThreadPoolFacts ThreadPoolSteps ThreadPoolQueue ThreadPoolDrain.

(** A pool of one adder and two doers, for the examples. *)
Definition sample_pool : world :=
  Eval vm_compute in default (World None ∅ [] [] M_pause) (ThreadPool_Init 0 0 1 true 2 true).

Lemma sample_init : ThreadPool_Init 0 0 1 true 2 true = Some sample_pool.
Proof. vm_compute. reflexivity. Qed.

(** An adder hands in the tasks 7 and 8 while a doer is asleep. *)
Definition sample_start : list action :=
  [Do 0; Do 0; Do 0; Call 0 7; Alloc 0 100; Add 0; Add 0; Add 0; Add 0; Call 0 8; Alloc 0 200; Add 0; Add 0; Add 0; Add 0].

(** Both doers take a task, do it and sleep. *)
Definition sample_work : list action :=
  [Do 0; Do 0; Do 0; Do 0; Do 0; Do 1; Do 1; Do 1; Do 1; Do 1; Do 1; Do 0; Do 0; Do 1; Do 0; Do 0; Do 0; Do 1; Do 1; Do 1].

Definition sample_run : list event * world := Eval vm_compute in default ([], sample_pool) (perform_actions sample_start sample_pool).

Lemma sample_is_run : run sample_pool sample_run.1 sample_run.2.
Proof. apply (run_of_actions sample_start). vm_compute. reflexivity. Qed.

(** C6: in every run of a pool made by [ThreadPool_Init], with any number of
    adders and doers, any tasks and any interleaving, no statement faults, but
    the [++] of the queue's counter at 2147483647 tasks: no freed or foreign
    node is read, no mutex is unlocked by a thread that does not hold it, the
    pool is not used after it is freed, and the search for the end of the queue
    ends. *)
Theorem pool_never_faults iMutex iCond na fa nd fd w0 tr w a :
  ThreadPool_Init iMutex iCond na fa nd fd = Some w0 -> run w0 tr w ->
  act a w <> Some NoFuel /\
  (act a w = Some Fault -> exists i n p, a = Add i /\ adders w !! i = Some (A_insert n) /\ pool w = Some p /\
     cur_queue_size_F p = 2147483647).
Proof.
  intros Hi Hrun. destruct (init_inv _ _ _ _ _ _ _ Hi) as [Hinv _]. pose proof (run_keeps _ _ _ Hrun Hinv) as Hinv'.
  split; intros Hr; destruct (act_ok w a _ Hinv' Hr) as [(w' & ? & _)|[E H]]; try discriminate. done.
Qed.

Lemma pool_never_faults_witness : act (Do 0) sample_run.2 <> Some NoFuel.
Proof. exact (proj1 (pool_never_faults 0 0 1 true 2 true _ _ _ (Do 0) sample_init sample_is_run)). Defined.

(** A thread between [pthread_mutex_lock] and [pthread_mutex_unlock]. *)
Definition inside (w : world) (t : tid) : Prop :=
  match t with
  | Adder i => exists pc, adders w !! i = Some pc /\ match pc with A_insert _ | A_unlock => True | _ => False end
  | Doer i => exists pc, doers w !! i = Some pc /\
      match pc with D_test | D_wait | D_check | D_quit | D_take | D_unlock _ => True | _ => False end
  end.

Lemma inside_holds p w t : works p w -> inside w t <-> queue_lock_F p = Some t.
Proof.
  intros [Ep Hok]. pose proof (ok_holder _ _ _ _ _ Hok) as Hh. split.
  - destruct t as [i|i]; intros (pc & Hi & Hpc).
    + pose proof (ok_adders _ _ _ _ _ Hok i pc Hi) as H. by destruct pc.
    + pose proof (ok_doers _ _ _ _ _ Hok i pc Hi) as H. destruct pc; simpl in H; try done; by destruct H.
  - intros El. unfold holder_ok in Hh. rewrite El in Hh. destruct t as [i|i]; destruct (lookup_lt_is_Some_2 _ _ Hh) as [pc Hi];
      exists pc; (split; [done|]).
    + pose proof (ok_adders _ _ _ _ _ Hok i pc Hi) as H. destruct pc; simpl in H; done.
    + pose proof (ok_doers _ _ _ _ _ Hok i pc Hi) as H. destruct pc; simpl in H; try done; by destruct H.
Qed.

(** C29: in every world a pool reaches, the threads inside the locked parts are
    exactly the holder of the mutex, so at most one; the queue is a list in
    memory that ends and visits no node twice, and until the main thread frees
    it, [cur_queue_size_F] is its length. *)
Theorem pool_state_invariant iMutex iCond na fa nd fd w0 tr w p :
  ThreadPool_Init iMutex iCond na fa nd fd = Some w0 -> run w0 tr w -> pool w = Some p ->
  (forall t, inside w t <-> queue_lock_F p = Some t) /\
  exists qs, chain (heap w) (queue_head_F p) qs /\ NoDup qs /\
    (main w <> M_free_queue -> main w <> M_free_pool -> cur_queue_size_F p = zlen qs).
Proof.
  intros Hi Hrun Ep. destruct (init_inv _ _ _ _ _ _ _ Hi) as [Hinv _]. pose proof (run_keeps _ _ _ Hrun Hinv) as H.
  unfold pool_inv in H. rewrite Ep in H. pose proof (nodes_nodup (heap w)) as Hnd. destruct H as [H|H].
  - split; [intros t; by apply inside_holds|]. destruct (ok_mem _ _ _ _ _ H) as ((qs & Hch & Hs & Hp) & _).
    exists qs. split; [done|]. rewrite Hp in Hnd. apply NoDup_app in Hnd as [Hnd _]. done.
  - destruct H as (Hl & Hr1 & Hr2 & (qs & Hch & Hp) & Hm). split.
    + intros t. rewrite Hl. split; [|done]. destruct t; intros (pc & Hpc & Hin).
      * by rewrite (all_returned _ _ _ Hr1 Hpc) in Hin.
      * by rewrite (all_exited _ _ _ Hr2 Hpc) in Hin.
    + exists qs. rewrite Hp in Hnd. split_and!; [done|done|]. by destruct Hm as [-> | [-> _]].
Qed.

Lemma pool_state_invariant_witness :
  exists p qs, pool sample_run.2 = Some p /\ chain (heap sample_run.2) (queue_head_F p) qs /\ NoDup qs.
Proof.
  eexists. destruct (pool_state_invariant 0 0 1 true 2 true _ _ _ _ sample_init sample_is_run eq_refl) as (_ & qs & Hch & Hnd & _).
  exists qs. exact (conj eq_refl (conj Hch Hnd)).
Defined.

(** C3: every run of the pool is a run of a first-in first-out queue: the tasks
    leave it, to a doer or at the end, in the order in which they were put in.
    Every task handed to [Into_Queue] is at every moment in exactly one place:
    done, dropped by [threadpool_destroy], in the hands of a thread, or in the
    queue. *)
Theorem pool_is_fifo iMutex iCond na fa nd fd w0 tr w :
  ThreadPool_Init iMutex iCond na fa nd fd = Some w0 -> run w0 tr w ->
  exists q, fifo tr [] = Some q /\ queue_holds w q /\ calls tr ≡ₚ dones tr ++ drops tr ++ in_hand w ++ q.
Proof.
  intros Hi Hrun. destruct (init_inv _ _ _ _ _ _ _ Hi) as (Hinv & Hq & Hh).
  destruct (run_accounts _ _ _ Hrun [] Hinv Hq) as (q & Hf & Hq' & Hp). exists q. rewrite Hh, !app_nil_r in Hp. done.
Qed.

Lemma pool_is_fifo_witness : exists q, fifo [Called 7; Put 7; Called 8; Put 8] [] = Some q /\ queue_holds sample_run.2 q.
Proof.
  destruct (pool_is_fifo 0 0 1 true 2 true _ _ _ sample_init sample_is_run) as (q & Hf & Hq & _).
  exists q. exact (conj Hf Hq).
Defined.

(** C4: while no new task is handed in and nobody ends the pool (the main
    thread is in [pause]), a pool with at least one doer comes to rest within [measure] statements, however the threads are scheduled, and
    where it rests every task handed to [Into_Queue] has been done, exactly
    once. *)
Theorem pool_drains iMutex iCond na fa nd fd w0 tr w :
  ThreadPool_Init iMutex iCond na fa nd fd = Some w0 -> 0 < nd -> run w0 tr w -> main w = M_pause ->
  forall n tr' w', internal_run n w tr' w' ->
    (n <= measure w)%nat /\ (at_rest w' -> dones (tr ++ tr') ≡ₚ calls tr).
Proof.
  intros Hi Hnd Hrun Hm n tr' w' Hint. destruct (init_inv _ _ _ _ _ _ _ Hi) as (Hinv & Hq & Hh).
  pose proof (run_keeps _ _ _ Hrun Hinv) as Hinv1. split; [pose proof (internal_bound _ _ _ _ Hint Hinv1); lia|].
  intros Hrest. pose proof (internal_main _ _ _ _ Hint) as Em. rewrite Hm in Em.
  pose proof (run_trans _ _ _ _ _ Hrun (internal_is_run _ _ _ _ Hint)) as Hall.
  destruct (run_accounts _ _ _ Hall [] Hinv Hq) as (q & _ & Hq' & Hp). destruct (run_pause _ _ _ Hall Em) as [_ Hd].
  assert (doers w' <> []) as Hne.
  { pose proof (run_doers _ _ _ Hall) as El. unfold ThreadPool_Init in Hi. repeat case_match; simplify_eq/=.
    rewrite length_replicate in El. destruct (doers w'); simpl in El; [lia|done]. }
  destruct (rest_empty w' q (run_keeps _ _ _ Hall Hinv) Hrest Em Hne Hq') as [-> Hhand].
  rewrite Hh, Hd, Hhand, calls_app, (internal_calls _ _ _ _ Hint) in Hp. simpl in Hp. rewrite !app_nil_r in Hp. by symmetry.
Qed.

Definition sample_rest : list event * world := Eval vm_compute in default ([], sample_pool) (perform_actions sample_work sample_run.2).

Lemma sample_rest_is_run : internal_run 20 sample_run.2 sample_rest.1 sample_rest.2.
Proof. apply (internal_of_actions sample_work); [repeat constructor|vm_compute; reflexivity]. Qed.

Lemma sample_at_rest : at_rest sample_rest.2.
Proof. intros [i t|i|[|i] n|[|i]|[|[|i]]|i| |] Ha; done. Qed.

Lemma pool_drains_witness : (20 <= measure sample_run.2)%nat /\ [8; 7] ≡ₚ [7; 8].
Proof.
  destruct (pool_drains 0 0 1 true 2 true _ _ _ sample_init eq_refl sample_is_run eq_refl _ _ _ sample_rest_is_run) as [Hn Hd].
  exact (conj Hn (Hd sample_at_rest)).
Defined.

(** C30: when [threadpool_destroy] returns 0 it has joined every thread, and of
    the nodes [Into_Queue] allocated none is left: each was freed once, by the
    doer that took it or with the rest of the queue. The tasks of the rest of
    the queue are not done. *)
Theorem destroy_frees_the_pool iMutex iCond na fa nd fd w0 tr w :
  ThreadPool_Init iMutex iCond na fa nd fd = Some w0 -> run w0 tr w -> main w = M_returned 0 ->
  pool w = None /\ heap w = ∅ /\ Forall (λ pc, pc = A_returned) (adders w) /\ Forall (λ pc, pc = D_exited) (doers w) /\
  calls tr ≡ₚ dones tr ++ drops tr.
Proof.
  intros Hi Hrun Hm. destruct (init_inv _ _ _ _ _ _ _ Hi) as (Hinv & Hq & Hh). pose proof (run_keeps _ _ _ Hrun Hinv) as H.
  destruct (run_accounts _ _ _ Hrun [] Hinv Hq) as (q & _ & Hq' & Hp). unfold pool_inv in H. destruct (pool w) as [p|] eqn:Ep.
  { destruct H as [H|(_ & _ & _ & _ & [E | [E _]])]; [|congruence..]. pose proof (ok_main _ _ _ _ _ H) as Hmain. rewrite Hm in Hmain.
    by destruct Hmain. }
  destruct H as (_ & Hheap & Hr1 & Hr2). split_and!; [done|done| | |].
  - apply Forall_lookup. intros i pc. by apply all_returned.
  - apply Forall_lookup. intros i pc. by apply all_exited.
  - unfold queue_holds in Hq'. rewrite Ep in Hq'. rewrite Hh, Hq' in Hp. unfold in_hand in Hp. rewrite !flat_nil in Hp; [by rewrite !app_nil_r in Hp| |]; intros i pc Hpc.
    + by rewrite (all_exited _ _ _ Hr2 Hpc).
    + by rewrite (all_returned _ _ _ Hr1 Hpc).
Qed.

(** The pool is destroyed with the task 8 in the queue. *)
Definition sample_end : list action :=
  sample_start ++ [Do 0; Do 0; Do 0; Do 0; Do 0; Do 0; Do 0; Return 0; Signal; Main; Main; Main; Main; Main;
    Do 0; Do 0; Do 0; Do 0; Do 1; Do 1; Do 1; Do 1; Main; Main; Main; Main; Main; Main].

Definition sample_ended : list event * world := Eval vm_compute in default ([], sample_pool) (perform_actions sample_end sample_pool).

Lemma sample_end_is_run : run sample_pool sample_ended.1 sample_ended.2.
Proof. apply (run_of_actions sample_end). vm_compute. reflexivity. Qed.

Lemma destroy_frees_the_pool_witness : heap sample_ended.2 = ∅ /\ [7; 8] ≡ₚ [7] ++ [8].
Proof.
  destruct (destroy_frees_the_pool 0 0 1 true 2 true _ _ _ sample_init sample_end_is_run eq_refl) as (_ & Hh & _ & _ & Hc).
  exact (conj Hh Hc).
Defined.

(** The doer has seen an empty queue and the switch off; before it sleeps, the
    main thread switches it on and wakes whoever sleeps. *)
Definition lost_wakeup : list action :=
  [Do 0; Do 0; Return 0; Signal; Main; Main; Main; Do 0; Main; Main].

(** C31: [threadpool_destroy] sets the switch and wakes the doers without the
    mutex, so a doer between its test and its wait misses both: the pool of one
    adder and one doer can reach a world in which the main thread waits for the
    doer, the doer waits to be woken, and but for a wakeup without reason no
    action of any thread is possible. *)
Theorem destroy_can_hang :
  exists w0 tr w, ThreadPool_Init 0 0 1 true 1 true = Some w0 /\ run w0 tr w /\ main w = M_join_do 0 /\
    doers w = [D_blocked] /\ forall a, act a w <> None -> a = Wakeup 0.
Proof.
  destruct (ThreadPool_Init 0 0 1 true 1 true) as [w0|] eqn:E; [|discriminate].
  destruct (perform_actions lost_wakeup w0) as [[tr w]|] eqn:Ep; [|vm_compute in E; injection E as <-; vm_compute in Ep; discriminate].
  exists w0, tr, w. pose proof (run_of_actions _ _ _ Ep) as Hrun. vm_compute in E. injection E as <-. vm_compute in Ep. injection Ep as <- <-.
  split_and!; [done|exact Hrun|done|done|]. intros a Ha.
  destruct a as [[|i] t|[|i]|[|i] n|[|i]|[|i]|[|i]| |]; try (by destruct Ha); try done; destruct Ha; simpl; try done; by rewrite lookup_nil.
Qed.

(** [ThreadPool_Init] refuses a pool without adders. The test for one without
    doers tests the adders again: such a pool is made, and its tasks are never
    done. *)
Theorem pool_without_doers :
  ThreadPool_Init 0 0 0 true 1 true = None /\
  exists w0, ThreadPool_Init 0 0 1 true 0 true = Some w0 /\ forall tr w, run w0 tr w -> dones tr = [].
Proof.
  split; [done|]. eexists. split; [reflexivity|]. intros tr w Hrun.
  assert (forall w1, length (doers w1) = 0%nat -> run w1 tr w -> dones tr = []) as H; [|by eapply H; [|exact Hrun]].
  clear Hrun. intros w1 Hd Hrun. induction Hrun as [|w1 a w2 tr w3 Hr _ IH]; [done|].
  pose proof (act_shape a w1 w2 Hr) as [El _]. rewrite dones_app, IH by congruence. rewrite app_nil_r.
  destruct a; cbn [events_of]; try done.
  - destruct (adders w1 !! i) as [[]|]; try done. unfold task_of. by case_match.
  - destruct (doers w1); [done|discriminate].
  - destruct (main w1), (pool w1); try done. destruct (queue_head_F c =? 0); [done|]. unfold task_of. by case_match.
Qed.
