(* ===== verification/IntrusiveList.v ===== *)
(** * The intrusive list

    [Lib_List/lib_list.h]: doubly linked rings of [struct list_head].  A memory
    maps the addresses of the nodes to their two pointers; every store of the
    code is a store here, in the code's order, so nodes that coincide are
    treated as the code treats them. *)

From S2P Require Import Prelude LibC.

Record list_head := ListHead { next : Z; prev : Z }.

Abbreviation memory := (gmap Z list_head).

(** [p->next], [p->prev] and the stores to them. *)
Definition get_next (h : memory) (p : Z) : outcome Z := m ← or_fault (h !! p); Ok (next m).
Definition get_prev (h : memory) (p : Z) : outcome Z := m ← or_fault (h !! p); Ok (prev m).
Definition set_next (h : memory) (p v : Z) : outcome memory := m ← or_fault (h !! p); Ok (<[p := ListHead v (prev m)]> h).
Definition set_prev (h : memory) (p v : Z) : outcome memory := m ← or_fault (h !! p); Ok (<[p := ListHead (next m) v]> h).

Definition INIT_LIST_HEAD (h : memory) (list : Z) : outcome memory :=
  h ← set_next h list list; set_prev h list list.

Definition __list_add (h : memory) (new prev next : Z) : outcome memory :=
  h ← set_prev h next new;
  h ← set_next h new next;
  h ← set_prev h new prev;
  set_next h prev new.

Definition list_add (h : memory) (new head : Z) : outcome memory := n ← get_next h head; __list_add h new head n.
Definition list_add_tail (h : memory) (new head : Z) : outcome memory := p ← get_prev h head; __list_add h new p head.

Definition __list_del (h : memory) (prev next : Z) : outcome memory :=
  h ← set_prev h next prev; set_next h prev next.

Definition list_del (h : memory) (entry : Z) : outcome memory :=
  p ← get_prev h entry; n ← get_next h entry;
  h ← __list_del h p n;
  h ← set_next h entry 0; set_prev h entry 0.

Definition list_del_init (h : memory) (entry : Z) : outcome memory :=
  p ← get_prev h entry; n ← get_next h entry;
  h ← __list_del h p n;
  INIT_LIST_HEAD h entry.

Definition list_move (h : memory) (list head : Z) : outcome memory :=
  p ← get_prev h list; n ← get_next h list;
  h ← __list_del h p n;
  list_add h list head.

Definition list_move_tail (h : memory) (list head : Z) : outcome memory :=
  p ← get_prev h list; n ← get_next h list;
  h ← __list_del h p n;
  list_add_tail h list head.

Definition list_empty (h : memory) (head : Z) : outcome bool := n ← get_next h head; Ok (n =? head).

Definition __list_splice (h : memory) (list head : Z) : outcome memory :=
  first ← get_next h list; last ← get_prev h list; at_ ← get_next h head;
  h ← set_prev h first head;
  h ← set_next h head first;
  h ← set_next h last at_;
  set_prev h at_ last.

Definition list_splice (h : memory) (list head : Z) : outcome memory :=
  e ← list_empty h list;
  if negb e then __list_splice h list head else Ok h.

Definition list_splice_init (h : memory) (list head : Z) : outcome memory :=
  e ← list_empty h list;
  if negb e then h ← __list_splice h list head; INIT_LIST_HEAD h list else Ok h.

(** The struct that has the node at [offset]: pointers are 64 bits wide. *)
Definition list_entry (ptr offset : Z) : Z := u64 (ptr - offset).

(** ** The loops *)

(** The loops over a list with a body that changes a state and may change the
    memory; the loop variable starts at [pos]. *)
Section loops.
Context {S : Type} (body : Z -> memory -> S -> outcome (memory * S)).

Fixpoint for_each_from (fuel : nat) (step : memory -> Z -> outcome Z) (head pos : Z) (h : memory) (s : S) : outcome (memory * S) :=
  if pos =? head then Ok (h, s)
  else
    match fuel with
    | O => NoFuel
    | Datatypes.S fuel =>
        r ← body pos h s;
        pos ← step r.1 pos;
        for_each_from fuel step head pos r.1 r.2
    end.

Definition list_for_each (fuel : nat) (head : Z) (h : memory) (s : S) : outcome (memory * S) :=
  pos ← get_next h head; for_each_from fuel get_next head pos h s.

Definition list_for_each_prev (fuel : nat) (head : Z) (h : memory) (s : S) : outcome (memory * S) :=
  pos ← get_prev h head; for_each_from fuel get_prev head pos h s.

(** [n] is read before the body runs, and again after the body of the last
    node, from the head. *)
Fixpoint for_each_safe_from (fuel : nat) (head pos n : Z) (h : memory) (s : S) : outcome (memory * S) :=
  if pos =? head then Ok (h, s)
  else
    match fuel with
    | O => NoFuel
    | Datatypes.S fuel =>
        r ← body pos h s;
        n' ← get_next r.1 n;
        for_each_safe_from fuel head n n' r.1 r.2
    end.

Definition list_for_each_safe (fuel : nat) (head : Z) (h : memory) (s : S) : outcome (memory * S) :=
  pos ← get_next h head; n ← get_next h pos; for_each_safe_from fuel head pos n h s.
End loops.

(** [list_for_each_entry]: the body gets the struct of the node. *)
Definition list_for_each_entry {S : Type} (offset : Z) (body : Z -> memory -> S -> outcome (memory * S))
    (fuel : nat) (head : Z) (h : memory) (s : S) : outcome (memory * S) :=
  list_for_each (λ pos, body (list_entry pos offset)) fuel head h s.

Definition list_for_each_entry_safe {S : Type} (offset : Z) (body : Z -> memory -> S -> outcome (memory * S))
    (fuel : nat) (head : Z) (h : memory) (s : S) : outcome (memory * S) :=
  list_for_each_safe (λ pos, body (list_entry pos offset)) fuel head h s.
