(* ===== verification/IntrusiveListFacts.v ===== *)
(** * Rings

    A memory seen as a number of rings, each the list of its nodes from the
    head on, and what the operations of the intrusive list do to them. *)

From S2P Require Import Prelude LibC IntrusiveList.

Definition next_of (h : memory) (p : Z) : option Z := next <$> h !! p.
Definition prev_of (h : memory) (p : Z) : option Z := prev <$> h !! p.
Definition node (h : memory) (p : Z) : Prop := is_Some (h !! p).

(** [xs] are linked one after the other, in both directions. *)
Fixpoint links (h : memory) (xs : list Z) : Prop :=
  match xs with
  | p :: (q :: _) as rest => next_of h p = Some q /\ prev_of h q = Some p /\ links h rest
  | _ => True
  end.

(** The ring of the node [p] and the nodes after it. *)
Definition ring (h : memory) (r : list Z) : Prop :=
  match r with p :: _ => links h (r ++ [p]) | [] => False end.

(** A memory of separate rings. *)
Definition rings (h : memory) (R : list (list Z)) : Prop := Forall (ring h) R /\ NoDup (concat R).

#[export] Instance rings_proper h : Proper ((≡ₚ) ==> iff) (rings h).
Proof. intros R R' HR. unfold rings. by rewrite HR. Qed.

(** ** Stores *)

Lemma node_next h p : node h p -> exists v, next_of h p = Some v /\ get_next h p = Ok v.
Proof. intros [m Hm]. unfold next_of, get_next. rewrite Hm. by exists (next m). Qed.

Lemma next_get h p v : next_of h p = Some v -> get_next h p = Ok v.
Proof. unfold next_of, get_next. destruct (h !! p); simpl; congruence. Qed.
Lemma prev_get h p v : prev_of h p = Some v -> get_prev h p = Ok v.
Proof. unfold prev_of, get_prev. destruct (h !! p); simpl; congruence. Qed.
Lemma next_node h p v : next_of h p = Some v -> node h p.
Proof. unfold next_of, node. destruct (h !! p); [eauto|discriminate]. Qed.
Lemma prev_node h p v : prev_of h p = Some v -> node h p.
Proof. unfold prev_of, node. destruct (h !! p); [eauto|discriminate]. Qed.

(** [h'] is [h] with other pointers in some nodes. *)
Definition stored (h h' : memory) (N P : Z -> option Z) : Prop :=
  (forall k, node h' k <-> node h k) /\ (forall k, next_of h' k = N k) /\ (forall k, prev_of h' k = P k).

Lemma set_next_run h p v :
  node h p -> exists h', set_next h p v = Ok h' /\ stored h h' (λ k, if k =? p then Some v else next_of h k) (prev_of h).
Proof.
  intros [m Hm]. unfold set_next. rewrite Hm. eexists. split; [reflexivity|]. split_and!; intros k; unfold node, next_of, prev_of;
    destruct (decide (k = p)) as [->|Hne]; rewrite ?lookup_insert_eq, ?lookup_insert_ne, ?Hm, ?Z.eqb_refl by done; simpl; eauto.
  - by split; eauto.
  - apply Z.eqb_neq in Hne. by rewrite Hne.
Qed.

Lemma set_prev_run h p v :
  node h p -> exists h', set_prev h p v = Ok h' /\ stored h h' (next_of h) (λ k, if k =? p then Some v else prev_of h k).
Proof.
  intros [m Hm]. unfold set_prev. rewrite Hm. eexists. split; [reflexivity|]. split_and!; intros k; unfold node, next_of, prev_of;
    destruct (decide (k = p)) as [->|Hne]; rewrite ?lookup_insert_eq, ?lookup_insert_ne, ?Hm, ?Z.eqb_refl by done; simpl; eauto.
  - by split; eauto.
  - apply Z.eqb_neq in Hne. by rewrite Hne.
Qed.

(** Runs the first store of a sequence. *)
Ltac store :=
  match goal with
  | |- context [set_next ?h ?p ?v] =>
      let h1 := fresh "h" in let E := fresh "E" in let S1 := fresh "St" in
      destruct (set_next_run h p v) as (h1 & E & S1); [|rewrite E; cbn [mbind outcome_bind]; clear E]
  | |- context [set_prev ?h ?p ?v] =>
      let h1 := fresh "h" in let E := fresh "E" in let S1 := fresh "St" in
      destruct (set_prev_run h p v) as (h1 & E & S1); [|rewrite E; cbn [mbind outcome_bind]; clear E]
  end.

(** ** Links *)

Lemma links_app h xs a ys : links h (xs ++ a :: ys) <-> links h (xs ++ [a]) /\ links h (a :: ys).
Proof.
  induction xs as [|x xs IH]; [simpl; tauto|]. destruct xs as [|x' xs].
  - simpl. destruct ys; simpl; tauto.
  - change ((x :: x' :: xs) ++ a :: ys) with (x :: x' :: (xs ++ a :: ys)).
    change ((x :: x' :: xs) ++ [a]) with (x :: x' :: (xs ++ [a])). cbn [links].
    change (x' :: xs ++ a :: ys) with ((x' :: xs) ++ a :: ys). change (x' :: xs ++ [a]) with ((x' :: xs) ++ [a]).
    rewrite IH. tauto.
Qed.

(** The nodes whose [next], and those whose [prev], are part of the links. *)
Lemma links_frame h h' xs :
  links h xs -> (forall k, k ∈ removelast xs -> next_of h' k = next_of h k) ->
  (forall k, k ∈ tail xs -> prev_of h' k = prev_of h k) -> links h' xs.
Proof.
  induction xs as [|p [|q xs] IH]; intros Hl Hn Hp; try done. destruct Hl as (H1 & H2 & Hl).
  split_and!.
  - rewrite Hn; [done|]. simpl. by left.
  - rewrite Hp; [done|]. simpl. by left.
  - apply IH; [done| |]; intros k Hk; [apply Hn; simpl; by right|apply Hp; simpl; destruct xs; [by inversion Hk|by right]].
Qed.

Lemma links_last h xs p q : links h (xs ++ [p; q]) -> next_of h p = Some q /\ prev_of h q = Some p.
Proof. intros H. apply links_app in H as [_ H]. simpl in H. tauto. Qed.

Lemma removelast_snoc {A} (l : list A) x : removelast (l ++ [x]) = l.
Proof. rewrite removelast_app by done. apply app_nil_r. Qed.

(** Every node of a ring is in memory. *)
Lemma links_next h xs k : links h xs -> k ∈ removelast xs -> exists v, next_of h k = Some v.
Proof.
  induction xs as [|p [|q xs] IH]; intros Hl Hk; [by inversion Hk..|]. destruct Hl as (H1 & H2 & Hl).
  change (removelast (p :: q :: xs)) with (p :: removelast (q :: xs)) in Hk. inversion Hk; subst; eauto.
Qed.

Lemma ring_node h r k : ring h r -> k ∈ r -> node h k.
Proof.
  destruct r as [|p r]; [done|]. intros Hr Hk. destruct (links_next h ((p :: r) ++ [p]) k Hr) as [v Hv]; [by rewrite removelast_snoc|].
  by eapply next_node.
Qed.

(** A ring does not see stores outside it. *)
Lemma ring_frame h h' r :
  ring h r -> (forall k, k ∈ r -> next_of h' k = next_of h k /\ prev_of h' k = prev_of h k) -> ring h' r.
Proof.
  destruct r as [|p r]; [done|]. intros Hr Hk. eapply links_frame; [exact Hr| |].
  - intros k. rewrite removelast_snoc. intros H. by apply Hk.
  - intros k. simpl. intros H. apply Hk. set_solver.
Qed.

(** ** Linking a node in, and taking one out *)

(** What the stores of [__list_add] and [__list_del] amount to. *)
Record linked_in (h h' : memory) (n p q : Z) : Prop := {
  in_next_p : next_of h' p = Some n; in_next_n : next_of h' n = Some q;
  in_prev_n : prev_of h' n = Some p; in_prev_q : prev_of h' q = Some n;
  in_next : forall k, k <> p -> k <> n -> next_of h' k = next_of h k;
  in_prev : forall k, k <> q -> k <> n -> prev_of h' k = prev_of h k;
  in_node : forall k, node h' k <-> node h k }.

Record linked_out (h h' : memory) (p q : Z) : Prop := {
  out_next_p : next_of h' p = Some q; out_prev_q : prev_of h' q = Some p;
  out_next : forall k, k <> p -> next_of h' k = next_of h k;
  out_prev : forall k, k <> q -> prev_of h' k = prev_of h k;
  out_node : forall k, node h' k <-> node h k }.

(** Follows a pointer through a sequence of stores. *)
Ltac through :=
  repeat match goal with
  | S1 : stored _ ?h _ _ |- context [next_of ?h ?k] => rewrite (proj1 (proj2 S1) k)
  | S1 : stored _ ?h _ _ |- context [prev_of ?h ?k] => rewrite (proj2 (proj2 S1) k)
  | S1 : stored _ ?h _ _ |- context [node ?h ?k] => rewrite (proj1 S1 k)
  | |- context [?a =? ?b] => destruct (Z.eqb_spec a b); try congruence
  end.

Lemma list_add_run h n p q :
  node h n -> node h p -> node h q -> n <> p -> n <> q -> exists h', __list_add h n p q = Ok h' /\ linked_in h h' n p q.
Proof.
  intros Hn Hp Hq Hnp Hnq. unfold __list_add. store; [done|]. store; [by through|]. store; [by through|]. store; [by through|].
  eexists. split; [reflexivity|]. split; intros; by through.
Qed.

Lemma list_del_run h p q : node h p -> node h q -> exists h', __list_del h p q = Ok h' /\ linked_out h h' p q.
Proof.
  intros Hp Hq. unfold __list_del. store; [done|]. store; [by through|].
  eexists. split; [reflexivity|]. split; intros; by through.
Qed.

Lemma init_run h p :
  node h p -> exists h', INIT_LIST_HEAD h p = Ok h' /\ next_of h' p = Some p /\ prev_of h' p = Some p /\
    (forall k, k <> p -> next_of h' k = next_of h k /\ prev_of h' k = prev_of h k) /\ (forall k, node h' k <-> node h k).
Proof.
  intros Hp. unfold INIT_LIST_HEAD. store; [done|]. store; [by through|].
  eexists. split; [reflexivity|]. split_and!; intros; try split; by through.
Qed.

Section cut.
Context (h h' : memory) (A : list Z) (p q : Z) (B : list Z).

Lemma links_insert n :
  links h (A ++ p :: q :: B) -> NoDup (removelast (A ++ p :: q :: B)) -> NoDup (tail (A ++ p :: q :: B)) ->
  n ∉ A ++ p :: q :: B -> linked_in h h' n p q -> links h' (A ++ p :: n :: q :: B).
Proof.
  intros Hl Hs Ht Hn [H1 H2 H3 H4 H5 H6 _]. apply links_app in Hl as [Ha Hl]. destruct Hl as (_ & _ & Hb).
  rewrite removelast_app in Hs by done. apply NoDup_app in Hs as (_ & Hs1 & Hs2).
  change (removelast (p :: q :: B)) with (p :: removelast (q :: B)) in Hs1, Hs2. apply NoDup_cons in Hs2 as [Hs2 _].
  apply links_app. split; [|refine (conj H1 (conj H3 (conj H2 (conj H4 _))))].
  - apply (links_frame h h' (A ++ [p])); [exact Ha| |]; intros k Hk; [rewrite removelast_snoc in Hk; apply H5|apply H6].
    + intros ->. apply (Hs1 p Hk). by left.
    + intros ->. set_solver.
    + intros ->. destruct A as [|x A']; [by inversion Hk|]. simpl in Hk, Ht.
      change (p :: q :: B) with ([p] ++ q :: B) in Ht. rewrite app_assoc in Ht. apply NoDup_app in Ht as (_ & Ht & _).
      apply (Ht q Hk). by left.
    + intros ->. apply Hn. destruct A as [|x A']; [by inversion Hk|]. simpl in Hk. set_solver.
  - apply (links_frame h h' (q :: B)); [exact Hb| |]; intros k Hk; [apply H5|apply H6].
    + intros ->. done.
    + intros ->. apply Hn. assert (n ∈ q :: B); [|set_solver]. clear - Hk. revert q Hk.
      induction B as [|b B' IH]; intros q' Hk; [by inversion Hk|].
      change (removelast (q' :: b :: B')) with (q' :: removelast (b :: B')) in Hk. inversion Hk; subst; [by left|right; by apply IH].
    + intros ->. simpl in Hk. destruct A as [|x A']; simpl in Ht; [by apply NoDup_cons in Ht as [? _]|].
      apply NoDup_app in Ht as (_ & _ & Ht). apply NoDup_cons in Ht as [_ Ht]. by apply NoDup_cons in Ht as [? _].
    + intros ->. simpl in Hk. set_solver.
Qed.

Lemma links_unlink e :
  links h (A ++ p :: e :: q :: B) -> NoDup (removelast (A ++ p :: e :: q :: B)) -> NoDup (tail (A ++ p :: e :: q :: B)) ->
  next_of h' p = Some q -> prev_of h' q = Some p ->
  (forall k, k <> p -> k <> e -> next_of h' k = next_of h k) -> (forall k, k <> q -> k <> e -> prev_of h' k = prev_of h k) ->
  links h' (A ++ p :: q :: B).
Proof.
  intros Hl Hs Ht H1 H2 H5 H6. apply links_app in Hl as [Ha Hl]. destruct Hl as (_ & _ & Hb). destruct Hb as (_ & _ & Hb).
  rewrite removelast_app in Hs by done. apply NoDup_app in Hs as (_ & Hs1 & Hs2).
  change (removelast (p :: e :: q :: B)) with (p :: e :: removelast (q :: B)) in Hs1, Hs2.
  apply NoDup_cons in Hs2 as [Hs2 Hs3]. apply NoDup_cons in Hs3 as [Hs3 _].
  apply links_app. split; [|refine (conj H1 (conj H2 _))].
  - apply (links_frame h h' (A ++ [p])); [exact Ha| |]; intros k Hk; [rewrite removelast_snoc in Hk; apply H5|apply H6].
    + intros ->. apply (Hs1 p Hk). by left.
    + intros ->. apply (Hs1 e Hk). right. by left.
    + intros ->. destruct A as [|x A']; [by inversion Hk|]. simpl in Hk, Ht.
      change (p :: e :: q :: B) with ([p] ++ e :: q :: B) in Ht. rewrite app_assoc in Ht. apply NoDup_app in Ht as (_ & Ht & _).
      apply (Ht q Hk). right. by left.
    + intros ->. destruct A as [|x A']; [by inversion Hk|]. simpl in Hk, Ht.
      change (p :: e :: q :: B) with ([p] ++ e :: q :: B) in Ht. rewrite app_assoc in Ht. apply NoDup_app in Ht as (_ & Ht & _).
      apply (Ht e Hk). by left.
  - assert (NoDup (e :: q :: B)) as Hd.
    { destruct A as [|x A']; [done|]. simpl in Ht. apply NoDup_app in Ht as (_ & _ & Ht). by apply NoDup_cons in Ht as [_ Ht]. }
    apply NoDup_cons in Hd as [Hd1 Hd]. apply NoDup_cons in Hd as [Hd2 _].
    apply (links_frame h h' (q :: B)); [exact Hb| |]; intros k Hk; [apply H5|apply H6].
    + intros ->. apply Hs2. by right.
    + intros ->. done.
    + intros ->. done.
    + intros ->. simpl in Hk. set_solver.
Qed.
End cut.

(** ** Memories of rings *)

Lemma rings_frame h h' R :
  rings h R -> (forall k, k ∈ concat R -> next_of h' k = next_of h k /\ prev_of h' k = prev_of h k) -> rings h' R.
Proof.
  intros [Hr Hd] Hk. split; [|done]. rewrite Forall_forall in Hr |- *. intros r Hin. apply (ring_frame h); [by apply Hr|].
  intros k Hkr. apply Hk. apply list_elem_of_In, in_concat. exists r. split; by apply list_elem_of_In.
Qed.

Lemma rings_cons h r R : rings h (r :: R) <-> ring h r /\ NoDup r /\ rings h R /\ forall k, k ∈ r -> k ∉ concat R.
Proof.
  unfold rings. rewrite Forall_cons. cbn [concat]. rewrite NoDup_app. split; [intros [[? ?] (? & ? & ?)]|intros (? & ? & [? ?] & ?)];
    split_and!; try done; split; done.
Qed.

Lemma rings_node h R k : rings h R -> k ∈ concat R -> node h k.
Proof.
  intros [Hr _] Hk. apply list_elem_of_In, in_concat in Hk as (r & Hin & Hk). rewrite Forall_forall in Hr.
  apply (ring_node h r); [apply Hr|]; by apply list_elem_of_In.
Qed.

Lemma cut_in (A : list Z) p q B (H : Z) l k : (H :: l) ++ [H] = A ++ p :: q :: B -> k = p \/ k = q -> k ∈ H :: l.
Proof.
  intros E Hk. assert (k ∈ (H :: l) ++ [H]) as Hin by (rewrite E; destruct Hk as [-> | ->]; set_solver). set_solver.
Qed.

Lemma ring_dup (H : Z) l c : NoDup (H :: l) -> (H :: l) ++ [H] = c -> NoDup (removelast c) /\ NoDup (tail c).
Proof.
  intros Hd <-. split; [by rewrite removelast_snoc|]. simpl. apply NoDup_cons in Hd as [Hn Hd]. apply NoDup_app.
  split_and!; [done| |apply NoDup_singleton]. intros x Hx ->%list_elem_of_singleton. done.
Qed.

(** A node is linked in between two neighbours of a ring. *)
Lemma insert_ring h n A p q B H l l' R :
  rings h ((H :: l) :: R) -> node h n -> n ∉ concat ((H :: l) :: R) -> (H :: l) ++ [H] = A ++ p :: q :: B ->
  (H :: l') ++ [H] = A ++ p :: n :: q :: B -> l' ≡ₚ n :: l ->
  exists h', __list_add h n p q = Ok h' /\ rings h' ((H :: l') :: R) /\ (forall k, node h' k <-> node h k).
Proof.
  intros Hr Hn Hnew E E' Hp. pose proof Hr as (Hring & Hd & HR & Hdis)%rings_cons. cbn [concat] in Hnew.
  assert (p ∈ H :: l) as Hpin by (eapply cut_in; [exact E|by left]). assert (q ∈ H :: l) as Hqin by (eapply cut_in; [exact E|by right]).
  rewrite not_elem_of_app in Hnew. destruct Hnew as [Hnew HnR].
  assert (n <> p) as Hnp by (intros ->; exact (Hnew Hpin)). assert (n <> q) as Hnq by (intros ->; exact (Hnew Hqin)).
  destruct (list_add_run h n p q Hn (ring_node h (H :: l) p Hring Hpin) (ring_node h (H :: l) q Hring Hqin) Hnp Hnq) as (h' & Hrun & Hin).
  exists h'. split_and!; [done| |apply Hin]. destruct (ring_dup H l _ Hd E) as [Hd1 Hd2]. apply rings_cons. split_and!.
  - unfold ring. rewrite E'. unfold ring in Hring. rewrite E in Hring. apply (links_insert h h' A p q B n); try done.
    rewrite <- E, not_elem_of_app. split; [done|]. intros ->%list_elem_of_singleton. apply Hnew. by left.
  - rewrite Hp, Permutation_swap. by apply NoDup_cons.
  - apply (rings_frame h); [done|]. intros k Hk.
    split; apply Hin; intros ->; try done; [by apply (Hdis p)|by apply (Hdis q)].
  - intros k Hk. rewrite Hp, Permutation_swap in Hk. apply elem_of_cons in Hk as [->|Hk]; [done|by apply Hdis].
Qed.

(** A node is taken out between its neighbours. *)
Lemma remove_ring h e A p q B H l l' R :
  rings h ((H :: l) :: R) -> e <> H -> (H :: l) ++ [H] = A ++ p :: e :: q :: B ->
  (H :: l') ++ [H] = A ++ p :: q :: B -> l ≡ₚ e :: l' ->
  get_prev h e = Ok p /\ get_next h e = Ok q /\
  exists h', __list_del h p q = Ok h' /\ rings h' ((H :: l') :: R) /\ (forall k, node h' k <-> node h k) /\
    node h' e /\ e ∉ concat ((H :: l') :: R).
Proof.
  intros Hr He E E' Hp. pose proof Hr as (Hring & Hd & HR & Hdis)%rings_cons.
  assert (p ∈ H :: l') as Hpin by (eapply cut_in; [exact E'|by left]). assert (q ∈ H :: l') as Hqin by (eapply cut_in; [exact E'|by right]).
  assert (forall k, k ∈ H :: l' -> k ∈ H :: l) as Hsub by (intros k; rewrite Hp, !elem_of_cons; tauto).
  assert (H :: l ≡ₚ e :: H :: l') as Hp' by (rewrite Hp; apply Permutation_swap).
  pose proof (ring_node h (H :: l) p Hring (Hsub p Hpin)) as Hnp. pose proof (ring_node h (H :: l) q Hring (Hsub q Hqin)) as Hnq.
  rewrite Hp' in Hd. apply NoDup_cons in Hd as [Hen Hd]. unfold ring in Hring. rewrite E in Hring.
  pose proof Hring as (_ & H1 & H2 & H3 & H4 & _)%links_app.
  destruct (list_del_run h p q Hnp Hnq) as (h' & Hrun & Hout).
  split; [by apply prev_get|]. split; [by apply next_get|]. exists h'. split_and!; [done| |apply Hout| |].
  - assert (NoDup (H :: l)) as Hd0 by (rewrite Hp'; by apply NoDup_cons). destruct (ring_dup H l _ Hd0 E) as [Hd1 Hd2].
    apply rings_cons. split_and!; [|done| |].
    + unfold ring. rewrite E'. destruct Hout as [O1 O2 O3 O4 _].
      by apply (links_unlink h h' A p q B e); auto.
    + apply (rings_frame h); [done|]. intros k Hk.
      split; apply Hout; intros ->; [by apply (Hdis p (Hsub p Hpin))|by apply (Hdis q (Hsub q Hqin))].
    + intros k Hk. by apply Hdis, Hsub.
  - apply Hout. by eapply next_node.
  - cbn [concat]. intros [Hx|Hx]%elem_of_app; [done|]. apply (Hdis e); [rewrite Hp'; by left|done].
Qed.

(** ** The operations of the intrusive list, ring by ring

    What each operation and each loop of [lib_list.h] does to a memory of
    separate rings. *)

(** A node in memory that is in no ring. *)
Definition detached (h : memory) (n : Z) (R : list (list Z)) : Prop := node h n /\ n ∉ concat R.

Lemma init_ring h n R :
  rings h R -> detached h n R -> exists h', INIT_LIST_HEAD h n = Ok h' /\ rings h' ([n] :: R) /\ forall k, node h' k <-> node h k.
Proof.
  intros HR [Hn Hd]. destruct (init_run h n Hn) as (h' & Hrun & H1 & H2 & Hk & Hnode). exists h'. split_and!; [done| |done].
  apply rings_cons. split_and!; [by split_and!|apply NoDup_singleton| |by intros k ->%list_elem_of_singleton].
  apply (rings_frame h); [done|]. intros k Hin. apply Hk. intros ->. done.
Qed.

Lemma ring_next h H l q B R : rings h ((H :: l) :: R) -> l ++ [H] = q :: B -> get_next h H = Ok q.
Proof. intros (Hr & _)%rings_cons E. unfold ring in Hr. simpl in Hr. rewrite E in Hr. apply next_get, Hr. Qed.

Lemma ring_prev h H l A p R : rings h ((H :: l) :: R) -> H :: l = A ++ [p] -> get_prev h H = Ok p.
Proof.
  intros (Hr & _)%rings_cons E. unfold ring in Hr. rewrite E, <- app_assoc in Hr. apply links_app in Hr as [_ Hr].
  apply prev_get, Hr.
Qed.

Lemma first_of (l : list Z) H : exists q B, l ++ [H] = q :: B.
Proof. destruct l as [|x l]; [by exists H, []|by exists x, (l ++ [H])]. Qed.

Lemma last_of (H : Z) l : exists A p, H :: l = A ++ [p].
Proof. destruct (exists_last (l := H :: l)) as (A & p & E); [done|]. by exists A, p. Qed.

Lemma list_add_ring h n H l R :
  rings h ((H :: l) :: R) -> detached h n ((H :: l) :: R) ->
  exists h', list_add h n H = Ok h' /\ rings h' ((H :: n :: l) :: R) /\ forall k, node h' k <-> node h k.
Proof.
  intros HR [Hn Hd]. destruct (first_of l H) as (q & B & E). unfold list_add. rewrite (ring_next h H l q B R) by done.
  cbn [mbind outcome_bind]. apply (insert_ring h n [] H q B H l (n :: l) R); try done; simpl; by rewrite E.
Qed.

Lemma list_add_tail_ring h n H l R :
  rings h ((H :: l) :: R) -> detached h n ((H :: l) :: R) ->
  exists h', list_add_tail h n H = Ok h' /\ rings h' ((H :: l ++ [n]) :: R) /\ forall k, node h' k <-> node h k.
Proof.
  intros HR [Hn Hd]. destruct (last_of H l) as (A & p & E). unfold list_add_tail. rewrite (ring_prev h H l A p R) by done.
  cbn [mbind outcome_bind]. apply (insert_ring h n A p H [] H l (l ++ [n]) R); try done.
  - by rewrite E, <- app_assoc.
  - rewrite app_comm_cons, E, <- !app_assoc. done.
  - apply Permutation_sym, Permutation_cons_append.
Qed.

(** Taking out the node [e]. *)
Lemma unlink_ring h e H l1 l2 R :
  rings h ((H :: l1 ++ e :: l2) :: R) ->
  exists p q, get_prev h e = Ok p /\ get_next h e = Ok q /\
  exists h', __list_del h p q = Ok h' /\ rings h' ((H :: l1 ++ l2) :: R) /\ (forall k, node h' k <-> node h k) /\
    detached h' e ((H :: l1 ++ l2) :: R).
Proof.
  intros HR. destruct (last_of H l1) as (A & p & E1). destruct (first_of l2 H) as (q & B & E2). exists p, q.
  assert (e <> H) as He.
  { intros ->. apply rings_cons in HR as (_ & Hd & _). apply NoDup_cons in Hd as [Hd _]. apply Hd. set_solver. }
  apply (remove_ring h e A p q B H (l1 ++ e :: l2) (l1 ++ l2) R); try done.
  - rewrite app_comm_cons, E1, <- !app_assoc. simpl. by rewrite E2.
  - rewrite app_comm_cons, E1, <- !app_assoc. simpl. by rewrite E2.
  - symmetry. apply Permutation_middle.
Qed.

(** Stores to a detached node leave the rings. *)
Lemma stores_detached h h' e R :
  rings h R -> e ∉ concat R -> (forall k, k <> e -> next_of h' k = next_of h k /\ prev_of h' k = prev_of h k) -> rings h' R.
Proof. intros HR He Hk. apply (rings_frame h); [done|]. intros k Hin. apply Hk. intros ->. done. Qed.

Lemma list_del_ring h e H l1 l2 R :
  rings h ((H :: l1 ++ e :: l2) :: R) ->
  exists h', list_del h e = Ok h' /\ rings h' ((H :: l1 ++ l2) :: R) /\ detached h' e ((H :: l1 ++ l2) :: R) /\
    next_of h' e = Some 0 /\ prev_of h' e = Some 0 /\ forall k, node h' k <-> node h k.
Proof.
  intros HR. destruct (unlink_ring h e H l1 l2 R HR) as (p & q & Hp & Hq & h' & Hrun & HR' & Hnode & Hn & Hd).
  unfold list_del. rewrite Hp, Hq. cbn [mbind outcome_bind]. rewrite Hrun. cbn [mbind outcome_bind].
  store; [done|]. destruct (set_prev_run h0 e 0) as (h1 & E1 & S1); [by through|]. exists h1.
  split_and!; [exact E1| |split; [by through|done]|by through|by through|intros k; through; apply Hnode].
  apply (stores_detached h' _ e); [done|done|]. intros k Hk. split; by through.
Qed.

Lemma list_del_init_ring h e H l1 l2 R :
  rings h ((H :: l1 ++ e :: l2) :: R) ->
  exists h', list_del_init h e = Ok h' /\ rings h' ([e] :: (H :: l1 ++ l2) :: R) /\ forall k, node h' k <-> node h k.
Proof.
  intros HR. destruct (unlink_ring h e H l1 l2 R HR) as (p & q & Hp & Hq & h' & Hrun & HR' & Hnode & Hd).
  unfold list_del_init. rewrite Hp, Hq. cbn [mbind outcome_bind]. rewrite Hrun. cbn [mbind outcome_bind].
  destruct (init_ring h' e _ HR' Hd) as (h1 & E1 & HR1 & Hn1). exists h1. split_and!; [done|done|]. intros k. by rewrite Hn1.
Qed.

(** Moving a node to the front or the end of a ring, another one or its own. *)
Lemma list_move_ring h e H l1 l2 R H' g R' :
  rings h ((H :: l1 ++ e :: l2) :: R) -> (H :: l1 ++ l2) :: R ≡ₚ (H' :: g) :: R' ->
  exists h', list_move h e H' = Ok h' /\ rings h' ((H' :: e :: g) :: R') /\ forall k, node h' k <-> node h k.
Proof.
  intros HR HP. destruct (unlink_ring h e H l1 l2 R HR) as (p & q & Hp & Hq & h' & Hrun & HR' & Hnode & Hn & Hd).
  unfold list_move. rewrite Hp, Hq. cbn [mbind outcome_bind]. rewrite Hrun. cbn [mbind outcome_bind].
  rewrite HP in HR', Hd. destruct (list_add_ring h' e H' g R' HR' (conj Hn Hd)) as (h1 & E1 & HR1 & Hn1).
  exists h1. split_and!; [done|done|]. intros k. by rewrite Hn1.
Qed.

Lemma list_move_tail_ring h e H l1 l2 R H' g R' :
  rings h ((H :: l1 ++ e :: l2) :: R) -> (H :: l1 ++ l2) :: R ≡ₚ (H' :: g) :: R' ->
  exists h', list_move_tail h e H' = Ok h' /\ rings h' ((H' :: g ++ [e]) :: R') /\ forall k, node h' k <-> node h k.
Proof.
  intros HR HP. destruct (unlink_ring h e H l1 l2 R HR) as (p & q & Hp & Hq & h' & Hrun & HR' & Hnode & Hn & Hd).
  unfold list_move_tail. rewrite Hp, Hq. cbn [mbind outcome_bind]. rewrite Hrun. cbn [mbind outcome_bind].
  rewrite HP in HR', Hd. destruct (list_add_tail_ring h' e H' g R' HR' (conj Hn Hd)) as (h1 & E1 & HR1 & Hn1).
  exists h1. split_and!; [done|done|]. intros k. by rewrite Hn1.
Qed.

Lemma list_empty_ring h H l R : rings h ((H :: l) :: R) -> list_empty h H = Ok (bool_decide (l = [])).
Proof.
  intros HR. destruct (first_of l H) as (q & B & E). unfold list_empty. rewrite (ring_next h H l q B R) by done.
  cbn [mbind outcome_bind]. f_equal. apply rings_cons in HR as (_ & Hd & _). apply NoDup_cons in Hd as [Hd _].
  destruct l as [|x l]; simpl in E; injection E as -> <-; [by rewrite Z.eqb_refl|]. apply Z.eqb_neq. intros ->. apply Hd. by left.
Qed.

(** ** Joining two rings *)

(** The four stores of [__list_splice]. *)
Lemma splice_run h L H f z a :
  get_next h L = Ok f -> get_prev h L = Ok z -> get_next h H = Ok a -> node h f -> node h H -> node h z -> node h a ->
  H <> z -> f <> a ->
  exists h', __list_splice h L H = Ok h' /\ (forall k, node h' k <-> node h k) /\
    prev_of h' f = Some H /\ next_of h' H = Some f /\ next_of h' z = Some a /\ prev_of h' a = Some z /\
    (forall k, k <> H -> k <> z -> next_of h' k = next_of h k) /\ (forall k, k <> f -> k <> a -> prev_of h' k = prev_of h k).
Proof.
  intros E1 E2 E3 Hf HH Hz Ha H1 H2. unfold __list_splice. rewrite E1, E2, E3. cbn [mbind outcome_bind].
  store; [done|]. store; [by through|]. store; [by through|]. destruct (set_prev_run h2 a z) as (h3 & E & S3); [by through|].
  exists h3. split_and!; [exact E|..]; intros; by through.
Qed.

(** The links of a joined ring, from those of its parts. *)
Lemma splice_links h h' L H A z a B f l0 g :
  f :: l0 = A ++ [z] -> g ++ [H] = a :: B -> ring h (L :: f :: l0) -> ring h (H :: g) ->
  NoDup (L :: f :: l0) -> NoDup (H :: g) -> (forall k, k ∈ f :: l0 -> k ∉ H :: g) ->
  prev_of h' f = Some H -> next_of h' H = Some f -> next_of h' z = Some a -> prev_of h' a = Some z ->
  (forall k, k <> H -> k <> z -> next_of h' k = next_of h k) -> (forall k, k <> f -> k <> a -> prev_of h' k = prev_of h k) ->
  ring h' (H :: f :: l0 ++ g).
Proof.
  intros El Eg Hrl Hrg Hdl Hdg Hdis P1 N1 N2 P2 Hn Hp.
  assert (a ∈ H :: g) as Hag by (assert (a ∈ g ++ [H]) as Hx by (rewrite Eg; by left); set_solver).
  assert (z ∈ f :: l0) as Hzl by (rewrite El; set_solver).
  apply NoDup_cons in Hdl as [_ Hdl]. unfold ring in *.
  assert ((H :: f :: l0 ++ g) ++ [H] = (H :: A) ++ z :: a :: B) as ->.
  { simpl. f_equal. change (f :: (l0 ++ g) ++ [H]) with (((f :: l0) ++ g) ++ [H]). by rewrite El, <- !app_assoc, Eg. }
  apply links_app. split; [|refine (conj N2 (conj P2 _))].
  - assert ((H :: A) ++ [z] = H :: f :: l0) as -> by (simpl; by rewrite El). refine (conj N1 (conj P1 _)).
    change ((L :: f :: l0) ++ [L]) with ([L] ++ f :: (l0 ++ [L])) in Hrl. apply links_app in Hrl as [_ Hrl].
    change (f :: (l0 ++ [L])) with ((f :: l0) ++ [L]) in Hrl. rewrite El, <- app_assoc in Hrl. apply links_app in Hrl as [Hrl _].
    rewrite <- El in Hrl. apply (links_frame h h' (f :: l0)); [exact Hrl| |]; intros k Hk.
    + rewrite El, removelast_snoc in Hk. rewrite El in Hdl. apply NoDup_app in Hdl as (_ & Hdl & _). apply Hn.
      * intros ->. apply (Hdis H); [rewrite El; set_solver|by left].
      * intros ->. apply (Hdl z Hk). by left.
    + simpl in Hk. apply NoDup_cons in Hdl as [Hdl _]. apply Hp; [congruence|]. intros ->. apply (Hdis a); [by right|done].
  - change ((H :: g) ++ [H]) with (H :: (g ++ [H])) in Hrg. rewrite Eg in Hrg. destruct Hrg as (_ & _ & Hrg).
    apply NoDup_cons in Hdg as [HHg Hdg].
    apply (links_frame h h' (a :: B)); [exact Hrg| |]; intros k Hk.
    + rewrite <- Eg, removelast_snoc in Hk. apply Hn; [congruence|]. intros ->. apply (Hdis z); [done|by right].
    + assert (NoDup (a :: B)) as Hd by (rewrite <- Eg; apply NoDup_app; split_and!; [done|by intros x Hx ->%list_elem_of_singleton|apply NoDup_singleton]).
      apply NoDup_cons in Hd as [Hd _]. simpl in Hk. apply Hp; [|congruence]. intros ->.
      apply (Hdis f); [by left|]. assert (f ∈ g ++ [H]) as Hx by (rewrite Eg; by right). set_solver.
Qed.

Lemma list_splice_rings h L l H g R :
  rings h ((L :: l) :: (H :: g) :: R) -> l <> [] ->
  exists h', __list_splice h L H = Ok h' /\ rings h' ((H :: l ++ g) :: R) /\ detached h' L ((H :: l ++ g) :: R) /\
    forall k, node h' k <-> node h k.
Proof.
  intros HR Hne. destruct l as [|f l0]; [done|]. pose proof HR as (Hrl & Hdl & HR' & Hdis)%rings_cons.
  pose proof HR' as (Hrg & Hdg & HR'' & Hdis')%rings_cons. cbn [concat] in Hdis.
  destruct (last_of f l0) as (A & z & Ez). destruct (first_of g H) as (a & B & Ea).
  assert (a ∈ H :: g) as Hag by (assert (a ∈ g ++ [H]) as Hx by (rewrite Ea; by left); set_solver).
  assert (z ∈ f :: l0) as Hzl by (rewrite Ez; set_solver).
  assert (forall k, k ∈ f :: l0 -> k ∉ H :: g) as Hd1.
  { intros k Hk Hx. apply (Hdis k); [by right|]. apply elem_of_app. by left. }
  assert (forall k, k ∈ L :: f :: l0 -> k ∉ concat R) as Hd2.
  { intros k Hk Hx. apply (Hdis k Hk). apply elem_of_app. by right. }
  assert (L ∉ H :: g) as HLg by (intros Hx; apply (Hdis L); [by left|apply elem_of_app; by left]).
  destruct (splice_run h L H f z a) as (h' & Hrun & Hnode & P1 & N1 & N2 & P2 & Hn & Hp).
  { by apply (ring_next h L (f :: l0) f (l0 ++ [L]) _ HR). }
  { apply (ring_prev h L (f :: l0) (L :: A) z _ HR). by rewrite Ez. }
  { by apply (ring_next h H g a B _ HR'). }
  { apply (ring_node h (L :: f :: l0)); [done|right; by left]. }
  { apply (ring_node h (H :: g)); [done|by left]. }
  { apply (ring_node h (L :: f :: l0)); [done|by right]. }
  { by apply (ring_node h (H :: g)). }
  { intros <-. apply (Hd1 H); [done|by left]. }
  { intros ->. by apply (Hd1 a); [left|]. }
  exists h'. pose proof Hdl as [HLn Hdl']%NoDup_cons. split_and!; [done| |split|done].
  - apply rings_cons. split_and!.
    + by apply (splice_links h h' L H A z a B f l0 g).
    + apply NoDup_cons in Hdg as [HHg Hdg']. apply NoDup_cons. split.
      * change (f :: l0 ++ g) with ((f :: l0) ++ g). rewrite not_elem_of_app. split; [|done]. intros Hx. apply (Hd1 H Hx). by left.
      * change (f :: l0 ++ g) with ((f :: l0) ++ g). apply NoDup_app. split_and!; [done| |done]. intros x Hx Hxg.
        apply (Hd1 x Hx). by right.
    + apply (rings_frame h); [done|]. intros k Hk. split; [apply Hn|apply Hp]; intros ->.
      * apply (Hdis' H); [by left|done].
      * apply (Hd2 z); [by right|done].
      * apply (Hd2 f); [right; by left|done].
      * by apply (Hdis' a).
    + intros k Hk. change (H :: f :: l0 ++ g) with (H :: (f :: l0) ++ g) in Hk. apply elem_of_cons in Hk as [->|Hk].
      * apply Hdis'. by left.
      * apply elem_of_app in Hk as [Hk|Hk]; [apply Hd2; by right|apply Hdis'; by right].
  - apply Hnode. apply (ring_node h (L :: f :: l0)); [done|by left].
  - cbn [concat]. change (H :: f :: l0 ++ g) with (H :: (f :: l0) ++ g). rewrite elem_of_app, elem_of_cons, elem_of_app.
    apply NoDup_cons in Hdg as [HHg Hdg']. intros [[->|[Hx|Hx]]|Hx].
    + apply HLg. by left.
    + done.
    + apply HLg. by right.
    + apply (Hd2 L); [by left|done].
Qed.

Lemma list_splice_init_rings h L l H g R :
  rings h ((L :: l) :: (H :: g) :: R) ->
  exists h', list_splice_init h L H = Ok h' /\ rings h' ([L] :: (H :: l ++ g) :: R) /\ forall k, node h' k <-> node h k.
Proof.
  intros HR. unfold list_splice_init. rewrite (list_empty_ring h L l _ HR). cbn [mbind outcome_bind].
  case_bool_decide as Hl; cbn [negb].
  - subst l. exists h. done.
  - destruct (list_splice_rings h L l H g R HR Hl) as (h' & E & HR' & Hd & Hn). rewrite E. cbn [mbind outcome_bind].
    destruct (init_ring h' L _ HR' Hd) as (h1 & E1 & HR1 & Hn1). exists h1. split_and!; [done|done|]. intros k. by rewrite Hn1.
Qed.
