(* ===== verification/ListTheorems.v ===== *)
(** * What the intrusive list guarantees

    The theorems on [lib_list.h], each applied to a concrete memory. *)

From S2P Require Import Prelude LibC IntrusiveList IntrusiveListFacts.

(** ** Sequences of calls *)

Inductive command :=
  | Init (n : Z) | Add (n H : Z) | AddTail (n H : Z) | Del (e : Z) | DelInit (e : Z)
  | Move (e H : Z) | MoveTail (e H : Z) | Splice (L H : Z) | SpliceInit (L H : Z).

Definition exec (c : command) (h : memory) : outcome memory :=
  match c with
  | Init n => INIT_LIST_HEAD h n
  | Add n H => list_add h n H
  | AddTail n H => list_add_tail h n H
  | Del e => list_del h e
  | DelInit e => list_del_init h e
  | Move e H => list_move h e H
  | MoveTail e H => list_move_tail h e H
  | Splice L H => list_splice h L H
  | SpliceInit L H => list_splice_init h L H
  end.

Fixpoint exec_all (cs : list command) (h : memory) : outcome memory :=
  match cs with [] => Ok h | c :: cs => h ← exec c h; exec_all cs h end.

(** What a call means for lists of nodes, and when it may be made: a node that
    is linked in is in no ring, a node that is taken out is not a head, and two
    different rings are joined. *)
Inductive means : command -> list (list Z) -> list (list Z) -> Prop :=
  | means_init n R : n ∉ concat R -> means (Init n) R ([n] :: R)
  | means_add n H l R R' : R ≡ₚ (H :: l) :: R' -> n ∉ concat R -> means (Add n H) R ((H :: n :: l) :: R')
  | means_add_tail n H l R R' : R ≡ₚ (H :: l) :: R' -> n ∉ concat R -> means (AddTail n H) R ((H :: l ++ [n]) :: R')
  | means_del e H l1 l2 R R' : R ≡ₚ (H :: l1 ++ e :: l2) :: R' -> means (Del e) R ((H :: l1 ++ l2) :: R')
  | means_del_init e H l1 l2 R R' : R ≡ₚ (H :: l1 ++ e :: l2) :: R' -> means (DelInit e) R ([e] :: (H :: l1 ++ l2) :: R')
  | means_move e H l1 l2 R R' H' g R'' :
      R ≡ₚ (H :: l1 ++ e :: l2) :: R' -> (H :: l1 ++ l2) :: R' ≡ₚ (H' :: g) :: R'' -> means (Move e H') R ((H' :: e :: g) :: R'')
  | means_move_tail e H l1 l2 R R' H' g R'' :
      R ≡ₚ (H :: l1 ++ e :: l2) :: R' -> (H :: l1 ++ l2) :: R' ≡ₚ (H' :: g) :: R'' -> means (MoveTail e H') R ((H' :: g ++ [e]) :: R'')
  | means_splice_empty L H g R R' : R ≡ₚ [L] :: (H :: g) :: R' -> means (Splice L H) R R
  | means_splice L l H g R R' :
      R ≡ₚ (L :: l) :: (H :: g) :: R' -> l <> [] -> means (Splice L H) R ((H :: l ++ g) :: R')
  | means_splice_init L l H g R R' :
      R ≡ₚ (L :: l) :: (H :: g) :: R' -> means (SpliceInit L H) R ([L] :: (H :: l ++ g) :: R').

Inductive mean_all : list command -> list (list Z) -> list (list Z) -> Prop :=
  | mean_nil R : mean_all [] R R
  | mean_cons c cs R R1 R2 : means c R R1 -> mean_all cs R1 R2 -> mean_all (c :: cs) R R2.

(** The node a call links in. *)
Definition new_node (c : command) : option Z := match c with Init n | Add n _ | AddTail n _ => Some n | _ => None end.

Lemma exec_means c h R R' :
  rings h R -> means c R R' -> (forall n, new_node c = Some n -> node h n) ->
  exists h', exec c h = Ok h' /\ rings h' R' /\ forall k, node h' k <-> node h k.
Proof.
  intros HR Hm Hn. destruct Hm as [n R Hd|n H l R R' HP Hd|n H l R R' HP Hd|e H l1 l2 R R' HP|e H l1 l2 R R' HP
    |e H l1 l2 R R' H' g R'' HP HP'|e H l1 l2 R R' H' g R'' HP HP'|L H g R R' HP|L l H g R R' HP Hl|L l H g R R' HP]; simpl in *.
  - apply init_ring; [done|split; auto].
  - rewrite HP in HR, Hd. apply list_add_ring; [done|split; auto].
  - rewrite HP in HR, Hd. apply list_add_tail_ring; [done|split; auto].
  - rewrite HP in HR. destruct (list_del_ring h e H l1 l2 R' HR) as (h' & ? & ? & _ & _ & _ & ?). by exists h'.
  - rewrite HP in HR. by apply list_del_init_ring.
  - rewrite HP in HR. by eapply list_move_ring.
  - rewrite HP in HR. by eapply list_move_tail_ring.
  - pose proof HR as HR0. rewrite HP in HR0. unfold list_splice. rewrite (list_empty_ring h L [] _ HR0). by exists h.
  - rewrite HP in HR. unfold list_splice. rewrite (list_empty_ring h L l _ HR). rewrite bool_decide_false by done.
    destruct (list_splice_rings h L l H g R' HR Hl) as (h' & ? & ? & _ & ?). by exists h'.
  - rewrite HP in HR. by apply list_splice_init_rings.
Qed.

(** C7: a memory of separate rings stays one through every sequence of calls of
    the list's operations, each made on nodes of the kind it asks for; no call
    faults, and the rings are at the end the lists that the calls, read as
    operations on lists, give. *)
Theorem list_calls_keep_rings cs h R R' :
  rings h R -> mean_all cs R R' -> (forall c n, c ∈ cs -> new_node c = Some n -> node h n) ->
  exists h', exec_all cs h = Ok h' /\ rings h' R'.
Proof.
  intros HR Hm. revert h HR. induction Hm as [R|c cs R R1 R2 Hc _ IH]; intros h HR Hn; [by exists h|].
  destruct (exec_means c h R R1 HR Hc) as (h1 & E & HR1 & Hn1); [intros n; apply Hn; by left|].
  simpl. rewrite E. cbn [mbind outcome_bind]. apply IH; [done|]. intros c' n Hc' Hnn. apply Hn1, (Hn c'); [by right|done].
Qed.

(** Two heads, 100 and 200, and three nodes, none of them initialised. *)
Definition sample_memory : memory :=
  {[100 := ListHead 0 0; 200 := ListHead 0 0; 1 := ListHead 0 0; 2 := ListHead 0 0; 3 := ListHead 0 0]}.

Definition sample_calls : list command := [Init 100; Init 200; Add 1 100; AddTail 2 100; AddTail 3 200; Move 2 200; SpliceInit 200 100].

Lemma sample_means : mean_all sample_calls [] [[200]; [100; 2; 3; 1]].
Proof.
  eapply mean_cons; [apply means_init; set_solver|]. eapply mean_cons; [apply means_init; set_solver|].
  eapply mean_cons; [apply (means_add 1 100 [] _ [[200]]); [apply Permutation_swap|set_solver]|].
  eapply mean_cons; [apply (means_add_tail 2 100 [1] _ [[200]]); [done|set_solver]|].
  eapply mean_cons; [apply (means_add_tail 3 200 [] _ [[100; 1; 2]]); [apply Permutation_swap|set_solver]|].
  eapply mean_cons; [apply (means_move 2 100 [1] [] _ [[200; 3]] 200 [3] [[100; 1]]); apply Permutation_swap|].
  eapply mean_cons; [apply (means_splice_init 200 [2; 3] 100 [1] _ []); done|]. constructor.
Qed.

Lemma list_calls_keep_rings_witness :
  exists h', exec_all sample_calls sample_memory = Ok h' /\ rings h' [[200]; [100; 2; 3; 1]].
Proof.
  apply (list_calls_keep_rings sample_calls sample_memory []).
  - split; [constructor|apply NoDup_nil_2].
  - exact sample_means.
  - intros c n Hc Hn. unfold sample_calls in Hc. rewrite !elem_of_cons in Hc. unfold node, sample_memory.
    destruct Hc as [->|[->|[->|[->|[->|[->|[->|Hc]]]]]]]; simpl in Hn; try discriminate; try (injection Hn as <-; eexists; vm_compute; reflexivity).
    by inversion Hc.
Defined.

(** ** The loops *)

Lemma for_each_next {S} (f : S -> Z -> S) h H l : forall fuel x B s,
  l ++ [H] = x :: B -> links h (l ++ [H]) -> H ∉ l -> (length l <= fuel)%nat ->
  for_each_from (λ pos h s, Ok (h, f s pos)) fuel get_next H x h s = Ok (h, List.fold_left f l s).
Proof.
  induction l as [|y l IH]; intros fuel x B s E Hl Hn Hf; injection E as <- <-.
  - destruct fuel; simpl; by rewrite Z.eqb_refl.
  - destruct fuel as [|fuel]; [simpl in Hf; lia|]. destruct (first_of l H) as (x' & B' & E'). simpl.
    destruct (Z.eqb_spec y H) as [->|_]; [by destruct Hn; left|]. cbn [app] in Hl. rewrite E' in Hl.
    destruct Hl as (H1 & _ & Hl). rewrite (next_get _ _ _ H1). cbn [mbind outcome_bind].
    apply (IH fuel x' B'); [done|by rewrite E'|set_solver|simpl in Hf; lia].
Qed.

Lemma for_each_prev {S} (f : S -> Z -> S) h H l : forall fuel A x s,
  H :: l = A ++ [x] -> links h (H :: l) -> H ∉ l -> (length l <= fuel)%nat ->
  for_each_from (λ pos h s, Ok (h, f s pos)) fuel get_prev H x h s = Ok (h, List.fold_left f (reverse l) s).
Proof.
  induction l as [|y l IH] using rev_ind; intros fuel A x s E Hl Hn Hf.
  - change [H] with ([] ++ [H]) in E. apply app_inj_tail in E as [_ <-]. destruct fuel; simpl; by rewrite Z.eqb_refl.
  - rewrite app_comm_cons in E. apply app_inj_tail in E as [_ <-]. rewrite length_app in Hf. simpl in Hf.
    destruct fuel as [|fuel]; [lia|]. destruct (last_of H l) as (A' & x' & E'). rewrite reverse_snoc. simpl.
    destruct (Z.eqb_spec y H) as [->|_]; [destruct Hn; set_solver|].
    rewrite app_comm_cons, E', <- app_assoc in Hl. pose proof Hl as [_ H2]%links_last. rewrite (prev_get _ _ _ H2). cbn [mbind outcome_bind].
    apply (IH fuel A' x'); [done| |set_solver|lia]. change ([x'] ++ [y]) with (x' :: [y]) in Hl. apply links_app in Hl as [Hl _].
    by rewrite E'.
Qed.

(** On a ring of [length l] nodes after its head, the two loops end, with
    [length l] rounds of fuel, and the body has run once for each node, in the
    order of the list and in the reverse order; [list_for_each_entry] hands it
    the structs the nodes are in. *)
Theorem list_loops_visit_all {S} (f : S -> Z -> S) h H l R fuel s offset :
  rings h ((H :: l) :: R) -> (length l <= fuel)%nat ->
  list_for_each (λ pos h s, Ok (h, f s pos)) fuel H h s = Ok (h, List.fold_left f l s) /\
  list_for_each_prev (λ pos h s, Ok (h, f s pos)) fuel H h s = Ok (h, List.fold_left f (reverse l) s) /\
  list_for_each_entry offset (λ pos h s, Ok (h, f s pos)) fuel H h s =
    Ok (h, List.fold_left f (List.map (λ p, list_entry p offset) l) s).
Proof.
  intros HR Hf. destruct (first_of l H) as (q & B & E). destruct (last_of H l) as (A & p & E').
  pose proof (ring_next h H l q B R HR E) as Hq. pose proof (ring_prev h H l A p R HR E') as Hp.
  apply rings_cons in HR as (Hr & Hd & _). apply NoDup_cons in Hd as [Hd _]. unfold ring in Hr.
  assert (links h (l ++ [H])) as Hl1.
  { change ((H :: l) ++ [H]) with ([H] ++ (l ++ [H])) in Hr. rewrite E in Hr |- *. by apply links_app in Hr as [_ Hr]. }
  assert (links h (H :: l)) as Hl2 by (rewrite E', <- app_assoc in Hr; apply links_app in Hr as [Hr _]; by rewrite E').
  assert (forall S (f : S -> Z -> S) s, list_for_each (λ pos h s, Ok (h, f s pos)) fuel H h s = Ok (h, List.fold_left f l s)) as Hfor.
  { intros S' f' s'. unfold list_for_each. rewrite Hq. cbn [mbind outcome_bind]. by apply (for_each_next f' h H l fuel q B). }
  split; [apply Hfor|]. split.
  - unfold list_for_each_prev. rewrite Hp. cbn [mbind outcome_bind]. by apply (for_each_prev f h H l fuel A p).
  - unfold list_for_each_entry. rewrite (Hfor S (λ s pos, f s (list_entry pos offset))). do 2 f_equal.
    clear. revert s. induction l as [|x l IH]; intros s; [done|]. simpl. apply IH.
Qed.

(** ** Removing nodes inside a loop *)

(** The body that takes its node out, and keeps its address. *)
Definition del_body (pos : Z) (h : memory) (s : list Z) : outcome (memory * list Z) :=
  h ← list_del h pos; Ok (h, s ++ [pos]).

Lemma safe_from_run H l : forall fuel h R s x y B,
  rings h ((H :: l) :: R) -> (length l <= fuel)%nat -> l ++ [H] = x :: B -> get_next h x = Ok y ->
  exists h', for_each_safe_from del_body fuel H x y h s = Ok (h', s ++ l) /\ rings h' ([H] :: R).
Proof.
  induction l as [|z l IH]; intros fuel h R s x y B HR Hf E Hy; injection E as <- <-.
  - exists h. rewrite app_nil_r. split; [|done]. destruct fuel; simpl; by rewrite Z.eqb_refl.
  - destruct fuel as [|fuel]; [simpl in Hf; lia|]. destruct (first_of l H) as (n & B & E).
    assert (y = n) as ->.
    { pose proof HR as (Hr & _)%rings_cons. unfold ring in Hr. change ((H :: z :: l) ++ [H]) with (H :: z :: (l ++ [H])) in Hr.
      rewrite E in Hr. destruct Hr as (_ & _ & H1 & _). apply next_get in H1. congruence. }
    assert (z <> H) as Hne.
    { intros ->. apply rings_cons in HR as (_ & Hd & _). apply NoDup_cons in Hd as [Hd _]. apply Hd. by left. }
    cbn [for_each_safe_from]. apply Z.eqb_neq in Hne. rewrite Hne.
    change (del_body z h s) with (h0 ← list_del h z; Ok (h0, s ++ [z])).
    destruct (list_del_ring h z H [] l R HR) as (h1 & Hrun & HR1 & _). rewrite Hrun. cbn [mbind outcome_bind fst snd].
    simpl in HR1.
    assert (n ∈ H :: l) as Hn by (assert (n ∈ l ++ [H]) as Hx by (rewrite E; by left); set_solver).
    destruct (node_next h1 n) as (y' & _ & Hy'); [apply (rings_node h1 ((H :: l) :: R)); [done|]; cbn [concat]; apply elem_of_app; by left|].
    rewrite Hy'. cbn [mbind outcome_bind]. destruct (IH fuel h1 R (s ++ [z]) n y' B HR1) as (h2 & E2 & HR2); [simpl in Hf; lia|done|done|].
    exists h2. split; [|done]. rewrite E2. by rewrite <- app_assoc.
Qed.

(** Taking every node out of a ring inside [list_for_each_safe] visits all
    of them and leaves the head alone; inside [list_for_each], the first round
    sets the pointer that the loop follows to [NULL], and the next one reads
    there. *)
Theorem safe_loop_may_delete h H l R fuel :
  rings h ((H :: l) :: R) -> (length l <= fuel)%nat -> (2 <= fuel)%nat -> l <> [] -> ~ node h 0 ->
  (exists h', list_for_each_safe del_body fuel H h [] = Ok (h', l) /\ rings h' ([H] :: R)) /\
  list_for_each del_body fuel H h [] = Fault.
Proof.
  intros HR Hf Hf2 Hl H0. destruct (first_of l H) as (x & B & E). pose proof (ring_next h H l x B R HR E) as Hx. split.
  - unfold list_for_each_safe. rewrite Hx. cbn [mbind outcome_bind].
    assert (x ∈ H :: l) as Hin by (assert (x ∈ l ++ [H]) as Hy by (rewrite E; by left); set_solver).
    destruct (node_next h x) as (y & _ & Hy); [apply (rings_node h ((H :: l) :: R)); [done|]; cbn [concat]; apply elem_of_app; by left|].
    rewrite Hy. cbn [mbind outcome_bind]. by apply (safe_from_run H l fuel h R [] x y B).
  - destruct l as [|z l]; [done|]. injection E as -> _. unfold list_for_each. rewrite Hx. cbn [mbind outcome_bind].
    assert (x <> H) as Hne.
    { intros ->. apply rings_cons in HR as (_ & Hd & _). apply NoDup_cons in Hd as [Hd _]. apply Hd. by left. }
    destruct fuel as [|[|fuel]]; [lia..|]. cbn [for_each_from]. apply Z.eqb_neq in Hne. rewrite Hne.
    change (del_body x h []) with (h0 ← list_del h x; Ok (h0, [] ++ [x])).
    destruct (list_del_ring h x H [] l R HR) as (h1 & Hrun & _ & _ & H1 & _ & Hn). rewrite Hrun. cbn [mbind outcome_bind fst snd].
    rewrite (next_get _ _ _ H1). cbn [mbind outcome_bind]. destruct (Z.eqb_spec 0 H) as [E|_].
    { subst H. destruct H0. apply (rings_node h ((0 :: x :: l) :: R)); [done|]. by left. }
    unfold del_body, list_del, get_prev. destruct (h1 !! 0) eqn:E0; [|done]. destruct H0. apply Hn. by exists l0.
Qed.

Definition sample_ring : memory := {[100 := ListHead 1 2; 1 := ListHead 2 100; 2 := ListHead 100 1]}.

Lemma sample_rings : rings sample_ring [[100; 1; 2]].
Proof. split; [|by apply (bool_decide_unpack _)]. constructor; [|constructor]. by split_and!. Qed.

Lemma list_loops_visit_all_witness :
  list_for_each (λ pos h s, Ok (h, s ++ [pos])) 2 100 sample_ring [] = Ok (sample_ring, [1; 2]) /\
  list_for_each_prev (λ pos h s, Ok (h, s ++ [pos])) 2 100 sample_ring [] = Ok (sample_ring, [2; 1]).
Proof.
  destruct (list_loops_visit_all (λ s pos, s ++ [pos]) sample_ring 100 [1; 2] [] 2 [] 8 sample_rings ltac:(repeat constructor)) as (H1 & H2 & _).
  exact (conj H1 H2).
Defined.

Lemma safe_loop_may_delete_witness :
  (exists h', list_for_each_safe del_body 2 100 sample_ring [] = Ok (h', [1; 2]) /\ rings h' [[100]]) /\
  list_for_each del_body 2 100 sample_ring [] = Fault.
Proof.
  apply (safe_loop_may_delete sample_ring 100 [1; 2] [] 2 sample_rings); [repeat constructor..|discriminate|].
  intros [m Hm]. vm_compute in Hm. discriminate.
Defined.
