(* ===== verification/Calendar.v ===== *)
(** * The calendar and the part of [time.h] the sources use

    The proleptic Gregorian calendar by its rules (leap years, month lengths,
    the next day), the day count since 1970-01-01 and its inverse, [struct tm],
    [gmtime], and [localtime] and [mktime] over the offsets of a time zone. *)

From S2P Require Import Prelude.

(** ** The calendar *)

Record date : Type := Date { d_year : Z; d_month : Z; d_day : Z }.

#[export] Instance date_eq_dec : EqDecision date.
Proof. solve_decision. Defined.

Definition is_leap (y : Z) : bool := ((y mod 4 =? 0) && negb (y mod 100 =? 0)) || (y mod 400 =? 0).

Definition month_days (y m : Z) : Z :=
  if m =? 2 then (if is_leap y then 29 else 28)
  else if (m =? 4) || (m =? 6) || (m =? 9) || (m =? 11) then 30 else 31.

Definition valid_date (d : date) : bool :=
  (1 <=? d_month d) && (d_month d <=? 12) && (1 <=? d_day d) && (d_day d <=? month_days (d_year d) (d_month d)).

(** The day after. *)
Definition next_day (d : date) : date :=
  if d_day d <? month_days (d_year d) (d_month d) then Date (d_year d) (d_month d) (d_day d + 1)
  else if d_month d <? 12 then Date (d_year d) (d_month d + 1) 1
  else Date (d_year d + 1) 1 1.

(** Days since 1970-01-01.  The year starts in March here, so that the leap
    day ends it. *)
Definition march_year (y m : Z) : Z := if m <=? 2 then y - 1 else y.
Definition march_month (m : Z) : Z := if m <=? 2 then m + 9 else m - 3.
Definition day_of_march_year (mp d : Z) : Z := (153 * mp + 2) / 5 + d - 1.

Definition days_from_civil (y m d : Z) : Z :=
  let y' := march_year y m in
  365 * y' + y' / 4 - y' / 100 + y' / 400 + day_of_march_year (march_month m) d - 719468.

Definition days_of (d : date) : Z := days_from_civil (d_year d) (d_month d) (d_day d).

(** The inverse: cycles of 400, 100, 4 and 1 years. *)
Definition civil_from_days (n : Z) : date :=
  let z := n + 719468 in
  let era := z / 146097 in
  let doe := z mod 146097 in
  let c := Z.min 3 (doe / 36524) in
  let r := doe - 36524 * c in
  let q := r / 1461 in
  let r := r - 1461 * q in
  let s := Z.min 3 (r / 365) in
  let doy := r - 365 * s in
  let mp := (5 * doy + 2) / 153 in
  let m := if mp <? 10 then mp + 3 else mp - 9 in
  let y' := 400 * era + 100 * c + 4 * q + s in
  Date (if m <=? 2 then y' + 1 else y') m (doy - (153 * mp + 2) / 5 + 1).


Lemma is_leap_spec y : is_leap y = true <-> (y mod 4 = 0 /\ y mod 100 <> 0) \/ y mod 400 = 0.
Proof. unfold is_leap. rewrite orb_true_iff, andb_true_iff, negb_true_iff, !Z.eqb_eq, Z.eqb_neq. done. Qed.

Lemma valid_date_spec d :
  valid_date d = true <-> 1 <= d_month d <= 12 /\ 1 <= d_day d <= month_days (d_year d) (d_month d).
Proof. unfold valid_date. lia. Qed.

Lemma month_cases m (P : Z -> Prop) :
  1 <= m <= 12 -> P 1 -> P 2 -> P 3 -> P 4 -> P 5 -> P 6 -> P 7 -> P 8 -> P 9 -> P 10 -> P 11 -> P 12 -> P m.
Proof.
  intros Hm. assert (m = 1 \/ m = 2 \/ m = 3 \/ m = 4 \/ m = 5 \/ m = 6 \/ m = 7 \/ m = 8 \/ m = 9 \/ m = 10 \/
    m = 11 \/ m = 12) as H by lia. intros. repeat destruct H as [->|H]; try assumption. by subst.
Qed.

(** The day count of a leap year exceeds that of a common one by the leap day. *)
Lemma year_length y :
  days_from_civil (y + 1) 1 1 = days_from_civil y 1 1 + (if is_leap y then 366 else 365).
Proof.
  unfold days_from_civil, march_year, march_month, day_of_march_year. simpl.
  replace (y + 1 - 1) with y by lia.
  pose proof (is_leap_spec y) as Hl. destruct (is_leap y).
  - destruct Hl as [Hl _]. specialize (Hl eq_refl). div_lia.
  - assert (~ (y mod 4 = 0 /\ y mod 100 <> 0 \/ y mod 400 = 0)) as Hn by (intros H; by apply Hl in H).
    clear Hl. div_lia.
Qed.

Lemma month_days_range y m : 28 <= month_days y m <= 31.
Proof. unfold month_days. repeat case_match; lia. Qed.

Lemma days_from_civil_day y m d : days_from_civil y m d = days_from_civil y m 1 + (d - 1).
Proof. unfold days_from_civil, day_of_march_year. lia. Qed.

(** Months follow each other without gap or overlap. *)
Lemma month_length y m :
  1 <= m <= 11 -> days_from_civil y (m + 1) 1 = days_from_civil y m 1 + month_days y m.
Proof.
  intros Hm. pose proof (is_leap_spec y) as Hl. unfold days_from_civil, day_of_march_year.
  assert (m = 2 \/ m <> 2) as [->|Hm2] by lia.
  - unfold march_year, march_month, month_days. simpl.
    destruct (is_leap y); [destruct Hl as [Hl _]; specialize (Hl eq_refl); div_lia|].
    assert (~ (y mod 4 = 0 /\ y mod 100 <> 0 \/ y mod 400 = 0)) as Hn by (intros H; by apply Hl in H).
    clear Hl. div_lia.
  - clear Hl. revert Hm2. apply (month_cases m); [lia|..]; intros; unfold march_year, march_month, month_days; simpl; div_lia.
Qed.

(** The day count of the next day is the next one: it counts days. *)
Lemma december y : days_from_civil y 12 1 = days_from_civil y 1 1 + (if is_leap y then 335 else 334).
Proof.
  assert (forall m n k, 1 <= m <= 11 -> n = m + 1 -> k = month_days y m ->
    days_from_civil y n 1 = days_from_civil y m 1 + k) as Hl by (intros m n k Hm -> ->; by apply month_length).
  unfold month_days in Hl.
  rewrite (Hl 11 12 30), (Hl 10 11 31), (Hl 9 10 30), (Hl 8 9 31), (Hl 7 8 31), (Hl 6 7 30), (Hl 5 6 31), (Hl 4 5 30),
    (Hl 3 4 31), (Hl 2 3 (if is_leap y then 29 else 28)), (Hl 1 2 31) by (lia || done).
  destruct (is_leap y); lia.
Qed.

Lemma days_of_next_day d : valid_date d = true -> days_of (next_day d) = days_of d + 1.
Proof.
  rewrite valid_date_spec. destruct d as [y m d]. simpl. intros [Hm Hd]. unfold next_day, days_of. simpl.
  rewrite (days_from_civil_day y m d).
  destruct (Z.ltb_spec d (month_days y m)); simpl.
  - rewrite (days_from_civil_day _ _ (d + 1)). lia.
  - destruct (Z.ltb_spec m 12); simpl; [rewrite month_length by lia; lia|].
    assert (m = 12) as -> by lia. rewrite year_length, december. change (month_days y 12) with 31 in *.
    destruct (is_leap _); lia.
Qed.

Lemma next_day_valid d : valid_date d = true -> valid_date (next_day d) = true.
Proof.
  rewrite !valid_date_spec. intros [Hm Hd]. unfold next_day.
  destruct (Z.ltb_spec (d_day d) (month_days (d_year d) (d_month d))); simpl; [lia|].
  destruct (Z.ltb_spec (d_month d) 12); simpl.
  - pose proof (month_days_range (d_year d) (d_month d + 1)). lia.
  - pose proof (month_days_range (d_year d + 1) 1). lia.
Qed.

(** The year since March and the day in it. *)
Lemma civil_of_march_day y' doy :
  0 <= doy <= 365 -> (doy = 365 -> is_leap (y' + 1) = true) ->
  let mp := (5 * doy + 2) / 153 in
  let m := if mp <? 10 then mp + 3 else mp - 9 in
  civil_from_days (365 * y' + y' / 4 - y' / 100 + y' / 400 + doy - 719468)
    = Date (if m <=? 2 then y' + 1 else y') m (doy - (153 * mp + 2) / 5 + 1).
Proof.
  intros Hdoy Hleap.
  assert (doy = 365 -> ((y' + 1) mod 4 = 0 /\ (y' + 1) mod 100 <> 0) \/ (y' + 1) mod 400 = 0) as Hl.
  { intros H. by apply is_leap_spec, Hleap. }
  clear Hleap. unfold civil_from_days.
  replace (365 * y' + y' / 4 - y' / 100 + y' / 400 + doy - 719468 + 719468)
    with (365 * y' + y' / 4 - y' / 100 + y' / 400 + doy) by lia.
  set (n := 365 * y' + y' / 4 - y' / 100 + y' / 400 + doy).
  assert (exists e c q s, y' = 400 * e + 100 * c + 4 * q + s /\ 0 <= c <= 3 /\ 0 <= q <= 24 /\ 0 <= s <= 3)
    as (e & c & q & s & Hy & Hc & Hq & Hs).
  { exists (y' / 400), (y' mod 400 / 100), (y' mod 100 / 4), (y' mod 4). div_lia. }
  assert (y' / 4 = 100 * e + 25 * c + q) as E4 by div_lia.
  assert (y' / 100 = 4 * e + c) as E100 by div_lia.
  assert (y' / 400 = e) as E400 by div_lia.
  assert (doy = 365 -> s = 3 /\ (q < 24 \/ c = 3)) as Hl' by div_lia. clear Hl.
  set (doe := 36524 * c + 1461 * q + 365 * s + doy).
  assert (0 <= doe < 146097) as Hdoe by lia.
  assert (n = 146097 * e + doe) as Hn by (unfold n, doe; lia).
  assert (n / 146097 = e /\ n mod 146097 = doe) as [-> ->] by div_lia.
  assert (Z.min 3 (doe / 36524) = c) as -> by (unfold doe in *; div_lia).
  assert ((doe - 36524 * c) / 1461 = q) as -> by (unfold doe in *; div_lia).
  assert (Z.min 3 ((doe - 36524 * c - 1461 * q) / 365) = s) as -> by (unfold doe in *; div_lia).
  replace (doe - 36524 * c - 1461 * q - 365 * s) with doy by (unfold doe; lia).
  rewrite <- Hy. done.
Qed.

(** The two conversions are inverse on valid dates. *)
Lemma civil_from_days_of d : valid_date d = true -> civil_from_days (days_of d) = d.
Proof.
  rewrite valid_date_spec. destruct d as [y m d]. simpl. intros [Hm Hd].
  unfold days_of, days_from_civil. simpl.
  set (doy := day_of_march_year (march_month m) d).
  assert (0 <= doy <= 365 /\ (doy = 365 -> is_leap (march_year y m + 1) = true) /\
    let mp := (5 * doy + 2) / 153 in mp = march_month m /\ doy - (153 * mp + 2) / 5 + 1 = d) as (Hdoy & Hleap & Hmp & Hday).
  { unfold month_days in Hd. unfold doy, day_of_march_year, march_month, march_year. clear doy.
    destruct (decide (m = 2)) as [->|Hm2]; simpl in *.
    - replace (y - 1 + 1) with y by lia. destruct (is_leap y); split_and!; done || div_lia.
    - revert Hm2 Hd. apply (month_cases m); [lia|..]; simpl; intros Hm2 Hd; split_and!; div_lia. }
  cbn zeta in Hmp, Hday. rewrite civil_of_march_day by done. rewrite Hmp in Hday |- *. rewrite Hday.
  unfold march_month, march_year in *. f_equal.
  - destruct (Z.leb_spec m 2); repeat case_match; lia.
  - destruct (Z.leb_spec m 2); repeat case_match; lia.
Qed.

(** Every day count is the count of a valid date: that of the date computed. *)
Lemma days_of_civil_from n : valid_date (civil_from_days n) = true /\ days_of (civil_from_days n) = n.
Proof.
  assert (forall k, valid_date (civil_from_days (days_of (Date 1970 1 1) + Z.of_nat k)) = true /\
    days_of (civil_from_days (days_of (Date 1970 1 1) + Z.of_nat k)) = days_of (Date 1970 1 1) + Z.of_nat k) as Hup.
  { induction k as [|k [IHv IHd]]; [done|].
    set (d := civil_from_days _) in IHv, IHd. pose proof (next_day_valid d IHv) as Hv.
    pose proof (days_of_next_day d IHv) as Hn. pose proof (civil_from_days_of _ Hv) as Hc.
    replace (days_of (Date 1970 1 1) + Z.of_nat (S k)) with (days_of (next_day d)) by lia. by rewrite Hc. }
  assert (forall e k, civil_from_days (k + 146097 * e) =
    let d := civil_from_days k in Date (d_year d + 400 * e) (d_month d) (d_day d)) as Hper.
  { intros e k. unfold civil_from_days. replace (k + 146097 * e + 719468) with (k + 719468 + e * 146097) by lia.
    rewrite Z_div_plus_full, Z_mod_plus_full by lia. cbn zeta. cbn [d_year d_month d_day].
    match goal with |- context [if ?m <=? 2 then _ else _] => destruct (m <=? 2) end; f_equal; lia. }
  assert (forall y e m d, valid_date (Date (y + 400 * e) m d) = valid_date (Date y m d) /\
    days_of (Date (y + 400 * e) m d) = days_of (Date y m d) + 146097 * e) as Hshift.
  { intros y e m d. split.
    - unfold valid_date, month_days. simpl.
      assert (is_leap (y + 400 * e) = is_leap y) as ->; [|done]. apply eq_true_iff_eq.
      rewrite !is_leap_spec. div_lia.
    - unfold days_of, days_from_civil, march_year. simpl. destruct (m <=? 2); div_lia. }
  set (e := Z.min 0 (n / 146097)). destruct (Hup (Z.to_nat (n - 146097 * e))) as [Hv Hd].
  change (days_of (Date 1970 1 1)) with 0 in *.
  assert (0 <= n - 146097 * e) as Hn by (unfold e; div_lia).
  rewrite Z2Nat.id, Z.add_0_l in Hv, Hd by done.
  pose proof (Hper e (n - 146097 * e)) as Hc. replace (n - 146097 * e + 146097 * e) with n in Hc by lia.
  cbn zeta in Hc. rewrite Hc. set (d := civil_from_days (n - 146097 * e)) in *.
  destruct (Hshift (d_year d) e (d_month d) (d_day d)) as [H1 H2]. rewrite H1, H2.
  replace (Date (d_year d) (d_month d) (d_day d)) with d by (by destruct d). split; [done|lia].
Qed.

(** ** [struct tm], [gmtime], [localtime] and [mktime] *)

Record tm : Type := Tm {
  tm_sec : Z; tm_min : Z; tm_hour : Z; tm_mday : Z; tm_mon : Z; tm_year : Z; tm_isdst : Z;
  tm_wday : Z; tm_yday : Z;
}.

(** The fields a caller of [mktime] fills. *)
Definition tm_of (year mon mday hour min sec isdst : Z) : tm := Tm sec min hour mday mon year isdst 0 0.

(** The broken-down time of [s] seconds since the epoch on a clock. *)
Definition break_down (s isdst : Z) : tm :=
  let n := s / 86400 in
  let r := s mod 86400 in
  let d := civil_from_days n in
  Tm (r mod 60) (r / 60 mod 60) (r / 3600) (d_day d) (d_month d - 1) (d_year d - 1900) isdst
    ((n + 4) mod 7) (n - days_from_civil (d_year d) 1 1).

(** The seconds since the epoch of fields that may be out of their ranges. *)
Definition tm_seconds (t : tm) : Z :=
  86400 * (days_from_civil (tm_year t + 1900 + tm_mon t / 12) (tm_mon t mod 12 + 1) 1 + tm_mday t - 1)
  + 3600 * tm_hour t + 60 * tm_min t + tm_sec t.

Definition gmtime (t : Z) : tm := break_down t 0.

(** A time zone: its offset from UTC and its daylight-saving flag at each
    instant, and the instant [mktime] picks for a local time and a
    [tm_isdst]. *)
Class TimeZone : Type := {
  utc_offset : Z -> Z;
  dst_flag : Z -> Z;
  instant_of : Z -> Z -> Z;
}.

(** What the sources need of it.  [instant_of] uses one of the zone's offsets;
    the offsets of the zone, whole minutes, lie within three hours of each
    other. *)
Class TimeZoneLaws `{TimeZone} : Prop := {
  tz_offset isdst s : exists t, instant_of isdst s = s - utc_offset t;
  tz_spread t t' : utc_offset t - utc_offset t' <= 10800;
  tz_minutes t : utc_offset t mod 60 = 0;
}.

(** A zone in which the first second of every local day exists and [mktime]
    picks an instant of that day; the instant is not -1. *)
Class TimeZoneMidnight `{TimeZone} : Prop := {
  tz_midnight n : let t := instant_of (-1) (86400 * n + 1) in t <> -1 /\ (t + utc_offset t) / 86400 = n;
}.

Definition localtime `{TimeZone} (t : Z) : tm := break_down (t + utc_offset t) (dst_flag t).
Definition mktime `{TimeZone} (t : tm) : Z := instant_of (tm_isdst t) (tm_seconds t).

(** A zone without daylight saving. *)
Definition fixed_zone (offset : Z) : TimeZone :=
  {| utc_offset _ := offset; dst_flag _ := 0; instant_of _ s := s - offset |}.

Lemma fixed_zone_laws offset : offset mod 60 = 0 -> @TimeZoneLaws (fixed_zone offset).
Proof. intros H. constructor; simpl; [eauto|lia|done]. Qed.

Lemma fixed_zone_midnight offset : offset mod 60 = 0 -> @TimeZoneMidnight (fixed_zone offset).
Proof. intros H. constructor. intros n. simpl. split; div_lia. Qed.

(** A zone an hour ahead from March to October. *)
Definition summer (s : Z) : bool :=
  let m := d_month (civil_from_days (s / 86400)) in (3 <=? m) && (m <=? 10).

Definition summer_zone (offset : Z) : TimeZone :=
  {| utc_offset t := if summer (t + offset) then offset + 3600 else offset;
     dst_flag t := if summer (t + offset) then 1 else 0;
     instant_of _ s := s - (if summer s then offset + 3600 else offset) |}.

Lemma summer_zone_laws offset : offset mod 60 = 0 -> @TimeZoneLaws (summer_zone offset).
Proof.
  intros H. constructor; simpl.
  - intros _ s. exists ((if summer s then 86400 * 151 else 0) - offset).
    rewrite Z.sub_add. by destruct (summer s).
  - intros t t'. repeat case_match; lia.
  - intros t. repeat case_match; div_lia.
Qed.
