(* ===== verification/BasString.v ===== *)
(** * String routines ([bas_string.c]): definitions

    A buffer argument is the list of its bytes ([unsigned] values); what a
    routine does to it in place is returned as the new buffer.  A read or a
    write outside it is a [Fault].  A [char] is signed: [schar] where the code
    compares or computes with one.  A local array that the code fills only
    partly is its initialised part, so that reading beyond is a [Fault] too. *)

From S2P Require Import Prelude LibC Buffers.

(** The constants of the missing header [bas_global.h]; the comments of the
    sources give the values of the first two. *)
Class BasGlobal : Type := {
  BAS_TRUE : Z;
  BAS_FALSE : Z;
  BAS_ID_TYPE_IDENTITY : Z;
  bas_true_1 : BAS_TRUE = 1;
  bas_false_0 : BAS_FALSE = 0;
}.

(** [for(i = i0; n iterations; i++) if(!p(buf[i])) return 0; return 1;] *)
Fixpoint all_bytes (p : Z -> bool) (n : nat) (i : Z) (buf : bytes) : outcome Z :=
  match n with
  | O => Ok 1
  | S n => c ← zget buf i; if p c then all_bytes p n (i + 1) buf else Ok 0
  end.

(** [strlen(buf) < iLen] and [strlen(buf) <= iLen]: the [int] becomes a
    [size_t]. *)
Definition shorter (len iLen : Z) : bool := len <? u64 iLen.
Definition fits (len iLen : Z) : bool := len <=? u64 iLen.

(** [memcmp(a + i, b + j, n) == 0]: the first difference decides. *)
Fixpoint same_bytes (n : nat) (a : bytes) (i : Z) (b : bytes) (j : Z) : outcome bool :=
  match n with
  | O => Ok true
  | S n =>
      x ← zget a i; y ← zget b j;
      if x =? y then same_bytes n a (i + 1) b (j + 1) else Ok false
  end.

(** ** Tests *)

Definition basRSpace (pcaString : bytes) (iLen : Z) : outcome bytes :=
  let caBuffer := pad_right (Z.to_nat (Z.abs iLen)) 32 (content pcaString) in
  if 1024 <=? zlen caBuffer then Fault
  else if iLen <? 0 then Fault
  else poke pcaString 0 (strncpy (Z.to_nat iLen) caBuffer).

Definition basIsNumeric (psBuf : bytes) : outcome Z :=
  n ← strlen psBuf;
  all_bytes (λ c, negb ((schar c <? 48) || (57 <? schar c))) (Z.to_nat n) 0 psBuf.

Definition basIsAlphabet (psBuf : bytes) : outcome Z :=
  n ← strlen psBuf;
  all_bytes (λ c, let c := schar c in negb ((c <? 65) || ((90 <? c) && (c <? 97)) || (122 <? c))) (Z.to_nat n) 0 psBuf.

Definition basIsSpace (pcaBuf : bytes) (iLen : Z) : outcome Z :=
  n ← strlen pcaBuf;
  if n =? 0 then Ok 1
  else
    let iLen := if shorter n iLen then s32 n else iLen in
    all_bytes (λ c, c =? 32) (Z.to_nat iLen) 0 pcaBuf.

Definition basIsSpaceOrY (pcaBuf : bytes) (iLen : Z) : outcome Z :=
  n ← strlen pcaBuf;
  if n =? 0 then Ok 1
  else
    let iLen := if shorter n iLen then s32 n else iLen in
    all_bytes (λ c, (c =? 32) || (c =? 89)) (Z.to_nat iLen) 0 pcaBuf.

Definition basIsZero (pcaBuf : bytes) (iLen : Z) : outcome Z :=
  all_bytes (λ c, c =? 48) (Z.to_nat iLen) 0 pcaBuf.

Definition basIsNull (pcaBuf : bytes) (iLen : Z) : outcome Z :=
  s ← basIsSpace pcaBuf iLen;
  if s =? 1 then Ok 1 else z ← basIsZero pcaBuf iLen; Ok (if z =? 1 then 1 else 0).

(** ** Trimming *)

(** [if (strlen(buf) <= iMaxLen && strlen(buf) > 0) iMaxLen = strlen(buf);] *)
Definition clip_length (pcaBuf : bytes) (iMaxLen : Z) : outcome Z :=
  n ← strlen pcaBuf;
  Ok (if fits n iMaxLen && (0 <? n) then s32 n else iMaxLen).

(** Blanks from position [i] downwards become [NUL], as far as they go. *)
Definition clear_blanks_down (n : nat) (i : Z) (buf : bytes) : outcome bytes :=
  for_loop n i (-1) (λ i buf,
    c ← zget buf i;
    if c =? 32 then buf' ← zset buf i 0; Ok (buf', true) else Ok (buf, false)) buf.

Definition basRTrim (pcaBuf : bytes) (iMaxLen : Z) : outcome bytes :=
  iMaxLen ← clip_length pcaBuf iMaxLen;
  clear_blanks_down (Z.to_nat iMaxLen) (iMaxLen - 1) pcaBuf.

(** The loop of [basLTrim]; the fuel is the buffer's length, [j] advances. *)
Fixpoint ltrim_loop (fuel : nat) (iMaxLen : Z) (buf : bytes) (i j : Z) (iFlag : bool) : outcome (bytes * Z) :=
  match fuel with
  | O => NoFuel
  | S fuel =>
      c ← zget buf j;
      if negb (c =? 0) && (j <? iMaxLen) then
        buf ← (if iFlag then zset buf i 0 else Ok buf);
        c ← zget buf j;
        if (c =? 32) && negb iFlag then ltrim_loop fuel iMaxLen buf i (j + 1) iFlag
        else buf ← zset buf i c; ltrim_loop fuel iMaxLen buf (i + 1) (j + 1) true
      else Ok (buf, i)
  end.

Definition basLTrim (pcaBuf : bytes) (iMaxLen : Z) : outcome bytes :=
  c ← zget pcaBuf 0;
  if negb (c =? 32) then Ok pcaBuf
  else
    r ← ltrim_loop (S (length pcaBuf)) iMaxLen pcaBuf 0 0 false;
    zset r.1 r.2 0.

(** The first loop of [basRemoveSpace] and of [basRemove0D0A]: the bytes that
    are not dropped move down; the result is the buffer and [j]. *)
Definition compact (dropped : Z -> bool) (n : nat) (buf : bytes) : outcome (bytes * Z) :=
  for_loop n 0 1 (λ i s,
    c ← zget s.1 i;
    if dropped c then Ok (s, true) else buf ← zset s.1 s.2 c; Ok ((buf, s.2 + 1), true)) (buf, 0).

(** The second: the bytes from [j] on become [c]. *)
Definition fill_from (c : Z) (n : nat) (j : Z) (buf : bytes) : outcome bytes :=
  for_loop n j 1 (λ i buf, buf ← zset buf i c; Ok (buf, true)) buf.

Definition basRemoveSpace (pcaBuf : bytes) (iMaxLen : Z) : outcome bytes :=
  iMaxLen ← clip_length pcaBuf iMaxLen;
  r ← compact (λ c, c =? 32) (Z.to_nat iMaxLen) pcaBuf;
  fill_from 0 (Z.to_nat (iMaxLen - r.2)) r.2 r.1.

Definition basRemove0D0A (pcaBuf : bytes) (iMaxLen : Z) : outcome bytes :=
  iMaxLen ← clip_length pcaBuf iMaxLen;
  r ← compact (λ c, (c =? 13) || (c =? 10)) (Z.to_nat iMaxLen) pcaBuf;
  fill_from 32 (Z.to_nat (iMaxLen - r.2)) r.2 r.1.

Definition basRTrimLeftOne (pcaBuf : bytes) (iMaxLen : Z) : outcome bytes :=
  if iMaxLen <? 1 then Ok pcaBuf
  else
    n ← strlen pcaBuf;
    let iBuflen := iMaxLen in
    let iMaxLen := if fits n iMaxLen then s32 n else iMaxLen in
    if iMaxLen =? 0 then buf ← poke pcaBuf 0 (memset 0 iBuflen); zset buf 0 32
    else clear_blanks_down (Z.to_nat (iMaxLen - 1)) (iMaxLen - 1) pcaBuf.

(** ** Case *)

(** The first byte of a two-byte Chinese character. *)
Definition is_lead (c : Z) : bool := (129 <=? c) && (c <=? 254).

(** [n] bounds the iterations, [i] may advance by two. *)
Fixpoint case_loop (conv : Z -> Z) (n : nat) (i iLen : Z) (buf : bytes) : outcome bytes :=
  match n with
  | O => Ok buf
  | S n =>
      if i <? iLen then
        c ← zget buf i;
        if is_lead c then case_loop conv n (i + 2) iLen buf
        else buf ← zset buf i (conv c); case_loop conv n (i + 1) iLen buf
      else Ok buf
  end.

Definition basToUpper (pcaBuf : bytes) (iLen : Z) : outcome bytes := case_loop toupper (Z.to_nat iLen) 0 iLen pcaBuf.
Definition basToLower (pcaBuf : bytes) (iLen : Z) : outcome bytes := case_loop tolower (Z.to_nat iLen) 0 iLen pcaBuf.

(** ** Check digits *)

(** The length cut at the first blank or NUL. *)
Fixpoint card_length (n : nat) (i iCardLen : Z) (buf : bytes) : outcome Z :=
  match n with
  | O => Ok iCardLen
  | S n =>
      c ← zget buf i;
      if (c =? 32) || (c =? 0) then Ok i else card_length n (i + 1) iCardLen buf
  end.

(** The loop over [i = iCardLen - 2, iCardLen - 4, ...], two digits at a time;
    the fuel is the number of digits. *)
Fixpoint luhn_loop (fuel : nat) (i iSum : Z) (buf : bytes) : outcome Z :=
  if i <? 0 then Ok iSum
  else
    match fuel with
    | O => NoFuel
    | S fuel =>
        c ← zget buf i;
        let t := (schar c - 48) * 2 in
        let iSum := iSum + (Z.quot t 10 + Z.rem t 10) in
        iSum ← (if 0 <=? i - 1 then c ← zget buf (i - 1); Ok (iSum + (schar c - 48)) else Ok iSum);
        luhn_loop fuel (i - 2) iSum buf
    end.

(** The result code and the number with its computed check digit. *)
Definition basChkActBit (pcaActno : bytes) (iCardLen : Z) : outcome (Z * bytes) :=
  iCardLen ← card_length (Z.to_nat iCardLen) 0 iCardLen pcaActno;
  iSum ← luhn_loop (Z.to_nat iCardLen) (iCardLen - 2) 0 pcaActno;
  let cBit := if Z.rem iSum 10 =? 0 then 48 else u8 (48 + 10 - Z.rem iSum 10) in
  cOrgBit ← zget pcaActno (iCardLen - 1);
  buf ← zset pcaActno (iCardLen - 1) cBit;
  Ok (if cOrgBit =? cBit then 1 else 0, buf).

Definition miaWi : list Z := [7; 9; 10; 5; 8; 4; 2; 1; 6; 3; 7; 9; 10; 5; 8; 4; 2; 1].
Definition mcaVer : bytes := lit "10X98765432" ++ [0].

(** [for(i = 0; i < 17; i++) iSum += (pcaIdno[i] - '0') * miaWi[i];] *)
Definition idno_sum (pcaIdno : bytes) : outcome Z :=
  for_loop 17 0 1 (λ i iSum,
    c ← zget pcaIdno i; w ← zget miaWi i; Ok (iSum + (schar c - 48) * w, true)) 0.

Definition basIdno18GenCheckVal (pcaIdno : bytes) : outcome (Z * bytes) :=
  iSum ← idno_sum pcaIdno;
  v ← zget mcaVer (Z.rem iSum 11);
  buf ← zset pcaIdno 17 v;
  Ok (v, buf).

Definition basIdno18To15 (pcaIdno : bytes) : outcome bytes :=
  a ← peek pcaIdno 0 6; b ← peek pcaIdno 8 6; c ← peek pcaIdno 14 3;
  strcpy pcaIdno (a ++ b ++ c ++ [0]).

Definition basIdno15To18 (pcaIdno : bytes) : outcome bytes :=
  a ← peek pcaIdno 0 6; b ← peek pcaIdno 6 9;
  r ← basIdno18GenCheckVal (a ++ [49; 57] ++ b ++ [0; 0]);
  strcpy pcaIdno r.2.

(** [caTmp] is [char [18 + 1]]: a longer number does not fit. *)
Definition basIdno18IsValid `{BasGlobal} (pcaIdno : bytes) : outcome Z :=
  n ← strlen pcaIdno;
  if 18 <? n then Fault
  else
    r ← basIdno18GenCheckVal (content pcaIdno ++ [0]);
    a ← zget r.2 17; b ← zget pcaIdno 17;
    Ok (if a =? b then BAS_TRUE else BAS_FALSE).

(** A number field of 25 bytes, right-trimmed, in a zeroed [char [25 + 1]]. *)
Definition idno_field (pcaIdno : bytes) : outcome bytes :=
  t ← peek pcaIdno 0 25; basRTrim (t ++ [0]) 26.

(** The form compared: 15 digits brought to 18, the check letter in upper case. *)
Definition idno_normal (caTmp : bytes) : outcome bytes :=
  n ← strlen caTmp;
  caTmp ← (if n =? 15 then basIdno15To18 caTmp else Ok caTmp);
  c ← zget caTmp 17;
  if c =? 120 then zset caTmp 17 (toupper c) else Ok caTmp.

Definition basIsSameIdno `{BasGlobal} (pcaIdtype1 pcaIdno1 pcaIdtype2 pcaIdno2 : bytes) : outcome Z :=
  caTmp1 ← idno_field pcaIdno1; caTmp2 ← idno_field pcaIdno2;
  t1 ← zget pcaIdtype1 0; t2 ← zget pcaIdtype2 0;
  if negb (t1 =? t2) then Ok 0
  else
    caTmp1 ← (if t1 =? BAS_ID_TYPE_IDENTITY then idno_normal caTmp1 else Ok caTmp1);
    caTmp2 ← (if t1 =? BAS_ID_TYPE_IDENTITY then idno_normal caTmp2 else Ok caTmp2);
    Ok (if bool_decide (content caTmp1 = content caTmp2) then 1 else 0).

Definition basIsSameIdnoEcif (pcaIdtype1 pcaIdno1 pcaIdtype2 pcaIdno2 : bytes) : outcome Z :=
  caTmp1 ← idno_field pcaIdno1; caTmp2 ← idno_field pcaIdno2;
  t1 ← peek pcaIdtype1 0 5; t2 ← peek pcaIdtype2 0 5;
  caType1 ← basRTrim (t1 ++ [0]) 6; caType2 ← basRTrim (t2 ++ [0]) 6;
  same ← same_bytes 5 caType1 0 caType2 0;
  if negb same then Ok 0
  else
    identity ← same_bytes 5 caType1 0 (lit "10100") 0;
    caTmp1 ← (if identity : bool then idno_normal caTmp1 else Ok caTmp1);
    caTmp2 ← (if identity : bool then idno_normal caTmp2 else Ok caTmp2);
    Ok (if bool_decide (content caTmp1 = content caTmp2) then 1 else 0).

(** ** Patterns *)

Record pattern_state : Type := PatternState {
  ps_caBuf : bytes; ps_j : Z; ps_iCFlag : bool; ps_iZFlag : bool; ps_iNFlag : bool;
}.

(** One pattern character: [None] is the [break] at the end of [pcaString]. *)
Definition pattern_step (pcaString : bytes) (i p : Z) (s : pattern_state) : outcome (option pattern_state) :=
  let '(PatternState caBuf j iCFlag iZFlag iNFlag) := s in
  c ← zget pcaString j;
  if c =? 0 then Ok None
  else if p =? 85 (* U *) then
    caBuf ← zset caBuf i (toupper c); Ok (Some (PatternState caBuf (j + 1) iCFlag iZFlag iNFlag))
  else if p =? 76 (* L *) then
    caBuf ← zset caBuf i (tolower c); Ok (Some (PatternState caBuf (j + 1) iCFlag iZFlag iNFlag))
  else if p =? 35 (* # *) then
    caBuf ← zset caBuf i (if (c =? 32) && iCFlag then 48 else c);
    Ok (Some (PatternState caBuf (j + 1) iCFlag iZFlag iNFlag))
  else if (p =? 57) || (p =? 90) (* 9 Z *) then
    prev ← (if iNFlag then zget caBuf (i - 1) else Ok 0);
    if iNFlag && (prev =? 45) && (c =? 48) then
      caBuf ← zset caBuf (i - 1) 32; caBuf ← zset caBuf i 45;
      Ok (Some (PatternState caBuf (j + 1) true iZFlag iNFlag))
    else
      let iNFlag := c =? 45 in
      if iZFlag then
        caBuf ← zset caBuf i c; Ok (Some (PatternState caBuf (j + 1) true iZFlag iNFlag))
      else if negb (c =? 48) && negb (c =? 32) then
        caBuf ← zset caBuf i c; Ok (Some (PatternState caBuf (j + 1) true true iNFlag))
      else
        caBuf ← zset caBuf i 32; Ok (Some (PatternState caBuf (j + 1) true iZFlag iNFlag))
  else if p =? 44 (* , *) then
    if iNFlag then
      caBuf ← zset caBuf (i - 1) 32; caBuf ← zset caBuf i 45;
      Ok (Some (PatternState caBuf j iCFlag iZFlag iNFlag))
    else
      caBuf ← zset caBuf i (if iZFlag then 44 else 32);
      Ok (Some (PatternState caBuf j iCFlag iZFlag iNFlag))
  else
    caBuf ← zset caBuf i p; Ok (Some (PatternState caBuf j iCFlag iZFlag iNFlag)).

Fixpoint pattern_loop (pcaString pattern : bytes) (i : Z) (s : pattern_state) : outcome bytes :=
  match pattern with
  | [] => Ok (ps_caBuf s)
  | p :: pattern =>
      r ← pattern_step pcaString i p s;
      match r with
      | None => Ok (ps_caBuf s)
      | Some s => pattern_loop pcaString pattern (i + 1) s
      end
  end.

Definition basStringPattern (pcaString pcaPattern : bytes) : outcome bytes :=
  caBuf ← pattern_loop pcaString (content pcaPattern) 0 (PatternState (replicate 1024 0) 0 false false false);
  strcpy pcaString caBuf.

(** ** Decimal strings and comparison *)

(** The loop of [basAddString] from the last digit: the buffer, and [i < 0]. *)
Fixpoint add_loop (n : nat) (i : Z) (buf : bytes) : outcome (bytes * bool) :=
  match n with
  | O => Ok (buf, true)
  | S n =>
      c ← zget buf i;
      if schar c <? 57 then buf ← zset buf i (u8 (c + 1)); Ok (buf, false)
      else buf ← zset buf i 48; add_loop n (i - 1) buf
  end.

Definition basAddString (pcaBuf : bytes) (iLen iVal : Z) : outcome bytes :=
  r ← add_loop (Z.to_nat iLen) (iLen - 1) pcaBuf;
  if r.2 : bool then poke r.1 0 (memset 48 iLen) else Ok r.1.

Fixpoint memcmp_loop (n : nat) (i : Z) (b1 b2 : bytes) (iFlag1 iFlag2 : bool) : outcome Z :=
  match n with
  | O => Ok 0
  | S n =>
      iFlag1 ← (if iFlag1 then Ok true else c ← zget b1 i; Ok (c =? 0));
      iFlag2 ← (if iFlag2 then Ok true else c ← zget b2 i; Ok (c =? 0));
      if iFlag1 && iFlag2 then Ok 0
      else if iFlag1 : bool then
        c ← zget b2 i;
        if negb (c =? 32) then Ok (-1) else memcmp_loop n (i + 1) b1 b2 iFlag1 iFlag2
      else if iFlag2 : bool then
        c ← zget b1 i;
        if negb (c =? 32) then Ok 1 else memcmp_loop n (i + 1) b1 b2 iFlag1 iFlag2
      else
        x ← zget b1 i; y ← zget b2 i;
        if schar y <? schar x then Ok 1
        else if schar x <? schar y then Ok (-1)
        else memcmp_loop n (i + 1) b1 b2 iFlag1 iFlag2
  end.

Definition basMemcmp (pcaBuf1 pcaBuf2 : bytes) (iLen : Z) : outcome Z :=
  memcmp_loop (Z.to_nat iLen) 0 pcaBuf1 pcaBuf2 false false.

(** ** Counting and searching *)

Fixpoint count_loop (n : nat) (i : Z) (cChar iCount : Z) (buf : bytes) : outcome Z :=
  match n with
  | O => Ok iCount
  | S n =>
      c ← zget buf i;
      if c =? 0 then Ok iCount else count_loop n (i + 1) cChar (if c =? cChar then iCount + 1 else iCount) buf
  end.

Definition basCountString (pcaBuf : bytes) (cChar iLen : Z) : outcome Z := count_loop (Z.to_nat iLen) 0 cChar 0 pcaBuf.

(** The loop of [basCountStr]; it advances by at least one unless [pStr] is
    empty. *)
Fixpoint count_str_loop (fuel : nat) (pcaBuf pStr : bytes) (iLen1 iLen2 i iCnt : Z) : outcome Z :=
  if i <? iLen1 then
    match fuel with
    | O => NoFuel
    | S fuel =>
        same ← same_bytes (Z.to_nat iLen2) pcaBuf i pStr 0;
        if same : bool then count_str_loop fuel pcaBuf pStr iLen1 iLen2 (i + iLen2) (iCnt + 1)
        else count_str_loop fuel pcaBuf pStr iLen1 iLen2 (i + 1) iCnt
    end
  else Ok iCnt.

Definition basCountStr (fuel : nat) (pcaBuf pStr : bytes) : outcome Z :=
  iLen1 ← strlen pcaBuf; iLen2 ← strlen pStr;
  if iLen1 <? iLen2 then Ok 0 else count_str_loop fuel pcaBuf pStr iLen1 iLen2 0 0.

(** The first [i < iLen1] at which [p] holds, or [iLen1]. *)
Fixpoint first_index (p : Z -> outcome bool) (n : nat) (i : Z) : outcome Z :=
  match n with
  | O => Ok i
  | S n => b ← p i; if b : bool then Ok i else first_index p n (i + 1)
  end.

Definition basLocateStr (pcaBuf pStr : bytes) : outcome Z :=
  iLen1 ← strlen pcaBuf; iLen2 ← strlen pStr;
  if iLen1 <? iLen2 then Ok (-1)
  else
    i ← first_index (λ i, same_bytes (Z.to_nat iLen2) pcaBuf i pStr 0) (Z.to_nat iLen1) 0;
    Ok (if i =? iLen1 then -1 else i).

Definition basLocateSpace (pcaBuf : bytes) : outcome Z :=
  iLen1 ← strlen pcaBuf;
  i ← first_index (λ i, c ← zget pcaBuf i; Ok ((c =? 32) || (c =? 9))) (Z.to_nat iLen1) 0;
  Ok (if i =? iLen1 then -1 else i).

Definition basInitSpaces (pcaBuf : bytes) (iLen : Z) : outcome bytes := fill_from 32 (Z.to_nat iLen) 0 pcaBuf.
Definition basInitZeros (pcaBuf : bytes) (iLen : Z) : outcome bytes := fill_from 48 (Z.to_nat iLen) 0 pcaBuf.

(** The loop starts at the terminating NUL. *)
Definition basRTrimChar (pcaBuf : bytes) (cStr : Z) : outcome bytes :=
  iLen ← strlen pcaBuf;
  for_loop (S (Z.to_nat iLen)) iLen (-1) (λ i buf,
    c ← zget buf i;
    if schar c =? cStr then buf ← zset buf i 0; Ok (buf, false) else Ok (buf, true)) pcaBuf.

(** ** Filling and copying *)

Definition basLFill (pcaBuf : bytes) (iLen cChar : Z) : outcome bytes :=
  iOrgLen ← strlen pcaBuf;
  if iLen <=? iOrgLen then Ok pcaBuf
  else
    caBuf ← poke (replicate 512 0) 0 (memset cChar (iLen - iOrgLen));
    n ← strlen caBuf;
    caBuf ← poke caBuf n (content pcaBuf ++ [0]);
    t ← peek caBuf 0 iLen;
    poke pcaBuf 0 t.

Definition basLtoa (lValue : Z) (pcaBuf : bytes) (iDec : Z) : outcome bytes := poke pcaBuf 0 (dec lValue ++ [0]).

(** Writes of [caTmpBuf[j++]]. *)
Fixpoint emit (buf : bytes) (j : Z) (cs : bytes) : outcome (bytes * Z) :=
  match cs with
  | [] => Ok (buf, j)
  | c :: cs => buf ← zset buf j c; emit buf (j + 1) cs
  end.

(** The loop of [basTransVertical] over the rest of [caTmpBuf2]: [src] holds
    its terminating NUL, which the second byte of a cut character can be. *)
Fixpoint vertical_loop (fuel : nat) (src : bytes) (i : Z) (dst : bytes) (j : Z) : outcome bytes :=
  match fuel with
  | O => NoFuel
  | S fuel =>
      n ← strlen src;
      if negb (i <? n) || (1023 <? j) then Ok dst
      else
        c ← zget src i;
        if is_lead c then
          d ← zget src (i + 1); r ← emit dst j [c; d]; vertical_loop fuel src (i + 2) r.1 r.2
        else
          r ← emit dst j (if c =? 124 then [92; 124] else if c =? 92 then [92; 92] else [c]);
          vertical_loop fuel src (i + 1) r.1 r.2
  end.

(** ["%-*.*s"]: at most [iLen] bytes, padded to [iLen]. *)
Definition basTransVertical (pcaBuf : bytes) (iLen : Z) : outcome bytes :=
  let iLen := if 1024 <? u64 iLen then 1024 else iLen in
  let text := pad_right (Z.to_nat iLen) 32 (take (Z.to_nat iLen) (content pcaBuf)) in
  vertical_loop (S (length text)) (text ++ replicate (1025 - length text) 0) 0 (replicate 1025 0) 0.

(** [while(n--) *(q++) = *(p++);] from [src + i]: a negative [n] runs off. *)
Definition copy_down (n : Z) (src : bytes) (i : Z) : outcome bytes := if n <? 0 then Fault else peek src i n.

Definition basLeftStr (dst src : bytes) (n m : Z) : outcome bytes :=
  len ← strlen src;
  let n := if len <? n then len else n in
  t ← copy_down n src 0;
  poke dst 0 (t ++ [0]).

Definition basRightStr (dst src : bytes) (n m : Z) : outcome bytes :=
  len ← strlen src;
  let n := if len <? n then len else n in
  if zlen src <=? len - n then Fault
  else
    let s := drop (Z.to_nat (len - n)) src in
    _ ← strlen s; poke dst 0 (content s ++ [0]).

(** [None] is the NULL returned. *)
Definition basMidStr (dst src : bytes) (n m : Z) : outcome (option bytes) :=
  len ← strlen src;
  let n := if len <? n then len - m else n in
  if 0 <? m then Ok None
  else t ← copy_down n src m; dst ← poke dst 0 (t ++ [0]); Ok (Some dst).

Definition basSubstr (dst src : bytes) (len start : Z) : outcome (option bytes) :=
  length ← strlen src;
  if (length <=? start) || (start <? 0) then Ok None
  else
    let len := if length <? len then length - start else len in
    t ← copy_down len src start; dst ← poke dst 0 (t ++ [0]); Ok (Some dst).

(** The result code and [pcaDes]; a result of [malloc] is taken to be there. *)
Definition basSetAlign (cType lFmtLength : Z) (pcaSrc pcaDes : bytes) : outcome (Z * bytes) :=
  lSrcLen ← strlen pcaSrc;
  pcaTemp ← peek pcaSrc 0 (if lFmtLength <? lSrcLen then lFmtLength else lSrcLen);
  let width := Z.to_nat (Z.abs (s32 lFmtLength)) in
  if cType =? 76 (* L *) then d ← poke pcaDes 0 (pad_right width 32 pcaTemp ++ [0]); Ok (0, d)
  else if cType =? 77 (* M *) then
    let lMidPos := Z.quot (lFmtLength - lSrcLen) 2 in
    if lMidPos =? 0 then
      t ← peek (pcaTemp ++ [0]) 0 lSrcLen;
      if lFmtLength - lSrcLen <? 0 then Fault
      else d ← poke pcaDes 0 (t ++ memset 32 (lFmtLength - lSrcLen)); Ok (0, d)
    else if lMidPos <? 0 then Fault
    else
      d ← poke pcaDes 0 (memset 32 lMidPos ++ pcaTemp ++ memset 32 (lFmtLength - lMidPos - lSrcLen)); Ok (0, d)
  else if cType =? 82 (* R *) then
    d ← poke pcaDes 0 ((if s32 lFmtLength <? 0 then pad_right width 32 pcaTemp else pad_left width 32 pcaTemp) ++ [0]);
    Ok (0, d)
  else Ok (-1, pcaDes).

(** [n] bounds the iterations, the position may advance by two. *)
Fixpoint half_loop (n : nat) (iHalfChsChar iPos : Z) (buf : bytes) : outcome Z :=
  if iHalfChsChar <? iPos then
    match n with
    | O => NoFuel
    | S n =>
        c ← zget buf iHalfChsChar;
        half_loop n (if 128 <=? c then iHalfChsChar + 2 else iHalfChsChar + 1) iPos buf
    end
  else Ok iHalfChsChar.

Definition basTrimHalfChsChar (pcaBuf : bytes) (iPos : Z) : outcome (Z * bytes) :=
  h ← half_loop (Z.to_nat iPos) 0 iPos pcaBuf;
  if h =? iPos + 1 then
    c ← zget pcaBuf (iPos - 1);
    if 128 <=? c then buf ← zset pcaBuf (iPos - 1) 32; Ok (h, buf) else Ok (h, pcaBuf)
  else Ok (h, pcaBuf).

(** The first loop of [basStrlcpy]: [k] bytes may still be copied; the
    destination, the position after it, and whether the NUL was copied. *)
Fixpoint strlcpy_loop (k : nat) (i : Z) (dst src : bytes) : outcome (bytes * Z * bool) :=
  match k with
  | O => Ok (dst, i, false)
  | S k =>
      c ← zget src i;
      dst ← zset dst i c;
      if c =? 0 then Ok (dst, i + 1, true) else strlcpy_loop k (i + 1) dst src
  end.

Definition basStrlcpy (caDest caSrc : bytes) (nDestSize : Z) : outcome (Z * bytes) :=
  r ← strlcpy_loop (Z.to_nat (nDestSize - 1)) 0 caDest caSrc;
  let '(dst, i, copied) := r in
  if copied : bool then Ok (i - 1, dst)
  else
    dst ← (if nDestSize =? 0 then Ok dst else zset dst i 0);
    n ← strlen (drop (Z.to_nat i) caSrc);
    Ok (i + n, dst).

(** The length of the string in [caDest], at most [n]. *)
Fixpoint dest_length (n : nat) (i : Z) (dst : bytes) : outcome Z :=
  match n with
  | O => Ok i
  | S n => c ← zget dst i; if c =? 0 then Ok i else dest_length n (i + 1) dst
  end.

Definition basStrlcat (caDest caSrc : bytes) (nDestSize : Z) : outcome (Z * bytes) :=
  nDestStrLen ← dest_length (Z.to_nat nDestSize) 0 caDest;
  let n := nDestSize - nDestStrLen in
  len ← strlen caSrc;
  if n =? 0 then Ok (nDestStrLen + len, caDest)
  else
    dst ← poke caDest nDestStrLen (take (Z.to_nat (n - 1)) (content caSrc) ++ [0]);
    Ok (nDestStrLen + len, dst).

Definition basGetMinValue (nValue1 nValue2 : Z) : Z := if nValue1 <? nValue2 then nValue1 else nValue2.
Definition basGetMaxValue (nValue1 nValue2 : Z) : Z := if nValue2 <? nValue1 then nValue1 else nValue2.

Definition basStrcpy (caOutDest caInSrc : bytes) (nDestSize : Z) : outcome bytes :=
  uiSrcLen ← strlen caInSrc;
  dst ← zset caOutDest (nDestSize - 1) 0;
  if nDestSize <? u32 uiSrcLen + 1 then t ← peek caInSrc 0 (nDestSize - 1); poke dst 0 t
  else t ← peek caInSrc 0 uiSrcLen; dst ← poke dst 0 t; zset dst uiSrcLen 0.
