(* ===== verification/BasStringFacts.v ===== *)
(** * String routines ([bas_string.c]): what they compute

    Each routine on a buffer that holds a NUL-terminated string [s], followed
    by anything, against a reference on the string itself. *)

From S2P Require Import Prelude LibC Buffers BasString.

Lemma replicate_S_end' {A} n (x : A) : replicate (S n) x = replicate n x ++ [x].
Proof. apply replicate_S_end. Qed.

Lemma fits_nat len iLen : 0 <= len -> 0 <= iLen < 2147483648 -> fits len iLen = (len <=? iLen).
Proof. intros H1 H2. unfold fits. by rewrite u64_id by lia. Qed.

(** ** Tests *)

Lemma all_bytes_spec p n i buf :
  0 <= i -> i + Z.of_nat n <= zlen buf ->
  all_bytes p n i buf = Ok (if forallb p (take n (drop (Z.to_nat i) buf)) then 1 else 0).
Proof.
  revert i. induction n as [|n IH]; intros i Hi Hn; [done|]. cbn [all_bytes].
  destruct (zget_in_range buf i) as [c Hc]; [lia|]. rewrite Hc. cbn [mbind outcome_bind].
  apply zget_Ok in Hc as [_ Hc]. rewrite (drop_S _ _ _ Hc). cbn [take forallb].
  destruct (p c); [|done]. rewrite IH by lia. replace (Z.to_nat (i + 1)) with (S (Z.to_nat i)) by lia. done.
Qed.

Lemma all_bytes_string p s r :
  all_bytes p (Z.to_nat (zlen s)) 0 (s ++ r) = Ok (if forallb p s then 1 else 0).
Proof.
  rewrite all_bytes_spec.
  - unfold zlen. rewrite Nat2Z.id, drop_0. by rewrite take_app_length.
  - lia.
  - rewrite zlen_app. pose proof (zlen_nonneg r). unfold zlen in *. lia.
Qed.

(** ** Right trim *)

Fixpoint rstrip (s : bytes) : bytes :=
  match s with
  | [] => []
  | c :: s' => match rstrip s' with
               | [] => if c =? 32 then [] else [c]
               | t => c :: t
               end
  end.

Lemma rstrip_split s : s = rstrip s ++ replicate (length s - length (rstrip s)) 32.
Proof.
  induction s as [|c s IH]; [done|]. cbn [rstrip]. destruct (rstrip s) as [|d t] eqn:E.
  - destruct (Z.eqb_spec c 32) as [->|]; simpl in *.
    + rewrite Nat.sub_0_r in IH. by rewrite <- IH.
    + rewrite Nat.sub_0_r in *. by rewrite <- IH.
  - simpl in *. by rewrite <- IH.
Qed.

Lemma rstrip_last s : last (rstrip s) <> Some 32.
Proof.
  induction s as [|c s IH]; [done|]. cbn [rstrip]. destruct (rstrip s) as [|d t] eqn:E.
  - destruct (Z.eqb_spec c 32) as [->|]; [done|]. simpl. congruence.
  - exact IH.
Qed.

Lemma rstrip_length s : (length (rstrip s) <= length s)%nat.
Proof. rewrite (rstrip_split s) at 2. rewrite length_app. lia. Qed.

Lemma clear_blanks_down_run a k rest :
  last a <> Some 32 ->
  forall n, n = (length a + k)%nat ->
  clear_blanks_down n (Z.of_nat n - 1) (a ++ replicate k 32 ++ rest) = Ok (a ++ replicate k 0 ++ rest).
Proof.
  intros Ha. unfold clear_blanks_down. revert rest. induction k as [|k IH]; intros rest n Hn.
  - destruct a as [|x a'] using rev_ind; [by subst n|]. clear IHa'. subst n.
    rewrite last_snoc in Ha. simpl. rewrite length_app, Nat.add_0_r. simpl.
    rewrite Nat.add_1_r. cbn [for_loop]. rewrite <- app_assoc. simpl.
    rewrite zget_middle by (unfold zlen; lia). cbn [mbind outcome_bind].
    destruct (Z.eqb_spec x 32) as [->|]; done.
  - subst n. rewrite Nat.add_succ_r. cbn [for_loop]. rewrite replicate_S_end', <- app_assoc. simpl.
    rewrite app_assoc, zget_middle by (rewrite zlen_app; unfold zlen; rewrite length_replicate; lia).
    cbn [mbind outcome_bind]. change (32 =? 32) with true. cbv iota.
    rewrite zset_middle by (rewrite zlen_app; unfold zlen; rewrite length_replicate; lia). cbn [mbind outcome_bind fst snd].
    rewrite <- app_assoc.
    replace (Z.of_nat (S (length a + k)) - 1 + -1) with (Z.of_nat (length a + k) - 1) by lia.
    rewrite IH by done. change (0 :: replicate k 0 ++ rest) with (replicate (S k) 0 ++ rest).
    by rewrite (replicate_S_end' k 0), <- app_assoc.
Qed.

(** [basRTrim] with a length that covers the string strips its blanks. *)
Lemma rtrim_run s r iMaxLen :
  cstring s -> s <> [] -> zlen s <= iMaxLen < 2147483648 ->
  basRTrim (s ++ 0 :: r) iMaxLen
    = Ok (rstrip s ++ replicate (length s - length (rstrip s)) 0 ++ 0 :: r).
Proof.
  intros Hs Hne Hl. unfold basRTrim, clip_length. rewrite strlen_app by done. cbn [mbind outcome_bind].
  pose proof (zlen_nonneg s). rewrite fits_nat by lia.
  destruct (Z.leb_spec (zlen s) iMaxLen); [|lia].
  assert (0 < zlen s) by (destruct s; [done|rewrite zlen_cons; pose proof (zlen_nonneg s); lia]).
  destruct (Z.ltb_spec 0 (zlen s)); [|lia]. cbn [andb mbind outcome_bind]. no_wrap.
  rewrite (rstrip_split s) at 3. rewrite <- app_assoc.
  pose proof (rstrip_length s) as Hrl.
  replace (zlen s - 1) with (Z.of_nat (Z.to_nat (zlen s)) - 1) by lia.
  apply clear_blanks_down_run; [apply rstrip_last|]. unfold zlen. lia.
Qed.

(** ** Left trim *)

Fixpoint lstrip (s : bytes) : bytes :=
  match s with
  | c :: s' => if c =? 32 then lstrip s' else s
  | [] => []
  end.

Lemma lstrip_split s : exists k, s = replicate k 32 ++ lstrip s.
Proof.
  induction s as [|c s [k IH]]; [by exists 0%nat|]. cbn [lstrip].
  destruct (Z.eqb_spec c 32) as [->|]; [|by exists 0%nat]. exists (S k). simpl. by rewrite <- IH.
Qed.

Lemma lstrip_first s c t : lstrip s = c :: t -> c <> 32.
Proof.
  induction s as [|d s IH]; [done|]. cbn [lstrip]. destruct (Z.eqb_spec d 32); [done|]. congruence.
Qed.

(** Once a byte has moved, the rest follows: [a] is in place, [g] is the gap. *)
Lemma ltrim_loop_move iMaxLen t : forall fuel a g r,
  cstring t -> (0 < length g)%nat -> (length t < fuel)%nat ->
  zlen a + zlen g + zlen t <= iMaxLen ->
  exists g', ltrim_loop fuel iMaxLen (a ++ g ++ t ++ 0 :: r) (zlen a) (zlen a + zlen g) true
    = Ok (a ++ t ++ g' ++ 0 :: r, zlen a + zlen t) /\ length g' = length g.
Proof.
  induction t as [|c t IH]; intros fuel a g r Ht Hg Hf Hl; (destruct fuel as [|fuel]; [simpl in Hf; lia|]); cbn [ltrim_loop].
  - exists g. rewrite app_assoc. simpl. rewrite zget_middle by (rewrite zlen_app; done). simpl.
    rewrite <- app_assoc. change (zlen []) with 0. by rewrite Z.add_0_r.
  - apply Forall_cons in Ht as [Hc Ht]. unfold cchar in Hc. rewrite zlen_cons in Hl. pose proof (zlen_nonneg t).
    destruct g as [|x g]; [simpl in Hg; lia|].
    assert (forall y, zget (a ++ y :: g ++ (c :: t) ++ 0 :: r) (zlen a + zlen (x :: g)) = Ok c) as Hget.
    { intros y. replace (a ++ y :: g ++ (c :: t) ++ 0 :: r) with ((a ++ y :: g) ++ c :: t ++ 0 :: r)
        by (by rewrite <- app_assoc). apply zget_middle. rewrite zlen_app, !zlen_cons. lia. }
    simpl (_ ++ _) at 1. change ((x :: g) ++ (c :: t) ++ 0 :: r) with (x :: g ++ (c :: t) ++ 0 :: r).
    rewrite Hget. cbn [mbind outcome_bind]. destruct (Z.eqb_spec c 0); [lia|].
    destruct (Z.ltb_spec (zlen a + zlen (x :: g)) iMaxLen); [|lia]. cbn [negb andb].
    rewrite zset_middle by done. cbn [mbind outcome_bind]. rewrite Hget. cbn [mbind outcome_bind]. rewrite andb_false_r.
    rewrite zset_middle by done. cbn [mbind outcome_bind].
    destruct (IH fuel (a ++ [c]) (g ++ [c]) r) as (g' & Hrun & Hg').
    { done. } { rewrite length_app. simpl. lia. } { simpl in Hf. lia. }
    { rewrite !zlen_app. rewrite zlen_cons in Hl. change (zlen [c]) with 1. lia. }
    exists g'. rewrite zlen_app in Hrun. change (zlen [c]) with 1 in Hrun.
    replace (zlen a + 1 + zlen (g ++ [c])) with (zlen a + zlen (x :: g) + 1) in Hrun
      by (rewrite zlen_app, zlen_cons; change (zlen [c]) with 1; lia).
    replace (a ++ c :: g ++ c :: t ++ 0 :: r) with ((a ++ [c]) ++ (g ++ [c]) ++ t ++ 0 :: r)
      by (by rewrite <- !app_assoc).
    rewrite Hrun. split; [|rewrite Hg', length_app; simpl; lia].
    rewrite <- !app_assoc, zlen_cons. simpl. do 2 f_equal. lia.
Qed.

Lemma ltrim_loop_skip iMaxLen k t fuel r :
  cstring t -> hd 0 t <> 32 -> (0 < k)%nat -> (k + length t < fuel)%nat -> Z.of_nat k + zlen t <= iMaxLen ->
  exists g', ltrim_loop fuel iMaxLen (replicate k 32 ++ t ++ 0 :: r) 0 0 false
    = Ok (t ++ g' ++ 0 :: r, zlen t) /\ length g' = k.
Proof.
  intros Ht Hhd Hk Hf Hl.
  assert (forall m fuel, (m <= k)%nat -> (m + length t < fuel)%nat ->
    exists g', ltrim_loop fuel iMaxLen (replicate k 32 ++ t ++ 0 :: r) 0 (Z.of_nat (k - m)) false
      = Ok (t ++ g' ++ 0 :: r, zlen t) /\ length g' = k) as Hskip.
  2:{ destruct (Hskip k fuel) as (g' & Hrun & Hg'); [lia|lia|]. rewrite Nat.sub_diag in Hrun. eauto. }
  clear fuel Hf. induction m as [|m IH]; intros fuel Hm Hf; (destruct fuel as [|fuel]; [lia|]); cbn [ltrim_loop].
  - rewrite Nat.sub_0_r.
    assert (forall y l, zget (replicate k 32 ++ y :: l) (Z.of_nat k) = Ok y) as Hget.
    { intros y l. apply zget_middle. unfold zlen. by rewrite length_replicate. }
    destruct t as [|c t].
    + exists (replicate k 32). simpl. rewrite Hget. simpl. by rewrite length_replicate.
    + pose proof Ht as Ht0. apply Forall_cons in Ht as [Hc Ht]. unfold cchar in Hc. rewrite zlen_cons in Hl.
      pose proof (zlen_nonneg t). simpl in Hhd.
      change ((c :: t) ++ 0 :: r) with (c :: t ++ 0 :: r). rewrite Hget. cbn [mbind outcome_bind].
      destruct (Z.eqb_spec c 0); [lia|]. destruct (Z.ltb_spec (Z.of_nat k) iMaxLen); [|lia].
      cbn [negb andb mbind outcome_bind]. rewrite Hget. cbn [mbind outcome_bind].
      destruct (Z.eqb_spec c 32); [done|]. cbn [andb]. destruct k as [|k]; [lia|].
      change (zset (replicate (S k) 32 ++ c :: t ++ 0 :: r) 0 c)
        with (zset ([] ++ 32 :: replicate k 32 ++ c :: t ++ 0 :: r) 0 c).
      rewrite (zset_middle []) by done. cbn [mbind outcome_bind].
      destruct (ltrim_loop_move iMaxLen t fuel [c] (replicate k 32 ++ [c]) r) as (g' & Hrun & Hg').
      { done. } { rewrite length_app. simpl. lia. } { simpl in Hf. lia. }
      { rewrite zlen_app. change (zlen [c]) with 1. unfold zlen in *. rewrite length_replicate. lia. }
      exists g'. rewrite zlen_app in Hrun. change (zlen [c]) with 1 in Hrun.
      replace (1 + (zlen (replicate k 32) + 1)) with (Z.of_nat (S k) + 1) in Hrun
        by (unfold zlen; rewrite length_replicate; lia).
      change (0 + 1) with 1. replace ([] ++ c :: replicate k 32 ++ c :: t ++ 0 :: r)
        with ([c] ++ (replicate k 32 ++ [c]) ++ t ++ 0 :: r) by (by rewrite <- app_assoc).
      rewrite Hrun. split; [by rewrite zlen_cons|]. rewrite Hg', length_app, length_replicate. simpl. lia.
  - assert (zget (replicate k 32 ++ t ++ 0 :: r) (Z.of_nat (k - S m)) = Ok 32) as Hget.
    { apply zget_lookup; [lia|]. rewrite Nat2Z.id, lookup_app_l by (rewrite length_replicate; lia).
      apply lookup_replicate. lia. }
    rewrite Hget. cbn [mbind outcome_bind]. pose proof (zlen_nonneg t).
    destruct (Z.ltb_spec (Z.of_nat (k - S m)) iMaxLen); [|lia]. cbn [negb andb mbind outcome_bind].
    change (32 =? 0) with false. cbn [negb andb mbind outcome_bind]. rewrite Hget. cbn [mbind outcome_bind].
    change (32 =? 32) with true. cbn [negb andb].
    replace (Z.of_nat (k - S m) + 1) with (Z.of_nat (k - m)) by lia. apply IH; lia.
Qed.

(** [basLTrim] leaves the string without its leading blanks, in place. *)
Lemma ltrim_run s r iMaxLen :
  cstring s -> zlen s <= iMaxLen ->
  exists g, basLTrim (s ++ 0 :: r) iMaxLen = Ok (lstrip s ++ 0 :: g ++ r) /\ (length g + length (lstrip s) = length s)%nat.
Proof.
  intros Hs Hl. unfold basLTrim. destruct (lstrip_split s) as [k Hk]. destruct k as [|k].
  - simpl in Hk. exists []. split; [|simpl; by rewrite <- Hk]. destruct s as [|c s]; [done|].
    change (zget ((c :: s) ++ 0 :: r) 0) with (Ok c). cbn [mbind outcome_bind].
    destruct (Z.eqb_spec c 32) as [->|].
    + symmetry in Hk. by eapply lstrip_first in Hk.
    + rewrite <- Hk. done.
  - assert (zget (s ++ 0 :: r) 0 = Ok 32) as -> by (rewrite Hk; done).
    cbn [mbind outcome_bind]. change (32 =? 32) with true. cbn [negb].
    assert (cstring (lstrip s)) as Ht by (rewrite Hk in Hs; by apply Forall_app in Hs as [_ Hs]).
    pose proof (f_equal length Hk) as Hlen. rewrite length_app, length_replicate in Hlen.
    destruct (ltrim_loop_skip iMaxLen (S k) (lstrip s) (S (length (s ++ 0 :: r))) r) as (g & Hrun & Hg).
    { done. }
    { destruct (lstrip s) as [|c t] eqn:E; [done|]. simpl. by eapply lstrip_first. }
    { lia. } { rewrite length_app. simpl. lia. } { unfold zlen in *. lia. }
    rewrite app_assoc, <- Hk in Hrun. rewrite Hrun. cbn [mbind outcome_bind fst snd].
    destruct g as [|x g]; [simpl in Hg; lia|]. simpl (_ ++ _). rewrite zset_middle by done.
    exists (g ++ [0]). rewrite <- app_assoc. split; [done|]. rewrite length_app. simpl in *. lia.
Qed.

(** ** The Luhn check digit *)

Lemma schar_digit c : 48 <= c <= 57 -> schar c = c.
Proof. intros H. unfold schar. apply swrap_id; [lia|]. change (2 ^ (8 - 1)) with 128. lia. Qed.

(** Luhn's sum over the digits from the right, every second one doubled. *)
Fixpoint luhn_rev (ds : bytes) (double : bool) : Z :=
  match ds with
  | [] => 0
  | c :: ds =>
      let d := c - 48 in
      (if double then (if 2 * d <=? 9 then 2 * d else 2 * d - 9) else d) + luhn_rev ds (negb double)
  end.

Definition luhn_valid (s : bytes) : bool := luhn_rev (reverse s) false mod 10 =? 0.

Lemma luhn_rev_nonneg ds b : all_digits ds -> 0 <= luhn_rev ds b.
Proof.
  intros Hd. revert b. induction Hd as [|c ds Hc Hd IH]; intros b; [done|]. cbn [luhn_rev].
  specialize (IH (negb b)). destruct b; [destruct (Z.leb_spec (2 * (c - 48)) 9)|]; lia.
Qed.

Lemma reverse_take_S (s : bytes) (i : nat) c : s !! i = Some c -> reverse (take (S i) s) = c :: reverse (take i s).
Proof. intros H. rewrite (take_S_r s i c H). by rewrite reverse_app. Qed.

Lemma luhn_loop_run s r n : forall fuel acc,
  all_digits (take n s) -> (n <= length s)%nat -> (n <= fuel)%nat ->
  luhn_loop fuel (Z.of_nat n - 1) acc (s ++ r) = Ok (acc + luhn_rev (reverse (take n s)) true).
Proof.
  induction n as [n IH] using lt_wf_ind. intros fuel acc Hd Hn Hf.
  destruct n as [|n].
  - destruct fuel; simpl; by rewrite Z.add_0_r.
  - destruct fuel as [|fuel]; [lia|]. cbn [luhn_loop]. destruct (Z.ltb_spec (Z.of_nat (S n) - 1) 0); [lia|].
    assert (forall k, (k <= n)%nat -> exists c, s !! k = Some c /\ 48 <= c <= 57 /\ zget (s ++ r) (Z.of_nat k) = Ok c) as Hget.
    { intros k Hk. destruct (lookup_lt_is_Some_2 s k) as [c Hc]; [lia|]. exists c. split; [done|]. split.
      - assert (take (S n) s !! k = Some c) as Hc' by (by rewrite lookup_take_lt by lia).
        pose proof (Forall_lookup_1 _ _ _ _ Hd Hc') as Hr. simpl in Hr. lia.
      - apply zget_lookup; [lia|]. by rewrite Nat2Z.id, lookup_app_l by lia. }
    replace (Z.of_nat (S n) - 1) with (Z.of_nat n) by lia.
    destruct (Hget n) as (c & Hc & Hcd & ->); [lia|]. cbn [mbind outcome_bind].
    rewrite schar_digit, (reverse_take_S s n c Hc) by lia. cbn [luhn_rev negb].
    assert (Z.quot ((c - 48) * 2) 10 + Z.rem ((c - 48) * 2) 10
      = if 2 * (c - 48) <=? 9 then 2 * (c - 48) else 2 * (c - 48) - 9) as ->.
    { rewrite Z.quot_div_nonneg, Z.rem_mod_nonneg by lia.
      destruct (Z.leb_spec (2 * (c - 48)) 9); Z.to_euclidean_division_equations; lia. }
    destruct n as [|n]; simpl (Z.of_nat 0).
    + change (0 <=? 0 - 1) with false. cbn [mbind outcome_bind].
      destruct fuel; simpl; f_equal; lia.
    + destruct (Z.leb_spec 0 (Z.of_nat (S n) - 1)); [|lia].
      replace (Z.of_nat (S n) - 1) with (Z.of_nat n) by lia.
      destruct (Hget n) as (d & Hd' & Hdd & ->); [lia|]. cbn [mbind outcome_bind].
      rewrite schar_digit, (reverse_take_S s n d Hd') by lia. cbn [luhn_rev negb].
      replace (Z.of_nat (S n) - 2) with (Z.of_nat n - 1) by lia.
      rewrite IH; [f_equal; lia|lia| |lia|lia].
      assert (take n s = take n (take (S (S n)) s)) as -> by (by rewrite take_take, Nat.min_l by lia).
      by apply Forall_take.
Qed.

(** The end of a card number: the given length, or a blank or NUL before it. *)
Definition card_end (len : Z) (r : bytes) (iCardLen : Z) : Prop :=
  iCardLen = len \/ (len < iCardLen /\ exists x r', r = x :: r' /\ (x = 0 \/ x = 32)).

Lemma card_length_run s r iCardLen :
  all_digits s -> card_end (zlen s) r iCardLen ->
  card_length (Z.to_nat iCardLen) 0 iCardLen (s ++ r) = Ok (zlen s).
Proof.
  intros Hs Hend.
  assert (forall n a t, s = a ++ t -> n = (Z.to_nat iCardLen - length a)%nat ->
    card_length n (zlen a) iCardLen (s ++ r) = Ok (zlen s)) as H; [|by apply (H _ [] s); [|simpl; lia]].
  intros n a t. revert n a. induction t as [|c t IH]; intros n a Ha Hn.
  - rewrite app_nil_r in Ha. subst a. destruct Hend as [->|(Hlt & x & r' & -> & Hx)].
    + unfold zlen in *. assert (n = 0%nat) as -> by lia. done.
    + destruct n as [|n]; [unfold zlen in *; lia|]. cbn [card_length]. rewrite zget_middle by done.
      cbn [mbind outcome_bind]. by destruct Hx as [-> | ->].
  - assert (48 <= c <= 57) as Hc.
    { rewrite Ha in Hs. apply Forall_app in Hs as [_ Hs]. by apply Forall_cons in Hs as [Hs _]. }
    assert (zlen s <= iCardLen) by (destruct Hend as [->|[? _]]; lia).
    destruct n as [|n].
    { exfalso. apply (f_equal length) in Ha. rewrite length_app in Ha. simpl in Ha. unfold zlen in *. lia. }
    cbn [card_length]. rewrite Ha at 1. rewrite <- app_assoc. simpl (_ ++ _). rewrite zget_middle by done.
    cbn [mbind outcome_bind]. destruct (Z.eqb_spec c 32); [lia|]. destruct (Z.eqb_spec c 0); [lia|]. cbn [orb].
    replace (zlen a + 1) with (zlen (a ++ [c])) by (rewrite zlen_app; done).
    apply IH; [by rewrite <- app_assoc|]. rewrite length_app. simpl. lia.
Qed.

(** [basChkActBit] checks Luhn's digit and puts the right one in its place. *)
Lemma chk_act_bit_run s c r iCardLen :
  all_digits (s ++ [c]) -> card_end (zlen s + 1) r iCardLen ->
  exists b, basChkActBit (s ++ c :: r) iCardLen = Ok (if luhn_valid (s ++ [c]) then 1 else 0, s ++ b :: r) /\
    48 <= b <= 57 /\ luhn_valid (s ++ [b]) = true.
Proof.
  intros Hd Hend. pose proof Hd as Hd0. apply Forall_app in Hd as [Hs Hc]. apply Forall_cons in Hc as [Hc _]. simpl in Hc.
  pose proof (card_length_run (s ++ [c]) r iCardLen Hd0) as Hcl.
  rewrite zlen_app, <- app_assoc in Hcl. change (zlen [c]) with 1 in Hcl. specialize (Hcl Hend). simpl (_ ++ _) in Hcl.
  set (sum := luhn_rev (reverse s) true).
  assert (0 <= sum) as Hsum by (apply luhn_rev_nonneg; unfold all_digits; by rewrite Forall_reverse).
  assert (forall b, luhn_valid (s ++ [b]) = ((b - 48 + sum) mod 10 =? 0)) as Hvalid.
  { intros b. unfold luhn_valid. by rewrite reverse_snoc. }
  assert (Z.rem sum 10 = sum mod 10) as Hrem by (apply Z.rem_mod_nonneg; lia).
  set (b := if sum mod 10 =? 0 then 48 else u8 (48 + 10 - sum mod 10)). pose proof (Z.mod_pos_bound sum 10 ltac:(lia)) as Hm.
  assert (b = 48 + (10 - sum mod 10) mod 10) as Hb.
  { unfold b. destruct (Z.eqb_spec (sum mod 10) 0) as [->|]; [done|].
    unfold uwrap. change (2 ^ 8) with 256. rewrite (Z.mod_small (48 + 10 - _)), (Z.mod_small (10 - _)) by lia. lia. }
  exists b. split; [|rewrite Hvalid, Hb, Z.eqb_eq; split; Z.to_euclidean_division_equations; lia].
  unfold basChkActBit. rewrite Hcl. cbn [mbind outcome_bind].
  assert (luhn_loop (Z.to_nat (zlen s + 1)) (zlen s + 1 - 2) 0 (s ++ c :: r) = Ok sum) as ->.
  { replace (zlen s + 1 - 2) with (Z.of_nat (length s) - 1) by (unfold zlen; lia).
    rewrite (luhn_loop_run s (c :: r) (length s)); rewrite ?firstn_all; try done. unfold zlen. lia. }
  cbn [mbind outcome_bind]. replace (zlen s + 1 - 1) with (zlen s) by lia.
  rewrite Hrem. fold b. rewrite zget_middle by done. cbn [mbind outcome_bind].
  rewrite zset_middle by done. cbn [mbind outcome_bind]. rewrite Hvalid.
  clearbody b. subst b.
  destruct (Z.eqb_spec c (48 + (10 - sum mod 10) mod 10)), (Z.eqb_spec ((c - 48 + sum) mod 10) 0);
    try done; exfalso; Z.to_euclidean_division_equations; lia.
Qed.

(** ** The check character of an identity number (ISO 7064, MOD 11-2) *)

Fixpoint wsum (ws : list Z) (s : bytes) : Z :=
  match ws, s with
  | w :: ws, c :: s => (c - 48) * w + wsum ws s
  | _, _ => 0
  end.

(** The value of a check character. *)
Definition check_value (c : Z) : Z := if c =? 88 then 10 else c - 48.
Definition is_check (c : Z) : Prop := 48 <= c <= 57 \/ c = 88.

(** The weighted sum of a whole number, check character included, is 1
    modulo 11. *)
Definition idno_valid (s : bytes) (c : Z) : bool := (wsum miaWi s + check_value c) mod 11 =? 1.

Definition check_char (s : bytes) : Z := nth (Z.to_nat (wsum miaWi s mod 11)) mcaVer 0.

Lemma wsum_nonneg ws s : Forall (λ w, 0 <= w) ws -> all_digits s -> 0 <= wsum ws s.
Proof.
  intros Hw. revert s. induction Hw as [|w ws Hw Hws IH]; intros s Hs; [done|]. destruct Hs as [|c s Hc Hs]; [done|].
  cbn [wsum]. specialize (IH s Hs). nia.
Qed.

Lemma wsum_app ws1 ws2 a b : length ws1 = length a -> wsum (ws1 ++ ws2) (a ++ b) = wsum ws1 a + wsum ws2 b.
Proof.
  revert a. induction ws1 as [|w ws1 IH]; intros [|c a] Hl; simplify_eq/=; [done|]. rewrite IH by done. lia.
Qed.

Lemma idno_sum_run s r : all_digits s -> length s = 17%nat -> idno_sum (s ++ r) = Ok (wsum miaWi s).
Proof.
  intros Hs Hl.
  assert (forall t a ws wa acc, s = a ++ t -> miaWi = wa ++ ws -> length wa = length a ->
    for_loop (length t) (zlen a) 1 (λ i iSum, c ← zget (s ++ r) i; w ← zget miaWi i; Ok (iSum + (schar c - 48) * w, true)) acc
      = Ok (acc + wsum ws t)) as H.
  { intros t. induction t as [|c t IH]; intros a ws wa acc Ha Hw Hla.
    - simpl. destruct ws; simpl; by rewrite Z.add_0_r.
    - assert (48 <= c <= 57) as Hc.
      { rewrite Ha in Hs. apply Forall_app in Hs as [_ Hs]. by apply Forall_cons in Hs as [Hs _]. }
      destruct ws as [|w ws].
      { exfalso. apply (f_equal length) in Ha, Hw. rewrite !length_app in *. simpl in *. lia. }
      cbn [length for_loop]. rewrite Ha at 1. rewrite <- app_assoc.
      change ((c :: t) ++ r) with (c :: t ++ r). rewrite zget_middle by done.
      cbn [mbind outcome_bind]. rewrite Hw at 1. rewrite zget_middle by (unfold zlen; lia). cbn [mbind outcome_bind fst snd].
      rewrite schar_digit by done. replace (zlen a + 1) with (zlen (a ++ [c])) by (rewrite zlen_app; done).
      rewrite (IH (a ++ [c]) ws (wa ++ [w])); [f_equal; simpl; lia| | |].
      + by rewrite <- app_assoc.
      + by rewrite <- app_assoc.
      + rewrite !length_app. simpl. lia. }
  specialize (H s [] miaWi [] 0 eq_refl eq_refl eq_refl). rewrite Hl in H. exact H.
Qed.

Lemma check_char_spec s :
  is_check (check_char s) /\ idno_valid s (check_char s) = true /\
  (forall c, is_check c -> idno_valid s c = true -> c = check_char s).
Proof.
  unfold check_char, idno_valid, is_check.
  pose proof (Z.mod_pos_bound (wsum miaWi s) 11 ltac:(lia)) as Hb. rewrite Z.add_mod by lia.
  remember (wsum miaWi s mod 11) as k eqn:Hk0.
  assert (k = 0 \/ k = 1 \/ k = 2 \/ k = 3 \/ k = 4 \/ k = 5 \/ k = 6 \/ k = 7 \/ k = 8 \/ k = 9 \/ k = 10) as Hk by lia.
  split; [|split].
  - clear Hk0. repeat destruct Hk as [->|Hk]; try subst k; vm_compute; intuition congruence.
  - clear Hk0. repeat destruct Hk as [->|Hk]; try subst k; done.
  - intros c Hc Hv. rewrite Z.add_mod, <- Hk0 in Hv by lia. clear Hk0. unfold check_value in Hv. apply Z.eqb_eq in Hv.
    assert (nth (Z.to_nat k) mcaVer 0 = if k =? 2 then 88 else 48 + (12 - k) mod 11) as ->
      by (repeat destruct Hk as [->|Hk]; try subst k; done).
    clear Hk. destruct (Z.eqb_spec c 88), (Z.eqb_spec k 2); Z.to_euclidean_division_equations; lia.
Qed.

Lemma gen_check_val_run s x r :
  all_digits s -> length s = 17%nat ->
  basIdno18GenCheckVal (s ++ x :: r) = Ok (check_char s, s ++ check_char s :: r).
Proof.
  intros Hs Hl. unfold basIdno18GenCheckVal. rewrite idno_sum_run by done. cbn [mbind outcome_bind].
  assert (0 <= wsum miaWi s) by (apply wsum_nonneg; [repeat constructor|done]; lia).
  rewrite Z.rem_mod_nonneg by lia. pose proof (Z.mod_pos_bound (wsum miaWi s) 11 ltac:(lia)) as Hb.
  assert (zget mcaVer (wsum miaWi s mod 11) = Ok (check_char s)) as ->.
  { apply zget_lookup; [lia|]. unfold check_char.
    destruct (nth_lookup_or_length mcaVer (Z.to_nat (wsum miaWi s mod 11)) 0) as [He|He]; [exact He|].
    change (length mcaVer) with 12%nat in He. lia. }
  cbn [mbind outcome_bind]. rewrite zset_middle by (unfold zlen; by rewrite Hl). done.
Qed.

Lemma digits_app a b : all_digits a -> all_digits b -> all_digits (a ++ b).
Proof. intros Ha Hb. by apply Forall_app. Qed.

Lemma check_cchar c : is_check c -> cchar c.
Proof. unfold is_check, cchar. lia. Qed.

Lemma idno_cstring s c : all_digits s -> is_check c -> cstring (s ++ [c]).
Proof.
  intros Hs Hc. apply Forall_app. split; [by apply digits_cstring|]. constructor; [by apply check_cchar|constructor].
Qed.

(** [basIdno18IsValid] decides the MOD 11-2 condition. *)
Lemma is_valid_run `{BasGlobal} s c r :
  all_digits s -> length s = 17%nat -> is_check c ->
  basIdno18IsValid (s ++ c :: 0 :: r) = Ok (if idno_valid s c then 1 else 0).
Proof.
  intros Hs Hl Hc. unfold basIdno18IsValid.
  replace (s ++ c :: 0 :: r) with ((s ++ [c]) ++ 0 :: r) by (by rewrite <- app_assoc).
  rewrite strlen_app, content_app by (by apply idno_cstring). cbn [mbind outcome_bind].
  assert (zlen (s ++ [c]) = 18) as -> by (unfold zlen; rewrite length_app, Hl; done).
  change (18 <? 18) with false. cbv iota. rewrite <- !app_assoc. simpl (_ ++ _).
  rewrite gen_check_val_run by done. cbn [mbind outcome_bind snd].
  rewrite !zget_middle by (unfold zlen; by rewrite Hl). cbn [mbind outcome_bind].
  rewrite bas_true_1, bas_false_0. destruct (check_char_spec s) as (_ & Hv & Hu).
  destruct (Z.eqb_spec (check_char s) c) as [<-|Hne]; [by rewrite Hv|].
  destruct (idno_valid s c) eqn:E; [|done]. by destruct Hne; symmetry; apply Hu.
Qed.

(** The weights are units modulo 11, and so are their differences in a row. *)
Lemma wsum_change a b d d' :
  length (a ++ d :: b) = 17%nat ->
  exists w, miaWi !! length a = Some w /\ wsum miaWi (a ++ d :: b) - wsum miaWi (a ++ d' :: b) = w * (d - d').
Proof.
  intros Hl. rewrite length_app in Hl. simpl in Hl.
  destruct (lookup_lt_is_Some_2 miaWi (length a)) as [w Hw]; [change (length miaWi) with 18%nat; lia|].
  exists w. split; [done|]. rewrite <- (take_drop_middle _ _ _ Hw).
  assert (length (take (length a) miaWi) = length a) as Hla
    by (rewrite length_take; change (length miaWi) with 18%nat; lia).
  rewrite !wsum_app by done. simpl. lia.
Qed.

Lemma miaWi_units i w : (i < 17)%nat -> miaWi !! i = Some w -> w mod 11 <> 0.
Proof.
  intros Hi Hw. do 17 (destruct i as [|i]; [injection Hw as <-; done|]). lia.
Qed.

Lemma prime11_mul w x : w mod 11 <> 0 -> -10 <= x <= 10 -> (w * x) mod 11 = 0 -> x = 0.
Proof.
  intros Hw Hx Hm. pose proof (Z.mod_pos_bound w 11 ltac:(lia)) as Hb. rewrite Z.mul_mod in Hm by lia.
  set (v := w mod 11) in *. clearbody v. pose proof (Z.mod_pos_bound x 11 ltac:(lia)) as Hxb.
  assert (x mod 11 = 0) as Hx0; [|Z.to_euclidean_division_equations; lia].
  set (y := x mod 11) in *. clearbody y.
  assert (v = 1 \/ v = 2 \/ v = 3 \/ v = 4 \/ v = 5 \/ v = 6 \/ v = 7 \/ v = 8 \/ v = 9 \/ v = 10) as Hv by lia.
  repeat destruct Hv as [->|Hv]; try subst v; Z.to_euclidean_division_equations; lia.
Qed.

(** A single wrong digit is detected. *)
Lemma single_error_detected a b d d' c :
  all_digits (a ++ d :: b) -> 48 <= d' <= 57 -> length (a ++ d :: b) = 17%nat -> d <> d' ->
  idno_valid (a ++ d :: b) c = true -> idno_valid (a ++ d' :: b) c = false.
Proof.
  intros Hs Hd' Hl Hne Hv. destruct (idno_valid (a ++ d' :: b) c) eqn:E; [|done]. exfalso. apply Hne.
  destruct (wsum_change a b d d' Hl) as (w & Hw & Hdiff).
  assert (48 <= d <= 57) as Hd by (apply Forall_app in Hs as [_ Hs]; by apply Forall_cons in Hs as [Hs _]).
  rewrite length_app in Hl. simpl in Hl. assert (length a < 17)%nat as Hla by lia.
  pose proof (miaWi_units _ _ Hla Hw) as Hu.
  assert (d - d' = 0); [|lia]. apply (prime11_mul w); [done|lia|]. rewrite <- Hdiff.
  unfold idno_valid in Hv, E. apply Z.eqb_eq in Hv, E. Z.to_euclidean_division_equations. lia.
Qed.

(** ** 15 and 18 digits *)

(** The number with the century put in. *)
Definition idno_17 (s : bytes) : bytes := take 6 s ++ [49; 57] ++ drop 6 s.

Lemma idno_17_digits s : all_digits s -> all_digits (idno_17 s).
Proof.
  intros Hs. unfold idno_17. apply digits_app; [by apply Forall_take|]. apply digits_app; [|by apply Forall_drop].
  repeat constructor; lia.
Qed.

Lemma idno_17_length s : length s = 15%nat -> length (idno_17 s) = 17%nat.
Proof. intros H. unfold idno_17. rewrite !length_app, length_take, length_drop, H. done. Qed.

Lemma idno_15_to_18_run s x y z r :
  all_digits s -> length s = 15%nat ->
  basIdno15To18 (s ++ 0 :: x :: y :: z :: r) = Ok (idno_17 s ++ check_char (idno_17 s) :: 0 :: r).
Proof.
  intros Hs Hl. destruct (split_at s 6) as (a & b & -> & Ha); [lia|]. rewrite length_app in Hl.
  assert (length b = 9%nat) as Hb by lia. unfold basIdno15To18. rewrite <- app_assoc.
  rewrite peek_prefix by (unfold zlen; lia).
  cbn [mbind outcome_bind]. rewrite peek_layout by (unfold zlen; lia). cbn [mbind outcome_bind].
  assert (idno_17 (a ++ b) = a ++ [49; 57] ++ b) as E.
  { unfold idno_17. by rewrite take_app_length', drop_app_length' by done. }
  assert (length (idno_17 (a ++ b)) = 17%nat) as H17 by (apply idno_17_length; rewrite length_app; lia).
  replace (a ++ [49; 57] ++ b ++ [0; 0]) with (idno_17 (a ++ b) ++ 0 :: [0]) by (rewrite E; by rewrite <- !app_assoc).
  rewrite gen_check_val_run by (done || by apply idno_17_digits). cbn [mbind outcome_bind snd].
  set (k := check_char (idno_17 (a ++ b))). destruct (check_char_spec (idno_17 (a ++ b))) as (Hk & _).
  unfold strcpy. replace (idno_17 (a ++ b) ++ [k; 0]) with ((idno_17 (a ++ b) ++ [k]) ++ 0 :: [])
    by (by rewrite <- app_assoc).
  assert (cstring (idno_17 (a ++ b) ++ [k])) as Hcs by (apply idno_cstring; [by apply idno_17_digits|done]).
  rewrite strlen_app, content_app by done. cbn [mbind outcome_bind].
  replace (a ++ b ++ 0 :: x :: y :: z :: r) with ([] ++ (a ++ b ++ [0; x; y; z]) ++ r) by (by rewrite <- !app_assoc).
  rewrite poke_layout; [|done|].
  - simpl. by rewrite <- !app_assoc.
  - unfold zlen. rewrite !length_app, H17. simpl. lia.
Qed.

(** The 18 digits brought back to 15 are the 15 digits. *)
Lemma idno_18_to_15_run s c r :
  all_digits s -> length s = 15%nat ->
  exists t, basIdno18To15 (idno_17 s ++ c :: r) = Ok (s ++ 0 :: t ++ r) /\ length t = 2%nat.
Proof.
  intros Hs Hl. destruct (split_at s 6) as (a & b & -> & Ha); [lia|]. rewrite length_app in Hl.
  destruct (split_at b 6) as (b1 & b2 & -> & Hb1); [lia|]. rewrite length_app in Hl.
  assert (length b2 = 3%nat) as Hb2 by lia.
  assert (idno_17 (a ++ b1 ++ b2) = a ++ [49; 57] ++ b1 ++ b2) as ->.
  { unfold idno_17. by rewrite take_app_length', drop_app_length' by done. }
  unfold basIdno18To15. rewrite <- !app_assoc. rewrite peek_prefix by (unfold zlen; simpl; lia).
  cbn [mbind outcome_bind].
  replace (a ++ [49; 57] ++ b1 ++ b2 ++ c :: r) with ((a ++ [49; 57]) ++ b1 ++ b2 ++ c :: r) by (by rewrite <- app_assoc).
  rewrite (peek_layout _ b1 _ 8 6) by (rewrite ?zlen_app; unfold zlen; simpl; lia). cbn [mbind outcome_bind].
  replace ((a ++ [49; 57]) ++ b1 ++ b2 ++ c :: r) with ((a ++ [49; 57] ++ b1) ++ b2 ++ c :: r) by (by rewrite <- !app_assoc).
  rewrite (peek_layout _ b2 _ 14 3) by (rewrite ?zlen_app; unfold zlen; simpl; lia). cbn [mbind outcome_bind].
  unfold strcpy. replace (a ++ b1 ++ b2 ++ [0]) with ((a ++ b1 ++ b2) ++ 0 :: []) by (by rewrite <- !app_assoc).
  rewrite strlen_app, content_app by (by apply digits_cstring). cbn [mbind outcome_bind].
  destruct (split_at (a ++ [49; 57] ++ b1 ++ b2) 16) as (u & v & Huv & Hu); [rewrite !length_app; simpl; lia|].
  exists (v ++ [c]). split.
  - replace ((a ++ [49; 57] ++ b1) ++ b2 ++ c :: r) with ([] ++ u ++ (v ++ c :: r)).
    + rewrite poke_layout; [|done|].
      * simpl. by rewrite <- !app_assoc.
      * unfold zlen. rewrite Hu, !length_app. simpl. lia.
    + simpl. rewrite app_assoc, <- Huv. by rewrite <- !app_assoc.
  - apply (f_equal length) in Huv. rewrite !length_app in *. simpl in *. lia.
Qed.

(** ** Incrementing a decimal string *)

Definition value_of (s : bytes) : Z := digits_value 0 s.

Lemma digits_value_snoc s c :
  all_digits s -> 48 <= c <= 57 -> value_of (s ++ [c]) = value_of s * 10 + (c - 48).
Proof.
  intros Hs Hc. unfold value_of. rewrite digits_value_app by done. simpl.
  by rewrite (proj2 (isdigit_true c)) by done.
Qed.

Lemma value_of_bounds s : all_digits s -> 0 <= value_of s < 10 ^ zlen s.
Proof.
  induction s as [|c s IH] using rev_ind; intros Hd; [done|].
  apply Forall_app in Hd as [Hs Hc]. apply Forall_cons in Hc as [Hc _]. simpl in Hc.
  rewrite digits_value_snoc by done. specialize (IH Hs). rewrite zlen_app. change (zlen [c]) with 1.
  rewrite Z.pow_add_r by (pose proof (zlen_nonneg s); lia). lia.
Qed.

Lemma add_loop_run s : forall r, all_digits s ->
  exists s' over, add_loop (length s) (zlen s - 1) (s ++ r) = Ok (s' ++ r, over) /\ all_digits s' /\
    length s' = length s /\ value_of s' + (if over : bool then 10 ^ zlen s else 0) = value_of s + 1 /\
    (over = true -> s' = replicate (length s) 48).
Proof.
  induction s as [|c s IH] using rev_ind; intros r Hd.
  - exists [], true. split_and!; done.
  - apply Forall_app in Hd as [Hs Hc]. apply Forall_cons in Hc as [Hc _]. simpl in Hc.
    rewrite length_app. simpl. rewrite Nat.add_1_r. cbn [add_loop]. rewrite <- app_assoc. simpl.
    replace (zlen (s ++ [c]) - 1) with (zlen s) by (rewrite zlen_app; change (zlen [c]) with 1; lia).
    rewrite zget_middle by done. cbn [mbind outcome_bind]. rewrite schar_digit by done.
    destruct (Z.ltb_spec c 57).
    + assert (u8 (c + 1) = c + 1) as -> by (unfold uwrap; change (2 ^ 8) with 256; apply Z.mod_small; lia).
      rewrite zset_middle by done. cbn [mbind outcome_bind]. exists (s ++ [c + 1]), false.
      split; [by rewrite <- app_assoc|]. split; [apply digits_app; [done|]; repeat constructor; lia|].
      split; [rewrite length_app; simpl; lia|]. split; [|done]. rewrite !digits_value_snoc by (done || lia). lia.
    + assert (c = 57) as -> by lia. rewrite zset_middle by done. cbn [mbind outcome_bind].
      destruct (IH (48 :: r) Hs) as (s' & over & Hrun & Hd' & Hl' & Hv & Hz).
      exists (s' ++ [48]), over. rewrite Hrun. split; [by rewrite <- app_assoc|].
      split; [apply digits_app; [done|]; repeat constructor; lia|].
      split; [rewrite length_app; simpl; lia|]. split.
      * rewrite !digits_value_snoc by (done || lia). rewrite zlen_app. change (zlen [57]) with 1.
        rewrite Z.pow_add_r by (pose proof (zlen_nonneg s); lia). change (10 ^ 1) with 10. destruct over; lia.
      * intros Ho. rewrite (Hz Ho). symmetry. apply replicate_S_end'.
Qed.

(** [basAddString] adds one modulo the width of the field. *)
Lemma add_string_run s r iVal :
  all_digits s ->
  exists s', basAddString (s ++ r) (zlen s) iVal = Ok (s' ++ r) /\ all_digits s' /\ length s' = length s /\
    value_of s' = (value_of s + 1) mod 10 ^ zlen s.
Proof.
  intros Hs. destruct (add_loop_run s r Hs) as (s' & over & Hrun & Hd' & Hl' & Hv & Hz).
  exists s'. unfold basAddString. replace (Z.to_nat (zlen s)) with (length s) by (unfold zlen; lia). rewrite Hrun.
  cbn [mbind outcome_bind fst snd]. pose proof (value_of_bounds s' Hd') as Hb'. pose proof (value_of_bounds s Hs).
  assert (zlen s' = zlen s) as Hzl by (unfold zlen; by rewrite Hl'). rewrite Hzl in Hb'.
  split; [|split; [done|split; [done|]]].
  - destruct over; [|done]. rewrite poke_prefix.
    + rewrite (Hz eq_refl). unfold memset, zlen. by rewrite Nat2Z.id.
    + unfold memset, zlen in *. rewrite length_replicate. lia.
  - destruct over.
    + replace (value_of s + 1) with (value_of s' + 1 * 10 ^ zlen s) by lia. rewrite Z_mod_plus_full.
      symmetry. by apply Z.mod_small.
    + rewrite Z.mod_small; lia.
Qed.

(** ** Comparison up to trailing blanks *)

(** The first [n] bytes of a field: the string, then blanks. *)
Definition padded (n : nat) (buf : bytes) : bytes := take n (content buf ++ replicate n 32).

(** The field can be read: it has [n] bytes, or a NUL before them. *)
Definition readable (n : nat) (buf : bytes) : Prop := (n <= length buf)%nat \/ 0 ∈ buf.

Definition is_bytes (buf : bytes) : Prop := Forall (λ c, 0 <= c < 256) buf.

Lemma schar_inj a b : 0 <= a < 256 -> 0 <= b < 256 -> schar a = schar b -> a = b.
Proof.
  intros Ha Hb. unfold schar, swrap. change (2 ^ (8 - 1)) with 128. change (2 ^ 8) with 256.
  intros H. Z.to_euclidean_division_equations. lia.
Qed.

Lemma padded_nil n : padded n [] = replicate n 32.
Proof. unfold padded. simpl. apply take_ge. by rewrite length_replicate. Qed.

Lemma padded_S_nil n : padded (S n) [] = 32 :: padded n [].
Proof. by rewrite !padded_nil. Qed.

Lemma take_pad_longer n k (l : bytes) : (n <= k)%nat -> take n (l ++ replicate k 32) = take n (l ++ replicate n 32).
Proof.
  intros H. rewrite !take_app. f_equal. rewrite !take_replicate. f_equal. lia.
Qed.

Lemma padded_S_cons n c u : padded (S n) (c :: u) = if c =? 0 then 32 :: padded n [] else c :: padded n u.
Proof.
  unfold padded. cbn [content]. destruct (c =? 0).
  - apply padded_S_nil.
  - rewrite <- app_comm_cons. cbn [take]. f_equal. apply take_pad_longer. lia.
Qed.

Lemma readable_head n i b :
  is_bytes b -> readable (S n) (drop i b) ->
  exists c, zget b (Z.of_nat i) = Ok c /\ drop i b = c :: drop (S i) b /\ 0 <= c < 256 /\
    (c <> 0 -> readable n (drop (S i) b)).
Proof.
  intros Hb Hr. destruct (drop i b) as [|c u] eqn:E.
  - destruct Hr as [Hr|Hr]; [simpl in Hr; lia|by apply not_elem_of_nil in Hr].
  - assert (b !! i = Some c) as Hc by (rewrite <- (Nat.add_0_r i), <- lookup_drop, E; done).
    exists c. rewrite (drop_S _ _ _ Hc) in E. injection E as E. split_and!.
    + apply zget_lookup; [lia|]. by rewrite Nat2Z.id.
    + by rewrite E.
    + by apply (Forall_lookup_1 _ _ _ _ Hb Hc).
    + by apply (Forall_lookup_1 _ _ _ _ Hb Hc).
    + intros Hne. rewrite E. destruct Hr as [Hr|Hr]; [left; simpl in Hr; lia|right].
      apply elem_of_cons in Hr as [Hr|Hr]; [congruence|done].
Qed.

Section memcmp.
Context (b1 b2 : bytes) (Hb1 : is_bytes b1) (Hb2 : is_bytes b2).

(** What is left of a field once its NUL is met. *)
Definition rest_of (flag : bool) (i : nat) (b : bytes) : bytes := if flag then [] else drop i b.

(** One field's flag at position [i]: it is set, or the byte there is. *)
Lemma flag_step n i b flag :
  is_bytes b -> (flag = false -> readable (S n) (drop i b)) ->
  exists flag', (if flag then Ok true else c ← zget b (Z.of_nat i); Ok (c =? 0)) = Ok flag' /\
    (flag' = true -> padded (S n) (rest_of flag i b) = 32 :: padded n []) /\
    (flag' = false -> exists c, zget b (Z.of_nat i) = Ok c /\ 0 <= c < 256 /\ readable n (drop (S i) b) /\
       padded (S n) (rest_of flag i b) = c :: padded n (drop (S i) b)).
Proof using Type.
  intros Hb Hr. destruct flag; simpl.
  - exists true. split_and!; [done|intros _; apply padded_S_nil|done].
  - destruct (readable_head n i b Hb (Hr eq_refl)) as (c & -> & -> & Hc & Hrest).
    cbn [mbind outcome_bind]. exists (c =? 0). rewrite padded_S_cons. split; [done|].
    destruct (Z.eqb_spec c 0); split; try done. intros _. exists c. split_and!; auto; lia.
Qed.

Lemma memcmp_loop_run n : forall i f1 f2,
  (f1 = false -> readable n (drop i b1)) -> (f2 = false -> readable n (drop i b2)) ->
  exists r, memcmp_loop n (Z.of_nat i) b1 b2 f1 f2 = Ok r /\
    (r = 0 <-> padded n (rest_of f1 i b1) = padded n (rest_of f2 i b2)).
Proof using Hb1 Hb2.
  induction n as [|n IH]; intros i f1 f2 H1 H2; [by exists 0|]. cbn [memcmp_loop].
  destruct (flag_step n i b1 f1 Hb1 H1) as (g1 & -> & Ht1 & Hf1). cbn [mbind outcome_bind].
  destruct (flag_step n i b2 f2 Hb2 H2) as (g2 & -> & Ht2 & Hf2). cbn [mbind outcome_bind].
  replace (Z.of_nat i + 1) with (Z.of_nat (S i)) by lia.
  destruct g1, g2; cbn [andb].
  - exists 0. split; [done|]. by rewrite Ht1, Ht2.
  - destruct (Hf2 eq_refl) as (c & Hg & Hc & Hr & Hp). rewrite Ht1, Hp, Hg by done. cbn [mbind outcome_bind].
    destruct (Z.eqb_spec c 32) as [->|]; cbn [negb].
    + destruct (IH (S i) true false) as (r & Hrun & Hiff); [done|done|]. exists r. rewrite Hrun. split; [done|].
      rewrite Hiff. simpl. split; congruence.
    + exists (-1). split; [done|]. split; [lia|congruence].
  - destruct (Hf1 eq_refl) as (c & Hg & Hc & Hr & Hp). rewrite Ht2, Hp, Hg by done. cbn [mbind outcome_bind].
    destruct (Z.eqb_spec c 32) as [->|]; cbn [negb].
    + destruct (IH (S i) false true) as (r & Hrun & Hiff); [done|done|]. exists r. rewrite Hrun. split; [done|].
      rewrite Hiff. simpl. split; congruence.
    + exists 1. split; [done|]. split; [lia|congruence].
  - destruct (Hf1 eq_refl) as (c & Hg & Hc & Hr & Hp). destruct (Hf2 eq_refl) as (d & Hg' & Hc' & Hr' & Hp').
    rewrite Hp, Hp', Hg, Hg'. cbn [mbind outcome_bind].
    destruct (Z.ltb_spec (schar d) (schar c)) as [Hlt|Hge].
    { exists 1. split; [done|]. split; [lia|intros [= -> _]; lia]. }
    destruct (Z.ltb_spec (schar c) (schar d)).
    { exists (-1). split; [done|]. split; [lia|intros [= -> _]; lia]. }
    assert (c = d) as -> by (apply schar_inj; done || lia).
    destruct (IH (S i) false false) as (r & Hrun & Hiff); [done|done|]. exists r. rewrite Hrun. split; [done|].
    rewrite Hiff. simpl. split; congruence.
Qed.
End memcmp.

(** ** [strlcpy] and [strlcat] *)

Lemma strlcpy_loop_run r : forall k a t d,
  cstring t -> (k <= length d)%nat ->
  strlcpy_loop k (zlen a) (a ++ d) (a ++ t ++ 0 :: r) =
    if (length t <? k)%nat then Ok (a ++ t ++ 0 :: drop (S (length t)) d, zlen a + zlen t + 1, true)
    else Ok (a ++ take k t ++ drop k d, zlen a + Z.of_nat k, false).
Proof.
  intros k. induction k as [|k IH]; intros a t d Ht Hd.
  - cbn [strlcpy_loop take drop app]. change (Z.of_nat 0) with 0. by rewrite Z.add_0_r.
  - destruct d as [|x d]; [simpl in Hd; lia|]. cbn [strlcpy_loop]. destruct t as [|c t].
    + cbn [app]. rewrite zget_middle by done. cbn [mbind outcome_bind].
      rewrite zset_middle by done. cbn [mbind outcome_bind]. change (0 =? 0) with true. cbn [length drop].
      change (zlen []) with 0. rewrite Z.add_0_r. done.
    + apply Forall_cons in Ht as [Hc Ht]. unfold cchar in Hc. cbn [app]. rewrite zget_middle by done.
      cbn [mbind outcome_bind]. rewrite zset_middle by done. cbn [mbind outcome_bind].
      destruct (Z.eqb_spec c 0); [lia|].
      replace (zlen a + 1) with (zlen (a ++ [c])) by (rewrite zlen_app; done).
      replace (a ++ c :: d) with ((a ++ [c]) ++ d) by (by rewrite <- app_assoc).
      replace (a ++ c :: t ++ 0 :: r) with ((a ++ [c]) ++ t ++ 0 :: r) by (by rewrite <- app_assoc).
      rewrite IH by (done || simpl in Hd; lia). cbn [length take drop].
      change (S (length t) <? S k)%nat with (length t <? k)%nat. rewrite zlen_app, (zlen_cons c t). change (zlen [c]) with 1.
      rewrite <- !app_assoc. cbn [app].
      replace (zlen a + 1 + zlen t + 1) with (zlen a + (1 + zlen t) + 1) by lia.
      replace (zlen a + 1 + Z.of_nat k) with (zlen a + Z.of_nat (S k)) by lia. done.
Qed.

(** [basStrlcpy] into a destination of [n > 0] bytes: as much of the source as
    fits, the NUL, and the rest as it was; the length of the source. *)
Lemma strlcpy_run s r d :
  cstring s -> d <> [] ->
  basStrlcpy d (s ++ 0 :: r) (zlen d) =
    Ok (zlen s, take (pred (length d)) s ++ 0 :: drop (S (length (take (pred (length d)) s))) d).
Proof.
  intros Hs Hne. unfold basStrlcpy.
  assert (0 < length d)%nat as Hl by (destruct d; [done|simpl; lia]).
  replace (Z.to_nat (zlen d - 1)) with (pred (length d)) by (unfold zlen; lia).
  pose proof (strlcpy_loop_run r (pred (length d)) [] s d Hs ltac:(lia)) as Hrun.
  cbn [app] in Hrun. change (zlen []) with 0 in Hrun. rewrite !Z.add_0_l in Hrun. rewrite Hrun.
  destruct (Nat.ltb_spec (length s) (pred (length d))) as [Hlt|Hge]; cbn [mbind outcome_bind].
  - rewrite take_ge by lia. by replace (zlen s + 1 - 1) with (zlen s) by lia.
  - destruct (Z.eqb_spec (zlen d) 0) as [H0|_]; [unfold zlen in H0; lia|].
    assert (length (take (pred (length d)) s) = pred (length d)) as Htl by (rewrite length_take; lia).
    destruct (drop (pred (length d)) d) as [|x t] eqn:E.
    { apply (f_equal length) in E. rewrite length_drop in E. simpl in E. lia. }
    rewrite zset_middle by (unfold zlen; by rewrite Htl). cbn [mbind outcome_bind].
    assert (t = drop (S (pred (length d))) d) as ->.
    { rewrite <- (Nat.add_1_r (pred _)), <- drop_drop, E. done. }
    rewrite Nat2Z.id, drop_app_le by lia.
    assert (cstring (drop (pred (length d)) s)) as Hd by (by apply Forall_drop).
    rewrite strlen_app by done. cbn [mbind outcome_bind]. rewrite Htl. do 2 f_equal.
    unfold zlen. rewrite length_drop. lia.
Qed.

Lemma dest_length_run a : forall n t r,
  cstring t ->
  dest_length n (zlen a) (a ++ t ++ 0 :: r) = Ok (zlen a + Z.min (Z.of_nat n) (zlen t)).
Proof.
  intros n t r Ht. revert a n. induction Ht as [|c t Hc Ht IH]; intros a n.
  - change (zlen []) with 0. rewrite Z.min_r, Z.add_0_r by lia. destruct n as [|n]; [done|]. cbn [dest_length app].
    rewrite zget_middle by done. done.
  - destruct n as [|n]; [simpl; by rewrite Z.min_l, Z.add_0_r by (pose proof (zlen_nonneg (c :: t)); lia)|].
    cbn [dest_length app]. rewrite zget_middle by done. cbn [mbind outcome_bind]. unfold cchar in Hc.
    destruct (Z.eqb_spec c 0); [lia|].
    replace (zlen a + 1) with (zlen (a ++ [c])) by (rewrite zlen_app; done).
    replace (a ++ c :: t ++ 0 :: r) with ((a ++ [c]) ++ t ++ 0 :: r) by (by rewrite <- app_assoc).
    rewrite IH, zlen_app, (zlen_cons c t). change (zlen [c]) with 1. f_equal. lia.
Qed.

(** [basStrlcat] to a string [t] in a destination of [n] bytes with room for
    its NUL: the concatenation, cut to [n - 1] bytes; the length it tried to
    create. *)
Lemma strlcat_run t d s r :
  cstring t -> cstring s ->
  basStrlcat (t ++ 0 :: d) (s ++ 0 :: r) (zlen t + 1 + zlen d) =
    Ok (zlen t + zlen s, t ++ take (length d) s ++ 0 :: drop (length (take (length d) s)) d).
Proof.
  intros Ht Hs. unfold basStrlcat. pose proof (zlen_nonneg t). pose proof (zlen_nonneg d).
  pose proof (dest_length_run [] (Z.to_nat (zlen t + 1 + zlen d)) t d Ht) as Hdl.
  cbn [app] in Hdl. change (zlen []) with 0 in Hdl. rewrite Hdl.
  cbn [mbind outcome_bind]. rewrite Z.min_r, Z.add_0_l by lia. rewrite strlen_app, content_app by done.
  cbn [mbind outcome_bind]. destruct (Z.eqb_spec (zlen t + 1 + zlen d - zlen t) 0); [lia|].
  replace (Z.to_nat (zlen t + 1 + zlen d - zlen t - 1)) with (length d) by (unfold zlen; lia).
  set (u := take (length d) s). assert (length u <= length d)%nat as Hu by (unfold u; rewrite length_take; lia).
  destruct (split_at d (length u) Hu) as (d1 & d2 & -> & Hd1).
  replace (t ++ 0 :: d1 ++ d2) with (t ++ (0 :: d1) ++ d2) by done.
  rewrite poke_layout; [|done|].
  - cbn [mbind outcome_bind]. do 2 f_equal. rewrite <- app_assoc. cbn [app]. do 3 f_equal.
    by rewrite drop_app_length'.
  - rewrite zlen_cons, zlen_app. change (zlen [0]) with 1. unfold zlen. rewrite Hd1. lia.
Qed.

(** ** Searching *)

Fixpoint is_prefix (p s : bytes) : bool :=
  match p, s with
  | [], _ => true
  | c :: p, d :: s => (c =? d) && is_prefix p s
  | _ :: _, [] => false
  end.

Lemma is_prefix_length p s : is_prefix p s = true -> (length p <= length s)%nat.
Proof.
  revert s. induction p as [|c p IH]; intros [|d s]; simpl; try done; [lia|].
  intros H. apply andb_true_iff in H as [_ H]. apply IH in H. lia.
Qed.

(** Comparing a string without NUL with what is left of another. *)
Lemma same_bytes_run p : forall a t r b q,
  cstring p -> cstring t ->
  same_bytes (length p) (a ++ t ++ 0 :: r) (zlen a) (b ++ p ++ q) (zlen b) = Ok (is_prefix p t).
Proof.
  induction p as [|c p IH]; intros a t r b q Hp Ht; [done|]. apply Forall_cons in Hp as [Hc Hp]. unfold cchar in Hc.
  cbn [length same_bytes is_prefix app]. rewrite (zget_middle b) by done. destruct t as [|d t]; cbn [app].
  - rewrite zget_middle by done. cbn [mbind outcome_bind]. by destruct (Z.eqb_spec 0 c); [lia|].
  - apply Forall_cons in Ht as [Hd Ht]. rewrite zget_middle by done. cbn [mbind outcome_bind].
    rewrite (Z.eqb_sym d c). destruct (Z.eqb_spec c d) as [->|]; [|done]. cbn [andb].
    replace (zlen a + 1) with (zlen (a ++ [d])) by (rewrite zlen_app; done).
    replace (zlen b + 1) with (zlen (b ++ [d])) by (rewrite zlen_app; done).
    replace (a ++ d :: t ++ 0 :: r) with ((a ++ [d]) ++ t ++ 0 :: r) by (by rewrite <- app_assoc).
    replace (b ++ d :: p ++ q) with ((b ++ [d]) ++ p ++ q) by (by rewrite <- app_assoc). by apply IH.
Qed.

(** The same at position [i] of the string. *)
Lemma same_bytes_at p s r q (i : nat) :
  cstring p -> cstring s -> (i <= length s)%nat ->
  same_bytes (Z.to_nat (zlen p)) (s ++ 0 :: r) (Z.of_nat i) (p ++ q) 0 = Ok (is_prefix p (drop i s)).
Proof.
  intros Hp Hs Hi. destruct (split_at s i Hi) as (a & t & -> & <-). rewrite drop_app_length.
  apply Forall_app in Hs as [_ Ht]. unfold zlen at 1. rewrite Nat2Z.id, <- app_assoc.
  exact (same_bytes_run p a t r [] q Hp Ht).
Qed.

Lemma first_index_run p (f : nat -> bool) n : forall i,
  (forall k, (i <= k < i + n)%nat -> p (Z.of_nat k) = Ok (f k)) ->
  exists r : nat, first_index p n (Z.of_nat i) = Ok (Z.of_nat r) /\ (i <= r <= i + n)%nat /\
    (forall k, (i <= k < r)%nat -> f k = false) /\ ((r < i + n)%nat -> f r = true).
Proof.
  induction n as [|n IH]; intros i Hp.
  - exists i. split; [done|]. split; [lia|]. split; intros; lia.
  - cbn [first_index]. rewrite (Hp i) by lia. cbn [mbind outcome_bind]. destruct (f i) eqn:Ef.
    + exists i. split; [done|]. split; [lia|]. split; [intros; lia|done].
    + destruct (IH (S i)) as (r & Hrun & Hr & Hbefore & Hat); [intros; apply Hp; lia|].
      exists r. replace (Z.of_nat i + 1) with (Z.of_nat (S i)) by lia. split; [done|]. split; [lia|].
      split; [|intros; apply Hat; lia]. intros k Hk. destruct (decide (k = i)) as [->|]; [done|]. apply Hbefore. lia.
Qed.

(** [basLocateStr] finds the first occurrence. *)
Lemma locate_str_run s r p q :
  cstring s -> cstring p ->
  exists i, basLocateStr (s ++ 0 :: r) (p ++ 0 :: q) = Ok i /\
    ((i = -1 /\ forall k, (k < length s)%nat -> is_prefix p (drop k s) = false) \/
     (exists k : nat, i = Z.of_nat k /\ (k < length s)%nat /\ is_prefix p (drop k s) = true /\
        forall j, (j < k)%nat -> is_prefix p (drop j s) = false)).
Proof.
  intros Hs Hp. unfold basLocateStr. rewrite !strlen_app by done. cbn [mbind outcome_bind].
  destruct (Z.ltb_spec (zlen s) (zlen p)) as [Hlt|Hge].
  - exists (-1). split; [done|]. left. split; [done|]. intros k Hk.
    destruct (is_prefix p (drop k s)) eqn:E; [|done]. apply is_prefix_length in E. rewrite length_drop in E.
    unfold zlen in Hlt. lia.
  - destruct (first_index_run (λ i, same_bytes (Z.to_nat (zlen p)) (s ++ 0 :: r) i (p ++ 0 :: q) 0)
      (λ k, is_prefix p (drop k s)) (Z.to_nat (zlen s)) 0) as (k & Hrun & Hk & Hbefore & Hat).
    { intros k Hk. apply same_bytes_at; [done|done|unfold zlen in Hk; lia]. }
    change (Z.of_nat 0) with 0 in Hrun. rewrite Hrun. cbn [mbind outcome_bind].
    eexists. split; [done|]. destruct (Z.eqb_spec (Z.of_nat k) (zlen s)) as [He|Hne].
    + left. split; [done|]. intros j Hj. apply Hbefore. unfold zlen in He. lia.
    + right. exists k. unfold zlen in *. split; [done|]. split; [lia|]. split; [apply Hat; lia|].
      intros j Hj. apply Hbefore. lia.
Qed.

(** Occurrences counted from the left, none overlapping the one before:
    [skip] bytes belong to it. *)
Fixpoint occurrences (p : bytes) (skip : nat) (s : bytes) : Z :=
  match s with
  | [] => 0
  | _ :: s' =>
      match skip with
      | S k => occurrences p k s'
      | O => if is_prefix p s then 1 + occurrences p (pred (length p)) s' else occurrences p 0 s'
      end
  end.

Lemma occurrences_skip p k s : occurrences p k s = occurrences p 0 (drop k s).
Proof. revert s. induction k as [|k IH]; intros [|c s]; try done. cbn [drop]. apply IH. Qed.

Lemma count_str_loop_run p s r q :
  cstring s -> cstring p -> p <> [] ->
  forall fuel i cnt, (i <= length s)%nat -> (length s - i <= fuel)%nat ->
  count_str_loop fuel (s ++ 0 :: r) (p ++ q) (zlen s) (zlen p) (Z.of_nat i) cnt = Ok (cnt + occurrences p 0 (drop i s)).
Proof.
  intros Hs Hp Hne. assert (0 < length p)%nat as Hlp by (destruct p; [done|simpl; lia]).
  induction fuel as [|fuel IH]; intros i cnt Hi Hf; cbn [count_str_loop].
  - assert (i = length s) as -> by lia. unfold zlen. rewrite Z.ltb_irrefl, drop_all. simpl. by rewrite Z.add_0_r.
  - destruct (Z.ltb_spec (Z.of_nat i) (zlen s)) as [Hlt|Hge].
    + rewrite same_bytes_at by done. cbn [mbind outcome_bind].
      destruct (lookup_lt_is_Some_2 s i) as [c Hc]; [unfold zlen in Hlt; lia|].
      rewrite (drop_S _ _ _ Hc). cbn [occurrences].
      destruct (is_prefix p (c :: drop (S i) s)) eqn:E.
      * apply is_prefix_length in E. simpl in E. rewrite length_drop in E. assert (i < length s)%nat by (unfold zlen in Hlt; lia).
        replace (Z.of_nat i + zlen p) with (Z.of_nat (i + length p)) by (unfold zlen; lia).
        rewrite IH by lia. rewrite (occurrences_skip p (pred (length p))), drop_drop. f_equal.
        replace (S i + pred (length p))%nat with (i + length p)%nat by lia. lia.
      * replace (Z.of_nat i + 1) with (Z.of_nat (S i)) by lia. apply IH; unfold zlen in Hlt; lia.
    + rewrite drop_ge by (unfold zlen in Hge; lia). simpl. by rewrite Z.add_0_r.
Qed.

(** With an empty pattern the loop does not advance. *)
Lemma count_str_loop_stuck fuel buf q len i cnt :
  i < len -> count_str_loop fuel buf q len 0 i cnt = NoFuel.
Proof.
  intros Hi. revert cnt. induction fuel as [|fuel IH]; intros cnt; cbn [count_str_loop];
    (destruct (Z.ltb_spec i len); [|lia]); [done|]. change (same_bytes (Z.to_nat 0) buf i q 0) with (Ok true).
  cbn [mbind outcome_bind]. rewrite Z.add_0_r. apply IH.
Qed.
