(* ===== verification/BasDate.v ===== *)
(** * Date routines ([bas_date.c]): definitions

    A [char *] result is the contents of the routine's static buffer.  The
    time a routine asks the system for is an argument, [None] when the call
    fails.  A date argument is a buffer: the first eight bytes are read,
    whatever follows. *)

From Stdlib Require Import Floats.SpecFloat.
From S2P Require Import Prelude LibC Buffers CFloat Calendar BasString.

(** [memset(buf, ' ', n - 1)] over a zeroed [char buf[n]]. *)
Definition blank_buf (n : nat) : bytes := replicate (pred n) 32 ++ [0].

(** [memcpy] of [n] bytes at [i] into a zeroed [char [n + 1]]. *)
Definition field_at (p : bytes) (i n : Z) : outcome bytes := t ← peek p i n; Ok (t ++ [0]).

(** The year, the month and the day of [YYYYMMDD], as texts. *)
Definition date_fields (p : bytes) : outcome (bytes * bytes * bytes) :=
  caYear ← field_at p 0 4; caMonth ← field_at p 4 2; caDay ← field_at p 6 2;
  Ok (caYear, caMonth, caDay).

(** The [struct tm] most routines build from them; [tm_isdst] is -1. *)
Definition tm_of_fields (f : bytes * bytes * bytes) (hour : Z) : tm :=
  tm_of (atoi f.1.1 - 1900) (atoi f.1.2 - 1) (atoi f.2) hour 0 1 (-1).

Definition yyyymmdd (t : tm) : bytes := dec0 4 (tm_year t + 1900) ++ dec0 2 (tm_mon t + 1) ++ dec0 2 (tm_mday t).
Definition hhmmss (t : tm) : bytes := dec0 2 (tm_hour t) ++ dec0 2 (tm_min t) ++ dec0 2 (tm_sec t).
Definition yyddd (t : tm) : bytes := dec0 2 (Z.rem (tm_year t) 100) ++ dec0 3 (tm_yday t + 1).

Section zone.
Context `{BasGlobal} `{TimeZone}.

(** ** The current date and time *)

(** [time(NULL)] into a blank static buffer of [n] bytes. *)
Definition of_now (n : nat) (now : option Z) (text : Z -> bytes) : outcome bytes :=
  match now with None => Ok (blank_buf n) | Some t => sprintf_to (blank_buf n) (text t) end.

Definition basGetSysJulianDate (now : option Z) : outcome bytes := of_now 6 now (λ t, yyddd (localtime t)).
Definition basGetSysDate (now : option Z) : outcome bytes := of_now 9 now (λ t, yyyymmdd (localtime t)).
Definition basGetSysTime (now : option Z) : outcome bytes := of_now 7 now (λ t, hhmmss (localtime t)).
(** [gettimeofday]: seconds and microseconds. *)
Definition basGetSysTimestamp (now : option (Z * Z)) : outcome bytes :=
  match now with
  | None => Ok (blank_buf 13)
  | Some (sec, usec) => sprintf_to (blank_buf 13) (hhmmss (localtime sec) ++ dec0 6 (s32 usec))
  end.
Definition basGetGmDate (now : option Z) : outcome bytes := of_now 9 now (λ t, yyyymmdd (gmtime t)).
Definition basGetGmTime (now : option Z) : outcome bytes := of_now 7 now (λ t, hhmmss (gmtime t)).

(** ** Differences and sums *)

(** [(int)(difftime(t2, t1) / 24 / 60 / 60 +- 0.5)]. *)
Definition days_between (t1 t2 : Z) : outcome Z :=
  let div f n := SFdiv (prec binary64) (emax binary64) f (float_of_Z binary64 n) in
  let half := div (float_of_Z binary64 1) 2 in
  let days := div (div (div (float_of_Z binary64 (t2 - t1)) 24) 60) 60 in
  float_to_int (-2147483648) 2147483647
    (if t1 <? t2 then SFadd (prec binary64) (emax binary64) days half
     else SFsub (prec binary64) (emax binary64) days half).

(** The result code and [*piDays]. *)
Definition basCalDiffTwoDays (pcaBeginDate pcaEndDate : bytes) : outcome (Z * option Z) :=
  f1 ← date_fields pcaBeginDate;
  let t1 := mktime (tm_of_fields f1 0) in
  if t1 =? -1 then Ok (-1, None)
  else
    f2 ← date_fields pcaEndDate;
    let t2 := mktime (tm_of_fields f2 0) in
    if t2 =? -1 then Ok (-1, None) else d ← days_between t1 t2; Ok (0, Some d).

Definition basCalDiffTwoMonths (pcaBeginMonth pcaEndMonth : bytes) : outcome (Z * Z) :=
  caBeginYear ← field_at pcaBeginMonth 0 4; caEndYear ← field_at pcaEndMonth 0 4;
  caBeginMonth ← field_at pcaBeginMonth 4 2; caEndMonth ← field_at pcaEndMonth 4 2;
  Ok (0, (atoi caEndYear - atoi caBeginYear) * 12 + atoi caEndMonth - atoi caBeginMonth).

Definition basAddDays (pcaBeginDate : bytes) (iDays : Z) : outcome bytes :=
  f ← date_fields pcaBeginDate;
  let tTimeNow := mktime (tm_of_fields f 3) in
  if tTimeNow =? -1 then Ok (blank_buf 9)
  else
    seconds ← int_range (iDays * (24 * 60 * 60));
    sprintf_to (blank_buf 9) (yyyymmdd (localtime (tTimeNow + seconds))).

Definition basSubDays (pcaBeginDate : bytes) (iDays : Z) : outcome bytes :=
  n ← int_range (- iDays); basAddDays pcaBeginDate n.

(** The [while(1)] of [basAddMonths]: the day goes down until the date is
    the one [mktime] and [localtime] give back. *)
Fixpoint months_loop (fuel : nat) (caYear caMonth caDay caBuf : bytes) : outcome (bytes * bool) :=
  match fuel with
  | O => NoFuel
  | S fuel =>
      let tTime := tm_of_fields (caYear, caMonth, caDay) 0 in
      caBuf ← sprintf_to caBuf (content caYear ++ content caMonth ++ content caDay);
      let tTimeVal := mktime tTime in
      if tTimeVal =? -1 then Ok (replicate 9 0, false)
      else
        caBufTmp ← sprintf_to (replicate 9 0) (yyyymmdd (localtime tTimeVal));
        same ← same_bytes 8 caBuf 0 caBufTmp 0;
        if same : bool then Ok (caBuf, true)
        else
          caDay ← sprintf_to caDay (dec0 2 (s32 (atol caDay - 1)));
          months_loop fuel caYear caMonth caDay caBuf
  end.

Definition basAddMonths (fuel : nat) (pcaBeginMonth : bytes) (iMonths : Z) : outcome bytes :=
  n ← strlen pcaBeginMonth;
  blank ← basIsSpace pcaBeginMonth (s32 n);
  if bool_decide (content pcaBeginMonth = lit "999999") || (blank =? BAS_TRUE) then Ok (lit "99999999" ++ [0])
  else
    caYear ← field_at pcaBeginMonth 0 4; caMonth ← field_at pcaBeginMonth 4 2;
    c6 ← zget pcaBeginMonth 6;
    caDay ← (if c6 =? 0 then Ok (lit "01" ++ [0]) else field_at pcaBeginMonth 6 2);
    let lValue := s64 (atol caYear * 12 + atol caMonth + iMonths - 1) in
    caYear ← sprintf_to caYear (dec0 4 (s32 (Z.quot lValue 12)));
    caMonth ← sprintf_to caMonth (dec0 2 (s32 (Z.rem lValue 12 + 1)));
    r ← months_loop fuel caYear caMonth caDay (replicate 9 0);
    if r.2 && (c6 =? 0) then zset r.1 6 0 else Ok r.1.

(** ** Years, months, Julian days *)

Definition basIsLeapYear (pcaYear : bytes) : Z :=
  let iYear := atoi pcaYear in
  if ((Z.rem iYear 4 =? 0) && negb (Z.rem iYear 100 =? 0)) || (Z.rem iYear 400 =? 0) then 1 else 0.

Definition monarr (leap : bool) : list Z := [31; if leap then 29 else 28; 31; 30; 31; 30; 31; 31; 30; 31; 30; 31].

(** [for(j = 0, i = lDay; i > monarr[j]; j++) i -= monarr[j];]; past the
    twelfth month the access is out of bounds. *)
Fixpoint julian_loop (fuel : nat) (months : list Z) (i j : Z) : outcome (Z * Z) :=
  match fuel with
  | O => NoFuel
  | S fuel =>
      days ← zget months j;
      if days <? i then julian_loop fuel months (i - days) (j + 1) else Ok (i, j)
  end.

Definition basJulianDateToDate (lDate : Z) : outcome bytes :=
  let lDay := Z.rem lDate 1000 in
  let lYear := Z.quot lDate 1000 in
  let leap := ((Z.rem lYear 4 =? 0) && negb (Z.rem lYear 100 =? 0)) || (Z.rem lYear 400 =? 0) in
  r ← julian_loop 13 (monarr leap) (s32 lDay) 0;
  let '(i, j) := r in
  if mktime (tm_of (s32 (lYear - 1900)) (j - 1) i 0 0 1 (-1)) =? -1 then Ok (blank_buf 7)
  else sprintf_to (blank_buf 7) (dec0 2 (Z.rem lYear 100) ++ dec0 2 (j + 1) ++ dec0 2 i).

Definition basDateToJulianDate (pcaDate : bytes) : outcome bytes :=
  f ← date_fields pcaDate;
  let tTimeVal := mktime (tm_of_fields f 0) in
  if tTimeVal =? -1 then Ok (blank_buf 5) else sprintf_to (blank_buf 5) (yyddd (localtime tTimeVal)).

(** ** Patterns *)

(** The loop of [basDatePattern] and of [basTimePattern]: the separators and
    the letters of the three fields, in upper case, differ.  [None] is a
    character that is none of them. *)
Fixpoint fields_loop (sep : Z -> bool) (a b c : Z) (fa fb fc pattern : bytes) (k m n : Z) :
    outcome (option (bytes * (Z * Z * Z))) :=
  match pattern with
  | [] => Ok (Some ([], (k, m, n)))
  | p :: pattern =>
      let rest x k m n :=
        r ← fields_loop sep a b c fa fb fc pattern k m n;
        Ok (match r with Some (t, kmn) => Some (x :: t, kmn) | None => None end) in
      if sep p then rest p k m n
      else if toupper p =? a then x ← zget fa k; rest x (k + 1) m n
      else if toupper p =? b then x ← zget fb m; rest x k (m + 1) n
      else if toupper p =? c then x ← zget fc n; rest x k m (n + 1)
      else Ok None
  end.

(** The static [char [21]], all blanks. *)
Definition blank21 : bytes := replicate 21 32.

(** Both routines' end: the limits, then [strcpy] of [caBuf]. *)
Definition pattern_end (r : option (bytes * (Z * Z * Z))) : outcome bytes :=
  match r with
  | None => Ok blank21
  | Some (t, (k, m, n)) =>
      if (4 <? k) || (2 <? m) || (2 <? n) then Ok blank21 else poke blank21 0 (content t ++ [0])
  end.

(** The separators: [/], [-], blank and six bytes of the Chinese words for
    year, month and day. *)
Definition date_sep (c : Z) : bool :=
  bool_decide (c ∈ [47; 45; 32; 196; 234; 212; 194; 200; 213]).
Definition time_sep (c : Z) : bool := bool_decide (c ∈ [47; 45; 32; 58]).

Definition basDatePattern (pcaDate pcaPattern : bytes) : outcome bytes :=
  f ← date_fields pcaDate;
  iLen ← strlen pcaPattern;
  if 20 <? iLen then Ok blank21
  else
    let iYLength := countb (λ c, c =? 89) (content pcaPattern) in
    let k := if iYLength =? 4 then 0 else 2 in
    r ← fields_loop date_sep 89 77 68 f.1.1 f.1.2 f.2 (content pcaPattern) k 0 0;
    pattern_end r.

Definition basTimePattern (pcaTime pcaPattern : bytes) : outcome bytes :=
  caHour ← field_at pcaTime 0 2; caMinute ← field_at pcaTime 2 2; caSecond ← field_at pcaTime 4 2;
  iLen ← strlen pcaPattern;
  if 20 <? iLen then Ok blank21
  else
    r ← fields_loop time_sep 72 77 83 caHour caMinute caSecond (content pcaPattern) 0 0 0;
    pattern_end r.

(** ** Months and validity *)

Definition basGetLastDayOfMonth (pcaDate : bytes) : outcome (Z * bytes) :=
  caYear ← field_at pcaDate 0 4; caMonth ← field_at pcaDate 4 2;
  let set day := d ← poke pcaDate 6 (lit day); Ok (0, d) in
  let m := atoi caMonth in
  if bool_decide (m ∈ [1; 3; 5; 7; 8; 10; 12]) then set "31"%string
  else if bool_decide (m ∈ [4; 6; 9; 11]) then set "30"%string
  else if m =? 2 then (if basIsLeapYear caYear =? 1 then set "29"%string else set "28"%string)
  else Ok (-1, pcaDate).

Definition basGetMonthName (iMonth : Z) : bytes :=
  match iMonth with
  | 1 => lit "JAN" | 2 => lit "FEB" | 3 => lit "MAR" | 4 => lit "APR" | 5 => lit "MAY" | 6 => lit "JUN"
  | 7 => lit "JUL" | 8 => lit "AUG" | 9 => lit "SEP" | 10 => lit "OCT" | 11 => lit "NOV" | 12 => lit "DEC"
  | _ => lit "   "
  end.

Definition iaMonthDays (leap : bool) : list Z := 0 :: monarr leap.

Definition basIsValidDate (pcaDate : bytes) : outcome Z :=
  f ← date_fields pcaDate;
  let iYear := atoi f.1.1 in
  let iMonth := atoi f.1.2 in
  let iDay := atoi f.2 in
  if (12 <? iMonth) || (iMonth <? 1) || (iYear <? 1) || (iDay <? 1) then Ok BAS_FALSE
  else
    days ← zget (iaMonthDays (basIsLeapYear f.1.1 =? 1)) iMonth;
    Ok (if days <? iDay then BAS_FALSE else BAS_TRUE).

(** ** Timestamps *)

(** The [basStringPattern] of a 13-byte static buffer, copied with the date
    into [caTimestamp]. *)
Definition basGetFormatTimestamp (now : option Z) (timeofday : option (Z * Z)) : outcome bytes :=
  sysdate ← basGetSysDate now;
  date ← basDatePattern sysdate (lit "YYYY-MM-DD" ++ [0]);
  d ← peek date 0 10;
  caTimestamp ← poke (replicate 26 0) 0 d;
  systime ← basGetSysTimestamp timeofday;
  time ← basStringPattern systime (lit "##:##:##:#####" ++ [0]);
  caBuf ← peek time 0 14;
  caTimestamp ← poke caTimestamp 10 (32 :: pad_left 14 32 (take 14 (content caBuf)) ++ [0]);
  basRTrim caTimestamp 25.

Definition basGetDateTimeFromFormatTimestamp (pTimestamp pDateTime : bytes) : outcome bytes :=
  y ← peek pTimestamp 0 4; d ← poke pDateTime 0 y;
  m ← peek pTimestamp 5 2; d ← poke d 4 m;
  dd ← peek pTimestamp 8 2; d ← poke d 6 dd;
  h ← peek pTimestamp 11 2; d ← poke d 8 h;
  mi ← peek pTimestamp 14 2; d ← poke d 10 mi;
  s ← peek pTimestamp 17 2; poke d 12 s.

(** ["%0<w>d"] of [sscanf]: white space, at most [w] characters of a sign
    and digits. *)
Definition scan_int (w : nat) (s : bytes) : option (Z * bytes) :=
  let s := skip_spaces s in
  let t := take w s in
  let '(neg, sign, u) := match t with
                         | 45 :: u => (true, 1%nat, u) | 43 :: u => (false, 1%nat, u) | u => (false, 0%nat, u)
                         end in
  let '(v, n, _) := scan_digits decval 10 0 0 u in
  if n =? 0 then None else Some (if neg : bool then - v else v, drop (sign + Z.to_nat n) s).

(** The fields read in turn, up to the first that does not match; the others
    stay 0. *)
Fixpoint scan_fields (ws : list nat) (s : bytes) : list Z :=
  match ws with
  | [] => []
  | w :: ws =>
      match scan_int w s with
      | Some (v, s) => v :: scan_fields ws s
      | None => replicate (S (length ws)) 0
      end
  end.

Definition basMakeTime (now : Z) (pcaTime : bytes) : outcome Z :=
  iLen ← strlen pcaTime;
  let s := content pcaTime in
  let f ws := scan_fields ws s in
  let time year v := mktime (tm_of year (nth 0 v 0) (nth 1 v 0) (nth 2 v 0) (nth 3 v 0) (nth 4 v 0) 0) in
  Ok (if iLen =? 10 then time (tm_year (localtime now)) (f [2; 2; 2; 2; 2]%nat)
      else if iLen =? 12 then let v := f [2; 2; 2; 2; 2; 2]%nat in time (2000 + nth 0 v 0 - 1900) (tl v)
      else let v := f [4; 2; 2; 2; 2; 2]%nat in time (nth 0 v 0 - 1900) (tl v)).

(** The static [char [100]]. *)
Definition basDiffTime (now1 now2 : Z) (pcaTime1 pcaTime2 : bytes) : outcome bytes :=
  tTime1 ← basMakeTime now1 pcaTime1;
  tTime2 ← basMakeTime now2 pcaTime2;
  let lSec := Z.max tTime1 tTime2 - Z.min tTime1 tTime2 in
  let lMin := Z.quot lSec 60 in
  sprintf_to (replicate 100 0)
    (dec0 2 (Z.quot lMin 60) ++ 58 :: dec0 2 (Z.rem lMin 60) ++ 58 :: dec0 2 (Z.rem lSec 60)).

(** ** The day of the week *)

(** A remainder outside 0..6 leaves [iWeekDay] uninitialised. *)
Definition basGetWeekDay (iYear iMonth iDay : Z) : outcome Z :=
  let early := (iMonth =? 1) || (iMonth =? 2) in
  let m := if early then iMonth + 12 else iMonth in
  let y := if early then iYear - 1 else iYear in
  match Z.rem (iDay + 2 * m + Z.quot (3 * (m + 1)) 5 + y + Z.quot y 4 - Z.quot y 100 + Z.quot y 400) 7 with
  | 0 => Ok 1 | 1 => Ok 2 | 2 => Ok 3 | 3 => Ok 4 | 4 => Ok 5 | 5 => Ok 6 | 6 => Ok 0
  | _ => Fault
  end.

Definition basGetWeekDayByDate (pcaDate : bytes) : outcome Z :=
  f ← date_fields pcaDate; basGetWeekDay (atoi f.1.1) (atoi f.1.2) (atoi f.2).
End zone.
