(* ===== verification/BasDateFacts.v ===== *)
(** * Date routines ([bas_date.c]): what they compute

    The routines on the texts of calendar dates, against the calendar of
    [Calendar], for every time zone that has its laws. *)

From S2P Require Import Prelude LibC Buffers CFloat Calendar BasString BasStringFacts BasDate.

(** ** Texts of dates *)

(** [YYYYMMDD]. *)
Definition ymd (d : date) : bytes := dec0 4 (d_year d) ++ dec0 2 (d_month d) ++ dec0 2 (d_day d).

(** A date the eight characters can hold. *)
Definition in_text (d : date) : Prop := valid_date d = true /\ 0 <= d_year d <= 9999.

(** The fields fit their characters; the day may be past the month's end. *)
Definition fits_text (d : date) : Prop := 0 <= d_year d <= 9999 /\ 1 <= d_month d <= 12 /\ 1 <= d_day d <= 31.

Lemma in_text_fits d : in_text d -> fits_text d.
Proof.
  intros [Hv Hy]. apply valid_date_spec in Hv as [Hm Hdd].
  pose proof (month_days_range (d_year d) (d_month d)). unfold fits_text. lia.
Qed.

Lemma digits_value_nul acc s : all_digits s -> digits_value acc (s ++ [0]) = digits_value acc s.
Proof. intros Hs. by rewrite digits_value_app. Qed.

Lemma all_digits_head s : all_digits s -> s <> [] -> exists c t, s = c :: t /\ 48 <= c <= 57.
Proof. intros Hs Hne. destruct Hs as [|c t Hc Ht]; [done|]. eauto. Qed.

Lemma strtol_nul s : all_digits s -> s <> [] -> strtol (s ++ [0]) = strtol s.
Proof.
  intros Hs Hne. rewrite (strtol_digits s) by done. pose proof (digits_value_nul 0 s Hs) as Hv.
  destruct (all_digits_head s Hs Hne) as (c & t & -> & Hc). unfold strtol.
  assert (skip_spaces ((c :: t) ++ [0]) = (c :: t) ++ [0]) as ->.
  { simpl. unfold isspace. destruct (Z.eqb_spec c 32), (Z.leb_spec 9 c), (Z.leb_spec c 13); done || lia. }
  rewrite <- Hv. cbn [app]. assert (c <> 45 /\ c <> 43) as [? ?] by lia. clear Hv Hs Hne.
  destruct c as [|p|p]; [done| |done]. repeat (destruct p as [p|p|]; try done).
Qed.

Lemma dec0_nonempty w n : 0 <= n -> dec0 w n <> [].
Proof.
  intros Hn. unfold dec0, pad_left. destruct (Z.ltb_spec n 0); [lia|].
  destruct (dec_nat_spec n Hn) as (_ & Hne & _). intros H0. by apply app_eq_nil in H0 as [_ H0].
Qed.

(** A zero-padded number in a field reads back. *)
Lemma atol_dec0 w n : 0 <= n <= 2147483647 -> atol (dec0 w n ++ [0]) = n.
Proof.
  intros Hn. unfold atol. rewrite strtol_nul by (apply dec0_digits || apply dec0_nonempty; lia).
  apply strtol_dec0. lia.
Qed.

Lemma atoi_dec0 w n : 0 <= n <= 2147483647 -> atoi (dec0 w n ++ [0]) = n.
Proof. intros Hn. unfold atoi. change strtol with atol. rewrite atol_dec0 by done. apply s32_id. lia. Qed.

Lemma zlen_dec0 w n : (0 < w)%nat -> 0 <= n < 10 ^ Z.of_nat w -> zlen (dec0 w n) = Z.of_nat w.
Proof. intros Hw Hn. unfold zlen. by rewrite length_dec0. Qed.

Section text.
Context (d : date) (Hd : fits_text d).

Lemma year_text_length : zlen (dec0 4 (d_year d)) = 4.
Proof using Hd. pose proof Hd as (? & ? & ?). apply zlen_dec0; [lia|]. change (10 ^ Z.of_nat 4) with 10000. lia. Qed.
Lemma month_text_length : zlen (dec0 2 (d_month d)) = 2.
Proof using Hd. pose proof Hd as (? & ? & ?). apply zlen_dec0; [lia|]. change (10 ^ Z.of_nat 2) with 100. lia. Qed.
Lemma day_text_length : zlen (dec0 2 (d_day d)) = 2.
Proof using Hd. pose proof Hd as (? & ? & ?). apply zlen_dec0; [lia|]. change (10 ^ Z.of_nat 2) with 100. lia. Qed.

Lemma ymd_length : length (ymd d) = 8%nat.
Proof using Hd.
  pose proof year_text_length. pose proof month_text_length. pose proof day_text_length.
  unfold ymd, zlen in *. rewrite !length_app. lia.
Qed.

Lemma ymd_digits : all_digits (ymd d).
Proof using Hd. pose proof Hd as (? & ? & ?). unfold ymd. repeat apply digits_app; apply dec0_digits; lia. Qed.

(** The three fields of the text. *)
Lemma date_fields_ymd r :
  date_fields (ymd d ++ r) = Ok (dec0 4 (d_year d) ++ [0], dec0 2 (d_month d) ++ [0], dec0 2 (d_day d) ++ [0]).
Proof using Hd.
  unfold date_fields, field_at, ymd. rewrite <- !app_assoc.
  pose proof year_text_length as Hy. pose proof month_text_length as Hm. pose proof day_text_length as Hdd.
  set (y := dec0 4 (d_year d)) in *. set (mo := dec0 2 (d_month d)) in *. set (dd := dec0 2 (d_day d)) in *.
  rewrite (peek_prefix y _ 4), (peek_layout y mo _ 4 2) by lia. cbn [mbind outcome_bind].
  replace (y ++ mo ++ dd ++ r) with ((y ++ mo) ++ dd ++ r) by (by rewrite <- app_assoc).
  rewrite (peek_layout (y ++ mo) dd _ 6 2) by (rewrite ?zlen_app; lia). done.
Qed.

Lemma atoi_fields :
  atoi (dec0 4 (d_year d) ++ [0]) = d_year d /\ atoi (dec0 2 (d_month d) ++ [0]) = d_month d /\
  atoi (dec0 2 (d_day d) ++ [0]) = d_day d.
Proof using Hd. pose proof Hd as (? & ? & ?). rewrite !atoi_dec0 by lia. done. Qed.

(** The fields at some hour, as seconds. *)
Lemma tm_seconds_ymd hour :
  tm_seconds (tm_of_fields (dec0 4 (d_year d) ++ [0], dec0 2 (d_month d) ++ [0], dec0 2 (d_day d) ++ [0]) hour)
    = 86400 * days_of d + 3600 * hour + 1.
Proof using Hd.
  pose proof Hd as (Hy & Hm & Hdd). destruct atoi_fields as (Ey & Em & Ed).
  unfold tm_of_fields. cbn [fst snd]. rewrite Ey, Em, Ed. unfold tm_seconds, tm_of. cbn.
  assert ((d_month d - 1) / 12 = 0) as -> by (apply Z.div_small; lia).
  rewrite (Z.mod_small (d_month d - 1)) by lia.
  replace (d_year d - 1900 + 1900 + 0) with (d_year d) by lia.
  replace (d_month d - 1 + 1) with (d_month d) by lia.
  unfold days_of. rewrite (days_from_civil_day _ _ (d_day d)). lia.
Qed.

(** [sprintf] of the date into a nine-byte buffer. *)
Lemma sprintf_ymd buf : length buf = 9%nat -> sprintf_to buf (ymd d) = Ok (ymd d ++ [0]).
Proof using Hd.
  intros Hb. unfold sprintf_to. rewrite <- (app_nil_r buf). rewrite poke_prefix; [by rewrite app_nil_r|].
  rewrite zlen_app. change (zlen [0]) with 1. unfold zlen. rewrite ymd_length. lia.
Qed.
End text.

(** The broken-down time of a second of a day. *)
Lemma yyyymmdd_break_down d s f :
  valid_date d = true -> 86400 * days_of d <= s < 86400 * (days_of d + 1) -> yyyymmdd (break_down s f) = ymd d.
Proof.
  intros Hv Hs. unfold yyyymmdd, break_down. cbv zeta. cbn [tm_year tm_mon tm_mday].
  assert (s / 86400 = days_of d) as -> by (div_lia). rewrite civil_from_days_of by done.
  unfold ymd. by replace (d_year d - 1900 + 1900) with (d_year d) by lia; replace (d_month d - 1 + 1) with (d_month d) by lia.
Qed.

(** ** Adding days *)

Section zone.
Context `{TimeZoneLaws}.

(** The second after a full minute is never the error value of [mktime]. *)
Lemma mktime_not_error t : tm_seconds t mod 60 = 1 -> mktime t <> -1.
Proof using All.
  intros Hs Hm. unfold mktime in Hm. destruct (tz_offset (tm_isdst t) (tm_seconds t)) as [u Hu].
  pose proof (tz_minutes u). rewrite Hu in Hm. div_lia.
Qed.

(** The local time of an instant that [mktime] gave, moved by whole days:
    off by at most what the zone's offsets differ by. *)
Lemma local_of_instant isdst s n :
  exists e, instant_of isdst s + n + utc_offset (instant_of isdst s + n) = s + n + e /\ -10800 <= e <= 10800.
Proof using All.
  destruct (tz_offset isdst s) as [u Hu]. exists (utc_offset (instant_of isdst s + n) - utc_offset u).
  pose proof (tz_spread u (instant_of isdst s + n)). pose proof (tz_spread (instant_of isdst s + n) u).
  rewrite Hu at 1. lia.
Qed.

Lemma add_days_run d d' n r :
  in_text d -> in_text d' -> days_of d' = days_of d + n -> -24855 <= n <= 24855 ->
  basAddDays (ymd d ++ r) n = Ok (ymd d' ++ [0]).
Proof using All.
  intros Hd Hd' Hdays Hn. unfold basAddDays. apply in_text_fits in Hd. rewrite date_fields_ymd by done. cbn [mbind outcome_bind].
  set (t := tm_of_fields _ 3). assert (tm_seconds t = 86400 * days_of d + 10801) as Ht.
  { unfold t. rewrite tm_seconds_ymd by done. lia. }
  destruct (Z.eqb_spec (mktime t) (-1)) as [He|_].
  { by apply mktime_not_error in He; [|rewrite Ht; div_lia]. }
  assert (int_range (n * (24 * 60 * 60)) = Ok (n * 86400)) as ->.
  { unfold int_range. destruct (Z.leb_spec (-2147483648) (n * (24 * 60 * 60))); [|lia].
    by destruct (Z.leb_spec (n * (24 * 60 * 60)) 2147483647); [|lia]. }
  cbn [mbind outcome_bind]. unfold localtime, mktime.
  destruct (local_of_instant (tm_isdst t) (tm_seconds t) (n * 86400)) as (e & -> & He).
  rewrite Ht, (yyyymmdd_break_down d'); [|apply Hd'|lia]. apply sprintf_ymd; [by apply in_text_fits|done].
Qed.
End zone.

(** ** The day of the week *)

(** The number of the day of the week, 0 for Sunday: 1970-01-01 was a
    Thursday. *)
Definition weekday (d : date) : Z := (days_of d + 4) mod 7.

Lemma week_day_run d :
  valid_date d = true -> 1 <= d_year d -> basGetWeekDay (d_year d) (d_month d) (d_day d) = Ok (weekday d).
Proof.
  destruct d as [y m d]. rewrite valid_date_spec. cbn [d_year d_month d_day]. intros [Hm Hd] Hy.
  pose proof (month_days_range y m) as Hr. unfold basGetWeekDay, weekday, days_of. cbn [d_year d_month d_day].
  set (m' := if (m =? 1) || (m =? 2) then m + 12 else m).
  assert ((if (m =? 1) || (m =? 2) then y - 1 else y) = march_year y m) as ->
    by (unfold march_year; destruct (Z.eqb_spec m 1), (Z.eqb_spec m 2), (Z.leb_spec m 2); simpl; lia).
  assert (m' = march_month m + 3 /\ 0 <= march_month m <= 11) as [-> Hmp].
  { unfold m', march_month. destruct (Z.eqb_spec m 1), (Z.eqb_spec m 2), (Z.leb_spec m 2); simpl; lia. }
  assert (0 <= march_year y m) as Hy' by (unfold march_year; destruct (m <=? 2); lia).
  unfold days_from_civil, day_of_march_year. set (y' := march_year y m) in *. set (mp := march_month m) in *.
  clearbody y' mp. rewrite !Z.quot_div_nonneg by lia.
  assert (3 * (mp + 3 + 1) / 5 = (153 * mp + 2) / 5 - 30 * mp + 2) as -> by div_lia.
  set (a := (153 * mp + 2) / 5) in *. assert (0 <= a) by (unfold a; div_lia).
  assert (30 * mp <= a + 1) by (unfold a; div_lia). clearbody a.
  rewrite Z.rem_mod_nonneg by div_lia.
  match goal with |- match ?x mod 7 with _ => _ end = _ => set (w := x) end.
  assert ((365 * y' + y' / 4 - y' / 100 + y' / 400 + (a + d - 1) - 719468 + 4) mod 7 = (w mod 7 + 1) mod 7) as ->
    by (unfold w; div_lia).
  pose proof (Z.mod_pos_bound w 7 ltac:(lia)) as Hb. set (k := w mod 7) in *. clearbody k.
  assert (k = 0 \/ k = 1 \/ k = 2 \/ k = 3 \/ k = 4 \/ k = 5 \/ k = 6) as Hk by lia.
  by repeat destruct Hk as [->|Hk]; try subst k.
Qed.

(** ** Validity and month ends *)

Lemma rem_mod_zero y n : 0 <= y -> 0 < n -> (Z.rem y n =? 0) = (y mod n =? 0).
Proof. intros Hy Hn. by rewrite Z.rem_mod_nonneg. Qed.

Lemma leap_year_run p : 0 <= atoi p -> basIsLeapYear p = if is_leap (atoi p) then 1 else 0.
Proof. intros Hp. unfold basIsLeapYear, is_leap. by rewrite !rem_mod_zero by lia. Qed.

Lemma month_table y m :
  1 <= m <= 12 -> zget (iaMonthDays (is_leap y)) m = Ok (month_days y m).
Proof.
  intros Hm. unfold month_days, iaMonthDays, monarr. apply (month_cases m); [done|..]; done.
Qed.

Lemma atoi_field s : all_digits s -> s <> [] -> zlen s <= 9 -> atoi (s ++ [0]) = value_of s.
Proof.
  intros Hs Hne Hl. unfold atoi. rewrite strtol_nul, strtol_digits by done. fold (value_of s).
  pose proof (value_of_bounds s Hs) as Hb.
  assert (10 ^ zlen s <= 10 ^ 9) as Hp by (apply Z.pow_le_mono_r; lia). change (10 ^ 9) with 1000000000 in Hp.
  rewrite Z.max_r, Z.min_r by lia. apply s32_id. lia.
Qed.

Lemma date_fields_digits Y M D r :
  zlen Y = 4 -> zlen M = 2 -> zlen D = 2 -> date_fields (Y ++ M ++ D ++ r) = Ok (Y ++ [0], M ++ [0], D ++ [0]).
Proof.
  intros HY HM HD. unfold date_fields, field_at.
  rewrite (peek_prefix Y _ 4), (peek_layout Y M _ 4 2) by lia. cbn [mbind outcome_bind].
  replace (Y ++ M ++ D ++ r) with ((Y ++ M) ++ D ++ r) by (by rewrite <- app_assoc).
  rewrite (peek_layout (Y ++ M) D _ 6 2) by (rewrite ?zlen_app; lia). done.
Qed.

Lemma nonempty_of_length (s : bytes) n : zlen s = n -> 0 < n -> s <> [].
Proof. intros H Hn ->. change (zlen []) with 0 in H. lia. Qed.

(** [basIsValidDate] on any eight digits. *)
Lemma is_valid_date_run `{BasGlobal} Y M D r :
  all_digits Y -> all_digits M -> all_digits D -> zlen Y = 4 -> zlen M = 2 -> zlen D = 2 ->
  basIsValidDate (Y ++ M ++ D ++ r) =
    Ok (if (1 <=? value_of Y) && valid_date (Date (value_of Y) (value_of M) (value_of D)) then 1 else 0).
Proof.
  intros HY HM HD LY LM LD. unfold basIsValidDate. rewrite date_fields_digits by done. cbn [mbind outcome_bind fst snd].
  rewrite !atoi_field by (done || lia || by eapply nonempty_of_length).
  pose proof (value_of_bounds Y HY). pose proof (value_of_bounds M HM). pose proof (value_of_bounds D HD).
  rewrite leap_year_run; rewrite atoi_field by (done || lia || by eapply nonempty_of_length); [|lia].
  set (y := value_of Y) in *. set (m := value_of M) in *. set (dd := value_of D) in *. clearbody y m dd.
  unfold valid_date. cbn [d_year d_month d_day]. rewrite bas_true_1, bas_false_0.
  destruct (Z.ltb_spec 12 m); [destruct (Z.leb_spec m 12); [lia|]; by rewrite !andb_false_r|].
  destruct (Z.ltb_spec m 1); [destruct (Z.leb_spec 1 m); [lia|]; simpl; by rewrite ?andb_false_r|].
  destruct (Z.ltb_spec y 1); [destruct (Z.leb_spec 1 y); [lia|]; done|].
  destruct (Z.ltb_spec dd 1); [destruct (Z.leb_spec 1 dd); [lia|]; simpl; by rewrite ?andb_false_r|].
  destruct (Z.leb_spec 1 y), (Z.leb_spec 1 m), (Z.leb_spec m 12), (Z.leb_spec 1 dd); try lia. cbn [orb andb].
  assert (((if is_leap y then 1 else 0) =? 1) = is_leap y) as -> by (by destruct (is_leap y)).
  rewrite month_table by lia. cbn [mbind outcome_bind].
  by destruct (Z.ltb_spec (month_days y m) dd), (Z.leb_spec dd (month_days y m)); try lia.
Qed.

(** ** The last day of a month *)

Lemma field_at_prefix a b n : zlen a = n -> field_at (a ++ b) 0 n = Ok (a ++ [0]).
Proof. intros Ha. unfold field_at. rewrite (peek_prefix a b n) by done. done. Qed.

Lemma field_at_layout a b t i n : zlen a = i -> zlen b = n -> field_at (a ++ b ++ t) i n = Ok (b ++ [0]).
Proof. intros Ha Hb. unfold field_at. rewrite (peek_layout a b t i n) by done. done. Qed.

Lemma last_day_run `{BasGlobal} Y M D r :
  all_digits Y -> all_digits M -> zlen Y = 4 -> zlen M = 2 -> zlen D = 2 ->
  basGetLastDayOfMonth (Y ++ M ++ D ++ r) =
    Ok (if (1 <=? value_of M) && (value_of M <=? 12)
        then (0, Y ++ M ++ dec0 2 (month_days (value_of Y) (value_of M)) ++ r)
        else (-1, Y ++ M ++ D ++ r)).
Proof.
  intros HY HM LY LM LD. unfold basGetLastDayOfMonth.
  rewrite (field_at_prefix Y _ 4), (field_at_layout Y M _ 4 2) by done. cbn [mbind outcome_bind].
  rewrite (atoi_field M) by (done || lia || by eapply nonempty_of_length).
  assert (forall x, zlen x = 2 -> poke (Y ++ M ++ D ++ r) 6 x = Ok (Y ++ M ++ x ++ r)) as Hset.
  { intros x Hx. replace (Y ++ M ++ D ++ r) with ((Y ++ M) ++ D ++ r) by (by rewrite <- app_assoc).
    rewrite (poke_layout (Y ++ M) D r x 6) by (rewrite ?zlen_app; lia). by rewrite <- app_assoc. }
  rewrite !Hset by done. cbn [mbind outcome_bind].
  pose proof (value_of_bounds Y HY). pose proof (leap_year_run (Y ++ [0])) as Hleap.
  rewrite atoi_field in Hleap by (done || lia || by eapply nonempty_of_length). rewrite Hleap by lia. clear Hleap.
  set (m := value_of M). set (y := value_of Y). clearbody m y.
  destruct (decide (1 <= m <= 12)) as [Hm|Hm].
  - assert ((1 <=? m) && (m <=? 12) = true) as -> by lia. unfold month_days.
    clear Hset. pattern m. apply (month_cases m); [exact Hm|..]; try done. by destruct (is_leap y).
  - assert ((1 <=? m) && (m <=? 12) = false) as -> by lia.
    rewrite !bool_decide_eq_false_2 by set_solver by lia. by destruct (Z.eqb_spec m 2); [lia|].
Qed.

(** ** Adding months *)

Lemma same_bytes_eq a b x y : length a = length b -> same_bytes (length a) (a ++ x) 0 (b ++ y) 0 = Ok (bool_decide (a = b)).
Proof.
  intros Hl. assert (forall p q, zlen p = zlen q ->
    same_bytes (length a) (p ++ a ++ x) (zlen p) (q ++ b ++ y) (zlen q) = Ok (bool_decide (a = b))) as H;
    [|exact (H [] [] eq_refl)].
  revert b Hl. induction a as [|c a IH]; intros [|d b] Hl p q Hpq; try done.
  cbn [length same_bytes app]. rewrite !zget_middle by done. cbn [mbind outcome_bind].
  destruct (Z.eqb_spec c d) as [->|Hcd]; [|by rewrite bool_decide_eq_false_2 by congruence].
  assert (forall k l : bytes, k ++ d :: l = (k ++ [d]) ++ l) as Hmove by (intros; by rewrite <- app_assoc).
  rewrite (Hmove p), (Hmove q). replace (zlen p + 1) with (zlen (p ++ [d])) by (rewrite zlen_app; done).
  replace (zlen q + 1) with (zlen (q ++ [d])) by (rewrite zlen_app; done).
  rewrite IH by (simpl in Hl; lia || rewrite !zlen_app; lia). f_equal. apply bool_decide_ext.
  split; [by intros ->|by intros [= ->]].
Qed.

(** The day cut to the month's last. *)
Definition clamp (d : date) : date := Date (d_year d) (d_month d) (Z.min (d_day d) (month_days (d_year d) (d_month d))).

Lemma ymd_inj d d' : fits_text d -> fits_text d' -> ymd d = ymd d' -> d = d'.
Proof.
  intros Hd Hd' E. pose proof (date_fields_ymd d Hd []) as H. rewrite E, (date_fields_ymd d' Hd' []) in H.
  injection H as E1 E2 E3. destruct (atoi_fields d Hd) as (Y & M & D), (atoi_fields d' Hd') as (Y' & M' & D').
  rewrite <- E1, Y' in Y. rewrite <- E2, M' in M. rewrite <- E3, D' in D. destruct d, d'. simpl in *. congruence.
Qed.

(** The calendar date that a day past the month's end stands for. *)
Lemma overflow_day d :
  fits_text d -> month_days (d_year d) (d_month d) < d_day d ->
  exists d', in_text d' /\ d' <> d /\ days_of d' = days_of d.
Proof.
  destruct d as [y m k]. unfold fits_text. cbn [d_year d_month d_day]. intros (Hy & Hm & Hk) Hlt.
  pose proof (month_days_range y m) as Hr. pose proof (month_days_range y (m + 1)).
  assert (m <> 12) by (intros ->; change (month_days y 12) with 31 in Hlt; lia).
  exists (Date y (m + 1) (k - month_days y m)). split; [split; [apply valid_date_spec|]; simpl; lia|].
  split; [intros [=]; lia|]. unfold days_of. cbn [d_year d_month d_day].
  rewrite (days_from_civil_day _ _ k), (days_from_civil_day _ _ (k - _)), month_length by lia. lia.
Qed.

Lemma zlen_dec0_2 n : 0 <= n <= 99 -> zlen (dec0 2 n) = 2.
Proof. intros Hn. apply zlen_dec0; [lia|]. change (10 ^ Z.of_nat 2) with 100. lia. Qed.
Lemma zlen_dec0_4 n : 0 <= n <= 9999 -> zlen (dec0 4 n) = 4.
Proof. intros Hn. apply zlen_dec0; [lia|]. change (10 ^ Z.of_nat 4) with 10000. lia. Qed.

Lemma sprintf_field a b : zlen a = zlen b -> sprintf_to (a ++ [0]) b = Ok (b ++ [0]).
Proof.
  intros Hl. unfold sprintf_to. rewrite <- (app_nil_r (a ++ [0])), poke_prefix, app_nil_r; [done|].
  rewrite !zlen_app. by rewrite Hl.
Qed.

Lemma bind_Ok {A B} (x : A) (f : A -> outcome B) : (Ok x ≫= f) = f x.
Proof. done. Qed.

Section months.
Context `{BasGlobal} `{TimeZoneMidnight}.

(** The local date of the first second of a day is that day. *)
Lemma midnight_date d f : 
  in_text d -> let t := instant_of (-1) (86400 * days_of d + 1) in
  t <> -1 /\ sprintf_to (replicate 9 0) (yyyymmdd (break_down (t + utc_offset t) f)) = Ok (ymd d ++ [0]).
Proof using All.
  intros Hd t. destruct (tz_midnight (days_of d)) as [Ht Hday]. fold t in Ht, Hday. split; [done|].
  rewrite (yyyymmdd_break_down d); [apply sprintf_ymd; [by apply in_text_fits|done]|apply Hd|div_lia].
Qed.

Lemma months_loop_run fuel d buf :
  fits_text d -> length buf = 9%nat -> Z.max 0 (d_day d - month_days (d_year d) (d_month d)) < Z.of_nat fuel ->
  months_loop fuel (dec0 4 (d_year d) ++ [0]) (dec0 2 (d_month d) ++ [0]) (dec0 2 (d_day d) ++ [0]) buf
    = Ok (ymd (clamp d) ++ [0], true).
Proof using All.
  revert d buf. induction fuel as [|fuel IH]; intros d buf Hd Hb Hf; [lia|]. cbn [months_loop].
  pose proof Hd as (Hy & Hm & Hk). pose proof (month_days_range (d_year d) (d_month d)) as Hr.
  rewrite !(content_app _ []) by (apply digits_cstring, dec0_digits; lia). fold (ymd d).
  rewrite sprintf_ymd by done. cbn [mbind outcome_bind].
  assert (mktime (tm_of_fields (dec0 4 (d_year d) ++ [0], dec0 2 (d_month d) ++ [0], dec0 2 (d_day d) ++ [0]) 0)
    = instant_of (-1) (86400 * days_of d + 1)) as ->.
  { unfold mktime. rewrite tm_seconds_ymd by done. f_equal. lia. }
  assert (exists e, in_text e /\ days_of e = days_of d /\ (e = d <-> d_day d <= month_days (d_year d) (d_month d)))
    as (e & He & Hde & Hiff).
  { destruct (Z.le_gt_cases (d_day d) (month_days (d_year d) (d_month d))) as [Hle|Hgt].
    - exists d. split; [|done]. split; [apply valid_date_spec; lia|lia].
    - destruct (overflow_day d Hd Hgt) as (e & He & Hne & Hde). exists e. split_and!; [done..|split; [by intros ->|lia]]. }
  destruct (midnight_date e (dst_flag (instant_of (-1) (86400 * days_of d + 1))) He) as [Ht Hp].
  rewrite Hde in Ht, Hp. apply Z.eqb_neq in Ht as ->. unfold localtime. rewrite Hp. cbn [mbind outcome_bind].
  apply in_text_fits in He. pose proof (same_bytes_eq (ymd d) (ymd e) [0] [0]) as Hsame.
  rewrite !ymd_length in Hsame by done. rewrite Hsame by done. cbn [mbind outcome_bind].
  destruct (decide (e = d)) as [Hed|Hne].
  - rewrite Hed, bool_decide_eq_true_2 by done. apply Hiff in Hed. unfold clamp. rewrite Z.min_l by done.
    by destruct d.
  - rewrite bool_decide_eq_false_2 by (intros E; by apply Hne, eq_sym, ymd_inj).
    assert (month_days (d_year d) (d_month d) < d_day d) as Hlt by (apply Z.nle_gt; by intros Hle%Hiff).
    rewrite atol_dec0, s32_id by lia. rewrite sprintf_field by (rewrite !zlen_dec0_2 by lia; done).
    cbn [mbind outcome_bind].
    replace (clamp d) with (clamp (Date (d_year d) (d_month d) (d_day d - 1))).
    2: { unfold clamp. cbn [d_year d_month d_day]. f_equal. lia. }
    apply (IH (Date (d_year d) (d_month d) (d_day d - 1))); cbn [d_year d_month d_day].
    + unfold fits_text. cbn [d_year d_month d_day]. lia.
    + rewrite length_app, ymd_length by done. done.
    + lia.
Qed.

(** The year and the month of a text, moved. *)
Definition move_month (y m n : Z) : Z * Z := let k := 12 * y + m - 1 + n in (k / 12, k mod 12 + 1).

(** A text of digits is not blank. *)
Lemma digits_not_blank t r :
  all_digits t -> t <> [] -> zlen t < 2147483648 ->
  strlen (t ++ 0 :: r) = Ok (zlen t) /\ basIsSpace (t ++ 0 :: r) (s32 (zlen t)) = Ok 0.
Proof.
  intros Ht Hne Hl. pose proof (digits_cstring t Ht) as Hc. rewrite strlen_app by done. split; [done|].
  destruct (all_digits_head t Ht Hne) as (c & u & -> & Hc').
  pose proof (zlen_nonneg u) as Hu. rewrite zlen_cons in Hl |- *. rewrite s32_id by lia.
  unfold basIsSpace. rewrite strlen_app by done. cbn [mbind outcome_bind]. rewrite zlen_cons.
  destruct (Z.eqb_spec (1 + zlen u) 0); [lia|]. unfold shorter. rewrite u64_id, Z.ltb_irrefl by lia.
  rewrite <- (zlen_cons c u), all_bytes_string. cbn [forallb]. by destruct (Z.eqb_spec c 32); [lia|].
Qed.

(** The moved year and month are in the calendar. *)
Lemma move_month_range y m n :
  1 <= m <= 12 -> 0 <= 12 * y + m - 1 + n < 120000 ->
  0 <= (move_month y m n).1 <= 9999 /\ 1 <= (move_month y m n).2 <= 12.
Proof. intros Hm Hn. unfold move_month. cbn [fst snd]. div_lia. Qed.

Lemma move_month_run y m n :
  0 <= y <= 9999 -> 1 <= m <= 12 -> 0 <= 12 * y + m - 1 + n < 120000 ->
  let v := s64 (y * 12 + m + n - 1) in
  s32 (Z.quot v 12) = (move_month y m n).1 /\ s32 (Z.rem v 12 + 1) = (move_month y m n).2.
Proof.
  intros Hy Hm Hn v. unfold move_month. cbn [fst snd].
  assert (v = 12 * y + m - 1 + n) as -> by (unfold v; rewrite s64_id; lia).
  rewrite Z.quot_div_nonneg, Z.rem_mod_nonneg by lia. rewrite !s32_id by div_lia. done.
Qed.

Definition add_months (d : date) (n : Z) : date :=
  let ym := move_month (d_year d) (d_month d) n in clamp (Date ym.1 ym.2 (d_day d)).

Lemma fields_ymd d r :
  fits_text d ->
  field_at (ymd d ++ r) 0 4 = Ok (dec0 4 (d_year d) ++ [0]) /\ field_at (ymd d ++ r) 4 2 = Ok (dec0 2 (d_month d) ++ [0]) /\
  field_at (ymd d ++ r) 6 2 = Ok (dec0 2 (d_day d) ++ [0]).
Proof.
  intros Hd. pose proof (date_fields_ymd d Hd r) as Hf. unfold date_fields in Hf. ok_inv Hf. ok_inv Hf. ok_inv Hf.
  injection Hf as -> -> ->. done.
Qed.

Lemma add_months_run fuel d n r :
  fits_text d -> 0 <= 12 * d_year d + d_month d - 1 + n < 120000 -> (4 <= fuel)%nat ->
  basAddMonths fuel (ymd d ++ 0 :: r) n = Ok (ymd (add_months d n) ++ [0]).
Proof using All.
  intros Hd Hn Hf. pose proof Hd as (Hy & Hm & Hk). unfold basAddMonths.
  pose proof (ymd_digits d Hd) as Hdig. pose proof (ymd_length d Hd) as Hlen.
  assert (zlen (ymd d) = 8) as Hz by (unfold zlen; lia).
  destruct (digits_not_blank (ymd d) r Hdig) as [Hsl Hblank]; [intros E; by rewrite E in Hlen|lia|].
  rewrite Hsl. cbn [mbind outcome_bind]. rewrite Hblank. cbn [mbind outcome_bind].
  rewrite bas_true_1, content_app by (by apply digits_cstring).
  rewrite bool_decide_eq_false_2 by (intros E; by rewrite E in Hlen). cbn [orb Z.eqb].
  destruct (fields_ymd d (0 :: r) Hd) as (-> & -> & Hday). cbn [mbind outcome_bind].
  assert (exists c, zget (ymd d ++ 0 :: r) 6 = Ok c /\ 48 <= c <= 57) as (c & -> & Hc).
  { unfold ymd in Hdig |- *. rewrite app_assoc in Hdig |- *. apply Forall_app in Hdig as [_ Hdig].
    destruct (all_digits_head _ Hdig (dec0_nonempty 2 (d_day d) ltac:(lia))) as (c & u & -> & Hc). exists c. split; [|done].
    rewrite <- app_assoc. apply zget_middle. rewrite zlen_app, year_text_length, month_text_length by done. done. }
  rewrite bind_Ok. destruct (Z.eqb_spec c 0) as [->|_]; [lia|]. rewrite Hday, bind_Ok.
  rewrite !atol_dec0 by lia. destruct (move_month_run (d_year d) (d_month d) n) as [E1 E2]; [lia..|].
  rewrite E1, E2. destruct (move_month_range (d_year d) (d_month d) n) as [R1 R2]; [lia..|].
  rewrite !sprintf_field by (rewrite ?zlen_dec0_2, ?zlen_dec0_4 by lia; done). cbn [mbind outcome_bind].
  unfold add_months. set (ym := move_month _ _ _) in *.
  rewrite (months_loop_run fuel (Date ym.1 ym.2 (d_day d))); [done|by unfold fits_text|done|].
  cbn [d_year d_month d_day]. pose proof (month_days_range ym.1 ym.2). lia.
Qed.

(** A month alone moves the same way, as the first of it. *)
Lemma add_months_of_month fuel y m n r :
  0 <= y <= 9999 -> 1 <= m <= 12 -> 0 <= 12 * y + m - 1 + n < 120000 -> (4 <= fuel)%nat ->
  exists tail, basAddMonths fuel (dec0 4 y ++ dec0 2 m ++ 0 :: r) n =
    Ok (dec0 4 (move_month y m n).1 ++ dec0 2 (move_month y m n).2 ++ 0 :: tail).
Proof using All.
  intros Hy Hm Hn Hf. exists [49; 0]. unfold basAddMonths. set (t := dec0 4 y ++ dec0 2 m).
  assert (all_digits t) as Hdig by (apply digits_app; apply dec0_digits; lia).
  assert (zlen (dec0 4 y) = 4) as L4 by (apply zlen_dec0_4; lia).
  assert (zlen (dec0 2 m) = 2) as L2 by (apply zlen_dec0_2; lia).
  assert (zlen t = 6) as Hz by (unfold t; rewrite zlen_app; lia).
  replace (dec0 4 y ++ dec0 2 m ++ 0 :: r) with (t ++ 0 :: r) by (unfold t; by rewrite <- app_assoc).
  destruct (digits_not_blank t r Hdig) as [Hsl Hblank]; [intros E; by rewrite E in Hz|lia|].
  rewrite Hsl. cbn [mbind outcome_bind]. rewrite Hblank. cbn [mbind outcome_bind].
  rewrite bas_true_1, content_app by (by apply digits_cstring).
  rewrite bool_decide_eq_false_2; cycle 1.
  { intros E. assert (atol (drop 4 t ++ [0]) = 99) as H99 by (by rewrite E). unfold t in H99.
    rewrite drop_app_length' in H99 by (unfold zlen in L4; lia). rewrite atol_dec0 in H99 by lia. lia. }
  cbn [orb Z.eqb]. unfold t. rewrite <- app_assoc.
  rewrite (field_at_prefix (dec0 4 y) _ 4), (field_at_layout (dec0 4 y) (dec0 2 m) _ 4 2) by done.
  cbn [mbind outcome_bind]. replace (dec0 4 y ++ dec0 2 m ++ 0 :: r) with (t ++ 0 :: r) by (unfold t; by rewrite <- app_assoc).
  rewrite zget_middle by done. rewrite bind_Ok, Z.eqb_refl, bind_Ok, !atol_dec0 by lia.
  destruct (move_month_run y m n) as [E1 E2]; [lia..|].
  rewrite E1, E2. destruct (move_month_range y m n) as [R1 R2]; [lia..|].
  rewrite !sprintf_field by (rewrite ?zlen_dec0_2, ?zlen_dec0_4 by lia; done). cbn [mbind outcome_bind]. set (ym := move_month y m n) in *.
  change (lit "01" ++ [0]) with (dec0 2 1 ++ [0]).
  rewrite (months_loop_run fuel (Date ym.1 ym.2 1)); [|unfold fits_text; cbn [d_year d_month d_day]; lia|done|].
  2: { cbn [d_year d_month d_day]. pose proof (month_days_range ym.1 ym.2). lia. }
  rewrite bind_Ok. cbn [fst snd andb]. unfold clamp, ymd. cbn [d_year d_month d_day].
  pose proof (month_days_range ym.1 ym.2). rewrite Z.min_l by lia. change (dec0 2 1) with [48; 49].
  rewrite (app_assoc (dec0 4 ym.1)), <- (app_assoc _ [48; 49]). cbn [app].
  rewrite zset_middle; [by rewrite <- app_assoc|].
  rewrite zlen_app, zlen_dec0_2, zlen_dec0_4 by lia. done.
Qed.
End months.

(** ** Julian dates *)

Lemma zlen_dec0_least w n : Z.of_nat w <= zlen (dec0 w n).
Proof.
  unfold dec0, pad_left, zlen. destruct (Z.ltb_spec n 0).
  - cbn [length]. rewrite length_app, length_replicate. lia.
  - rewrite length_app, length_replicate. lia.
Qed.

(** The five digits and the NUL do not fit the buffer. *)
Lemma yyddd_overflows buf t : zlen buf <= 5 -> sprintf_to buf (yyddd t) = Fault.
Proof.
  intros Hb. unfold sprintf_to, poke, yyddd. pose proof (zlen_dec0_least 2 (Z.rem (tm_year t) 100)).
  pose proof (zlen_dec0_least 3 (tm_yday t + 1)). rewrite !zlen_app. change (zlen [0]) with 1.
  destruct (Z.leb_spec (0 + (zlen (dec0 2 (Z.rem (tm_year t) 100)) + zlen (dec0 3 (tm_yday t + 1)) + 1)) (zlen buf)); [lia|].
  by rewrite andb_false_r.
Qed.
