(* ===== verification/Samples.v ===== *)
(** * Concrete worlds

    A dictionary of seven buckets with an integer and a text too long for a
    bucket, a vector of two elements' capacity, memories that hold them.  The
    theorems are applied to them. *)

From S2P Require Import Prelude LibC PrimeTable ImTypes ImHashTable ImTable ImInsert ImVector Beai3Dict DictFacts DictLife.

(** ** A dictionary *)

(** [im_put_bucket] of a bucket at the position [im_find_element] gives. *)
Definition put_in (h : im_hashtable) (b : im_hash_bucket) : im_hashtable :=
  match (p ← im_find_element h (hb_key b); im_put_bucket h p b) with Ok (_, h') => h' | _ => h end.

Lemma put_in_spec h b :
  table_wf h -> is_free b = false -> im_must_rehash h = false -> table_map h !! key_of (hb_key b) = None ->
  table_wf (put_in h b) /\ table_map (put_in h b) = <[key_of (hb_key b) := b]> (table_map h).
Proof.
  intros Hwf Hb Hr Hn. destruct (put_bucket_absent h Hwf b Hb Hr Hn) as (p & h' & Hf & Hp & _ & Hwf' & Hm & _).
  unfold put_in. rewrite Hf. cbn [mbind outcome_bind]. by rewrite Hp.
Qed.

Definition age : bytes := lit "age".
Definition name : bytes := lit "name".
Definition long_text : bytes := lit "a text of more than sixteen bytes" ++ [0].

Definition age_bucket : im_hash_bucket := HashBucket (key_field age 0) IM_INT 4 (int_value 41).
Definition name_bucket : im_hash_bucket :=
  HashBucket (key_field name 0) IM_EXTERNAL_STRING (zlen long_text) (external_object (zlen long_text) (Some (2%positive, 0))).

Definition sample_table : im_hashtable := put_in (put_in (empty_hashtable 7) age_bucket) name_bucket.

(** The table in block 1, the text in block 2, and somebody else's block 3. *)
Definition sample_mem (quota : nat) : mem :=
  Mem {[ (1%positive, 0) := CHash sample_table; (2%positive, 0) := CBytes long_text; (3%positive, 0) := CBytes [7] ]}
    4 quota.

Definition sample_map : gmap bytes dict_value := {[ age := DInt 41; name := DText long_text ]}.

Lemma prime_7 : Z.prime 7.
Proof. by apply is_prime_spec. Qed.

Lemma empty_7_wf : table_wf (empty_hashtable 7).
Proof. apply empty_hashtable_wf; [exact prime_7|done|done]. Qed.

Lemma sample_table_spec :
  table_wf sample_table /\ table_map sample_table = {[ name := name_bucket; age := age_bucket ]}.
Proof.
  destruct (put_in_spec (empty_hashtable 7) age_bucket empty_7_wf) as [Hwf Hm]; [done|done| |].
  { by rewrite empty_hashtable_map. }
  destruct (put_in_spec (put_in (empty_hashtable 7) age_bucket) name_bucket Hwf) as [Hwf' Hm']; [done|by vm_compute| |].
  { rewrite Hm, empty_hashtable_map. by vm_compute. }
  split; [done|]. unfold sample_table. rewrite Hm', Hm, empty_hashtable_map. done.
Qed.

Lemma mem_wf_list l next quota :
  Forall (λ kc : addr * cell, (kc.1.1 < next)%positive) l -> mem_wf (Mem (list_to_map l) next quota).
Proof.
  intros Hl k c Hk. apply elem_of_list_to_map_2 in Hk. rewrite Forall_forall in Hl. exact (Hl _ Hk).
Qed.

Lemma sample_mem_wf quota : mem_wf (sample_mem quota).
Proof.
  exact (mem_wf_list [((1%positive, 0), CHash sample_table); ((2%positive, 0), CBytes long_text);
    ((3%positive, 0), CBytes [7])] 4 quota ltac:(by repeat constructor)).
Qed.

Lemma sample_lookup k b :
  table_map sample_table !! k = Some b -> (k = name /\ b = name_bucket) \/ (k = age /\ b = age_bucket).
Proof.
  rewrite (proj2 sample_table_spec). intros Hk.
  apply lookup_insert_Some in Hk as [[<- <-]|[_ Hk]]; [by left|]. apply lookup_singleton_Some in Hk as [<- <-]. by right.
Qed.

Lemma sample_dict quota : dict (sample_mem quota) 1 sample_table sample_map.
Proof.
  constructor.
  - done.
  - apply sample_table_spec.
  - apply sample_mem_wf.
  - by vm_compute.
  - intros k. rewrite (proj2 sample_table_spec). unfold sample_map.
    destruct (decide (k = name)) as [->|Hn]; [done|]. destruct (decide (k = age)) as [->|Ha]; [done|].
    by rewrite !lookup_insert_ne, !lookup_singleton_ne by done.
  - intros k b Hk. apply sample_lookup in Hk as [[-> ->]|[-> ->]]; by eexists.
  - intros (k & b & Hk & Ho). apply sample_lookup in Hk as [[-> ->]|[-> ->]]; done.
  - intros k1 k2 b1 b2 q H1 H2 Ho1 Ho2.
    apply sample_lookup in H1 as [[-> ->]|[-> ->]], H2 as [[-> ->]|[-> ->]]; done.
Qed.

Lemma sample_inuse : h_inuse sample_table = 2.
Proof. by vm_compute. Qed.

(** ** A vector *)

Definition int_element (z : Z) : im_vector_bucket := VectorBucket IM_INT 4 (int_value z).

Definition sample_vector : im_vector := Vector 2 2 0 0 [int_element 10; int_element 20].

Definition vector_mem (quota : nat) : mem :=
  Mem {[ (1%positive, 0) := CVector sample_vector; (3%positive, 0) := CBytes [7] ]} 4 quota.

Lemma vector_mem_wf quota : mem_wf (vector_mem quota).
Proof.
  exact (mem_wf_list [((1%positive, 0), CVector sample_vector); ((3%positive, 0), CBytes [7])] 4 quota
    ltac:(by repeat constructor)).
Qed.

Lemma sample_vector_wf : vector_wf sample_vector.
Proof. constructor; [done|done|done|done|by repeat constructor]. Qed.

Lemma mem_empty_wf quota : mem_wf (mem_empty quota).
Proof. intros k c Hk. cbn in Hk. by rewrite lookup_empty in Hk. Qed.
