(* ===== verification/DictTheorems.v ===== *)
(** * What the dictionary library guarantees

    The theorems on hash tables, vectors and dictionaries, each applied to a
    concrete world of [Samples]. *)

From Stdlib Require Import Floats.SpecFloat.
From S2P Require Import Prelude LibC PrimeTable CFloat ImTypes ImHashTable ImTable ImInsert ImVector Beai3Dict DictFacts DictLife DictMachine Samples.

(** ** The dictionary as a whole *)

(** C1: a dictionary made by [InitDict] behaves, under any sequence of calls
    (integers, doubles, texts and blocks set, read, deleted, counted, cleared),
    as a finite map from keys to values: every answer is the one of the
    specification, an undefined conversion is undefined in both, and no block
    of memory that was there before is touched.  Three allocations a call are
    enough, and every rehash on the way is covered. *)
Theorem dictionary_refines_map junk capacity ops m :
  mem_wf m -> 0 <= capacity < 1073741824 -> Forall op_ok ops ->
  4 * Z.of_nat (length ops) < 999983 -> (S (3 * length ops) <= m_quota m)%nat ->
  match spec_ops ops ∅ with
  | Ok (replies, D) => exists blk m' h,
      (handle ← InitDict capacity; perform_ops junk ops handle) m = Ok ((replies, Some (blk, 0)), m') /\
      dict m' blk h D /\ (forall k, (k.1 < m_next m)%positive -> m_cells m' !! k = m_cells m !! k)
  | Fault => (handle ← InitDict capacity; perform_ops junk ops handle) m = Fault
  | NoFuel => (handle ← InitDict capacity; perform_ops junk ops handle) m = NoFuel
  end.
Proof.
  intros Hm Hc Hops Hlen Hq.
  destruct (init_dict_run capacity m Hm Hc ltac:(lia)) as (m1 & h1 & Hrun & Hd & _ & _ & Hq1 & Hfr).
  pose proof (perform_ops_simulates junk ops m1 (m_next m) h1 ∅ Hd Hops) as Hs.
  rewrite map_size_empty in Hs. specialize (Hs ltac:(lia) ltac:(lia)). unfold simulates in Hs.
  destruct (spec_ops ops ∅) as [[replies D]| |]; [|by run Hrun..].
  destruct Hs as (nb & m2 & h2 & Hrun2 & Hd2 & Hfr2 & _). exists nb, m2, h2. run Hrun. split_and!; [done|done|].
  intros k Hk. rewrite <- Hfr by done. pose proof (blk_below _ _ _ _ Hd).
  apply Hfr2; [lia| |lia]. intros (k' & b & Hb & _).
  destruct (d_lookup _ _ _ _ Hd _ _ Hb) as (v & _ & Hv). by rewrite lookup_empty in Hv.
Qed.

Definition sample_ops : list dict_op :=
  [OpSetInt age 41; OpSetString name long_text; OpSetInt name 7; OpGetInt name; OpGetString age 3; OpDelete age;
   OpGetInt age; OpCount].

Lemma dictionary_refines_map_witness :
  exists blk m' h,
    (handle ← InitDict 0; perform_ops 0 sample_ops handle) (mem_empty 40)
      = Ok (([RDone true; RDone true; RDone true; RInt (0, Some 7); RBytes (2, Some (lit "41" ++ [0])); RDone true;
              RInt (-1, None); RCount 1], Some (blk, 0)), m') /\
    dict m' blk h {[ name := DInt 7 ]}.
Proof.
  assert (spec_ops sample_ops ∅ = Ok ([RDone true; RDone true; RDone true; RInt (0, Some 7);
    RBytes (2, Some (lit "41" ++ [0])); RDone true; RInt (-1, None); RCount 1], {[ name := DInt 7 ]})) as Hspec
    by (vm_compute; reflexivity).
  assert (Forall op_ok sample_ops) as Hops by (by repeat constructor).
  assert (0 <= 0 < 1073741824) as Hc by lia.
  assert (4 * Z.of_nat (length sample_ops) < 999983) as Hl by done.
  assert (S (3 * length sample_ops) <= m_quota (mem_empty 40))%nat as Hq by (apply Nat.leb_le; reflexivity).
  pose proof (dictionary_refines_map 0 0 sample_ops (mem_empty 40) (mem_empty_wf 40) Hc Hops Hl Hq) as H.
  rewrite Hspec in H. destruct H as (blk & m' & h & Hrun & Hd & _). exists blk, m', h. exact (conj Hrun Hd).
Defined.

(** ** Hash tables *)

(** C13: the search for a key in a well-formed table ends after fewer than n/2
    collisions, at the first bucket of the probe sequence that is empty or
    holds an equal key. *)
Theorem find_element_terminates h key :
  table_wf h ->
  exists (c : nat) b, 2 * Z.of_nat c < h_number_of_buckets h /\
    im_find_element h key = Ok (probe_of h key (Z.of_nat c)) /\
    zget (h_buckets h) (probe_of h key (Z.of_nat c)) = Ok b /\ im_stop b key = true /\
    forall j, 0 <= j < Z.of_nat c ->
      forall b', zget (h_buckets h) (probe_of h key j) = Ok b' -> im_stop b' key = false.
Proof.
  intros Hwf. destruct (find_element_spec h (tw_shape _ Hwf) key) as (c & b & Hc & Hf & Hb & Hs & Hfirst).
  exists c, b. split_and!; [done..|]. intros j Hj b' Hb'. specialize (Hfirst j Hj).
  unfold stops_at in Hfirst. rewrite Hb' in Hfirst. destruct (im_stop b' key) eqn:E; [|done].
  destruct Hfirst. eauto.
Qed.

Lemma find_element_terminates_witness :
  exists (c : nat) b, 2 * Z.of_nat c < 7 /\ im_find_element sample_table name = Ok (probe_of sample_table name (Z.of_nat c)) /\
    zget (h_buckets sample_table) (probe_of sample_table name (Z.of_nat c)) = Ok b /\ im_stop b name = true.
Proof.
  destruct (find_element_terminates sample_table name (proj1 sample_table_spec)) as (c & b & Hc & Hf & Hb & Hs & _).
  exists c, b. exact (conj Hc (conj Hf (conj Hb Hs))).
Defined.

(** [im_retrieve_element_by_key] is lookup in the map from normalised keys
    to live buckets; deleted and empty buckets are not found. *)
Theorem retrieve_is_lookup h key :
  table_wf h -> im_retrieve_element_by_key h key = Ok (table_map h !! key_of key).
Proof. intros Hwf. by apply retrieve_by_key_map. Qed.

Lemma retrieve_is_lookup_witness :
  im_retrieve_element_by_key sample_table (age ++ [0; 7]) = Ok (Some age_bucket).
Proof.
  rewrite (retrieve_is_lookup sample_table (age ++ [0; 7]) (proj1 sample_table_spec)).
  rewrite (proj2 sample_table_spec). reflexivity.
Defined.

(** C11: [im_insert_element] is insertion into that map for a new key and
    refuses (-1) a key that is there; it keeps the table well formed, moves it
    to a larger block when it must be rehashed, takes the attached objects
    along, frees the old block and touches no other. *)
Theorem insert_is_map_insertion fuel m b h bk :
  m_cells m !! (b, 0) = Some (CHash h) -> table_wf h -> mem_wf m -> 4 * h_inuse h < 999983 ->
  0 <= h_attached_offset h -> is_free bk = false -> (2 <= m_quota m)%nat ->
  exists r nb m' h', im_insert_element (S (S fuel)) (Some (b, 0)) bk m = Ok ((r, Some (nb, 0)), m') /\
    moved m b h m' nb h' /\
    match table_map h !! key_of (hb_key bk) with
    | None => 0 <= r /\ table_map h' = <[key_of (hb_key bk) := bk]> (table_map h) /\ h_inuse h' = h_inuse h + 1
    | Some _ => r = -1 /\ table_map h' = table_map h /\ h_inuse h' = h_inuse h
    end.
Proof. intros Ha Hwf Hm Hi Ho Hl Hq. by apply insert_element_run. Qed.

Definition city_bucket : im_hash_bucket := HashBucket (key_field (lit "city") 0) IM_INT 4 (int_value 1).

Lemma insert_is_map_insertion_witness :
  exists r nb m' h', im_insert_element 2 (Some (1%positive, 0)) city_bucket (sample_mem 5) = Ok ((r, Some (nb, 0)), m') /\
    moved (sample_mem 5) 1 sample_table m' nb h' /\
    table_map h' = <[lit "city" := city_bucket]> (table_map sample_table).
Proof.
  assert (4 * h_inuse sample_table < 999983) as Hi by (rewrite sample_inuse; lia).
  assert (2 <= m_quota (sample_mem 5))%nat as Hq by (apply Nat.leb_le; reflexivity).
  assert (0 <= h_attached_offset sample_table) as Ho by (apply Z.leb_le; vm_compute; reflexivity).
  assert (table_map sample_table !! key_of (hb_key city_bucket) = None) as Hn
    by (rewrite (proj2 sample_table_spec); reflexivity).
  destruct (insert_is_map_insertion 0 (sample_mem 5) 1 sample_table city_bucket eq_refl (proj1 sample_table_spec)
    (sample_mem_wf 5) Hi Ho eq_refl Hq) as (r & nb & m' & h' & Hrun & Hmv & Hres).
  rewrite Hn in Hres. destruct Hres as (_ & Hmap & _). exists r, nb, m', h'. exact (conj Hrun (conj Hmv Hmap)).
Defined.

(** C12: a rehash, while memory lasts, gives a well-formed table with the same
    map and more than four times as many buckets as elements, behind which the
    attached objects lie at the same offsets; the old table is freed and no
    other block changes. *)
Theorem rehash_preserves_table fuel m b h :
  m_cells m !! (b, 0) = Some (CHash h) -> table_wf h -> mem_wf m -> 4 * h_inuse h < 999983 ->
  0 <= h_attached_offset h -> (2 <= m_quota m)%nat ->
  exists nb m' h', im_rehash_hashtable_with (im_insert_element (S fuel)) (Some (b, 0)) m = Ok ((0, Some (nb, 0)), m') /\
    table_wf h' /\ table_map h' = table_map h /\ 4 * h_inuse h < h_number_of_buckets h' /\
    (forall o c, 0 <= o < h_attached_offset h -> m_cells m !! (b, hash_size (h_number_of_buckets h) + o) = Some c ->
       m_cells m' !! (nb, hash_size (h_number_of_buckets h') + o) = Some c) /\
    (forall o, m_cells m' !! (b, o) = None) /\
    (forall k, k.1 <> b -> (k.1 < m_next m)%positive -> m_cells m' !! k = m_cells m !! k).
Proof.
  intros Ha Hwf Hm Hi Ho Hq. destruct (rehash_run fuel m b h Ha Hwf Hm Hi Ho Hq) as (nb & m' & h' & Hrun & []).
  exists nb, m', h'. destruct rh_transfer. by split_and!.
Qed.

Lemma rehash_preserves_table_witness :
  exists nb m' h', im_rehash_hashtable_with (im_insert_element 1) (Some (1%positive, 0)) (sample_mem 5)
      = Ok ((0, Some (nb, 0)), m') /\ table_map h' = table_map sample_table /\ 8 < h_number_of_buckets h'.
Proof.
  assert (4 * h_inuse sample_table < 999983) as Hi by (rewrite sample_inuse; lia).
  assert (2 <= m_quota (sample_mem 5))%nat as Hq by (apply Nat.leb_le; reflexivity).
  assert (0 <= h_attached_offset sample_table) as Ho by (apply Z.leb_le; vm_compute; reflexivity).
  destruct (rehash_preserves_table 0 (sample_mem 5) 1 sample_table eq_refl (proj1 sample_table_spec)
    (sample_mem_wf 5) Hi Ho Hq) as (nb & m' & h' & Hrun & _ & Hmap & Hn & _).
  rewrite sample_inuse in Hn. exists nb, m', h'. exact (conj Hrun (conj Hmap Hn)).
Defined.

(** When the insertion needs a rehash and there is no memory for it, the
    call fails with -1 and nothing has changed. *)
Theorem insert_without_memory fuel m b h bk :
  m_cells m !! (b, 0) = Some (CHash h) -> table_wf h -> 4 * h_inuse h < 999983 -> is_free bk = false ->
  im_must_rehash h = true -> m_quota m = 0%nat ->
  im_insert_element (S (S fuel)) (Some (b, 0)) bk m = Ok ((-1, Some (b, 0)), m).
Proof. intros Ha Hwf Hi Hl Hr Hq. by eapply insert_element_no_memory. Qed.

(** A table of three buckets is to be rehashed once it has one. *)
Definition full_table : im_hashtable := put_in (empty_hashtable 3) age_bucket.

Lemma insert_without_memory_witness :
  im_insert_element 2 (Some (1%positive, 0)) city_bucket (Mem {[ (1%positive, 0) := CHash full_table ]} 2 0)
    = Ok ((-1, Some (1%positive, 0)), Mem {[ (1%positive, 0) := CHash full_table ]} 2 0).
Proof.
  assert (Z.prime 3) as H3 by (apply is_prime_spec; reflexivity).
  destruct (put_in_spec (empty_hashtable 3) age_bucket) as [Hwf _];
    [apply empty_hashtable_wf; [exact H3|reflexivity|lia]|reflexivity|reflexivity|by rewrite empty_hashtable_map|].
  assert (h_inuse full_table = 1) as Hi by (vm_compute; reflexivity).
  apply (insert_without_memory 0 _ 1 full_table city_bucket); [reflexivity|exact Hwf|rewrite Hi; lia|reflexivity| |reflexivity].
  vm_compute. reflexivity.
Defined.

(** ** Setters *)

(** Each of the eleven numeric setters answers a position, leaves the
    dictionary with that one key changed to the number, whatever was there,
    and touches no block the dictionary did not own. *)
Theorem number_setters_insert fuel m blk h D key z f :
  dict m blk h D -> 4 * h_inuse h < 999983 -> (2 <= m_quota m)%nat ->
  let handle := Some (Some (blk, 0)) in
  let int_set o := dict_becomes (λ r, 0 <= r) m blk h (<[key_of key := DInt z]> D) (o m) in
  let float_set o := dict_becomes (λ r, 0 <= r) m blk h (<[key_of key := DFloat f]> D) (o m) in
  (int_set (SetDictShort (S (S fuel)) handle (Some key) z) /\ int_set (SetDictInt (S (S fuel)) handle (Some key) z) /\
   int_set (SetDictLong (S (S fuel)) handle (Some key) z) /\ int_set (SetDictLongLong (S (S fuel)) handle (Some key) z) /\
   int_set (SetDictUShort (S (S fuel)) handle (Some key) z) /\ int_set (SetDictUInt (S (S fuel)) handle (Some key) z) /\
   int_set (SetDictULong (S (S fuel)) handle (Some key) z) /\
   int_set (SetDictULongLong (S (S fuel)) handle (Some key) z)) /\
  float_set (SetDictFloat (S (S fuel)) handle (Some key) f) /\
  float_set (SetDictDouble (S (S fuel)) handle (Some key) f) /\
  float_set (SetDictLongDouble (S (S fuel)) handle (Some key) f).
Proof.
  intros Hd Hi Hq. split_and!; by apply (set_scalar_run m blk h D key Hd).
Qed.

Lemma number_setters_insert_witness :
  dict (sample_mem 9) 1 sample_table sample_map /\
  dict_becomes (λ r, 0 <= r) (sample_mem 9) 1 sample_table (<[name := DInt 12]> sample_map)
    (SetDictInt 2 (Some (Some (1%positive, 0))) (Some name) 12 (sample_mem 9)).
Proof.
  assert (4 * h_inuse sample_table < 999983) as Hi by (rewrite sample_inuse; lia).
  assert (2 <= m_quota (sample_mem 9))%nat as Hq by (apply Nat.leb_le; reflexivity).
  split; [apply sample_dict|].
  exact (proj1 (proj2 (proj1 (number_setters_insert 0 (sample_mem 9) 1 sample_table sample_map name 12 S754_nan
    (sample_dict 9) Hi Hq)))).
Defined.

(** [SetDictString] stores a copy of the text up to its NUL, in the bucket
    or in a block of its own, under that one key. *)
Theorem set_string_inserts junk fuel m blk h D key value n :
  dict m blk h D -> strlen value = Ok n -> n < VALUE_MAX_LENGTH -> 4 * h_inuse h < 999983 -> (3 <= m_quota m)%nat ->
  dict_becomes (λ r, 0 <= r) m blk h (<[key_of key := DText (content value ++ [0])]> D)
    (SetDictString junk (S (S fuel)) (Some (Some (blk, 0))) (Some key) (Some value) m).
Proof. intros Hd Hn Hmax Hi Hq. by eapply set_string_run. Qed.

Lemma set_string_inserts_witness :
  dict_becomes (λ r, 0 <= r) (sample_mem 9) 1 sample_table (<[age := DText long_text]> sample_map)
    (SetDictString 0 2 (Some (Some (1%positive, 0))) (Some age) (Some (long_text ++ [5])) (sample_mem 9)).
Proof.
  assert (4 * h_inuse sample_table < 999983) as Hi by (rewrite sample_inuse; lia).
  assert (3 <= m_quota (sample_mem 9))%nat as Hq by (apply Nat.leb_le; reflexivity).
  exact (set_string_inserts 0 0 (sample_mem 9) 1 sample_table sample_map age (long_text ++ [5]) 33
    (sample_dict 9) eq_refl eq_refl Hi Hq).
Defined.

(** A text of a megabyte or more is refused with -1, but the entry the key
    had is gone: the setter deletes before it checks. *)
Theorem set_string_too_long_deletes junk fuel m blk h D key value n :
  dict m blk h D -> strlen value = Ok n -> VALUE_MAX_LENGTH <= n ->
  dict_becomes (λ r, r = -1) m blk h (delete (key_of key) D)
    (SetDictString junk (S fuel) (Some (Some (blk, 0))) (Some key) (Some value) m).
Proof. intros Hd Hn Hmax. by eapply set_string_refused. Qed.

Lemma strlen_replicate k n r : 0 < k < 256 -> strlen (replicate n k ++ 0 :: r) = Ok (Z.of_nat n).
Proof.
  intros Hk. rewrite strlen_app; [unfold zlen; by rewrite length_replicate|]. by apply Forall_replicate.
Qed.

Lemma set_string_too_long_deletes_witness :
  dict_becomes (λ r, r = -1) (sample_mem 9) 1 sample_table (delete age sample_map)
    (SetDictString 0 1 (Some (Some (1%positive, 0))) (Some age)
       (Some (replicate (Z.to_nat VALUE_MAX_LENGTH) 65 ++ [0])) (sample_mem 9)).
Proof.
  assert (strlen (replicate (Z.to_nat VALUE_MAX_LENGTH) 65 ++ [0]) = Ok (Z.of_nat (Z.to_nat VALUE_MAX_LENGTH))) as Hn
    by (apply strlen_replicate; lia).
  assert (VALUE_MAX_LENGTH <= Z.of_nat (Z.to_nat VALUE_MAX_LENGTH)) as Hmax by (unfold VALUE_MAX_LENGTH; lia).
  exact (set_string_too_long_deletes 0 0 (sample_mem 9) 1 sample_table sample_map age _ _ (sample_dict 9) Hn Hmax).
Defined.

(** [SetDictBlock] stores a copy of the first [size] bytes under that one
    key. *)
Theorem set_block_inserts junk fuel m blk h D key value size :
  dict m blk h D -> 0 <= size <= zlen value -> size <= VALUE_MAX_LENGTH ->
  4 * h_inuse h < 999983 -> (3 <= m_quota m)%nat ->
  dict_becomes (λ r, 0 <= r) m blk h (<[key_of key := DBlock (take (Z.to_nat size) value)]> D)
    (SetDictBlock junk (S (S fuel)) (Some (Some (blk, 0))) (Some key) (Some value) size m).
Proof. intros Hd Hs Hmax Hi Hq. by apply set_block_run. Qed.

Lemma set_block_inserts_witness :
  dict_becomes (λ r, 0 <= r) (sample_mem 9) 1 sample_table (<[age := DBlock [1; 0; 2]]> sample_map)
    (SetDictBlock 0 2 (Some (Some (1%positive, 0))) (Some age) (Some [1; 0; 2; 9]) 3 (sample_mem 9)).
Proof.
  assert (4 * h_inuse sample_table < 999983) as Hi by (rewrite sample_inuse; lia).
  assert (3 <= m_quota (sample_mem 9))%nat as Hq by (apply Nat.leb_le; reflexivity).
  assert (0 <= 3 <= zlen [1; 0; 2; 9]) as Hs by (split; apply Z.leb_le; reflexivity).
  assert (3 <= VALUE_MAX_LENGTH) as Hmax by (unfold VALUE_MAX_LENGTH; lia).
  exact (set_block_inserts 0 0 (sample_mem 9) 1 sample_table sample_map age [1; 0; 2; 9] 3 (sample_dict 9) Hs Hmax Hi Hq).
Defined.

(** ** Getters *)

(** Each of the eleven numeric getters answers 0 and the number the key
    has, converted to its type (an integer wraps around, a floating-point value
    is truncated or rounded, a text is parsed), and -1 for a block or an absent
    key; the memory is as before. *)
Theorem number_getters_convert m blk h D key :
  dict m blk h D ->
  let v := D !! key_of key in
  let handle := Some (blk, 0) in
  (GetDictShort handle (Some key) true m = lift (number_of_value s16 to_short (λ s, Ok (s16 (atoi s))) v) m /\
   GetDictInt handle (Some key) true m = lift (number_of_value s32 to_int (λ s, Ok (s32 (atoi s))) v) m /\
   GetDictLong handle (Some key) true m = lift (number_of_value s64 to_long (λ s, Ok (s64 (atol s))) v) m /\
   GetDictLongLong handle (Some key) true m = lift (number_of_value s64 to_long (λ s, Ok (s64 (atoll s))) v) m /\
   GetDictUShort handle (Some key) true m = lift (number_of_value u16 to_ushort (λ s, Ok (u16 (atoi s))) v) m /\
   GetDictUInt handle (Some key) true m = lift (number_of_value u32 to_uint (λ s, Ok (u32 (atoi s))) v) m /\
   GetDictULong handle (Some key) true m = lift (number_of_value u64 to_ulong (λ s, Ok (u64 (atol s))) v) m /\
   GetDictULongLong handle (Some key) true m = lift (number_of_value u64 to_ulong (λ s, Ok (u64 (atoll s))) v) m) /\
  forall t get, (t, get) ∈ [(binary32, GetDictFloat); (binary64, GetDictDouble); (x87, GetDictLongDouble)] ->
    get handle (Some key) true m =
      lift (number_of_value (float_of_Z t) (λ f, Ok (float_round t f)) (λ s, Ok (float_round t (atof s))) v) m.
Proof.
  intros Hd. split; [split_and!; by apply (get_number_run m blk h D Hd)|].
  intros t get Hin. repeat (apply elem_of_cons in Hin as [[= -> ->]|Hin]; [by apply (get_number_run m blk h D Hd)|]).
  by apply not_elem_of_nil in Hin.
Qed.

Lemma number_getters_convert_witness :
  GetDictShort (Some (1%positive, 0)) (Some age) true (sample_mem 0) = Ok ((0, Some 41), sample_mem 0) /\
  GetDictInt (Some (1%positive, 0)) (Some (lit "none")) true (sample_mem 0) = Ok ((-1, None), sample_mem 0).
Proof.
  split.
  - rewrite (proj1 (proj1 (number_getters_convert (sample_mem 0) 1 sample_table sample_map age (sample_dict 0)))).
    reflexivity.
  - rewrite (proj1 (proj2 (proj1 (number_getters_convert (sample_mem 0) 1 sample_table sample_map (lit "none") (sample_dict 0))))).
    reflexivity.
Defined.

(** [GetDictString] answers the length of the text it leaves in the
    caller's buffer: the first [size - 1] bytes of a text, or a number printed
    and cut the same way; -1 for a block or an absent key. *)
Theorem get_string_copies m blk h D key size :
  dict m blk h D -> 0 < size < 2147483648 ->
  let k := Z.to_nat (size - 1) in
  GetDictString (Some (blk, 0)) (Some key) true size m =
    match D !! key_of key with
    | Some (DText text) =>
        Ok ((Z.min (zlen (content text)) (size - 1),
             Some (take k (content text) ++ 0 :: replicate (k - length (content text)) 0)), m)
    | Some (DInt z) => (n ← lift (strlen (take k (dec z) ++ [0])); mret (s32 n, Some (take k (dec z) ++ [0]))) m
    | Some (DFloat f) =>
        (n ← lift (strlen (take k (print_2f f) ++ [0])); mret (s32 n, Some (take k (print_2f f) ++ [0]))) m
    | Some (DBlock _) | None => Ok ((-1, None), m)
    end.
Proof.
  intros Hd Hs k. destruct (D !! key_of key) as [[z|f|text|block]|] eqn:E.
  3: by apply (get_text_run m blk h D).
  all: rewrite (get_string_run m blk h D Hd) by lia; rewrite E; reflexivity.
Qed.

Lemma get_string_copies_witness :
  GetDictString (Some (1%positive, 0)) (Some name) true 7 (sample_mem 0) =
    Ok ((6, Some (lit "a text" ++ [0])), sample_mem 0) /\
  GetDictString (Some (1%positive, 0)) (Some age) true 2 (sample_mem 0) = Ok ((1, Some (lit "4" ++ [0])), sample_mem 0).
Proof.
  assert (0 < 7 < 2147483648) as H7 by lia. assert (0 < 2 < 2147483648) as H2 by lia.
  split.
  - rewrite (get_string_copies (sample_mem 0) 1 sample_table sample_map name 7 (sample_dict 0) H7). reflexivity.
  - rewrite (get_string_copies (sample_mem 0) 1 sample_table sample_map age 2 (sample_dict 0) H2). reflexivity.
Defined.

(** [GetDictBlock] copies the first [size] bytes of a block, or all of a
    shorter one, and answers their number; any other value, and an absent key,
    is -1. *)
Theorem get_block_copies m blk h D key size :
  dict m blk h D -> 0 < size < 2147483648 ->
  GetDictBlock (Some (blk, 0)) (Some key) true size m =
    match D !! key_of key with
    | Some (DBlock s) => Ok ((zlen (take (Z.to_nat size) s), Some (take (Z.to_nat size) s)), m)
    | _ => Ok ((-1, None), m)
    end.
Proof.
  intros Hd Hs. rewrite (get_block_run m blk h D Hd) by done. by destruct (D !! key_of key) as [[]|].
Qed.

Lemma get_block_copies_witness :
  GetDictBlock (Some (1%positive, 0)) (Some age) true 7 (sample_mem 0) = Ok ((-1, None), sample_mem 0).
Proof.
  assert (0 < 7 < 2147483648) as H7 by lia.
  rewrite (get_block_copies (sample_mem 0) 1 sample_table sample_map age 7 (sample_dict 0) H7). reflexivity.
Defined.

(** What [SetDictString] stored, [GetDictString] reads back through the
    handle the setter wrote: the whole text when the buffer holds it, else its
    first [size - 1] bytes, always terminated. *)
Theorem string_round_trip junk fuel m blk h D key value n size :
  dict m blk h D -> strlen value = Ok n -> n < VALUE_MAX_LENGTH -> 4 * h_inuse h < 999983 -> (3 <= m_quota m)%nat ->
  0 < size < 2147483648 ->
  exists r handle m' buf, SetDictString junk (S (S fuel)) (Some (Some (blk, 0))) (Some key) (Some value) m
      = Ok ((r, Some handle), m') /\ 0 <= r /\
    GetDictString handle (Some key) true size m' = Ok ((Z.min n (size - 1), Some buf), m') /\
    content buf = take (Z.to_nat (size - 1)) (content value) /\ zlen buf = size.
Proof.
  intros Hd Hn Hmax Hi Hq Hs.
  destruct (set_string_run m blk h D key Hd junk fuel value n Hn Hmax Hi Hq)
    as (r & nb & m' & h' & Hrun & Hr & Hd' & _).
  eexists r, (Some (nb, 0)), m', _. split; [exact Hrun|]. split; [exact Hr|].
  pose proof (content_nonzero value) as Hz. apply strlen_content in Hn.
  assert (content (content value ++ [0]) = content value) as Hc
    by (rewrite content_nonzero_app by done; simpl; apply app_nil_r).
  split; [|split].
  - rewrite (get_text_run m' nb h' _ key size _ Hd' Hs (lookup_insert_eq _ _ _)), Hc, Hn. reflexivity.
  - rewrite content_nonzero_app by (by apply Forall_take). simpl. apply app_nil_r.
  - rewrite zlen_app, zlen_cons. unfold zlen in *. rewrite length_take, length_replicate. lia.
Qed.

Lemma string_round_trip_witness :
  exists r handle m' buf, SetDictString 0 2 (Some (Some (1%positive, 0))) (Some age) (Some long_text) (sample_mem 9)
      = Ok ((r, Some handle), m') /\ GetDictString handle (Some age) true 7 m' = Ok ((6, Some buf), m') /\
    content buf = lit "a text".
Proof.
  assert (4 * h_inuse sample_table < 999983) as Hi by (rewrite sample_inuse; lia).
  assert (3 <= m_quota (sample_mem 9))%nat as Hq by (apply Nat.leb_le; reflexivity).
  assert (0 < 7 < 2147483648) as H7 by lia.
  destruct (string_round_trip 0 0 (sample_mem 9) 1 sample_table sample_map age long_text 33 7
    (sample_dict 9) eq_refl eq_refl Hi Hq H7) as (r & handle & m' & buf & Hrun & _ & Hget & Hc & _).
  exists r, handle, m', buf. exact (conj Hrun (conj Hget Hc)).
Defined.

(** ** Life cycle *)

(** [InitDict] gives an empty dictionary in a fresh block, whose bucket
    count is the least odd prime above twice the capacity, or the largest of
    the table of primes when there is none. *)
Theorem init_dict_is_empty capacity m :
  mem_wf m -> 0 <= capacity < 1073741824 -> (1 <= m_quota m)%nat ->
  exists m' h, InitDict capacity m = Ok (Some (m_next m, 0), m') /\ dict m' (m_next m) h ∅ /\
    (2 * capacity < h_number_of_buckets h \/ h_number_of_buckets h = 999983) /\
    (forall q, Z.prime q -> 2 < q -> 2 * capacity < q -> h_number_of_buckets h <= q) /\
    (forall k, (k.1 < m_next m)%positive -> m_cells m' !! k = m_cells m !! k).
Proof.
  intros Hm Hc Hq. destruct (init_dict_run capacity m Hm Hc Hq) as (m' & h & Hrun & Hd & Hn & Hleast & _ & Hfr).
  exists m', h. by split_and!.
Qed.

Lemma init_dict_is_empty_witness :
  exists m' h, InitDict 5 (mem_empty 1) = Ok (Some (1%positive, 0), m') /\ dict m' 1 h ∅ /\ 10 < h_number_of_buckets h.
Proof.
  assert (0 <= 5 < 1073741824) as Hc by lia. assert (1 <= m_quota (mem_empty 1))%nat as Hq by (apply Nat.leb_le; reflexivity).
  destruct (init_dict_is_empty 5 (mem_empty 1) (mem_empty_wf 1) Hc Hq) as (m' & h & Hrun & Hd & Hn & _).
  exists m', h. split; [exact Hrun|split; [exact Hd|destruct Hn; lia]].
Defined.

(** [DeleteDict] answers a position and removes the key, freeing the block
    of its value; an absent key is -1 and changes nothing. *)
Theorem delete_dict_deletes fuel m blk h D key :
  dict m blk h D ->
  exists r m' h', DeleteDict (S fuel) (Some (blk, 0)) key m = Ok (r, m') /\ dict m' blk h' (delete (key_of key) D) /\
    frame m blk h m' /\ match D !! key_of key with Some _ => 0 <= r | None => r = -1 /\ m' = m end.
Proof.
  intros Hd. destruct (delete_dict_by_key m blk h D Hd fuel key) as (r & m' & h' & Hrun & Hd' & [Hfr] & Hr).
  by exists r, m', h'.
Qed.

Lemma delete_dict_deletes_witness :
  exists r m' h', DeleteDict 1 (Some (1%positive, 0)) name (sample_mem 0) = Ok (r, m') /\ 0 <= r /\
    dict m' 1 h' {[ age := DInt 41 ]} /\ m_cells m' !! (3%positive, 0) = Some (CBytes [7]).
Proof.
  destruct (delete_dict_deletes 0 (sample_mem 0) 1 sample_table sample_map name (sample_dict 0))
    as (r & m' & h' & Hrun & Hd & Hfr & Hr).
  assert (sample_map !! key_of name = Some (DText long_text)) as Hl by reflexivity. rewrite Hl in Hr.
  assert (delete (key_of name) sample_map = {[ age := DInt 41 ]}) as Hm by (vm_compute; reflexivity). rewrite Hm in Hd.
  exists r, m', h'. split; [exact Hrun|split; [exact Hr|split; [exact Hd|]]]. rewrite Hfr; [reflexivity|discriminate| |reflexivity].
  intros (k & b & Hb & Ho). apply sample_lookup in Hb as [[-> ->]|[-> ->]]; discriminate.
Defined.

(** [DestroyDict] frees the table and every block its values own, once
    each, and nothing else. *)
Theorem destroy_dict_frees_exactly fuel m blk h D :
  dict m blk h D ->
  exists m', DestroyDict (S (S fuel)) (Some (blk, 0)) m = Ok (tt, m') /\
    (forall k, k.1 = blk \/ owns h k.1 -> m_cells m' !! k = None) /\
    (forall k, k.1 <> blk -> ~ owns h k.1 -> m_cells m' !! k = m_cells m !! k).
Proof. intros Hd. by eapply destroy_run. Qed.

Lemma destroy_dict_frees_exactly_witness :
  exists m', DestroyDict 2 (Some (1%positive, 0)) (sample_mem 0) = Ok (tt, m') /\
    m_cells m' !! (1%positive, 0) = None /\ m_cells m' !! (2%positive, 0) = None /\
    m_cells m' !! (3%positive, 0) = Some (CBytes [7]).
Proof.
  destruct (destroy_dict_frees_exactly 0 (sample_mem 0) 1 sample_table sample_map (sample_dict 0)) as (m' & Hrun & Hgone & Hkept).
  exists m'. split; [exact Hrun|]. split; [apply Hgone; left; reflexivity|]. split.
  - apply Hgone. right. exists name, name_bucket. rewrite (proj2 sample_table_spec). split; reflexivity.
  - rewrite Hkept; [reflexivity|discriminate|]. intros (k & b & Hb & Ho).
    apply sample_lookup in Hb as [[-> ->]|[-> ->]]; discriminate.
Defined.

(** [ClearDict] leaves an empty dictionary of the same capacity in the same
    block, frees the blocks of its values and changes nothing else. *)
Theorem clear_dict_empties fuel m blk h D :
  dict m blk h D ->
  exists m' h', ClearDict (S fuel) (Some (blk, 0)) m = Ok (tt, m') /\ dict m' blk h' ∅ /\
    h_number_of_buckets h' = h_number_of_buckets h /\
    (forall k, owns h k.1 -> m_cells m' !! k = None) /\
    (forall k, k.1 <> blk -> ~ owns h k.1 -> m_cells m' !! k = m_cells m !! k).
Proof.
  intros Hd. destruct (clear_run fuel m blk h D Hd) as (m' & h' & Hrun & Hd' & Hn & _ & _ & Hgone & Hkept).
  by exists m', h'.
Qed.

Lemma clear_dict_empties_witness :
  exists m' h', ClearDict 1 (Some (1%positive, 0)) (sample_mem 0) = Ok (tt, m') /\ dict m' 1 h' ∅ /\
    m_cells m' !! (2%positive, 0) = None.
Proof.
  destruct (clear_dict_empties 0 (sample_mem 0) 1 sample_table sample_map (sample_dict 0))
    as (m' & h' & Hrun & Hd & _ & Hgone & _).
  exists m', h'. split; [exact Hrun|split; [exact Hd|]]. apply Hgone. exists name, name_bucket.
  rewrite (proj2 sample_table_spec). split; reflexivity.
Defined.

(** [GetDictKeyv] lists the keys of the dictionary, each once, in the order
    of the buckets, and answers their number, cut to the size of the caller's
    array. *)
Theorem keyv_lists_keys m blk h D keyc :
  dict m blk h D ->
  exists keys, NoDup (key_of <$> keys) /\ (forall k, k ∈ key_of <$> keys <-> is_Some (D !! k)) /\
    GetDictKeyv (Some (blk, 0)) keyc m =
      Ok ((Z.min (Z.max 0 keyc) (Z.of_nat (size D)), take (Z.to_nat keyc) keys), m).
Proof.
  intros Hd. eexists. split; [|split; [|by apply keyv_run]]; by eapply keyv_keys.
Qed.

Lemma keyv_lists_keys_witness :
  exists keys, GetDictKeyv (Some (1%positive, 0)) 10 (sample_mem 0) = Ok ((2, take 10 keys), sample_mem 0) /\
    NoDup (key_of <$> keys).
Proof.
  destruct (keyv_lists_keys (sample_mem 0) 1 sample_table sample_map 10 (sample_dict 0)) as (keys & Hnd & _ & Hrun).
  exists keys. exact (conj Hrun Hnd).
Defined.

(** ** Vectors *)

(** [im_add_element] appends the element and answers its index; a full
    vector is first moved to a block of twice the size with its elements and
    its attached objects; no other block changes. *)
Theorem add_element_appends fuel m b v bk :
  m_cells m !! (b, 0) = Some (CVector v) -> vector_wf v -> mem_wf m ->
  v_number_of_buckets v < 268435456 -> vector_is_free bk = false -> (2 <= m_quota m)%nat ->
  exists nb m' v',
    im_add_element (S (S fuel)) (Some (b, 0)) bk m = Ok ((v_inuse v, Some (nb, 0)), m') /\
    vector_moved m b v m' nb v' /\ vector_seq v' = vector_seq v ++ [bk] /\
    v_number_of_buckets v' = (if v_inuse v <? v_number_of_buckets v then 1 else 2) * v_number_of_buckets v /\
    (forall i, -2147483648 <= i < 2147483648 ->
       im_get_element v' i = Ok (if i <? 0 then None else (vector_seq v ++ [bk]) !! Z.to_nat i)).
Proof.
  intros Ha Hwf Hm Hn Hb Hq.
  destruct (add_element_run fuel m b v bk Ha Hwf Hm Hn Hb Hq) as (nb & m' & v' & Hrun & Hmv & Hseq & _ & Hn').
  exists nb, m', v'. split_and!; [done..|]. intros i Hi. rewrite <- Hseq. apply get_element_seq; [apply Hmv|done].
Qed.

Lemma add_element_appends_witness :
  exists nb m' v', im_add_element 2 (Some (1%positive, 0)) (int_element 30) (vector_mem 5) = Ok ((2, Some (nb, 0)), m') /\
    vector_seq v' = [int_element 10; int_element 20; int_element 30] /\ v_number_of_buckets v' = 4.
Proof.
  assert (v_number_of_buckets sample_vector < 268435456) as Hn by (cbn; lia).
  assert (2 <= m_quota (vector_mem 5))%nat as Hq by (apply Nat.leb_le; reflexivity).
  destruct (add_element_appends 0 (vector_mem 5) 1 sample_vector (int_element 30) eq_refl sample_vector_wf
    (vector_mem_wf 5) Hn eq_refl Hq) as (nb & m' & v' & Hrun & _ & Hseq & Hn' & _).
  exists nb, m', v'. exact (conj Hrun (conj Hseq Hn')).
Defined.

(** On an element that is no dictionary and no array, [im_del_element]
    removes it and closes the gap, [im_set_element] replaces it; both free the
    block the old element owned and answer the index. *)
Theorem vector_element_changes fuel m blk v i b o b' :
  m_cells m !! (blk, 0) = Some (CVector v) -> vector_wf v -> 0 <= i < v_inuse v ->
  vector_seq v !! Z.to_nat i = Some b -> plain_element (m_cells m) b o -> o <> Some blk -> vector_is_free b' = false ->
  (exists v', im_del_element (S fuel) (Some (blk, 0)) i m = Ok (i, upd (blk, 0) (CVector v') (without o m)) /\
     vector_wf v' /\ vector_seq v' = delete (Z.to_nat i) (vector_seq v)) /\
  (exists v', im_set_element (S fuel) (Some (blk, 0)) i b' m = Ok (i, upd (blk, 0) (CVector v') (without o m)) /\
     vector_wf v' /\ vector_seq v' = <[Z.to_nat i := b']> (vector_seq v)).
Proof. intros Ha Hwf Hi Hb Hp Ho Hb'. by eapply vector_element_run. Qed.

Lemma vector_element_changes_witness :
  exists v', im_del_element 1 (Some (1%positive, 0)) 0 (vector_mem 0)
      = Ok (0, upd (1%positive, 0) (CVector v') (vector_mem 0)) /\ vector_seq v' = [int_element 20].
Proof.
  assert (0 <= 0 < v_inuse sample_vector) as Hi by (cbn; lia).
  destruct (proj1 (vector_element_changes 0 (vector_mem 0) 1 sample_vector 0 (int_element 10) None (int_element 5)
    eq_refl sample_vector_wf Hi eq_refl eq_refl ltac:(discriminate) eq_refl)) as (v' & Hrun & _ & Hseq).
  exists v'. exact (conj Hrun Hseq).
Defined.

(** A vector made with capacity 0 keeps capacity 0 when it grows, and the
    first element added is written out of its bounds. *)
Theorem capacity_0_out_of_bounds bk q :
  vector_is_free bk = false ->
  (p ← InitArray 0; im_add_element 2 p bk) (mem_empty (S (S q))) = Fault.
Proof. intros Hb. by apply add_element_capacity_0. Qed.

Lemma capacity_0_out_of_bounds_witness :
  (p ← InitArray 0; im_add_element 2 p (int_element 1)) (mem_empty 2) = Fault.
Proof. exact (capacity_0_out_of_bounds (int_element 1) 0 eq_refl). Defined.
