(* ===== verification/ImSerialize.v ===== *)
(** * Serialising and duplicating tables and vectors ([im_hashtable.c],
    [im_vector.c])

    [im_serialize_hashtable] and [im_serialize_vector] gather everything a table
    or a vector owns behind its buckets, in one block that can be copied as
    bytes.  The two files repeat the same static functions for their two kinds
    of bucket: they are written once over [Container], the members both
    structures have, and used at its two instances. *)

From S2P Require Import Prelude LibC CFloat ImTypes ImHashTable ImVector Beai3Dict.

(** ** What a table and a vector have in common *)

(** The members the two bucket structures end with. *)
Record entry : Type := Entry { e_info : im_info; e_length : Z; e_value : im_value }.

Definition hash_entry (b : im_hash_bucket) : entry := Entry (hb_info b) (hb_value_length b) (hb_value b).
Definition vector_entry (b : im_vector_bucket) : entry := Entry (vb_info b) (vb_value_length b) (vb_value b).

(** [c_size n] is [((T * )0)->buckets + n]; [c_count] bounds the loop over the
    buckets; [c_must_grow] is the test before the [realloc] of
    [attach_bucket], where the two files differ. *)
Class Container (C : Type) : Type := {
  c_cell : C -> cell;
  c_load : ptr -> M C;
  c_size : Z -> Z;
  c_number : C -> Z;
  c_count : C -> Z;
  c_attached_size : C -> Z;
  c_attached_offset : C -> Z;
  c_set_attached : Z -> Z -> C -> C;
  c_get : C -> Z -> outcome entry;
  c_put : C -> Z -> entry -> outcome C;
  c_must_grow : Z -> C -> bool;
}.

#[export] Instance hash_container : Container im_hashtable := {
  c_cell := CHash;
  c_load := load_hash;
  c_size := hash_size;
  c_number := h_number_of_buckets;
  c_count := h_number_of_buckets;
  c_attached_size := h_attached_size;
  c_attached_offset := h_attached_offset;
  c_set_attached := set_h_attached;
  c_get h i := b ← zget (h_buckets h) i; Ok (hash_entry b);
  c_put h i e :=
    b ← zget (h_buckets h) i;
    bs ← zset (h_buckets h) i (HashBucket (hb_key b) (e_info e) (e_length e) (e_value e));
    Ok (set_h_buckets bs h);
  c_must_grow attached_size h := h_attached_size h <? attached_size;
}.

#[export] Instance vector_container : Container im_vector := {
  c_cell := CVector;
  c_load := load_vector;
  c_size := vector_size;
  c_number := v_number_of_buckets;
  c_count := v_inuse;
  c_attached_size := v_attached_size;
  c_attached_offset := v_attached_offset;
  c_set_attached := set_v_attached;
  c_get v i := b ← zget (v_buckets v) i; Ok (vector_entry b);
  c_put v i e :=
    bs ← zset (v_buckets v) i (VectorBucket (e_info e) (e_length e) (e_value e));
    Ok (set_v_buckets bs v);
  c_must_grow attached_size v := v_attached_offset v <? attached_size;
}.

(** ** Memory *)

(** [alloca]: a block of the stack frame, which does not come from the heap
    and goes when the function returns. *)
Definition alloca : M ptr := λ m,
  Ok (Some (m_next m, 0), Mem (m_cells m) (m_next m + 1) (m_quota m)).
Definition leave_frame (p : ptr) : M unit := λ m,
  match p with Some (b, _) => Ok (tt, set_cells (drop_block b) m) | None => Fault end.

(** The bytes [s] written at [dst]: whatever lay there is overwritten. *)
Definition put_bytes (dst : ptr) (s : bytes) : M unit := λ m,
  match dst with
  | Some d => Ok (tt, set_cells (λ cs,
      <[d := CBytes s]> (filter (λ kc : addr * cell, in_area d (zlen s) kc.1 = false) cs)) m)
  | None => Fault
  end.

(** [memcpy] of the first [n] bytes of a run of bytes into a block. *)
Definition memcpy_bytes (dst src : ptr) (n : Z) : M unit :=
  s ← load_bytes src;
  s ← lift (if n <? 0 then Fault else take_bytes n s);
  put_bytes dst s.

(** ** Serialisation *)

(** The infos [attach_bucket] returns early for: the value is in the bucket, or
    there is none. *)
Definition is_inline (i : im_info) : bool :=
  match i with
  | IM_EMPTY | IM_DELETED | IM_SHORT | IM_INT | IM_LONG | IM_LONGLONG
  | IM_USHORT | IM_UINT | IM_ULONG | IM_ULONGLONG | IM_FLOAT | IM_DOUBLE | IM_LONGDOUBLE
  | IM_STRING | IM_BLOCK => true
  | _ => false
  end.

Definition is_external_object (i : im_info) : bool :=
  match i with IM_EXTERNAL_NESTED | IM_EXTERNAL_VECTOR => true | _ => false end.
Definition is_object (i : im_info) : bool :=
  match i with
  | IM_EXTERNAL_NESTED | IM_EXTERNAL_VECTOR | IM_ATTACHED_NESTED | IM_ATTACHED_VECTOR => true
  | _ => false
  end.

(** [while(value_length > attached_size - attached_offset) attached_size +=
    IM_ALLOCSIZE;]: one round per [IM_ALLOCSIZE] missing bytes. *)
Fixpoint room_loop (fuel : nat) (value_length attached_offset attached_size : Z) : outcome Z :=
  match fuel with
  | O => NoFuel
  | S fuel =>
      if attached_size - attached_offset <? value_length
      then room_loop fuel value_length attached_offset (attached_size + IM_ALLOCSIZE)
      else Ok attached_size
  end.

Definition room_for (value_length attached_offset attached_size : Z) : outcome Z :=
  room_loop (S (S (Z.to_nat ((value_length + attached_offset - attached_size) / IM_ALLOCSIZE))))
    value_length attached_offset attached_size.

Section container.
Context {C : Type} {HC : Container C}.
Implicit Types (p attached_buffer tmp : ptr) (position : Z).

Definition read_bucket p position : M entry := c ← c_load p; lift (c_get c position).
Definition write_bucket p position (e : entry) : M unit :=
  c ← c_load p; c ← lift (c_put c position e); store p (c_cell c).
Definition set_attached p (size offset : Z) : M unit :=
  c ← c_load p; store p (c_cell (c_set_attached size offset c)).

(** The first half of [serialize_bucket]: an attached object is copied out of
    the buffer into a block of its own; [false] when there is no memory. *)
Definition detach_bucket p position attached_buffer (attached_as : im_info) : M bool :=
  b ← read_bucket p position;
  match e_value b with
  | attached_object _ object_offset =>
      object_alloc ← alloc (CBytes (replicate (Z.to_nat (e_length b)) 0));
      match object_alloc with
      | None => mret false
      | Some _ =>
          memcpy object_alloc (ptr_add attached_buffer object_offset) (e_length b) ;;
          write_bucket p position (Entry attached_as (e_length b) (external_object (e_length b) object_alloc)) ;;
          mret true
      end
  | _ => fault
  end.

(** The second half: the object is serialised through the pointer in the
    bucket. *)
Definition serialize_object (serialize : ptr -> M (Z * ptr)) p position : M Z :=
  b ← read_bucket p position;
  match e_value b with
  | external_object object_size object_alloc =>
      r ← serialize object_alloc;
      write_bucket p position (Entry (e_info b) (e_length b) (external_object object_size r.2)) ;;
      if r.1 <? 0 then mret (-1)
      else
        write_bucket p position (Entry (e_info b) r.1 (external_object object_size r.2)) ;;
        mret 0
  | _ => fault
  end.

Definition serialize_bucket (serialize_hashtable serialize_vector : ptr -> M (Z * ptr))
    p position attached_buffer : M Z :=
  b ← read_bucket p position;
  ok ← match e_info b with
       | IM_ATTACHED_NESTED => detach_bucket p position attached_buffer IM_EXTERNAL_NESTED
       | IM_ATTACHED_VECTOR => detach_bucket p position attached_buffer IM_EXTERNAL_VECTOR
       | _ => mret true
       end;
  if negb ok then mret (-1)
  else
    b ← read_bucket p position;
    match e_info b with
    | IM_EXTERNAL_NESTED => serialize_object serialize_hashtable p position
    | IM_EXTERNAL_VECTOR => serialize_object serialize_vector p position
    | _ => mret 0
    end.

(** The start of [attach_bucket]: the alignment of an object, and the room
    behind the buckets.  [None]: [realloc] failed. *)
Definition align_attached p position : M unit :=
  b ← read_bucket p position;
  if is_external_object (e_info b) then
    c ← c_load p;
    set_attached p (c_attached_size c) (c_attached_offset c + im_align_offset (c_attached_offset c))
  else mret tt.

Definition make_room p position : M (option ptr) :=
  b ← read_bucket p position;
  c ← c_load p;
  attached_size ← lift (room_for (e_length b) (c_attached_offset c) (c_attached_size c));
  if c_must_grow attached_size c then
    tmp ← realloc p (c_size (C := C) (c_number c) + attached_size);
    match tmp with
    | None => mret None
    | Some _ =>
        c ← c_load tmp;
        set_attached tmp attached_size (c_attached_offset c) ;;
        mret (Some tmp)
    end
  else mret (Some p).

(** [attached + attached_offset], where [n] bytes are to be written: a fault
    past the [attached_size] bytes the block has behind its buckets. *)
Definition attached_end p (n : Z) : M ptr :=
  c ← c_load p;
  if c_attached_offset c + n <=? c_attached_size c
  then mret (ptr_add p (c_size (C := C) (c_number c) + c_attached_offset c))
  else fault.

(** The bucket refers to the [value_length] bytes just written there. *)
Definition refer_attached p position (info : im_info) : M unit :=
  b ← read_bucket p position;
  c ← c_load p;
  write_bucket p position (Entry info (e_length b) (attached_object (e_length b) (c_attached_offset c))) ;;
  set_attached p (c_attached_size c) (c_attached_offset c + e_length b).

(** A text or block: into the bucket if it fits, else behind the buckets. *)
Definition attach_bytes p position (inline attached : im_info) tmp : M unit :=
  b ← read_bucket p position;
  if u64 (e_length b) <=? sizeof_im_value then
    s ← load_bytes tmp;
    s ← lift (take_bytes (e_length b) s);
    write_bucket p position (Entry inline (e_length b) (string_value s))
  else
    d ← attached_end p (e_length b);
    memcpy_bytes d tmp (e_length b) ;;
    refer_attached p position attached.

(** A serialised table or vector. *)
Definition attach_object p position (attached : im_info) tmp : M unit :=
  b ← read_bucket p position;
  d ← attached_end p (e_length b);
  memcpy d tmp (e_length b) ;;
  refer_attached p position attached.

(** The [switch] of [attach_bucket]. *)
Definition attach_value (destroy_hashtable destroy_vector : ptr -> M unit)
    p position attached_buffer : M unit :=
  b ← read_bucket p position;
  match e_info b, e_value b with
  | IM_EXTERNAL_STRING, external_object _ tmp =>
      attach_bytes p position IM_STRING IM_ATTACHED_STRING tmp ;; freep tmp
  | IM_EXTERNAL_BLOCK, external_object _ tmp =>
      attach_bytes p position IM_BLOCK IM_ATTACHED_BLOCK tmp ;; freep tmp
  | IM_EXTERNAL_NESTED, external_object _ tmp =>
      attach_object p position IM_ATTACHED_NESTED tmp ;; destroy_hashtable tmp
  | IM_EXTERNAL_VECTOR, external_object _ tmp =>
      attach_object p position IM_ATTACHED_VECTOR tmp ;; destroy_vector tmp
  | IM_ATTACHED_STRING, attached_object _ o =>
      attach_bytes p position IM_STRING IM_ATTACHED_STRING (ptr_add attached_buffer o)
  | IM_ATTACHED_BLOCK, attached_object _ o =>
      attach_bytes p position IM_BLOCK IM_ATTACHED_BLOCK (ptr_add attached_buffer o)
  | (IM_EXTERNAL_STRING | IM_EXTERNAL_BLOCK | IM_EXTERNAL_NESTED | IM_EXTERNAL_VECTOR
     | IM_ATTACHED_STRING | IM_ATTACHED_BLOCK), _ => fault
  | _, _ => mret tt
  end.

Definition attach_bucket (destroy_hashtable destroy_vector : ptr -> M unit)
    p position attached_buffer : M (Z * ptr) :=
  b ← read_bucket p position;
  if is_inline (e_info b) then mret (0, p)
  else
    align_attached p position ;;
    room ← make_room p position;
    match room with
    | None => mret (-1, p)
    | Some p =>
        attach_value destroy_hashtable destroy_vector p position attached_buffer ;;
        mret (0, p)
    end.

(** The body of the loop over the buckets, and the loop: the code of the first
    failure, or 0, and the pointer afterwards. *)
Definition serialize_body (serialize_hashtable serialize_vector : ptr -> M (Z * ptr))
    (destroy_hashtable destroy_vector : ptr -> M unit) attached_buffer (i : Z) p : M (Z * ptr) :=
  b ← read_bucket p i;
  code ← (if is_object (e_info b)
          then serialize_bucket serialize_hashtable serialize_vector p i attached_buffer
          else mret 0);
  if code <? 0 then mret (-1, p)
  else attach_bucket destroy_hashtable destroy_vector p i attached_buffer.

Fixpoint serialize_loop (body : Z -> ptr -> M (Z * ptr)) (n : nat) (i : Z) p : M (Z * ptr) :=
  match n with
  | O => mret (0, p)
  | S n =>
      r ← body i p;
      if r.1 <? 0 then mret (-1, r.2) else serialize_loop body n (i + 1) r.2
  end.

(** The end: the block is cut to what is used. *)
Definition serialize_end (size : Z) p : M (Z * ptr) :=
  c ← c_load p;
  tmp ← realloc p (size + c_attached_offset c);
  match tmp with
  | None => mret (-1, p)
  | Some _ =>
      c ← c_load tmp;
      set_attached tmp (c_attached_offset c) (c_attached_offset c) ;;
      mret (s32 (size + c_attached_offset c), tmp)
  end.

Definition serialize_container (serialize_hashtable serialize_vector : ptr -> M (Z * ptr))
    (destroy_hashtable destroy_vector : ptr -> M unit) p : M (Z * ptr) :=
  c ← c_load p;
  let size := c_size (C := C) (c_number c) in
  attached_buffer ← alloca;
  memcpy attached_buffer (ptr_add p size) (c_attached_offset c) ;;
  set_attached p (c_attached_size c) 0 ;;
  r ← serialize_loop
        (serialize_body serialize_hashtable serialize_vector destroy_hashtable destroy_vector attached_buffer)
        (Z.to_nat (c_count c)) 0 p;
  r ← (if r.1 <? 0 then mret (-1, r.2) else serialize_end size r.2);
  leave_frame attached_buffer ;;
  mret r.
End container.

(** The static functions as each of the two files has them. *)
Definition hash_serialize_bucket := serialize_bucket (C := im_hashtable).
Definition hash_attach_bucket := attach_bucket (C := im_hashtable).
Definition vector_serialize_bucket := serialize_bucket (C := im_vector).
Definition vector_attach_bucket := attach_bucket (C := im_vector).

(** [im_serialize_hashtable(&p)] and [im_serialize_vector(&p)]: the length, or
    -1, and the pointer afterwards.  A level of nesting takes one unit of fuel
    here and two in the destruction of the copies, so twice the nesting depth
    is enough. *)
Fixpoint im_serialize_hashtable (fuel : nat) (hashtable : ptr) : M (Z * ptr) :=
  match fuel with
  | O => no_fuel
  | S fuel =>
      serialize_container (C := im_hashtable) (im_serialize_hashtable fuel) (im_serialize_vector fuel)
        (im_destroy_hashtable fuel) (im_destroy_vector fuel) hashtable
  end
with im_serialize_vector (fuel : nat) (vector : ptr) : M (Z * ptr) :=
  match fuel with
  | O => no_fuel
  | S fuel =>
      serialize_container (C := im_vector) (im_serialize_hashtable fuel) (im_serialize_vector fuel)
        (im_destroy_hashtable fuel) (im_destroy_vector fuel) vector
  end.

(** [SerializeDict(handle)]: [None] is a null [handle]. *)
Definition SerializeDict (fuel : nat) (handle : option DictHandle) : M (Z * option DictHandle) :=
  match handle with
  | None => mret (-1, handle)
  | Some None => mret (0, handle)
  | Some p => r ← im_serialize_hashtable fuel p; mret (r.1, Some r.2)
  end.
