(* ===== verification/ImTree.v ===== *)
(** * Nested dictionaries and arrays as trees

    A table or a vector with everything below it, in blocks of its own or
    attached behind its buckets, is a [tree].  [object_at cs a t size offset B]
    says that the object at the address [a] of the memory [cs] is the tree [t],
    and that it owns the blocks [B] (its own block not included).  A
    serialised object is one with [B = \[\]]. *)

From S2P Require Import Prelude LibC CFloat ImTypes ImHashTable ImTable ImInsert ImVector ImSerialize.

(** ** Trees *)

(** What a table or a vector is besides its elements. *)
Inductive shape : Type :=
  | SHash (inuse empty : Z) (keys : list bytes)
  | SVector (number : Z).

Inductive tree : Type :=
  | TPlain (e : entry)
  | TText (s : bytes)
  | TBlock (s : bytes)
  | TNode (sh : shape) (ts : list tree).

Section tree_ind'.
Variable P : tree -> Prop.
Hypothesis (Hplain : forall e, P (TPlain e)) (Htext : forall s, P (TText s)) (Hblock : forall s, P (TBlock s)).
Hypothesis (Hnode : forall sh ts, Forall P ts -> P (TNode sh ts)).

Fixpoint tree_ind' (t : tree) : P t :=
  match t with
  | TPlain e => Hplain e
  | TText s => Htext s
  | TBlock s => Hblock s
  | TNode sh ts => Hnode sh ts ((fix go ts : Forall P ts :=
      match ts with
      | [] => Forall_nil_2 P
      | t :: ts => Forall_cons_2 P t ts (tree_ind' t) (go ts)
      end) ts)
  end.
End tree_ind'.

Section measures.
Variable f : tree -> nat.

(** The largest and the sum of a measure over a list. *)
Fixpoint largest (ts : list tree) : nat := match ts with [] => 0 | t :: ts => f t `max` largest ts end.
Fixpoint total (ts : list tree) : nat := match ts with [] => 0 | t :: ts => (f t + total ts)%nat end.

Lemma largest_ge t ts : t ∈ ts -> (f t <= largest ts)%nat.
Proof. induction 1; simpl; lia. Qed.
End measures.

(** The levels of tables and vectors. *)
Fixpoint depth (t : tree) : nat := match t with TNode _ ts => S (largest depth ts) | _ => 0 end.

(** The allocations a serialisation may make: one for each text or block, for
    an object its copy, the room for it and its own, and one at the end. *)
Fixpoint cost (t : tree) : nat :=
  match t with TPlain _ => 0 | TText _ | TBlock _ => 1 | TNode _ ts => 3 + total cost ts end%nat.

(** ** The members of a table or vector as the trees see them *)

Record view : Type := View { w_shape : shape; w_size : Z; w_offset : Z; w_entries : list entry }.

Definition cell_view (c : cell) : option view :=
  match c with
  | CHash h =>
      if h_number_of_buckets h =? zlen (h_buckets h)
      then Some (View (SHash (h_inuse h) (h_empty h) (hb_key <$> h_buckets h))
                   (h_attached_size h) (h_attached_offset h) (hash_entry <$> h_buckets h))
      else None
  | CVector v =>
      if (0 <=? v_inuse v) && (v_inuse v <=? zlen (v_buckets v)) && (0 <=? v_number_of_buckets v)
      then Some (View (SVector (v_number_of_buckets v)) (v_attached_size v) (v_attached_offset v)
                   (vector_entry <$> take (Z.to_nat (v_inuse v)) (v_buckets v)))
      else None
  | CBytes _ => None
  end.

(** The bytes of the object itself. *)
Definition shape_size (sh : shape) : Z :=
  match sh with SHash _ _ keys => hash_size (zlen keys) | SVector n => vector_size n end.

Definition external_info (sh : shape) : im_info :=
  match sh with SHash _ _ _ => IM_EXTERNAL_NESTED | SVector _ => IM_EXTERNAL_VECTOR end.
Definition attached_info (sh : shape) : im_info :=
  match sh with SHash _ _ _ => IM_ATTACHED_NESTED | SVector _ => IM_ATTACHED_VECTOR end.

(** ** Trees in memory *)

Section owners.
Variable R : tree -> entry -> list positive -> Prop.

(** Each tree stands in its entry, and together they own [B]. *)
Fixpoint each (ts : list tree) (es : list entry) (B : list positive) : Prop :=
  match ts, es with
  | [], [] => B = []
  | t :: ts, e :: es => exists B1 B2, B = B1 ++ B2 /\ R t e B1 /\ each ts es B2
  | _, _ => False
  end.
End owners.

(** A run of bytes: in a block of its own, or attached at an offset from
    [base], below [lim]. *)
Definition bytes_in (external attached : im_info) (s : bytes) (cs : gmap addr cell) (base : addr) (lim : Z)
    (e : entry) (B : list positive) : Prop :=
  sizeof_im_value < zlen s < 2147483648 /\
  ((exists sz q, e = Entry external (zlen s) (external_object sz (Some (q, 0))) /\
      cs !! (q, 0) = Some (CBytes s) /\ B = [q]) \/
   (exists sz o, e = Entry attached (zlen s) (attached_object sz o) /\ 0 <= o /\ o + zlen s <= lim /\
      cs !! (base.1, base.2 + o) = Some (CBytes s) /\ B = [])).

(** The value of an entry. *)
Fixpoint value_in (t : tree) (cs : gmap addr cell) (base : addr) (lim : Z) (e : entry) (B : list positive) : Prop :=
  let node a size offset B sh ts :=
    exists c es, cs !! a = Some c /\ cell_view c = Some (View sh size offset es) /\ 0 <= offset /\
      each (λ t e B, value_in t cs (a.1, a.2 + shape_size sh) offset e B) ts es B in
  match t with
  | TPlain e' => e = e' /\ is_inline (e_info e) = true /\ B = []
  | TText s => bytes_in IM_EXTERNAL_STRING IM_ATTACHED_STRING s cs base lim e B
  | TBlock s => bytes_in IM_EXTERNAL_BLOCK IM_ATTACHED_BLOCK s cs base lim e B
  | TNode sh ts =>
      (exists n sz q size offset B', e = Entry (external_info sh) n (external_object sz (Some (q, 0))) /\
         B = q :: B' /\ node (q, 0) size offset B' sh ts) \/
      (exists n sz o size offset, e = Entry (attached_info sh) n (attached_object sz o) /\
         0 <= o /\ o + n <= lim /\ shape_size sh + offset <= n /\
         node (base.1, base.2 + o) size offset B sh ts)
  end.

(** The table or vector at [a], with [size] and [offset] in [attached_size] and
    [attached_offset]. *)
Definition object_at (cs : gmap addr cell) (a : addr) (sh : shape) (ts : list tree) (size offset : Z)
    (B : list positive) : Prop :=
  exists c es, cs !! a = Some c /\ cell_view c = Some (View sh size offset es) /\ 0 <= offset /\
    each (λ t e B, value_in t cs (a.1, a.2 + shape_size sh) offset e B) ts es B.

Lemma value_in_node sh ts cs base lim e B :
  value_in (TNode sh ts) cs base lim e B <->
  (exists n sz q size offset B', e = Entry (external_info sh) n (external_object sz (Some (q, 0))) /\
     B = q :: B' /\ object_at cs (q, 0) sh ts size offset B') \/
  (exists n sz o size offset, e = Entry (attached_info sh) n (attached_object sz o) /\
     0 <= o /\ o + n <= lim /\ shape_size sh + offset <= n /\
     object_at cs (base.1, base.2 + o) sh ts size offset B).
Proof. done. Qed.

Lemma cell_view_size c sh size offset es : cell_view c = Some (View sh size offset es) -> 0 < shape_size sh.
Proof.
  destruct c as [h|v|]; simpl; [| |done]; case_match; try done; intros [= <- _ _ _]; simpl.
  - unfold hash_size. pose proof (zlen_nonneg (hb_key <$> h_buckets h)). lia.
  - unfold vector_size. lia.
Qed.

Lemma object_at_size cs a sh ts size offset B : object_at cs a sh ts size offset B -> 0 < shape_size sh /\ 0 <= offset.
Proof. intros (c & es & _ & Hv & Ho & _). split; [by eapply cell_view_size|done]. Qed.

(** ** Lists of values *)

Section each.
Context (R : tree -> entry -> list positive -> Prop).

Lemma each_length ts es B : each R ts es B -> length ts = length es.
Proof using Type.
  revert es B. induction ts as [|t ts IH]; intros [|e es] B; simpl; try done.
  intros (B1 & B2 & _ & _ & H). by rewrite (IH _ _ H).
Qed.

Lemma each_app ts1 ts2 es1 es2 B1 B2 :
  each R ts1 es1 B1 -> each R ts2 es2 B2 -> each R (ts1 ++ ts2) (es1 ++ es2) (B1 ++ B2).
Proof using Type.
  revert es1 B1. induction ts1 as [|t ts1 IH]; intros [|e es1] B1; simpl; try done; [by intros ->|].
  intros (B3 & B4 & -> & Ht & H1) H2. exists B3, (B4 ++ B2). rewrite <- app_assoc. eauto.
Qed.

Lemma each_lookup ts es B i t :
  each R ts es B -> ts !! i = Some t ->
  exists e B1 B2 B3, es !! i = Some e /\ B = B1 ++ B2 ++ B3 /\ R t e B2.
Proof using Type.
  revert es B i. induction ts as [|t' ts IH]; intros [|e es] B i; simpl; try done.
  intros (B1 & B2 & -> & Ht & H) Hi. destruct i as [|i]; simpl in *.
  - simplify_eq. exists e, [], B1, B2. done.
  - destruct (IH _ _ _ H Hi) as (e' & B3 & B4 & B5 & He & -> & HR).
    exists e', (B1 ++ B3), B4, B5. split; [done|]. split; [by rewrite <- app_assoc|done].
Qed.

Lemma each_impl (R' : tree -> entry -> list positive -> Prop) ts es B :
  each R ts es B -> (forall t e B', t ∈ ts -> (forall q, q ∈ B' -> q ∈ B) -> R t e B' -> R' t e B') ->
  each R' ts es B.
Proof using Type.
  revert es B. induction ts as [|t ts IH]; intros [|e es] B; simpl; try done.
  intros (B1 & B2 & -> & Ht & H) Himp. exists B1, B2. split; [done|]. split.
  - apply Himp; [by left| |done]. intros q Hq. apply elem_of_app. by left.
  - apply (IH _ _ H). intros t' e' B' Hin Hq. apply Himp; [by right|].
    intros q Hq'. apply elem_of_app. right. by apply Hq.
Qed.
End each.

(** ** Moving a value

    What a value says about the memory is inside the first [lim] bytes at
    [base] and inside the blocks it owns: it stands in every memory that agrees
    there. *)

Definition carries (cs : gmap addr cell) (base : addr) (lim : Z) (cs' : gmap addr cell) (base' : addr) : Prop :=
  forall o c, 0 <= o < lim -> cs !! (base.1, base.2 + o) = Some c -> cs' !! (base'.1, base'.2 + o) = Some c.
Definition keeps (cs cs' : gmap addr cell) (B : list positive) : Prop :=
  forall q, q ∈ B -> forall o c, cs !! (q, o) = Some c -> cs' !! (q, o) = Some c.

Lemma keeps_self cs cs' q lim : keeps cs cs' [q] -> carries cs (q, 0) lim cs' (q, 0).
Proof. intros Hk o c _ Hc. simpl in *. apply (Hk q); [set_solver|done]. Qed.

Lemma carries_sub cs base lim cs' base' o n :
  carries cs base lim cs' base' -> 0 <= o -> o + n <= lim ->
  carries cs (base.1, base.2 + o) n cs' (base'.1, base'.2 + o).
Proof.
  intros Hc Ho Hn o' c Ho' H. simpl in *.
  replace (base'.2 + o + o') with (base'.2 + (o + o')) by lia. apply Hc; [lia|].
  by replace (base.2 + (o + o')) with (base.2 + o + o') by lia.
Qed.

Definition moves_well (t : tree) : Prop :=
  forall cs cs' base base' lim lim' e B,
    value_in t cs base lim e B -> carries cs base lim cs' base' -> keeps cs cs' B -> lim <= lim' ->
    value_in t cs' base' lim' e B.

Lemma object_moves_if sh ts cs cs' a a' size offset B :
  Forall moves_well ts -> object_at cs a sh ts size offset B ->
  carries cs a (shape_size sh + offset) cs' a' -> keeps cs cs' B ->
  object_at cs' a' sh ts size offset B.
Proof.
  intros Hts (c & es & Hc & Hv & Ho & He) Hcar Hk. pose proof (cell_view_size _ _ _ _ _ Hv) as Hs.
  exists c, es. split_and!; [|done|done|].
  - rewrite (surjective_pairing a') at 1. rewrite <- (Z.add_0_r a'.2). apply Hcar; [lia|].
    rewrite Z.add_0_r. by rewrite <- surjective_pairing.
  - eapply each_impl; [exact He|]. simpl. intros t e B' Hin Hq Hval. rewrite Forall_forall in Hts.
    apply (Hts t Hin _ _ _ _ _ _ _ _ Hval); [| |done].
    + apply (carries_sub _ _ (shape_size sh + offset)); [done|lia|lia].
    + intros q Hin'. by apply Hk, Hq.
Qed.

Lemma bytes_move i j s cs cs' base base' lim lim' e B :
  bytes_in i j s cs base lim e B -> carries cs base lim cs' base' -> keeps cs cs' B -> lim <= lim' ->
  bytes_in i j s cs' base' lim' e B.
Proof.
  intros (Hs & [(sz & q & -> & Hq & ->)|(sz & o & -> & Ho & Hl & Hc & ->)]) Hcar Hk Hlim; split; try done.
  - left. exists sz, q. split; [done|]. split; [|done]. apply (Hk q); [set_solver|done].
  - right. exists sz, o. unfold sizeof_im_value in Hs. split_and!; try done; [lia|]. apply Hcar; [lia|done].
Qed.

Lemma value_moves t : moves_well t.
Proof.
  induction t as [e|s|s|sh ts IH] using tree_ind'; intros cs cs' base base' lim lim' e' B Hval Hcar Hk Hlim.
  - done.
  - by eapply bytes_move.
  - by eapply bytes_move.
  - rewrite value_in_node in *.
    destruct Hval as [(n & sz & q & size & offset & B' & -> & -> & Hobj)|(n & sz & o & size & offset & -> & Ho & Hn & Hsz & Hobj)].
    + left. exists n, sz, q, size, offset, B'. split_and!; [done|done|].
      eapply object_moves_if; [exact IH|exact Hobj| |].
      * apply keeps_self. intros q' Hq'. apply Hk. set_solver.
      * intros q' Hq'. apply Hk. by right.
    + right. exists n, sz, o, size, offset. split_and!; try done; [lia|].
      eapply object_moves_if; [exact IH|exact Hobj| |done].
      apply (carries_sub _ _ lim); [done|done|lia].
Qed.

Lemma object_moves sh ts cs cs' a a' size offset B :
  object_at cs a sh ts size offset B -> carries cs a (shape_size sh + offset) cs' a' -> keeps cs cs' B ->
  object_at cs' a' sh ts size offset B.
Proof. apply object_moves_if. apply Forall_forall. intros t _. apply value_moves. Qed.

Lemma each_moves ts es cs cs' base base' lim lim' B :
  each (λ t e B, value_in t cs base lim e B) ts es B -> carries cs base lim cs' base' -> keeps cs cs' B ->
  lim <= lim' -> each (λ t e B, value_in t cs' base' lim' e B) ts es B.
Proof.
  intros He Hcar Hk Hlim. eapply each_impl; [exact He|]. simpl. intros t e B' _ Hq Hval.
  eapply value_moves; [exact Hval|exact Hcar| |done]. intros q Hq'. by apply Hk, Hq.
Qed.

(** ** The layout of a serialised object *)

(** The offset after the value [t] is attached at [off] or later. *)
Fixpoint after (t : tree) (off : Z) : Z :=
  match t with
  | TPlain _ => off
  | TText s | TBlock s => off + zlen s
  | TNode sh ts =>
      off + im_align_offset off + (shape_size sh +
        (fix go (ts : list tree) (off : Z) : Z := match ts with [] => off | t :: ts => go ts (after t off) end) ts 0)
  end.

(** The attached area of the values [ts], the first of them at [off] ... *)
Fixpoint area (ts : list tree) (off : Z) : Z := match ts with [] => off | t :: ts => area ts (after t off) end.

(** ... and the length of a serialised object. *)
Definition flat_size (sh : shape) (ts : list tree) : Z := shape_size sh + area ts 0.

Lemma after_node sh ts off : after (TNode sh ts) off = off + im_align_offset off + flat_size sh ts.
Proof. done. Qed.

Lemma align_nonneg a : 0 <= im_align_offset a < 8.
Proof.
  unfold im_align_offset. change IM_ALIGN_MASK with (Z.ones 3). rewrite Z.land_ones by lia.
  apply Z.mod_pos_bound. lia.
Qed.

(** ** The blocks a value owns *)

Definition owns_blocks (cs : gmap addr cell) (B : list positive) : Prop := forall q, q ∈ B -> is_Some (cs !! (q, 0)).

Lemma each_owns R cs ts es B :
  each R ts es B -> (forall t e B', t ∈ ts -> R t e B' -> owns_blocks cs B') -> owns_blocks cs B.
Proof.
  revert es B. induction ts as [|t ts IH]; intros [|e es] B; simpl; try done.
  - intros -> _ q Hq. by apply elem_of_nil in Hq.
  - intros (B1 & B2 & -> & Ht & H) HR q Hq. apply elem_of_app in Hq as [Hq|Hq].
    + eapply HR; [by left|exact Ht|done].
    + eapply IH; [exact H| |exact Hq]. intros t' e' B' Hin. apply HR. by right.
Qed.

Lemma value_owns t : forall cs base lim e B, value_in t cs base lim e B -> owns_blocks cs B.
Proof.
  induction t as [e0|s|s|sh ts IH] using tree_ind'; intros cs base lim e B Hval.
  - destruct Hval as (_ & _ & ->). intros q Hq. by apply elem_of_nil in Hq.
  - destruct Hval as (_ & [(sz & q & _ & Hq & ->)|(sz & o & _ & _ & _ & _ & ->)]); intros q' Hq'.
    + apply list_elem_of_singleton in Hq' as ->. eauto.
    + by apply elem_of_nil in Hq'.
  - destruct Hval as (_ & [(sz & q & _ & Hq & ->)|(sz & o & _ & _ & _ & _ & ->)]); intros q' Hq'.
    + apply list_elem_of_singleton in Hq' as ->. eauto.
    + by apply elem_of_nil in Hq'.
  - rewrite Forall_forall in IH. apply value_in_node in Hval.
    destruct Hval as [(n & sz & q & size & offset & B' & _ & -> & (c & es & Hc & _ & _ & He))
                     |(n & sz & o & size & offset & _ & _ & _ & _ & (c & es & Hc & _ & _ & He))].
    + intros q' Hq'. apply elem_of_cons in Hq' as [->|Hq']; [eauto|].
      eapply each_owns; [exact He| |done]. intros t e' B'' Hin. by apply IH.
    + eapply each_owns; [exact He|]. intros t e' B'' Hin. by apply IH.
Qed.

Lemma owns_allocated cs B m : cs = m_cells m -> mem_wf m -> owns_blocks cs B -> forall q, q ∈ B -> (q < m_next m)%positive.
Proof. intros -> Hm H q Hq. destruct (H q Hq) as [c Hc]. by apply Hm in Hc. Qed.

(** ** The offsets grow *)

Definition grows_well (t : tree) : Prop :=
  forall cs base lim e B off, value_in t cs base lim e B -> 0 <= off ->
    off <= after t off /\ match t with TNode sh ts => 0 < shape_size sh /\ 0 <= area ts 0 | _ => True end.

Lemma area_grows_if R ts es B off :
  (forall t e B, t ∈ ts -> R t e B -> forall off, 0 <= off -> off <= after t off) ->
  each R ts es B -> 0 <= off -> off <= area ts off /\ (forall t, t ∈ ts -> exists off', off <= off' /\ after t off' <= area ts off).
Proof.
  revert es B off. induction ts as [|t ts IH]; intros [|e es] B off HR; simpl; try done.
  - intros _ Ho. split; [done|]. by intros t ?%elem_of_nil.
  - intros (B1 & B2 & -> & Ht & He) Ho.
    pose proof (HR t e B1 ltac:(by left) Ht off Ho) as Hle.
    destruct (IH es B2 (after t off)) as [H1 H2]; [intros t' e' B' Hin; apply HR; by right|done|lia|].
    split; [lia|]. intros t' Hin. apply elem_of_cons in Hin as [->|Hin].
    + exists off. split; [lia|done].
    + destruct (H2 t' Hin) as (off' & Ho1 & Ho2). exists off'. split; [lia|done].
Qed.

Lemma value_grows t : grows_well t.
Proof.
  induction t as [e0|s|s|sh ts IH] using tree_ind'; intros cs base lim e B off Hval Ho; simpl.
  - done.
  - pose proof (zlen_nonneg s). split; [lia|done].
  - pose proof (zlen_nonneg s). split; [lia|done].
  - rewrite Forall_forall in IH. change (off <= after (TNode sh ts) off /\ 0 < shape_size sh /\ 0 <= area ts 0).
    assert (0 < shape_size sh /\ 0 <= area ts 0) as [Hs Ha].
    { assert (forall a size offset B', object_at cs a sh ts size offset B' -> 0 < shape_size sh /\ 0 <= area ts 0) as Hobj.
      { intros a size offset B' (c & es & Hc & Hv & _ & He). split; [by eapply cell_view_size|].
        destruct (area_grows_if (λ t e B, value_in t cs (a.1, a.2 + shape_size sh) offset e B) ts es B' 0) as [H _];
          [|exact He|done|done].
        intros t e' B'' Hin Hv' off0 Ho0. by eapply (IH t Hin). }
      apply value_in_node in Hval.
      destruct Hval as [(n & sz & q & size & offset & B' & _ & _ & Ho')|(n & sz & o & size & offset & _ & _ & _ & _ & Ho')];
        by eapply Hobj. }
    rewrite after_node. pose proof (align_nonneg off). unfold flat_size. split_and!; [lia|done|done].
Qed.

(** The area of the values of an object contains each of them. *)
Lemma area_grows cs base lim ts es B off :
  each (λ t e B, value_in t cs base lim e B) ts es B -> 0 <= off ->
  off <= area ts off /\
  forall sh' ts', TNode sh' ts' ∈ ts -> flat_size sh' ts' <= area ts off - off.
Proof.
  intros He Ho. destruct (area_grows_if (λ t e B, value_in t cs base lim e B) ts es B off) as [H1 H2]; [|exact He|done|].
  - intros t e B' _ Hval off' Ho'. by eapply value_grows.
  - split; [done|]. intros sh' ts' Hin. destruct (H2 _ Hin) as (off' & Ho1 & Ho2).
    rewrite after_node in Ho2. pose proof (align_nonneg off'). lia.
Qed.
