(* ===== verification/ImSerializeFacts.v ===== *)
(** * The steps of a serialisation

    Every step turns the object at one block into the object at one block,
    dropping some blocks: [step] says so, with what becomes of the attached
    area.  The two kinds of container are used through [ContainerLaws]. *)

From S2P Require Import Prelude LibC CFloat ImTypes ImHashTable ImTable ImInsert ImVector Beai3Dict ImSerialize ImTree.

(** ** What a proof needs of a container *)

Class ContainerLaws (C : Type) {HC : Container C} : Type := {
  c_shape : shape -> bool;
  c_of_view c sh size offset es :
    cell_view c = Some (View sh size offset es) -> c_shape sh = true -> exists x : C, c = c_cell x;
  c_load_run m a (x : C) : m_cells m !! a = Some (c_cell x) -> c_load (Some a) m = Ok (x, m);
  c_view (x : C) sh size offset es :
    cell_view (c_cell x) = Some (View sh size offset es) ->
    c_size (C := C) (c_number x) = shape_size sh /\ c_count x = zlen es /\
    c_attached_size x = size /\ c_attached_offset x = offset;
  c_view_attached (x : C) sh size offset es size' offset' :
    cell_view (c_cell x) = Some (View sh size offset es) ->
    cell_view (c_cell (c_set_attached size' offset' x)) = Some (View sh size' offset' es);
  c_view_get (x : C) sh size offset es i e :
    cell_view (c_cell x) = Some (View sh size offset es) -> es !! i = Some e -> c_get x (Z.of_nat i) = Ok e;
  c_view_put (x : C) sh size offset es i e e' :
    cell_view (c_cell x) = Some (View sh size offset es) -> es !! i = Some e ->
    exists x', c_put x (Z.of_nat i) e' = Ok x' /\ cell_view (c_cell x') = Some (View sh size offset (<[i := e']> es));
  c_grows s (x : C) : c_must_grow s x = false -> s <= c_attached_size x \/ s <= c_attached_offset x;
}.

Lemma hash_view h v : cell_view (CHash h) = Some v ->
  h_number_of_buckets h = zlen (h_buckets h) /\
  v = View (SHash (h_inuse h) (h_empty h) (hb_key <$> h_buckets h)) (h_attached_size h) (h_attached_offset h)
        (hash_entry <$> h_buckets h).
Proof. simpl. case_match eqn:E; [|done]. intros [= <-]. split; [by apply Z.eqb_eq|done]. Qed.

Lemma vector_view x v : cell_view (CVector x) = Some v ->
  (0 <= v_inuse x <= zlen (v_buckets x) /\ 0 <= v_number_of_buckets x) /\
  v = View (SVector (v_number_of_buckets x)) (v_attached_size x) (v_attached_offset x)
        (vector_entry <$> take (Z.to_nat (v_inuse x)) (v_buckets x)).
Proof.
  simpl. case_match eqn:E; [|done]. intros [= <-]. split; [|done].
  apply andb_true_iff in E as [E ?]. apply andb_true_iff in E as [? ?]. lia.
Qed.

Lemma hash_view_intro h :
  h_number_of_buckets h = zlen (h_buckets h) ->
  cell_view (CHash h) = Some (View (SHash (h_inuse h) (h_empty h) (hb_key <$> h_buckets h))
    (h_attached_size h) (h_attached_offset h) (hash_entry <$> h_buckets h)).
Proof. intros H. simpl. by rewrite H, Z.eqb_refl. Qed.

Lemma vector_view_intro x :
  0 <= v_inuse x <= zlen (v_buckets x) -> 0 <= v_number_of_buckets x ->
  cell_view (CVector x) = Some (View (SVector (v_number_of_buckets x)) (v_attached_size x) (v_attached_offset x)
        (vector_entry <$> take (Z.to_nat (v_inuse x)) (v_buckets x))).
Proof.
  intros [H1 H2] H3. simpl. apply Z.leb_le in H1, H2, H3. by rewrite H1, H2, H3.
Qed.

#[export] Instance hash_laws : ContainerLaws im_hashtable.
Proof.
  refine {| c_shape sh := match sh with SHash _ _ _ => true | _ => false end |}.
  - intros [h|v|b]; simpl; intros; repeat case_match; simplify_eq; try done. by exists h.
  - intros. by apply load_hash_run.
  - intros h sh size offset es H. apply hash_view in H as [Hn [= -> -> -> ->]]. simpl. unfold zlen in *.
    rewrite !length_fmap. by rewrite Hn.
  - intros h sh size offset es s' o' H. apply hash_view in H as [Hn [= -> -> -> ->]]. by apply hash_view_intro.
  - intros h sh size offset es i e H He. apply hash_view in H as [Hn [= -> -> -> ->]].
    rewrite list_lookup_fmap in He. apply fmap_Some in He as (b & Hb & ->). simpl.
    by rewrite (zget_lookup _ _ b) by (rewrite ?Nat2Z.id; done || lia).
  - intros h sh size offset es i e e' H He. apply hash_view in H as [Hn [= -> -> -> ->]].
    rewrite list_lookup_fmap in He. apply fmap_Some in He as (b & Hb & ->).
    eexists. split.
    + simpl. rewrite (zget_lookup _ _ b) by (rewrite ?Nat2Z.id; done || lia). simpl.
      rewrite zset_in_range by (apply lookup_lt_Some in Hb; unfold zlen; lia). done.
    + cbn [c_cell hash_container]. rewrite hash_view_intro by (simpl; by rewrite zlen_insert). simpl. rewrite Nat2Z.id.
      rewrite !list_fmap_insert. simpl. rewrite (list_insert_id (hb_key <$> _)); [by destruct e'|].
      by rewrite list_lookup_fmap, Hb.
  - intros s x H. simpl in *. lia.
Defined.

#[export] Instance vector_laws : ContainerLaws im_vector.
Proof.
  refine {| c_shape sh := match sh with SVector _ => true | _ => false end |}.
  - intros [h|v|b]; simpl; intros; repeat case_match; simplify_eq; try done. by exists v.
  - intros. by apply load_vector_run.
  - intros v sh size offset es H. apply vector_view in H as [Hn [= -> -> -> ->]]. simpl. unfold zlen in *.
    rewrite length_fmap, length_take. split_and!; [done|lia|done|done].
  - intros v sh size offset es s' o' H. apply vector_view in H as [Hn [= -> -> -> ->]].
    destruct Hn. by apply (vector_view_intro (set_v_attached s' o' v)).
  - intros v sh size offset es i e H He. apply vector_view in H as [Hn [= -> -> -> ->]].
    rewrite list_lookup_fmap in He. apply fmap_Some in He as (b & Hb & ->). apply lookup_take_Some in Hb as [Hb _].
    simpl. by rewrite (zget_lookup _ _ b) by (rewrite ?Nat2Z.id; done || lia).
  - intros v sh size offset es i e e' H He. apply vector_view in H as [Hn [= -> -> -> ->]].
    rewrite list_lookup_fmap in He. apply fmap_Some in He as (b & Hb & ->). apply lookup_take_Some in Hb as [Hb Hi].
    eexists. split.
    + simpl. rewrite zset_in_range by (apply lookup_lt_Some in Hb; unfold zlen; lia). done.
    + cbn [c_cell vector_container]. rewrite vector_view_intro by (simpl; rewrite ?zlen_insert; lia). simpl.
      rewrite Nat2Z.id, take_insert_lt by done. rewrite list_fmap_insert. by destruct e'.
  - intros s x H. simpl in *. lia.
Defined.

(** ** Dropping blocks *)

Definition drop_blocks (D : list positive) (cs : gmap addr cell) : gmap addr cell :=
  filter (λ kc : addr * cell, kc.1.1 ∉ D) cs.

Lemma drop_blocks_in D cs k : k.1 ∈ D -> drop_blocks D cs !! k = None.
Proof. intros Hk. apply map_lookup_filter_None. right. simpl. tauto. Qed.

Lemma drop_blocks_out D cs k : k.1 ∉ D -> drop_blocks D cs !! k = cs !! k.
Proof.
  intros Hk. unfold drop_blocks. destruct (cs !! k) as [c|] eqn:E.
  - by apply map_lookup_filter_Some.
  - apply map_lookup_filter_None. by left.
Qed.

Lemma drop_blocks_Some D cs k c : drop_blocks D cs !! k = Some c <-> cs !! k = Some c /\ k.1 ∉ D.
Proof. apply map_lookup_filter_Some. Qed.

(** [m'] is [m] without the blocks [D], but for the blocks [X]. *)
Definition changed (m m' : mem) (D X : list positive) : Prop :=
  forall k, k.1 ∉ X -> m_cells m' !! k = drop_blocks D (m_cells m) !! k.

Lemma changed_refl m X : changed m m [] X.
Proof. intros k _. rewrite drop_blocks_out; [done|apply not_elem_of_nil]. Qed.

Lemma changed_trans m m1 m2 D1 D2 X1 X2 :
  changed m m1 D1 X1 -> changed m1 m2 D2 X2 -> (forall b, b ∈ X1 -> b ∈ D2 \/ b ∈ X2) ->
  changed m m2 (D1 ++ D2) X2.
Proof.
  intros H1 H2 HX k Hk. rewrite (H2 k Hk). destruct (decide (k.1 ∈ D2)) as [Hd|Hd].
  - rewrite !drop_blocks_in; [done|set_solver|done].
  - rewrite drop_blocks_out by done. rewrite H1.
    + destruct (decide (k.1 ∈ D1)); [rewrite !drop_blocks_in by set_solver; done|].
      rewrite !drop_blocks_out; [done|set_solver|done].
    + intros Hx. destruct (HX _ Hx); done.
Qed.

(** A block that is not there need not be dropped; one that is in [X] may. *)
Lemma changed_weaken m m' D D' X X' :
  changed m m' D X -> (forall b, b ∈ D -> b ∈ D' \/ b ∈ X' \/ forall o, m_cells m !! (b, o) = None) ->
  (forall b, b ∈ D' -> b ∈ D \/ b ∈ X') -> (forall b, b ∈ X -> b ∈ X') -> changed m m' D' X'.
Proof.
  intros H HD HD' HX k Hk. rewrite (H k) by (intros Hx; by apply Hk, HX). destruct k as [b o]. simpl in *.
  destruct (decide (b ∈ D)) as [Hd|Hd], (decide (b ∈ D')) as [Hd'|Hd'].
  - by rewrite !drop_blocks_in.
  - rewrite drop_blocks_in, drop_blocks_out by done. destruct (HD b Hd) as [|[|Hn]]; [done|done|]. by rewrite Hn.
  - destruct (HD' b Hd'); done.
  - by rewrite !drop_blocks_out.
Qed.

Lemma fresh_none m b : mem_wf m -> (m_next m <= b)%positive -> forall o, m_cells m !! (b, o) = None.
Proof.
  intros Hm Hb o. destruct (m_cells m !! (b, o)) eqn:E; [|done]. apply Hm in E. simpl in E. lia.
Qed.

(** The values behind blocks that stay are still there. *)
Lemma changed_keeps m m' D X B :
  changed m m' D X -> (forall q, q ∈ B -> q ∉ D /\ q ∉ X) -> keeps (m_cells m) (m_cells m') B.
Proof.
  intros H HB q Hq o c Hc. destruct (HB q Hq). rewrite H by done. by apply drop_blocks_Some.
Qed.

Lemma changed_mem_wf m m' D X :
  mem_wf m -> changed m m' D X -> (m_next m <= m_next m')%positive ->
  (forall b, b ∈ X -> (b < m_next m')%positive) -> mem_wf m'.
Proof.
  intros Hm H Hn HX k c Hk. destruct (decide (k.1 ∈ X)) as [Hx|Hx]; [by apply HX|].
  rewrite H in Hk by done. apply drop_blocks_Some in Hk as [Hk _]. apply Hm in Hk. lia.
Qed.

(** ** Steps *)

(** The container at block [b]. *)
Definition holds (m : mem) (b : positive) (sh : shape) (size offset : Z) (es : list entry) : Prop :=
  exists c, m_cells m !! (b, 0) = Some c /\ cell_view c = Some (View sh size offset es).

(** The object of [b] goes to [b'] with the first [lim] bytes of its attached
    area, which begins at [ss]; the blocks [D] go, the blocks [X] are written
    and at most [n] blocks are allocated. *)
Record step (ss : Z) (n : nat) (lim : Z) (m : mem) (b : positive) (m' : mem) (b' : positive)
    (D X : list positive) : Prop := {
  st_changed : changed m m' (b :: D) (b' :: X);
  st_carries : carries (m_cells m) (b, ss) lim (m_cells m') (b', ss);
  st_next : (m_next m <= m_next m')%positive;
  st_quota : (m_quota m <= m_quota m' + n)%nat;
  st_mem_wf : mem_wf m';
  st_block : b' = b \/ (m_next m <= b')%positive;
}.

Lemma step_trans ss n1 n2 lim1 lim2 m b m1 b1 m2 b2 D1 D2 X1 X2 :
  mem_wf m -> step ss n1 lim1 m b m1 b1 D1 X1 -> step ss n2 lim2 m1 b1 m2 b2 D2 X2 ->
  lim1 <= lim2 -> (forall x, x ∈ X1 -> x ∈ D2 \/ x ∈ X2) ->
  step ss (n1 + n2) lim1 m b m2 b2 (D1 ++ D2) X2.
Proof.
  intros Hm [Hc1 Ha1 Hn1 Hq1 Hm1 Hb1] [Hc2 Ha2 Hn2 Hq2 Hm2 Hb2] Hlim HX. constructor; [|..|lia|lia|done|].
  - eapply changed_weaken; [eapply changed_trans; [exact Hc1|exact Hc2|]| | |done].
    + intros x Hx. apply elem_of_cons in Hx as [->|Hx]; [left; by left|].
      destruct (HX x Hx); [left|right]; by right.
    + intros x Hx. apply elem_of_app in Hx as [Hx|Hx].
      * left. apply elem_of_cons in Hx as [->|Hx]; [by left|right; set_solver].
      * apply elem_of_cons in Hx as [->|Hx]; [|left; right; set_solver].
        destruct Hb1 as [->|Hb1]; [left; by left|]. right. right. by apply fresh_none.
    + intros x Hx. left. set_solver.
  - intros o c Ho Hc. apply Ha2; [lia|]. by apply Ha1.
  - destruct Hb2 as [->|Hb2]; [done|]. right. lia.
Qed.

Lemma step_refl ss lim m b : mem_wf m -> step ss 0 lim m b m b [] [].
Proof.
  intros Hm. constructor; [|by intros o c _ H|done|lia|done|by left].
  intros k Hk. by rewrite drop_blocks_out.
Qed.

(** Then a step that writes the object only. *)
Lemma step_then ss n lim m b m1 b1 m2 D :
  mem_wf m -> step ss n lim m b m1 b1 D [] -> step ss 0 lim m1 b1 m2 b1 [] [] -> step ss n lim m b m2 b1 D [].
Proof.
  intros Hm H1 H2. pose proof (step_trans _ _ _ _ _ _ _ _ _ _ _ _ _ _ _ Hm H1 H2 ltac:(lia)) as Ht.
  rewrite Nat.add_0_r, app_nil_r in Ht. apply Ht. by intros x ?%elem_of_nil.
Qed.

(** Fewer guarantees, and blocks that were not there need not be named. *)
Lemma step_weaken ss n n' lim lim' m b m' b' D D' X X' :
  step ss n lim m b m' b' D X -> (n <= n')%nat -> lim' <= lim ->
  (forall x, x ∈ D -> x ∈ D' \/ x ∈ X' \/ forall o, m_cells m !! (x, o) = None) ->
  (forall x, x ∈ D' -> x ∈ D \/ x ∈ X') -> (forall x, x ∈ X -> x ∈ X') ->
  step ss n' lim' m b m' b' D' X'.
Proof.
  intros [Hc Ha Hn Hq Hm Hb] Hn' Hl HD HD' HX. constructor; try done; [| |lia].
  - eapply changed_weaken; [exact Hc|..].
    + intros x Hx. apply elem_of_cons in Hx as [->|Hx]; [left; by left|].
      destruct (HD x Hx) as [|[|]]; [left; by right|right; left; by right|right; by right].
    + intros x Hx. apply elem_of_cons in Hx as [->|Hx]; [left; by left|].
      destruct (HD' x Hx); [left; by right|right; by right].
    + intros x Hx. apply elem_of_cons in Hx as [->|Hx]; [by left|right; by apply HX].
  - intros o c Ho. apply Ha. lia.
Qed.

Lemma step_keeps ss n lim m b m' b' D X B :
  mem_wf m -> step ss n lim m b m' b' D X ->
  (forall q, q ∈ B -> q <> b /\ q ∉ D /\ q ∉ X) -> keeps (m_cells m) (m_cells m') B.
Proof.
  intros Hm Hst HB q Hq o c Hc. destruct (HB q Hq) as (Hqb & HqD & HqX).
  destruct (decide (q = b')) as [->|Hne].
  - destruct (st_block _ _ _ _ _ _ _ _ _ Hst) as [->|Hf]; [done|]. apply Hm in Hc. simpl in Hc. lia.
  - rewrite (st_changed _ _ _ _ _ _ _ _ _ Hst) by (simpl; set_solver). apply drop_blocks_Some.
    split; [done|]. simpl. set_solver.
Qed.

(** A write inside the block of the object, its first [lim] attached bytes
    kept. *)
Lemma upd_step ss lim m b c c0 :
  0 < ss -> mem_wf m -> m_cells m !! (b, 0) = Some c0 -> step ss 0 lim m b (upd (b, 0) c m) b [] [].
Proof.
  intros Hs Hm Hb. constructor; [|..|simpl; lia|simpl; lia| |by left].
  - intros k Hk. rewrite upd_other by (intros ->; simpl in Hk; set_solver).
    rewrite drop_blocks_out; [done|set_solver].
  - intros o c' Ho Hc. simpl in *. by rewrite lookup_insert_ne by (intros [= ?]; lia).
  - by eapply upd_mem_wf.
Qed.

Lemma write_step (ss lim : Z) (m : mem) (b : positive) (f : gmap addr cell -> gmap addr cell) :
  mem_wf m -> m_cells m !! (b, 0) <> None ->
  (forall k : addr, k.1 <> b -> f (m_cells m) !! k = m_cells m !! k) ->
  (forall o c, 0 <= o < lim -> m_cells m !! (b, ss + o) = Some c -> f (m_cells m) !! (b, ss + o) = Some c) ->
  step ss 0 lim m b (set_cells f m) b [] [].
Proof.
  intros Hm Hb Hf Hlim. constructor; [|..|simpl; lia|simpl; lia| |by left].
  - intros k Hk. simpl. rewrite drop_blocks_out by set_solver. apply Hf. set_solver.
  - intros o c Ho Hc. by apply Hlim.
  - intros k c Hk. simpl in *. destruct (decide (k.1 = b)) as [->|Hne].
    + destruct (m_cells m !! (b, 0)) eqn:E; [|done]. by apply Hm in E.
    + rewrite Hf in Hk by done. by apply Hm in Hk.
Qed.

(** Blocks the object is not in go. *)
Lemma drop_step ss lim m b D :
  mem_wf m -> b ∉ D ->
  step ss 0 lim m b (set_cells (drop_blocks D) m) b D [] /\
  m_cells (set_cells (drop_blocks D) m) !! (b, 0) = m_cells m !! (b, 0).
Proof.
  intros Hm Hb. split; [|by apply drop_blocks_out].
  constructor; [|..|simpl; lia|simpl; lia| |by left].
  - intros k Hk. simpl. destruct (decide (k.1 ∈ D)); [by rewrite !drop_blocks_in by set_solver|].
    by rewrite !drop_blocks_out by set_solver.
  - intros o c Ho Hc. simpl in *. by apply drop_blocks_Some.
  - intros k c Hk. simpl in *. apply drop_blocks_Some in Hk as [Hk _]. by apply Hm in Hk.
Qed.

(** [realloc] of the block of the object. *)
Lemma realloc_step ss lim size m b c :
  mem_wf m -> m_cells m !! (b, 0) = Some c -> (1 <= m_quota m)%nat -> 0 < ss -> 0 <= lim -> ss + lim <= size ->
  exists nb m', realloc (Some (b, 0)) size m = Ok (Some (nb, 0), m') /\ step ss 1 lim m b m' nb [] [] /\
    m_cells m' !! (nb, 0) = Some c /\ nb <> b.
Proof.
  intros Hm Hb Hq Hs Hl Hsize. assert (b < m_next m)%positive as Hbn by (by apply Hm in Hb).
  destruct (m_quota m) as [|q] eqn:Eq; [lia|].
  assert (forall o c', 0 <= o < size -> m_cells m !! (b, o) = Some c' ->
    drop_block b (copy_cells (b, 0) size (m_next m, 0) (m_cells m)) !! (m_next m, o) = Some c') as Hcopy.
  { intros o c' Ho Hc. rewrite drop_block_ne by (simpl; lia).
    pose proof (copy_cells_inside (b, 0) size (m_next m, 0) (m_cells m) b o c' Hc) as H. cbn [fst snd] in H.
    replace (0 + (o - 0)) with o in H by lia. apply H. apply in_area_spec. simpl. lia. }
  eexists (m_next m), _. split; [|split; [|split]].
  - unfold realloc. change (0 =? 0) with true. cbv iota. by rewrite Hb, Eq.
  - constructor; [|..|simpl; lia|simpl; lia| |by right].
    + intros k Hk. simpl. destruct (decide (k.1 = b)) as [E|E].
      * rewrite drop_blocks_in by set_solver. destruct k as [k o]. simpl in E. subst k. apply drop_block_eq.
      * rewrite drop_block_ne by done. rewrite (drop_blocks_out [b]) by set_solver.
        apply copy_cells_outside, not_true_iff_false. rewrite in_area_spec. simpl. set_solver.
    + intros o c' Ho Hc. simpl in *. apply Hcopy; [lia|done].
    + intros k c' Hk. simpl in *. unfold drop_block in Hk. apply map_lookup_filter_Some in Hk as [Hk _].
      destruct (decide (k.1 = m_next m)) as [->|Hne]; [lia|].
      rewrite copy_cells_outside in Hk.
      * apply Hm in Hk. lia.
      * apply not_true_iff_false. rewrite in_area_spec. simpl. by intros [? _].
  - simpl. apply Hcopy; [lia|done].
  - lia.
Qed.

(** ** The room behind the buckets *)

Lemma room_loop_spec fuel n off size :
  n + off - size <= 8192 * Z.of_nat fuel ->
  exists size', room_loop (S fuel) n off size = Ok size' /\ size <= size' /\ off + n <= size' /\
    (size' = size \/ size' - IM_ALLOCSIZE < off + n) /\ (IM_ALLOCSIZE | size' - size).
Proof.
  revert size. induction fuel as [|fuel IH]; intros size Hf; cbn [room_loop].
  - destruct (Z.ltb_spec (size - off) n); [lia|]. exists size. split_and!; [done|lia|lia|by left|exists 0; lia].
  - destruct (Z.ltb_spec (size - off) n) as [Hlt|Hge].
    + destruct (IH (size + IM_ALLOCSIZE)) as (size' & Hrun & H1 & H2 & H3 & [k Hk]); [unfold IM_ALLOCSIZE; lia|].
      exists size'. unfold IM_ALLOCSIZE in *. split_and!; [done|lia|lia|lia|exists (k + 1); lia].
    + exists size. split_and!; [done|lia|lia|by left|exists 0; lia].
Qed.

(** [attach_bucket] finds the least room that holds the value. *)
Lemma room_for_spec n off size :
  exists size', room_for n off size = Ok size' /\ size <= size' /\ off + n <= size' /\
    (size' = size \/ size' - IM_ALLOCSIZE < off + n) /\ (IM_ALLOCSIZE | size' - size).
Proof.
  unfold room_for. apply room_loop_spec. unfold IM_ALLOCSIZE.
  destruct (Z_le_gt_dec 0 (n + off - size)); [|nia].
  rewrite Nat2Z.inj_succ, Z2Nat.id by div_lia. div_lia.
Qed.

(** ** The operations on the buckets *)

Section container.
Context {C : Type} {HC : Container C} {HL : ContainerLaws C}.
Context (sh : shape) (Hsh : c_shape sh = true).
Abbreviation ss := (shape_size sh).

Section state.
Context (m : mem) (b : positive) (size off : Z) (es : list entry) (i : nat) (e : entry).
Hypothesis (Hm : mem_wf m) (Hb : holds m b sh size off es) (Hi : es !! i = Some e).

Lemma container_load :
  exists x : C, c_load (Some (b, 0)) m = Ok (x, m) /\ cell_view (c_cell x) = Some (View sh size off es) /\
    m_cells m !! (b, 0) = Some (c_cell x).
Proof using Hb HL Hsh.
  destruct Hb as (c & Hc & Hv). destruct (c_of_view _ _ _ _ _ Hv Hsh) as [x ->].
  exists x. split_and!; [by apply c_load_run|done|done].
Qed.

Lemma shape_positive : 0 < ss.
Proof using Hb. destruct Hb as (c & _ & Hv). by eapply cell_view_size. Qed.

Lemma read_run : read_bucket (Some (b, 0)) (Z.of_nat i) m = Ok (e, m).
Proof using Hb HL Hsh Hi.
  destruct container_load as (x & Hl & Hv & _). unfold read_bucket. run Hl.
  unfold lift. by rewrite (c_view_get _ _ _ _ _ _ _ Hv Hi).
Qed.

Lemma write_run e' : exists m',
  write_bucket (Some (b, 0)) (Z.of_nat i) e' m = Ok (tt, m') /\ holds m' b sh size off (<[i := e']> es) /\
  forall lim, step ss 0 lim m b m' b [] [].
Proof using Hm Hb HL Hsh Hi.
  destruct container_load as (x & Hl & Hv & Hc). destruct (c_view_put _ _ _ _ _ _ _ e' Hv Hi) as (x' & Hp & Hv').
  eexists. split; [|split].
  - unfold write_bucket. run Hl. run_lift Hp. by apply (store_run _ _ _ _ Hc).
  - eexists. split; [apply upd_same|done].
  - intros lim. eapply upd_step; [apply shape_positive|done|done].
Qed.

Lemma set_attached_run size' off' : exists m',
  set_attached (Some (b, 0)) size' off' m = Ok (tt, m') /\ holds m' b sh size' off' es /\
  forall lim, step ss 0 lim m b m' b [] [].
Proof using Hm Hb HL Hsh.
  destruct container_load as (x & Hl & Hv & Hc). eexists. split; [|split].
  - unfold set_attached. run Hl. by apply (store_run _ _ _ _ Hc).
  - eexists. split; [apply upd_same|]. by eapply c_view_attached.
  - intros lim. eapply upd_step; [apply shape_positive|done|done].
Qed.
End state.

(** [run_load H]: the container is read. *)
Ltac run_load H := let x := fresh "x" in let Hl := fresh "Hl" in let Hv := fresh "Hv" in let Hc := fresh "Hc" in
  destruct (container_load _ _ _ _ _ H) as (x & Hl & Hv & Hc); run Hl;
  let H1 := fresh "Hsize" in let H2 := fresh "Hcount" in let H3 := fresh "Has" in let H4 := fresh "Hao" in
  destruct (c_view _ _ _ _ _ Hv) as (H1 & H2 & H3 & H4); rewrite ?H1, ?H2, ?H3, ?H4.

Section state.
Context (m : mem) (b : positive) (size off : Z) (es : list entry) (i : nat) (e : entry).
Hypothesis (Hm : mem_wf m) (Hb : holds m b sh size off es) (Hi : es !! i = Some e) (Hoff : 0 <= off).

Lemma align_run : exists m',
  align_attached (C := C) (Some (b, 0)) (Z.of_nat i) m = Ok (tt, m') /\
  holds m' b sh size (if is_external_object (e_info e) then off + im_align_offset off else off) es /\
  forall lim, step ss 0 lim m b m' b [] [].
Proof using Hm Hb HL Hsh Hi.
  unfold align_attached. run (read_run _ _ _ _ _ _ _ Hb Hi). destruct (is_external_object (e_info e)).
  - run_load Hb. by apply (set_attached_run m b size off es).
  - exists m. split_and!; [done|done|]. intros lim. by apply step_refl.
Qed.

Lemma make_room_run :
  0 < e_length e -> (1 <= m_quota m)%nat -> exists b' m' size',
  make_room (C := C) (Some (b, 0)) (Z.of_nat i) m = Ok (Some (Some (b', 0)), m') /\ holds m' b' sh size' off es /\
  step ss 1 off m b m' b' [] [] /\ off + e_length e <= size'.
Proof using Hm Hb HL Hsh Hi Hoff.
  intros Hn Hq. unfold make_room. run (read_run _ _ _ _ _ _ _ Hb Hi). run_load Hb.
  destruct (room_for_spec (e_length e) off size) as (size' & Hroom & Hs1 & Hs2 & _). run_lift Hroom.
  destruct (c_must_grow size' x) eqn:Hg.
  - pose proof (shape_positive _ _ _ _ _ Hb) as Hpos.
    destruct (realloc_step ss off (ss + size') m b (c_cell x) Hm Hc Hq) as (nb & m1 & Hr & Hst & Hc1 & _); [lia..|].
    run Hr. assert (holds m1 nb sh size off es) as Hb1 by (eexists; done). run_load Hb1.
    destruct (set_attached_run m1 nb size off es (st_mem_wf _ _ _ _ _ _ _ _ _ Hst) Hb1 size' off)
      as (m2 & Hrun & Hb2 & Hst2). run Hrun. exists nb, m2, size'. split_and!; try done.
    by eapply step_then.
  - exists b, m, size. split_and!; [done|done| |destruct (c_grows _ _ Hg); lia].
    eapply (step_weaken ss 0 _ off); [by apply step_refl|lia|lia|set_solver..].
Qed.

Lemma refer_run info : exists m',
  refer_attached (Some (b, 0)) (Z.of_nat i) info m = Ok (tt, m') /\
  holds m' b sh size (off + e_length e)
    (<[i := Entry info (e_length e) (attached_object (e_length e) off)]> es) /\
  forall lim, step ss 0 lim m b m' b [] [].
Proof using Hm Hb HL Hsh Hi Hoff.
  unfold refer_attached. run (read_run _ _ _ _ _ _ _ Hb Hi). run_load Hb.
  destruct (write_run _ _ _ _ _ _ _ Hm Hb Hi (Entry info (e_length e) (attached_object (e_length e) off)))
    as (m1 & Hw & Hb1 & Hst1). run Hw.
  destruct (set_attached_run _ _ _ _ _ (st_mem_wf _ _ _ _ _ _ _ _ _ (Hst1 0)) Hb1 size (off + e_length e))
    as (m2 & Hs & Hb2 & Hst2). exists m2. split_and!; [done|done|].
  intros lim. by eapply step_then.
Qed.
End state.
End container.

(** ** Attaching a value *)

(** A write into the attached area past its first [off] bytes. *)
Lemma area_step (ss off n : Z) (m : mem) (b : positive) (f : gmap addr cell -> gmap addr cell) :
  mem_wf m -> m_cells m !! (b, 0) <> None -> 0 < ss -> 0 <= off -> 0 <= n ->
  (forall k : addr, in_area (b, ss + off) n k = false -> f (m_cells m) !! k = m_cells m !! k) ->
  step ss 0 off m b (set_cells f m) b [] [] /\ m_cells (set_cells f m) !! (b, 0) = m_cells m !! (b, 0).
Proof.
  intros Hm Hb Hs Ho Hn Hf. split; [apply write_step; [done|done|..]|apply Hf].
  - intros k Hk. apply Hf, not_true_iff_false. rewrite in_area_spec. simpl. by intros [? _].
  - intros o c Hlt Hc. rewrite Hf; [done|]. apply not_true_iff_false. rewrite in_area_spec. simpl. lia.
  - apply not_true_iff_false. rewrite in_area_spec. simpl. lia.
Qed.

Section attach.
Context {C : Type} {HC : Container C} {HL : ContainerLaws C}.
Context (sh : shape) (Hsh : c_shape sh = true).
Abbreviation ss := (shape_size sh).
Context (m : mem) (b : positive) (size off : Z) (es : list entry) (i : nat) (e : entry).
Hypothesis (Hm : mem_wf m) (Hb : holds m b sh size off es) (Hi : es !! i = Some e) (Hoff : 0 <= off).
Hypothesis (Hroom : off + e_length e <= size).

Lemma attached_end_run : attached_end (C := C) (Some (b, 0)) (e_length e) m = Ok (Some (b, ss + off), m).
Proof using Hb HL Hsh Hroom.
  destruct (container_load sh Hsh _ _ _ _ _ Hb) as (x & Hl & Hv & Hc). unfold attached_end. run Hl.
  destruct (c_view _ _ _ _ _ Hv) as (-> & _ & -> & ->). destruct (Z.leb_spec (off + e_length e) size); [done|lia].
Qed.

(** A text or block longer than a bucket's value, at [a], which is not a byte of
    the object's block. *)
Lemma attach_bytes_run inline attached a s :
  e_length e = zlen s -> sizeof_im_value < zlen s < 2147483648 -> m_cells m !! a = Some (CBytes s) -> exists m',
  attach_bytes (C := C) (Some (b, 0)) (Z.of_nat i) inline attached (Some a) m = Ok (tt, m') /\
  holds m' b sh size (off + zlen s) (<[i := Entry attached (zlen s) (attached_object (zlen s) off)]> es) /\
  step ss 0 off m b m' b [] [] /\ m_cells m' !! (b, ss + off) = Some (CBytes s).
Proof using Hm Hb HL Hsh Hi Hoff Hroom.
  intros Hlen Hs Ha. pose proof (shape_positive _ _ _ _ _ _ Hb) as Hpos. unfold sizeof_im_value in *.
  unfold attach_bytes. run (read_run sh Hsh _ _ _ _ _ _ _ Hb Hi). rewrite Hlen. no_wrap.
  unfold sizeof_im_value. destruct (Z.leb_spec (zlen s) 16); [lia|]. rewrite <- Hlen. run attached_end_run.
  rewrite Hlen.
  set (f := λ cs : gmap addr cell, <[(b, ss + off) := CBytes s]>
    (filter (λ kc : addr * cell, in_area (b, ss + off) (zlen s) kc.1 = false) cs)).
  assert (memcpy_bytes (Some (b, ss + off)) (Some a) (zlen s) m = Ok (tt, set_cells f m)) as Hcpy.
  { unfold memcpy_bytes. run (load_bytes_run _ _ _ Ha). destruct (Z.ltb_spec (zlen s) 0); [lia|].
    unfold take_bytes. rewrite Z.leb_refl. unfold zlen at 1. rewrite Nat2Z.id, take_ge by done. done. }
  run Hcpy.
  destruct Hb as (c & Hc & Hv).
  destruct (area_step ss off (zlen s) m b f Hm) as [Hst Hhead]; [by rewrite Hc|lia|lia|lia| |].
  { intros k Hk. unfold f. rewrite lookup_insert_ne.
    - destruct (m_cells m !! k) as [c'|] eqn:E; [by apply map_lookup_filter_Some|].
      apply map_lookup_filter_None. by left.
    - intros <-. apply not_true_iff_false in Hk. apply Hk. apply in_area_spec. simpl. lia. }
  assert (holds (set_cells f m) b sh size off es) as Hb1 by (exists c; by rewrite Hhead).
  destruct (refer_run sh Hsh _ _ _ _ _ _ _ (st_mem_wf _ _ _ _ _ _ _ _ _ Hst) Hb1 Hi Hoff attached)
    as (m2 & Hr & Hb2 & Hst2). exists m2. rewrite Hlen in Hb2. split_and!; [exact Hr|exact Hb2| |].
  - by eapply step_then.
  - apply (st_carries _ _ _ _ _ _ _ _ _ (Hst2 (off + 1)) off); [simpl; lia|]. simpl. apply lookup_insert_eq.
Qed.

(** A serialised object at the start of another block. *)
Lemma attach_object_run attached q sh' ts' size' off' :
  object_at (m_cells m) (q, 0) sh' ts' size' off' [] -> e_length e = shape_size sh' + off' -> exists m',
  attach_object (C := C) (Some (b, 0)) (Z.of_nat i) attached (Some (q, 0)) m = Ok (tt, m') /\
  holds m' b sh size (off + e_length e)
    (<[i := Entry attached (e_length e) (attached_object (e_length e) off)]> es) /\
  step ss 0 off m b m' b [] [] /\ object_at (m_cells m') (b, ss + off) sh' ts' size' off' [].
Proof using Hm Hb HL Hsh Hi Hoff Hroom.
  intros Hobj Hlen. pose proof (shape_positive _ _ _ _ _ _ Hb) as Hpos.
  destruct (object_at_size _ _ _ _ _ _ _ Hobj) as [Hs' Ho'].
  unfold attach_object. run (read_run sh Hsh _ _ _ _ _ _ _ Hb Hi). run attached_end_run.
  set (f := copy_cells (q, 0) (e_length e) (b, ss + off)).
  assert (memcpy (Some (b, ss + off)) (Some (q, 0)) (e_length e) m = Ok (tt, set_cells f m)) as Hcpy by done. run Hcpy.
  destruct Hb as (c & Hc & Hv).
  destruct (area_step ss off (e_length e) m b f Hm) as [Hst Hhead]; [by rewrite Hc|lia|lia|lia| |].
  { intros k Hk. by apply copy_cells_outside. }
  assert (holds (set_cells f m) b sh size off es) as Hb1 by (exists c; by rewrite Hhead).
  destruct (refer_run sh Hsh _ _ _ _ _ _ _ (st_mem_wf _ _ _ _ _ _ _ _ _ Hst) Hb1 Hi Hoff attached)
    as (m2 & Hr & Hb2 & Hst2). exists m2. split_and!; [exact Hr|exact Hb2| |].
  - by eapply step_then.
  - apply (object_moves _ _ (m_cells (set_cells f m)) _ (b, ss + off)); [|..].
    + apply (object_moves _ _ (m_cells m) _ (q, 0)); [done| |by intros ? ?%elem_of_nil].
      intros o c' Ho Hc'. simpl in *. rewrite <- Hlen in Ho.
      pose proof (copy_cells_inside (q, 0) (e_length e) (b, ss + off) (m_cells m) q o c' Hc') as H. simpl in H.
      rewrite Z.sub_0_r in H. apply H. apply in_area_spec. simpl. lia.
    + intros o c' Ho Hc'. simpl in *. rewrite <- !Z.add_assoc in *.
      apply (st_carries _ _ _ _ _ _ _ _ _ (Hst2 (off + e_length e)) (off + o)); [simpl; lia|done].
    + by intros ? ?%elem_of_nil.
Qed.
End attach.
