(* ===== verification/ImTreeFacts.v ===== *)
(** * What the library does to a tree in memory

    The destructors of [im_hashtable.c] and [im_vector.c] free exactly the
    blocks a tree owns, and two objects that are the same tree answer the same
    to every getter. *)

From S2P Require Import Prelude LibC CFloat ImTypes ImHashTable ImTable ImInsert ImVector Beai3Dict.
From S2P Require Import ImSerialize ImTree ImSerializeFacts.

(** The memory without some blocks. *)
Abbreviation free_blocks D m := (set_cells (drop_blocks D) m).

Lemma drop_blocks_app D1 D2 cs : drop_blocks D2 (drop_blocks D1 cs) = drop_blocks (D1 ++ D2) cs.
Proof.
  apply map_eq. intros k. destruct (decide (k.1 ∈ D2)); [by rewrite !drop_blocks_in by set_solver|].
  rewrite drop_blocks_out by done. destruct (decide (k.1 ∈ D1)); [by rewrite !drop_blocks_in by set_solver|].
  by rewrite !drop_blocks_out by set_solver.
Qed.

Lemma drop_blocks_one b cs : drop_block b cs = drop_blocks [b] cs.
Proof.
  apply map_eq. intros [k o]. destruct (decide (k = b)) as [->|Hne].
  - rewrite drop_blocks_in by set_solver. apply drop_block_eq.
  - rewrite drop_blocks_out by (simpl; set_solver). by apply drop_block_ne.
Qed.

Lemma drop_blocks_equiv D D' cs : (forall x, x ∈ D <-> x ∈ D') -> drop_blocks D cs = drop_blocks D' cs.
Proof.
  intros H. apply map_eq. intros k. destruct (decide (k.1 ∈ D)).
  - by rewrite !drop_blocks_in by (done || by apply H).
  - by rewrite !drop_blocks_out by (done || by rewrite <- H).
Qed.

Lemma free_blocks_app D1 D2 m : free_blocks D2 (free_blocks D1 m) = free_blocks (D1 ++ D2) m.
Proof. unfold set_cells. simpl. by rewrite drop_blocks_app. Qed.

Lemma free_blocks_nil m : free_blocks [] m = m.
Proof.
  unfold set_cells. replace (drop_blocks [] (m_cells m)) with (m_cells m); [by destruct m|].
  apply map_eq. intros k. rewrite drop_blocks_out; [done|apply not_elem_of_nil].
Qed.

Lemma free_blocks_equiv D D' m : (forall x, x ∈ D <-> x ∈ D') -> free_blocks D m = free_blocks D' m.
Proof. intros H. unfold set_cells. by rewrite (drop_blocks_equiv D D'). Qed.

Lemma freep_run m q c : m_cells m !! (q, 0) = Some c -> freep (Some (q, 0)) m = Ok (tt, free_blocks [q] m).
Proof.
  intros H. unfold freep. change (0 =? 0) with true. cbv iota. rewrite H.
  unfold set_cells. by rewrite drop_blocks_one.
Qed.

(** The values in other blocks stay. *)
Lemma drop_keeps D cs B : (forall q, q ∈ B -> q ∉ D) -> keeps cs (drop_blocks D cs) B.
Proof. intros H q Hq o c Hc. apply drop_blocks_Some. split; [done|]. by apply H. Qed.

Lemma drop_carries D cs (base : addr) lim : base.1 ∉ D -> carries cs base lim (drop_blocks D cs) base.
Proof. intros H o c _ Hc. by apply drop_blocks_Some. Qed.

(** ** The two kinds of destructors as one *)

Definition destroy_of (sh : shape) : nat -> ptr -> im_info -> M unit :=
  match sh with SHash _ _ _ => im_destroy_hashtable_with_info | SVector _ => im_destroy_vector_with_info end.
Definition free_of (sh : shape) : nat -> ptr -> Z -> M unit :=
  match sh with SHash _ _ _ => hashtable_free_bucket | SVector _ => vector_free_bucket end.

(** [free_bucket], on the entry read. *)
Definition free_entry (fuel : nat) (base : addr) (e : entry) : M unit :=
  match e_info e, e_value e with
  | IM_EXTERNAL_STRING, external_object _ p => freep p
  | IM_EXTERNAL_BLOCK, external_object _ p => freep p
  | IM_EXTERNAL_NESTED, external_object _ p => im_destroy_hashtable_with_info fuel p (e_info e)
  | IM_EXTERNAL_VECTOR, external_object _ p => im_destroy_vector_with_info fuel p (e_info e)
  | IM_ATTACHED_NESTED, attached_object _ o =>
      im_destroy_hashtable_with_info fuel (Some (base.1, base.2 + o)) (e_info e)
  | IM_ATTACHED_VECTOR, attached_object _ o =>
      im_destroy_vector_with_info fuel (Some (base.1, base.2 + o)) (e_info e)
  | (IM_EXTERNAL_STRING | IM_EXTERNAL_BLOCK | IM_EXTERNAL_NESTED | IM_EXTERNAL_VECTOR
     | IM_ATTACHED_NESTED | IM_ATTACHED_VECTOR), _ => fault
  | _, _ => mret tt
  end.

Section object.
Context (m : mem) (a : addr) (c : cell) (sh : shape) (size off : Z) (es : list entry).
Hypothesis (Hc : m_cells m !! a = Some c) (Hv : cell_view c = Some (View sh size off es)).

Lemma free_unfold fuel i e :
  es !! i = Some e ->
  free_of sh (S fuel) (Some a) (Z.of_nat i) m = free_entry fuel (a.1, a.2 + shape_size sh) e m.
Proof using Hc Hv.
  intros Hi. destruct a as [b o]. destruct c as [h|v|]; simpl in Hv; [| |done].
  - apply hash_view in Hv as [Hn [= -> -> -> ->]]. rewrite list_lookup_fmap in Hi.
    apply fmap_Some in Hi as (x & Hx & ->). cbn [free_of hashtable_free_bucket].
    run (load_hash_run _ _ _ Hc). rewrite (M_lift_ok _ _ _ x) by (apply zget_lookup; [lia|by rewrite Nat2Z.id]).
    cbv beta. unfold free_entry, hash_entry. simpl. unfold zlen. rewrite length_fmap. fold (zlen (h_buckets h)). rewrite Hn.
    done.
  - apply vector_view in Hv as [Hn [= -> -> -> ->]]. rewrite list_lookup_fmap in Hi.
    apply fmap_Some in Hi as (x & Hx & ->). apply lookup_take_Some in Hx as [Hx _]. cbn [free_of vector_free_bucket].
    run (load_vector_run _ _ _ Hc). rewrite (M_lift_ok _ _ _ x) by (apply zget_lookup; [lia|by rewrite Nat2Z.id]).
    done.
Qed.

Lemma destroy_unfold fuel info :
  destroy_of sh (S fuel) (Some a) info m =
    (for_range (length es) 0 (free_of sh fuel (Some a)) ;;
     if bool_decide (info = external_info sh) then freep (Some a) else mret tt) m.
Proof using Hc Hv.
  destruct c as [h|v|]; simpl in Hv; [| |done].
  - apply hash_view in Hv as [Hn [= -> -> -> ->]]. cbn [destroy_of im_destroy_hashtable_with_info].
    run (load_hash_run _ _ _ Hc). rewrite Hn, length_fmap. unfold zlen. by rewrite Nat2Z.id.
  - apply vector_view in Hv as [Hn [= -> -> -> ->]]. cbn [destroy_of im_destroy_vector_with_info].
    run (load_vector_run _ _ _ Hc). rewrite length_fmap, length_take. unfold zlen in Hn. by rewrite Nat.min_l by lia.
Qed.
End object.

(** ** Freeing a tree *)

(** [free_bucket] on the value [t] frees the blocks it owns. *)
Definition freed_well (t : tree) : Prop :=
  forall fuel m base lim e B, (2 * depth t <= fuel)%nat ->
    value_in t (m_cells m) base lim e B -> NoDup B -> base.1 ∉ B ->
    free_entry fuel base e m = Ok (tt, free_blocks B m).

(** The loop of a destructor, the entries before [i] done. *)
Lemma free_loop fuel a c sh size off es :
  cell_view c = Some (View sh size off es) ->
  forall ts es2 m B i,
  m_cells m !! a = Some c -> (forall t, t ∈ ts -> freed_well t /\ (2 * depth t <= fuel)%nat) -> drop i es = es2 ->
  each (λ t e B, value_in t (m_cells m) (a.1, a.2 + shape_size sh) off e B) ts es2 B ->
  NoDup B -> a.1 ∉ B ->
  for_range (length es2) (Z.of_nat i) (free_of sh (S fuel) (Some a)) m = Ok (tt, free_blocks B m).
Proof.
  intros Hv. induction ts as [|t ts IH]; intros [|e es2] m B i Hc Hts Hdrop; simpl; try done.
  - intros -> _ _. by rewrite free_blocks_nil.
  - intros (B1 & B2 & -> & Hval & Heach) Hnd Ha. apply NoDup_app in Hnd as (Hnd1 & Hdis & Hnd2).
    assert (es !! i = Some e) as Hi by (by rewrite <- (Nat.add_0_r i), <- lookup_drop, Hdrop).
    destruct (Hts t) as [Hfree Hd]; [by left|].
    pose proof (free_unfold m a c sh size off es Hc Hv fuel i e Hi) as Hun.
    rewrite (Hfree fuel m (a.1, a.2 + shape_size sh) off e B1) in Hun; [|done|done|done|set_solver].
    run Hun. replace (Z.of_nat i + 1) with (Z.of_nat (S i)) by lia. rewrite <- free_blocks_app.
    apply IH; [|set_solver| | |done|set_solver].
    + simpl. apply drop_blocks_Some. split; [done|set_solver].
    + rewrite <- Nat.add_1_r, <- drop_drop. by rewrite Hdrop.
    + eapply each_moves; [exact Heach| | |done].
      * apply drop_carries. set_solver.
      * apply drop_keeps. intros q Hq Hq1. by eapply Hdis.
Qed.

(** A destructor on the object at [a]. *)
Lemma destroy_object fuel m a sh ts size off B info :
  (forall t, t ∈ ts -> freed_well t) -> (2 * depth (TNode sh ts) <= fuel)%nat ->
  object_at (m_cells m) a sh ts size off B -> NoDup B -> a.1 ∉ B ->
  (info = external_info sh -> a.2 = 0) ->
  destroy_of sh fuel (Some a) info m =
    Ok (tt, free_blocks (if bool_decide (info = external_info sh) then a.1 :: B else B) m).
Proof.
  intros Hts Hf (c & es & Hc & Hv & _ & Heach) Hnd Ha Hinfo. simpl in Hf.
  destruct fuel as [|[|fuel]]; [lia|lia|]. rewrite (destroy_unfold m a c sh size off es Hc Hv).
  rewrite (M_bind_ok _ _ _ _ _ (free_loop fuel a c sh size off es Hv ts es m B 0 Hc
    ltac:(intros t Ht; split; [by apply Hts|]; pose proof (largest_ge depth t ts Ht); lia) eq_refl Heach Hnd Ha)).
  cbv beta. case_bool_decide as E; [|done]. destruct a as [q o]. cbn [fst snd] in *. rewrite Hinfo in * by done.
  rewrite (freep_run _ q c) by (apply drop_blocks_Some; done). rewrite free_blocks_app.
  f_equal. f_equal. apply free_blocks_equiv. set_solver.
Qed.

Lemma tree_freed_well t : freed_well t.
Proof.
  induction t as [e0|s|s|sh ts IH] using tree_ind'; intros fuel m base lim e B Hf Hval Hnd Hbase.
  - destruct Hval as (-> & Hin & ->). rewrite free_blocks_nil. unfold free_entry. by destruct (e_info e0), (e_value e0).
  - destruct Hval as (_ & [(sz & q & -> & Hq & ->)|(sz & o & -> & _ & _ & Hq & ->)]).
    + by eapply freep_run.
    + by rewrite free_blocks_nil.
  - destruct Hval as (_ & [(sz & q & -> & Hq & ->)|(sz & o & -> & _ & _ & Hq & ->)]).
    + by eapply freep_run.
    + by rewrite free_blocks_nil.
  - rewrite Forall_forall in IH. apply value_in_node in Hval.
    destruct Hval as [(n & sz & q & size & offset & B' & -> & -> & Hobj)|(n & sz & o & size & offset & -> & Ho & Hn & Hsz & Hobj)].
    + apply NoDup_cons in Hnd as [Hq Hnd].
      pose proof (destroy_object fuel m (q, 0) sh ts size offset B' (external_info sh) IH Hf Hobj Hnd Hq ltac:(done)) as Hd.
      rewrite bool_decide_eq_true_2 in Hd by done. unfold free_entry. by destruct sh.
    + pose proof (destroy_object fuel m (base.1, base.2 + o) sh ts size offset B (attached_info sh) IH Hf Hobj Hnd Hbase) as Hd.
      rewrite bool_decide_eq_false_2 in Hd by (by destruct sh). unfold free_entry. destruct sh; by apply Hd.
Qed.

(** The whole object, at the start of its block. *)
Lemma destroy_tree_run fuel m q sh ts size off B :
  (2 * depth (TNode sh ts) <= fuel)%nat -> object_at (m_cells m) (q, 0) sh ts size off B -> NoDup (q :: B) ->
  destroy_of sh fuel (Some (q, 0)) (external_info sh) m = Ok (tt, free_blocks (q :: B) m).
Proof.
  intros Hf Hobj Hnd. apply NoDup_cons in Hnd as [Hq Hnd].
  rewrite (destroy_object fuel m (q, 0) sh ts size off B) by (done || intros t _; apply tree_freed_well).
  by rewrite bool_decide_eq_true_2.
Qed.

(** ** Reading nested dictionaries and arrays

    The getters answer from the tree alone: two objects that are the same tree,
    wherever their parts lie, give the same answers, and the same nested
    objects. *)

(** What a call returns, the memory aside. *)
Definition answer {A} (r : outcome (A * mem)) : outcome A :=
  match r with Ok (a, _) => Ok a | Fault => Fault | NoFuel => NoFuel end.

Lemma answer_bind {A B} (c : M A) (f : A -> M B) m :
  (forall a m', c m = Ok (a, m') -> m' = m) -> answer ((x ← c; f x) m) = (x ← answer (c m); answer (f x m)).
Proof. intros H. unfold mbind at 1, M_bind. destruct (c m) as [[a m']| |] eqn:E; [|done|done]. by rewrite (H a m' eq_refl). Qed.

(** A result that does not depend on the memory. *)
Lemma answer_lift {A B} (o : outcome A) (g : A -> B) m : answer ((x ← lift o; mret (g x)) m) = (x ← o; Ok (g x)).
Proof. by destruct o. Qed.

(** ** Buckets that hold the same value *)

Section same.
Context (m1 m2 : mem) (base1 base2 : addr) (lim1 lim2 : Z).

Definition same_value (e1 e2 : entry) : Prop := exists t B1 B2,
  value_in t (m_cells m1) base1 lim1 e1 B1 /\ value_in t (m_cells m2) base2 lim2 e2 B2.

Lemma each_same ts es1 es2 B1 B2 :
  each (λ t e B, value_in t (m_cells m1) base1 lim1 e B) ts es1 B1 ->
  each (λ t e B, value_in t (m_cells m2) base2 lim2 e B) ts es2 B2 -> Forall2 same_value es1 es2.
Proof using Type.
  revert es1 es2 B1 B2. induction ts as [|t ts IH]; intros [|e1 es1] [|e2 es2] B1 B2; simpl; try done.
  intros (B3 & B4 & -> & H1 & He1) (B5 & B6 & -> & H2 & He2). constructor; [by exists t, B3, B5|by eapply IH].
Qed.

(** Both are free, or both are in use. *)
Lemma same_free e1 e2 :
  same_value e1 e2 ->
  bool_decide (e_info e1 = IM_EMPTY) = bool_decide (e_info e2 = IM_EMPTY) /\
  bool_decide (e_info e1 = IM_DELETED) = bool_decide (e_info e2 = IM_DELETED).
Proof using Type.
  intros (t & B1 & B2 & H1 & H2).
  assert (forall e cs base lim B, value_in t cs base lim e B ->
    match t with TPlain e' => e = e' | _ => e_info e <> IM_EMPTY /\ e_info e <> IM_DELETED end) as Hinfo.
  { intros e cs base lim B H. destruct t as [e0|s|s|sh ts]; [by destruct H|..].
    - by destruct H as (_ & [(sz & q & -> & _)|(sz & o & -> & _)]).
    - by destruct H as (_ & [(sz & q & -> & _)|(sz & o & -> & _)]).
    - apply value_in_node in H. destruct H as [(n & sz & q & size & off & B' & -> & _)|(n & sz & o & size & off & -> & _)];
        by destruct sh. }
  pose proof (Hinfo _ _ _ _ _ H1) as I1. pose proof (Hinfo _ _ _ _ _ H2) as I2.
  destruct t; [by subst|..]; destruct I1, I2; rewrite !bool_decide_eq_false_2 by done; done.
Qed.
End same.

(** ** Looking up *)

Section find.
Context (h1 h2 : im_hashtable).
Hypothesis (Hn : h_number_of_buckets h1 = h_number_of_buckets h2).
Hypothesis (Hb : Forall2 (λ b1 b2, hb_key b1 = hb_key b2 /\
  bool_decide (hb_info b1 = IM_EMPTY) = bool_decide (hb_info b2 = IM_EMPTY)) (h_buckets h1) (h_buckets h2)).

Lemma find_loop_same key fuel : forall position collision,
  im_find_loop fuel h1 key position collision = im_find_loop fuel h2 key position collision.
Proof using Hn Hb.
  induction fuel as [|fuel IH]; intros p c; [done|]. cbn [im_find_loop]. rewrite Hn.
  unfold zget. destruct (Z.ltb_spec p 0) as [|Hp]; [done|].
  destruct (h_buckets h1 !! Z.to_nat p) as [b1|] eqn:E1.
  - destruct (Forall2_lookup_l _ _ _ _ _ Hb E1) as (b2 & E2 & Hk & He). rewrite E2. simpl.
    unfold im_stop. rewrite Hk, He. by destruct (_ || _).
  - apply lookup_ge_None in E1. rewrite (Forall2_length _ _ _ Hb) in E1. by rewrite lookup_ge_None_2.
Qed.

Lemma find_same key : im_find_element h1 key = im_find_element h2 key.
Proof using Hn Hb.
  unfold im_find_element, im_hashcode. rewrite Hn. destruct (_ =? 0); [done|]. cbn [mbind outcome_bind]. apply find_loop_same.
Qed.
End find.

(** ** The getters *)

Section getters.
Context (m1 m2 : mem) (a1 a2 : addr) (inuse empty : Z) (keys : list bytes) (ts : list tree).
Abbreviation sh := (SHash inuse empty keys).
Context (size1 size2 off1 off2 : Z) (B1 B2 : list positive).
Hypothesis (H1 : object_at (m_cells m1) a1 sh ts size1 off1 B1).
Hypothesis (H2 : object_at (m_cells m2) a2 sh ts size2 off2 B2).
Abbreviation same := (same_value m1 m2 (a1.1, a1.2 + shape_size sh) (a2.1, a2.2 + shape_size sh) off1 off2).

(** The two switches of a getter agree on buckets with the same value. *)
Definition same_switch {T} (f1 f2 : im_hashtable -> im_hash_bucket -> M T) : Prop :=
  forall h1 h2 b1 b2, h_number_of_buckets h1 = zlen keys -> h_number_of_buckets h2 = zlen keys ->
    same (hash_entry b1) (hash_entry b2) -> answer (f1 h1 b1 m1) = answer (f2 h2 b2 m2).

Lemma same_tables : exists h1 h2,
  m_cells m1 !! a1 = Some (CHash h1) /\ m_cells m2 !! a2 = Some (CHash h2) /\
  h_number_of_buckets h1 = zlen keys /\ h_number_of_buckets h2 = zlen keys /\
  Forall2 (λ b1 b2, hb_key b1 = hb_key b2 /\ same (hash_entry b1) (hash_entry b2)) (h_buckets h1) (h_buckets h2).
Proof using H1 H2.
  destruct H1 as (c1 & es1 & Hc1 & Hv1 & _ & He1), H2 as (c2 & es2 & Hc2 & Hv2 & _ & He2).
  destruct c1 as [h1|v1|]; [|simpl in Hv1; by case_match|done]. destruct c2 as [h2|v2|]; [|simpl in Hv2; by case_match|done].
  apply hash_view in Hv1 as [Hn1 [= -> -> -> -> -> ->]]. apply hash_view in Hv2 as [Hn2 [= Hi He Hk -> -> ->]].
  exists h1, h2. split_and!; [done|done|unfold zlen in *; by rewrite length_fmap|rewrite Hk; unfold zlen in *; by rewrite length_fmap|].
  pose proof (each_same _ _ _ _ _ _ _ _ _ _ _ He1 He2) as Hs. apply Forall2_fmap_1 in Hs.
  apply Forall2_same_length_lookup. split; [by eapply Forall2_length|].
  intros i b1 b2 Hb1 Hb2. split; [|exact (Forall2_lookup_lr _ _ _ _ _ _ Hs Hb1 Hb2)].
  assert (Some (hb_key b1) = Some (hb_key b2)) as [= ->]; [|done].
  transitivity ((hb_key <$> h_buckets h1) !! i); [by rewrite list_lookup_fmap, Hb1|].
  by rewrite Hk, list_lookup_fmap, Hb2.
Qed.

(** Any relation between answers will do that relates equal failures. *)
Lemma with_bucket_rel {T} (R : outcome (Z * option T) -> outcome (Z * option T) -> Prop) key value f1 f2 :
  R (Ok (-1, None)) (Ok (-1, None)) -> R Fault Fault -> R NoFuel NoFuel ->
  (forall h1 h2 b1 b2, h_number_of_buckets h1 = zlen keys -> h_number_of_buckets h2 = zlen keys ->
    same (hash_entry b1) (hash_entry b2) -> R (answer (f1 h1 b1 m1)) (answer (f2 h2 b2 m2))) ->
  R (answer (with_bucket (Some a1) key value f1 m1)) (answer (with_bucket (Some a2) key value f2 m2)).
Proof using H1 H2.
  intros Hr1 Hr2 Hr3 Hf. destruct same_tables as (h1 & h2 & Hc1 & Hc2 & Hn1 & Hn2 & Hb). unfold with_bucket.
  destruct key as [key|], value; try done.
  run (load_hash_run _ _ _ Hc1). run (load_hash_run _ _ _ Hc2).
  assert (im_find_element h1 key = im_find_element h2 key) as Hfind.
  { apply find_same; [congruence|]. eapply Forall2_impl; [exact Hb|]. intros b1 b2 [Hk Hs]. split; [done|].
    by apply same_free in Hs as [He _]. }
  unfold im_retrieve_element_by_key. rewrite Hfind. destruct (im_find_element h2 key) as [p| |]; [|done|done].
  cbn [mbind outcome_bind]. unfold im_retrieve_element, zget.
  destruct (Z.ltb_spec p 0); [done|]. destruct (h_buckets h1 !! Z.to_nat p) as [b1|] eqn:E1.
  - destruct (Forall2_lookup_l _ _ _ _ _ Hb E1) as (b2 & E2 & _ & Hs). rewrite E2. cbn [or_fault mbind outcome_bind].
    destruct (same_free _ _ _ _ _ _ _ _ Hs) as [He Hd]. simpl in He, Hd. unfold is_free. rewrite He, Hd.
    destruct (_ || _); [done|]. unfold mbind, M_bind, lift. simpl. by apply Hf.
  - apply lookup_ge_None in E1. rewrite (Forall2_length _ _ _ Hb) in E1. by rewrite lookup_ge_None_2.
Qed.

Lemma with_bucket_same {T} key value (f1 f2 : im_hashtable -> im_hash_bucket -> M (Z * option T)) :
  same_switch f1 f2 -> answer (with_bucket (Some a1) key value f1 m1) = answer (with_bucket (Some a2) key value f2 m2).
Proof using H1 H2. by apply (with_bucket_rel eq). Qed.

Lemma attached_at (a : addr) (h : im_hashtable) o :
  h_number_of_buckets h = zlen keys -> attached (Some a) h o = Some (a.1, a.2 + shape_size sh + o).
Proof using Type. intros Hn. unfold attached. destruct a as [b o']. simpl. rewrite Hn. do 2 f_equal. lia. Qed.

(** The runs of bytes read are the same. *)
Ltac read_bytes :=
  repeat match goal with
  | H : m_cells ?m !! ?a = Some (CBytes _) |- context [mbind _ (load_bytes (Some ?a)) ?m] => run (load_bytes_run _ _ _ H)
  | Hn : h_number_of_buckets ?h = zlen keys |- context [attached (Some ?a) ?h ?o] => rewrite (attached_at a h o Hn)
  end.

(** ... and what follows does not depend on the memory. *)
Ltac settle := rewrite ?M_bind_assoc; read_bytes; repeat run_ret; by rewrite !answer_lift.

Ltac switch :=
  intros h1 h2 [k1 i1 n1 v1] [k2 i2 n2 v2] Hn1 Hn2 (t & B3 & B4 & Hv1 & Hv2);
  unfold hash_entry in Hv1, Hv2; cbn [hb_info hb_value_length hb_value] in Hv1, Hv2;
  destruct t as [e0|s|s|sh' ts'];
  [ destruct Hv1 as (<- & Hin & _), Hv2 as ([= -> -> ->] & _ & _)
  | destruct Hv1 as (_ & [(sz1 & q1 & [= -> -> ->] & Hc1 & _)|(sz1 & o1 & [= -> -> ->] & _ & _ & Hc1 & _)]),
      Hv2 as (_ & [(sz2 & q2 & [= -> -> ->] & Hc2 & _)|(sz2 & o2 & [= -> -> ->] & _ & _ & Hc2 & _)])
  | destruct Hv1 as (_ & [(sz1 & q1 & [= -> -> ->] & Hc1 & _)|(sz1 & o1 & [= -> -> ->] & _ & _ & Hc1 & _)]),
      Hv2 as (_ & [(sz2 & q2 & [= -> -> ->] & Hc2 & _)|(sz2 & o2 & [= -> -> ->] & _ & _ & Hc2 & _)])
  | apply value_in_node in Hv1, Hv2;
    destruct Hv1 as [(n3 & sz1 & q1 & s1 & f1 & B5 & [= -> -> ->] & _)|(n3 & sz1 & o1 & s1 & f1 & [= -> -> ->] & _)],
      Hv2 as [(n4 & sz2 & q2 & s2 & f2 & B6 & [= -> -> ->] & _)|(n4 & sz2 & o2 & s2 & f2 & [= -> -> ->] & _)] ].

Lemma number_switch {T} (of_int : Z -> T) of_float of_text :
  same_switch (number_of_bucket of_int of_float of_text (Some a1)) (number_of_bucket of_int of_float of_text (Some a2)).
Proof using Type.
  switch; unfold number_of_bucket; cbn [hb_info hb_value].
  - destruct i1; try done; destruct v1; try done; settle.
  - settle.
  - settle.
  - settle.
  - settle.
  - done.
  - done.
  - done.
  - done.
  - by destruct sh'.
  - by destruct sh'.
  - by destruct sh'.
  - by destruct sh'.
Qed.

Lemma string_switch size :
  same_switch (λ h b,
      text ← string_of_bucket size (Some a1) h b;
      match text with None => mret (-1, None) | Some buf => n ← lift (strlen buf); mret (s32 n, Some buf) end)
    (λ h b,
      text ← string_of_bucket size (Some a2) h b;
      match text with None => mret (-1, None) | Some buf => n ← lift (strlen buf); mret (s32 n, Some buf) end).
Proof using Type.
  switch; unfold string_of_bucket; cbn [hb_info hb_value].
  - destruct i1; try done; destruct v1; try done; settle.
  - settle.
  - settle.
  - settle.
  - settle.
  - done.
  - done.
  - done.
  - done.
  - by destruct sh'.
  - by destruct sh'.
  - by destruct sh'.
  - by destruct sh'.
Qed.

Lemma block_switch size :
  same_switch (λ h b,
      let copy_size := if size <? hb_value_length b then size else hb_value_length b in
      match hb_info b, hb_value b with
      | IM_BLOCK, string_value s => x ← lift (take_bytes copy_size s); mret (s32 copy_size, Some x)
      | IM_EXTERNAL_BLOCK, external_object _ p =>
          s ← load_bytes p; x ← lift (take_bytes copy_size s); mret (s32 copy_size, Some x)
      | IM_ATTACHED_BLOCK, attached_object _ o =>
          s ← load_bytes (attached (Some a1) h o); x ← lift (take_bytes copy_size s); mret (s32 copy_size, Some x)
      | (IM_BLOCK | IM_EXTERNAL_BLOCK | IM_ATTACHED_BLOCK), _ => fault
      | _, _ => mret (-1, None)
      end)
    (λ h b,
      let copy_size := if size <? hb_value_length b then size else hb_value_length b in
      match hb_info b, hb_value b with
      | IM_BLOCK, string_value s => x ← lift (take_bytes copy_size s); mret (s32 copy_size, Some x)
      | IM_EXTERNAL_BLOCK, external_object _ p =>
          s ← load_bytes p; x ← lift (take_bytes copy_size s); mret (s32 copy_size, Some x)
      | IM_ATTACHED_BLOCK, attached_object _ o =>
          s ← load_bytes (attached (Some a2) h o); x ← lift (take_bytes copy_size s); mret (s32 copy_size, Some x)
      | (IM_BLOCK | IM_EXTERNAL_BLOCK | IM_ATTACHED_BLOCK), _ => fault
      | _, _ => mret (-1, None)
      end).
Proof using Type.
  switch; cbn [hb_info hb_value hb_value_length].
  - destruct i1; try done; destruct v1; try done; settle.
  - done.
  - done.
  - done.
  - done.
  - settle.
  - settle.
  - settle.
  - settle.
  - by destruct sh'.
  - by destruct sh'.
  - by destruct sh'.
  - by destruct sh'.
Qed.

(** The same answer, or pointers to objects that are the same tree. *)
Definition same_object (r1 r2 : outcome (Z * option DictHandle)) : Prop :=
  match r1, r2 with
  | Ok (c1, Some (Some p1)), Ok (c2, Some (Some p2)) =>
      c1 = c2 /\ exists sh' ts' s1 s2 o1 o2 B3 B4,
        object_at (m_cells m1) p1 sh' ts' s1 o1 B3 /\ object_at (m_cells m2) p2 sh' ts' s2 o2 B4
  | _, _ => r1 = r2
  end.

Lemma object_value p1 p2 sh' ts' s1 s2 o1 o2 B3 B4 :
  object_at (m_cells m1) p1 sh' ts' s1 o1 B3 -> object_at (m_cells m2) p2 sh' ts' s2 o2 B4 ->
  same_object (Ok (0, Some (Some p1))) (Ok (0, Some (Some p2))).
Proof using Type. intros Ho1 Ho2. split; [done|]. by exists sh', ts', s1, s2, o1, o2, B3, B4. Qed.

(** Nested objects. *)
Ltac switch_object :=
  intros h1 h2 [k1 i1 n1 v1] [k2 i2 n2 v2] Hn1 Hn2 (t & B3 & B4 & Hv1 & Hv2);
  unfold hash_entry in Hv1, Hv2; cbn [hb_info hb_value_length hb_value] in *;
  destruct t as [e0|s|s|sh' ts'];
  [ destruct Hv1 as (<- & Hin & _), Hv2 as ([= -> -> ->] & _ & _); by destruct i1
  | destruct Hv1 as (_ & [(sz1 & q1 & [= -> -> ->] & _)|(sz1 & o1 & [= -> -> ->] & _)]),
      Hv2 as (_ & [(sz2 & q2 & [= -> -> ->] & _)|(sz2 & o2 & [= -> -> ->] & _)]); done
  | destruct Hv1 as (_ & [(sz1 & q1 & [= -> -> ->] & _)|(sz1 & o1 & [= -> -> ->] & _)]),
      Hv2 as (_ & [(sz2 & q2 & [= -> -> ->] & _)|(sz2 & o2 & [= -> -> ->] & _)]); done
  | apply value_in_node in Hv1, Hv2;
    destruct Hv1 as [(n3 & sz1 & q1 & s1 & f1 & B5 & [= -> -> ->] & _ & Ho1)|(n3 & sz1 & o1 & s1 & f1 & [= -> -> ->] & _ & _ & _ & Ho1)],
      Hv2 as [(n4 & sz2 & q2 & s2 & f2 & B6 & [= -> -> ->] & _ & Ho2)|(n4 & sz2 & o2 & s2 & f2 & [= -> -> ->] & _ & _ & _ & Ho2)];
    (destruct sh'; cbn [external_info attached_info]; rewrite ?(attached_at a1 h1 _ Hn1), ?(attached_at a2 h2 _ Hn2); try done; try (by eapply object_value)) ].

Lemma get_dict_same key value :
  same_object (answer (GetDictDict (Some a1) key value m1)) (answer (GetDictDict (Some a2) key value m2)).
Proof using H1 H2. apply (with_bucket_rel same_object); [done..|]. switch_object. Qed.

Lemma get_array_same key value :
  same_object (answer (GetDictArray (Some a1) key value m1)) (answer (GetDictArray (Some a2) key value m2)).
Proof using H1 H2. apply (with_bucket_rel same_object); [done..|]. switch_object. Qed.

(** The number of keys and the keys. *)
Lemma get_nelement_same : answer (GetDictNElement (Some a1) m1) = answer (GetDictNElement (Some a2) m2).
Proof using H1 H2.
  destruct H1 as (c1 & es1 & Hc1 & Hv1 & _ & _), H2 as (c2 & es2 & Hc2 & Hv2 & _ & _).
  destruct c1 as [h1|v1|]; [|simpl in Hv1; by case_match|done]. destruct c2 as [h2|v2|]; [|simpl in Hv2; by case_match|done].
  apply hash_view in Hv1 as [_ Hv1]. apply hash_view in Hv2 as [_ Hv2]. injection Hv1 as -> _ _ _ _ _.
  injection Hv2 as Hi _ _ _ _ _. unfold GetDictNElement. run (load_hash_run _ _ _ Hc1). run (load_hash_run _ _ _ Hc2).
  simpl. by rewrite Hi.
Qed.

Lemma keyv_loop_same bs1 bs2 count keyc :
  Forall2 (λ b1 b2, hb_key b1 = hb_key b2 /\ same (hash_entry b1) (hash_entry b2)) bs1 bs2 ->
  keyv_loop bs1 count keyc = keyv_loop bs2 count keyc.
Proof using Type.
  intros Hb. revert count. induction Hb as [|b1 b2 bs1 bs2 [Hk Hs] Hb IH]; intros count; [done|]. simpl.
  destruct (same_free _ _ _ _ _ _ _ _ Hs) as [He Hd]. simpl in He, Hd. unfold is_free. rewrite He, Hd, Hk, !IH. done.
Qed.

Lemma get_keyv_same keyc : answer (GetDictKeyv (Some a1) keyc m1) = answer (GetDictKeyv (Some a2) keyc m2).
Proof using H1 H2.
  destruct same_tables as (h1 & h2 & Hc1 & Hc2 & Hn1 & Hn2 & Hb). unfold GetDictKeyv.
  run (load_hash_run _ _ _ Hc1). run (load_hash_run _ _ _ Hc2). simpl. rewrite Hn1, Hn2.
  by rewrite (keyv_loop_same _ (take (Z.to_nat (zlen keys)) (h_buckets h2))) by (by apply Forall2_take).
Qed.
End getters.

(** ** Arrays *)

Section array.
Context (m1 m2 : mem) (a1 a2 : addr) (number : Z) (ts : list tree).
Context (size1 size2 off1 off2 : Z) (B1 B2 : list positive).
Abbreviation sh := (SVector number).
Hypothesis (H1 : object_at (m_cells m1) a1 sh ts size1 off1 B1).
Hypothesis (H2 : object_at (m_cells m2) a2 sh ts size2 off2 B2).

Lemma same_vectors : exists v1 v2,
  m_cells m1 !! a1 = Some (CVector v1) /\ m_cells m2 !! a2 = Some (CVector v2) /\
  v_inuse v1 = v_inuse v2 /\ v_number_of_buckets v1 = number /\ v_number_of_buckets v2 = number /\
  forall i e1, 0 <= i < v_inuse v1 -> (zget (v_buckets v1) i = Ok e1) ->
    exists e2, zget (v_buckets v2) i = Ok e2 /\
      same_value m1 m2 (a1.1, a1.2 + shape_size sh) (a2.1, a2.2 + shape_size sh) off1 off2 (vector_entry e1) (vector_entry e2).
Proof using H1 H2.
  destruct H1 as (c1 & es1 & Hc1 & Hv1 & _ & He1), H2 as (c2 & es2 & Hc2 & Hv2 & _ & He2).
  pose proof (each_length _ _ _ _ He1) as Hl1. pose proof (each_length _ _ _ _ He2) as Hl2.
  destruct c1 as [h1|v1|]; [simpl in Hv1; by case_match| |done]. destruct c2 as [h2|v2|]; [simpl in Hv2; by case_match| |done].
  apply vector_view in Hv1 as [[Hn1 _] [= -> -> -> ->]]. apply vector_view in Hv2 as [[Hn2 _] [= Hnum -> -> ->]].
  rewrite length_fmap, length_take in Hl1, Hl2. unfold zlen in Hn1, Hn2.
  exists v1, v2. split_and!; [done|done|lia|done|done|]. intros i e1 Hi Hz. apply zget_Ok in Hz as [_ Hz].
  pose proof (each_same _ _ _ _ _ _ _ _ _ _ _ He1 He2) as Hs. apply Forall2_fmap_1 in Hs.
  assert (take (Z.to_nat (v_inuse v1)) (v_buckets v1) !! Z.to_nat i = Some e1) as Ht by (rewrite lookup_take_lt by lia; done).
  destruct (Forall2_lookup_l _ _ _ _ _ Hs Ht) as (e2 & Ht2 & Hse). apply lookup_take_Some in Ht2 as [Ht2 _].
  exists e2. split; [apply zget_lookup; [lia|done]|done].
Qed.

Lemma array_length_same : answer (GetArrayLength (Some a1) m1) = answer (GetArrayLength (Some a2) m2).
Proof using H1 H2.
  destruct same_vectors as (v1 & v2 & Hc1 & Hc2 & Hi & _). unfold GetArrayLength.
  run (load_vector_run _ _ _ Hc1). run (load_vector_run _ _ _ Hc2). simpl. by rewrite Hi.
Qed.

Lemma get_element_same index v1 :
  m_cells m1 !! a1 = Some (CVector v1) -> index < 4294967296 -> in_use v1 index = true ->
  0 <= index < v_inuse v1 /\ exists e1, zget (v_buckets v1) index = Ok e1.
Proof using H1.
  intros Hc Hr Hu. unfold in_use in Hu. apply andb_true_iff in Hu as [Hl Hu]. apply Z.leb_le in Hl.
  rewrite u32_id in Hu by lia. apply Z.ltb_lt in Hu. split; [done|]. apply zget_in_range.
  destruct H1 as (c & es & Hc' & Hv & _). rewrite Hc in Hc'. injection Hc' as <-.
  apply vector_view in Hv as [[Hn _] _]. lia.
Qed.

Lemma get_array_dict_same index value :
  index < 4294967296 ->
  same_object m1 m2 (answer (GetArrayDict (Some a1) index value m1)) (answer (GetArrayDict (Some a2) index value m2)).
Proof using H1 H2.
  intros Hr. destruct same_vectors as (v1 & v2 & Hc1 & Hc2 & Hi & Hn1 & Hn2 & Hes). unfold GetArrayDict.
  destruct value; [|done]. run (load_vector_run _ _ _ Hc1). run (load_vector_run _ _ _ Hc2).
  unfold im_get_element. assert (in_use v2 index = in_use v1 index) as -> by (unfold in_use; by rewrite Hi).
  destruct (in_use v1 index) eqn:Hu; [|done].
  destruct (get_element_same index v1 Hc1 Hr Hu) as (Hlt & [i1 n1 x1] & Hz1). destruct (Hes index _ Hlt Hz1) as ([i2 n2 x2] & Hz2 & Hs).
  rewrite Hz1, Hz2. cbn [mbind outcome_bind]. unfold lift, mbind, M_bind. simpl.
  destruct Hs as (t & B3 & B4 & Hv1 & Hv2). unfold vector_entry in Hv1, Hv2. cbn [vb_info vb_value_length vb_value] in *.
  destruct t as [e0|s|s|sh' ts'].
  - destruct Hv1 as (<- & Hin & _), Hv2 as ([= -> -> ->] & _ & _). by destruct i1.
  - destruct Hv1 as (_ & [(sz1 & q1 & [= -> -> ->] & _)|(sz1 & o1 & [= -> -> ->] & _)]),
      Hv2 as (_ & [(sz2 & q2 & [= -> -> ->] & _)|(sz2 & o2 & [= -> -> ->] & _)]); done.
  - destruct Hv1 as (_ & [(sz1 & q1 & [= -> -> ->] & _)|(sz1 & o1 & [= -> -> ->] & _)]),
      Hv2 as (_ & [(sz2 & q2 & [= -> -> ->] & _)|(sz2 & o2 & [= -> -> ->] & _)]); done.
  - apply value_in_node in Hv1, Hv2. destruct a1 as [b1 f1], a2 as [b2 f2]. cbn [fst snd shape_size] in *.
    destruct Hv1 as [(n3 & sz1 & q1 & s1 & g1 & B5 & [= -> -> ->] & _ & Ho1)|(n3 & sz1 & o1 & s1 & g1 & [= -> -> ->] & _ & _ & _ & Ho1)],
      Hv2 as [(n4 & sz2 & q2 & s2 & g2 & B6 & [= -> -> ->] & _ & Ho2)|(n4 & sz2 & o2 & s2 & g2 & [= -> -> ->] & _ & _ & _ & Ho2)];
      (destruct sh'; cbn [external_info attached_info]; try done; rewrite ?Hn1, ?Hn2, ?Z.add_assoc;
       split; [done|]; by eexists _, _, _, _, _, _, _, _).
Qed.
End array.

(** Everything the getters of a dictionary answer. *)
Definition reads_same (m1 : mem) (a1 : addr) (m2 : mem) (a2 : addr) : Prop :=
  (forall T (of_int : Z -> T) of_float of_text key value,
    answer (get_number of_int of_float of_text (Some a1) key value m1) =
    answer (get_number of_int of_float of_text (Some a2) key value m2)) /\
  (forall key value size, answer (GetDictString (Some a1) key value size m1) = answer (GetDictString (Some a2) key value size m2)) /\
  (forall key value size, answer (GetDictBlock (Some a1) key value size m1) = answer (GetDictBlock (Some a2) key value size m2)) /\
  (forall key value, same_object m1 m2 (answer (GetDictDict (Some a1) key value m1)) (answer (GetDictDict (Some a2) key value m2))) /\
  (forall key value, same_object m1 m2 (answer (GetDictArray (Some a1) key value m1)) (answer (GetDictArray (Some a2) key value m2))) /\
  answer (GetDictNElement (Some a1) m1) = answer (GetDictNElement (Some a2) m2) /\
  (forall keyc, answer (GetDictKeyv (Some a1) keyc m1) = answer (GetDictKeyv (Some a2) keyc m2)).

Lemma same_tree_reads m1 m2 a1 a2 inuse empty keys ts size1 size2 off1 off2 B1 B2 :
  object_at (m_cells m1) a1 (SHash inuse empty keys) ts size1 off1 B1 ->
  object_at (m_cells m2) a2 (SHash inuse empty keys) ts size2 off2 B2 -> reads_same m1 a1 m2 a2.
Proof.
  intros H1 H2. split_and!.
  - intros T of_int of_float of_text key value. eapply with_bucket_same; [exact H1|exact H2|apply number_switch].
  - intros key value size. unfold GetDictString. destruct (size <=? 0); [done|].
    eapply with_bucket_same; [exact H1|exact H2|apply string_switch].
  - intros key value size. unfold GetDictBlock. destruct (size <=? 0); [done|].
    eapply with_bucket_same; [exact H1|exact H2|apply block_switch].
  - intros key value. by eapply get_dict_same.
  - intros key value. by eapply get_array_same.
  - by eapply get_nelement_same.
  - intros keyc. by eapply get_keyv_same.
Qed.
