(* ===== verification/ImSerializeRun.v ===== *)
(** * Serialisation runs

    [attach_bucket] and [serialize_bucket] on a value of a tree, the loop over
    the buckets, and the two functions: what the block they return holds, what
    they free, how much they allocate. *)

From S2P Require Import Prelude LibC CFloat ImTypes ImHashTable ImTable ImInsert ImVector Beai3Dict.
From S2P Require Import ImSerialize ImTree ImSerializeFacts ImTreeFacts.

(** ** Attaching a value *)

(** Its allocations. *)
Definition attach_cost (t : tree) : nat := match t with TPlain _ => 0 | _ => 1 end.

(** A value [attach_bucket] is called for: an object is serialised, in a block of
    its own. *)
Definition ready (t : tree) (cs : gmap addr cell) (base : addr) (lim : Z) (e : entry) (B : list positive) : Prop :=
  match t with
  | TNode sh ts => exists sz q, e = Entry (external_info sh) (flat_size sh ts) (external_object sz (Some (q, 0))) /\
      B = [q] /\ object_at cs (q, 0) sh ts (area ts 0) (area ts 0) []
  | _ => value_in t cs base lim e B
  end.

Lemma external_is_object sh : is_external_object (external_info sh) = true.
Proof. by destruct sh. Qed.

Section attach.
Context {C : Type} {HC : Container C} {HL : ContainerLaws C}.
Context (sh : shape) (Hsh : c_shape sh = true).
Abbreviation ss := (shape_size sh).
Context (m : mem) (b : positive) (size off : Z) (es : list entry) (i : nat) (e : entry).
Hypothesis (Hm : mem_wf m) (Hb : holds m b sh size off es) (Hi : es !! i = Some e) (Hoff : 0 <= off).
Context (destroy_hashtable destroy_vector : ptr -> M unit) (buffer : ptr).

(** The offset the value gets. *)
Abbreviation off' := (if is_external_object (e_info e) then off + im_align_offset off else off).

Lemma attach_start :
  is_inline (e_info e) = false -> 0 < e_length e -> (1 <= m_quota m)%nat -> exists b' m' size',
  attach_bucket (C := C) destroy_hashtable destroy_vector (Some (b, 0)) (Z.of_nat i) buffer m =
    (attach_value (C := C) destroy_hashtable destroy_vector (Some (b', 0)) (Z.of_nat i) buffer ;; mret (0, Some (b', 0))) m' /\
  holds m' b' sh size' off' es /\ step ss 1 off m b m' b' [] [] /\ off' + e_length e <= size' /\ off <= off'.
Proof using Hm Hb HL Hsh Hi Hoff.
  intros Hin Hlen Hq. assert (off <= off') as Hle by (pose proof (align_nonneg off); case_match; lia).
  destruct (align_run sh Hsh m b size off es i e Hm Hb Hi) as (m1 & Ha & Hb1 & Hst1).
  destruct (make_room_run sh Hsh m1 b size off' es i e (st_mem_wf _ _ _ _ _ _ _ _ _ (Hst1 0)) Hb1 Hi)
    as (b2 & m2 & size2 & Hroom & Hb2 & Hst2 & Hs2); [lia|done| |].
  { pose proof (st_quota _ _ _ _ _ _ _ _ _ (Hst1 0)). lia. }
  exists b2, m2, size2. split_and!; [|done| |done|done].
  - unfold attach_bucket. run (read_run sh Hsh _ _ _ _ _ _ _ Hb Hi). rewrite Hin. run Ha. by run Hroom.
  - apply (step_trans ss 0 1 off off' m b m1 b m2 b2 [] [] [] []); try done. by intros x ?%elem_of_nil.
Qed.
End attach.

Section attach_run.
Context {C : Type} {HC : Container C} {HL : ContainerLaws C}.
Context (sh : shape) (Hsh : c_shape sh = true).
Abbreviation ss := (shape_size sh).
Context (m : mem) (b : positive) (size off : Z) (es : list entry) (i : nat) (e : entry).
Hypothesis (Hm : mem_wf m) (Hb : holds m b sh size off es) (Hi : es !! i = Some e) (Hoff : 0 <= off).
Context (fuel : nat) (buf : positive) (lim : Z).
Abbreviation attach := (attach_bucket (C := C) (im_destroy_hashtable fuel) (im_destroy_vector fuel)
  (Some (b, 0)) (Z.of_nat i) (Some (buf, 0))).

(** What [attach_bucket] does for [t]. *)
Definition attached_well (t : tree) (B : list positive) : Prop := exists b' m' size' e',
  attach m = Ok ((0, Some (b', 0)), m') /\ holds m' b' sh size' (after t off) (<[i := e']> es) /\
  step ss (attach_cost t) off m b m' b' B [] /\ value_in t (m_cells m') (b', ss) (after t off) e' [].

(** Copied to the new place, the blocks [D] it came from go. *)
Lemma drop_after t e' b2 m3 size3 D :
  off <= after t off -> b2 ∉ D ->
  step ss 1 off m b m3 b2 [] [] -> holds m3 b2 sh size3 (after t off) (<[i := e']> es) ->
  value_in t (m_cells m3) (b2, ss) (after t off) e' [] ->
  holds (free_blocks D m3) b2 sh size3 (after t off) (<[i := e']> es) /\
  step ss 1 off m b (free_blocks D m3) b2 D [] /\
  value_in t (m_cells (free_blocks D m3)) (b2, ss) (after t off) e' [].
Proof using Hm.
  intros Hle HD Hst Hb3 Hval.
  destruct (drop_step ss (after t off) m3 b2 D (st_mem_wf _ _ _ _ _ _ _ _ _ Hst) HD) as [Hst4 Hhead].
  split_and!.
  - destruct Hb3 as (c' & Hc' & Hv'). exists c'. by rewrite Hhead.
  - apply (step_trans ss 1 0 off (after t off) m b m3 b2 _ b2 [] D [] []); try done. by intros x ?%elem_of_nil.
  - eapply value_moves; [exact Hval|apply Hst4|by intros ? ?%elem_of_nil|done].
Qed.

(** A new block for the object is none of the old ones. *)
Lemma step_apart n lim' m' b' D X (B : list positive) :
  step ss n lim' m b m' b' D X -> b ∉ B -> (forall q, q ∈ B -> (q < m_next m)%positive) -> b' ∉ B.
Proof using Type.
  intros Hst Hb' Hlt Hin. destruct (st_block _ _ _ _ _ _ _ _ _ Hst) as [->|Hf]; [done|].
  apply Hlt in Hin. lia.
Qed.

Section bytes.
Context (t : tree) (s : bytes) (external attached inline : im_info) (B : list positive).
Hypothesis (Hafter : after t off = off + zlen s) (Hcost : attach_cost t = 1%nat).
Hypothesis (Hval_t : forall cs base lim e B, bytes_in external attached s cs base lim e B -> value_in t cs base lim e B).
Hypothesis (Hinfo : (external, attached, inline) = (IM_EXTERNAL_STRING, IM_ATTACHED_STRING, IM_STRING) \/
  (external, attached, inline) = (IM_EXTERNAL_BLOCK, IM_ATTACHED_BLOCK, IM_BLOCK)).
Hypothesis (Hval : bytes_in external attached s (m_cells m) (buf, 0) lim e B).
Hypothesis (Hq : (1 <= m_quota m)%nat) (HbB : b ∉ buf :: B) (Hbuf : (buf < m_next m)%positive).

(** A text or a block. *)
Lemma attach_bytes_well : attached_well t B.
Proof using All.
  unfold attached_well. rewrite Hcost. pose proof Hval as [Hs Hcases]. pose proof Hs as Hs'. unfold sizeof_im_value in Hs'.
  assert (owns_blocks (m_cells m) B) as Hown by (eapply value_owns, Hval_t, Hval).
  assert (e_length e = zlen s /\ is_external_object (e_info e) = false /\ is_inline (e_info e) = false) as (Hlen & Hext & Hin).
  { destruct Hinfo as [[= -> -> ->]|[= -> -> ->]], Hcases as [(sz & q & -> & _)|(sz & o & -> & _)]; done. }
  destruct (attach_start sh Hsh m b size off es i e Hm Hb Hi Hoff (im_destroy_hashtable fuel) (im_destroy_vector fuel)
    (Some (buf, 0)) Hin ltac:(lia) Hq) as (b2 & m2 & size2 & Hrun & Hb2 & Hst2 & Hroom & _).
  rewrite Hext in Hb2, Hroom. pose proof (st_mem_wf _ _ _ _ _ _ _ _ _ Hst2) as Hm2.
  assert (b2 ∉ buf :: B) as Hb2B.
  { eapply step_apart; [exact Hst2|done|]. intros q [->|Hq']%elem_of_cons; [done|by eapply owns_allocated]. }
  assert (keeps (m_cells m) (m_cells m2) (buf :: B)) as Hk.
  { eapply step_keeps; [exact Hm|exact Hst2|]. intros q Hq'. split_and!; [by intros ->|apply not_elem_of_nil..]. }
  assert (forall a, m_cells m2 !! a = Some (CBytes s) -> exists m3,
    attach_bytes (C := C) (Some (b2, 0)) (Z.of_nat i) inline attached (Some a) m2 = Ok (tt, m3) /\
    holds m3 b2 sh size2 (after t off) (<[i := Entry attached (zlen s) (attached_object (zlen s) off)]> es) /\
    step ss 1 off m b m3 b2 [] [] /\
    value_in t (m_cells m3) (b2, ss) (after t off) (Entry attached (zlen s) (attached_object (zlen s) off)) []) as Hattach.
  { intros a Ha. rewrite Hafter.
    destruct (attach_bytes_run sh Hsh m2 b2 size2 off es i e Hm2 Hb2 Hi Hoff Hroom inline attached a s Hlen Hs Ha)
      as (m3 & Hr3 & Hb3 & Hst3 & Hc3). exists m3. split_and!; [done|done|by eapply step_then|].
    apply Hval_t. split; [done|]. right. exists (zlen s), off. split_and!; try done; lia. }
  assert (off <= after t off) as Hle by lia.
  destruct Hcases as [(sz & q & -> & Hcq & ->)|(sz & o & -> & Ho & _ & Hcq & ->)].
  - destruct (Hattach (q, 0)) as (m3 & Hr3 & Hb3 & Hst3 & Hv3); [apply (Hk q); [set_solver|done]|].
    destruct (drop_after t _ b2 m3 size2 [q] Hle ltac:(set_solver) Hst3 Hb3 Hv3) as (Hb4 & Hst4 & Hv4).
    eexists b2, _, size2, _. split; [|split_and!; [exact Hb4|exact Hst4|exact Hv4]].
    rewrite Hrun. unfold attach_value. rewrite !(M_bind_assoc).
    run (read_run sh Hsh _ _ _ _ _ _ _ Hb2 Hi). cbn [e_info e_value].
    assert (m_cells m3 !! (q, 0) = Some (CBytes s)) as Hq3.
    { apply (step_keeps _ _ _ _ _ _ _ _ _ [q] Hm Hst3 ltac:(set_solver) q); [set_solver|done]. }
    destruct Hinfo as [[= -> -> ->]|[= -> -> ->]]; rewrite !M_bind_assoc; run Hr3; by run (freep_run _ _ _ Hq3).
  - destruct (Hattach (buf, o)) as (m3 & Hr3 & Hb3 & Hst3 & Hv3); [apply (Hk buf); [set_solver|done]|].
    eexists b2, m3, size2, _. split; [|split_and!; [exact Hb3|exact Hst3|exact Hv3]].
    rewrite Hrun. unfold attach_value. rewrite !(M_bind_assoc).
    run (read_run sh Hsh _ _ _ _ _ _ _ Hb2 Hi). cbn [e_info e_value ptr_add].
    destruct Hinfo as [[= -> -> ->]|[= -> -> ->]]; by run Hr3.
Qed.
End bytes.

Section object.
Context (sh' : shape) (ts' : list tree) (sz : Z) (q : positive).
Abbreviation t := (TNode sh' ts').
Hypothesis (He : e = Entry (external_info sh') (flat_size sh' ts') (external_object sz (Some (q, 0)))).
Hypothesis (Hobj : object_at (m_cells m) (q, 0) sh' ts' (area ts' 0) (area ts' 0) []).
Hypothesis (Hq : (1 <= m_quota m)%nat) (Hqb : q <> b) (Hfuel : (2 * depth t <= fuel)%nat).

(** A serialised object. *)
Lemma attach_object_well : attached_well t [q].
Proof using All.
  pose proof (object_at_size _ _ _ _ _ _ _ Hobj) as [Hs' Ha']. pose proof (align_nonneg off). unfold attached_well.
  assert (is_external_object (e_info e) = true /\ is_inline (e_info e) = false /\ e_length e = flat_size sh' ts')
    as (Hext & Hin & Hlen) by (rewrite He; by destruct sh').
  destruct (attach_start sh Hsh m b size off es i e Hm Hb Hi Hoff (im_destroy_hashtable fuel) (im_destroy_vector fuel)
    (Some (buf, 0)) Hin) as (b2 & m2 & size2 & Hrun & Hb2 & Hst2 & Hroom & Hle); [rewrite Hlen; unfold flat_size; lia|done|].
  rewrite Hext in Hb2, Hroom, Hle. pose proof (st_mem_wf _ _ _ _ _ _ _ _ _ Hst2) as Hm2.
  assert (b2 ∉ [q]) as Hb2q.
  { eapply step_apart; [exact Hst2|set_solver|]. intros q' ->%list_elem_of_singleton.
    destruct Hobj as (c & _ & Hc & _). by apply Hm in Hc. }
  assert (keeps (m_cells m) (m_cells m2) [q]) as Hk2.
  { eapply step_keeps; [exact Hm|exact Hst2|set_solver]. }
  assert (object_at (m_cells m2) (q, 0) sh' ts' (area ts' 0) (area ts' 0) []) as Hobj2.
  { eapply object_moves; [exact Hobj|by apply keeps_self|by intros ? ?%elem_of_nil]. }
  destruct (attach_object_run sh Hsh m2 b2 size2 (off + im_align_offset off) es i e Hm2 Hb2 Hi ltac:(lia) Hroom
    (attached_info sh') q sh' ts' _ _ Hobj2 Hlen) as (m3 & Hr3 & Hb3 & Hst3 & Hobj3).
  rewrite Hlen in Hb3. rewrite <- after_node in Hb3.
  assert (step ss 1 off m b m3 b2 [] []) as Hst.
  { eapply step_then; [done|exact Hst2|]. by eapply (step_weaken _ _ _ _ off); [exact Hst3|..]; set_solver. }
  assert (value_in t (m_cells m3) (b2, ss) (after t off)
    (Entry (attached_info sh') (flat_size sh' ts') (attached_object (flat_size sh' ts') (off + im_align_offset off))) []) as Hv3.
  { apply value_in_node. right. eexists _, _, _, (area ts' 0), (area ts' 0). split; [done|].
    rewrite after_node. split_and!; [lia|lia|unfold flat_size; lia|exact Hobj3]. }
  assert (off <= after t off) as Hle' by (rewrite after_node; unfold flat_size; lia).
  destruct (drop_after t _ b2 m3 size2 [q] Hle' Hb2q Hst Hb3 Hv3) as (Hb4 & Hst4 & Hv4).
  eexists b2, _, size2, _. split; [|split_and!; [exact Hb4|exact Hst4|exact Hv4]].
  rewrite Hrun. unfold attach_value. rewrite !(M_bind_assoc).
  run (read_run sh Hsh _ _ _ _ _ _ _ Hb2 Hi). rewrite He. cbn [e_info e_value].
  assert (object_at (m_cells m3) (q, 0) sh' ts' (area ts' 0) (area ts' 0) []) as Hobj4.
  { eapply object_moves; [exact Hobj| |by intros ? ?%elem_of_nil]. apply keeps_self.
    eapply step_keeps; [exact Hm|exact Hst|set_solver]. }
  pose proof (destroy_tree_run fuel m3 q sh' ts' _ _ [] Hfuel Hobj4 (NoDup_singleton q)) as Hd.
  destruct sh'; cbn [external_info attached_info destroy_of] in *; rewrite !M_bind_assoc; run Hr3; by run Hd.
Qed.
End object.

(** [attach_bucket] on any value. *)
Lemma attach_well t B :
  ready t (m_cells m) (buf, 0) lim e B -> (attach_cost t <= m_quota m)%nat -> b ∉ buf :: B -> (buf < m_next m)%positive ->
  (2 * depth t <= fuel)%nat -> attached_well t B.
Proof using Hm Hb HL Hsh Hi Hoff.
  intros Hr Hq Hnd Hbuf Hf. destruct t as [e0|s|s|sh' ts'].
  - destruct Hr as (<- & Hin & ->). exists b, m, size, e. split_and!.
    + unfold attach_bucket. run (read_run sh Hsh _ _ _ _ _ _ _ Hb Hi). by rewrite Hin.
    + simpl. by rewrite list_insert_id.
    + by apply step_refl.
    + done.
  - apply (attach_bytes_well (TText s) s IM_EXTERNAL_STRING IM_ATTACHED_STRING IM_STRING B); try done. by left.
  - apply (attach_bytes_well (TBlock s) s IM_EXTERNAL_BLOCK IM_ATTACHED_BLOCK IM_BLOCK B); try done. by right.
  - destruct Hr as (sz & q & He & -> & Hobj). eapply attach_object_well; [done|done|done|set_solver|done].
Qed.
End attach_run.

(** ** Serialising an object of a bucket *)

Definition serialize_of (sh : shape) : nat -> ptr -> M (Z * ptr) :=
  match sh with SHash _ _ _ => im_serialize_hashtable | SVector _ => im_serialize_vector end.

(** The object [ts] of block [q], that owned [B], is serialised in block [nq]:
    its old blocks are free, no other has changed. *)
Record serialized (n : nat) (m : mem) (q : positive) (B : list positive) (sh : shape) (ts : list tree)
    (m' : mem) (nq : positive) : Prop := {
  sz_object : object_at (m_cells m') (nq, 0) sh ts (area ts 0) (area ts 0) [];
  sz_changed : changed m m' (q :: B) [nq];
  sz_next : (m_next m <= m_next m')%positive;
  sz_quota : (m_quota m <= m_quota m' + n)%nat;
  sz_mem_wf : mem_wf m';
  sz_fresh : (m_next m <= nq)%positive;
}.

(** The allocations of its own and of its values. *)
Definition own_cost (ts : list tree) : nat := S (total cost ts).

Definition serializes (t : tree) : Prop :=
  match t with
  | TNode sh ts => forall fuel m q size off B,
      (2 * depth t <= fuel)%nat -> mem_wf m -> object_at (m_cells m) (q, 0) sh ts size off B -> NoDup (q :: B) ->
      (own_cost ts <= m_quota m)%nat -> flat_size sh ts < 2147483648 ->
      exists m' nq, serialize_of sh fuel (Some (q, 0)) m = Ok ((flat_size sh ts, Some (nq, 0)), m') /\
        serialized (own_cost ts) m q B sh ts m' nq
  | _ => True
  end.

Lemma serialized_step ss lim n m q B sh ts m' nq b c :
  m_cells m !! (b, 0) = Some c -> mem_wf m -> b ∉ q :: B -> serialized n m q B sh ts m' nq ->
  step ss n lim m b m' b (q :: B) [nq] /\ m_cells m' !! (b, 0) = Some c.
Proof.
  intros Hb Hm Hq [Hobj Hch Hn Hqu Hm' Hf].
  assert (b <> nq) as Hne by (apply Hm in Hb; simpl in Hb; lia).
  assert (forall o c, m_cells m !! (b, o) = Some c -> m_cells m' !! (b, o) = Some c) as Hkeep.
  { intros o c' Hc. rewrite Hch by (simpl; set_solver). by apply drop_blocks_Some. }
  split; [constructor; [|by intros o c' _; apply Hkeep|done|done|done|by left]|by apply Hkeep].
  eapply changed_weaken; [exact Hch|set_solver|set_solver|set_solver].
Qed.

(** More blocks may be written. *)
Lemma step_also ss n lim m b m' b' D X X' :
  step ss n lim m b m' b' D X -> (forall x, x ∈ X -> x ∈ X') -> step ss n lim m b m' b' D X'.
Proof. intros H HX. eapply step_weaken; [exact H|done|done|intros x Hx; by left|intros x Hx; by left|done]. Qed.

(** [X] is written again. *)
Lemma step_write ss n lim m b m1 m2 D X :
  mem_wf m -> step ss n lim m b m1 b D X -> step ss 0 lim m1 b m2 b [] [] -> step ss n lim m b m2 b D X.
Proof.
  intros Hm H1 H2. assert (step ss 0 lim m1 b m2 b [] X) as H2' by (eapply step_also; [exact H2|set_solver]).
  pose proof (step_trans _ _ _ _ _ _ _ _ _ _ _ _ _ _ _ Hm H1 H2' ltac:(lia)) as Ht.
  rewrite Nat.add_0_r, app_nil_r in Ht. apply Ht. intros x Hx. by right.
Qed.

Section serialize_bucket.
Context {C : Type} {HC : Container C} {HL : ContainerLaws C}.
Context (sh : shape) (Hsh : c_shape sh = true).
Abbreviation ss := (shape_size sh).
Context (sh' : shape) (ts' : list tree) (fuel : nat).
Hypothesis (Hser : serializes (TNode sh' ts')) (Hfuel : (2 * depth (TNode sh' ts') <= fuel)%nat).
Hypothesis (Hflat : flat_size sh' ts' < 2147483648).

Section external.
Context (m : mem) (b : positive) (size off : Z) (es : list entry) (i : nat).
Context (n sz : Z) (q : positive) (size' off' : Z) (B : list positive).
Abbreviation e := (Entry (external_info sh') n (external_object sz (Some (q, 0)))).
Hypothesis (Hm : mem_wf m) (Hb : holds m b sh size off es) (Hi : es !! i = Some e).
Hypothesis (Hobj : object_at (m_cells m) (q, 0) sh' ts' size' off' B) (Hnd : NoDup (b :: q :: B)).
Hypothesis (Hq : (own_cost ts' <= m_quota m)%nat).

Lemma serialize_object_run : exists m' nq,
  serialize_object (C := C) (serialize_of sh' fuel) (Some (b, 0)) (Z.of_nat i) m = Ok (0, m') /\
  holds m' b sh size off
    (<[i := Entry (external_info sh') (flat_size sh' ts') (external_object sz (Some (nq, 0)))]> es) /\
  object_at (m_cells m') (nq, 0) sh' ts' (area ts' 0) (area ts' 0) [] /\
  (forall lim, step ss (own_cost ts') lim m b m' b (q :: B) [nq]) /\ (m_next m <= nq)%positive.
Proof using All.
  apply NoDup_cons in Hnd as [Hbq Hnd'].
  destruct (Hser fuel m q size' off' B Hfuel Hm Hobj Hnd' Hq Hflat) as (m1 & nq & Hrun & Hsz).
  pose proof Hb as (c & Hc & Hv).
  assert (forall lim, step ss (own_cost ts') lim m b m1 b (q :: B) [nq]) as Hst1
    by (intros lim; by eapply serialized_step).
  assert (holds m1 b sh size off es) as Hb1.
  { exists c. split; [|done]. by eapply (serialized_step ss 0). }
  pose proof (sz_object _ _ _ _ _ _ _ _ Hsz) as Hobj1. pose proof (object_at_size _ _ _ _ _ _ _ Hobj1) as [Hps Hpa].
  pose proof (sz_mem_wf _ _ _ _ _ _ _ _ Hsz) as Hm1. pose proof (sz_fresh _ _ _ _ _ _ _ _ Hsz) as Hf.
  destruct (write_run sh Hsh m1 b size off es i e Hm1 Hb1 Hi
    (Entry (external_info sh') n (external_object sz (Some (nq, 0))))) as (m2 & Hw2 & Hb2 & Hst2).
  pose proof (st_mem_wf _ _ _ _ _ _ _ _ _ (Hst2 0)) as Hm2.
  destruct (write_run sh Hsh m2 b size off _ i (Entry (external_info sh') n (external_object sz (Some (nq, 0)))) Hm2 Hb2
    (list_lookup_insert_eq _ _ _ (lookup_lt_Some _ _ _ Hi))
    (Entry (external_info sh') (flat_size sh' ts') (external_object sz (Some (nq, 0))))) as (m3 & Hw3 & Hb3 & Hst3).
  exists m3, nq. split_and!; [| | | |done].
  - unfold serialize_object. run (read_run sh Hsh _ _ _ _ _ _ _ Hb Hi). cbn [e_value e_info e_length]. run Hrun.
    cbn [fst snd]. run Hw2. destruct (Z.ltb_spec (flat_size sh' ts') 0); [unfold flat_size in *; lia|]. by run Hw3.
  - by rewrite list_insert_insert_eq in Hb3.
  - assert (b <> nq) as Hne by (apply Hm in Hc; simpl in Hc; lia).
    eapply object_moves; [exact Hobj1| |by intros ? ?%elem_of_nil]. apply keeps_self.
    intros x ->%list_elem_of_singleton o c' Hc'.
    apply (step_keeps _ _ _ _ _ _ _ _ _ [nq] Hm2 (Hst3 0) ltac:(set_solver) nq ltac:(set_solver)).
    apply (step_keeps _ _ _ _ _ _ _ _ _ [nq] Hm1 (Hst2 0) ltac:(set_solver) nq ltac:(set_solver)). done.
  - intros lim. eapply step_write; [done| |exact (Hst3 lim)]. eapply step_write; [done|exact (Hst1 lim)|exact (Hst2 lim)].
Qed.
End external.

Section attached.
Context (m : mem) (b buf : positive) (size off : Z) (es : list entry) (i : nat).
Context (n sz o : Z) (size' off' : Z) (B : list positive).
Abbreviation e := (Entry (attached_info sh') n (attached_object sz o)).
Hypothesis (Hm : mem_wf m) (Hb : holds m b sh size off es) (Hi : es !! i = Some e).
Hypothesis (Hn : shape_size sh' + off' <= n).
Hypothesis (Hobj : object_at (m_cells m) (buf, 0 + o) sh' ts' size' off' B) (HbB : b ∉ B).
Hypothesis (Hq : (1 <= m_quota m)%nat) (Hbuf : (buf < m_next m)%positive).

(** An attached object is copied out of the buffer. *)
Lemma detach_run : exists m',
  detach_bucket (C := C) (Some (b, 0)) (Z.of_nat i) (Some (buf, 0)) (external_info sh') m = Ok (true, m') /\
  holds m' b sh size off (<[i := Entry (external_info sh') n (external_object n (Some (m_next m, 0)))]> es) /\
  object_at (m_cells m') (m_next m, 0) sh' ts' size' off' B /\
  (forall lim, step ss 1 lim m b m' b [] [m_next m]).
Proof using All.
  set (q := m_next m). destruct (m_quota m) as [|quota] eqn:Equ; [lia|].
  set (m1 := Mem (<[(q, 0) := CBytes (replicate (Z.to_nat n) 0)]> (m_cells m)) (q + 1) quota).
  set (m2 := set_cells (copy_cells (buf, 0 + o) n (q, 0)) m1).
  assert (forall k : addr, k.1 <> q -> m_cells m2 !! k = m_cells m !! k) as Hkeep.
  { intros k Hk. unfold m2. simpl. rewrite copy_cells_outside.
    - rewrite lookup_insert_ne; [done|]. by intros <-.
    - apply not_true_iff_false. rewrite in_area_spec. simpl. by intros [? _]. }
  pose proof Hb as (c & Hc & Hv). assert (b < m_next m)%positive as Hbn by (by apply Hm in Hc).
  assert (forall lim, step ss 1 lim m b m2 b [] [q]) as Hst2.
  { intros lim. constructor; [|..|simpl; lia|simpl; lia| |by left].
    - intros k Hk. rewrite Hkeep by set_solver. by rewrite drop_blocks_out by set_solver.
    - intros o' c' _ Hc'. simpl in Hc'. rewrite Hkeep; [done|]. simpl. lia.
    - intros k c' Hk. destruct (decide (k.1 = q)) as [->|Hne]; [simpl; lia|].
      rewrite Hkeep in Hk by done. apply Hm in Hk. simpl. lia. }
  assert (holds m2 b sh size off es) as Hb2.
  { exists c. split; [|done]. rewrite Hkeep; [done|]. simpl. lia. }
  assert (mem_wf m2) as Hm2 by apply (Hst2 0).
  assert (object_at (m_cells m2) (q, 0) sh' ts' size' off' B) as Hobj2.
  { eapply object_moves; [exact Hobj|..].
    - intros o' c' Ho' Hc'. cbn [fst snd] in *. unfold m2. rewrite m_cells_set.
      assert (m_cells m1 !! (buf, 0 + o + o') = Some c') as Hc1.
      { unfold m1. simpl. rewrite lookup_insert_ne; [done|]. intros [= E _]. lia. }
      pose proof (copy_cells_inside (buf, 0 + o) n (q, 0) _ _ _ _ Hc1) as H. cbn [fst snd] in H.
      replace (0 + (0 + o + o' - (0 + o))) with (0 + o') in H by lia. apply H. apply in_area_spec. simpl. lia.
    - destruct Hobj as (c0 & es0 & Hc0 & Hv0 & Hoff0 & He0). intros x Hx o' c' Hc'. rewrite Hkeep; [done|].
      assert (x < m_next m)%positive; [|simpl; lia]. eapply owns_allocated; [done|done| |exact Hx].
      eapply each_owns; [exact He0|]. intros t e B' _. apply value_owns. }
  destruct (write_run sh Hsh m2 b size off es i e Hm2 Hb2 Hi
    (Entry (external_info sh') n (external_object n (Some (q, 0))))) as (m3 & Hw3 & Hb3 & Hst3).
  exists m3. split_and!; [|done| |].
  - unfold detach_bucket. run (read_run sh Hsh _ _ _ _ _ _ _ Hb Hi). cbn [e_value e_info e_length].
    assert (alloc (CBytes (replicate (Z.to_nat n) 0)) m = Ok (Some (q, 0), m1)) as Hal by (unfold alloc; by rewrite Equ).
    run Hal. assert (memcpy (Some (q, 0)) (ptr_add (Some (buf, 0)) o) n m1 = Ok (tt, m2)) as Hcpy by done.
    run Hcpy. by run Hw3.
  - eapply object_moves; [exact Hobj2|..].
    + apply keeps_self. apply (step_keeps _ _ _ _ _ _ _ _ _ _ Hm2 (Hst3 0)).
      intros x ->%list_elem_of_singleton. split_and!; [lia|apply not_elem_of_nil..].
    + apply (step_keeps _ _ _ _ _ _ _ _ _ _ Hm2 (Hst3 0)). intros x Hx. split_and!; [by intros ->|apply not_elem_of_nil..].
  - intros lim. eapply step_write; [done|exact (Hst2 lim)|exact (Hst3 lim)].
Qed.
End attached.

Section bucket.
Context (m : mem) (b buf : positive) (size off lim0 : Z) (es : list entry) (i : nat) (e : entry) (B : list positive).
Abbreviation t := (TNode sh' ts').
Hypothesis (Hm : mem_wf m) (Hb : holds m b sh size off es) (Hi : es !! i = Some e).
Hypothesis (Hval : value_in t (m_cells m) (buf, 0) lim0 e B) (HbB : b ∉ buf :: B) (Hnd : NoDup (buf :: B)).
Hypothesis (Hq : (S (own_cost ts') <= m_quota m)%nat) (Hbuf : (buf < m_next m)%positive).

(** [serialize_bucket] makes the value ready to be attached. *)
Lemma serialize_bucket_well : exists m' e' nq,
  serialize_bucket (C := C) (im_serialize_hashtable fuel) (im_serialize_vector fuel)
    (Some (b, 0)) (Z.of_nat i) (Some (buf, 0)) m = Ok (0, m') /\
  holds m' b sh size off (<[i := e']> es) /\ ready t (m_cells m') (buf, 0) lim0 e' [nq] /\
  (forall lim, step ss (S (own_cost ts')) lim m b m' b B [nq]) /\ (m_next m <= nq)%positive.
Proof using All.
  unfold serialize_bucket. pose proof Hval as Hcases. apply value_in_node in Hcases.
  destruct Hcases as [(n & sz & q & size' & off' & B' & -> & -> & Hobj)|(n & sz & o & size' & off' & -> & _ & _ & Hn & Hobj)].
  - destruct (serialize_object_run m b size off es i n sz q size' off' B' Hm Hb Hi Hobj)
      as (m' & nq & Hrun & Hb' & Hobj' & Hst & Hf); [|lia|].
    { apply NoDup_cons. split; [set_solver|]. by apply NoDup_cons in Hnd as [_ Hnd]. }
    eexists m', _, nq. split_and!; [|exact Hb'|by exists sz, nq| |done].
    + run (read_run sh Hsh _ _ _ _ _ _ _ Hb Hi). destruct sh'; cbn [external_info e_info] in *; run_ret; cbn [negb];
        run (read_run sh Hsh _ _ _ _ _ _ _ Hb Hi); exact Hrun.
    + intros lim. eapply step_weaken; [exact (Hst lim)|lia|lia|set_solver..].
  - destruct (detach_run m b buf size off es i n sz o size' off' B Hm Hb Hi Hn Hobj) as (m1 & Hd & Hb1 & Hobj1 & Hst1);
      [set_solver|lia|done|].
    pose proof (st_mem_wf _ _ _ _ _ _ _ _ _ (Hst1 0)) as Hm1. set (q := m_next m) in *.
    pose proof Hb as (c & Hc & _). assert (b < q)%positive as Hbq by (by apply Hm in Hc).
    assert (forall x, x ∈ B -> (x < q)%positive) as HBq by (eapply owns_allocated; [done|done|by eapply value_owns]).
    assert (<[i := Entry (external_info sh') n (external_object n (Some (q, 0)))]> es !! i
      = Some (Entry (external_info sh') n (external_object n (Some (q, 0))))) as Hi1
      by (apply list_lookup_insert_eq; by eapply lookup_lt_Some).
    destruct (serialize_object_run m1 b size off _ i n n q size' off' B Hm1 Hb1 Hi1 Hobj1)
      as (m' & nq & Hrun & Hb' & Hobj' & Hst & Hf).
    { apply NoDup_cons. split; [set_solver by lia|]. apply NoDup_cons. split; [intros Hx; apply HBq in Hx; lia|].
      by apply NoDup_cons in Hnd as [_ Hnd]. }
    { pose proof (st_quota _ _ _ _ _ _ _ _ _ (Hst1 0)). lia. }
    rewrite list_insert_insert_eq in Hb'.
    eexists m', _, nq. split_and!; [|exact Hb'|by exists n, nq| |].
    + run (read_run sh Hsh _ _ _ _ _ _ _ Hb Hi). destruct sh'; cbn [external_info attached_info e_info] in *; run Hd; cbn [negb];
        run (read_run sh Hsh _ _ _ _ _ _ _ Hb1 Hi1); exact Hrun.
    + intros lim. eapply step_weaken.
      * eapply (step_trans ss 1 _ lim lim); [done|exact (Hst1 lim)|exact (Hst lim)|lia|].
        intros x ->%list_elem_of_singleton. left. by left.
      * lia.
      * lia.
      * intros x Hx. apply elem_of_app in Hx as [Hx|Hx]; [by apply elem_of_nil in Hx|].
        apply elem_of_cons in Hx as [->|Hx]; [|by left]. right. right. by apply fresh_none.
      * intros x Hx. left. set_solver.
      * done.
    + pose proof (st_next _ _ _ _ _ _ _ _ _ (Hst1 0)). lia.
Qed.
End bucket.
End serialize_bucket.

(** ** The loop over the buckets *)

Section loop.
Context {C : Type} {HC : Container C} {HL : ContainerLaws C}.
Context (sh : shape) (Hsh : c_shape sh = true) (fuel : nat) (buf : positive) (lim0 : Z).
Abbreviation ss := (shape_size sh).
Abbreviation body := (serialize_body (C := C) (im_serialize_hashtable fuel) (im_serialize_vector fuel)
  (im_destroy_hashtable fuel) (im_destroy_vector fuel) (Some (buf, 0))).

(** What the loop asks of a value. *)
Definition loop_ok (t : tree) : Prop :=
  serializes t /\ (2 * depth t <= fuel)%nat /\ match t with TNode sh' ts' => flat_size sh' ts' < 2147483648 | _ => True end.

Section body.
Context (m : mem) (b : positive) (size off : Z) (es : list entry) (i : nat) (e : entry) (t : tree) (B : list positive).
Hypothesis (Hm : mem_wf m) (Hb : holds m b sh size off es) (Hi : es !! i = Some e) (Hoff : 0 <= off).
Hypothesis (Hval : value_in t (m_cells m) (buf, 0) lim0 e B) (HbB : b ∉ buf :: B) (Hnd : NoDup (buf :: B)).
Hypothesis (Hq : (cost t <= m_quota m)%nat) (Hbuf : (buf < m_next m)%positive) (Hok : loop_ok t).

Lemma body_run : exists b' m' size' e',
  body (Z.of_nat i) (Some (b, 0)) m = Ok ((0, Some (b', 0)), m') /\
  holds m' b' sh size' (after t off) (<[i := e']> es) /\ value_in t (m_cells m') (b', ss) (after t off) e' [] /\
  step ss (cost t) off m b m' b' B [].
Proof using All.
  destruct Hok as (Hser & Hf & Hflat). unfold serialize_body. run (read_run sh Hsh _ _ _ _ _ _ _ Hb Hi).
  destruct (is_object (e_info e)) eqn:Hobj.
  - destruct t as [e0|s|s|sh' ts'].
    + destruct Hval as (<- & Hin & _). by destruct (e_info e).
    + by destruct Hval as (_ & [(sz & q & -> & _)|(sz & o & -> & _)]).
    + by destruct Hval as (_ & [(sz & q & -> & _)|(sz & o & -> & _)]).
    + destruct (serialize_bucket_well sh Hsh sh' ts' fuel Hser Hf Hflat m b buf size off lim0 es i e B Hm Hb Hi Hval HbB Hnd)
        as (m1 & e1 & nq & Hrun & Hb1 & Hr1 & Hst1 & Hnq); [unfold own_cost; simpl in Hq; lia|done|]. run Hrun.
      change (0 <? 0) with false. cbv iota. pose proof (st_mem_wf _ _ _ _ _ _ _ _ _ (Hst1 0)) as Hm1.
      pose proof Hb as (c & Hc & _). assert (b < m_next m)%positive as Hbn by (by apply Hm in Hc).
      pose proof (st_next _ _ _ _ _ _ _ _ _ (Hst1 0)) as Hn1. pose proof (st_quota _ _ _ _ _ _ _ _ _ (Hst1 0)) as Hq1.
      destruct (attach_well sh Hsh m1 b size off _ i e1 Hm1 Hb1 ltac:(by eapply list_lookup_insert_eq, lookup_lt_Some) Hoff
        fuel buf lim0 (TNode sh' ts') [nq] Hr1) as (b' & m2 & size' & e' & Hatt & Hb2 & Hst2 & Hv2); [| | |done|].
      { unfold own_cost in *. simpl in *. lia. }
      { intros Hx. apply elem_of_cons in Hx as [->|Hx]; [set_solver|]. apply list_elem_of_singleton in Hx as ->. lia. }
      { lia. }
      rewrite list_insert_insert_eq in Hb2. exists b', m2, size', e'. split_and!; [exact Hatt|done|done|].
      eapply step_weaken.
      * eapply (step_trans ss _ _ off off); [done|exact (Hst1 off)|exact Hst2|lia|].
        intros x Hx. by left.
      * unfold own_cost. simpl. lia.
      * lia.
      * intros x [Hx|Hx]%elem_of_app; [by left|]. apply list_elem_of_singleton in Hx as ->.
        right. right. by apply fresh_none.
      * intros x Hx. left. set_solver.
      * done.
  - run_ret. change (0 <? 0) with false. cbv iota.
    assert (ready t (m_cells m) (buf, 0) lim0 e B /\ attach_cost t = cost t) as [Hr Hc].
    { destruct t as [e0|s|s|sh' ts']; [done..|]. apply value_in_node in Hval.
      destruct Hval as [(n & sz & q & size' & off' & B' & -> & _)|(n & sz & o & size' & off' & -> & _)]; by destruct sh'. }
    destruct (attach_well sh Hsh m b size off es i e Hm Hb Hi Hoff fuel buf lim0 t B Hr) as (b' & m2 & size' & e' & Hatt & Hb2 & Hst2 & Hv2);
      [by rewrite Hc|done|done|done|]. rewrite Hc in Hst2. by exists b', m2, size', e'.
Qed.
End body.

Lemma loop_run ts2 : forall es2 ts1 es1 m b size off B,
  mem_wf m -> holds m b sh size off (es1 ++ es2) -> 0 <= off ->
  each (λ t e B, value_in t (m_cells m) (b, ss) off e B) ts1 es1 [] ->
  each (λ t e B, value_in t (m_cells m) (buf, 0) lim0 e B) ts2 es2 B ->
  b ∉ buf :: B -> NoDup (buf :: B) -> (buf < m_next m)%positive ->
  (total cost ts2 <= m_quota m)%nat -> (forall t, t ∈ ts2 -> loop_ok t) ->
  exists b' m' size' es',
    serialize_loop body (length es2) (Z.of_nat (length es1)) (Some (b, 0)) m = Ok ((0, Some (b', 0)), m') /\
    holds m' b' sh size' (area ts2 off) es' /\
    each (λ t e B, value_in t (m_cells m') (b', ss) (area ts2 off) e B) (ts1 ++ ts2) es' [] /\
    step ss (total cost ts2) off m b m' b' B [].
Proof using Hsh HL.
  induction ts2 as [|t ts2 IH]; intros [|e es2] ts1 es1 m b size off B Hm Hb Hoff H1 H2 HbB Hnd Hbuf Hq Hok; try done.
  - simpl in H2. subst B. rewrite app_nil_r in *. exists b, m, size, es1. split_and!; try done. by apply step_refl.
  - destruct H2 as (B1 & B2 & -> & Hval & H2). cbn [length serialize_loop total area] in *.
    assert (forall q, q ∈ B1 ++ B2 -> (q < m_next m)%positive) as HBlt.
    { eapply owns_allocated; [done|done|]. intros q [Hq'|Hq']%elem_of_app; [by eapply value_owns|].
      eapply each_owns; [exact H2| |exact Hq']. intros t' e' B' _. apply value_owns. }
    apply NoDup_cons in Hnd as [HbufB Hnd]. apply NoDup_app in Hnd as (Hnd1 & Hdis & Hnd2).
    destruct (body_run m b size off _ (length es1) e t B1 Hm Hb) as (b1 & m1 & size1 & e1 & Hrun & Hb1 & Hv1 & Hst1);
      [by apply list_lookup_middle|done|done|set_solver|apply NoDup_cons; split; [set_solver|done]|lia|done|apply Hok; by left|].
    run Hrun. cbn [fst snd]. change (0 <? 0) with false. cbv iota.
    pose proof (st_mem_wf _ _ _ _ _ _ _ _ _ Hst1) as Hm1. pose proof (st_next _ _ _ _ _ _ _ _ _ Hst1) as Hn1.
    pose proof (st_quota _ _ _ _ _ _ _ _ _ Hst1) as Hq1.
    assert (off <= after t off) as Hle by (by eapply value_grows).
    assert (b1 ∉ buf :: B1 ++ B2) as Hb1B.
    { destruct (st_block _ _ _ _ _ _ _ _ _ Hst1) as [->|Hf]; [done|].
      intros [->|Hin]%elem_of_cons; [lia|]. apply HBlt in Hin. lia. }
    assert (keeps (m_cells m) (m_cells m1) (buf :: B2)) as Hk.
    { eapply step_keeps; [exact Hm|exact Hst1|]. intros q Hq'. split_and!; [set_solver| |apply not_elem_of_nil].
      intros Hin. apply elem_of_cons in Hq' as [->|Hq']; [set_solver|]. by eapply Hdis. }
    replace (Z.of_nat (length es1) + 1) with (Z.of_nat (length (es1 ++ [e1]))) by (rewrite length_app; simpl; lia).
    rewrite insert_app_r_alt, Nat.sub_diag in Hb1 by lia. cbn [insert list_insert] in Hb1.
    change (e1 :: es2) with ([e1] ++ es2) in Hb1. rewrite app_assoc in Hb1.
    destruct (IH es2 (ts1 ++ [t]) (es1 ++ [e1]) m1 b1 size1 (after t off) B2 Hm1 Hb1)
      as (b' & m' & size' & es' & Hrun' & Hb' & Heach & Hst'); [lia| | |set_solver| |lia|lia| |].
    + apply (each_app _ ts1 [t] es1 [e1] [] []).
      * eapply each_moves; [exact H1|apply Hst1|by intros ? ?%elem_of_nil|done].
      * exists [], []. done.
    + eapply each_moves; [exact H2| | |done].
      * apply keeps_self. intros q Hq'. apply Hk. set_solver.
      * intros q Hq'. apply Hk. by right.
    + apply NoDup_cons. split; [set_solver|done].
    + intros t' Hin. apply Hok. by right.
    + exists b', m', size', es'. rewrite <- app_assoc in Heach. split_and!; [exact Hrun'|exact Hb'|exact Heach|].
      eapply (step_trans ss _ _ off (after t off)); [done|exact Hst1|exact Hst'|done|by intros x ?%elem_of_nil].
Qed.
End loop.

(** ** The whole object *)

Section whole.
Context {C : Type} {HC : Container C} {HL : ContainerLaws C}.
Context (sh : shape) (Hsh : c_shape sh = true) (fuel : nat) (ts : list tree).
Abbreviation ss := (shape_size sh).

(** The area is copied into the stack frame ... *)
Lemma enter_run m q size off B :
  mem_wf m -> object_at (m_cells m) (q, 0) sh ts size off B -> q ∉ B ->
  exists m' es, let buf := m_next m in
    (memcpy (Some (buf, 0)) (ptr_add (Some (q, 0)) ss) off ;; set_attached (C := C) (Some (q, 0)) size 0)
      (Mem (m_cells m) (buf + 1) (m_quota m)) = Ok (tt, m') /\
    holds m' q sh size 0 es /\ length es = length ts /\
    each (λ t e B, value_in t (m_cells m') (buf, 0) off e B) ts es B /\
    step ss 0 0 m q m' q [] [buf] /\ (buf < m_next m')%positive.
Proof using Hsh HL.
  intros Hm (c & es & Hc & Hv & Ho & Heach) HqB. set (buf := m_next m).
  assert (q < buf)%positive as Hq by (by apply Hm in Hc). pose proof (cell_view_size _ _ _ _ _ Hv) as Hpos.
  set (m1 := set_cells (copy_cells (q, 0 + ss) off (buf, 0)) (Mem (m_cells m) (buf + 1) (m_quota m))).
  assert (forall k : addr, k.1 <> buf -> m_cells m1 !! k = m_cells m !! k) as Hkeep.
  { intros k Hk. unfold m1. simpl. apply copy_cells_outside, not_true_iff_false. rewrite in_area_spec. simpl. by intros [? _]. }
  assert (mem_wf m1) as Hm1.
  { intros k c' Hk. destruct (decide (k.1 = buf)) as [->|Hne]; [simpl; lia|]. rewrite Hkeep in Hk by done.
    apply Hm in Hk. simpl. lia. }
  assert (holds m1 q sh size off es) as Hb1 by (exists c; split; [rewrite Hkeep by (simpl; lia); done|done]).
  destruct (set_attached_run sh Hsh m1 q size off es Hm1 Hb1 size 0) as (m2 & Hs & Hb2 & Hst2).
  exists m2, es. cbv zeta. split_and!; [|done|symmetry; by eapply each_length| | |].
  - assert (memcpy (Some (buf, 0)) (ptr_add (Some (q, 0)) ss) off (Mem (m_cells m) (buf + 1) (m_quota m)) = Ok (tt, m1))
      as Hcpy by done. by run Hcpy.
  - eapply each_moves; [exact Heach|..|done].
    + intros o c' Hlt Hc'. cbn [fst snd] in *.
      apply (step_keeps _ _ _ _ _ _ _ _ _ [buf] Hm1 (Hst2 0)); [set_solver by lia|set_solver|].
      pose proof (copy_cells_inside (q, 0 + ss) off (buf, 0) _ _ _ _ Hc') as H. cbn [fst snd] in H.
      replace (0 + (0 + ss + o - (0 + ss))) with (0 + o) in H by lia. apply H. apply in_area_spec. simpl. lia.
    + intros x Hx o c' Hc'. apply (step_keeps _ _ _ _ _ _ _ _ _ [x] Hm1 (Hst2 0)); [set_solver|set_solver|].
      rewrite Hkeep; [done|]. apply Hm in Hc'. simpl in *. lia.
  - eapply step_write; [done| |exact (Hst2 0)]. constructor; [| |simpl; lia|simpl; lia|done|by left].
    + intros k Hk. rewrite Hkeep by set_solver. by rewrite drop_blocks_out by set_solver.
    + intros o c' Hlt. lia.
  - pose proof (st_next _ _ _ _ _ _ _ _ _ (Hst2 0)) as Hn. simpl in Hn. lia.
Qed.

(** ... the block is cut to its length ... *)
Lemma end_run m q size off es :
  mem_wf m -> holds m q sh size off es -> 0 <= off -> ss + off < 2147483648 -> (1 <= m_quota m)%nat ->
  exists m' nq, serialize_end (C := C) ss (Some (q, 0)) m = Ok ((ss + off, Some (nq, 0)), m') /\
    holds m' nq sh off off es /\ step ss 1 off m q m' nq [] [] /\ (m_next m <= nq)%positive.
Proof using Hsh HL.
  intros Hm Hb Ho Hflat Hq. pose proof (shape_positive _ _ _ _ _ _ Hb) as Hpos.
  destruct (container_load sh Hsh _ _ _ _ _ Hb) as (x & Hl & Hv & Hc).
  destruct (c_view _ _ _ _ _ Hv) as (_ & _ & _ & Hao).
  destruct (realloc_step ss off (ss + off) m q (c_cell x) Hm Hc Hq) as (nq & m1 & Hr & Hst1 & Hc1 & Hne); [lia..|].
  assert (holds m1 nq sh size off es) as Hb1 by (eexists; done).
  destruct (container_load sh Hsh _ _ _ _ _ Hb1) as (x1 & Hl1 & Hv1 & _).
  destruct (c_view _ _ _ _ _ Hv1) as (_ & _ & _ & Hao1).
  destruct (set_attached_run sh Hsh m1 nq size off es (st_mem_wf _ _ _ _ _ _ _ _ _ Hst1) Hb1 off off) as (m2 & Hs & Hb2 & Hst2).
  exists m2, nq. split_and!; [|done|by eapply step_then|].
  - unfold serialize_end. run Hl. rewrite Hao. run Hr. run Hl1. rewrite Hao1. run Hs. by no_wrap.
  - destruct (st_block _ _ _ _ _ _ _ _ _ Hst1); done.
Qed.

(** ... and the frame goes. *)
Lemma container_run m q size off B :
  (forall t, t ∈ ts -> loop_ok fuel t) -> mem_wf m -> object_at (m_cells m) (q, 0) sh ts size off B ->
  NoDup (q :: B) -> (own_cost ts <= m_quota m)%nat -> flat_size sh ts < 2147483648 ->
  exists m' nq,
    serialize_container (C := C) (im_serialize_hashtable fuel) (im_serialize_vector fuel)
      (im_destroy_hashtable fuel) (im_destroy_vector fuel) (Some (q, 0)) m
      = Ok ((flat_size sh ts, Some (nq, 0)), m') /\
    serialized (own_cost ts) m q B sh ts m' nq.
Proof using Hsh HL.
  intros Hok Hm Hobj Hnd Hq Hflat. apply NoDup_cons in Hnd as [HqB Hnd].
  destruct (enter_run m q size off B Hm Hobj HqB) as (m1 & es & Hent & Hb1 & Hlen & Heach & Hst1 & Hbuf). cbv zeta in *.
  set (buf := m_next m) in *. pose proof Hobj as (c & es0 & Hc & Hv & Ho & Heach0).
  assert (forall x, x ∈ q :: B -> (x < buf)%positive) as Hlt.
  { intros x [->|Hx]%elem_of_cons; [by apply Hm in Hc|]. eapply owns_allocated; [done|done| |exact Hx].
    eapply each_owns; [exact Heach0|]. intros t e B' _. apply value_owns. }
  pose proof (st_mem_wf _ _ _ _ _ _ _ _ _ Hst1) as Hm1. pose proof (st_quota _ _ _ _ _ _ _ _ _ Hst1) as Hq1.
  assert (0 < ss) as Hpos by (by eapply cell_view_size).
  assert (buf ∉ q :: B) as HbufB by (intros Hin; apply Hlt in Hin; lia).
  destruct (loop_run sh Hsh fuel buf off ts es [] [] m1 q size 0 B Hm1 Hb1) as (b2 & m2 & size2 & es2 & Hloop & Hb2 & Heach2 & Hst2);
    [lia|done|done|set_solver|apply NoDup_cons; set_solver|done|unfold own_cost in *; lia|done|].
  pose proof (st_mem_wf _ _ _ _ _ _ _ _ _ Hst2) as Hm2. pose proof (st_quota _ _ _ _ _ _ _ _ _ Hst2) as Hq2.
  assert (0 <= area ts 0) as Harea by (by eapply area_grows).
  destruct (end_run m2 b2 size2 (area ts 0) es2 Hm2 Hb2 Harea Hflat) as (m3 & nq & Hend & Hb3 & Hst3 & Hnq);
    [unfold own_cost in *; lia|].
  pose proof (st_mem_wf _ _ _ _ _ _ _ _ _ Hst3) as Hm3.
  pose proof (st_next _ _ _ _ _ _ _ _ _ Hst1) as Hn1. pose proof (st_next _ _ _ _ _ _ _ _ _ Hst2) as Hn2.
  assert (nq ∉ [buf]) as Hnb by (intros ->%list_elem_of_singleton; lia).
  destruct (drop_step ss (area ts 0) m3 nq [buf] Hm3 Hnb) as [Hst4 Hhead].
  exists (free_blocks [buf] m3), nq. split.
  - unfold serialize_container. destruct (container_load sh Hsh m q size off es0) as (x & Hl & Hv' & _); [by exists c|].
    run Hl. destruct (c_view _ _ _ _ _ Hv') as (-> & -> & -> & ->).
    assert (alloca m = Ok (Some (buf, 0), Mem (m_cells m) (buf + 1) (m_quota m))) as Hal by done. run Hal.
    rewrite <- (M_bind_assoc _ _ (λ _, _)). run Hent.
    assert (Z.to_nat (zlen es0) = length es) as ->.
    { rewrite Hlen. unfold zlen. rewrite Nat2Z.id. symmetry. by eapply each_length. }
    run Hloop. cbn [fst snd]. change (0 <? 0) with false. cbv iota. run Hend.
    assert (leave_frame (Some (buf, 0)) m3 = Ok (tt, free_blocks [buf] m3)) as Hlv.
    { unfold leave_frame, set_cells. by rewrite drop_blocks_one. }
    by run Hlv.
  - assert (step ss (own_cost ts) 0 m q (free_blocks [buf] m3) nq B []) as Hst.
    { eapply step_weaken; [|..|done].
      - eapply (step_trans ss _ _ 0 (area ts 0)); [done| |exact Hst4|done|intros x Hx; left; exact Hx].
        eapply (step_trans ss _ _ 0 (area ts 0)); [done| | |done|intros x Hx; right; exact Hx].
        + eapply (step_trans ss 0 _ 0 0); [done|exact Hst1| |done|intros x Hx; right; exact Hx].
          eapply step_also; [exact Hst2|set_solver].
        + eapply step_also; [exact Hst3|set_solver].
      - unfold own_cost. lia.
      - done.
      - intros x Hx. rewrite !elem_of_app in Hx. destruct Hx as [[[Hx|Hx]|Hx]|Hx]; [by apply elem_of_nil in Hx|by left|
          by apply elem_of_nil in Hx|]. apply list_elem_of_singleton in Hx as ->. right. right. by apply fresh_none.
      - intros x Hx. left. set_solver. }
    constructor; [|apply Hst..|lia].
    destruct Hb3 as (c3 & Hc3 & Hv3). exists c3, es2. split_and!; [|done|done|].
    + by rewrite Hhead.
    + eapply each_moves; [exact Heach2| |by intros ? ?%elem_of_nil|done].
      intros o c' Hlt' Hc'. apply Hst4; [done|]. apply Hst3; done.
Qed.
End whole.

(** Every tree is serialised. *)
Lemma tree_serializes t : serializes t.
Proof.
  induction t as [e0|s|s|sh ts IH] using tree_ind'; try done.
  intros fuel m q size off B Hf Hm Hobj Hnd Hq Hflat. rewrite Forall_forall in IH.
  destruct fuel as [|fuel]; [simpl in Hf; lia|].
  assert (forall t, t ∈ ts -> loop_ok fuel t) as Hok.
  { intros t Hin. pose proof (largest_ge depth t ts Hin) as Hd. split_and!; [by apply IH|simpl in Hf; lia|].
    destruct t as [| | |sh' ts']; try done. destruct Hobj as (c & es & _ & Hv & _ & Heach).
    destruct (area_grows _ _ _ _ _ _ 0 Heach) as [_ Hch]; [done|]. pose proof (Hch _ _ Hin).
    pose proof (cell_view_size _ _ _ _ _ Hv). unfold flat_size in *. lia. }
  destruct sh; cbn [serialize_of im_serialize_hashtable im_serialize_vector].
  - by eapply (container_run (C := im_hashtable)).
  - by eapply (container_run (C := im_vector)).
Qed.
