(* ===== verification/ImDuplicate.v ===== *)
(** * Duplicating tables and vectors ([im_hashtable.c], [im_vector.c])

    [im_duplicate_hashtable] and [im_duplicate_vector] copy the block of an
    object and then replace, in the object they were given, every block it owns
    by a copy: original and duplicate change places.  The size of the block is
    computed as if the structure ended with one bucket; it ends with none
    ([buckets\[0\]]), so that the copy is one bucket short. *)

From S2P Require Import Prelude LibC CFloat ImTypes ImHashTable ImTable ImInsert ImVector Beai3Dict.
From S2P Require Import ImSerialize ImTree ImSerializeFacts.

(** ** The block of an object, cut off *)

(** The buckets that lie whole in the first [n] bytes of the object. *)
Class Duplicable (C : Type) {HC : Container C} : Type := {
  c_external : im_info;
  c_attached : im_info;
  c_cut : Z -> C -> C;
  c_free_bucket : nat -> ptr -> Z -> M unit;
}.

Definition whole_buckets (n bucket : Z) : nat := Z.to_nat ((n - 32) / bucket).

#[export] Instance hash_duplicable : Duplicable im_hashtable := {
  c_external := IM_EXTERNAL_NESTED;
  c_attached := IM_ATTACHED_NESTED;
  c_cut n h := set_h_buckets (take (whole_buckets n 128) (h_buckets h)) h;
  c_free_bucket := hashtable_free_bucket;
}.

#[export] Instance vector_duplicable : Duplicable im_vector := {
  c_external := IM_EXTERNAL_VECTOR;
  c_attached := IM_ATTACHED_VECTOR;
  c_cut n v := set_v_buckets (take (whole_buckets n 32) (v_buckets v)) v;
  c_free_bucket := vector_free_bucket;
}.

(** The bytes an object takes without what is attached to it. *)
Definition cell_length (c : cell) : Z :=
  match c with
  | CHash h => hash_size (h_number_of_buckets h)
  | CVector v => vector_size (v_number_of_buckets v)
  | CBytes s => zlen s
  end.

(** The objects that lie whole in the [len] bytes at [src], at [dst]. *)
Definition whole_cells (src : addr) (len : Z) (dst : addr) (cs : gmap addr cell) : list (addr * cell) :=
  omap (λ kc : addr * cell,
    if in_area src len kc.1 && (kc.1.2 + cell_length kc.2 <=? src.2 + len)
    then Some ((dst.1, dst.2 + (kc.1.2 - src.2)), kc.2) else None)
    (map_to_list cs).

Section duplicate.
Context {C : Type} {HC : Container C} {HD : Duplicable C}.
Implicit Types (p : ptr) (position : Z).

(** [sizeof( *p) + sizeof(p->buckets\[0\]) * (p->number_of_buckets - 1)]. *)
Definition duplicate_size (c : C) : Z := c_size (C := C) (u32 (c_number c - 1)).

(** [calloc(1, size)] and the [memcpy] of [size] bytes of the object [c] into
    it. *)
Definition calloc_copy p (size : Z) (c : C) : M ptr := λ m,
  match p, m_quota m with
  | None, _ => Fault
  | _, O => Ok (None, m)
  | Some a, S q =>
      let new := (m_next m, 0) in
      Ok (Some new,
          Mem (<[new := c_cell (c_cut size c)]> (list_to_map (whole_cells a size new (m_cells m)) ∪ m_cells m))
              (m_next m + 1) q)
  end.

Definition duplicate_block p : M ptr :=
  c ← c_load p; calloc_copy p (duplicate_size c + c_attached_size c) c.

(** The two cases of [copy_bucket] that copy a run of bytes. *)
Definition copy_bytes p position : M Z :=
  b ← read_bucket p position;
  match e_value b with
  | external_object object_size tmp =>
      object_alloc ← alloc (CBytes (replicate (Z.to_nat (e_length b)) 0));
      match object_alloc with
      | None => mret (-1)
      | Some _ =>
          s ← load_bytes tmp;
          s ← lift (if e_length b <? object_size then Fault else take_bytes object_size s);
          store object_alloc (CBytes (s ++ replicate (Z.to_nat (e_length b - object_size)) 0)) ;;
          write_bucket p position (Entry (e_info b) (e_length b) (external_object (e_length b) object_alloc)) ;;
          mret 0
      end
  | _ => fault
  end.

(** ... and those that copy an object. *)
Definition copy_object (duplicate : ptr -> M ptr) p position : M Z :=
  b ← read_bucket p position;
  match e_value b with
  | external_object _ tmp =>
      object_alloc ← duplicate tmp;
      match object_alloc with
      | None => mret (-1)
      | Some _ =>
          write_bucket p position (Entry (e_info b) (e_length b) (external_object (e_length b) object_alloc)) ;;
          mret 0
      end
  | _ => fault
  end.

(** An attached object has an offset where [external_nested.object_alloc] is
    read as a pointer: the call goes astray.  The functions called are given
    for the pointer a union written as an external object would hold. *)
Definition copy_attached (duplicate : ptr -> M ptr) p position : M Z :=
  b ← read_bucket p position;
  match e_value b with
  | external_object _ tmp =>
      object_alloc ← duplicate tmp;
      match object_alloc with None => mret (-1) | Some _ => mret 0 end
  | _ => fault
  end.

Definition copy_bucket (duplicate_hashtable duplicate_vector : im_info -> ptr -> M ptr) p position : M Z :=
  b ← read_bucket p position;
  match e_info b with
  | IM_EXTERNAL_STRING | IM_EXTERNAL_BLOCK => copy_bytes p position
  | IM_EXTERNAL_NESTED => copy_object (duplicate_hashtable IM_EXTERNAL_NESTED) p position
  | IM_EXTERNAL_VECTOR => copy_object (duplicate_vector IM_EXTERNAL_VECTOR) p position
  | IM_ATTACHED_NESTED => copy_attached (duplicate_hashtable IM_ATTACHED_NESTED) p position
  | IM_ATTACHED_VECTOR => copy_attached (duplicate_vector IM_ATTACHED_VECTOR) p position
  | _ => mret 0
  end.

(** The loop over the buckets of the original: the number of buckets done, and
    whether all of them are. *)
Fixpoint duplicate_loop (copy : Z -> M Z) (n : nat) (i : Z) : M (Z * bool) :=
  match n with
  | O => mret (i, true)
  | S n =>
      code ← copy i;
      if code <? 0 then mret (i, false) else duplicate_loop copy n (i + 1)
  end.

(** [for(i--; i >= 0; i--) free_bucket(new, i);]. *)
Fixpoint free_back (free : Z -> M unit) (n : nat) : M unit :=
  match n with O => mret tt | S n => free (Z.of_nat n) ;; free_back free n end.

Definition duplicate_with_info (fuel : nat) (duplicate_hashtable duplicate_vector : im_info -> ptr -> M ptr)
    (info : im_info) p : M ptr :=
  new ← (if bool_decide (info = c_external (C := C)) then duplicate_block p
         else if bool_decide (info = c_attached (C := C)) then mret p
         else mret None);
  match new with
  | None => mret None
  | Some _ =>
      c ← c_load (C := C) p;
      r ← duplicate_loop (copy_bucket duplicate_hashtable duplicate_vector p) (Z.to_nat (c_number c)) 0;
      if (r.2 : bool) then mret new
      else
        free_back (c_free_bucket (C := C) fuel new) (Z.to_nat r.1) ;;
        (if bool_decide (info = IM_EXTERNAL_NESTED) then freep new else mret tt) ;;
        mret None
  end.
End duplicate.

(** The static functions as each of the two files has them. *)
Definition hash_copy_bucket := copy_bucket (C := im_hashtable).
Definition vector_copy_bucket := copy_bucket (C := im_vector).

(** A level of nesting takes one unit of fuel. *)
Fixpoint im_duplicate_hashtable_with_info (fuel : nat) (info : im_info) (hashtable : ptr) : M ptr :=
  match fuel with
  | O => no_fuel
  | S fuel =>
      duplicate_with_info (C := im_hashtable) fuel (im_duplicate_hashtable_with_info fuel)
        (im_duplicate_vector_with_info fuel) info hashtable
  end
with im_duplicate_vector_with_info (fuel : nat) (info : im_info) (vector : ptr) : M ptr :=
  match fuel with
  | O => no_fuel
  | S fuel =>
      duplicate_with_info (C := im_vector) fuel (im_duplicate_hashtable_with_info fuel)
        (im_duplicate_vector_with_info fuel) info vector
  end.

Definition im_duplicate_hashtable (fuel : nat) (hashtable : ptr) : M ptr :=
  im_duplicate_hashtable_with_info fuel IM_EXTERNAL_NESTED hashtable.
Definition im_duplicate_vector (fuel : nat) (vector : ptr) : M ptr :=
  im_duplicate_vector_with_info fuel IM_EXTERNAL_VECTOR vector.

(** ** Where duplication goes wrong

    The copy of a table without attached values lacks its last bucket; a probe
    that ends there leaves the copy.  A vector that was cleared still has its
    old buckets, which the duplication reads. *)

(** ** The short copy of a table *)

Definition cut_last (h : im_hashtable) : im_hashtable := set_h_buckets (removelast (h_buckets h)) h.

Lemma removelast_take {A} (l : list A) : removelast l = take (length l - 1) l.
Proof. rewrite removelast_firstn_len. by rewrite <- Nat.sub_1_r. Qed.

Section table.
Context (h : im_hashtable).
Hypothesis (Hn : h_number_of_buckets h = zlen (h_buckets h)).

Lemma cut_last_get p b : zget (h_buckets h) p = Ok b -> p <> h_number_of_buckets h - 1 -> zget (h_buckets (cut_last h)) p = Ok b.
Proof using Hn.
  intros Hp Hne. pose proof (zget_Ok_range _ _ _ Hp) as Hr. apply zget_Ok in Hp as [H0 Hp].
  apply zget_lookup; [done|]. simpl. rewrite removelast_take, lookup_take_lt; [done|]. unfold zlen in *. lia.
Qed.

(** A search that ends at the last bucket leaves the copy. *)
Lemma cut_last_find_loop key fuel : forall p c,
  im_find_loop fuel h key p c = Ok (h_number_of_buckets h - 1) -> im_find_loop fuel (cut_last h) key p c = Fault.
Proof using Hn.
  induction fuel as [|fuel IH]; intros p c; [done|]. cbn [im_find_loop].
  destruct (zget (h_buckets h) p) as [b| |] eqn:Hp; [|done|done]. cbn [mbind outcome_bind]. intros H.
  destruct (decide (p = h_number_of_buckets h - 1)) as [->|Hne].
  - pose proof (zget_Ok_range _ _ _ Hp). rewrite zget_out_of_range; [done|]. right. simpl. rewrite removelast_take.
    unfold zlen in *. rewrite length_take. lia.
  - rewrite (cut_last_get p b Hp Hne). cbn [mbind outcome_bind]. destruct (im_stop b key); [congruence|]. by apply IH.
Qed.

Lemma cut_last_find key :
  im_find_element h key = Ok (h_number_of_buckets h - 1) -> im_find_element (cut_last h) key = Fault.
Proof using Hn.
  unfold im_find_element, im_hashcode. change (h_number_of_buckets (cut_last h)) with (h_number_of_buckets h).
  destruct (_ =? 0); [done|]. cbn [mbind outcome_bind]. apply cut_last_find_loop.
Qed.
End table.

(** ** Duplicating a table of values in the buckets *)

Section duplicate.
Context (m : mem) (a : addr) (h : im_hashtable).
Hypothesis (Hm : mem_wf m) (Ha : m_cells m !! a = Some (CHash h)).
Hypothesis (Hn : h_number_of_buckets h = zlen (h_buckets h)) (Hb : 1 <= h_number_of_buckets h < 4294967296).
Hypothesis (Hs : h_attached_size h = 0) (Hin : Forall (λ b, is_inline (hb_info b) = true) (h_buckets h)).

Lemma duplicate_block_run :
  (1 <= m_quota m)%nat -> exists m', duplicate_block (C := im_hashtable) (Some a) m = Ok (Some (m_next m, 0), m') /\
    m_cells m' !! (m_next m, 0) = Some (CHash (cut_last h)) /\
    forall k, k.1 <> m_next m -> m_cells m' !! k = m_cells m !! k.
Proof using Ha Hn Hb Hs.
  intros Hq. destruct (m_quota m) as [|q] eqn:Equ; [lia|].
  unfold duplicate_block. cbn [c_load hash_container]. run (load_hash_run _ _ _ Ha).
  unfold calloc_copy. rewrite Equ. eexists. split; [reflexivity|]. cbn [m_cells c_cell hash_container c_cut hash_duplicable].
  assert (whole_buckets (duplicate_size h + c_attached_size h) 128 = (length (h_buckets h) - 1)%nat) as ->.
  { unfold duplicate_size. cbn [c_size hash_container c_number c_attached_size]. rewrite Hs. no_wrap.
    unfold whole_buckets, hash_size, zlen in *. replace (32 + 128 * (h_number_of_buckets h - 1) + 0 - 32) with ((h_number_of_buckets h - 1) * 128) by lia.
    rewrite Z.div_mul by lia. lia. }
  split.
  - rewrite lookup_insert_eq. unfold cut_last. by rewrite removelast_take.
  - intros k Hk. rewrite lookup_insert_ne by (intros <-; by apply Hk). rewrite lookup_union_r; [done|].
    apply not_elem_of_list_to_map_1. intros Hx. apply list_elem_of_fmap in Hx as ([k' c] & -> & Hx).
    apply list_elem_of_omap in Hx as ([k0 c0] & _ & Hx). case_match; [|done]. injection Hx as <- <-. by apply Hk.
Qed.

Lemma copy_inline_loop dh dv m1 n i :
  m_cells m1 !! a = Some (CHash h) -> Z.of_nat (i + n) = h_number_of_buckets h ->
  duplicate_loop (copy_bucket (C := im_hashtable) dh dv (Some a)) n (Z.of_nat i) m1 = Ok ((Z.of_nat (i + n), true), m1).
Proof using Hn Hin.
  intros Ha1. revert i. induction n as [|n IH]; intros i Hi; cbn [duplicate_loop]; [by rewrite Nat.add_0_r|].
  destruct (zget_in_range (h_buckets h) (Z.of_nat i)) as [b Hget]; [lia|].
  assert (copy_bucket (C := im_hashtable) dh dv (Some a) (Z.of_nat i) m1 = Ok (0, m1)) as Hc.
  { unfold copy_bucket. assert (read_bucket (C := im_hashtable) (Some a) (Z.of_nat i) m1 = Ok (hash_entry b, m1)) as Hr.
    { unfold read_bucket. cbn [c_load c_get hash_container]. run (load_hash_run _ _ _ Ha1). unfold lift. by rewrite Hget. }
    run Hr. apply zget_Ok in Hget as [_ Hget]. rewrite Nat2Z.id in Hget. rewrite Forall_lookup in Hin. specialize (Hin _ _ Hget).
    simpl. by destruct (hb_info b). }
  run Hc. change (0 <? 0) with false. cbv iota. replace (Z.of_nat i + 1) with (Z.of_nat (S i)) by lia.
  rewrite IH by lia. by rewrite Nat.add_succ_comm.
Qed.

Lemma duplicate_run fuel :
  (1 <= m_quota m)%nat -> exists m',
    im_duplicate_hashtable (S fuel) (Some a) m = Ok (Some (m_next m, 0), m') /\
    m_cells m' !! (m_next m, 0) = Some (CHash (cut_last h)) /\
    forall k, k.1 <> m_next m -> m_cells m' !! k = m_cells m !! k.
Proof using Hm Ha Hn Hb Hs Hin.
  intros Hq. destruct (duplicate_block_run Hq) as (m' & Hrun & Hnew & Hkeep). exists m'. split_and!; [|done|done].
  unfold im_duplicate_hashtable. cbn [im_duplicate_hashtable_with_info]. unfold duplicate_with_info.
  change (bool_decide (IM_EXTERNAL_NESTED = c_external)) with true. cbv iota. run Hrun.
  assert (m_cells m' !! a = Some (CHash h)) as Ha'.
  { rewrite Hkeep; [done|]. apply Hm in Ha. lia. }
  cbn [c_load hash_container]. run (load_hash_run _ _ _ Ha').
  pose proof (copy_inline_loop (im_duplicate_hashtable_with_info fuel) (im_duplicate_vector_with_info fuel) m'
    (Z.to_nat (h_number_of_buckets h)) 0 Ha' ltac:(lia)) as Hl. cbn [c_number]. by run Hl.
Qed.
End duplicate.

(** ** A cleared vector *)

Lemma M_bind_fault {A B} (c : M A) (f : A -> M B) m : c m = Fault -> (x ← c; f x) m = Fault.
Proof. unfold mbind, M_bind. by intros ->. Qed.

Section cleared.
Context (fuel : nat) (m : mem) (a : addr) (v : im_vector) (b : im_vector_bucket) (rest : list im_vector_bucket).
Context (size : Z) (q : positive) (s : bytes).
Hypothesis (Hm : mem_wf m) (Ha : m_cells m !! a = Some (CVector v)) (Hqa : q <> a.1).
Hypothesis (Hv : v_buckets v = b :: rest) (Hi : v_inuse v = 1) (Hn : 1 <= v_number_of_buckets v).
Hypothesis (Hinfo : vb_info b = IM_EXTERNAL_STRING) (Hval : vb_value b = external_object size (Some (q, 0))).
Hypothesis (Hs : m_cells m !! (q, 0) = Some (CBytes s)) (Hq : (2 <= m_quota m)%nat).

Lemma empty_vector_run : exists m',
  im_empty_vector (S fuel) (Some a) m = Ok (tt, m') /\
  m_cells m' !! a = Some (CVector (set_v_attached (v_attached_size v) 0 (set_v_inuse 0 v))) /\
  m_cells m' !! (q, 0) = None /\ m_quota m' = m_quota m /\ m_next m' = m_next m.
Proof using Ha Hqa Hv Hi Hinfo Hval Hs.
  unfold im_empty_vector. run (load_vector_run _ _ _ Ha). rewrite Hi. change (Z.to_nat 1) with 1%nat.
  assert (vector_free_bucket (S fuel) (Some a) 0 m = Ok (tt, set_cells (drop_block q) m)) as Hf.
  { cbn [vector_free_bucket]. run (load_vector_run _ _ _ Ha).
    rewrite (M_lift_ok _ _ _ b) by (by rewrite Hv). cbv beta. rewrite Hinfo, Hval. unfold freep.
    change (0 =? 0) with true. cbv iota. by rewrite Hs. }
  assert (for_range 1 0 (vector_free_bucket (S fuel) (Some a)) m = Ok (tt, set_cells (drop_block q) m)) as Hloop
    by (cbn [for_range]; by run Hf).
  run Hloop.
  assert (m_cells (set_cells (drop_block q) m) !! a = Some (CVector v)) as Ha1 by (simpl; by rewrite drop_block_ne).
  run (load_vector_run _ _ _ Ha1).
  eexists. split; [by apply (store_run _ _ _ _ Ha1)|]. split_and!; [by rewrite upd_same| |done|done].
  rewrite upd_other by (intros E; by apply Hqa; rewrite <- E). apply drop_block_eq.
Qed.

(** The duplication of the cleared vector reads the freed text. *)
Lemma duplicate_cleared_run : (_ ← im_empty_vector (S fuel) (Some a); im_duplicate_vector (S fuel) (Some a)) m = Fault.
Proof using All.
  destruct empty_vector_run as (m1 & Hrun & Hv1 & Hq1 & Hqu & Hnx). run Hrun.
  set (v1 := set_v_attached (v_attached_size v) 0 (set_v_inuse 0 v)) in *.
  assert (a.1 < m_next m /\ q < m_next m)%positive as [Han Hqn] by (apply Hm in Ha; apply Hm in Hs; done).
  unfold im_duplicate_vector. cbn [im_duplicate_vector_with_info]. unfold duplicate_with_info.
  change (bool_decide (IM_EXTERNAL_VECTOR = c_external)) with true. cbv iota.
  assert (exists m2, duplicate_block (C := im_vector) (Some a) m1 = Ok (Some (m_next m1, 0), m2) /\ m_quota m2 = pred (m_quota m) /\
    m_next m2 = (m_next m1 + 1)%positive /\
    (forall k, k.1 <> m_next m1 -> m_cells m2 !! k = m_cells m1 !! k)) as (m2 & Hd & Hqu2 & Hnx2 & Hkeep).
  { unfold duplicate_block. cbn [c_load vector_container]. run (load_vector_run _ _ _ Hv1). unfold calloc_copy.
    rewrite Hqu. destruct (m_quota m) as [|quota] eqn:Equ; [lia|]. eexists. split; [reflexivity|]. split_and!; [done|done|].
    intros k Hk. cbn [m_cells]. rewrite lookup_insert_ne by (intros <-; by apply Hk). rewrite lookup_union_r; [done|].
    apply not_elem_of_list_to_map_1. intros Hx. apply list_elem_of_fmap in Hx as ([k' c] & -> & Hx).
    apply list_elem_of_omap in Hx as ([k0 c0] & _ & Hx). case_match; [|done]. injection Hx as <- <-. by apply Hk. }
  run Hd. assert (m_cells m2 !! a = Some (CVector v1)) as Ha2 by (rewrite Hkeep by lia; done).
  cbn [c_load vector_container]. run (load_vector_run _ _ _ Ha2).
  change (c_number v1) with (v_number_of_buckets v). destruct (Z.to_nat (v_number_of_buckets v)) as [|n] eqn:En; [lia|]. cbn [duplicate_loop].
  assert (copy_bucket (C := im_vector) (im_duplicate_hashtable_with_info fuel) (im_duplicate_vector_with_info fuel)
    (Some a) 0 m2 = Fault) as Hcopy; [|by apply M_bind_fault, M_bind_fault].
  assert (read_bucket (C := im_vector) (Some a) 0 m2 = Ok (vector_entry b, m2)) as Hr.
  { unfold read_bucket. cbn [c_load c_get vector_container]. run (load_vector_run _ _ _ Ha2). unfold lift. simpl. by rewrite Hv. }
  unfold copy_bucket. run Hr. cbn [vector_entry e_info]. rewrite Hinfo. unfold copy_bytes. run Hr.
  cbn [vector_entry e_value]. rewrite Hval. unfold alloc.
  destruct (m_quota m2) as [|quota] eqn:Equ; [lia|].
  rewrite (M_bind_ok _ _ m2 (Some (m_next m2, 0)) (Mem (<[(m_next m2, 0) := CBytes (replicate (Z.to_nat (e_length (vector_entry b))) 0)]>
    (m_cells m2)) (m_next m2 + 1) quota)) by (by rewrite Equ).
  cbv beta. apply M_bind_fault. unfold load_bytes. apply M_bind_fault. unfold load. cbn [m_cells].
  rewrite lookup_insert_ne by (intros [= E]; lia). rewrite Hkeep by (simpl; lia). by rewrite Hq1.
Qed.
End cleared.
