(* ===== verification/SerializeTheorems.v ===== *)
(** * What serialising and duplicating a dictionary does

    [SerializeDict] gathers a dictionary and everything below it in one block
    that reads the same, also when its bytes are copied elsewhere; nested
    dictionaries are freed whole; the two functions that duplicate do not do
    what they promise. *)

From S2P Require Import Prelude LibC CFloat ImTypes ImHashTable ImTable ImInsert ImVector Beai3Dict Samples.
From S2P Require Import ImSerialize ImTree ImSerializeFacts ImTreeFacts ImSerializeRun ImDuplicate.

(** ** A nested dictionary *)

Definition inner_table : im_hashtable :=
  put_in (empty_hashtable 3)
    (HashBucket (key_field name 0) IM_EXTERNAL_STRING (zlen long_text) (external_object (zlen long_text) (Some (4%positive, 0)))).

(** An integer, a text, a dictionary with a text, and an array of two numbers. *)
Definition outer_table : im_hashtable :=
  put_in (put_in sample_table
    (HashBucket (key_field (lit "inner") 0) IM_EXTERNAL_NESTED 416 (external_object 416 (Some (3%positive, 0)))))
    (HashBucket (key_field (lit "list") 0) IM_EXTERNAL_VECTOR 96 (external_object 96 (Some (5%positive, 0)))).

Definition nested_mem (quota : nat) : mem :=
  Mem (list_to_map [((1%positive, 0), CHash outer_table); ((2%positive, 0), CBytes long_text);
                    ((3%positive, 0), CHash inner_table); ((4%positive, 0), CBytes long_text);
                    ((5%positive, 0), CVector sample_vector); ((6%positive, 0), CBytes [7])]) 7 quota.

Definition free_entry_tree : tree := TPlain (Entry IM_EMPTY 0 value_zero).
Definition inner_tree : list tree := [TText long_text; free_entry_tree; free_entry_tree].
Definition list_tree : list tree := [TPlain (vector_entry (int_element 10)); TPlain (vector_entry (int_element 20))].

(** The trees in the order of the buckets. *)
Definition outer_tree : list tree := (λ b : im_hash_bucket,
  match hb_info b with
  | IM_EXTERNAL_STRING => TText long_text
  | IM_EXTERNAL_NESTED => TNode (SHash 1 2 (hb_key <$> h_buckets inner_table)) inner_tree
  | IM_EXTERNAL_VECTOR => TNode (SVector 2) list_tree
  | _ => TPlain (hash_entry b)
  end) <$> h_buckets outer_table.

Definition outer_shape : shape := SHash (h_inuse outer_table) (h_empty outer_table) (hb_key <$> h_buckets outer_table).

(** One slot after the other. *)
Ltac next_slot blocks :=
  let B := lazymatch goal with |- each _ _ _ ?B => B end in
  exists blocks; eexists; split; [instantiate (1 := drop (length blocks) B); reflexivity|split].

Lemma inner_object quota : object_at (m_cells (nested_mem quota)) (3%positive, 0)
  (SHash 1 2 (hb_key <$> h_buckets inner_table)) inner_tree 0 0 [4]%positive.
Proof.
  exists (CHash inner_table), (hash_entry <$> h_buckets inner_table). split_and!; [done|by vm_compute|done|].
  let l := eval vm_compute in (hash_entry <$> h_buckets inner_table) in
    replace (hash_entry <$> h_buckets inner_table) with l by (by vm_compute).
  next_slot [4%positive]; [split; [by vm_compute|left; eexists _, _; split; [reflexivity|by vm_compute]]|].
  next_slot (@nil positive); [done|]. by next_slot (@nil positive).
Qed.

Lemma list_object quota : object_at (m_cells (nested_mem quota)) (5%positive, 0) (SVector 2) list_tree 0 0 [].
Proof.
  exists (CVector sample_vector), (vector_entry <$> v_buckets sample_vector). split_and!; [done|by vm_compute|done|].
  next_slot (@nil positive); [done|]. by next_slot (@nil positive).
Qed.

Lemma outer_object quota :
  object_at (m_cells (nested_mem quota)) (1%positive, 0) outer_shape outer_tree 0 0 [2; 3; 4; 5]%positive.
Proof.
  exists (CHash outer_table), (hash_entry <$> h_buckets outer_table). split_and!; [done|by vm_compute|done|].
  unfold outer_tree.
  let l := eval vm_compute in (h_buckets outer_table) in
    replace (h_buckets outer_table) with l by (by vm_compute).
  next_slot (@nil positive); [done|].
  next_slot [2%positive]; [split; [by vm_compute|left; eexists _, _; split; [reflexivity|by vm_compute]]|].
  next_slot [3; 4]%positive; [left; eexists _, _, _, _, _, _; split; [reflexivity|split; [reflexivity|apply inner_object]]|].
  next_slot (@nil positive); [done|]. next_slot (@nil positive); [done|].
  next_slot [5]%positive; [left; eexists _, _, _, _, _, _; split; [reflexivity|split; [reflexivity|apply list_object]]|].
  by next_slot (@nil positive).
Qed.

Lemma nested_mem_wf quota : mem_wf (nested_mem quota).
Proof. apply mem_wf_list. by repeat constructor. Qed.

Lemma nested_blocks : NoDup (1 :: [2; 3; 4; 5])%positive.
Proof. by apply (bool_decide_unpack _). Qed.

(** ** Serialising *)

(** C8: [SerializeDict] succeeds on every tree of dictionaries and arrays while
    memory lasts: the answer is the length of one new block that holds the whole
    tree and nothing outside it; every block the dictionary was and owned is
    freed, and the rest of the memory is as it was. *)
Theorem serialize_dict_gathers fuel m b inuse empty keys ts size off B :
  let t := TNode (SHash inuse empty keys) ts in
  mem_wf m -> object_at (m_cells m) (b, 0) (SHash inuse empty keys) ts size off B -> NoDup (b :: B) ->
  (2 * depth t <= fuel)%nat -> (S (total cost ts) <= m_quota m)%nat -> flat_size (SHash inuse empty keys) ts < 2147483648 ->
  exists m' nb,
    SerializeDict fuel (Some (Some (b, 0))) m = Ok ((flat_size (SHash inuse empty keys) ts, Some (Some (nb, 0))), m') /\
    object_at (m_cells m') (nb, 0) (SHash inuse empty keys) ts (area ts 0) (area ts 0) [] /\
    (m_next m <= nb)%positive /\
    forall k, k.1 <> nb -> m_cells m' !! k = if decide (k.1 ∈ b :: B) then None else m_cells m !! k.
Proof.
  intros t Hm Hobj Hnd Hf Hq Hflat.
  destruct (tree_serializes t fuel m b size off B Hf Hm Hobj Hnd Hq Hflat) as (m' & nb & Hrun & Hsz).
  exists m', nb. split_and!; [|apply Hsz|apply Hsz|].
  - unfold SerializeDict. cbn [serialize_of] in Hrun. by run Hrun.
  - intros k Hk. rewrite (sz_changed _ _ _ _ _ _ _ _ Hsz) by set_solver.
    case_decide; [by apply drop_blocks_in|by apply drop_blocks_out].
Qed.

Lemma serialize_dict_gathers_witness :
  exists m' nb,
    SerializeDict 4 (Some (Some (1%positive, 0))) (nested_mem 20) = Ok ((1520, Some (Some (nb, 0))), m') /\
    object_at (m_cells m') (nb, 0) outer_shape outer_tree 592 592 [] /\
    m_cells m' !! (3%positive, 0) = None /\ m_cells m' !! (6%positive, 0) = Some (CBytes [7]).
Proof.
  destruct (serialize_dict_gathers 4 (nested_mem 20) 1 (h_inuse outer_table) (h_empty outer_table)
    (hb_key <$> h_buckets outer_table) outer_tree 0 0 [2; 3; 4; 5]%positive (nested_mem_wf 20) (outer_object 20) nested_blocks)
    as (m' & nb & Hrun & Hobj & Hnb & Hrest); [vm_compute; lia|vm_compute; lia|vm_compute; reflexivity|].
  exists m', nb. split; [|split; [|split]].
  - etransitivity; [exact Hrun|]. repeat f_equal.
  - exact Hobj.
  - rewrite Hrest; [reflexivity|]. simpl in Hnb. intros E. simpl in E. lia.
  - rewrite Hrest; [reflexivity|]. simpl in Hnb. intros E. simpl in E. lia.
Defined.

(** C32: two dictionaries that are the same tree give the same answers to every
    getter, however their parts lie in memory: in blocks of their own, or
    attached; a nested object is the same tree again. *)
Theorem same_tree_same_answers m1 m2 a1 a2 inuse empty keys ts size1 size2 off1 off2 B1 B2 :
  object_at (m_cells m1) a1 (SHash inuse empty keys) ts size1 off1 B1 ->
  object_at (m_cells m2) a2 (SHash inuse empty keys) ts size2 off2 B2 -> reads_same m1 a1 m2 a2.
Proof. apply same_tree_reads. Qed.

(** C9: the bytes [SerializeDict] answers for, copied to any other block, are the
    dictionary: every getter answers there as it did before. *)
Theorem serialized_bytes_read_back fuel m b inuse empty keys ts size off B d :
  let t := TNode (SHash inuse empty keys) ts in
  mem_wf m -> object_at (m_cells m) (b, 0) (SHash inuse empty keys) ts size off B -> NoDup (b :: B) ->
  (2 * depth t <= fuel)%nat -> (S (total cost ts) <= m_quota m)%nat -> flat_size (SHash inuse empty keys) ts < 2147483648 ->
  exists n p m' m'',
    SerializeDict fuel (Some (Some (b, 0))) m = Ok ((n, Some p), m') /\
    memcpy (Some (d, 0)) p n m' = Ok (tt, m'') /\ reads_same m (b, 0) m'' (d, 0).
Proof.
  intros t Hm Hobj Hnd Hf Hq Hflat.
  destruct (tree_serializes t fuel m b size off B Hf Hm Hobj Hnd Hq Hflat) as (m' & nb & Hrun & Hsz).
  eexists _, _, m', _. split; [unfold SerializeDict; cbn [serialize_of] in Hrun; by run Hrun|]. split; [done|].
  eapply same_tree_reads; [exact Hobj|]. eapply object_moves; [apply Hsz| |by intros ? ?%elem_of_nil].
  intros o c Ho Hc. simpl in *.
  pose proof (copy_cells_inside (nb, 0) (flat_size (SHash inuse empty keys) ts) (d, 0) (m_cells m') nb o c Hc) as H.
  simpl in H. rewrite Z.sub_0_r in H. apply H. apply in_area_spec. simpl. unfold flat_size. simpl. lia.
Qed.

Lemma same_tree_same_answers_witness :
  exists m' nb, SerializeDict 4 (Some (Some (1%positive, 0))) (nested_mem 20) = Ok ((1520, Some (Some (nb, 0))), m') /\
    reads_same (nested_mem 0) (1%positive, 0) m' (nb, 0) /\
    answer (GetDictInt (Some (nb, 0)) (Some (age ++ [0])) true m') = Ok (0, Some 41).
Proof.
  destruct (tree_serializes (TNode outer_shape outer_tree) 4%nat (nested_mem 20) 1%positive 0 0 [2; 3; 4; 5]%positive)
    as (m' & nb & Hrun & Hsz);
    [vm_compute; lia|apply nested_mem_wf|apply outer_object|apply nested_blocks|vm_compute; lia|vm_compute; reflexivity|].
  exists m', nb. cbn [serialize_of] in Hrun.
  assert (Hs : reads_same (nested_mem 0) (1%positive, 0) m' (nb, 0))
    by exact (same_tree_same_answers (nested_mem 0) m' _ _ _ _ _ _ _ _ _ _ _ _ (outer_object 0) (sz_object _ _ _ _ _ _ _ _ Hsz)).
  split; [unfold SerializeDict; run Hrun; vm_compute; reflexivity|split; [exact Hs|]].
  destruct Hs as (Hnum & _). unfold GetDictInt. rewrite <- Hnum. vm_compute. reflexivity.
Defined.

Lemma serialized_bytes_read_back_witness :
  exists n p m' m'',
    SerializeDict 4 (Some (Some (1%positive, 0))) (nested_mem 20) = Ok ((n, Some p), m') /\
    memcpy (Some (100%positive, 0)) p n m' = Ok (tt, m'') /\
    answer (GetDictString (Some (100%positive, 0)) (Some (name ++ [0])) true 64 m'') =
      Ok (33, Some (strncpy_term 64 long_text)).
Proof.
  destruct (serialized_bytes_read_back 4 (nested_mem 20) 1 (h_inuse outer_table) (h_empty outer_table)
    (hb_key <$> h_buckets outer_table) outer_tree 0 0 [2; 3; 4; 5]%positive 100 (nested_mem_wf 20) (outer_object 20) nested_blocks)
    as (n & p & m' & m'' & Hrun & Hcpy & Hreads); [vm_compute; lia|vm_compute; lia|vm_compute; reflexivity|].
  exists n, p, m', m''. split; [exact Hrun|split; [exact Hcpy|]].
  destruct Hreads as (_ & Hs & _). rewrite <- Hs. vm_compute. reflexivity.
Defined.

(** The loop of [attach_bucket] ends, with the least room, in steps of
    [IM_ALLOCSIZE], that holds the value behind what is attached. *)
Theorem attach_room_is_least value_length attached_offset attached_size :
  exists k, 0 <= k /\ room_for value_length attached_offset attached_size = Ok (attached_size + k * IM_ALLOCSIZE) /\
    attached_offset + value_length <= attached_size + k * IM_ALLOCSIZE /\
    forall k', 0 <= k' < k -> attached_size + k' * IM_ALLOCSIZE < attached_offset + value_length.
Proof.
  destruct (room_for_spec value_length attached_offset attached_size) as (s & Hrun & H1 & H2 & H3 & [k Hk]).
  unfold IM_ALLOCSIZE in *. exists k. replace (attached_size + k * 8192) with s by lia.
  split_and!; [lia|done|done|]. intros k' Hk'. nia.
Qed.

(** ** Destroying *)

(** C34: [DestroyDict] frees the block of the dictionary and every block below it,
    through any nesting of dictionaries and arrays, once each, and nothing
    else. *)
Theorem destroy_dict_frees_tree fuel m b inuse empty keys ts size off B :
  object_at (m_cells m) (b, 0) (SHash inuse empty keys) ts size off B -> NoDup (b :: B) ->
  (2 * depth (TNode (SHash inuse empty keys) ts) <= fuel)%nat ->
  exists m', DestroyDict fuel (Some (b, 0)) m = Ok (tt, m') /\
    forall k, m_cells m' !! k = if decide (k.1 ∈ b :: B) then None else m_cells m !! k.
Proof.
  intros Hobj Hnd Hf. eexists. split; [exact (destroy_tree_run fuel m b _ ts size off B Hf Hobj Hnd)|].
  intros k. simpl. case_decide; [by apply drop_blocks_in|by apply drop_blocks_out].
Qed.

Lemma destroy_dict_frees_tree_witness :
  exists m', DestroyDict 4 (Some (1%positive, 0)) (nested_mem 0) = Ok (tt, m') /\
    m_cells m' !! (5%positive, 0) = None /\ m_cells m' !! (6%positive, 0) = Some (CBytes [7]).
Proof.
  destruct (destroy_dict_frees_tree 4 (nested_mem 0) 1 (h_inuse outer_table) (h_empty outer_table)
    (hb_key <$> h_buckets outer_table) outer_tree 0 0 [2; 3; 4; 5]%positive (outer_object 0) nested_blocks)
    as (m' & Hrun & Hm'); [vm_compute; lia|].
  exists m'. split; [exact Hrun|]. split; rewrite Hm'; reflexivity.
Defined.

(** ** Failures *)

(** A dictionary serialised before, whose text now stands before its nested
    dictionary in the buckets and behind it in the attached area. *)
Definition shuffled_table : im_hashtable :=
  HashTable 3 2 1 450 450
    [HashBucket (key_field name 0) IM_ATTACHED_STRING 34 (attached_object 34 416);
     HashBucket (key_field (lit "inner") 0) IM_ATTACHED_NESTED 416 (attached_object 416 0);
     hash_bucket_zero].

Definition shuffled_mem (quota : nat) : mem :=
  Mem (list_to_map [((1%positive, 0), CHash shuffled_table); ((1%positive, 416), CHash (put_in (empty_hashtable 3) age_bucket));
                    ((1%positive, 832), CBytes long_text)]) 2 quota.

(** What the nested dictionary answers for its integer. *)
Definition nested_answer (key inner_key : bytes) (handle : option DictHandle) : M (Z * option Z) :=
  match handle with
  | Some p =>
      r ← GetDictDict p (Some (key ++ [0])) true;
      match r.2 with Some inner => GetDictInt inner (Some (inner_key ++ [0])) true | None => mret (-1, None) end
  | None => fault
  end.

(** A [SerializeDict] that runs out of memory answers -1 and may have
    overwritten attached values: a nested dictionary that could be read before
    is a wild read afterwards; with memory the same dictionary is serialised. *)
Theorem failed_serialize_destroys :
  answer (nested_answer (lit "inner") age (Some (Some (1%positive, 0))) (shuffled_mem 0)) = Ok (0, Some 41) /\
  answer (SerializeDict 4 (Some (Some (1%positive, 0))) (shuffled_mem 0)) = Ok (-1, Some (Some (1%positive, 0))) /\
  (r ← SerializeDict 4 (Some (Some (1%positive, 0))); nested_answer (lit "inner") age r.2) (shuffled_mem 0) = Fault /\
  answer ((r ← SerializeDict 4 (Some (Some (1%positive, 0))); nested_answer (lit "inner") age r.2) (shuffled_mem 5)) = Ok (0, Some 41).
Proof. split_and!; vm_compute; reflexivity. Qed.

(** [im_duplicate_hashtable] computes the size of the block as if the
    structure ended with one bucket, and it ends with none: the copy of a table
    lacks the last bucket, and a look-up that ends there in the original leaves
    the copy. *)
Theorem duplicate_loses_last_bucket fuel m a h :
  mem_wf m -> m_cells m !! a = Some (CHash h) ->
  h_number_of_buckets h = zlen (h_buckets h) -> 1 <= h_number_of_buckets h < 4294967296 -> h_attached_size h = 0 ->
  Forall (λ b, is_inline (hb_info b) = true) (h_buckets h) -> (1 <= m_quota m)%nat ->
  exists m' h', im_duplicate_hashtable (S fuel) (Some a) m = Ok (Some (m_next m, 0), m') /\
    m_cells m' !! (m_next m, 0) = Some (CHash h') /\
    h_number_of_buckets h' = h_number_of_buckets h /\ h_buckets h' = removelast (h_buckets h) /\
    (forall key, im_find_element h key = Ok (h_number_of_buckets h - 1) -> im_find_element h' key = Fault) /\
    forall k, k.1 <> m_next m -> m_cells m' !! k = m_cells m !! k.
Proof.
  intros Hm Ha Hn Hb Hs Hin Hq. destruct (duplicate_run m a h Hm Ha Hn Hb Hs Hin fuel Hq) as (m' & Hrun & Hnew & Hkeep).
  exists m', (cut_last h). split_and!; try done. by apply cut_last_find.
Qed.

(** A table whose last bucket holds a key. *)
Definition last_table : im_hashtable :=
  HashTable 3 1 2 0 0 [hash_bucket_zero; hash_bucket_zero; HashBucket (key_field (lit "b") 0) IM_INT 4 (int_value 1)].
Definition last_mem : mem := Mem (list_to_map [((1%positive, 0), CHash last_table)]) 2 5.

Lemma duplicate_loses_last_bucket_witness :
  im_find_element last_table (lit "b" ++ [0]) = Ok 2 /\
  exists m' h', im_duplicate_hashtable 1 (Some (1%positive, 0)) last_mem = Ok (Some (2%positive, 0), m') /\
    m_cells m' !! (2%positive, 0) = Some (CHash h') /\ im_find_element h' (lit "b" ++ [0]) = Fault.
Proof.
  split; [vm_compute; reflexivity|].
  destruct (duplicate_loses_last_bucket 0 last_mem (1%positive, 0) last_table) as (m' & h' & Hrun & Hc & _ & _ & Hf & _).
  - apply mem_wf_list. repeat constructor.
  - reflexivity.
  - reflexivity.
  - simpl; lia.
  - reflexivity.
  - repeat constructor.
  - simpl; lia.
  - exists m', h'. split; [exact Hrun|split; [exact Hc|]]. apply Hf. vm_compute. reflexivity.
Defined.

(** [im_empty_vector] frees what the buckets own and leaves them as they
    are; [im_duplicate_vector] copies every bucket, in use or not: it reads a
    text that was freed. *)
Theorem cleared_vector_duplicate_faults fuel m a v b rest size q s :
  mem_wf m -> m_cells m !! a = Some (CVector v) -> q <> a.1 -> v_buckets v = b :: rest -> v_inuse v = 1 ->
  1 <= v_number_of_buckets v -> vb_info b = IM_EXTERNAL_STRING -> vb_value b = external_object size (Some (q, 0)) ->
  m_cells m !! (q, 0) = Some (CBytes s) -> (2 <= m_quota m)%nat ->
  (_ ← im_empty_vector (S fuel) (Some a); im_duplicate_vector (S fuel) (Some a)) m = Fault.
Proof. intros. by eapply duplicate_cleared_run. Qed.

Definition text_vector : im_vector :=
  Vector 1 1 0 0 [VectorBucket IM_EXTERNAL_STRING (zlen long_text) (external_object (zlen long_text) (Some (2%positive, 0)))].
Definition text_vector_mem : mem :=
  Mem (list_to_map [((1%positive, 0), CVector text_vector); ((2%positive, 0), CBytes long_text)]) 3 5.

Lemma cleared_vector_duplicate_faults_witness :
  (_ ← im_empty_vector 1 (Some (1%positive, 0)); im_duplicate_vector 1 (Some (1%positive, 0))) text_vector_mem = Fault.
Proof.
  apply (cleared_vector_duplicate_faults 0 text_vector_mem (1%positive, 0) text_vector
    (VectorBucket IM_EXTERNAL_STRING (zlen long_text) (external_object (zlen long_text) (Some (2%positive, 0)))) []
    (zlen long_text) 2 long_text); try reflexivity; try discriminate; try (simpl; lia).
  apply mem_wf_list. repeat constructor.
Defined.
