(* ===== verification/BasCodec.v ===== *)
(** * Hexadecimal, BCD and log encoding ([bas_hex_util.c], [bas_encrypt.c]):
    definitions

    A routine that walks two pointers takes the two buffers and keeps the
    offsets; what it returns is the destination and the pointer as an offset.
    A file is the list of its bytes. *)

From S2P Require Import Prelude LibC Buffers.

(** ** [bas_hex_util.c] *)

Definition isupper (c : Z) : bool := (65 <=? c) && (c <=? 90).
Definition islower (c : Z) : bool := (97 <=? c) && (c <=? 122).

Definition BIN2HEX (b : Z) : Z := if 10 <=? b then b - 10 + 65 else b + 48.

Definition HEX2BIN (h : Z) : Z :=
  if isupper h then h - 65 + 10 else if islower h then h - 97 + 10 else if isdigit h then h - 48 else 0.

Definition high_nibble (b : Z) : Z := Z.shiftr (Z.land b 240) 4.
Definition low_nibble (b : Z) : Z := Z.land b 15.

(** [n] rounds that write [f] of the high and of the low half of a byte, as two
    bytes: the destination and the two offsets. *)
Definition unpack_loop (f : Z -> Z) (n : Z) (pcSrc : bytes) (st : bytes * Z * Z) : outcome (bytes * Z * Z) :=
  for_loop (Z.to_nat n) 0 1 (λ _ '(pcDst, d, s),
    b ← zget pcSrc s;
    pcDst ← zset pcDst d (u8 (f (high_nibble b)));
    pcDst ← zset pcDst (d + 1) (u8 (f (low_nibble b)));
    Ok ((pcDst, d + 2, s + 1), true)) st.

(** [n] rounds that write one byte made of the low halves of [f] of two
    bytes. *)
Definition pack_loop (f : Z -> Z) (n : Z) (pcSrc : bytes) (st : bytes * Z * Z) : outcome (bytes * Z * Z) :=
  for_loop (Z.to_nat n) 0 1 (λ _ '(pcDst, d, s),
    a ← zget pcSrc s; b ← zget pcSrc (s + 1);
    pcDst ← zset pcDst d (u8 (Z.lor (Z.shiftl (low_nibble (f a)) 4) (low_nibble (f b))));
    Ok ((pcDst, d + 1, s + 2), true)) st.

Definition basBin2Hex (pcDst pcSrc : bytes) (iLen : Z) : outcome (bytes * Z) :=
  r ← unpack_loop BIN2HEX (Z.quot iLen 2) pcSrc (pcDst, 0, 0);
  Ok (r.1.1, r.2).

Definition basHex2Bin (pcDst pcSrc : bytes) (iLen : Z) : outcome (bytes * Z) :=
  r ← pack_loop HEX2BIN (Z.quot iLen 2) pcSrc (pcDst, 0, 0);
  Ok (r.1.1, r.1.2).

Definition bcd_digit (b : Z) : Z := 48 + b.

Definition basBcd2Asc (pcDst pcSrc : bytes) (iLen : Z) : outcome (bytes * Z) :=
  let iTruncatedLen := Z.quot iLen 2 in
  r ← unpack_loop bcd_digit iTruncatedLen pcSrc (pcDst, 0, 0);
  let '(pcDst, d, s) := r in
  if negb (Z.rem iLen 2 =? 0) then
    b ← zget pcSrc s;
    pcDst ← zset pcDst d (u8 (bcd_digit (high_nibble b)));
    Ok (pcDst, s)
  else Ok (pcDst, s).

Definition basAsc2Bcd (pcDst pcSrc : bytes) (iLen : Z) : outcome (bytes * Z) :=
  r ← pack_loop (λ c, c) (Z.quot iLen 2) pcSrc (pcDst, 0, 0);
  let '(pcDst, d, s) := r in
  if negb (Z.rem iLen 2 =? 0) then
    b ← zget pcSrc s;
    pcDst ← zset pcDst d (u8 (Z.lor (Z.shiftl (low_nibble b) 4) 15));
    Ok (pcDst, d + 1)
  else Ok (pcDst, d).

Definition basBc02Asc (pcDst pcSrc : bytes) (iLen : Z) : outcome (bytes * Z) :=
  let iTruncatedLen := Z.quot iLen 2 in
  st ← (if negb (Z.rem iLen 2 =? 0) then
          b ← zget pcSrc 0;
          pcDst ← zset pcDst 0 (u8 (bcd_digit (low_nibble b)));
          Ok (pcDst, 1, 1)
        else Ok (pcDst, 0, 0));
  r ← unpack_loop bcd_digit iTruncatedLen pcSrc st;
  Ok (r.1.1, r.2).

Definition basAsc2Bc0 (pcDst pcSrc : bytes) (iLen : Z) : outcome (bytes * Z) :=
  st ← (if negb (Z.rem iLen 2 =? 0) then
          b ← zget pcSrc 0;
          pcDst ← zset pcDst 0 (u8 (low_nibble b));
          Ok (pcDst, 1, 1)
        else Ok (pcDst, 0, 0));
  r ← pack_loop (λ c, c) (Z.quot iLen 2) pcSrc st;
  Ok (r.1.1, r.1.2).

(** ** [bas_encrypt.c] *)

Definition ENC (c : Z) : Z := if c =? 0 then 96 else Z.land c 63 + 32.
Definition XC (mask c : Z) : Z := Z.lxor (schar c) mask.
Definition DEC (c : Z) : Z := Z.land (schar c - 32) 63.

(** The array with its NUL. *)
Definition stcnEncodeHead : bytes := lit "DZYA" ++ [0].
Definition MAXLEN : Z := 51200.

(** [dest[l++] = ENC(ch)]. *)
Definition put_enc (dest : bytes) (l ch : Z) : outcome bytes := zset dest l (u8 (ENC ch)).

(** [for (; n > 0; n -= 3, src += 3)]: [s] is the offset of [src]. *)
Fixpoint encode_groups (fuel : nat) (mask n : Z) (src : bytes) (s : Z) (dest : bytes) (l : Z) : outcome (bytes * Z * Z) :=
  if 0 <? n then
    match fuel with
    | O => NoFuel
    | S fuel =>
        a ← zget src s;
        dest ← put_enc dest l (Z.shiftr (XC mask a) 2);
        b ← zget src (s + 1);
        dest ← put_enc dest (l + 1)
          (Z.lor (Z.land (Z.shiftl (XC mask a) 4) 48) (Z.land (Z.shiftr (XC mask b) 4) 15));
        c ← zget src (s + 2);
        dest ← put_enc dest (l + 2)
          (Z.lor (Z.land (Z.shiftl (XC mask b) 2) 60) (Z.land (Z.shiftr (XC mask c) 6) 3));
        dest ← put_enc dest (l + 3) (Z.land (XC mask c) 63);
        encode_groups fuel mask (n - 3) src (s + 3) dest (l + 4)
    end
  else Ok (dest, l, s).

(** [for(l=13; iLen > 0; iLen -= 51)]. *)
Fixpoint encode_lines (fuel : nat) (mask iLen : Z) (src : bytes) (s : Z) (dest : bytes) (l : Z) : outcome (bytes * Z * Z) :=
  if 0 <? iLen then
    match fuel with
    | O => NoFuel
    | S fuel =>
        let n := if 51 <? iLen then 51 else iLen in
        dest ← put_enc dest l n;
        r ← encode_groups (Z.to_nat n) mask n src s dest (l + 1);
        let '(dest, l, s) := r in
        encode_lines fuel mask (iLen - 51) src s dest l
    end
  else Ok (dest, l, s).

(** [t] is what [time] gives.  The result: [dest] and the length. *)
Definition _lencodelog (t : Z) (dest : bytes) (maxlen : Z) (src : bytes) (iLen : Z) : outcome (bytes * Z) :=
  let mask := Z.land t 65535 in
  dest ← poke dest 0 (take 4 stcnEncodeHead);
  r ← encode_lines (Z.to_nat iLen) mask iLen src 0 dest 13;
  let '(dest, l, _) := r in
  dest ← put_enc dest l 0;
  let l := l + 1 in
  dest ← put_enc dest 4 (Z.shiftr mask 2);
  dest ← put_enc dest 5
    (Z.lor (Z.land (Z.shiftl mask 4) 48) (Z.land (Z.shiftr (Z.shiftr mask 8) 4) 15));
  dest ← zset dest l 0;
  caBufLen ← sprintf_to (replicate 10 0) (dec0 7 l);
  dest ← poke dest 6 (take 7 caBufLen);
  Ok (dest, l).

(** [pENCLOG] is what [getenv("ENCLOG")] gives. *)
Definition lencodelog (pENCLOG : option bytes) (t : Z) (dest : bytes) (maxlen : Z) (src : bytes) (iLen : Z) : outcome (bytes * Z) :=
  let off := match pENCLOG with None => true | Some e => negb (bool_decide (content e = lit "Y")) end in
  if off then
    b ← peek src 0 iLen; dest ← poke dest 0 b; Ok (dest, iLen)
  else _lencodelog t dest maxlen src iLen.

(** [for (++src; n > 0; src += 4, n -= 3)]. *)
Fixpoint decode_groups (fuel : nat) (n : Z) (src : bytes) (s : Z) (dest : bytes) (l : Z) : outcome (bytes * Z * Z) :=
  if 0 <? n then
    match fuel with
    | O => NoFuel
    | S fuel =>
        let first dest l :=
          a ← zget src s; b ← zget src (s + 1);
          zset dest l (u8 (Z.lor (Z.shiftl (DEC a) 2) (Z.shiftr (DEC b) 4))) in
        let second dest l :=
          b ← zget src (s + 1); c ← zget src (s + 2);
          zset dest l (u8 (Z.lor (Z.shiftl (DEC b) 4) (Z.shiftr (DEC c) 2))) in
        let third dest l :=
          c ← zget src (s + 2); d ← zget src (s + 3);
          zset dest l (u8 (Z.lor (Z.shiftl (DEC c) 6) (DEC d))) in
        r ← (if 3 <=? n then
               dest ← first dest l; dest ← second dest (l + 1); dest ← third dest (l + 2);
               Ok (dest, l + 3)
             else
               r ← (if 1 <=? n then dest ← first dest l; Ok (dest, l + 1) else Ok (dest, l));
               if 2 <=? n then dest ← second r.1 r.2; Ok (dest, r.2 + 1) else Ok r);
        decode_groups fuel (n - 3) src (s + 4) r.1 r.2
    end
  else Ok (dest, l, s).

(** [for(l=0; iLen > 0; iLen -= on)]; a round that goes on lowers [iLen]. *)
Fixpoint decode_lines (fuel : nat) (iLen : Z) (src : bytes) (s : Z) (dest : bytes) (l : Z) : outcome (bytes * Z) :=
  if 0 <? iLen then
    match fuel with
    | O => NoFuel
    | S fuel =>
        c ← zget src s;
        let n := DEC c in
        if n <=? 0 then Ok (dest, l)
        else
          r ← decode_groups (Z.to_nat n) n src (s + 1) dest l;
          let '(dest, l, s) := r in
          decode_lines fuel (iLen - n) src s dest l
    end
  else Ok (dest, l).

(** [for( n=0, p=dest; n < l; p++, n++ ) *p ^= mask;] *)
Definition unmask (mask l : Z) (dest : bytes) : outcome bytes :=
  for_loop (Z.to_nat l) 0 1 (λ n dest,
    c ← zget dest n; dest ← zset dest n (u8 (Z.lxor (schar c) mask)); Ok (dest, true)) dest.

Definition ldecodelog (dest : bytes) (maxlen : Z) (src : bytes) (iLen : Z) : outcome (bytes * Z) :=
  if iLen <? 14 then Ok (dest, 0)
  else
    head ← peek src 0 4;
    if negb (bool_decide (head = take 4 stcnEncodeHead)) then Ok (dest, 0)
    else
      p0 ← zget src 4; p1 ← zget src 5;
      let mask := Z.lor (Z.shiftl (DEC p0) 2) (Z.shiftr (DEC p1) 4) in
      r ← decode_lines (Z.to_nat iLen) iLen src 13 dest 0;
      dest ← unmask mask r.2 r.1;
      Ok (dest, r.2).

(** [fprintf(fdW, "%*.*s", n, n, s)]: at most [n] bytes of the string, padded
    with blanks on the left to [n]. *)
Definition print_field (n : Z) (s : bytes) : bytes := pad_left (Z.to_nat n) 32 (content (take (Z.to_nat n) s)).

(** [fread(buf + at, n, 1, fd)]: the buffer, the number of items read (0 or
    1) and the rest of the file. *)
Definition fread_item (buf : bytes) (at_ n : Z) (fd : bytes) : outcome (bytes * Z * bytes) :=
  let n := u64 n in
  let got := take (Z.to_nat (Z.min n (zlen fd))) fd in
  buf ← poke buf at_ got;
  Ok (buf, if (0 <? n) && (n <=? zlen fd) then 1 else 0, drop (length got) fd).

(** The number of bytes of the head matched after one more byte; [None] is
    the complete match. *)
Definition match_step (iMatchCnt c : Z) : outcome (option Z) :=
  h ← zget stcnEncodeHead iMatchCnt;
  if c =? h then Ok (if iMatchCnt + 1 =? 4 then None else Some (iMatchCnt + 1))
  else if negb (iMatchCnt =? 0) then
    h ← zget stcnEncodeHead 0;
    Ok (Some (if c =? h then 1 else 0))
  else Ok (Some iMatchCnt).

(** What [ldecodefd2fd] does once the head is found: [inl] is the failure,
    [inr] the texts written and the rest of the file. *)
Definition decode_block (caReadbuf : bytes) (iEncryptPos : Z) (fdR : bytes) : outcome (unit + bytes * bytes) :=
  r ← fread_item caReadbuf (iEncryptPos + 4) 9 fdR;
  let '(caReadbuf, iRet, fdR) := r in
  if iRet =? 0 then Ok (inl tt)
  else
    let iEncryLen := atoi (content (drop (Z.to_nat (iEncryptPos + 6)) caReadbuf)) in
    r ← fread_item caReadbuf (iEncryptPos + 13) (iEncryLen - 13) fdR;
    let '(caReadbuf, iRet, fdR) := r in
    if iRet =? 0 then Ok (inl tt)
    else
      r ← ldecodelog (memset 0 (MAXLEN * 2)) (MAXLEN * 2) (drop (Z.to_nat iEncryptPos) caReadbuf) iEncryLen;
      let '(caDecodeBuf, iDecodeLen) := r in
      if iDecodeLen =? 0 then Ok (inl tt)
      else Ok (inr (print_field iEncryptPos caReadbuf ++ print_field iDecodeLen caDecodeBuf, fdR)).

(** The [while(1)] of [ldecodefd2fd].  Each round consumes a byte of the file.
    The result: the code returned and what was written. *)
Fixpoint fd_loop (fuel : nat) (caReadbuf : bytes) (iPos iMatchCnt : Z) (fdR fdW : bytes) : outcome (Z * bytes) :=
  match fuel with
  | O => NoFuel
  | S fuel =>
      match fdR with
      | [] => Ok (0, fdW ++ print_field (iPos + 1) caReadbuf)
      | c :: fdR =>
          caReadbuf ← zset caReadbuf iPos c;
          let iPos := iPos + 1 in
          m ← match_step iMatchCnt c;
          match m with
          | None =>
              b ← decode_block caReadbuf (iPos - 4) fdR;
              match b with
              | inl _ => Ok (-1, fdW)
              | inr (text, fdR) => fd_loop fuel (memset 0 (MAXLEN * 2)) 0 0 fdR (fdW ++ text)
              end
          | Some iMatchCnt =>
              if iPos =? MAXLEN - 1 then
                let fdW := fdW ++ print_field (iPos - iMatchCnt) caReadbuf in
                kept ← peek caReadbuf (iPos - iMatchCnt) iMatchCnt;
                fd_loop fuel (kept ++ memset 0 (MAXLEN * 2 - iMatchCnt)) iMatchCnt iMatchCnt fdR fdW
              else fd_loop fuel caReadbuf iPos iMatchCnt fdR fdW
          end
      end
  end.

Definition ldecodefd2fd (fdR : bytes) : outcome (Z * bytes) :=
  fd_loop (S (length fdR)) (memset 0 (MAXLEN * 2)) 0 0 fdR [].
