(* ===== verification/BasCodecFacts.v ===== *)
(** * Hexadecimal, BCD and log encoding: what the routines compute

    The routines of [BasCodec] against references on byte strings: the text of
    a byte string in base 16, the packing of two digits in a byte, and the
    lines of the log encoding. *)

From S2P Require Import Prelude LibC Buffers BasCodec.

(** ** Bytes *)

Definition byte (b : Z) : Prop := 0 <= b < 256.

(** A property of every number below [n], by evaluation. *)
Lemma below_forall (f : Z -> bool) (n : Z) :
  forallb f (seqZ 0 n) = true -> forall b, 0 <= b < n -> f b = true.
Proof.
  intros Hf b Hb. rewrite forallb_forall in Hf. apply Hf, list_elem_of_In, elem_of_seqZ. lia.
Qed.

Ltac by_enumeration n :=
  let x := fresh "x" in let Hx := fresh "Hx" in
  intros x Hx; apply Z.eqb_eq; revert x Hx; apply (below_forall _ n); vm_compute; reflexivity.

Lemma nibbles_byte : forall b, byte b -> Z.lor (Z.shiftl (high_nibble b) 4) (low_nibble b) = b.
Proof. by_enumeration 256. Qed.

Lemma high_nibble_range b : byte b -> 0 <= high_nibble b < 16.
Proof.
  intros Hb. cut ((0 <=? high_nibble b) && (high_nibble b <? 16) = true); [lia|].
  revert b Hb. apply (below_forall _ 256). vm_compute. reflexivity.
Qed.

Lemma low_nibble_range b : byte b -> 0 <= low_nibble b < 16.
Proof.
  intros Hb. cut ((0 <=? low_nibble b) && (low_nibble b <? 16) = true); [lia|].
  revert b Hb. apply (below_forall _ 256). vm_compute. reflexivity.
Qed.

(** ** The reference texts *)

Definition hex_digits : bytes := lit "0123456789ABCDEF".
Definition hex_digit (x : Z) : Z := nth (Z.to_nat x) hex_digits 0.

(** Two characters per byte, the high half first. *)
Fixpoint digits_text (f : Z -> Z) (bs : bytes) : bytes :=
  match bs with
  | [] => []
  | b :: bs => f (b / 16) :: f (b mod 16) :: digits_text f bs
  end.

Definition hex_text : bytes -> bytes := digits_text hex_digit.

(** One byte per two digits. *)
Fixpoint pairs (ds : bytes) : bytes :=
  match ds with
  | x :: y :: ds => 16 * x + y :: pairs ds
  | _ => []
  end.

Lemma zlen_digits_text f bs : zlen (digits_text f bs) = 2 * zlen bs.
Proof. induction bs as [|b bs IH]; [done|]. simpl. rewrite !zlen_cons, IH. lia. Qed.

Lemma high_nibble_div : forall b, byte b -> high_nibble b = b / 16.
Proof. by_enumeration 256. Qed.
Lemma low_nibble_mod : forall b, byte b -> low_nibble b = b mod 16.
Proof. by_enumeration 256. Qed.
Lemma BIN2HEX_digit : forall x, 0 <= x < 16 -> u8 (BIN2HEX x) = hex_digit x.
Proof. by_enumeration 16. Qed.
Lemma HEX2BIN_digit : forall x, 0 <= x < 16 -> low_nibble (HEX2BIN (hex_digit x)) = x.
Proof. by_enumeration 16. Qed.
Lemma HEX2BIN_lower : forall x, 0 <= x < 16 -> low_nibble (HEX2BIN (tolower (hex_digit x))) = x.
Proof. by_enumeration 16. Qed.
Lemma bcd_digit_u8 : forall x, 0 <= x < 16 -> u8 (bcd_digit x) = 48 + x.
Proof. by_enumeration 16. Qed.
Lemma low_nibble_digit : forall x, 0 <= x < 16 -> low_nibble (48 + x) = x.
Proof. by_enumeration 16. Qed.
Lemma low_nibble_small : forall x, 0 <= x < 16 -> low_nibble x = x.
Proof. by_enumeration 16. Qed.

Lemma lor_nibbles x y : 0 <= x < 16 -> 0 <= y < 16 -> u8 (Z.lor (Z.shiftl x 4) y) = 16 * x + y.
Proof.
  intros Hx Hy. assert (byte (16 * x + y)) as Hb by (unfold byte; lia).
  replace x with (high_nibble (16 * x + y)) at 1.
  2: { rewrite high_nibble_div by done. symmetry. apply Z.div_unique with y; lia. }
  replace y with (low_nibble (16 * x + y)) at 2.
  2: { rewrite low_nibble_mod by done. symmetry. apply Z.mod_unique with x; lia. }
  rewrite nibbles_byte by done. apply uwrap_id. exact Hb.
Qed.

(** ** The two loops *)

(** Both loops read at [zlen a] and write at [zlen p]. *)
Lemma unpack_loop_run f g bs : (forall x, 0 <= x < 16 -> u8 (f x) = g x) -> forall a r p o q,
  Forall byte bs -> zlen o = 2 * zlen bs ->
  unpack_loop f (zlen bs) (a ++ bs ++ r) (p ++ o ++ q, zlen p, zlen a) =
  Ok (p ++ digits_text g bs ++ q, zlen p + 2 * zlen bs, zlen a + zlen bs).
Proof.
  intros Hf. unfold unpack_loop. replace (Z.to_nat (zlen bs)) with (length bs) by (unfold zlen; lia). generalize 0.
  induction bs as [|b bs IH]; intros i a r p o q Hb Ho.
  { destruct o; [|unfold zlen in Ho; simpl in Ho; lia]. cbn. by rewrite !Z.add_0_r. }
  destruct o as [|x [|y o]]; [unfold zlen in Ho; simpl in Ho; lia..|].
  inversion_clear Hb as [|? ? Hb1 Hb2]. cbn [length for_loop].
  rewrite <- app_comm_cons, zget_middle by done. cbn [mbind outcome_bind].
  rewrite <- app_comm_cons, zset_middle by done. cbn [mbind outcome_bind].
  rewrite (cons_middle _ p), app_assoc, <- app_comm_cons, zset_middle by (rewrite zlen_app; done).
  cbn [mbind outcome_bind snd fst].
  rewrite (cons_middle b a), (app_assoc a), (cons_middle _ (p ++ _)), (app_assoc (p ++ _)).
  replace (zlen a + 1) with (zlen (a ++ [b])) by (rewrite zlen_app; done).
  match goal with |- context [((?p' ++ o ++ q), _, _)] => replace (zlen p + 2) with (zlen p') end.
  2: { zlen_lia. }
  rewrite IH; [|done|rewrite !zlen_cons in Ho; lia].
  rewrite !Hf, high_nibble_div, low_nibble_mod by (done || apply high_nibble_range || apply low_nibble_range; done).
  cbn [digits_text]. rewrite <- !app_assoc. cbn [app]. f_equal. f_equal; [f_equal|]; zlen_lia.
Qed.

(** What one byte is made of. *)
Fixpoint pack (f : Z -> Z) (t : bytes) : bytes :=
  match t with
  | x :: y :: t => u8 (Z.lor (Z.shiftl (low_nibble (f x)) 4) (low_nibble (f y))) :: pack f t
  | _ => []
  end.

Lemma pack_loop_run f n : forall t a r p o q,
  length t = (2 * n)%nat -> length o = n ->
  pack_loop f (Z.of_nat n) (a ++ t ++ r) (p ++ o ++ q, zlen p, zlen a) =
  Ok (p ++ pack f t ++ q, zlen p + Z.of_nat n, zlen a + 2 * Z.of_nat n).
Proof.
  unfold pack_loop. rewrite Nat2Z.id. generalize 0.
  induction n as [|n IH]; intros i t a r p o q Ht Ho.
  { destruct t, o; try done. cbn. by rewrite !Z.add_0_r. }
  destruct t as [|x [|y t]]; [simpl in Ht; lia..|]. destruct o as [|z o]; [done|]. cbn [for_loop app].
  rewrite (zget_middle a x _ (zlen a)) by done. cbn [mbind outcome_bind].
  rewrite (cons_middle x a), app_assoc, zget_middle by zlen_lia.
  cbn [mbind outcome_bind].
  rewrite zset_middle by done. cbn [mbind outcome_bind snd fst].
  rewrite (cons_middle y (a ++ [x])), (app_assoc (a ++ [x])), (cons_middle _ p), (app_assoc p).
  replace (zlen a + 2) with (zlen ((a ++ [x]) ++ [y])) by zlen_lia.
  match goal with |- context [((?p' ++ o ++ q), _, _)] => replace (zlen p + 1) with (zlen p') end.
  2: { zlen_lia. }
  rewrite IH; [|simpl in Ht; lia|simpl in Ho; lia].
  cbn [pack]. rewrite <- !app_assoc. cbn [app]. f_equal. f_equal; [f_equal|]; zlen_lia.
Qed.

Lemma pack_pairs f g ds :
  Forall (λ x, 0 <= x < 16) ds -> (forall x, 0 <= x < 16 -> low_nibble (f (g x)) = x) ->
  pack f (List.map g ds) = pairs ds.
Proof.
  intros Hd Hf. enough (forall n l, (length l <= n)%nat -> Forall (λ x, 0 <= x < 16) l ->
    pack f (List.map g l) = pairs l) as H by (by apply (H (length ds))).
  induction n as [|n IH]; intros [|x [|y l]] Hl Hr; simpl in Hl; try done; [lia..|].
  inversion_clear Hr as [|? ? Hx Hr']. inversion_clear Hr' as [|? ? Hy Hr].
  cbn [List.map pack pairs]. rewrite !Hf, lor_nibbles by done. f_equal. apply IH; [lia|done].
Qed.

(** The digits of a byte string, and back. *)
Definition nibbles (bs : bytes) : bytes := digits_text (λ x, x) bs.

Lemma nibbles_range bs : Forall byte bs -> Forall (λ x, 0 <= x < 16) (nibbles bs).
Proof.
  induction 1 as [|b bs Hb Hbs IH]; [constructor|]. unfold byte in Hb.
  unfold nibbles. simpl. constructor; [|constructor]; [|apply Z.mod_pos_bound; lia|exact IH].
  split; [apply Z.div_pos|apply Z.div_lt_upper_bound]; lia.
Qed.

Lemma digits_text_map f bs : digits_text f bs = List.map f (nibbles bs).
Proof. induction bs as [|b bs IH]; [done|]. unfold nibbles. simpl. by rewrite IH. Qed.

Lemma pairs_nibbles bs : pairs (nibbles bs) = bs.
Proof.
  induction bs as [|b bs IH]; [done|]. unfold nibbles. simpl. f_equal; [|exact IH].
  pose proof (Z.div_mod b 16). lia.
Qed.

Lemma nibbles_pairs n : forall ds, length ds = (2 * n)%nat -> Forall (λ x, 0 <= x < 16) ds -> nibbles (pairs ds) = ds.
Proof.
  induction n as [|n IH]; intros [|x [|y ds]] Hl Hr; simpl in Hl; try done; [lia..|].
  inversion_clear Hr as [|? ? Hx Hr']. inversion_clear Hr' as [|? ? Hy Hr].
  cbn [pairs]. unfold nibbles. cbn [digits_text]. f_equal; [|f_equal].
  - symmetry. apply Z.div_unique with y; lia.
  - symmetry. apply Z.mod_unique with x; lia.
  - apply IH; [lia|done].
Qed.

Lemma pairs_length n : forall ds, length ds = (2 * n)%nat -> length (pairs ds) = n.
Proof.
  induction n as [|n IH]; intros [|x [|y ds]] Hl; simpl in Hl; try done; [lia..|].
  simpl. f_equal. apply IH. lia.
Qed.

Lemma pairs_bytes n : forall ds, length ds = (2 * n)%nat -> Forall (λ x, 0 <= x < 16) ds -> Forall byte (pairs ds).
Proof.
  induction n as [|n IH]; intros [|x [|y ds]] Hl Hr; simpl in Hl; try lia; [constructor|].
  inversion_clear Hr as [|? ? Hx Hr']. inversion_clear Hr' as [|? ? Hy Hr].
  cbn [pairs]. constructor; [unfold byte; lia|]. apply IH; [lia|done].
Qed.

Lemma length_nibbles bs : length (nibbles bs) = (2 * length bs)%nat.
Proof. pose proof (zlen_digits_text (λ x, x) bs). unfold nibbles, zlen in *. lia. Qed.

(** ** [basBin2Hex] and [basHex2Bin] *)

Lemma bin2hex_run bs r o q :
  Forall byte bs -> zlen o = 2 * zlen bs ->
  basBin2Hex (o ++ q) (bs ++ r) (2 * zlen bs) = Ok (hex_text bs ++ q, zlen bs).
Proof.
  intros Hb Ho. unfold basBin2Hex. rewrite Z.mul_comm, Z.quot_mul by lia.
  pose proof (unpack_loop_run BIN2HEX hex_digit bs BIN2HEX_digit [] r [] o q Hb Ho) as H.
  cbn [app] in H. change (zlen []) with 0 in H. rewrite H. cbn. f_equal.
Qed.

(** Any text whose characters stand for the digits. *)
Lemma hex2bin_run g bs r o q :
  (forall x, 0 <= x < 16 -> low_nibble (HEX2BIN (g x)) = x) ->
  Forall byte bs -> zlen o = zlen bs ->
  basHex2Bin (o ++ q) (digits_text g bs ++ r) (2 * zlen bs) = Ok (bs ++ q, zlen bs).
Proof.
  intros Hg Hb Ho. unfold basHex2Bin. rewrite Z.mul_comm, Z.quot_mul by lia.
  pose proof (pack_loop_run HEX2BIN (length bs) (digits_text g bs) [] r [] o q) as H.
  cbn [app] in H. change (zlen []) with 0 in H. unfold zlen at 1. rewrite H.
  - cbn. rewrite digits_text_map, pack_pairs, pairs_nibbles; [done|by apply nibbles_range|done].
  - pose proof (zlen_digits_text g bs). unfold zlen in *. lia.
  - unfold zlen in Ho. lia.
Qed.

(** ** Packed decimal *)

(** A digit of a packed number, and its text. *)
Definition nibble (x : Z) : Prop := 0 <= x < 16.
Definition ascii (ds : bytes) : bytes := List.map (λ x, 48 + x) ds.

(** Odd lengths are filled up with 15 at the end, or with 0 at the start. *)
Definition bcd (ds : bytes) : bytes := pairs (if Nat.even (length ds) then ds else ds ++ [15]).
Definition bc0 (ds : bytes) : bytes := pairs (if Nat.even (length ds) then ds else 0 :: ds).

Lemma even_or_odd n : exists k, (n = 2 * k /\ Nat.even n = true \/ n = 2 * k + 1 /\ Nat.even n = false)%nat.
Proof.
  destruct (Nat.even n) eqn:E.
  - apply Nat.even_spec in E as [k Hk]. eauto.
  - pose proof (Nat.negb_even n) as Ho. rewrite E in Ho. symmetry in Ho. apply Nat.odd_spec in Ho as [k Hk]. eauto.
Qed.

Lemma halves n : 0 <= n ->
  Z.quot (2 * n) 2 = n /\ Z.rem (2 * n) 2 = 0 /\ Z.quot (2 * n + 1) 2 = n /\ Z.rem (2 * n + 1) 2 = 1.
Proof. intros Hn. split_and!; div_lia. Qed.

Lemma ascii_low ds : Forall nibble ds -> forall n, length ds = (2 * n)%nat -> pack (λ c, c) (ascii ds) = pairs ds.
Proof. intros Hd n Hn. apply pack_pairs; [exact Hd|exact low_nibble_digit]. Qed.

Lemma ascii_app a b : ascii (a ++ b) = ascii a ++ ascii b.
Proof. apply map_app. Qed.

Lemma length_ascii ds : length (ascii ds) = length ds.
Proof. apply length_map. Qed.

Lemma pairs_app k : forall l m, length l = (2 * k)%nat -> pairs (l ++ m) = pairs l ++ pairs m.
Proof.
  induction k as [|k IH]; intros [|x [|y l]] m Hl; simpl in Hl; try lia; [done|].
  cbn [app pairs]. by rewrite IH by lia.
Qed.

Lemma digits_text_app f a b : digits_text f (a ++ b) = digits_text f a ++ digits_text f b.
Proof. induction a as [|x a IH]; [done|]. simpl. by rewrite IH. Qed.

Lemma u8_byte b : byte b -> u8 b = b.
Proof. intros Hb. by apply uwrap_id. Qed.

(** The loop of both directions, between what is around it. *)
Lemma pack_ascii k a l r p o q :
  Forall nibble l -> length l = (2 * k)%nat -> length o = k ->
  pack_loop (λ c, c) (Z.of_nat k) (a ++ ascii l ++ r) (p ++ o ++ q, zlen p, zlen a) =
  Ok (p ++ pairs l ++ q, zlen p + Z.of_nat k, zlen a + 2 * Z.of_nat k).
Proof.
  intros Hd Hl Ho. rewrite pack_loop_run by (done || by rewrite length_ascii). by rewrite (ascii_low l Hd k).
Qed.

Lemma unpack_ascii k a l r p o q :
  Forall nibble l -> length l = (2 * k)%nat -> length o = (2 * k)%nat ->
  unpack_loop bcd_digit (Z.of_nat k) (a ++ pairs l ++ r) (p ++ o ++ q, zlen p, zlen a) =
  Ok (p ++ ascii l ++ q, zlen p + 2 * Z.of_nat k, zlen a + Z.of_nat k).
Proof.
  intros Hd Hl Ho. pose proof (pairs_length k l Hl) as Hp.
  pose proof (unpack_loop_run bcd_digit (λ x, 48 + x) (pairs l) bcd_digit_u8 a r p o q) as H.
  replace (zlen (pairs l)) with (Z.of_nat k) in H by (unfold zlen; lia).
  rewrite H; [|by apply (pairs_bytes k)|unfold zlen; lia].
  rewrite digits_text_map, (nibbles_pairs k) by done. done.
Qed.

Section packed.
Context (ds r o q : bytes) (Hd : Forall nibble ds).

(** An even number of digits, or an odd one with its last or first apart. *)
Lemma digits_split :
  exists k, (length ds = 2 * k /\ Nat.even (length ds) = true)%nat \/
  (Nat.even (length ds) = false /\ length ds = 2 * k + 1 /\
   (exists l x, ds = l ++ [x] /\ length l = 2 * k /\ Forall nibble l /\ nibble x) /\
   (exists l x, ds = x :: l /\ length l = 2 * k /\ Forall nibble l /\ nibble x))%nat.
Proof using Hd.
  destruct (even_or_odd (length ds)) as (k & [[Hk He]|[Hk He]]); exists k; [by left|right].
  split_and!; [done|done| |].
  - destruct (split_last ds (2 * k)) as (l & x & Hx & Hl); [lia|]. exists l, x.
    rewrite Hx in Hd. apply Forall_app in Hd as [Hd1 Hd2]. by inversion Hd2.
  - destruct ds as [|x l]; [simpl in Hk; lia|]. exists l, x. simpl in Hk.
    inversion Hd. split_and!; [done|lia|done|done].
Qed.

Lemma asc2bcd_run :
  length o = length (bcd ds) ->
  basAsc2Bcd (o ++ q) (ascii ds ++ r) (zlen ds) = Ok (bcd ds ++ q, zlen (bcd ds)).
Proof using Hd.
  unfold basAsc2Bcd, bcd. destruct digits_split as (k & [[Hk He]|(He & Hk & (l & x & Hl & Hn & Hl1 & Hx) & _)]);
    rewrite He; destruct (halves (Z.of_nat k)) as (Q0 & R0 & Q1 & R1); try lia; intros Ho.
  - rewrite (pairs_length k) in Ho by done. replace (zlen ds) with (2 * Z.of_nat k) by zlen_lia. rewrite Q0, R0.
    pose proof (pack_ascii k [] ds r [] o q Hd Hk Ho) as H. cbn [app] in H. change (zlen []) with 0 in H.
    rewrite H. cbn. do 2 f_equal. unfold zlen. by rewrite (pairs_length k).
  - replace (zlen ds) with (2 * Z.of_nat k + 1) by zlen_lia. rewrite Q1, R1. subst ds.
    rewrite <- app_assoc, (pairs_app k) in * by done. cbn [app pairs] in *.
    rewrite length_app, (pairs_length k) in Ho by done. simpl in Ho.
    destruct (split_last o k) as (o' & y & -> & Ho'); [lia|]. rewrite ascii_app, <- !app_assoc.
    pose proof (pack_ascii k [] l ([48 + x] ++ r) [] o' ([y] ++ q) Hl1 Hn Ho') as H. cbn [app] in H.
    change (zlen []) with 0 in H. change (ascii [x]) with [48 + x]. cbn [app]. rewrite H. cbn [mbind outcome_bind negb Z.eqb].
    rewrite zget_middle by (rewrite <- (length_ascii l) in Hn; zlen_lia). cbn [mbind outcome_bind].
    rewrite zset_middle by (rewrite <- (pairs_length k l Hn); zlen_lia). cbn [mbind outcome_bind].
    rewrite low_nibble_digit, lor_nibbles by (done || lia). f_equal. f_equal.
    pose proof (pairs_length k l Hn). zlen_lia.
Qed.

Lemma bcd2asc_run :
  length o = length ds -> basBcd2Asc (o ++ q) (bcd ds ++ r) (zlen ds) = Ok (ascii ds ++ q, zlen ds / 2).
Proof using Hd.
  unfold basBcd2Asc, bcd. destruct digits_split as (k & [[Hk He]|(He & Hk & (l & x & Hl & Hn & Hl1 & Hx) & _)]);
    rewrite He; destruct (halves (Z.of_nat k)) as (Q0 & R0 & Q1 & R1); try lia; intros Ho.
  - rewrite Hk in Ho. replace (zlen ds) with (2 * Z.of_nat k) by zlen_lia. rewrite Q0, R0.
    pose proof (unpack_ascii k [] ds r [] o q Hd Hk Ho) as H. cbn [app] in H. change (zlen []) with 0 in H.
    rewrite H. cbn. do 2 f_equal. div_lia.
  - replace (zlen ds) with (2 * Z.of_nat k + 1) by zlen_lia. rewrite Q1, R1. rewrite Hk in Ho. subst ds.
    rewrite <- app_assoc, (pairs_app k) by done. cbn [app pairs]. rewrite <- app_assoc.
    destruct (split_last o (2 * k)) as (o' & y & -> & Ho'); [lia|]. rewrite ascii_app, <- !app_assoc.
    pose proof (unpack_ascii k [] l ([16 * x + 15] ++ r) [] o' ([y] ++ q) Hl1 Hn Ho') as H. cbn [app] in H.
    change (zlen []) with 0 in H. change (ascii [x]) with [48 + x]. cbn [app]. rewrite H. cbn [mbind outcome_bind negb Z.eqb].
    rewrite zget_middle by (rewrite <- (pairs_length k l Hn); zlen_lia). cbn [mbind outcome_bind].
    rewrite zset_middle by (rewrite <- (length_ascii l) in Hn; zlen_lia). cbn [mbind outcome_bind].
    rewrite high_nibble_div by (unfold byte, nibble in *; lia).
    replace ((16 * x + 15) / 16) with x by div_lia. rewrite bcd_digit_u8 by done. f_equal. f_equal. div_lia.
Qed.

Lemma asc2bc0_run :
  length o = length (bc0 ds) ->
  basAsc2Bc0 (o ++ q) (ascii ds ++ r) (zlen ds) = Ok (bc0 ds ++ q, zlen (bc0 ds)).
Proof using Hd.
  unfold basAsc2Bc0, bc0. destruct digits_split as (k & [[Hk He]|(He & Hk & _ & l & x & Hl & Hn & Hl1 & Hx)]);
    rewrite He; destruct (halves (Z.of_nat k)) as (Q0 & R0 & Q1 & R1); try lia; intros Ho.
  - rewrite (pairs_length k) in Ho by done. replace (zlen ds) with (2 * Z.of_nat k) by zlen_lia. rewrite Q0, R0.
    pose proof (pack_ascii k [] ds r [] o q Hd Hk Ho) as H. cbn [app] in H. change (zlen []) with 0 in H.
    cbn [mbind outcome_bind negb Z.eqb]. rewrite H. cbn. do 2 f_equal. unfold zlen. by rewrite (pairs_length k).
  - replace (zlen ds) with (2 * Z.of_nat k + 1) by zlen_lia. rewrite Q1, R1. subst ds. cbn [pairs] in *.
    simpl in Ho. rewrite (pairs_length k) in Ho by done. destruct o as [|y o']; [done|]. injection Ho as Ho.
    pose proof (pack_ascii k [48 + x] l r [x] o' q Hl1 Hn Ho) as H. cbn [app] in H.
    change (zlen [48 + x]) with 1 in H. change (zlen [x]) with 1 in H.
    cbn [ascii List.map app mbind outcome_bind negb Z.eqb]. rewrite zget_0_cons. cbn [mbind outcome_bind].
    rewrite zset_0_cons. cbn [mbind outcome_bind app].
    rewrite low_nibble_digit by done. rewrite u8_byte by (unfold byte, nibble in *; lia).
    unfold ascii in H. rewrite H. cbn. do 2 f_equal. rewrite zlen_cons. unfold zlen. by rewrite (pairs_length k).
Qed.

Lemma bc02asc_run :
  length o = length ds -> basBc02Asc (o ++ q) (bc0 ds ++ r) (zlen ds) = Ok (ascii ds ++ q, zlen (bc0 ds)).
Proof using Hd.
  unfold basBc02Asc, bc0. destruct digits_split as (k & [[Hk He]|(He & Hk & _ & l & x & Hl & Hn & Hl1 & Hx)]);
    rewrite He; destruct (halves (Z.of_nat k)) as (Q0 & R0 & Q1 & R1); try lia; intros Ho.
  - rewrite Hk in Ho. replace (zlen ds) with (2 * Z.of_nat k) by zlen_lia. rewrite Q0, R0.
    pose proof (unpack_ascii k [] ds r [] o q Hd Hk Ho) as H. cbn [app] in H. change (zlen []) with 0 in H.
    cbn [mbind outcome_bind negb Z.eqb]. rewrite H. cbn. do 2 f_equal. unfold zlen. by rewrite (pairs_length k).
  - replace (zlen ds) with (2 * Z.of_nat k + 1) by zlen_lia. rewrite Q1, R1. rewrite Hk in Ho. subst ds.
    cbn [pairs]. destruct o as [|y o']; [simpl in Ho; lia|]. simpl in Ho.
    pose proof (unpack_ascii k [16 * 0 + x] l r [48 + x] o' q Hl1 Hn ltac:(lia)) as H. cbn [app] in H.
    change (zlen [16 * 0 + x]) with 1 in H. change (zlen [48 + x]) with 1 in H.
    cbn [app mbind outcome_bind negb Z.eqb]. rewrite zget_0_cons. cbn [mbind outcome_bind].
    rewrite zset_0_cons. cbn [mbind outcome_bind app].
    replace (low_nibble (16 * 0 + x)) with x by (rewrite low_nibble_small by (unfold nibble in *; lia); lia).
    rewrite bcd_digit_u8 by done. rewrite H. cbn. do 2 f_equal. rewrite zlen_cons. unfold zlen. by rewrite (pairs_length k).
Qed.
End packed.
