(* ===== verification/BasLogFacts.v ===== *)
(** * The log encoding ([bas_encrypt.c]): what it computes

    The text [_lencodelog] produces, and that [ldecodelog] and [ldecodefd2fd]
    take it back. *)

From S2P Require Import Prelude LibC Buffers BasCodec BasCodecFacts.

(** ** Six bits per character *)

Lemma land_255 v : u8 v = Z.land v 255.
Proof. unfold uwrap. by rewrite <- (Z.land_ones v 8). Qed.

(** A bit at a known index, down to the bits of the variables. *)
Ltac split_bits :=
  repeat match goal with
  | |- context [Z.testbit (Z.land ?a ?b) ?k] => rewrite (Z.land_spec a b k)
  | |- context [Z.testbit (Z.lor ?a ?b) ?k] => rewrite (Z.lor_spec a b k)
  | |- context [Z.testbit (Z.shiftr ?a ?n) ?k] =>
      first [rewrite (Z.shiftr_spec a n k) by lia | rewrite (Z.testbit_neg_r _ k) by lia]
  | |- context [Z.testbit (Z.shiftl ?a ?n) ?k] =>
      first [rewrite (Z.shiftl_spec a n k) by lia | rewrite (Z.testbit_neg_r _ k) by lia]
  end.

Lemma eight_bits (P : Z -> Prop) :
  P 0 -> P 1 -> P 2 -> P 3 -> P 4 -> P 5 -> P 6 -> P 7 -> forall i, 0 <= i < 8 -> P i.
Proof.
  intros. assert (i = 0 \/ i = 1 \/ i = 2 \/ i = 3 \/ i = 4 \/ i = 5 \/ i = 6 \/ i = 7) as Hi by lia.
  by repeat destruct Hi as [->|Hi]; [..|subst i].
Qed.

(** Two numbers agree on their low byte when they do bit by bit. *)
Lemma low_byte_eq x y : (forall i, 0 <= i < 8 -> Z.testbit x i = Z.testbit y i) -> Z.land x 255 = Z.land y 255.
Proof.
  intros H. apply Z.bits_inj'. intros i Hi. rewrite !Z.land_spec. destruct (decide (i < 8)); [by rewrite H|].
  by rewrite (Z.bits_above_log2 255 i), !andb_false_r by (done || (simpl; lia)).
Qed.

(** Equality of the low bytes of two expressions of bit operations. *)
Ltac bitwise :=
  rewrite ?land_255; apply low_byte_eq, eight_bits; split_bits;
  repeat match goal with
  | |- context [Z.testbit ?x ?k] =>
      is_var x; let k' := eval vm_compute in k in change (Z.testbit x k) with (Z.testbit x k'); destruct (Z.testbit x k')
  end; reflexivity.

Lemma ENC_range c : 32 <= ENC c <= 96.
Proof.
  unfold ENC. destruct (c =? 0); [lia|].
  pose proof (Z.land_ones c 6 ltac:(lia)) as H. change (Z.ones 6) with 63 in H. rewrite H.
  pose proof (Z.mod_pos_bound c (2 ^ 6) ltac:(lia)). lia.
Qed.

Lemma land_63_range c : 0 <= Z.land c 63 < 64.
Proof.
  pose proof (Z.land_ones c 6 ltac:(lia)) as H. change (Z.ones 6) with 63 in H. rewrite H.
  apply Z.mod_pos_bound. lia.
Qed.

Lemma ENC_u8 c : u8 (ENC c) = ENC c.
Proof. pose proof (ENC_range c). apply uwrap_id. simpl. lia. Qed.

Lemma DEC_ENC c : DEC (ENC c) = Z.land c 63.
Proof.
  unfold DEC, ENC. pose proof (land_63_range c). destruct (Z.eqb_spec c 0) as [->|]; [reflexivity|].
  unfold schar. rewrite swrap_id by (simpl; lia). rewrite Z.add_simpl_r.
  rewrite <- Z.land_assoc. reflexivity.
Qed.

Lemma first_byte x y :
  u8 (Z.lor (Z.shiftl (Z.land (Z.shiftr x 2) 63) 2)
        (Z.shiftr (Z.land (Z.lor (Z.land (Z.shiftl x 4) 48) (Z.land (Z.shiftr y 4) 15)) 63) 4)) = Z.land x 255.
Proof. bitwise. Qed.

Lemma second_byte x y z :
  u8 (Z.lor (Z.shiftl (Z.land (Z.lor (Z.land (Z.shiftl x 4) 48) (Z.land (Z.shiftr y 4) 15)) 63) 4)
        (Z.shiftr (Z.land (Z.lor (Z.land (Z.shiftl y 2) 60) (Z.land (Z.shiftr z 6) 3)) 63) 2)) = Z.land y 255.
Proof. bitwise. Qed.

Lemma third_byte y z :
  u8 (Z.lor (Z.shiftl (Z.land (Z.lor (Z.land (Z.shiftl y 2) 60) (Z.land (Z.shiftr z 6) 3)) 63) 6)
        (Z.land (Z.land z 63) 63)) = Z.land z 255.
Proof. bitwise. Qed.

(** The two characters of the mask keep its low byte. *)
Lemma mask_byte m :
  Z.land (Z.lor (Z.shiftl (Z.land (Z.shiftr m 2) 63) 2)
    (Z.shiftr (Z.land (Z.lor (Z.land (Z.shiftl m 4) 48) (Z.land (Z.shiftr (Z.shiftr m 8) 4) 15)) 63) 4)) 255 =
  Z.land m 255.
Proof. bitwise. Qed.

Lemma schar_bit c i : 0 <= i < 8 -> Z.testbit (schar c) i = Z.testbit c i.
Proof.
  intros Hi. rewrite <- (Z.mod_pow2_bits_low (schar c) 8 i), <- (Z.mod_pow2_bits_low c 8 i) by lia.
  f_equal. unfold schar, swrap. change (2 ^ 8) with 256. change (2 ^ (8 - 1)) with 128. div_lia.
Qed.

Lemma unmask_byte a m m' :
  byte a -> Z.land m' 255 = Z.land m 255 -> u8 (Z.lxor (schar (Z.land (XC m a) 255)) m') = a.
Proof.
  intros Ha Hm. transitivity (Z.land a 255).
  2: { rewrite <- land_255. by apply uwrap_id. }
  rewrite land_255. apply low_byte_eq. intros i Hi.
  apply (f_equal (λ z, Z.testbit z i)) in Hm. rewrite !Z.land_spec in Hm.
  assert (Z.testbit 255 i = true) as E by (clear Hm; revert i Hi; apply eight_bits; reflexivity).
  rewrite E in Hm. rewrite !andb_true_r in Hm.
  rewrite Z.lxor_spec, schar_bit, Z.land_spec, E, Hm by lia. unfold XC.
  rewrite Z.lxor_spec, schar_bit by lia. by destruct (Z.testbit a i), (Z.testbit m i).
Qed.

(** ** Groups of three bytes as four characters *)

Section mask.
Context (mask : Z).

Definition group (a b c : Z) : bytes :=
  [ENC (Z.shiftr (XC mask a) 2);
   ENC (Z.lor (Z.land (Z.shiftl (XC mask a) 4) 48) (Z.land (Z.shiftr (XC mask b) 4) 15));
   ENC (Z.lor (Z.land (Z.shiftl (XC mask b) 2) 60) (Z.land (Z.shiftr (XC mask c) 6) 3));
   ENC (Z.land (XC mask c) 63)].

Fixpoint groups (t : bytes) : bytes :=
  match t with
  | a :: b :: c :: t => group a b c ++ groups t
  | _ => []
  end.

(** The masked bytes: what the decoder finds before it removes the mask. *)
Definition masked (t : bytes) : bytes := List.map (λ a, Z.land (XC mask a) 255) t.

Lemma groups_length k : forall t, length t = (3 * k)%nat -> length (groups t) = (4 * k)%nat.
Proof.
  induction k as [|k IH]; intros [|a [|b [|c t]]] Hl; simpl in Hl; try lia; [done|].
  simpl. rewrite IH by lia. lia.
Qed.

Lemma encode_groups_run k : forall fuel n t a r p o q,
  length t = (3 * k)%nat -> length o = (4 * k)%nat -> (k <= fuel)%nat -> 3 * Z.of_nat k - 3 < n <= 3 * Z.of_nat k ->
  encode_groups fuel mask n (a ++ t ++ r) (zlen a) (p ++ o ++ q) (zlen p) =
  Ok (p ++ groups t ++ q, zlen p + 4 * Z.of_nat k, zlen a + 3 * Z.of_nat k).
Proof.
  induction k as [|k IH]; intros fuel n t a r p o q Ht Ho Hf Hn.
  { destruct t, o; try done. assert (0 <? n = false) as E by (apply Z.ltb_ge; lia).
    destruct fuel; cbn [encode_groups]; rewrite E; cbn; by rewrite !Z.add_0_r. }
  destruct t as [|x [|y [|z t]]]; [simpl in Ht; lia..|].
  destruct o as [|o0 [|o1 [|o2 [|o3 o]]]]; [simpl in Ho; lia..|]. destruct fuel as [|fuel]; [lia|].
  cbn [encode_groups app]. assert (0 <? n = true) as -> by (apply Z.ltb_lt; lia).
  unfold put_enc.
  rewrite (zget_middle a x _ (zlen a)) by done. cbn [mbind outcome_bind].
  rewrite ENC_u8, (zset_middle p) by done. cbn [mbind outcome_bind].
  rewrite (cons_middle x a), (app_assoc a), (zget_middle (a ++ [x]) y _ (zlen a + 1)) by zlen_lia. cbn [mbind outcome_bind].
  rewrite (cons_middle _ p), (app_assoc p), ENC_u8, zset_middle by zlen_lia. cbn [mbind outcome_bind].
  rewrite (cons_middle y (a ++ [x])), (app_assoc (a ++ [x])), zget_middle by zlen_lia. cbn [mbind outcome_bind].
  rewrite (cons_middle _ (p ++ _)), (app_assoc (p ++ _)), ENC_u8, zset_middle by zlen_lia. cbn [mbind outcome_bind].
  rewrite (cons_middle _ ((p ++ _) ++ _)), (app_assoc ((p ++ _) ++ _)), ENC_u8, zset_middle by zlen_lia. cbn [mbind outcome_bind].
  rewrite (cons_middle z ((a ++ [x]) ++ [y])), (app_assoc ((a ++ [x]) ++ [y])), (cons_middle _ (((p ++ _) ++ _) ++ _)), (app_assoc (((p ++ _) ++ _) ++ _)).
  replace (zlen a + 3) with (zlen (((a ++ [x]) ++ [y]) ++ [z])) by zlen_lia.
  match goal with |- context [encode_groups _ _ _ _ _ (?p' ++ o ++ q) _] => replace (zlen p + 4) with (zlen p') by zlen_lia end.
  rewrite IH by (simpl in *; lia). cbn [groups group app]. rewrite <- !app_assoc. cbn [app].
  f_equal. f_equal; [f_equal|]; zlen_lia.
Qed.

(** Reading a group back. *)
Lemma group_read x y z (a : bytes) t :
  exists d0 d1 d2 d3, a ++ group x y z ++ t = a ++ d0 :: d1 :: d2 :: d3 :: t /\
  zget (a ++ d0 :: d1 :: d2 :: d3 :: t) (zlen a) = Ok d0 /\
  zget (a ++ d0 :: d1 :: d2 :: d3 :: t) (zlen a + 1) = Ok d1 /\
  zget (a ++ d0 :: d1 :: d2 :: d3 :: t) (zlen a + 2) = Ok d2 /\
  zget (a ++ d0 :: d1 :: d2 :: d3 :: t) (zlen a + 3) = Ok d3 /\
  u8 (Z.lor (Z.shiftl (DEC d0) 2) (Z.shiftr (DEC d1) 4)) = Z.land (XC mask x) 255 /\
  u8 (Z.lor (Z.shiftl (DEC d1) 4) (Z.shiftr (DEC d2) 2)) = Z.land (XC mask y) 255 /\
  u8 (Z.lor (Z.shiftl (DEC d2) 6) (DEC d3)) = Z.land (XC mask z) 255.
Proof.
  unfold group. do 4 eexists. split_and!; [reflexivity| | | | | | |].
  - by apply zget_middle.
  - rewrite (cons_middle _ a), (app_assoc a). apply zget_middle. zlen_lia.
  - rewrite (cons_middle _ a), (app_assoc a), (cons_middle _ (a ++ _)), (app_assoc (a ++ _)). apply zget_middle. zlen_lia.
  - rewrite (cons_middle _ a), (app_assoc a), (cons_middle _ (a ++ _)), (app_assoc (a ++ _)),
      (cons_middle _ ((a ++ _) ++ _)), (app_assoc ((a ++ _) ++ _)). apply zget_middle. zlen_lia.
  - rewrite !DEC_ENC. apply first_byte.
  - rewrite !DEC_ENC. apply second_byte.
  - rewrite !DEC_ENC. apply third_byte.
Qed.

Lemma decode_groups_run k : forall fuel n t a r p o q,
  length t = (3 * k)%nat -> zlen o = n -> (k <= fuel)%nat -> 3 * Z.of_nat k - 3 < n <= 3 * Z.of_nat k ->
  decode_groups fuel n (a ++ groups t ++ r) (zlen a) (p ++ o ++ q) (zlen p) =
  Ok (p ++ masked (take (Z.to_nat n) t) ++ q, zlen p + n, zlen a + 4 * Z.of_nat k).
Proof.
  induction k as [|k IH]; intros fuel n t a r p o q Ht Ho Hf Hn.
  { destruct t; try done. assert (n = 0) as -> by (unfold zlen in Ho; lia).
    destruct o; [|zlen_lia]. destruct fuel; cbn; by rewrite !Z.add_0_r. }
  destruct t as [|x [|y [|z t]]]; [simpl in Ht; lia..|]. destruct fuel as [|fuel]; [lia|].
  assert (0 < n) as Hn0 by (destruct o; unfold zlen in Ho; simpl in Ho; lia).
  cbn [decode_groups groups]. assert (0 <? n = true) as -> by (apply Z.ltb_lt; lia). rewrite <- (app_assoc (group x y z)).
  destruct (group_read x y z a (groups t ++ r)) as (d0 & d1 & d2 & d3 & -> & G0 & G1 & G2 & G3 & B0 & B1 & B2).
  rewrite G0, G1, G2, G3. cbn [mbind outcome_bind]. rewrite B0, B1, B2.
  assert (0 <= zlen p) by done.
  destruct (Z.leb_spec 3 n).
  - destruct o as [|o0 [|o1 [|o2 o]]]; [unfold zlen in Ho; simpl in Ho; lia..|]. cbn [app].
    rewrite zset_middle by done. cbn [mbind outcome_bind].
    rewrite (cons_middle _ p), (app_assoc p), zset_middle by zlen_lia. cbn [mbind outcome_bind].
    rewrite (cons_middle _ (p ++ _)), (app_assoc (p ++ _)), zset_middle by zlen_lia. cbn [mbind outcome_bind fst snd].
    rewrite (cons_middle _ ((p ++ _) ++ _)), (app_assoc ((p ++ _) ++ _)).
    rewrite (cons_middle d0 a), (app_assoc a), (cons_middle d1 (a ++ _)), (app_assoc (a ++ _)),
      (cons_middle d2 ((a ++ _) ++ _)), (app_assoc ((a ++ _) ++ _)), (cons_middle d3 (((a ++ _) ++ _) ++ _)), (app_assoc (((a ++ _) ++ _) ++ _)).
    match goal with |- context [decode_groups _ _ (?a' ++ groups t ++ r) _ (?p' ++ o ++ q) _] =>
      replace (zlen a + 4) with (zlen a') by zlen_lia; replace (zlen p + 3) with (zlen p') by zlen_lia end.
    rewrite IH by (simpl in *; zlen_lia). rewrite <- !app_assoc. cbn [app].
    replace (Z.to_nat n) with (S (S (S (Z.to_nat (n - 3))))) by lia. cbn [take masked List.map app].
    f_equal. f_equal; [f_equal|]; zlen_lia.
  - assert (k = 0%nat) as -> by lia. destruct t; [|simpl in Ht; lia].
    destruct (Z.leb_spec 1 n); [|lia]. destruct o as [|o0 o]; [unfold zlen in Ho; simpl in Ho; lia|]. cbn [app].
    rewrite zset_middle by done. cbn [mbind outcome_bind fst snd].
    destruct (Z.leb_spec 2 n).
    + assert (n = 2) as -> by lia. destruct o as [|o1 [|o2 o]]; [zlen_lia| |zlen_lia]. cbn [app].
      rewrite (cons_middle _ p), (app_assoc p), zset_middle by zlen_lia. cbn [mbind outcome_bind fst snd].
      rewrite <- app_assoc. destruct fuel; cbn; f_equal; f_equal; f_equal; lia.
    + assert (n = 1) as -> by lia. destruct o as [|o1 o]; [|zlen_lia].
      destruct fuel; cbn; f_equal; f_equal; f_equal; lia.
Qed.
(** ** Lines of at most 51 bytes *)

(** The groups a line of [m] bytes takes. *)
Definition line_groups (m : nat) : nat := Nat.div (m + 2) 3.

Fixpoint lines (j n : nat) (t : bytes) : bytes :=
  match j with
  | O => []
  | S j =>
      if bool_decide (n = 0%nat) then []
      else
        let m := Nat.min n 51 in
        ENC (Z.of_nat m) :: groups (take (3 * line_groups m) t) ++ lines j (n - m) (drop m t)
  end.

Lemma line_groups_bounds m :
  (0 < m)%nat -> (m <= 3 * line_groups m <= m + 2)%nat /\ 3 * Z.of_nat (line_groups m) - 3 < Z.of_nat m /\ (line_groups m <= m)%nat.
Proof.
  intros Hm. unfold line_groups. pose proof (Nat.div_mod (m + 2) 3 ltac:(lia)).
  pose proof (Nat.mod_upper_bound (m + 2) 3 ltac:(lia)). lia.
Qed.

Lemma lines_0 j t : lines j 0 t = [].
Proof. by destruct j. Qed.

Lemma lines_S j n t :
  (0 < n)%nat -> lines (S j) n t =
  ENC (Z.of_nat (Nat.min n 51)) :: groups (take (3 * line_groups (Nat.min n 51)) t) ++ lines j (n - Nat.min n 51) (drop (Nat.min n 51) t).
Proof. intros Hn. cbn [lines]. rewrite bool_decide_eq_false_2 by lia. done. Qed.

Lemma encode_lines_run j : forall fuel n t a r p o q,
  (n <= j)%nat -> (j <= fuel)%nat -> length t = (n + 2)%nat -> length o = length (lines j n t) ->
  exists s, encode_lines fuel mask (Z.of_nat n) (a ++ t ++ r) (zlen a) (p ++ o ++ q) (zlen p) =
    Ok (p ++ lines j n t ++ q, zlen p + zlen (lines j n t), s).
Proof.
  induction j as [|j IH]; intros fuel n t a r p o q Hn Hf Ht Ho.
  { assert (n = 0%nat) as -> by lia. destruct o; [|done]. exists (zlen a).
    destruct fuel; cbn; by rewrite Z.add_0_r. }
  destruct (decide (n = 0%nat)) as [->|Hn0].
  { rewrite lines_0 in *. destruct o; [|done]. exists (zlen a). destruct fuel; cbn; by rewrite Z.add_0_r. }
  destruct fuel as [|fuel]; [lia|]. rewrite lines_S in Ho |- * by lia.
  cbn [encode_lines]. assert (0 <? Z.of_nat n = true) as -> by (apply Z.ltb_lt; lia).
  set (m := Nat.min n 51) in *.
  replace (if 51 <? Z.of_nat n then 51 else Z.of_nat n) with (Z.of_nat m) by (destruct (Z.ltb_spec 51 (Z.of_nat n)); lia).
  destruct (line_groups_bounds m) as (Hb1 & Hb2 & Hb3); [lia|]. set (k := line_groups m) in *.
  destruct o as [|o0 o]; [done|]. cbn [length] in Ho. injection Ho as Ho. rewrite length_app in Ho.
  rewrite (groups_length k) in Ho by (rewrite length_take; lia).
  assert (exists o1 o2, o = o1 ++ o2 /\ length o1 = (4 * k)%nat) as (o1 & o2 & -> & Ho1).
  { exists (take (4 * k) o), (drop (4 * k) o). rewrite take_drop, length_take. split; [done|lia]. }
  rewrite length_app in Ho. unfold put_enc. cbn [app]. rewrite ENC_u8, zset_middle by done. cbn [mbind outcome_bind].
  rewrite (cons_middle _ p), (app_assoc p), <- (app_assoc o1).
  replace (a ++ t ++ r) with (a ++ take (3 * k) t ++ drop (3 * k) t ++ r) by (by rewrite (app_assoc (take _ _)), take_drop).
  replace (zlen p + 1) with (zlen (p ++ [ENC (Z.of_nat m)])) by zlen_lia.
  rewrite (encode_groups_run k) by (rewrite ?length_take; lia). cbn [mbind outcome_bind].
  rewrite (app_assoc (take _ _)), take_drop.
  destruct (decide (n <= 51)%nat).
  - exists (zlen a + 3 * Z.of_nat k). replace (n - m)%nat with 0%nat in * by lia. rewrite lines_0 in *.
    destruct o2; [|cbn [length] in Ho; lia]. assert (0 <? Z.of_nat n - 51 = false) as E by (apply Z.ltb_ge; lia).
    assert (length (groups (take (3 * k) t)) = (4 * k)%nat) as Hg by (apply groups_length; rewrite length_take; lia).
    destruct fuel; cbn [encode_lines]; rewrite E, <- !app_assoc; cbn [app]; f_equal; f_equal; f_equal; zlen_lia.
  - assert (m = 51%nat) as Em by lia. assert (k = 17%nat) as Ek by (unfold k; rewrite Em; reflexivity).
    clearbody k. clearbody m. subst m k. change (3 * 17)%nat with 51%nat.
    replace (a ++ t ++ r) with ((a ++ take 51 t) ++ drop 51 t ++ r) by (by rewrite <- app_assoc, (app_assoc (take _ _)), take_drop).
    replace (zlen a + 3 * Z.of_nat 17) with (zlen (a ++ take 51 t)) by (rewrite zlen_app; unfold zlen; rewrite length_take; lia).
    assert (length (groups (take 51 t)) = (4 * 17)%nat) as Hg by (apply groups_length; rewrite length_take; lia).
    rewrite (app_assoc (p ++ _)).
    match goal with |- context [encode_lines _ _ _ _ _ (?p' ++ o2 ++ q) _] =>
      replace (zlen (p ++ [ENC (Z.of_nat 51)]) + 4 * Z.of_nat 17) with (zlen p') by (rewrite !zlen_app; zlen_lia) end.
    replace (Z.of_nat n - 51) with (Z.of_nat (n - 51)) by lia.
    destruct (IH fuel (n - 51)%nat (drop 51 t) (a ++ take 51 t) r ((p ++ [ENC (Z.of_nat 51)]) ++ groups (take 51 t)) o2 q)
      as (s & Hs); [lia|lia|rewrite length_drop; lia|lia|].
    exists s. rewrite Hs, <- !app_assoc. cbn [app]. f_equal. f_equal. f_equal. zlen_lia.
Qed.

Lemma decode_lines_run j : forall fuel iLen n t a r p o q,
  (n <= j)%nat -> (j < fuel)%nat -> Z.of_nat n < iLen -> (n + 2 <= length t)%nat -> length o = n ->
  decode_lines fuel iLen (a ++ lines j n t ++ 96 :: r) (zlen a) (p ++ o ++ q) (zlen p) =
  Ok (p ++ masked (take n t) ++ q, zlen p + Z.of_nat n).
Proof.
  induction j as [|j IH]; intros fuel iLen n t a r p o q Hn Hf Hi Ht Ho.
  all: destruct fuel as [|fuel]; [lia|]; cbn [decode_lines]; assert (0 <? iLen = true) as -> by (apply Z.ltb_lt; lia).
  { assert (n = 0%nat) as -> by lia. destruct o; [|done]. cbn [lines app]. rewrite zget_middle by done.
    cbn. by rewrite Z.add_0_r. }
  destruct (decide (n = 0%nat)) as [->|Hn0].
  { rewrite lines_0. destruct o; [|done]. cbn [app]. rewrite zget_middle by done. cbn. by rewrite Z.add_0_r. }
  rewrite lines_S by lia. set (m := Nat.min n 51) in *.
  destruct (line_groups_bounds m) as (Hb1 & Hb2 & Hb3); [lia|]. set (k := line_groups m) in *.
  cbn [app]. rewrite zget_middle by done. cbn [mbind outcome_bind]. rewrite DEC_ENC.
  replace (Z.land (Z.of_nat m) 63) with (Z.of_nat m).
  2: { pose proof (Z.land_ones (Z.of_nat m) 6 ltac:(lia)) as H. change (Z.ones 6) with 63 in H. rewrite H.
       symmetry. apply Z.mod_small. lia. }
  destruct (Z.leb_spec (Z.of_nat m) 0); [lia|].
  assert (exists o1 o2, o = o1 ++ o2 /\ length o1 = m) as (o1 & o2 & -> & Ho1).
  { exists (take m o), (drop m o). rewrite take_drop, length_take. split; [done|lia]. }
  rewrite length_app in Ho. rewrite (cons_middle _ a), (app_assoc a), <- (app_assoc (groups _)), <- (app_assoc o1).
  replace (zlen a + 1) with (zlen (a ++ [ENC (Z.of_nat m)])) by zlen_lia.
  rewrite (decode_groups_run k) by (rewrite ?length_take; zlen_lia). cbn [mbind outcome_bind].
  assert (length (groups (take (3 * k) t)) = (4 * k)%nat) as Hg by (apply groups_length; rewrite length_take; lia).
  rewrite Nat2Z.id, take_take, Nat.min_l by lia.
  rewrite (app_assoc (a ++ _)), (app_assoc p).
  assert (zlen p + Z.of_nat m = zlen (p ++ masked (take m t))) as ->.
  { rewrite zlen_app. unfold zlen, masked. rewrite length_map, length_take. lia. }
  match goal with |- context [decode_lines _ _ (?a' ++ lines _ _ _ ++ _) ?s _ _] =>
    replace s with (zlen a') by (rewrite !zlen_app; zlen_lia) end.
  rewrite IH; [|lia|lia|lia|rewrite length_drop; lia|lia].
  rewrite <- !app_assoc, (app_assoc (masked _)). f_equal. f_equal.
  - f_equal. f_equal. unfold masked. rewrite <- map_app, take_take_drop.
    do 2 f_equal. lia.
  - rewrite zlen_app. unfold masked, zlen. rewrite length_map, length_take. lia.
Qed.
End mask.

(** ** The whole text *)

Definition log_mask (t : Z) : Z := Z.land t 65535.

Definition mask_chars (m : Z) : bytes :=
  [ENC (Z.shiftr m 2); ENC (Z.lor (Z.land (Z.shiftl m 4) 48) (Z.land (Z.shiftr (Z.shiftr m 8) 4) 15))].

(** The lines of [s], which may show the two bytes after it, and the end mark. *)
Definition log_body (t : Z) (s : bytes) (x y : Z) : bytes :=
  lines (log_mask t) (length s) (length s) (s ++ [x; y]) ++ [96].

Definition log_text (t : Z) (s : bytes) (x y : Z) : bytes :=
  lit "DZYA" ++ mask_chars (log_mask t) ++ dec0 7 (13 + zlen (log_body t s x y)) ++ log_body t s x y.

Lemma lines_length m j : forall n l, (n <= j)%nat -> (n + 2 <= length l)%nat -> (n <= length (lines m j n l))%nat.
Proof.
  induction j as [|j IH]; intros n l Hn Hl; [lia|]. destruct (decide (n = 0%nat)); [lia|].
  rewrite lines_S by lia. set (k := Nat.min n 51). destruct (line_groups_bounds k) as (Hb & _ & _); [lia|].
  cbn [length]. rewrite length_app, (groups_length _ (line_groups k)) by (rewrite length_take; lia).
  specialize (IH (n - k)%nat (drop k l)). rewrite length_drop in IH. lia.
Qed.

Lemma unmask_run m m' l : forall i p q,
  Forall byte l -> Z.land m' 255 = Z.land m 255 -> i = zlen p ->
  for_loop (length l) i 1 (λ n dest,
    c ← zget dest n; dest ← zset dest n (u8 (Z.lxor (schar c) m')); Ok (dest, true)) (p ++ masked m l ++ q) =
  Ok (p ++ l ++ q).
Proof.
  induction l as [|a l IH]; intros i p q Hl Hm Hi; [done|]. inversion_clear Hl as [|? ? Ha Hl'].
  cbn [length for_loop masked List.map app]. fold (masked m l).
  rewrite zget_middle by done. cbn [mbind outcome_bind]. rewrite zset_middle by done. cbn [mbind outcome_bind fst snd].
  rewrite unmask_byte by done. rewrite (cons_middle a p), (app_assoc p), IH by (done || zlen_lia). by rewrite <- app_assoc.
Qed.

Section text.
Context (t : Z) (s : bytes) (x y : Z).
Hypothesis (Hlen : 13 + zlen (log_body t s x y) < 10000000).

Let L := 13 + zlen (log_body t s x y).

Lemma dec0_7 : length (dec0 7 L) = 7%nat.
Proof using Hlen. apply length_dec0; [lia|]. split; [unfold L; pose proof (zlen_nonneg (log_body t s x y)); lia|exact Hlen]. Qed.

Lemma log_text_length : zlen (log_text t s x y) = L.
Proof using Hlen.
  unfold log_text. rewrite !zlen_app. fold L. unfold zlen at 3. rewrite dec0_7.
  change (zlen (lit "DZYA")) with 4. change (zlen (mask_chars (log_mask t))) with 2. unfold L. lia.
Qed.

Lemma encode_run o z q r ml :
  length o = length (log_text t s x y) ->
  _lencodelog t (o ++ z :: q) ml (s ++ x :: y :: r) (zlen s) = Ok (log_text t s x y ++ 0 :: q, zlen (log_text t s x y)).
Proof using Hlen.
  intros Ho. pose proof log_text_length as HL. assert (length o = Z.to_nat L) as Ho' by zlen_lia. clear Ho.
  set (b := lines (log_mask t) (length s) (length s) (s ++ [x; y])) in *.
  assert (L = 14 + zlen b) as HLb by (unfold L, log_body; fold b; zlen_lia).
  assert (exists h c o2 e, o = h ++ c ++ o2 ++ [e] /\ length h = 4%nat /\ length c = 9%nat /\ length o2 = length b)
    as (h & c & o2 & e & -> & Hh & Hc & Ho2).
  { destruct (split_last o (13 + length b)) as (o1 & e & -> & Ho1); [zlen_lia|].
    exists (take 4 o1), (take 9 (drop 4 o1)), (drop 9 (drop 4 o1)), e.
    rewrite (app_assoc (take 9 _)), take_drop, app_assoc, take_drop. split; [done|].
    rewrite !length_take, !length_drop. lia. }
  unfold _lencodelog. fold (log_mask t). change (take 4 stcnEncodeHead) with (lit "DZYA").
  rewrite <- !app_assoc, poke_prefix by (unfold zlen; rewrite Hh; done). cbn [mbind outcome_bind].
  rewrite (app_assoc (lit _)).
  destruct (encode_lines_run (log_mask t) (length s) (Z.to_nat (zlen s)) (length s) (s ++ [x; y]) [] r (lit "DZYA" ++ c) o2 ([e] ++ z :: q))
    as (k & Hk); [lia|zlen_lia|rewrite length_app; done|done|].
  cbn [app] in Hk. change (zlen []) with 0 in Hk. change (Z.of_nat (length s)) with (zlen s) in Hk.
  replace (zlen (lit "DZYA" ++ c)) with 13 in Hk by (rewrite zlen_app; unfold zlen; rewrite Hc; done).
  replace ((s ++ [x; y]) ++ r) with (s ++ x :: y :: r) in Hk by (by rewrite <- app_assoc).
  cbn [app]. cbn [app] in Hk. rewrite Hk. cbn [mbind outcome_bind]. fold b. unfold put_enc. rewrite !ENC_u8.
  change (ENC 0) with 96.
  rewrite (app_assoc _ b), zset_middle by (rewrite !zlen_app; unfold zlen; rewrite Hc; simpl; lia). cbn [mbind outcome_bind].
  rewrite <- (app_assoc (lit _)).
  destruct c as [|c0 [|c1 [|c2 [|c3 [|c4 [|c5 [|c6 [|c7 [|c8 [|c9 c]]]]]]]]]]; try done.
  set (H := lit "DZYA").
  replace ((H ++ [c0; c1; c2; c3; c4; c5; c6; c7; c8] ++ b) ++ 96 :: z :: q)
    with (H ++ c0 :: c1 :: [c2; c3; c4; c5; c6; c7; c8] ++ b ++ 96 :: z :: q) by (by rewrite <- app_assoc).
  set (T := [c2; c3; c4; c5; c6; c7; c8]). rewrite zset_middle by done. cbn [mbind outcome_bind].
  rewrite (cons_middle _ H), (app_assoc H), zset_middle by done. cbn [mbind outcome_bind].
  set (E1 := ENC (Z.shiftr (log_mask t) 2)). set (E2 := ENC _).
  replace ((H ++ [E1]) ++ E2 :: T ++ b ++ 96 :: z :: q) with (((H ++ [E1; E2]) ++ T ++ b ++ [96]) ++ z :: q)
    by (by rewrite <- !app_assoc).
  rewrite zset_middle by (rewrite !zlen_app; change (zlen H) with 4; change (zlen T) with 7; zlen_lia). cbn [mbind outcome_bind].
  replace (13 + zlen b + 1) with L by lia. pose proof dec0_7 as Hd.
  unfold sprintf_to. change (replicate 10 0) with (replicate 8 0 ++ [0; 0]).
  rewrite poke_prefix by (rewrite zlen_app; unfold zlen; rewrite Hd; done). cbn [mbind outcome_bind].
  rewrite <- (app_assoc (dec0 7 L)), take_app_length' by done.
  rewrite <- app_assoc, <- (app_assoc T), (poke_layout (H ++ [E1; E2]) T) by (done || unfold zlen; rewrite Hd; done).
  cbn [mbind outcome_bind]. rewrite HL. do 2 f_equal. unfold log_text, log_body, mask_chars. fold b.
  by rewrite <- !app_assoc.
Qed.

Lemma decode_run o q r ml :
  Forall byte s -> length o = length s ->
  ldecodelog (o ++ q) ml (log_text t s x y ++ r) (zlen (log_text t s x y)) = Ok (s ++ q, zlen s).
Proof using Hlen.
  intros Hs Ho. pose proof log_text_length as HL. unfold ldecodelog.
  assert (L = 14 + zlen (lines (log_mask t) (length s) (length s) (s ++ [x; y]))) as HLb by (unfold L, log_body; zlen_lia).
  rewrite HL. pose proof (zlen_nonneg (lines (log_mask t) (length s) (length s) (s ++ [x; y]))).
  destruct (Z.ltb_spec L 14); [lia|]. unfold log_text, mask_chars. fold L. rewrite <- !app_assoc.
  rewrite peek_prefix by done. cbn [mbind outcome_bind].
  rewrite bool_decide_eq_true_2 by done. cbn [negb app].
  rewrite (zget_middle (lit "DZYA") _ _ 4) by done. cbn [mbind outcome_bind].
  rewrite (cons_middle _ (lit "DZYA")), (app_assoc (lit "DZYA")), zget_middle by done. cbn [mbind outcome_bind].
  rewrite !DEC_ENC. set (E1 := ENC (Z.shiftr _ 2)). set (E2 := ENC _).
  unfold log_body. rewrite <- (app_assoc (lines _ _ _ _)).
  assert (((lit "DZYA" ++ [E1]) ++ E2 :: dec0 7 L ++ lines (log_mask t) (length s) (length s) (s ++ [x; y]) ++ [96] ++ r) =
    (lit "DZYA" ++ [E1; E2] ++ dec0 7 L) ++ lines (log_mask t) (length s) (length s) (s ++ [x; y]) ++ 96 :: r) as ->
    by (by rewrite <- !app_assoc).
  pose proof dec0_7 as Hd.
  pose proof (decode_lines_run (log_mask t) (length s) (Z.to_nat L) L (length s) (s ++ [x; y])
    (lit "DZYA" ++ [E1; E2] ++ dec0 7 L) r [] o q) as H1.
  assert (length s <= length (lines (log_mask t) (length s) (length s) (s ++ [x; y])))%nat as Hll by (apply lines_length; rewrite ?length_app; simpl; lia).
  cbn [app] in H1. change (zlen []) with 0 in H1.
  replace (zlen (lit "DZYA" ++ E1 :: E2 :: dec0 7 L)) with 13 in H1 by (rewrite zlen_app; unfold zlen; cbn [length]; rewrite Hd; done).
  cbn [app]. rewrite H1; [|lia|zlen_lia|zlen_lia|rewrite length_app; done|done]. cbn [mbind outcome_bind fst snd].
  rewrite take_app_length, Z.add_0_l. unfold unmask. change (Z.of_nat (length s)) with (zlen s).
  replace (Z.to_nat (zlen s)) with (length s) by zlen_lia.
  match goal with |- context [Z.lxor _ ?m'] => pose proof (unmask_run (log_mask t) m' s 0 [] q Hs (mask_byte _) eq_refl) as H2 end.
  cbn [app] in H2. rewrite H2. done.
Qed.
End text.

(** ** Decoding a log file ([ldecodefd2fd] of [bas_encrypt.c])

    A file mixes plain text with encoded blocks.  The reader looks for the
    head of a block one byte at a time in a buffer it empties before it is
    full; it writes the plain parts and the decoded blocks in their order, with
    one blank too many before what is left at the end of the file. *)

(** ** Looking for the head *)

Definition marker : bytes := lit "DZYA".

(** The text holds no head. *)
Definition plain (p : bytes) : Prop := forall a b, p <> a ++ marker ++ b.

(** [match_step] as a function on the number of bytes matched, 0 to 3. *)
Definition next_match (k : nat) (c : Z) : option nat :=
  if bool_decide (marker !! k = Some c) then (if bool_decide (k = 3%nat) then None else Some (S k))
  else Some (if c =? 68 then 1%nat else 0%nat).

Fixpoint scan (k : nat) (p : bytes) : option nat :=
  match p with [] => Some k | c :: p => k ← next_match k c; scan k p end.

Lemma head_at k : (k <= 3)%nat -> exists h, zget stcnEncodeHead (Z.of_nat k) = Ok h /\ marker !! k = Some h.
Proof. intros Hk. destruct k as [|[|[|[|k]]]]; [..|lia]; eexists; split; reflexivity. Qed.

Lemma match_step_run k c :
  (k <= 3)%nat -> match_step (Z.of_nat k) c = Ok (Z.of_nat <$> next_match k c).
Proof.
  intros Hk. unfold match_step, next_match. destruct (head_at k Hk) as (h & E1 & E2). rewrite E1, E2. cbn [mbind outcome_bind].
  destruct (Z.eqb_spec c h) as [->|Hc].
  - rewrite bool_decide_eq_true_2 by done. destruct (Z.eqb_spec (Z.of_nat k + 1) 4).
    + by rewrite bool_decide_eq_true_2 by lia.
    + rewrite bool_decide_eq_false_2 by lia. cbn [fmap option_fmap option_map]. do 2 f_equal. lia.
  - rewrite bool_decide_eq_false_2 by congruence. change (zget stcnEncodeHead 0) with (@Ok Z 68).
    destruct (Z.eqb_spec (Z.of_nat k) 0) as [E|E]; cbn [negb mbind outcome_bind].
    + assert (k = 0%nat) as -> by lia. destruct (Z.eqb_spec c 68) as [->|]; [|done].
      change (Ok 68 = Ok h) in E1. by injection E1 as <-.
    + by destruct (c =? 68).
Qed.

Lemma next_match_bound k c k' : (k <= 3)%nat -> next_match k c = Some k' -> (k' <= 3)%nat /\ (k' <= S k)%nat.
Proof.
  unfold next_match. intros Hk. destruct (bool_decide (marker !! k = Some c)).
  - case_bool_decide; intros [= <-]. lia.
  - intros [= <-]. destruct (c =? 68); lia.
Qed.

(** What has been matched ends what has been read. *)
Lemma next_match_take k c k' :
  (k <= 3)%nat -> next_match k c = Some k' -> exists u, take k marker ++ [c] = u ++ take k' marker.
Proof.
  intros Hk. unfold next_match. case_bool_decide as Hc.
  - case_bool_decide; intros [= <-]. exists []. cbn [app]. by rewrite (take_S_r _ _ c).
  - intros [= <-]. destruct (Z.eqb_spec c 68) as [->|].
    + by exists (take k marker).
    + exists (take k marker ++ [c]). by rewrite app_nil_r.
Qed.

Lemma next_match_None k c : (k <= 3)%nat -> next_match k c = None -> take k marker ++ [c] = marker.
Proof.
  intros Hk. unfold next_match. case_bool_decide as Hc; [|done]. case_bool_decide; [|done]. subst k. intros _.
  by injection Hc as <-.
Qed.

Lemma scan_None p : forall k, (k <= 3)%nat -> scan k p = None -> exists a b, take k marker ++ p = a ++ marker ++ b.
Proof.
  induction p as [|c p IH]; intros k Hk; [done|]. cbn [scan].
  destruct (next_match k c) as [k'|] eqn:E; cbn [mbind option_bind].
  - intros Hs. destruct (next_match_bound k c k' Hk E) as [Hk' _].
    destruct (next_match_take k c k' Hk E) as (u & Hu). destruct (IH k' Hk' Hs) as (a & b & Hab).
    exists (u ++ a), b. rewrite cons_middle, app_assoc, Hu, <- !app_assoc, Hab. done.
  - intros _. exists [], p. rewrite cons_middle, app_assoc, (next_match_None k c Hk E). done.
Qed.

Lemma scan_bound p : forall k k', (k <= 3)%nat -> scan k p = Some k' -> (k' <= 3)%nat.
Proof.
  induction p as [|c p IH]; intros k k' Hk; cbn [scan]; [by intros [= <-]|].
  destruct (next_match k c) as [k1|] eqn:E; [|done]. apply IH. by destruct (next_match_bound k c k1 Hk E).
Qed.

Lemma scan_app p q : forall k, scan k (p ++ q) = (k ← scan k p; scan k q).
Proof. induction p as [|c p IH]; intros k; [done|]. simpl. by destruct (next_match k c); simpl. Qed.

(** Plain text never completes the head, and the head completes it at once. *)
Lemma scan_plain p : plain p -> exists k, scan 0 p = Some k /\ (k <= 3)%nat.
Proof.
  intros Hp. destruct (scan 0 p) as [k|] eqn:E.
  - exists k. split; [done|]. apply (scan_bound p 0 k); [lia|done].
  - destruct (scan_None p 0 ltac:(lia) E) as (a & b & Hab). by destruct (Hp a b).
Qed.

Lemma scan_marker k : (k <= 3)%nat -> scan k (lit "DZY") = Some 3%nat.
Proof.
  intros Hk. assert (k = 0 \/ k = 1 \/ k = 2 \/ k = 3)%nat as H by lia.
  repeat destruct H as [->|H]; [..|subst k]; reflexivity.
Qed.

Lemma scan_not_plain a b : scan 0 (a ++ marker ++ b) = None.
Proof.
  rewrite scan_app. destruct (scan 0 a) as [k|] eqn:E; [|done]. cbn [mbind option_bind].
  apply (scan_bound a 0) in E; [|lia]. change marker with (lit "DZY" ++ [65]). rewrite <- app_assoc, scan_app, scan_marker by done.
  reflexivity.
Qed.

#[export] Instance plain_dec p : Decision (plain p).
Proof.
  destruct (scan 0 p) as [k|] eqn:E.
  - left. intros a b ->. by rewrite scan_not_plain in E.
  - right. intros Hp. by destruct (scan_plain p Hp) as (k & Hk & _); rewrite E in Hk.
Defined.

(** ** Plain text *)

#[local] Opaque memset MAXLEN.
#[local] Arguments MAXLEN : simpl never.

Lemma MAXLEN_val : MAXLEN = 51200.
Proof. reflexivity. Qed.

(** The buffer that holds [w]. *)
Definition buffer (w : bytes) : bytes := w ++ memset 0 (MAXLEN * 2 - zlen w).

Lemma memset_cons n : 0 < n -> memset 0 n = 0 :: memset 0 (n - 1).
Proof. intros Hn. Transparent memset. unfold memset. by replace (Z.to_nat n) with (S (Z.to_nat (n - 1))) by lia. Qed.

Lemma memset_app a b : 0 <= a -> 0 <= b -> memset 0 (a + b) = memset 0 a ++ memset 0 b.
Proof. intros Ha Hb. unfold memset. by rewrite Z2Nat.inj_add, replicate_add. Qed.

Lemma zlen_memset n : 0 <= n -> zlen (memset 0 n) = n.
Proof. intros Hn. unfold memset, zlen. rewrite length_replicate. lia. Qed.

#[local] Opaque memset.

Lemma buffer_add w c : zlen w < MAXLEN * 2 -> zset (buffer w) (zlen w) c = Ok (buffer (w ++ [c])).
Proof.
  intros Hw. unfold buffer. rewrite memset_cons by lia. rewrite zset_middle by done.
  rewrite zlen_app, <- app_assoc. do 2 f_equal. cbn [app]. do 2 f_equal. zlen_lia.
Qed.

(** A buffer grows by a block of bytes. *)
Lemma buffer_poke w b : zlen w + zlen b <= MAXLEN * 2 -> poke (buffer w) (zlen w) b = Ok (buffer (w ++ b)).
Proof.
  intros Hw. unfold buffer. replace (MAXLEN * 2 - zlen w) with (zlen b + (MAXLEN * 2 - zlen (w ++ b))) by zlen_lia.
  rewrite memset_app by zlen_lia. rewrite poke_layout; [by rewrite <- app_assoc|done|].
  by rewrite zlen_memset.
Qed.

Lemma nonzero_content s : cstring s -> content s = s.
Proof. apply content_cstring. Qed.

(** Printing part of what was read, and one byte more than it. *)
Lemma print_prefix u v : cstring u -> print_field (zlen u) (u ++ v) = u.
Proof.
  intros Hu. unfold print_field, zlen. rewrite Nat2Z.id, take_app_length, content_cstring by done.
  unfold pad_left. by rewrite Nat.sub_diag.
Qed.

Lemma print_beyond u v : cstring u -> print_field (zlen u + 1) (u ++ 0 :: v) = 32 :: u.
Proof.
  intros Hu. unfold print_field. replace (Z.to_nat (zlen u + 1)) with (length u + 1)%nat by zlen_lia.
  rewrite (cons_middle 0 u), app_assoc, take_app_length' by (rewrite length_app; done).
  rewrite content_app by done. unfold pad_left. by replace (length u + 1 - length u)%nat with 1%nat by lia.
Qed.

(** What the reader has done after plain text: [w] is in the buffer, [out]
    has been written. *)
Definition read_plain (w0 p out0 w out : bytes) (k : nat) : Prop :=
  out ++ w = out0 ++ w0 ++ p /\ zlen w < MAXLEN - 1 /\ (k <= length w)%nat /\ cstring w /\
  (zlen w0 + zlen p < MAXLEN - 1 -> out = out0 /\ w = w0 ++ p).

Lemma fd_plain p : forall w0 k out0 rest fuel k1,
  cstring w0 -> cstring p -> zlen w0 < MAXLEN - 1 -> (k <= 3)%nat -> (k <= length w0)%nat -> scan k p = Some k1 ->
  exists w out,
    fd_loop (length p + fuel) (buffer w0) (zlen w0) (Z.of_nat k) (p ++ rest) out0 =
    fd_loop fuel (buffer w) (zlen w) (Z.of_nat k1) rest out /\
    read_plain w0 p out0 w out k1.
Proof.
  pose proof MAXLEN_val as HM.
  induction p as [|c p IH]; intros w0 k out0 rest fuel k1 Hw Hp Hlen Hk Hkw Hs.
  { injection Hs as <-. exists w0, out0. unfold read_plain. by rewrite app_nil_r. }
  cbn [scan] in Hs. destruct (next_match k c) as [k'|] eqn:E; [|done]. cbn [mbind option_bind] in Hs.
  destruct (next_match_bound k c k' Hk E) as [Hk3 Hk']. inversion_clear Hp as [|? ? Hc Hp'].
  assert (cstring (w0 ++ [c])) as Hwc by (apply Forall_app; split; [done|by apply Forall_singleton]).
  cbn [length Nat.add fd_loop app]. rewrite buffer_add by lia. cbn [mbind outcome_bind].
  rewrite match_step_run, E by done. cbn [mbind outcome_bind fmap option_fmap option_map].
  replace (zlen w0 + 1) with (zlen (w0 ++ [c])) by zlen_lia.
  destruct (Z.eqb_spec (zlen (w0 ++ [c])) (MAXLEN - 1)) as [Hfull|Hfull].
  - destruct (split_at_end (w0 ++ [c]) k') as (u & v & Huv & Hv); [rewrite length_app; simpl; lia|].
    rewrite Huv in *. apply Forall_app in Hwc as [Hu Hvc].
    replace (zlen (u ++ v) - Z.of_nat k') with (zlen u) by zlen_lia.
    unfold buffer at 1 2. rewrite <- !app_assoc, print_prefix, peek_layout by (done || zlen_lia). cbn [mbind outcome_bind].
    assert (v ++ memset 0 (MAXLEN * 2 - Z.of_nat k') = buffer v) as -> by (unfold buffer; do 2 f_equal; zlen_lia).
    destruct (IH v k' (out0 ++ u) rest fuel k1) as (w & out & Hr & H1 & H2 & H3 & H4 & _); try done; [zlen_lia|lia|].
    change (zlen v) with (Z.of_nat (length v)) in Hr. rewrite Hv in Hr.
    exists w, out. split; [done|]. unfold read_plain. split_and!; try done.
    + rewrite H1, <- app_assoc. f_equal. rewrite (app_assoc u), <- Huv, <- app_assoc. done.
    + intros Hl. exfalso. rewrite <- Huv, zlen_app, zlen_cons in Hfull. rewrite zlen_cons in Hl.
      pose proof (zlen_nonneg p). zlen_lia.
  - destruct (IH (w0 ++ [c]) k' out0 rest fuel k1) as (w & out & Hr & H1 & H2 & H3 & H4 & H5); try done.
    + zlen_lia.
    + rewrite length_app. simpl. lia.
    + exists w, out. split; [done|]. unfold read_plain. rewrite <- app_assoc in H1, H5. cbn [app] in H1, H5.
      split_and!; try done. intros Hl. apply H5. zlen_lia.
Qed.

(** ** An encoded block *)

Section block.
Context (t : Z) (s : bytes) (x y : Z).
#[local] Abbreviation text := (log_text t s x y).
Hypothesis (Hs : cstring s) (Hne : s <> []) (Hlen : zlen text <= MAXLEN).

Lemma text_small : 13 + zlen (log_body t s x y) < 10000000.
Proof using Hlen.
  pose proof MAXLEN_val. unfold log_text in Hlen. rewrite !zlen_app in Hlen.
  pose proof (zlen_nonneg (dec0 7 (13 + zlen (log_body t s x y)))).
  pose proof (zlen_nonneg (mask_chars (log_mask t))). pose proof (zlen_nonneg marker). unfold marker in *. lia.
Qed.

(** The text as the reader takes it: the head, nine bytes, the rest. *)
Lemma text_split : exists h b, text = marker ++ h ++ b /\ zlen h = 9 /\
  h = mask_chars (log_mask t) ++ dec0 7 (zlen text) /\ zlen b = zlen text - 13 /\ 0 < zlen b.
Proof using Hlen.
  pose proof text_small as Hsm. pose proof (log_text_length t s x y Hsm) as HL. pose proof (dec0_7 t s x y Hsm) as Hd.
  exists (mask_chars (log_mask t) ++ dec0 7 (zlen text)), (log_body t s x y).
  rewrite HL. split_and!.
  - unfold log_text, marker. by rewrite <- app_assoc.
  - rewrite zlen_app. unfold zlen at 2. rewrite Hd. done.
  - done.
  - lia.
  - unfold log_body. zlen_lia.
Qed.

Lemma text_longer : zlen s <= zlen text.
Proof using Hlen.
  pose proof (lines_length (log_mask t) (length s) (length s) (s ++ [x; y]) ltac:(lia) ltac:(rewrite length_app; simpl; lia)).
  rewrite log_text_length by exact text_small. unfold log_body. zlen_lia.
Qed.

Lemma text_cstring : cstring (mask_chars (log_mask t)).
Proof using Type.
  unfold mask_chars. repeat constructor; pose proof (ENC_range (Z.shiftr (log_mask t) 2));
    match goal with |- context [ENC ?e] => pose proof (ENC_range e) end; lia.
Qed.

(** The length is read from the buffer that holds the start of the block. *)
Lemma length_field w h :
  h = mask_chars (log_mask t) ++ dec0 7 (zlen text) -> zlen w + 13 < MAXLEN * 2 -> zlen h = 9 ->
  atoi (content (drop (Z.to_nat (zlen w + 6)) (buffer ((w ++ marker) ++ h)))) = zlen text.
Proof using Hlen.
  intros Hh Hw H9. pose proof MAXLEN_val. pose proof (zlen_nonneg text) as Ht.
  unfold buffer. assert (zlen ((w ++ marker) ++ h) = zlen w + 13) as E by (rewrite !zlen_app, H9; change (zlen marker) with 4; lia).
  rewrite memset_cons by lia. rewrite Hh at 1.
  rewrite <- !app_assoc, (app_assoc marker), (app_assoc w), drop_app_length'.
  - rewrite content_app by auto using digits_cstring, dec0_digits. unfold atoi. rewrite strtol_dec0 by lia. apply s32_id. lia.
  - rewrite length_app. cbn. unfold zlen. lia.
Qed.

Lemma decode_block_run w rest :
  cstring w -> zlen w < MAXLEN ->
  decode_block (buffer (w ++ marker)) (zlen w) (drop 4 text ++ rest) = Ok (inr (w ++ s, rest)).
Proof using Hlen Hne Hs.
  intros Hw Hwl. pose proof MAXLEN_val. pose proof text_small as Hsm.
  destruct text_split as (h & b & Ht & Hh & Hhd & Hb & Hb0).
  assert (drop 4 text = h ++ b) as -> by (rewrite Ht; by apply drop_app_length').
  unfold decode_block, fread_item. change (u64 9) with 9.
  pose proof (zlen_nonneg rest). pose proof (zlen_nonneg w).
  rewrite Z.min_l by zlen_lia. rewrite <- app_assoc.
  replace (take (Z.to_nat 9) (h ++ b ++ rest)) with h by (symmetry; apply take_app_length'; zlen_lia).
  replace (zlen w + 4) with (zlen (w ++ marker)) by (rewrite zlen_app; done).
  rewrite buffer_poke by (rewrite zlen_app; change (zlen marker) with 4; zlen_lia). cbn [mbind outcome_bind].
  destruct (Z.leb_spec 9 (zlen (h ++ b ++ rest))); [|zlen_lia]. cbn [andb Z.ltb Z.compare Z.eqb].
  rewrite drop_app_length. replace (zlen w + 4 - 4 + 6) with (zlen w + 6) by lia.
  rewrite (length_field w h) by (done || lia). rewrite <- Hb, u64_id by lia.
  rewrite Z.min_l by zlen_lia.
  replace (take (Z.to_nat (zlen b)) (b ++ rest)) with b by (symmetry; apply take_app_length'; zlen_lia).
  replace (zlen w + 13) with (zlen ((w ++ marker) ++ h)) by (rewrite !zlen_app, Hh; change (zlen marker) with 4; lia).
  rewrite buffer_poke by (rewrite !zlen_app, Hh; change (zlen marker) with 4; lia). cbn [mbind outcome_bind].
  destruct (Z.ltb_spec 0 (zlen b)); [|lia]. destruct (Z.leb_spec (zlen b) (zlen (b ++ rest))); [|zlen_lia].
  cbn [andb Z.eqb]. rewrite drop_app_length.
  unfold buffer. assert (((w ++ marker) ++ h) ++ b = w ++ text) as -> by (by rewrite Ht, <- !app_assoc).
  rewrite <- app_assoc, drop_app_length' by zlen_lia.
  assert (Forall byte s) as Hsb by (eapply Forall_impl; [exact Hs|]; unfold cchar, byte; intros ? ?; lia).
  pose proof text_longer. assert (zlen s <= MAXLEN) as Hsl by lia.
  replace (MAXLEN * 2) with (zlen s + (MAXLEN * 2 - zlen s)) at 1 by lia. rewrite memset_app by (zlen_lia || lia).
  pose proof (zlen_nonneg s) as Hs0.
  rewrite (decode_run t s x y Hsm (memset 0 (zlen s))) by (done || (pose proof (zlen_memset (zlen s) Hs0); zlen_lia)).
  cbn [mbind outcome_bind]. destruct (Z.eqb_spec (zlen s) 0) as [E|E]; [destruct s; [done|zlen_lia]|].
  by rewrite !print_prefix.
Qed.
End block.

(** ** The file *)

(** A plain part and the block after it. *)
Record part : Type := Part { part_plain : bytes; part_time : Z; part_log : bytes; part_x : Z; part_y : Z }.

Definition part_text (p : part) : bytes :=
  part_plain p ++ log_text (part_time p) (part_log p) (part_x p) (part_y p).
Definition part_decoded (p : part) : bytes := part_plain p ++ part_log p.

(** Texts without NUL, no head in the plain part, a block that is not empty
    and fits the buffer. *)
Definition good_part (p : part) : Prop :=
  cstring (part_plain p) /\ plain (part_plain p) /\ cstring (part_log p) /\ part_log p <> [] /\
  zlen (log_text (part_time p) (part_log p) (part_x p) (part_y p)) <= MAXLEN.

Lemma fd_part p fuel out rest :
  good_part p -> (length (part_plain p) + 3 < fuel)%nat ->
  exists fuel', fd_loop fuel (buffer []) 0 0 (part_text p ++ rest) out =
    fd_loop fuel' (buffer []) 0 0 rest (out ++ part_decoded p) /\
    (fuel <= fuel' + length (part_text p))%nat.
Proof.
  destruct p as [p t s x y]. intros (Hp & Hpl & Hs & Hne & Hl) Hf. unfold part_text, part_decoded.
  cbn [part_plain part_time part_log part_x part_y] in *.
  pose proof MAXLEN_val as HM. pose proof (text_longer t s x y Hl) as Hlong.
  destruct (scan_plain p Hpl) as (k & Hk & Hk3).
  destruct (text_split t s x y Hl) as (h & b & Ht & _).
  assert (cstring (p ++ lit "DZY")) as Hc by (apply Forall_app; split; [done|]; repeat constructor; lia).
  assert (scan 0 (p ++ lit "DZY") = Some 3%nat) as Hscan by (rewrite scan_app, Hk; exact (scan_marker k Hk3)).
  destruct (fd_plain (p ++ lit "DZY") [] 0 out (65 :: h ++ b ++ rest) (fuel - length p - 3) 3)
    as (w & out' & Hr & H1 & H2 & H3 & H4 & _); [constructor|done|rewrite HM; done|lia|simpl; lia|done|].
  rewrite length_app in Hr. change (length (lit "DZY")) with 3%nat in Hr.
  replace (length p + 3 + (fuel - length p - 3))%nat with fuel in Hr by lia.
  assert ((p ++ log_text t s x y) ++ rest = (p ++ lit "DZY") ++ 65 :: h ++ b ++ rest) as -> by (by rewrite Ht, <- !app_assoc).
  change (zlen []) with 0 in Hr. change (Z.of_nat 0) with 0 in Hr. rewrite Hr. clear Hr.
  destruct (split_at_end w 3) as (w1 & w2 & -> & Hw2); [done|].
  assert (w2 = lit "DZY" /\ out' ++ w1 = out ++ p) as [-> Hout].
  { cbn [app] in H1. rewrite !app_assoc in H1. apply app_inj_2 in H1 as [H1 ->]; [done|by rewrite Hw2]. }
  apply Forall_app in H4 as [Hw1 _].
  destruct (fuel - length p - 3)%nat as [|fuel'] eqn:Ef; [lia|].
  exists fuel'. split; [|rewrite length_app; unfold zlen in Hlong; destruct (text_split t s x y Hl) as (h' & b' & -> & ?); rewrite !length_app; simpl; lia].
  cbn [fd_loop]. rewrite zlen_app in H2. rewrite buffer_add by zlen_lia. cbn [mbind outcome_bind].
  change 3 with (Z.of_nat 3). rewrite match_step_run by lia.
  change (next_match 3 65) with (@None nat). cbn [fmap option_fmap option_map mbind outcome_bind].
  assert ((w1 ++ lit "DZY") ++ [65] = w1 ++ marker) as -> by (by rewrite <- app_assoc).
  replace (zlen (w1 ++ lit "DZY") + 1 - 4) with (zlen w1) by (rewrite zlen_app; change (zlen (lit "DZY")) with 3; lia).
  assert (h ++ b ++ rest = drop 4 (log_text t s x y) ++ rest) as ->.
  { rewrite Ht, drop_app_length' by done. by rewrite app_assoc. }
  rewrite (decode_block_run t s x y Hs Hne Hl) by (done || (change (zlen (lit "DZY")) with 3 in H2; lia)).
  cbn [mbind outcome_bind]. unfold buffer. cbn [app]. change (zlen []) with 0. rewrite Z.sub_0_r.
  by rewrite app_assoc, Hout, <- app_assoc.
Qed.

(** What is left at the end of the file comes after one blank. *)
Lemma fd_tail p fuel out :
  cstring p -> plain p -> zlen p < MAXLEN - 1 -> (length p < fuel)%nat ->
  fd_loop fuel (buffer []) 0 0 p out = Ok (0, out ++ 32 :: p).
Proof.
  intros Hp Hpl Hl Hf. pose proof MAXLEN_val as HM. destruct (scan_plain p Hpl) as (k & Hk & _).
  destruct (fd_plain p [] 0 out [] (fuel - length p) k) as (w & out' & Hr & _ & _ & _ & Hw & Hshort);
    [constructor|done|rewrite HM; done|lia|simpl; lia|done|].
  destruct Hshort as [-> Hww]; [exact Hl|]. cbn [app] in Hww. subst w.
  replace (length p + (fuel - length p))%nat with fuel in Hr by lia. rewrite app_nil_r in Hr.
  change (zlen []) with 0 in Hr. change (Z.of_nat 0) with 0 in Hr. rewrite Hr.
  destruct (fuel - length p)%nat as [|f] eqn:E; [lia|]. cbn [fd_loop]. unfold buffer.
  rewrite memset_cons by lia. by rewrite print_beyond.
Qed.

Lemma fd_parts ps : forall p fuel out,
  Forall good_part ps -> cstring p -> plain p -> zlen p < MAXLEN - 1 ->
  (length (concat (List.map part_text ps) ++ p) < fuel)%nat ->
  fd_loop fuel (buffer []) 0 0 (concat (List.map part_text ps) ++ p) out =
  Ok (0, out ++ concat (List.map part_decoded ps) ++ 32 :: p).
Proof.
  induction ps as [|d ps IH]; intros p fuel out Hps Hp Hpl Hl Hf; [by apply fd_tail|].
  inversion_clear Hps as [|? ? Hd Hps']. cbn [List.map concat] in *. rewrite <- !app_assoc in *.
  destruct (fd_part d fuel out (concat (List.map part_text ps) ++ p) Hd) as (fuel' & -> & Hf').
  { rewrite length_app in Hf. destruct d as [q t s x y]. destruct Hd as (_ & _ & _ & _ & Hlt).
    destruct (text_split t s x y Hlt) as (h & b & Ht & Hh & _). unfold part_text in Hf. cbn [part_plain part_time part_log part_x part_y] in *.
    rewrite Ht, !length_app in Hf. unfold zlen in Hh. change (length marker) with 4%nat in Hf. lia. }
  rewrite IH by (done || (rewrite length_app in Hf; lia)). by rewrite <- app_assoc.
Qed.

Lemma ldecodefd2fd_run ps p :
  Forall good_part ps -> cstring p -> plain p -> zlen p < MAXLEN - 1 ->
  ldecodefd2fd (concat (List.map part_text ps) ++ p) = Ok (0, concat (List.map part_decoded ps) ++ 32 :: p).
Proof.
  intros Hps Hp Hpl Hl. unfold ldecodefd2fd.
  replace (memset 0 (MAXLEN * 2)) with (buffer []) by (unfold buffer; cbn [app]; change (zlen []) with 0; by rewrite Z.sub_0_r).
  rewrite fd_parts by (done || lia). done.
Qed.
