(* ===== verification/BasDes.v ===== *)
(** * DES and base 64 ([bas_encString.c]): definitions

    Two-key triple DES over arrays of bits, one bit per [char], and the base-64
    text of the result.  A local array is written before it is read; it starts
    as zeros here.  [memcpy] between overlapping parts of an array is taken as
    [memmove].  [malloc] succeeds. *)

From S2P Require Import Prelude LibC Buffers.

(** ** The tables *)

Definition IP : list Z :=
  [57; 49; 41; 33; 25; 17; 9; 1; 59; 51; 43; 35; 27; 19; 11; 3;
   61; 53; 45; 37; 29; 21; 13; 5; 63; 55; 47; 39; 31; 23; 15; 7;
   56; 48; 40; 32; 24; 16; 8; 0; 58; 50; 42; 34; 26; 18; 10; 2;
   60; 52; 44; 36; 28; 20; 12; 4; 62; 54; 46; 38; 30; 22; 14; 6].

Definition IP_1 : list Z :=
  [39; 7; 47; 15; 55; 23; 63; 31; 38; 6; 46; 14; 54; 22; 62; 30;
   37; 5; 45; 13; 53; 21; 61; 29; 36; 4; 44; 12; 52; 20; 60; 28;
   35; 3; 43; 11; 51; 19; 59; 27; 34; 2; 42; 10; 50; 18; 58; 26;
   33; 1; 41; 9; 49; 17; 57; 25; 32; 0; 40; 8; 48; 16; 56; 24].

Definition E_table : list Z :=
  [31; 0; 1; 2; 3; 4; 3; 4; 5; 6; 7; 8; 7; 8; 9; 10;
   11; 12; 11; 12; 13; 14; 15; 16; 15; 16; 17; 18; 19; 20; 19; 20;
   21; 22; 23; 24; 23; 24; 25; 26; 27; 28; 27; 28; 29; 30; 31; 0].

Definition P_table : list Z :=
  [15; 6; 19; 20; 28; 11; 27; 16; 0; 14; 22; 25; 4; 17; 30; 9;
   1; 7; 23; 13; 31; 26; 2; 8; 18; 12; 29; 5; 21; 10; 3; 24].

Definition PC_1 : list Z :=
  [56; 48; 40; 32; 24; 16; 8; 0; 57; 49; 41; 33; 25; 17; 9; 1;
   58; 50; 42; 34; 26; 18; 10; 2; 59; 51; 43; 35; 62; 54; 46; 38;
   30; 22; 14; 6; 61; 53; 45; 37; 29; 21; 13; 5; 60; 52; 44; 36;
   28; 20; 12; 4; 27; 19; 11; 3].

Definition PC_2 : list Z :=
  [13; 16; 10; 23; 0; 4; 2; 27; 14; 5; 20; 9; 22; 18; 11; 3;
   25; 7; 15; 6; 26; 19; 12; 1; 40; 51; 30; 36; 46; 54; 29; 39;
   50; 44; 32; 46; 43; 48; 38; 55; 33; 52; 45; 41; 49; 35; 28; 31].

Definition LS : list Z :=
  [1; 1; 2; 2; 2; 2; 2; 2; 1; 2; 2; 2; 2; 2; 2; 1].

(** [S[8][4][16]]. *)
Definition S_boxes : list (list (list Z)) :=
  [[[14; 4; 13; 1; 2; 15; 11; 8; 3; 10; 6; 12; 5; 9; 0; 7];
    [0; 15; 7; 4; 14; 2; 13; 1; 10; 6; 12; 11; 9; 5; 3; 8];
    [4; 1; 14; 8; 13; 6; 2; 11; 15; 12; 9; 7; 3; 10; 5; 0];
    [15; 12; 8; 2; 4; 9; 1; 7; 5; 11; 3; 14; 10; 0; 6; 13]];
   [[15; 1; 8; 14; 6; 11; 3; 4; 9; 7; 2; 13; 12; 0; 5; 10];
    [3; 13; 4; 7; 15; 2; 8; 14; 12; 0; 1; 10; 6; 9; 11; 5];
    [0; 14; 7; 11; 10; 4; 13; 1; 5; 8; 12; 6; 9; 3; 2; 15];
    [13; 8; 10; 1; 3; 15; 4; 2; 11; 6; 7; 12; 0; 5; 14; 9]];
   [[10; 0; 9; 14; 6; 3; 15; 5; 1; 13; 12; 7; 11; 4; 2; 8];
    [13; 7; 0; 9; 3; 4; 6; 10; 2; 8; 5; 14; 12; 11; 15; 1];
    [13; 6; 4; 9; 8; 15; 3; 0; 11; 1; 2; 12; 5; 10; 14; 7];
    [1; 10; 13; 0; 6; 9; 8; 7; 4; 15; 14; 3; 11; 5; 2; 12]];
   [[7; 13; 14; 3; 0; 6; 9; 10; 1; 2; 8; 5; 11; 12; 4; 15];
    [13; 8; 11; 5; 6; 15; 0; 3; 4; 7; 2; 12; 1; 10; 14; 9];
    [10; 6; 9; 0; 12; 11; 7; 13; 15; 1; 3; 14; 5; 2; 8; 4];
    [3; 15; 0; 6; 10; 1; 13; 8; 9; 4; 5; 11; 12; 7; 2; 14]];
   [[2; 12; 4; 1; 7; 10; 11; 6; 8; 5; 3; 15; 13; 0; 14; 9];
    [14; 11; 2; 12; 4; 7; 13; 1; 5; 0; 15; 10; 3; 9; 8; 6];
    [4; 2; 1; 11; 10; 13; 7; 8; 15; 9; 12; 5; 6; 3; 0; 14];
    [11; 8; 12; 7; 1; 14; 2; 13; 6; 15; 0; 9; 10; 4; 5; 3]];
   [[12; 1; 10; 15; 9; 2; 6; 8; 0; 13; 3; 4; 14; 7; 5; 11];
    [10; 15; 4; 2; 7; 12; 9; 5; 6; 1; 13; 14; 0; 11; 3; 8];
    [9; 14; 15; 5; 2; 8; 12; 3; 7; 0; 4; 10; 1; 13; 11; 6];
    [4; 3; 2; 12; 9; 5; 15; 10; 11; 14; 1; 7; 6; 0; 8; 13]];
   [[4; 11; 2; 14; 15; 0; 8; 13; 3; 12; 9; 7; 5; 10; 6; 1];
    [13; 0; 11; 7; 4; 9; 1; 10; 14; 3; 5; 12; 2; 15; 8; 6];
    [1; 4; 11; 13; 12; 3; 7; 14; 10; 15; 6; 8; 0; 5; 9; 2];
    [6; 11; 13; 8; 1; 4; 10; 7; 9; 5; 0; 15; 14; 2; 3; 12]];
   [[13; 2; 8; 4; 6; 15; 11; 1; 10; 9; 3; 14; 5; 0; 12; 7];
    [1; 15; 13; 8; 10; 3; 7; 4; 12; 5; 6; 11; 0; 14; 9; 2];
    [7; 11; 4; 1; 9; 12; 14; 2; 0; 6; 10; 13; 15; 3; 5; 8];
    [2; 1; 14; 7; 4; 10; 8; 13; 15; 12; 9; 0; 3; 5; 6; 11]]].

(** [char base[]], with its NUL. *)
Definition base : bytes := lit "ABCDEFGHIJKLMNOPQRSTUVWXYZabcdefghijklmnopqrstuvwxyz0123456789+/=" ++ [0].

(** ** Bits *)

(** [bit] is the array from offset [b] on. *)
Definition ByteToBit (ch : Z) (bit : bytes) (b : Z) : outcome bytes :=
  for_loop 8 0 1 (λ i bit,
    bit ← zset bit (b + 7 - i) (Z.land (Z.shiftr (schar ch) i) 1); Ok (bit, true)) bit.

Definition BitToByte (bit : bytes) (b : Z) (ch : Z) : outcome Z :=
  for_loop 8 0 1 (λ i ch,
    x ← zget bit (b + 7 - i); Ok (u8 (Z.lor (schar ch) (Z.shiftl (schar x) i)), true)) ch.

Definition Ch8ToBit64 (ch bit : bytes) : outcome bytes :=
  for_loop 8 0 1 (λ i bit,
    c ← zget ch i; bit ← ByteToBit c bit (Z.shiftl i 3); Ok (bit, true)) bit.

Definition Bit64ToCh8 (bit ch : bytes) : outcome bytes :=
  ch ← poke ch 0 (memset 0 8);
  for_loop 8 0 1 (λ i ch,
    c ← zget ch i; c ← BitToByte bit (Z.shiftl i 3) c; ch ← zset ch i c; Ok (ch, true)) ch.

(** [for(i = 0;i < n;i++) temp[i] = data[table[i]];] *)
Definition select (table : list Z) (n : nat) (data temp : bytes) : outcome bytes :=
  for_loop n 0 1 (λ i temp,
    j ← zget table i; c ← zget data j; temp ← zset temp i c; Ok (temp, true)) temp.

(** ** The key schedule *)

Definition DES_PC1 (key temp : bytes) : outcome bytes := select PC_1 56 key temp.
Definition DES_PC2 (key temp : bytes) : outcome bytes := select PC_2 48 key temp.

(** [memcpy(dst + d, src + s, n)]. *)
Definition copy (dst : bytes) (d : Z) (src : bytes) (s n : Z) : outcome bytes :=
  b ← peek src s n; poke dst d b.

Definition DES_ROL (data : bytes) (count : Z) : outcome bytes :=
  let temp := memset 0 56 in
  temp ← copy temp 0 data 0 count;
  temp ← copy temp count data 28 count;
  data ← copy data 0 data count (28 - count);
  data ← copy data (28 - count) temp 0 count;
  data ← copy data 28 data (28 + count) (28 - count);
  copy data (56 - count) temp count count.

(** The rotated key and the subkeys made so far. *)
Definition DES_SubKey (key : bytes) : outcome (list bytes) :=
  temp ← DES_PC1 key (memset 0 56);
  r ← for_loop 16 0 1 (λ i '(temp, subKey),
    n ← zget LS i;
    temp ← DES_ROL temp n;
    k ← DES_PC2 temp (memset 0 48);
    Ok ((temp, subKey ++ [k]), true)) (temp, []);
  Ok r.2.

(** ** One block *)

Definition DES_IP (data : bytes) : outcome bytes := temp ← select IP 64 data (memset 0 64); poke data 0 temp.
Definition DES_IP_1 (data : bytes) : outcome bytes := temp ← select IP_1 64 data (memset 0 64); poke data 0 temp.
Definition DES_E (data : bytes) : outcome bytes := temp ← select E_table 48 data (memset 0 48); poke data 0 temp.
Definition DES_P (data : bytes) : outcome bytes := temp ← select P_table 32 data (memset 0 32); poke data 0 temp.

Definition DES_XOR (right left : bytes) (count : nat) : outcome bytes :=
  for_loop count 0 1 (λ i right,
    a ← zget right i; b ← zget left i;
    right ← zset right i (u8 (Z.lxor (schar a) (schar b))); Ok (right, true)) right.

Definition DES_SBOX (data : bytes) : outcome bytes :=
  for_loop 8 0 1 (λ i data,
    let j := i * 6 in
    let k := Z.shiftl i 2 in
    a ← zget data j; f ← zget data (j + 5);
    let row := Z.shiftl a 1 + f in
    b ← zget data (j + 1); c ← zget data (j + 2); d ← zget data (j + 3); e ← zget data (j + 4);
    let column := Z.shiftl b 3 + Z.shiftl c 2 + Z.shiftl d 1 + e in
    box ← zget S_boxes i; line ← zget box row; output ← zget line column;
    data ← zset data (k + 0) (Z.shiftr (Z.land output 8) 3);
    data ← zset data (k + 1) (Z.shiftr (Z.land output 4) 2);
    data ← zset data (k + 2) (Z.shiftr (Z.land output 2) 1);
    data ← zset data (k + 3) (Z.shiftr (Z.land output 1) 0);
    Ok (data, true)) data.

(** [DES_Switch(bits, bits + 32)]. *)
Definition DES_Switch (bits : bytes) : outcome bytes :=
  temp ← peek bits 0 32;
  bits ← copy bits 0 bits 32 32;
  poke bits 32 temp.

(** The bits of the right half mixed with a subkey: what is added to the left
    half. *)
Definition des_mix (subKey : list bytes) (i : Z) (bits : bytes) : outcome bytes :=
  copyRight ← copy (memset 0 48) 0 bits 32 32;
  copyRight ← DES_E copyRight;
  k ← zget subKey i;
  copyRight ← DES_XOR copyRight k 48;
  copyRight ← DES_SBOX copyRight;
  DES_P copyRight.

(** One round with the subkey [i]; [last] is the round after which the halves
    are swapped once more. *)
Definition des_round (subKey : list bytes) (last i : Z) (bits : bytes) : outcome bytes :=
  copyRight ← des_mix subKey i bits;
  bits ← DES_XOR bits copyRight 32;
  bits ← DES_Switch bits;
  if i =? last then DES_Switch bits else Ok bits.

Definition DES_EncryptBlock (plainBlock : bytes) (subKey : list bytes) (cipherBlock : bytes) : outcome bytes :=
  plainBits ← Ch8ToBit64 plainBlock (memset 0 64);
  plainBits ← DES_IP plainBits;
  plainBits ← for_loop 16 0 1 (λ i bits, bits ← des_round subKey 15 i bits; Ok (bits, true)) plainBits;
  plainBits ← DES_IP_1 plainBits;
  Bit64ToCh8 plainBits cipherBlock.

Definition DES_DecryptBlock (cipherBlock : bytes) (subKey : list bytes) (plainBlock : bytes) : outcome bytes :=
  cipherBits ← Ch8ToBit64 cipherBlock (memset 0 64);
  cipherBits ← DES_IP cipherBits;
  cipherBits ← for_loop 16 15 (-1) (λ i bits, bits ← des_round subKey 0 i bits; Ok (bits, true)) cipherBits;
  cipherBits ← DES_IP_1 cipherBits;
  Bit64ToCh8 cipherBits plainBlock.

(** ** Strings *)

(** Encryption with the left key, decryption with the right one, encryption
    with the left one; and back. *)
Definition encrypt3 (subLKey subRKey : list bytes) (plainBlock : bytes) : outcome bytes :=
  cipherBlock ← DES_EncryptBlock plainBlock subLKey (memset 0 8);
  tmpBlock ← DES_DecryptBlock cipherBlock subRKey (memset 0 8);
  DES_EncryptBlock tmpBlock subLKey cipherBlock.

Definition decrypt3 (subLKey subRKey : list bytes) (cipherBlock : bytes) : outcome bytes :=
  plainBlock ← DES_DecryptBlock cipherBlock subLKey (memset 0 8);
  tmpBlock ← DES_EncryptBlock plainBlock subRKey (memset 0 8);
  DES_DecryptBlock tmpBlock subLKey plainBlock.

(** The two key schedules of the 16-byte key. *)
Definition string_keys (keyStr : bytes) : outcome (list bytes * list bytes) :=
  keyLBlock ← peek keyStr 0 8;
  keyRBlock ← peek keyStr 8 8;
  bitLKey ← Ch8ToBit64 keyLBlock (memset 0 64);
  bitRKey ← Ch8ToBit64 keyRBlock (memset 0 64);
  subLKey ← DES_SubKey bitLKey;
  subRKey ← DES_SubKey bitRKey;
  Ok (subLKey, subRKey).

(** [for (l=0; l < iBlock; l++)]: the eight bytes at [8 * count]. *)
Definition block_loop (f : bytes -> outcome bytes) (iBlock : Z) (caInString caOutString : bytes) : outcome bytes :=
  for_loop (Z.to_nat iBlock) 0 1 (λ count caOutString,
    block ← peek caInString (8 * count) 8;
    block ← f block;
    caOutString ← poke caOutString (8 * count) block;
    Ok (caOutString, true)) caOutString.

(** The result of both is 0. *)
Definition DES_Encrypt (caInString keyStr caOutString : bytes) : outcome bytes :=
  keys ← string_keys keyStr;
  let '(subLKey, subRKey) := keys in
  len ← strlen caInString;
  let iBlock := Z.quot len 8 in
  let iOdd := Z.rem len 8 in
  caOutString ← block_loop (encrypt3 subLKey subRKey) iBlock caInString caOutString;
  if negb (iOdd =? 0) then
    plainBlock ← peek caInString (8 * iBlock) 8;
    plainBlock ← poke plainBlock iOdd (memset 0 (8 - iOdd));
    cipherBlock ← encrypt3 subLKey subRKey plainBlock;
    poke caOutString (8 * iBlock) cipherBlock
  else Ok caOutString.

Definition DES_Decrypt (caInString keyStr caOutString : bytes) : outcome bytes :=
  keys ← string_keys keyStr;
  let '(subLKey, subRKey) := keys in
  len ← strlen caInString;
  let iBlock := Z.quot len 8 in
  let iOdd := Z.rem len 8 in
  caOutString ← block_loop (decrypt3 subLKey subRKey) iBlock caInString caOutString;
  if negb (iOdd =? 0) then
    cipherBlock ← peek caInString (8 * iBlock) 8;
    plainBlock ← decrypt3 subLKey subRKey cipherBlock;
    poke caOutString (8 * iBlock) plainBlock
  else Ok caOutString.

Definition IsSpace (pcaBuf : bytes) (iLen : Z) : outcome Z :=
  n ← strlen pcaBuf;
  if n =? 0 then Ok 1
  else
    let iLen := if n <? iLen then n else iLen in
    for_loop (Z.to_nat iLen) 0 1 (λ i r,
      c ← zget pcaBuf i; if negb (c =? 32) then Ok (0, false) else Ok (r, true)) 1.

(** ** Base 64 *)

(** [while (temp < 3)]: the bytes of one group, [tmp] counts the input. *)
Fixpoint gather (fuel : nat) (data : bytes) (data_len tmp temp prepare : Z) : outcome (Z * Z * Z) :=
  match fuel with
  | O => Ok (tmp, temp, prepare)
  | S fuel =>
      if data_len <=? tmp then Ok (tmp, temp, prepare)
      else
        c ← zget data tmp;
        gather fuel data data_len (tmp + 1) (temp + 1) (Z.lor (Z.shiftl prepare 8) (Z.land (schar c) 255))
  end.

(** [for (i = 0; i < 4 ;i++ )] writes the four characters of a group at [f]. *)
Definition write_chars (temp prepare : Z) (ret : bytes) (f : Z) : outcome bytes :=
  for_loop 4 0 1 (λ i ret,
    let changed := if temp <? i then 64 else Z.land (Z.shiftr prepare ((3 - i) * 6)) 63 in
    c ← zget base changed; ret ← zset ret (f + i) c; Ok (ret, true)) ret.

(** The outer loop; a round consumes at least one byte. *)
Fixpoint encode_loop (fuel : nat) (data : bytes) (data_len tmp : Z) (ret : bytes) (f : Z) : outcome (bytes * Z) :=
  if tmp <? data_len then
    match fuel with
    | O => NoFuel
    | S fuel =>
        g ← gather 3 data data_len tmp 0 0;
        let '(tmp, temp, prepare) := g in
        let prepare := Z.shiftl prepare ((3 - temp) * 8) in
        ret ← write_chars temp prepare ret f;
        encode_loop fuel data data_len tmp ret (f + 4)
    end
  else Ok (ret, f).

Definition base64_encode (data : bytes) (data_len : Z) : outcome bytes :=
  let ret_len := Z.quot data_len 3 in
  let temp := Z.rem data_len 3 in
  let ret_len := if 0 <? temp then ret_len + 1 else ret_len in
  let ret_len := ret_len * 4 + 1 in
  r ← encode_loop (Z.to_nat data_len) data data_len 0 (memset 0 ret_len) 0;
  zset r.1 r.2 0.

(** [strrchr(base, ch) - base]: a character that is not there gives NULL. *)
Fixpoint last_index (ch : Z) (s : bytes) (i : Z) (found : option Z) : option Z :=
  match s with
  | [] => found
  | c :: s => last_index ch s (i + 1) (if c =? ch then Some i else found)
  end.

Definition find_pos (ch : Z) : outcome Z := or_fault (last_index ch base 0 None).

(** [while (temp < 4)]. *)
Fixpoint gather_chars (fuel : nat) (data : bytes) (stop tmp temp prepare : Z) : outcome (Z * Z * Z) :=
  match fuel with
  | O => Ok (tmp, temp, prepare)
  | S fuel =>
      if stop <=? tmp then Ok (tmp, temp, prepare)
      else
        c ← zget data tmp; p ← find_pos c;
        gather_chars fuel data stop (tmp + 1) (temp + 1) (Z.lor (Z.shiftl prepare 6) p)
  end.

(** [for (i=0; i<3 ;i++ )]: the bytes of a group, and how far [f] moved. *)
Definition write_bytes (temp prepare : Z) (ret : bytes) (f : Z) : outcome (bytes * Z) :=
  for_loop 3 0 1 (λ i '(ret, f),
    if i =? temp then Ok ((ret, f), false)
    else ret ← zset ret f (Z.land (Z.shiftr prepare ((2 - i) * 8)) 255); Ok ((ret, f + 1), true)) (ret, f).

(** [need] is the array [char need[3]]: every round clears four bytes there. *)
Fixpoint decode_loop (fuel : nat) (need data : bytes) (stop tmp : Z) (ret : bytes) (f : Z) : outcome (bytes * Z) :=
  if tmp <? stop then
    match fuel with
    | O => NoFuel
    | S fuel =>
        need ← poke need 0 (memset 0 4);
        g ← gather_chars 4 data stop tmp 0 0;
        let '(tmp, temp, prepare) := g in
        let prepare := s32 (Z.shiftl prepare ((4 - temp) * 6)) in
        r ← write_bytes temp prepare ret f;
        decode_loop fuel need data stop tmp r.1 r.2
    end
  else Ok (ret, f).

(** [char need[3]] is not initialised and never read: its contents do not
    matter, only its three bytes. *)
Definition need_array : bytes := memset 0 3.

Definition base64_decode (data : bytes) (data_len : Z) : outcome bytes :=
  let ret_len := Z.quot data_len 4 * 3 in
  a ← zget data (data_len - 1); b ← zget data (data_len - 2); c ← zget data (data_len - 3);
  let equal c := if c =? 61 then 1 else 0 in
  let equal_count := equal a + equal b + equal c in
  let ret_len := ret_len + match equal_count with 0 => 4 | 1 => 4 | 2 => 3 | _ => 2 end in
  r ← decode_loop (Z.to_nat data_len) need_array data (data_len - equal_count) 0 (memset 0 ret_len) 0;
  zset r.1 r.2 0.

(** ** The entry point *)

Definition ENCSTRING_FLAG_YES : Z := 1.
Definition ENCSTRING_FLAG_NO : Z := 0.

(** [DBKEY] is what [getenv("DBKEY")] gives.  The result: the code and
    [caOutString]. *)
Definition basEncString (DBKEY : option bytes) (caInString caOutString : bytes) (iFlag : Z) : outcome (Z * bytes) :=
  match DBKEY with
  | None => Fault
  | Some DBKEY =>
      n ← strlen DBKEY;
      if n =? 0 then Ok (-1, caOutString)
      else
        key ← base64_decode DBKEY n;
        caKey ← sprintf_to (memset 0 17) (pad_left 16 32 (take 16 (content key)));
        blank ← IsSpace caKey 16;
        if negb (blank =? 0) then Ok (-1, caOutString)
        else if iFlag =? ENCSTRING_FLAG_YES then
          caOutString ← DES_Encrypt caInString caKey caOutString;
          len ← strlen caOutString;
          enc ← base64_encode caOutString len;
          caOutString ← copy caOutString 0 enc 0 8;
          Ok (0, caOutString)
        else
          len ← strlen caInString;
          dec ← base64_decode caInString len;
          caOutString ← DES_Decrypt dec caKey caOutString;
          Ok (0, caOutString)
  end.
