(* ===== verification/BasDesFacts.v ===== *)
(** * DES ([bas_encString.c]): what it computes

    The routines on arrays of bits are total and keep the bits, every block
    has one cipher block per key schedule and the other way round, and a
    string of blocks goes there and back. *)

From S2P Require Import Prelude LibC Buffers BasDes BasCodecFacts BasLogFacts.

(** ** Arrays of bits *)

Definition bit (b : Z) : Prop := b = 0 \/ b = 1.
Definition bits (n : nat) (l : bytes) : Prop := length l = n /\ Forall bit l.

Lemma zget_at {A} (p x q : list A) (k : nat) c i :
  i = zlen p + Z.of_nat k -> x !! k = Some c -> zget (p ++ x ++ q) i = Ok c.
Proof.
  intros -> Hk. apply zget_Ok. split; [pose proof (zlen_nonneg p); lia|].
  rewrite lookup_app_r by zlen_lia. rewrite lookup_app_l.
  - replace (Z.to_nat (zlen p + Z.of_nat k) - length p)%nat with k by zlen_lia. done.
  - apply lookup_lt_Some in Hk. zlen_lia.
Qed.

Lemma zset_at {A} (p x q : list A) (k : nat) c i :
  i = zlen p + Z.of_nat k -> (k < length x)%nat -> zset (p ++ x ++ q) i c = Ok (p ++ <[k := c]> x ++ q).
Proof.
  intros -> Hk. rewrite zset_in_range by (pose proof (zlen_nonneg p); pose proof (zlen_nonneg q); zlen_lia).
  f_equal. replace (Z.to_nat (zlen p + Z.of_nat k)) with (length p + k)%nat by zlen_lia.
  by rewrite insert_app_r, insert_app_l.
Qed.

(** The read or write at position [k] of the middle part. *)
Ltac get_at p q k :=
  match goal with |- context [zget (p ++ ?x ++ q) ?i] =>
    let E := fresh in assert (i = zlen p + Z.of_nat k) as E by (simpl; lia);
    rewrite (zget_at p x q k _ i E eq_refl); clear E
  end.
Ltac set_at p q k :=
  match goal with |- context [zset (p ++ ?x ++ q) ?i _] =>
    let E := fresh in assert (i = zlen p + Z.of_nat k) as E by (simpl; lia);
    rewrite (zset_at p x q k _ i E) by (simpl; lia); clear E
  end.

(** ** Bytes and their bits *)

Definition byte_bit (ch i : Z) : Z := Z.land (Z.shiftr (schar ch) i) 1.
Definition byte_bits (ch : Z) : bytes :=
  [byte_bit ch 7; byte_bit ch 6; byte_bit ch 5; byte_bit ch 4; byte_bit ch 3; byte_bit ch 2; byte_bit ch 1; byte_bit ch 0].

Lemma byte_bit_bit ch i : bit (byte_bit ch i).
Proof.
  unfold byte_bit, bit. pose proof (Z.land_ones (Z.shiftr (schar ch) i) 1 ltac:(lia)) as H.
  change (Z.ones 1) with 1 in H. rewrite H. change (2 ^ 1) with 2.
  pose proof (Z.mod_pos_bound (Z.shiftr (schar ch) i) 2 ltac:(lia)). lia.
Qed.

Lemma byte_bits_bits ch : bits 8 (byte_bits ch).
Proof. split; [done|]. unfold byte_bits. repeat (constructor; [apply byte_bit_bit|]). constructor. Qed.

Lemma ByteToBit_run p x q ch :
  length x = 8%nat -> ByteToBit ch (p ++ x ++ q) (zlen p) = Ok (p ++ byte_bits ch ++ q).
Proof.
  intros Hx. destruct x as [|x0 [|x1 [|x2 [|x3 [|x4 [|x5 [|x6 [|x7 [|x8 x]]]]]]]]]; try done.
  unfold ByteToBit. cbn [for_loop].
  set_at p q 7%nat. cbn [mbind outcome_bind snd fst].
  set_at p q 6%nat. cbn [mbind outcome_bind snd fst].
  set_at p q 5%nat. cbn [mbind outcome_bind snd fst].
  set_at p q 4%nat. cbn [mbind outcome_bind snd fst].
  set_at p q 3%nat. cbn [mbind outcome_bind snd fst].
  set_at p q 2%nat. cbn [mbind outcome_bind snd fst].
  set_at p q 1%nat. cbn [mbind outcome_bind snd fst].
  set_at p q 0%nat. reflexivity.
Qed.

(** The byte of eight bits. *)
Definition bits_byte (l : bytes) : Z := List.fold_left (λ v b, 2 * v + b) l 0.

Lemma BitToByte_run p x q : bits 8 x -> BitToByte (p ++ x ++ q) (zlen p) 0 = Ok (bits_byte x).
Proof.
  intros Hx. destruct x as [|x0 [|x1 [|x2 [|x3 [|x4 [|x5 [|x6 [|x7 [|x8 x]]]]]]]]]; try (by destruct Hx).
  unfold BitToByte. cbn [for_loop].
  get_at p q 7%nat. cbn [mbind outcome_bind snd fst].
  get_at p q 6%nat. cbn [mbind outcome_bind snd fst].
  get_at p q 5%nat. cbn [mbind outcome_bind snd fst].
  get_at p q 4%nat. cbn [mbind outcome_bind snd fst].
  get_at p q 3%nat. cbn [mbind outcome_bind snd fst].
  get_at p q 2%nat. cbn [mbind outcome_bind snd fst].
  get_at p q 1%nat. cbn [mbind outcome_bind snd fst].
  get_at p q 0%nat. cbn [mbind outcome_bind snd fst].
  f_equal. destruct Hx as [_ Hx].
  repeat match goal with H : Forall bit (_ :: _) |- _ => inversion H; clear H; subst end.
  repeat match goal with H : bit _ |- _ => destruct H; subst end; reflexivity.
Qed.

Lemma bits_byte_bits x : bits 8 x -> byte_bits (bits_byte x) = x /\ byte (bits_byte x).
Proof.
  intros Hx. destruct x as [|x0 [|x1 [|x2 [|x3 [|x4 [|x5 [|x6 [|x7 [|x8 x]]]]]]]]]; try (by destruct Hx).
  destruct Hx as [_ Hx].
  repeat match goal with H : Forall bit (_ :: _) |- _ => inversion H; clear H; subst end.
  repeat match goal with H : bit _ |- _ => destruct H; subst end; (split; [reflexivity|vm_compute; split; congruence]).
Qed.

Lemma byte_bits_byte : forall ch, byte ch -> bits_byte (byte_bits ch) = ch.
Proof. by_enumeration 256. Qed.

(** ** Blocks of eight bytes and their 64 bits *)

Definition block (c : bytes) : Prop := length c = 8%nat /\ Forall byte c.

Fixpoint block_bits (c : bytes) : bytes :=
  match c with [] => [] | x :: c => byte_bits x ++ block_bits c end.

Lemma block_bits_length c : length (block_bits c) = (8 * length c)%nat.
Proof. induction c as [|x c IH]; [done|]. cbn [block_bits]. rewrite length_app, IH. simpl. lia. Qed.

Lemma block_bits_bits c : Forall bit (block_bits c).
Proof. induction c as [|x c IH]; [constructor|]. cbn [block_bits]. apply Forall_app. split; [apply byte_bits_bits|done]. Qed.

Lemma block_64 c : block c -> bits 64 (block_bits c).
Proof. intros [Hl _]. split; [by rewrite block_bits_length, Hl|apply block_bits_bits]. Qed.

Lemma Ch8_loop_run c : forall i a p o,
  i = zlen a -> zlen p = 8 * zlen a -> length o = (8 * length c)%nat ->
  for_loop (length c) i 1 (λ i bit, x ← zget (a ++ c) i; bit ← ByteToBit x bit (Z.shiftl i 3); Ok (bit, true)) (p ++ o) =
  Ok (p ++ block_bits c).
Proof.
  induction c as [|x c IH]; intros i a p o -> Hp Ho; [by destruct o|].
  cbn [length for_loop]. rewrite zget_middle by done. cbn [mbind outcome_bind].
  rewrite Z.shiftl_mul_pow2 by lia. replace (zlen a * 2 ^ 3) with (zlen p) by lia.
  destruct (split_at o 8) as (o1 & o2 & -> & Ho1); [simpl in Ho; lia|].
  rewrite ByteToBit_run by done. cbn [mbind outcome_bind fst snd]. rewrite app_assoc, (cons_middle x a), (app_assoc a).
  rewrite IH; [by rewrite <- app_assoc|zlen_lia| |rewrite length_app in Ho; simpl in Ho; lia].
  rewrite !zlen_app, Hp. change (zlen (byte_bits x)) with 8. change (zlen [x]) with 1. lia.
Qed.

Lemma Ch8ToBit64_run c o : block c -> length o = 64%nat -> Ch8ToBit64 c o = Ok (block_bits c).
Proof.
  intros [Hc _] Ho. pose proof (Ch8_loop_run c 0 [] [] o eq_refl eq_refl) as H. rewrite Hc in H. cbn [app] in H. by apply H.
Qed.

Lemma Bit64_loop_run c : forall i a b p o,
  Forall byte c -> i = zlen p -> zlen a = 8 * zlen p -> o = replicate (length c) 0 ->
  for_loop (length c) i 1 (λ i ch, x ← zget ch i; x ← BitToByte (a ++ block_bits c ++ b) (Z.shiftl i 3) x; ch ← zset ch i x; Ok (ch, true)) (p ++ o) =
  Ok (p ++ c).
Proof.
  induction c as [|x c IH]; intros i a b p o Hc -> Ha ->; [done|].
  inversion_clear Hc as [|? ? Hx Hc']. cbn [length for_loop replicate block_bits]. rewrite zget_middle by done. cbn [mbind outcome_bind].
  rewrite Z.shiftl_mul_pow2 by lia. replace (zlen p * 2 ^ 3) with (zlen a) by lia.
  rewrite <- app_assoc, BitToByte_run by apply byte_bits_bits. cbn [mbind outcome_bind].
  rewrite zset_middle, byte_bits_byte by done. cbn [mbind outcome_bind fst snd].
  rewrite (app_assoc a), (cons_middle x p), (app_assoc p).
  rewrite IH; [by rewrite <- app_assoc|done|zlen_lia| |done].
  rewrite !zlen_app, Ha. change (zlen (byte_bits x)) with 8. change (zlen [x]) with 1. lia.
Qed.

Lemma Bit64ToCh8_run c o : block c -> length o = 8%nat -> Bit64ToCh8 (block_bits c) o = Ok c.
Proof.
  intros [Hc Hb] Ho. unfold Bit64ToCh8. rewrite <- (app_nil_r o), poke_prefix by (unfold zlen; rewrite Ho; done).
  cbn [mbind outcome_bind]. rewrite app_nil_r.
  pose proof (Bit64_loop_run c 0 [] [] [] (memset 0 8) Hb eq_refl eq_refl) as H. rewrite Hc in H. cbn [app] in H.
  rewrite app_nil_r in H. by apply H.
Qed.

(** Every array of bits is the bits of a byte string. *)
Lemma block_bits_surj n : forall l, bits (8 * n) l -> exists c, block_bits c = l /\ length c = n /\ Forall byte c.
Proof.
  induction n as [|n IH]; intros l [Hl Hb].
  { destruct l; [|done]. by exists []. }
  destruct (split_at l 8) as (x & r & -> & Hx); [lia|]. apply Forall_app in Hb as [Hbx Hbr].
  rewrite length_app in Hl. destruct (IH r) as (c & <- & Hc & Hcb); [split; [lia|done]|].
  destruct (bits_byte_bits x) as [E Eb]; [by split|].
  exists (bits_byte x :: c). cbn [block_bits length]. rewrite E. split_and!; [done|lia|by constructor].
Qed.

Lemma block_of_bits l : bits 64 l -> exists c, block_bits c = l /\ block c.
Proof. intros Hl. destruct (block_bits_surj 8 l Hl) as (c & H1 & H2 & H3). exists c. by split. Qed.

(** ** Selections *)

(** The bits a table picks. *)
Definition pick (data : bytes) (table : list Z) : bytes := List.map (λ j, nth (Z.to_nat j) data 0) table.

Lemma zget_nth (d : bytes) j : 0 <= j < zlen d -> zget d j = Ok (nth (Z.to_nat j) d 0).
Proof.
  intros Hj. apply zget_Ok. split; [lia|]. destruct (zget_in_range d j Hj) as [x Hx]. apply zget_Ok in Hx as [_ Hx].
  rewrite Hx. f_equal. symmetry. by apply nth_lookup_Some.
Qed.

Definition in_table (n : Z) (table : list Z) : bool := forallb (λ j, (0 <=? j) && (j <? n)) table.

Lemma select_loop_run data b : forall i a p o,
  in_table (zlen data) b = true -> i = zlen a -> length p = length a -> length o = length b ->
  for_loop (length b) i 1 (λ i temp, j ← zget (a ++ b) i; c ← zget data j; temp ← zset temp i c; Ok (temp, true)) (p ++ o) =
  Ok (p ++ pick data b).
Proof.
  induction b as [|j b IH]; intros i a p o Hb -> Hp Ho; [by destruct o|].
  cbn [in_table forallb] in Hb. apply andb_true_iff in Hb as [Hj Hb]. destruct o as [|y o]; [done|].
  cbn [length for_loop]. rewrite zget_middle by done. cbn [mbind outcome_bind].
  rewrite zget_nth by lia. cbn [mbind outcome_bind]. rewrite zset_middle by zlen_lia. cbn [mbind outcome_bind fst snd].
  rewrite (cons_middle j a), (cons_middle _ p), (app_assoc a), (app_assoc p).
  rewrite IH; [by rewrite <- app_assoc|done|zlen_lia|rewrite !length_app; simpl; lia|simpl in Ho; lia].
Qed.

Lemma select_run table n data o :
  in_table (zlen data) table = true -> length table = n -> length o = n -> select table n data o = Ok (pick data table).
Proof. intros Ht Hn Ho. subst n. apply (select_loop_run data table 0 [] [] o); done. Qed.

Lemma pick_bits data table : Forall bit data -> in_table (zlen data) table = true -> bits (length table) (pick data table).
Proof.
  intros Hd Ht. split; [apply length_map|]. unfold pick. apply Forall_fmap. apply Forall_forall. intros j Hj. simpl.
  unfold in_table in Ht. rewrite forallb_forall in Ht. specialize (Ht j ltac:(by apply list_elem_of_In)).
  destruct (zget_in_range data j ltac:(lia)) as [x Hx]. pose proof Hx as Hl. apply zget_Ok in Hl as [_ Hl].
  rewrite zget_nth in Hx by lia. injection Hx as ->. by apply (Forall_lookup_1 _ data (Z.to_nat j)).
Qed.

(** Selecting from a selection. *)
Lemma pick_pick data t1 t2 :
  in_table (zlen t1) t2 = true -> pick (pick data t1) t2 = pick data (List.map (λ j, nth (Z.to_nat j) t1 0) t2).
Proof.
  intros Ht. unfold pick. rewrite List.map_map. apply List.map_ext_in. intros j Hj.
  unfold in_table in Ht. rewrite forallb_forall in Ht. specialize (Ht j Hj).
  rewrite (nth_indep _ 0 (nth (Z.to_nat 0) data 0)) by (rewrite length_map; unfold zlen in Ht; lia).
  apply (List.map_nth (λ j, nth (Z.to_nat j) data 0)).
Qed.

Lemma pick_all data : pick data (seqZ 0 (zlen data)) = data.
Proof.
  apply list_eq. intros i. unfold pick. rewrite list_lookup_fmap.
  destruct (decide (i < length data)%nat) as [Hi|Hi].
  - rewrite lookup_seqZ_lt by zlen_lia. cbn [fmap option_fmap option_map].
    destruct (lookup_lt_is_Some_2 data i Hi) as [x Hx]. rewrite Hx. f_equal. rewrite Z.add_0_l, Nat2Z.id. by apply nth_lookup_Some.
  - rewrite lookup_seqZ_ge, lookup_ge_None_2 by zlen_lia. done.
Qed.

(** The final permutation undoes the initial one, and the other way round. *)
Lemma IP_inverse d : length d = 64%nat -> pick (pick d IP) IP_1 = d /\ pick (pick d IP_1) IP = d.
Proof.
  intros Hd. rewrite !pick_pick by reflexivity.
  assert (zlen d = 64) as E by (unfold zlen; lia).
  split; (replace (List.map _ _) with (seqZ 0 (zlen d)) by (rewrite E; reflexivity)); apply pick_all.
Qed.

Lemma DES_IP_run d : bits 64 d -> DES_IP d = Ok (pick d IP) /\ bits 64 (pick d IP).
Proof.
  intros [Hl Hb]. assert (in_table (zlen d) IP = true) as Ht by (unfold zlen; rewrite Hl; reflexivity).
  pose proof (pick_bits d IP Hb Ht) as Hp. split; [|exact Hp]. unfold DES_IP. rewrite select_run by done. cbn [mbind outcome_bind].
  rewrite <- (app_nil_r d) at 1. rewrite poke_prefix; [by rewrite app_nil_r|]. destruct Hp as [Hp _]. unfold zlen. by rewrite Hl, Hp.
Qed.

Lemma DES_IP_1_run d : bits 64 d -> DES_IP_1 d = Ok (pick d IP_1) /\ bits 64 (pick d IP_1).
Proof.
  intros [Hl Hb]. assert (in_table (zlen d) IP_1 = true) as Ht by (unfold zlen; rewrite Hl; reflexivity).
  pose proof (pick_bits d IP_1 Hb Ht) as Hp. split; [|exact Hp]. unfold DES_IP_1. rewrite select_run by done. cbn [mbind outcome_bind].
  rewrite <- (app_nil_r d) at 1. rewrite poke_prefix; [by rewrite app_nil_r|]. destruct Hp as [Hp _]. unfold zlen. by rewrite Hl, Hp.
Qed.

(** ** The other steps of a round *)

Definition xor_bits (a b : bytes) : bytes := zip_with Z.lxor a b.

Lemma xor_bit a b : bit a -> bit b -> u8 (Z.lxor (schar a) (schar b)) = Z.lxor a b /\ bit (Z.lxor a b).
Proof. intros [-> | ->] [-> | ->]; (split; [reflexivity|]); by (left + right). Qed.

Lemma XOR_loop_run x : forall i a b p r q,
  bits (length x) b -> Forall bit x -> i = zlen p -> i = zlen a ->
  for_loop (length x) i 1 (λ i right, u ← zget right i; v ← zget (a ++ b ++ r) i;
    right ← zset right i (u8 (Z.lxor (schar u) (schar v))); Ok (right, true)) (p ++ x ++ q) =
  Ok (p ++ xor_bits x b ++ q).
Proof.
  induction x as [|u x IH]; intros i a b p r q [Hb Hbb] Hx Hp Ha; [done|].
  destruct b as [|v b]; [done|]. inversion_clear Hbb as [|? ? Hv Hbb']. inversion_clear Hx as [|? ? Hu Hx'].
  cbn [length for_loop app]. rewrite zget_middle by done. cbn [mbind outcome_bind].
  rewrite zget_middle by done. cbn [mbind outcome_bind]. rewrite zset_middle by done. cbn [mbind outcome_bind fst snd].
  destruct (xor_bit u v Hu Hv) as [-> _]. rewrite (cons_middle _ p), (app_assoc p), (cons_middle v a), (app_assoc a).
  rewrite IH; [by rewrite <- app_assoc| |done|zlen_lia|zlen_lia]. split; [simpl in Hb; lia|done].
Qed.

Lemma xor_bits_bits n a b : bits n a -> bits n b -> bits n (xor_bits a b).
Proof.
  revert a b. induction n as [|n IH]; intros [|x a] [|y b] [Ha Hab] [Hb Hbb]; try done.
  inversion_clear Hab. inversion_clear Hbb. destruct (IH a b) as [Hl Hf]; [split; [simpl in *; lia|done]..|].
  split; [simpl; by rewrite Hl|]. constructor; [by apply xor_bit|done].
Qed.

Lemma xor_twice n a b : bits n a -> bits n b -> xor_bits (xor_bits a b) b = a.
Proof.
  revert a b. induction n as [|n IH]; intros [|x a] [|y b] [Ha Hab] [Hb Hbb]; try done.
  inversion_clear Hab as [|? ? Hx Ha']. inversion_clear Hbb as [|? ? Hy Hb']. unfold xor_bits in *. cbn [zip_with]. f_equal.
  - by destruct Hx as [-> | ->], Hy as [-> | ->].
  - apply IH; (split; [simpl in *; lia|done]).
Qed.

Lemma DES_Switch_run a b : length a = 32%nat -> length b = 32%nat -> DES_Switch (a ++ b) = Ok (b ++ a).
Proof.
  intros Ha Hb. unfold DES_Switch, copy. rewrite peek_prefix by (unfold zlen; rewrite Ha; done). cbn [mbind outcome_bind].
  rewrite <- (app_nil_r (a ++ b)), <- app_assoc, (peek_layout a b []) by (unfold zlen; rewrite ?Ha, ?Hb; done).
  cbn [mbind outcome_bind]. rewrite poke_prefix by (unfold zlen; rewrite Ha, Hb; done). cbn [mbind outcome_bind].
  rewrite (poke_layout b b []) by (unfold zlen; rewrite ?Ha, ?Hb; done). by rewrite app_nil_r.
Qed.

(** The substitution boxes hold numbers below 16. *)
Lemma box_output i r c :
  0 <= i < 8 -> 0 <= r < 4 -> 0 <= c < 16 ->
  exists box line o, zget S_boxes i = Ok box /\ zget box r = Ok line /\ zget line c = Ok o /\ 0 <= o < 16.
Proof.
  intros Hi Hr Hc.
  assert (match zget S_boxes i with Ok box => match zget box r with Ok line => match zget line c with
    Ok o => (0 <=? o) && (o <? 16) | _ => false end | _ => false end | _ => false end = true) as H.
  { revert c Hc. apply (below_forall _ 16). revert r Hr. apply (below_forall _ 4). revert i Hi. apply (below_forall _ 8).
    vm_compute. reflexivity. }
  destruct (zget S_boxes i) as [box| |]; try done. destruct (zget box r) as [line| |] eqn:E2; try done.
  destruct (zget line c) as [o| |] eqn:E3; try done. exists box, line, o. split_and!; try done; lia.
Qed.

Lemma output_bits : forall o, 0 <= o < 16 ->
  bit (Z.shiftr (Z.land o 8) 3) /\ bit (Z.shiftr (Z.land o 4) 2) /\ bit (Z.shiftr (Z.land o 2) 1) /\ bit (Z.shiftr (Z.land o 1) 0).
Proof.
  intros o Ho. assert (o = 0 \/ o = 1 \/ o = 2 \/ o = 3 \/ o = 4 \/ o = 5 \/ o = 6 \/ o = 7 \/ o = 8 \/ o = 9 \/
    o = 10 \/ o = 11 \/ o = 12 \/ o = 13 \/ o = 14 \/ o = 15) as H by lia.
  repeat destruct H as [-> | H]; [..|subst o]; unfold bit; repeat split; (left; reflexivity) || (right; reflexivity).
Qed.

Lemma zget_bit n l i : bits n l -> 0 <= i < Z.of_nat n -> exists b, zget l i = Ok b /\ bit b.
Proof.
  intros [Hl Hb] Hi. destruct (zget_in_range l i) as [b Hg]; [unfold zlen; lia|]. exists b. split; [done|].
  apply zget_Ok in Hg as [_ Hg]. by apply (Forall_lookup_1 _ _ _ _ Hb Hg).
Qed.

Lemma zset_bits n l i b : bits n l -> bit b -> 0 <= i < Z.of_nat n -> exists l', zset l i b = Ok l' /\ bits n l'.
Proof.
  intros [Hl Hb] Hbit Hi. rewrite zset_in_range by (unfold zlen; lia). eexists. split; [reflexivity|].
  split; [by rewrite length_insert|]. by apply Forall_insert.
Qed.

(** A counted loop whose body keeps an invariant ends, and keeps it. *)
Lemma for_loop_total {A} (Inv : A -> Prop) (body : Z -> A -> outcome (A * bool)) n : forall i,
  (forall j s, i <= j < i + Z.of_nat n -> Inv s -> exists s', body j s = Ok (s', true) /\ Inv s') ->
  forall s, Inv s -> exists s', for_loop n i 1 body s = Ok s' /\ Inv s'.
Proof.
  induction n as [|n IH]; intros i Hb s Hs; [by exists s|]. cbn [for_loop].
  destruct (Hb i s) as (s' & -> & Hs'); [lia|done|]. cbn [mbind outcome_bind fst snd].
  apply IH; [|done]. intros j t Hj. apply Hb. lia.
Qed.

Lemma DES_SBOX_run data : bits 48 data -> exists d, DES_SBOX data = Ok d /\ bits 48 d.
Proof.
  intros Hd. unfold DES_SBOX. apply (for_loop_total (bits 48)); [|done]. clear data Hd. intros i s Hi Hs.
  destruct (zget_bit 48 s (i * 6) Hs ltac:(lia)) as (a & -> & Ha).
  destruct (zget_bit 48 s (i * 6 + 5) Hs ltac:(lia)) as (f & -> & Hf).
  destruct (zget_bit 48 s (i * 6 + 1) Hs ltac:(lia)) as (b & -> & Hb).
  destruct (zget_bit 48 s (i * 6 + 2) Hs ltac:(lia)) as (c & -> & Hc).
  destruct (zget_bit 48 s (i * 6 + 3) Hs ltac:(lia)) as (d & -> & Hd).
  destruct (zget_bit 48 s (i * 6 + 4) Hs ltac:(lia)) as (e & -> & He).
  cbn [mbind outcome_bind]. rewrite !Z.shiftl_mul_pow2 by lia.
  destruct (box_output i (a * 2 ^ 1 + f) (b * 2 ^ 3 + c * 2 ^ 2 + d * 2 ^ 1 + e)) as (box & line & o & -> & E2 & E3 & Ho);
    [lia|unfold bit in *; lia|unfold bit in *; lia|].
  cbn [mbind outcome_bind]. rewrite E2. cbn [mbind outcome_bind]. rewrite E3. cbn [mbind outcome_bind].
  destruct (output_bits o Ho) as (H8 & H4 & H2 & H1).
  destruct (zset_bits 48 s (i * 2 ^ 2 + 0) _ Hs H8 ltac:(lia)) as (s1 & -> & Hs1). cbn [mbind outcome_bind].
  destruct (zset_bits 48 s1 (i * 2 ^ 2 + 1) _ Hs1 H4 ltac:(lia)) as (s2 & -> & Hs2). cbn [mbind outcome_bind].
  destruct (zset_bits 48 s2 (i * 2 ^ 2 + 2) _ Hs2 H2 ltac:(lia)) as (s3 & -> & Hs3). cbn [mbind outcome_bind].
  destruct (zset_bits 48 s3 (i * 2 ^ 2 + 3) _ Hs3 H1 ltac:(lia)) as (s4 & -> & Hs4). cbn [mbind outcome_bind].
  by exists s4.
Qed.
