(* ===== verification/BasDesRounds.v ===== *)
(** * DES ([bas_encString.c]): the rounds, blocks and strings

    The rounds are a Feistel network: whatever a round mixes into the left
    half, the decryption mixes it in again.  Hence every block has one cipher
    block and every cipher block one block, for every key schedule. *)

From S2P Require Import Prelude LibC Buffers BasDes BasCodecFacts BasLogFacts BasDesFacts.

(** Sixteen subkeys of 48 bits. *)
Definition schedule (ks : list bytes) : Prop := length ks = 16%nat /\ Forall (bits 48) ks.

Lemma bits_app n m a b : bits n a -> bits m b -> bits (n + m) (a ++ b).
Proof. intros [Ha Hab] [Hb Hbb]. split; [rewrite length_app; lia|by apply Forall_app]. Qed.

Lemma bits_split n m l : bits (n + m) l -> exists a b, l = a ++ b /\ bits n a /\ bits m b.
Proof.
  intros [Hl Hb]. destruct (split_at l n) as (a & b & -> & Ha); [lia|]. rewrite length_app in Hl.
  apply Forall_app in Hb as [Ha' Hb']. exists a, b. split; [done|]. split; split; done || lia.
Qed.

Lemma zlen_bits n l : bits n l -> zlen l = Z.of_nat n.
Proof. intros [Hl _]. unfold zlen. by rewrite Hl. Qed.

Lemma DES_E_run d : bits 48 d -> exists e, DES_E d = Ok e /\ bits 48 e.
Proof.
  intros Hd. pose proof (zlen_bits _ _ Hd) as Hz. destruct Hd as [Hl Hb].
  assert (in_table (zlen d) E_table = true) as Ht by (rewrite Hz; reflexivity).
  pose proof (pick_bits d E_table Hb Ht) as Hp. exists (pick d E_table). split; [|exact Hp].
  unfold DES_E. rewrite select_run by done. cbn [mbind outcome_bind].
  rewrite <- (app_nil_r d) at 1. rewrite poke_prefix; [by rewrite app_nil_r|]. rewrite Hz. symmetry. exact (zlen_bits _ _ Hp).
Qed.

Lemma DES_P_run d : bits 48 d -> exists e r, DES_P d = Ok (e ++ r) /\ bits 32 e.
Proof.
  intros Hd. pose proof (zlen_bits _ _ Hd) as Hz. destruct (bits_split 32 16 d Hd) as (a & b & -> & Ha & Hb).
  destruct Hd as [Hl Hbit]. assert (in_table (zlen (a ++ b)) P_table = true) as Ht by (rewrite Hz; reflexivity).
  pose proof (pick_bits (a ++ b) P_table Hbit Ht) as Hp. exists (pick (a ++ b) P_table), b. split; [|exact Hp].
  unfold DES_P. rewrite select_run by done. cbn [mbind outcome_bind]. apply poke_prefix.
  rewrite (zlen_bits _ _ Ha). symmetry. exact (zlen_bits _ _ Hp).
Qed.

Section rounds.
Context (ks : list bytes) (Hks : schedule ks).

(** What round [i] mixes in depends on the right half only. *)
Lemma des_mix_run i R :
  0 <= i < 16 -> bits 32 R ->
  exists F r, bits 32 F /\ forall L, length L = 32%nat -> des_mix ks i (L ++ R) = Ok (F ++ r).
Proof using Hks.
  intros Hi HR. destruct Hks as [Hk Hkb].
  destruct (zget_in_range ks i) as [k Hg]; [unfold zlen; rewrite Hk; lia|].
  assert (bits 48 k) as Hkk by (apply zget_Ok in Hg as [_ Hg]; by apply (Forall_lookup_1 _ _ _ _ Hkb Hg)).
  assert (bits 48 (R ++ memset 0 16)) as HR48.
  { apply (bits_app 32 16); [done|]. split; [done|]. apply Forall_replicate. by left. }
  destruct (DES_E_run _ HR48) as (e & He & Heb).
  destruct (DES_SBOX_run (xor_bits e k)) as (d & Hd & Hdb); [by apply xor_bits_bits|].
  destruct (DES_P_run d Hdb) as (F & r & HF & HFb). exists F, r. split; [done|]. intros L HL.
  assert (copy (memset 0 48) 0 (L ++ R) 32 32 = Ok (R ++ memset 0 16)) as Hc.
  { unfold copy. rewrite <- (app_nil_r (L ++ R)), <- app_assoc, (peek_layout L R []) by (rewrite ?(zlen_bits _ _ HR); unfold zlen; rewrite ?HL; done).
    cbn [mbind outcome_bind]. change (memset 0 48) with (memset 0 32 ++ memset 0 16).
    rewrite poke_prefix; [done|]. by rewrite (zlen_bits _ _ HR). }
  unfold des_mix. rewrite Hc. cbn [mbind outcome_bind]. rewrite He. cbn [mbind outcome_bind]. rewrite Hg. cbn [mbind outcome_bind].
  pose proof (XOR_loop_run e 0 [] k [] [] []) as Hx. rewrite !app_nil_r in Hx. cbn [app] in Hx.
  unfold DES_XOR. destruct Heb as [Hel Heb]. rewrite Hel in Hx. rewrite Hx by done. cbn [mbind outcome_bind].
  rewrite Hd. cbn [mbind outcome_bind]. exact HF.
Qed.

Lemma des_round_run last i L R F r :
  bits 32 L -> bits 32 R -> bits 32 F -> des_mix ks i (L ++ R) = Ok (F ++ r) ->
  des_round ks last i (L ++ R) = Ok (if i =? last then xor_bits L F ++ R else R ++ xor_bits L F).
Proof using Type.
  intros HL HR HF Hm. unfold des_round. rewrite Hm. cbn [mbind outcome_bind]. unfold DES_XOR.
  destruct (xor_bits_bits 32 L F HL HF) as [Hx _]. destruct HR as [HR _]. pose proof HL as [HLl HLb].
  pose proof (XOR_loop_run L 0 [] F [] r R) as H. rewrite HLl in H. cbn [app] in H. rewrite H by done. cbn [mbind outcome_bind].
  rewrite DES_Switch_run by done. cbn [mbind outcome_bind]. destruct (i =? last); [by apply DES_Switch_run|done].
Qed.

(** The halves after the rounds from [i] on. *)
Inductive evolves : Z -> bytes -> bytes -> bytes -> bytes -> Prop :=
  | evolves_done L R : evolves 16 L R L R
  | evolves_round i L R F r L' R' :
      0 <= i < 16 -> bits 32 L -> bits 32 R -> bits 32 F ->
      (forall L, length L = 32%nat -> des_mix ks i (L ++ R) = Ok (F ++ r)) ->
      evolves (i + 1) R (xor_bits L F) L' R' -> evolves i L R L' R'.

Lemma evolves_forward n : forall L R, (n <= 16)%nat -> bits 32 L -> bits 32 R ->
  exists L' R', evolves (16 - Z.of_nat n) L R L' R' /\ bits 32 L' /\ bits 32 R'.
Proof using Hks.
  induction n as [|n IH]; intros L R Hn HL HR; [by exists L, R; split; [constructor|]|].
  destruct (des_mix_run (16 - Z.of_nat (S n)) R) as (F & r & HF & Hm); [lia|done|].
  destruct (IH R (xor_bits L F)) as (L' & R' & He & HL' & HR'); [lia|done|by apply xor_bits_bits|].
  exists L', R'. split; [|done]. apply (evolves_round _ _ _ F r); try done; [lia|].
  by replace (16 - Z.of_nat (S n) + 1) with (16 - Z.of_nat n) by lia.
Qed.

(** Every end state comes from a start state. *)
Lemma evolves_backward n : forall L' R', (n <= 16)%nat -> bits 32 L' -> bits 32 R' ->
  exists L R, evolves (16 - Z.of_nat n) L R L' R' /\ bits 32 L /\ bits 32 R.
Proof using Hks.
  induction n as [|n IH]; intros L' R' Hn HL HR; [by exists L', R'; split; [constructor|]|].
  destruct (IH L' R') as (L1 & R1 & He & HL1 & HR1); [lia|done|done|].
  destruct (des_mix_run (16 - Z.of_nat (S n)) L1) as (F & r & HF & Hm); [lia|done|].
  exists (xor_bits R1 F), L1. split; [|split; [by apply xor_bits_bits|done]].
  apply (evolves_round _ _ _ F r); try done; [lia|by apply xor_bits_bits|].
  rewrite (xor_twice 32) by done. by replace (16 - Z.of_nat (S n) + 1) with (16 - Z.of_nat n) by lia.
Qed.

Definition enc_body (i : Z) (s : bytes) : outcome (bytes * bool) := s ← des_round ks 15 i s; Ok (s, true).
Definition dec_body (i : Z) (s : bytes) : outcome (bytes * bool) := s ← des_round ks 0 i s; Ok (s, true).

Lemma evolves_enc i L R L' R' :
  evolves i L R L' R' -> i < 16 -> for_loop (Z.to_nat (16 - i)) i 1 enc_body (L ++ R) = Ok (R' ++ L').
Proof using Type.
  induction 1 as [L R|i L R F r L' R' Hi HL HR HF Hm He IH]; intros Hlt; [lia|].
  replace (Z.to_nat (16 - i)) with (S (Z.to_nat (16 - (i + 1)))) by lia. cbn [for_loop].
  change (enc_body i (L ++ R)) with (s ← des_round ks 15 i (L ++ R); Ok (s, true)).
  rewrite (des_round_run 15 i L R F r) by (done || by apply Hm, HL). cbn [mbind outcome_bind fst snd].
  destruct (Z.eqb_spec i 15) as [->|]; [|apply IH; lia].
  inversion He; [|lia]. subst. done.
Qed.

Lemma evolves_dec i L R L' R' :
  evolves i L R L' R' -> forall n, (Z.to_nat (16 - i) <= n)%nat ->
  for_loop n 15 (-1) dec_body (R' ++ L') =
  for_loop (n - Z.to_nat (16 - i)) (i - 1) (-1) dec_body (if i =? 0 then L ++ R else R ++ L).
Proof using Type.
  induction 1 as [L R|i L R F r L' R' Hi HL HR HF Hm He IH]; intros n Hn.
  - by replace (n - Z.to_nat (16 - 16))%nat with n by lia.
  - rewrite IH by lia. replace (i + 1 =? 0) with false by lia.
    replace (n - Z.to_nat (16 - (i + 1)))%nat with (S (n - Z.to_nat (16 - i))) by lia. cbn [for_loop].
    replace (i + 1 - 1) with i by lia.
    change (dec_body i (xor_bits L F ++ R)) with (s ← des_round ks 0 i (xor_bits L F ++ R); Ok (s, true)).
    pose proof (xor_bits_bits 32 L F HL HF) as Hx.
    rewrite (des_round_run 0 i (xor_bits L F) R F r) by (done || by apply Hm, Hx). cbn [mbind outcome_bind fst snd].
    rewrite (xor_twice 32) by done. by destruct (i =? 0).
Qed.

(** ** Blocks *)

(** [p] and [c] are a block and its cipher block. *)
Definition ciphers (p c : bytes) : Prop :=
  block p /\ block c /\ (forall o, length o = 8%nat -> DES_EncryptBlock p ks o = Ok c) /\
  (forall o, length o = 8%nat -> DES_DecryptBlock c ks o = Ok p).

Lemma ciphers_of_halves L R L' R' p c :
  evolves 0 L R L' R' -> bits 64 (L ++ R) -> bits 64 (R' ++ L') -> block p -> block c ->
  block_bits p = pick (L ++ R) IP_1 -> block_bits c = pick (R' ++ L') IP_1 -> ciphers p c.
Proof using Type.
  intros He H1 H2 Hp Hc Ep Ec. split_and!; [done|done| |]; intros o Ho.
  - unfold DES_EncryptBlock. rewrite Ch8ToBit64_run by done. cbn [mbind outcome_bind].
    destruct (DES_IP_run _ (block_64 p Hp)) as [-> _]. cbn [mbind outcome_bind].
    rewrite Ep. destruct (IP_inverse (L ++ R)) as [_ ->]; [apply H1|].
    pose proof (evolves_enc _ _ _ _ _ He ltac:(lia)) as E. change (Z.to_nat (16 - 0)) with 16%nat in E. unfold enc_body in E.
    rewrite E. cbn [mbind outcome_bind].
    destruct (DES_IP_1_run _ H2) as [-> _]. cbn [mbind outcome_bind]. rewrite <- Ec. by apply Bit64ToCh8_run.
  - unfold DES_DecryptBlock. rewrite Ch8ToBit64_run by done. cbn [mbind outcome_bind].
    destruct (DES_IP_run _ (block_64 c Hc)) as [-> _]. cbn [mbind outcome_bind].
    rewrite Ec. destruct (IP_inverse (R' ++ L')) as [_ ->]; [apply H2|].
    pose proof (evolves_dec _ _ _ _ _ He 16 ltac:(lia)) as E. unfold dec_body in E. rewrite E.
    change (16 - Z.to_nat (16 - 0))%nat with 0%nat. cbn [for_loop Z.eqb mbind outcome_bind].
    destruct (DES_IP_1_run _ H1) as [-> _]. cbn [mbind outcome_bind]. rewrite <- Ep. by apply Bit64ToCh8_run.
Qed.

Lemma ciphers_forward p : block p -> exists c, ciphers p c.
Proof using Hks.
  intros Hp. destruct (DES_IP_run _ (block_64 p Hp)) as [_ Hb].
  destruct (bits_split 32 32 _ Hb) as (L & R & E & HL & HR).
  destruct (evolves_forward 16 L R) as (L' & R' & He & HL' & HR'); [lia|done|done|].
  pose proof (bits_app 32 32 R' L' HR' HL') as H2. destruct (DES_IP_1_run _ H2) as [_ H3].
  destruct (block_of_bits _ H3) as (c & Ec & Hc). exists c.
  apply (ciphers_of_halves L R L' R'); try done; [by rewrite <- E|].
  rewrite <- E. symmetry. apply IP_inverse, block_64. done.
Qed.

Lemma ciphers_backward c : block c -> exists p, ciphers p c.
Proof using Hks.
  intros Hc. destruct (DES_IP_run _ (block_64 c Hc)) as [_ Hb].
  destruct (bits_split 32 32 _ Hb) as (R' & L' & E & HR' & HL').
  destruct (evolves_backward 16 L' R') as (L & R & He & HL & HR); [lia|done|done|].
  pose proof (bits_app 32 32 L R HL HR) as H1. destruct (DES_IP_1_run _ H1) as [_ H3].
  destruct (block_of_bits _ H3) as (p & Ep & Hp). exists p.
  apply (ciphers_of_halves L R L' R'); try done; [by rewrite <- E|].
  rewrite <- E. symmetry. apply IP_inverse, block_64. done.
Qed.
End rounds.

(** ** The key schedule *)

Lemma peek_bits n l i k : bits n l -> 0 <= i -> 0 <= k -> i + k <= Z.of_nat n -> exists b, peek l i k = Ok b /\ bits (Z.to_nat k) b.
Proof.
  intros [Hl Hb] Hi Hk Hn. unfold peek, zlen. rewrite Hl.
  destruct (Z.leb_spec 0 i); [|lia]. destruct (Z.leb_spec 0 k); [|lia]. destruct (Z.leb_spec (i + k) (Z.of_nat n)); [|lia].
  eexists. split; [reflexivity|]. split; [rewrite length_take, length_drop; lia|]. by apply Forall_take, Forall_drop.
Qed.

Lemma poke_bits n k l i b : bits n l -> bits k b -> 0 <= i -> i + Z.of_nat k <= Z.of_nat n -> exists l', poke l i b = Ok l' /\ bits n l'.
Proof.
  intros [Hl Hb] Hk Hi Hn. pose proof (zlen_bits _ _ Hk) as Hz. destruct Hk as [Hk Hkb]. unfold poke. rewrite Hz. unfold zlen. rewrite Hl.
  destruct (Z.leb_spec 0 i); [|lia]. destruct (Z.leb_spec (i + Z.of_nat k) (Z.of_nat n)); [|lia].
  eexists. split; [reflexivity|]. split; [rewrite !length_app, length_take, length_drop; lia|].
  repeat apply Forall_app_2; [by apply Forall_take|done|by apply Forall_drop].
Qed.

Lemma copy_bits n m dst d src s k :
  bits n dst -> bits m src -> 0 <= d -> 0 <= s -> 0 <= k -> d + k <= Z.of_nat n -> s + k <= Z.of_nat m ->
  exists l, copy dst d src s k = Ok l /\ bits n l.
Proof.
  intros Hd Hs ? ? ? ? ?. unfold copy. destruct (peek_bits m src s k Hs) as (b & -> & Hb); [lia..|]. cbn [mbind outcome_bind].
  apply (poke_bits n (Z.to_nat k)); try done. lia.
Qed.

Lemma zero_bits n : bits n (replicate n 0).
Proof. split; [apply length_replicate|]. apply Forall_replicate. by left. Qed.

Lemma DES_ROL_run data n : bits 56 data -> 0 <= n <= 2 -> exists d, DES_ROL data n = Ok d /\ bits 56 d.
Proof.
  intros Hd Hn. unfold DES_ROL. change (memset 0 56) with (replicate 56 0). pose proof (zero_bits 56) as H0.
  destruct (copy_bits 56 56 (replicate 56 0) 0 data 0 n H0 Hd) as (t1 & -> & Ht1); [lia..|]. cbn [mbind outcome_bind].
  destruct (copy_bits 56 56 t1 n data 28 n Ht1 Hd) as (t2 & -> & Ht2); [lia..|]. cbn [mbind outcome_bind].
  destruct (copy_bits 56 56 data 0 data n (28 - n) Hd Hd) as (d1 & -> & Hd1); [lia..|]. cbn [mbind outcome_bind].
  destruct (copy_bits 56 56 d1 (28 - n) t2 0 n Hd1 Ht2) as (d2 & -> & Hd2); [lia..|]. cbn [mbind outcome_bind].
  destruct (copy_bits 56 56 d2 28 d2 (28 + n) (28 - n) Hd2 Hd2) as (d3 & -> & Hd3); [lia..|]. cbn [mbind outcome_bind].
  apply (copy_bits 56 56); done || lia.
Qed.

Lemma LS_range i : 0 <= i < 16 -> exists n, zget LS i = Ok n /\ 0 <= n <= 2.
Proof.
  intros Hi. assert (match zget LS i with Ok n => (0 <=? n) && (n <=? 2) | _ => false end = true) as H.
  { revert i Hi. apply (below_forall _ 16). reflexivity. }
  destruct (zget LS i) as [n| |]; try done. exists n. split; [done|lia].
Qed.

Definition subkey_body (i : Z) (st : bytes * list bytes) : outcome (bytes * list bytes * bool) :=
  let '(temp, subKey) := st in
  n ← zget LS i; temp ← DES_ROL temp n; k ← DES_PC2 temp (memset 0 48); Ok ((temp, subKey ++ [k]), true).

Lemma subkey_step i t s :
  0 <= i < 16 -> bits 56 t -> exists t' k, subkey_body i (t, s) = Ok ((t', s ++ [k]), true) /\ bits 56 t' /\ bits 48 k.
Proof.
  intros Hi Ht. unfold subkey_body. destruct (LS_range i) as (n & -> & Hn); [lia|]. cbn [mbind outcome_bind].
  destruct (DES_ROL_run t n Ht Hn) as (t1 & -> & Ht1). cbn [mbind outcome_bind]. unfold DES_PC2.
  pose proof (zlen_bits _ _ Ht1) as Hz1.
  assert (in_table (zlen t1) PC_2 = true) as Hin by (rewrite Hz1; reflexivity).
  rewrite select_run by done. cbn [mbind outcome_bind]. exists t1, (pick t1 PC_2). split; [done|]. split; [done|].
  exact (pick_bits t1 PC_2 (proj2 Ht1) Hin).
Qed.

Lemma subkey_loop n : forall i t s, Z.of_nat n = 16 - i -> 0 <= i -> bits 56 t ->
  exists t' s', for_loop n i 1 subkey_body (t, s) = Ok (t', s ++ s') /\ length s' = n /\ Forall (bits 48) s'.
Proof.
  induction n as [|n IH]; intros i t s Hn Hi Ht; [exists t, []; by rewrite app_nil_r|]. cbn [for_loop].
  destruct (subkey_step i t s ltac:(lia) Ht) as (t1 & k & -> & Ht1 & Hk). cbn [mbind outcome_bind fst snd].
  destruct (IH (i + 1) t1 (s ++ [k])) as (t' & s' & Hr & Hl & Hf); [lia|lia|done|].
  exists t', (k :: s'). rewrite <- app_assoc in Hr. split_and!; [exact Hr|simpl; lia|by constructor].
Qed.

Lemma DES_SubKey_run key : bits 64 key -> exists ks, DES_SubKey key = Ok ks /\ schedule ks.
Proof.
  intros Hk. unfold DES_SubKey, DES_PC1. pose proof (zlen_bits _ _ Hk) as Hz. destruct Hk as [Hkl Hkb].
  assert (in_table (zlen key) PC_1 = true) as Ht by (rewrite Hz; reflexivity).
  rewrite select_run by done. cbn [mbind outcome_bind].
  pose proof (pick_bits key PC_1 Hkb Ht) as Hp. change (length PC_1) with 56%nat in Hp.
  destruct (subkey_loop 16 0 (pick key PC_1) []) as (t' & s' & Hr & Hl & Hf); [lia|lia|exact Hp|].
  unfold subkey_body in Hr. rewrite Hr. exists s'. exact (conj eq_refl (conj Hl Hf)).
Qed.

(** ** Strings *)

Section triple.
Context (kl kr : list bytes) (Hl : schedule kl) (Hr : schedule kr).

(** A block and its cipher block under both keys. *)
Definition ciphers3 (p c : bytes) : Prop :=
  block p /\ block c /\ encrypt3 kl kr p = Ok c /\ decrypt3 kl kr c = Ok p.

Lemma ciphers3_total p : block p -> exists c, ciphers3 p c.
Proof using Hl Hr.
  intros Hp. destruct (ciphers_forward kl Hl p Hp) as (c1 & _ & Hc1 & He1 & Hd1).
  destruct (ciphers_backward kr Hr c1 Hc1) as (t & Ht & _ & He2 & Hd2).
  destruct (ciphers_forward kl Hl t Ht) as (c & _ & Hc & He3 & Hd3).
  exists c. split_and!; [done|done| |].
  - unfold encrypt3. rewrite He1 by done. cbn [mbind outcome_bind]. rewrite Hd2 by done. cbn [mbind outcome_bind].
    apply He3, Hc1.
  - unfold decrypt3. rewrite Hd3 by done. cbn [mbind outcome_bind]. rewrite He2 by done. cbn [mbind outcome_bind].
    apply Hd1, Ht.
Qed.

(** Blocks one after the other. *)
Fixpoint ciphers_list (ps cs : list bytes) : Prop :=
  match ps, cs with
  | [], [] => True
  | p :: ps, c :: cs => ciphers3 p c /\ ciphers_list ps cs
  | _, _ => False
  end.

Lemma ciphers_list_total ps : Forall block ps -> exists cs, ciphers_list ps cs.
Proof using Hl Hr.
  induction 1 as [|p ps Hp _ (cs & IH)]; [by exists []|]. destruct (ciphers3_total p Hp) as (c & Hc). by exists (c :: cs).
Qed.

Lemma ciphers_list_blocks ps : forall cs, ciphers_list ps cs ->
  Forall block ps /\ Forall block cs /\ length cs = length ps.
Proof using Type.
  induction ps as [|p ps IH]; intros [|c cs]; try done. intros [(Hp & Hc & _) H]. destruct (IH cs H) as (H1 & H2 & H3).
  split_and!; [by constructor|by constructor|simpl; lia].
Qed.

Lemma blocks_length ps : Forall block ps -> zlen (concat ps) = 8 * zlen ps.
Proof using Type.
  induction 1 as [|p ps Hp _ IH]; [done|]. cbn [concat]. rewrite zlen_app, zlen_cons, IH. destruct Hp as [Hp _].
  unfold zlen. rewrite Hp. lia.
Qed.

(** A loop over the blocks of the input, with a function that maps each. *)
Lemma block_loop_run f ps : forall cs i a p q r o,
  (forall k x, ps !! k = Some x -> exists y, cs !! k = Some y /\ f x = Ok y /\ block y) -> Forall block ps -> length cs = length ps ->
  zlen a = 8 * i -> zlen p = 8 * i -> zlen o = 8 * zlen ps ->
  for_loop (length ps) i 1 (λ count out, b ← peek (a ++ concat ps ++ r) (8 * count) 8; b ← f b;
    out ← poke out (8 * count) b; Ok (out, true)) (p ++ o ++ q) = Ok (p ++ concat cs ++ q).
Proof using Type.
  induction ps as [|x ps IH]; intros [|y cs] i a p q r o Hf Hps Hlen Ha Hp Ho; try done.
  { destruct o; [done|zlen_lia]. }
  inversion_clear Hps as [|? ? Hx Hps']. destruct (Hf 0%nat x eq_refl) as (y' & [= <-] & Hy & Hyb).
  destruct Hx as [Hxl _]. destruct (split_at o 8) as (o1 & o2 & -> & Ho1); [zlen_lia|].
  cbn [length for_loop concat]. rewrite <- (app_assoc x), peek_layout by (unfold zlen in *; lia). cbn [mbind outcome_bind].
  rewrite Hy. cbn [mbind outcome_bind]. destruct Hyb as [Hyl _].
  rewrite <- (app_assoc o1), poke_layout by (unfold zlen in *; lia). cbn [mbind outcome_bind fst snd].
  rewrite (app_assoc a), (app_assoc p), (IH cs); [by rewrite <- !app_assoc| |done|simpl in Hlen; lia|zlen_lia|zlen_lia|zlen_lia].
  intros k z Hk. exact (Hf (S k) z Hk).
Qed.

Lemma ciphers_list_lookup ps : forall cs, ciphers_list ps cs -> forall k p c, ps !! k = Some p -> cs !! k = Some c -> ciphers3 p c.
Proof using Type.
  induction ps as [|p0 ps IH]; intros [|c0 cs] H; try done. destruct H as [H H']. intros [|k] p c Hp Hc; simplify_eq/=; [done|].
  by apply (IH cs H' k p c).
Qed.

Lemma encrypt_loop_run ps cs q r o :
  ciphers_list ps cs -> zlen o = 8 * zlen ps ->
  block_loop (encrypt3 kl kr) (zlen ps) (concat ps ++ r) (o ++ q) = Ok (concat cs ++ q).
Proof using Type.
  intros H Ho. destruct (ciphers_list_blocks ps cs H) as (Hp & Hc & Hlen). unfold block_loop.
  replace (Z.to_nat (zlen ps)) with (length ps) by zlen_lia.
  apply (block_loop_run _ ps cs 0 [] [] q r o); try done. intros k x Hk.
  destruct (lookup_lt_is_Some_2 cs k) as [y Hy]; [apply lookup_lt_Some in Hk; lia|].
  destruct (ciphers_list_lookup ps cs H k x y Hk Hy) as (_ & Hb & He & _). by exists y.
Qed.

Lemma decrypt_loop_run ps cs q r o :
  ciphers_list ps cs -> zlen o = 8 * zlen cs ->
  block_loop (decrypt3 kl kr) (zlen cs) (concat cs ++ r) (o ++ q) = Ok (concat ps ++ q).
Proof using Type.
  intros H Ho. destruct (ciphers_list_blocks ps cs H) as (Hp & Hc & Hlen). unfold block_loop.
  replace (Z.to_nat (zlen cs)) with (length cs) by zlen_lia.
  apply (block_loop_run _ cs ps 0 [] [] q r o); try done. intros k y Hk.
  destruct (lookup_lt_is_Some_2 ps k) as [x Hx]; [apply lookup_lt_Some in Hk; lia|].
  destruct (ciphers_list_lookup ps cs H k x y Hx Hk) as (Hb & _ & _ & Hd). by exists x.
Qed.
End triple.

Lemma chop m : forall l, length l = (8 * m)%nat -> Forall byte l -> exists ps, concat ps = l /\ length ps = m /\ Forall block ps.
Proof.
  induction m as [|m IH]; intros l Hl Hb; [destruct l; [by exists []|done]|].
  destruct (split_at l 8) as (x & y & -> & Hx); [lia|]. rewrite length_app in Hl. apply Forall_app in Hb as [Hxb Hyb].
  destruct (IH y) as (ps & <- & Hm & Hps); [lia|done|]. exists (x :: ps). cbn. split_and!; [done|lia|by constructor].
Qed.

Lemma string_keys_run key r :
  length key = 16%nat -> Forall byte key ->
  exists kl kr, string_keys (key ++ r) = Ok (kl, kr) /\ schedule kl /\ schedule kr.
Proof.
  intros Hk Hb. destruct (split_at key 8) as (a & b & -> & Ha); [lia|]. rewrite length_app in Hk.
  apply Forall_app in Hb as [Hab Hbb]. unfold string_keys. rewrite <- app_assoc.
  rewrite peek_prefix by (unfold zlen; lia). cbn [mbind outcome_bind].
  rewrite peek_layout by (unfold zlen; lia). cbn [mbind outcome_bind].
  assert (block a) as HA by done. assert (block b) as HB by (split; [lia|done]).
  rewrite Ch8ToBit64_run by done. cbn [mbind outcome_bind]. rewrite Ch8ToBit64_run by done. cbn [mbind outcome_bind].
  destruct (DES_SubKey_run _ (block_64 a HA)) as (kl & -> & Hl). cbn [mbind outcome_bind].
  destruct (DES_SubKey_run _ (block_64 b HB)) as (kr & -> & Hr). cbn [mbind outcome_bind]. by exists kl, kr.
Qed.

(** The bytes that fill up the last block. *)
Definition fill (s : bytes) : bytes := replicate (Z.to_nat ((- zlen s) mod 8)) 0.

Lemma cstring_bytes l : cstring l -> Forall byte l.
Proof. intros H. eapply Forall_impl; [exact H|]. unfold cchar, byte. intros ? ?. lia. Qed.

Section string.
Context (key kt s : bytes) (Hkey : length key = 16%nat) (Hkb : Forall byte key) (Hs : cstring s).

(** Encryption works on the blocks of [s ++ fill s], whatever follows the
    string. *)
Lemma des_encrypt_blocks kl kr r o q :
  string_keys (key ++ kt) = Ok (kl, kr) -> schedule kl -> schedule kr -> 7 <= zlen r -> zlen o = zlen (s ++ fill s) ->
  exists ps cs, concat ps = s ++ fill s /\ ciphers_list kl kr ps cs /\
    DES_Encrypt (s ++ 0 :: r) (key ++ kt) (o ++ q) = Ok (concat cs ++ q).
Proof using Hs Hkey.
  intros Hkeys Hl Hr Hrl Ho. unfold DES_Encrypt. rewrite Hkeys. cbn [mbind outcome_bind].
  rewrite strlen_app by done. cbn [mbind outcome_bind].
  pose proof (zlen_nonneg s) as Hs0. rewrite Z.quot_div_nonneg, Z.rem_mod_nonneg by lia.
  set (m := zlen s / 8). set (k := zlen s mod 8).
  assert (zlen s = 8 * m + k /\ 0 <= k < 8) as [Hsl Hk] by (subst m k; split; [apply Z.div_mod; lia|apply Z.mod_pos_bound; lia]).
  assert (0 <= m) as Hm by lia. clearbody m k.
  destruct (split_at s (Z.to_nat (8 * m))) as (s1 & x & E & Hs1); [unfold zlen in Hsl; lia|].
  assert (Forall byte s) as Hsb by by apply cstring_bytes. rewrite E in Hsb. apply Forall_app in Hsb as [Hs1b Hxb].
  destruct (chop (Z.to_nat m) s1) as (ps & Hps & Hpl & Hpb); [lia|done|].
  destruct (ciphers_list_total kl kr Hl Hr ps Hpb) as (cs & Hcs).
  assert (zlen x = k) as Hx by (rewrite E in Hsl; zlen_lia). assert (m = zlen ps) as -> by zlen_lia.
  destruct (Z.eqb_spec k 0) as [Ek|Ek]; cbn [negb].
  - assert (x = []) as -> by (destruct x; [done|zlen_lia]). rewrite app_nil_r in E. subst s1 s.
    assert (fill (concat ps) = []) as Hf by (unfold fill; replace ((- zlen (concat ps)) mod 8) with 0 by div_lia; done).
    exists ps, cs. rewrite Hf, app_nil_r in *. split; [done|]. split; [done|].
    rewrite (encrypt_loop_run kl kr ps cs q (0 :: r) o) by (done || lia). done.
  - assert (zlen (fill s) = 8 - k) as Hf.
    { unfold fill, zlen at 1. rewrite length_replicate. replace ((- zlen s) mod 8) with (8 - k) by div_lia. lia. }
    assert (fill s = memset 0 (8 - k)) as Ef by (unfold memset; rewrite <- Hf; unfold fill, zlen; by rewrite length_replicate, Nat2Z.id).
    assert (block (x ++ memset 0 (8 - k))) as Hb.
    { rewrite <- Ef. split; [rewrite length_app; unfold zlen in *; lia|]. apply Forall_app. split; [done|].
      apply Forall_replicate. unfold byte. lia. }
    destruct (ciphers3_total kl kr Hl Hr _ Hb) as (c & Hc).
    exists (ps ++ [x ++ memset 0 (8 - k)]), (cs ++ [c]). split_and!.
    + rewrite concat_app. cbn [concat]. by rewrite app_nil_r, E, Hps, <- app_assoc, <- E, Ef.
    + clear - Hcs Hc. revert cs Hcs. induction ps as [|p ps IH]; intros [|c0 cs] H; try done.
      destruct H as [H1 H2]. split; [done|]. by apply IH.
    + destruct (split_at o (Z.to_nat (8 * zlen ps))) as (o1 & o2 & Eo & Ho1); [rewrite zlen_app in Ho; zlen_lia|].
      assert (s ++ 0 :: r = concat ps ++ (x ++ 0 :: r)) as -> by (by rewrite E, <- app_assoc, Hps).
      rewrite Eo, <- app_assoc. rewrite (encrypt_loop_run kl kr ps cs (o2 ++ q) _ o1 Hcs) by zlen_lia. cbn [mbind outcome_bind].
      pose proof (blocks_length ps Hpb) as Hbl.
      destruct (split_at (0 :: r) (Z.to_nat (8 - k))) as (r1 & r2 & Er & Hr1); [simpl; zlen_lia|].
      rewrite Er, (app_assoc x), peek_layout by zlen_lia. cbn [mbind outcome_bind].
      rewrite <- (app_nil_r (x ++ r1)), <- app_assoc, poke_layout; [|done|].
      2: { unfold memset, zlen. rewrite length_replicate. lia. }
      cbn [mbind outcome_bind]. rewrite app_nil_r. destruct Hc as (_ & [Hcl _] & Hce & _). rewrite Hce. cbn [mbind outcome_bind].
      destruct (ciphers_list_blocks kl kr ps cs Hcs) as (_ & Hcb & Hcl'). pose proof (blocks_length cs Hcb) as Hbc.
      rewrite poke_layout by (rewrite ?Eo in Ho; zlen_lia). rewrite concat_app. cbn [concat]. by rewrite app_nil_r, <- app_assoc.
Qed.

(** The cipher text goes back to the string when it holds no NUL. *)
Lemma des_round_trip r o q :
  7 <= zlen r -> zlen o = zlen (s ++ fill s) ->
  exists c, zlen c = zlen (s ++ fill s) /\ Forall byte c /\
    DES_Encrypt (s ++ 0 :: r) (key ++ kt) (o ++ q) = Ok (c ++ q) /\
    (cstring c -> forall r' o' q', zlen o' = zlen c ->
      DES_Decrypt (c ++ 0 :: r') (key ++ kt) (o' ++ q') = Ok (s ++ fill s ++ q')).
Proof using Hs Hkey Hkb.
  intros Hr Ho. destruct (string_keys_run key kt Hkey Hkb) as (kl & kr & Hkeys & Hl & Hkr).
  destruct (des_encrypt_blocks kl kr r o q Hkeys Hl Hkr Hr Ho) as (ps & cs & Hps & Hcs & He).
  destruct (ciphers_list_blocks kl kr ps cs Hcs) as (Hpb & Hcb & Hlen).
  pose proof (blocks_length ps Hpb) as Hbp. pose proof (blocks_length cs Hcb) as Hbc.
  exists (concat cs). split_and!; [rewrite <- Hps; zlen_lia| |done|].
  - clear - Hcb. induction Hcb as [|c cs [_ Hc] _ IH]; [constructor|]. by apply Forall_app.
  - intros Hc r' o' q' Ho'. unfold DES_Decrypt. rewrite Hkeys. cbn [mbind outcome_bind].
    rewrite strlen_app by done. cbn [mbind outcome_bind]. rewrite Hbc.
    replace (Z.quot (8 * zlen cs) 8) with (zlen cs) by (pose proof (zlen_nonneg cs); div_lia).
    replace (Z.rem (8 * zlen cs) 8) with 0 by (pose proof (zlen_nonneg cs); div_lia). cbn [negb Z.eqb].
    rewrite (decrypt_loop_run kl kr ps cs q' (0 :: r') o' Hcs) by lia. cbn [mbind outcome_bind].
    by rewrite Hps, <- app_assoc.
Qed.
End string.
