(* ===== verification/BasBase64.v ===== *)
(** * Base 64 ([base64_encode] and [base64_decode] of [bas_encString.c])

    The text of a byte string against the usual definition by groups of three
    bytes; what the decoder makes of a group, and that it never comes so far,
    because it clears four bytes of an array of three. *)

From S2P Require Import Prelude LibC Buffers BasDes BasCodecFacts BasLogFacts BasDesFacts.

(** The value of a comparison of lengths. *)
Ltac zbool :=
  symmetry; first [apply Z.ltb_ge | apply Z.ltb_lt | apply Z.leb_gt | apply Z.leb_le]; zlen_lia.

Lemma lor_shift_add w p b : 0 <= w -> 0 <= b < 2 ^ w -> Z.lor (Z.shiftl p w) b = p * 2 ^ w + b.
Proof.
  intros Hw Hb. apply Z.bits_inj'. intros i Hi. rewrite Z.lor_spec, Z.shiftl_spec by lia.
  assert (0 < 2 ^ w) as Hp by (apply Z.pow_pos_nonneg; lia).
  destruct (decide (i < w)) as [Hiw|Hiw].
  - rewrite (Z.testbit_neg_r p) by lia. rewrite <- (Z.mod_pow2_bits_low (p * 2 ^ w + b) w i) by lia.
    rewrite Z.add_comm, Z.mod_add, Z.mod_small by lia. done.
  - rewrite <- (Z.mod_small b (2 ^ w)) at 1 by done. rewrite Z.mod_pow2_bits_high, orb_false_r by lia.
    replace i with (i - w + w) at 2 by lia. rewrite <- Z.div_pow2_bits by lia. f_equal.
    rewrite Z.div_add_l, Z.div_small by lia. lia.
Qed.

(** The six bits of [q] from bit [s] on, and the character they stand for. *)
Definition sextet (q s : Z) : Z := q / 2 ^ s mod 64.
Definition base_char (x : Z) : Z := nth (Z.to_nat x) base 0.

Lemma sextet_range q s : 0 <= sextet q s < 64.
Proof. apply Z.mod_pos_bound. lia. Qed.

Lemma land_sextet q s : 0 <= s -> Z.land (Z.shiftr q s) 63 = sextet q s.
Proof.
  intros Hs. pose proof (Z.land_ones (Z.shiftr q s) 6 ltac:(lia)) as H. change (Z.ones 6) with 63 in H.
  rewrite H, Z.shiftr_div_pow2 by lia. done.
Qed.

Lemma base_get x : 0 <= x <= 64 -> zget base x = Ok (base_char x).
Proof. intros Hx. apply zget_nth. change (zlen base) with 66. lia. Qed.

Lemma find_base_char x : 0 <= x < 64 -> find_pos (base_char x) = Ok x /\ base_char x <> 61.
Proof.
  intros Hx. assert (match find_pos (base_char x) with Ok p => (p =? x) && negb (base_char x =? 61) | _ => false end = true) as H.
  { revert x Hx. apply (below_forall _ 64). vm_compute. reflexivity. }
  destruct (find_pos (base_char x)) as [p| |]; try done. split; [f_equal|]; lia.
Qed.

(** The text of one group, of two or of one byte. *)
Definition group3 (a b c : Z) : bytes :=
  let q := 65536 * a + 256 * b + c in
  [base_char (sextet q 18); base_char (sextet q 12); base_char (sextet q 6); base_char (sextet q 0)].
Definition group2 (a b : Z) : bytes :=
  let q := 65536 * a + 256 * b in [base_char (sextet q 18); base_char (sextet q 12); base_char (sextet q 6); 61].
Definition group1 (a : Z) : bytes :=
  let q := 65536 * a in [base_char (sextet q 18); base_char (sextet q 12); 61; 61].

Fixpoint base64 (t : bytes) : bytes :=
  match t with
  | a :: b :: c :: t => group3 a b c ++ base64 t
  | [a; b] => group2 a b
  | [a] => group1 a
  | [] => []
  end.

Lemma byte_step p b : byte b -> Z.lor (Z.shiftl p 8) (Z.land (schar b) 255) = 256 * p + b.
Proof.
  intros Hb. assert (Z.land (schar b) 255 = b) as ->.
  { transitivity (Z.land b 255); [|rewrite <- land_255; by apply uwrap_id].
    apply low_byte_eq. intros i Hi. by apply schar_bit. }
  rewrite lor_shift_add by (unfold byte in Hb; lia). lia.
Qed.

Lemma char_step p x : 0 <= x < 64 -> Z.lor (Z.shiftl p 6) x = 64 * p + x.
Proof. intros Hx. rewrite lor_shift_add by lia. lia. Qed.

(** ** Encoding *)

Lemma write_chars_run temp q p o r :
  1 <= temp <= 3 -> length o = 4%nat ->
  write_chars temp q (p ++ o ++ r) (zlen p) =
  Ok (p ++ [base_char (sextet q 18); base_char (sextet q 12); (if temp <? 2 then 61 else base_char (sextet q 6));
            (if temp <? 3 then 61 else base_char (sextet q 0))] ++ r).
Proof.
  intros Ht Ho. destruct o as [|o0 [|o1 [|o2 [|o3 [|o4 o]]]]]; try done. unfold write_chars. cbn [for_loop].
  assert (forall i s, i = 0 \/ i = 1 \/ i = 2 \/ i = 3 -> s = (3 - i) * 6 ->
    zget base (if temp <? i then 64 else Z.land (Z.shiftr q s) 63) = Ok (if temp <? i then 61 else base_char (sextet q s))) as Hg.
  { intros i s Hi ->. destruct (temp <? i); [reflexivity|]. rewrite land_sextet by lia.
    pose proof (sextet_range q ((3 - i) * 6)). rewrite base_get by lia. done. }
  rewrite (Hg 0 ((3 - 0) * 6)) by lia. replace (temp <? 0) with false by lia. cbn [mbind outcome_bind]. set_at p r 0%nat. cbn [mbind outcome_bind fst snd].
  rewrite (Hg (0 + 1) ((3 - (0 + 1)) * 6)) by lia. replace (temp <? 0 + 1) with false by lia. cbn [mbind outcome_bind]. set_at p r 1%nat. cbn [mbind outcome_bind fst snd].
  rewrite (Hg (0 + 1 + 1) ((3 - (0 + 1 + 1)) * 6)) by lia. cbn [mbind outcome_bind]. set_at p r 2%nat. cbn [mbind outcome_bind fst snd].
  rewrite (Hg (0 + 1 + 1 + 1) ((3 - (0 + 1 + 1 + 1)) * 6)) by lia. cbn [mbind outcome_bind]. set_at p r 3%nat. reflexivity.
Qed.

Lemma triples_ind (P : bytes -> Prop) :
  P [] -> (forall a, P [a]) -> (forall a b, P [a; b]) -> (forall a b c t, P t -> P (a :: b :: c :: t)) -> forall t, P t.
Proof.
  intros H0 H1 H2 H3 t. enough (forall n t, (length t <= n)%nat -> P t) as H by by apply (H (length t)).
  clear t. induction n as [|n IH]; intros [|a [|b [|c t]]] Hl; simpl in Hl; try lia; auto. apply H3, IH. lia.
Qed.

Lemma encode_loop_run t : forall fuel a r p o q,
  Forall byte t -> (length t <= fuel)%nat -> length o = length (base64 t) ->
  encode_loop fuel (a ++ t ++ r) (zlen (a ++ t)) (zlen a) (p ++ o ++ q) (zlen p) =
  Ok (p ++ base64 t ++ q, zlen p + zlen (base64 t)).
Proof.
  induction t as [|x|x y|x y z t IH] using triples_ind; intros fuel a r p o q Ht Hf Ho.
  - destruct o; [|done]. destruct fuel; cbn [encode_loop]; replace (zlen a <? zlen (a ++ [])) with false by zbool;
      cbn; by rewrite Z.add_0_r.
  - inversion_clear Ht as [|? ? Hx _]. destruct fuel as [|fuel]; [simpl in Hf; lia|]. cbn [encode_loop].
    replace (zlen a <? zlen (a ++ [x])) with true by zbool. cbn [gather app].
    replace (zlen (a ++ [x]) <=? zlen a) with false by zbool. rewrite (zget_middle a x _ (zlen a)) by done. cbn [mbind outcome_bind].
    replace (zlen (a ++ [x]) <=? zlen a + 1) with true by zbool. cbn [mbind outcome_bind].
    rewrite byte_step by done. rewrite write_chars_run by (done || lia). cbn [mbind outcome_bind].
    replace (Z.shiftl (256 * 0 + x) ((3 - (0 + 1)) * 8)) with (65536 * x) by (rewrite Z.shiftl_mul_pow2 by lia; lia).
    destruct fuel; cbn [encode_loop]; (replace (zlen a + 1 <? zlen (a ++ [x])) with false by zbool); done.
  - inversion_clear Ht as [|? ? Hx Ht']. inversion_clear Ht' as [|? ? Hy _]. destruct fuel as [|fuel]; [simpl in Hf; lia|]. cbn [encode_loop].
    replace (zlen a <? zlen (a ++ [x; y])) with true by zbool. cbn [gather app].
    replace (zlen (a ++ [x; y]) <=? zlen a) with false by zbool. rewrite (zget_middle a x _ (zlen a)) by done. cbn [mbind outcome_bind].
    replace (zlen (a ++ [x; y]) <=? zlen a + 1) with false by zbool.
    rewrite (cons_middle x a), (app_assoc a), (zget_middle (a ++ [x]) y _ (zlen a + 1)) by zlen_lia. cbn [mbind outcome_bind].
    replace (zlen (a ++ [x; y]) <=? zlen a + 1 + 1) with true by zbool. cbn [mbind outcome_bind].
    rewrite !byte_step by done. rewrite write_chars_run by (done || lia). cbn [mbind outcome_bind].
    replace (Z.shiftl (256 * (256 * 0 + x) + y) ((3 - (0 + 1 + 1)) * 8)) with (65536 * x + 256 * y) by (rewrite Z.shiftl_mul_pow2 by lia; lia).
    destruct fuel; cbn [encode_loop]; (replace (zlen a + 1 + 1 <? zlen (a ++ [x; y])) with false by zbool); done.
  - inversion_clear Ht as [|? ? Hx Ht']. inversion_clear Ht' as [|? ? Hy Ht'']. inversion_clear Ht'' as [|? ? Hz Ht].
    destruct fuel as [|fuel]; [simpl in Hf; lia|]. cbn [encode_loop].
    pose proof (zlen_nonneg t). replace (zlen a <? zlen (a ++ x :: y :: z :: t)) with true by zbool. cbn [gather app].
    replace (zlen (a ++ x :: y :: z :: t) <=? zlen a) with false by zbool. rewrite (zget_middle a x _ (zlen a)) by done. cbn [mbind outcome_bind].
    replace (zlen (a ++ x :: y :: z :: t) <=? zlen a + 1) with false by zbool.
    replace (a ++ x :: y :: z :: t ++ r) with ((a ++ [x]) ++ y :: z :: t ++ r) by (by rewrite <- app_assoc).
    rewrite (zget_middle (a ++ [x]) y _ (zlen a + 1)) by zlen_lia. cbn [mbind outcome_bind].
    replace (zlen (a ++ x :: y :: z :: t) <=? zlen a + 1 + 1) with false by zbool.
    replace ((a ++ [x]) ++ y :: z :: t ++ r) with ((a ++ [x; y]) ++ z :: t ++ r) by (by rewrite <- !app_assoc).
    rewrite (zget_middle (a ++ [x; y]) z _ (zlen a + 1 + 1)) by zlen_lia. cbn [mbind outcome_bind].
    rewrite !byte_step by done. destruct (split_at o 4) as (o1 & o2 & -> & Ho1); [cbn [base64] in Ho; rewrite length_app in Ho; simpl in Ho; lia|].
    rewrite <- (app_assoc o1), write_chars_run by (done || lia). cbn [mbind outcome_bind].
    replace (Z.shiftl (256 * (256 * (256 * 0 + x) + y) + z) ((3 - (0 + 1 + 1 + 1)) * 8)) with (65536 * x + 256 * y + z) by (rewrite Z.shiftl_mul_pow2 by lia; lia).
    replace ((a ++ [x; y]) ++ z :: t ++ r) with ((a ++ [x; y; z]) ++ t ++ r) by (by rewrite <- !app_assoc).
    replace (zlen (a ++ x :: y :: z :: t)) with (zlen ((a ++ [x; y; z]) ++ t)) by zlen_lia.
    replace (zlen a + 1 + 1 + 1) with (zlen (a ++ [x; y; z])) by zlen_lia.
    match goal with |- context [p ++ ?g ++ o2 ++ q] => change g with (group3 x y z); change (zlen p + 4) with (zlen p + zlen (group3 x y z)) end.
    rewrite (app_assoc p), <- zlen_app, IH; [|done|simpl in Hf; lia|cbn [base64] in Ho; rewrite !length_app in Ho; simpl in Ho; lia].
    cbn [base64]. rewrite <- !app_assoc. f_equal. f_equal. rewrite !zlen_app. lia.
Qed.

Lemma base64_length t : zlen (base64 t) = 4 * ((zlen t + 2) / 3).
Proof.
  induction t as [|x|x y|x y z t IH] using triples_ind; try reflexivity.
  cbn [base64]. rewrite zlen_app, IH, !zlen_cons. change (zlen (group3 x y z)) with 4.
  replace (1 + (1 + (1 + zlen t)) + 2) with (1 * 3 + (zlen t + 2)) by lia. rewrite Z.div_add_l by lia. lia.
Qed.

Lemma base64_encode_run t r :
  Forall byte t -> base64_encode (t ++ r) (zlen t) = Ok (base64 t ++ [0]).
Proof.
  intros Ht. pose proof (zlen_nonneg t). pose proof (base64_length t) as Hl.
  assert (0 <= zlen (base64 t)) as H0 by done. unfold base64_encode.
  assert ((if 0 <? Z.rem (zlen t) 3 then Z.quot (zlen t) 3 + 1 else Z.quot (zlen t) 3) * 4 + 1 = zlen (base64 t) + 1) as ->.
  { rewrite Hl, Z.quot_div_nonneg, Z.rem_mod_nonneg by lia. destruct (Z.ltb_spec 0 (zlen t mod 3)); div_lia. }
  unfold memset. rewrite Z2Nat.inj_add, replicate_add by lia. change (replicate (Z.to_nat 1) 0) with [0].
  pose proof (encode_loop_run t (Z.to_nat (zlen t)) [] r [] (replicate (Z.to_nat (zlen (base64 t))) 0) [0] Ht) as H1.
  cbn [app] in H1. change (zlen []) with 0 in H1.
  rewrite H1 by (rewrite ?length_replicate; zlen_lia). cbn [mbind outcome_bind fst snd].
  by rewrite zset_middle by lia.
Qed.

(** ** Decoding *)

Lemma gather_char n a x r stop tmp temp prepare :
  0 <= x < 64 -> tmp = zlen a -> tmp < stop ->
  gather_chars (S n) (a ++ base_char x :: r) stop tmp temp prepare =
  gather_chars n (a ++ base_char x :: r) stop (tmp + 1) (temp + 1) (64 * prepare + x).
Proof.
  intros Hx -> Hs. cbn [gather_chars]. replace (stop <=? zlen a) with false by zbool. rewrite zget_middle by done.
  cbn [mbind outcome_bind]. destruct (find_base_char x Hx) as [-> _]. cbn [mbind outcome_bind]. by rewrite char_step.
Qed.

Lemma gather_stop n data stop tmp temp prepare :
  stop <= tmp -> gather_chars n data stop tmp temp prepare = Ok (tmp, temp, prepare).
Proof. intros Hs. destruct n; [done|]. cbn [gather_chars]. by replace (stop <=? tmp) with true by zbool. Qed.

(** The characters of the three and the four sextets of [q]. *)
Lemma gather_run q a r stop k :
  k = 2 \/ k = 3 \/ k = 4 -> stop = zlen a + k \/ k = 4 /\ zlen a + 4 <= stop ->
  0 <= q < 16777216 ->
  gather_chars 4 (a ++ base_char (sextet q 18) :: base_char (sextet q 12) :: (if k =? 2 then r else base_char (sextet q 6) ::
      (if k =? 3 then r else base_char (sextet q 0) :: r))) stop (zlen a) 0 0 =
  Ok (zlen a + k, k, q / 64 ^ (4 - k)).
Proof.
  intros Hk Hstop Hq. pose proof (sextet_range q 18). pose proof (sextet_range q 12).
  pose proof (sextet_range q 6). pose proof (sextet_range q 0).
  set (c1 := base_char (sextet q 18)). set (c2 := base_char (sextet q 12)).
  unfold c1 at 1. rewrite (gather_char 3 a (sextet q 18)) by lia. fold c1.
  rewrite (cons_middle c1 a), (app_assoc a). unfold c2 at 1. rewrite (gather_char 2 (a ++ [c1]) (sextet q 12)) by (lia || zlen_lia). fold c2.
  assert (q / 64 ^ 2 = 64 * sextet q 18 + sextet q 12) as E2 by (unfold sextet; simpl; div_lia).
  assert (q / 64 ^ 1 = 64 * (64 * sextet q 18 + sextet q 12) + sextet q 6) as E3 by (unfold sextet; simpl; div_lia).
  assert (q / 64 ^ 0 = 64 * (64 * (64 * sextet q 18 + sextet q 12) + sextet q 6) + sextet q 0) as E4 by (unfold sextet; simpl; div_lia).
  destruct Hk as [-> | [-> | ->]]; cbn [Z.eqb Pos.eqb].
  - rewrite gather_stop by lia. change (4 - 2) with 2. rewrite E2. do 3 f_equal; lia.
  - rewrite (cons_middle c2 (a ++ [c1])), (app_assoc (a ++ [c1])), gather_char by (lia || zlen_lia).
    rewrite gather_stop by lia. change (4 - 3) with 1. rewrite E3. do 3 f_equal; lia.
  - set (c3 := base_char (sextet q 6)).
    rewrite (cons_middle c2 (a ++ [c1])), (app_assoc (a ++ [c1])). unfold c3 at 1. rewrite gather_char by (lia || zlen_lia). fold c3.
    rewrite (cons_middle c3 ((a ++ [c1]) ++ [c2])), (app_assoc ((a ++ [c1]) ++ [c2])). rewrite gather_char by (lia || zlen_lia).
    cbn [gather_chars]. change (4 - 4) with 0. rewrite E4. do 3 f_equal; lia.
Qed.

Definition octet (q s : Z) : Z := q / 2 ^ s mod 256.

Lemma land_octet q s : 0 <= s -> Z.land (Z.shiftr q s) 255 = octet q s.
Proof. intros Hs. rewrite <- land_255, Z.shiftr_div_pow2 by lia. done. Qed.

Lemma write_bytes_run k q p o r :
  2 <= k -> length o = (if Z.eqb k 2 then 2 else 3)%nat ->
  write_bytes k q (p ++ o ++ r) (zlen p) =
  Ok (p ++ octet q 16 :: octet q 8 :: (if k =? 2 then r else octet q 0 :: r), zlen p + (if k =? 2 then 2 else 3)).
Proof.
  intros Hk Ho. unfold write_bytes. cbn [for_loop].
  replace (0 =? k) with false by (symmetry; apply Z.eqb_neq; lia). replace (0 + 1 =? k) with false by (symmetry; apply Z.eqb_neq; lia).
  rewrite !land_octet by lia. change ((2 - 0) * 8) with 16. change ((2 - (0 + 1)) * 8) with 8. change ((2 - (0 + 1 + 1)) * 8) with 0.
  destruct (Z.eqb_spec k 2) as [->|Hk2].
  - destruct o as [|o0 [|o1 [|o2 o]]]; try done. cbn [app]. rewrite zset_middle by done. cbn [mbind outcome_bind fst snd].
    rewrite (cons_middle _ p), (app_assoc p), zset_middle by zlen_lia. change (0 + 1 + 1 =? 2) with true. cbn [mbind outcome_bind fst snd].
    rewrite <- app_assoc. cbn [app]. f_equal. f_equal. lia.
  - destruct o as [|o0 [|o1 [|o2 [|o3 o]]]]; try done. cbn [app]. rewrite zset_middle by done. cbn [mbind outcome_bind fst snd].
    rewrite (cons_middle _ p), (app_assoc p), zset_middle by zlen_lia. cbn [mbind outcome_bind fst snd].
    replace (0 + 1 + 1 =? k) with false by (symmetry; apply Z.eqb_neq; lia).
    rewrite (cons_middle _ (p ++ _)), (app_assoc (p ++ _)), zset_middle by zlen_lia. cbn [mbind outcome_bind fst snd].
    rewrite <- !app_assoc. cbn [app]. f_equal. f_equal. lia.
Qed.

(** What a group of [k] characters gives back. *)
Lemma octets q a b c : byte a -> byte b -> byte c -> q = 65536 * a + 256 * b + c ->
  octet q 16 = a /\ octet q 8 = b /\ octet q 0 = c /\ 0 <= q < 16777216.
Proof. unfold byte, octet. intros Ha Hb Hc ->. simpl. split_and!; div_lia. Qed.

Lemma prepare_back k q :
  k = 2 \/ k = 3 \/ k = 4 -> 0 <= q < 16777216 -> q mod 64 ^ (4 - k) = 0 ->
  s32 (Z.shiftl (q / 64 ^ (4 - k)) ((4 - k) * 6)) = q.
Proof.
  intros Hk Hq Hm. rewrite Z.shiftl_mul_pow2 by lia.
  assert (q / 64 ^ (4 - k) * 2 ^ ((4 - k) * 6) = q) as E.
  { destruct Hk as [-> | [-> | ->]]; simpl in *; div_lia. }
  rewrite E. apply s32_id. lia.
Qed.

(** The characters of a group with the shift of its last bits, and the bytes
    written of it: those the encoder took, and a zero behind one or two. *)
Lemma group_back k q p o r a rest stop :
  k = 2 \/ k = 3 \/ k = 4 -> stop = zlen a + k \/ k = 4 /\ zlen a + 4 <= stop ->
  0 <= q < 16777216 -> q mod 64 ^ (4 - k) = 0 -> length o = (if Z.eqb k 2 then 2 else 3)%nat ->
  (g ← gather_chars 4 (a ++ base_char (sextet q 18) :: base_char (sextet q 12) :: (if k =? 2 then rest else base_char (sextet q 6) ::
      (if k =? 3 then rest else base_char (sextet q 0) :: rest))) stop (zlen a) 0 0;
   write_bytes g.1.2 (s32 (Z.shiftl g.2 ((4 - g.1.2) * 6))) (p ++ o ++ r) (zlen p)) =
  Ok (p ++ octet q 16 :: octet q 8 :: (if k =? 2 then r else octet q 0 :: r), zlen p + (if k =? 2 then 2 else 3)).
Proof.
  intros Hk Hs Hq Hm Ho. rewrite gather_run by done. cbn [mbind outcome_bind fst snd].
  rewrite prepare_back by done. by rewrite write_bytes_run by (done || lia).
Qed.

(** The loop writes past its array of three bytes in its first round. *)
Lemma decode_overflow fuel need data stop tmp ret f :
  length need = 3%nat -> tmp < stop -> decode_loop (S fuel) need data stop tmp ret f = Fault.
Proof.
  intros Hn Hs. cbn [decode_loop]. replace (tmp <? stop) with true by (symmetry; apply Z.ltb_lt; lia). unfold poke.
  replace (0 + zlen (memset 0 4) <=? zlen need) with false; [done|]. unfold zlen at 2. by rewrite Hn.
Qed.

Lemma base64_decode_faults data len : 4 <= len <= zlen data -> base64_decode data len = Fault.
Proof.
  intros Hd. unfold base64_decode.
  destruct (zget_in_range data (len - 1)) as [a ->]; [lia|]. destruct (zget_in_range data (len - 2)) as [b ->]; [lia|].
  destruct (zget_in_range data (len - 3)) as [c ->]; [lia|]. cbn [mbind outcome_bind].
  replace (Z.to_nat len) with (S (Z.to_nat (len - 1))) by lia.
  rewrite decode_overflow; [done|done|]. destruct (a =? 61), (b =? 61), (c =? 61); lia.
Qed.
