(* ===== verification/BasTheorems.v ===== *)
(** * What the string and date routines guarantee

    The theorems on [bas_string.c] and [bas_date.c], each applied to a concrete
    input. *)

From S2P Require Import Prelude LibC Buffers CFloat Calendar BasString BasStringFacts BasDate BasDateFacts.

(** The constants of the missing header, with the values the comments give. *)
#[export] Instance sample_global : BasGlobal := Build_BasGlobal 1 0 49 eq_refl eq_refl.

(** Beijing time. *)
#[export] Instance beijing : TimeZone := fixed_zone 28800.
#[export] Instance beijing_laws : TimeZoneLaws := fixed_zone_laws 28800 eq_refl.
#[export] Instance beijing_midnight : TimeZoneMidnight := fixed_zone_midnight 28800 eq_refl.

(** ** Dates *)

(** C22: [basAddDays] of a date and a number of days gives the date that many
    days later in the calendar, across months, leap years and centuries, in
    every time zone whose offsets differ by at most three hours, for up to 24855
    days. *)
Theorem add_days_moves_the_date `{TimeZoneLaws} d d' n r :
  in_text d -> in_text d' -> days_of d' = days_of d + n -> -24855 <= n <= 24855 ->
  basAddDays (ymd d ++ r) n = Ok (ymd d' ++ [0]).
Proof. intros Hd Hd' Hn Hr. by apply add_days_run. Qed.

Lemma add_days_moves_the_date_witness : basAddDays (lit "20231230" ++ [0]) 62 = Ok (lit "20240301" ++ [0]).
Proof.
  assert (in_text (Date 2023 12 30)) as Hd by (split; [reflexivity|cbn; lia]).
  assert (in_text (Date 2024 3 1)) as Hd' by (split; [reflexivity|cbn; lia]).
  exact (add_days_moves_the_date (Date 2023 12 30) (Date 2024 3 1) 62 [0] Hd Hd' eq_refl ltac:(lia)).
Defined.

(** [basAddMonths] of a date moves the month and keeps the day, cut to the
    last day of the new month; its loop ends within four rounds.  Of a month
    alone it gives the month moved. *)
Theorem add_months_moves_the_month `{BasGlobal} `{TimeZoneMidnight} fuel d n r :
  fits_text d -> 0 <= 12 * d_year d + d_month d - 1 + n < 120000 -> (4 <= fuel)%nat ->
  basAddMonths fuel (ymd d ++ 0 :: r) n = Ok (ymd (add_months d n) ++ [0]) /\
  exists tail, basAddMonths fuel (dec0 4 (d_year d) ++ dec0 2 (d_month d) ++ 0 :: r) n =
    Ok (dec0 4 (d_year (add_months d n)) ++ dec0 2 (d_month (add_months d n)) ++ 0 :: tail).
Proof.
  intros Hd Hn Hf. split; [by apply add_months_run|]. apply add_months_of_month; [apply Hd|apply Hd|done|done].
Qed.

Lemma add_months_moves_the_month_witness : basAddMonths 4 (lit "20230831" ++ [0]) 6 = Ok (lit "20240229" ++ [0]).
Proof.
  assert (fits_text (Date 2023 8 31)) as Hd by (unfold fits_text; cbn [d_year d_month d_day]; lia).
  assert (0 <= 12 * d_year (Date 2023 8 31) + d_month (Date 2023 8 31) - 1 + 6 < 120000) as Hn
    by (cbn [d_year d_month]; lia).
  exact (proj1 (add_months_moves_the_month 4 (Date 2023 8 31) 6 [] Hd Hn (le_n 4))).
Defined.

(** [basGetWeekDayByDate] of a date gives the day of the week of the
    calendar, 0 for Sunday. *)
Theorem week_day_of_date d r :
  in_text d -> 1 <= d_year d -> basGetWeekDayByDate (ymd d ++ r) = Ok (weekday d).
Proof.
  intros Hd Hy. unfold basGetWeekDayByDate. pose proof (in_text_fits d Hd) as Hf.
  rewrite date_fields_ymd by done. cbn [mbind outcome_bind fst snd].
  destruct (atoi_fields d Hf) as (-> & -> & ->). apply week_day_run; [apply Hd|done].
Qed.

Lemma week_day_of_date_witness : basGetWeekDayByDate (lit "20000101" ++ [0]) = Ok 6.
Proof.
  assert (in_text (Date 2000 1 1)) as Hd by (split; [reflexivity|cbn; lia]).
  exact (week_day_of_date (Date 2000 1 1) [0] Hd ltac:(cbn; lia)).
Defined.

(** [basIsValidDate] of any eight digits says whether they are a date of
    the calendar with a year from 1. *)
Theorem is_valid_date_decides `{BasGlobal} Y M D r :
  all_digits Y -> all_digits M -> all_digits D -> zlen Y = 4 -> zlen M = 2 -> zlen D = 2 ->
  basIsValidDate (Y ++ M ++ D ++ r) =
    Ok (if (1 <=? value_of Y) && valid_date (Date (value_of Y) (value_of M) (value_of D)) then BAS_TRUE else BAS_FALSE).
Proof. intros HY HM HD LY LM LD. rewrite bas_true_1, bas_false_0. by apply is_valid_date_run. Qed.

Lemma digits_of (s : bytes) : forallb (λ c, (48 <=? c) && (c <=? 57)) s = true -> all_digits s.
Proof. intros H. apply Forall_forall. intros c Hc. rewrite forallb_forall in H. apply list_elem_of_In, H in Hc. lia. Qed.

Lemma is_valid_date_decides_witness :
  basIsValidDate (lit "19000229" ++ [0]) = Ok 0 /\ basIsValidDate (lit "20000229" ++ [0]) = Ok 1.
Proof.
  split.
  - exact (is_valid_date_decides (lit "1900") (lit "02") (lit "29") [0] (digits_of (lit "1900") eq_refl)
      (digits_of (lit "02") eq_refl) (digits_of (lit "29") eq_refl) eq_refl eq_refl eq_refl).
  - exact (is_valid_date_decides (lit "2000") (lit "02") (lit "29") [0] (digits_of (lit "2000") eq_refl)
      (digits_of (lit "02") eq_refl) (digits_of (lit "29") eq_refl) eq_refl eq_refl eq_refl).
Defined.

(** [basGetLastDayOfMonth] writes the last day of the month over the day of
    the date, leap years included, and answers 0; for a month outside 1..12 it
    answers -1 and leaves the date alone. *)
Theorem last_day_of_month `{BasGlobal} Y M D r :
  all_digits Y -> all_digits M -> zlen Y = 4 -> zlen M = 2 -> zlen D = 2 ->
  basGetLastDayOfMonth (Y ++ M ++ D ++ r) =
    Ok (if (1 <=? value_of M) && (value_of M <=? 12)
        then (0, Y ++ M ++ dec0 2 (month_days (value_of Y) (value_of M)) ++ r)
        else (-1, Y ++ M ++ D ++ r)).
Proof. intros HY HM LY LM LD. by apply last_day_run. Qed.

Lemma last_day_of_month_witness : basGetLastDayOfMonth (lit "20240201" ++ [0]) = Ok (0, lit "20240229" ++ [0]).
Proof.
  exact (last_day_of_month (lit "2024") (lit "02") (lit "01") [0] (digits_of (lit "2024") eq_refl)
    (digits_of (lit "02") eq_refl) eq_refl eq_refl eq_refl).
Defined.

(** [basDateToJulianDate] of a date always overflows its buffer: the five
    characters and the NUL go to a [char [5]]. *)
Theorem julian_date_overflows `{TimeZoneMidnight} d r :
  in_text d -> basDateToJulianDate (ymd d ++ r) = Fault.
Proof.
  intros Hd. unfold basDateToJulianDate. pose proof (in_text_fits d Hd) as Hf.
  rewrite date_fields_ymd by done. cbn [mbind outcome_bind]. unfold mktime. rewrite tm_seconds_ymd by done.
  change (tm_isdst (tm_of_fields _ 0)) with (-1).
  destruct (tz_midnight (days_of d)) as [Ht _]. replace (86400 * days_of d + 3600 * 0 + 1) with (86400 * days_of d + 1) by lia.
  apply Z.eqb_neq in Ht as ->. by apply yyddd_overflows.
Qed.

Lemma julian_date_overflows_witness : basDateToJulianDate (lit "20240201" ++ [0]) = Fault.
Proof.
  assert (in_text (Date 2024 2 1)) as Hd by (split; [reflexivity|cbn; lia]).
  exact (julian_date_overflows (Date 2024 2 1) [0] Hd).
Defined.

(** ** Trimming *)

(** [basRTrim] turns the blanks at the end of a text into NULs and
    [basLTrim] moves the text over the blanks at its start, within the buffer:
    what is left starts, or ends, with no blank, and only blanks went. *)
Theorem trims_blanks s r iMaxLen :
  cstring s -> s <> [] -> zlen s <= iMaxLen < 2147483648 ->
  (basRTrim (s ++ 0 :: r) iMaxLen = Ok (rstrip s ++ replicate (length s - length (rstrip s)) 0 ++ 0 :: r) /\
   s = rstrip s ++ replicate (length s - length (rstrip s)) 32 /\ last (rstrip s) <> Some 32) /\
  ((exists g, basLTrim (s ++ 0 :: r) iMaxLen = Ok (lstrip s ++ 0 :: g ++ r) /\ (length g + length (lstrip s) = length s)%nat) /\
   (exists k, s = replicate k 32 ++ lstrip s) /\ head (lstrip s) <> Some 32).
Proof.
  intros Hs Hne Hl. split; [split_and!|split_and!].
  - by apply rtrim_run.
  - apply rstrip_split.
  - apply rstrip_last.
  - apply ltrim_run; [done|lia].
  - apply lstrip_split.
  - destruct (lstrip s) as [|c t] eqn:E; [done|]. apply lstrip_first in E. by intros [= ->].
Qed.

Lemma cstring_of (s : bytes) : forallb (λ c, (0 <? c) && (c <? 256)) s = true -> cstring s.
Proof.
  intros H. apply Forall_forall. intros c Hc. rewrite forallb_forall in H. apply list_elem_of_In, H in Hc.
  unfold cchar. lia.
Qed.

Lemma trims_blanks_witness :
  basRTrim (lit " ab  " ++ [0; 7]) 5 = Ok (lit " ab" ++ [0; 0; 0; 7]) /\
  exists g, basLTrim (lit " ab  " ++ [0; 7]) 5 = Ok (lit "ab  " ++ 0 :: g ++ [7]).
Proof.
  destruct (trims_blanks (lit " ab  ") [7] 5 (cstring_of (lit " ab  ") eq_refl) ltac:(discriminate)
    ltac:(split; [apply Z.leb_le; reflexivity|lia])) as [[Hr _] [(g & Hl & _) _]].
  split; [exact Hr|]. exists g. exact Hl.
Defined.

(** ** Check digits *)

(** [basChkActBit] answers whether the card number passes the Luhn check,
    and leaves in the buffer the only last digit with which it does. *)
Theorem card_number_check s c r iCardLen :
  all_digits (s ++ [c]) -> card_end (zlen s + 1) r iCardLen ->
  exists b, basChkActBit (s ++ c :: r) iCardLen = Ok (if luhn_valid (s ++ [c]) then 1 else 0, s ++ b :: r) /\
    48 <= b <= 57 /\ luhn_valid (s ++ [b]) = true.
Proof. intros Hd He. by apply chk_act_bit_run. Qed.

Lemma card_number_check_witness :
  exists b, basChkActBit (lit "4539578763621486" ++ [0]) 16 = Ok (1, lit "453957876362148" ++ [b; 0]) /\
    luhn_valid (lit "453957876362148" ++ [b]) = true.
Proof.
  assert (card_end (zlen (lit "453957876362148") + 1) [0] 16) as He by (left; reflexivity).
  destruct (card_number_check (lit "453957876362148") 54 [0] 16 (digits_of (lit "4539578763621486") eq_refl) He)
    as (b & Hrun & _ & Hv).
  exists b. exact (conj Hrun Hv).
Defined.

(** [basIdno18GenCheckVal] computes, and [basIdno18IsValid] requires, the
    ISO 7064 MOD 11-2 check character of the seventeen digits; there is exactly
    one. *)
Theorem idno_check_character `{BasGlobal} s c x r :
  all_digits s -> length s = 17%nat -> is_check c ->
  basIdno18IsValid (s ++ c :: 0 :: r) = Ok (if idno_valid s c then 1 else 0) /\
  basIdno18GenCheckVal (s ++ x :: r) = Ok (check_char s, s ++ check_char s :: r) /\
  (idno_valid s c = true <-> c = check_char s).
Proof.
  intros Hs Hl Hc. split_and!; [by apply is_valid_run|by apply gen_check_val_run|].
  destruct (check_char_spec s) as (_ & Hv & Hu). split; [by apply Hu|by intros ->].
Qed.

Lemma idno_check_character_witness :
  basIdno18IsValid (lit "11010519491231002X" ++ [0]) = Ok 1 /\
  basIdno18GenCheckVal (lit "110105194912310020" ++ [0]) = Ok (88, lit "11010519491231002X" ++ [0]).
Proof.
  assert (is_check 88) as Hc by (right; reflexivity).
  destruct (idno_check_character (lit "11010519491231002") 88 48 [0] (digits_of (lit "11010519491231002") eq_refl)
    eq_refl Hc) as (_ & Hg & _).
  destruct (idno_check_character (lit "11010519491231002") 88 48 [] (digits_of (lit "11010519491231002") eq_refl)
    eq_refl Hc) as (Hv & _ & _).
  split; [exact Hv|exact Hg].
Defined.

(** C39: [basIdno18IsValid] detects every error in a single one of the 17
    digits before the check character of a valid number. *)
Theorem single_digit_errors_detected `{BasGlobal} a b d d' c r :
  all_digits (a ++ d :: b) -> 48 <= d' <= 57 -> length (a ++ d :: b) = 17%nat -> d <> d' -> is_check c ->
  basIdno18IsValid ((a ++ d :: b) ++ c :: 0 :: r) = Ok 1 ->
  basIdno18IsValid ((a ++ d' :: b) ++ c :: 0 :: r) = Ok 0.
Proof.
  intros Hd Hd' Hl Hne Hc Hv. rewrite is_valid_run in Hv by done.
  assert (idno_valid (a ++ d :: b) c = true) as Hok by (by destruct (idno_valid (a ++ d :: b) c)).
  assert (all_digits (a ++ d' :: b)) as Hd2.
  { apply Forall_app in Hd as [Ha Hb]. apply Forall_app. split; [done|]. by inversion Hb; subst; constructor. }
  rewrite is_valid_run; [|done|by rewrite length_app in *|done]. by rewrite (single_error_detected a b d d' c).
Qed.

Lemma single_digit_errors_detected_witness : basIdno18IsValid (lit "11010519491231003X" ++ [0]) = Ok 0.
Proof.
  assert (is_check 88) as Hc by (right; reflexivity).
  exact (single_digit_errors_detected (lit "1101051949123100") [] 50 51 88 [] (digits_of (lit "11010519491231002") eq_refl)
    ltac:(lia) eq_refl ltac:(lia) Hc eq_refl).
Defined.

(** [basIdno15To18] of a 15-digit number inserts the century and appends
    the check character, the result is valid, and [basIdno18To15] takes it
    back. *)
Theorem idno_15_18_round_trip `{BasGlobal} s x y z r :
  all_digits s -> length s = 15%nat ->
  basIdno15To18 (s ++ 0 :: x :: y :: z :: r) = Ok (idno_17 s ++ check_char (idno_17 s) :: 0 :: r) /\
  basIdno18IsValid (idno_17 s ++ check_char (idno_17 s) :: 0 :: r) = Ok 1 /\
  exists t, basIdno18To15 (idno_17 s ++ check_char (idno_17 s) :: 0 :: r) = Ok (s ++ 0 :: t ++ 0 :: r) /\ length t = 2%nat.
Proof.
  intros Hs Hl. split_and!; [by apply idno_15_to_18_run| |by apply idno_18_to_15_run].
  destruct (check_char_spec (idno_17 s)) as (Hc & Hv & _).
  rewrite is_valid_run; [by rewrite Hv|by apply idno_17_digits|by apply idno_17_length|done].
Qed.

Lemma idno_15_18_round_trip_witness :
  basIdno15To18 (lit "110105491231002" ++ [0; 1; 1; 1]) = Ok (lit "11010519491231002X" ++ [0]).
Proof. exact (proj1 (idno_15_18_round_trip (lit "110105491231002") 1 1 1 [] (digits_of (lit "110105491231002") eq_refl) eq_refl)). Defined.

(** ** Numbers, comparison, copying *)

(** [basAddString] adds one to the decimal number of a field, modulo its
    width, whatever increment the caller asks for, and leaves what follows the
    field alone. *)
Theorem add_string_adds_one s r iVal :
  all_digits s ->
  exists s', basAddString (s ++ r) (zlen s) iVal = Ok (s' ++ r) /\ all_digits s' /\ length s' = length s /\
    value_of s' = (value_of s + 1) mod 10 ^ zlen s.
Proof. intros Hs. by apply add_string_run. Qed.

Lemma add_string_adds_one_witness :
  exists s', basAddString (lit "0199" ++ [0]) 4 5 = Ok (s' ++ [0]) /\ value_of s' = 200.
Proof.
  destruct (add_string_adds_one (lit "0199") [0] 5 (digits_of (lit "0199") eq_refl)) as (s' & Hrun & _ & _ & Hv).
  exists s'. exact (conj Hrun Hv).
Defined.

(** [basMemcmp] answers 0 exactly when the two fields are equal once each
    is cut at its NUL and padded with blanks to the length; a buffer is read up
    to its NUL only. *)
Theorem memcmp_pads_with_blanks b1 b2 iLen :
  is_bytes b1 -> is_bytes b2 -> readable (Z.to_nat iLen) b1 -> readable (Z.to_nat iLen) b2 ->
  exists r, basMemcmp b1 b2 iLen = Ok r /\ (r = 0 <-> padded (Z.to_nat iLen) b1 = padded (Z.to_nat iLen) b2).
Proof. intros H1 H2 R1 R2. by apply (memcmp_loop_run b1 b2 H1 H2 (Z.to_nat iLen) 0 false false). Qed.

Lemma memcmp_pads_with_blanks_witness :
  exists r, basMemcmp (lit "ab" ++ [0]) (lit "ab  ") 4 = Ok r /\ r = 0.
Proof.
  assert (is_bytes (lit "ab" ++ [0]) /\ is_bytes (lit "ab  ")) as [H1 H2] by (split; repeat constructor; lia).
  assert (readable (Z.to_nat 4) (lit "ab" ++ [0])) as R1 by (right; apply (list_elem_of_lookup_2 _ 2); reflexivity).
  assert (readable (Z.to_nat 4) (lit "ab  ")) as R2 by (left; apply Nat.leb_le; reflexivity).
  destruct (memcmp_pads_with_blanks (lit "ab" ++ [0]) (lit "ab  ") 4 H1 H2 R1 R2) as (r & Hrun & Hr).
  exists r. split; [exact Hrun|]. apply Hr. reflexivity.
Defined.

(** C40: [basStrlcpy] and [basStrlcat] on a destination of the size given never
    write past it, always terminate it, keep what fits of the source, and
    answer the length the result would have had. *)
Theorem strlcpy_strlcat_truncate t d s r :
  cstring t -> cstring s -> d <> [] ->
  basStrlcpy d (s ++ 0 :: r) (zlen d) =
    Ok (zlen s, take (pred (length d)) s ++ 0 :: drop (S (length (take (pred (length d)) s))) d) /\
  basStrlcat (t ++ 0 :: d) (s ++ 0 :: r) (zlen t + 1 + zlen d) =
    Ok (zlen t + zlen s, t ++ take (length d) s ++ 0 :: drop (length (take (length d) s)) d).
Proof. intros Ht Hs Hd. split; [by apply strlcpy_run|by apply strlcat_run]. Qed.

Lemma strlcpy_strlcat_truncate_witness :
  basStrlcpy [9; 9; 9] (lit "abcd" ++ [0]) 3 = Ok (4, lit "ab" ++ [0]) /\
  basStrlcat (lit "x" ++ [0; 9; 9]) (lit "abcd" ++ [0]) 4 = Ok (5, lit "xab" ++ [0]).
Proof.
  split.
  - exact (proj1 (strlcpy_strlcat_truncate (lit "x") [9; 9; 9] (lit "abcd") [] (cstring_of (lit "x") eq_refl)
      (cstring_of (lit "abcd") eq_refl) ltac:(discriminate))).
  - exact (proj2 (strlcpy_strlcat_truncate (lit "x") [9; 9] (lit "abcd") [] (cstring_of (lit "x") eq_refl)
      (cstring_of (lit "abcd") eq_refl) ltac:(discriminate))).
Defined.

(** ** Searching *)

(** [basLocateStr] answers the first index at which the pattern occurs, or
    -1 when it occurs nowhere. *)
Theorem locate_str_first s r p q :
  cstring s -> cstring p ->
  exists i, basLocateStr (s ++ 0 :: r) (p ++ 0 :: q) = Ok i /\
    ((i = -1 /\ forall k, (k < length s)%nat -> is_prefix p (drop k s) = false) \/
     (exists k : nat, i = Z.of_nat k /\ (k < length s)%nat /\ is_prefix p (drop k s) = true /\
        forall j, (j < k)%nat -> is_prefix p (drop j s) = false)).
Proof. intros Hs Hp. by apply locate_str_run. Qed.

Lemma locate_str_first_witness : basLocateStr (lit "abcbc" ++ [0]) (lit "bc" ++ [0]) = Ok 1.
Proof.
  destruct (locate_str_first (lit "abcbc") [] (lit "bc") [] (cstring_of (lit "abcbc") eq_refl)
    (cstring_of (lit "bc") eq_refl)) as (i & Hrun & [[-> Hno]|(k & -> & Hk & Hp & Hj)]).
  - specialize (Hno 1%nat ltac:(apply Nat.ltb_lt; reflexivity)). discriminate.
  - destruct k as [|[|k]]; [discriminate|exact Hrun|].
    specialize (Hj 1%nat ltac:(lia)). discriminate.
Defined.

(** [basCountStr] counts the occurrences of a non-empty pattern that do not
    overlap, from the left, within as many rounds as the text has bytes; with
    an empty pattern and a text it never ends, however long it runs. *)
Theorem count_str_occurrences s r p q fuel :
  cstring s -> cstring p -> (length s <= fuel)%nat ->
  basCountStr fuel (s ++ 0 :: r) (p ++ 0 :: q) =
    match p, s with [], _ :: _ => NoFuel | _, _ => Ok (occurrences p 0 s) end.
Proof.
  intros Hs Hp Hf. unfold basCountStr. rewrite !strlen_app by done. cbn [mbind outcome_bind].
  destruct (Z.ltb_spec (zlen s) (zlen p)) as [Hlt|Hge].
  - destruct p as [|c p]; [pose proof (zlen_nonneg s); change (zlen []) with 0 in Hlt; lia|]. f_equal. symmetry.
    assert (forall t, (length t < length (c :: p))%nat -> occurrences (c :: p) 0 t = 0) as Hno.
    { induction t as [|d t IH]; intros Ht; [done|]. cbn [occurrences].
      destruct (is_prefix (c :: p) (d :: t)) eqn:E; [apply is_prefix_length in E; simpl in *; lia|].
      apply IH. simpl in *. lia. }
    apply Hno. unfold zlen in Hlt. lia.
  - destruct p as [|c p].
    + destruct s as [|d s].
      * by destruct fuel.
      * apply count_str_loop_stuck. rewrite zlen_cons. pose proof (zlen_nonneg s). lia.
    + pose proof (count_str_loop_run (c :: p) s r (0 :: q) Hs Hp ltac:(done) fuel 0 0 ltac:(lia) ltac:(lia)) as H.
      by rewrite drop_0 in H.
Qed.

Lemma count_str_occurrences_witness :
  basCountStr 5 (lit "aaaba" ++ [0]) (lit "aa" ++ [0]) = Ok 1 /\ basCountStr 5 (lit "aaaba" ++ [0]) [0] = NoFuel.
Proof.
  assert (length (lit "aaaba") <= 5)%nat as Hf by (apply Nat.leb_le; reflexivity).
  split.
  - exact (count_str_occurrences (lit "aaaba") [] (lit "aa") [] 5 (cstring_of (lit "aaaba") eq_refl)
      (cstring_of (lit "aa") eq_refl) Hf).
  - exact (count_str_occurrences (lit "aaaba") [] [] [] 5 (cstring_of (lit "aaaba") eq_refl)
      (cstring_of [] eq_refl) Hf).
Defined.
