(* ===== verification/CodecTheorems.v ===== *)
(** * What the encoders guarantee

    The theorems on [bas_hex_util.c], [bas_encrypt.c] and [bas_encString.c],
    each applied to a concrete input. *)

From S2P Require Import Prelude LibC Buffers BasCodec BasCodecFacts BasLogFacts BasDes.
From S2P Require Import BasDesFacts BasDesRounds BasBase64.

(** [basBin2Hex] writes the upper-case hexadecimal text of a byte string,
    and [basHex2Bin] takes that text, or the same text in lower case, back to
    the byte string. *)
Theorem hex_round_trip bs r o q r' o' q' :
  Forall byte bs -> zlen o = 2 * zlen bs -> zlen o' = zlen bs ->
  basBin2Hex (o ++ q) (bs ++ r) (2 * zlen bs) = Ok (hex_text bs ++ q, zlen bs) /\
  basHex2Bin (o' ++ q') (hex_text bs ++ r') (2 * zlen bs) = Ok (bs ++ q', zlen bs) /\
  basHex2Bin (o' ++ q') (List.map tolower (hex_text bs) ++ r') (2 * zlen bs) = Ok (bs ++ q', zlen bs).
Proof.
  intros Hb Ho Ho'. split_and!; [by apply bin2hex_run|apply hex2bin_run; [exact HEX2BIN_digit|done|done]|].
  unfold hex_text. rewrite digits_text_map, List.map_map, <- (digits_text_map (λ x, tolower (hex_digit x))).
  apply hex2bin_run; [exact HEX2BIN_lower|done|done].
Qed.

Lemma hex_round_trip_witness :
  basBin2Hex [1; 2; 3; 4; 5] [171; 7] 4 = Ok (lit "AB07" ++ [5], 2) /\
  basHex2Bin [9; 9; 9] (lit "ab07") 4 = Ok ([171; 7; 9], 2).
Proof.
  assert (Forall byte [171; 7]) as Hb by (repeat constructor; lia).
  destruct (hex_round_trip [171; 7] [] [1; 2; 3; 4] [5] [] [9; 9] [9] Hb eq_refl eq_refl) as (H1 & _ & H2).
  split; [exact H1|exact H2].
Defined.

(** Decimal text of any length is packed two digits to a byte, an odd
    length filled up at the end with 15 by [basAsc2Bcd] and at the start with 0
    by [basAsc2Bc0], and [basBcd2Asc] and [basBc02Asc] take the packed form
    back to the text. *)
Theorem bcd_round_trip ds r o1 q1 o2 q2 o3 q3 o4 q4 :
  Forall nibble ds -> length o1 = length (bcd ds) -> length o2 = length ds ->
  length o3 = length (bc0 ds) -> length o4 = length ds ->
  basAsc2Bcd (o1 ++ q1) (ascii ds ++ r) (zlen ds) = Ok (bcd ds ++ q1, zlen (bcd ds)) /\
  basBcd2Asc (o2 ++ q2) (bcd ds ++ r) (zlen ds) = Ok (ascii ds ++ q2, zlen ds / 2) /\
  basAsc2Bc0 (o3 ++ q3) (ascii ds ++ r) (zlen ds) = Ok (bc0 ds ++ q3, zlen (bc0 ds)) /\
  basBc02Asc (o4 ++ q4) (bc0 ds ++ r) (zlen ds) = Ok (ascii ds ++ q4, zlen (bc0 ds)).
Proof.
  intros Hd H1 H2 H3 H4.
  split_and!; [by apply asc2bcd_run|by apply bcd2asc_run|by apply asc2bc0_run|by apply bc02asc_run].
Qed.

Lemma bcd_round_trip_witness :
  basAsc2Bcd [0; 0; 7] (lit "123") 3 = Ok ([18; 63; 7], 2) /\ basBcd2Asc [0; 0; 0; 7] [18; 63] 3 = Ok (lit "123" ++ [7], 1) /\
  basAsc2Bc0 [0; 0; 7] (lit "123") 3 = Ok ([1; 35; 7], 2) /\ basBc02Asc [0; 0; 0; 7] [1; 35] 3 = Ok (lit "123" ++ [7], 2).
Proof.
  assert (Forall nibble [1; 2; 3]) as Hd by (repeat constructor; lia).
  exact (bcd_round_trip [1; 2; 3] [] [0; 0] [7] [0; 0; 0] [7] [0; 0] [7] [0; 0; 0] [7] Hd eq_refl eq_refl eq_refl eq_refl).
Defined.

(** C37: [_lencodelog] writes the text of a message at any time of day, within a
    destination of that size and one byte, and [ldecodelog] takes the text back
    to the message. The text depends on the two bytes after the message, which
    the encoder reads. *)
Theorem log_round_trip t s x y o z q r ml o' q' r' ml' :
  Forall byte s -> 13 + zlen (log_body t s x y) < 10000000 ->
  length o = length (log_text t s x y) -> length o' = length s ->
  _lencodelog t (o ++ z :: q) ml (s ++ x :: y :: r) (zlen s) =
    Ok (log_text t s x y ++ 0 :: q, zlen (log_text t s x y)) /\
  ldecodelog (o' ++ q') ml' (log_text t s x y ++ r') (zlen (log_text t s x y)) = Ok (s ++ q', zlen s).
Proof. intros Hs Hl Ho Ho'. split; [by apply encode_run|by apply decode_run]. Qed.

Lemma log_round_trip_witness :
  exists text, _lencodelog 1700000000 (replicate 24 7) 0 (lit "hello" ++ [0; 0]) 5 = Ok (text ++ [0], 23) /\
    ldecodelog (replicate 6 7) 0 text 23 = Ok (lit "hello" ++ [7], 5).
Proof.
  exists (log_text 1700000000 (lit "hello") 0 0).
  assert (Forall byte (lit "hello")) as Hs by (repeat constructor; lia).
  destruct (log_round_trip 1700000000 (lit "hello") 0 0 (replicate 23 7) 7 [] [] 0 (replicate 5 7) [7] [] 0
    Hs ltac:(reflexivity) eq_refl eq_refl) as [H1 H2].
  split; [exact H1|]. rewrite app_nil_r in H2. exact H2.
Defined.

(** C18: [ldecodefd2fd] copies the plain parts of a file of any length and
    replaces every encoded block between them by its message; it writes one
    blank that is not in the file before the text after the last block.  The
    texts hold no NUL, and the last one is shorter than 51199 bytes. *)
Theorem log_file_decoded ps p :
  Forall good_part ps -> cstring p -> plain p -> zlen p < MAXLEN - 1 ->
  ldecodefd2fd (concat (List.map part_text ps) ++ p) = Ok (0, concat (List.map part_decoded ps) ++ 32 :: p).
Proof. apply ldecodefd2fd_run. Qed.

Lemma log_file_decoded_witness :
  ldecodefd2fd (lit "abDZ" ++ log_text 1700000000 (lit "hello") 0 0 ++ lit " DZY") = Ok (0, lit "abDZhello" ++ 32 :: lit " DZY").
Proof.
  assert (good_part (Part (lit "abDZ") 1700000000 (lit "hello") 0 0)) as Hg.
  { split_and!; [|exact (bool_decide_unpack (plain (lit "abDZ")) I)| |discriminate|].
    - exact (bool_decide_unpack (cstring (lit "abDZ")) I).
    - exact (bool_decide_unpack (cstring (lit "hello")) I).
    - intros H. vm_compute in H. discriminate H. }
  exact (log_file_decoded [Part (lit "abDZ") 1700000000 (lit "hello") 0 0] (lit " DZY") (Forall_cons_2 _ _ _ Hg (Forall_nil_2 _))
    (bool_decide_unpack (cstring (lit " DZY")) I) (bool_decide_unpack (plain (lit " DZY")) I) eq_refl).
Defined.

(** ** What the string encryption guarantees

    The theorems on [bas_encString.c], each applied to a concrete input, and
    the places where its DES and its base 64 leave their standards. *)

(** C17: under a key of sixteen bytes [DES_Encrypt] writes as many bytes as the
    text filled up with NULs to whole blocks has, and [DES_Decrypt] takes them
    back to the filled-up text, provided they hold no NUL: both functions
    measure their input with [strlen]. *)
Theorem des_string_round_trip key kt s r o q :
  length key = 16%nat -> Forall byte key -> cstring s -> 7 <= zlen r -> zlen o = zlen (s ++ fill s) ->
  exists c, zlen c = zlen (s ++ fill s) /\ Forall byte c /\
    DES_Encrypt (s ++ 0 :: r) (key ++ kt) (o ++ q) = Ok (c ++ q) /\
    (cstring c -> forall r' o' q', zlen o' = zlen c ->
      DES_Decrypt (c ++ 0 :: r') (key ++ kt) (o' ++ q') = Ok (s ++ fill s ++ q')).
Proof. intros Hk Hb Hs. by apply des_round_trip. Qed.

Definition sample_cipher : bytes := [181; 253; 191; 255; 48; 84; 90; 26; 192; 173; 199; 100; 223; 1; 49; 48].

Lemma des_string_round_trip_witness :
  DES_Encrypt (lit "secret text" ++ 0 :: memset 0 7) (lit "0123456789abcdef" ++ [0]) (memset 7 16 ++ [7]) = Ok (sample_cipher ++ [7]) /\
  DES_Decrypt (sample_cipher ++ 0 :: []) (lit "0123456789abcdef" ++ [0]) (memset 9 16 ++ [9]) =
    Ok (lit "secret text" ++ fill (lit "secret text") ++ [9]).
Proof.
  assert (Forall byte (lit "0123456789abcdef")) as Hb by (repeat constructor; lia).
  assert (cstring (lit "secret text")) as Hs by (apply (bool_decide_unpack _); vm_compute; exact I).
  assert (cstring sample_cipher) as Hsc by (apply (bool_decide_unpack _); vm_compute; exact I).
  destruct (des_string_round_trip (lit "0123456789abcdef") [0] (lit "secret text") (memset 0 7) (memset 7 16) [7] eq_refl
    Hb Hs ltac:(discriminate) eq_refl) as (c & Hc & _ & He & Hd).
  assert (DES_Encrypt (lit "secret text" ++ 0 :: memset 0 7) (lit "0123456789abcdef" ++ [0]) (memset 7 16 ++ [7]) =
    Ok (sample_cipher ++ [7])) as E by (vm_compute; reflexivity).
  assert (sample_cipher ++ [7] = c ++ [7]) as Hcc by congruence. apply app_inj_2 in Hcc as [<- _]; [|reflexivity].
  split; [exact E|]. exact (Hd Hsc [] (memset 9 16) [9] eq_refl).
Defined.

(** Under the key schedule of any 64 bits [DES_EncryptBlock] is a
    permutation of the blocks of eight bytes, and [DES_DecryptBlock] is its
    inverse. *)
Theorem des_permutes_blocks key :
  bits 64 key -> exists ks, DES_SubKey key = Ok ks /\
    (forall p, block p -> exists c, block c /\ forall o, length o = 8%nat ->
      DES_EncryptBlock p ks o = Ok c /\ DES_DecryptBlock c ks o = Ok p) /\
    (forall c, block c -> exists p, block p /\ forall o, length o = 8%nat ->
      DES_DecryptBlock c ks o = Ok p /\ DES_EncryptBlock p ks o = Ok c).
Proof.
  intros Hk. destruct (DES_SubKey_run key Hk) as (ks & Hr & Hs). exists ks. refine (conj Hr (conj _ _)).
  - intros p Hp. destruct (ciphers_forward ks Hs p Hp) as (c & _ & Hc & He & Hd).
    exists c. exact (conj Hc (λ o Ho, conj (He o Ho) (Hd o Ho))).
  - intros c Hc. destruct (ciphers_backward ks Hs c Hc) as (p & Hp & _ & He & Hd).
    exists p. exact (conj Hp (λ o Ho, conj (Hd o Ho) (He o Ho))).
Qed.

Definition sample_key : bytes := block_bits [19; 52; 87; 121; 155; 188; 223; 241].
Definition sample_block : bytes := [1; 35; 69; 103; 137; 171; 205; 239].

Lemma des_permutes_blocks_witness :
  exists ks c, DES_SubKey sample_key = Ok ks /\ DES_EncryptBlock sample_block ks (memset 0 8) = Ok c /\
    DES_DecryptBlock c ks (memset 0 8) = Ok sample_block.
Proof.
  assert (bits 64 sample_key) as Hk by (apply block_64; split; [reflexivity|repeat constructor; lia]).
  destruct (des_permutes_blocks sample_key Hk) as (ks & Hs & Hf & _).
  destruct (Hf sample_block) as (c & _ & Hc); [split; [reflexivity|repeat constructor; lia]|].
  destruct (Hc (memset 0 8) eq_refl) as [He Hd]. exists ks, c. exact (conj Hs (conj He Hd)).
Defined.

(** [DES_SubKey] with its last table as an argument. *)
Definition SubKey_with (pc2 key : bytes) : outcome (list bytes) :=
  temp ← DES_PC1 key (memset 0 56);
  r ← for_loop 16 0 1 (λ i '(temp, subKey),
    n ← zget LS i; temp ← DES_ROL temp n; k ← select pc2 48 temp (memset 0 48); Ok ((temp, subKey ++ [k]), true)) (temp, []);
  Ok r.2.

(** The table of the standard, counted from 0 as the code counts. *)
Definition standard_PC_2 : list Z := <[35%nat := 47]> PC_2.

(** The worked example of the standard: key 133457799BBCDFF1, block
    0123456789ABCDEF, cipher 85E813540F0AB405.  The code gives another cipher;
    with the standard's table in the place of [PC_2] it gives that one. *)
Example pc2_differs :
  (ks ← DES_SubKey sample_key; DES_EncryptBlock sample_block ks (memset 0 8)) = Ok [87; 177; 165; 11; 205; 192; 60; 173] /\
  (ks ← SubKey_with standard_PC_2 sample_key; DES_EncryptBlock sample_block ks (memset 0 8)) = Ok [133; 232; 19; 84; 15; 10; 180; 5] /\
  SubKey_with PC_2 = DES_SubKey.
Proof. split; [vm_compute; reflexivity|]. split; [vm_compute; reflexivity|reflexivity]. Qed.

(** C36: [base64_encode] writes the base 64 text of a byte string of any length
    ([base64]: four characters of the alphabet for every three bytes begun, the
    last ones equals signs) and a NUL, and nothing more.  [base64_decode] does
    not take it back: on the text of every byte string that is not empty it
    writes past its array. *)
Theorem base64_text t r r' :
  Forall byte t ->
  base64_encode (t ++ r) (zlen t) = Ok (base64 t ++ [0]) /\
  zlen (base64 t) = 4 * ((zlen t + 2) / 3) /\
  (t <> [] -> base64_decode (base64 t ++ r') (zlen (base64 t)) = Fault).
Proof.
  intros Ht. pose proof (base64_length t) as Hl. split; [by apply base64_encode_run|]. split; [done|].
  intros Hne. apply base64_decode_faults. rewrite zlen_app. pose proof (zlen_nonneg r').
  destruct t as [|x t]; [done|]. rewrite Hl, zlen_cons. pose proof (zlen_nonneg t). div_lia.
Qed.

Lemma base64_text_witness :
  base64_encode (lit "light w" ++ [0]) 7 = Ok (lit "bGlnaHQgdw==" ++ [0]) /\ 12 = 4 * ((7 + 2) / 3) /\
  (lit "light w" <> [] -> base64_decode (lit "bGlnaHQgdw==" ++ [0]) 12 = Fault).
Proof.
  assert (Forall byte (lit "light w")) as Hb by (repeat constructor; lia).
  exact (base64_text (lit "light w") [0] [0] Hb).
Defined.

(** What a round of [base64_decode] does behind its [memset]: the characters of
    three, two or one bytes become those bytes again, and one zero behind two or
    one. *)
Theorem base64_groups_back x y z r r' stop :
  byte x -> byte y -> byte z -> 4 <= stop ->
  let round text stop out := (g ← gather_chars 4 text stop 0 0 0; write_bytes g.1.2 (s32 (Z.shiftl g.2 ((4 - g.1.2) * 6))) out 0) in
  round (base64 [x; y; z] ++ r) stop (memset 0 3 ++ r') = Ok (x :: y :: z :: r', 3) /\
  round (base64 [x; y] ++ r) 3 (memset 0 3 ++ r') = Ok (x :: y :: 0 :: r', 3) /\
  round (base64 [x] ++ r) 2 (memset 0 2 ++ r') = Ok (x :: 0 :: r', 2).
Proof.
  intros Hx Hy Hz Hs round. assert (byte 0) as H0 by (unfold byte; lia).
  destruct (octets _ x y z Hx Hy Hz eq_refl) as (E1 & E2 & E3 & Hq).
  destruct (octets _ x y 0 Hx Hy H0 eq_refl) as (F1 & F2 & F3 & Hq').
  destruct (octets _ x 0 0 Hx H0 H0 eq_refl) as (G1 & G2 & G3 & Hq'').
  pose proof (λ k q stop o rest, group_back k q [] o r' [] rest stop) as Hb. change (zlen []) with 0 in Hb.
  cbn [app] in Hb. replace (65536 * x + 256 * y + 0) with (65536 * x + 256 * y) in * by lia.
  replace (65536 * x + 256 * 0 + 0) with (65536 * x) in * by lia. split_and!.
  - etransitivity; [apply (Hb 4 (65536 * x + 256 * y + z) stop (memset 0 3) r)|]; try done; try lia; [by rewrite Z.mod_1_r|].
    by rewrite E1, E2, E3.
  - etransitivity; [apply (Hb 3 (65536 * x + 256 * y) 3 (memset 0 3) (61 :: r))|]; try done; try lia; [change (64 ^ (4 - 3)) with 64; div_lia|].
    by rewrite F1, F2, F3.
  - etransitivity; [apply (Hb 2 (65536 * x) 2 (memset 0 2) (61 :: 61 :: r))|]; try done; try lia; [change (64 ^ (4 - 2)) with 4096; div_lia|].
    by rewrite G1, G2.
Qed.

(** Every call of [base64_decode] on at least four characters writes past
    [char need[3]]. *)
Theorem base64_decode_overflows data len : 4 <= len <= zlen data -> base64_decode data len = Fault.
Proof. apply base64_decode_faults. Qed.

Lemma base64_decode_overflows_witness : base64_decode (lit "QUJD") 4 = Fault.
Proof. exact (base64_decode_overflows (lit "QUJD") 4 ltac:(split; discriminate)). Defined.

(** [basEncString] decodes the key first, and so gets no further with a key of
    four characters or more; without [DBKEY] it reads a null pointer, and with
    an empty one it answers -1. *)
Theorem enc_string_never_encrypts DBKEY q caInString caOutString iFlag :
  basEncString None caInString caOutString iFlag = Fault /\
  basEncString (Some (0 :: q)) caInString caOutString iFlag = Ok (-1, caOutString) /\
  (cstring DBKEY -> 4 <= zlen DBKEY -> basEncString (Some (DBKEY ++ 0 :: q)) caInString caOutString iFlag = Fault).
Proof.
  split; [done|]. split; [done|]. intros Hk Hl. unfold basEncString. rewrite strlen_app by done. cbn [mbind outcome_bind].
  replace (zlen DBKEY =? 0) with false by (symmetry; apply Z.eqb_neq; lia).
  rewrite base64_decode_faults; [done|]. rewrite zlen_app. pose proof (zlen_nonneg (0 :: q)). lia.
Qed.

Lemma enc_string_never_encrypts_witness :
  basEncString (Some (lit "QUJDRA==" ++ [0])) (lit "secret" ++ [0]) (memset 0 16) ENCSTRING_FLAG_YES = Fault.
Proof.
  apply (proj2 (enc_string_never_encrypts (lit "QUJDRA==") [] (lit "secret" ++ [0]) (memset 0 16) ENCSTRING_FLAG_YES));
    [by apply (bool_decide_unpack _)|discriminate].
Defined.
