(* ===== verification/CHeap.v ===== *)
(** * Allocation and files

    The routines of [Frame_Lib] allocate blocks and free them.  A routine that
    does is a [cmd]: it passes on the number of live blocks and the number of
    calls of the allocator.  The allocator itself is a parameter; what
    [malloc] grants may depend on all earlier calls.  A block belongs to the
    one variable that points to it, [None] being NULL; a routine that frees the
    block drops the variable. *)

From S2P Require Import Prelude LibC Buffers.

(** [malloc] and [realloc]: whether call number [k] grants [n] bytes, what the
    new bytes hold, and whether [realloc] leaves the block where it is. *)
Class Allocator : Type := {
  grants : Z -> Z -> bool;
  junk : Z -> nat -> Z;
  stays : Z -> Z -> bool;
}.

Record heap_state : Type := mk_heap { live : Z; calls : Z }.

Definition cmd (A : Type) : Type := heap_state -> outcome (A * heap_state).

#[export] Instance cmd_ret : MRet cmd := λ A a h, Ok (a, h).
#[export] Instance cmd_bind : MBind cmd := λ A B f m h, r ← m h; f r.1 r.2.

(** A computation that does not allocate. *)
Definition lift {A} (o : outcome A) : cmd A := λ h, a ← o; Ok (a, h).

Section alloc.
Context `{Allocator}.

Definition new_bytes (k n : Z) : bytes := junk k <$> seq 0 (Z.to_nat n).

Definition malloc (n : Z) : cmd (option bytes) := λ h,
  if grants (calls h) n then Ok (Some (new_bytes (calls h) n), mk_heap (live h + 1) (calls h + 1))
  else Ok (None, mk_heap (live h) (calls h + 1)).

Definition free (p : option bytes) : cmd unit := λ h,
  match p with
  | None => Ok (tt, h)
  | Some _ => Ok (tt, mk_heap (live h - 1) (calls h))
  end.

(** The outcomes of [realloc] of a block: no memory, the block resized where
    it is, or a new block with the contents moved, the old one being freed. *)
Inductive reallocated : Type :=
  | No_memory
  | In_place (b : bytes)
  | Moved (b : bytes).

Definition realloc (b : bytes) (n : Z) : cmd reallocated := λ h,
  let b' := take (Z.to_nat n) b ++ new_bytes (calls h) (n - zlen b) in
  let h' := mk_heap (live h) (calls h + 1) in
  if grants (calls h) n then Ok (if stays (calls h) n then In_place b' else Moved b', h')
  else Ok (No_memory, h').

(** [p = malloc(n); memset(p, 0x00, n);] without a test in between: a NULL is
    dereferenced. *)
Definition malloc_zeroed (n : Z) : cmd bytes :=
  p ← malloc (u64 n);
  b ← lift (or_fault p);
  lift (poke b 0 (memset 0 (u64 n))).
End alloc.

(** ** Reasoning

    [becomes d m m']: from every heap, [m] does what [m'] does from a heap with
    [d] more live blocks.  [gives d m a]: it ends normally with [a]. *)
Definition becomes {A} (d : Z) (m m' : cmd A) : Prop :=
  forall h, exists k, m h = m' (mk_heap (live h + d) k).
Abbreviation gives d m a := (becomes d m (mret a)).

(** [m] runs into undefined behaviour, from every heap. *)
Definition faults {A} (m : cmd A) : Prop := forall h, m h = Fault.

Lemma becomes_refl {A} (m : cmd A) : becomes 0 m m.
Proof. intros [l k]. exists k. cbn. by rewrite Z.add_0_r. Qed.

Lemma gives_ret {A} (a : A) : gives 0 (mret a : cmd A) a.
Proof. apply becomes_refl. Qed.

Lemma becomes_trans {A} d1 d2 d (m m' m'' : cmd A) :
  becomes d1 m m' -> becomes d2 m' m'' -> d = d1 + d2 -> becomes d m m''.
Proof.
  intros H1 H2 -> h. destruct (H1 h) as (k & ->). destruct (H2 (mk_heap (live h + d1) k)) as (k' & ->).
  exists k'. cbn. by rewrite Z.add_assoc.
Qed.

Lemma becomes_faults {A} d (m m' : cmd A) : becomes d m m' -> faults m' -> faults m.
Proof. intros Hm Hf h. destruct (Hm h) as (k & ->). apply Hf. Qed.

Lemma gives_lift {A} (o : outcome A) a : o = Ok a -> gives 0 (lift o) a.
Proof. intros ->. intros [l k]. exists k. cbn. by rewrite Z.add_0_r. Qed.

Lemma gives_bind {A B} d1 d2 d (m : cmd A) a (f : A -> cmd B) m' :
  gives d1 m a -> becomes d2 (f a) m' -> d = d1 + d2 -> becomes d (m ≫= f) m'.
Proof.
  intros Hm Hf -> h. destruct (Hm h) as (k & Ek). destruct (Hf (mk_heap (live h + d1) k)) as (k' & Ek').
  exists k'. unfold mbind, cmd_bind. rewrite Ek. cbn. rewrite Ek'. cbn. by rewrite Z.add_assoc.
Qed.

Lemma gives_free b : gives (-1) (free (Some b)) tt.
Proof. intros [l k]. by exists k. Qed.

Lemma gives_free_null : gives 0 (free None) tt.
Proof. intros [l k]. exists k. cbn. by rewrite Z.add_0_r. Qed.

(** The step of a computation that does not allocate. *)
Lemma gives_lift_bind {A B} (o : outcome A) a (f : A -> cmd B) d m' :
  o = Ok a -> becomes d (f a) m' -> becomes d (lift o ≫= f) m'.
Proof. intros Ho Hf. apply (gives_bind 0 d d _ a); [by apply gives_lift|done|lia]. Qed.

(** A computation that allocates nothing in the end. *)
Lemma gives_bind_0 {A B} d (m : cmd A) a (f : A -> cmd B) m' :
  gives 0 m a -> becomes d (f a) m' -> becomes d (m ≫= f) m'.
Proof. intros Hm Hf. by apply (gives_bind 0 d d _ a). Qed.

Lemma faults_bind {A B} (m : cmd A) (f : A -> cmd B) : faults m -> faults (m ≫= f).
Proof. intros Hm h. unfold mbind, cmd_bind. by rewrite Hm. Qed.

Lemma faults_lift_bind {A B} (o : outcome A) (f : A -> cmd B) :
  o <> NoFuel -> (forall a, o = Ok a -> faults (f a)) -> faults (lift o ≫= f).
Proof. intros Ho Hf h. unfold mbind, cmd_bind, lift. destruct o as [a| |]; [|done|done]. by apply Hf. Qed.

Lemma zlen_memset0 n : 0 <= n -> zlen (memset 0 n) = n.
Proof. intros Hn. unfold memset, zlen. rewrite length_replicate. lia. Qed.

Section room.
Context `{Allocator}.

Lemma zlen_new_bytes k n : 0 <= n -> zlen (new_bytes k n) = n.
Proof. intros Hn. unfold new_bytes, zlen. rewrite length_fmap, length_seq. lia. Qed.

(** The allocator always has room for what an [int] can ask for. *)
Definition has_room : Prop := forall k n, 0 <= n < 2147483648 -> grants k n = true.

Hypothesis Hroom : has_room.

Lemma gives_malloc_zeroed n : 0 <= n < 2147483648 -> gives 1 (malloc_zeroed n) (memset 0 n).
Proof using Hroom.
  intros Hn [l k]. exists (k + 1). unfold malloc_zeroed, malloc, lift, mbind, cmd_bind. cbn [calls live].
  rewrite u64_id by lia. rewrite Hroom by lia. cbn [mbind outcome_bind fst snd or_fault].
  rewrite <- (app_nil_r (new_bytes k n)), poke_prefix by (rewrite zlen_new_bytes, zlen_memset0; lia).
  by rewrite app_nil_r.
Qed.
End room.

(** ** Files

    The part of [stdio.h] the routines of [Frame_Lib] use on an open file: its
    bytes and the position. *)

Record FILE : Type := mk_file { f_data : bytes; f_pos : Z }.

(** [fopen(name, "r")]: [None] for a file that cannot be opened. *)
Definition fopen_r (file : option bytes) : option FILE := (λ b, mk_file b 0) <$> file.

(** [fopen(name, "w+")] empties the file. *)
Definition fopen_w (file : option bytes) : option FILE := (λ _, mk_file [] 0) <$> file.

(** What is left to read. *)
Definition rest_of (f : FILE) : bytes := drop (Z.to_nat (f_pos f)) (f_data f).

Definition EOF : Z := -1.

Definition fgetc (f : FILE) : Z * FILE :=
  match rest_of f with
  | c :: _ => (c, mk_file (f_data f) (f_pos f + 1))
  | [] => (EOF, f)
  end.

(** At most [n] bytes, up to the first line feed and with it. *)
Fixpoint read_line (n : nat) (s : bytes) : bytes :=
  match n, s with
  | S n, c :: s => c :: (if c =? 10 then [] else read_line n s)
  | _, _ => []
  end.

(** [fgets(buf, size, f)]: NULL, and the buffer as it was, at the end of the
    file; with [size] 1 there is nothing to read (glibc). *)
Definition fgets (buf : bytes) (size : Z) (f : FILE) : outcome (option bytes * FILE) :=
  if size <=? 0 then Ok (None, f)
  else if size =? 1 then buf ← poke buf 0 [0]; Ok (Some buf, f)
  else
    match read_line (Z.to_nat (size - 1)) (rest_of f) with
    | [] => Ok (None, f)
    | l => buf ← poke buf 0 (l ++ [0]); Ok (Some buf, mk_file (f_data f) (f_pos f + zlen l))
    end.

(** [fseek(f, off, SEEK_SET)] and [SEEK_CUR]; a negative position is an error
    that changes nothing. *)
Definition fseek_set (f : FILE) (off : Z) : FILE := if off <? 0 then f else mk_file (f_data f) off.
Definition fseek_cur (f : FILE) (off : Z) : FILE := fseek_set f (f_pos f + off).

(** [fputs(s, f)] at the position, over what is there; a gap becomes NULs. *)
Definition fputs (s : bytes) (f : FILE) : FILE :=
  let p := Z.to_nat (f_pos f) in
  let s := content s in
  mk_file (take p (f_data f) ++ replicate (p - length (f_data f)) 0 ++ s ++ drop (p + length s) (f_data f))
    (f_pos f + zlen s).

(** ** Lines *)

Lemma read_line_length n : forall s, (length (read_line n s) <= n)%nat.
Proof. induction n as [|n IH]; intros [|c s]; simpl; [lia..|]. destruct (c =? 10); simpl; [lia|]. pose proof (IH s). lia. Qed.

(** A line that fits is read whole. *)
Lemma read_line_whole n : forall l s,
  Forall (λ c, c <> 10) l -> (length l < n)%nat -> read_line n (l ++ 10 :: s) = l ++ [10].
Proof.
  induction n as [|n IH]; intros l s Hl Hn; [lia|]. destruct l as [|c l]; [done|].
  apply Forall_cons in Hl as [Hc Hl]. cbn [app read_line]. destruct (Z.eqb_spec c 10); [done|].
  simpl in Hn. rewrite IH by (done || lia). done.
Qed.

(** What is left without a line feed is read whole. *)
Lemma read_line_last n : forall l,
  Forall (λ c, c <> 10) l -> (length l <= n)%nat -> read_line n l = l.
Proof.
  induction n as [|n IH]; intros [|c l] Hl Hn; [done|simpl in Hn; lia|done|].
  apply Forall_cons in Hl as [Hc Hl]. cbn [read_line]. destruct (Z.eqb_spec c 10); [done|].
  simpl in Hn. by rewrite IH by (done || lia).
Qed.

(** The file when [a] has been read and [b] is left. *)
Definition at_rest (a b : bytes) : FILE := mk_file (a ++ b) (zlen a).

Lemma rest_of_at a b : rest_of (at_rest a b) = b.
Proof. unfold rest_of, at_rest, zlen. cbn. by rewrite Nat2Z.id, drop_app_length. Qed.

Lemma at_rest_move a l b : mk_file (a ++ l ++ b) (zlen a + zlen l) = at_rest (a ++ l) b.
Proof. unfold at_rest. by rewrite <- app_assoc, zlen_app. Qed.

(** [fgets] into a buffer of [size] bytes that has room. *)
Lemma fgets_line buf size a l b r :
  1 < size -> l <> [] -> read_line (Z.to_nat (size - 1)) (l ++ b) = l -> zlen buf = zlen l + 1 ->
  fgets (buf ++ r) size (at_rest a (l ++ b)) = Ok (Some (l ++ 0 :: r), at_rest (a ++ l) b).
Proof.
  intros Hs Hne Hl Hbuf. unfold fgets. destruct (Z.leb_spec size 0); [lia|]. destruct (Z.eqb_spec size 1); [lia|].
  rewrite rest_of_at, Hl. destruct l as [|c l]; [done|].
  rewrite poke_prefix by (zlen_lia). cbn [mbind outcome_bind]. rewrite <- app_assoc.
  unfold at_rest at 1 2. cbn [f_data f_pos]. by rewrite at_rest_move.
Qed.

Lemma fgets_end buf size a : 1 < size -> fgets buf size (at_rest a []) = Ok (None, at_rest a []).
Proof.
  intros Hs. unfold fgets. destruct (Z.leb_spec size 0); [lia|]. destruct (Z.eqb_spec size 1); [lia|].
  rewrite rest_of_at. by destruct (Z.to_nat (size - 1)).
Qed.
