(* ===== verification/LibString.v ===== *)
(** * The string library ([lib_string.c]): definitions

    A pointer the code compares with NULL is an [option]; a routine that works
    in place returns the new buffer, one with a destination the new
    destination, and [None] where it returns NULL (its destination is then as
    it was, except where said).  The lengths are [int]s. *)

From S2P Require Import Prelude LibC Buffers Calendar CHeap.

(** ** The C library *)

(** [int n = strlen(s);] *)
Definition int_strlen (buf : bytes) : outcome Z := n ← strlen buf; Ok (s32 n).

(** [strchr(buf, c)] as an offset; the search may stop on the terminator. *)
Fixpoint strchr_from (i : Z) (buf : bytes) (c : Z) : outcome (option Z) :=
  match buf with
  | [] => Fault
  | x :: buf => if x =? c then Ok (Some i) else if x =? 0 then Ok None else strchr_from (i + 1) buf c
  end.
Definition strchr : bytes -> Z -> outcome (option Z) := strchr_from 0.

Fixpoint starts_with (p s : bytes) : bool :=
  match p, s with
  | [], _ => true
  | _, [] => false
  | c :: p, d :: s => (c =? d) && starts_with p s
  end.

(** The first position at which [p] occurs in [s]. *)
Fixpoint find_sub (p s : bytes) : option Z :=
  if starts_with p s then Some 0
  else match s with [] => None | _ :: s => Z.succ <$> find_sub p s end.

(** [strstr(buf, child)] as an offset. *)
Definition strstr (buf child : bytes) : outcome (option Z) :=
  _ ← strlen buf; _ ← strlen child; Ok (find_sub (content child) (content buf)).

(** [strcat(buf, src)]. *)
Definition strcat (buf src : bytes) : outcome bytes :=
  n ← strlen buf; _ ← strlen src; poke buf n (content src ++ [0]).

Section library.
Context `{Allocator}.

(** ** Strings in allocated blocks *)

(** The new block, [None] when there is no memory. *)
Definition AddStr_Malloc (sAdd_String : bytes) : cmd (option bytes) :=
  iLength_AddStr ← lift (int_strlen sAdd_String);
  iLength_NeedMem ← lift (int_range (iLength_AddStr + 1));
  p ← malloc (u64 iLength_NeedMem);
  match p with
  | None => mret None
  | Some b =>
      b ← lift (poke b 0 (memset 0 (u64 iLength_NeedMem)));
      b ← lift (strcat b sAdd_String);
      mret (Some b)
  end.

(** The string is added through [pSrc_Mem], which [realloc] has freed when it
    moved the block. *)
Definition AddStr_Realloc (pSrc_Mem : option bytes) (sAdd_String : bytes) : cmd (option bytes) :=
  iLength_AddStr ← lift (int_strlen sAdd_String);
  b ← lift (or_fault pSrc_Mem);
  n ← lift (strlen b);
  r ← realloc b (u64 (s32 (n + iLength_AddStr + 1)));
  match r with
  | No_memory => mret None
  | In_place b => b ← lift (strcat b sAdd_String); mret (Some b)
  | Moved _ => lift Fault
  end.

(** The pointer is NULL afterwards. *)
Definition AddStr_Free (pPoint_Mem : option bytes) : cmd (option bytes) :=
  _ ← free pPoint_Mem; mret None.

Definition Get_Strtok_String_Free (sPoint_Malloc : option bytes) : cmd unit := free sPoint_Malloc.

(** ** Counting *)

(** The loop leaves only through [return -1].  The address is that of the last
    match, [None] before the first. *)
Fixpoint count_child_loop (fuel : nat) (sSrc_String sChild_String : bytes) (iCount pPoint_Ret : Z) : outcome Z :=
  match fuel with
  | O => NoFuel
  | S fuel =>
      n ← strlen sChild_String;
      let pPoint_Addr := if 0 =? iCount then 0 else pPoint_Ret + n in
      r ← strstr (drop (Z.to_nat pPoint_Addr) sSrc_String) sChild_String;
      match r with
      | Some i => iCount ← int_range (iCount + 1);
                  count_child_loop fuel sSrc_String sChild_String iCount (pPoint_Addr + i)
      | None => Ok (-1)
      end
  end.

Definition Count_ChildStr_Num (fuel : nat) (sSrc_String sChild_String : bytes) : outcome Z :=
  count_child_loop fuel sSrc_String sChild_String 0 0.

(** ** Characters and strings *)

Definition Char_To_Str (cSrc_Char : Z) (sDst_String : option bytes) : outcome (option bytes) :=
  match sDst_String with
  | None => Ok None
  | Some dst => dst ← zset dst 0 cSrc_Char; dst ← zset dst 1 0; Ok (Some dst)
  end.

Definition Count_Char_Num (fuel : nat) (sSrc_String : bytes) (sChild_Char : Z) : outcome Z :=
  p_Ret ← Char_To_Str sChild_Char (Some [0; 0]);
  match p_Ret with
  | None => Ok (-1)
  | Some s_point => Count_ChildStr_Num fuel sSrc_String s_point
  end.

(** [sDst_Char] is a copy: the caller sees only the pointer that is returned. *)
Definition Str_To_Char (sSrc_String : option bytes) (sDst_Char : Z) : outcome (option bytes) :=
  match sSrc_String with
  | None => Ok None
  | Some s => n ← strlen s; if 0 =? n then Ok None else _ ← zget s 0; Ok (Some s)
  end.

(** ** The time as text: the numbers are not padded, and a second NUL follows *)

Definition GetString_YYYYMMDD (timep : Z) (pPoint_TimeMem : bytes) : outcome bytes :=
  let p := gmtime timep in
  sprintf_to pPoint_TimeMem (dec (1900 + tm_year p) ++ dec (1 + tm_mon p) ++ dec (tm_mday p) ++ [0]).

Definition GetString_HHMMSS (timep : Z) (pPoint_TimeMem : bytes) : outcome bytes :=
  let p := gmtime timep in
  sprintf_to pPoint_TimeMem (dec (tm_hour p) ++ dec (tm_min p) ++ dec (tm_sec p) ++ [0]).

(** [%d] reads the low half of the [time_t]. *)
Definition GetString_ComputerSec (tv_sec : Z) (pPoint_TimeMem : bytes) : outcome bytes :=
  sprintf_to pPoint_TimeMem (dec (s32 tv_sec) ++ [0]).

(** ** Reversing *)

Definition reverse_loop (iLength : Z) (sSrc_string pP_mem : bytes) : outcome (bytes * Z) :=
  for_loop (Z.to_nat iLength) 0 1 (λ _ s,
    c ← zget sSrc_string (iLength - s.2 - 1);
    b ← zset s.1 s.2 c;
    Ok ((b, s.2 + 1), true)) (pP_mem, 0).

Definition Dx_String (sSrc_string sDst_string : option bytes) : cmd (option bytes) :=
  match sSrc_string, sDst_string with
  | Some src, Some dst =>
      iLength ← lift (int_strlen src);
      n ← lift (int_range (iLength + 1));
      pP_mem ← malloc_zeroed n;
      s ← lift (reverse_loop iLength src pP_mem);
      dst ← lift (strcpy dst s.1);
      _ ← free (Some s.1);
      mret (Some dst)
  | _, _ => mret None
  end.

Definition Dx_String_Yzfc (sSrc_string : option bytes) : cmd (option bytes) :=
  match sSrc_string with
  | None => mret None
  | Some src =>
      iLength_Str ← lift (int_strlen src);
      n ← lift (int_range (iLength_Str + 1));
      pPoint_Mem ← malloc_zeroed n;
      pRet ← Dx_String (Some src) (Some pPoint_Mem);
      match pRet with
      | None => mret None
      | Some pPoint_Mem =>
          n ← lift (strlen src);
          src ← lift (poke src 0 (memset 0 n));
          src ← lift (strcpy src pPoint_Mem);
          _ ← free (Some pPoint_Mem);
          mret (Some src)
      end
  end.

(** ** Deleting characters *)

Definition del_loop (iLength_Str : Z) (sSrc_String pPoint_Mem : bytes) (cChar : Z) : outcome (bytes * Z) :=
  for_loop (Z.to_nat iLength_Str) 0 1 (λ iFor_Num s,
    c ← zget sSrc_String iFor_Num;
    if cChar =? c then Ok (s, true)
    else b ← zset s.1 s.2 c; Ok ((b, s.2 + 1), true)) (pPoint_Mem, 0).

Definition Del_Char (sSrc_String : option bytes) (cChar : Z) : cmd (option bytes) :=
  match sSrc_String with
  | None => mret None
  | Some src =>
      iLength_Str ← lift (int_strlen src);
      n ← lift (int_range (iLength_Str + 1));
      pPoint_Mem ← malloc_zeroed n;
      s ← lift (del_loop iLength_Str src pPoint_Mem cChar);
      src ← lift (poke src 0 (memset 0 (u64 iLength_Str)));
      src ← lift (strcpy src s.1);
      _ ← free (Some s.1);
      mret (Some src)
  end.

Definition Del_Char_CopyToDst (sSrc_string sDst_string : option bytes) (sCh : Z) : cmd (option bytes) :=
  match sSrc_string, sDst_string with
  | Some src, Some dst =>
      iLength ← lift (int_strlen src);
      n ← lift (int_range (iLength + 1));
      pPoint_Mem ← malloc_zeroed n;
      pPoint_Mem ← lift (strcpy pPoint_Mem src);
      pRet ← Del_Char (Some pPoint_Mem) sCh;
      match pRet with
      | None => mret None
      | Some pPoint_Mem =>
          dst ← lift (strcpy dst pPoint_Mem);
          _ ← free (Some pPoint_Mem);
          mret (Some dst)
      end
  | _, _ => mret None
  end.

Definition Del_Char_Hh (sSrc_string : option bytes) : cmd (option bytes) := Del_Char sSrc_string 10.

(** ** Replacing *)

(** The search starts again from the beginning at each round. *)
Fixpoint order_loop (fuel : nat) (sSrc_string sTh_Src_String : bytes) (iCount_While iOrderCount : Z) : outcome (option Z) :=
  match fuel with
  | O => NoFuel
  | S fuel =>
      r ← strstr sSrc_string sTh_Src_String;
      match r with
      | None => Ok None
      | Some i =>
          iCount_While ← int_range (iCount_While + 1);
          if iCount_While =? iOrderCount then Ok (Some i)
          else order_loop fuel sSrc_string sTh_Src_String iCount_While iOrderCount
      end
  end.

(** The part after the search: the destination gets the three parts and no
    terminator. *)
Definition replace_at (sSrc_string sDst_string sTh_Src_String sTh_Dst_String : bytes) (pPoint_FindString : Z) : cmd bytes :=
  let iLengthString_Tb := Z.abs (s32 (0 - pPoint_FindString)) in
  iLengthString_Zj ← lift (int_strlen sTh_Dst_String);
  n ← lift (strlen sSrc_string);
  m ← lift (strlen sTh_Src_String);
  let iLengthString_Wb := s32 (n - m - iLengthString_Tb) in
  iLength_Dst_String ← lift (int_range (iLengthString_Tb + iLengthString_Zj));
  iLength_Dst_String ← lift (int_range (iLength_Dst_String + iLengthString_Wb));
  p ← malloc (u64 iLength_Dst_String);
  mem ← lift (or_fault p);
  b ← lift (peek sSrc_string 0 iLengthString_Tb);
  mem ← lift (poke mem 0 b);
  k ← lift (strlen sTh_Dst_String);
  b ← lift (peek sTh_Dst_String 0 k);
  mem ← lift (poke mem iLengthString_Tb b);
  b ← lift (peek sSrc_string (pPoint_FindString + m) (u64 iLengthString_Wb));
  mem ← lift (poke mem (iLengthString_Tb + k) b);
  b ← lift (peek mem 0 (u64 iLength_Dst_String));
  dst ← lift (poke sDst_string 0 b);
  _ ← free (Some mem);
  mret dst.

Definition Replace_Str_To_Str_OrderByCount (fuel : nat) (sSrc_string sDst_string sTh_Src_String sTh_Dst_String : option bytes)
    (iOrderCount : Z) : cmd (option bytes) :=
  match sSrc_string, sDst_string, sTh_Src_String, sTh_Dst_String with
  | Some src, Some dst, Some th_src, Some th_dst =>
      iCount_Pp ← lift (Count_ChildStr_Num fuel src th_src);
      if iCount_Pp <? iOrderCount then mret None
      else
        r ← lift (order_loop fuel src th_src 0 iOrderCount);
        match r with
        | None => mret None
        | Some pPoint_FindString => dst ← replace_at src dst th_src th_dst pPoint_FindString; mret (Some dst)
        end
  | _, _, _, _ => mret None
  end.

Definition Replace_Str_To_Str_First (fuel : nat) (sSrc_string sDst_string sTh_Src_String sTh_Dst_String : option bytes) : cmd (option bytes) :=
  Replace_Str_To_Str_OrderByCount fuel sSrc_string sDst_string sTh_Src_String sTh_Dst_String 1.

(** ** Deleting a character in a file *)

(** [None] as the file: it cannot be opened for writing.  The result is the
    return value and the file. *)
Fixpoint del_file_loop (fuel : nat) (sTmp_Buf : bytes) (fp : FILE) (cCh iLen_Add_Seek iLen_Read_Seek : Z) : cmd (Z * FILE) :=
  match fuel with
  | O => lift NoFuel
  | S fuel =>
      r ← lift (fgets sTmp_Buf 10240 fp);
      match r.1 with
      | None => mret (0, fseek_set r.2 0)
      | Some buf =>
          iLength_i ← lift (int_strlen buf);
          buf ← Del_Char (Some buf) cCh;
          match buf with
          | None => mret (-1, r.2)
          | Some buf =>
              iLength_j ← lift (int_strlen buf);
              let fp := fputs buf (fseek_set r.2 iLen_Add_Seek) in
              iLen_Add_Seek ← lift (int_range (iLen_Add_Seek + iLength_j));
              iLen_Read_Seek ← lift (int_range (iLen_Read_Seek + iLength_i));
              del_file_loop fuel (memset 0 10240) (fseek_set fp iLen_Read_Seek) cCh iLen_Add_Seek iLen_Read_Seek
          end
      end
  end.

Definition Del_Char_File (fuel : nat) (sFilename : option bytes) (cCh : Z) : cmd (Z * option bytes) :=
  match fopen_w sFilename with
  | None => mret (-1, sFilename)
  | Some fp => r ← del_file_loop fuel (memset 0 10240) fp cCh 0 0; mret (r.1, Some (f_data r.2))
  end.

(** ** Trimming *)

(** The string after each blank is copied on the way; the result is the last
    copy and [iFlag_Yd].  The fuel is the size of the buffer. *)
Fixpoint trim_loop (fuel : nat) (iLength : Z) (sString pPoint_Mem : bytes) (iCount : Z) (iFlag_Yd : bool) : outcome (bytes * bool) :=
  match fuel with
  | O => NoFuel
  | S fuel =>
      c ← zget sString iCount;
      if negb (32 =? c) then Ok (pPoint_Mem, iFlag_Yd)
      else
        mem ← poke pPoint_Mem 0 (memset 0 (iLength + 1));
        mem ← strcpy mem (drop (Z.to_nat (iCount + 1)) sString);
        trim_loop fuel iLength sString mem (iCount + 1) true
  end.

Definition Trim_Before (sString : bytes) : cmd bytes :=
  iLength ← lift (int_strlen sString);
  n ← lift (int_range (iLength + 1));
  pPoint_Mem ← malloc_zeroed n;
  r ← lift (trim_loop (length sString) iLength sString pPoint_Mem 0 false);
  sString ← lift (if r.2 : bool then s ← poke sString 0 (memset 0 (u64 iLength)); strcpy s r.1 else Ok sString);
  _ ← free (Some r.1);
  mret sString.

Definition Trim_Behind (sString : bytes) : cmd (option bytes) :=
  pRet ← Dx_String_Yzfc (Some sString);
  match pRet with
  | None => mret None
  | Some sString => sString ← Trim_Before sString; Dx_String_Yzfc (Some sString)
  end.

(** The result of [Trim_Behind] is ignored. *)
Definition Trim (sString : bytes) : cmd bytes :=
  sString ← Trim_Before sString;
  r ← Trim_Behind sString;
  mret (default sString r).

(** The routine ends without a [return]: only its NULL can be used. *)
Definition Trim_Kg_Hh (sString : option bytes) : cmd (option bytes) :=
  match sString with
  | None => mret None
  | Some s =>
      r ← Del_Char_Hh (Some s);
      match r with
      | None => mret None
      | Some s => s ← Trim s; mret (Some s)
      end
  end.

(** ** The parts around a character *)

Definition Get_String_Behind_Char (sSrc_string : option bytes) (cChar : Z) (sDst_string : bytes) : outcome (option bytes) :=
  match sSrc_string with
  | None => Ok None
  | Some src =>
      pPoint_Str ← strchr src cChar;
      match pPoint_Str with
      | None => Ok None
      | Some i => dst ← strcpy sDst_string (drop (Z.to_nat (i + 1)) src); Ok (Some dst)
      end
  end.

Definition Get_String_Before_Char (sSrc_string : option bytes) (cChar : Z) (sDst_string : bytes) : outcome (option bytes) :=
  match sSrc_string with
  | None => Ok None
  | Some src =>
      pPoint_Str ← strchr src cChar;
      match pPoint_Str with
      | None => Ok None
      | Some i =>
          let iLength_Copy := Z.abs (s32 (0 - i)) in
          b ← peek src 0 (u64 iLength_Copy);
          dst ← poke sDst_string 0 b;
          dst ← poke dst iLength_Copy [0];
          Ok (Some dst)
      end
  end.

Definition Get_String_Behind_Dh (src_string : option bytes) (dst_string : bytes) : outcome (option bytes) :=
  Get_String_Behind_Char src_string 61 dst_string.

Definition Get_String_Before_Dh (src_string : option bytes) (dst_string : bytes) : outcome (option bytes) :=
  Get_String_Before_Char src_string 61 dst_string.

Definition Get_String_Behind_Dh_QdKgHh (sSrc_String : option bytes) (sDst_String : bytes) : cmd (option bytes) :=
  p ← lift (Get_String_Behind_Char sSrc_String 61 sDst_String);
  match p with
  | None => mret None
  | Some dst =>
      r ← Del_Char_Hh (Some dst);
      match r with
      | None => mret None
      | Some dst => dst ← Trim dst; mret (Some dst)
      end
  end.

Definition Get_String_Before_Dh_QdKgHh (sSrc_String : option bytes) (sDst_String : bytes) : cmd (option bytes) :=
  p ← lift (Get_String_Before_Char sSrc_String 61 sDst_String);
  match p with
  | None => mret None
  | Some dst =>
      r ← Del_Char_Hh (Some dst);
      match r with
      | None => mret None
      | Some dst => dst ← Trim dst; mret (Some dst)
      end
  end.

Definition Get_String_Behind_Dh_QdKg (sSrc_String : option bytes) (sDst_String : bytes) : cmd (option bytes) :=
  p ← lift (Get_String_Behind_Char sSrc_String 61 sDst_String);
  match p with
  | None => mret None
  | Some dst => dst ← Trim dst; mret (Some dst)
  end.

Definition Get_String_Before_Dh_QdKg (sSrc_String : option bytes) (sDst_String : bytes) : cmd (option bytes) :=
  p ← lift (Get_String_Before_Char sSrc_String 61 sDst_String);
  match p with
  | None => mret None
  | Some dst => dst ← Trim dst; mret (Some dst)
  end.

(** The key and the value. *)
Definition Get_KeyValue_Dh_QdKg (sSrc_String sDst_KeyString sDst_ValueString : option bytes) : cmd (option (bytes * bytes)) :=
  match sSrc_String, sDst_KeyString, sDst_ValueString with
  | Some _, Some key, Some value =>
      r ← Get_String_Behind_Dh_QdKg sSrc_String value;
      match r with
      | None => mret None
      | Some value =>
          r ← Get_String_Before_Dh_QdKg sSrc_String key;
          match r with
          | None => mret None
          | Some key => mret (Some (key, value))
          end
      end
  | _, _, _ => mret None
  end.

(** The block is not freed when a bracket is missing. *)
Definition Get_String_Between_Zkh (sSrc_String sDst_String : option bytes) : cmd (option bytes) :=
  match sSrc_String, sDst_String with
  | Some src, Some dst =>
      iLength_Src_String ← lift (int_strlen src);
      n ← lift (int_range (iLength_Src_String + 1));
      pPoint_Mem ← malloc_zeroed n;
      r ← lift (Get_String_Behind_Char (Some src) 91 pPoint_Mem);
      match r with
      | None => mret None
      | Some pPoint_Mem =>
          r ← lift (Get_String_Before_Char (Some pPoint_Mem) 93 dst);
          match r with
          | None => mret None
          | Some dst => _ ← free (Some pPoint_Mem); mret (Some dst)
          end
      end
  | _, _ => mret None
  end.
End library.

(** ** Kinds of characters *)

Fixpoint digit_loop (n : nat) (iNum_For iLength_Str iCount : Z) (sDigit_Str : bytes) : outcome Z :=
  match n with
  | O => Ok 1
  | S n =>
      c ← zget sDigit_Str iNum_For;
      if (48 <=? schar c) && (schar c <=? 57) then digit_loop n (iNum_For + 1) iLength_Str iCount sDigit_Str
      else if 46 =? c then
        let iCount := iCount + 1 in
        if (2 <=? iCount) || (0 =? iNum_For) || (iLength_Str =? iNum_For + 1) then Ok 0
        else digit_loop n (iNum_For + 1) iLength_Str iCount sDigit_Str
      else Ok 0
  end.

Definition Is_Digit_ByString (sDigit_Str : bytes) : outcome Z :=
  iLength_Str ← int_strlen sDigit_Str;
  digit_loop (Z.to_nat iLength_Str) 0 iLength_Str 0 sDigit_Str.

Definition Is_Digit_ByChar (sDigit_Str : Z) : outcome Z :=
  p ← Char_To_Str sDigit_Str (Some [0; 0]);
  s ← or_fault p;
  Is_Digit_ByString s.

(** The counters of small and of capital letters are not initialised:
    [(iIs_Xx, iIs_Dx)] is what the stack holds.  [None]: a character that is
    no letter. *)
Fixpoint english_loop (n : nat) (iNum_For : Z) (s : bytes) (iIs_Xx iIs_Dx : Z) : outcome (option (Z * Z)) :=
  match n with
  | O => Ok (Some (iIs_Xx, iIs_Dx))
  | S n =>
      c ← zget s iNum_For;
      if (65 <=? schar c) && (schar c <=? 90) then
        iIs_Dx ← int_range (iIs_Dx + 1); english_loop n (iNum_For + 1) s iIs_Xx iIs_Dx
      else if (97 <=? schar c) && (schar c <=? 122) then
        iIs_Xx ← int_range (iIs_Xx + 1); english_loop n (iNum_For + 1) s iIs_Xx iIs_Dx
      else Ok None
  end.

Definition Is_EnglishChar_ByString (stack : Z * Z) (sEnglishChar_Str : bytes) : outcome Z :=
  iLength_Str ← int_strlen sEnglishChar_Str;
  r ← english_loop (Z.to_nat iLength_Str) 0 sEnglishChar_Str stack.1 stack.2;
  match r with
  | None => Ok 0
  | Some (iIs_Xx, iIs_Dx) =>
      Ok (if negb (0 =? iIs_Xx) && (0 =? iIs_Dx) then 1
          else if (0 =? iIs_Xx) && negb (0 =? iIs_Dx) then 2
          else if negb (0 =? iIs_Xx) && negb (0 =? iIs_Dx) then 3
          else 0)
  end.

Definition Is_EnglishChar_ByChar (stack : Z * Z) (sEnglishChar_Str : Z) : outcome Z :=
  p ← Char_To_Str sEnglishChar_Str (Some [0; 0]);
  s ← or_fault p;
  Is_EnglishChar_ByString stack s.

(** [iRet] stays 0.  The result is the three counts of letters and the one of
    digits, or [None] for [return 0]; [stack] is what the stack holds at each
    call of [Is_EnglishChar_ByChar]. *)
Fixpoint english_digit_loop (stack : Z -> Z * Z) (n : nat) (iNum_For : Z) (s : bytes)
    (iRet iCount_Digit iCount_EnglishChar1 iCount_EnglishChar2 iCount_EnglishChar3 : Z) : outcome (option (Z * Z * Z * Z)) :=
  match n with
  | O => Ok (Some (iCount_Digit, iCount_EnglishChar1, iCount_EnglishChar2, iCount_EnglishChar3))
  | S n =>
      let next := english_digit_loop stack n (iNum_For + 1) s iRet in
      cChar_Tmp ← zget s iNum_For;
      d ← Is_Digit_ByChar cChar_Tmp;
      if negb (d =? 0) then next (iCount_Digit + 1) iCount_EnglishChar1 iCount_EnglishChar2 iCount_EnglishChar3
      else
        e ← Is_EnglishChar_ByChar (stack iNum_For) cChar_Tmp;
        if iRet =? e then
          if 1 =? iRet then next iCount_Digit (iCount_EnglishChar1 + 1) iCount_EnglishChar2 iCount_EnglishChar3
          else if 2 =? iRet then next iCount_Digit iCount_EnglishChar1 (iCount_EnglishChar2 + 1) iCount_EnglishChar3
          else if 3 =? iRet then next iCount_Digit iCount_EnglishChar1 iCount_EnglishChar2 (iCount_EnglishChar3 + 1)
          else next iCount_Digit iCount_EnglishChar1 iCount_EnglishChar2 iCount_EnglishChar3
        else Ok None
  end.

Definition Is_EnglishChar_Digit_ByString (stack : Z -> Z * Z) (sSrc_Str : bytes) : outcome Z :=
  iLength_Str ← int_strlen sSrc_Str;
  r ← english_digit_loop stack (Z.to_nat iLength_Str) 0 sSrc_Str 0 0 0 0 0;
  match r with
  | None => Ok 0
  | Some (d, e1, e2, e3) =>
      Ok (if iLength_Str =? d then 1
          else if iLength_Str =? e1 then 2
          else if iLength_Str =? e2 then 3
          else if iLength_Str =? e3 then 4
          else 5)
  end.

(** ** Brackets *)

Definition OutFlag_Kh (sIn_CharKh : Z) : Z :=
  if (91 =? sIn_CharKh) || (93 =? sIn_CharKh) then 1
  else if (123 =? sIn_CharKh) || (125 =? sIn_CharKh) then 2
  else if (40 =? sIn_CharKh) || (41 =? sIn_CharKh) then 3
  else -1.

(** [cChar_Start] and [cChar_End]. *)
Definition brackets_of (sIn_CharKh : Z) : option (Z * Z) :=
  let iRet := OutFlag_Kh sIn_CharKh in
  if 1 =? iRet then Some (91, 93)
  else if 2 =? iRet then Some (123, 125)
  else if 3 =? iRet then Some (40, 41)
  else None.

Record bracket_state : Type := mk_brackets {
  iCout_Start : Z; iCout_End : Z; iLocation_Start : Z; iLocation_End : Z;
}.

(** One round of the loop at character [c]. *)
Definition bracket_step (cs : Z * Z) (i c : Z) (b : bracket_state) : bracket_state :=
  let b := if cs.1 =? c then
             mk_brackets (iCout_Start b + 1) (iCout_End b)
               (if 1 =? iCout_Start b + 1 then i else iLocation_Start b) (iLocation_End b)
           else b in
  let b := if cs.2 =? c then mk_brackets (iCout_Start b) (iCout_End b + 1) (iLocation_Start b) (iLocation_End b) else b in
  if iCout_Start b =? iCout_End b then mk_brackets (iCout_Start b) (iCout_End b) (iLocation_Start b) i else b.

Definition bracket_loop (cs : Z * Z) (iLength : Z) (sIn_Str : bytes) : outcome bracket_state :=
  for_loop (Z.to_nat iLength) 0 1 (λ i b, c ← zget sIn_Str i; Ok (bracket_step cs i c b, true)) (mk_brackets 0 0 0 0).

(** The two pointers as offsets, [None] where the routine returns NULL.  The
    value it returns is the address of the second, cut to an [int].  (The
    source has one closing parenthesis too many after [strlen( sIn_Str )].) *)
Definition Get_Point_Dkh_Between (sIn_Str : bytes) (sIn_CharKh : Z) : outcome (option (Z * Z)) :=
  match brackets_of sIn_CharKh with
  | None => Ok None
  | Some cs =>
      iLength ← int_strlen sIn_Str;
      b ← bracket_loop cs iLength sIn_Str;
      if (0 =? iCout_Start b) || negb (iCout_Start b =? iCout_End b) then Ok None
      else Ok (Some (iLocation_Start b, iLocation_End b))
  end.

(** [address] is the address of [sIn_Str]: the size given to [memcpy] is the
    address of the end. *)
Definition Get_Str_Dkh_Between (address : Z) (sIn_Str : bytes) (sIn_CharKh : Z) (sOut_Str : bytes) : outcome (option (bytes * Z)) :=
  match brackets_of sIn_CharKh with
  | None => Ok None
  | Some cs =>
      iLength ← int_strlen sIn_Str;
      b ← bracket_loop cs iLength sIn_Str;
      if (0 =? iCout_Start b) || negb (iCout_Start b =? iCout_End b) then Ok None
      else
        src ← peek sIn_Str (iLocation_Start b + 1) (address + iLocation_End b);
        out ← poke sOut_Str 0 src;
        Ok (Some (out, s32 (address + iLocation_End b)))
  end.
