(* ===== verification/LibStringFacts.v ===== *)
(** * The string library ([lib_string.c]): what the routines compute

    Each routine on an array that holds a string [s] and its terminator,
    followed by anything.  A routine that shortens the string in place leaves
    NULs behind the new terminator. *)

From S2P Require Import Prelude LibC Buffers BasString BasStringFacts CHeap LibString.

(** ** Buffers *)

#[local] Opaque memset.

Lemma memset_S n : 0 < n -> memset 0 n = 0 :: memset 0 (n - 1).
Proof. intros Hn. Transparent memset. unfold memset. by replace (Z.to_nat n) with (S (Z.to_nat (n - 1))) by lia. Qed.

Lemma memset_split a b : 0 <= a -> 0 <= b -> memset 0 (a + b) = memset 0 a ++ memset 0 b.
Proof. intros Ha Hb. unfold memset. by rewrite Z2Nat.inj_add, replicate_add. Qed.

Lemma memset_0 : memset 0 0 = [].
Proof. done. Qed.

Lemma memset_shift n r : memset 0 n ++ 0 :: r = 0 :: memset 0 n ++ r.
Proof.
  unfold memset. induction (Z.to_nat n) as [|k IH]; [done|]. cbn [replicate app]. by rewrite IH.
Qed.
#[local] Opaque memset.

(** A string that an [int] can measure, with its terminator. *)
Definition short (s : bytes) : Prop := zlen s < 2147483647.

Lemma int_strlen_run s r : cstring s -> short s -> int_strlen (s ++ 0 :: r) = Ok (zlen s).
Proof.
  intros Hs Hn. unfold int_strlen. rewrite strlen_app by done. cbn [mbind outcome_bind]. unfold short in Hn.
  pose proof (zlen_nonneg s). by rewrite s32_id by lia.
Qed.

Lemma strcpy_run d r s q : cstring s -> zlen d = zlen s + 1 -> strcpy (d ++ r) (s ++ 0 :: q) = Ok (s ++ 0 :: r).
Proof.
  intros Hs Hd. unfold strcpy. rewrite strlen_app, content_app by done. cbn [mbind outcome_bind].
  rewrite poke_prefix by zlen_lia. by rewrite <- app_assoc.
Qed.

(** A string copied into an array that has room. *)
Lemma strcpy_fit dst t q :
  cstring t -> zlen t < zlen dst -> strcpy dst (t ++ 0 :: q) = Ok (t ++ 0 :: drop (S (length t)) dst).
Proof.
  intros Ht Hd. destruct (split_at dst (S (length t))) as (d & r & -> & Hl); [unfold zlen in *; lia|].
  rewrite strcpy_run by (done || unfold zlen; lia). by rewrite <- Hl, drop_app_length.
Qed.

(** A string behind another. *)
Lemma strcat_holds s r t q :
  cstring s -> cstring t -> zlen t <= zlen r ->
  exists r', strcat (s ++ 0 :: r) (t ++ 0 :: q) = Ok ((s ++ t) ++ 0 :: r') /\ zlen ((s ++ t) ++ 0 :: r') = zlen (s ++ 0 :: r).
Proof.
  intros Hs Ht Hl. unfold strcat. rewrite !strlen_app, content_app by done. cbn [mbind outcome_bind].
  exists (drop (length t) r).
  assert (0 :: r = take (length t + 1) (0 :: r) ++ drop (length t) r) as E.
  { rewrite <- (take_drop (length t + 1) (0 :: r)) at 1. by rewrite Nat.add_1_r. }
  rewrite E at 1. rewrite poke_layout; [|done|].
  - rewrite <- !app_assoc. split; [done|]. unfold zlen in *. rewrite !length_app. cbn [length]. rewrite length_drop. lia.
  - unfold zlen in *. rewrite length_take, length_app. cbn [length]. lia.
Qed.

(** Copying into zeroed memory. *)
Lemma strcpy_zeroed n r s q :
  cstring s -> zlen s < n -> strcpy (memset 0 n ++ r) (s ++ 0 :: q) = Ok (s ++ 0 :: memset 0 (n - zlen s - 1) ++ r).
Proof.
  intros Hs Hn. pose proof (zlen_nonneg s).
  replace n with ((zlen s + 1) + (n - zlen s - 1)) at 1 by lia. rewrite memset_split by lia.
  rewrite <- app_assoc, strcpy_run; [done|done|]. rewrite zlen_memset0 by lia. done.
Qed.

(** Wiping a string. *)
Lemma wipe_run s r n : n = zlen s -> poke (s ++ 0 :: r) 0 (memset 0 n) = Ok (memset 0 (zlen s) ++ 0 :: r).
Proof. intros ->. rewrite poke_prefix; [done|]. by rewrite zlen_memset0 by apply zlen_nonneg. Qed.

(** The array of a string [s] after its text became [t]. *)
Definition shortened (s t r : bytes) : bytes := t ++ 0 :: memset 0 (zlen s - zlen t) ++ r.

Lemma rewrite_run s r t q :
  cstring t -> zlen t <= zlen s -> strcpy (memset 0 (zlen s) ++ 0 :: r) (t ++ 0 :: q) = Ok (shortened s t r).
Proof.
  intros Ht Hl. pose proof (zlen_nonneg t). pose proof (zlen_nonneg s). unfold shortened.
  replace (memset 0 (zlen s) ++ 0 :: r) with (memset 0 (zlen s + 1) ++ r).
  - rewrite strcpy_zeroed by (done || lia). by replace (zlen s + 1 - zlen t - 1) with (zlen s - zlen t) by lia.
  - rewrite memset_split by lia. rewrite <- app_assoc. rewrite (memset_S 1) by lia. done.
Qed.

Lemma shortened_same s r : shortened s s r = s ++ 0 :: r.
Proof. unfold shortened. by rewrite Z.sub_diag. Qed.

Lemma shortened_twice s t u r :
  zlen u <= zlen t -> zlen t <= zlen s -> shortened t u (memset 0 (zlen s - zlen t) ++ r) = shortened s u r.
Proof.
  intros H1 H2. unfold shortened. rewrite app_assoc, <- memset_split by lia.
  by replace (zlen t - zlen u + (zlen s - zlen t)) with (zlen s - zlen u) by lia.
Qed.

(** ** Computations in place *)

Section facts.
Context `{Allocator}.
Hypothesis Hroom : has_room.

(** [f] shortens strings and keeps them strings. *)
Class Shortens (f : bytes -> bytes) : Prop := {
  shortens_le s : zlen (f s) <= zlen s;
  shortens_cstring s : cstring s -> cstring (f s);
}.

(** [F] replaces the string in its array by what [f] makes of it, and frees
    what it allocates. *)
Definition in_place (F : bytes -> cmd bytes) (f : bytes -> bytes) : Prop :=
  forall s r, cstring s -> short s -> gives 0 (F (s ++ 0 :: r)) (shortened s (f s) r).

Lemma in_place_compose F G f g :
  Shortens f -> Shortens g -> in_place F f -> in_place G g -> in_place (λ b, F b ≫= G) (λ s, g (f s)).
Proof using Type.
  intros Hf Hg HF HG s r Hs Hn. apply (gives_bind_0 0 _ (shortened s (f s) r)); [by apply HF|].
  pose proof (shortens_le (f := f) s). unfold shortened at 1.
  rewrite <- (shortened_twice s (f s)); [|apply (shortens_le (f := g))|done].
  apply HG; [by apply shortens_cstring|unfold short in *; lia].
Qed.

Lemma gives_zeroed_string s : short s -> gives 1 (malloc_zeroed (zlen s + 1)) (memset 0 (zlen s + 1)).
Proof using Hroom.
  unfold short. intros Hs. pose proof (zlen_nonneg s). apply gives_malloc_zeroed; [done|lia].
Qed.

Lemma length_plus_1 s : short s -> int_range (zlen s + 1) = Ok (zlen s + 1).
Proof using Type.
  unfold short. intros Hs. pose proof (zlen_nonneg s). unfold int_range.
  destruct (Z.leb_spec (-2147483648) (zlen s + 1)); [|lia]. by destruct (Z.leb_spec (zlen s + 1) 2147483647); [|lia].
Qed.

(** ** Reversing *)


Lemma zlen_reverse (s : bytes) : zlen (reverse s) = zlen s.
Proof using Type. unfold zlen. by rewrite length_reverse. Qed.

Lemma reverse_loop_from r : forall a b i L, L = zlen (a ++ b) ->
  for_loop (length a) i 1 (λ _ s,
    c ← zget (a ++ b ++ 0 :: r) (L - s.2 - 1);
    m ← zset s.1 s.2 c; Ok ((m, s.2 + 1), true)) (reverse b ++ memset 0 (zlen a + 1), zlen b) =
  Ok (reverse (a ++ b) ++ [0], L).
Proof using Type.
  induction a as [|x a IH] using rev_ind; intros b i L HL; [by subst L|].
  rewrite length_app, Nat.add_1_r. cbn [for_loop fst snd].
  rewrite <- app_assoc. cbn [app]. rewrite zget_middle by (subst L; zlen_lia). cbn [mbind outcome_bind].
  rewrite (memset_S (zlen (a ++ [x]) + 1)) by (pose proof (zlen_nonneg (a ++ [x])); lia).
  rewrite zset_middle by (by rewrite zlen_reverse). cbn [mbind outcome_bind fst snd].
  replace ((a ++ [x]) ++ b) with (a ++ x :: b) by (by rewrite <- app_assoc).
  rewrite <- (IH (x :: b) (i + 1) L) by (subst L; by rewrite <- app_assoc).
  rewrite reverse_cons, <- app_assoc. cbn [app].
  replace (zlen (a ++ [x]) + 1 - 1) with (zlen a + 1) by zlen_lia.
  by replace (zlen (x :: b)) with (zlen b + 1) by zlen_lia.
Qed.

Lemma reverse_loop_run s r :
  reverse_loop (zlen s) (s ++ 0 :: r) (memset 0 (zlen s + 1)) = Ok (reverse s ++ [0], zlen s).
Proof using Type.
  unfold reverse_loop. unfold zlen at 1. rewrite Nat2Z.id.
  pose proof (reverse_loop_from r s [] 0 (zlen s)) as Hloop. rewrite app_nil_r in Hloop. by apply Hloop.
Qed.

Lemma cstring_reverse s : cstring s -> cstring (reverse s).
Proof using Type. unfold cstring. by rewrite Forall_reverse. Qed.

Lemma reverse_gives s r d q :
  cstring s -> short s -> zlen d = zlen s + 1 ->
  gives 0 (Dx_String (Some (s ++ 0 :: r)) (Some (d ++ q))) (Some (reverse s ++ 0 :: q)).
Proof using Hroom.
  intros Hs Hn Hd. unfold Dx_String.
  eapply gives_lift_bind; [by apply int_strlen_run|]. eapply gives_lift_bind; [by apply length_plus_1|].
  eapply gives_bind; [by apply gives_zeroed_string| |].
  - eapply gives_lift_bind; [apply reverse_loop_run|]. cbn [fst].
    eapply gives_lift_bind; [apply strcpy_run; [by apply cstring_reverse|by rewrite zlen_reverse]|].
    eapply gives_bind; [apply gives_free|apply gives_ret|reflexivity].
  - reflexivity.
Qed.

#[local] Instance shortens_reverse : Shortens reverse.
Proof using Type. split; intros s; [rewrite zlen_reverse; lia|apply cstring_reverse]. Qed.

(** The [default] of a result that cannot be NULL. *)
Definition or_null (m : cmd (option bytes)) : cmd bytes := r ← m; lift (or_fault r).

Lemma gives_or_null d m a : gives d m (Some a) -> gives d (or_null m) a.
Proof using Type. intros Hm. eapply gives_bind; [exact Hm|by apply gives_lift|lia]. Qed.

Lemma reverse_in_place s r :
  cstring s -> short s -> gives 0 (Dx_String_Yzfc (Some (s ++ 0 :: r))) (Some (shortened s (reverse s) r)).
Proof using Hroom.
  intros Hs Hn. unfold Dx_String_Yzfc.
  eapply gives_lift_bind; [by apply int_strlen_run|]. eapply gives_lift_bind; [by apply length_plus_1|].
  eapply gives_bind; [by apply gives_zeroed_string| |].
  - rewrite <- (app_nil_r (memset _ _)).
    eapply gives_bind_0; [apply reverse_gives; [done..|apply zlen_memset0; pose proof (zlen_nonneg s); lia]|].
    eapply gives_lift_bind; [by apply strlen_app|]. eapply gives_lift_bind; [by apply wipe_run|].
    eapply gives_lift_bind; [apply rewrite_run; [by apply cstring_reverse|rewrite zlen_reverse; lia]|].
    eapply gives_bind; [apply gives_free|apply gives_ret|reflexivity].
  - reflexivity.
Qed.

(** ** Deleting a character *)

Definition without (c : Z) (s : bytes) : bytes := List.filter (λ x, negb (c =? x)) s.

#[local] Instance shortens_without c : Shortens (without c).
Proof using Type.
  split; intros s.
  - unfold without, zlen. pose proof (List.filter_length_le (λ x, negb (c =? x)) s). lia.
  - unfold cstring, without. rewrite !List.Forall_forall. intros Hs x Hx. apply List.filter_In in Hx as [Hx _]. by apply Hs.
Qed.

Lemma del_loop_from c r : forall b a m,
  zlen b < zlen m ->
  exists m', for_loop (length b) (zlen a) 1 (λ iFor_Num s,
    x ← zget (a ++ b ++ 0 :: r) iFor_Num;
    if c =? x then Ok (s, true) else y ← zset s.1 s.2 x; Ok ((y, s.2 + 1), true))
    (without c a ++ m, zlen (without c a)) =
  Ok (without c (a ++ b) ++ m', zlen (without c (a ++ b))) /\ m' = drop (length (without c b)) m.
Proof using Type.
  induction b as [|x b IH]; intros a m Hm; [exists m; by rewrite app_nil_r|].
  cbn [length for_loop fst snd app]. rewrite zget_middle by done. cbn [mbind outcome_bind].
  rewrite (cons_middle x a b). rewrite (app_assoc a [x] b).
  destruct (c =? x) eqn:E; cbn [mbind outcome_bind fst snd].
  - assert (without c (a ++ [x]) = without c a) as Ha.
    { unfold without. rewrite List.filter_app. simpl. by rewrite E, app_nil_r. }
    destruct (IH (a ++ [x]) m) as (m' & Hrun & Hm'); [zlen_lia|]. exists m'. split.
    + rewrite <- Hrun, Ha. rewrite <- app_assoc. do 2 f_equal. zlen_lia.
    + rewrite Hm'. unfold without. simpl. by rewrite E.
  - destruct m as [|y m]; [pose proof (zlen_nonneg b); zlen_lia|]. rewrite zset_middle by done. cbn [mbind outcome_bind fst snd].
    assert (without c (a ++ [x]) = without c a ++ [x]) as Ha.
    { unfold without. rewrite List.filter_app. simpl. by rewrite E. }
    destruct (IH (a ++ [x]) m) as (m' & Hrun & Hm'); [zlen_lia|]. exists m'. split.
    + rewrite <- Hrun, Ha, <- !app_assoc. rewrite !zlen_app. done.
    + rewrite Hm'. unfold without. simpl. by rewrite E.
Qed.

Lemma drop_memset k n : 0 <= k <= n -> drop (Z.to_nat k) (memset 0 n) = memset 0 (n - k).
Proof using Type.
  intros Hk. replace n with (k + (n - k)) at 1 by lia. rewrite memset_split by lia.
  rewrite drop_app_length'; [done|]. pose proof (zlen_memset0 k). unfold zlen in *. lia.
Qed.

Lemma del_loop_run c s r : exists q,
  del_loop (zlen s) (s ++ 0 :: r) (memset 0 (zlen s + 1)) c = Ok (without c s ++ 0 :: q, zlen (without c s)).
Proof using Type.
  pose proof (shortens_le (f := without c) s) as Hl. pose proof (zlen_nonneg (without c s)) as H0.
  destruct (del_loop_from c r s [] (memset 0 (zlen s + 1))) as (m & Hrun & ->).
  { rewrite zlen_memset0 by lia. lia. }
  exists (memset 0 (zlen s - zlen (without c s))). unfold del_loop. unfold zlen at 1. rewrite Nat2Z.id.
  cbn [app] in Hrun. etransitivity; [exact Hrun|]. do 3 f_equal.
  replace (length (without c s)) with (Z.to_nat (zlen (without c s))) by (unfold zlen; lia).
  rewrite drop_memset by lia. rewrite memset_S by lia. do 2 f_equal. lia.
Qed.

Lemma del_char_gives c s r :
  cstring s -> short s -> gives 0 (Del_Char (Some (s ++ 0 :: r)) c) (Some (shortened s (without c s) r)).
Proof using Hroom.
  intros Hs Hn. unfold Del_Char.
  eapply gives_lift_bind; [by apply int_strlen_run|]. eapply gives_lift_bind; [by apply length_plus_1|].
  eapply gives_bind; [by apply gives_zeroed_string| |].
  - destruct (del_loop_run c s r) as (q & Hq). eapply gives_lift_bind; [exact Hq|]. cbn [fst].
    eapply gives_lift_bind.
    { apply wipe_run. apply u64_id. unfold short in Hn. pose proof (zlen_nonneg s). lia. }
    eapply gives_lift_bind; [apply rewrite_run; [by apply shortens_cstring|by apply shortens_le]|].
    eapply gives_bind; [apply gives_free|apply gives_ret|reflexivity].
  - reflexivity.
Qed.

Lemma del_char_copy_gives c s r d q :
  cstring s -> short s -> zlen d = zlen (without c s) + 1 ->
  gives 0 (Del_Char_CopyToDst (Some (s ++ 0 :: r)) (Some (d ++ q)) c) (Some (without c s ++ 0 :: q)).
Proof using Hroom.
  intros Hs Hn Hd. unfold Del_Char_CopyToDst. pose proof (zlen_nonneg s).
  eapply gives_lift_bind; [by apply int_strlen_run|]. eapply gives_lift_bind; [by apply length_plus_1|].
  eapply gives_bind; [by apply gives_zeroed_string| |].
  - rewrite <- (app_nil_r (memset _ _)). eapply gives_lift_bind; [apply strcpy_run; [done|apply zlen_memset0; lia]|].
    eapply gives_bind_0; [by apply del_char_gives|].
    eapply gives_lift_bind; [apply strcpy_run; [by apply shortens_cstring|done]|].
    eapply gives_bind; [apply gives_free|apply gives_ret|reflexivity].
  - reflexivity.
Qed.

(** ** Trimming *)

#[local] Instance shortens_lstrip : Shortens lstrip.
Proof using Type.
  split; intros s; destruct (lstrip_split s) as [k Hk].
  - rewrite Hk at 2. rewrite zlen_app. pose proof (zlen_nonneg (replicate k (32:Z))). lia.
  - intros Hs. rewrite Hk in Hs. by apply Forall_app in Hs as [_ Hs].
Qed.

(** The array of the last copy is zeroed before it. *)
Lemma trim_loop_from L r u : forall k fuel a m flag,
  cstring u -> L = zlen a + Z.of_nat k + zlen u -> hd 0 u <> 32 -> (k < fuel)%nat ->
  zlen m = L + 1 ->
  (flag = true -> exists q, m = replicate k 32 ++ u ++ 0 :: q) ->
  exists m', trim_loop fuel L (a ++ replicate k 32 ++ u ++ 0 :: r) m (zlen a) flag =
      Ok (m', flag || negb (Nat.eqb k 0)) /\ zlen m' = L + 1 /\
    (flag || negb (Nat.eqb k 0) = true -> exists q, m' = u ++ 0 :: q).
Proof using Type.
  induction k as [|k IH]; intros fuel a m flag Hu HL Hh Hf Hm Hflag; (destruct fuel as [|fuel]; [lia|]); cbn [trim_loop].
  - exists m. cbn [replicate app].
    assert (exists c q, u ++ 0 :: r = c :: q /\ c <> 32) as (c & q & -> & Hc) by (destruct u; simpl in *; eauto).
    rewrite zget_middle by done. cbn [mbind outcome_bind]. destruct (Z.eqb_spec 32 c); [congruence|]. cbn [negb].
    rewrite orb_false_r. split; [done|]. split; [done|]. cbn [replicate app] in Hflag. done.
  - cbn [replicate app]. rewrite zget_middle by done. cbn [mbind outcome_bind]. change (32 =? 32) with true. cbn [negb].
    pose proof (zlen_nonneg a). pose proof (zlen_nonneg u).
    rewrite <- (app_nil_r m), poke_prefix by (rewrite zlen_memset0; lia). cbn [mbind outcome_bind].
    replace (Z.to_nat (zlen a + 1)) with (length (a ++ [32])) by (rewrite length_app; unfold zlen; simpl; lia).
    rewrite (cons_middle 32 a), (app_assoc a [32]), drop_app_length.
    assert (cstring (replicate k 32 ++ u)) as Hku.
    { apply Forall_app. split; [|done]. apply Forall_replicate. unfold cchar. lia. }
    rewrite (app_assoc (replicate k 32)), strcpy_zeroed; [|done|rewrite zlen_app; unfold zlen in *; rewrite length_replicate; lia].
    cbn [mbind outcome_bind]. rewrite <- !(app_assoc (replicate k 32)).
    destruct (IH fuel (a ++ [32]) ((replicate k 32 ++ u) ++ 0 :: memset 0 (L + 1 - zlen (replicate k 32 ++ u) - 1) ++ []) true)
      as (m' & Hrun & Hm' & Hres); [done|zlen_lia|done|lia| |intros _; eexists; by rewrite <- app_assoc|].
    { rewrite zlen_app, zlen_cons, app_nil_r. rewrite zlen_memset0; [lia|].
      rewrite zlen_app. unfold zlen in *. rewrite length_replicate. lia. }
    exists m'. cbn [orb] in *. rewrite orb_true_r.
    split; [|split; [done|by intros _; apply Hres]].
    rewrite <- Hrun. replace (zlen (a ++ [32])) with (zlen a + 1) by zlen_lia. by rewrite <- !app_assoc.
Qed.

Lemma lstrip_hd s : hd 0 (lstrip s) <> 32.
Proof using Type. destruct (lstrip s) as [|c t] eqn:E; simpl; [lia|by apply lstrip_first in E]. Qed.

Lemma trim_before_in_place : in_place Trim_Before lstrip.
Proof using Hroom.
  intros s r Hs Hn. unfold Trim_Before.
  eapply gives_lift_bind; [by apply int_strlen_run|]. eapply gives_lift_bind; [by apply length_plus_1|].
  eapply gives_bind; [by apply gives_zeroed_string| |].
  - destruct (lstrip_split s) as [k Hk]. pose proof (zlen_nonneg s).
    destruct (trim_loop_from (zlen s) r (lstrip s) k (length (s ++ 0 :: r)) [] (memset 0 (zlen s + 1)) false)
      as (m & Hrun & Hm & Hres).
    + by apply shortens_cstring.
    + rewrite Hk at 1. rewrite zlen_app. unfold zlen. rewrite length_replicate. simpl. lia.
    + apply lstrip_hd.
    + rewrite Hk, !length_app, length_replicate. simpl. lia.
    + apply zlen_memset0. lia.
    + done.
    + cbn [app] in Hrun. rewrite app_assoc, <- Hk in Hrun. cbn [orb] in *.
      eapply gives_lift_bind; [exact Hrun|]. cbn [fst snd].
      apply (gives_bind_0 (-1) _ (shortened s (lstrip s) r)).
      * apply gives_lift. destruct k as [|k]; cbn [Nat.eqb negb] in *.
        { cbn in Hk. rewrite <- Hk. by rewrite shortened_same. }
        destruct (Hres eq_refl) as (q & ->). rewrite wipe_run.
        2: { apply u64_id. unfold short in Hn. lia. }
        cbn [mbind outcome_bind]. apply rewrite_run; [by apply shortens_cstring|by apply shortens_le].
      * eapply gives_bind; [apply gives_free|apply gives_ret|reflexivity].
  - reflexivity.
Qed.

Lemma reverse_lstrip s : reverse (lstrip (reverse s)) = rstrip s.
Proof using Type.
  induction s as [|c s IH] using rev_ind; [done|]. rewrite reverse_snoc. cbn [lstrip].
  destruct (Z.eqb_spec c 32) as [->|Hc].
  - rewrite IH. clear IH. induction s as [|d s IH]; [done|]. cbn [app rstrip]. by rewrite IH.
  - rewrite reverse_cons, reverse_involutive. clear IH.
    induction s as [|d s IH]; cbn [app rstrip]; [by destruct (Z.eqb_spec c 32)|]. rewrite <- IH.
    by destruct s.
Qed.

#[local] Instance shortens_rstrip : Shortens rstrip.
Proof using Type.
  split; intros s; [unfold zlen; pose proof (rstrip_length s); lia|].
  intros Hs. rewrite <- reverse_lstrip. by apply cstring_reverse, shortens_cstring, cstring_reverse.
Qed.

Lemma trim_behind_gives s r :
  cstring s -> short s -> gives 0 (Trim_Behind (s ++ 0 :: r)) (Some (shortened s (rstrip s) r)).
Proof using Hroom.
  intros Hs Hn. unfold Trim_Behind.
  assert (short (reverse s)) as Hn' by (unfold short in *; by rewrite zlen_reverse).
  pose proof (shortens_le (f := lstrip) (reverse s)) as Hl.
  eapply gives_bind_0; [by apply reverse_in_place|]. cbn beta iota.
  eapply gives_bind_0; [apply trim_before_in_place; [by apply cstring_reverse|done]|].
  rewrite shortened_twice by (rewrite zlen_reverse in *; lia). unfold shortened at 1.
  rewrite <- (reverse_lstrip s) , <- (shortened_twice s (lstrip (reverse s))) by (rewrite !zlen_reverse in *; lia).
  apply reverse_in_place; [by apply (shortens_cstring (f := lstrip)), cstring_reverse|unfold short in *; lia].
Qed.

(** The string without blanks at either end. *)
Definition trim (s : bytes) : bytes := rstrip (lstrip s).

#[local] Instance shortens_trim : Shortens trim.
Proof using Type.
  split; intros s.
  - unfold trim. pose proof (shortens_le (f := rstrip) (lstrip s)). pose proof (shortens_le (f := lstrip) s). lia.
  - intros Hs. by apply (shortens_cstring (f := rstrip)), (shortens_cstring (f := lstrip)).
Qed.

Lemma trim_in_place : in_place Trim trim.
Proof using Hroom.
  intros s r Hs Hn. unfold Trim. pose proof (shortens_le (f := lstrip) s) as Hl.
  eapply gives_bind_0; [by apply trim_before_in_place|].
  apply (gives_bind_0 0 _ (Some (shortened s (trim s) r))); [|apply (gives_ret (shortened s (trim s) r))].
  unfold trim. rewrite <- (shortened_twice s (lstrip s) (rstrip (lstrip s))) by (done || apply (shortens_le (f := rstrip))).
  unfold shortened at 1.
  apply trim_behind_gives; [by apply (shortens_cstring (f := lstrip))|unfold short in *; lia].
Qed.

(** ** The parts around a character *)

(** The string before and after the first [c]. *)
Fixpoint cut (c : Z) (s : bytes) : option (bytes * bytes) :=
  match s with
  | [] => None
  | x :: s => if x =? c then Some ([], s) else p ← cut c s; Some (x :: p.1, p.2)
  end.

Lemma cut_spec c s a b : cut c s = Some (a, b) -> s = a ++ c :: b.
Proof using Type.
  revert a b. induction s as [|x s IH]; intros a b; [done|]. cbn [cut]. destruct (Z.eqb_spec x c) as [->|].
  - by intros [= <- <-].
  - destruct (cut c s) as [[a' b']|]; [|done]. cbn. intros [= <- <-]. by rewrite (IH a' b').
Qed.

Lemma strchr_run c s r i :
  cstring s -> c <> 0 ->
  strchr_from i (s ++ 0 :: r) c = Ok ((λ p, i + zlen p.1) <$> cut c s).
Proof using Type.
  intros Hs Hc. revert i. induction Hs as [|x s Hx Hs IH]; intros i; cbn [app strchr_from cut].
  - by destruct (Z.eqb_spec 0 c); [congruence|].
  - destruct (Z.eqb_spec x c).
    + cbn. by rewrite Z.add_0_r.
    + destruct (Z.eqb_spec x 0) as [->|]; [by destruct Hx|]. rewrite IH. destruct (cut c s) as [[a b]|]; [|done].
      cbn. do 2 f_equal. rewrite zlen_cons. lia.
Qed.

Lemma behind_none c s r d : cstring s -> c <> 0 -> cut c s = None -> Get_String_Behind_Char (Some (s ++ 0 :: r)) c d = Ok None.
Proof using Type. intros Hs Hc Hcut. unfold Get_String_Behind_Char, strchr. by rewrite strchr_run, Hcut. Qed.

Lemma before_none c s r d : cstring s -> c <> 0 -> cut c s = None -> Get_String_Before_Char (Some (s ++ 0 :: r)) c d = Ok None.
Proof using Type. intros Hs Hc Hcut. unfold Get_String_Before_Char, strchr. by rewrite strchr_run, Hcut. Qed.

Lemma behind_run c s a b r d q :
  cstring s -> c <> 0 -> cut c s = Some (a, b) -> zlen d = zlen b + 1 ->
  Get_String_Behind_Char (Some (s ++ 0 :: r)) c (d ++ q) = Ok (Some (b ++ 0 :: q)).
Proof using Type.
  intros Hs Hc Hcut Hd. unfold Get_String_Behind_Char, strchr. rewrite strchr_run, Hcut by done. cbn [fmap option_fmap option_map mbind outcome_bind fst].
  apply cut_spec in Hcut. subst s. apply Forall_app in Hs as [_ Hs]. apply Forall_cons in Hs as [_ Hs].
  replace (Z.to_nat (0 + zlen a + 1)) with (length (a ++ [c])) by (rewrite length_app; unfold zlen; simpl; lia).
  rewrite <- app_assoc. cbn [app]. rewrite (cons_middle c a (b ++ 0 :: r)), (app_assoc a [c]), drop_app_length.
  by rewrite strcpy_run.
Qed.

Lemma before_run c s a b r d q :
  cstring s -> short s -> c <> 0 -> cut c s = Some (a, b) -> zlen d = zlen a + 1 ->
  Get_String_Before_Char (Some (s ++ 0 :: r)) c (d ++ q) = Ok (Some (a ++ 0 :: q)).
Proof using Type.
  intros Hs Hn Hc Hcut Hd. unfold Get_String_Before_Char, strchr. rewrite strchr_run, Hcut by done. cbn [fmap option_fmap option_map mbind outcome_bind fst].
  apply cut_spec in Hcut. subst s. unfold short in Hn. pose proof (zlen_nonneg a). pose proof (zlen_nonneg b).
  assert (zlen a < 2147483647) as Ha by zlen_lia.
  rewrite s32_id by lia. replace (Z.abs (0 - (0 + zlen a))) with (zlen a) by lia. rewrite u64_id by lia.
  rewrite <- app_assoc, peek_prefix by done. cbn [mbind outcome_bind].
  destruct (split_last d (length a)) as (d' & y & -> & Hd'); [unfold zlen in *; lia|].
  rewrite <- app_assoc, poke_prefix by (unfold zlen; lia). cbn [mbind outcome_bind app].
  rewrite (cons_middle y a), (poke_layout a [y] q [0]) by done. done.
Qed.
End facts.
