(* ===== verification/LibFile.v ===== *)
(** * Reading files and configuration files ([lib_file.c], [lib_conf_file.c]): definitions

    A file is [None] when it cannot be opened.  [fclose] only ends the use of
    the stream. *)

From S2P Require Import Prelude LibC Buffers CHeap LibString.

(** [strcmp(a, b) == 0] *)
Definition strcmp_equal (a b : bytes) : outcome bool :=
  _ ← strlen a; _ ← strlen b; Ok (bool_decide (content a = content b)).

(** [s[strlen(s) - 1]] *)
Definition last_char (s : bytes) : outcome Z := n ← strlen s; zget s (n - 1).

(** ** lib_file.c *)

Definition Get_FileSize (filename : option bytes) : Z := match filename with Some b => zlen b | None => 0 end.

(** The fuel is the size of the file. *)
Fixpoint row_loop (fuel : nat) (sString : bytes) (fp : FILE) (iNum : Z) : outcome Z :=
  match fuel with
  | O => NoFuel
  | S fuel =>
      r ← fgets sString 1024 fp;
      match r.1 with
      | None => Ok iNum
      | Some sString =>
          iLeng_Str ← int_strlen sString;
          c ← zget sString iLeng_Str;
          if 10 =? c then iNum ← int_range (iNum + 1); row_loop fuel sString r.2 iNum
          else row_loop fuel sString r.2 iNum
      end
  end.

(** The result and [*pNum], which is not written when the file does not open. *)
Definition GetFileRowCount (sFilename : option bytes) (pNum : Z) : outcome (Z * Z) :=
  match fopen_r sFilename with
  | None => Ok (-1, pNum)
  | Some fp => iNum ← row_loop (S (length (f_data fp))) (memset 0 1024) fp 0; Ok (iNum, iNum)
  end.

(** The state of a read loop; the file name is the file itself. *)
Record ST_ReadLine : Type := mk_readline {
  pPoint_fp : option FILE;
  sStr_Line : bytes;
  iFlagFirst : Z;
  sStr_FilePathName : option bytes;
}.

(** How a routine ends: with a pointer, with NULL, or behind its last
    statement without a [return]. *)
Inductive returned : Type :=
  | Pointer
  | Null
  | Falls_off.

#[export] Instance returned_eq_dec : EqDecision returned.
Proof. solve_decision. Defined.

(** [errno] is the value the C library leaves after [fgets]. *)
Definition While_ReadLine_FromFile (errno : Z) (st : ST_ReadLine) : outcome (returned * ST_ReadLine) :=
  let opened :=
    if 0 =? iFlagFirst st then
      match fopen_r (sStr_FilePathName st) with
      | None => inr (mk_readline None (sStr_Line st) (-2) (sStr_FilePathName st))
      | Some fp => inl (mk_readline (Some fp) (sStr_Line st) (iFlagFirst st) (sStr_FilePathName st))
      end
    else inl st in
  match opened with
  | inr st => Ok (Null, st)
  | inl st =>
      if negb (-1 =? iFlagFirst st) && negb (-2 =? iFlagFirst st) then
        line ← poke (sStr_Line st) 0 (memset 0 40961);
        fp ← or_fault (pPoint_fp st);
        r ← fgets line 40961 fp;
        match r.1 with
        | None => Ok (Null, mk_readline (Some r.2) line (if negb (0 =? errno) then -1 else -2) (sStr_FilePathName st))
        | Some line =>
            n ← int_range (iFlagFirst st + 1);
            Ok (Pointer, mk_readline (Some r.2) line n (sStr_FilePathName st))
        end
      else Ok (Falls_off, st)
  end.

Section library.
Context `{Allocator}.

(** [iCount_Line] and the last character read; the fuel is what is left of the
    file. *)
Fixpoint measure_line (fuel : nat) (fp : FILE) (iCount_Line : Z) : outcome (Z * Z * FILE) :=
  match fuel with
  | O => NoFuel
  | S fuel =>
      let r := fgetc fp in
      n ← int_range (iCount_Line + 1);
      if (10 =? r.1) || (EOF =? r.1) then Ok (n, r.1, r.2) else measure_line fuel r.2 n
  end.

(** The result, the block with the line ([*pOut], [None] when it is not
    written), and the stream. *)
Definition GetFileLine_Malloc (fp : FILE) : cmd (Z * option bytes * FILE) :=
  let first := fgetc fp in
  if EOF =? first.1 then mret (-2, None, first.2)
  else
    let fp := fseek_cur first.2 (-1) in
    m ← lift (measure_line (S (length (f_data fp))) fp 0);
    let iCount_Line := m.1.1 in
    let iChar := m.1.2 in
    let fp := if 10 =? iChar then fseek_cur m.2 (- iCount_Line)
              else if EOF =? iChar then fseek_cur m.2 (- (iCount_Line - 1))
              else m.2 in
    pTmp ← malloc_zeroed iCount_Line;
    r ← lift (fgets pTmp iCount_Line fp);
    let pOut := default pTmp r.1 in
    if EOF =? iChar then mret (-1, Some pOut, r.2)
    else if 10 =? iChar then mret (iCount_Line - 1, Some pOut, fseek_cur r.2 1)
    else mret (-3, Some pOut, r.2).

Definition GetFileLine_Free (pIn : option bytes) : cmd unit := free pIn.

(** ** lib_conf_file.c *)

(** [None]: NULL is returned and [*pPoint_AddMem] is as it was; otherwise its
    new value. *)
Definition AddMem_For_AddString (iCount_ReadLine : Z) (sSrc_String : bytes) (pPoint_AddMem : option bytes) : cmd (option bytes) :=
  if 1 =? iCount_ReadLine then AddStr_Malloc sSrc_String
  else AddStr_Realloc pPoint_AddMem sSrc_String.

Definition FreeMem_For_AddString (pPoint_NeedFree : option bytes) : cmd (option bytes) := AddStr_Free pPoint_NeedFree.

(** The loop: the result and the destination. *)
Fixpoint value_by_key_loop (fuel : nat) (fp : FILE) (sKey sDst_String : bytes) (pPoint_AddMem : option bytes)
    (iCount_ReadLine : Z) : cmd (Z * bytes) :=
  match fuel with
  | O => lift NoFuel
  | S fuel =>
      pPoint_AddMem ← FreeMem_For_AddString pPoint_AddMem;
      iCount_ReadLine ← lift (int_range (iCount_ReadLine + 1));
      r ← lift (fgets (memset 0 4096) 4096 fp);
      let pRet := r.1 in
      let fp := r.2 in
      let sString_ReadLine := default (memset 0 4096) pRet in
      added ← AddMem_For_AddString iCount_ReadLine sString_ReadLine pPoint_AddMem;
      match added with
      | None => _ ← FreeMem_For_AddString pPoint_AddMem; mret (-2, sDst_String)
      | Some mem =>
          key ← Get_String_Before_Dh_QdKg (Some mem) (memset 0 4096);
          match key with
          | None =>
              match pRet with
              | None => _ ← FreeMem_For_AddString (Some mem); mret (-1, sDst_String)
              | Some _ =>
                  c ← lift (last_char sString_ReadLine);
                  value_by_key_loop fuel fp sKey sDst_String (Some mem) (if 10 =? c then 0 else iCount_ReadLine)
              end
          | Some sSting_Key =>
              c ← lift (last_char sString_ReadLine);
              if 10 =? c then
                same ← lift (strcmp_equal sSting_Key sKey);
                if same : bool then
                  value ← Get_String_Behind_Dh_QdKg (Some mem) (memset 0 40960);
                  _ ← FreeMem_For_AddString (Some mem);
                  match value with
                  | None => mret (-1, sDst_String)
                  | Some sSting_Value => dst ← lift (strcpy sDst_String sSting_Value); mret (0, dst)
                  end
                else value_by_key_loop fuel fp sKey sDst_String (Some mem) 0
              else value_by_key_loop fuel fp sKey sDst_String (Some mem) iCount_ReadLine
          end
      end
  end.

Definition Get_ValuseString_ByKey_InConfFile (fuel : nat) (sFile_Name : option bytes) (sKey sDst_String : bytes) : cmd (Z * bytes) :=
  match fopen_r sFile_Name with
  | None => mret (-1, sDst_String)
  | Some fp => value_by_key_loop fuel fp sKey sDst_String None 0
  end.

(** The inner loop of [Get_ValuseString_ByFieldKey_InConfFile]: the keys of
    the field that was found. *)
Fixpoint field_key_loop (fuel : nat) (fp : FILE) (sKey sDst_String : bytes) (pPoint_AddMem : option bytes)
    (iCount_ReadLine : Z) : cmd (Z * bytes) :=
  match fuel with
  | O => lift NoFuel
  | S fuel =>
      pPoint_AddMem ← FreeMem_For_AddString pPoint_AddMem;
      iCount_ReadLine ← lift (int_range (iCount_ReadLine + 1));
      r ← lift (fgets (memset 0 4096) 4096 fp);
      let pRet := r.1 in
      let fp := r.2 in
      let sString_ReadLine := default (memset 0 4096) pRet in
      field ← Get_String_Between_Zkh (Some sString_ReadLine) (Some (memset 0 4096));
      match field with
      | Some _ => mret (-3, sDst_String)
      | None =>
          added ← AddMem_For_AddString iCount_ReadLine sString_ReadLine pPoint_AddMem;
          match added with
          | None => _ ← FreeMem_For_AddString pPoint_AddMem; mret (-2, sDst_String)
          | Some mem =>
              key ← Get_String_Before_Dh_QdKg (Some mem) (memset 0 4096);
              match key with
              | None =>
                  match pRet with
                  | None => _ ← FreeMem_For_AddString (Some mem); mret (-1, sDst_String)
                  | Some _ =>
                      c ← lift (last_char sString_ReadLine);
                      field_key_loop fuel fp sKey sDst_String (Some mem) (if 10 =? c then 0 else iCount_ReadLine)
                  end
              | Some sSting_Key =>
                  c ← lift (last_char sString_ReadLine);
                  if 10 =? c then
                    same ← lift (strcmp_equal sSting_Key sKey);
                    if same : bool then
                      value ← Get_String_Behind_Dh_QdKgHh (Some mem) (memset 0 40960);
                      _ ← FreeMem_For_AddString (Some mem);
                      match value with
                      | None => mret (-1, sDst_String)
                      | Some sSting_Value => dst ← lift (strcpy sDst_String sSting_Value); mret (0, dst)
                      end
                    else field_key_loop fuel fp sKey sDst_String (Some mem) 0
                  else field_key_loop fuel fp sKey sDst_String (Some mem) iCount_ReadLine
              end
          end
      end
  end.

(** The outer loop, which looks for the field. *)
Fixpoint field_loop (fuel : nat) (fp : FILE) (sField sKey sDst_String : bytes) (pPoint_AddMem : option bytes)
    (iCount_ReadLine : Z) : cmd (Z * bytes) :=
  match fuel with
  | O => lift NoFuel
  | S fuel =>
      pPoint_AddMem ← FreeMem_For_AddString pPoint_AddMem;
      iCount_ReadLine ← lift (int_range (iCount_ReadLine + 1));
      r ← lift (fgets (memset 0 4096) 4096 fp);
      let pRet := r.1 in
      let fp := r.2 in
      let sString_ReadLine := default (memset 0 4096) pRet in
      added ← AddMem_For_AddString iCount_ReadLine sString_ReadLine pPoint_AddMem;
      match added with
      | None => _ ← FreeMem_For_AddString pPoint_AddMem; mret (-2, sDst_String)
      | Some mem =>
          field ← Get_String_Between_Zkh (Some mem) (Some (memset 0 4096));
          match field with
          | None =>
              match pRet with
              | None => _ ← FreeMem_For_AddString (Some mem); mret (-1, sDst_String)
              | Some _ =>
                  c ← lift (last_char sString_ReadLine);
                  field_loop fuel fp sField sKey sDst_String (Some mem) (if 10 =? c then 0 else iCount_ReadLine)
              end
          | Some sSting_Field =>
              c ← lift (last_char sString_ReadLine);
              if 10 =? c then
                same ← lift (strcmp_equal sSting_Field sField);
                if same : bool then field_key_loop fuel fp sKey sDst_String (Some mem) 0
                else field_loop fuel fp sField sKey sDst_String (Some mem) 0
              else field_loop fuel fp sField sKey sDst_String (Some mem) iCount_ReadLine
          end
      end
  end.

Definition Get_ValuseString_ByFieldKey_InConfFile (fuel : nat) (sFile_Name : option bytes) (sField sKey sDst_String : bytes) : cmd (Z * bytes) :=
  match fopen_r sFile_Name with
  | None => mret (-1, sDst_String)
  | Some fp => field_loop fuel fp sField sKey sDst_String None 0
  end.

(** The lines that are no comment and not empty; the routine has no [return]
    behind its loop. *)
Fixpoint Wile_ReadLine_FromConfFile (fuel : nat) (errno : Z) (st : ST_ReadLine) : cmd (returned * ST_ReadLine) :=
  match fuel with
  | O => lift NoFuel
  | S fuel =>
      r ← lift (While_ReadLine_FromFile errno st);
      match r.1 with
      | Null => mret (Falls_off, r.2)
      | Falls_off => lift Fault
      | Pointer =>
          line ← Trim (sStr_Line r.2);
          let st := mk_readline (pPoint_fp r.2) line (iFlagFirst r.2) (sStr_FilePathName r.2) in
          let comment := strncmp 1 line (lit "#") in
          empty ← lift (strcmp_equal line [10; 0]);
          if (0 =? comment) || empty then Wile_ReadLine_FromConfFile fuel errno st
          else mret (Pointer, st)
      end
  end.

(** The unfinished splitting of lines: the stream it leaves. *)
Fixpoint GetValue_ByStr (fuel : nat) (pFile : FILE) (sIn : bytes) : cmd FILE :=
  match fuel with
  | O => lift NoFuel
  | S fuel =>
      r ← GetFileLine_Malloc pFile;
      let iRet := r.1.1 in
      if -2 =? iRet then mret r.2
      else
        pTmp ← lift (or_fault r.1.2);
        pPoint ← lift (strstr pTmp sIn);
        match pPoint with
        | None => GetValue_ByStr fuel r.2 sIn
        | Some _ =>
            _ ← GetFileLine_Free (Some pTmp);
            if -1 =? iRet then mret r.2 else GetValue_ByStr fuel r.2 sIn
        end
  end.
End library.
