(* ===== verification/LibFileFacts.v ===== *)
(** * Configuration files ([lib_conf_file.c]): what the look-ups compute

    A configuration file is a list of lines, each ended by a line feed.  The
    look-ups are followed line by line, with the blocks they allocate. *)

From S2P Require Import Prelude LibC Buffers BasString BasStringFacts CHeap LibString.
From S2P Require Import LibStringFacts LibFile.

#[local] Opaque memset.

Section facts.
Context `{Allocator}.
Hypothesis Hroom : has_room.

(** ** The parts of a line *)

Lemma cut_parts c s a b : cut c s = Some (a, b) -> cstring s -> cstring a /\ cstring b /\ zlen a + zlen b + 1 = zlen s.
Proof using Type.
  intros Hcut Hs. apply cut_spec in Hcut. subst s. apply Forall_app in Hs as [Ha Hb]. apply Forall_cons in Hb as [_ Hb].
  split; [done|]. split; [done|]. zlen_lia.
Qed.

(** Zeroed memory from which the first [k] bytes are used. *)
Lemma memset_cut k n : 0 <= k <= n -> memset 0 n = memset 0 k ++ memset 0 (n - k).
Proof using Type. intros Hk. rewrite <- memset_split by lia. by replace (k + (n - k)) with n by lia. Qed.

Section line.
Context (s r : bytes) (Hs : cstring s) (Hn : short s).

Lemma part_short t : zlen t <= zlen s -> short t.
Proof using Hn. unfold short in *. lia. Qed.

Lemma key_gives a b n :
  cut 61 s = Some (a, b) -> zlen a < n ->
  exists q, gives 0 (Get_String_Before_Dh_QdKg (Some (s ++ 0 :: r)) (memset 0 n)) (Some (trim a ++ 0 :: q)).
Proof using Hroom Hs Hn.
  intros Hcut Ha. destruct (cut_parts 61 s a b Hcut Hs) as (Hca & _ & Hl). pose proof (zlen_nonneg a). pose proof (zlen_nonneg b).
  eexists. unfold Get_String_Before_Dh_QdKg. rewrite (memset_cut (zlen a + 1) n) by lia.
  eapply gives_lift_bind; [apply (before_run 61 s a b); [done..|by apply zlen_memset0; lia]|].
  eapply gives_bind_0; [apply trim_in_place; [done|done|apply part_short; lia]|apply gives_ret].
Qed.

Lemma key_none d : cut 61 s = None -> gives 0 (Get_String_Before_Dh_QdKg (Some (s ++ 0 :: r)) d) None.
Proof using Hs.
  intros Hcut. unfold Get_String_Before_Dh_QdKg. eapply gives_lift_bind; [by apply before_none|apply gives_ret].
Qed.

Lemma value_gives a b n :
  cut 61 s = Some (a, b) -> zlen b < n ->
  exists q, gives 0 (Get_String_Behind_Dh_QdKg (Some (s ++ 0 :: r)) (memset 0 n)) (Some (trim b ++ 0 :: q)).
Proof using Hroom Hs Hn.
  intros Hcut Hb. destruct (cut_parts 61 s a b Hcut Hs) as (_ & Hcb & Hl). pose proof (zlen_nonneg a). pose proof (zlen_nonneg b).
  eexists. unfold Get_String_Behind_Dh_QdKg. rewrite (memset_cut (zlen b + 1) n) by lia.
  eapply gives_lift_bind; [apply (behind_run 61 s a b); [done..|by apply zlen_memset0; lia]|].
  eapply gives_bind_0; [apply trim_in_place; [done|done|apply part_short; lia]|apply gives_ret].
Qed.

Lemma value_hh_gives a b n :
  cut 61 s = Some (a, b) -> zlen b < n ->
  exists q, gives 0 (Get_String_Behind_Dh_QdKgHh (Some (s ++ 0 :: r)) (memset 0 n)) (Some (trim (without 10 b) ++ 0 :: q)).
Proof using Hroom Hs Hn.
  intros Hcut Hb. destruct (cut_parts 61 s a b Hcut Hs) as (_ & Hcb & Hl). pose proof (zlen_nonneg a). pose proof (zlen_nonneg b).
  eexists. unfold Get_String_Behind_Dh_QdKgHh. rewrite (memset_cut (zlen b + 1) n) by lia.
  eapply gives_lift_bind; [apply (behind_run 61 s a b); [done..|by apply zlen_memset0; lia]|].
  eapply gives_bind_0; [apply del_char_gives; [done|done|apply part_short; lia]|].
  assert (Shortens (without 10)) as [Hw1 Hw2] by apply shortens_without.
  eapply gives_bind_0; [apply trim_in_place; [done|by apply Hw2|apply part_short; specialize (Hw1 b); lia]|apply gives_ret].
Qed.

(** The key and the value, in destinations as long as the string. *)
Lemma key_value_gives dk qk dv qv a b :
  cut 61 s = Some (a, b) -> zlen dk = zlen s -> zlen dv = zlen s ->
  exists qk' qv', gives 0 (Get_KeyValue_Dh_QdKg (Some (s ++ 0 :: r)) (Some (dk ++ qk)) (Some (dv ++ qv)))
    (Some (trim a ++ 0 :: qk', trim b ++ 0 :: qv')).
Proof using Hroom Hs Hn.
  intros Hcut Hdk Hdv. destruct (cut_parts 61 s a b Hcut Hs) as (Hca & Hcb & Hl). pose proof (zlen_nonneg a). pose proof (zlen_nonneg b).
  destruct (split_at dk (S (length a))) as (k1 & k2 & -> & Hk1); [unfold zlen in *; lia|].
  destruct (split_at dv (S (length b))) as (v1 & v2 & -> & Hv1); [unfold zlen in *; lia|].
  do 2 eexists. unfold Get_KeyValue_Dh_QdKg, Get_String_Behind_Dh_QdKg, Get_String_Before_Dh_QdKg. rewrite <- !app_assoc.
  eapply gives_bind_0.
  { eapply gives_lift_bind; [apply (behind_run 61 s a b); [done..|unfold zlen in *; lia]|].
    eapply gives_bind_0; [apply trim_in_place; [done|done|apply part_short; lia]|apply gives_ret]. }
  cbn beta iota. apply (gives_bind_0 0 _ (Some (shortened a (trim a) (k2 ++ qk)))); [|apply gives_ret].
  eapply gives_lift_bind; [apply (before_run 61 s a b); [done..|unfold zlen in *; lia]|].
  eapply gives_bind_0; [apply trim_in_place; [done|done|apply part_short; lia]|apply gives_ret].
Qed.

Lemma key_value_none dk dv : cut 61 s = None -> gives 0 (Get_KeyValue_Dh_QdKg (Some (s ++ 0 :: r)) (Some dk) (Some dv)) None.
Proof using Hs.
  intros Hcut. unfold Get_KeyValue_Dh_QdKg, Get_String_Behind_Dh_QdKg. apply (gives_bind_0 0 _ None); [|apply gives_ret].
  eapply gives_lift_bind; [by apply behind_none|apply gives_ret].
Qed.

(** The text between the first [[] and the first []] after it. *)
Definition between (s : bytes) : option bytes := p ← cut 91 s; q ← cut 93 p.2; Some q.1.

(** The block is freed only when both brackets are there. *)
Lemma between_gives n :
  zlen s < n ->
  match between s with
  | Some f => exists q, gives 0 (Get_String_Between_Zkh (Some (s ++ 0 :: r)) (Some (memset 0 n))) (Some (f ++ 0 :: q))
  | None => gives 1 (Get_String_Between_Zkh (Some (s ++ 0 :: r)) (Some (memset 0 n))) None
  end.
Proof using Hroom Hs Hn.
  intros Hsn. unfold between, Get_String_Between_Zkh. pose proof (zlen_nonneg s).
  destruct (cut 91 s) as [[a t]|] eqn:E1; cbn [mbind option_bind fst snd].
  - destruct (cut_parts 91 s a t E1 Hs) as (_ & Ht & Hl). pose proof (zlen_nonneg a). pose proof (zlen_nonneg t).
    destruct (cut 93 t) as [[f u]|] eqn:E2; cbn [mbind option_bind fst snd].
    + destruct (cut_parts 93 t f u E2 Ht) as (_ & _ & Hl'). pose proof (zlen_nonneg f). pose proof (zlen_nonneg u).
      eexists. eapply gives_lift_bind; [by apply int_strlen_run|]. eapply gives_lift_bind; [by apply length_plus_1|].
      eapply gives_bind; [by apply gives_zeroed_string| |].
      * rewrite (memset_cut (zlen t + 1) (zlen s + 1)) by lia.
        eapply gives_lift_bind; [by apply (behind_run 91 s a t); [..|apply zlen_memset0; lia]|].
        rewrite (memset_cut (zlen f + 1) n) by lia.
        eapply gives_lift_bind; [apply (before_run 93 t f u); [done|apply part_short; lia|done|done|apply zlen_memset0; lia]|].
        eapply gives_bind; [apply gives_free|apply gives_ret|reflexivity].
      * reflexivity.
    + eapply gives_lift_bind; [by apply int_strlen_run|]. eapply gives_lift_bind; [by apply length_plus_1|].
      apply (gives_bind 1 0 1 _ (memset 0 (zlen s + 1))); [by apply gives_zeroed_string| |done].
      rewrite (memset_cut (zlen t + 1) (zlen s + 1)) by lia.
      eapply gives_lift_bind; [by apply (behind_run 91 s a t); [..|apply zlen_memset0; lia]|].
      eapply gives_lift_bind; [by apply before_none|]. apply gives_ret.
  - eapply gives_lift_bind; [by apply int_strlen_run|]. eapply gives_lift_bind; [by apply length_plus_1|].
    apply (gives_bind 1 0 1 _ (memset 0 (zlen s + 1))); [by apply gives_zeroed_string| |done].
    eapply gives_lift_bind; [by apply behind_none|]. apply gives_ret.
Qed.
End line.

(** ** Lines of a file *)

(** A line without its line feed, which [fgets] reads whole. *)
Definition conf_line (l : bytes) : Prop := Forall (λ c, cchar c /\ c <> 10) l /\ zlen l < 4095.

#[export] Instance conf_line_dec l : Decision (conf_line l).
Proof using Type. unfold conf_line. apply _. Defined.

Definition ended (l : bytes) : bytes := l ++ [10].
Definition conf_text (lines : list bytes) : bytes := concat (ended <$> lines).

Lemma ended_cstring l : conf_line l -> cstring (ended l).
Proof using Type.
  intros [Hl _]. apply Forall_app. split; [by eapply Forall_impl; [exact Hl|intros c [Hc _]]|].
  repeat constructor. all: lia.
Qed.

Lemma ended_length l : conf_line l -> zlen (ended l) < 4096.
Proof using Type. intros [_ Hl]. unfold ended. zlen_lia. Qed.

Lemma ended_short l : conf_line l -> short (ended l).
Proof using Type. intros Hl. pose proof (ended_length l Hl). unfold short. lia. Qed.

Lemma fgets_ended a l b :
  conf_line l ->
  fgets (memset 0 4096) 4096 (at_rest a (ended l ++ b)) =
  Ok (Some (ended l ++ 0 :: memset 0 (4095 - zlen (ended l))), at_rest (a ++ ended l) b).
Proof using Type.
  intros Hl. pose proof (ended_length l Hl). pose proof (zlen_nonneg (ended l)).
  rewrite (memset_cut (zlen (ended l) + 1) 4096) by lia.
  replace (4096 - (zlen (ended l) + 1)) with (4095 - zlen (ended l)) by lia.
  apply fgets_line; [lia|by destruct l| |apply zlen_memset0; lia].
  destruct Hl as [Hl Hn]. unfold ended. rewrite <- app_assoc. apply read_line_whole; [|unfold zlen in *; lia].
  eapply Forall_impl; [exact Hl|]. by intros c [_ Hc].
Qed.

Lemma last_char_ended l r : conf_line l -> last_char (ended l ++ 0 :: r) = Ok 10.
Proof using Type.
  intros Hl. unfold last_char. rewrite strlen_app by by apply ended_cstring. cbn [mbind outcome_bind].
  unfold ended. rewrite <- app_assoc. apply zget_middle. zlen_lia.
Qed.

Lemma strcmp_equal_run a q b q' :
  cstring a -> cstring b -> strcmp_equal (a ++ 0 :: q) (b ++ 0 :: q') = Ok (bool_decide (a = b)).
Proof using Type. intros Ha Hb. unfold strcmp_equal. by rewrite !strlen_app, !content_app. Qed.

Lemma add_str_malloc_gives s r : cstring s -> short s -> gives 1 (AddStr_Malloc (s ++ 0 :: r)) (Some (s ++ [0])).
Proof using Hroom.
  intros Hs Hn [lv k]. exists (k + 1). unfold AddStr_Malloc, malloc, lift, mbind, cmd_bind. cbn [calls live].
  rewrite int_strlen_run by done. cbn [mbind outcome_bind fst snd]. rewrite length_plus_1 by done. cbn [mbind outcome_bind fst snd].
  unfold short in Hn. pose proof (zlen_nonneg s). rewrite u64_id by lia. cbn [calls live]. rewrite Hroom by lia. cbn [mbind outcome_bind fst snd].
  rewrite <- (app_nil_r (new_bytes k _)), poke_prefix by (rewrite zlen_new_bytes, zlen_memset0; lia). cbn [mbind outcome_bind fst snd].
  rewrite (memset_S (zlen s + 1)) by lia. unfold strcat. cbn [app strlen]. change (0 =? 0) with true. cbn [mbind outcome_bind].
  rewrite strlen_app, content_app by done. cbn [mbind outcome_bind].
  rewrite app_comm_cons, <- (memset_S (zlen s + 1)) by lia.
  rewrite poke_prefix; [by rewrite app_nil_r|]. rewrite zlen_memset0 by lia. zlen_lia.
Qed.

(** The blocks a variable owns. *)
Definition owned (p : option bytes) : Z := match p with Some _ => 1 | None => 0 end.

Lemma free_mem_gives p : gives (- owned p) (FreeMem_For_AddString p) None.
Proof using Type.
  unfold FreeMem_For_AddString, AddStr_Free.
  destruct p as [b|]; (eapply gives_bind; [|apply gives_ret|]); [apply gives_free|done|apply gives_free_null|done].
Qed.

(** ** Looking for a key *)

(** The value a line gives the key [key]. *)
Definition line_value (key l : bytes) : option bytes :=
  match cut 61 (ended l) with
  | Some (k, v) => if bool_decide (trim k = key) then Some (trim v) else None
  | None => None
  end.

(** The first value in a list of lines. *)
Fixpoint conf_lookup (value : bytes -> option bytes) (lines : list bytes) : option bytes :=
  match lines with
  | [] => None
  | l :: lines => match value l with Some v => Some v | None => conf_lookup value lines end
  end.

(** Return value and destination. *)
Definition found (dst : bytes) (v : option bytes) : Z * bytes :=
  match v with
  | Some v => (0, v ++ 0 :: drop (S (length v)) dst)
  | None => (-1, dst)
  end.

Lemma line_key_value l k v :
  conf_line l -> cut 61 (ended l) = Some (k, v) ->
  cstring k /\ cstring v /\ cstring (trim k) /\ cstring (trim v) /\ zlen k < 4096 /\ zlen v < 40960.
Proof using Type.
  intros Hl Hcut. destruct (cut_parts _ _ _ _ Hcut (ended_cstring l Hl)) as (Hk & Hv & Hlen).
  pose proof (ended_length l Hl). pose proof (zlen_nonneg k). pose proof (zlen_nonneg v).
  destruct shortens_trim as [_ Ht]. pose proof (Ht k Hk). pose proof (Ht v Hv). split_and!; done || lia.
Qed.

(** The part every round begins with: the block of the round before is freed,
    and a whole line is read into a new one. *)
Ltac begin_round Hl p d :=
  eapply (gives_bind (- owned p) (1 + d)); [apply free_mem_gives| |lia];
  eapply gives_lift_bind; [reflexivity|]; eapply gives_lift_bind; [by apply fgets_ended|]; cbn [fst snd default id];
  eapply (gives_bind 1 d); [by apply add_str_malloc_gives; [apply ended_cstring|apply ended_short]| |reflexivity]; cbn beta iota.

(** One round of the loop on a whole line. *)
Lemma key_round fuel a l b key rk dst p :
  conf_line l -> cstring key -> (forall v, line_value key l = Some v -> zlen v < zlen dst) ->
  let here := value_by_key_loop (S fuel) (at_rest a (ended l ++ b)) (key ++ 0 :: rk) dst p 0 in
  match line_value key l with
  | Some v => gives (- owned p) here (found dst (Some v))
  | None => becomes (1 - owned p) here
              (value_by_key_loop fuel (at_rest (a ++ ended l) b) (key ++ 0 :: rk) dst (Some (ended l ++ [0])) 0)
  end.
Proof using Hroom.
  intros Hl Hkey Hdst. pose proof (ended_cstring l Hl) as Hs. pose proof (ended_short l Hl) as Hn.
  cbn [value_by_key_loop]. cbv zeta. unfold line_value in *. destruct (cut 61 (ended l)) as [[k v]|] eqn:E.
  - destruct (line_key_value l k v Hl E) as (Hk & Hv & Htk & Htv & Hlk & Hlv).
    destruct (key_gives (ended l) [] Hs Hn k v 4096 E Hlk) as (q & Hq).
    case_bool_decide as Hc; [specialize (Hdst _ eq_refl); begin_round Hl p (-1)|begin_round Hl p 0];
      (eapply gives_bind_0; [exact Hq|]); cbn beta iota;
      (eapply gives_lift_bind; [by apply last_char_ended|]); change (10 =? 10) with true; cbv iota;
      (eapply gives_lift_bind; [by apply strcmp_equal_run|]).
    + rewrite bool_decide_eq_true_2 by done.
      destruct (value_gives (ended l) [] Hs Hn k v 40960 E Hlv) as (q' & Hq'). eapply gives_bind_0; [exact Hq'|].
      eapply (gives_bind (-1) 0); [apply (free_mem_gives (Some _))| |done].
      eapply gives_lift_bind; [by apply strcpy_fit|]. apply gives_ret.
    + rewrite bool_decide_eq_false_2 by done. apply becomes_refl.
  - begin_round Hl p 0. eapply gives_bind_0; [by apply key_none|]. cbn beta iota.
    eapply gives_lift_bind; [by apply last_char_ended|]. apply becomes_refl.
Qed.

(** The end of the file: an empty line without a line feed. *)
Lemma key_end fuel a key dst p :
  gives (- owned p) (value_by_key_loop (S fuel) (at_rest a []) key dst p 0) (found dst None).
Proof using Hroom.
  cbn [value_by_key_loop].
  eapply (gives_bind (- owned p) 0); [apply free_mem_gives| |lia].
  eapply gives_lift_bind; [reflexivity|]. eapply gives_lift_bind; [by apply fgets_end|]. cbn [fst snd default].
  rewrite (memset_S 4096) by lia.
  eapply (gives_bind 1 (-1)); [apply (add_str_malloc_gives [] (memset 0 (4096 - 1))); [constructor|done]| |done]. cbn beta iota.
  eapply gives_bind_0; [apply (key_none [] []); [constructor|done]|]. cbn beta iota.
  eapply (gives_bind (-1) 0); [apply (free_mem_gives (Some _))|apply gives_ret|done].
Qed.

(** The lines without a value are passed over, whatever follows. *)
Lemma key_skip key rk b lines : forall fuel a dst p,
  Forall conf_line lines -> cstring key -> (length lines < fuel)%nat ->
  (forall v, conf_lookup (line_value key) lines = Some v -> zlen v < zlen dst) ->
  let here := value_by_key_loop fuel (at_rest a (conf_text lines ++ b)) (key ++ 0 :: rk) dst p 0 in
  match conf_lookup (line_value key) lines with
  | Some v => gives (- owned p) here (found dst (Some v))
  | None => exists p' a', becomes (owned p' - owned p) here
              (value_by_key_loop (fuel - length lines) (at_rest a' b) (key ++ 0 :: rk) dst p' 0)
  end.
Proof using Hroom.
  induction lines as [|l lines IH]; intros fuel a dst p Hlines Hkey Hf Hdst; cbn [conf_lookup] in *.
  { exists p, a. cbn. rewrite Nat.sub_0_r, Z.sub_diag. apply becomes_refl. }
  apply Forall_cons in Hlines as [Hl Hlines]. destruct fuel as [|fuel]; [lia|].
  unfold conf_text. cbn [fmap list_fmap concat]. rewrite <- app_assoc.
  pose proof (key_round fuel a l (conf_text lines ++ b) key rk dst p Hl Hkey) as Hround. cbv zeta in Hround |- *.
  destruct (line_value key l) as [v|]; [by apply Hround|]. specialize (Hround ltac:(done)).
  specialize (IH fuel (a ++ ended l) dst (Some (ended l ++ [0])) Hlines Hkey ltac:(simpl in Hf; lia) Hdst). cbv zeta in IH.
  destruct (conf_lookup (line_value key) lines) as [v|].
  - eapply becomes_trans; [exact Hround|exact IH|cbn; lia].
  - destruct IH as (p' & a' & IH). exists p', a'. eapply becomes_trans; [exact Hround|exact IH|cbn; lia].
Qed.

Lemma key_loop_run key rk lines fuel a dst p :
  Forall conf_line lines -> cstring key -> (length lines < fuel)%nat ->
  (forall v, conf_lookup (line_value key) lines = Some v -> zlen v < zlen dst) ->
  gives (- owned p) (value_by_key_loop fuel (at_rest a (conf_text lines)) (key ++ 0 :: rk) dst p 0)
    (found dst (conf_lookup (line_value key) lines)).
Proof using Hroom.
  intros Hlines Hkey Hf Hdst. pose proof (key_skip key rk [] lines fuel a dst p Hlines Hkey Hf Hdst) as Hs. cbv zeta in Hs.
  rewrite app_nil_r in Hs. destruct (conf_lookup (line_value key) lines) as [v|]; [done|].
  destruct Hs as (p' & a' & Hs). destruct (fuel - length lines)%nat as [|n] eqn:E; [lia|].
  eapply becomes_trans; [exact Hs|apply key_end|lia].
Qed.

(** A piece of the file that [fgets] returns without a line feed: the end of
    the file, or a line that is too long. *)
Definition unended (b : bytes) : Prop :=
  let c := read_line 4095 b in c <> [] /\ cstring c /\ last c <> Some 10.

#[export] Instance unended_dec b : Decision (unended b).
Proof using Type. unfold unended. cbv zeta. apply _. Defined.

Lemma read_line_split n : forall s, s = read_line n s ++ drop (length (read_line n s)) s.
Proof using Type.
  induction n as [|n IH]; intros [|c s]; [done..|]. cbn [read_line]. destruct (c =? 10); [done|]. cbn. by rewrite <- IH.
Qed.

Lemma last_char_unended c r : cstring c -> c <> [] -> last c <> Some 10 -> exists x, last_char (c ++ 0 :: r) = Ok x /\ (10 =? x) = false.
Proof using Type.
  intros Hc Hne Hl. destruct (exists_last Hne) as (c' & x & ->). exists x.
  unfold last_char. rewrite strlen_app by done. cbn [mbind outcome_bind]. rewrite <- app_assoc. split.
  - apply zget_middle. zlen_lia.
  - rewrite last_snoc in Hl. destruct (Z.eqb_spec 10 x); [congruence|done].
Qed.

Lemma strlen_faults_or_ends buf : strlen buf <> NoFuel.
Proof using Type. induction buf as [|c buf IH]; [done|]. cbn. destruct (c =? 0); [done|]. by destruct (strlen buf). Qed.

(** The second piece of a line is added to a block that has been freed: the
    pointer is NULL. *)
Lemma second_piece_faults fuel fp key dst p :
  faults (value_by_key_loop (S fuel) fp key dst p 1).
Proof using Type.
  cbn [value_by_key_loop]. eapply becomes_faults; [eapply (gives_bind (- owned p)); [apply free_mem_gives|apply becomes_refl|reflexivity]|].
  apply faults_lift_bind; [done|]. intros n [= <-]. apply faults_lift_bind.
  { unfold fgets. cbn. destruct (read_line _ _); [done|]. unfold poke. by destruct (_ && _). }
  intros [line fp'] _. cbn [fst snd]. apply faults_bind. unfold AddMem_For_AddString, AddStr_Realloc. change (1 =? 2) with false. cbv iota.
  apply faults_lift_bind.
  - unfold int_strlen. pose proof (strlen_faults_or_ends (default (memset 0 4096) line)). by destruct (strlen _).
  - intros k _. by apply faults_lift_bind.
Qed.

Lemma unended_faults fuel a b key rk dst p :
  unended b -> faults (value_by_key_loop (S (S fuel)) (at_rest a b) (key ++ 0 :: rk) dst p 0).
Proof using Hroom.
  intros (Hne & Hc & Hl). set (c := read_line 4095 b) in *. pose proof (read_line_length 4095 b : (length c <= 4095)%nat) as Hlen.
  assert (short c) as Hn by (unfold short, zlen; lia). pose proof (zlen_nonneg c).
  rewrite (read_line_split 4095 b). fold c. set (b' := drop (length c) b). remember (S fuel) as fuel' eqn:Hfuel. cbn [value_by_key_loop].
  eapply becomes_faults; [|apply (second_piece_faults fuel (at_rest (a ++ c) b') (key ++ 0 :: rk) dst (Some (c ++ [0])))]. rewrite <- Hfuel.
  eapply (gives_bind (- owned p) 1); [apply free_mem_gives| |reflexivity]. eapply gives_lift_bind; [reflexivity|].
  rewrite (memset_cut (zlen c + 1) 4096) by (unfold zlen in *; lia).
  eapply gives_lift_bind.
  { apply fgets_line; [lia|done| |apply zlen_memset0; lia]. change (Z.to_nat (4096 - 1)) with 4095%nat.
    unfold b', c. rewrite <- read_line_split. reflexivity. }
  cbn [fst snd default id]. eapply (gives_bind 1 0); [by apply add_str_malloc_gives| |done]. cbn beta iota.
  destruct (last_char_unended c (memset 0 (4096 - (zlen c + 1))) Hc Hne Hl) as (x & Hx & Hx10).
  rewrite <- (memset_cut (zlen c + 1) 4096) by (unfold zlen in *; lia).
  destruct (cut 61 c) as [[k v]|] eqn:E.
  - destruct (cut_parts 61 c k v E Hc) as (_ & _ & Hkv). pose proof (zlen_nonneg v).
    destruct (key_gives c [] Hc Hn k v 4096 E) as (q & Hq); [unfold zlen in *; lia|].
    eapply gives_bind_0; [exact Hq|]. cbn beta iota. eapply gives_lift_bind; [exact Hx|]. rewrite Hx10. apply becomes_refl.
  - eapply gives_bind_0; [by apply key_none|]. cbn beta iota. eapply gives_lift_bind; [exact Hx|]. rewrite Hx10. apply becomes_refl.
Qed.

(** ** Looking for a field and a key *)

(** The value a line gives the key, without its line feed. *)
Definition line_value_hh (key l : bytes) : option bytes :=
  match cut 61 (ended l) with
  | Some (k, v) => if bool_decide (trim k = key) then Some (trim (without 10 v)) else None
  | None => None
  end.

(** What the look-up in a list of lines ends with, and the blocks that are
    lost on the way: one for each line without brackets. *)
Inductive field_result : Type :=
  | Value (v : option bytes)
  | Next_field.

Fixpoint section_lookup (key : bytes) (lines : list bytes) : field_result * Z :=
  match lines with
  | [] => (Value None, 1)
  | l :: lines =>
      match between (ended l) with
      | Some _ => (Next_field, 0)
      | None =>
          match line_value_hh key l with
          | Some v => (Value (Some v), 1)
          | None => let r := section_lookup key lines in (r.1, 1 + r.2)
          end
      end
  end.

Fixpoint field_lookup (field key : bytes) (lines : list bytes) : field_result * Z :=
  match lines with
  | [] => (Value None, 1)
  | l :: lines =>
      match between (ended l) with
      | Some f => if bool_decide (f = field) then section_lookup key lines else field_lookup field key lines
      | None => let r := field_lookup field key lines in (r.1, 1 + r.2)
      end
  end.

Definition field_found (dst : bytes) (r : field_result) : Z * bytes :=
  match r with
  | Value v => found dst v
  | Next_field => (-3, dst)
  end.

(** The destination has room for the value that is found. *)
Definition fits_in (dst : bytes) (r : field_result) : Prop := forall v, r = Value (Some v) -> zlen v < zlen dst.

Lemma without_zlen c s : zlen (without c s) <= zlen s /\ (cstring s -> cstring (without c s)).
Proof using Type. destruct (shortens_without c) as [H1 H2]. split; [apply H1|apply H2]. Qed.

Lemma between_line l r :
  conf_line l ->
  match between (ended l) with
  | Some f => cstring f /\ exists q, gives 0 (Get_String_Between_Zkh (Some (ended l ++ 0 :: r)) (Some (memset 0 4096))) (Some (f ++ 0 :: q))
  | None => gives 1 (Get_String_Between_Zkh (Some (ended l ++ 0 :: r)) (Some (memset 0 4096))) None
  end.
Proof using Hroom.
  intros Hl. pose proof (ended_cstring l Hl) as Hs. pose proof (between_gives (ended l) r Hs (ended_short l Hl) 4096 (ended_length l Hl)) as Hg.
  destruct (between (ended l)) as [f|] eqn:E; [split; [|exact Hg]|exact Hg]. unfold between in E.
  destruct (cut 91 (ended l)) as [[a t]|] eqn:E1; [|done]. cbn in E. destruct (cut 93 t) as [[g u]|] eqn:E2; [|done].
  cbn in E. injection E as <-. destruct (cut_parts 91 _ a t E1 Hs) as (_ & Ht & _). by destruct (cut_parts 93 t g u E2 Ht).
Qed.

Lemma no_field_at_end : gives 1 (Get_String_Between_Zkh (Some (memset 0 4096)) (Some (memset 0 4096))) None.
Proof using Hroom.
  replace (memset 0 4096) with ([] ++ 0 :: memset 0 4095) at 1 by (cbn [app]; by rewrite (memset_S 4096) by lia).
  apply (between_gives [] (memset 0 4095)); [constructor|done|done].
Qed.

(** One round of the inner loop on a line without brackets. *)
Lemma section_round fuel a l b key rk dst p :
  conf_line l -> cstring key -> between (ended l) = None -> (forall v, line_value_hh key l = Some v -> zlen v < zlen dst) ->
  let here := field_key_loop (S fuel) (at_rest a (ended l ++ b)) (key ++ 0 :: rk) dst p 0 in
  match line_value_hh key l with
  | Some v => gives (1 - owned p) here (found dst (Some v))
  | None => becomes (2 - owned p) here
              (field_key_loop fuel (at_rest (a ++ ended l) b) (key ++ 0 :: rk) dst (Some (ended l ++ [0])) 0)
  end.
Proof using Hroom.
  intros Hl Hkey Hnone Hdst. pose proof (ended_cstring l Hl) as Hs. pose proof (ended_short l Hl) as Hn.
  pose proof (between_line l (memset 0 (4095 - zlen (ended l))) Hl) as Hb. rewrite Hnone in Hb.
  assert (forall (d : Z) (rest : cmd (Z * bytes)) (f : option bytes -> cmd (Z * bytes)),
    becomes d (f (Some (ended l ++ [0]))) rest ->
    becomes (2 + d) (field ← Get_String_Between_Zkh (Some (ended l ++ 0 :: memset 0 (4095 - zlen (ended l)))) (Some (memset 0 4096));
      match field with
      | Some _ => mret (-3, dst)
      | None => added ← AddStr_Malloc (ended l ++ 0 :: memset 0 (4095 - zlen (ended l))); f added
      end) rest) as Hread.
  { intros d rest f Hf. eapply (gives_bind 1 (1 + d)); [exact Hb| |lia]. cbn beta iota.
    eapply (gives_bind 1 d); [by apply add_str_malloc_gives|exact Hf|done]. }
  cbn [field_key_loop]. cbv zeta. unfold line_value_hh in *. destruct (cut 61 (ended l)) as [[k v]|] eqn:E.
  - destruct (line_key_value l k v Hl E) as (Hk & Hv & Htk & Htv & Hlk & Hlv).
    destruct (key_gives (ended l) [] Hs Hn k v 4096 E Hlk) as (q & Hq).
    case_bool_decide as Hc;
      [specialize (Hdst _ eq_refl); eapply (gives_bind (- owned p) 1); [apply free_mem_gives| |lia]
      |eapply (gives_bind (- owned p) 2); [apply free_mem_gives| |lia]];
      (eapply gives_lift_bind; [reflexivity|]); (eapply gives_lift_bind; [by apply fgets_ended|]); cbn [fst snd default id];
      [apply (Hread (-1))|apply (Hread 0)]; cbn beta iota;
      (eapply gives_bind_0; [exact Hq|]); cbn beta iota;
      (eapply gives_lift_bind; [by apply last_char_ended|]); change (10 =? 10) with true; cbv iota;
      (eapply gives_lift_bind; [by apply strcmp_equal_run|]).
    + rewrite bool_decide_eq_true_2 by done.
      destruct (value_hh_gives (ended l) [] Hs Hn k v 40960 E Hlv) as (q' & Hq'). eapply gives_bind_0; [exact Hq'|].
      eapply (gives_bind (-1) 0); [apply (free_mem_gives (Some _))| |done].
      eapply gives_lift_bind; [|apply gives_ret]. apply strcpy_fit; [|done].
      destruct shortens_trim as [_ Ht]. by apply Ht, without_zlen.
    + rewrite bool_decide_eq_false_2 by done. apply becomes_refl.
  - eapply (gives_bind (- owned p) 2); [apply free_mem_gives| |lia]. eapply gives_lift_bind; [reflexivity|].
    eapply gives_lift_bind; [by apply fgets_ended|]. cbn [fst snd default id]. apply (Hread 0). cbn beta iota.
    eapply gives_bind_0; [by apply key_none|]. cbn beta iota.
    eapply gives_lift_bind; [by apply last_char_ended|]. apply becomes_refl.
Qed.

Lemma section_end fuel a key dst p :
  gives (1 - owned p) (field_key_loop (S fuel) (at_rest a []) key dst p 0) (found dst None).
Proof using Hroom.
  cbn [field_key_loop]. eapply (gives_bind (- owned p) 1); [apply free_mem_gives| |lia].
  eapply gives_lift_bind; [reflexivity|]. eapply gives_lift_bind; [by apply fgets_end|]. cbn [fst snd default].
  eapply (gives_bind 1 0); [apply no_field_at_end| |done]. cbn beta iota. rewrite (memset_S 4096) by lia.
  eapply (gives_bind 1 (-1)); [apply (add_str_malloc_gives [] (memset 0 (4096 - 1))); [constructor|done]| |done]. cbn beta iota.
  eapply gives_bind_0; [apply (key_none [] []); [constructor|done]|]. cbn beta iota.
  eapply (gives_bind (-1) 0); [apply (free_mem_gives (Some _))|apply gives_ret|done].
Qed.

Lemma section_loop_run key rk lines : forall fuel a dst p,
  Forall conf_line lines -> cstring key -> (length lines < fuel)%nat -> fits_in dst (section_lookup key lines).1 ->
  gives ((section_lookup key lines).2 - owned p) (field_key_loop fuel (at_rest a (conf_text lines)) (key ++ 0 :: rk) dst p 0)
    (field_found dst (section_lookup key lines).1).
Proof using Hroom.
  induction lines as [|l lines IH]; intros [|fuel] a dst p Hlines Hkey Hf Hdst; try (simpl in Hf; lia); [apply section_end|].
  apply Forall_cons in Hlines as [Hl Hlines]. unfold conf_text. cbn [fmap list_fmap concat section_lookup] in *.
  destruct (between (ended l)) as [f|] eqn:Eb.
  - pose proof (between_line l (memset 0 (4095 - zlen (ended l))) Hl) as Hb. rewrite Eb in Hb. destruct Hb as (_ & q & Hb).
    cbn [field_key_loop fst snd field_found]. eapply (gives_bind (- owned p) 0); [apply free_mem_gives| |lia]. eapply gives_lift_bind; [reflexivity|].
    eapply gives_lift_bind; [by apply fgets_ended|]. cbn [fst snd default id]. eapply gives_bind_0; [exact Hb|]. apply gives_ret.
  - pose proof (section_round fuel a l (conf_text lines) key rk dst p Hl Hkey Eb) as Hround. cbv zeta in Hround.
    destruct (line_value_hh key l) as [v|]; cbn [fst snd field_found] in *.
    + apply Hround. intros w [= <-]. by apply Hdst.
    + specialize (Hround ltac:(done)). eapply becomes_trans; [exact Hround| |].
      * apply (IH fuel (a ++ ended l) dst (Some (ended l ++ [0]))); [done|done|simpl in Hf; lia|done].
      * cbn [owned]. lia.
Qed.

Lemma field_loop_run field rf key rk lines : forall fuel a dst p,
  Forall conf_line lines -> cstring field -> cstring key -> (length lines < fuel)%nat -> fits_in dst (field_lookup field key lines).1 ->
  gives ((field_lookup field key lines).2 - owned p)
    (field_loop fuel (at_rest a (conf_text lines)) (field ++ 0 :: rf) (key ++ 0 :: rk) dst p 0)
    (field_found dst (field_lookup field key lines).1).
Proof using Hroom.
  induction lines as [|l lines IH]; intros [|fuel] a dst p Hlines Hfield Hkey Hf Hdst; try (simpl in Hf; lia); cbn [field_loop].
  - eapply (gives_bind (- owned p) 1); [apply free_mem_gives| |cbn; lia].
    eapply gives_lift_bind; [reflexivity|]. eapply gives_lift_bind; [by apply fgets_end|]. cbn [fst snd default].
    rewrite (memset_S 4096) by lia.
    eapply (gives_bind 1 0); [apply (add_str_malloc_gives [] (memset 0 (4096 - 1))); [constructor|done]| |done]. cbn beta iota.
    eapply (gives_bind 1 (-1) _ _ None); [| |done].
    + rewrite <- (memset_S 4096) by lia. apply (between_gives [] []); [constructor|done|done].
    + eapply (gives_bind (-1) 0); [apply (free_mem_gives (Some _))|apply gives_ret|done].
  - apply Forall_cons in Hlines as [Hl Hlines]. pose proof (ended_cstring l Hl) as Hs. pose proof (ended_short l Hl) as Hn.
    unfold conf_text. cbn [fmap list_fmap concat field_lookup] in *.
    pose proof (between_line l [] Hl) as Hb. destruct (between (ended l)) as [f|].
    + destruct Hb as (Hcf & q & Hb). begin_round Hl p ((match bool_decide (f = field) with true => section_lookup key lines | false => field_lookup field key lines end).2 - 1).
      eapply gives_bind_0; [exact Hb|]. cbn beta iota. eapply gives_lift_bind; [by apply last_char_ended|]. change (10 =? 10) with true. cbv iota.
      eapply gives_lift_bind; [by apply strcmp_equal_run|]. case_bool_decide as Hc.
      * apply (section_loop_run key rk lines fuel (a ++ ended l) dst (Some (ended l ++ [0]))); [done|done|simpl in Hf; lia|done].
      * apply (IH fuel (a ++ ended l) dst (Some (ended l ++ [0]))); [done|done|done|simpl in Hf; lia|done].
    + cbv zeta. cbn [fst snd] in *. begin_round Hl p ((field_lookup field key lines).2). eapply (gives_bind 1 ((field_lookup field key lines).2 - 1)); [exact Hb| |lia].
      cbn beta iota. eapply gives_lift_bind; [by apply last_char_ended|]. cbn [fst snd] in *.
      apply (IH fuel (a ++ ended l) dst (Some (ended l ++ [0]))); [done|done|done|simpl in Hf; lia|done].
Qed.
End facts.

(** ** Counting, brackets and kinds of characters ([lib_string.c]), lines of a
    file ([lib_file.c]) *)

#[local] Opaque memset.

Lemma zlen_snoc (a : bytes) c : zlen (a ++ [c]) = zlen a + 1.
Proof. zlen_lia. Qed.

Lemma snoc_app (a b : bytes) c : (a ++ [c]) ++ b = a ++ c :: b.
Proof. by rewrite <- app_assoc. Qed.

(** ** Counting *)

Lemma starts_with_length p s : starts_with p s = true -> zlen p <= zlen s.
Proof.
  revert s. induction p as [|c p IH]; intros [|d s]; cbn [starts_with]; [lia|intros _; apply zlen_nonneg|done|].
  rewrite andb_true_iff. intros [_ Hs]. apply IH in Hs. rewrite !zlen_cons. lia.
Qed.

Lemma find_sub_bounds p s i : find_sub p s = Some i -> 0 <= i /\ i + zlen p <= zlen s.
Proof.
  revert i. induction s as [|d s IH]; intros i; cbn [find_sub]; destruct (starts_with p _) eqn:E.
  - intros [= <-]. apply starts_with_length in E. lia.
  - done.
  - intros [= <-]. apply starts_with_length in E. lia.
  - destruct (find_sub p s) as [j|]; [|done]. cbn. intros [= <-]. specialize (IH j eq_refl). rewrite zlen_cons. lia.
Qed.

Lemma strstr_run s r p q : cstring s -> cstring p -> strstr (s ++ 0 :: r) (p ++ 0 :: q) = Ok (find_sub p s).
Proof. intros Hs Hp. unfold strstr. by rewrite !strlen_app, !content_app. Qed.

(** The only result is -1. *)
Lemma count_child_result fuel s c : forall n i z, count_child_loop fuel s c n i = Ok z -> z = -1.
Proof.
  induction fuel as [|fuel IH]; intros n i z; [done|]. cbn [count_child_loop]. intros Hz.
  ok_inv Hz. ok_inv Hz. destruct a0 as [j|]; [|congruence]. ok_inv Hz. by apply IH in Hz.
Qed.

Lemma drop_string (s r : bytes) k : 0 <= k <= zlen s -> drop (Z.to_nat k) (s ++ 0 :: r) = drop (Z.to_nat k) s ++ 0 :: r.
Proof. intros Hk. unfold zlen in Hk. apply drop_app_le. lia. Qed.

Lemma count_child_ends s r p q : cstring s -> short s -> cstring p -> p <> [] -> forall fuel n i,
  let addr := if 0 =? n then 0 else i + zlen p in
  0 <= n <= addr -> 0 <= addr <= zlen s -> zlen s - addr < Z.of_nat fuel ->
  count_child_loop fuel (s ++ 0 :: r) (p ++ 0 :: q) n i = Ok (-1).
Proof.
  intros Hs Hsh Hp Hne. assert (0 < zlen p) as Hp0 by (destruct p; [done|zlen_lia]). unfold short in Hsh.
  induction fuel as [|fuel IH]; intros n i; cbn [count_child_loop]; cbv zeta; intros Hn Ha Hf; [lia|].
  rewrite strlen_app by done. cbn [mbind outcome_bind]. rewrite drop_string by done.
  rewrite strstr_run by (done || by apply Forall_drop). cbn [mbind outcome_bind].
  destruct (find_sub p _) as [j|] eqn:E; [|done]. apply find_sub_bounds in E as [Hj Hjp].
  set (addr := if 0 =? n then 0 else i + zlen p) in *. unfold zlen in Hjp at 2. rewrite length_drop in Hjp. unfold zlen in *.
  unfold int_range. destruct (Z.leb_spec (-2147483648) (n + 1)); [|lia]. destruct (Z.leb_spec (n + 1) 2147483647); [|lia].
  cbn [andb mbind outcome_bind]. apply IH; destruct (Z.eqb_spec 0 (n + 1)); lia.
Qed.

(** An empty pattern matches where the search stands: the counter overflows. *)
Lemma count_empty_loops s r q : cstring s -> forall fuel n i z,
  0 <= (if 0 =? n then 0 else i) <= zlen s -> count_child_loop fuel (s ++ 0 :: r) (0 :: q) n i <> Ok z.
Proof.
  intros Hs. induction fuel as [|fuel IH]; intros n i z Hi; [done|]. cbn [count_child_loop strlen]. change (0 =? 0) with true.
  cbn [mbind outcome_bind]. rewrite Z.add_0_r, drop_string by (destruct (0 =? n); lia).
  rewrite (strstr_run _ r [] q); [|by apply Forall_drop|constructor]. cbn [mbind outcome_bind].
  assert (forall u, find_sub [] u = Some 0) as -> by (by intros []).
  unfold int_range. destruct (_ && _); [|done]. cbn [mbind outcome_bind]. apply IH.
  rewrite Z.add_0_r. destruct (0 =? n + 1), (0 =? n); pose proof (zlen_nonneg s); lia.
Qed.

(** ** Replacing *)

Lemma order_loop_result fuel s p order : forall n i,
  0 <= n -> order_loop fuel s p n order = Ok (Some i) -> 0 < order.
Proof.
  induction fuel as [|fuel IH]; intros n i Hn; [done|]. cbn [order_loop]. intros Hi.
  ok_inv Hi. destruct a as [j|]; [|done]. ok_inv Hi. unfold int_range in E0. destruct (_ && _); [|done]. injection E0 as <-.
  destruct (Z.eqb_spec (n + 1) order); [lia|]. by apply (IH (n + 1) i); [lia|].
Qed.

(** ** Brackets *)


Lemma cut_snoc c a x :
  cut c (a ++ [x]) = match cut c a with Some p => Some (p.1, p.2 ++ [x]) | None => if x =? c then Some (a, []) else None end.
Proof.
  induction a as [|y a IH]; cbn [app cut]; [by destruct (x =? c)|]. destruct (y =? c); [done|]. rewrite IH.
  destruct (cut c a) as [p|]; [done|]. by destruct (x =? c).
Qed.

Lemma cut_none_countb c a : cut c a = None <-> countb (Z.eqb c) a = 0.
Proof.
  induction a as [|y a IH]; [done|]. cbn [cut]. rewrite countb_cons, (Z.eqb_sym c y). destruct (Z.eqb_spec y c).
  - pose proof (countb_bounds (Z.eqb c) a). split; [done|intros ?; exfalso; lia].
  - rewrite <- IH. by destruct (cut c a).
Qed.

(** ** Blanks around a text *)

Lemma lstrip_blanks k s : lstrip (replicate k 32 ++ s) = lstrip s.
Proof. induction k as [|k IH]; [done|exact IH]. Qed.

Lemma rstrip_blanks k s : rstrip (s ++ replicate k 32) = rstrip s.
Proof. by rewrite <- !reverse_lstrip, reverse_app, reverse_replicate, lstrip_blanks. Qed.

Lemma trim_blanks i j s : trim s = s -> trim (replicate i 32 ++ s ++ replicate j 32) = s.
Proof.
  intros Hs. unfold trim in *. rewrite lstrip_blanks. destruct s as [|c s].
  - cbn [app]. rewrite <- (app_nil_r (replicate j 32)), lstrip_blanks. done.
  - cbn [app lstrip] in *. destruct (Z.eqb_spec c 32) as [->|].
    + exfalso. pose proof (rstrip_length (lstrip s)) as H1. rewrite Hs in H1.
      destruct (lstrip_split s) as [k Hk]. apply (f_equal length) in Hk. rewrite length_app in Hk. simpl in H1. lia.
    + change (c :: s ++ replicate j 32) with ((c :: s) ++ replicate j 32). by rewrite rstrip_blanks.
Qed.

Lemma cut_at c a b : cut c a = None -> cut c (a ++ c :: b) = Some (a, b).
Proof.
  induction a as [|x a IH]; cbn [cut app]; [by rewrite Z.eqb_refl|]. destruct (Z.eqb_spec x c); [done|].
  destruct (cut c a) as [p|]; [done|]. intros _. by rewrite IH.
Qed.

Lemma cut_none_blanks c i j s : c <> 32 -> cut c s = None -> cut c (replicate i 32 ++ s ++ replicate j 32) = None.
Proof.
  intros Hc. rewrite !cut_none_countb, !countb_app, !countb_replicate. destruct (Z.eqb_spec c 32); [done|lia].
Qed.

(** What the loop knows after the characters [a]. *)
Definition bracket_inv (cs : Z * Z) (a : bytes) (st : bracket_state) : Prop :=
  iCout_Start st = countb (Z.eqb cs.1) a /\ iCout_End st = countb (Z.eqb cs.2) a /\
  iLocation_Start st = match cut cs.1 a with Some p => zlen p.1 | None => 0 end /\
  (a <> [] -> iCout_Start st = iCout_End st -> iLocation_End st = zlen a - 1).

Lemma bracket_step_inv cs a x st :
  cs.1 <> cs.2 -> bracket_inv cs a st -> bracket_inv cs (a ++ [x]) (bracket_step cs (zlen a) x st).
Proof.
  intros Hcs (Hs & He & Hls & Hle). unfold bracket_inv, bracket_step. rewrite !countb_app, !countb_cons, !countb_nil, cut_snoc, zlen_app.
  change (zlen [x]) with 1. pose proof (cut_none_countb cs.1 a) as Hcut. pose proof (countb_bounds (Z.eqb cs.1) a) as Hb.
  rewrite (Z.eqb_sym x cs.1).
  destruct (Z.eqb_spec cs.1 x) as [Ex|Hx], (Z.eqb_spec cs.2 x) as [Ey|Hy]; [congruence|..]; cbn [iCout_Start iCout_End iLocation_Start iLocation_End];
    match goal with |- context [if ?u =? ?v then mk_brackets _ _ _ (zlen a) else _] => destruct (Z.eqb_spec u v) as [Heq|Hneq] end; cbn [iCout_Start iCout_End iLocation_Start iLocation_End];
    destruct (cut cs.1 a) as [p|] eqn:Ec; cbn [fst];
    repeat match goal with |- context [1 =? ?z] => destruct (Z.eqb_spec 1 z) end;
    (split; [lia|split; [lia|split; [|intros _; lia]]]); try done; try lia.
  all: destruct Hcut as [H1 H2]; try specialize (H1 eq_refl); solve [exfalso; lia|discriminate H2; lia].
Qed.

Lemma bracket_loop_from cs r b : cs.1 <> cs.2 -> forall a st, bracket_inv cs a st ->
  exists st', for_loop (length b) (zlen a) 1 (λ i st, c ← zget (a ++ b ++ 0 :: r) i; Ok (bracket_step cs i c st, true)) st = Ok st' /\
    bracket_inv cs (a ++ b) st'.
Proof.
  intros Hcs. induction b as [|x b IH]; intros a st Hst; cbn [length for_loop]; [exists st; by rewrite app_nil_r|].
  cbn [app]. rewrite zget_middle by done. cbn [mbind outcome_bind fst snd].
  destruct (IH (a ++ [x]) (bracket_step cs (zlen a) x st)) as (st' & Hrun & Hst'); [by apply bracket_step_inv|].
  exists st'. rewrite !snoc_app in *. rewrite zlen_snoc in Hrun. done.
Qed.

Lemma brackets_distinct ch cs : brackets_of ch = Some cs -> cs.1 <> cs.2.
Proof. unfold brackets_of. repeat case_match; by intros [= <-]. Qed.

(** ** Numbers *)

(** Digits, or digits, a point and digits. *)
Definition decimal (s : bytes) : bool :=
  match cut 46 s with
  | None => forallb isdigit s
  | Some (a, b) => negb (zlen a =? 0) && negb (zlen b =? 0) && forallb isdigit a && forallb isdigit b
  end.

Lemma schar_isdigit c : cchar c -> (48 <=? schar c) && (schar c <=? 57) = isdigit c.
Proof.
  intros Hc. unfold cchar in Hc. unfold isdigit, schar, swrap. change (2 ^ (8 - 1)) with 128. change (2 ^ 8) with 256. div_lia.
Qed.

(** The rest of the string, one point having been seen ([1]) or not ([0]). *)
Lemma digit_loop_seen b r : forall a L, cstring b -> L = zlen (a ++ b) ->
  digit_loop (length b) (zlen a) L 1 (a ++ b ++ 0 :: r) = Ok (if forallb isdigit b then 1 else 0).
Proof.
  induction b as [|c b IH]; intros a L Hb HL; cbn [length digit_loop forallb]; [done|].
  apply Forall_cons in Hb as [Hc Hb]. cbn [app]. rewrite zget_middle by done. cbn [mbind outcome_bind].
  rewrite schar_isdigit by done. destruct (isdigit c); cbn [andb]; [|by destruct (46 =? c)].
  specialize (IH (a ++ [c]) L Hb). rewrite !snoc_app, zlen_snoc in IH. by apply IH.
Qed.

Lemma digit_loop_run b r : forall a L, cstring b -> L = zlen (a ++ b) -> forallb isdigit a = true ->
  digit_loop (length b) (zlen a) L 0 (a ++ b ++ 0 :: r) =
  Ok (if match cut 46 b with
         | None => forallb isdigit b
         | Some (x, y) => negb (zlen (a ++ x) =? 0) && negb (zlen y =? 0) && forallb isdigit x && forallb isdigit y
         end then 1 else 0).
Proof.
  induction b as [|c b IH]; intros a L Hb HL Ha; cbn [length digit_loop forallb cut]; [done|].
  apply Forall_cons in Hb as [Hc Hb]. cbn [app]. rewrite zget_middle by done. cbn [mbind outcome_bind].
  rewrite schar_isdigit by done. destruct (isdigit c) eqn:Ed.
  - assert (c =? 46 = false) as -> by (unfold isdigit in Ed; lia).
    specialize (IH (a ++ [c]) L Hb). rewrite !snoc_app, zlen_snoc in IH.
    etransitivity; [apply IH; [done|rewrite forallb_app, Ha; simpl; by rewrite Ed]|].
    destruct (cut 46 b) as [[x y]|]; cbn [mbind option_bind fst snd]; [|done]. cbn [forallb]. by rewrite Ed, snoc_app.
  - rewrite (Z.eqb_sym 46 c). destruct (Z.eqb_spec c 46) as [->|Hne]; cbn [fst snd].
    + rewrite app_nil_r. change (2 <=? 0 + 1) with false. cbn [orb].
      rewrite (Z.eqb_sym 0 (zlen a)). destruct (Z.eqb_spec (zlen a) 0); cbn [orb negb andb]; [done|].
      subst L. rewrite zlen_app, zlen_cons. pose proof (zlen_nonneg b).
      destruct (Z.eqb_spec (zlen b) 0) as [E|E]; [destruct (Z.eqb_spec (zlen a + (1 + zlen b)) (zlen a + 1)); [done|lia]|].
      destruct (Z.eqb_spec (zlen a + (1 + zlen b)) (zlen a + 1)); [lia|]. cbn [negb andb].
      pose proof (digit_loop_seen b r (a ++ [46]) (zlen ((a ++ [46]) ++ b)) Hb eq_refl) as Hd.
      rewrite !snoc_app, zlen_snoc, zlen_app, zlen_cons in Hd. exact Hd.
    + destruct (cut 46 b) as [[x y]|]; cbn [mbind option_bind fst snd forallb]; rewrite ?Ed; [|done].
      by rewrite !andb_false_r.
Qed.

Lemma is_digit_run s r : cstring s -> short s -> Is_Digit_ByString (s ++ 0 :: r) = Ok (if decimal s then 1 else 0).
Proof.
  intros Hs Hn. unfold Is_Digit_ByString. rewrite int_strlen_run by done. cbn [mbind outcome_bind].
  unfold zlen at 1. rewrite Nat2Z.id. exact (digit_loop_run s r [] (zlen s) Hs eq_refl eq_refl).
Qed.

Lemma forallb_digits s : forallb isdigit s = true <-> all_digits s.
Proof. unfold all_digits. rewrite forallb_forall, List.Forall_forall. by setoid_rewrite isdigit_true. Qed.

Lemma decimal_spec s :
  decimal s = true <-> all_digits s \/ exists a b, s = a ++ 46 :: b /\ a <> [] /\ b <> [] /\ all_digits a /\ all_digits b.
Proof.
  assert (forall a, all_digits a -> cut 46 a = None) as Hcut.
  { intros a Ha. apply cut_none_countb. induction Ha as [|c a Hc Ha IH]; [done|]. rewrite countb_cons, IH.
    destruct (Z.eqb_spec 46 c); lia. }
  unfold decimal. destruct (cut 46 s) as [[a b]|] eqn:E.
  - rewrite !andb_true_iff, !negb_true_iff, !Z.eqb_neq, !forallb_digits. apply cut_spec in E as Es. split.
    + intros [[[Ha Hb] Hda] Hdb]. right. exists a, b. split; [done|]. by split; [by intros ->|split; [by intros ->|]].
    + intros [Hs|(a' & b' & Es' & Ha & Hb & Hda & Hdb)]; [by rewrite (Hcut s Hs) in E|].
      rewrite Es', (cut_at 46 a' b' (Hcut a' Hda)) in E. injection E as <- <-. by destruct a', b'.
  - rewrite forallb_digits. split; [by left|]. intros [Hs|(a' & b' & Es' & _ & _ & Hda & _)]; [done|].
    by rewrite Es', (cut_at 46 a' b' (Hcut a' Hda)) in E.
Qed.

(** ** Letters and digits *)

Lemma forallb_countb (f : Z -> bool) s : forallb f s = (zlen s =? countb f s).
Proof.
  induction s as [|c s IH]; [done|]. cbn [forallb]. rewrite IH, zlen_cons, countb_cons. pose proof (countb_bounds f s).
  destruct (f c), (Z.eqb_spec (zlen s) (countb f s)); cbn [andb];
    match goal with |- context [?a =? ?b] => destruct (Z.eqb_spec a b) end; done || lia.
Qed.

Definition isalpha (c : Z) : bool := ((65 <=? c) && (c <=? 90)) || ((97 <=? c) && (c <=? 122)).

Lemma is_digit_by_char c : cchar c -> Is_Digit_ByChar c = Ok (if isdigit c then 1 else 0).
Proof.
  intros Hc. transitivity (Is_Digit_ByString ([c] ++ 0 :: [])); [done|].
  rewrite is_digit_run; [|by constructor|done]. unfold decimal. cbn [cut]. destruct (Z.eqb_spec c 46) as [->|]; [done|].
  cbn [mbind option_bind forallb]. by rewrite andb_true_r.
Qed.

(** With counters that start at 0 a letter is recognised, and nothing else. *)
Lemma is_english_by_char c : cchar c ->
  exists e, Is_EnglishChar_ByChar (0, 0) c = Ok e /\ (0 =? e) = negb (isalpha c).
Proof.
  intros Hc. unfold cchar in Hc. unfold Is_EnglishChar_ByChar, Is_EnglishChar_ByString. cbn [Char_To_Str].
  change (zset [0; 0] 0 c) with (@Ok bytes [c; 0]). cbn [mbind outcome_bind]. change (zset [c; 0] 1 0) with (@Ok bytes [c; 0]).
  cbn [mbind outcome_bind or_fault]. change [c; 0] with ([c] ++ 0 :: []).
  rewrite int_strlen_run; [|by constructor|done]. cbn [mbind outcome_bind fst snd app]. change (Z.to_nat (zlen [c])) with 1%nat. cbn [english_loop].
  rewrite zget_0_cons. cbn [mbind outcome_bind].
  assert ((65 <=? schar c) && (schar c <=? 90) = (65 <=? c) && (c <=? 90) /\ (97 <=? schar c) && (schar c <=? 122) = (97 <=? c) && (c <=? 122)) as [-> ->].
  { unfold schar, swrap. change (2 ^ (8 - 1)) with 128. change (2 ^ 8) with 256. split; div_lia. }
  unfold isalpha. destruct ((65 <=? c) && (c <=? 90)); [by eexists|]. destruct ((97 <=? c) && (c <=? 122)); by eexists.
Qed.

Lemma english_digit_loop_run r b : forall a d, cstring b ->
  english_digit_loop (λ _, (0, 0)) (length b) (zlen a) (a ++ b ++ 0 :: r) 0 d 0 0 0 =
  Ok (if existsb isalpha b then None else Some (d + countb isdigit b, 0, 0, 0)).
Proof.
  induction b as [|c b IH]; intros a d Hb; cbn [length english_digit_loop existsb]; [by rewrite countb_nil, Z.add_0_r|].
  apply Forall_cons in Hb as [Hc Hb]. cbn [app]. rewrite zget_middle by done. cbn [mbind outcome_bind].
  rewrite is_digit_by_char by done. cbn [mbind outcome_bind]. rewrite countb_cons.
  pose proof (λ d, IH (a ++ [c]) d Hb) as IH'. setoid_rewrite snoc_app in IH'. setoid_rewrite zlen_snoc in IH'.
  destruct (isdigit c) eqn:Ed.
  - assert (isalpha c = false) as -> by (unfold isdigit, isalpha in *; lia). cbn [orb]. rewrite Z.add_assoc. apply IH'.
  - change (negb (0 =? 0)) with false. cbv iota. destruct (is_english_by_char c Hc) as (e & -> & He). cbn [mbind outcome_bind]. rewrite He.
    destruct (isalpha c); cbn [negb orb]; [done|]. change (1 =? 0) with false. change (2 =? 0) with false. change (3 =? 0) with false.
    rewrite Z.add_0_l. apply IH'.
Qed.

(** ** Lines of a file *)

Lemma strlen_terminator buf : In 0 buf -> exists n, strlen buf = Ok n /\ 0 <= n < zlen buf /\ zget buf n = Ok 0.
Proof.
  induction buf as [|c buf IH]; [done|]. intros Hin. cbn [strlen]. destruct (Z.eqb_spec c 0) as [->|Hc].
  - exists 0. pose proof (zlen_nonneg buf). rewrite zlen_cons. split; [done|]. split; [lia|done].
  - destruct Hin as [?|Hin]; [done|]. destruct (IH Hin) as (n & -> & Hn & Hg). exists (1 + n). rewrite zlen_cons.
    split; [done|]. split; [lia|]. rewrite zget_cons by lia. by replace (1 + n - 1) with n by lia.
Qed.

(** [fgets] into a full-sized buffer before the end of the file. *)
Lemma fgets_some buf size a b :
  1 < size -> zlen buf = size -> b <> [] ->
  exists buf' l b', fgets buf size (at_rest a b) = Ok (Some buf', at_rest (a ++ l) b') /\
    b = l ++ b' /\ l <> [] /\ zlen buf' = size /\ In 0 buf'.
Proof.
  intros Hs Hbuf Hb. set (l := read_line (Z.to_nat (size - 1)) b).
  pose proof (read_line_split (Z.to_nat (size - 1)) b) as Hsplit. fold l in Hsplit.
  pose proof (read_line_length (Z.to_nat (size - 1)) b) as Hlen. fold l in Hlen.
  assert (l <> []) as Hl.
  { unfold l. destruct (Z.to_nat (size - 1)) eqn:E; [lia|]. destruct b; [done|]. cbn. by destruct (_ =? 10). }
  destruct (split_at buf (S (length l))) as (u & v & -> & Hu); [unfold zlen in *; lia|].
  exists (l ++ 0 :: v), l, (drop (length l) b). split; [|split; [done|split; [done|split]]].
  - rewrite Hsplit at 1. apply fgets_line; [done|done| |unfold zlen; lia]. by rewrite <- Hsplit.
  - rewrite zlen_app, zlen_cons. rewrite zlen_app in Hbuf. unfold zlen in *. lia.
  - apply in_or_app. right. by left.
Qed.

Lemma row_loop_run fuel : forall buf a b, zlen buf = 1024 -> (length b < fuel)%nat -> row_loop fuel buf (at_rest a b) 0 = Ok 0.
Proof.
  induction fuel as [|fuel IH]; intros buf a b Hbuf Hf; [lia|]. cbn [row_loop]. destruct (decide (b = [])) as [->|Hb].
  - by rewrite fgets_end.
  - destruct (fgets_some buf 1024 a b eq_refl Hbuf Hb) as (buf' & l & b' & -> & -> & Hl & Hbuf' & Hin). cbn [mbind outcome_bind fst snd].
    destruct (strlen_terminator buf' Hin) as (n & Hn & Hn1 & Hg). unfold int_strlen. rewrite Hn. cbn [mbind outcome_bind].
    rewrite s32_id by lia. rewrite Hg. cbn [mbind outcome_bind]. change (10 =? 0) with false. cbv iota. apply IH; [done|].
    rewrite length_app in Hf. destruct l; [done|]. simpl in Hf. lia.
Qed.

Lemma fgetc_cons a c b : fgetc (at_rest a (c :: b)) = (c, at_rest (a ++ [c]) b).
Proof. unfold fgetc. rewrite rest_of_at. unfold at_rest. cbn [f_data f_pos]. by rewrite snoc_app, zlen_snoc. Qed.

Lemma fgetc_end a : fgetc (at_rest a []) = (EOF, at_rest a []).
Proof. unfold fgetc. by rewrite rest_of_at. Qed.

(** Going back over what was read, and on. *)
Lemma fseek_back a l b k : k = - zlen l -> fseek_cur (at_rest (a ++ l) b) k = at_rest a (l ++ b).
Proof.
  intros ->. unfold fseek_cur, fseek_set, at_rest. cbn [f_data f_pos]. rewrite zlen_app. pose proof (zlen_nonneg a).
  destruct (Z.ltb_spec (zlen a + zlen l + - zlen l) 0); [lia|]. rewrite <- app_assoc. f_equal. lia.
Qed.

Lemma fseek_on a l b k : k = zlen l -> fseek_cur (at_rest a (l ++ b)) k = at_rest (a ++ l) b.
Proof.
  intros ->. unfold fseek_cur, fseek_set, at_rest. cbn [f_data f_pos]. pose proof (zlen_nonneg a). pose proof (zlen_nonneg l).
  destruct (Z.ltb_spec (zlen a + zlen l) 0); [lia|]. by rewrite <- app_assoc, zlen_app.
Qed.

Definition no_feed (l : bytes) : Prop := Forall (λ c, c <> 10 /\ c <> EOF) l.

#[export] Instance no_feed_dec l : Decision (no_feed l).
Proof. unfold no_feed. apply _. Defined.

Lemma measure_line_skip l b : forall fuel a n,
  no_feed l -> 0 <= n -> n + zlen l < 2147483648 -> (length l <= fuel)%nat ->
  measure_line fuel (at_rest a (l ++ b)) n = measure_line (fuel - length l) (at_rest (a ++ l) b) (n + zlen l).
Proof.
  induction l as [|x l IH]; intros fuel a n Hl Hn Hb Hf.
  - cbn [length]. rewrite app_nil_r, Nat.sub_0_r. change (zlen (@nil Z)) with 0. by rewrite Z.add_0_r.
  - destruct fuel as [|fuel]; [simpl in Hf; lia|]. apply Forall_cons in Hl as [[Hx Hx'] Hl]. cbn [measure_line app length].
    rewrite fgetc_cons. rewrite zlen_cons in *. cbn [fst snd]. pose proof (zlen_nonneg l).
    unfold int_range. destruct (Z.leb_spec (-2147483648) (n + 1)); [|lia]. destruct (Z.leb_spec (n + 1) 2147483647); [|lia].
    cbn [andb mbind outcome_bind]. destruct (Z.eqb_spec 10 x); [congruence|]. destruct (Z.eqb_spec EOF x); [congruence|]. cbn [orb].
    rewrite IH by (done || lia || (simpl in Hf; lia)). rewrite snoc_app. cbn [Nat.sub].
    by replace (n + 1 + zlen l) with (n + (1 + zlen l)) by lia.
Qed.

(** The measured line ends at a line feed or at the end of the file. *)
Lemma measure_line_run l b fuel a :
  no_feed l -> zlen l < 2147483646 -> (length l < fuel)%nat ->
  measure_line fuel (at_rest a (l ++ 10 :: b)) 0 = Ok (zlen l + 1, 10, at_rest (a ++ l ++ [10]) b) /\
  measure_line fuel (at_rest a l) 0 = Ok (zlen l + 1, EOF, at_rest (a ++ l) []).
Proof.
  intros Hl Hn Hf. pose proof (zlen_nonneg l). destruct (fuel - length l)%nat as [|k] eqn:Ek; [lia|].
  assert (int_range (0 + zlen l + 1) = Ok (zlen l + 1)) as Hr.
  { unfold int_range. destruct (Z.leb_spec (-2147483648) (0 + zlen l + 1)); [|lia]. by destruct (Z.leb_spec (0 + zlen l + 1) 2147483647); [|lia]. }
  split.
  - rewrite measure_line_skip by (done || lia). rewrite Ek. cbn [measure_line]. rewrite fgetc_cons, Hr.
    cbn [mbind outcome_bind fst snd]. change ((10 =? 10) || (EOF =? 10)) with true. cbv iota. by rewrite <- app_assoc.
  - rewrite <- (app_nil_r l) at 1. rewrite measure_line_skip by (done || lia). rewrite Ek. cbn [measure_line]. rewrite fgetc_end, Hr. done.
Qed.

Lemma read_line_exact l b : no_feed l -> read_line (length l) (l ++ b) = l.
Proof.
  induction 1 as [|c l [Hc _] Hl IH]; [by destruct b|]. cbn [length app read_line]. destruct (Z.eqb_spec c 10); [done|]. by rewrite IH.
Qed.

Section lines.
Context `{Allocator}.
Hypothesis Hroom : has_room.

(** [fgets] of a measured line. *)
Lemma fgets_measured a l b :
  no_feed l ->
  fgets (memset 0 (zlen l + 1)) (zlen l + 1) (at_rest a (l ++ b)) = Ok (Some (l ++ [0]), at_rest (a ++ l) b).
Proof using Type.
  intros Hl. destruct (decide (l = [])) as [->|Hne]; [by rewrite app_nil_r|].
  pose proof (zlen_nonneg l). assert (zlen l <> 0) by (by destruct l).
  rewrite <- (app_nil_r (memset _ _)). apply fgets_line; [lia|done| |by rewrite zlen_memset0 by lia].
  replace (Z.to_nat (zlen l + 1 - 1)) with (length l) by (unfold zlen; lia). by apply read_line_exact.
Qed.

(** A whole line, a last line without a line feed, the end. *)
Lemma file_line_whole a l b :
  no_feed l -> zlen l < 2147483646 ->
  gives 1 (GetFileLine_Malloc (at_rest a (l ++ 10 :: b))) (zlen l, Some (l ++ [0]), at_rest (a ++ l ++ [10]) b).
Proof using Hroom.
  intros Hl Hn. pose proof (zlen_nonneg l). unfold GetFileLine_Malloc.
  assert (exists c t, l ++ 10 :: b = c :: t /\ c <> EOF) as (c & t & Et & Hc).
  { destruct l as [|x l]; [by exists 10, b|]. apply Forall_cons in Hl as [[_ Hx] _]. by exists x, (l ++ 10 :: b). }
  rewrite Et, fgetc_cons. cbv zeta. cbn [fst snd]. destruct (Z.eqb_spec EOF c); [congruence|].
  rewrite (fseek_back a [c] t) by done. cbn [app]. rewrite <- Et.
  eapply gives_lift_bind.
  { refine (proj1 (measure_line_run l b _ a Hl _ _)); [lia|]. unfold at_rest. cbn [f_data]. rewrite !length_app. simpl. lia. }
  cbn [fst snd]. change (10 =? 10) with true. change (EOF =? 10) with false. cbv iota zeta.
  rewrite fseek_back by zlen_lia. rewrite <- app_assoc. cbn [app].
  eapply (gives_bind 1 0); [apply gives_malloc_zeroed; [done|lia]| |done].
  eapply gives_lift_bind; [by apply fgets_measured|]. cbn [fst snd default id].
  rewrite (fseek_on (a ++ l) [10] b) by done. rewrite <- app_assoc, Z.add_simpl_r. apply gives_ret.
Qed.

Lemma file_line_last a l :
  no_feed l -> l <> [] -> zlen l < 2147483646 ->
  gives 1 (GetFileLine_Malloc (at_rest a l)) (-1, Some (l ++ [0]), at_rest (a ++ l) []).
Proof using Hroom.
  intros Hl Hne Hn. pose proof (zlen_nonneg l). unfold GetFileLine_Malloc.
  destruct l as [|c t]; [done|]. rewrite fgetc_cons. cbv zeta. cbn [fst snd].
  apply Forall_cons in Hl as Hl'. destruct Hl' as [[_ Hc] _]. destruct (Z.eqb_spec EOF c); [congruence|].
  rewrite (fseek_back a [c] t) by done. cbn [app].
  eapply gives_lift_bind.
  { refine (proj2 (measure_line_run (c :: t) [] _ a Hl _ _)); [lia|]. unfold at_rest. cbn [f_data]. rewrite !length_app. simpl. lia. }
  cbn [fst snd]. change (10 =? EOF) with false. change (EOF =? EOF) with true. cbv iota zeta.
  rewrite (fseek_back a (c :: t) []) by zlen_lia.
  eapply (gives_bind 1 0); [apply gives_malloc_zeroed; [done|lia]| |done].
  eapply gives_lift_bind; [by apply fgets_measured|]. cbn [fst snd default id]. apply gives_ret.
Qed.

Lemma file_line_end a : gives 0 (GetFileLine_Malloc (at_rest a [])) (-2, None, at_rest a []).
Proof using Type. unfold GetFileLine_Malloc. rewrite fgetc_end. apply gives_ret. Qed.
End lines.

(** ** All lines of a file *)

Section reading.
Context `{Allocator}.
Hypothesis Hroom : has_room.

(** [n] calls one after the other: what each returns and its block. *)
Fixpoint file_lines (n : nat) (fp : FILE) : cmd (list (Z * option bytes)) :=
  match n with
  | O => mret []
  | S n => r ← GetFileLine_Malloc fp; rest ← file_lines n r.2; mret (r.1 :: rest)
  end.

Definition line_result (l : bytes) : Z * option bytes := (zlen l, Some (l ++ [0])).
Definition file_line (l : bytes) : Prop := no_feed l /\ zlen l < 2147483646.

#[export] Instance file_line_dec l : Decision (file_line l).
Proof using Type. unfold file_line. apply _. Defined.

Lemma file_lines_run b n d rest lines : forall a,
  Forall file_line lines -> (forall a, gives d (file_lines n (at_rest a b)) rest) ->
  gives (zlen lines + d) (file_lines (length lines + n) (at_rest a (conf_text lines ++ b))) (map line_result lines ++ rest).
Proof using Hroom.
  induction lines as [|l lines IH]; intros a Hlines Hrest; [apply Hrest|]. apply Forall_cons in Hlines as [[Hl Hn] Hlines].
  cbn [length Nat.add file_lines map]. unfold conf_text. cbn [fmap list_fmap concat]. unfold ended at 1. rewrite <- !app_assoc. cbn [app].
  rewrite zlen_cons. eapply (gives_bind 1 (zlen lines + d)); [by apply file_line_whole| |lia]. cbn [fst snd].
  eapply (gives_bind (zlen lines + d) 0); [by apply IH|apply gives_ret|lia].
Qed.
End reading.
