(* ===== verification/LibHex.v ===== *)
(** * Number bases ([lib_HEX.c])

    The conversions between numbers and their digits, and the bits of a
    character.  A [char] is signed: [schar]. *)

From S2P Require Import Prelude LibC Buffers CHeap LibString LibStringFacts LibFileFacts.

(** ** Definitions *)

(** [result[i]=((c&(0x80>>i))&&0xff)+0x30], eight times; no terminator. *)
Definition convert_charto8bit (c : Z) (sStr_Point : bytes) : outcome bytes :=
  result ← for_loop 8 0 1 (λ i result,
    r ← zset result i ((if Z.land (schar c) (Z.shiftr 128 i) =? 0 then 0 else 1) + 48);
    Ok (r, true)) (memset 0 8);
  poke sStr_Point 0 result.

(** [strcpy(out + at, bit ? "1" : "0")]. *)
Definition put_bit (out : bytes) (at_ : Z) (bit : bool) : outcome bytes := poke out at_ [if bit then 49 else 48; 0].

(** [iTmp_7] is a [char] with the value 128, which is -128, and never equals
    128 once it is an [int]. *)
Definition Char_To_StrBin (src_char : Z) (out_str_bin : bytes) (at_ : Z) : outcome bytes :=
  let iTmp := schar src_char in
  o ← put_bit out_str_bin (at_ + 0) (Z.land iTmp (s8 128) =? 128);
  o ← put_bit o (at_ + 1) (Z.land iTmp (s8 64) =? 64);
  o ← put_bit o (at_ + 2) (Z.land iTmp (s8 32) =? 32);
  o ← put_bit o (at_ + 3) (Z.land iTmp (s8 16) =? 16);
  o ← put_bit o (at_ + 4) (Z.land iTmp (s8 8) =? 8);
  o ← put_bit o (at_ + 5) (Z.land iTmp (s8 4) =? 4);
  o ← put_bit o (at_ + 6) (Z.land iTmp (s8 2) =? 2);
  put_bit o (at_ + 7) (Z.land iTmp (s8 1) =? 1).

Definition MultipleChar_To_StrBin (src_char out_str_bin : bytes) (iNum_Char : Z) : outcome bytes :=
  for_loop (Z.to_nat iNum_Char) 0 1 (λ iFor out,
    cTmp ← zget src_char iFor;
    out ← Char_To_StrBin cTmp out (iFor * 8);
    Ok (out, true)) out_str_bin.

(** [acc * base + digit] on [int]s. *)
Definition add_digit (base acc digit : Z) : outcome Z := m ← int_range (acc * base); int_range (m + digit).

(** The block is not freed. *)
Definition From_2Jz_To_10Jz `{Allocator} (s2Jz_Str_In : bytes) : cmd Z :=
  ilength_Src ← lift (int_strlen s2Jz_Str_In);
  n ← lift (int_range (ilength_Src + 1));
  p ← malloc (u64 n);
  pPoint_Tmp ← lift (or_fault p);
  b ← lift (peek s2Jz_Str_In 0 (u64 ilength_Src));
  pPoint_Tmp ← lift (poke pPoint_Tmp 0 b);
  lift (for_loop (Z.to_nat ilength_Src) 0 1 (λ iFor_Num iOut,
    cTmp ← zget pPoint_Tmp iFor_Num;
    iOut ← add_digit 2 iOut (schar cTmp - 48);
    Ok (iOut, true)) 0).

(** The loop ends at the terminator; it is within the buffer. *)
Fixpoint octal_loop (s8Jz_Str_In : bytes) (r : Z) : outcome Z :=
  match s8Jz_Str_In with
  | [] => Fault
  | c :: s => if c =? 0 then Ok r else r ← add_digit 8 r (schar c - 48); octal_loop s r
  end.
Definition From_8Jz_To_10Jz (s8Jz_Str_In : bytes) : outcome Z := octal_loop s8Jz_Str_In 0.

Definition hex_value (c : Z) : Z :=
  if (65 <=? schar c) && (schar c <=? 70) then schar c - 65 + 10
  else if (97 <=? schar c) && (schar c <=? 102) then schar c - 97 + 10
  else schar c - 48.

Definition From_16Jz_To_10Jz (sTmp_Out : bytes) : outcome Z :=
  iLength_Str_In ← int_strlen sTmp_Out;
  for_loop (Z.to_nat iLength_Str_In) 0 1 (λ iFor iReturn,
    c ← zget sTmp_Out iFor;
    iReturn ← add_digit 16 iReturn (hex_value c);
    Ok (iReturn, true)) 0.

(** Thirty-two characters and no terminator. *)
Definition From_10Jz_To_2Jz (iInt_In : Z) (sBin_Out : bytes) : outcome bytes :=
  sBin_Tmp ← for_loop 32 0 1 (λ iFor_Count b,
    b ← zset b (32 - 1 - iFor_Count) (if 0 =? Z.land (Z.shiftr iInt_In iFor_Count) 1 then 48 else 49);
    Ok (b, true)) (memset 0 33);
  n ← strlen sBin_Tmp;
  b ← peek sBin_Tmp 0 n;
  poke sBin_Out 0 b.

Definition sBit : bytes := lit "0123456789ABCDEF" ++ [0].

(** The recursion stops at 0; the remainder of a negative number is negative. *)
Fixpoint func_10_Jzzh (fuel : nat) (sTmp_Out : bytes) (i10Jz_Num iJz : Z) : outcome bytes :=
  match fuel with
  | O => NoFuel
  | S fuel =>
      if i10Jz_Num =? 0 then poke sTmp_Out 0 [0]
      else if iJz =? 0 then Fault
      else
        q ← int_range (Z.quot i10Jz_Num iJz);
        out ← func_10_Jzzh fuel sTmp_Out q iJz;
        n ← strlen out;
        let iLen := s32 n in
        c ← zget sBit (Z.rem i10Jz_Num iJz);
        out ← zset out iLen c;
        zset out (iLen + 1) 0
  end.

(** An [int] has at most eleven digits in base 8. *)
Definition From_10Jz_To_8Jz (iInt_In : Z) (s8Jz_Out : bytes) : outcome bytes := func_10_Jzzh 12 s8Jz_Out iInt_In 8.
Definition From_10Jz_To_16Jz (iInt_In : Z) (s16Jz_Out : bytes) : outcome bytes := func_10_Jzzh 12 s16Jz_Out iInt_In 16.

(** ** Digits of a number *)

(** The digits of [n] in base [b], the first one first; none for 0. *)
Fixpoint digits_of (fuel : nat) (b n : Z) : list Z :=
  match fuel with
  | O => []
  | S fuel => if n =? 0 then [] else digits_of fuel b (n / b) ++ [n mod b]
  end.

Definition digit_char (d : Z) : Z := if d <? 10 then 48 + d else 55 + d.
Definition number_text (b n : Z) : bytes := digit_char <$> digits_of 11 b n.

(** The number some digits stand for, from [acc]. *)
Fixpoint number_from (b acc : Z) (ds : list Z) : Z :=
  match ds with [] => acc | d :: ds => number_from b (acc * b + d) ds end.

Lemma number_from_snoc b acc ds d : number_from b acc (ds ++ [d]) = number_from b acc ds * b + d.
Proof. revert acc. induction ds as [|e ds IH]; intros acc; [done|]. apply IH. Qed.

Lemma number_from_bounds b acc ds : 2 <= b -> 0 <= acc -> Forall (λ d, 0 <= d < b) ds -> 0 <= acc <= number_from b acc ds.
Proof.
  intros Hb. revert acc. induction ds as [|d ds IH]; intros acc Ha Hds; [simpl; lia|]. apply Forall_cons in Hds as [Hd Hds].
  cbn [number_from]. pose proof (IH (acc * b + d) ltac:(nia) Hds). nia.
Qed.

Section base.
Context (b : Z) (Hb : 2 <= b).

Lemma digits_of_spec fuel n :
  0 <= n < b ^ Z.of_nat fuel ->
  number_from b 0 (digits_of fuel b n) = n /\ Forall (λ d, 0 <= d < b) (digits_of fuel b n) /\ (length (digits_of fuel b n) <= fuel)%nat.
Proof using Hb.
  revert n. induction fuel as [|fuel IH]; intros n Hn; cbn [digits_of].
  - change (b ^ Z.of_nat 0) with 1 in Hn. split; [simpl; lia|]. split; [constructor|simpl; lia].
  - destruct (Z.eqb_spec n 0) as [->|Hn0]; [split; [done|]; split; [constructor|simpl; lia]|].
    rewrite Nat2Z.inj_succ, Z.pow_succ_r in Hn by lia.
    destruct (IH (n / b)) as (H1 & H2 & H3); [split; [apply Z.div_pos; lia|apply Z.div_lt_upper_bound; lia]|].
    rewrite number_from_snoc, H1, length_app. pose proof (Z.mod_pos_bound n b ltac:(lia)).
    split; [pose proof (Z.div_mod n b ltac:(lia)); lia|]. split; [|simpl; lia].
    apply Forall_app. split; [done|]. by constructor.
Qed.
End base.

(** ** Number bases ([lib_HEX.c]): what the conversions compute *)

#[local] Opaque memset.

(** ** Reading digits *)

Lemma int_range_dec z : int_range z = if bool_decide (-2147483648 <= z <= 2147483647) then Ok z else Fault.
Proof.
  unfold int_range. destruct (Z.leb_spec (-2147483648) z), (Z.leb_spec z 2147483647); cbn [andb]; case_bool_decide; done || lia.
Qed.

Section reading.
Context (b : Z) (val : Z -> Z) (Hb : 2 <= b).

(** Exact up to the largest [int]; beyond it the arithmetic overflows. *)
Definition checked (z : Z) : outcome Z := if z <=? 2147483647 then Ok z else Fault.

Lemma add_digit_run acc d : 0 <= acc -> 0 <= d < b -> add_digit b acc d = checked (acc * b + d).
Proof using Hb.
  intros Ha Hd. unfold add_digit, checked. assert (0 <= acc * b) by nia. rewrite !int_range_dec.
  destruct (Z.leb_spec (acc * b + d) 2147483647).
  - rewrite bool_decide_eq_true_2 by lia. cbn [mbind outcome_bind]. rewrite int_range_dec, bool_decide_eq_true_2 by lia. done.
  - case_bool_decide; [|done]. cbn [mbind outcome_bind]. rewrite int_range_dec, bool_decide_eq_false_2 by lia. done.
Qed.

Lemma checked_large acc ds : 0 <= acc -> 2147483647 < acc -> Forall (λ d, 0 <= d < b) ds -> checked (number_from b acc ds) = Fault.
Proof using Hb.
  intros Ha Hl Hds. pose proof (number_from_bounds b acc ds Hb Ha Hds). unfold checked. by destruct (Z.leb_spec (number_from b acc ds) 2147483647); [lia|].
Qed.

Lemma parse_run r cs : forall a acc, 0 <= acc -> Forall (λ c, 0 <= val c < b) cs ->
  for_loop (length cs) (zlen a) 1 (λ i acc, c ← zget (a ++ cs ++ r) i; acc ← add_digit b acc (val c); Ok (acc, true)) acc =
  if acc <=? 2147483647 then checked (number_from b acc (val <$> cs)) else for_loop (length cs) (zlen a) 1 (λ i acc, c ← zget (a ++ cs ++ r) i; acc ← add_digit b acc (val c); Ok (acc, true)) acc.
Proof using Hb.
  induction cs as [|c cs IH]; intros a acc Ha Hcs; (destruct (Z.leb_spec acc 2147483647) as [Hle|]; [|done]); cbn [length for_loop fmap list_fmap number_from].
  - unfold checked. by destruct (Z.leb_spec acc 2147483647); [|lia].
  - apply Forall_cons in Hcs as [Hc Hcs]. cbn [app]. rewrite zget_middle by done. cbn [mbind outcome_bind].
    rewrite add_digit_run by done. unfold checked at 1. assert (0 <= acc * b + val c) by nia.
    destruct (Z.leb_spec (acc * b + val c) 2147483647) as [Hs|Hs]; cbn [mbind outcome_bind fst snd].
    + specialize (IH (a ++ [c]) (acc * b + val c) ltac:(lia) Hcs). rewrite snoc_app, zlen_snoc in IH. rewrite IH.
      by destruct (Z.leb_spec (acc * b + val c) 2147483647); [|lia].
    + rewrite checked_large; [done|lia|lia|]. by apply Forall_fmap.
Qed.

Lemma parse_string r cs : Forall (λ c, 0 <= val c < b) cs ->
  for_loop (length cs) 0 1 (λ i acc, c ← zget (cs ++ r) i; acc ← add_digit b acc (val c); Ok (acc, true)) 0 =
  checked (number_from b 0 (val <$> cs)).
Proof using Hb. intros Hcs. exact (parse_run r cs [] 0 ltac:(lia) Hcs). Qed.
End reading.

Lemma octal_loop_run r cs : forall acc, 0 <= acc <= 2147483647 -> Forall (λ c, 48 <= c < 56) cs ->
  octal_loop (cs ++ 0 :: r) acc = checked (number_from 8 acc ((λ c, c - 48) <$> cs)).
Proof.
  induction cs as [|c cs IH]; intros acc Ha Hcs; cbn [app octal_loop fmap list_fmap number_from].
  - unfold checked. by destruct (Z.leb_spec acc 2147483647); [|lia].
  - apply Forall_cons in Hcs as [Hc Hcs]. destruct (Z.eqb_spec c 0); [lia|].
    assert (schar c = c) as -> by (apply swrap_id; [lia|]; change (2 ^ (8 - 1)) with 128; lia).
    rewrite (add_digit_run 8) by lia. unfold checked at 1. destruct (Z.leb_spec (acc * 8 + (c - 48)) 2147483647); cbn [mbind outcome_bind].
    + apply IH; [lia|done].
    + rewrite checked_large; [done|lia|lia|lia|]. apply Forall_fmap. eapply Forall_impl; [exact Hcs|]. simpl. lia.
Qed.

(** ** Writing digits *)

Lemma sBit_digit d : 0 <= d < 16 -> zget sBit d = Ok (digit_char d).
Proof.
  intros Hd. assert (d = Z.of_nat (Z.to_nat d)) as -> by lia. assert (Z.to_nat d < 16)%nat as Hn by lia. clear Hd.
  revert Hn. generalize (Z.to_nat d). clear d. intros n Hn. do 16 (destruct n as [|n]; [reflexivity|]). lia.
Qed.

Lemma digit_char_cchar d : 0 <= d < 16 -> cchar (digit_char d).
Proof. intros Hd. unfold digit_char, cchar. destruct (Z.ltb_spec d 10); lia. Qed.

Lemma hex_value_digit d : 0 <= d < 16 -> hex_value (digit_char d) = d.
Proof.
  intros Hd. unfold hex_value. assert (schar (digit_char d) = digit_char d) as ->.
  { apply swrap_id; [lia|]. change (2 ^ (8 - 1)) with 128. unfold digit_char. destruct (d <? 10); lia. }
  unfold digit_char. destruct (Z.ltb_spec d 10).
  - destruct (Z.leb_spec 65 (48 + d)), (Z.leb_spec 97 (48 + d)); cbn [andb]; lia.
  - destruct (Z.leb_spec 65 (55 + d)), (Z.leb_spec (55 + d) 70); cbn [andb]; lia.
Qed.

Section writing.
Context (b : Z) (Hb : 2 <= b <= 16).

Lemma digits_cchar k n : 0 <= n < b ^ Z.of_nat k -> cstring (digit_char <$> digits_of k b n).
Proof using Hb.
  intros Hn. destruct (digits_of_spec b ltac:(lia) k n Hn) as (_ & Hd & _). apply Forall_fmap.
  eapply Forall_impl; [exact Hd|]. intros d H. cbn in H. apply digit_char_cchar. lia.
Qed.

Lemma jzzh_run r k : forall n d,
  0 <= n < b ^ Z.of_nat k -> n <= 2147483647 -> zlen d = zlen (digits_of k b n) + 1 -> zlen d < 2147483648 ->
  func_10_Jzzh (S k) (d ++ r) n b = Ok ((digit_char <$> digits_of k b n) ++ 0 :: r).
Proof using Hb.
  assert (forall t d, zlen d = 1 -> poke (d ++ t) 0 [0] = Ok (0 :: t)) as Hbase.
  { intros t d Hd. by rewrite poke_prefix by (by rewrite Hd). }
  revert r. induction k as [|k IH]; intros r n d Hn Hi Hd Hl; cbn [func_10_Jzzh digits_of] in *.
  - change (b ^ Z.of_nat 0) with 1 in Hn. destruct (Z.eqb_spec n 0); [|lia]. by apply Hbase.
  - destruct (Z.eqb_spec n 0) as [->|Hn0]; [by apply Hbase|]. destruct (Z.eqb_spec b 0); [lia|].
    rewrite Z.quot_div_nonneg, Z.rem_mod_nonneg by lia. rewrite Nat2Z.inj_succ, Z.pow_succ_r in Hn by lia.
    assert (0 <= n / b < b ^ Z.of_nat k) as Hq by (split; [apply Z.div_pos; lia|apply Z.div_lt_upper_bound; lia]).
    assert (n / b <= n) as Hle by (apply Z.div_le_upper_bound; nia).
    rewrite int_range_dec, bool_decide_eq_true_2 by lia. cbn [mbind outcome_bind].
    rewrite zlen_app in Hd. change (zlen [n mod b]) with 1 in Hd. pose proof (zlen_nonneg (digits_of k b (n / b))).
    destruct (split_last d (length (digits_of k b (n / b)) + 1)) as (d' & x & -> & Hd'); [unfold zlen in *; lia|].
    rewrite <- app_assoc. cbn [app]. rewrite IH by (done || (unfold zlen in *; lia)). cbn [mbind outcome_bind].
    set (t := digit_char <$> digits_of k b (n / b)). assert (cstring t) as Ht by by apply digits_cchar.
    assert (zlen t = zlen (digits_of k b (n / b))) as Hlt by (unfold t, zlen; by rewrite length_fmap).
    rewrite strlen_app by done. cbn [mbind outcome_bind]. rewrite zlen_app in Hl. change (zlen [x]) with 1 in Hl.
    rewrite s32_id by (unfold zlen in *; lia). pose proof (Z.mod_pos_bound n b ltac:(lia)).
    rewrite sBit_digit by lia. cbn [mbind outcome_bind]. rewrite zset_middle by done. cbn [mbind outcome_bind].
    rewrite <- (snoc_app t (x :: r)), zset_middle by (by rewrite zlen_snoc). by rewrite fmap_app, snoc_app, <- app_assoc.
Qed.
End writing.

Lemma int_digits n : 0 <= n <= 2147483647 -> 0 <= n < 8 ^ Z.of_nat 11 /\ 0 <= n < 16 ^ Z.of_nat 11.
Proof. intros Hn. change (8 ^ Z.of_nat 11) with 8589934592. change (16 ^ Z.of_nat 11) with 17592186044416. lia. Qed.

(** ** Bits *)

(** The lowest [k] bits of [n] as characters, the highest first. *)
Fixpoint bits_of (k : nat) (n : Z) : bytes :=
  match k with O => [] | S k => (48 + (n / 2 ^ Z.of_nat k) mod 2) :: bits_of k n end.

Lemma bits_length k n : zlen (bits_of k n) = Z.of_nat k.
Proof. induction k as [|k IH]; [done|]. cbn [bits_of]. rewrite zlen_cons, IH. lia. Qed.

Lemma bits_cchar k n : Forall (λ c, 48 <= c <= 49) (bits_of k n).
Proof.
  induction k as [|k IH]; constructor; [|done]. pose proof (Z.mod_pos_bound (n / 2 ^ Z.of_nat k) 2 ltac:(lia)). lia.
Qed.

Lemma bits_number k n acc : number_from 2 acc ((λ c, c - 48) <$> bits_of k n) = acc * 2 ^ Z.of_nat k + n mod 2 ^ Z.of_nat k.
Proof.
  revert acc. induction k as [|k IH]; intros acc.
  - cbn. rewrite Z.mod_1_r. lia.
  - cbn [bits_of fmap list_fmap number_from]. rewrite IH. rewrite Nat2Z.inj_succ, Z.pow_succ_r by lia.
    rewrite (Z.mul_comm 2), (Z.rem_mul_r n (2 ^ Z.of_nat k) 2) by lia. ring.
Qed.

Lemma bin_loop_run n m : forall k,
  (k + m = 32)%nat ->
  for_loop m (Z.of_nat k) 1 (λ iFor_Count b,
    b ← zset b (32 - 1 - iFor_Count) (if 0 =? Z.land (Z.shiftr n iFor_Count) 1 then 48 else 49);
    Ok (b, true)) (memset 0 (Z.of_nat m) ++ bits_of k n ++ [0]) = Ok (bits_of 32 n ++ [0]).
Proof.
  induction m as [|m IH]; intros k Hk; cbn [for_loop].
  - assert (k = 32)%nat as -> by lia. done.
  - replace (memset 0 (Z.of_nat (S m))) with (memset 0 (Z.of_nat m) ++ [0]).
    2: { replace (Z.of_nat (S m)) with (Z.of_nat m + 1) by lia. rewrite memset_split by lia. by rewrite (memset_S 1). }
    rewrite snoc_app, zset_middle by (rewrite zlen_memset0; lia). cbn [mbind outcome_bind fst snd].
    rewrite <- (IH (S k)) by lia. replace (Z.of_nat (S k)) with (Z.of_nat k + 1) by lia. do 2 f_equal.
    cbn [bits_of app]. f_equal. rewrite Z.shiftr_div_pow2 by lia. change 1 with (Z.ones 1) at 1. rewrite Z.land_ones by lia.
    change (2 ^ 1) with 2. pose proof (Z.mod_pos_bound (n / 2 ^ Z.of_nat k) 2 ltac:(lia)).
    destruct (Z.eqb_spec 0 ((n / 2 ^ Z.of_nat k) mod 2)); lia.
Qed.

(** [a] is before the array, [u] are the bits before, [t] is behind. *)
Lemma put_bit_run a u m x y t k bit :
  m = a ++ u ++ x :: y :: t -> k = zlen u -> put_bit m (zlen a + k) bit = Ok (a ++ (u ++ [if bit then 49 else 48]) ++ 0 :: t).
Proof.
  intros -> ->. unfold put_bit. rewrite <- zlen_app, (app_assoc a u), (poke_layout (a ++ u) [x; y] t [_; 0] _ eq_refl eq_refl).
  by rewrite <- !app_assoc.
Qed.

(** The tests of the single bits, for every character. *)
Definition bit_chars (c : Z) : bytes :=
  (λ m, if Z.land (schar c) (s8 m) =? m then 49 else 48) <$> [128; 64; 32; 16; 8; 4; 2; 1].

Lemma bit_chars_spec c : 0 <= c < 256 -> bit_chars c = 48 :: bits_of 7 c.
Proof.
  intros Hc. assert (forall n : nat, (n < 256)%nat -> bit_chars (Z.of_nat n) = 48 :: bits_of 7 (Z.of_nat n)) as Hall.
  { assert (Forall (λ n, bit_chars (Z.of_nat n) = 48 :: bits_of 7 (Z.of_nat n)) (seq 0 256)) as Hf.
    { apply (bool_decide_unpack _). vm_compute. exact I. }
    rewrite Forall_forall in Hf. intros n Hn. apply Hf, elem_of_seq. lia. }
  rewrite <- (Z2Nat.id c) by lia. apply Hall. lia.
Qed.

Lemma char_to_strbin_run c a d r :
  0 <= c < 256 -> zlen d = 9 -> Char_To_StrBin c (a ++ d ++ r) (zlen a) = Ok (a ++ (48 :: bits_of 7 c) ++ 0 :: r).
Proof.
  intros Hc Hd. do 9 (destruct d as [|? d]; [done|]). destruct d; [|rewrite !zlen_cons in Hd; pose proof (zlen_nonneg d); lia].
  rewrite <- bit_chars_spec by done. unfold Char_To_StrBin, bit_chars. cbn [fmap list_fmap app].
  erewrite (put_bit_run a []); [|reflexivity..]. cbn [mbind outcome_bind app].
  erewrite (put_bit_run a [_]); [|reflexivity..]. cbn [mbind outcome_bind app].
  erewrite (put_bit_run a [_; _]); [|reflexivity..]. cbn [mbind outcome_bind app].
  erewrite (put_bit_run a [_; _; _]); [|reflexivity..]. cbn [mbind outcome_bind app].
  erewrite (put_bit_run a [_; _; _; _]); [|reflexivity..]. cbn [mbind outcome_bind app].
  erewrite (put_bit_run a [_; _; _; _; _]); [|reflexivity..]. cbn [mbind outcome_bind app].
  erewrite (put_bit_run a [_; _; _; _; _; _]); [|reflexivity..]. cbn [mbind outcome_bind app].
  by erewrite (put_bit_run a [_; _; _; _; _; _; _]); [|reflexivity..].
Qed.

(** ** There and back *)

Lemma schar_binary c : 48 <= c <= 49 -> schar c = c.
Proof. intros Hc. apply swrap_id; [lia|]. change (2 ^ (8 - 1)) with 128. lia. Qed.

Lemma from_2Jz_run `{Allocator} cs r n :
  has_room -> short cs -> Forall (λ c, 48 <= c <= 49) cs -> number_from 2 0 ((λ c, c - 48) <$> cs) = n -> n <= 2147483647 ->
  gives 1 (From_2Jz_To_10Jz (cs ++ 0 :: r)) n.
Proof.
  intros Hroom Hn Hcs Hnum Hmax.
  assert (cstring cs) as Hc by (eapply Forall_impl; [exact Hcs|intros c; unfold cchar; simpl; lia]).
  unfold From_2Jz_To_10Jz. eapply gives_lift_bind; [by apply int_strlen_run|]. eapply gives_lift_bind; [by apply length_plus_1|].
  intros [l k]. exists (k + 1). unfold malloc, lift, mbind, cmd_bind. unfold short in Hn. pose proof (zlen_nonneg cs).
  cbn [calls live]. rewrite !u64_id by lia. rewrite Hroom by lia. cbn [mbind outcome_bind fst snd or_fault].
  rewrite peek_prefix by done. cbn [mbind outcome_bind fst snd].
  destruct (split_at (new_bytes k (zlen cs + 1)) (length cs)) as (u & v & -> & Hu).
  { pose proof (zlen_new_bytes k (zlen cs + 1) ltac:(lia)). unfold zlen in *. lia. }
  rewrite poke_prefix by (unfold zlen; lia). cbn [mbind outcome_bind fst snd]. unfold zlen at 1. rewrite Nat2Z.id.
  rewrite (parse_string 2 (λ c, schar c - 48)); [|lia|].
  - assert ((λ c, schar c - 48) <$> cs = (λ c, c - 48) <$> cs) as ->.
    { apply list_fmap_ext. intros i c Hi. rewrite Forall_lookup in Hcs. by rewrite schar_binary by by eapply Hcs. }
    rewrite Hnum. unfold checked. destruct (Z.leb_spec n 2147483647); [|lia]. done.
  - eapply Forall_impl; [exact Hcs|]. intros c Hb. simpl in *. rewrite schar_binary by lia. lia.
Qed.

Lemma from_10Jz_to_2Jz_run n d r : zlen d = 32 -> From_10Jz_To_2Jz n (d ++ r) = Ok (bits_of 32 n ++ r).
Proof.
  intros Hd. unfold From_10Jz_To_2Jz. pose proof (bin_loop_run n 32 0 eq_refl) as Hloop.
  change (Z.of_nat 0) with 0 in Hloop. change (bits_of 0 n ++ [0]) with [0] in Hloop.
  assert (memset 0 33 = memset 0 (Z.of_nat 32) ++ [0]) as ->.
  { change 33 with (32 + 1). rewrite memset_split by lia. by rewrite (memset_S 1). }
  rewrite Hloop. cbn [mbind outcome_bind].
  assert (cstring (bits_of 32 n)) as Hc.
  { eapply Forall_impl; [apply bits_cchar|]. intros c. unfold cchar. simpl. lia. }
  rewrite strlen_app by done. cbn [mbind outcome_bind]. rewrite peek_prefix by done. cbn [mbind outcome_bind].
  rewrite poke_prefix; [done|]. by rewrite bits_length.
Qed.

(** The text of a number in base 8 or 16, and the number of a text. *)
Lemma number_text_value b n : 2 <= b <= 16 -> 0 <= n < b ^ 11 ->
  number_from b 0 (digits_of 11 b n) = n /\ Forall (λ d, 0 <= d < b) (digits_of 11 b n) /\ zlen (digits_of 11 b n) <= 11.
Proof.
  intros Hb Hn. destruct (digits_of_spec b ltac:(lia) 11 n Hn) as (H1 & H2 & H3). split; [done|]. split; [done|]. unfold zlen. lia.
Qed.

Lemma from_16Jz_run n r :
  number_from 16 0 (digits_of 11 16 n) = n -> Forall (λ d, 0 <= d < 16) (digits_of 11 16 n) -> zlen (digits_of 11 16 n) <= 11 ->
  n <= 2147483647 -> From_16Jz_To_10Jz ((digit_char <$> digits_of 11 16 n) ++ 0 :: r) = Ok n.
Proof.
  intros Hv Hd Hl Hn. unfold From_16Jz_To_10Jz. set (ds := digits_of 11 16 n) in *.
  assert (cstring (digit_char <$> ds)) as Hc.
  { apply Forall_fmap. eapply Forall_impl; [exact Hd|]. intros d Hb. by apply digit_char_cchar. }
  assert (short (digit_char <$> ds)) as Hs by (unfold short, zlen in *; rewrite length_fmap; lia).
  rewrite int_strlen_run by done. cbn [mbind outcome_bind]. replace (Z.to_nat (zlen (digit_char <$> ds))) with (length (digit_char <$> ds)) by (unfold zlen; lia).
  assert (hex_value <$> (digit_char <$> ds) = ds) as Hvals.
  { rewrite <- list_fmap_compose. rewrite <- (list_fmap_id ds) at 2. apply list_fmap_ext. intros i d Hi. rewrite Forall_lookup in Hd.
    apply hex_value_digit. by eapply Hd. }
  rewrite (parse_string 16 hex_value); [|lia|].
  - rewrite Hvals, Hv. unfold checked. by destruct (Z.leb_spec n 2147483647); [|lia].
  - apply Forall_fmap. eapply Forall_impl; [exact Hd|]. intros d Hb. simpl. by rewrite hex_value_digit.
Qed.

Lemma from_8Jz_run n r :
  number_from 8 0 (digits_of 11 8 n) = n -> Forall (λ d, 0 <= d < 8) (digits_of 11 8 n) -> n <= 2147483647 ->
  From_8Jz_To_10Jz ((digit_char <$> digits_of 11 8 n) ++ 0 :: r) = Ok n.
Proof.
  intros Hv Hd Hn. unfold From_8Jz_To_10Jz. set (ds := digits_of 11 8 n) in *.
  assert (forall d, 0 <= d < 8 -> digit_char d = 48 + d) as Hdc by (intros d Hb; unfold digit_char; destruct (Z.ltb_spec d 10); lia).
  rewrite octal_loop_run; [|lia|].
  - assert ((λ c, c - 48) <$> (digit_char <$> ds) = ds) as ->.
    { rewrite <- list_fmap_compose. rewrite <- (list_fmap_id ds) at 2. apply list_fmap_ext. intros i d Hi. rewrite Forall_lookup in Hd.
      cbn. rewrite Hdc by by eapply Hd. lia. }
    rewrite Hv. unfold checked. by destruct (Z.leb_spec n 2147483647); [|lia].
  - apply Forall_fmap. eapply Forall_impl; [exact Hd|]. intros d Hb. cbn in *. rewrite Hdc by lia. lia.
Qed.

(** The digits of a negative number: the remainder is negative. *)
Lemma jzzh_negative b out k : 2 <= b <= 16 -> forall n,
  -2147483648 <= n < 0 -> - n < b ^ Z.of_nat k -> func_10_Jzzh (S k) out n b = Fault.
Proof.
  intros Hb. assert (forall s, strlen s = Fault \/ exists n, strlen s = Ok n) as Hstr.
  { intros s. induction s as [|c s IH]; [by left|]. cbn [strlen]. destruct (c =? 0); [right; by eexists|].
    destruct IH as [->|[m ->]]; [by left|right; by eexists]. }
  induction k as [|k IH]; intros n Hn Hk; [change (b ^ Z.of_nat 0) with 1 in Hk; lia|].
  rewrite Nat2Z.inj_succ, Z.pow_succ_r in Hk by lia.
  assert (Z.quot n b = - ((- n) / b)) as Hq by (rewrite <- (Z.opp_involutive n) at 1; rewrite Z.quot_opp_l, Z.quot_div_nonneg by lia; done).
  pose proof (Z.div_mod (- n) b ltac:(lia)) as Hdm. pose proof (Z.mod_pos_bound (- n) b ltac:(lia)) as Hm.
  assert (0 <= (- n) / b) as Hq0 by (apply Z.div_pos; lia).
  assert ((- n) / b < b ^ Z.of_nat k) as Hqk by (apply Z.div_lt_upper_bound; lia).
  assert ((- n) / b < - n) as Hqn by (apply Z.div_lt; lia).
  remember (S k) as k' eqn:Ek. cbn [func_10_Jzzh]. destruct (Z.eqb_spec n 0); [lia|]. destruct (Z.eqb_spec b 0); [lia|].
  rewrite int_range_dec, bool_decide_eq_true_2 by lia. cbn [mbind outcome_bind].
  destruct (Z.eq_dec ((- n) / b) 0) as [E|E].
  - rewrite Hq, E. change (- 0) with 0. rewrite Ek. cbn [func_10_Jzzh]. change (0 =? 0) with true. cbv iota.
    unfold poke. destruct (_ && _); [|done]. cbn [mbind outcome_bind]. destruct (Hstr (take (Z.to_nat 0) out ++ [0] ++ drop (Z.to_nat (0 + zlen [0])) out)) as [->|[m ->]]; [done|].
    cbn [mbind outcome_bind]. assert (Z.rem n b < 0) as Hr.
    { pose proof (Z.quot_rem' n b) as H. rewrite Hq, E in H. lia. }
    by rewrite zget_out_of_range by lia.
  - rewrite Hq, IH; [done|lia|lia].
Qed.
