(* ===== verification/LibTheorems.v ===== *)
(** * What the text and file routines of Frame_Lib guarantee

    The theorems on [lib_string.c], [lib_file.c], [lib_conf_file.c] and
    [lib_HEX.c], each applied to a concrete input. *)

From S2P Require Import Prelude LibC Buffers BasString BasStringFacts CHeap LibString LibStringFacts LibFile LibFileFacts LibHex.

(** An allocator that always has room, and never moves a block. *)
Definition roomy : Allocator := {| grants _ _ := true; junk _ _ := 7; stays _ _ := true |}.

Lemma roomy_has_room : @has_room roomy.
Proof. done. Qed.

(** ** Configuration files *)

(** C19: [Get_ValuseString_ByKey_InConfFile] answers -1 for a file that cannot
    be opened.  In a file of lines, each ended by a line feed, it finds the
    first line whose text before the first equals sign, without blanks at
    either end, is the key: it answers 0 and the rest of that line, without
    blanks at either end but with its line feed, or -1 when there is no such
    line.  All blocks it allocates are freed. *)
Theorem conf_key_found `{Allocator} lines key rk dst fuel :
  has_room -> Forall conf_line lines -> cstring key -> (length lines < fuel)%nat ->
  (forall v, conf_lookup (line_value key) lines = Some v -> zlen v < zlen dst) ->
  gives 0 (Get_ValuseString_ByKey_InConfFile fuel None (key ++ 0 :: rk) dst) (-1, dst) /\
  gives 0 (Get_ValuseString_ByKey_InConfFile fuel (Some (conf_text lines)) (key ++ 0 :: rk) dst)
    (found dst (conf_lookup (line_value key) lines)).
Proof.
  intros Hroom Hlines Hkey Hf Hdst. split; [apply gives_ret|].
  exact (key_loop_run Hroom key rk lines fuel [] dst None Hlines Hkey Hf Hdst).
Qed.

Definition sample_conf : list bytes := [lit "# ports"; lit "[net]"; lit "host = here"; lit " port =  80 "].

Lemma conf_key_found_witness :
  @becomes _ 0 (@Get_ValuseString_ByKey_InConfFile roomy 5 (Some (conf_text sample_conf)) (lit "port" ++ [0]) (replicate 8 7))
    (mret (0, lit "80 " ++ [10; 0; 7; 7; 7])).
Proof.
  apply (@conf_key_found roomy sample_conf (lit "port") [] (replicate 8 7) 5 roomy_has_room).
  - apply (bool_decide_unpack _). vm_compute. exact I.
  - apply (bool_decide_unpack _). vm_compute. exact I.
  - apply (bool_decide_unpack _). vm_compute. exact I.
  - intros v Hv. vm_compute in Hv. injection Hv as <-. apply (bool_decide_unpack _). vm_compute. exact I.
Defined.

(** A line that is not ended by a line feed within 4095 bytes, the last
    one of a file included, is undefined behaviour unless the key is found
    before: its second piece is added to a NULL string. *)
Theorem conf_unended_line_faults `{Allocator} lines rest key rk dst fuel file :
  has_room -> Forall conf_line lines -> cstring key -> (length lines + 1 < fuel)%nat ->
  conf_lookup (line_value key) lines = None -> unended rest -> file = conf_text lines ++ rest ->
  faults (Get_ValuseString_ByKey_InConfFile fuel (Some file) (key ++ 0 :: rk) dst).
Proof.
  intros Hroom Hlines Hkey Hf Hnone Hrest ->.
  pose proof (key_skip Hroom key rk rest lines fuel [] dst None Hlines Hkey ltac:(lia)) as Hs. rewrite Hnone in Hs. cbv zeta in Hs.
  destruct Hs as (p & a & Hs); [done|]. eapply becomes_faults; [exact Hs|].
  destruct (fuel - length lines)%nat as [|[|k]] eqn:E; [lia..|]. by apply unended_faults.
Qed.

Lemma conf_unended_line_faults_witness :
  faults (@Get_ValuseString_ByKey_InConfFile roomy 4 (Some (lit "port=80")) (lit "port" ++ [0]) (replicate 8 7)).
Proof.
  apply (@conf_unended_line_faults roomy [] (lit "port=80") (lit "port") [] (replicate 8 7) 4 (lit "port=80") roomy_has_room).
  - constructor.
  - apply (bool_decide_unpack _). vm_compute. exact I.
  - simpl. lia.
  - reflexivity.
  - apply (bool_decide_unpack _). vm_compute. exact I.
  - reflexivity.
Defined.



(** ** Keys and values *)

(** [Get_KeyValue_Dh_QdKg] takes apart what is written as a key and a
    value around an equals sign, whatever blanks surround them: for a key and
    a value that neither begin nor end with a blank, the key without an equals
    sign, it gives both back.  It answers NULL when there is no equals sign.
    All blocks are freed. *)
Theorem key_value_round_trip `{Allocator} key value s r dk qk dv qv (i j k l : nat) :
  has_room -> cstring key -> cstring value -> trim key = key -> trim value = value -> cut 61 key = None ->
  s = replicate i 32 ++ key ++ replicate j 32 ++ 61 :: replicate k 32 ++ value ++ replicate l 32 ->
  short s -> zlen dk = zlen s -> zlen dv = zlen s ->
  (exists qk' qv', gives 0 (Get_KeyValue_Dh_QdKg (Some (s ++ 0 :: r)) (Some (dk ++ qk)) (Some (dv ++ qv)))
    (Some (key ++ 0 :: qk', value ++ 0 :: qv'))) /\
  gives 0 (Get_KeyValue_Dh_QdKg (Some (key ++ 0 :: r)) (Some (dk ++ qk)) (Some (dv ++ qv))) None.
Proof.
  intros Hroom Hkey Hvalue Htk Htv Hcut Hs Hn Hdk Hdv.
  assert (cut 61 s = Some (replicate i 32 ++ key ++ replicate j 32, replicate k 32 ++ value ++ replicate l 32)) as Hcs.
  { rewrite Hs, (app_assoc key), app_assoc. apply cut_at. by apply cut_none_blanks. }
  assert (forall n, cstring (replicate n 32)) as Hbl by (intros n; apply Forall_replicate; done).
  assert (cstring s) as Hcstr.
  { rewrite Hs. unfold cstring in *. rewrite !Forall_app, Forall_cons, !Forall_app. split_and!; first [apply Hbl|done]. }
  pose proof (key_value_gives Hroom s r Hcstr Hn dk qk dv qv _ _ Hcs Hdk Hdv) as (qk' & qv' & Hkv).
  rewrite !trim_blanks in Hkv by done. split; [by exists qk', qv'|]. by apply key_value_none.
Qed.

Lemma key_value_round_trip_witness :
  exists qk qv, @becomes _ 0 (@Get_KeyValue_Dh_QdKg roomy (Some (lit " name  = a = b " ++ [0])) (Some (replicate 16 1)) (Some (replicate 15 2)))
    (mret (Some (lit "name" ++ 0 :: qk, lit "a = b" ++ 0 :: qv))).
Proof.
  refine (proj1 (@key_value_round_trip roomy (lit "name") (lit "a = b") (lit " name  = a = b ") [] (replicate 15 1) [1] (replicate 15 2) [] 1 2 1 1
    roomy_has_room _ _ _ _ _ _ _ _ _)); try reflexivity; apply (bool_decide_unpack _); vm_compute; exact I.
Defined.

(** ** Strings in place *)

(** The routines that change a string in its array leave exactly the
    changed string, NULs up to the old terminator and what was behind it, and
    free what they allocate: [Del_Char] all characters but the given one,
    [Dx_String_Yzfc] the string backwards, [Trim_Before], [Trim_Behind] and
    [Trim] the string without blanks at an end, [Trim_Kg_Hh] without line
    feeds and then without blanks at either end. *)
Theorem strings_edited_in_place `{Allocator} s r c :
  has_room -> cstring s -> short s ->
  gives 0 (Del_Char (Some (s ++ 0 :: r)) c) (Some (shortened s (without c s) r)) /\
  gives 0 (Dx_String_Yzfc (Some (s ++ 0 :: r))) (Some (shortened s (reverse s) r)) /\
  gives 0 (Trim_Before (s ++ 0 :: r)) (shortened s (lstrip s) r) /\
  gives 0 (Trim_Behind (s ++ 0 :: r)) (Some (shortened s (rstrip s) r)) /\
  gives 0 (Trim (s ++ 0 :: r)) (shortened s (rstrip (lstrip s)) r) /\
  gives 0 (Trim_Kg_Hh (Some (s ++ 0 :: r))) (Some (shortened s (rstrip (lstrip (without 10 s))) r)).
Proof.
  intros Hroom Hs Hn. split; [by apply del_char_gives|]. split; [by apply reverse_in_place|]. split; [by apply trim_before_in_place|].
  split; [by apply trim_behind_gives|]. split; [by apply trim_in_place|]. destruct (without_zlen 10 s) as [Hl Hc].
  eapply gives_bind_0; [by apply del_char_gives|]. cbn beta iota.
  eapply gives_bind_0; [apply trim_in_place; [done|by apply Hc|unfold short in *; lia]|].
  rewrite shortened_twice; [apply gives_ret| |done]. destruct shortens_trim as [Ht _]. apply Ht.
Qed.

Lemma strings_edited_in_place_witness :
  @becomes _ 0 (@Trim_Kg_Hh roomy (Some ([32; 97; 10; 98; 32] ++ [0; 9]))) (mret (Some [97; 98; 0; 0; 0; 0; 9])).
Proof.
  refine (proj2 (proj2 (proj2 (proj2 (proj2 (@strings_edited_in_place roomy [32; 97; 10; 98; 32] [9] 0 roomy_has_room _ _))))));
    apply (bool_decide_unpack _); vm_compute; exact I.
Defined.

(** [Replace_Str_To_Str_OrderByCount] never replaces anything: for no
    arguments, no count and no state of the allocator does it return its
    destination.  The count it relies on is -1 whenever [Count_ChildStr_Num]
    ends, which it does for every pattern that is not empty; for an empty one
    it never does. *)
Theorem replace_never_succeeds `{Allocator} fuel src dst th_src th_dst order h res h' :
  Replace_Str_To_Str_OrderByCount fuel src dst th_src th_dst order h = Ok (res, h') ->
  res = None /\
  (forall s r p q, cstring s -> short s -> cstring p -> p <> [] ->
     Count_ChildStr_Num (S (length s)) (s ++ 0 :: r) (p ++ 0 :: q) = Ok (-1)) /\
  (forall s r q n z, cstring s -> Count_ChildStr_Num n (s ++ 0 :: r) (0 :: q) <> Ok z).
Proof.
  intros Hr. split; [|split].
  - unfold Replace_Str_To_Str_OrderByCount in Hr. destruct src as [src|], dst as [dst|], th_src as [p|], th_dst as [q|];
      try (change (Ok (@None bytes, h) = Ok (res, h')) in Hr; congruence). unfold mbind, cmd_bind, lift in Hr. ok_inv Hr. ok_inv E. injection E as <-. cbn [fst snd] in Hr.
    apply count_child_result in E0 as ->. destruct (Z.ltb_spec (-1) order); [change (Ok (@None bytes, h) = Ok (res, h')) in Hr; congruence|].
    unfold mbind, cmd_bind, lift in Hr. ok_inv Hr. ok_inv E. injection E as <-. cbn [fst snd] in Hr.
    destruct a0 as [i|]; [|change (Ok (@None bytes, h) = Ok (res, h')) in Hr; congruence]. apply order_loop_result in E0; lia.
  - intros s r p q Hs Hn Hp Hne. apply (count_child_ends s r p q Hs Hn Hp Hne); cbn; pose proof (zlen_nonneg s); unfold zlen in *; lia.
  - intros s r q n z Hs. apply count_empty_loops; [done|]. cbn. pose proof (zlen_nonneg s). lia.
Qed.

Lemma replace_never_succeeds_witness :
  @Replace_Str_To_Str_First roomy 20 (Some (lit "0123456789" ++ [0])) (Some (replicate 20 0)) (Some (lit "56" ++ [0])) (Some (lit "abc" ++ [0]))
    (mk_heap 0 0) = Ok (None, mk_heap 0 0) /\ @None bytes = None.
Proof.
  assert (@Replace_Str_To_Str_OrderByCount roomy 20 (Some (lit "0123456789" ++ [0])) (Some (replicate 20 0)) (Some (lit "56" ++ [0])) (Some (lit "abc" ++ [0])) 1
    (mk_heap 0 0) = Ok (None, mk_heap 0 0)) as Hrun by (vm_compute; reflexivity).
  split; [exact Hrun|exact (proj1 (@replace_never_succeeds roomy _ _ _ _ _ _ _ _ _ Hrun))].
Defined.

(** [Get_Point_Dkh_Between] fails unless the string has as many closing
    as opening brackets of the kind, and at least one; otherwise the start is
    the first opening bracket, but the end is the last character of the
    string, whatever it is. *)
Theorem bracket_end_is_last_character s r ch cs :
  cstring s -> short s -> brackets_of ch = Some cs ->
  Get_Point_Dkh_Between (s ++ 0 :: r) ch =
  Ok (match cut cs.1 s with
      | Some (a, _) => if countb (Z.eqb cs.1) s =? countb (Z.eqb cs.2) s then Some (zlen a, zlen s - 1) else None
      | None => None
      end).
Proof.
  intros Hs Hn Hch. unfold Get_Point_Dkh_Between, bracket_loop. rewrite Hch, int_strlen_run by done. cbn [mbind outcome_bind].
  unfold zlen at 1. rewrite Nat2Z.id.
  destruct (bracket_loop_from cs r s (brackets_distinct ch cs Hch) [] (mk_brackets 0 0 0 0)) as (st & Hrun & H1 & H2 & H3 & H4); [by repeat split|].
  change (zlen []) with 0 in Hrun. cbn [app] in *. rewrite Hrun. cbn [mbind outcome_bind]. rewrite H1, H2, H3.
  pose proof (cut_none_countb cs.1 s) as Hc. destruct (cut cs.1 s) as [[a b]|] eqn:E; cbn [fst].
  - destruct (Z.eqb_spec 0 (countb (Z.eqb cs.1) s)) as [E0|_]; [by destruct Hc as [_ Hc]; discriminate (Hc (eq_sym E0))|]. cbn [orb].
    destruct (Z.eqb_spec (countb (Z.eqb cs.1) s) (countb (Z.eqb cs.2) s)) as [Ec|]; [|done]. cbn [negb].
    rewrite H4; [done|by destruct s|congruence].
  - destruct Hc as [Hc _]. rewrite Hc by done. done.
Qed.

Lemma bracket_end_is_last_character_witness :
  Get_Point_Dkh_Between (lit "f(a) + b" ++ [0]) 40 = Ok (Some (1, 7)).
Proof.
  rewrite (bracket_end_is_last_character (lit "f(a) + b") [] 40 (40, 41)); [vm_compute; reflexivity|..|reflexivity];
    apply (bool_decide_unpack _); vm_compute; exact I.
Defined.

(** [Is_Digit_ByString] decides whether a string is made of digits, or of
    digits, a point and digits. *)
Theorem decimal_decided s r :
  cstring s -> short s ->
  exists z, Is_Digit_ByString (s ++ 0 :: r) = Ok z /\ (z = 0 \/ z = 1) /\
    (z = 1 <-> all_digits s \/ exists a b, s = a ++ 46 :: b /\ a <> [] /\ b <> [] /\ all_digits a /\ all_digits b).
Proof.
  intros Hs Hn. rewrite is_digit_run by done. eexists. split; [reflexivity|]. split; [destruct (decimal s); auto|].
  transitivity (decimal s = true); [by destruct (decimal s)|]. apply decimal_spec.
Qed.

Lemma decimal_decided_witness :
  exists z, Is_Digit_ByString (lit "12.5" ++ [0]) = Ok z /\ (z = 0 \/ z = 1) /\
    (z = 1 <-> all_digits (lit "12.5") \/ exists a b, lit "12.5" = a ++ 46 :: b /\ a <> [] /\ b <> [] /\ all_digits a /\ all_digits b).
Proof. apply (decimal_decided (lit "12.5") []); apply (bool_decide_unpack _); vm_compute; exact I. Defined.

(** Even when the counters start at 0, [Is_EnglishChar_Digit_ByString]
    refuses exactly the strings with a letter, answers 1 for digits, and 5 for
    any other string without letters. *)
Theorem letters_refused s r :
  cstring s -> short s ->
  Is_EnglishChar_Digit_ByString (λ _, (0, 0)) (s ++ 0 :: r) =
  Ok (if existsb isalpha s then 0 else if forallb isdigit s then 1 else 5).
Proof.
  intros Hs Hn. unfold Is_EnglishChar_Digit_ByString. rewrite int_strlen_run by done. cbn [mbind outcome_bind].
  replace (Z.to_nat (zlen s)) with (length s) by (unfold zlen; lia).
  pose proof (english_digit_loop_run r s [] 0 Hs) as Hrun. change (zlen []) with 0 in Hrun. cbn [app] in Hrun. rewrite Hrun. cbn [mbind outcome_bind].
  destruct (existsb isalpha s); [done|]. rewrite Z.add_0_l, forallb_countb. destruct (Z.eqb_spec (zlen s) (countb isdigit s)); [done|].
  destruct (Z.eqb_spec (zlen s) 0) as [E|]; [|done]. pose proof (countb_bounds isdigit s). lia.
Qed.

Lemma letters_refused_witness :
  Is_EnglishChar_Digit_ByString (λ _, (0, 0)) (lit "a1" ++ [0]) = Ok 0 /\
  Is_EnglishChar_Digit_ByString (λ _, (0, 0)) (lit "?!" ++ [0]) = Ok 5.
Proof.
  split; [rewrite (letters_refused (lit "a1") [])|rewrite (letters_refused (lit "?!") [])];
    first [reflexivity|apply (bool_decide_unpack _); vm_compute; exact I].
Defined.

(** ** Lines of a file *)

(** Calling [GetFileLine_Malloc] again and again takes a file apart into
    its lines: for each line ended by a line feed its length and the line, for
    a last line without one -1 and the line, then -2.  Each line is in a block
    of its own. *)
Theorem file_lines_read `{Allocator} lines last :
  has_room -> Forall file_line lines -> file_line last ->
  (last <> [] ->
   gives (zlen lines + 1) (file_lines (length lines + 2) (at_rest [] (conf_text lines ++ last)))
     (map line_result lines ++ [(-1, Some (last ++ [0])); (-2, None)])) /\
  gives (zlen lines) (file_lines (length lines + 1) (at_rest [] (conf_text lines))) (map line_result lines ++ [(-2, None)]).
Proof.
  intros Hroom Hlines [Hl Hn]. split.
  - intros Hne. apply file_lines_run; [done|done|]. intros a. cbn [file_lines].
    eapply (gives_bind 1 0); [by apply file_line_last| |done]. cbn [fst snd].
    eapply gives_bind_0; [eapply gives_bind_0; [apply file_line_end|]; cbn [fst snd]; eapply gives_bind_0; apply gives_ret|apply gives_ret].
  - rewrite <- (Z.add_0_r (zlen lines)), <- (app_nil_r (conf_text lines)). apply file_lines_run; [done|done|]. intros a. cbn [file_lines].
    eapply gives_bind_0; [apply file_line_end|]. cbn [fst snd]. eapply gives_bind_0; apply gives_ret.
Qed.

Lemma file_lines_read_witness :
  @becomes _ 3 (@file_lines roomy 4 (at_rest [] (lit "ab" ++ [10; 10] ++ lit "c")))
    (mret [(2, Some (lit "ab" ++ [0])); (0, Some [0]); (-1, Some (lit "c" ++ [0])); (-2, None)]).
Proof.
  refine (proj1 (@file_lines_read roomy [lit "ab"; []] (lit "c") roomy_has_room _ _) _); [..|done];
    apply (bool_decide_unpack _); vm_compute; exact I.
Defined.

(** [GetFileRowCount] looks for the line feed behind the terminator: it counts
    no lines, in any file. *)
Theorem no_rows_counted data n : GetFileRowCount (Some data) n = Ok (0, 0).
Proof.
  unfold GetFileRowCount. cbn [fopen_r fmap option_fmap option_map f_data].
  pose proof (row_loop_run (S (length data)) (memset 0 1024) [] data eq_refl ltac:(lia)) as Hrun.
  change (at_rest [] data) with (mk_file data 0) in Hrun. by rewrite Hrun.
Qed.

(** [Del_Char_File] opens the file with "w+": it is emptied, and nothing is
    left to read. *)
Theorem del_char_file_empties `{Allocator} fuel data c : gives 0 (Del_Char_File (S fuel) (Some data) c) (0, Some []).
Proof.
  unfold Del_Char_File. cbn [fopen_w fmap option_fmap option_map del_file_loop]. apply (gives_bind_0 0 _ (0, at_rest [] [])); [|apply gives_ret].
  eapply gives_lift_bind; [exact (fgets_end (memset 0 10240) 10240 [] eq_refl)|apply gives_ret].
Qed.

(** [GetString_YYYYMMDD] pads nothing: two days have the same text. *)
Lemma date_text_ambiguous :
  GetString_YYYYMMDD 1420934400 (replicate 10 7) = Ok (lit "2015111" ++ [0; 0; 7]) /\
  GetString_YYYYMMDD 1446336000 (replicate 10 7) = Ok (lit "2015111" ++ [0; 0; 7]).
Proof. split; vm_compute; reflexivity. Qed.

(** ** Number bases *)

(** A number that is not negative, written by [From_10Jz_To_16Jz],
    [From_10Jz_To_8Jz] or [From_10Jz_To_2Jz], is read back by the routine for
    the same base.  (The binary text is not terminated; a NUL is put behind
    it.)  For a negative number the first two routines access their digits
    with a negative index. *)
Theorem numbers_read_back `{Allocator} n d8 d16 d2 r :
  has_room -> 0 <= n <= 2147483647 ->
  zlen d16 = zlen (digits_of 11 16 n) + 1 -> zlen d8 = zlen (digits_of 11 8 n) + 1 -> zlen d2 = 32 ->
  (exists t, From_10Jz_To_16Jz n (d16 ++ r) = Ok (t ++ 0 :: r) /\ From_16Jz_To_10Jz (t ++ 0 :: r) = Ok n) /\
  (exists t, From_10Jz_To_8Jz n (d8 ++ r) = Ok (t ++ 0 :: r) /\ From_8Jz_To_10Jz (t ++ 0 :: r) = Ok n) /\
  (exists t, From_10Jz_To_2Jz n (d2 ++ 0 :: r) = Ok (t ++ 0 :: r) /\ gives 1 (From_2Jz_To_10Jz (t ++ 0 :: r)) n) /\
  (forall m out, -2147483648 <= m < 0 -> From_10Jz_To_16Jz m out = Fault /\ From_10Jz_To_8Jz m out = Fault).
Proof.
  intros Hroom Hn H16 H8 H2. destruct (int_digits n Hn) as [Hn8 Hn16].
  destruct (number_text_value 16 n ltac:(lia) Hn16) as (Hv16 & Hd16 & Hl16). destruct (number_text_value 8 n ltac:(lia) Hn8) as (Hv8 & Hd8 & Hl8).
  split; [eexists|split; [eexists|split; [eexists|]]].
  - split; [apply (jzzh_run 16 ltac:(lia) r 11 n d16); [done|lia|done|lia]|]. apply from_16Jz_run; [done|done|done|lia].
  - split; [apply (jzzh_run 8 ltac:(lia) r 11 n d8); [done|lia|done|lia]|]. apply from_8Jz_run; [done|done|lia].
  - split; [by apply from_10Jz_to_2Jz_run|]. apply from_2Jz_run; [done|done|apply bits_cchar| |lia].
    rewrite bits_number. rewrite Z.mod_small; [lia|]. change (2 ^ Z.of_nat 32) with 4294967296. lia.
  - intros m out Hm. change (8 ^ Z.of_nat 11) with 8589934592 in *. change (16 ^ Z.of_nat 11) with 17592186044416 in *.
    split; (apply (jzzh_negative _ out 11); [lia|done|]); [change (16 ^ Z.of_nat 11) with 17592186044416|change (8 ^ Z.of_nat 11) with 8589934592]; lia.
Qed.

Lemma numbers_read_back_witness :
  exists t, From_10Jz_To_16Jz 35 (replicate 3 1 ++ [5]) = Ok (t ++ [0; 5]) /\ From_16Jz_To_10Jz (t ++ [0; 5]) = Ok 35.
Proof.
  refine (proj1 (@numbers_read_back roomy 35 (replicate 3 1) (replicate 3 1) (replicate 32 1) [5] roomy_has_room _ _ _ _));
    first [lia|reflexivity].
Defined.

(** [convert_charto8bit] writes the eight bits of a character;
    [Char_To_StrBin] writes the same for the low seven, but 0 for the highest
    bit: a [char] is never 128. *)
Theorem highest_bit_lost a c d r :
  0 <= c < 256 -> zlen d = 9 ->
  Char_To_StrBin c (a ++ d ++ r) (zlen a) = Ok (a ++ (48 :: bits_of 7 c) ++ 0 :: r).
Proof. apply char_to_strbin_run. Qed.
