(* ===== verification/LibDoFile.v ===== *)
(** * Rewriting source files ([Do_File] of [lib_file.c]): definitions

    [Do_File] copies a file, line by line, in one of many ways that a letter
    selects.  The files are a map from names to bytes; an output is written
    from its beginning to its end, so it is the list of what was printed.  The
    log messages are left out. *)

From S2P Require Import Prelude LibC Buffers CHeap LibString LibFile.

(** ** The letters *)

Definition _IF_LINE_ONLY_TAB_DO_DELETE_ALL_TAB_ : Z := 116.
Definition _IF_LINE_ONLY_KG_DO_DELETE_ALL_KG_ : Z := 115.
Definition _IF_LINE_ONLY_KG_AND_TABL_DO_DELETE_ALL_ : Z := 97.
Definition _LINE_HEAD_ALL_TAB_DO_REPLACE_FOUR_KG_ : Z := 98.
Definition _LINE_HEAD_ALL_FOUR_KG_DO_REPLACE_TAB_ : Z := 99.
Definition _MULTIPLE_HH_DO_REPLACE_TWO_HH_ : Z := 100.
Definition _WINDOWS_HH_DO_REPLACE_UNIX_HH_ : Z := 117.
Definition _UNIX_HH_DO_REPLACE_WINDOWS_HH_ : Z := 119.
Definition _TAB_DQBQ_ : Z := 101.
Definition _FOUR_KG_DQBQ_ : Z := 102.
Definition _NO_HAVA_ANY_SJ_DO_ADD_FOUR_KG_DQBQ_ : Z := 122.
Definition _DELETE_LINE_LEFT_RIGHT_KG_ : Z := 103.
Definition _DELETE_ALL_TAB_EMPTY_LINE_ : Z := 107.
Definition _DELETE_ALL_KG_EMPTY_LINE_ : Z := 109.
Definition _DELETE_ALL_HHFH_EMPTY_LINE_ : Z := 110.
Definition _DELETE_ALL_TAB_KG_EMPTY_LINE_ : Z := 113.
Definition _PUT_FILE_ALL_FUN_FROM_SRC_ : Z := 120.
Definition _PUT_FILE_SHOW_ALL_FUN_FROM_HEADFILE_ : Z := 121.

(** ** One line

    [sTmp] is the text of the line, up to the terminator [fgets] wrote. *)

(** The characters that set [iFlag] in the modes for lines of blanks only. *)
Definition other_char (cFlag c : Z) : bool :=
  ((cFlag =? _IF_LINE_ONLY_KG_AND_TABL_DO_DELETE_ALL_) && (negb (c =? 9) && negb (c =? 32))) ||
  ((cFlag =? _IF_LINE_ONLY_TAB_DO_DELETE_ALL_TAB_) && negb (c =? 9)) ||
  ((cFlag =? _IF_LINE_ONLY_KG_DO_DELETE_ALL_KG_) && negb (c =? 32)).

Definition blank_line (cFlag : Z) (sTmp : bytes) : bytes :=
  if existsb (other_char cFlag) sTmp then sTmp else [10].

(** The same for the modes that delete lines; line feeds are passed over. *)
Definition kept_char (cFlag c : Z) : bool :=
  negb (c =? 10) &&
  (((cFlag =? _DELETE_ALL_TAB_KG_EMPTY_LINE_) && (negb (c =? 9) && negb (c =? 32) && negb (c =? 32))) ||
   ((cFlag =? _DELETE_ALL_TAB_EMPTY_LINE_) && negb (c =? 9)) ||
   ((cFlag =? _DELETE_ALL_KG_EMPTY_LINE_) && negb (c =? 32)) ||
   ((cFlag =? _DELETE_ALL_HHFH_EMPTY_LINE_) && negb (c =? 10))).

Definition deleted_line (cFlag : Z) (sTmp : bytes) : bytes :=
  if existsb (kept_char cFlag) sTmp then sTmp else [].

(** [sTmp\[i\]]; [below] is the byte the compiler placed before the array. *)
Definition line_at (below : Z) (sTmp : bytes) (i : Z) : outcome Z :=
  if i =? -1 then Ok below else zget (sTmp ++ [0]) i.

(** Whether the line ends with a line feed, and [c] holds of the character
    before it. *)
Definition ends_with (below : Z) (c : Z -> bool) (sTmp : bytes) : outcome bool :=
  last ← line_at below sTmp (zlen sTmp - 1);
  if negb (last =? 10) then Ok false
  else before ← line_at below sTmp (zlen sTmp - 2); Ok (c before).

Definition unix_line (below : Z) (sTmp : bytes) : outcome bytes :=
  windows ← ends_with below (λ c, c =? 13) sTmp;
  if windows : bool then sTmp1 ← peek sTmp 0 (zlen sTmp - 2); Ok (sTmp1 ++ [10]) else Ok sTmp.

Definition windows_line (below : Z) (sTmp : bytes) : outcome bytes :=
  unix ← ends_with below (λ c, negb (c =? 13)) sTmp;
  if unix : bool then sTmp1 ← peek sTmp 0 (zlen sTmp - 1); Ok (sTmp1 ++ [13; 10]) else Ok sTmp.

Definition four_blanks : bytes := [32; 32; 32; 32].

(** The tabs at the head of a line. *)
Fixpoint spaces_line (sTmp : bytes) : bytes :=
  match sTmp with
  | [] => []
  | c :: rest =>
      if negb (c =? 9) && negb (c =? 32) then sTmp
      else if c =? 9 then four_blanks ++ spaces_line rest
      else 32 :: spaces_line rest
  end.

(** Four blanks at the head of a line; [strncmp("    ", sTmp + i, 4)]. *)
Definition is_four (a b c d : Z) : bool := (a =? 32) && (b =? 32) && (c =? 32) && (d =? 32).

Fixpoint tabs_line (sTmp : bytes) : bytes :=
  match sTmp with
  | a :: ((b :: c :: d :: rest) as next) =>
      if negb (a =? 9) && negb (is_four a b c d) then sTmp
      else if is_four a b c d then 9 :: tabs_line rest
      else (if a =? 9 then [9] else []) ++ tabs_line next
  | _ => sTmp
  end.

(** The variables outside the loop: the depth of the braces, the state of the
    [switch], and the buffer of the modes that list functions. *)
Record do_state : Type := mk_do {
  iFlag_Dkh : Z;
  iFlag_Switch : Z;
  iFlag_Tmp : Z;
  sBig_Buf : option bytes;
  iSize_Kh : Z;
}.

Definition has_text (s sTmp : bytes) : bool := bool_decide (find_sub s sTmp <> None).

(** [strstr(sTmp, brace) && !strncmp(sTmp, brace "\n", 2)] *)
Definition brace_line (brace : Z) (sTmp : bytes) : bool :=
  has_text [brace] sTmp && (strncmp 2 sTmp [brace; 10] =? 0).

(** The text before a line: [strcat(sTmp1, "    ")] for every brace, and once
    more inside a [switch]. *)
Definition indent_text (iFlag_Dkh : Z) (more : bool) : outcome bytes :=
  sTmp1 ← for_loop (Z.to_nat iFlag_Dkh) 0 1 (λ _ b, b ← strcat b (four_blanks ++ [0]); Ok (b, true)) (memset 0 4096);
  sTmp1 ← (if more then strcat sTmp1 (four_blanks ++ [0]) else Ok sTmp1);
  Ok (content sTmp1).

Definition indent_line (st : do_state) (sTmp : bytes) : outcome (bytes * do_state) :=
  st ← (if brace_line 125 sTmp then
          dkh ← int_range (iFlag_Dkh st - 1);
          Ok (if iFlag_Tmp st =? dkh then mk_do dkh 0 (-1) (sBig_Buf st) (iSize_Kh st)
              else mk_do dkh (iFlag_Switch st) (iFlag_Tmp st) (sBig_Buf st) (iSize_Kh st))
        else Ok st);
  sTmp1 ← indent_text (iFlag_Dkh st) ((0 <? iFlag_Switch st) && negb (has_text (lit "case") sTmp));
  let out := if (zlen sTmp =? 1) && (strncmp 1 sTmp [10] =? 0) then sTmp else sTmp1 ++ sTmp in
  dkh ← (if brace_line 123 sTmp then int_range (iFlag_Dkh st + 1) else Ok (iFlag_Dkh st));
  if has_text (lit "switch") sTmp then
    switch ← int_range (iFlag_Switch st + 1);
    Ok (out, mk_do dkh switch (if switch =? 1 then dkh else iFlag_Tmp st) (sBig_Buf st) (iSize_Kh st))
  else Ok (out, mk_do dkh (iFlag_Switch st) (iFlag_Tmp st) (sBig_Buf st) (iSize_Kh st)).

(** The functions of a source are first collected. *)
Definition collect_line (st : do_state) (sTmp : bytes) : outcome do_state :=
  buf ← or_fault (sBig_Buf st);
  buf ← poke buf (iSize_Kh st) sTmp;
  Ok (mk_do (iFlag_Dkh st) (iFlag_Switch st) (iFlag_Tmp st) (Some buf) (iSize_Kh st + zlen sTmp)).

Definition lists_functions (cFlag : Z) : bool :=
  (cFlag =? _PUT_FILE_ALL_FUN_FROM_SRC_) || (cFlag =? _PUT_FILE_SHOW_ALL_FUN_FROM_HEADFILE_).

(** The body of the loop over the lines: what is printed, and the state. *)
Definition line_step (below cFlag : Z) (st : do_state) (sTmp : bytes) : outcome (bytes * do_state) :=
  if (cFlag =? _IF_LINE_ONLY_KG_AND_TABL_DO_DELETE_ALL_) || (cFlag =? _IF_LINE_ONLY_KG_DO_DELETE_ALL_KG_) ||
     (cFlag =? _IF_LINE_ONLY_TAB_DO_DELETE_ALL_TAB_) then Ok (blank_line cFlag sTmp, st)
  else if cFlag =? _WINDOWS_HH_DO_REPLACE_UNIX_HH_ then out ← unix_line below sTmp; Ok (out, st)
  else if cFlag =? _UNIX_HH_DO_REPLACE_WINDOWS_HH_ then out ← windows_line below sTmp; Ok (out, st)
  else if cFlag =? _LINE_HEAD_ALL_TAB_DO_REPLACE_FOUR_KG_ then Ok (spaces_line sTmp, st)
  else if cFlag =? _LINE_HEAD_ALL_FOUR_KG_DO_REPLACE_TAB_ then Ok (tabs_line sTmp, st)
  else if cFlag =? _NO_HAVA_ANY_SJ_DO_ADD_FOUR_KG_DQBQ_ then indent_line st sTmp
  else if cFlag =? _DELETE_LINE_LEFT_RIGHT_KG_ then Ok (sTmp, st)
  else if (cFlag =? _DELETE_ALL_TAB_EMPTY_LINE_) || (cFlag =? _DELETE_ALL_KG_EMPTY_LINE_) ||
     (cFlag =? _DELETE_ALL_HHFH_EMPTY_LINE_) || (cFlag =? _DELETE_ALL_TAB_KG_EMPTY_LINE_) then
    Ok (deleted_line cFlag sTmp, st)
  else if lists_functions cFlag then st ← collect_line st sTmp; Ok ([], st)
  else Ok ([], st).

(** ** One file *)

(** The line feeds of a file: [iChar_Flag] counts those not yet written. *)
Fixpoint feed_loop (iChar_Flag : Z) (input : bytes) : bytes :=
  match input with
  | [] => []
  | iChar :: input =>
      if iChar =? 10 then feed_loop (iChar_Flag + 1) input
      else
        (if iChar_Flag =? 1 then [10; iChar]
         else if 2 <=? iChar_Flag then [10; 10; iChar]
         else if iChar_Flag =? 0 then [iChar] else []) ++ feed_loop 0 input
  end.

Section do_file.
(** The size of a line buffer ([_LINE_MAX_], which no header of the library
    defines), the byte before the buffer, which files can be written, and the
    block [malloc] gives for a size. *)
Context (LINE_MAX below : Z) (writable : bytes -> bool) (malloc_block : Z -> option bytes).

(** The loop over the lines: everything printed, and the state. *)
Fixpoint lines_loop (fuel : nat) (cFlag : Z) (fpFile : FILE) (st : do_state) : outcome (bytes * do_state) :=
  match fuel with
  | O => NoFuel
  | S fuel =>
      r ← fgets (memset 0 LINE_MAX) LINE_MAX fpFile;
      match r.1 with
      | None => Ok ([], st)
      | Some sTmp =>
          out ← line_step below cFlag st (content sTmp);
          rest ← lines_loop fuel cFlag r.2 out.2;
          Ok (out.1 ++ rest.1, rest.2)
      end
  end.

(** The loop behind it looks for braces in the collected text, which has no
    terminator of its own; [Get_Point_Dkh_Between] returns an [int], so a place
    that is found is not a pointer any more. *)
Definition print_functions (st : do_state) : outcome unit :=
  buf ← or_fault (sBig_Buf st);
  found ← Get_Point_Dkh_Between buf 123;
  match found with None => Ok tt | Some _ => Fault end.

(** What the two branches print for the contents of the input. *)
Definition rewritten (cFlag : Z) (sBig_Buf : option bytes) (data : bytes) : outcome bytes :=
  if cFlag =? _MULTIPLE_HH_DO_REPLACE_TWO_HH_ then Ok (feed_loop 0 data)
  else
    out ← lines_loop (S (length data)) cFlag (mk_file data 0) (mk_do 0 0 (-1) sBig_Buf 0);
    _ ← (if lists_functions cFlag then print_functions out.2 else Ok tt);
    Ok out.1.

(** The files by their names. *)
Abbreviation files := (gmap bytes bytes).

(** [sNewFile] after [sprintf] when it was empty; the name has to fit. *)
Definition output_name (sFileName sNewFile : bytes) : outcome bytes :=
  n ← strlen sNewFile;
  if n =? 0 then sprintf_to sNewFile (content sFileName ++ lit "_outtmp") else Ok sNewFile.

(** The part of [Do_File] behind its first [if]: [sNewFile] and the files
    afterwards.  When a file does not open, its NULL goes to [fclose]. *)
Definition rewrite_file (sFileName sNewFile : bytes) (cFlag : Z) (fs : files) : outcome (bytes * files) :=
  let sBig_Buf := if lists_functions cFlag then malloc_block (Get_FileSize (fs !! content sFileName)) else None in
  sNewFile ← output_name sFileName sNewFile;
  if bool_decide (fs !! content sFileName = None) then Fault
  else if negb (writable (content sNewFile)) then Fault
  else
    let fs := <[content sNewFile := []]> fs in
    out ← rewritten cFlag sBig_Buf (default [] (fs !! content sFileName));
    Ok (sNewFile, <[content sNewFile := out]> fs).

(** [remove(name)] and [rename(old, new)]: 0, or -1 when there is no such
    file. *)
Definition remove_file (name : bytes) (fs : files) : Z * files :=
  if bool_decide (fs !! name = None) then (-1, fs) else (0, delete name fs).
Definition rename_file (old new : bytes) (fs : files) : Z * files :=
  match fs !! old with
  | None => (-1, fs)
  | Some data => (0, <[new := data]> (delete old fs))
  end.

(** A step that returns -1 unless it succeeds, and the steps behind it. *)
Definition or_return (r : Z * files) (rest : files -> Z * files) : Z * files :=
  if r.1 =? 0 then rest r.2 else (-1, r.2).

(** The first [if]: what was returned (0 for going on), [sNewFile], the
    files. *)
Definition align_file (sFileName sNewFile : bytes) (cFlag : Z) (fs : files) : outcome (Z * bytes * files) :=
  r ← rewrite_file sFileName sNewFile _LINE_HEAD_ALL_TAB_DO_REPLACE_FOUR_KG_ fs;
  let sNewFile := r.1 in
  r ← rewrite_file sNewFile (memset 0 256) _DELETE_LINE_LEFT_RIGHT_KG_ r.2;
  let sNewFile1 := r.1 in
  r ← rewrite_file sNewFile1 (memset 0 256) _WINDOWS_HH_DO_REPLACE_UNIX_HH_ r.2;
  let sNewFile2 := r.1 in
  r ← rewrite_file sNewFile1 (memset 0 256) _NO_HAVA_ANY_SJ_DO_ADD_FOUR_KG_DQBQ_ r.2;
  let sNewFile3 := r.1 in
  if cFlag =? _TAB_DQBQ_ then
    r ← rewrite_file sNewFile2 (memset 0 256) _LINE_HEAD_ALL_FOUR_KG_DO_REPLACE_TAB_ r.2;
    let sNewFile4 := r.1 in
    let ends := or_return (remove_file (content sNewFile1) r.2) (λ fs,
      or_return (remove_file (content sNewFile2) fs) (λ fs,
      or_return (remove_file (content sNewFile3) fs) (λ fs,
      or_return (rename_file (content sNewFile4) (content sNewFile) fs) (λ fs, (0, fs))))) in
    Ok (ends.1, sNewFile, ends.2)
  else
    let ends := or_return (remove_file (content sNewFile1) r.2) (λ fs,
      or_return (remove_file (content sNewFile2) fs) (λ fs,
      or_return (rename_file (content sNewFile3) (content sNewFile) fs) (λ fs, (0, fs)))) in
    Ok (ends.1, sNewFile, ends.2).

(** The result ([None]: the end is reached without a [return]), [sOutFile] and
    the files. *)
Definition Do_File (sInfile sOutFile : bytes) (iFlag : Z) (fs : files) : outcome (option Z * bytes * files) :=
  if (iFlag =? _FOUR_KG_DQBQ_) || (iFlag =? _TAB_DQBQ_) then
    r ← align_file sInfile sOutFile iFlag fs;
    if r.1.1 =? 0 then
      r ← rewrite_file sInfile r.1.2 iFlag r.2; Ok (None, r.1, r.2)
    else Ok (Some (-1), r.1.2, r.2)
  else r ← rewrite_file sInfile sOutFile iFlag fs; Ok (None, r.1, r.2).
End do_file.
