(* ===== verification/LibDoFileFacts.v ===== *)
(** * What [Do_File] makes of a file

    The loop over the lines, then the modes: deleted lines, line ends, tabs and
    blanks, braces, and the modes that never do their work. *)

From S2P Require Import Prelude LibC Buffers CHeap LibString LibStringFacts LibFile LibDoFile.

(** ** The loop over the lines *)

(** A file: lines, and a last one without a line feed. *)
Definition ended (l : bytes) : bytes := l ++ [10].
Definition file_text (lines : list bytes) (tail : bytes) : bytes := concat (map ended lines) ++ tail.

(** What [fgets] reads one by one. *)
Definition chunks (lines : list bytes) (tail : bytes) : list bytes :=
  map ended lines ++ (if bool_decide (tail = []) then [] else [tail]).

(** A line without a line feed that leaves [k] bytes of a buffer. *)
Definition fits (LINE_MAX k : Z) (l : bytes) : Prop := cstring l /\ 10 ∉ l /\ zlen l + k <= LINE_MAX.

#[export] Instance fits_dec LINE_MAX k l : Decision (fits LINE_MAX k l).
Proof. unfold fits. apply _. Defined.

Lemma fits_mono LINE_MAX j k l : j <= k -> fits LINE_MAX k l -> fits LINE_MAX j l.
Proof. intros Hj (? & ? & ?). split_and!; [done..|lia]. Qed.

Lemma fits_nil LINE_MAX k : k <= LINE_MAX -> fits LINE_MAX k [].
Proof. intros Hk. split_and!; [by apply Forall_nil|apply not_elem_of_nil|exact Hk]. Qed.

Lemma no_feeds l : 10 ∉ l -> Forall (λ c, c <> 10) l.
Proof. intros H. apply Forall_forall. intros c Hc ->. done. Qed.

(** The body of the loop over all lines. *)
Fixpoint line_steps (below cFlag : Z) (st : do_state) (cs : list bytes) : outcome (bytes * do_state) :=
  match cs with
  | [] => Ok ([], st)
  | c :: cs =>
      out ← line_step below cFlag st c;
      rest ← line_steps below cFlag out.2 cs;
      Ok (out.1 ++ rest.1, rest.2)
  end.

Section loop.
Context (LINE_MAX below : Z).
#[local] Set Default Proof Using "Type".

(** One round. *)
Lemma lines_round cFlag fuel a c b st :
  c <> [] -> cstring c -> zlen c + 1 <= LINE_MAX -> read_line (Z.to_nat (LINE_MAX - 1)) (c ++ b) = c ->
  lines_loop LINE_MAX below (S fuel) cFlag (at_rest a (c ++ b)) st =
    (out ← line_step below cFlag st c;
     rest ← lines_loop LINE_MAX below fuel cFlag (at_rest (a ++ c) b) out.2;
     Ok (out.1 ++ rest.1, rest.2)).
Proof.
  intros Hne Hc Hl Hr. cbn [lines_loop].
  assert (1 <= zlen c) by (destruct c; [done|zlen_lia]).
  replace (memset 0 LINE_MAX) with (memset 0 (zlen c + 1) ++ memset 0 (LINE_MAX - (zlen c + 1))).
  2:{ unfold memset. rewrite <- replicate_add. f_equal. lia. }
  rewrite (fgets_line _ _ _ c b) by (done || lia || (rewrite zlen_memset0; lia)).
  cbn [mbind outcome_bind fst snd]. by rewrite content_app.
Qed.

Lemma lines_loop_run cFlag tail : forall lines a st fuel,
  Forall (fits LINE_MAX 2) lines -> fits LINE_MAX 2 tail -> (length (chunks lines tail) < fuel)%nat ->
  lines_loop LINE_MAX below fuel cFlag (at_rest a (file_text lines tail)) st =
    line_steps below cFlag st (chunks lines tail).
Proof.
  induction lines as [|l lines IH]; intros a st fuel Hls Ht Hf; (destruct fuel as [|fuel]; [simpl in Hf; lia|]).
  - unfold file_text, chunks. cbn [map concat app]. destruct Ht as (Hc & H10 & Hl). pose proof (zlen_nonneg tail).
    unfold chunks in Hf. case_bool_decide as E; [subst tail; cbn [lines_loop]; by rewrite fgets_end by lia|].
    rewrite <- (app_nil_r tail) at 1. rewrite lines_round; [|done|done|lia|].
    2:{ rewrite app_nil_r. apply read_line_last; [by apply no_feeds|]. unfold zlen in Hl. lia. }
    cbn [line_steps]. destruct (line_step below cFlag st tail) as [out| |]; [|done|done]. cbn [mbind outcome_bind].
    destruct fuel as [|fuel]; [simpl in Hf; lia|]. cbn [lines_loop]. by rewrite fgets_end by lia.
  - apply Forall_cons in Hls as [(Hc & H10 & Hl) Hls].
    change (chunks (l :: lines) tail) with (ended l :: chunks lines tail) in *.
    change (file_text (l :: lines) tail) with ((ended l ++ concat (map ended lines)) ++ tail).
    rewrite <- app_assoc. rewrite lines_round.
    + cbn [line_steps].
      destruct (line_step below cFlag st (ended l)) as [out| |]; [|done|done]. cbn [mbind outcome_bind].
      fold (file_text lines tail). rewrite IH; [done|done|done|simpl in Hf; lia].
    + by destruct l.
    + apply Forall_app. split; [done|]. apply Forall_singleton. unfold cchar. lia.
    + unfold ended. zlen_lia.
    + unfold ended. rewrite <- app_assoc. cbn [app]. apply read_line_whole; [by apply no_feeds|]. unfold zlen in Hl. lia.
Qed.

(** Modes that keep no state. *)
Lemma line_steps_map cFlag (g : bytes -> bytes) st cs :
  Forall (λ c, line_step below cFlag st c = Ok (g c, st)) cs ->
  line_steps below cFlag st cs = Ok (concat (map g cs), st).
Proof.
  induction 1 as [|c cs Hc Hcs IH]; [done|]. cbn [line_steps map concat]. rewrite Hc. cbn [mbind outcome_bind snd].
  rewrite IH. done.
Qed.

Lemma chunks_length lines tail : (length (chunks lines tail) <= length (file_text lines tail))%nat.
Proof.
  unfold file_text, chunks. rewrite !length_app. apply Nat.add_le_mono.
  - induction lines as [|l lines IH]; [done|]. cbn [map concat length]. unfold ended at 2. rewrite !length_app. cbn [length]. lia.
  - case_bool_decide; [simpl; lia|]. destruct tail; [done|]. simpl. lia.
Qed.

(** The whole file, in a mode that goes by lines. *)
Lemma rewritten_lines cFlag big lines tail :
  cFlag <> _MULTIPLE_HH_DO_REPLACE_TWO_HH_ -> lists_functions cFlag = false ->
  Forall (fits LINE_MAX 2) lines -> fits LINE_MAX 2 tail ->
  rewritten LINE_MAX below cFlag big (file_text lines tail) =
    (out ← line_steps below cFlag (mk_do 0 0 (-1) big 0) (chunks lines tail); Ok out.1).
Proof.
  intros Hd Hx Hls Ht. unfold rewritten. rewrite Hx. destruct (Z.eqb_spec cFlag _MULTIPLE_HH_DO_REPLACE_TWO_HH_); [done|].
  change (mk_file (file_text lines tail) 0) with (at_rest [] (file_text lines tail)).
  rewrite lines_loop_run; [|done|done|pose proof (chunks_length lines tail); lia].
  by destruct (line_steps _ _ _ _) as [out| |].
Qed.
End loop.

(** ** The files *)

Section files.
Context (LINE_MAX below : Z) (writable : bytes -> bool) (malloc_block : Z -> option bytes).
Abbreviation do := (Do_File LINE_MAX below writable malloc_block).

(** A mode that is not one of the alignments writes its text to the other
    file. *)
Lemma do_file_run cFlag name out q q' fs data text :
  cFlag <> _FOUR_KG_DQBQ_ -> cFlag <> _TAB_DQBQ_ -> lists_functions cFlag = false ->
  cstring name -> cstring out -> out <> [] -> out <> name -> writable out = true -> fs !! name = Some data ->
  rewritten LINE_MAX below cFlag None data = Ok text ->
  do (name ++ 0 :: q) (out ++ 0 :: q') cFlag fs = Ok (None, out ++ 0 :: q', <[out := text]> fs).
Proof.
  intros H1 H2 Hx Hn Ho Hne Hd Hw Hfs Hr. unfold Do_File.
  destruct (Z.eqb_spec cFlag _FOUR_KG_DQBQ_); [done|]. destruct (Z.eqb_spec cFlag _TAB_DQBQ_); [done|]. cbn [orb].
  unfold rewrite_file, output_name. rewrite Hx, strlen_app by done. cbn [mbind outcome_bind].
  destruct (Z.eqb_spec (zlen out) 0) as [E|]; [destruct out; [done|zlen_lia]|]. cbn [mbind outcome_bind].
  rewrite !content_app by done. rewrite bool_decide_eq_false_2 by congruence. rewrite Hw. cbn [negb].
  rewrite lookup_insert_ne by done. rewrite Hfs. change (default [] (Some data)) with data. rewrite Hr. cbn [mbind outcome_bind fst snd].
  by rewrite insert_insert_eq.
Qed.
End files.

(** ** Line ends *)

Lemma line_at_middle below a x b : line_at below (a ++ x :: b) (zlen a) = Ok x.
Proof.
  unfold line_at. pose proof (zlen_nonneg a). destruct (Z.eqb_spec (zlen a) (-1)); [lia|].
  rewrite <- app_assoc. by apply zget_middle.
Qed.

Lemma ends_with_ended below c l : ends_with below c (ended l) = Ok (c (default below (last l))).
Proof.
  unfold ends_with, ended. replace (zlen (l ++ [10]) - 1) with (zlen l) by zlen_lia. rewrite line_at_middle.
  cbn [mbind outcome_bind]. destruct l as [|x l _] using rev_ind; [done|]. rewrite last_snoc.
  replace (zlen ((l ++ [x]) ++ [10]) - 2) with (zlen l) by zlen_lia. rewrite <- app_assoc. cbn [app].
  by rewrite line_at_middle.
Qed.

Lemma ends_with_tail below c t : t <> [] -> 10 ∉ t -> ends_with below c t = Ok false.
Proof.
  intros Hne H10. destruct (exists_last Hne) as (s & x & ->). unfold ends_with.
  replace (zlen (s ++ [x]) - 1) with (zlen s) by zlen_lia. rewrite line_at_middle. cbn [mbind outcome_bind].
  destruct (Z.eqb_spec x 10) as [->|]; [|done]. destruct H10. apply elem_of_app. right. by left.
Qed.

Lemma windows_line_ended below l : default below (last l) <> 13 -> windows_line below (ended l) = Ok (ended (l ++ [13])).
Proof.
  intros H. unfold windows_line. rewrite ends_with_ended. cbn [mbind outcome_bind].
  destruct (Z.eqb_spec (default below (last l)) 13); [done|]. cbn [negb]. unfold ended.
  replace (zlen (l ++ [10]) - 1) with (zlen l) by zlen_lia. rewrite peek_prefix by done. cbn [mbind outcome_bind].
  by rewrite <- app_assoc.
Qed.

Lemma unix_line_ended below l : unix_line below (ended (l ++ [13])) = Ok (ended l).
Proof.
  unfold unix_line. rewrite ends_with_ended, last_snoc. cbn [mbind outcome_bind default Z.eqb Pos.eqb].
  unfold ended. rewrite <- app_assoc. cbn [app].
  replace (zlen (l ++ [13; 10]) - 2) with (zlen l) by zlen_lia. by rewrite peek_prefix.
Qed.

(** ** Tabs and blanks *)

(** What follows the tabs of a line. *)
Definition no_blank_head (r : bytes) : Prop := hd 0 r <> 9 /\ hd 0 r <> 32.

Lemma spaces_line_run r : no_blank_head r -> forall k, spaces_line (replicate k 9 ++ r) = replicate (4 * k) 32 ++ r.
Proof.
  intros [H9 H32] k. induction k as [|k IH].
  - destruct r as [|c r]; [done|]. cbn [hd] in *. cbn [replicate app spaces_line].
    destruct (Z.eqb_spec c 9), (Z.eqb_spec c 32); done.
  - cbn [replicate app spaces_line]. rewrite IH. replace (4 * S k)%nat with (4 + 4 * k)%nat by lia. done.
Qed.

Lemma tabs_line_run r : no_blank_head r -> forall k, tabs_line (replicate (4 * k) 32 ++ r) = replicate k 9 ++ r.
Proof.
  intros [H9 H32] k. induction k as [|k IH].
  - change (replicate (4 * 0) 32 ++ r) with r. cbn [replicate app]. destruct r as [|a [|b [|c [|d r]]]]; [done..|]. cbn [hd] in *. cbn [tabs_line]. unfold is_four.
    destruct (Z.eqb_spec a 9), (Z.eqb_spec a 32); done.
  - replace (4 * S k)%nat with (4 + 4 * k)%nat by lia. cbn [replicate app Nat.add]. cbn [tabs_line].
    change (is_four 32 32 32 32) with true. cbn [Z.eqb Pos.eqb negb andb]. by rewrite IH.
Qed.

(** ** Braces *)

Lemma starts_with_ended p : 10 ∉ p -> forall l, starts_with p (l ++ [10]) = starts_with p l.
Proof.
  induction p as [|c p IH]; intros Hp l; [by destruct l|]. apply not_elem_of_cons in Hp as [Hc Hp].
  destruct l as [|x l]; cbn [app starts_with]; [|by rewrite IH].
  destruct (Z.eqb_spec c 10); [done|]. done.
Qed.

Lemma find_sub_ended p l : 10 ∉ p -> p <> [] -> find_sub p (l ++ [10]) = find_sub p l.
Proof.
  intros Hp Hne. induction l as [|x l IH].
  - destruct p as [|c p]; [done|]. apply not_elem_of_cons in Hp as [Hc _]. cbn. destruct (Z.eqb_spec c 10); [done|]. done.
  - cbn [app find_sub]. change (x :: l ++ [10]) with ((x :: l) ++ [10]). rewrite starts_with_ended by done. by rewrite IH.
Qed.

Lemma has_text_ended p l : 10 ∉ p -> p <> [] -> has_text p (ended l) = has_text p l.
Proof. intros. unfold has_text, ended. by rewrite find_sub_ended. Qed.

(** A line that is the brace and nothing else. *)
Lemma brace_line_ended b l : cchar b -> b <> 10 -> cstring l -> 10 ∉ l -> brace_line b (ended l) = bool_decide (l = [b]).
Proof.
  intros Hb Hb10 Hl H10. unfold brace_line. rewrite has_text_ended; [|intros H%list_elem_of_singleton; congruence|done].
  assert (0 < b) by apply Hb.
  case_bool_decide as E.
  - subst l. unfold has_text, ended. cbn. rewrite Z.eqb_refl. cbn. by destruct (b =? 0).
  - apply andb_false_intro2. apply Z.eqb_neq. rewrite strncmp_eq. unfold ended.
    assert (cstring (l ++ [10])) as Hc by (apply Forall_app; split; [done|apply Forall_singleton; unfold cchar; lia]).
    rewrite (content_cstring _ Hc), content_cstring by (repeat constructor; unfold cchar in *; lia).
    destruct l as [|x [|y l]]; cbn; [congruence|congruence|]. intros [= -> ->]. apply H10. right. by left.
Qed.

(** The text before a line at a depth. *)
Definition indent (d : nat) : bytes := replicate (4 * d) 32.

Lemma indent_cstring n : cstring (replicate n 32).
Proof. apply Forall_replicate. unfold cchar. lia. Qed.

Lemma indent_loop_run n : forall i j r,
  (4 * (j + n) + 1 <= 4096)%nat -> length (indent j ++ 0 :: r) = 4096%nat ->
  exists r', for_loop n i 1 (λ _ b, b ← strcat b (four_blanks ++ [0]); Ok (b, true)) (indent j ++ 0 :: r) =
    Ok (indent (j + n) ++ 0 :: r').
Proof.
  induction n as [|n IH]; intros i j r Hn Hl; [exists r; by rewrite Nat.add_0_r|]. cbn [for_loop].
  unfold indent in Hl. rewrite length_app, length_replicate in Hl. cbn [length] in Hl.
  destruct (strcat_holds (indent j) r four_blanks []) as (r1 & Hs & Hz);
    [apply indent_cstring|by apply (bool_decide_unpack _)|change (zlen four_blanks) with 4; unfold zlen; lia|].
  rewrite Hs. cbn [mbind outcome_bind fst snd].
  assert (indent j ++ four_blanks = indent (S j)) as E.
  { unfold indent, four_blanks. replace (4 * S j)%nat with (4 * j + 4)%nat by lia. by rewrite replicate_add. }
  rewrite E in *. destruct (IH (i + 1) (S j) r1) as (r' & ->); [lia| |].
  - unfold zlen, indent in Hz. rewrite !length_app, !length_replicate in Hz. cbn [length] in Hz.
    unfold indent. rewrite length_app, length_replicate. cbn [length]. lia.
  - exists r'. by rewrite Nat.add_succ_comm.
Qed.

Lemma indent_text_run (d : nat) : (d <= 1023)%nat -> indent_text (Z.of_nat d) false = Ok (indent d).
Proof.
  intros Hd. unfold indent_text. rewrite Nat2Z.id.
  destruct (indent_loop_run d 0 0 (memset 0 4095)) as (r & Hr); [lia|done|].
  change (memset 0 4096) with (indent 0 ++ 0 :: memset 0 4095). rewrite Hr. cbn [mbind outcome_bind].
  by rewrite content_app by apply indent_cstring.
Qed.

(** Statements and blocks. *)
Inductive code : Type :=
  | Done
  | Stmt (l : bytes) (next : code)
  | Block (body next : code).

Fixpoint code_lines (c : code) : list bytes :=
  match c with
  | Done => []
  | Stmt l next => l :: code_lines next
  | Block body next => [123] :: code_lines body ++ [125] :: code_lines next
  end.

Definition indent_nonempty (d : nat) (l : bytes) : bytes := if bool_decide (l = []) then [] else indent d ++ l.

Fixpoint indented (d : nat) (c : code) : list bytes :=
  match c with
  | Done => []
  | Stmt l next => indent_nonempty d l :: indented d next
  | Block body next => (indent d ++ [123]) :: indented (S d) body ++ (indent d ++ [125]) :: indented d next
  end.

(** A statement is no brace alone and has no [switch] in it; braces are at
    most 1023 deep. *)
Definition stmt_ok (LINE_MAX : Z) (l : bytes) : Prop :=
  fits LINE_MAX 2 l /\ l <> [123] /\ l <> [125] /\ has_text (lit "switch") l = false.

Fixpoint code_ok (LINE_MAX : Z) (d : nat) (c : code) : Prop :=
  match c with
  | Done => (d <= 1023)%nat
  | Stmt l next => stmt_ok LINE_MAX l /\ code_ok LINE_MAX d next
  | Block body next => code_ok LINE_MAX (S d) body /\ code_ok LINE_MAX d next
  end.

Lemma code_ok_depth LINE_MAX c : forall d, code_ok LINE_MAX d c -> (d <= 1023)%nat.
Proof. induction c as [|l c IH|b _ c IH]; intros d; [done|intros [_ ?]; by apply IH|intros [_ ?]; by apply IH]. Qed.

(** The state at a depth, outside every [switch]. *)
Definition at_depth (d : nat) : do_state := mk_do (Z.of_nat d) 0 (-1) None 0.

Lemma line_steps_app below cFlag a b : forall st,
  line_steps below cFlag st (a ++ b) =
    (out ← line_steps below cFlag st a; rest ← line_steps below cFlag out.2 b; Ok (out.1 ++ rest.1, rest.2)).
Proof.
  induction a as [|c a IH]; intros st; cbn [app line_steps].
  - cbn [mbind outcome_bind fst snd app]. by destruct (line_steps below cFlag st b) as [[]| |].
  - destruct (line_step below cFlag st c) as [out| |]; [|done|done]. cbn [mbind outcome_bind]. rewrite IH.
    destruct (line_steps below cFlag out.2 a) as [m| |]; [|done|done]. cbn [mbind outcome_bind fst snd].
    destruct (line_steps below cFlag m.2 b) as [r| |]; [|done|done]. cbn [mbind outcome_bind fst snd]. by rewrite app_assoc.
Qed.

(** One line of each kind. *)
Lemma stmt_run LINE_MAX d l :
  stmt_ok LINE_MAX l -> (d <= 1023)%nat ->
  indent_line (at_depth d) (ended l) = Ok (ended (indent_nonempty d l), at_depth d).
Proof.
  intros ((Hc & H10 & _) & Ho & Hcl & Hs) Hd. unfold indent_line.
  rewrite !brace_line_ended by (done || (unfold cchar; lia)). rewrite !bool_decide_eq_false_2 by done.
  cbn [mbind outcome_bind iFlag_Dkh iFlag_Switch iFlag_Tmp sBig_Buf iSize_Kh at_depth Z.ltb Z.compare andb].
  rewrite indent_text_run by done. cbn [mbind outcome_bind].
  rewrite has_text_ended; [rewrite Hs|by apply (bool_decide_unpack _)|done]. do 2 f_equal.
  unfold ended, indent_nonempty. destruct l as [|x l]; [done|].
  replace (zlen ((x :: l) ++ [10]) =? 1) with false by (symmetry; apply Z.eqb_neq; zlen_lia).
  rewrite bool_decide_eq_false_2 by done. cbn [andb]. by rewrite <- app_assoc.
Qed.

Lemma open_run d : (d <= 1023)%nat -> indent_line (at_depth d) (ended [123]) = Ok (ended (indent d ++ [123]), at_depth (S d)).
Proof.
  intros Hd. unfold indent_line. change (brace_line 125 (ended [123])) with false. change (brace_line 123 (ended [123])) with true.
  cbn [mbind outcome_bind iFlag_Dkh iFlag_Switch iFlag_Tmp sBig_Buf iSize_Kh at_depth Z.ltb Z.compare andb].
  rewrite indent_text_run by done. cbn [mbind outcome_bind]. change (has_text (lit "switch") (ended [123])) with false.
  unfold int_range. destruct (Z.leb_spec (-2147483648) (Z.of_nat d + 1)); [|lia].
  destruct (Z.leb_spec (Z.of_nat d + 1) 2147483647); [|lia]. cbn [andb mbind outcome_bind].
  change (zlen (ended [123]) =? 1) with false. unfold ended, at_depth. cbn [andb]. rewrite app_assoc. do 3 f_equal. lia.
Qed.

Lemma close_run d : (d <= 1023)%nat -> indent_line (at_depth (S d)) (ended [125]) = Ok (ended (indent d ++ [125]), at_depth d).
Proof.
  intros Hd. unfold indent_line. change (brace_line 125 (ended [125])) with true. change (brace_line 123 (ended [125])) with false.
  cbn [iFlag_Dkh iFlag_Switch iFlag_Tmp sBig_Buf iSize_Kh at_depth].
  unfold int_range. replace (Z.of_nat (S d) - 1) with (Z.of_nat d) by lia.
  destruct (Z.leb_spec (-2147483648) (Z.of_nat d)); [|lia].
  destruct (Z.leb_spec (Z.of_nat d) 2147483647); [|lia]. cbn [andb mbind outcome_bind].
  destruct (Z.eqb_spec (-1) (Z.of_nat d)); [lia|].
  cbn [mbind outcome_bind iFlag_Dkh iFlag_Switch iFlag_Tmp sBig_Buf iSize_Kh Z.ltb Z.compare andb].
  rewrite indent_text_run by done. cbn [mbind outcome_bind]. change (has_text (lit "switch") (ended [125])) with false.
  change (zlen (ended [125]) =? 1) with false. unfold ended, at_depth. cbn [andb app]. by rewrite <- app_assoc.
Qed.

Lemma code_steps LINE_MAX below c : forall d,
  code_ok LINE_MAX d c ->
  line_steps below _NO_HAVA_ANY_SJ_DO_ADD_FOUR_KG_DQBQ_ (at_depth d) (map ended (code_lines c)) =
    Ok (concat (map ended (indented d c)), at_depth d).
Proof.
  induction c as [|l c IH|b IHb c IH]; intros d Hok; [done| |]; cbn [code_lines indented map line_steps].
  - destruct Hok as [Hl Hok]. pose proof (code_ok_depth _ _ _ Hok).
    change (line_step below _ ?st ?l) with (indent_line st l). rewrite (stmt_run LINE_MAX) by done.
    cbn [mbind outcome_bind fst snd]. by rewrite IH.
  - destruct Hok as [Hb Hok]. pose proof (code_ok_depth _ _ _ Hok).
    change (line_step below _ ?st ?l) with (indent_line st l). rewrite open_run by done. cbn [mbind outcome_bind fst snd].
    rewrite !map_app, line_steps_app, IHb by done. cbn [mbind outcome_bind fst snd map line_steps].
    change (line_step below _ ?st ?l) with (indent_line st l). rewrite close_run by done. cbn [mbind outcome_bind fst snd].
    rewrite IH by done. cbn [mbind outcome_bind fst snd concat]. by rewrite concat_app.
Qed.

Lemma code_lines_fit LINE_MAX c : 3 <= LINE_MAX -> forall d, code_ok LINE_MAX d c -> Forall (fits LINE_MAX 2) (code_lines c).
Proof.
  intros HL. assert (forall b, b = 123 \/ b = 125 -> fits LINE_MAX 2 [b]) as Hb.
  { intros b Hb. unfold fits. change (zlen [b]) with 1. split_and!; [|intros E%list_elem_of_singleton; lia|lia].
    apply Forall_singleton. unfold cchar. lia. }
  induction c as [|l c IH|b IHb c IH]; intros d Hok; cbn [code_lines]; [constructor| |].
  - destruct Hok as [[Hl _] Hok]. constructor; [done|by apply (IH d)].
  - destruct Hok as [Hbo Hok]. constructor; [apply Hb; lia|]. apply Forall_app. split; [by apply (IHb (S d))|].
    constructor; [apply Hb; lia|by apply (IH d)].
Qed.

(** ** Empty lines *)

Definition deletes (cFlag : Z) : Prop :=
  cFlag ∈ [_DELETE_ALL_TAB_EMPTY_LINE_; _DELETE_ALL_KG_EMPTY_LINE_; _DELETE_ALL_HHFH_EMPTY_LINE_; _DELETE_ALL_TAB_KG_EMPTY_LINE_].

(** The characters that an empty line may have, in each of the modes. *)
Definition blank_of (cFlag : Z) : list Z :=
  if cFlag =? _DELETE_ALL_TAB_KG_EMPTY_LINE_ then [9; 32]
  else if cFlag =? _DELETE_ALL_TAB_EMPTY_LINE_ then [9]
  else if cFlag =? _DELETE_ALL_KG_EMPTY_LINE_ then [32] else [].

Definition empty_line (cFlag : Z) (l : bytes) : bool := forallb (λ c, bool_decide (c ∈ blank_of cFlag)) l.

Lemma kept_char_blank cFlag c :
  deletes cFlag -> kept_char cFlag c = negb (c =? 10) && negb (bool_decide (c ∈ blank_of cFlag)).
Proof.
  intros H. assert (forall a b, bool_decide (c ∈ [a; b]) = (c =? a) || (c =? b)) as E2.
  { intros a b. destruct (Z.eqb_spec c a), (Z.eqb_spec c b); cbn; [apply bool_decide_eq_true|apply bool_decide_eq_true|
      apply bool_decide_eq_true|apply bool_decide_eq_false]; set_solver. }
  assert (forall a, bool_decide (c ∈ [a]) = (c =? a)) as E1.
  { intros a. destruct (Z.eqb_spec c a); [apply bool_decide_eq_true|apply bool_decide_eq_false]; set_solver. }
  unfold deletes in H. repeat (apply elem_of_cons in H as [->|H]); [..|by apply not_elem_of_nil in H];
    unfold kept_char, blank_of; cbn [Z.eqb Pos.eqb orb andb _DELETE_ALL_TAB_EMPTY_LINE_ _DELETE_ALL_KG_EMPTY_LINE_
      _DELETE_ALL_HHFH_EMPTY_LINE_ _DELETE_ALL_TAB_KG_EMPTY_LINE_]; rewrite ?E2, ?E1;
    destruct (c =? 10), (c =? 9), (c =? 32); done.
Qed.

Lemma kept_chars cFlag l : deletes cFlag -> 10 ∉ l -> existsb (kept_char cFlag) l = negb (empty_line cFlag l).
Proof.
  intros Hd. induction l as [|c l IH]; intros H10; [done|]. apply not_elem_of_cons in H10 as [Hc H10].
  unfold empty_line in *. cbn [existsb forallb]. rewrite kept_char_blank, IH by done.
  destruct (Z.eqb_spec c 10); [done|]. by destruct (bool_decide _).
Qed.

Lemma deleted_line_ended cFlag l :
  deletes cFlag -> 10 ∉ l -> deleted_line cFlag (ended l) = if empty_line cFlag l then [] else ended l.
Proof.
  intros Hd H10. unfold deleted_line, ended. rewrite existsb_app, kept_chars by done. cbn [existsb].
  rewrite kept_char_blank by done. cbn. rewrite orb_false_r. by destruct (empty_line cFlag l).
Qed.
