(* ===== verification/LibDoFileTheorems.v ===== *)
(** * What [Do_File] guarantees

    Line ends and tabs converted and converted back, empty lines deleted,
    braces indented; and the letters whose work never arrives. *)

From S2P Require Import Prelude LibC Buffers CHeap LibString LibStringFacts LibFile LibDoFile LibDoFileFacts.

Section theorems.
Context (LINE_MAX below : Z) (writable : bytes -> bool) (malloc_block : Z -> option bytes).

(** The modes without a state, on a file of lines. *)
Lemma map_run cFlag (g : bytes -> bytes) lines tail :
  cFlag <> _MULTIPLE_HH_DO_REPLACE_TWO_HH_ -> lists_functions cFlag = false ->
  Forall (fits LINE_MAX 2) lines -> fits LINE_MAX 2 tail -> g [] = [] ->
  (forall st l, l ∈ lines -> line_step below cFlag st (ended l) = Ok (g (ended l), st)) ->
  (forall st, tail <> [] -> line_step below cFlag st tail = Ok (g tail, st)) ->
  rewritten LINE_MAX below cFlag None (file_text lines tail) = Ok (concat (map g (map ended lines)) ++ g tail).
Proof.
  intros Hd Hx Hls Ht Hg Hl Htl. rewrite rewritten_lines by done.
  rewrite (line_steps_map below cFlag g).
  - cbn [mbind outcome_bind fst]. unfold chunks. rewrite map_app, concat_app.
    case_bool_decide as E; [subst tail; by rewrite Hg|]. cbn [map concat]. by rewrite app_nil_r.
  - apply Forall_app. split.
    + apply Forall_forall. intros c (l & -> & Hin)%list_elem_of_fmap. by apply Hl.
    + case_bool_decide as E; [constructor|]. apply Forall_singleton. by apply Htl.
Qed.

(** *** Line ends *)

Definition crlf (l : bytes) : bytes := l ++ [13].

(** The text of a step, nothing for one that fails. *)
Definition text_of (o : outcome bytes) : bytes := match o with Ok o => o | _ => [] end.

Lemma text_of_nil : text_of (windows_line below []) = [] /\ text_of (unix_line below []) = [].
Proof. unfold windows_line, unix_line, ends_with. change (line_at below [] (zlen [] - 1)) with (Ok below). cbn [mbind outcome_bind]. destruct (below =? 10); by split. Qed.

Lemma text_of_tail t : t <> [] -> 10 ∉ t -> windows_line below t = Ok t /\ unix_line below t = Ok t.
Proof. intros. unfold windows_line, unix_line. by rewrite !ends_with_tail by done. Qed.

Lemma text_of_last t : 10 ∉ t -> text_of (windows_line below t) = t /\ text_of (unix_line below t) = t.
Proof.
  intros H10. destruct (decide (t = [])) as [->|]; [apply text_of_nil|].
  by destruct (text_of_tail t) as [-> ->].
Qed.

Lemma windows_run lines tail :
  below <> 13 -> Forall (fits LINE_MAX 2) lines -> fits LINE_MAX 2 tail -> Forall (λ l, last l <> Some 13) lines ->
  rewritten LINE_MAX below _UNIX_HH_DO_REPLACE_WINDOWS_HH_ None (file_text lines tail) =
    Ok (file_text (map crlf lines) tail).
Proof.
  intros Hb Hls Ht H13.
  rewrite (map_run _ (λ c, text_of (windows_line below c))); [|done|done|done|done|apply text_of_nil| |].
  - unfold file_text. f_equal. f_equal.
    + rewrite !map_map. f_equal. apply map_ext_in. intros l Hl%list_elem_of_In.
      rewrite windows_line_ended; [done|]. eapply Forall_forall in H13; [|exact Hl]. destruct (last l) eqn:E; simpl; congruence.
    + by apply text_of_last, Ht.
  - intros st l Hl. change (line_step below _ st ?c) with (out ← windows_line below c; Ok (out, st)).
    rewrite windows_line_ended; [done|]. eapply Forall_forall in H13; [|exact Hl]. destruct (last l) eqn:E; simpl; congruence.
  - intros st Hne. change (line_step below _ st ?c) with (out ← windows_line below c; Ok (out, st)).
    by destruct (text_of_tail tail Hne ltac:(apply Ht)) as [-> _].
Qed.

Lemma unix_run lines tail :
  Forall (fits LINE_MAX 3) lines -> fits LINE_MAX 2 tail ->
  rewritten LINE_MAX below _WINDOWS_HH_DO_REPLACE_UNIX_HH_ None (file_text (map crlf lines) tail) =
    Ok (file_text lines tail).
Proof.
  intros Hls Ht.
  rewrite (map_run _ (λ c, text_of (unix_line below c))); [|done|done| |done|apply text_of_nil| |].
  - unfold file_text. f_equal. f_equal.
    + rewrite !map_map. f_equal. apply map_ext. intros l. unfold crlf. by rewrite unix_line_ended.
    + by apply text_of_last, Ht.
  - apply Forall_map. eapply Forall_impl; [exact Hls|]. intros l (Hc & H10 & Hl). unfold crlf. split_and!.
    + apply Forall_app. split; [done|]. apply Forall_singleton. unfold cchar. lia.
    + intros [?|E%list_elem_of_singleton]%elem_of_app; [done|lia].
    + zlen_lia.
  - intros st l (l' & -> & _)%list_elem_of_fmap. change (line_step below _ st ?c) with (out ← unix_line below c; Ok (out, st)).
    unfold crlf. by rewrite unix_line_ended.
  - intros st Hne. change (line_step below _ st ?c) with (out ← unix_line below c; Ok (out, st)).
    by destruct (text_of_tail tail Hne ltac:(apply Ht)) as [_ ->].
Qed.

(** Two different files, of which the second can be written. *)
Definition target (name out : bytes) : Prop :=
  cstring name /\ cstring out /\ out <> [] /\ out <> name /\ writable out = true.

Abbreviation run := (Do_File LINE_MAX below writable malloc_block).

Lemma target_run cFlag name out q q' fs data text :
  (cFlag =? _FOUR_KG_DQBQ_) || (cFlag =? _TAB_DQBQ_) || lists_functions cFlag = false ->
  target name out -> fs !! name = Some data -> rewritten LINE_MAX below cFlag None data = Ok text ->
  run (name ++ 0 :: q) (out ++ 0 :: q') cFlag fs = Ok (None, out ++ 0 :: q', <[out := text]> fs).
Proof.
  intros (Hc & Hl)%orb_false_iff (Hn & Ho & Hne & Hd & Hw) Hfs Hr. apply orb_false_iff in Hc as [H1%Z.eqb_neq H2%Z.eqb_neq].
  by apply (do_file_run LINE_MAX below writable malloc_block cFlag name out q q' fs data).
Qed.

(** C27: a file written with the line ends of Windows ([w]) and that one with
    those of Unix ([u]) is the file it was, when its lines leave three bytes of
    the buffer and none ends with a carriage return, and the byte in front of the
    buffer ([below]), read for an empty line, is none either. *)
Theorem line_ends_converted_back lines tail name out back q1 q2 q3 fs :
  below <> 13 -> Forall (fits LINE_MAX 3) lines -> fits LINE_MAX 2 tail -> Forall (λ l, last l <> Some 13) lines ->
  target name out -> target out back -> fs !! name = Some (file_text lines tail) ->
  exists fs1 fs2,
    run (name ++ 0 :: q1) (out ++ 0 :: q2) _UNIX_HH_DO_REPLACE_WINDOWS_HH_ fs = Ok (None, out ++ 0 :: q2, fs1) /\
    run (out ++ 0 :: q2) (back ++ 0 :: q3) _WINDOWS_HH_DO_REPLACE_UNIX_HH_ fs1 = Ok (None, back ++ 0 :: q3, fs2) /\
    fs1 !! out = Some (file_text (map crlf lines) tail) /\ fs2 !! back = fs !! name.
Proof.
  intros Hb Hls Ht H13 Hto Htb Hfs. do 2 eexists. split_and!.
  - apply (target_run _ _ _ _ _ _ (file_text lines tail) (file_text (map crlf lines) tail)); [done..|].
    apply windows_run; try done. eapply Forall_impl; [exact Hls|]. intros l. by apply fits_mono.
  - apply (target_run _ _ _ _ _ _ (file_text (map crlf lines) tail) (file_text lines tail)); [done|done| |by apply unix_run].
    by rewrite lookup_insert_eq.
  - by rewrite lookup_insert_eq.
  - by rewrite lookup_insert_eq.
Qed.

(** *** Tabs *)

(** A line: the tabs at its head, and the rest. *)
Definition tabbed (l : nat * bytes) : bytes := replicate l.1 9 ++ l.2.
Definition blanked (l : nat * bytes) : bytes := replicate (4 * l.1) 32 ++ l.2.

Lemma tabs_replaced lines :
  Forall (λ l, no_blank_head l.2 /\ fits LINE_MAX 2 (tabbed l)) lines -> 2 <= LINE_MAX ->
  rewritten LINE_MAX below _LINE_HEAD_ALL_TAB_DO_REPLACE_FOUR_KG_ None (file_text (map tabbed lines) []) =
    Ok (file_text (map blanked lines) []).
Proof.
  intros Hls HL. rewrite (map_run _ spaces_line); [|done|done| | |done|done|done].
  - unfold file_text. f_equal. f_equal. rewrite !map_map. f_equal. apply map_ext_in. intros [k r] Hl%list_elem_of_In.
    eapply Forall_forall in Hls as [Hr _]; [|exact Hl]. unfold tabbed, blanked, ended. cbn [fst snd] in *.
    rewrite <- !app_assoc. apply spaces_line_run. destruct r; [done|exact Hr].
  - apply Forall_map. eapply Forall_impl; [exact Hls|]. by intros l [_ ?].
  - by apply fits_nil.
Qed.

Lemma blanks_replaced lines :
  Forall (λ l, no_blank_head l.2 /\ fits LINE_MAX 2 (blanked l)) lines -> 2 <= LINE_MAX ->
  rewritten LINE_MAX below _LINE_HEAD_ALL_FOUR_KG_DO_REPLACE_TAB_ None (file_text (map blanked lines) []) =
    Ok (file_text (map tabbed lines) []).
Proof.
  intros Hls HL. rewrite (map_run _ tabs_line); [|done|done| | |done|done|done].
  - unfold file_text. f_equal. f_equal. rewrite !map_map. f_equal. apply map_ext_in. intros [k r] Hl%list_elem_of_In.
    eapply Forall_forall in Hls as [Hr _]; [|exact Hl]. unfold tabbed, blanked, ended. cbn [fst snd] in *.
    rewrite <- !app_assoc. apply tabs_line_run. destruct r; [done|exact Hr].
  - apply Forall_map. eapply Forall_impl; [exact Hls|]. by intros l [_ ?].
  - by apply fits_nil.
Qed.

(** Tabs at the head of the lines, turned into blanks ([b]) and back ([c]). *)
Theorem indentation_converted_back lines name out back q1 q2 q3 fs :
  Forall (λ l, no_blank_head l.2 /\ fits LINE_MAX 2 (tabbed l) /\ fits LINE_MAX 2 (blanked l)) lines -> 2 <= LINE_MAX ->
  target name out -> target out back -> fs !! name = Some (file_text (map tabbed lines) []) ->
  exists fs1 fs2,
    run (name ++ 0 :: q1) (out ++ 0 :: q2) _LINE_HEAD_ALL_TAB_DO_REPLACE_FOUR_KG_ fs = Ok (None, out ++ 0 :: q2, fs1) /\
    run (out ++ 0 :: q2) (back ++ 0 :: q3) _LINE_HEAD_ALL_FOUR_KG_DO_REPLACE_TAB_ fs1 = Ok (None, back ++ 0 :: q3, fs2) /\
    fs1 !! out = Some (file_text (map blanked lines) []) /\ fs2 !! back = fs !! name.
Proof.
  intros Hls HL Hto Htb Hfs. do 2 eexists. split_and!.
  - apply (target_run _ _ _ _ _ _ (file_text (map tabbed lines) []) (file_text (map blanked lines) [])); [done..|].
    apply tabs_replaced; [|done]. eapply Forall_impl; [exact Hls|]. by intros l (? & ? & _).
  - apply (target_run _ _ _ _ _ _ (file_text (map blanked lines) []) (file_text (map tabbed lines) [])); [done..|by rewrite lookup_insert_eq|].
    apply blanks_replaced; [|done]. eapply Forall_impl; [exact Hls|]. by intros l (? & _ & ?).
  - by rewrite lookup_insert_eq.
  - by rewrite lookup_insert_eq.
Qed.

(** *** Braces *)

(** C26: a source of statements and of blocks, whose braces stand on lines of
    their own, is indented ([z]) by four blanks for every block a line is in;
    empty lines stay empty.  No statement holds the word [switch]. *)
Theorem braces_indented c name out q q' fs :
  3 <= LINE_MAX -> code_ok LINE_MAX 0 c -> target name out -> fs !! name = Some (file_text (code_lines c) []) ->
  run (name ++ 0 :: q) (out ++ 0 :: q') _NO_HAVA_ANY_SJ_DO_ADD_FOUR_KG_DQBQ_ fs =
    Ok (None, out ++ 0 :: q', <[out := file_text (indented 0 c) []]> fs).
Proof.
  intros HL Hc Ht Hfs. apply (target_run _ _ _ _ _ _ (file_text (code_lines c) [])); [done..|].
  rewrite rewritten_lines; [|done|done|by apply (code_lines_fit LINE_MAX c HL 0)|by apply fits_nil; lia].
  unfold chunks. rewrite bool_decide_eq_true_2, app_nil_r by done. change (mk_do 0 0 (-1) None 0) with (at_depth 0).
  rewrite (code_steps LINE_MAX) by done. cbn [mbind outcome_bind fst]. unfold file_text. by rewrite app_nil_r.
Qed.

(** *** Empty lines *)

(** The modes [k], [m], [n] and [q] leave out exactly the lines that consist
    of the mode's blanks, and a last line of them without a line feed. *)
Theorem empty_lines_deleted cFlag lines tail name out q q' fs :
  deletes cFlag -> Forall (fits LINE_MAX 2) lines -> fits LINE_MAX 2 tail ->
  target name out -> fs !! name = Some (file_text lines tail) ->
  run (name ++ 0 :: q) (out ++ 0 :: q') cFlag fs =
    Ok (None, out ++ 0 :: q',
        <[out := file_text (List.filter (λ l, negb (empty_line cFlag l)) lines) (if empty_line cFlag tail then [] else tail)]> fs).
Proof.
  intros Hd Hls Ht Hto Hfs.
  assert (forall st c, line_step below cFlag st c = Ok (deleted_line cFlag c, st)) as Hstep.
  { intros st c. unfold deletes in Hd. repeat (apply elem_of_cons in Hd as [->|Hd]); [done..|by apply not_elem_of_nil in Hd]. }
  assert (cFlag <> _MULTIPLE_HH_DO_REPLACE_TWO_HH_ /\ lists_functions cFlag = false /\
    (cFlag =? _FOUR_KG_DQBQ_) || (cFlag =? _TAB_DQBQ_) || lists_functions cFlag = false) as (H1 & H2 & H3).
  { unfold deletes in Hd. repeat (apply elem_of_cons in Hd as [->|Hd]); [done..|by apply not_elem_of_nil in Hd]. }
  apply (target_run _ _ _ _ _ _ (file_text lines tail)); [done..|].
  rewrite (map_run _ (deleted_line cFlag)) by (done || (intros; apply Hstep)). unfold file_text. f_equal. f_equal.
  - clear Hfs. induction Hls as [|l lines (_ & H10 & _) _ IH]; [done|]. cbn [map concat List.filter].
    rewrite deleted_line_ended by done. rewrite IH by done. by destruct (empty_line cFlag l).
  - unfold deleted_line. rewrite kept_chars by (done || apply Ht). by destruct (empty_line cFlag tail).
Qed.

(** *** Line feeds *)

(** Line feeds and the character behind them. *)
Definition fed (p : nat * Z) : bytes := replicate p.1 10 ++ [p.2].

Lemma feed_loop_feeds k : forall n s, 0 <= n -> feed_loop n (replicate k 10 ++ s) = feed_loop (n + Z.of_nat k) s.
Proof.
  induction k as [|k IH]; intros n s Hn; [by rewrite Z.add_0_r|]. cbn [replicate app feed_loop Z.eqb Pos.eqb].
  rewrite IH by lia. f_equal. lia.
Qed.

(** [d] leaves at most two line feeds before a character, and none at the end
    of the file, not even the one of its last line. *)
Theorem feeds_reduced ps (t : nat) name out q q' fs :
  Forall (λ p, p.2 <> 10) ps -> target name out -> fs !! name = Some (concat (map fed ps) ++ replicate t 10) ->
  run (name ++ 0 :: q) (out ++ 0 :: q') _MULTIPLE_HH_DO_REPLACE_TWO_HH_ fs =
    Ok (None, out ++ 0 :: q', <[out := concat (map (λ p, fed (Nat.min p.1 2, p.2)) ps)]> fs).
Proof.
  intros Hps Hto Hfs. apply (target_run _ _ _ _ _ _ (concat (map fed ps) ++ replicate t 10)); [done..|].
  unfold rewritten. cbn [Z.eqb Pos.eqb _MULTIPLE_HH_DO_REPLACE_TWO_HH_]. f_equal. clear Hfs.
  induction Hps as [|[k c] ps Hc _ IH].
  - cbn [map concat app]. rewrite <- (app_nil_r (replicate t 10)). by rewrite feed_loop_feeds.
  - cbn [map concat]. unfold fed at 1 3. cbn [fst snd] in *. rewrite <- !app_assoc, feed_loop_feeds by done.
    cbn [app feed_loop]. destruct (Z.eqb_spec c 10); [done|]. rewrite IH.
    destruct k as [|[|k]]; [done|done|].
    destruct (Z.eqb_spec (0 + Z.of_nat (S (S k))) 1); [lia|]. destruct (Z.leb_spec 2 (0 + Z.of_nat (S (S k)))); [|lia].
    by destruct k.
Qed.

(** *** Letters without effect *)

(** The modes for lines of blanks only ([t], [s], [a]) take the line feed for
    another character: a line that ends with one stays as it is. *)
Theorem blank_lines_kept cFlag lines name out q q' fs :
  cFlag ∈ [_IF_LINE_ONLY_TAB_DO_DELETE_ALL_TAB_; _IF_LINE_ONLY_KG_DO_DELETE_ALL_KG_; _IF_LINE_ONLY_KG_AND_TABL_DO_DELETE_ALL_] ->
  Forall (fits LINE_MAX 2) lines -> 2 <= LINE_MAX -> target name out -> fs !! name = Some (file_text lines []) ->
  run (name ++ 0 :: q) (out ++ 0 :: q') cFlag fs = Ok (None, out ++ 0 :: q', <[out := file_text lines []]> fs).
Proof.
  intros Hd Hls HL Hto Hfs. apply (target_run _ _ _ _ _ _ (file_text lines [])); [|done|done|].
  { repeat (apply elem_of_cons in Hd as [->|Hd]); [done..|by apply not_elem_of_nil in Hd]. }
  assert (forall st l, line_step below cFlag st (ended l) = Ok (ended l, st)) as Hstep.
  { intros st l. assert (blank_line cFlag (ended l) = ended l) as E.
    { unfold blank_line, ended. rewrite existsb_app.
      repeat (apply elem_of_cons in Hd as [->|Hd]); [by rewrite orb_true_r..|by apply not_elem_of_nil in Hd]. }
    rewrite <- E at 2. repeat (apply elem_of_cons in Hd as [->|Hd]); [done..|by apply not_elem_of_nil in Hd]. }
  rewrite (map_run _ id); [by rewrite map_id| | |done|by apply fits_nil|done|by intros; apply Hstep|done].
  all: repeat (apply elem_of_cons in Hd as [->|Hd]); [done..|by apply not_elem_of_nil in Hd].
Qed.
(** *** The alignments *)

Lemma rewrite_file_names name new cFlag fs r :
  rewrite_file LINE_MAX below writable malloc_block name new cFlag fs = Ok r ->
  is_Some (r.2 !! content r.1) /\ (forall n, is_Some (fs !! n) -> is_Some (r.2 !! n)) /\
  (new = memset 0 256 -> content r.1 = content name ++ lit "_outtmp").
Proof.
  intros H. unfold rewrite_file in H. ok_inv H. case_bool_decide; [done|]. destruct (negb (writable (content a))); [done|].
  ok_inv H. injection H as <-. cbn [fst snd]. split; [by rewrite lookup_insert_eq|]. split.
  - intros n Hn. destruct (decide (n = content a)) as [->|Hne]; [by rewrite lookup_insert_eq|]. by rewrite !lookup_insert_ne.
  - intros ->. unfold output_name in E. change (strlen (memset 0 256)) with (Ok 0) in E. cbn [mbind outcome_bind Z.eqb] in E.
    unfold sprintf_to, poke in E. destruct (_ && _); [|done]. injection E as <-. cbn [Z.to_nat take app].
    rewrite <- !app_assoc. cbn [app]. set (t := drop _ _).
    rewrite content_nonzero_app by apply content_nonzero. by rewrite content_nonzero_app by (by apply (bool_decide_unpack _)).
Qed.

Lemma longer_name (n s : bytes) : s <> [] -> n ++ s <> n.
Proof. intros Hs E. rewrite <- (app_nil_r n) in E at 2. by apply app_inv_head in E. Qed.

(** The third and the fourth temporary file have one name, so what is removed
    first is missing afterwards. *)
Lemma align_fails name new cFlag fs r :
  align_file LINE_MAX below writable malloc_block name new cFlag fs = Ok r ->
  r.1.1 = -1 /\ r.2 !! (content r.1.2 ++ lit "_outtmp") = None /\
  r.2 !! ((content r.1.2 ++ lit "_outtmp") ++ lit "_outtmp") = None.
Proof.
  intros H. unfold align_file in H. ok_inv H. ok_inv H. ok_inv H. ok_inv H.
  apply rewrite_file_names in E as (_ & _ & _). apply rewrite_file_names in E0 as (Hs1 & _ & Hn1). specialize (Hn1 eq_refl).
  apply rewrite_file_names in E1 as (Hs2 & Hm2 & Hn2). apply rewrite_file_names in E2 as (_ & Hm3 & Hn3).
  specialize (Hn2 eq_refl). specialize (Hn3 eq_refl).
  assert (content a2.1 = content a1.1) as Heq by congruence.
  assert (content a1.1 <> content a0.1) as Hne by (rewrite Hn2; by apply longer_name).
  assert (forall fs' : gmap bytes bytes, is_Some (fs' !! content a0.1) -> is_Some (fs' !! content a1.1) ->
    remove_file (content a0.1) fs' = (0, delete (content a0.1) fs') /\
    remove_file (content a1.1) (delete (content a0.1) fs') = (0, delete (content a1.1) (delete (content a0.1) fs'))) as Hrem.
  { intros fs' [x Hx] [y Hy]. unfold remove_file. rewrite bool_decide_eq_false_2 by congruence.
    rewrite lookup_delete_ne, Hy by done. by rewrite bool_decide_eq_false_2. }
  destruct (cFlag =? _TAB_DQBQ_).
  - ok_inv H. apply rewrite_file_names in E as (_ & Hm4 & _). injection H as <-.
    destruct (Hrem a3.2) as [R1 R2]; [by eauto|by eauto|].
    unfold or_return. rewrite R1. cbn [fst snd Z.eqb]. rewrite R2. cbn [fst snd Z.eqb]. rewrite Heq.
    unfold remove_file. rewrite lookup_delete_eq. rewrite bool_decide_eq_true_2 by done. cbn [fst snd Z.eqb]. split; [done|].
    cbn [fst snd]. rewrite <- Hn1, <- Hn2, lookup_delete_eq, lookup_delete_ne by done. by rewrite lookup_delete_eq.
  - injection H as <-. destruct (Hrem a2.2) as [R1 R2]; [by eauto|by eauto|].
    unfold or_return. rewrite R1. cbn [fst snd Z.eqb]. rewrite R2. cbn [fst snd Z.eqb]. rewrite Heq.
    unfold rename_file. rewrite lookup_delete_eq. cbn [fst snd Z.eqb]. split; [done|].
    cbn [fst snd]. rewrite <- Hn1, <- Hn2, lookup_delete_eq, lookup_delete_ne by done. by rewrite lookup_delete_eq.
Qed.

(** C28: the alignments ([e], [f]) never succeed: whenever [Do_File] comes back
    from one it answers -1, and the file that held the indented text, with
    [_outtmp] twice behind the name of the output, has been removed before it
    could be renamed. *)
Theorem alignment_never_succeeds iFlag sInfile sOutfile fs r :
  iFlag = _TAB_DQBQ_ \/ iFlag = _FOUR_KG_DQBQ_ ->
  run sInfile sOutfile iFlag fs = Ok r ->
  r.1.1 = Some (-1) /\ r.2 !! (content r.1.2 ++ lit "_outtmp") = None /\
  r.2 !! ((content r.1.2 ++ lit "_outtmp") ++ lit "_outtmp") = None.
Proof.
  intros Hf H. unfold Do_File in H.
  replace ((iFlag =? _FOUR_KG_DQBQ_) || (iFlag =? _TAB_DQBQ_)) with true in H by (by destruct Hf as [->| ->]).
  ok_inv H. apply align_fails in E as [E Hn]. rewrite E in H. cbn [Z.eqb] in H. by injection H as <-.
Qed.
End theorems.

(** ** Examples *)

Definition sample_files : gmap bytes bytes :=
  {[ lit "a.c" := lit "int f()" ++ [10] ++ lit "{" ++ [10] ++ lit "if (x)" ++ [10] ++ lit "{" ++ [10] ++ lit "g();" ++ [10; 10] ++
       lit "}" ++ [10] ++ lit "}" ++ [10] ]}.

Lemma sample_target a b : cstring (lit a) -> cstring (lit b) -> lit b <> [] -> lit b <> lit a -> target (λ _, true) (lit a) (lit b).
Proof. done. Qed.

Definition sample_code : code :=
  Stmt (lit "int f()") (Block (Stmt (lit "if (x)") (Block (Stmt (lit "g();") (Stmt [] Done)) Done)) Done).

Lemma braces_indented_witness :
  Do_File 64 0 (λ _, true) (λ _, None) (lit "a.c" ++ [0]) (lit "b.c" ++ [0]) 122 sample_files =
    Ok (None, lit "b.c" ++ [0],
        <[lit "b.c" := lit "int f()" ++ [10] ++ lit "{" ++ [10] ++ lit "    if (x)" ++ [10] ++ lit "    {" ++ [10] ++
            lit "        g();" ++ [10; 10] ++ lit "    }" ++ [10] ++ lit "}" ++ [10]]> sample_files).
Proof.
  apply (braces_indented 64 0 (λ _, true) (λ _, None) sample_code (lit "a.c") (lit "b.c") [] []).
  - lia.
  - cbn. split_and!; try lia; by apply (bool_decide_unpack _).
  - by apply sample_target; apply (bool_decide_unpack _).
  - by vm_compute.
Defined.

Definition sample_lines : gmap bytes bytes := {[ lit "a" := lit "one" ++ [10; 10] ++ lit "two" ]}.

Lemma line_ends_converted_back_witness :
  exists fs1 fs2,
    Do_File 64 0 (λ _, true) (λ _, None) (lit "a" ++ [0]) (lit "b" ++ [0]) 119 sample_lines = Ok (None, lit "b" ++ [0], fs1) /\
    Do_File 64 0 (λ _, true) (λ _, None) (lit "b" ++ [0]) (lit "c" ++ [0]) 117 fs1 = Ok (None, lit "c" ++ [0], fs2) /\
    fs1 !! lit "b" = Some (lit "one" ++ [13; 10; 13; 10] ++ lit "two") /\ fs2 !! lit "c" = sample_lines !! lit "a".
Proof.
  apply (line_ends_converted_back 64 0 (λ _, true) (λ _, None) [lit "one"; []] (lit "two") (lit "a") (lit "b") (lit "c") [] [] []).
  - lia.
  - by apply (bool_decide_unpack _).
  - by apply (bool_decide_unpack _).
  - by apply (bool_decide_unpack _).
  - by apply sample_target; apply (bool_decide_unpack _).
  - by apply sample_target; apply (bool_decide_unpack _).
  - by vm_compute.
Defined.

(** What the alignment by blanks leaves of a file. *)
Definition aligned : outcome (option Z * bytes * gmap bytes bytes) :=
  Do_File 64 0 (λ _, true) (λ _, None) (lit "a.c" ++ [0]) (lit "b.c" ++ [0]) 102 sample_files.

Lemma alignment_never_succeeds_witness :
  match aligned with
  | Ok r => r.1.1 = Some (-1) /\ r.2 !! (content r.1.2 ++ lit "_outtmp") = None /\
      r.2 !! ((content r.1.2 ++ lit "_outtmp") ++ lit "_outtmp") = None
  | _ => False
  end.
Proof.
  assert (exists r, aligned = Ok r) as [r E] by (destruct aligned eqn:E; [by eexists|vm_compute in E; discriminate..]).
  rewrite E. exact (alignment_never_succeeds 64 0 (λ _, true) (λ _, None) 102 _ _ _ r (or_intror eq_refl) E).
Defined.
