(* ===== verification/BasProbe.v ===== *)
(** * The probe sequence of the bas library's hash tables

    [bas_hash_table.c] and [bas_shm_search_table.c] walk their slots in the
    same way: slot [5 * s + 1 + perturb], the perturbation losing five bits a
    round.  Once it is used up the walk is a linear congruential generator,
    which visits every slot of a table whose size is a power of two; a table
    with a free slot therefore always stops the loop. *)

From S2P Require Import Prelude.

(** [iSlot = ((5 * iSlot) + 1 + iPerturb) & ptHashTable->iMask;] *)
Definition next_slot (iMask iSlot iPerturb : Z) : Z := Z.land (u32 (5 * iSlot + 1 + iPerturb)) iMask.

(** [while (!stop(pptTable[iSlot])) { iSlot = ...; iPerturb >>= 5; }] *)
Fixpoint probe_loop (fuel : nat) (stop : Z -> outcome bool) (iMask iSlot iPerturb : Z) : outcome Z :=
  match fuel with
  | O => NoFuel
  | S fuel =>
      b ← stop iSlot;
      if b : bool then Ok iSlot
      else probe_loop fuel stop iMask (next_slot iMask iSlot iPerturb) (Z.shiftr iPerturb 5)
  end.

(** Seven rounds use up the perturbation, [iMask + 1] more visit every slot. *)
Definition probe_fuel (iMask : Z) : nat := Z.to_nat (iMask + 8).

(** The loop from the home slot of a hash value. *)
Definition probe (stop : Z -> outcome bool) (iMask iHashValue : Z) : outcome Z :=
  probe_loop (probe_fuel iMask) stop iMask (Z.land iHashValue iMask) iHashValue.

(** ** The slots a loop looks at *)

Fixpoint walk (iMask iSlot iPerturb : Z) (n : nat) : Z :=
  match n with
  | O => iSlot
  | S n => walk iMask (next_slot iMask iSlot iPerturb) (Z.shiftr iPerturb 5) n
  end.

Lemma probe_loop_walk stop iMask fuel : forall iSlot iPerturb n,
  (n < fuel)%nat -> (forall j, (j < n)%nat -> stop (walk iMask iSlot iPerturb j) = Ok false) ->
  stop (walk iMask iSlot iPerturb n) = Ok true ->
  probe_loop fuel stop iMask iSlot iPerturb = Ok (walk iMask iSlot iPerturb n).
Proof.
  induction fuel as [|fuel IH]; intros iSlot iPerturb n Hn Hno Hyes; [lia|].
  destruct n as [|n]; simpl in *; [by rewrite Hyes|].
  pose proof (Hno 0%nat ltac:(lia)) as H0. simpl in H0. rewrite H0. simpl. apply IH; [lia| |done].
  intros j Hj. apply (Hno (S j)). lia.
Qed.

Lemma walk_add iMask iSlot iPerturb m n :
  walk iMask iSlot iPerturb (m + n) =
    walk iMask (walk iMask iSlot iPerturb m) (Z.shiftr iPerturb (5 * Z.of_nat m)) n.
Proof.
  revert iSlot iPerturb. induction m as [|m IH]; intros iSlot iPerturb.
  - simpl. by rewrite Z.shiftr_0_r.
  - cbn [walk Nat.add]. rewrite IH, Z.shiftr_shiftr by lia. do 2 f_equal. lia.
Qed.

(** ** Full period

    [geo n] is [1 + 5 + ... + 5^(n-1)], the [n]th slot from 0. *)
Fixpoint geo (n : nat) : Z := match n with O => 0 | S n => 5 * geo n + 1 end.

Lemma geo_add i d : geo (i + d) = (4 * geo i + 1) * geo d + geo i.
Proof.
  induction i as [|i IH]; [simpl; lia|].
  change (geo (S i + d)) with (5 * geo (i + d) + 1). change (geo (S i)) with (5 * geo i + 1). lia.
Qed.

(** An odd factor does not carry powers of two. *)
Lemma odd_factor k a b : Z.Odd b -> (2 ^ Z.of_nat k | a * b) -> (2 ^ Z.of_nat k | a).
Proof.
  intros [b' ->]. revert a. induction k as [|k IH]; intros a Hd.
  - apply Z.divide_1_l.
  - rewrite Nat2Z.inj_succ, Z.pow_succ_r in * by lia. destruct Hd as [q Hq].
    assert (exists a', a = 2 * a') as [a' ->].
    { exists (q * 2 ^ Z.of_nat k - a * b'). lia. }
    apply Z.mul_divide_mono_l, IH. exists q. lia.
Qed.

Lemma geo_divides k : forall n, (2 ^ Z.of_nat k | geo n) -> (2 ^ Z.of_nat k | Z.of_nat n).
Proof.
  induction k as [|k IH]; intros n Hd; [apply Z.divide_1_l|].
  rewrite Nat2Z.inj_succ, Z.pow_succ_r in * by lia.
  destruct (Nat.Even_or_Odd n) as [[m ->]|[m ->]].
  - replace (2 * m)%nat with (m + m)%nat in Hd by lia. rewrite geo_add in Hd.
    replace (Z.of_nat (2 * m)) with (2 * Z.of_nat m) by lia. apply Z.mul_divide_mono_l, IH.
    apply (odd_factor k _ (2 * geo m + 1)); [by exists (geo m)|].
    destruct Hd as [q Hq]. exists q. lia.
  - exfalso. replace (2 * m + 1)%nat with (S (m + m)) in Hd by lia. simpl in Hd. rewrite geo_add in Hd.
    destruct Hd as [q Hq]. lia.
Qed.

Section period.
Context (k : nat) (Hk : (k <= 31)%nat).
Let size : Z := 2 ^ Z.of_nat k.
#[local] Set Default Proof Using "Hk".

Lemma size_pos : 0 < size.
Proof. apply Z.pow_pos_nonneg; lia. Qed.

Lemma mask_mod z : Z.land z (size - 1) = z mod size.
Proof.
  unfold size. rewrite <- Z.land_ones by lia. f_equal. rewrite Z.ones_equiv. lia.
Qed.

Lemma next_slot_mod iSlot iPerturb : next_slot (size - 1) iSlot iPerturb = (5 * iSlot + 1 + iPerturb) mod size.
Proof.
  unfold next_slot, uwrap. rewrite mask_mod.
  replace (2 ^ 32) with (2 ^ (32 - Z.of_nat k) * size)
    by (unfold size; rewrite <- Z.pow_add_r by lia; f_equal; lia).
  pose proof size_pos. assert (0 < 2 ^ (32 - Z.of_nat k)) by (apply Z.pow_pos_nonneg; lia).
  rewrite (Z.mul_comm (2 ^ _)), Z.rem_mul_r by lia.
  rewrite (Z.mul_comm size), Z.mod_add, Z.mod_mod by lia. done.
Qed.

Lemma walk_range iSlot iPerturb n : 0 <= iSlot < size -> 0 <= walk (size - 1) iSlot iPerturb n < size.
Proof.
  revert iSlot iPerturb. induction n as [|n IH]; intros iSlot iPerturb Hs; [done|].
  apply IH. rewrite next_slot_mod. apply Z.mod_pos_bound, size_pos.
Qed.

(** Without a perturbation the walk is the generator. *)
Lemma walk_lcg iSlot n :
  0 <= iSlot < size -> walk (size - 1) iSlot 0 n = (iSlot + (4 * iSlot + 1) * geo n) mod size.
Proof.
  revert iSlot. induction n as [|n IH]; intros iSlot Hs.
  - simpl. rewrite Z.mul_0_r, Z.add_0_r, Z.mod_small; done.
  - cbn [walk geo]. change (Z.shiftr 0 5) with 0. rewrite next_slot_mod, Z.add_0_r.
    rewrite IH by apply Z.mod_pos_bound, size_pos. pose proof size_pos.
    set (r := (5 * iSlot + 1) mod size).
    assert (exists q, r = 5 * iSlot + 1 - q * size) as [q ->].
    { exists ((5 * iSlot + 1) / size). subst r. rewrite Z.mod_eq by lia. lia. }
    replace (5 * iSlot + 1 - q * size + (4 * (5 * iSlot + 1 - q * size) + 1) * geo n)
      with (iSlot + (4 * iSlot + 1) * (5 * geo n + 1) + (- q * (1 + 4 * geo n)) * size) by lia.
    by rewrite Z.mod_add by lia.
Qed.

Lemma walk_lcg_inj iSlot i j :
  0 <= iSlot < size -> (i < j)%nat -> Z.of_nat j < size ->
  walk (size - 1) iSlot 0 i <> walk (size - 1) iSlot 0 j.
Proof.
  intros Hs Hij Hj Heq. rewrite !walk_lcg in Heq by done. pose proof size_pos.
  replace j with (i + (j - i))%nat in Heq by lia. set (d := (j - i)%nat) in *.
  rewrite geo_add in Heq.
  assert (size | geo d * ((4 * iSlot + 1) * (4 * geo i + 1))) as Hdiv.
  { apply Z.mod_divide; [lia|].
    replace (geo d * ((4 * iSlot + 1) * (4 * geo i + 1)))
      with ((iSlot + (4 * iSlot + 1) * ((4 * geo i + 1) * geo d + geo i)) - (iSlot + (4 * iSlot + 1) * geo i)) by lia.
    rewrite Zminus_mod, Heq, Z.sub_diag. apply Z.mod_0_l. lia. }
  apply odd_factor in Hdiv; [|exists (8 * iSlot * geo i + 2 * iSlot + 2 * geo i); lia].
  apply geo_divides in Hdiv. apply Z.divide_pos_le in Hdiv; subst d; unfold size in *; lia.
Qed.

(** The generator reaches every slot within [size] steps. *)
Lemma walk_lcg_onto iSlot p :
  0 <= iSlot < size -> 0 <= p < size -> exists n, Z.of_nat n < size /\ walk (size - 1) iSlot 0 n = p.
Proof.
  intros Hs Hp. pose proof size_pos.
  set (ps := (λ n, Z.to_nat (walk (size - 1) iSlot 0 n)) <$> seq 0 (Z.to_nat size)).
  assert (NoDup ps) as Hnd.
  { apply NoDup_fmap_2_strong; [|apply NoDup_seq]. intros i j Hi%elem_of_seq Hj%elem_of_seq Heq.
    pose proof (walk_range iSlot 0 i Hs). pose proof (walk_range iSlot 0 j Hs).
    destruct (Nat.lt_trichotomy i j) as [Hl|[->|Hl]]; [|done|]; exfalso.
    - apply (walk_lcg_inj iSlot i j); [done..|lia|lia].
    - apply (walk_lcg_inj iSlot j i); [done..|lia|lia]. }
  assert (ps ≡ₚ seq 0 (Z.to_nat size)) as Hperm.
  { apply submseteq_length_Permutation.
    - apply NoDup_submseteq; [done|]. intros x (n & -> & _)%list_elem_of_fmap.
      pose proof (walk_range iSlot 0 n Hs). apply elem_of_seq. lia.
    - unfold ps. by rewrite length_fmap. }
  assert (Z.to_nat p ∈ ps) as Hin by (rewrite Hperm; apply elem_of_seq; lia).
  apply list_elem_of_fmap in Hin as (n & Hn & Hlt%elem_of_seq). exists n. split; [lia|].
  pose proof (walk_range iSlot 0 n Hs). lia.
Qed.

(** Every slot is looked at within the fuel, whatever the hash value. *)
Lemma walk_onto iHashValue p :
  0 <= iHashValue < 2 ^ 32 -> 0 <= p < size ->
  exists n, (n < probe_fuel (size - 1))%nat /\
    walk (size - 1) (Z.land iHashValue (size - 1)) iHashValue n = p.
Proof.
  intros Hh Hp. pose proof size_pos.
  assert (0 <= Z.land iHashValue (size - 1) < size) as Hs
    by (rewrite mask_mod; apply Z.mod_pos_bound; lia).
  destruct (walk_lcg_onto (walk (size - 1) (Z.land iHashValue (size - 1)) iHashValue 7) p) as (n & Hn & Hw);
    [by apply walk_range|done|].
  exists (7 + n)%nat. split; [unfold probe_fuel; lia|]. rewrite walk_add.
  by rewrite (Z.shiftr_div_pow2 iHashValue), Z.div_small by (cbn in *; lia).
Qed.

Context (stop : Z -> outcome bool).

(** A loop over slots of which at least one stops it ends at the first of the
    walk that does. *)
Lemma probe_stops iHashValue (full : Z -> bool) p :
  0 <= iHashValue < 2 ^ 32 -> (forall q, 0 <= q < size -> stop q = Ok (full q)) ->
  0 <= p < size -> full p = true ->
  exists n, probe stop (size - 1) iHashValue = Ok (walk (size - 1) (Z.land iHashValue (size - 1)) iHashValue n) /\
    full (walk (size - 1) (Z.land iHashValue (size - 1)) iHashValue n) = true /\
    forall j, (j < n)%nat -> full (walk (size - 1) (Z.land iHashValue (size - 1)) iHashValue j) = false.
Proof.
  intros Hh Hstop Hp Hfull. pose proof size_pos.
  assert (0 <= Z.land iHashValue (size - 1) < size) as Hs
    by (rewrite mask_mod; apply Z.mod_pos_bound; lia).
  set (w := walk (size - 1) (Z.land iHashValue (size - 1)) iHashValue).
  assert (forall j, 0 <= w j < size) as Hw by (intros j; by apply walk_range).
  destruct (walk_onto iHashValue p) as (m & Hm & Em); [done..|]. fold (w m) in Em.
  destruct (least_witness (λ n, full (w n) = true) m) as [(n & Hn & Hyes & Hno)|Hnone].
  - exists n. split_and!.
    + apply probe_loop_walk; [lia| |change (stop (w n) = Ok true); by rewrite Hstop, Hyes].
      intros j Hj. change (stop (w j) = Ok false). rewrite Hstop by done.
      f_equal. apply not_true_is_false, Hno, Hj.
    + done.
    + intros j Hj. apply not_true_is_false, Hno, Hj.
  - exfalso. apply (Hnone m); [lia|]. by rewrite Em.
Qed.
End period.
