(* ===== verification/BasHashTypes.v ===== *)
(** * What the two hash tables of the bas library share

    The structs, whose header [bas/bas_global.h] is not in the repository, the
    constants of that header as a class, and the hash of a key, which
    [bas_hash_table.c] and [bas_shm_search_table.c] compute with the same
    statements. *)

From S2P Require Import Prelude LibC BasProbe.

(** The constants of the missing header, and the sizes of its structs.
    [load_limit n] stands for the [int] [n * BAS_HASHTABLE_LOAD_FACTOR]. *)
Class BasHashConst : Type := {
  BAS_HASHTABLE_INIT_SIZE : Z;
  BAS_HASHTABLE_EXPAND_MULTIPLICAND : Z;
  load_limit : Z -> Z;
  sizeof_T_HashTable : Z;
  sizeof_T_HashEntry : Z;
}.

(** What the tables rely on: the masks need powers of two, and a table is
    enlarged before it is full and not before it is half full. *)
Class BasHashLaws `{BasHashConst} : Prop := {
  init_size_pow2 : exists k : nat, (k <= 30)%nat /\ BAS_HASHTABLE_INIT_SIZE = 2 ^ Z.of_nat k;
  multiplicand_pow2 : exists k : nat, (0 < k)%nat /\ BAS_HASHTABLE_EXPAND_MULTIPLICAND = 2 ^ Z.of_nat k;
  load_limit_less : forall n, 0 < n -> load_limit n < n;
  load_limit_half : forall n, 0 < n -> n <= 2 * load_limit n + 1;
}.

(** [T_HashEntry] and [T_HashTable], over the type of the pointers to keys and
    values, of the array of slots and of the two functions. *)
Record T_HashEntry (K V : Type) : Type := mk_entry { iHashValue : Z; pvKey : K; pvValue : V }.
Arguments mk_entry {K V} iHashValue pvKey pvValue.
Arguments iHashValue {K V} t.
Arguments pvKey {K V} t.
Arguments pvValue {K V} t.

Record T_HashTable (slots hash_fn equal_fn : Type) : Type := mk_hash_table {
  pptTable : slots;
  iFill : Z;
  iUsed : Z;
  iMask : Z;
  iLimit : Z;
  pfHashFunc : hash_fn;
  pfHashEqualFunc : equal_fn;
  iFreeKey : Z;
  iFreeValue : Z;
}.
Arguments mk_hash_table {slots hash_fn equal_fn} pptTable iFill iUsed iMask iLimit pfHashFunc pfHashEqualFunc iFreeKey iFreeValue.
Arguments pptTable {slots hash_fn equal_fn} t.
Arguments iFill {slots hash_fn equal_fn} t.
Arguments iUsed {slots hash_fn equal_fn} t.
Arguments iMask {slots hash_fn equal_fn} t.
Arguments iLimit {slots hash_fn equal_fn} t.
Arguments pfHashFunc {slots hash_fn equal_fn} t.
Arguments pfHashEqualFunc {slots hash_fn equal_fn} t.
Arguments iFreeKey {slots hash_fn equal_fn} t.
Arguments iFreeValue {slots hash_fn equal_fn} t.

Section updates.
Context {slots hash_fn equal_fn : Type}.
Implicit Types t : T_HashTable slots hash_fn equal_fn.

Definition set_pptTable (p : slots) (t : T_HashTable slots hash_fn equal_fn) : T_HashTable slots hash_fn equal_fn :=
  mk_hash_table p (iFill t) (iUsed t) (iMask t) (iLimit t) (pfHashFunc t) (pfHashEqualFunc t) (iFreeKey t) (iFreeValue t).
Definition set_iUsed (n : Z) (t : T_HashTable slots hash_fn equal_fn) : T_HashTable slots hash_fn equal_fn :=
  mk_hash_table (pptTable t) (iFill t) n (iMask t) (iLimit t) (pfHashFunc t) (pfHashEqualFunc t) (iFreeKey t) (iFreeValue t).
Definition set_size (mask limit : Z) (t : T_HashTable slots hash_fn equal_fn) : T_HashTable slots hash_fn equal_fn :=
  mk_hash_table (pptTable t) (iFill t) (iUsed t) mask limit (pfHashFunc t) (pfHashEqualFunc t) (iFreeKey t) (iFreeValue t).
End updates.

(** ** Hashing

    [k += ~(k << 9); k ^= ((k >> 14) | (k << 18)); k += (k << 4);
    k ^= ((k >> 10) | (k << 22));] in [unsigned int]. *)
Definition hash_mix (k : Z) : Z :=
  let k := u32 (k + Z.lnot (u32 (Z.shiftl k 9))) in
  let k := Z.lxor k (Z.lor (Z.shiftr k 14) (u32 (Z.shiftl k 18))) in
  let k := u32 (k + u32 (Z.shiftl k 4)) in
  Z.lxor k (Z.lor (Z.shiftr k 10) (u32 (Z.shiftl k 22))).

(** [for(i = 0; i < iKeyLength; ++i, ++s) { ...; k += *s; }] from byte [i] on. *)
Fixpoint hash_loop (n : nat) (s : bytes) (i k : Z) : outcome Z :=
  match n with
  | O => Ok k
  | S n => c ← zget s i; hash_loop n s (i + 1) (u32 (hash_mix k + u8 c))
  end.

Definition basDefaultHashFunc (pvKey : bytes) (iKeyLength : Z) : outcome Z :=
  hash_loop (Z.to_nat iKeyLength) pvKey 0 0.

(** The sign of [strcmp] is that of the first difference. *)
Fixpoint strcmp (a b : bytes) : Z :=
  match a, b with
  | [], [] => 0
  | [], y :: _ => - y
  | x :: _, [] => x
  | x :: a, y :: b => if x =? y then if x =? 0 then 0 else strcmp a b else x - y
  end.

Definition basDefaultHashEqual (pvKeyA pvKeyB : bytes) : Z := strcmp pvKeyA pvKeyB.

(** ** Range of the hash *)

Lemma lxor_range w a b : 0 <= w -> 0 <= a < 2 ^ w -> 0 <= b < 2 ^ w -> 0 <= Z.lxor a b < 2 ^ w.
Proof.
  intros Hw Ha Hb. assert (Z.lxor a b = Z.lxor a b mod 2 ^ w) as ->.
  - apply Z.bits_inj'. intros n Hn. destruct (Z.lt_ge_cases n w) as [Hl|Hl].
    + by rewrite Z.mod_pow2_bits_low.
    + rewrite Z.mod_pow2_bits_high, Z.lxor_spec by lia.
      rewrite <- (Z.mod_small a (2 ^ w)), <- (Z.mod_small b (2 ^ w)) by done.
      by rewrite !Z.mod_pow2_bits_high by lia.
  - apply Z.mod_pos_bound. lia.
Qed.

Lemma lor_range w a b : 0 <= w -> 0 <= a < 2 ^ w -> 0 <= b < 2 ^ w -> 0 <= Z.lor a b < 2 ^ w.
Proof.
  intros Hw Ha Hb. assert (Z.lor a b = Z.lor a b mod 2 ^ w) as ->.
  - apply Z.bits_inj'. intros n Hn. destruct (Z.lt_ge_cases n w) as [Hl|Hl].
    + by rewrite Z.mod_pow2_bits_low.
    + rewrite Z.mod_pow2_bits_high, Z.lor_spec by lia.
      rewrite <- (Z.mod_small a (2 ^ w)), <- (Z.mod_small b (2 ^ w)) by done.
      by rewrite !Z.mod_pow2_bits_high by lia.
  - apply Z.mod_pos_bound. lia.
Qed.

Lemma shiftr_range w a n : 0 <= n -> 0 <= a < 2 ^ w -> 0 <= Z.shiftr a n < 2 ^ w.
Proof.
  intros Hn Ha. rewrite Z.shiftr_div_pow2 by done. split; [by apply Z.div_pos; lia|].
  eapply Z.le_lt_trans; [|apply Ha]. apply Z.div_le_upper_bound; [lia|].
  assert (0 < 2 ^ n) by lia. nia.
Qed.

(** Every mix is an [unsigned int], whatever it starts from. *)
Lemma hash_mix_range k : 0 <= hash_mix k < 2 ^ 32.
Proof.
  unfold hash_mix. set (a := u32 (k + _)). set (b := Z.lxor a _). set (c := u32 (b + _)).
  assert (0 <= c < 2 ^ 32) as Hc by (apply uwrap_range; lia).
  apply lxor_range; [lia|done|]. apply lor_range; [lia|by apply shiftr_range|apply uwrap_range; lia].
Qed.

Lemma hash_loop_prefix s : forall a r k, hash_loop (length s) (a ++ s ++ r) (zlen a) k =
  Ok (foldl (λ k c, u32 (hash_mix k + u8 c)) k s).
Proof.
  induction s as [|c s IH]; intros a r k; [done|]. cbn [length hash_loop foldl].
  rewrite zget_app_r by lia. rewrite Z.sub_diag. cbn [app]. rewrite zget_0_cons. cbn [mbind outcome_bind].
  specialize (IH (a ++ [c]) r (u32 (hash_mix k + u8 c))). rewrite <- app_assoc, zlen_app in IH. exact IH.
Qed.

(** The strings of the two arguments decide, as unsigned bytes. *)
Lemma strcmp_eq a b : cstring a -> cstring b -> strcmp a b = 0 <-> a = b.
Proof.
  intros Ha. revert b. induction Ha as [|x a Hx Ha IH]; intros b Hb.
  - destruct Hb as [|y b Hy Hb]; simpl; [done|]. unfold cchar in Hy. split; [lia|done].
  - destruct Hb as [|y b Hy Hb]; simpl; unfold cchar in *; [split; [lia|done]|].
    destruct (Z.eqb_spec x y) as [->|Hxy].
    + destruct (Z.eqb_spec y 0); [lia|]. rewrite IH by done. split; congruence.
    + split; [lia|congruence].
Qed.
