(* ===== verification/BasTable.v ===== *)
(** * Open addressing with the bas library's probe sequence

    The slots of a table hold keys with values.  A table is well formed when
    every entry lies where the search for its key stops; then the search
    decides membership in the finite map of the entries, and writing an entry
    where the search stops inserts into that map.  Both hash tables of the bas
    library are instances. *)

From S2P Require Import Prelude BasProbe.

Section table.
Context {K V : Type} `{Countable K} (hash : K -> Z) (Hhash : forall k, 0 <= hash k < 2 ^ 32).
#[local] Set Default Proof Using "All".
Implicit Types (t : list (option (K * V))) (m : gmap K V).

(** The slot the search for [key] looks at in round [j]. *)
Definition slot_at (t : list (option (K * V))) (key : K) (j : nat) : Z :=
  walk (zlen t - 1) (Z.land (hash key) (zlen t - 1)) (hash key) j.

(** A slot ends the search for a key when it is empty or holds the key. *)
Definition ends (t : list (option (K * V))) (key : K) (p : Z) : bool :=
  match t !! Z.to_nat p with
  | Some (Some e) => bool_decide (e.1 = key)
  | _ => true
  end.

(** [p] is the first slot of the walk that ends the search. *)
Definition found_at t key p : Prop :=
  exists j, slot_at t key j = p /\ forall i, (i < j)%nat -> ends t key (slot_at t key i) = false.

Record table_ok t : Prop := {
  table_size : exists k, (k <= 30)%nat /\ zlen t = 2 ^ Z.of_nat k;
  table_placed : forall p key v, t !! Z.to_nat p = Some (Some (key, v)) -> 0 <= p -> found_at t key p;
}.

(** The map of a list of slots. *)
Definition maps_to t m : Prop := forall key v, m !! key = Some v <-> exists p, t !! p = Some (Some (key, v)).

Definition occupied t : Z := countb (λ o, bool_decide (is_Some o)) t.

Lemma occupied_nonneg t : 0 <= occupied t.
Proof using Type. apply countb_bounds. Qed.

Lemma table_pos t : table_ok t -> 0 < zlen t.
Proof using Type. intros [(k & _ & ->) _]. apply Z.pow_pos_nonneg; lia. Qed.

Lemma slot_at_range t key j : table_ok t -> 0 <= slot_at t key j < zlen t.
Proof.
  intros Ht. pose proof (table_pos t Ht) as Hp. unfold slot_at. destruct (table_size t Ht) as (k & Hk & E). rewrite E in *.
  apply walk_range; [lia|]. rewrite mask_mod by lia. apply Z.mod_pos_bound. lia.
Qed.

(** The two entries of a key would be one. *)
Lemma found_at_unique t key p q :
  found_at t key p -> found_at t key q -> ends t key p = true -> ends t key q = true -> p = q.
Proof using Type.
  intros (i & <- & Hi) (j & <- & Hj) Ep Eq. destruct (Nat.lt_trichotomy i j) as [Hl|[->|Hl]]; [|done|].
  - rewrite Hj in Ep; done.
  - rewrite Hi in Eq; done.
Qed.

Lemma ends_entry t key p v : t !! Z.to_nat p = Some (Some (key, v)) -> ends t key p = true.
Proof using Type. unfold ends. intros ->. by apply bool_decide_eq_true. Qed.

Lemma key_unique t key p q v w :
  table_ok t -> t !! p = Some (Some (key, v)) -> t !! q = Some (Some (key, w)) -> p = q.
Proof using Type.
  intros Ht Hp Hq. rewrite <- (Nat2Z.id p) in Hp. rewrite <- (Nat2Z.id q) in Hq.
  assert (Z.of_nat p = Z.of_nat q); [|lia].
  eapply (found_at_unique t key); [eapply table_placed; [done..|lia]|eapply table_placed; [done..|lia]|by eapply ends_entry|by eapply ends_entry].
Qed.

Lemma free_slot t : occupied t < zlen t -> exists p, t !! p = Some None.
Proof using Type.
  unfold occupied. induction t as [|[e|] t IH]; intros Hc.
  - by rewrite countb_nil in Hc.
  - rewrite countb_cons, zlen_cons in Hc. simpl in Hc. destruct IH as [p Hp]; [lia|]. by exists (S p).
  - by exists 0%nat.
Qed.

(** ** Searching *)

Section search.
Context (t : list (option (K * V))) (Ht : table_ok t) (Hfree : occupied t < zlen t).
Context (key : K) (stop : Z -> outcome bool).
Hypothesis Hstop : forall q, 0 <= q < zlen t -> stop q = Ok (ends t key q).

(** The loop ends, at the slot of the key or at an empty one. *)
Lemma search_ends :
  exists p, probe stop (zlen t - 1) (hash key) = Ok p /\ 0 <= p < zlen t /\ found_at t key p /\ ends t key p = true.
Proof.
  destruct (free_slot t Hfree) as [p Hp]. pose proof (lookup_lt_Some _ _ _ Hp) as Hlt.
  destruct (table_size t Ht) as (k & Hk & E).
  destruct (probe_stops k ltac:(lia) stop (hash key) (ends t key) (Z.of_nat p)) as (n & Hn & Hyes & Hno);
    [done|by rewrite <- E|rewrite <- E; unfold zlen; lia|unfold ends; by rewrite Nat2Z.id, Hp|].
  rewrite <- E in *. exists (slot_at t key n). split_and!; [done|by apply slot_at_range..|by exists n|done].
Qed.
End search.

(** What a search that stops at [p] says of the map. *)
Lemma found_decides t m key p :
  table_ok t -> maps_to t m -> found_at t key p -> 0 <= p < zlen t -> ends t key p = true ->
  match m !! key with
  | Some v => t !! Z.to_nat p = Some (Some (key, v))
  | None => t !! Z.to_nat p = Some None
  end.
Proof using Type.
  intros Ht Hm Hf Hr He. destruct (m !! key) as [v|] eqn:E.
  - apply Hm in E as (q & Hq). rewrite <- (Nat2Z.id q) in Hq.
    replace p with (Z.of_nat q); [done|].
    eapply found_at_unique; [eapply table_placed; [done..|lia]|done|by eapply ends_entry|done].
  - unfold ends in He. destruct (lookup_lt_is_Some_2 t (Z.to_nat p)) as [[[key' v]|] Hp]; [unfold zlen in Hr; lia| |done].
    rewrite Hp in He. apply bool_decide_eq_true in He as Hk. simpl in Hk. subst key'.
    assert (m !! key = Some v) by (apply Hm; eauto). congruence.
Qed.

(** ** Inserting *)

Lemma slot_at_insert t p x key j : slot_at (<[p := x]> t) key j = slot_at t key j.
Proof using Type. unfold slot_at. by rewrite zlen_insert. Qed.

Lemma found_at_insert t key key' p q v :
  0 <= p < zlen t -> ends t key p = true -> found_at t key' q -> (t !! Z.to_nat p = Some None \/ key' <> key) ->
  found_at (<[Z.to_nat p := Some (key, v)]> t) key' q.
Proof using Type.
  intros Hr He (j & Hj & Hno) Hor. exists j. rewrite slot_at_insert. split; [done|]. intros i Hi.
  specialize (Hno i Hi). rewrite slot_at_insert. unfold ends in *.
  destruct (decide (Z.to_nat (slot_at t key' i) = Z.to_nat p)) as [Ep|Ep].
  - rewrite Ep in Hno. rewrite Ep, list_lookup_insert_eq by (unfold zlen in Hr; lia). simpl.
    destruct Hor as [Hn|Hne]; [by rewrite Hn in Hno|]. by apply bool_decide_eq_false.
  - by rewrite list_lookup_insert_ne by done.
Qed.

Lemma table_ok_insert t key p v :
  table_ok t -> 0 <= p < zlen t -> found_at t key p -> ends t key p = true ->
  table_ok (<[Z.to_nat p := Some (key, v)]> t).
Proof using Type.
  intros Ht Hr Hf He. split; [rewrite zlen_insert; by apply table_size|].
  intros q key' v' Hq Hq0. destruct (decide (Z.to_nat q = Z.to_nat p)) as [E|E].
  - rewrite E, list_lookup_insert_eq in Hq by (unfold zlen in Hr; lia). injection Hq as <- <-.
    replace q with p by lia. destruct Hf as (j & Hj & Hno). exists j. rewrite slot_at_insert. split; [done|].
    intros i Hi. specialize (Hno i Hi). rewrite slot_at_insert. unfold ends in *.
    destruct (decide (Z.to_nat (slot_at t key i) = Z.to_nat p)) as [Ep|Ep]; [by rewrite Ep, He in Hno|].
    by rewrite list_lookup_insert_ne by done.
  - rewrite list_lookup_insert_ne in Hq by done. apply found_at_insert; [done..|by eapply table_placed|].
    unfold ends in He. destruct (lookup_lt_is_Some_2 t (Z.to_nat p)) as [[[key'' v'']|] Hp]; [unfold zlen in Hr; lia| |by left].
    right. intros ->. rewrite Hp in He. apply bool_decide_eq_true in He as Hk. simpl in Hk. subst key''.
    by pose proof (key_unique t _ _ _ _ _ Ht Hp Hq).
Qed.

Lemma maps_to_insert t m key p v :
  table_ok t -> 0 <= p < zlen t -> maps_to t m -> found_at t key p -> ends t key p = true ->
  maps_to (<[Z.to_nat p := Some (key, v)]> t) (<[key := v]> m).
Proof using Type.
  intros Ht Hr Hm Hf He. pose proof (found_decides t m key p Ht Hm Hf Hr He) as Hd. intros key' v'.
  destruct (decide (key' = key)) as [->|Hne].
  - rewrite lookup_insert_eq. split.
    + intros [= ->]. exists (Z.to_nat p). apply list_lookup_insert_eq. unfold zlen in Hr. lia.
    + intros (q & Hq). pose proof (table_ok_insert t key p v Ht Hr Hf He) as Ht'.
      assert (<[Z.to_nat p := Some (key, v)]> t !! Z.to_nat p = Some (Some (key, v))) as Hp
        by (apply list_lookup_insert_eq; unfold zlen in Hr; lia).
      pose proof (key_unique _ _ _ _ _ _ Ht' Hp Hq) as <-. congruence.
  - rewrite lookup_insert_ne by done. rewrite (Hm key' v'). split; intros (q & Hq); exists q.
    + rewrite list_lookup_insert_ne; [done|]. intros E. rewrite <- E in Hq. destruct (m !! key); congruence.
    + destruct (decide (q = Z.to_nat p)) as [->|].
      * rewrite list_lookup_insert_eq in Hq by (unfold zlen in Hr; lia). congruence.
      * by rewrite list_lookup_insert_ne in Hq by done.
Qed.

(** A new entry takes a free slot, a replaced one keeps its own. *)
Lemma occupied_insert t m key p v :
  table_ok t -> maps_to t m -> found_at t key p -> 0 <= p < zlen t -> ends t key p = true ->
  occupied (<[Z.to_nat p := Some (key, v)]> t) =
    occupied t + (if bool_decide (is_Some (m !! key)) then 0 else 1).
Proof using Type.
  intros Ht Hm Hf Hr He. pose proof (found_decides t m key p Ht Hm Hf Hr He) as Hd. unfold occupied.
  destruct (m !! key) as [w|]; rewrite (countb_insert _ _ _ _ _ Hd); simpl; lia.
Qed.

(** ** An empty table, and moving one into another *)

Lemma table_ok_empty k : (k <= 30)%nat -> table_ok (replicate (Z.to_nat (2 ^ Z.of_nat k)) None).
Proof using Type.
  intros Hk. split.
  - exists k. split; [done|]. unfold zlen. rewrite length_replicate, Z2Nat.id; lia.
  - intros p key v Hp. by apply lookup_replicate_1 in Hp as [? _].
Qed.

Lemma maps_to_empty n : maps_to (replicate n None) ∅.
Proof using Type.
  intros key v. rewrite lookup_empty. split; [done|]. intros (p & Hp). by apply lookup_replicate_1 in Hp as [? _].
Qed.

Lemma occupied_empty n : occupied (replicate n None) = 0.
Proof using Type. unfold occupied. by rewrite countb_replicate. Qed.

Lemma maps_to_unique t m m' : maps_to t m -> maps_to t m' -> m = m'.
Proof using Type.
  intros Hm Hm'. apply map_eq. intros key. apply option_eq. intros v. by rewrite (Hm key v), (Hm' key v).
Qed.

Lemma maps_to_nil : maps_to [] ∅.
Proof using Type. apply (maps_to_empty 0). Qed.

(** The map of a longer prefix of the slots. *)
Lemma maps_to_snoc_none t m : maps_to t m -> maps_to (t ++ [None]) m.
Proof using Type.
  intros Hm key v. rewrite (Hm key v). split; intros (p & Hp); exists p.
  - by apply lookup_app_l_Some.
  - apply lookup_app_Some in Hp as [Hp|[_ Hp]]; [done|]. by apply list_lookup_singleton_Some in Hp as [_ ?].
Qed.

Lemma maps_to_snoc t m key v :
  maps_to t m -> (forall p w, t !! p <> Some (Some (key, w))) -> maps_to (t ++ [Some (key, v)]) (<[key := v]> m).
Proof using Type.
  intros Hm Hnew key' v'. destruct (decide (key' = key)) as [->|Hne].
  - rewrite lookup_insert_eq. split.
    + intros [= ->]. exists (length t). by rewrite lookup_app_r, Nat.sub_diag by lia.
    + intros (p & Hp). apply lookup_app_Some in Hp as [Hp|[_ Hp]]; [by apply Hnew in Hp|].
      apply list_lookup_singleton_Some in Hp as [_ ?]. congruence.
  - rewrite lookup_insert_ne by done. rewrite (Hm key' v'). split; intros (p & Hp); exists p.
    + by apply lookup_app_l_Some.
    + apply lookup_app_Some in Hp as [Hp|[_ Hp]]; [done|]. apply list_lookup_singleton_Some in Hp as [_ ?]. congruence.
Qed.
End table.

Arguments slot_at {K V} hash t key j : assert.
Arguments ends {K V _} t key p : assert.
