(* ===== verification/BasHash.v ===== *)
(** * The hash table of the bas library ([bas_hash_table.c])

    Keys and values are pointers of the caller; the table compares and hashes
    keys with the functions it is given.  The entries and the array of slots
    are blocks of the table.  A slot is [None] when it holds NULL, the array
    is [None] after a [realloc] that failed. *)

From S2P Require Import Prelude LibC Buffers CHeap BasString BasProbe BasHashTypes.

(** The value of the [iHashValue] that [basHashTableExpand] declares in each
    round of its loop and reads without setting it. *)
Class Indeterminate : Type := indeterminate : Z -> Z.

Section hash_table.
Context `{BasGlobal} `{BasHashConst} `{Allocator} `{Indeterminate} {K V : Type}.

Abbreviation hash_slots := (list (option (T_HashEntry K V))).
Abbreviation hash_table := (T_HashTable (option hash_slots) (K -> Z) (K -> K -> Z)).
Implicit Types (ptHashTable : hash_table) (pvKey : K) (pvValue : V).

Definition basHashTableCreate (pfHashFunc : K -> Z) (pfHashEqualFunc : K -> K -> Z) (iFreeKey iFreeValue : Z) :
    cmd (option hash_table) :=
  ptHashTable ← malloc sizeof_T_HashTable;
  match ptHashTable with
  | None => mret None
  | Some _ =>
      slots ← malloc (8 * BAS_HASHTABLE_INIT_SIZE);
      match slots with
      | None => _ ← free ptHashTable; mret None
      | Some _ =>
          mret (Some (mk_hash_table (Some (replicate (Z.to_nat BAS_HASHTABLE_INIT_SIZE) None)) 0 0
            (BAS_HASHTABLE_INIT_SIZE - 1) (load_limit BAS_HASHTABLE_INIT_SIZE)
            pfHashFunc pfHashEqualFunc iFreeKey iFreeValue))
      end
  end.

Definition hash ptHashTable pvKey : Z := hash_mix (pfHashFunc ptHashTable pvKey).

(** [(pptTable[iSlot] != NULL) && (pptTable[iSlot]->iHashValue != iHashValue) &&
    (pfHashEqualFunc(pvKey, pptTable[iSlot]->pvKey) != 0)], negated: one of
    the two comparisons is enough to stop. *)
Definition slot_stops ptHashTable (iHash : Z) pvKey (iSlot : Z) : outcome bool :=
  slots ← or_fault (pptTable ptHashTable);
  e ← zget slots iSlot;
  match e with
  | None => Ok true
  | Some e => Ok (negb (negb (iHashValue e =? iHash) && negb (pfHashEqualFunc ptHashTable pvKey (BasHashTypes.pvKey e) =? 0)))
  end.

Definition basInnerHashTableSearch ptHashTable pvKey : outcome Z :=
  let iHash := hash ptHashTable pvKey in
  iSlot ← probe (slot_stops ptHashTable iHash pvKey) (iMask ptHashTable) iHash;
  slots ← or_fault (pptTable ptHashTable);
  e ← zget slots iSlot;
  match e with None => Ok (-1) | Some _ => Ok (s32 iSlot) end.

Definition entry_at ptHashTable (iIndex : Z) : outcome (T_HashEntry K V) :=
  slots ← or_fault (pptTable ptHashTable); e ← zget slots iIndex; or_fault e.

Definition set_slot ptHashTable (iSlot : Z) (e : option (T_HashEntry K V)) : outcome hash_table :=
  slots ← or_fault (pptTable ptHashTable);
  slots ← zset slots iSlot e;
  Ok (set_pptTable (Some slots) ptHashTable).

Definition basHashTableSearch ptHashTable pvKey : outcome (option V) :=
  iIndex ← basInnerHashTableSearch ptHashTable pvKey;
  if 0 <=? iIndex then e ← entry_at ptHashTable iIndex; Ok (Some (pvValue e)) else Ok None.

(** The loop over the copy [pptTemp]: the first slot empty, with a hash value
    equal to the indeterminate one, or with an equal key is overwritten. *)
Fixpoint expand_loop (temp : hash_slots) (i : Z) ptHashTable : outcome hash_table :=
  match temp with
  | [] => Ok ptHashTable
  | None :: temp => expand_loop temp (i + 1) ptHashTable
  | Some e :: temp =>
      iSlot ← probe (slot_stops ptHashTable (indeterminate i) (BasHashTypes.pvKey e)) (iMask ptHashTable) (iHashValue e);
      ptHashTable ← set_slot ptHashTable iSlot (Some e);
      expand_loop temp (i + 1) ptHashTable
  end.

(** The copy is not freed; when [realloc] fails the old array is lost. *)
Definition basHashTableExpand ptHashTable : cmd (Z * hash_table) :=
  iOldSize ← lift (int_range (iMask ptHashTable + 1));
  iNewSize ← lift (int_range (iOldSize * BAS_HASHTABLE_EXPAND_MULTIPLICAND));
  pptTemp ← malloc (8 * iOldSize);
  match pptTemp with
  | None => mret (-1, ptHashTable)
  | Some _ =>
      temp ← lift (or_fault (pptTable ptHashTable));
      r ← realloc [] (8 * iNewSize);
      match r with
      | No_memory => mret (-1, set_pptTable None ptHashTable)
      | _ =>
          let ptHashTable := set_pptTable (Some (replicate (Z.to_nat iNewSize) None)) ptHashTable in
          let ptHashTable := set_size (iNewSize - 1) (load_limit iNewSize) ptHashTable in
          ptHashTable ← lift (expand_loop temp 0 ptHashTable);
          mret (0, ptHashTable)
      end
  end.

(** The part of [basHashTableInsert] after the table has been enlarged. *)
Definition add_entry ptHashTable pvKey pvValue : cmd (Z * hash_table) :=
  ptEntry ← malloc sizeof_T_HashEntry;
  match ptEntry with
  | None => mret (-1, ptHashTable)
  | Some _ =>
      let iHash := hash ptHashTable pvKey in
      iSlot ← lift (probe (slot_stops ptHashTable iHash pvKey) (iMask ptHashTable) iHash);
      ptHashTable ← lift (set_slot ptHashTable iSlot (Some (mk_entry iHash pvKey pvValue)));
      mret (0, ptHashTable)
  end.

Definition basHashTableInsert ptHashTable pvKey pvValue : cmd (Z * hash_table) :=
  iIndex ← lift (basInnerHashTableSearch ptHashTable pvKey);
  if 0 <=? iIndex then
    e ← lift (entry_at ptHashTable iIndex);
    ptHashTable ← lift (set_slot ptHashTable iIndex (Some (mk_entry (iHashValue e) (BasHashTypes.pvKey e) pvValue)));
    mret (0, ptHashTable)
  else
    n ← lift (int_range (iUsed ptHashTable + 1));
    let ptHashTable := set_iUsed n ptHashTable in
    if iLimit ptHashTable <? n then
      r ← basHashTableExpand ptHashTable;
      if negb (r.1 =? 0) then mret (-1, r.2) else add_entry r.2 pvKey pvValue
    else add_entry ptHashTable pvKey pvValue.

(** [free] of a block whose address the table was given. *)
Definition free_block : cmd unit := free (Some []).

(** What [basHashTableRemove] and [basHashTableDestroy] give to [free]. *)
Record released : Type := mk_released { freed_keys : list K; freed_values : list V }.

Definition basHashTableRemove ptHashTable pvKey : cmd (option V * released * hash_table) :=
  iIndex ← lift (basInnerHashTableSearch ptHashTable pvKey);
  if 0 <=? iIndex then
    e ← lift (entry_at ptHashTable iIndex);
    let freed := if iFreeKey ptHashTable =? BAS_TRUE then [BasHashTypes.pvKey e] else [] in
    _ ← (if iFreeKey ptHashTable =? BAS_TRUE then free_block else mret tt);
    _ ← free_block;
    ptHashTable ← lift (set_slot ptHashTable iIndex None);
    n ← lift (int_range (iUsed ptHashTable - 1));
    mret (Some (BasHashTypes.pvValue e), mk_released freed [], set_iUsed n ptHashTable)
  else mret (None, mk_released [] [], ptHashTable).

(** [for (pptEntry = pptTable, i = 0; i < iMask + 1; ++i, ++pptEntry)] *)
Fixpoint free_entries_loop (n : nat) (i : Z) ptHashTable (r : released) : cmd released :=
  match n with
  | O => mret r
  | S n =>
      slots ← lift (or_fault (pptTable ptHashTable));
      e ← lift (zget slots i);
      match e with
      | None => free_entries_loop n (i + 1) ptHashTable r
      | Some e =>
          _ ← (if iFreeKey ptHashTable =? BAS_TRUE then free_block else mret tt);
          _ ← (if iFreeValue ptHashTable =? BAS_TRUE then free_block else mret tt);
          _ ← free_block;
          free_entries_loop n (i + 1) ptHashTable
            (mk_released (freed_keys r ++ if iFreeKey ptHashTable =? BAS_TRUE then [BasHashTypes.pvKey e] else [])
                         (freed_values r ++ if iFreeValue ptHashTable =? BAS_TRUE then [BasHashTypes.pvValue e] else []))
      end
  end.

Definition basHashTableDestroy ptHashTable : cmd released :=
  n ← lift (int_range (iMask ptHashTable + 1));
  r ← free_entries_loop (Z.to_nat n) 0 ptHashTable (mk_released [] []);
  _ ← free (match pptTable ptHashTable with Some _ => Some [] | None => None end);
  _ ← free_block;
  mret r.
End hash_table.
