(* ===== verification/BasHashFacts.v ===== *)
(** * The hash table of the bas library as a finite map

    As long as no two keys have the same hash, and the hash value an expansion
    never sets is none of theirs, insertions and searches do what a finite map
    does; destroying the table frees what it owns. *)

From S2P Require Import Prelude LibC Buffers CHeap BasString BasProbe BasHashTypes BasTable BasHash.

(** Allocation where there is room. *)
Section room.
Context `{Allocator} (Hroom : has_room).

Lemma malloc_then {B} d n (f : option bytes -> cmd B) m' :
  0 <= n < 2147483648 -> (forall b, becomes d (f (Some b)) m') -> becomes (1 + d) (malloc n ≫= f) m'.
Proof using Hroom.
  intros Hn Hf h. destruct (Hf (new_bytes (calls h) n) (mk_heap (live h + 1) (calls h + 1))) as (k & E).
  exists k. unfold mbind, cmd_bind, malloc. rewrite Hroom by done. cbn [mbind outcome_bind fst snd].
  rewrite E. cbn [live]. by rewrite Z.add_assoc.
Qed.

Lemma realloc_then {B} d b n (f : reallocated -> cmd B) m' :
  0 <= n < 2147483648 -> (forall r, r <> No_memory -> becomes d (f r) m') -> becomes d (realloc b n ≫= f) m'.
Proof using Hroom.
  intros Hn Hf h. unfold mbind, cmd_bind, realloc. rewrite Hroom by done. cbn [mbind outcome_bind fst snd].
  set (b' := take (Z.to_nat n) b ++ new_bytes (calls h) (n - zlen b)).
  destruct (Hf (if stays (calls h) n then In_place b' else Moved b')) with (h := mk_heap (live h) (calls h + 1)) as (k & E);
    [by destruct (stays _ _)|]. exists k. rewrite E. done.
Qed.
End room.

Section refine.
Context `{BasGlobal} `{BasHashConst} `{Hlaws : !BasHashLaws} `{Allocator} `{Indeterminate} {K V : Type} `{Countable K}.
Context (hf : K -> Z) (ef : K -> K -> Z) (P : K -> Prop) (fk fv : Z).
Implicit Types (L : list (option (K * V))) (M : gmap K V).

(** The hash the table stores. *)
Definition mix (k : K) : Z := hash_mix (hf k).

Hypotheses (Hroom : has_room) (Hentry : 0 <= sizeof_T_HashEntry < 2147483648)
  (Hequal : forall a b, P a -> P b -> ef a b = 0 <-> a = b)
  (Hinj : forall a b, P a -> P b -> mix a = mix b -> a = b)
  (Hind : forall i a, P a -> indeterminate i <> mix a).
#[local] Set Default Proof Using "All".

Lemma mix_range k : 0 <= mix k < 2 ^ 32.
Proof. apply hash_mix_range. Qed.

Definition entry_of (e : K * V) : T_HashEntry K V := mk_entry (mix e.1) e.1 e.2.
Definition rep_slot (o : option (K * V)) : option (T_HashEntry K V) := entry_of <$> o.

Definition rep L : list (option (T_HashEntry K V)) := rep_slot <$> L.

Definition table_of L (n : Z) : T_HashTable (option (list (option (T_HashEntry K V)))) (K -> Z) (K -> K -> Z) :=
  mk_hash_table (Some (rep L)) 0 n (zlen L - 1) (load_limit (zlen L)) hf ef fk fv.

Definition keys_in L : Prop := forall k v, Some (k, v) ∈ L -> P k.

Record inv M L (n : Z) : Prop := {
  in_ok : table_ok mix L;
  in_map : maps_to L M;
  in_keys : keys_in L;
  in_used : occupied L = n;
  in_free : n < zlen L;
}.

Lemma zlen_rep L : zlen (rep L) = zlen L.
Proof using Type. unfold rep, zlen. by rewrite length_fmap. Qed.

Lemma rep_lookup L q : 0 <= q < zlen L -> exists o, L !! Z.to_nat q = Some o /\ zget (rep L) q = Ok (rep_slot o).
Proof using Type.
  intros Hq. destruct (lookup_lt_is_Some_2 L (Z.to_nat q)) as [o Ho]; [unfold zlen in Hq; lia|]. exists o. split; [done|].
  apply zget_lookup; [lia|]. unfold rep. by rewrite list_lookup_fmap, Ho.
Qed.

Lemma rep_insert L q e : rep (<[q := Some e]> L) = <[q := Some (entry_of e)]> (rep L).
Proof using Type. unfold rep. by rewrite list_fmap_insert. Qed.

(** The test of a slot, with the hash of the key or with one that no key has. *)
Lemma stops_ends L n key h q :
  keys_in L -> P key -> h = mix key \/ (forall a, P a -> h <> mix a) -> 0 <= q < zlen L ->
  slot_stops (table_of L n) h key q = Ok (ends L key q).
Proof.
  intros HL Hk Hh Hq. destruct (rep_lookup L q Hq) as (o & Ho & Hz). unfold slot_stops, ends, table_of. cbn [pptTable or_fault mbind outcome_bind].
  rewrite Hz, Ho. cbn [mbind outcome_bind]. destruct o as [[k v]|]; [|done]. cbn [rep_slot fmap option_fmap option_map entry_of iHashValue BasHashTypes.pvKey pfHashEqualFunc fst snd].
  assert (P k) as Hpk by (eapply HL, list_elem_of_lookup_2; exact Ho). f_equal.
  pose proof (Hequal key k Hk Hpk) as He. destruct (decide (k = key)) as [->|Hne].
  - rewrite bool_decide_eq_true_2 by done. rewrite (proj2 He eq_refl), andb_false_r. done.
  - rewrite bool_decide_eq_false_2 by done. assert (mix k <> h) as Hm.
    { destruct Hh as [->|Hh]; [|by intros E; apply (Hh k)]. intros E. by apply Hne, Hinj. }
    destruct (Z.eqb_spec (mix k) h); [done|]. destruct (Z.eqb_spec (ef key k) 0) as [E|]; [|done]. by apply He in E.
Qed.

Lemma probe_ends L n key h :
  table_ok mix L -> keys_in L -> occupied L < zlen L -> P key -> h = mix key \/ (forall a, P a -> h <> mix a) ->
  exists p, probe (slot_stops (table_of L n) h key) (zlen L - 1) (mix key) = Ok p /\ 0 <= p < zlen L /\
    found_at mix L key p /\ ends L key p = true.
Proof.
  intros Hok HL Hfree Hk Hh. apply (search_ends mix mix_range L Hok Hfree). intros q Hq. by apply stops_ends.
Qed.

(** The slot the search of the table answers. *)
Lemma bas_inner_search M L n key : inv M L n -> P key ->
  exists p, found_at mix L key p /\ ends L key p = true /\ 0 <= p < zlen L /\
    basInnerHashTableSearch (table_of L n) key = Ok (if bool_decide (is_Some (M !! key)) then p else -1) /\
    match M !! key with Some v => L !! Z.to_nat p = Some (Some (key, v)) | None => L !! Z.to_nat p = Some None end.
Proof.
  intros [Hok HM HL Hu Hf] Hk. destruct (probe_ends L n key (mix key) Hok HL ltac:(lia) Hk (or_introl eq_refl)) as (p & Hp & Hr & Hfd & He).
  exists p. pose proof (found_decides mix L M key p Hok HM Hfd Hr He) as Hd. split_and!; [done..|lia|lia| |exact Hd].
  unfold basInnerHashTableSearch, hash. cbn [pfHashFunc iMask table_of]. fold (mix key). rewrite Hp. unfold table_of. cbn [mbind outcome_bind pptTable or_fault].
  destruct (rep_lookup L p Hr) as (o & Ho & Hz). rewrite Hz. cbn [mbind outcome_bind]. destruct (table_size _ _ Hok) as (k & Hk30 & Ek).
  assert (2 ^ Z.of_nat k <= 2 ^ 30) as Hb by (apply Z.pow_le_mono_r; lia).
  destruct (M !! key) as [v|]; rewrite Ho in Hd; injection Hd as ->; cbn; [|done].
  f_equal. apply s32_id. cbn in *. lia.
Qed.

Lemma search_inv M L n key : inv M L n -> P key -> basHashTableSearch (table_of L n) key = Ok (M !! key).
Proof.
  intros Hi Hk. destruct (bas_inner_search M L n key Hi Hk) as (p & _ & _ & Hp & Hr & Hd). unfold basHashTableSearch. rewrite Hr. cbn [mbind outcome_bind].
  destruct (M !! key) as [v|].
  - rewrite bool_decide_eq_true_2 by eauto. destruct (Z.leb_spec 0 p); [|lia]. unfold entry_at, table_of. cbn [pptTable or_fault mbind outcome_bind].
    destruct (rep_lookup L p Hp) as (o & Ho & Hz). rewrite Hz. rewrite Ho in Hd. by injection Hd as ->.
  - rewrite bool_decide_eq_false_2; [done|by intros [? ?]].
Qed.

(** Writing the entry of a key where its search ends. *)
Lemma keys_in_insert L key v q : keys_in L -> P key -> keys_in (<[q := Some (key, v)]> L).
Proof using Type.
  intros HL Hk k w (i & Hi)%list_elem_of_lookup_1. destruct (decide (i = q)) as [->|Hne].
  - apply list_lookup_insert_Some in Hi as [(_ & E & _)|(? & _)]; [|done]. by injection E as -> ->.
  - rewrite list_lookup_insert_ne in Hi by done. by eapply HL, list_elem_of_lookup_2.
Qed.

Lemma write_slot L n q e : 0 <= q < zlen L -> set_slot (table_of L n) q (Some (entry_of e)) = Ok (table_of (<[Z.to_nat q := Some e]> L) n).
Proof using Type.
  intros Hq. unfold set_slot, table_of. cbn [pptTable or_fault mbind outcome_bind]. rewrite zset_in_range by (by rewrite zlen_rep).
  cbn [mbind outcome_bind]. by rewrite rep_insert, zlen_insert.
Qed.

Lemma add_entry_inv M L n key v :
  table_ok mix L -> maps_to L M -> keys_in L -> occupied L = n - 1 -> n < zlen L -> P key -> M !! key = None ->
  exists L', gives 1 (add_entry (table_of L n) key v) (0, table_of L' n) /\ inv (<[key := v]> M) L' n /\ zlen L' = zlen L.
Proof.
  intros Hok HM HL Hu Hf Hk Hnew. destruct (probe_ends L n key (mix key) Hok HL ltac:(lia) Hk (or_introl eq_refl)) as (p & Hp & Hr & Hfd & He).
  exists (<[Z.to_nat p := Some (key, v)]> L). split_and!; [| |apply zlen_insert].
  - unfold add_entry. apply (malloc_then Hroom 0); [done|]. intros b. unfold hash. cbn [pfHashFunc iMask table_of]. fold (mix key).
    eapply gives_lift_bind; [exact Hp|]. eapply gives_lift_bind; [by apply (write_slot L n p (key, v))|]. apply gives_ret.
  - split; [by apply table_ok_insert|by apply (maps_to_insert mix)|by apply keys_in_insert| |by rewrite zlen_insert].
    rewrite (occupied_insert mix L M) by done. rewrite Hnew, bool_decide_eq_false_2; [lia|by intros [? ?]].
Qed.

(** ** Expanding *)

Lemma expand_loop_inv n : forall rest done i L M,
  table_ok mix (done ++ rest) -> keys_in (done ++ rest) -> table_ok mix L -> keys_in L ->
  maps_to done M -> maps_to L M -> occupied L = occupied done -> occupied (done ++ rest) < zlen L ->
  exists L' M', expand_loop (rep rest) i (table_of L n) = Ok (table_of L' n) /\ table_ok mix L' /\ keys_in L' /\
    maps_to (done ++ rest) M' /\ maps_to L' M' /\ occupied L' = occupied (done ++ rest) /\ zlen L' = zlen L.
Proof.
  induction rest as [|o rest IH]; intros found i L M Hok HK HokL HL Hm HmL Hocc Hfree.
  { rewrite app_nil_r in *. by exists L, M. }
  assert (found ++ o :: rest = (found ++ [o]) ++ rest) as Eq by by rewrite <- app_assoc. destruct o as [[k v]|].
  - assert ((found ++ Some (k, v) :: rest) !! length found = Some (Some (k, v))) as Hat by (by rewrite lookup_app_r, Nat.sub_diag by lia).
    assert (P k) as Hk by (eapply HK, list_elem_of_lookup_2; exact Hat).
    assert (occupied (found ++ Some (k, v) :: rest) = occupied found + (1 + occupied rest)) as Hsum
      by (unfold occupied; rewrite countb_app, countb_cons; done).
    pose proof (occupied_nonneg rest).
    destruct (probe_ends L n k (indeterminate i) HokL HL ltac:(lia) Hk) as (p & Hp & Hr & Hfd & He);
      [right; intros a Ha; by apply Hind|].
    assert (forall q w, found !! q <> Some (Some (k, w))) as Hnew.
    { intros q w Hq. pose proof (lookup_lt_Some _ _ _ Hq).
      assert ((found ++ Some (k, v) :: rest) !! q = Some (Some (k, w))) as Hq' by by apply lookup_app_l_Some.
      pose proof (key_unique mix _ _ _ _ _ _ Hok Hq' Hat). lia. }
    assert (M !! k = None) as HMk.
    { destruct (M !! k) as [w|] eqn:E; [|done]. apply Hm in E as (q & Hq). by apply Hnew in Hq. }
    destruct (IH (found ++ [Some (k, v)]) (i + 1) (<[Z.to_nat p := Some (k, v)]> L) (<[k := v]> M)) as (L' & M' & Hrun & H');
      [by rewrite <- Eq|by rewrite <- Eq|by apply table_ok_insert|by apply keys_in_insert|by apply maps_to_snoc|by apply (maps_to_insert mix)| |by rewrite <- Eq, zlen_insert|].
    { rewrite (occupied_insert mix L M) by done. rewrite HMk, bool_decide_eq_false_2 by (by intros [? ?]).
      unfold occupied in *. rewrite countb_app, countb_cons, countb_nil. cbn. lia. }
    rewrite <- Eq, zlen_insert in H'. exists L', M'. split; [|exact H'].
    cbn [rep rep_slot fmap list_fmap option_fmap option_map expand_loop].
    change (BasHashTypes.pvKey (entry_of (k, v))) with k. change (iHashValue (entry_of (k, v))) with (mix k).
    change (iMask (table_of L n)) with (zlen L - 1). rewrite Hp. cbn [mbind outcome_bind]. rewrite (write_slot L n p (k, v)) by done. exact Hrun.
  - destruct (IH (found ++ [None]) (i + 1) L M) as (L' & M' & Hrun & H');
      [by rewrite <- Eq|by rewrite <- Eq|done|done|by apply maps_to_snoc_none|done| |by rewrite <- Eq|].
    { unfold occupied in *. rewrite countb_app, countb_cons, countb_nil. cbn. lia. }
    rewrite <- Eq in H'. exists L', M'. by split.
Qed.

(** The table enlarged: the map stays, and the copy of the old array is left
    behind. *)
Lemma expand_inv M L n n' : inv M L n -> zlen L * BAS_HASHTABLE_EXPAND_MULTIPLICAND <= 2 ^ 27 ->
  exists L', gives 1 (basHashTableExpand (table_of L n')) (0, table_of L' n') /\ inv M L' n /\
    zlen L' = zlen L * BAS_HASHTABLE_EXPAND_MULTIPLICAND /\ zlen L < zlen L'.
Proof.
  intros [Hok HM HL Hu Hf] HN. set (N := zlen L * BAS_HASHTABLE_EXPAND_MULTIPLICAND) in *.
  destruct (table_size _ _ Hok) as (k & Hk & Ek). pose proof (table_pos mix L Hok) as Hpos.
  destruct multiplicand_pow2 as (j & Hj & Ej).
  assert (2 <= BAS_HASHTABLE_EXPAND_MULTIPLICAND) as Hmul by (rewrite Ej; change 2 with (2 ^ 1) at 1; apply Z.pow_le_mono_r; lia).
  assert (zlen L < N) as HlN by (unfold N; nia). assert (N = 2 ^ Z.of_nat (k + j)) as EN.
  { unfold N. rewrite Ek, Ej, <- Z.pow_add_r by lia. f_equal. lia. }
  assert (k + j <= 30)%nat as Hkj.
  { destruct (decide (k + j <= 30)%nat); [done|]. assert (2 ^ 31 <= N) by (rewrite EN; apply Z.pow_le_mono_r; lia). cbn in *. lia. }
  set (L0 := replicate (Z.to_nat N) None : list (option (K * V))).
  assert (zlen L0 = N) as HL0 by (unfold L0, zlen; rewrite length_replicate; lia).
  destruct (expand_loop_inv n' L [] 0 L0 ∅) as (L' & M' & Hr & H1' & H2' & H3' & H4' & H5' & H6');
    [done|done|unfold L0; rewrite EN; by apply table_ok_empty| |apply maps_to_nil|apply maps_to_empty|unfold L0; by rewrite occupied_empty|cbn [app]; lia|].
  { intros a w Hin. apply elem_of_replicate in Hin as [? _]. done. }
  exists L'. split_and!; [|split; [done|by rewrite (maps_to_unique _ _ _ HM H3')|done|cbn [app] in *; lia|lia]|lia|lia].
  unfold basHashTableExpand. cbn [table_of iMask pptTable].
  eapply gives_lift_bind; [by replace (zlen L - 1 + 1) with (zlen L) by lia; unfold int_range; destruct (Z.leb_spec (-2147483648) (zlen L)), (Z.leb_spec (zlen L) 2147483647); first [done|cbn in *; lia]|].
  fold N. eapply gives_lift_bind; [unfold int_range; destruct (Z.leb_spec (-2147483648) N), (Z.leb_spec N 2147483647); first [done|cbn in *; lia]|].
  apply (malloc_then Hroom 0); [cbn in *; lia|]. intros b. eapply gives_lift_bind; [done|].
  apply (realloc_then Hroom); [cbn in *; lia|]. intros r Hr0.
  assert (expand_loop (rep L) 0 (set_size (N - 1) (load_limit N) (set_pptTable (Some (replicate (Z.to_nat N) None)) (table_of L n'))) = Ok (table_of L' n')) as Hrun.
  { rewrite <- Hr. f_equal. unfold table_of. rewrite HL0. unfold rep, L0. rewrite fmap_replicate. done. }
  destruct r; [done| |]; (eapply gives_lift_bind; [exact Hrun|apply gives_ret]).
Qed.

(** ** Inserting *)

Lemma load_room (z : Z) : 0 < z -> load_limit z < z.
Proof. apply load_limit_less. Qed.

Lemma insert_inv M L n key v : inv M L n -> P key -> zlen L * BAS_HASHTABLE_EXPAND_MULTIPLICAND <= 2 ^ 27 ->
  exists d L' n', gives d (basHashTableInsert (table_of L n) key v) (0, table_of L' n') /\ inv (<[key := v]> M) L' n' /\
    n <= n' <= n + 1 /\ (zlen L' = zlen L \/ n' = n + 1 /\ load_limit (zlen L) < n + 1 /\ zlen L' = zlen L * BAS_HASHTABLE_EXPAND_MULTIPLICAND).
Proof.
  intros Hi Hk HN. destruct (bas_inner_search M L n key Hi Hk) as (p & Hfd & He & Hp & Hr & Hd). pose proof Hi as [Hok HM HL Hu Hf].
  pose proof (table_pos mix L Hok) as Hpos. destruct (M !! key) as [w|] eqn:EM.
  - exists 0, (<[Z.to_nat p := Some (key, v)]> L), n. split_and!; [| |lia|lia|left; apply zlen_insert].
    + unfold basHashTableInsert. eapply gives_lift_bind; [exact Hr|]. destruct (Z.leb_spec 0 p); [|lia].
      destruct (rep_lookup L p Hp) as (o & Ho & Hz). rewrite Ho in Hd. injection Hd as ->.
      eapply gives_lift_bind; [unfold entry_at; cbn [table_of pptTable or_fault mbind outcome_bind]; rewrite Hz; done|].
      eapply gives_lift_bind; [by apply (write_slot L n p (key, v))|]. apply gives_ret.
    + split; [by apply table_ok_insert|by apply (maps_to_insert mix)|by apply keys_in_insert| |by rewrite zlen_insert].
      rewrite (occupied_insert mix L M) by done. rewrite EM, bool_decide_eq_true_2 by eauto. lia.
  - assert (0 <= n) as Hn0 by (pose proof (occupied_nonneg L); lia). destruct (table_size _ _ Hok) as (k & Hk30 & Ek).
    assert (2 ^ Z.of_nat k <= 2 ^ 30) as Hb by (apply Z.pow_le_mono_r; lia).
    assert (forall d (m : cmd _), becomes d (let ptHashTable := table_of L (n + 1) in
      if iLimit ptHashTable <? n + 1 then r ← basHashTableExpand ptHashTable; if negb (r.1 =? 0) then mret (-1, r.2) else add_entry r.2 key v
      else add_entry ptHashTable key v) m -> becomes d (basHashTableInsert (table_of L n) key v) m) as Hstart.
    { intros d m Hm. unfold basHashTableInsert. eapply gives_lift_bind; [exact Hr|]. change (0 <=? -1) with false.
      eapply gives_lift_bind; [|exact Hm]. cbn [table_of iUsed]. unfold int_range.
      destruct (Z.leb_spec (-2147483648) (n + 1)), (Z.leb_spec (n + 1) 2147483647); first [done|cbn in *; lia]. }
    cbv zeta in Hstart. change (iLimit (table_of L (n + 1))) with (load_limit (zlen L)) in Hstart.
    destruct (Z.ltb_spec (load_limit (zlen L)) (n + 1)).
    + destruct (expand_inv M L n (n + 1) Hi HN) as (L1 & Hg1 & [Hok1 HM1 HL1 Hu1 Hf1] & HzL & Hlt).
      destruct (add_entry_inv M L1 (n + 1) key v) as (L' & Hg2 & Hi' & Hz'); [done|done|done|lia|lia|done|done|].
      exists 2, L', (n + 1). split_and!; [|exact Hi'|lia|lia|right; lia]. apply Hstart. apply (gives_bind 1 1 2 _ _ _ _ Hg1); [exact Hg2|done].
    + pose proof (load_room (zlen L) Hpos).
      destruct (add_entry_inv M L (n + 1) key v) as (L' & Hg2 & Hi' & Hz'); [done|done|done|lia|lia|done|done|].
      exists 1, L', (n + 1). split_and!; [by apply Hstart|exact Hi'|lia|lia|left; lia].
Qed.

(** ** Removing, and keys with equal hashes *)

Lemma maps_to_delete M L key v p :
  table_ok mix L -> maps_to L M -> L !! p = Some (Some (key, v)) -> maps_to (<[p := None]> L) (delete key M).
Proof.
  intros Hok HM Hp k w. destruct (decide (k = key)) as [->|Hne].
  - rewrite lookup_delete_eq. split; [done|]. intros (q & Hq). destruct (decide (q = p)) as [->|Hqp].
    + apply list_lookup_insert_Some in Hq as [(_ & ? & _)|(? & _)]; done.
    + rewrite list_lookup_insert_ne in Hq by done. by pose proof (key_unique mix L key q p w v Hok Hq Hp).
  - rewrite lookup_delete_ne by done. rewrite (HM k w). split; intros (q & Hq).
    + exists q. rewrite list_lookup_insert_ne; [done|]. intros <-. congruence.
    + destruct (decide (q = p)) as [->|Hqp]; [apply list_lookup_insert_Some in Hq as [(_ & ? & _)|(? & _)]; done|].
      rewrite list_lookup_insert_ne in Hq by done. by exists q.
Qed.

(** The slots hold the map without the key; that the searches still find the
    others is not said. *)
Lemma remove_gives M L n key : inv M L n -> P key -> 
  exists L', gives (if bool_decide (is_Some (M !! key)) then if fk =? BAS_TRUE then -2 else -1 else 0)
    (basHashTableRemove (table_of L n) key)
    (M !! key, mk_released (if bool_decide (is_Some (M !! key)) && (fk =? BAS_TRUE) then [key] else []) [],
     table_of L' (if bool_decide (is_Some (M !! key)) then n - 1 else n)) /\
    maps_to L' (delete key M) /\ zlen L' = zlen L.
Proof.
  intros Hi Hk. destruct (bas_inner_search M L n key Hi Hk) as (p & Hfd & He & Hp & Hr & Hd). pose proof Hi as [Hok HM HL Hu Hf].
  destruct (table_size _ _ Hok) as (k & Hk30 & Ek). assert (2 ^ Z.of_nat k <= 2 ^ 30) as Hb by (apply Z.pow_le_mono_r; lia).
  pose proof (occupied_nonneg L). destruct (M !! key) as [v|] eqn:EM.
  - exists (<[Z.to_nat p := None]> L). split_and!; [|by eapply maps_to_delete|apply zlen_insert].
    unfold basHashTableRemove. eapply gives_lift_bind; [exact Hr|]. destruct (Z.leb_spec 0 p); [|lia].
    destruct (rep_lookup L p Hp) as (o & Ho & Hz). rewrite Ho in Hd. injection Hd as ->.
    eapply gives_lift_bind; [unfold entry_at; cbn [table_of pptTable or_fault mbind outcome_bind]; rewrite Hz; done|].
    change (iFreeKey (table_of L n)) with fk. cbn [bool_decide decide_rel is_Some_dec andb].
    assert (gives (if fk =? BAS_TRUE then -1 else 0) (if fk =? BAS_TRUE then free_block else mret tt) tt) as Hgf
      by (destruct (fk =? BAS_TRUE); [apply gives_free|apply gives_ret]).
    eapply gives_bind; [exact Hgf|eapply gives_bind; [apply gives_free| |reflexivity]|].
    + eapply gives_lift_bind.
      { unfold set_slot. cbn [table_of pptTable or_fault mbind outcome_bind]. rewrite zset_in_range by (by rewrite zlen_rep). done. }
      assert (int_range (n - 1) = Ok (n - 1)) as Hn1.
      { unfold int_range. destruct (Z.leb_spec (-2147483648) (n - 1)), (Z.leb_spec (n - 1) 2147483647); first [done|cbn in *; lia]. }
      eapply gives_lift_bind; [exact Hn1|].
      unfold table_of. rewrite zlen_insert. unfold rep. rewrite list_fmap_insert. apply gives_ret.
    + cbn. destruct (fk =? BAS_TRUE); lia.
  - exists L. split_and!; [|by rewrite delete_id|done]. unfold basHashTableRemove. eapply gives_lift_bind; [exact Hr|]. apply gives_ret.
Qed.

(** A key that differs from all in the table finds the value of the one with
    its hash. *)
Lemma equal_hash_found M L n key other : inv M L n -> P key -> mix other = mix key -> (forall k, P k -> ef other k <> 0) ->
  basHashTableSearch (table_of L n) other = basHashTableSearch (table_of L n) key.
Proof.
  intros Hi Hk Hmix Hef. pose proof Hi as [Hok HM HL Hu Hf]. rewrite (search_inv M L n key Hi Hk).
  destruct (search_ends mix mix_range L Hok ltac:(lia) key (slot_stops (table_of L n) (mix key) other)) as (p & Hp & Hr & Hfd & He).
  { intros q Hq. destruct (rep_lookup L q Hq) as (o & Ho & Hz). unfold slot_stops, ends, table_of. cbn [pptTable or_fault mbind outcome_bind].
    rewrite Hz, Ho. cbn [mbind outcome_bind]. destruct o as [[k v]|]; [|done]. cbn [rep_slot fmap option_fmap option_map entry_of iHashValue BasHashTypes.pvKey pfHashEqualFunc fst snd].
    assert (P k) as Hpk by (eapply HL, list_elem_of_lookup_2; exact Ho). f_equal. pose proof (Hef k Hpk).
    destruct (Z.eqb_spec (ef other k) 0); [done|]. rewrite andb_true_r, negb_involutive. destruct (decide (k = key)) as [->|Hne].
    - rewrite bool_decide_eq_true_2 by done. by rewrite Z.eqb_refl.
    - rewrite bool_decide_eq_false_2 by done. destruct (Z.eqb_spec (mix k) (mix key)) as [E|]; [|done]. by apply Hinj in E. }
  pose proof (found_decides mix L M key p Hok HM Hfd Hr He) as Hd. destruct (table_size _ _ Hok) as (k & Hk30 & Ek).
  assert (2 ^ Z.of_nat k <= 2 ^ 30) as Hb by (apply Z.pow_le_mono_r; lia). destruct (rep_lookup L p Hr) as (o & Ho & Hz).
  unfold basHashTableSearch, basInnerHashTableSearch, hash. cbn [pfHashFunc iMask table_of]. fold (mix other). rewrite Hmix, Hp.
  unfold entry_at, table_of. cbn [mbind outcome_bind pptTable or_fault]. rewrite Hz.
  destruct (M !! key) as [v|]; rewrite Ho in Hd; injection Hd as ->; cbn [rep_slot fmap option_fmap option_map mbind outcome_bind]; [|done].
  rewrite s32_id by (cbn in *; lia). destruct (Z.leb_spec 0 p); [|lia]. rewrite Hz. done.
Qed.

(** ** A table and the calls on it *)

Lemma init_range : 0 < BAS_HASHTABLE_INIT_SIZE.
Proof. destruct init_size_pow2 as (k & _ & ->). apply Z.pow_pos_nonneg; lia. Qed.

Definition empty_slots : list (option (K * V)) := replicate (Z.to_nat BAS_HASHTABLE_INIT_SIZE) None.

Lemma create_inv : 0 <= sizeof_T_HashTable < 2147483648 -> BAS_HASHTABLE_INIT_SIZE <= 2 ^ 27 ->
  gives 2 (basHashTableCreate hf ef fk fv) (Some (table_of empty_slots 0)) /\ inv ∅ empty_slots 0 /\ zlen empty_slots = BAS_HASHTABLE_INIT_SIZE.
Proof.
  intros Hst HI. pose proof init_range as Hpos. destruct init_size_pow2 as (k & Hk & Ek).
  assert (zlen empty_slots = BAS_HASHTABLE_INIT_SIZE) as Hl by (unfold empty_slots, zlen; rewrite length_replicate; lia).
  split_and!; [| |done].
  - unfold basHashTableCreate. apply (malloc_then Hroom 1); [done|]. intros b. apply (malloc_then Hroom 0); [cbn in *; lia|]. intros b'.
    assert (rep empty_slots = replicate (Z.to_nat BAS_HASHTABLE_INIT_SIZE) None) as Hrep by (unfold rep, empty_slots; by rewrite fmap_replicate).
    unfold table_of. rewrite Hrep, Hl. apply gives_ret.
  - split; [unfold empty_slots; rewrite Ek; by apply table_ok_empty|apply maps_to_empty| |unfold empty_slots; by rewrite occupied_empty|lia].
    intros a w Hin. by apply elem_of_replicate in Hin as [? _].
Qed.

(** The slots after [n] insertions at most: an enlarged table was half full. *)
Definition slots_bound (n : Z) : Z := BAS_HASHTABLE_INIT_SIZE + 2 * BAS_HASHTABLE_EXPAND_MULTIPLICAND * n.

Inductive bas_call : Type := Bas_put (key : K) (value : V) | Bas_get (key : K).

Definition bas_key (c : bas_call) : K := match c with Bas_put k _ => k | Bas_get k => k end.

(** The table is changed in place; an insertion answers a status, a search
    the value, [None] for NULL. *)
Fixpoint run_calls (t : T_HashTable (option (list (option (T_HashEntry K V)))) (K -> Z) (K -> K -> Z)) (cs : list bas_call) :
    cmd (list (Z + option V)) :=
  match cs with
  | [] => mret []
  | Bas_put k v :: cs => r ← basHashTableInsert t k v; a ← run_calls r.2 cs; mret (inl r.1 :: a)
  | Bas_get k :: cs => o ← lift (basHashTableSearch t k); a ← run_calls t cs; mret (inr o :: a)
  end.

Fixpoint bas_answers M (cs : list bas_call) : list (Z + option V) :=
  match cs with
  | [] => []
  | Bas_put k v :: cs => inl 0 :: bas_answers (<[k := v]> M) cs
  | Bas_get k :: cs => inr (M !! k) :: bas_answers M cs
  end.

Definition inserts (cs : list bas_call) : Z := countb (λ c, match c with Bas_put _ _ => true | Bas_get _ => false end) cs.

Lemma slots_bound_step z n :
  0 <= n -> 0 < z -> z <= slots_bound n -> load_limit z < n + 1 -> z * BAS_HASHTABLE_EXPAND_MULTIPLICAND <= slots_bound (n + 1).
Proof.
  intros Hn Hz Hb Hl. unfold slots_bound. pose proof (load_limit_half z Hz). pose proof init_range.
  destruct multiplicand_pow2 as (j & Hj & Ej). assert (0 < BAS_HASHTABLE_EXPAND_MULTIPLICAND) by (rewrite Ej; apply Z.pow_pos_nonneg; lia).
  assert (z <= 2 * n + 1) as Hz2 by lia. nia.
Qed.

Lemma run_calls_inv cs : forall M L n N, inv M L n -> Forall (λ c, P (bas_key c)) cs -> zlen L <= slots_bound n ->
  n + inserts cs <= N -> slots_bound N * BAS_HASHTABLE_EXPAND_MULTIPLICAND <= 2 ^ 27 ->
  exists d, gives d (run_calls (table_of L n) cs) (bas_answers M cs).
Proof.
  destruct multiplicand_pow2 as (j & Hj & Ej). assert (0 < BAS_HASHTABLE_EXPAND_MULTIPLICAND) as Hmul by (rewrite Ej; apply Z.pow_pos_nonneg; lia).
  induction cs as [|c cs IH]; intros M L n N Hi HP Hz Hn HN; [exists 0; apply gives_ret|].
  apply Forall_cons in HP as [Hk HP]. assert (0 <= n) as Hn0 by (pose proof (occupied_nonneg L); pose proof (in_used _ _ _ Hi); lia).
  assert (0 <= inserts cs) as Hins by apply countb_bounds. pose proof (table_pos mix L (in_ok _ _ _ Hi)) as Hpos.
  unfold inserts in Hn. rewrite countb_cons in Hn. fold (inserts cs) in Hn.
  assert (forall a b, a <= b -> slots_bound a <= slots_bound b) as Hmono by (intros a b Hab; unfold slots_bound; nia).
  destruct c as [k v|k]; cbn [bas_key] in Hk.
  - pose proof (Hmono n N ltac:(lia)) as Hb.
    destruct (insert_inv M L n k v Hi Hk ltac:(nia)) as (d & L' & n' & Hg & Hi' & Hn' & Hz').
    destruct (IH (<[k := v]> M) L' n' N Hi' HP) as (d' & Hg'); [|lia|done|].
    { destruct Hz' as [->|(-> & Hlim & ->)]; [|by apply slots_bound_step]. pose proof (Hmono n n' ltac:(lia)). lia. }
    exists (d + d'). cbn [run_calls bas_answers]. apply (gives_bind d d' _ _ _ _ _ Hg); [|done]. cbn [fst snd].
    apply (gives_bind d' 0 _ _ _ _ _ Hg'); [apply gives_ret|lia].
  - destruct (IH M L n N Hi HP) as (d & Hg); [done|lia|done|]. exists d. cbn [run_calls bas_answers].
    eapply gives_lift_bind; [by apply search_inv|]. apply (gives_bind d 0 _ _ _ _ _ Hg); [apply gives_ret|lia].
Qed.
End refine.

(** ** Destroying *)

Section destroy.
Context `{BasGlobal} `{Indeterminate} {K V : Type}.
Implicit Types (l : list (option (T_HashEntry K V))).

(** The entries in the order of the slots. *)
Fixpoint entries l : list (T_HashEntry K V) :=
  match l with [] => [] | Some e :: l => e :: entries l | None :: l => entries l end.

(** What is given to [free]: with the entries, the keys and values the table
    was told to free. *)
Definition freed (t : T_HashTable (option (list (option (T_HashEntry K V)))) (K -> Z) (K -> K -> Z)) l : released (K := K) (V := V) :=
  mk_released (if iFreeKey t =? BAS_TRUE then BasHashTypes.pvKey <$> entries l else [])
              (if iFreeValue t =? BAS_TRUE then pvValue <$> entries l else []).

Definition freed_blocks (t : T_HashTable (option (list (option (T_HashEntry K V)))) (K -> Z) (K -> K -> Z)) l : Z :=
  zlen (entries l) * (1 + (if iFreeKey t =? BAS_TRUE then 1 else 0) + (if iFreeValue t =? BAS_TRUE then 1 else 0)).

Definition more (r r' : released (K := K) (V := V)) : released (K := K) (V := V) :=
  mk_released (freed_keys r ++ freed_keys r') (freed_values r ++ freed_values r').

Lemma gives_if (b : bool) : gives (if b then -1 else 0) (if b then free_block else mret tt) tt.
Proof. destruct b; [apply gives_free|apply gives_ret]. Qed.

Lemma free_entries_gives t all : pptTable t = Some all -> forall l done r, all = done ++ l ->
  gives (- freed_blocks t l) (free_entries_loop (length l) (zlen done) t r) (more r (freed t l)).
Proof.
  intros Ht. induction l as [|[e|] l IH]; intros found r Hall; cbn [free_entries_loop length].
  - destruct r. unfold more, freed, freed_blocks. cbn. rewrite Z.mul_0_l. destruct (_ =? _), (_ =? _); rewrite !app_nil_r; apply gives_ret.
  - eapply gives_lift_bind; [by rewrite Ht|]. eapply gives_lift_bind; [rewrite Hall, zget_app_r, Z.sub_diag by lia; done|].
    specialize (IH (found ++ [Some e]) (mk_released (freed_keys r ++ if iFreeKey t =? BAS_TRUE then [BasHashTypes.pvKey e] else [])
      (freed_values r ++ if iFreeValue t =? BAS_TRUE then [pvValue e] else []))).
    rewrite zlen_app, <- app_assoc in IH. specialize (IH Hall). unfold freed_blocks in *. cbn [entries]. rewrite zlen_cons.
    assert (more (mk_released (freed_keys r ++ if iFreeKey t =? BAS_TRUE then [BasHashTypes.pvKey e] else [])
      (freed_values r ++ if iFreeValue t =? BAS_TRUE then [pvValue e] else [])) (freed t l) = more r (freed t (Some e :: l))) as <-.
    { unfold more, freed. cbn [freed_keys freed_values entries fmap list_fmap]. destruct (_ =? _), (_ =? _); cbn; by rewrite <- ?app_assoc. }
    eapply gives_bind; [apply gives_if|eapply gives_bind; [apply gives_if|eapply gives_bind; [apply gives_free|exact IH|reflexivity]|reflexivity]|].
    destruct (_ =? _), (_ =? _); lia.
  - eapply gives_lift_bind; [by rewrite Ht|]. eapply gives_lift_bind; [rewrite Hall, zget_app_r, Z.sub_diag by lia; done|].
    specialize (IH (found ++ [None]) r). rewrite zlen_app, <- app_assoc in IH. exact (IH Hall).
Qed.

Lemma destroy_gives t l : pptTable t = Some l -> iMask t = zlen l - 1 -> zlen l < 2147483648 ->
  gives (- (2 + freed_blocks t l)) (basHashTableDestroy t) (freed t l).
Proof.
  intros Ht Hm Hl. pose proof (zlen_nonneg l). unfold basHashTableDestroy. rewrite Hm.
  eapply gives_lift_bind; [unfold int_range; destruct (Z.leb_spec (-2147483648) (zlen l - 1 + 1)), (Z.leb_spec (zlen l - 1 + 1) 2147483647); first [done|lia]|].
  replace (Z.to_nat (zlen l - 1 + 1)) with (length l) by (unfold zlen; lia).
  pose proof (free_entries_gives t l Ht l [] (mk_released [] []) eq_refl) as Hg. cbn [app] in Hg.
  assert (more (mk_released [] []) (freed t l) = freed t l) as E by (by destruct (freed t l)). rewrite E in Hg.
  eapply gives_bind; [exact Hg| |].
  - rewrite Ht. eapply gives_bind; [apply gives_free|eapply gives_bind; [apply gives_free|apply gives_ret|reflexivity]|reflexivity].
  - lia.
Qed.
End destroy.
