(* ===== verification/ShmMem.v ===== *)
(** * The shared memory of the search tables

    [bas_shm_search_table.c] keeps everything in one shared memory segment: the
    search buffer at its start, then a heap of blocks with headers, and in the
    blocks structs, arrays, strings and rows.  The memory maps addresses to
    the objects that lie there; writing an object destroys the ones it
    overlaps, and reading an object that is not there, or writing outside the
    segment, is a fault.  Addresses do not wrap around. *)

From S2P Require Import Prelude LibC BasString BasHashTypes.

Inductive FIELD_TYPE : Type := FIELD_TYPE_CHAR | FIELD_TYPE_LONG | FIELD_TYPE_DOUBLE | FIELD_TYPE_OTHER.
Inductive SEARCH_TYPE : Type := SEARCH_TYPE_HASH | SEARCH_TYPE_BINARY | SEARCH_TYPE_TABLE | SEARCH_TYPE_OTHER.

#[export] Instance FIELD_TYPE_eq_dec : EqDecision FIELD_TYPE.
Proof. solve_decision. Defined.
#[export] Instance SEARCH_TYPE_eq_dec : EqDecision SEARCH_TYPE.
Proof. solve_decision. Defined.

(** The structs, with the members the source uses. *)
Record T_MemoryBlock : Type := mk_block {
  caMagicWord : bytes;
  iSize : Z;
  iActualSize : Z;
  ptPrev : Z;
  ptNext : Z;
}.

Record T_SearchFieldDef : Type := mk_field { eType : FIELD_TYPE; iOffset : Z; iLength : Z; iScale : Z }.

Record T_SearchTableDef : Type := mk_search_table {
  pcSearchName : Z;
  iStdSize : Z;
  eSearchType : SEARCH_TYPE;
  iKeyDefArrayLength : Z;
  ptKeyDefArray : Z;
  iContentSize : Z;
  iContentCnt : Z;
  pvContent : Z;
  ptHashTable : Z;
  ppcKeys : Z;
  pptIndex : Z;
}.

Record T_ShmSearchBuf : Type := mk_search_buf { bSupport7x24 : Z; iSection : Z; aptHashTable : list Z }.

Record T_ShmAppDesc : Type := mk_app_desc { pvShmBuf : Z; iShmSize : Z; bDescSupport7x24 : Z; pcDesc : bytes }.

Abbreviation shm_entry := (T_HashEntry Z Z).
Abbreviation shm_table := (T_HashTable Z Z Z).

(** What can lie in the segment; a text stands for its bytes and the NUL. *)
Inductive obj : Type :=
  | O_block (b : T_MemoryBlock)
  | O_buf (b : T_ShmSearchBuf)
  | O_table (t : shm_table)
  | O_slots (l : list Z)
  | O_entry (e : shm_entry)
  | O_text (s : bytes)
  | O_std (d : T_SearchTableDef)
  | O_fields (l : list T_SearchFieldDef)
  | O_row (r : bytes).

(** The sizes of the structs of the missing header, and what fresh memory
    holds: a header that was never written, the words of an array.
    [index_shared] says whether [ptHashTable], [ppcKeys] and [pptTable] of a
    search table are members of one union. *)
Class ShmLayout : Type := {
  sizeof_T_SearchTableDef : Z;
  sizeof_T_SearchFieldDef : Z;
  sizeof_T_ShmSearchBuf : Z;
  index_shared : bool;
  stale_block : Z -> T_MemoryBlock;
  stale_word : Z -> Z;
}.

Definition sizeof_T_MemoryBlock : Z := 40.

Abbreviation memory := (gmap Z obj).

(** The state of the process: the segment and the two variables of the file. *)
Record shm : Type := mk_shm { mem : memory; ptFreeBlock : Z; iLogFlag : Z }.

(** ** A command on the segment; [None] when it has ended the process. *)
Definition sm (A : Type) : Type := shm -> outcome (option (A * shm)).

#[export] Instance sm_ret : MRet sm := λ A a s, Ok (Some (a, s)).
#[export] Instance sm_bind : MBind sm := λ A B f m s,
  r ← m s; match r with Some (a, s') => f a s' | None => Ok None end.

Definition exit {A} : sm A := λ s, Ok None.
Definition pure_of {A} (o : outcome A) : sm A := λ s, a ← o; Ok (Some (a, s)).
Definition get_free_block : sm Z := λ s, Ok (Some (ptFreeBlock s, s)).
Definition set_free_block (p : Z) : sm unit := λ s, Ok (Some (tt, mk_shm (mem s) p (iLogFlag s))).
Definition get_log_flag : sm Z := λ s, Ok (Some (iLogFlag s, s)).
Definition set_log_flag (n : Z) : sm unit := λ s, Ok (Some (tt, mk_shm (mem s) (ptFreeBlock s) n)).

Definition NULL : Z := 0.
(** [SHM_NULL] *)
Definition SHM_NULL : Z := -1.
Definition SHM_MIN_HOLE : Z := 256.
(** ["PSEUDO"] *)
Definition SHM_MAGIC_WORD : bytes := lit "PSEUDO".

Section segment.
Context `{BasHashConst} `{ShmLayout} (gptShmAppDesc : T_ShmAppDesc).

Definition sizeof (o : obj) : Z :=
  match o with
  | O_block _ => sizeof_T_MemoryBlock
  | O_buf _ => sizeof_T_ShmSearchBuf
  | O_table _ => sizeof_T_HashTable
  | O_slots l => 8 * zlen l
  | O_entry _ => sizeof_T_HashEntry
  | O_text s => zlen s + 1
  | O_std _ => sizeof_T_SearchTableDef
  | O_fields l => sizeof_T_SearchFieldDef * zlen l
  | O_row r => zlen r
  end.

(** [n] bytes at [a] and the object at [a'] have no byte in common. *)
Definition apart (a n : Z) (p : Z * obj) : Prop := a + n <= p.1 \/ p.1 + sizeof p.2 <= a.

#[export] Instance apart_dec a n p : Decision (apart a n p).
Proof. unfold apart. apply _. Defined.

Definition clear (a n : Z) (m : memory) : memory := filter (apart a n) m.
Definition put (m : memory) (a : Z) (o : obj) : memory := <[a := o]> (clear a (sizeof o) m).

(** The [n] bytes at [a] lie in the segment. *)
Definition in_segment (a n : Z) : bool :=
  (pvShmBuf gptShmAppDesc <=? a) && (a + n <=? pvShmBuf gptShmAppDesc + iShmSize gptShmAppDesc).

Definition store (a : Z) (o : obj) : sm unit := λ s,
  if in_segment a (sizeof o) then Ok (Some (tt, mk_shm (put (mem s) a o) (ptFreeBlock s) (iLogFlag s)))
  else Fault.

Definition load {A} (view : obj -> option A) (a : Z) : sm A := λ s,
  x ← or_fault (mem s !! a ≫= view); Ok (Some (x, s)).

Definition as_block (o : obj) := match o with O_block b => Some b | _ => None end.
Definition as_buf (o : obj) := match o with O_buf b => Some b | _ => None end.
Definition as_table (o : obj) := match o with O_table t => Some t | _ => None end.
Definition as_slots (o : obj) := match o with O_slots l => Some l | _ => None end.
Definition as_entry (o : obj) := match o with O_entry e => Some e | _ => None end.
Definition as_text (o : obj) := match o with O_text s => Some s | _ => None end.
Definition as_std (o : obj) := match o with O_std d => Some d | _ => None end.
Definition as_fields (o : obj) := match o with O_fields l => Some l | _ => None end.
Definition as_row (o : obj) := match o with O_row r => Some r | _ => None end.

(** A header whose members are written one by one: the others keep what the
    memory held. *)
Definition header_at (a : Z) : sm T_MemoryBlock := λ s,
  Ok (Some (match mem s !! a ≫= as_block with Some b => b | None => stale_block a end, s)).

(** [a->f = ...] on a header that is there. *)
Definition update_block (a : Z) (f : T_MemoryBlock -> T_MemoryBlock) : sm unit :=
  b ← load as_block a; store a (O_block (f b)).

(** [a[i]] and [a[i] = v] of an array of words. *)
Definition load_word (a i : Z) : sm Z := l ← load as_slots a; pure_of (zget l i).
Definition store_word (a i v : Z) : sm unit :=
  l ← load as_slots a; l ← pure_of (zset l i v); store a (O_slots l).

(** An array of [n] words that nothing has written yet. *)
Definition fresh_words (a n : Z) : sm unit := store a (O_slots ((λ i, stale_word (a + 8 * Z.of_nat i)) <$> seq 0 (Z.to_nat n))).

(** The object lies within the [n] bytes at [a]. *)
Definition inside (a n : Z) (p : Z * obj) : Prop := a <= p.1 < a + n /\ p.1 + sizeof p.2 <= a + n.

#[export] Instance inside_dec a n p : Decision (inside a n p).
Proof. unfold inside. apply _. Defined.

(** [memmove(dst, src, n)]: the objects that lie in the source come to lie in
    the destination. *)
Definition memmove (dst src n : Z) : sm unit := λ s,
  if dst =? src then Ok (Some (tt, s))
  else if in_segment dst n && in_segment src n then
    let moved := filter (inside src n) (mem s) in
    Ok (Some (tt, mk_shm (kmap (λ a, a + (dst - src)) moved ∪ clear dst n (mem s)) (ptFreeBlock s) (iLogFlag s)))
  else Fault.

(** [RELATIVE_ADDRESS] and [ABSOLUTE_ADDRESS] *)
Definition RELATIVE_ADDRESS (pt : Z) : Z := pt - pvShmBuf gptShmAppDesc.
Definition ABSOLUTE_ADDRESS (pt : Z) : Z := pt + pvShmBuf gptShmAppDesc.
End segment.

(** Functional updates of the members. *)
Definition set_b_magic (w : bytes) (b : T_MemoryBlock) := mk_block w (iSize b) (iActualSize b) (ptPrev b) (ptNext b).
Definition set_b_size (n : Z) (b : T_MemoryBlock) := mk_block (caMagicWord b) n (iActualSize b) (ptPrev b) (ptNext b).
Definition set_b_actual (n : Z) (b : T_MemoryBlock) := mk_block (caMagicWord b) (iSize b) n (ptPrev b) (ptNext b).
Definition set_b_prev (p : Z) (b : T_MemoryBlock) := mk_block (caMagicWord b) (iSize b) (iActualSize b) p (ptNext b).
Definition set_b_next (p : Z) (b : T_MemoryBlock) := mk_block (caMagicWord b) (iSize b) (iActualSize b) (ptPrev b) p.
