(* ===== verification/ShmAlloc.v ===== *)
(** * The allocator in shared memory ([bas_shm_search_table.c], lines 29-245)

    A heap of blocks, each with a header in front; the free ones are chained.
    Sizes are [size_t]; the loops over the chain have the number of objects in
    memory as their fuel. *)

From S2P Require Import Prelude LibC BasString BasHashTypes ShmMem.

Section allocator.
Context `{BasGlobal} `{BasHashConst} `{ShmLayout} (gptShmAppDesc : T_ShmAppDesc).
Abbreviation store := (store gptShmAppDesc).
Abbreviation update_block := (update_block gptShmAppDesc).
Abbreviation RELATIVE_ADDRESS := (RELATIVE_ADDRESS gptShmAppDesc).
Abbreviation ABSOLUTE_ADDRESS := (ABSOLUTE_ADDRESS gptShmAppDesc).

Definition basInitShmBlock : sm unit :=
  let base := pvShmBuf gptShmAppDesc in
  let pvBuf := base + sizeof_T_ShmSearchBuf in
  let lPad := 8 - u64 pvBuf mod 8 in
  let pvBuf := pvBuf + lPad in
  let lHeapSize := s64 (iShmSize gptShmAppDesc - sizeof_T_ShmSearchBuf - lPad) in
  ptSSB ← load as_buf base;
  let double := bDescSupport7x24 gptShmAppDesc =? BAS_TRUE in
  let lHeapSize := if double then Z.quot lHeapSize 2 else lHeapSize in
  tables ← pure_of (zset (aptHashTable ptSSB) (if double then 1 - iSection ptSSB else 0) SHM_NULL);
  _ ← store base (O_buf (mk_search_buf (bSupport7x24 ptSSB) (iSection ptSSB) tables));
  let lHeapSize := lHeapSize - u64 lHeapSize mod 8 in
  let first := if double then pvBuf + lHeapSize * (1 - iSection ptSSB) else pvBuf in
  b ← header_at first;
  _ ← store first (O_block (mk_block (caMagicWord b) (u64 lHeapSize) (iActualSize b) NULL NULL));
  set_free_block first.

(** A bound on the length of a chain. *)
Definition chain_fuel : sm nat := λ s, Ok (Some (S (size (mem s)), s)).
Definition out_of_fuel {A} : sm A := λ s, NoFuel.

Fixpoint find_loop (fuel : nat) (ptMB sz : Z) : sm Z :=
  match fuel with
  | O => out_of_fuel
  | S fuel =>
      if ptMB =? NULL then mret NULL
      else b ← load as_block ptMB; if sz <=? iSize b then mret ptMB else find_loop fuel (ptNext b) sz
  end.

Definition findFreeBlock (sz : Z) : sm Z := n ← chain_fuel; p ← get_free_block; find_loop n p sz.

Definition calcActualSize (sz : Z) : Z :=
  let actualSize := u64 (sz + sizeof_T_MemoryBlock) in
  u64 (actualSize + (8 - actualSize mod 8)).

(** [if (prev == NULL) ptFreeBlock = next; else prev->ptNext = next;] *)
Definition link_after (prev next : Z) : sm unit :=
  if prev =? NULL then set_free_block next else update_block prev (set_b_next next).

Definition shmMalloc (sz : Z) : sm Z :=
  let actualSize := calcActualSize sz in
  ptMB ← findFreeBlock actualSize;
  if ptMB =? NULL then mret NULL else
  b ← load as_block ptMB;
  _ ← (if ptNext b =? NULL then
         (* the last block of the chain *)
         let ptLast := ptMB + actualSize in
         h ← header_at ptLast;
         _ ← store ptLast (O_block (mk_block (caMagicWord h) (u64 (iSize b - actualSize)) 0 (ptPrev b) NULL));
         _ ← link_after (ptPrev b) ptLast;
         update_block ptMB (set_b_size actualSize)
       else if u64 (iSize b - actualSize) <? SHM_MIN_HOLE then
         (* the whole block *)
         _ ← update_block (ptNext b) (set_b_prev (ptPrev b));
         link_after (ptPrev b) (ptNext b)
       else
         let next := ptMB + actualSize in
         h ← header_at next;
         _ ← store next (O_block (mk_block (caMagicWord h) (u64 (iSize b - actualSize)) 0 (ptPrev b) (ptNext b)));
         link_after (ptPrev b) next);
  _ ← update_block ptMB (λ b, mk_block SHM_MAGIC_WORD (iSize b) sz NULL NULL);
  mret (RELATIVE_ADDRESS (ptMB + sizeof_T_MemoryBlock)).

(** The block lies between [ptMB] and its successor [next]. *)
Definition insert_between (ptFree ptMB : Z) : sm unit :=
  f ← load as_block ptFree;
  b ← load as_block ptMB;
  let next := ptNext b in
  if ptFree + iSize f =? next then
    (* joins the block behind it *)
    n ← load as_block next;
    _ ← store ptFree (O_block (mk_block (caMagicWord f) (u64 (iSize f + iSize n)) (iActualSize f) (ptPrev n) (ptNext n)));
    _ ← update_block ptMB (set_b_next ptFree);
    if ptMB + iSize b =? ptFree then
      f ← load as_block ptFree;
      _ ← update_block ptMB (λ b, set_b_next (ptNext f) (set_b_size (u64 (iSize b + iSize f)) b));
      if ptNext f =? NULL then mret tt else update_block (ptNext f) (set_b_prev ptMB)
    else mret tt
  else if ptMB + iSize b =? ptFree then
    (* joins the block in front of it *)
    update_block ptMB (set_b_size (u64 (iSize b + iSize f)))
  else
    _ ← update_block ptFree (λ f, set_b_next next (set_b_prev ptMB f));
    _ ← update_block next (set_b_prev ptFree);
    update_block ptMB (set_b_next ptFree).

(** [while (ptMB != NULL) { ...; ptLast = ptMB; ptMB = ptMB->ptNext; }] and
    what follows it. *)
Fixpoint insert_loop (fuel : nat) (ptFree ptMB ptLast : Z) : sm unit :=
  match fuel with
  | O => out_of_fuel
  | S fuel =>
      if ptMB =? NULL then
        l ← load as_block ptLast;
        f ← load as_block ptFree;
        if ptLast + iSize l =? ptFree then update_block ptLast (set_b_size (u64 (iSize l + iSize f)))
        else mret tt
      else
        b ← load as_block ptMB;
        if (ptMB <? ptFree) && (ptFree <? ptNext b) then insert_between ptFree ptMB
        else insert_loop fuel ptFree (ptNext b) ptMB
  end.

Definition addToFreeChain (ptFree : Z) : sm unit :=
  ptMB ← get_free_block;
  _ ← update_block ptFree (set_b_magic (replicate 6 0));
  f ← load as_block ptFree;
  if ptFree <? ptMB then
    _ ← (if ptFree + iSize f =? ptMB then
           b ← load as_block ptMB;
           update_block ptFree (λ f, mk_block (caMagicWord f) (u64 (iSize f + iSize b)) (iActualSize f) NULL (ptNext b))
         else update_block ptFree (λ f, set_b_next ptMB (set_b_prev NULL f)));
    set_free_block ptFree
  else n ← chain_fuel; insert_loop n ptFree ptMB NULL.

(** [exit(1)] on a block whose magic word is gone; [pv] and the result are
    relative addresses. *)
Definition shmRealloc (pv sz : Z) : sm Z :=
  let ptOld := ABSOLUTE_ADDRESS pv - sizeof_T_MemoryBlock in
  b ← load as_block ptOld;
  let iOldSize := iActualSize b in
  if negb (bool_decide (caMagicWord b = SHM_MAGIC_WORD)) then exit else
  _ ← addToFreeChain ptOld;
  pvNew ← shmMalloc sz;
  if pvNew =? NULL then mret NULL else
  _ ← memmove gptShmAppDesc (ABSOLUTE_ADDRESS pvNew) (ABSOLUTE_ADDRESS pv) iOldSize;
  mret pvNew.
End allocator.
