(* ===== verification/ShmMemFacts.v ===== *)
(** * Reasoning about commands on the segment

    [runs m s a s']: the command ends normally with [a] and leaves [s'].  What
    an object's write leaves of the others, and [keeps T], the frame of a
    command that writes at or above [T] only. *)

From S2P Require Import Prelude LibC Buffers BasString BasHashTypes ShmMem ShmAlloc.

Abbreviation runs m s a s' := (m s = Ok (Some (a, s'))).

Lemma runs_bind {A B} (m : sm A) (f : A -> sm B) s a s' r : runs m s a s' -> f a s' = r -> (m ≫= f) s = r.
Proof. intros Hm <-. unfold mbind, sm_bind. by rewrite Hm. Qed.

Lemma runs_pure {A} (o : outcome A) a s : o = Ok a -> runs (pure_of o) s a s.
Proof. by intros ->. Qed.

Lemma int_range_ok z : -2147483648 <= z <= 2147483647 -> int_range z = Ok z.
Proof. intros Hz. unfold int_range. destruct (Z.leb_spec (-2147483648) z), (Z.leb_spec z 2147483647); done || lia. Qed.

(** The state with another memory, or another chain. *)
Definition with_mem (m : memory) (s : shm) : shm := mk_shm m (ptFreeBlock s) (iLogFlag s).
Definition with_free (p : Z) (s : shm) : shm := mk_shm (mem s) p (iLogFlag s).

(** The structs of the missing header are not empty. *)
Class SizeLaws `{BasHashConst} `{ShmLayout} : Prop := {
  sizes_pos : 0 < sizeof_T_HashTable /\ 0 < sizeof_T_HashEntry /\ 0 < sizeof_T_SearchTableDef /\
              0 < sizeof_T_SearchFieldDef /\ 0 < sizeof_T_ShmSearchBuf;
}.

Lemma sizeof_nonneg `{SizeLaws} o : 0 <= sizeof o.
Proof.
  destruct sizes_pos as (? & ? & ? & ? & ?).
  destruct o as [| | |l| |s| |l|r]; cbn [sizeof]; unfold sizeof_T_MemoryBlock; try lia;
    first [pose proof (zlen_nonneg l)|pose proof (zlen_nonneg s)|pose proof (zlen_nonneg r)]; nia.
Qed.

Section frames.
Context `{BasHashConst} `{ShmLayout} (D : T_ShmAppDesc).

Lemma clear_lookup a n m a' o' : m !! a' = Some o' -> apart a n (a', o') -> clear a n m !! a' = Some o'.
Proof. intros Hm Ha. apply map_lookup_filter_Some. done. Qed.

Lemma put_eq m a o : put m a o !! a = Some o.
Proof. unfold put. apply lookup_insert_eq. Qed.

Lemma put_apart m a o a' o' : m !! a' = Some o' -> a <> a' -> apart a (sizeof o) (a', o') -> put m a o !! a' = Some o'.
Proof. intros Hm Hne Ha. unfold put. rewrite lookup_insert_ne by done. by apply clear_lookup. Qed.

Lemma put_below m a o a' o' : m !! a' = Some o' -> a' < a -> a' + sizeof o' <= a -> put m a o !! a' = Some o'.
Proof. intros Hm Hl He. apply put_apart; [done|lia|right; simpl; lia]. Qed.

Lemma put_above m a o a' o' : m !! a' = Some o' -> a < a' -> a + sizeof o <= a' -> put m a o !! a' = Some o'.
Proof. intros Hm Hl He. apply put_apart; [done|lia|left; simpl; lia]. Qed.

(** ** No two objects overlap *)

Definition disjoint_mem (m : memory) : Prop :=
  forall a o a' o', m !! a = Some o -> m !! a' = Some o' -> a <> a' -> apart a (sizeof o) (a', o').

Lemma apart_sym a o a' o' : apart a (sizeof o) (a', o') -> apart a' (sizeof o') (a, o).
Proof. unfold apart. simpl. tauto. Qed.

Lemma disjoint_put m a o : disjoint_mem m -> disjoint_mem (put m a o).
Proof.
  intros Hm x ox y oy Hx Hy Hne. unfold put in *.
  destruct (decide (x = a)) as [->|Hxa], (decide (y = a)) as [->|Hya]; [done|..].
  - rewrite lookup_insert_eq in Hx. rewrite lookup_insert_ne in Hy by done. injection Hx as <-.
    by apply map_lookup_filter_Some in Hy as [_ ?].
  - rewrite lookup_insert_eq in Hy. rewrite lookup_insert_ne in Hx by done. injection Hy as <-.
    apply map_lookup_filter_Some in Hx as [_ ?]. by apply apart_sym.
  - rewrite lookup_insert_ne in Hx, Hy by done.
    apply map_lookup_filter_Some in Hx as [Hx _]. apply map_lookup_filter_Some in Hy as [Hy _]. by apply Hm.
Qed.

(** Writing over an object of the same size changes that object only. *)
Lemma put_same m a o o' a' : disjoint_mem m -> m !! a = Some o -> sizeof o' = sizeof o -> a' <> a -> put m a o' !! a' = m !! a'.
Proof.
  intros Hm Ha Hs Hne. unfold put. rewrite lookup_insert_ne by done. unfold clear.
  destruct (m !! a') as [x|] eqn:E.
  - apply map_lookup_filter_Some. split; [done|]. rewrite Hs. by eapply Hm.
  - apply map_lookup_filter_None. by left.
Qed.

(** [m'] has every object of [m] that ends at or below [T]. *)
Definition keeps (T : Z) (m m' : memory) : Prop :=
  forall a o, m !! a = Some o -> a < T -> a + sizeof o <= T -> m' !! a = Some o.

#[export] Instance keeps_preorder T : PreOrder (keeps T).
Proof.
  split; [by intros m a o|]. intros m1 m2 m3 H1 H2 a o Ha Hl He. by apply H2; [apply H1|..].
Qed.

Lemma keeps_le T T' m m' : keeps T m m' -> T' <= T -> keeps T' m m'.
Proof. intros Hk Hle a o Ha Hl He. apply Hk; [done|lia|lia]. Qed.

Lemma keeps_put T m a o : T <= a -> keeps T m (put m a o).
Proof. intros Hle a' o' Ha Hl He. apply put_below; [done|lia|lia]. Qed.

Lemma runs_store s a o : in_segment D a (sizeof o) = true -> runs (store D a o) s tt (with_mem (put (mem s) a o) s).
Proof. unfold store. by intros ->. Qed.

Lemma runs_load {A} (view : obj -> option A) a s o x : mem s !! a = Some o -> view o = Some x -> runs (load view a) s x s.
Proof. unfold load. intros -> Hv. cbn. by rewrite Hv. Qed.

(** A store either works or faults. *)
Lemma store_then_fault {B} s a o (f : unit -> sm B) : f tt (with_mem (put (mem s) a o) s) = Fault -> (store D a o ≫= f) s = Fault.
Proof. intros Hf. unfold mbind, sm_bind, store. by destruct (in_segment D a (sizeof o)). Qed.

Lemma load_then_fault {A B} (view : obj -> option A) s a o (f : A -> sm B) :
  mem s !! a = Some o -> view o = None -> (load view a ≫= f) s = Fault.
Proof. intros Ha Hv. unfold mbind, sm_bind, load. by rewrite Ha; cbn; rewrite Hv. Qed.

Lemma runs_update s a f b :
  mem s !! a = Some (O_block b) -> in_segment D a 40 = true ->
  runs (update_block D a f) s tt (with_mem (put (mem s) a (O_block (f b))) s).
Proof.
  intros Hm Hi. unfold update_block. eapply runs_bind; [by eapply runs_load|]. by apply runs_store.
Qed.

Lemma in_segment_true a n : pvShmBuf D <= a -> a + n <= pvShmBuf D + iShmSize D -> in_segment D a n = true.
Proof. intros. unfold in_segment. lia. Qed.

Lemma runs_load_word s a i l v : mem s !! a = Some (O_slots l) -> zget l i = Ok v -> runs (load_word a i) s v s.
Proof. intros Hm Hz. unfold load_word. eapply runs_bind; [by eapply runs_load|]. by apply runs_pure. Qed.

Lemma runs_store_word s a i l v :
  mem s !! a = Some (O_slots l) -> 0 <= i < zlen l -> in_segment D a (8 * zlen l) = true ->
  runs (store_word D a i v) s tt (with_mem (put (mem s) a (O_slots (<[Z.to_nat i := v]> l))) s).
Proof.
  intros Hm Hi Hs. unfold store_word. eapply runs_bind; [by eapply runs_load|].
  eapply runs_bind; [by apply runs_pure, zset_in_range|]. apply runs_store. cbn [sizeof]. by rewrite zlen_insert.
Qed.

#[local] Instance shift_inj d : Inj (=) (=) (λ a, a + d).
Proof. intros a a' E. lia. Qed.

(** Moving the objects of a block. *)
Lemma runs_memmove s dst src n :
  dst <> src -> in_segment D dst n = true -> in_segment D src n = true ->
  exists m, runs (memmove D dst src n) s tt (with_mem m s) /\
    (forall a o, mem s !! a = Some o -> apart dst n (a, o) -> (a < dst \/ dst + n <= a) -> m !! a = Some o) /\
    (forall a o, mem s !! a = Some o -> inside src n (a, o) -> m !! (a + (dst - src)) = Some o) /\
    (disjoint_mem (mem s) -> disjoint_mem m).
Proof.
  intros Hne Hd Hs. unfold memmove. destruct (Z.eqb_spec dst src); [done|]. rewrite Hd, Hs. simpl.
  eexists. split; [done|]. split_and!.
  - intros a o Ha Hap Hout. rewrite lookup_union_r.
    + by apply clear_lookup.
    + apply eq_None_not_Some. intros (x & (a' & -> & Hx)%(lookup_kmap_Some _)).
      apply map_lookup_filter_Some in Hx as (_ & Hin & _). cbn [fst] in Hin. lia.
  - intros a o Ha Hin. apply lookup_union_Some_l. rewrite (lookup_kmap (λ a, a + (dst - src))).
    by apply map_lookup_filter_Some.
  - intros Hm x ox y oy Hx Hy Hxy.
    assert (forall z oz, (kmap (λ a, a + (dst - src)) (filter (inside src n) (mem s)) ∪ clear dst n (mem s)) !! z = Some oz ->
      (mem s !! (z - (dst - src)) = Some oz /\ inside dst n (z, oz)) \/ (mem s !! z = Some oz /\ apart dst n (z, oz))) as Hcase.
    { intros z oz [Hz|[_ Hz]]%lookup_union_Some_raw.
      - left. apply (lookup_kmap_Some _) in Hz as (a & -> & Ha). apply map_lookup_filter_Some in Ha as [Ha [Hi1 Hi2]].
        cbn [fst snd] in *. replace (a + (dst - src) - (dst - src)) with a by lia. split; [done|]. split; cbn; lia.
      - right. by apply map_lookup_filter_Some in Hz. }
    apply Hcase in Hx. apply Hcase in Hy. unfold apart, inside in *. cbn [fst snd] in *.
    destruct Hx as [[Hx Hix]|[Hx Hix]], Hy as [[Hy Hiy]|[Hy Hiy]]; try lia.
    + destruct (Hm _ _ _ _ Hx Hy ltac:(lia)) as [?|?]; cbn [fst snd] in *; lia.
    + by apply (Hm _ _ _ _ Hx Hy).
Qed.
End frames.

(** ** The allocator with a single free block

    After [basInitShmBlock] the chain is one block that reaches to the end of
    the heap, and the calls the library makes keep it so: [shmMalloc] cuts its
    block off the front, and [shmRealloc] to a larger size either grows the
    block in place, when it touches the free one, or takes a new one and loses
    the old. *)

Section bump.
Context `{BasGlobal} `{BasHashConst} `{ShmLayout} (D : T_ShmAppDesc).

(** The chain is the block from [T] to the end [E] of the heap. *)
Record tail_ok (E T : Z) (s : shm) : Prop := {
  tail_free : ptFreeBlock s = T;
  tail_block : exists b, mem s !! T = Some (O_block b) /\ iSize b = E - T /\ ptPrev b = NULL /\ ptNext b = NULL;
  tail_range : 0 < pvShmBuf D <= T /\ T + 40 <= E <= pvShmBuf D + iShmSize D /\ E < 2 ^ 62;
}.

(** A block in use, with the header in front of the address handed out. *)
Definition used_block (size actual : Z) : obj := O_block (mk_block SHM_MAGIC_WORD size actual NULL NULL).

Lemma calcActualSize_eq sz : 0 <= sz < 2 ^ 62 -> calcActualSize sz = 8 * ((sz + 40) / 8) + 8.
Proof.
  intros Hsz. unfold calcActualSize, sizeof_T_MemoryBlock. rewrite (u64_id (sz + 40)) by (cbn in *; lia).
  pose proof (Z.div_mod (sz + 40) 8 ltac:(lia)). pose proof (Z.mod_pos_bound (sz + 40) 8 ltac:(lia)).
  rewrite u64_id by (cbn in *; lia). lia.
Qed.

Lemma calcActualSize_bounds sz : 0 <= sz < 2 ^ 62 -> sz + 40 < calcActualSize sz <= sz + 48.
Proof.
  intros Hsz. rewrite calcActualSize_eq by done.
  pose proof (Z.div_mod (sz + 40) 8 ltac:(lia)). pose proof (Z.mod_pos_bound (sz + 40) 8 ltac:(lia)). lia.
Qed.

Lemma find_tail E T s sz : tail_ok E T s -> sz <= E - T -> runs (findFreeBlock sz) s T s.
Proof.
  intros [Hf (b & Hb & Hsz & _) Hr] Hle. unfold findFreeBlock.
  eapply runs_bind; [done|]. eapply runs_bind; [done|]. rewrite Hf. cbn [find_loop].
  destruct (Z.eqb_spec T NULL); [unfold NULL in *; lia|].
  eapply runs_bind; [by eapply runs_load|]. rewrite Hsz. destruct (Z.leb_spec sz (E - T)); [done|lia].
Qed.

Lemma find_none E T s sz : tail_ok E T s -> E - T < sz -> runs (findFreeBlock sz) s NULL s.
Proof.
  intros [Hf (b & Hb & Hsz & _ & Hn) Hr] Hle. unfold findFreeBlock.
  eapply runs_bind; [done|]. eapply runs_bind; [done|]. rewrite Hf. cbn [find_loop].
  destruct (Z.eqb_spec T NULL); [unfold NULL in *; lia|].
  eapply runs_bind; [by eapply runs_load|]. rewrite Hsz. destruct (Z.leb_spec sz (E - T)); [lia|].
  rewrite Hn. assert (size (mem s) <> 0%nat) as Hs.
  { intros Hz%map_size_empty_inv. by rewrite Hz, lookup_empty in Hb. }
  destruct (size (mem s)); [done|]. done.
Qed.

Lemma tail_in_segment E T s a n : tail_ok E T s -> pvShmBuf D <= a -> a + n <= E -> in_segment D a n = true.
Proof. intros [_ _ Hr] Ha Hn. apply in_segment_true; lia. Qed.

(** Without room for the request, or with the heap not initialised in this
    process, nothing changes. *)
Lemma malloc_full E T s sz : tail_ok E T s -> E - T < calcActualSize sz -> runs (shmMalloc D sz) s NULL s.
Proof.
  intros Ht Hlt. unfold shmMalloc. eapply runs_bind; [by eapply find_none|]. done.
Qed.

(** The cut: block [T] of which [size] bytes are taken and the rest, behind
    it, becomes the chain. *)
Lemma malloc_cut E T s sz b :
  runs (findFreeBlock (calcActualSize sz)) s T s ->
  mem s !! T = Some (O_block b) -> iSize b = E - T -> ptPrev b = NULL -> ptNext b = NULL ->
  0 < pvShmBuf D <= T -> E <= pvShmBuf D + iShmSize D -> E < 2 ^ 62 -> 0 <= sz < 2 ^ 62 ->
  T + calcActualSize sz + 40 <= E ->
  exists m, runs (shmMalloc D sz) s (RELATIVE_ADDRESS D (T + 40)) (mk_shm m (T + calcActualSize sz) (iLogFlag s)) /\
    tail_ok E (T + calcActualSize sz) (mk_shm m (T + calcActualSize sz) (iLogFlag s)) /\
    m !! T = Some (used_block (calcActualSize sz) sz) /\
    (forall a o, mem s !! a = Some o -> a <> T -> a + sizeof o <= T + calcActualSize sz -> apart T 40 (a, o) ->
       a < T + calcActualSize sz -> m !! a = Some o) /\
    (disjoint_mem (mem s) -> disjoint_mem m).
Proof.
  intros Hfind Hb Hsz Hp Hn Hbase HE HE2 Hsz2 Hroom. pose proof (calcActualSize_bounds sz Hsz2) as Hact.
  set (act := calcActualSize sz) in *. unfold shmMalloc. fold act.
  set (h := match mem s !! (T + act) ≫= as_block with Some b => b | None => stale_block (T + act) end).
  set (last := mk_block (caMagicWord h) (E - T - act) 0 NULL NULL).
  set (m1 := put (mem s) (T + act) (O_block last)).
  assert (m1 !! T = Some (O_block b)) as Hm1 by (apply put_below; [done|lia|cbn [sizeof]; unfold sizeof_T_MemoryBlock; lia]).
  set (m2 := put m1 T (O_block (set_b_size act b))).
  set (m3 := put m2 T (used_block act sz)). exists m3.
  assert (m3 !! (T + act) = Some (O_block last)) as Hlast.
  { unfold m3, m2. apply put_above; [apply put_above; [apply put_eq|..]|..]; cbn [sizeof used_block]; unfold sizeof_T_MemoryBlock; lia. }
  split_and!.
  - eapply runs_bind; [exact Hfind|]. destruct (Z.eqb_spec T NULL); [unfold NULL in *; lia|].
    eapply runs_bind; [by eapply runs_load|]. rewrite Hn.
    eapply (runs_bind _ _ s tt (mk_shm m2 (T + act) (iLogFlag s))).
    + cbn. eapply runs_bind; [done|]. fold h. rewrite Hsz, Hp. rewrite u64_id by (cbn in *; lia). fold last.
      eapply runs_bind; [apply runs_store, in_segment_true; cbn [sizeof]; unfold sizeof_T_MemoryBlock; lia|].
      eapply runs_bind; [done|]. apply (runs_update D (mk_shm m1 (T + act) (iLogFlag s))); [done|].
      apply in_segment_true; lia.
    + eapply runs_bind; [|done]. unfold m3, used_block.
      apply (runs_update D (mk_shm m2 (T + act) (iLogFlag s)) T (λ b, mk_block SHM_MAGIC_WORD (iSize b) sz NULL NULL) (set_b_size act b));
        [apply put_eq|]. apply in_segment_true; lia.
  - split; [done| |lia]. exists last. cbn [last iSize ptPrev ptNext]. split_and!; [exact Hlast|lia|done..].
  - apply put_eq.
  - intros a o Ha Hne Hend Hap Hlt. unfold m3, m2.
    apply put_apart; [apply put_apart; [|congruence|exact Hap]|congruence|exact Hap].
    apply put_below; [done|lia|lia].
  - intros Hd. by repeat apply disjoint_put.
Qed.

Theorem malloc_bump E T s sz :
  tail_ok E T s -> 0 <= sz < 2 ^ 62 -> T + calcActualSize sz + 40 <= E ->
  exists m, runs (shmMalloc D sz) s (RELATIVE_ADDRESS D (T + 40)) (mk_shm m (T + calcActualSize sz) (iLogFlag s)) /\
    tail_ok E (T + calcActualSize sz) (mk_shm m (T + calcActualSize sz) (iLogFlag s)) /\
    m !! T = Some (used_block (calcActualSize sz) sz) /\ keeps T (mem s) m /\
    (disjoint_mem (mem s) -> disjoint_mem m).
Proof.
  intros Ht Hsz Hroom. pose proof Ht as [Hf (b & Hb & Hbs & Hp & Hn) Hr].
  pose proof (calcActualSize_bounds sz Hsz) as Hact.
  destruct (malloc_cut E T s sz b) as (m & Hrun & Ht' & Hm & Hk & Hd); [by eapply find_tail; [done|lia]|done..|lia|lia|lia|done|done|].
  exists m. split_and!; [done..| |done]. intros a o Ha Hl He. apply Hk; [done|lia|lia|right; simpl; lia|lia].
Qed.
(** ** Giving a block back *)

(** A block in front of the free one: it joins it, or heads the chain. *)
Lemma free_in_front E T s h n old :
  tail_ok E T s -> pvShmBuf D <= h -> 40 < n -> h + n <= T -> mem s !! h = Some (used_block n old) ->
  exists m, runs (addToFreeChain D h) s tt (mk_shm m h (iLogFlag s)) /\
    m !! h = Some (O_block (if h + n =? T then mk_block (replicate 6 0) (E - h) old NULL NULL
                            else mk_block (replicate 6 0) n old NULL T)) /\
    (forall a o, mem s !! a = Some o -> a <> h -> apart h 40 (a, o) -> m !! a = Some o) /\
    (disjoint_mem (mem s) -> disjoint_mem m).
Proof.
  intros [Hf (b & Hb & Hbs & Hp & Hn) Hr] Hbase Hn0 Hend Hh. unfold addToFreeChain.
  assert (in_segment D h 40 = true) as Hin by (apply in_segment_true; lia).
  set (s1 := with_mem (put (mem s) h (O_block (set_b_magic (replicate 6 0) (mk_block SHM_MAGIC_WORD n old NULL NULL)))) s).
  set (new := if h + n =? T then mk_block (replicate 6 0) (E - h) old NULL NULL else mk_block (replicate 6 0) n old NULL T).
  exists (put (mem s1) h (O_block new)). split_and!; [|apply put_eq| |intros Hd; by repeat apply disjoint_put].
  - eapply runs_bind; [done|]. rewrite Hf.
    eapply runs_bind; [by apply runs_update|]. fold s1.
    eapply runs_bind; [eapply runs_load; [apply put_eq|done]|]. cbn [set_b_magic iSize].
    destruct (Z.ltb_spec h T); [|lia].
    eapply (runs_bind _ _ s1 tt (with_mem (put (mem s1) h (O_block new)) s1)); [|done].
    destruct (Z.eqb_spec (h + n) T) as [E'|E'].
    + eapply runs_bind.
      { apply (runs_load as_block T s1 (O_block b) b); [|done]. apply put_above; [exact Hb|lia|]. cbn [sizeof]. unfold sizeof_T_MemoryBlock. lia. }
      rewrite Hn, Hbs. erewrite runs_update; [|apply put_eq|done].
      cbn [set_b_magic caMagicWord iSize iActualSize]. unfold new. do 6 f_equal. rewrite u64_id by (cbn in *; lia). f_equal. lia.
    + erewrite runs_update; [|apply put_eq|done]. done.
  - intros a o Ha Hne Hap. apply put_apart; [apply put_apart; [done|congruence|done]|congruence|done].
Qed.

Lemma find_second E T s h n old sz b :
  ptFreeBlock s = h -> 0 < h -> mem s !! h = Some (O_block (mk_block (replicate 6 0) n old NULL T)) -> 0 < T ->
  h <> T -> mem s !! T = Some (O_block b) -> iSize b = E - T -> n < sz -> sz <= E - T ->
  runs (findFreeBlock sz) s T s.
Proof.
  intros Hf Hh Hm HT Hne Hb Hbs Hlt Hle. unfold findFreeBlock.
  eapply runs_bind; [done|]. eapply runs_bind; [done|]. rewrite Hf. cbn [find_loop]. unfold NULL.
  destruct (Z.eqb_spec h 0); [lia|]. eapply runs_bind; [by eapply runs_load|]. cbn [iSize ptNext].
  destruct (Z.leb_spec sz n); [lia|]. assert (size (mem s) <> 0%nat) as Hs.
  { intros Hz%map_size_empty_inv. by rewrite Hz, lookup_empty in Hb. }
  destruct (size (mem s)) as [|k]; [done|]. cbn [find_loop]. unfold NULL. destruct (Z.eqb_spec T 0); [lia|].
  eapply runs_bind; [by eapply runs_load|]. rewrite Hbs. by destruct (Z.leb_spec sz (E - T)); [|lia].
Qed.

(** The block at [a] with contents [old] long becomes one of [sz] bytes: in
    place when it touches the free block, behind all blocks otherwise. *)
Theorem realloc_grows E T s a n old sz :
  tail_ok E T s -> mem s !! (a - 40) = Some (used_block n old) ->
  pvShmBuf D <= a - 40 -> a - 40 + n <= T -> 0 <= old -> old + 40 < n -> 0 <= sz < 2 ^ 62 -> n < calcActualSize sz ->
  T + calcActualSize sz + 40 <= E ->
  exists m T' a', runs (shmRealloc D (RELATIVE_ADDRESS D a) sz) s (RELATIVE_ADDRESS D a') (mk_shm m T' (iLogFlag s)) /\
    tail_ok E T' (mk_shm m T' (iLogFlag s)) /\ T < T' /\
    T' = a' - 40 + calcActualSize sz /\ (if a - 40 + n =? T then a' = a else a' = T + 40) /\
    m !! (a' - 40) = Some (used_block (calcActualSize sz) sz) /\
    (forall x o, mem s !! x = Some o -> inside a old (x, o) -> m !! (x + (a' - a)) = Some o) /\
    (forall x o, mem s !! x = Some o -> x < T -> x + sizeof o <= T -> x <> a - 40 -> apart (a - 40) 40 (x, o) -> m !! x = Some o) /\
    (disjoint_mem (mem s) -> disjoint_mem m).
Proof.
  intros Ht Hh Hbase Hend Hold Hn Hsz Hgrow Hroom. pose proof (calcActualSize_bounds sz Hsz) as Hact.
  pose proof Ht as [Hf (b & Hb & Hbs & Hp & Hnx) Hr]. set (act := calcActualSize sz) in *.
  destruct (free_in_front E T s (a - 40) n old) as (m1 & Hrun1 & Hm1 & Hk1 & Hd1); [done|lia|lia|lia|done|].
  set (s1 := mk_shm m1 (a - 40) (iLogFlag s)) in *.
  assert (forall m T' a', runs (shmMalloc D sz) s1 (RELATIVE_ADDRESS D a') (mk_shm m T' (iLogFlag s)) -> pvShmBuf D + 40 <= a' ->
    shmRealloc D (RELATIVE_ADDRESS D a) sz s =
      (_ ← memmove D a' a old; mret (RELATIVE_ADDRESS D a')) (mk_shm m T' (iLogFlag s))) as Hshape.
  { intros m T' a' Hrun Ha'. unfold shmRealloc.
    assert (ABSOLUTE_ADDRESS D (RELATIVE_ADDRESS D a) = a) as -> by (unfold ABSOLUTE_ADDRESS, RELATIVE_ADDRESS; lia).
    eapply runs_bind; [by eapply runs_load|]. cbn [caMagicWord iActualSize]. rewrite bool_decide_eq_true_2 by done. cbn [negb].
    eapply runs_bind; [exact Hrun1|]. eapply runs_bind; [exact Hrun|].
    unfold RELATIVE_ADDRESS, ABSOLUTE_ADDRESS, NULL. destruct (Z.eqb_spec (a' - pvShmBuf D) 0); [lia|].
    by replace (a' - pvShmBuf D + pvShmBuf D) with a' by lia. }
  destruct (Z.eqb_spec (a - 40 + n) T) as [E'|E'].
  - (* in place *)
    destruct (malloc_cut E (a - 40) s1 sz (mk_block (replicate 6 0) (E - (a - 40)) old NULL NULL))
      as (m & Hrun & Ht' & Hm & Hk & Hd); [|exact Hm1|cbn; lia|done|done|lia|lia|lia|done|fold act; lia|].
    { apply find_tail with (E := E); [|fold act; lia]. split; [done|by eexists|lia]. }
    fold act in Hrun, Ht', Hm, Hk. exists m, (a - 40 + act), a. split_and!.
    + erewrite (Hshape m (a - 40 + act) a); [|by replace (a - 40 + 40) with a in Hrun by lia|lia].
      unfold memmove. rewrite Z.eqb_refl. done.
    + exact Ht'.
    + lia.
    + lia.
    + done.
    + exact Hm.
    + intros x o Hx [Hin Hin2]. cbn [fst snd] in *. replace (x + (a - a)) with x by lia.
      apply Hk; [apply Hk1; [done|lia|left; simpl; lia]|lia|lia|left; simpl; lia|lia].
    + intros x o Hx Hl He Hne Hap. apply Hk; [by apply Hk1|done|lia|done|lia].
    + intros Hdm. by apply Hd, Hd1.
  - (* elsewhere *)
    destruct (malloc_cut E T s1 sz b) as (m & Hrun & Ht' & Hm & Hk & Hd); [| |done..|lia|lia|lia|done|fold act; lia|].
    { eapply (find_second E T s1 (a - 40) n old); [done|lia|exact Hm1|lia|lia| |done|fold act; lia|fold act; lia].
      apply Hk1; [done|lia|left; simpl; lia]. }
    { apply Hk1; [done|lia|left; simpl; lia]. }
    fold act in Hrun, Ht', Hm, Hk.
    destruct (runs_memmove D (mk_shm m (T + act) (iLogFlag s)) (T + 40) a old) as (m2 & Hrun2 & Hout & Hin & Hd2);
      [lia|apply in_segment_true; lia|apply in_segment_true; lia|].
    exists m2, (T + act), (T + 40).
    assert (forall x o, m !! x = Some o -> x + sizeof o <= T + 40 -> x < T + 40 -> m2 !! x = Some o) as Hlow.
    { intros x o Hx He Hl. apply Hout; [done|right; simpl; lia|left; lia]. }
    split_and!.
    + rewrite (Hshape _ _ _ Hrun) by lia. eapply runs_bind; [exact Hrun2|]. done.
    + destruct Ht' as [Ht1 (b' & Hb' & Hrest) Hr']. split; [done| |done]. exists b'. split; [|done].
      apply Hout; [done|left; simpl; lia|right; lia].
    + lia.
    + lia.
    + done.
    + replace (T + 40 - 40) with T by lia. apply Hlow; [done| |lia].
      cbn [used_block sizeof]. unfold sizeof_T_MemoryBlock. lia.
    + intros x o Hx Hins. apply Hin; [|done]. destruct Hins as [Hx1 Hx2]. cbn [fst snd] in *.
      apply Hk; [apply Hk1; [done|lia|left; simpl; lia]|lia|lia|right; simpl; lia|lia].
    + intros x o Hx Hl He Hne Hap. apply Hlow; [|lia|lia].
      apply Hk; [by apply Hk1|lia|lia|right; simpl; lia|lia].
    + intros Hdm. by apply Hd2, Hd, Hd1.
Qed.
End bump.
