(* ===== verification/ShmHash.v ===== *)
(** * The hash table in shared memory ([bas_shm_search_table.c], lines 247-497)

    The table, its array of slots, its entries and their keys are blocks of the
    heap, and refer to each other by addresses relative to the segment. *)

From S2P Require Import Prelude LibC Buffers BasString BasProbe BasHashTypes ShmMem ShmAlloc.

Section shm_hash.
Context `{BasGlobal} `{BasHashConst} `{ShmLayout} (gptShmAppDesc : T_ShmAppDesc).
Abbreviation store := (store gptShmAppDesc).
Abbreviation store_word := (store_word gptShmAppDesc).
Abbreviation shmMalloc := (shmMalloc gptShmAppDesc).
Abbreviation shmRealloc := (shmRealloc gptShmAppDesc).
Abbreviation RELATIVE_ADDRESS := (RELATIVE_ADDRESS gptShmAppDesc).
Abbreviation ABSOLUTE_ADDRESS := (ABSOLUTE_ADDRESS gptShmAppDesc).

(** [for (i = 0; i < n; ++i) a[i] = SHM_NULL;] *)
Definition clear_slots (a n : Z) : sm unit := store a (O_slots (replicate (Z.to_nat n) SHM_NULL)).

(** The result is [NULL] or a relative address; [shmMalloc] answers NULL when
    it fails, and not the [SHM_NULL] the function looks for.  The members other
    than [pptTable] hold no meaningful value before the last assignments. *)
Definition shmHashTableCreate : sm Z :=
  ptHashTable ← shmMalloc sizeof_T_HashTable;
  if ptHashTable =? SHM_NULL then mret NULL else
  let ptAbsoluteHT := ABSOLUTE_ADDRESS ptHashTable in
  ppt ← shmMalloc (8 * BAS_HASHTABLE_INIT_SIZE);
  _ ← store ptAbsoluteHT (O_table (mk_hash_table ppt 0 0 0 0 NULL NULL 0 0));
  if ppt =? SHM_NULL then mret NULL else
  t ← load as_table ptAbsoluteHT;
  _ ← clear_slots (ABSOLUTE_ADDRESS (pptTable t)) BAS_HASHTABLE_INIT_SIZE;
  t ← load as_table ptAbsoluteHT;
  _ ← store ptAbsoluteHT (O_table (mk_hash_table (pptTable t) 0 0 (BAS_HASHTABLE_INIT_SIZE - 1)
        (load_limit BAS_HASHTABLE_INIT_SIZE) NULL NULL BAS_FALSE BAS_FALSE));
  mret ptHashTable.

(** [hashkey]: the bytes of a string. *)
Definition hashkey (pvKey : bytes) : Z := foldl (λ k c, u32 (hash_mix k + u8 c)) 0 pvKey.

Definition equalkeys (pvKeyA pvKeyB : bytes) : Z := strcmp pvKeyA pvKeyB.

Definition shm_hash (pvKey : bytes) : Z := hash_mix (hashkey pvKey).

(** The test of a slot, which the three loops repeat: empty, or the entry of
    the key. *)
Definition shm_slot_stops (ppt iHash : Z) (pvKey : bytes) (s : shm) (iSlot : Z) : outcome bool :=
  r ← load_word ppt iSlot s;
  match r with
  | None => Fault
  | Some (ptEntry, _) =>
      if ptEntry =? SHM_NULL then Ok true
      else
        r ← (e ← load as_entry (ABSOLUTE_ADDRESS ptEntry);
             if iHashValue e =? iHash then
               k ← load as_text (ABSOLUTE_ADDRESS (BasHashTypes.pvKey e)); mret (equalkeys pvKey k =? 0)
             else mret false) s;
        match r with Some (b, _) => Ok b | None => Fault end
  end.

(** The loop from the home slot of [iHash] to the slot that stops it. *)
Definition shm_probe (ppt mask iHash : Z) (pvKey : bytes) : sm Z := λ s,
  p ← probe (shm_slot_stops ppt iHash pvKey s) mask iHash; Ok (Some (p, s)).

(** [ptHashTable] is an absolute address. *)
Definition shmInnerHashTableSearch (ptHashTable : Z) (pvKey : bytes) : sm Z :=
  t ← load as_table ptHashTable;
  let ppt := ABSOLUTE_ADDRESS (pptTable t) in
  p ← shm_probe ppt (iMask t) (shm_hash pvKey) pvKey;
  e ← load_word ppt p;
  mret (if e =? SHM_NULL then -1 else s32 p).

(** The absolute address of the value, or NULL. *)
Definition shmHashTableSearch (ptHashTable : Z) (pvKey : bytes) : sm Z :=
  iIndex ← shmInnerHashTableSearch ptHashTable pvKey;
  if 0 <=? iIndex then
    t ← load as_table ptHashTable;
    e ← load_word (ABSOLUTE_ADDRESS (pptTable t)) iIndex;
    e ← load as_entry (ABSOLUTE_ADDRESS e);
    mret (ABSOLUTE_ADDRESS (pvValue e))
  else mret NULL.

(** The loop over the copy: [n] slots from [pp] on. *)
Fixpoint shm_expand_loop (n : nat) (pptTemp i ppt mask : Z) : sm unit :=
  match n with
  | O => mret tt
  | S n =>
      ptSrc ← load_word pptTemp i;
      if ptSrc =? SHM_NULL then shm_expand_loop n pptTemp (i + 1) ppt mask
      else
        let ptSrc := ABSOLUTE_ADDRESS ptSrc in
        e ← load as_entry ptSrc;
        k ← load as_text (ABSOLUTE_ADDRESS (BasHashTypes.pvKey e));
        iSlot ← shm_probe ppt mask (iHashValue e) k;
        _ ← store_word ppt iSlot (RELATIVE_ADDRESS ptSrc);
        shm_expand_loop n pptTemp (i + 1) ppt mask
  end.

(** [ptHashTable] is an absolute address.  The copy is not freed. *)
Definition shmHashTableExpand (ptHashTable : Z) : sm Z :=
  t ← load as_table ptHashTable;
  iOldSize ← pure_of (int_range (iMask t + 1));
  iNewSize ← pure_of (int_range (iOldSize * BAS_HASHTABLE_EXPAND_MULTIPLICAND));
  let ppt := ABSOLUTE_ADDRESS (pptTable t) in
  pptTemp ← shmMalloc (8 * iOldSize);
  if pptTemp =? SHM_NULL then mret (-1) else
  let pptTemp := ABSOLUTE_ADDRESS pptTemp in
  l ← load as_slots ppt;
  _ ← (if zlen l =? iOldSize then store pptTemp (O_slots l) else pure_of Fault);
  p ← shmRealloc (pptTable t) (8 * iNewSize);
  t ← load as_table ptHashTable;
  _ ← store ptHashTable (O_table (set_pptTable p t));
  if p =? SHM_NULL then mret (-1) else
  let ppt := ABSOLUTE_ADDRESS p in
  _ ← clear_slots ppt iNewSize;
  t ← load as_table ptHashTable;
  _ ← store ptHashTable (O_table (set_size (iNewSize - 1) (load_limit iNewSize) t));
  _ ← shm_expand_loop (Z.to_nat iOldSize) pptTemp 0 ppt (iNewSize - 1);
  mret 0.

(** The part of [shmHashTableInsert] after the table has been enlarged. *)
Definition shm_add_entry (ptHashTable : Z) (pvKey pvValue : Z) : sm Z :=
  t ← load as_table ptHashTable;
  let ppt := ABSOLUTE_ADDRESS (pptTable t) in
  k ← load as_text (ABSOLUTE_ADDRESS pvKey);
  let iHash := shm_hash k in
  iSlot ← shm_probe ppt (iMask t) iHash k;
  ptEntry ← shmMalloc sizeof_T_HashEntry;
  if ptEntry =? SHM_NULL then mret (-1) else
  _ ← store_word ppt iSlot ptEntry;
  _ ← store (ABSOLUTE_ADDRESS ptEntry) (O_entry (mk_entry iHash pvKey pvValue));
  mret 0.

(** All three arguments are relative addresses. *)
Definition shmHashTableInsert (ptHashTable pvKey pvValue : Z) : sm Z :=
  let ptHashTable := ABSOLUTE_ADDRESS ptHashTable in
  k ← load as_text (ABSOLUTE_ADDRESS pvKey);
  iIndex ← shmInnerHashTableSearch ptHashTable k;
  t ← load as_table ptHashTable;
  if 0 <=? iIndex then
    a ← load_word (ABSOLUTE_ADDRESS (pptTable t)) iIndex;
    e ← load as_entry (ABSOLUTE_ADDRESS a);
    _ ← store (ABSOLUTE_ADDRESS a) (O_entry (mk_entry (iHashValue e) (BasHashTypes.pvKey e) pvValue));
    mret 0
  else
    n ← pure_of (int_range (iUsed t + 1));
    _ ← store ptHashTable (O_table (set_iUsed n t));
    if iLimit t <? n then
      r ← shmHashTableExpand ptHashTable;
      if negb (r =? 0) then mret (-1) else shm_add_entry ptHashTable pvKey pvValue
    else shm_add_entry ptHashTable pvKey pvValue.
End shm_hash.
