(* ===== verification/ShmSearch.v ===== *)
(** * Search tables in shared memory ([bas_shm_search_table.c], lines 499-1120)

    The text of a key, the loader that reads a database cursor into the
    segment and builds the index, and the searches over the index. *)

From Stdlib Require Import Floats.SpecFloat.
From S2P Require Import Prelude LibC Buffers CFloat BasString BasProbe BasHashTypes ShmMem ShmAlloc ShmHash.

(** ** Printing and raw numbers of the C library *)

(** A magnitude in units of [10^-p], with [p] decimals. *)
Definition print_units (p : nat) (h : Z) : bytes :=
  dec_nat (h / 10 ^ Z.of_nat p) ++ match p with O => [] | _ => 46 :: dec0 p (h mod 10 ^ Z.of_nat p) end.

Definition finite_units (p : nat) (f : spec_float) : Z :=
  match f with
  | S754_finite s m e =>
      if 0 <=? e then Zpos m * 2 ^ e * 10 ^ Z.of_nat p else div_half_even (Zpos m * 10 ^ Z.of_nat p) (2 ^ (- e))
  | _ => 0
  end.

Definition float_sign (f : spec_float) : bool :=
  match f with S754_finite s _ _ | S754_zero s | S754_infinity s => s | S754_nan => false end.

(** ["%0<w>.<p>f"]: a negative width left-justifies, a negative precision is
    the default one, infinities and NaNs are filled with blanks. *)
Definition sprintf_double (w p : Z) (f : spec_float) : bytes :=
  let p := if p <? 0 then 6%nat else Z.to_nat p in
  let sign := if float_sign f then [45] else [] in
  let width := Z.to_nat (Z.abs w) in
  match f with
  | S754_infinity _ => if w <? 0 then pad_right width 32 (sign ++ lit "inf") else pad_left width 32 (sign ++ lit "inf")
  | S754_nan => if w <? 0 then pad_right width 32 (lit "nan") else pad_left width 32 (lit "nan")
  | _ =>
      let digits := print_units p (finite_units p f) in
      if w <? 0 then pad_right width 32 (sign ++ digits)
      else sign ++ pad_left (width - length sign) 48 digits
  end.

(** ["%0<w>ld"] *)
Definition sprintf_long (w z : Z) : bytes :=
  if w <? 0 then pad_right (Z.to_nat (- w)) 32 (dec z) else dec0 (Z.to_nat w) z.

(** ["%-<w>.<w>s"]: at most [w] bytes of the string are read; a negative
    precision is none. *)
Definition sprintf_text (w : Z) (s : bytes) : outcome bytes :=
  if w <? 0 then _ ← strlen s; Ok (pad_right (Z.to_nat (- w)) 32 (content s))
  else if (w <=? zlen s) || negb (bool_decide (content s = s)) then
    Ok (pad_right (Z.to_nat w) 32 (take (Z.to_nat w) (content s)))
  else Fault.

(** Eight bytes at [i] as a number, least significant first. *)
Definition word_at (r : bytes) (i : Z) : outcome Z :=
  if (0 <=? i) && (i + 8 <=? zlen r) then
    Ok (foldr (λ b acc, u8 b + 256 * acc) 0 (take 8 (drop (Z.to_nat i) r)))
  else Fault.

(** The binary64 number with these bits. *)
Definition double_of_bits (z : Z) : spec_float :=
  let s := Z.testbit z 63 in
  let e := Z.shiftr z 52 mod 2048 in
  let m := z mod 2 ^ 52 in
  if e =? 2047 then if m =? 0 then S754_infinity s else S754_nan
  else if e =? 0 then match m with Zpos p => S754_finite s p (-1074) | _ => S754_zero s end
  else match 2 ^ 52 + m with Zpos p => S754_finite s p (e - 1075) | _ => S754_zero s end.

(** ** Keys *)

(** One field of a row as text; [None] for a type the switch does not know. *)
Definition field_of_row (f : T_SearchFieldDef) (pvContent : bytes) : outcome (option bytes) :=
  match eType f with
  | FIELD_TYPE_CHAR =>
      if (0 <=? iOffset f) && (iOffset f <=? zlen pvContent) then
        t ← sprintf_text (iLength f) (drop (Z.to_nat (iOffset f)) pvContent); Ok (Some t)
      else Fault
  | FIELD_TYPE_LONG => z ← word_at pvContent (iOffset f); Ok (Some (sprintf_long (iLength f) (s64 z)))
  | FIELD_TYPE_DOUBLE =>
      z ← word_at pvContent (iOffset f);
      Ok (Some (sprintf_double (iLength f - iScale f) (iScale f) (double_of_bits z)))
  | FIELD_TYPE_OTHER => Ok None
  end.

(** [sprintf] at the end of the text in [mcaKey], 512 bytes. *)
Definition append_key (key t : bytes) : outcome bytes :=
  if zlen key + zlen t <? 512 then Ok (key ++ t) else Fault.

Fixpoint form_key_loop (n : nat) (fields : list T_SearchFieldDef) (i : Z) (pvContent key : bytes) : outcome (option bytes) :=
  match n with
  | O => Ok (Some key)
  | S n =>
      f ← zget fields i;
      t ← field_of_row f pvContent;
      match t with
      | None => Ok None
      | Some t => key ← append_key key t; form_key_loop n fields (i + 1) pvContent key
      end
  end.

(** The key of a row; [fields] is the array [ptKeyDefArray]. *)
Definition formKey (fields : list T_SearchFieldDef) (iKeyDefArrayLength : Z) (pvContent : bytes) : outcome (option bytes) :=
  form_key_loop (Z.to_nat iKeyDefArrayLength) fields 0 pvContent [].

(** The arguments after the last named one; [basShmSearchTable] passes its
    [va_list] as one.  A text is given without its NUL. *)
Inductive vararg : Type :=
  | A_text (s : bytes)
  | A_long (z : Z)
  | A_double (f : spec_float)
  | A_list.

(** [va_arg]: reading an argument of another type is undefined. *)
Definition field_of_arg (f : T_SearchFieldDef) (ap : list vararg) : outcome (option (bytes * list vararg)) :=
  match eType f, ap with
  | FIELD_TYPE_CHAR, A_text s :: ap => t ← sprintf_text (iLength f) (s ++ [0]); Ok (Some (t, ap))
  | FIELD_TYPE_LONG, A_long z :: ap => Ok (Some (sprintf_long (iLength f) z, ap))
  | FIELD_TYPE_DOUBLE, A_double d :: ap => Ok (Some (sprintf_double (iLength f - iScale f) (iScale f) d, ap))
  | FIELD_TYPE_OTHER, _ => Ok None
  | _, _ => Fault
  end.

Fixpoint form_vararg_loop (n : nat) (fields : list T_SearchFieldDef) (i : Z) (ap : list vararg) (key : bytes) : outcome (option bytes) :=
  match n with
  | O => Ok (Some key)
  | S n =>
      f ← zget fields i;
      t ← field_of_arg f ap;
      match t with
      | None => Ok None
      | Some (t, ap) => key ← append_key key t; form_vararg_loop n fields (i + 1) ap key
      end
  end.

Definition formKeyVararg (fields : list T_SearchFieldDef) (iKeyDefArrayLength : Z) (ap : list vararg) : outcome (option bytes) :=
  form_vararg_loop (Z.to_nat iKeyDefArrayLength) fields 0 ap [].

(** ** Loading *)

(** What the database functions of a table answer: whether the cursor opens,
    the rows it fetches, and whether the last fetch says that there are no
    more; and whether [malloc] has room for a row. *)
Record Cursor : Type := mk_cursor { cur_room : bool; cur_opens : bool; cur_rows : list bytes; cur_not_found : bool }.

(** The definition of a table in the memory of the process: its members, and
    what its pointers point to. *)
Record LocalTableDef : Type := mk_local { l_def : T_SearchTableDef; l_name : bytes; l_fields : list T_SearchFieldDef; l_cursor : Cursor }.

Section loader.
Context `{BasGlobal} `{BasHashConst} `{ShmLayout} (gptShmAppDesc : T_ShmAppDesc).
Abbreviation store := (store gptShmAppDesc).
Abbreviation store_word := (store_word gptShmAppDesc).
Abbreviation fresh_words := (fresh_words gptShmAppDesc).
Abbreviation shmMalloc := (shmMalloc gptShmAppDesc).
Abbreviation shmRealloc := (shmRealloc gptShmAppDesc).
Abbreviation shmHashTableCreate := (shmHashTableCreate gptShmAppDesc).
Abbreviation shmHashTableInsert := (shmHashTableInsert gptShmAppDesc).
Abbreviation shmHashTableSearch := (shmHashTableSearch gptShmAppDesc).
Abbreviation clear_slots := (clear_slots gptShmAppDesc).
Abbreviation RELATIVE_ADDRESS := (RELATIVE_ADDRESS gptShmAppDesc).
Abbreviation ABSOLUTE_ADDRESS := (ABSOLUTE_ADDRESS gptShmAppDesc).

Definition MAX_TABLE_KEY_LENGTH : Z := 6.

(** Assignments to members of a search table. *)
Definition set_name (p : Z) (d : T_SearchTableDef) :=
  mk_search_table p (iStdSize d) (eSearchType d) (iKeyDefArrayLength d) (ptKeyDefArray d) (iContentSize d) (iContentCnt d) (pvContent d) (ptHashTable d) (ppcKeys d) (pptIndex d).
Definition set_fields (p : Z) (d : T_SearchTableDef) :=
  mk_search_table (pcSearchName d) (iStdSize d) (eSearchType d) (iKeyDefArrayLength d) p (iContentSize d) (iContentCnt d) (pvContent d) (ptHashTable d) (ppcKeys d) (pptIndex d).
Definition set_content (size cnt p : Z) (d : T_SearchTableDef) :=
  mk_search_table (pcSearchName d) (iStdSize d) (eSearchType d) (iKeyDefArrayLength d) (ptKeyDefArray d) size cnt p (ptHashTable d) (ppcKeys d) (pptIndex d).
Definition set_index (h k t : Z) (d : T_SearchTableDef) :=
  mk_search_table (pcSearchName d) (iStdSize d) (eSearchType d) (iKeyDefArrayLength d) (ptKeyDefArray d) (iContentSize d) (iContentCnt d) (pvContent d) h k t.

(** In a union the three index pointers are one. *)
Definition set_ptHashTable (p : Z) (d : T_SearchTableDef) : T_SearchTableDef :=
  if index_shared then set_index p p p d else set_index p (ppcKeys d) (pptIndex d) d.
Definition set_ppcKeys (p : Z) (d : T_SearchTableDef) : T_SearchTableDef :=
  if index_shared then set_index p p p d else set_index (ptHashTable d) p (pptIndex d) d.
Definition set_pptIndex (p : Z) (d : T_SearchTableDef) : T_SearchTableDef :=
  if index_shared then set_index p p p d else set_index (ptHashTable d) (ppcKeys d) p d.

Definition update_std (a : Z) (f : T_SearchTableDef -> T_SearchTableDef) : sm unit :=
  d ← load as_std a; store a (O_std (f d)).

(** The slot of [aptHashTable] a loader fills: with two sections, the one not
    in use. *)
Definition load_section (b : T_ShmSearchBuf) : Z :=
  if bSupport7x24 b =? BAS_TRUE then 1 - iSection b else iSection b.

(** The table of all search tables of a section, made when it is not there. *)
Definition section_table : sm Z :=
  ptSSB ← load as_buf (pvShmBuf gptShmAppDesc);
  ptRelHT ← pure_of (zget (aptHashTable ptSSB) (load_section ptSSB));
  if ptRelHT =? SHM_NULL then
    ptRelHT ← shmHashTableCreate;
    if ptRelHT =? SHM_NULL then mret SHM_NULL else
    ptSSB ← load as_buf (pvShmBuf gptShmAppDesc);
    tables ← pure_of (zset (aptHashTable ptSSB) (load_section ptSSB) ptRelHT);
    _ ← store (pvShmBuf gptShmAppDesc) (O_buf (mk_search_buf (bSupport7x24 ptSSB) (iSection ptSSB) tables));
    mret ptRelHT
  else mret ptRelHT.

(** [strcpy] into a new block for the string. *)
Definition new_text (s : bytes) : sm Z :=
  p ← shmMalloc (zlen s + 1);
  if p =? SHM_NULL then mret SHM_NULL else
  _ ← store (ABSOLUTE_ADDRESS p) (O_text s);
  mret p.

(** The copy of the definition, with its name and its fields; [None] stands
    for a failure. *)
Definition new_std (def : LocalTableDef) : sm Z :=
  ptRelSTD ← shmMalloc sizeof_T_SearchTableDef;
  if ptRelSTD =? SHM_NULL then mret SHM_NULL else
  let ptAbsoluteSTD := ABSOLUTE_ADDRESS ptRelSTD in
  _ ← store ptAbsoluteSTD (O_std (l_def def));
  name ← shmMalloc (zlen (l_name def) + 1);
  _ ← update_std ptAbsoluteSTD (set_name name);
  if name =? SHM_NULL then mret SHM_NULL else
  _ ← store (ABSOLUTE_ADDRESS name) (O_text (l_name def));
  d ← load as_std ptAbsoluteSTD;
  fields ← shmMalloc (u64 (sizeof_T_SearchFieldDef * iKeyDefArrayLength d));
  _ ← update_std ptAbsoluteSTD (set_fields fields);
  if fields =? SHM_NULL then mret SHM_NULL else
  d ← load as_std ptAbsoluteSTD;
  _ ← (if zlen (l_fields def) <? iKeyDefArrayLength d then pure_of Fault else
       if 0 <? iKeyDefArrayLength d then
         store (ABSOLUTE_ADDRESS (ptKeyDefArray d)) (O_fields (take (Z.to_nat (iKeyDefArrayLength d)) (l_fields def)))
       else mret tt);
  mret ptRelSTD.

(** [while (fetch == BAS_DBOK) { ...; memcpy(...); }]: the number of rows, or
    [None] when there is no memory for them. *)
Fixpoint fetch_loop (rows : list bytes) (std iIndex : Z) : sm (option Z) :=
  match rows with
  | [] => mret (Some iIndex)
  | row :: rows =>
      d ← load as_std std;
      ok ← (if iContentSize d - 1 <? iIndex then
              iSize ← pure_of (int_range (iContentSize d * 2));
              _ ← update_std std (set_content iSize (iContentCnt d) (pvContent d));
              p ← shmRealloc (pvContent d) (u64 (iStdSize d * iSize));
              _ ← update_std std (set_content iSize (iContentCnt d) p);
              mret (negb (p =? NULL))
            else mret true);
      if ok : bool then
        d ← load as_std std;
        _ ← (if zlen row =? iStdSize d then store (ABSOLUTE_ADDRESS (pvContent d) + iStdSize d * iIndex) (O_row row)
             else pure_of Fault);
        fetch_loop rows std (iIndex + 1)
      else mret None
  end.

(** The rows of the cursor come to lie behind one another in a block. *)
Definition load_rows (def : LocalTableDef) (std : Z) : sm Z :=
  if negb (cur_opens (l_cursor def)) then mret (-1) else
  p ← shmMalloc (u64 (iStdSize (l_def def) * 10));
  _ ← update_std std (λ d, set_content (iContentSize d) (iContentCnt d) p d);
  if p =? SHM_NULL then mret (-1) else
  _ ← update_std std (set_content 10 0 p);
  r ← fetch_loop (cur_rows (l_cursor def)) std 0;
  match r with
  | None => mret (-1)
  | Some iIndex =>
      _ ← update_std std (λ d, set_content (iContentSize d) iIndex (pvContent d) d);
      mret (if cur_not_found (l_cursor def) then 0 else -1)
  end.

(** [formKey] of row [iIndex], and the address of the row. *)
Definition key_of_row (def : LocalTableDef) (content size iIndex : Z) : sm (Z * option bytes) :=
  let ptValue := ABSOLUTE_ADDRESS content + size * iIndex in
  row ← load as_row ptValue;
  k ← pure_of (formKey (l_fields def) (iKeyDefArrayLength (l_def def)) row);
  mret (ptValue, k).

(** The loop of SEARCH_TYPE_HASH. *)
Fixpoint hash_index_loop (n : nat) (def : LocalTableDef) (std iIndex : Z) : sm Z :=
  match n with
  | O => mret 0
  | S n =>
      d ← load as_std std;
      r ← key_of_row def (pvContent d) (iStdSize d) iIndex;
      s ← pure_of (or_fault r.2);
      pcKey ← new_text s;
      if pcKey =? SHM_NULL then mret (-1) else
      r ← shmHashTableInsert (ptHashTable d) pcKey (RELATIVE_ADDRESS r.1);
      if negb (r =? 0) then mret (-1) else hash_index_loop n def std (iIndex + 1)
  end.

Definition hash_index (def : LocalTableDef) (std : Z) : sm Z :=
  h ← shmHashTableCreate;
  _ ← update_std std (set_ptHashTable h);
  if h =? SHM_NULL then mret (-1) else
  d ← load as_std std;
  hash_index_loop (Z.to_nat (iContentCnt d)) def std 0.

(** The loop of SEARCH_TYPE_BINARY: the keys in the order of the rows. *)
Fixpoint key_index_loop (n : nat) (def : LocalTableDef) (std ppc iIndex : Z) : sm Z :=
  match n with
  | O => mret 0
  | S n =>
      d ← load as_std std;
      r ← key_of_row def (pvContent d) (iStdSize d) iIndex;
      s ← pure_of (or_fault r.2);
      pcKey ← new_text s;
      if pcKey =? SHM_NULL then mret (-1) else
      _ ← store_word ppc iIndex pcKey;
      key_index_loop n def std ppc (iIndex + 1)
  end.

Definition key_index (def : LocalTableDef) (std : Z) : sm Z :=
  d ← load as_std std;
  p ← shmMalloc (u64 (8 * iContentCnt d));
  _ ← update_std std (set_ppcKeys p);
  if p =? SHM_NULL then mret (-1) else
  let ppc := ABSOLUTE_ADDRESS p in
  _ ← fresh_words ppc (iContentCnt d);
  key_index_loop (Z.to_nat (iContentCnt d)) def std ppc 0.

(** The loop of SEARCH_TYPE_TABLE: the key is the index, unchecked. *)
Fixpoint table_index_loop (n : nat) (std ppt off iIndex : Z) : sm Z :=
  match n with
  | O => mret 0
  | S n =>
      d ← load as_std std;
      let ptValue := ABSOLUTE_ADDRESS (pvContent d) + iStdSize d * iIndex in
      row ← load as_row ptValue;
      lKey ← pure_of (word_at row off);
      _ ← store_word ppt (s64 lKey) (RELATIVE_ADDRESS ptValue);
      table_index_loop n std ppt off (iIndex + 1)
  end.

Definition table_index (std : Z) : sm Z :=
  d ← load as_std std;
  if negb (iKeyDefArrayLength d =? 1) then mret (-1) else
  fields ← load as_fields (ABSOLUTE_ADDRESS (ptKeyDefArray d));
  ptPK ← pure_of (zget fields 0);
  if negb (bool_decide (eType ptPK = FIELD_TYPE_LONG)) || (MAX_TABLE_KEY_LENGTH <? iLength ptPK)
  then mret (-1) else
  let iSize := 10 ^ Z.max 0 (iLength ptPK) in
  p ← shmMalloc (8 * iSize);
  _ ← update_std std (set_pptIndex p);
  if p =? SHM_NULL then mret (-1) else
  _ ← clear_slots (ABSOLUTE_ADDRESS p) iSize;
  table_index_loop (Z.to_nat (iContentCnt d)) std (ABSOLUTE_ADDRESS p) (iOffset ptPK) 0.

Definition build_index (def : LocalTableDef) (std : Z) : sm Z :=
  d ← load as_std std;
  match eSearchType d with
  | SEARCH_TYPE_HASH => hash_index def std
  | SEARCH_TYPE_TABLE => table_index std
  | SEARCH_TYPE_BINARY | SEARCH_TYPE_OTHER => key_index def std
  end.

Definition basLoadSearchTable (def : LocalTableDef) : sm Z :=
  ptRelHT ← section_table;
  if ptRelHT =? SHM_NULL then mret (-1) else
  if negb (cur_room (l_cursor def)) then mret (-1) else
  pcRelKey ← new_text (l_name def);
  if pcRelKey =? SHM_NULL then mret (-1) else
  ptRelSTD ← new_std def;
  if ptRelSTD =? SHM_NULL then mret (-1) else
  let ptAbsoluteSTD := ABSOLUTE_ADDRESS ptRelSTD in
  r ← shmHashTableInsert ptRelHT pcRelKey ptRelSTD;
  if negb (r =? 0) then mret (-1) else
  r ← load_rows def ptAbsoluteSTD;
  if negb (r =? 0) then mret (-1) else
  r ← build_index def ptAbsoluteSTD;
  if negb (r =? 0) then mret (-1) else
  flag ← get_log_flag;
  (* the log message shows what is left of the first free block *)
  _ ← (if flag =? 1 then p ← get_free_block; _ ← load as_block p; mret tt else mret tt);
  mret 0.
(** ** Searching *)

(** The copy of a table's definition for a searching process; the result says
    whether there is one.  Of the three index pointers only [ptHashTable] is
    made absolute. *)
Definition basGetShmSearchTableDef (attached : bool) (searchName : option bytes) : sm (option T_SearchTableDef) :=
  _ ← set_log_flag 0;
  if negb attached then mret None else
  ptSSB ← load as_buf (pvShmBuf gptShmAppDesc);
  ptRelHT ← pure_of (zget (aptHashTable ptSSB) (iSection ptSSB));
  if ptRelHT =? SHM_NULL then mret None else
  match searchName with
  | None => mret None
  | Some name =>
      ptSTD ← shmHashTableSearch (ABSOLUTE_ADDRESS ptRelHT) name;
      if ptSTD =? NULL then mret None else
      d ← load as_std ptSTD;
      let d := set_name (ABSOLUTE_ADDRESS (pcSearchName d)) d in
      let d := set_fields (ABSOLUTE_ADDRESS (ptKeyDefArray d)) d in
      let d := set_ptHashTable (ABSOLUTE_ADDRESS (ptHashTable d)) d in
      mret (Some (set_content (iContentSize d) (iContentCnt d) (ABSOLUTE_ADDRESS (pvContent d)) d))
  end.

(** The key [i] of a table: [ABSOLUTE_ADDRESS(ptSTD->ppcKeys[i])] as a string. *)
Definition key_at (ptSTD : T_SearchTableDef) (i : Z) : sm bytes :=
  k ← load_word (ppcKeys ptSTD) i; load as_text (ABSOLUTE_ADDRESS k).

(** [while (high - low > 1) { probe = (low + high) >> 1; ... }] *)
Fixpoint bisect_loop (fuel : nat) (ptSTD : T_SearchTableDef) (pcKey : option bytes) (low high : Z) : sm Z :=
  match fuel with
  | O => out_of_fuel
  | S fuel =>
      if 1 <? high - low then
        n ← pure_of (int_range (low + high));
        let probe := Z.shiftr n 1 in
        k ← key_at ptSTD probe;
        s ← pure_of (or_fault pcKey);
        if 0 <? strcmp k s then bisect_loop fuel ptSTD pcKey low probe else bisect_loop fuel ptSTD pcKey probe high
      else mret low
  end.

(** The interval halves: its length is more than enough. *)
Definition bisect (ptSTD : T_SearchTableDef) (pcKey : option bytes) : sm Z :=
  bisect_loop (S (Z.to_nat (iContentCnt ptSTD))) ptSTD pcKey (-1) (iContentCnt ptSTD).

(** The fields of a table for the keys of a search. *)
Definition fields_of (ptSTD : T_SearchTableDef) : sm (list T_SearchFieldDef) :=
  if 0 <? iKeyDefArrayLength ptSTD then load as_fields (ptKeyDefArray ptSTD) else mret [].

Definition search_hash (ptSTD : T_SearchTableDef) (ap : list vararg) : sm Z :=
  fields ← fields_of ptSTD;
  pcKey ← pure_of (formKeyVararg fields (iKeyDefArrayLength ptSTD) ap);
  k ← pure_of (or_fault pcKey);
  shmHashTableSearch (ptHashTable ptSTD) k.

Definition search_binary (ptSTD : T_SearchTableDef) (ap : list vararg) : sm Z :=
  fields ← fields_of ptSTD;
  pcKey ← pure_of (formKeyVararg fields (iKeyDefArrayLength ptSTD) ap);
  low ← bisect ptSTD pcKey;
  if low =? -1 then mret NULL else
  k ← key_at ptSTD low;
  s ← pure_of (or_fault pcKey);
  if negb (strcmp k s =? 0) then mret NULL else mret (pvContent ptSTD + iStdSize ptSTD * low).

Definition search_table (ptSTD : T_SearchTableDef) (ap : list vararg) : sm Z :=
  match ap with
  | A_long lKey :: _ =>
      p ← load_word (pptIndex ptSTD) lKey;
      if p =? SHM_NULL then mret NULL else mret (ABSOLUTE_ADDRESS p)
  | _ => pure_of Fault
  end.

(** The absolute address of the row of a key, or NULL. *)
Definition basSearchTableByShmDef (ptSTD : option T_SearchTableDef) (ap : list vararg) : sm Z :=
  match ptSTD with
  | None => mret NULL
  | Some d =>
      match eSearchType d with
      | SEARCH_TYPE_HASH => search_hash d ap
      | SEARCH_TYPE_TABLE => search_table d ap
      | SEARCH_TYPE_BINARY | SEARCH_TYPE_OTHER => search_binary d ap
      end
  end.

(** [basSearchTableByShmDef(&tSTD, ap)]: the argument list itself is the one
    argument passed on. *)
Definition basShmSearchTable (attached : bool) (searchName : option bytes) (ap : list vararg) : sm Z :=
  d ← basGetShmSearchTableDef attached searchName;
  match d with
  | None => mret NULL
  | Some d => basSearchTableByShmDef (Some d) [A_list]
  end.

(** Not called: the place of a key, read before the test for none. *)
Definition binarySearch (ptSTD : T_SearchTableDef) (pcKey : bytes) : sm Z :=
  low ← bisect ptSTD (Some pcKey);
  k ← key_at ptSTD low;
  let iRet := strcmp k pcKey in
  if low =? -1 then mret 0
  else if iRet =? 0 then mret low
  else if 0 <? iRet then mret low
  else mret (low + 1).

(** [for (i = 0; i < iContentCnt; i++) if (stop(strcmp(key[i], pcKey))) break;] *)
Fixpoint scan_keys (n : nat) (stop : Z -> bool) (ptSTD : T_SearchTableDef) (pcKey : bytes) (i : Z) : sm Z :=
  match n with
  | O => mret i
  | S n => k ← key_at ptSTD i; if stop (strcmp k pcKey) then mret i else scan_keys n stop ptSTD pcKey (i + 1)
  end.

Definition lowbinarySearch (ptSTD : T_SearchTableDef) (pcKey : bytes) : sm Z :=
  scan_keys (Z.to_nat (iContentCnt ptSTD)) (λ c, 0 <=? c) ptSTD pcKey 0.

Definition highbinarySearch (ptSTD : T_SearchTableDef) (pcKey : bytes) : sm Z :=
  scan_keys (Z.to_nat (iContentCnt ptSTD)) (λ c, 0 <? c) ptSTD pcKey 0.

(** [if (i == iContentCnt) i--; return i;] *)
Definition order_end (ptSTD : T_SearchTableDef) (i : Z) : Z := if i =? iContentCnt ptSTD then i - 1 else i.

(** Not called: the first row of a key, or the last one. *)
Fixpoint order_search_loop (n : nat) (ptSTD : T_SearchTableDef) (pcKey : bytes) (flag i here : Z) : sm Z :=
  match n with
  | O => mret (order_end ptSTD i)
  | S n =>
      k ← key_at ptSTD i;
      if strcmp k pcKey =? 0 then
        if flag =? 0 then mret (order_end ptSTD i)
        else if flag =? 1 then order_search_loop n ptSTD pcKey flag (i + 1) 1
        else order_search_loop n ptSTD pcKey flag (i + 1) here
      else if (flag =? 1) && (here =? 1) then mret (order_end ptSTD (i - 1))
      else if (here =? 0) && (i =? iContentCnt ptSTD) then mret 0
      else order_search_loop n ptSTD pcKey flag (i + 1) here
  end.

Definition orderSearch (ptSTD : T_SearchTableDef) (pcKey : bytes) (flag : Z) : sm Z :=
  order_search_loop (Z.to_nat (iContentCnt ptSTD)) ptSTD pcKey flag 0 0.

Record T_ShmIterator : Type := mk_iterator { iValueSize : Z; pvBeginValue : Z; pvEndValue : Z; pvCurrValue : Z }.

(** The rows whose keys begin with the given first fields; [room] says whether
    [malloc] grants the iterator. *)
Definition basShmIterator (attached room : bool) (searchName : option bytes) (iKeyCnt : Z) (ap : list vararg) : sm (option T_ShmIterator) :=
  d ← basGetShmSearchTableDef attached searchName;
  match d with
  | None => mret None
  | Some d =>
      if negb (bool_decide (eSearchType d = SEARCH_TYPE_BINARY)) then mret None
      else if negb room then mret None
      else
        let iKeyCnt := Z.min iKeyCnt (iKeyDefArrayLength d) in
        fields ← (if 0 <? iKeyCnt then load as_fields (ptKeyDefArray d) else mret []);
        key ← pure_of (form_vararg_loop (Z.to_nat iKeyCnt) fields 0 ap []);
        match key with
        | None => mret None
        | Some key =>
            low ← lowbinarySearch d key;
            (* the byte 0xff behind the key needs a NUL behind it *)
            high_key ← pure_of (append_key key [255]);
            high ← highbinarySearch d high_key;
            let first := pvContent d + iStdSize d * low in
            mret (Some (mk_iterator (iStdSize d) first (pvContent d + iStdSize d * high) first))
        end
  end.
End loader.
