(* ===== verification/ShmSamples.v ===== *)
(** * A concrete segment, and definitions of tables to load into it *)

From S2P Require Import Prelude LibC BasString BasHashTypes ShmMem ShmMemFacts ShmAlloc ShmHash ShmSearch.

#[export] Instance sample_bas_const : BasGlobal :=
  {| BAS_TRUE := 1; BAS_FALSE := 0; BAS_ID_TYPE_IDENTITY := 1; bas_true_1 := eq_refl; bas_false_0 := eq_refl |}.

#[export] Instance sample_hash_const : BasHashConst :=
  {| BAS_HASHTABLE_INIT_SIZE := 4; BAS_HASHTABLE_EXPAND_MULTIPLICAND := 2; load_limit := λ n, n / 2;
     sizeof_T_HashTable := 64; sizeof_T_HashEntry := 24 |}.

#[export] Instance sample_hash_laws : BasHashLaws.
Proof.
  split; [exists 2%nat; split; [lia|done]|exists 1%nat; split; [lia|done]|..].
  - intros n Hn. cbn. apply Z.div_lt; lia.
  - intros n Hn. cbn. div_lia.
Qed.

(** With and without the union. *)
Definition sample_layout (shared : bool) : ShmLayout :=
  {| sizeof_T_SearchTableDef := 120; sizeof_T_SearchFieldDef := 24; sizeof_T_ShmSearchBuf := 32;
     index_shared := shared; stale_block := λ _, mk_block [] 0 0 0 0; stale_word := λ _, 0 |}.

#[export] Instance sample_layout_shared : ShmLayout := sample_layout true.

#[export] Instance sample_sizes : SizeLaws.
Proof. split. cbn. lia. Qed.

Definition sample_desc : T_ShmAppDesc := mk_app_desc 4096 65536 0 (lit "batch").

(** A segment that holds nothing but its search buffer. *)
Definition sample_empty : shm := mk_shm {[ 4096 := O_buf (mk_search_buf 0 0 [SHM_NULL; SHM_NULL]) ]} NULL 1.

Definition sample_fields : list T_SearchFieldDef :=
  [mk_field FIELD_TYPE_CHAR 0 4 0; mk_field FIELD_TYPE_LONG 8 3 0].

(** A row: four bytes of text, padding, a number. *)
Definition sample_row (t : bytes) (n : Z) : bytes := pad_right 8 0 t ++ [n mod 256; n / 256; 0; 0; 0; 0; 0; 0].

Definition sample_def (type : SEARCH_TYPE) (rows : list bytes) : LocalTableDef :=
  mk_local (mk_search_table 0 16 type 2 0 0 0 0 0 0 0) (lit "rates") sample_fields (mk_cursor true true rows true).

Definition sample_rows : list bytes :=
  [sample_row (lit "CNY") 1; sample_row (lit "EUR") 7; sample_row (lit "USD") 12; sample_row (lit "USD") 300].
