(* ===== verification/ShmHashFacts.v ===== *)
(** * The hash table in shared memory represents a finite map

    [slots_rep] and [table_rep] relate the objects of a table in the segment to
    the abstract slots of [BasTable]; searching, inserting and expanding keep
    the relation and touch no object that is not the table's own. *)

From S2P Require Import Prelude LibC Buffers BasString BasProbe BasHashTypes BasTable ShmMem ShmMemFacts ShmAlloc ShmHash.

Lemma shm_hash_range k : 0 <= shm_hash k < 2 ^ 32.
Proof. apply hash_mix_range. Qed.

Lemma pow2_mask_range n k : (k <= 30)%nat -> n = 2 ^ Z.of_nat k -> 0 < n <= 1073741824.
Proof.
  intros Hk ->. split; [apply Z.pow_pos_nonneg; lia|]. change 1073741824 with (2 ^ 30). apply Z.pow_le_mono_r; lia.
Qed.

Section hash_facts.
Context `{BasGlobal} `{BasHashConst} `{ShmLayout} `{Hsizes : !SizeLaws} (D : T_ShmAppDesc).
Abbreviation ABS := (ABSOLUTE_ADDRESS D).
Abbreviation REL := (RELATIVE_ADDRESS D).
Implicit Types (m : memory) (L : list (option (bytes * Z))) (l : list Z).

Lemma abs_rel a : ABS (REL a) = a.
Proof. unfold ABSOLUTE_ADDRESS, RELATIVE_ADDRESS. lia. Qed.
Lemma rel_abs a : REL (ABS a) = a.
Proof. unfold ABSOLUTE_ADDRESS, RELATIVE_ADDRESS. lia. Qed.

(** An object that lies below [T]. *)
Definition at_below (m : memory) (T a : Z) (o : obj) : Prop := m !! a = Some o /\ pvShmBuf D <= a < T /\ a + sizeof o <= T.

(** The word [w] refers to an entry with this key and value. *)
Definition entry_rep (m : memory) (T w : Z) (kv : bytes * Z) : Prop :=
  w <> SHM_NULL /\ exists pk,
    at_below m T (ABS w) (O_entry (mk_entry (shm_hash kv.1) pk kv.2)) /\
    at_below m T (ABS pk) (O_text kv.1) /\ cstring kv.1.

Definition slot_rep (m : memory) (T w : Z) (o : option (bytes * Z)) : Prop :=
  match o with None => w = SHM_NULL | Some kv => entry_rep m T w kv end.

(** The array of slots at [ppt]. *)
Record slots_rep (m : memory) (T ppt : Z) (l : list Z) (L : list (option (bytes * Z))) : Prop := {
  sr_array : at_below m T ppt (O_slots l);
  sr_entries : Forall2 (slot_rep m T) l L;
  sr_ok : table_ok shm_hash L;
  sr_free : occupied L < zlen L;
}.

(** The table at [ht]; [n] is [iUsed]. *)
Record table_rep (m : memory) (T ht ppt : Z) (l : list Z) (L : list (option (bytes * Z))) (n : Z) : Prop := {
  tr_table : at_below m T ht (O_table (mk_hash_table (REL ppt) 0 n (zlen l - 1) (load_limit (zlen l)) NULL NULL BAS_FALSE BAS_FALSE));
  tr_slots : slots_rep m T ppt l L;
  tr_block : m !! (ppt - 40) = Some (used_block (calcActualSize (8 * zlen l)) (8 * zlen l));
  tr_block_range : pvShmBuf D <= ppt - 40 /\ ppt - 40 + calcActualSize (8 * zlen l) <= T;
}.

Lemma sr_zlen m T ppt l L : slots_rep m T ppt l L -> zlen l = zlen L.
Proof. intros [_ Hf _ _]. unfold zlen. by rewrite (Forall2_length _ _ _ Hf). Qed.

Lemma sr_size m T ppt l L : slots_rep m T ppt l L -> 0 < zlen l <= 1073741824.
Proof.
  intros Hs. rewrite (sr_zlen _ _ _ _ _ Hs). destruct (table_size _ _ (sr_ok _ _ _ _ _ Hs)) as (k & Hk & E).
  by eapply pow2_mask_range.
Qed.

Lemma sr_slot m T ppt l L q :
  slots_rep m T ppt l L -> 0 <= q < zlen l ->
  exists w o, zget l q = Ok w /\ l !! Z.to_nat q = Some w /\ L !! Z.to_nat q = Some o /\ slot_rep m T w o.
Proof.
  intros Hs Hq. destruct (zget_in_range l q Hq) as [w Hw]. pose proof Hw as [_ Hl]%zget_Ok.
  destruct (Forall2_lookup_l _ _ _ _ _ (sr_entries _ _ _ _ _ Hs) Hl) as (o & Ho & Hr). eauto 6.
Qed.

(** ** Searching *)

Lemma slot_stops_ends m T ppt l L key s q :
  mem s = m -> slots_rep m T ppt l L -> cstring key -> 0 <= q < zlen L ->
  shm_slot_stops D ppt (shm_hash key) key s q = Ok (ends L key q).
Proof.
  intros <- Hs Hkey Hq. rewrite <- (sr_zlen _ _ _ _ _ Hs) in Hq.
  destruct (sr_slot _ _ _ _ _ q Hs Hq) as (w & o & Hw & _ & Ho & Hr). unfold shm_slot_stops, ends. rewrite Ho.
  rewrite (runs_load_word s ppt q l w) by (done || apply (sr_array _ _ _ _ _ Hs)). cbn [mbind outcome_bind].
  destruct o as [[k v]|]; simpl in Hr.
  - destruct Hr as (Hne & pk & (He & _) & (Ht & _) & Hk). cbn [fst snd] in *.
    destruct (Z.eqb_spec w SHM_NULL); [done|].
    rewrite (runs_bind _ _ s _ s _ (runs_load as_entry (ABS w) s _ _ He eq_refl) eq_refl). cbn [iHashValue BasHashTypes.pvKey].
    destruct (Z.eqb_spec (shm_hash k) (shm_hash key)) as [Eh|Eh].
    + rewrite (runs_bind _ _ s _ s _ (runs_load as_text (ABS pk) s _ _ Ht eq_refl) eq_refl).
      cbn [mret sm_ret mbind outcome_bind]. f_equal. unfold equalkeys. cbn [fst].
      destruct (Z.eqb_spec (strcmp key k) 0) as [Ec|Ec]; symmetry.
      * apply bool_decide_eq_true. symmetry. by apply strcmp_eq.
      * apply bool_decide_eq_false. intros ->. apply Ec. by apply strcmp_eq.
    + cbn [mret sm_ret mbind outcome_bind fst]. f_equal. symmetry. apply bool_decide_eq_false. congruence.
  - by rewrite Hr.
Qed.

(** The loop ends where the abstract search does. *)
Lemma probe_rep m T ppt l L key s :
  mem s = m -> slots_rep m T ppt l L -> cstring key ->
  exists p, runs (shm_probe D ppt (zlen l - 1) (shm_hash key) key) s p s /\
    0 <= p < zlen l /\ found_at shm_hash L key p /\ ends L key p = true.
Proof.
  intros Hm Hs Hkey.
  destruct (search_ends shm_hash shm_hash_range L (sr_ok _ _ _ _ _ Hs) (sr_free _ _ _ _ _ Hs) key
              (shm_slot_stops D ppt (shm_hash key) key s)) as (p & Hp & Hr & Hf & He).
  { intros q Hq. by eapply slot_stops_ends. }
  rewrite <- (sr_zlen _ _ _ _ _ Hs) in *. exists p. split_and!; [|lia|lia|done|done].
  unfold shm_probe. by rewrite Hp.
Qed.

Context (M : gmap bytes Z).

(** What stands in the slot where a search has stopped. *)
Lemma stopped_slot m T ppt l L key p :
  slots_rep m T ppt l L -> maps_to L M -> 0 <= p < zlen l -> found_at shm_hash L key p -> ends L key p = true ->
  exists w, zget l p = Ok w /\ l !! Z.to_nat p = Some w /\
    match M !! key with Some v => entry_rep m T w (key, v) | None => w = SHM_NULL end.
Proof.
  intros Hs HM Hp Hf He. destruct (sr_slot _ _ _ _ _ p Hs Hp) as (w & o & Hw & Hl & Ho & Hr).
  exists w. split_and!; [done..|].
  pose proof (found_decides shm_hash L M key p (sr_ok _ _ _ _ _ Hs) HM Hf ltac:(by rewrite <- (sr_zlen _ _ _ _ _ Hs)) He) as Hd.
  destruct (M !! key); rewrite Hd in Ho; by injection Ho as <-.
Qed.

Lemma inner_search m T ht ppt l L n key s :
  mem s = m -> table_rep m T ht ppt l L n -> maps_to L M -> cstring key ->
  exists p, found_at shm_hash L key p /\ ends L key p = true /\ 0 <= p < zlen l /\
    runs (shmInnerHashTableSearch D ht key) s (if bool_decide (is_Some (M !! key)) then p else -1) s.
Proof.
  intros Hm Ht HM Hkey. pose proof (tr_slots _ _ _ _ _ _ _ Ht) as Hs.
  destruct (probe_rep m T ppt l L key s Hm Hs Hkey) as (p & Hp & Hr & Hf & He).
  destruct (stopped_slot m T ppt l L key p Hs HM Hr Hf He) as (w & Hw & _ & Hd).
  exists p. split_and!; [done|done|lia|lia|]. unfold shmInnerHashTableSearch. subst m.
  eapply runs_bind; [eapply runs_load; [apply (tr_table _ _ _ _ _ _ _ Ht)|done]|]. cbn [pptTable iMask]. rewrite abs_rel.
  eapply runs_bind; [exact Hp|].
  eapply runs_bind; [eapply runs_load_word; [apply (sr_array _ _ _ _ _ Hs)|done]|].
  pose proof (sr_size _ _ _ _ _ Hs). unfold mret, sm_ret. do 3 f_equal. destruct (M !! key) as [v|].
  - rewrite bool_decide_eq_true_2 by eauto. destruct Hd as [Hne _]. destruct (Z.eqb_spec w SHM_NULL); [done|].
    apply s32_id. lia.
  - rewrite Hd. done.
Qed.

(** A search answers the value of the map. *)
Lemma search_rep m T ht ppt l L n key s :
  mem s = m -> table_rep m T ht ppt l L n -> maps_to L M -> cstring key ->
  runs (shmHashTableSearch D ht key) s (match M !! key with Some v => ABS v | None => NULL end) s.
Proof.
  intros Hm Ht HM Hkey. pose proof (tr_slots _ _ _ _ _ _ _ Ht) as Hs.
  destruct (inner_search m T ht ppt l L n key s Hm Ht HM Hkey) as (p & Hf & He & Hr & Hrun).
  destruct (stopped_slot m T ppt l L key p Hs HM Hr Hf He) as (w & Hw & _ & Hd). subst m.
  unfold shmHashTableSearch. eapply runs_bind; [exact Hrun|]. destruct (M !! key) as [v|].
  - rewrite bool_decide_eq_true_2 by eauto. destruct (Z.leb_spec 0 p); [|lia].
    eapply runs_bind; [eapply runs_load; [apply (tr_table _ _ _ _ _ _ _ Ht)|done]|]. cbn [pptTable]. rewrite abs_rel.
    eapply runs_bind; [eapply runs_load_word; [apply (sr_array _ _ _ _ _ Hs)|done]|].
    destruct Hd as (_ & pk & (Hent & _) & _). by eapply runs_bind; [eapply runs_load; [exact Hent|done]|].
  - rewrite bool_decide_eq_false_2 by (intros [? ?]; done). done.
Qed.

(** ** Writing *)

Lemma at_below_mono m m' T T' a o : at_below m T a o -> T <= T' -> m' !! a = Some o -> at_below m' T' a o.
Proof. intros (_ & [] & ?) Hle Hm. split_and!; [done|lia..]. Qed.

(** Entries and texts are what a table refers to. *)
Definition is_data (o : obj) : Prop := match o with O_entry _ | O_text _ => True | _ => False end.

Definition keeps_data (T : Z) (m m' : memory) : Prop := forall a o, at_below m T a o -> is_data o -> m' !! a = Some o.

Lemma keeps_keeps_data T m m' : keeps T m m' -> keeps_data T m m'.
Proof. intros Hk a o (Ha & ? & ?) _. apply Hk; [done|lia|lia]. Qed.

Lemma slot_rep_mono m m' T T' w o : T <= T' -> keeps_data T m m' -> slot_rep m T w o -> slot_rep m' T' w o.
Proof.
  intros Hle Hk Hr. destruct o as [kv|]; [|done]. destruct Hr as (Hne & pk & He & Ht & Hc).
  split; [done|]. exists pk. split_and!; [by eapply at_below_mono; [..|by apply Hk]|by eapply at_below_mono; [..|by apply Hk]|done].
Qed.

Lemma slots_rep_mono m m' T T' ppt l L :
  slots_rep m T ppt l L -> T <= T' -> keeps_data T m m' -> m' !! ppt = Some (O_slots l) -> slots_rep m' T' ppt l L.
Proof.
  intros [Ha Hf Hok Hfree] Hle Hk Hp. split; [by eapply at_below_mono| |done|done].
  eapply Forall2_impl; [exact Hf|]. intros w o. by apply slot_rep_mono.
Qed.

(** One slot changes, the others keep what they refer to. *)
Lemma slots_insert m m' T T' ppt l L key v w p :
  slots_rep m T ppt l L -> found_at shm_hash L key p -> ends L key p = true -> 0 <= p < zlen l ->
  at_below m' T' ppt (O_slots (<[Z.to_nat p := w]> l)) ->
  (forall q w' o', q <> Z.to_nat p -> l !! q = Some w' -> L !! q = Some o' -> slot_rep m T w' o' -> slot_rep m' T' w' o') ->
  entry_rep m' T' w (key, v) -> occupied (<[Z.to_nat p := Some (key, v)]> L) < zlen l ->
  slots_rep m' T' ppt (<[Z.to_nat p := w]> l) (<[Z.to_nat p := Some (key, v)]> L).
Proof.
  intros Hs Hf He Hr Ha Hother Hw Hocc. pose proof (sr_zlen _ _ _ _ _ Hs) as Hlen.
  split; [done| |apply table_ok_insert; [apply (sr_ok _ _ _ _ _ Hs)|lia|done|done]|by rewrite zlen_insert, <- Hlen].
  apply Forall2_same_length_lookup. split; [rewrite !length_insert; unfold zlen in Hlen; lia|].
  intros q w' o' Hw' Ho'. destruct (decide (q = Z.to_nat p)) as [->|Hne].
  - rewrite list_lookup_insert_eq in Hw' by (unfold zlen in Hr; lia).
    rewrite list_lookup_insert_eq in Ho' by (unfold zlen in *; lia). by injection Hw' as <-; injection Ho' as <-.
  - rewrite list_lookup_insert_ne in Hw' by done. rewrite list_lookup_insert_ne in Ho' by done. eapply Hother; [done..|].
    pose proof (sr_entries _ _ _ _ _ Hs) as HF. by eapply Forall2_lookup_lr.
Qed.

(** What writing an array of slots, in place, leaves. *)
Lemma put_slots_data m T ppt l l' : disjoint_mem m -> m !! ppt = Some (O_slots l) -> zlen l' = zlen l ->
  keeps_data T m (put m ppt (O_slots l')).
Proof.
  intros Hd Hp Hl a o (Ha & _) Ho. destruct (decide (a = ppt)) as [->|]; [rewrite Hp in Ha; injection Ha as <-; done|].
  rewrite (put_same m ppt (O_slots l)); [done|done|done|cbn [sizeof]; lia|done].
Qed.
(** ** Inserting *)

(** The addresses a table writes to. *)
Definition owned (ht ppt : Z) (l : list Z) (a : Z) : Prop :=
  a = ht \/ a = ppt \/ a = ppt - 40 \/ exists w, w ∈ l /\ w <> SHM_NULL /\ a = ABS w.

(** Everything below [T] that is not written to is kept. *)
Definition frame (W : Z -> Prop) (T : Z) (m m' : memory) : Prop :=
  forall a o, at_below m T a o -> ~ W a -> m' !! a = Some o.

Lemma in_segment_below m E T s a o : tail_ok D E T s -> at_below m T a o -> in_segment D a (sizeof o) = true.
Proof. intros Ht (_ & ? & ?). eapply tail_in_segment; [done|lia|]. destruct Ht as [_ _ ?]. lia. Qed.

(** The tail of the heap is untouched by a write below it. *)
Lemma tail_put E T s a o : tail_ok D E T s -> pvShmBuf D <= a < T -> a + sizeof o <= T ->
  tail_ok D E T (with_mem (put (mem s) a o) s).
Proof.
  intros [Hf (b & Hb & Hrest) Hr] Ha Ho. split; [done| |done]. exists b. split; [|done].
  apply put_above; [done|lia|lia].
Qed.

(** The value of a key that is there is replaced. *)
Lemma replace_rep m E T ht ppt l L n key v pk e p w s :
  mem s = m -> tail_ok D E T s -> disjoint_mem m -> table_rep m T ht ppt l L n -> maps_to L M ->
  found_at shm_hash L key p -> ends L key p = true -> 0 <= p < zlen l -> l !! Z.to_nat p = Some w -> w <> SHM_NULL ->
  at_below m T (ABS w) (O_entry (mk_entry (shm_hash key) pk e)) -> at_below m T (ABS pk) (O_text key) -> cstring key ->
  M !! key = Some e ->
  let m' := put m (ABS w) (O_entry (mk_entry (shm_hash key) pk v)) in
  table_rep m' T ht ppt l (<[Z.to_nat p := Some (key, v)]> L) n /\ disjoint_mem m' /\
  tail_ok D E T (with_mem m' s) /\ frame (owned ht ppt l) T m m'.
Proof.
  intros Hm Ht Hd Hrep HM Hf He Hp Hw Hne Hent Htxt Hc HMk m'.
  pose proof (tr_slots _ _ _ _ _ _ _ Hrep) as Hs. pose proof (sr_zlen _ _ _ _ _ Hs) as Hlen.
  assert (forall a, a <> ABS w -> m' !! a = m !! a) as Hsame.
  { intros a Ha. eapply put_same; [done|apply Hent|done|done]. }
  assert (forall a o, at_below m T a o -> (match o with O_entry _ => False | _ => True end) -> m' !! a = Some o) as Hkeep.
  { intros a o (Ha & _) Ho. rewrite Hsame; [done|]. intros ->. destruct Hent as (Hx & _). rewrite Hx in Ha. by injection Ha as <-. }
  split_and!; [| by apply disjoint_put| |].
  - split.
    + eapply at_below_mono; [apply Hrep|done|]. apply Hkeep; [apply Hrep|done].
    + rewrite <- (list_insert_id l (Z.to_nat p) w Hw).
      eapply slots_insert; [exact Hs|done|done|lia| | | |].
      * rewrite (list_insert_id l (Z.to_nat p) w Hw). eapply at_below_mono; [apply Hs|done|]. apply Hkeep; [apply Hs|done].
      * intros q w' o' Hq Hw' Ho' Hr. destruct o' as [[k' v']|]; [|done].
        destruct Hr as (Hne' & pk' & He' & Ht' & Hc'). split; [done|]. exists pk'. cbn [fst snd] in *.
        split_and!; [|eapply at_below_mono; [exact Ht'|done|by apply Hkeep]|done].
        eapply at_below_mono; [exact He'|done|]. rewrite Hsame; [apply He'|]. intros Eq.
        assert (w' = w) as -> by (unfold ABSOLUTE_ADDRESS in Eq; lia).
        destruct Hent as (Hx & _), He' as (Hx' & _). rewrite Hx in Hx'. injection Hx' as Hh <- <-.
        destruct Htxt as (Hx2 & _), Ht' as (Hx3 & _). rewrite Hx2 in Hx3. injection Hx3 as <-.
        destruct (table_placed _ _ (sr_ok _ _ _ _ _ Hs) (Z.of_nat q) key e) as (j & Hj & Hno); [by rewrite Nat2Z.id|lia|].
        apply Hq. assert (Z.of_nat q = p); [|lia].
        eapply (found_at_unique shm_hash L key); [by exists j|done| |done].
        eapply (ends_entry _ _ _ e). by rewrite Nat2Z.id.
      * split; [done|]. exists pk. split_and!; [|eapply at_below_mono; [exact Htxt|done|by apply Hkeep]|done].
        split; [apply put_eq|exact (proj2 Hent)].
      * rewrite (occupied_insert shm_hash L M), bool_decide_eq_true_2 by (done || lia || apply Hs || (rewrite HMk; eauto)).
        pose proof (sr_free _ _ _ _ _ Hs). lia.
    + rewrite Hsame; [apply Hrep|]. intros Eq. destruct Hent as (Hx & _). rewrite <- Eq in Hx.
      pose proof (tr_block _ _ _ _ _ _ _ Hrep) as Hb. rewrite Hb in Hx. done.
    + apply Hrep.
  - subst m. apply tail_put; [done|..]; destruct Hent as (_ & ? & ?); [lia|]. cbn [sizeof] in *. lia.
  - intros a o Ha Hno. rewrite Hsame; [apply Ha|]. intros ->. apply Hno. right. right. right.
    exists w. split_and!; [by eapply list_elem_of_lookup_2|done|done].
Qed.
(** Writing an object in place keeps everything else. *)
Lemma put_frame m T a o o' : disjoint_mem m -> m !! a = Some o -> sizeof o' = sizeof o -> frame (λ x, x = a) T m (put m a o').
Proof. intros Hd Hp Hl x ox (Hx & _) Hne. by rewrite (put_same m a o). Qed.

Lemma put_slots_frame m T ppt l l' : disjoint_mem m -> m !! ppt = Some (O_slots l) -> zlen l' = zlen l ->
  frame (λ a, a = ppt) T m (put m ppt (O_slots l')).
Proof.
  intros Hd Hp Hl a o (Ha & _) Hne. by rewrite (put_same m ppt (O_slots l)) by (done || cbn [sizeof]; lia).
Qed.

Lemma frame_trans W T m1 m2 m3 : frame W T m1 m2 -> frame W T m2 m3 -> frame W T m1 m3.
Proof. intros F1 F2 a o Ha Hw. apply F2; [|done]. destruct Ha as (Ha & Hr). split; [|done]. apply F1; [by split|done]. Qed.

Lemma frame_keeps W T m m' : keeps T m m' -> frame W T m m'.
Proof. intros Hk a o (Ha & ? & ?) _. apply Hk; [done|lia|lia]. Qed.

Lemma frame_weaken (W W' : Z -> Prop) T m m' : frame W T m m' -> (forall a, W a -> W' a) -> frame W' T m m'.
Proof. intros Hf HW a o Ha Hno. apply Hf; [done|]. intros ?. by apply Hno, HW. Qed.

Lemma frame_le W T T' m m' : frame W T m m' -> T' <= T -> frame W T' m m'.
Proof. intros Hf Hle a o (Ha & ? & ?) Hw. apply Hf; [|done]. split_and!; [done|lia..]. Qed.

(** The slots with a new entry at the end of the used memory. *)
Lemma slots_new_entry m m1 T T' ppt l L key pk v p :
  slots_rep m T ppt l L -> maps_to L M -> M !! key = None -> found_at shm_hash L key p -> ends L key p = true -> 0 <= p < zlen l ->
  disjoint_mem m1 -> keeps T m m1 -> at_below m T (ABS pk) (O_text key) -> cstring key -> occupied L + 1 < zlen l ->
  0 < pvShmBuf D -> T + 40 + sizeof_T_HashEntry <= T' ->
  let w := REL (T + 40) in
  let m' := put (put m1 ppt (O_slots (<[Z.to_nat p := w]> l))) (T + 40) (O_entry (mk_entry (shm_hash key) pk v)) in
  slots_rep m' T' ppt (<[Z.to_nat p := w]> l) (<[Z.to_nat p := Some (key, v)]> L) /\ frame (λ a, a = ppt) T m m'.
Proof using Type Hsizes.
  intros Hs HM HMk Hf He Hp Hd Hk Htxt Hc Hocc Hbase HT' w m'. pose proof (sr_zlen _ _ _ _ _ Hs) as Hlen.
  pose proof (sr_array _ _ _ _ _ Hs) as Harr. pose proof Harr as (Hppt & Hr1 & Hr2).
  assert (0 < sizeof_T_HashEntry) as Hse by apply sizes_pos.
  set (l' := <[Z.to_nat p := w]> l). assert (zlen l' = zlen l) as Hl' by apply zlen_insert.
  assert (frame (λ a, a = ppt) T m m') as Hframe.
  { eapply frame_trans; [apply frame_keeps; exact Hk|]. eapply frame_trans; [|by apply frame_keeps, keeps_put; lia].
    eapply put_slots_frame; [done| |exact Hl']. apply Hk; [done|lia|lia]. }
  assert (keeps_data T m m') as Hdata.
  { intros a o Ha Ho. apply Hframe; [done|]. intros ->. destruct Ha as (Ha & _). rewrite Hppt in Ha. injection Ha as <-. done. }
  split; [|exact Hframe].
  eapply slots_insert; [exact Hs|done|done|lia| | | |].
  - split; [|split; [lia|]].
    + unfold m'. apply put_below; [apply put_eq|lia|]. cbn [sizeof] in *. rewrite zlen_insert. lia.
    + cbn [sizeof] in *. rewrite zlen_insert. lia.
  - intros q w' o' _ _ _ Hr. eapply slot_rep_mono; [|exact Hdata|exact Hr]. lia.
  - split; [unfold w, RELATIVE_ADDRESS, SHM_NULL; lia|]. exists pk. unfold w. rewrite abs_rel. cbn [fst snd].
    split; [|split; [eapply at_below_mono; [exact Htxt|lia|by apply Hdata]|done]].
    split; [apply put_eq|]. cbn [sizeof]. lia.
  - rewrite (occupied_insert shm_hash L M), HMk, bool_decide_eq_false_2 by (done || lia || apply Hs || (intros [? ?]; done)). lia.
Qed.

(** The part of an insertion after the enlargement. *)
Lemma add_entry_rep m E T ht ppt l L n key pk v s :
  mem s = m -> tail_ok D E T s -> disjoint_mem m -> table_rep m T ht ppt l L n -> maps_to L M -> M !! key = None ->
  at_below m T (ABS pk) (O_text key) -> cstring key -> occupied L + 1 < zlen l ->
  sizeof_T_HashEntry < 2 ^ 62 -> T + calcActualSize sizeof_T_HashEntry + 40 <= E ->
  exists m' p, let T' := T + calcActualSize sizeof_T_HashEntry in
    let l' := <[Z.to_nat p := REL (T + 40)]> l in let L' := <[Z.to_nat p := Some (key, v)]> L in
    runs (shm_add_entry D ht pk v) s 0 (mk_shm m' T' (iLogFlag s)) /\ tail_ok D E T' (mk_shm m' T' (iLogFlag s)) /\
    disjoint_mem m' /\ table_rep m' T' ht ppt l' L' n /\ maps_to L' (<[key := v]> M) /\ occupied L' = occupied L + 1 /\
    frame (λ a, a = ppt) T m m'.
Proof using Type Hsizes.
  intros Hm Ht Hd Hrep HM HMk Htxt Hc Hocc Hsz Hroom. pose proof (tr_slots _ _ _ _ _ _ _ Hrep) as Hs.
  assert (0 < sizeof_T_HashEntry) as Hse by apply sizes_pos.
  destruct (probe_rep m T ppt l L key s Hm Hs Hc) as (p & Hp & Hr & Hf & He).
  assert (0 <= sizeof_T_HashEntry < 2 ^ 62) as Hsz' by (split; [lia|exact Hsz]).
  destruct (malloc_bump D E T s sizeof_T_HashEntry Ht Hsz' Hroom) as (m1 & Hrun & Ht1 & _ & Hk & Hd1).
  pose proof (calcActualSize_bounds sizeof_T_HashEntry Hsz') as Hact. set (T' := T + calcActualSize sizeof_T_HashEntry) in *.
  set (s1 := mk_shm m1 T' (iLogFlag s)) in *. subst m. pose proof (tail_range _ _ _ _ Ht) as HTr.
  destruct (slots_new_entry (mem s) m1 T T' ppt l L key pk v p) as [Hs' Hframe]; [exact Hs|done|done|done|done|done|by apply Hd1|done|done|done|done|lia|lia|].
  set (m2 := put m1 ppt _) in *. set (m3 := put m2 _ _) in *.
  pose proof (sr_array _ _ _ _ _ Hs) as Harr. pose proof Harr as (Hppt & Hr1 & Hr2).
  assert (m1 !! ppt = Some (O_slots l)) as Hppt1 by (apply Hk; [done|lia|lia]).
  assert (tail_ok D E T' (with_mem m2 s1)) as Ht2.
  { refine (tail_put E T' s1 ppt (O_slots _) Ht1 _ _); [lia|]. cbn [sizeof] in *. rewrite zlen_insert. lia. }
  assert (tail_ok D E T' (with_mem m3 s1)) as Ht3
    by (refine (tail_put E T' (with_mem m2 s1) (T + 40) (O_entry _) Ht2 _ _); cbn [sizeof]; lia).
  exists m3, p. split_and!.
  - unfold shm_add_entry. eapply runs_bind; [eapply runs_load; [apply Hrep|done]|]. cbn [pptTable iMask]. rewrite abs_rel.
    eapply runs_bind; [eapply runs_load; [apply Htxt|done]|]. eapply runs_bind; [exact Hp|].
    eapply runs_bind; [exact Hrun|]. unfold SHM_NULL. destruct (Z.eqb_spec (REL (T + 40)) (-1)); [unfold RELATIVE_ADDRESS in *; lia|].
    eapply runs_bind; [eapply (runs_store_word D s1 ppt p l); [done|lia|]|].
    { eapply (tail_in_segment D E T' s1); [done|lia|]. cbn [sizeof] in *. lia. }
    rewrite abs_rel. eapply runs_bind; [|done]. apply (runs_store D (with_mem m2 s1)).
    eapply (tail_in_segment D E T' s1); [done|lia|]. cbn [sizeof]. lia.
  - exact Ht3.
  - by apply disjoint_put, disjoint_put, Hd1.
  - pose proof Hrep as [Htb _ Hblk Hbr]. split; rewrite ?zlen_insert; [|exact Hs'| |lia].
    + eapply at_below_mono; [exact Htb|lia|]. apply Hframe; [exact Htb|]. intros ->. destruct Htb as (Hx & _). by rewrite Hx in Hppt.
    + apply (Hframe (ppt - 40)); [|lia]. split; [exact Hblk|]. cbn [sizeof used_block]. unfold sizeof_T_MemoryBlock. lia.
  - apply (maps_to_insert shm_hash); [apply Hs|by rewrite <- (sr_zlen _ _ _ _ _ Hs)|done..].
  - rewrite (occupied_insert shm_hash L M), HMk, bool_decide_eq_false_2
      by (done || apply Hs || (rewrite <- (sr_zlen _ _ _ _ _ Hs); lia) || (intros [? ?]; done)). done.
  - exact Hframe.
Qed.
(** ** Expanding *)

(** The loop that moves the entries: [L'] has the first [i] slots of [L]. *)
Record moving (m : memory) (T tmp ppt : Z) (l : list Z) (L : list (option (bytes * Z))) (i : nat) (l' : list Z) (L' : list (option (bytes * Z))) : Prop := {
  mv_temp : at_below m T tmp (O_slots l);
  mv_other : tmp <> ppt;
  mv_old : Forall2 (slot_rep m T) l L;
  mv_new : slots_rep m T ppt l' L';
  mv_map : exists Mi, maps_to (take i L) Mi /\ maps_to L' Mi;
  mv_count : occupied L' = occupied (take i L);
  mv_words : forall w, w ∈ l' -> w = SHM_NULL \/ w ∈ l;
}.

Lemma moving_write m T tmp ppt l L i l' L' w key v p :
  disjoint_mem m -> moving m T tmp ppt l L i l' L' -> table_ok shm_hash L -> occupied L < zlen l' ->
  l !! i = Some w -> L !! i = Some (Some (key, v)) -> entry_rep m T w (key, v) ->
  found_at shm_hash L' key p -> ends L' key p = true -> 0 <= p < zlen l' ->
  moving (put m ppt (O_slots (<[Z.to_nat p := w]> l'))) T tmp ppt l L (S i) (<[Z.to_nat p := w]> l') (<[Z.to_nat p := Some (key, v)]> L').
Proof.
  intros Hd [Htmp Hne Hold Hs (Mi & Hi1 & Hi2) Hcnt Hwords] Hok Hocc Hw Ho Hent Hf He Hp.
  pose proof (sr_array _ _ _ _ _ Hs) as Harr. pose proof Harr as (Hppt & Hr1 & Hr2).
  assert (zlen (<[Z.to_nat p := w]> l') = zlen l') as Hl' by apply zlen_insert.
  pose proof (put_slots_data m T ppt l' _ Hd Hppt Hl') as Hdata.
  assert (forall k w', take i L !! k <> Some (Some (key, w'))) as Hnew.
  { intros k w' Hk. apply lookup_take_Some in Hk as [Hk Hlt]. pose proof (key_unique shm_hash L key k i w' v Hok Hk Ho). lia. }
  assert (Mi !! key = None) as HMi.
  { destruct (Mi !! key) as [x|] eqn:E; [|done]. apply Hi1 in E as (k & Hk). by apply Hnew in Hk. }
  assert (occupied (take (S i) L) = occupied (take i L) + 1) as Hcnt'.
  { rewrite (take_S_r _ _ _ Ho). unfold occupied. rewrite countb_app, countb_cons, countb_nil. simpl. lia. }
  assert (occupied (take (S i) L) <= occupied L) as Hle.
  { replace (occupied L) with (occupied (take (S i) L ++ drop (S i) L)) by by rewrite take_drop.
    unfold occupied. rewrite countb_app.
    pose proof (countb_bounds (λ o, bool_decide (is_Some o)) (drop (S i) L)). lia. }
  assert (occupied (<[Z.to_nat p := Some (key, v)]> L') = occupied L' + 1) as Hocc'.
  { rewrite (occupied_insert shm_hash L' Mi), HMi, bool_decide_eq_false_2; [done|by intros [? ?]|apply Hs|done|done| |done].
    by rewrite <- (sr_zlen _ _ _ _ _ Hs). }
  split.
  - eapply at_below_mono; [exact Htmp|done|]. rewrite (put_same m ppt (O_slots l')); [apply Htmp|done|done|cbn [sizeof]; lia|done].
  - done.
  - eapply Forall2_impl; [exact Hold|]. intros x o. by apply slot_rep_mono.
  - eapply slots_insert; [exact Hs|done|done|done| | |by eapply (slot_rep_mono _ _ T T w (Some (key, v)))|lia].
    + split; [apply put_eq|]. cbn [sizeof] in *. rewrite Hl'. lia.
    + intros q w' o' _ _ _. by apply slot_rep_mono.
  - exists (<[key := v]> Mi). rewrite (take_S_r _ _ _ Ho). split; [by apply maps_to_snoc|].
    apply (maps_to_insert shm_hash); [apply Hs|by rewrite <- (sr_zlen _ _ _ _ _ Hs)|done..].
  - lia.
  - intros x Hx. apply list_elem_of_lookup in Hx as (k & Hk). destruct (decide (k = Z.to_nat p)) as [->|Hkp].
    + rewrite list_lookup_insert_eq in Hk by (unfold zlen in Hp; lia). injection Hk as <-. right. by eapply list_elem_of_lookup_2.
    + rewrite list_lookup_insert_ne in Hk by done. apply Hwords. by eapply list_elem_of_lookup_2.
Qed.

Lemma moving_skip m T tmp ppt l L i l' L' :
  moving m T tmp ppt l L i l' L' -> L !! i = Some None -> moving m T tmp ppt l L (S i) l' L'.
Proof.
  intros [Htmp Hne Hold Hs (Mi & Hi1 & Hi2) Hcnt Hwords] Ho. split; try done.
  - exists Mi. rewrite (take_S_r _ _ _ Ho). split; [by apply maps_to_snoc_none|done].
  - rewrite (take_S_r _ _ _ Ho), Hcnt. unfold occupied. rewrite countb_app, countb_cons, countb_nil. simpl. lia.
Qed.

Lemma expand_loop_rep E T tmp ppt l L : forall k i l' L' s,
  tail_ok D E T s -> disjoint_mem (mem s) -> moving (mem s) T tmp ppt l L i l' L' -> table_ok shm_hash L ->
  occupied L < zlen l' -> (i + k = length l)%nat ->
  exists m' l'' L'', runs (shm_expand_loop D k tmp (Z.of_nat i) ppt (zlen l' - 1)) s tt (with_mem m' s) /\
    tail_ok D E T (with_mem m' s) /\ disjoint_mem m' /\ moving m' T tmp ppt l L (length l) l'' L'' /\
    zlen l'' = zlen l' /\ frame (λ a, a = ppt) T (mem s) m'.
Proof.
  induction k as [|k IH]; intros i l' L' s Ht Hd Hmv Hok Hocc Hik.
  - exists (mem s), l', L'. replace (length l) with i by lia. destruct s. split_and!; [done..|]. by intros a o (Ha & _) _.
  - destruct (lookup_lt_is_Some_2 l i ltac:(lia)) as [w Hw].
    destruct (Forall2_lookup_l _ _ _ _ _ (mv_old _ _ _ _ _ _ _ _ _ Hmv) Hw) as (o & Ho & Hr).
    assert (zget l (Z.of_nat i) = Ok w) as Hz by (apply zget_lookup; [lia|by rewrite Nat2Z.id]).
    destruct o as [[key v]|]; simpl in Hr.
    + pose proof Hr as (Hne & pk & (He & Her) & (Hx & Hxr) & Hc). cbn [fst snd] in *.
      pose proof (mv_new _ _ _ _ _ _ _ _ _ Hmv) as Hs.
      destruct (probe_rep (mem s) T ppt l' L' key s eq_refl Hs Hc) as (p & Hp & Hpr & Hf & Hends).
      pose proof (moving_write _ _ _ _ _ _ _ _ _ _ _ _ _ Hd Hmv Hok Hocc Hw Ho Hr Hf Hends Hpr) as Hmv'.
      set (l2 := <[Z.to_nat p := w]> l') in *. set (m2 := put (mem s) ppt (O_slots l2)) in *.
      assert (zlen l2 = zlen l') as Hl2 by apply zlen_insert.
      pose proof (sr_array _ _ _ _ _ Hs) as (Hppt & Hr1 & Hr2).
      assert (tail_ok D E T (with_mem m2 s)) as Ht2.
      { refine (tail_put E T s ppt (O_slots l2) Ht _ _); [lia|]. cbn [sizeof] in *. lia. }
      destruct (IH (S i) l2 (<[Z.to_nat p := Some (key, v)]> L') (with_mem m2 s) Ht2) as (m' & l'' & L'' & Hrun & Ht' & Hd' & Hmv'' & Hl'' & Hfr);
        [by apply disjoint_put|exact Hmv'|done|lia|lia|].
      exists m', l'', L''. split_and!; [|done|done|done|lia|].
      * cbn [shm_expand_loop].
        eapply runs_bind; [eapply runs_load_word; [apply (mv_temp _ _ _ _ _ _ _ _ _ Hmv)|exact Hz]|].
        destruct (Z.eqb_spec w SHM_NULL); [done|].
        eapply runs_bind; [eapply runs_load; [exact He|done]|]. cbn [BasHashTypes.pvKey iHashValue].
        eapply runs_bind; [eapply runs_load; [exact Hx|done]|].
        eapply runs_bind; [exact Hp|]. rewrite rel_abs.
        eapply runs_bind; [eapply (runs_store_word D s ppt p l'); [exact Hppt|done|]|].
        { eapply (tail_in_segment D E T s); [done|lia|]. cbn [sizeof] in Hr2. pose proof (tail_range _ _ _ _ Ht). lia. }
        fold l2. fold m2. rewrite Hl2 in Hrun. by replace (Z.of_nat i + 1) with (Z.of_nat (S i)) by lia.
      * eapply frame_trans; [by apply (put_slots_frame _ _ _ l')|exact Hfr].
    + subst w. destruct (IH (S i) l' L' s Ht Hd (moving_skip _ _ _ _ _ _ _ _ _ Hmv Ho) Hok Hocc ltac:(lia))
        as (m' & l'' & L'' & Hrun & Hrest). exists m', l'', L''. split; [|exact Hrest].
      cbn [shm_expand_loop].
      eapply runs_bind; [eapply runs_load_word; [apply (mv_temp _ _ _ _ _ _ _ _ _ Hmv)|exact Hz]|].
      rewrite Z.eqb_refl. by replace (Z.of_nat i + 1) with (Z.of_nat (S i)) by lia.
Qed.
Lemma calc_words z : 0 <= z <= 1073741824 -> calcActualSize (8 * z) = 8 * z + 48.
Proof.
  intros Hz. rewrite calcActualSize_eq by (cbn; lia). replace (8 * z + 40) with ((z + 5) * 8) by lia.
  rewrite Z.div_mul by lia. lia.
Qed.

(** The array of slots has moved to fresh memory, which the table refers to;
    the copy of the old one is at [tmp]. *)
Lemma expand_moves m E T ht ppt l L n s N :
  mem s = m -> tail_ok D E T s -> disjoint_mem m -> table_rep m T ht ppt l L n ->
  zlen l < N -> N <= 1073741824 -> T + (8 * zlen l + 48) + (8 * N + 48) + 40 <= E ->
  let T1 := T + (8 * zlen l + 48) in let T3 := T1 + (8 * N + 48) in
  exists m1 m3, runs (shmMalloc D (8 * zlen l)) s (REL (T + 40)) (mk_shm m1 T1 (iLogFlag s)) /\
    keeps T m m1 /\ tail_ok D E T1 (mk_shm m1 T1 (iLogFlag s)) /\
    let m2 := put m1 (T + 40) (O_slots l) in
    runs (shmRealloc D (REL ppt) (8 * N)) (mk_shm m2 T1 (iLogFlag s)) (REL (T1 + 40)) (mk_shm m3 T3 (iLogFlag s)) /\
    tail_ok D E T3 (mk_shm m3 T3 (iLogFlag s)) /\ disjoint_mem m3 /\ m3 !! T1 = Some (used_block (8 * N + 48) (8 * N)) /\
    m3 !! (T + 40) = Some (O_slots l) /\ frame (λ a, a = ppt - 40) T m m3.
Proof using Type Hsizes.
  intros Hm Ht Hd Hrep HlN HN Hroom T1 T3. pose proof (tr_slots _ _ _ _ _ _ _ Hrep) as Hs. pose proof (sr_size _ _ _ _ _ Hs) as Hl.
  pose proof (tail_range _ _ _ _ Ht) as HTr. pose proof (calc_words (zlen l) ltac:(lia)) as Hc1. pose proof (calc_words N ltac:(lia)) as Hc2.
  destruct (malloc_bump D E T s (8 * zlen l)) as (m1 & Hrun1 & Ht1 & _ & Hk1 & Hd1); [done|cbn; lia|lia|].
  rewrite Hc1 in *. fold T1 in Hrun1, Ht1. set (m2 := put m1 (T + 40) (O_slots l)).
  assert (keeps T m m2) as Hk2 by (subst m; etrans; [exact Hk1|apply keeps_put; lia]).
  assert (disjoint_mem m2) as Hd2 by (apply disjoint_put, Hd1; by subst m).
  assert (tail_ok D E T1 (mk_shm m2 T1 (iLogFlag s))) as Ht2.
  { refine (tail_put E T1 (mk_shm m1 T1 (iLogFlag s)) (T + 40) (O_slots l) Ht1 _ _); cbn [sizeof]; lia. }
  pose proof Hrep as [_ _ Hblk Hbr]. rewrite Hc1 in *.
  assert (m2 !! (ppt - 40) = Some (used_block (8 * zlen l + 48) (8 * zlen l))) as Hblk2.
  { apply Hk2; [done|lia|]. cbn [used_block sizeof]. unfold sizeof_T_MemoryBlock. lia. }
  destruct (realloc_grows D E T1 (mk_shm m2 T1 (iLogFlag s)) ppt (8 * zlen l + 48) (8 * zlen l) (8 * N))
    as (m3 & T3' & a' & Hrun3 & Ht3 & _ & ET & Ea & Hb3 & _ & Hk3 & Hd3); [done|exact Hblk2|lia|lia|lia|lia|cbn; lia|lia|lia|].
  destruct (Z.eqb_spec (ppt - 40 + (8 * zlen l + 48)) T1); [lia|]. subst a'. rewrite Hc2 in *.
  assert (T3' = T3) as -> by lia. replace (T1 + 40 - 40) with T1 in Hb3 by lia.
  assert (forall x o, m2 !! x = Some o -> x < T1 -> x + sizeof o <= T1 -> x <> ppt - 40 -> m3 !! x = Some o) as Hkeep.
  { intros x o Hx Hlt Hle Hne. apply Hk3; [done|done|done|done|]. exact (Hd2 _ _ _ _ Hblk2 Hx (not_eq_sym Hne)). }
  exists m1, m3. split; [exact Hrun1|]. split; [by subst m|]. split; [exact Ht1|]. cbv zeta. fold m2.
  split_and!; [exact Hrun3|exact Ht3|by apply Hd3|exact Hb3| |].
  - apply Hkeep; [apply put_eq|lia|cbn [sizeof]; lia|lia].
  - intros a o (Ha & Har & Ho) Hne. apply Hkeep; [|lia|lia|done]. apply Hk2; [done|lia|lia].
Qed.

Lemma expanded_size z N : 0 < z -> (exists k, (k <= 30)%nat /\ z = 2 ^ Z.of_nat k) -> BasHashLaws ->
  N = z * BAS_HASHTABLE_EXPAND_MULTIPLICAND -> N <= 1073741824 -> exists j, (j <= 30)%nat /\ N = 2 ^ Z.of_nat j /\ z < N.
Proof.
  intros Hz (k & Hk & ->) Hlaws -> HN. destruct multiplicand_pow2 as (j & Hj & E). rewrite E in *.
  rewrite <- Z.pow_add_r in * by lia. exists (k + j)%nat. rewrite Nat2Z.inj_add. split_and!; [|done|].
  - assert (~ (31 <= k + j)%nat); [|lia]. intros Hge.
    assert (2 ^ 31 <= 2 ^ (Z.of_nat k + Z.of_nat j)) by (apply Z.pow_le_mono_r; lia). cbn in *. lia.
  - apply Z.pow_lt_mono_r; lia.
Qed.

(** The state in which the loop of an expansion starts. *)
Lemma expand_starts m E T ht ppt l L n flag N j m3 :
  tail_ok D E (T + (8 * zlen l + 48) + (8 * N + 48)) (mk_shm m3 (T + (8 * zlen l + 48) + (8 * N + 48)) flag) ->
  disjoint_mem m3 -> table_rep m T ht ppt l L n -> 0 < pvShmBuf D -> (j <= 30)%nat -> N = 2 ^ Z.of_nat j -> zlen l < N ->
  let T1 := T + (8 * zlen l + 48) in let T3 := T1 + (8 * N + 48) in
  m3 !! T1 = Some (used_block (8 * N + 48) (8 * N)) -> m3 !! (T + 40) = Some (O_slots l) -> frame (λ a, a = ppt - 40) T m m3 ->
  let t mask limit := O_table (mk_hash_table (REL (T1 + 40)) 0 n mask limit NULL NULL BAS_FALSE BAS_FALSE) in
  let m4 := put m3 ht (t (zlen l - 1) (load_limit (zlen l))) in
  let m5 := put m4 (T1 + 40) (O_slots (replicate (Z.to_nat N) SHM_NULL)) in
  let m6 := put m5 ht (t (N - 1) (load_limit N)) in
  tail_ok D E T3 (mk_shm m6 T3 flag) /\ disjoint_mem m6 /\
  moving m6 T3 (T + 40) (T1 + 40) l L 0 (replicate (Z.to_nat N) SHM_NULL) (replicate (Z.to_nat N) None) /\
  at_below m6 T3 ht (t (N - 1) (load_limit N)) /\ m6 !! T1 = Some (used_block (8 * N + 48) (8 * N)) /\
  frame (λ a, a = ht \/ a = ppt - 40) T m m6.
Proof using Type Hsizes.
  intros Ht3 Hd3 Hrep Hb Hj EN HlN T1 T3 Hb3 Htmp3 Hf3 t m4 m5 m6. subst t. cbv beta in m4, m6 |- *.
  pose proof Hrep as [(Htab & Hta & Htb) Hs Hblk Hbr]. pose proof (sr_size _ _ _ _ _ Hs) as Hl.
  assert (0 < sizeof_T_HashTable) as Hst by apply sizes_pos. cbn [sizeof] in Htb.
  set (t0 := mk_hash_table (REL ppt) 0 n _ _ _ _ _ _) in Htab.
  assert (zlen (replicate (Z.to_nat N) SHM_NULL) = N) as HNl by (unfold zlen; rewrite length_replicate; lia).
  assert (ht <> ppt - 40) as Hne by (intros ->; by rewrite Hblk in Htab).
  assert (m3 !! ht = Some (O_table t0)) as Htab3 by (apply Hf3; [by split|done]).
  assert (tail_ok D E T3 (mk_shm m4 T3 flag)) as Ht4
    by (refine (tail_put E T3 (mk_shm m3 T3 flag) ht (O_table _) Ht3 _ _); cbn [sizeof]; lia).
  assert (tail_ok D E T3 (mk_shm m5 T3 flag)) as Ht5
    by (refine (tail_put E T3 (mk_shm m4 T3 flag) (T1 + 40) (O_slots _) Ht4 _ _); cbn [sizeof]; lia).
  assert (tail_ok D E T3 (mk_shm m6 T3 flag)) as Ht6
    by (refine (tail_put E T3 (mk_shm m5 T3 flag) ht (O_table _) Ht5 _ _); cbn [sizeof]; lia).
  assert (disjoint_mem m4) as Hd4 by by apply disjoint_put. assert (disjoint_mem m5) as Hd5 by by apply disjoint_put.
  assert (forall a o, m3 !! a = Some o -> T <= a -> a + sizeof o <= T1 + 40 -> a < T1 + 40 -> m6 !! a = Some o) as Habove.
  { intros a o Ha Hle Hend Hlt. apply put_above; [|lia|cbn [sizeof]; lia].
    apply put_below; [|lia|lia]. apply put_above; [done|lia|cbn [sizeof]; lia]. }
  assert (frame (λ a, a = ht \/ a = ppt - 40) T m m6) as Hframe.
  { eapply frame_trans; [eapply frame_weaken; [exact Hf3|by right]|].
    apply (frame_trans _ _ _ m4); [eapply frame_weaken; [by apply (put_frame m3 T ht (O_table t0))|by left]|].
    apply (frame_trans _ _ _ m5); [apply frame_keeps, keeps_put; lia|].
    apply (frame_weaken (λ a, a = ht)); [|by left].
    eapply put_frame; [done|apply put_below; [apply put_eq|lia|cbn [sizeof]; lia]|done]. }
  assert (keeps_data T m m6) as Hdata.
  { intros a o Ha Ho. apply Hframe; [done|]. destruct Ha as (Ha & _). intros [->| ->]; [rewrite Htab in Ha|rewrite Hblk in Ha]; by injection Ha as <-. }
  split_and!; [done|by apply disjoint_put| | |apply Habove; [done|lia| |lia]|done].
  - split.
    + split; [apply Habove; [done|lia|cbn [sizeof]; lia|lia]|cbn [sizeof]; lia].
    + lia.
    + eapply Forall2_impl; [apply Hs|]. intros w o. apply slot_rep_mono; [lia|done].
    + split.
      * split; [apply put_above; [apply put_eq|lia|cbn [sizeof]; lia]|cbn [sizeof]; lia].
      * apply Forall2_replicate. done.
      * rewrite EN. by apply table_ok_empty.
      * rewrite occupied_empty. unfold zlen. rewrite length_replicate. lia.
    + exists ∅. split; [apply maps_to_nil|apply maps_to_empty].
    + by rewrite occupied_empty.
    + intros w Hw. left. by apply elem_of_replicate in Hw as [-> _].
  - split; [apply put_eq|cbn [sizeof]; lia].
  - cbn [used_block sizeof]. unfold sizeof_T_MemoryBlock. lia.
Qed.

Lemma expand_rep m E T ht ppt l L n s N :
  mem s = m -> tail_ok D E T s -> disjoint_mem m -> table_rep m T ht ppt l L n -> maps_to L M ->
  N = zlen l * BAS_HASHTABLE_EXPAND_MULTIPLICAND -> BasHashLaws -> N <= 1073741824 ->
  T + (8 * zlen l + 48) + (8 * N + 48) + 40 <= E ->
  exists m' ppt' l' L', let T' := T + (8 * zlen l + 48) + (8 * N + 48) in
    runs (shmHashTableExpand D ht) s 0 (mk_shm m' T' (iLogFlag s)) /\ tail_ok D E T' (mk_shm m' T' (iLogFlag s)) /\
    disjoint_mem m' /\ table_rep m' T' ht ppt' l' L' n /\ maps_to L' M /\ occupied L' = occupied L /\ zlen l' = N /\
    T <= ppt' - 40 /\ (forall w, w ∈ l' -> w = SHM_NULL \/ w ∈ l) /\ frame (λ a, a = ht \/ a = ppt - 40) T m m'.
Proof using Type Hsizes.
  intros Hm Ht Hd Hrep HM EN Hlaws HN Hroom. pose proof (tr_slots _ _ _ _ _ _ _ Hrep) as Hs.
  pose proof (sr_size _ _ _ _ _ Hs) as Hl. pose proof (sr_zlen _ _ _ _ _ Hs) as Hlen.
  assert (exists j, (j <= 30)%nat /\ N = 2 ^ Z.of_nat j /\ zlen l < N) as (j & Hj & EN' & HlN) 
    by (eapply (expanded_size (zlen l)); [lia|rewrite Hlen; exact (table_size _ _ (sr_ok _ _ _ _ _ Hs))|done..]).
  destruct (expand_moves m E T ht ppt l L n s N) as (m1 & m3 & Hrun1 & Hk1 & Ht1 & Hrun3 & Ht3 & Hd3 & Hb3 & Htmp3 & Hf3); [done..|].
  pose proof (tail_range _ _ _ _ Ht) as HTr.
  destruct (expand_starts m E T ht ppt l L n (iLogFlag s) N j m3) as (Ht6 & Hd6 & Hmv & Htab6 & Hb6 & Hf6);
    [done|done|done|lia|done|done|done|done|done|done|].
  set (T1 := T + (8 * zlen l + 48)) in *. set (T3 := T1 + (8 * N + 48)) in *. set (m2 := put m1 (T + 40) (O_slots l)) in *.
  set (m4 := put m3 ht _) in *. set (m5 := put m4 (T1 + 40) _) in *. set (m6 := put m5 ht _) in *.
  assert (zlen (replicate (Z.to_nat N) SHM_NULL) = N) as HNl by (unfold zlen; rewrite length_replicate; lia).
  destruct (expand_loop_rep E T3 (T + 40) (T1 + 40) l L (length l) 0 _ _ (mk_shm m6 T3 (iLogFlag s)) Ht6 Hd6 Hmv)
    as (m7 & l' & L' & Hrun7 & Ht7 & Hd7 & Hmv7 & Hl7 & Hf7); [apply Hs|rewrite HNl; pose proof (sr_free _ _ _ _ _ Hs); lia|lia|].
  rewrite HNl in Hrun7, Hl7. pose proof (mv_new _ _ _ _ _ _ _ _ _ Hmv7) as Hs7.
  exists m7, (T1 + 40), l', L'. split_and!.
  - unfold shmHashTableExpand. pose proof Hrep as [(Htab & Hta & Htb) _ Hblk Hbr]. pose proof (sr_array _ _ _ _ _ Hs) as (Hppt & Hp1 & Hp2).
    assert (0 < sizeof_T_HashTable) as Hst by apply sizes_pos. cbn [sizeof] in Htb, Hp2.
    assert (forall a, T <= a -> (REL (a + 40) =? -1) = false) as Hrel by (intros a Ha; unfold RELATIVE_ADDRESS; lia).
    eapply runs_bind; [eapply runs_load; [by subst m|done]|]. cbn [iMask pptTable].
    eapply runs_bind; [apply runs_pure, int_range_ok; lia|]. rewrite Z.sub_add.
    eapply runs_bind; [apply runs_pure, int_range_ok; lia|]. rewrite <- EN, abs_rel.
    eapply runs_bind; [exact Hrun1|]. unfold SHM_NULL. rewrite Hrel, abs_rel by lia.
    eapply runs_bind; [eapply runs_load; [apply Hk1; [exact Hppt|lia|cbn [sizeof]; lia]|done]|]. rewrite Z.eqb_refl.
    eapply runs_bind; [apply runs_store, (tail_in_segment D E T1 (mk_shm m1 T1 (iLogFlag s))); [done|lia|cbn [sizeof]; lia]|].
    eapply runs_bind; [exact Hrun3|].
    assert (ht <> ppt - 40) as Hne by (intros ->; by rewrite Hblk in Htab).
    eapply runs_bind; [eapply runs_load; [apply Hf3; [by split|exact Hne]|done]|].
    eapply runs_bind; [apply runs_store, (tail_in_segment D E T3 (mk_shm m3 T3 (iLogFlag s))); [done|lia|cbn [sizeof]; lia]|].
    rewrite Hrel, abs_rel by lia.
    eapply runs_bind; [apply runs_store, (tail_in_segment D E T3 (mk_shm m3 T3 (iLogFlag s))); [done|lia|cbn [sizeof]; lia]|].
    eapply runs_bind; [eapply runs_load; [apply put_below; [apply put_eq|lia|cbn [sizeof]; lia]|done]|].
    eapply runs_bind; [apply runs_store, (tail_in_segment D E T3 (mk_shm m3 T3 (iLogFlag s))); [done|lia|cbn [sizeof]; lia]|].
    replace (Z.to_nat (zlen l)) with (length l) by (unfold zlen; lia).
    eapply runs_bind; [exact Hrun7|]. done.
  - exact Ht7.
  - exact Hd7.
  - split; rewrite ?Hl7.
    + destruct Htab6 as (Hx1 & Hx2). split; [|exact Hx2]. apply Hf7; [by split|].
      intros Eq. pose proof (tr_table _ _ _ _ _ _ _ Hrep) as (_ & ? & _). lia.
    + exact Hs7.
    + rewrite calc_words by lia. replace (T1 + 40 - 40) with T1 by lia. apply Hf7; [|lia].
      split; [done|]. cbn [used_block sizeof]. unfold sizeof_T_MemoryBlock. lia.
    + rewrite calc_words by lia. lia.
  - destruct (mv_map _ _ _ _ _ _ _ _ _ Hmv7) as (Mi & Hi1 & Hi2). rewrite take_ge in Hi1 by (unfold zlen in Hlen; lia).
    by rewrite (maps_to_unique _ _ _ HM Hi1).
  - rewrite (mv_count _ _ _ _ _ _ _ _ _ Hmv7). by rewrite take_ge by (unfold zlen in Hlen; lia).
  - done.
  - lia.
  - apply (mv_words _ _ _ _ _ _ _ _ _ Hmv7).
  - eapply frame_trans; [exact Hf6|]. intros a o (Ha & Har & Ho) _. apply Hf7; [|lia]. split; [done|lia].
Qed.
(** ** The whole insertion

    [n] bounds the entries, and the size of the array is bounded in terms of
    [n]. *)
Record table_inv (m : memory) (T ht ppt : Z) (l : list Z) (L : list (option (bytes * Z))) (n : Z) : Prop := {
  ti_rep : table_rep m T ht ppt l L n;
  ti_map : maps_to L M;
  ti_used : occupied L <= n < zlen l;
  ti_size : zlen l <= BAS_HASHTABLE_INIT_SIZE + 2 * BAS_HASHTABLE_EXPAND_MULTIPLICAND * n;
}.

(** A table is kept by what keeps its objects and what they refer to. *)
Lemma table_inv_frame (W : Z -> Prop) m m' T T' ht ppt l L n :
  table_inv m T ht ppt l L n -> T <= T' -> frame W T m m' ->
  (forall a, W a -> ~ owned ht ppt l a /\ forall s, m !! a <> Some (O_text s)) -> table_inv m' T' ht ppt l L n.
Proof.
  intros [[Htab Hs Hblk Hbr] HM Hu Hsz] Hle Hf HW. pose proof (sr_array _ _ _ _ _ Hs) as Harr.
  split; [|done..]. split; [| | |lia].
  - eapply at_below_mono; [exact Htab|done|]. apply Hf; [done|]. intros Hw. apply (HW ht Hw). by left.
  - split; [| |apply Hs|apply Hs].
    + eapply at_below_mono; [exact Harr|done|]. apply Hf; [done|]. intros Hw. apply (HW ppt Hw). right. by left.
    + apply Forall2_same_length_lookup. split; [by eapply Forall2_length, Hs|]. intros i w o Hw Ho.
      pose proof (sr_entries _ _ _ _ _ Hs) as HF. destruct o as [kv|]; [|exact (Forall2_lookup_lr _ _ _ _ _ _ HF Hw Ho)].
      destruct (Forall2_lookup_lr _ _ _ _ _ _ HF Hw Ho) as (Hne & pk & He & Ht & Hc). split; [done|]. exists pk. split_and!; [| |done].
      * eapply at_below_mono; [exact He|done|]. apply Hf; [done|]. intros Hwa. apply (HW _ Hwa). right. right. right.
        exists w. split_and!; [by eapply list_elem_of_lookup_2|done|done].
      * eapply at_below_mono; [exact Ht|done|]. apply Hf; [done|]. intros Hwa. destruct (HW _ Hwa) as [_ Hno]. by apply (Hno kv.1), Ht.
  - destruct Harr as (_ & Hr & _). apply (Hf (ppt - 40)).
    + split; [done|]. cbn [used_block sizeof]. unfold sizeof_T_MemoryBlock. lia.
    + intros Hw. apply (HW _ Hw). right. right. by left.
Qed.

Lemma table_inv_mono m m' T T' ht ppt l L n :
  table_inv m T ht ppt l L n -> T <= T' -> frame (λ _, False) T m m' -> table_inv m' T' ht ppt l L n.
Proof. intros Hi Hle Hf. by eapply table_inv_frame. Qed.

(** The memory one insertion takes at most from a table of [z] slots. *)
Definition insert_need (z : Z) : Z :=
  (8 * z + 48) + (8 * (z * BAS_HASHTABLE_EXPAND_MULTIPLICAND) + 48) + calcActualSize sizeof_T_HashEntry.

Lemma set_used_rep m E T ht ppt l L n n' s :
  mem s = m -> tail_ok D E T s -> disjoint_mem m -> table_rep m T ht ppt l L n ->
  let m' := put m ht (O_table (mk_hash_table (REL ppt) 0 n' (zlen l - 1) (load_limit (zlen l)) NULL NULL BAS_FALSE BAS_FALSE)) in
  tail_ok D E T (with_mem m' s) /\ disjoint_mem m' /\ table_rep m' T ht ppt l L n' /\ frame (λ a, a = ht) T m m'.
Proof.
  intros <- Ht Hd Hrep m'. pose proof Hrep as [(Htab & Hta & Htb) Hs Hblk Hbr].
  assert (frame (λ a, a = ht) T (mem s) m') as Hf by by apply (put_frame _ _ _ _ _ Hd Htab).
  split_and!; [by refine (tail_put E T s ht (O_table _) Ht _ _); cbn [sizeof] in *; lia|by apply disjoint_put| |exact Hf].
  split.
  - split; [apply put_eq|cbn [sizeof] in *; lia].
  - eapply slots_rep_mono; [exact Hs|lia| |].
    + intros a o Ha Ho. apply Hf; [done|]. intros ->. destruct Ha as (Ha & _). rewrite Htab in Ha. by injection Ha as <-.
    + apply Hf; [apply Hs|]. intros ->. pose proof (sr_array _ _ _ _ _ Hs) as (Hx & _). by rewrite Htab in Hx.
  - apply (Hf (ppt - 40)).
    + split; [done|]. cbn [used_block sizeof]. unfold sizeof_T_MemoryBlock.
      pose proof (sr_array _ _ _ _ _ Hs) as (_ & ? & _). lia.
    + intros Eq. simpl in Eq. rewrite Eq in Hblk. by rewrite Htab in Hblk.
  - done.
Qed.

Lemma elem_of_insert_word (l : list Z) k x w : w ∈ <[k := x]> l -> w = x \/ w ∈ l.
Proof.
  intros (q & Hq)%list_elem_of_lookup. destruct (decide (q = k)) as [->|Hne].
  - apply list_lookup_insert_Some in Hq as [(_ & -> & _)|[? _]]; [by left|done].
  - rewrite list_lookup_insert_ne in Hq by done. right. by eapply list_elem_of_lookup_2.
Qed.

(** The entry's slot is written in an array of the table's own, or in a new
    one. *)
Lemma owned_new_entry T T' ht ppt l ppt' l' k :
  T <= T' -> (ppt' = ppt \/ T <= ppt' - 40) -> (forall w, w ∈ l' -> w = SHM_NULL \/ w ∈ l) ->
  forall a, owned ht ppt' (<[k := REL (T' + 40)]> l') a -> owned ht ppt l a \/ T <= a.
Proof.
  intros HT Hp Hw a [->|[->|[->|(w & Hin & Hne & ->)]]].
  - left. by left.
  - destruct Hp as [->|Hp]; [left; right; by left|right; lia].
  - destruct Hp as [->|Hp]; [left; right; right; by left|right; lia].
  - apply elem_of_insert_word in Hin as [->|Hin]; [right; rewrite abs_rel; lia|].
    destruct (Hw w Hin) as [?|Hin']; [done|]. left. right. right. right. by exists w.
Qed.

(** A key that is not there, in a table whose [iUsed] has been counted up. *)
Lemma insert_new_rep m E T ht ppt l L n key pk v s :
  BasHashLaws -> mem s = m -> tail_ok D E T s -> disjoint_mem m -> table_inv m T ht ppt l L n -> M !! key = None ->
  at_below m T (ABS pk) (O_text key) -> cstring key -> sizeof_T_HashEntry < 2 ^ 62 ->
  zlen l * BAS_HASHTABLE_EXPAND_MULTIPLICAND <= 1073741824 -> T + insert_need (zlen l) + 40 <= E ->
  exists m' T' ppt' l' L',
    runs (_ ← store D ht (O_table (mk_hash_table (REL ppt) 0 (n + 1) (zlen l - 1) (load_limit (zlen l)) NULL NULL BAS_FALSE BAS_FALSE));
          if load_limit (zlen l) <? n + 1 then
            r ← shmHashTableExpand D ht; if negb (r =? 0) then mret (-1) else shm_add_entry D ht pk v
          else shm_add_entry D ht pk v) s 0 (mk_shm m' T' (iLogFlag s)) /\
    T <= T' <= T + insert_need (zlen l) /\ tail_ok D E T' (mk_shm m' T' (iLogFlag s)) /\ disjoint_mem m' /\
    table_rep m' T' ht ppt' l' L' (n + 1) /\ maps_to L' (<[key := v]> M) /\ occupied L' <= n + 1 < zlen l' /\
    zlen l' <= BAS_HASHTABLE_INIT_SIZE + 2 * BAS_HASHTABLE_EXPAND_MULTIPLICAND * (n + 1) /\
    frame (owned ht ppt l) T m m' /\ (forall a, owned ht ppt' l' a -> owned ht ppt l a \/ T <= a).
Proof using Type Hsizes.
  intros Hlaws Hm Ht Hd [Hrep HM Hused Hsize] HMk Htxt Hc Hse HN Hroom. unfold insert_need in *.
  pose proof (tr_slots _ _ _ _ _ _ _ Hrep) as Hs. pose proof (sr_size _ _ _ _ _ Hs) as Hz. pose proof (tail_range _ _ _ _ Ht) as HTr.
  assert (0 < sizeof_T_HashEntry) as Hse0 by apply sizes_pos.
  pose proof (calcActualSize_bounds sizeof_T_HashEntry ltac:(split; [lia|exact Hse])) as Hact.
  destruct (expanded_size (zlen l) (zlen l * BAS_HASHTABLE_EXPAND_MULTIPLICAND)) as (j & Hj & EN & HlN);
    [lia|rewrite (sr_zlen _ _ _ _ _ Hs); exact (table_size _ _ (sr_ok _ _ _ _ _ Hs))|done..|].
  set (N := zlen l * BAS_HASHTABLE_EXPAND_MULTIPLICAND) in *.
  destruct (set_used_rep m E T ht ppt l L n (n + 1) s Hm Ht Hd Hrep) as (Ht1 & Hd1 & Hrep1 & Hf1).
  set (m1 := put m ht _) in *. pose proof Hrep as [(Htab & Hta & Htb) _ Hblk Hbr].
  assert (at_below m1 T (ABS pk) (O_text key)) as Htxt1.
  { eapply at_below_mono; [exact Htxt|lia|]. apply Hf1; [done|]. intros E'. destruct Htxt as (Hx & _). rewrite E', Htab in Hx. done. }
  assert (runs (store D ht (O_table (mk_hash_table (REL ppt) 0 (n + 1) (zlen l - 1) (load_limit (zlen l)) NULL NULL BAS_FALSE BAS_FALSE)))
    s tt (with_mem m1 s)) as Hrun1.
  { subst m. apply runs_store, (tail_in_segment D E T s); [done|lia|]. cbn [sizeof] in *. lia. }
  destruct (Z.ltb_spec (load_limit (zlen l)) (n + 1)) as [Hgt|Hle].
  - destruct (expand_rep m1 E T ht ppt l L (n + 1) (with_mem m1 s) N) as (m2 & ppt2 & l2 & L2 & Hrun2 & Ht2 & Hd2 & Hrep2 & HM2 & Hocc2 & Hl2 & Hppt2 & Hw2 & Hf2);
      [done|done|done|done|done|done|done|done|lia|]. cbn [with_mem iLogFlag] in *.
    set (T2 := T + (8 * zlen l + 48) + (8 * N + 48)) in *.
    assert (at_below m2 T2 (ABS pk) (O_text key)) as Htxt2.
    { eapply at_below_mono; [exact Htxt1|lia|]. apply Hf2; [done|]. destruct Htxt1 as (Hx & _). destruct Hrep1 as [(Hx1 & _) _ Hx2 _].
      unfold used_block in Hx2. intros [E'|E']; rewrite E' in Hx; congruence. }
    destruct (add_entry_rep m2 E T2 ht ppt2 l2 L2 (n + 1) key pk v (mk_shm m2 T2 (iLogFlag s)))
      as (m3 & p & Hrun3 & Ht3 & Hd3 & Hrep3 & HM3 & Hocc3 & Hf3); [done..|lia|done|lia|]. cbn [iLogFlag] in *.
    exists m3, (T2 + calcActualSize sizeof_T_HashEntry), ppt2, (<[Z.to_nat p := REL (T2 + 40)]> l2), (<[Z.to_nat p := Some (key, v)]> L2).
    rewrite !zlen_insert, Hl2. split_and!; [|lia|lia|done|done|done|done|lia|lia| | |].
    + eapply runs_bind; [exact Hrun1|]. eapply runs_bind; [exact Hrun2|]. exact Hrun3.
    + pose proof (load_limit_half (zlen l) ltac:(lia)). destruct init_size_pow2 as (k & _ & Ek).
      assert (0 < 2 ^ Z.of_nat k) by (apply Z.pow_pos_nonneg; lia). nia.
    + apply (frame_trans _ _ _ m1); [eapply frame_weaken; [exact Hf1|by left]|].
      apply (frame_trans _ _ _ m2); [eapply frame_weaken; [exact Hf2|]|].
      * intros a [->| ->]; [by left|right; right; by left].
      * intros a o (Ha & Har & Ho) _. apply Hf3; [split; [done|lia]|lia].
    + apply owned_new_entry; [lia|by right|done].
  - destruct (add_entry_rep m1 E T ht ppt l L (n + 1) key pk v (with_mem m1 s))
      as (m3 & p & Hrun3 & Ht3 & Hd3 & Hrep3 & HM3 & Hocc3 & Hf3); [done..| |done|lia|].
    { pose proof (load_limit_less (zlen l) ltac:(lia)). lia. }
    pose proof (load_limit_less (zlen l) ltac:(lia)). cbn [with_mem iLogFlag] in *.
    exists m3, (T + calcActualSize sizeof_T_HashEntry), ppt, (<[Z.to_nat p := REL (T + 40)]> l), (<[Z.to_nat p := Some (key, v)]> L).
    rewrite !zlen_insert. split_and!; [|lia|lia|done|done|done|done|lia|lia| | |].
    + eapply runs_bind; [exact Hrun1|]. exact Hrun3.
    + destruct multiplicand_pow2 as (k & _ & Ek). assert (0 < 2 ^ Z.of_nat k) by (apply Z.pow_pos_nonneg; lia). nia.
    + apply (frame_trans _ _ _ m1); [eapply frame_weaken; [exact Hf1|by left]|].
      eapply frame_weaken; [exact Hf3|]. intros a ->. right. by left.
    + apply owned_new_entry; [lia|by left|by right].
Qed.
End hash_facts.

Section insertion.
Context `{BasGlobal} `{BasHashConst} `{ShmLayout} `{Hsizes : !SizeLaws} (D : T_ShmAppDesc).
Abbreviation ABS := (ABSOLUTE_ADDRESS D).
Abbreviation REL := (RELATIVE_ADDRESS D).

(** An insertion sets the value of the key, takes memory from the end and
    writes to the table's own objects only. *)
Lemma insert_rep M m E T ht ppt l L n key pk v s :
  BasHashLaws -> mem s = m -> tail_ok D E T s -> disjoint_mem m -> table_inv D M m T ht ppt l L n ->
  at_below D m T (ABS pk) (O_text key) -> cstring key -> sizeof_T_HashEntry < 2 ^ 62 ->
  zlen l * BAS_HASHTABLE_EXPAND_MULTIPLICAND <= 1073741824 -> T + insert_need (zlen l) + 40 <= E ->
  exists m' T' ppt' l' L' n', runs (shmHashTableInsert D (REL ht) pk v) s 0 (mk_shm m' T' (iLogFlag s)) /\
    T <= T' <= T + insert_need (zlen l) /\ tail_ok D E T' (mk_shm m' T' (iLogFlag s)) /\ disjoint_mem m' /\
    table_inv D (<[key := v]> M) m' T' ht ppt' l' L' n' /\ n' <= n + 1 /\
    frame D (owned D ht ppt l) T m m' /\ (forall a, owned D ht ppt' l' a -> owned D ht ppt l a \/ T <= a).
Proof using Type Hsizes.
  intros Hlaws Hm Ht Hd Hinv Htxt Hc Hse HN Hroom. pose proof Hinv as [Hrep HM Hused Hsize].
  pose proof (tr_slots _ _ _ _ _ _ _ _ Hrep) as Hs. pose proof (sr_size _ _ _ _ _ _ Hs) as Hz.
  destruct (inner_search D M m T ht ppt l L n key s Hm Hrep HM Hc) as (p & Hf & He & Hp & Hrun).
  destruct (stopped_slot D M m T ppt l L key p Hs HM Hp Hf He) as (w & Hw & Hlw & Hcase).
  assert (shmHashTableInsert D (REL ht) pk v s = (t ← load as_table ht;
    if 0 <=? (if bool_decide (is_Some (M !! key)) then p else -1) then
      a ← load_word (ABS (pptTable t)) p; e ← load as_entry (ABS a);
      _ ← store D (ABS a) (O_entry (mk_entry (iHashValue e) (BasHashTypes.pvKey e) v)); mret 0
    else n ← pure_of (int_range (iUsed t + 1)); _ ← store D ht (O_table (set_iUsed n t));
      if iLimit t <? n then r ← shmHashTableExpand D ht; if negb (r =? 0) then mret (-1) else shm_add_entry D ht pk v
      else shm_add_entry D ht pk v) s) as Hshape.
  { unfold shmHashTableInsert. rewrite abs_rel. subst m.
    eapply runs_bind; [eapply runs_load; [apply Htxt|done]|]. eapply runs_bind; [exact Hrun|].
    case_bool_decide; [done|]. done. }
  rewrite Hshape. destruct (M !! key) as [e|] eqn:HMk.
  - rewrite bool_decide_eq_true_2 by eauto. destruct Hcase as (Hne & pk' & Hent & Htxt' & _). cbn [fst snd] in *.
    destruct (replace_rep D M m E T ht ppt l L n key v pk' e p w s) as (Hrep' & Hd' & Ht' & Hfr); [done..|].
    exists (put m (ABS w) (O_entry (mk_entry (shm_hash key) pk' v))), T, ppt, l, (<[Z.to_nat p := Some (key, v)]> L), n.
    pose proof (tail_free _ _ _ _ Ht') as Etf. cbn [with_mem ptFreeBlock] in Etf. unfold with_mem in Ht'. rewrite Etf in Ht'.
    pose proof (calcActualSize_bounds sizeof_T_HashEntry) as Hact. assert (0 < sizeof_T_HashEntry) as Hse0 by apply sizes_pos.
    split_and!; [|lia| |done|done| |lia|done|by left].
    + subst m. eapply runs_bind; [eapply runs_load; [apply Hrep|done]|]. cbn [pptTable]. rewrite abs_rel.
      destruct (Z.leb_spec 0 p); [|lia].
      eapply runs_bind; [eapply runs_load_word; [apply Hs|exact Hw]|]. eapply runs_bind; [eapply runs_load; [apply Hent|done]|].
      cbn [iHashValue BasHashTypes.pvKey]. eapply runs_bind; [apply runs_store; exact (in_segment_below D _ E T s _ _ Ht Hent)|].
      unfold with_mem. by rewrite Etf.
    + unfold insert_need. pose proof (Hact ltac:(split; [lia|exact Hse])). destruct multiplicand_pow2 as (k & _ & Ek).
      assert (0 < 2 ^ Z.of_nat k) by (apply Z.pow_pos_nonneg; lia). nia.
    + split; [done| | |done].
      * apply (maps_to_insert shm_hash); [apply Hs|by rewrite <- (sr_zlen _ _ _ _ _ _ Hs)|done..].
      * rewrite (occupied_insert shm_hash L M), HMk, bool_decide_eq_true_2 by (done || eauto || apply Hs || by rewrite <- (sr_zlen _ _ _ _ _ _ Hs)).
        by rewrite Z.add_0_r.
  - rewrite bool_decide_eq_false_2 by (by intros [? ?]).
    destruct (insert_new_rep D M m E T ht ppt l L n key pk v s) as (m' & T' & ppt' & l' & L' & Hrun' & HT' & Ht' & Hd' & Hrep' & HM' & Hu' & Hsz' & Hfr & How);
      [done..|].
    exists m', T', ppt', l', L', (n + 1). split_and!; [|lia|lia|done|done|done|lia|done|done].
    subst m. eapply runs_bind; [eapply runs_load; [apply Hrep|done]|]. cbn [iUsed iLimit set_iUsed pptTable iMask iFill pfHashFunc pfHashEqualFunc iFreeKey iFreeValue].
    rewrite (proj2 (Z.leb_gt 0 (-1))) by lia. pose proof (occupied_nonneg L).
    eapply runs_bind; [apply runs_pure, int_range_ok; lia|]. exact Hrun'.
Qed.
End insertion.
