(* ===== verification/ShmTableFacts.v ===== *)
(** * A table made in shared memory and the calls on it

    Creating a table, storing a string for a key, and runs of insertions and
    searches against the finite map they implement. *)

From S2P Require Import Prelude LibC Buffers BasString BasProbe BasHashTypes BasTable ShmMem.
From S2P Require Import ShmAlloc ShmMemFacts ShmHash ShmSearch ShmHashFacts.

Section table_facts.
Context `{BasGlobal} `{BasHashConst} `{Hlaws : !BasHashLaws} `{ShmLayout} `{Hsizes : !SizeLaws} (D : T_ShmAppDesc).
Abbreviation ABS := (ABSOLUTE_ADDRESS D).
Abbreviation REL := (RELATIVE_ADDRESS D).
#[local] Set Default Proof Using "Type Hsizes Hlaws".

Lemma init_size_range : 0 < BAS_HASHTABLE_INIT_SIZE <= 1073741824.
Proof. destruct init_size_pow2 as (k & Hk & E). by eapply pow2_mask_range. Qed.

Lemma multiplicand_range : 2 <= BAS_HASHTABLE_EXPAND_MULTIPLICAND.
Proof.
  destruct multiplicand_pow2 as (k & Hk & ->). change 2 with (2 ^ 1) at 1. apply Z.pow_le_mono_r; lia.
Qed.

(** An object written into a block that has just been taken. *)
Lemma fill_new E T sz s a o :
  tail_ok D E (T + sz) s -> 0 < pvShmBuf D <= T -> 0 <= sizeof o -> T + 40 <= a -> a + sizeof o <= T + sz -> a < T + sz -> disjoint_mem (mem s) ->
  runs (store D a o) s tt (with_mem (put (mem s) a o) s) /\ tail_ok D E (T + sz) (with_mem (put (mem s) a o) s) /\
  disjoint_mem (put (mem s) a o) /\ at_below D (put (mem s) a o) (T + sz) a o /\ keeps T (mem s) (put (mem s) a o).
Proof.
  intros Ht Hb Hsz Ha Ho Hlt Hd. pose proof (tail_range _ _ _ _ Ht). split_and!.
  - apply runs_store. eapply tail_in_segment; [done|lia|lia].
  - apply tail_put; [done|lia|lia].
  - by apply disjoint_put.
  - split; [apply put_eq|lia].
  - apply keeps_put. lia.
Qed.

(** A string comes to lie in a block of its own. *)
Lemma new_text_rep E T str s :
  tail_ok D E T s -> disjoint_mem (mem s) -> zlen str + 1 < 2 ^ 62 -> T + calcActualSize (zlen str + 1) + 40 <= E ->
  exists m', let T' := T + calcActualSize (zlen str + 1) in
    runs (new_text D str) s (REL (T + 40)) (mk_shm m' T' (iLogFlag s)) /\ tail_ok D E T' (mk_shm m' T' (iLogFlag s)) /\
    disjoint_mem m' /\ at_below D m' T' (T + 40) (O_text str) /\ keeps T (mem s) m'.
Proof.
  intros Ht Hd Hlen Hroom. pose proof (zlen_nonneg str). pose proof (tail_range _ _ _ _ Ht) as HTr.
  pose proof (calcActualSize_bounds (zlen str + 1) ltac:(lia)) as Hact.
  destruct (malloc_bump D E T s (zlen str + 1)) as (m1 & Hrun & Ht1 & _ & Hk & Hd1); [done|lia|done|].
  destruct (fill_new E T (calcActualSize (zlen str + 1)) _ (T + 40) (O_text str) Ht1) as (Hr2 & Ht2 & Hd2 & Hat & Hk2);
    [lia|cbn [sizeof]; lia|lia|cbn [sizeof]; lia|lia|by apply Hd1|]. cbn [mem] in *.
  exists (put m1 (T + 40) (O_text str)). split_and!; [|done|done|done|by etrans].
  unfold new_text. eapply runs_bind; [exact Hrun|]. rewrite abs_rel.
  assert (REL (T + 40) =? SHM_NULL = false) as -> by (unfold RELATIVE_ADDRESS, SHM_NULL; lia).
  eapply runs_bind; [exact Hr2|]. done.
Qed.

Definition create_need : Z := calcActualSize sizeof_T_HashTable + (8 * BAS_HASHTABLE_INIT_SIZE + 48).

(** A new table is empty. *)
Lemma create_rep E T s :
  tail_ok D E T s -> disjoint_mem (mem s) -> sizeof_T_HashTable < 2 ^ 62 -> T + create_need + 40 <= E ->
  exists m' ppt l L, let T' := T + create_need in
    runs (shmHashTableCreate D) s (REL (T + 40)) (mk_shm m' T' (iLogFlag s)) /\ tail_ok D E T' (mk_shm m' T' (iLogFlag s)) /\
    disjoint_mem m' /\ table_inv D ∅ m' T' (T + 40) ppt l L 0 /\ keeps T (mem s) m' /\
    zlen l = BAS_HASHTABLE_INIT_SIZE /\ (forall a, owned D (T + 40) ppt l a -> T <= a).
Proof.
  intros Ht Hd Hst Hroom. unfold create_need in *. pose proof (tail_range _ _ _ _ Ht) as HTr.
  pose proof init_size_range as HI. pose proof (calc_words BAS_HASHTABLE_INIT_SIZE) as Hcw. specialize (Hcw ltac:(lia)).
  assert (0 < sizeof_T_HashTable) as Hst0 by apply sizes_pos.
  assert (0 <= sizeof_T_HashTable < 2 ^ 62) as Hst' by (split; [lia|exact Hst]).
  pose proof (calcActualSize_bounds sizeof_T_HashTable Hst') as Hact.
  set (T1 := T + calcActualSize sizeof_T_HashTable).
  destruct (malloc_bump D E T s sizeof_T_HashTable) as (m1 & Hrun1 & Ht1 & _ & Hk1 & Hd1); [done|done|lia|].
  destruct (malloc_bump D E T1 _ (8 * BAS_HASHTABLE_INIT_SIZE) Ht1) as (m2 & Hrun2 & Ht2 & Hb2 & Hk2 & Hd2); [cbn; lia|lia|].
  rewrite Hcw in Hrun2, Ht2, Hb2. cbn [mem iLogFlag] in *. set (T2 := T1 + (8 * BAS_HASHTABLE_INIT_SIZE + 48)) in *.
  set (t mask limit := mk_hash_table (REL (T1 + 40)) 0 0 mask limit NULL NULL BAS_FALSE BAS_FALSE : shm_table).
  set (m3 := put m2 (T + 40) (O_table (mk_hash_table (REL (T1 + 40)) 0 0 0 0 NULL NULL 0 0))).
  set (m4 := put m3 (T1 + 40) (O_slots (replicate (Z.to_nat BAS_HASHTABLE_INIT_SIZE) SHM_NULL))).
  set (m5 := put m4 (T + 40) (O_table (t (BAS_HASHTABLE_INIT_SIZE - 1) (load_limit BAS_HASHTABLE_INIT_SIZE)))).
  assert (zlen (replicate (Z.to_nat BAS_HASHTABLE_INIT_SIZE) SHM_NULL) = BAS_HASHTABLE_INIT_SIZE) as Hlen
    by (unfold zlen; rewrite length_replicate; lia).
  assert (m4 !! (T + 40) = Some (O_table (mk_hash_table (REL (T1 + 40)) 0 0 0 0 NULL NULL 0 0))) as Hm4
    by (apply put_below; [apply put_eq|lia|cbn [sizeof]; lia]).
  exists m5, (T1 + 40), (replicate (Z.to_nat BAS_HASHTABLE_INIT_SIZE) SHM_NULL), (replicate (Z.to_nat BAS_HASHTABLE_INIT_SIZE) None).
  assert (tail_ok D E T2 (mk_shm m5 T2 (iLogFlag s))) as Ht5.
  { refine (tail_put D E T2 (mk_shm m4 T2 (iLogFlag s)) (T + 40) (O_table _) _ _ _); [|lia|cbn [sizeof]; lia].
    refine (tail_put D E T2 (mk_shm m3 T2 (iLogFlag s)) (T1 + 40) (O_slots _) _ _ _); [|lia|cbn [sizeof]; lia].
    refine (tail_put D E T2 (mk_shm m2 T2 (iLogFlag s)) (T + 40) (O_table _) _ _ _); [done|lia|cbn [sizeof]; lia]. }
  cbv zeta. replace (T + (calcActualSize sizeof_T_HashTable + (8 * BAS_HASHTABLE_INIT_SIZE + 48))) with T2 by lia.
  split_and!.
  - unfold shmHashTableCreate. eapply runs_bind; [exact Hrun1|].
    assert (forall a, T <= a -> REL (a + 40) =? SHM_NULL = false) as Hrel by (intros; unfold RELATIVE_ADDRESS, SHM_NULL; lia).
    rewrite Hrel, abs_rel by lia. eapply runs_bind; [exact Hrun2|].
    eapply runs_bind; [apply runs_store, (tail_in_segment D E T2 (mk_shm m2 T2 (iLogFlag s))); [done|lia|cbn [sizeof]; lia]|].
    rewrite Hrel by lia. eapply runs_bind; [eapply runs_load; [apply put_eq|done]|]. cbn [pptTable]. rewrite abs_rel.
    eapply runs_bind; [apply runs_store, (tail_in_segment D E T2 (mk_shm m2 T2 (iLogFlag s))); [done|lia|cbn [sizeof]; lia]|].
    eapply runs_bind; [eapply runs_load; [exact Hm4|done]|].
    eapply runs_bind; [apply runs_store, (tail_in_segment D E T2 (mk_shm m2 T2 (iLogFlag s))); [done|lia|cbn [sizeof]; lia]|].
    done.
  - exact Ht5.
  - by apply disjoint_put, disjoint_put, disjoint_put, Hd2, Hd1.
  - destruct init_size_pow2 as (k & Hk & Ek).
    split; [|apply maps_to_empty|rewrite occupied_empty, Hlen; lia|rewrite Hlen; lia]. split; rewrite ?Hlen, ?Hcw.
    + split; [apply put_eq|cbn [sizeof]; lia].
    + split; [split; [apply put_above; [apply put_eq|lia|cbn [sizeof]; lia]|cbn [sizeof]; lia]| | |].
      * by apply Forall2_replicate.
      * rewrite Ek. by apply table_ok_empty.
      * rewrite occupied_empty. unfold zlen. rewrite length_replicate. lia.
    + replace (T1 + 40 - 40) with T1 by lia. apply put_above; [|lia|cbn [sizeof]; lia].
      apply put_below; [|lia|cbn [used_block sizeof]; unfold sizeof_T_MemoryBlock; lia].
      apply put_above; [done|lia|cbn [sizeof]; lia].
    + lia.
  - etrans; [exact Hk1|]. etrans; [apply (keeps_le T1); [exact Hk2|lia]|].
    etrans; [|apply keeps_put; lia]. etrans; [|apply keeps_put; lia]. apply keeps_put. lia.
  - done.
  - intros a [->|[->|[->|(w & Hw & Hne & _)]]]; [lia..|]. by apply elem_of_replicate in Hw as [-> _].
Qed.
(** ** Runs of calls

    [Put] stores a copy of the key in the segment and inserts it with a
    relative address, [Get] searches. *)
Inductive table_call : Type := Put (key : bytes) (pvValue : Z) | Get (key : bytes).

Definition call_key (c : table_call) : bytes := match c with Put k _ => k | Get k => k end.

Definition table_step (ht : Z) (c : table_call) : sm Z :=
  match c with
  | Put key v => p ← new_text D key; shmHashTableInsert D (REL ht) p v
  | Get key => shmHashTableSearch D ht key
  end.

Fixpoint run_table (ht : Z) (cs : list table_call) : sm (list Z) :=
  match cs with
  | [] => mret []
  | c :: cs => a ← table_step ht c; r ← run_table ht cs; mret (a :: r)
  end.

(** What a finite map answers. *)
Fixpoint map_answers (M : gmap bytes Z) (cs : list table_call) : list Z :=
  match cs with
  | [] => []
  | Put key v :: cs => 0 :: map_answers (<[key := v]> M) cs
  | Get key :: cs => match M !! key with Some v => ABS v | None => NULL end :: map_answers M cs
  end.

(** The slots a table can have after [n] insertions, and the memory calls take
    at most. *)
Definition max_slots (n : Z) : Z := BAS_HASHTABLE_INIT_SIZE + 2 * BAS_HASHTABLE_EXPAND_MULTIPLICAND * n.

Definition put_need (n : Z) (key : bytes) : Z := calcActualSize (zlen key + 1) + insert_need (max_slots n).

Definition calls_need (n : Z) (cs : list table_call) : Z :=
  foldr (λ c acc, (match c with Put key _ => put_need n key | Get _ => 0 end) + acc) 0 cs.

Definition puts (cs : list table_call) : Z := countb (λ c, match c with Put _ _ => true | Get _ => false end) cs.

Lemma insert_need_mono z z' : z <= z' -> insert_need z <= insert_need z'.
Proof. intros Hz. unfold insert_need. pose proof multiplicand_range. nia. Qed.

Lemma insert_need_pos z : 0 <= z -> sizeof_T_HashEntry < 2 ^ 62 -> 0 < insert_need z.
Proof.
  intros Hz Hse. unfold insert_need. pose proof multiplicand_range. assert (0 < sizeof_T_HashEntry) as Hse0 by apply sizes_pos.
  pose proof (calcActualSize_bounds sizeof_T_HashEntry) as Hact. specialize (Hact ltac:(split; [lia|exact Hse])). nia.
Qed.

Lemma max_slots_mono n n' : n <= n' -> max_slots n <= max_slots n'.
Proof. intros Hn. unfold max_slots. pose proof multiplicand_range. nia. Qed.

(** One insertion with its key. *)
Lemma put_rep M N E T ht ppt l L n key v s :
  tail_ok D E T s -> disjoint_mem (mem s) -> table_inv D M (mem s) T ht ppt l L n -> cstring key ->
  sizeof_T_HashEntry < 2 ^ 62 -> zlen key + 1 < 2 ^ 62 -> n < N ->
  max_slots N * BAS_HASHTABLE_EXPAND_MULTIPLICAND <= 1073741824 -> T + put_need N key + 40 <= E ->
  exists m' T' ppt' l' L' n', runs (table_step ht (Put key v)) s 0 (mk_shm m' T' (iLogFlag s)) /\
    T <= T' <= T + put_need N key /\ tail_ok D E T' (mk_shm m' T' (iLogFlag s)) /\ disjoint_mem m' /\
    table_inv D (<[key := v]> M) m' T' ht ppt' l' L' n' /\ n' <= n + 1 /\
    frame D (owned D ht ppt l) T (mem s) m' /\ (forall a, owned D ht ppt' l' a -> owned D ht ppt l a \/ T <= a).
Proof.
  intros Ht Hd Hinv Hc Hse Hkl Hn HN Hroom. unfold put_need in *. pose proof multiplicand_range as Hmul. pose proof init_size_range as HI.
  assert (0 <= n) as Hn0 by (pose proof (occupied_nonneg L); pose proof (ti_used _ _ _ _ _ _ _ _ _ Hinv); lia).
  pose proof (max_slots_mono n N ltac:(lia)) as Hms. pose proof (insert_need_mono (zlen l) (max_slots N)) as Hin.
  pose proof (ti_size _ _ _ _ _ _ _ _ _ Hinv) as Hsz. fold (max_slots n) in Hsz. specialize (Hin ltac:(lia)).
  pose proof (insert_need_pos (zlen l) ltac:(unfold zlen; lia) Hse) as Hip. pose proof (zlen_nonneg key).
  pose proof (calcActualSize_bounds (zlen key + 1) ltac:(lia)) as Hact.
  destruct (new_text_rep E T key s Ht Hd Hkl ltac:(lia)) as (m1 & Hrun1 & Ht1 & Hd1 & Hat1 & Hk1).
  set (T1 := T + calcActualSize (zlen key + 1)) in *.
  assert (table_inv D M m1 T1 ht ppt l L n) as Hinv1 by (eapply table_inv_mono; [exact Hinv|lia|by apply frame_keeps]).
  destruct (insert_rep D M m1 E T1 ht ppt l L n key (REL (T + 40)) v (mk_shm m1 T1 (iLogFlag s)))
    as (m' & T' & ppt' & l' & L' & n' & Hrun2 & HT' & Ht' & Hd' & Hinv' & Hn' & Hfr & How);
    [done..|by rewrite abs_rel|done|done| |lia|].
  { nia. }
  exists m', T', ppt', l', L', n'. split_and!; [|lia|lia|done|done|done|done| |].
  - cbn [table_step]. eapply runs_bind; [exact Hrun1|]. exact Hrun2.
  - eapply frame_trans; [apply frame_keeps; exact Hk1|]. eapply frame_le; [exact Hfr|lia].
  - intros a Ha. destruct (How a Ha); [by left|right; lia].
Qed.
Lemma put_need_nonneg N key : 0 <= N -> sizeof_T_HashEntry < 2 ^ 62 -> 0 <= put_need N key.
Proof.
  intros HN Hse. unfold put_need. pose proof multiplicand_range. pose proof init_size_range.
  assert (0 <= calcActualSize (zlen key + 1)) by (apply uwrap_range; lia).
  assert (0 <= max_slots N) by (unfold max_slots; nia). pose proof (insert_need_pos (max_slots N)). lia.
Qed.

Lemma calls_need_nonneg N cs : 0 <= N -> sizeof_T_HashEntry < 2 ^ 62 -> 0 <= calls_need N cs.
Proof.
  intros HN Hse. induction cs as [|[k w|k] cs IH]; cbn [calls_need foldr]; [lia| |]; fold (calls_need N cs).
  - pose proof (put_need_nonneg N k HN Hse). lia.
  - lia.
Qed.

(** Calls answer as the map does, and touch nothing below [T] but the table's
    own objects. *)
Lemma run_table_rep N E cs : forall M T ht ppt l L n s,
  tail_ok D E T s -> disjoint_mem (mem s) -> table_inv D M (mem s) T ht ppt l L n ->
  Forall (λ c, cstring (call_key c) /\ zlen (call_key c) + 1 < 2 ^ 62) cs -> sizeof_T_HashEntry < 2 ^ 62 ->
  n + puts cs <= N -> max_slots N * BAS_HASHTABLE_EXPAND_MULTIPLICAND <= 1073741824 -> T + calls_need N cs + 40 <= E ->
  exists s' T', runs (run_table ht cs) s (map_answers M cs) s' /\ tail_ok D E T' s' /\ T <= T' /\
    frame D (owned D ht ppt l) T (mem s) (mem s').
Proof.
  induction cs as [|c cs IH]; intros M T ht ppt l L n s Ht Hd Hinv Hcs Hse Hn HN Hroom.
  { exists s, T. split_and!; [done|done|lia|by intros a o (Ha & _)]. }
  apply Forall_cons in Hcs as [[Hc Hkl] Hcs].
  assert (0 <= n) as Hn0 by (pose proof (occupied_nonneg L); pose proof (ti_used _ _ _ _ _ _ _ _ _ Hinv); lia).
  assert (0 <= puts cs) as Hp by apply countb_bounds.
  destruct c as [key v|key]; cbn [call_key] in *; unfold puts in Hn; rewrite countb_cons in Hn; fold (puts cs) in Hn;
    cbn [calls_need foldr] in Hroom; fold (calls_need N cs) in Hroom;
    pose proof (calls_need_nonneg N cs ltac:(lia) Hse) as Hcn.
  - destruct (put_rep M N E T ht ppt l L n key v s) as (m1 & T1 & ppt1 & l1 & L1 & n1 & Hrun1 & HT1 & Ht1 & Hd1 & Hinv1 & Hn1 & Hf1 & How1);
      [done|done|done|done|done|done|lia|done|lia|].
    destruct (IH (<[key := v]> M) T1 ht ppt1 l1 L1 n1 (mk_shm m1 T1 (iLogFlag s))) as (s' & T' & Hrun & Ht' & HT' & Hf);
      [done|done|done|done|done|lia|done|lia|].
    exists s', T'. split_and!; [|done|lia|].
    + cbn [run_table map_answers]. eapply runs_bind; [exact Hrun1|]. eapply runs_bind; [exact Hrun|]. done.
    + intros a o Ha Hno. apply Hf.
      * eapply at_below_mono; [exact Ha|lia|]. by apply Hf1.
      * intros Ho. destruct (How1 a Ho); [done|]. destruct Ha as (_ & ? & _). lia.
  - destruct (IH M T ht ppt l L n s) as (s' & T' & Hrun & Hrest); [done|done|done|done|done|lia|done|lia|].
    exists s', T'. split; [|exact Hrest]. cbn [run_table map_answers].
    eapply runs_bind; [eapply (search_rep D M); [done|apply Hinv|apply Hinv|done]|]. eapply runs_bind; [exact Hrun|]. done.
Qed.
End table_facts.

(** ** Commands that let the heap of the segment grow

    One relation for the effect of every command of the loader: memory taken
    at the end, a few objects written, everything else kept.  The results on
    the allocator and the hash table are restated in its terms. *)

Abbreviation nothing := (λ _ : Z, False).

Section growth.
Context `{BasGlobal} `{BasHashConst} `{Hlaws : !BasHashLaws} `{ShmLayout} `{Hsizes : !SizeLaws} (D : T_ShmAppDesc).
Abbreviation ABS := (ABSOLUTE_ADDRESS D).
Abbreviation REL := (RELATIVE_ADDRESS D).
#[local] Set Default Proof Using "Type Hsizes Hlaws".

(** ** Commands that let the heap grow

    [heap_ok E T s]: the free block reaches from [T] to the end [E] and no two
    objects overlap.  [grows E W T s T' s']: a command has taken memory up to
    [T'] and written, of what lay below [T], at most the objects at [W]. *)
Record heap_ok (E T : Z) (s : shm) : Prop := { ho_tail : tail_ok D E T s; ho_disjoint : disjoint_mem (mem s) }.

Record grows (E : Z) (W : Z -> Prop) (T : Z) (s : shm) (T' : Z) (s' : shm) : Prop := {
  g_le : T <= T';
  g_ok : heap_ok E T' s';
  g_frame : frame D W T (mem s) (mem s');
  g_flag : iLogFlag s' = iLogFlag s;
}.

Lemma ho_range E T s : heap_ok E T s -> 0 < pvShmBuf D <= T /\ T + 40 <= E <= pvShmBuf D + iShmSize D /\ E < 2 ^ 62.
Proof. intros Ho. exact (tail_range _ _ _ _ (ho_tail _ _ _ Ho)). Qed.

Lemma ho_segment E T s a n : heap_ok E T s -> pvShmBuf D <= a -> a + n <= E -> in_segment D a n = true.
Proof. intros [Ht _]. by apply (tail_in_segment D E T s). Qed.

Lemma grows_refl E W T s : heap_ok E T s -> grows E W T s T s.
Proof. intros Ho. split; [lia|done|by intros a o (Ha & _)|done]. Qed.

Lemma at_below_grows E W T s T' s' a o :
  at_below D (mem s) T a o -> grows E W T s T' s' -> ~ W a -> at_below D (mem s') T' a o.
Proof. intros Ha [Hle _ Hf _] Hw. eapply at_below_mono; [exact Ha|done|]. by apply Hf. Qed.

Lemma grows_trans E (W W1 W2 : Z -> Prop) T s T1 s1 T2 s2 :
  grows E W1 T s T1 s1 -> grows E W2 T1 s1 T2 s2 ->
  (forall a, a < T -> W1 a -> W a) -> (forall a, a < T -> W2 a -> W a) -> grows E W T s T2 s2.
Proof.
  intros [Hle1 _ Hf1 Hg1] [Hle2 Hok2 Hf2 Hg2] HW1 HW2. split; [lia|done| |congruence].
  intros a o Ha Hw. assert (a < T) as Hlt by apply Ha. apply Hf2.
  - eapply at_below_mono; [exact Ha|done|]. apply Hf1; [done|]. intros ?. by apply Hw, HW1.
  - intros ?. by apply Hw, HW2.
Qed.

(** The next command may write to what the first one took. *)
Lemma grows_step E (W W1 : Z -> Prop) T s T1 s1 T2 s2 :
  grows E W1 T s T1 s1 -> (forall a, a < T -> W1 a -> W a) -> grows E (λ a, W a \/ T <= a) T1 s1 T2 s2 ->
  grows E W T s T2 s2.
Proof. intros Hg1 HW1 Hg2. eapply grows_trans; [exact Hg1|exact Hg2|done|]. intros a Ha [?|?]; [done|lia]. Qed.

Lemma grows_weaken E (W W' : Z -> Prop) T s T' s' : grows E W T s T' s' -> (forall a, a < T -> W a -> W' a) -> grows E W' T s T' s'.
Proof.
  intros [Hle Hok Hf Hg] HW. split; [done..| |done]. intros a o Ha Hno. apply Hf; [done|]. intros Hw. apply Hno, HW; [apply Ha|done].
Qed.

Lemma grows_same E W T s T1 s1 T2 s2 : grows E W T s T1 s1 -> grows E W T1 s1 T2 s2 -> grows E W T s T2 s2.
Proof. intros Hg1 Hg2. by eapply grows_trans. Qed.

(** What has just been taken is at or above the old end. *)
Definition since (T a : Z) : Prop := T <= a.

(** One object. *)
Definition only (b a : Z) : Prop := a = b.

Lemma rel_not_null E T s a : heap_ok E T s -> T <= a -> REL (a + 40) =? SHM_NULL = false.
Proof. intros Ho%ho_range Ha. unfold RELATIVE_ADDRESS, SHM_NULL. lia. Qed.

Lemma malloc_grows E T s sz :
  heap_ok E T s -> 0 <= sz < 2 ^ 62 -> T + calcActualSize sz + 40 <= E ->
  exists s', runs (shmMalloc D sz) s (REL (T + 40)) s' /\ grows E nothing T s (T + calcActualSize sz) s' /\
    at_below D (mem s') (T + calcActualSize sz) T (used_block (calcActualSize sz) sz).
Proof.
  intros [Ht Hd] Hsz Hroom. pose proof (calcActualSize_bounds sz Hsz).
  destruct (malloc_bump D E T s sz Ht Hsz Hroom) as (m & Hrun & Ht' & Hb & Hk & Hd').
  exists (mk_shm m (T + calcActualSize sz) (iLogFlag s)). pose proof (tail_range _ _ _ _ Ht). split; [done|].
  split; [|split; [done|cbn [used_block sizeof]; unfold sizeof_T_MemoryBlock; lia]].
  split; [lia|split; [done|by apply Hd']|by apply frame_keeps|done].
Qed.

(** Writing into the block at [T0]. *)
Lemma store_fresh E T T0 b s a o :
  heap_ok E T s -> at_below D (mem s) T T0 (O_block b) -> T0 <= a -> a + sizeof o <= T -> a < T ->
  exists s', runs (store D a o) s tt s' /\ grows E (since T0) T s T s' /\ at_below D (mem s') T a o /\
    (forall x ox, at_below D (mem s) T x ox -> x <> a -> apart a (sizeof o) (x, ox) -> mem s' !! x = Some ox).
Proof.
  intros Ho (Hb & Hbr & _) Ha Hend Hlt. pose proof (ho_range _ _ _ Ho). exists (with_mem (put (mem s) a o) s). split_and!.
  - apply runs_store. eapply ho_segment; [done|lia|lia].
  - destruct Ho as [Ht Hd]. split; [lia|split; [by apply tail_put; [done|lia|lia]|by apply disjoint_put]| |done].
    intros x ox (Hx & Hxr & Hxe) Hw. unfold since in Hw. cbn [with_mem mem].
    destruct (Hd _ _ _ _ Hb Hx ltac:(lia)) as [Hap|Hap]; cbn [fst snd sizeof] in Hap; [unfold sizeof_T_MemoryBlock in Hap; lia|].
    apply put_below; [done|lia|lia].
  - split; [apply put_eq|lia].
  - intros x ox (Hx & _) Hne Hap. by apply put_apart.
Qed.

(** Writing over an object of the same size. *)
Lemma overwrite E T s a o o' :
  heap_ok E T s -> at_below D (mem s) T a o -> sizeof o' = sizeof o ->
  exists s', runs (store D a o') s tt s' /\ grows E (only a) T s T s' /\ at_below D (mem s') T a o'.
Proof.
  intros [Ht Hd] (Ha & Har & Hend) Hs. rewrite <- Hs in Hend. pose proof (tail_range _ _ _ _ Ht).
  exists (with_mem (put (mem s) a o') s). split_and!.
  - apply runs_store. eapply tail_in_segment; [done|lia|lia].
  - split; [lia|split; [by apply tail_put; [done|lia|lia]|by apply disjoint_put]|by apply (put_frame D (mem s) T a o)|done].
  - split; [apply put_eq|lia].
Qed.

Lemma update_std_rep E T s std d f :
  heap_ok E T s -> at_below D (mem s) T std (O_std d) ->
  exists s', runs (update_std D std f) s tt s' /\ grows E (only std) T s T s' /\ at_below D (mem s') T std (O_std (f d)).
Proof.
  intros Ho Ha. destruct (overwrite E T s std _ (O_std (f d)) Ho Ha) as (s' & Hr & Hrest); [done|].
  exists s'. split; [|exact Hrest]. unfold update_std. eapply runs_bind; [eapply runs_load; [apply Ha|done]|]. exact Hr.
Qed.

(** The earlier results in this form. *)
Lemma new_text_grows E T str s :
  heap_ok E T s -> zlen str + 1 < 2 ^ 62 -> T + calcActualSize (zlen str + 1) + 40 <= E ->
  exists s', runs (new_text D str) s (REL (T + 40)) s' /\ grows E nothing T s (T + calcActualSize (zlen str + 1)) s' /\
    at_below D (mem s') (T + calcActualSize (zlen str + 1)) (T + 40) (O_text str).
Proof.
  intros [Ht Hd] Hl Hroom. destruct (new_text_rep D E T str s) as (m & Hr & Ht' & Hd' & Ha & Hk); [done..|].
  pose proof (zlen_nonneg str). pose proof (calcActualSize_bounds (zlen str + 1) ltac:(lia)).
  eexists. split; [exact Hr|]. split; [|done]. split; [lia|by split|by apply frame_keeps|done].
Qed.

(** The block that touches the free one grows where it is. *)
Lemma realloc_in_place E T s a n old sz :
  heap_ok E T s -> at_below D (mem s) T (a - 40) (used_block n old) -> a - 40 + n = T ->
  0 <= old -> old + 40 < n -> 0 <= sz < 2 ^ 62 -> n < calcActualSize sz -> T + calcActualSize sz + 40 <= E ->
  exists s', let T' := a - 40 + calcActualSize sz in
    runs (shmRealloc D (REL a) sz) s (REL a) s' /\ grows E (only (a - 40)) T s T' s' /\
    at_below D (mem s') T' (a - 40) (used_block (calcActualSize sz) sz).
Proof.
  intros [Ht Hd] (Hb & Hbr & Hbe) HT Hold Hn Hsz Hgrow Hroom. pose proof (calcActualSize_bounds sz Hsz) as Hact.
  destruct (realloc_grows D E T s a n old sz) as (m & T' & a' & Hrun & Ht' & Hlt & ET & Ea & Hb' & _ & Hk & Hd'); [done|done|lia..|done|done|lia|].
  destruct (Z.eqb_spec (a - 40 + n) T); [|done]. subst a' T'.
  exists (mk_shm m (a - 40 + calcActualSize sz) (iLogFlag s)). split_and!; [done| |split; [done|cbn [used_block sizeof]; unfold sizeof_T_MemoryBlock; lia]].
  split; [lia|split; [done|by apply Hd']| |done].
  intros x o (Hx & Hxr & Hxe) Hno. apply Hk; [done|lia|lia|exact Hno|].
  apply (Hd _ _ _ _ Hb Hx). intros Eq. by apply Hno.
Qed.

Lemma create_grows E T s :
  heap_ok E T s -> sizeof_T_HashTable < 2 ^ 62 -> T + create_need + 40 <= E ->
  exists s' ppt l L, runs (shmHashTableCreate D) s (REL (T + 40)) s' /\ grows E nothing T s (T + create_need) s' /\
    table_inv D ∅ (mem s') (T + create_need) (T + 40) ppt l L 0 /\ (forall a, owned D (T + 40) ppt l a -> T <= a).
Proof.
  intros [Ht Hd] Hl Hroom. destruct (create_rep D E T s) as (m & ppt & l & L & Hr & Ht' & Hd' & Hi & Hk & _ & How); [done..|].
  pose proof init_size_range. assert (0 <= calcActualSize sizeof_T_HashTable) by (apply uwrap_range; lia).
  eexists _, ppt, l, L. split; [exact Hr|]. split_and!; [|done|done]. split; [unfold create_need; lia|by split|by apply frame_keeps|done].
Qed.

Lemma put_grows M N E T ht ppt l L n key v s :
  heap_ok E T s -> table_inv D M (mem s) T ht ppt l L n -> cstring key ->
  sizeof_T_HashEntry < 2 ^ 62 -> zlen key + 1 < 2 ^ 62 -> n < N ->
  max_slots N * BAS_HASHTABLE_EXPAND_MULTIPLICAND <= 1073741824 -> T + put_need N key + 40 <= E ->
  exists s' T' ppt' l' L' n', runs (p ← new_text D key; shmHashTableInsert D (REL ht) p v) s 0 s' /\
    T' <= T + put_need N key /\ grows E (owned D ht ppt l) T s T' s' /\
    table_inv D (<[key := v]> M) (mem s') T' ht ppt' l' L' n' /\ n' <= n + 1 /\
    (forall a, owned D ht ppt' l' a -> owned D ht ppt l a \/ T <= a).
Proof.
  intros [Ht Hd] Hi Hc Hse Hkl Hn HN Hroom.
  destruct (put_rep D M N E T ht ppt l L n key v s) as (m & T' & ppt' & l' & L' & n' & Hr & HT' & Ht' & Hd' & Hi' & Hn' & Hf & How); [done..|].
  exists (mk_shm m T' (iLogFlag s)), T', ppt', l', L', n'. split_and!; [exact Hr|lia| |done|done|done].
  split; [lia|by split|done|done].
Qed.
End growth.

(** An address that a command does not write to. *)
Ltac not_written :=
  let Hw := fresh "Hw" in intros Hw; unfold since, only in Hw; cbv beta in Hw; first [exact Hw|lia].

(** The written addresses of a step are those of the whole. *)
Ltac written :=
  let a := fresh "a" in let Ha := fresh "Ha" in let Hw := fresh "Hw" in
  intros a Ha Hw; unfold since, only in *; cbv beta in *; first [tauto|lia].

(** A sequence of commands whose effects are known. *)
Ltac grows_chain :=
  first [ apply grows_refl; assumption
        | eapply grows_step; [eassumption|written|grows_chain]
        | eapply grows_weaken; [eassumption|written] ].
