(* ===== verification/ShmLoadFacts.v ===== *)
(** * What loading a search table leaves in the segment

    The copy of the definition, the rows in one block that grows in place, and
    the three indexes. *)

From S2P Require Import Prelude LibC Buffers BasString BasProbe BasHashTypes BasTable ShmMem ShmMemFacts ShmAlloc ShmHash ShmHashFacts ShmSearch ShmTableFacts.

Section load_facts.
Context `{BasGlobal} `{BasHashConst} `{Hlaws : !BasHashLaws} `{ShmLayout} `{Hsizes : !SizeLaws} (D : T_ShmAppDesc).
Abbreviation ABS := (ABSOLUTE_ADDRESS D).
Abbreviation REL := (RELATIVE_ADDRESS D).
#[local] Set Default Proof Using "Type Hsizes Hlaws".

(** ** The definition *)

(** The members of the copy. *)
Definition copied_std (def : LocalTableDef) (name fields : Z) : T_SearchTableDef :=
  set_fields (REL fields) (set_name (REL name) (l_def def)).

Definition fields_need (def : LocalTableDef) : Z := calcActualSize (sizeof_T_SearchFieldDef * iKeyDefArrayLength (l_def def)).

Definition std_need (def : LocalTableDef) : Z :=
  calcActualSize sizeof_T_SearchTableDef + calcActualSize (zlen (l_name def) + 1) + fields_need def.

(** What a definition must satisfy to be copied. *)
Record def_ok (def : LocalTableDef) : Prop := {
  do_fields : 0 <= iKeyDefArrayLength (l_def def) <= zlen (l_fields def);
  do_fields_size : sizeof_T_SearchFieldDef * iKeyDefArrayLength (l_def def) < 2 ^ 62;
  do_name : cstring (l_name def) /\ zlen (l_name def) + 1 < 2 ^ 62;
  do_std : sizeof_T_SearchTableDef < 2 ^ 62;
}.

Definition fields_at (m : memory) (T a : Z) (def : LocalTableDef) : Prop :=
  0 < iKeyDefArrayLength (l_def def) ->
  at_below D m T a (O_fields (take (Z.to_nat (iKeyDefArrayLength (l_def def))) (l_fields def))).

Lemma new_std_rep def E T s :
  heap_ok D E T s -> def_ok def -> T + std_need def + 40 <= E ->
  exists s' name fields, let T' := T + std_need def in
    runs (new_std D def) s (REL (T + 40)) s' /\ grows D E nothing T s T' s' /\
    at_below D (mem s') T' (T + 40) (O_std (copied_std def name fields)) /\ fields_at (mem s') T' fields def.
Proof.
  intros Ho [Hf Hfs [_ Hnl] Hsd] Hroom. unfold std_need, fields_need in *. pose proof (ho_range _ _ _ _ Ho) as HTr.
  destruct sizes_pos as (_ & _ & Hsd0 & Hsf0 & _). pose proof (zlen_nonneg (l_name def)).
  set (len := iKeyDefArrayLength (l_def def)) in *.
  assert (0 <= sizeof_T_SearchFieldDef * len < 2 ^ 62) as Hfs' by (split; [nia|exact Hfs]).
  assert (0 <= sizeof_T_SearchTableDef < 2 ^ 62) as Hsd' by (split; [lia|exact Hsd]).
  set (fs := sizeof_T_SearchFieldDef * len) in *.
  pose proof (calcActualSize_bounds _ Hsd') as Hc1. pose proof (calcActualSize_bounds _ Hfs') as Hc3.
  assert (0 <= zlen (l_name def) + 1 < 2 ^ 62) as Hnl' by lia. pose proof (calcActualSize_bounds _ Hnl') as Hc2.
  set (T1 := T + calcActualSize sizeof_T_SearchTableDef). set (T2 := T1 + calcActualSize (zlen (l_name def) + 1)).
  set (T3 := T2 + calcActualSize fs).
  destruct (malloc_grows D E T s _ Ho Hsd') as (s1 & Hr1 & Hg1 & Hb1); [lia|]. fold T1 in Hg1, Hb1.
  destruct (store_fresh D E T1 T _ s1 (T + 40) (O_std (l_def def)) (g_ok _ _ _ _ _ _ _ Hg1) Hb1) as (s2 & Hr2 & Hg2 & Ha2 & _);
    [lia|cbn [sizeof]; lia|lia|].
  destruct (malloc_grows D E T1 s2 _ (g_ok _ _ _ _ _ _ _ Hg2) Hnl') as (s3 & Hr3 & Hg3 & Hb3); [lia|]. fold T2 in Hg3, Hb3.
  pose proof (at_below_grows _ _ _ _ _ _ _ _ _ Ha2 Hg3 ltac:(not_written)) as Ha3.
  destruct (update_std_rep D E T2 s3 _ _ (set_name (REL (T1 + 40))) (g_ok _ _ _ _ _ _ _ Hg3) Ha3) as (s4 & Hr4 & Hg4 & Ha4).
  pose proof (at_below_grows _ _ _ _ _ _ _ _ _ Hb3 Hg4 ltac:(not_written)) as Hb4.
  destruct (store_fresh D E T2 T1 _ s4 (T1 + 40) (O_text (l_name def)) (g_ok _ _ _ _ _ _ _ Hg4) Hb4) as (s5 & Hr5 & Hg5 & Ha5 & _);
    [lia|cbn [sizeof]; lia|lia|].
  pose proof (at_below_grows _ _ _ _ _ _ _ _ _ Ha4 Hg5 ltac:(not_written)) as Ha5'.
  destruct (malloc_grows D E T2 s5 _ (g_ok _ _ _ _ _ _ _ Hg5) Hfs') as (s6 & Hr6 & Hg6 & Hb6); [lia|]. fold T3 in Hg6, Hb6.
  pose proof (at_below_grows _ _ _ _ _ _ _ _ _ Ha5' Hg6 ltac:(not_written)) as Ha6.
  destruct (update_std_rep D E T3 s6 _ _ (set_fields (REL (T2 + 40))) (g_ok _ _ _ _ _ _ _ Hg6) Ha6) as (s7 & Hr7 & Hg7 & Ha7).
  pose proof (rel_not_null D E T s) as Hrel.
  assert (exists s8, runs (if zlen (l_fields def) <? len then pure_of Fault else if 0 <? len then
      store D (ABS (REL (T2 + 40))) (O_fields (take (Z.to_nat len) (l_fields def))) else mret tt) s7 tt s8 /\
      grows D E (since T2) T3 s7 T3 s8 /\ fields_at (mem s8) T3 (T2 + 40) def) as (s8 & Hr8 & Hg8 & Ha8).
  { destruct (Z.ltb_spec (zlen (l_fields def)) len); [lia|]. rewrite abs_rel. unfold fields_at. fold len. destruct (Z.ltb_spec 0 len).
    - assert (zlen (take (Z.to_nat len) (l_fields def)) = len) as Hlt by (unfold zlen in *; rewrite length_take; lia).
      pose proof (at_below_grows _ _ _ _ _ _ _ _ _ Hb6 Hg7 ltac:(not_written)) as Hb7.
      destruct (store_fresh D E T3 T2 _ s7 (T2 + 40) (O_fields (take (Z.to_nat len) (l_fields def))) (g_ok _ _ _ _ _ _ _ Hg7) Hb7)
        as (s8 & Hr8 & Hg8 & Ha8 & _); [lia|cbn [sizeof]; rewrite Hlt; fold fs; lia|lia|by exists s8].
    - exists s7. split; [done|]. split; [apply grows_refl, Hg7|lia]. }
  exists s8, (T1 + 40), (T2 + 40). cbv zeta. replace (T + (calcActualSize sizeof_T_SearchTableDef + calcActualSize (zlen (l_name def) + 1) + calcActualSize fs)) with T3 by lia. split_and!.
  - unfold new_std. eapply runs_bind; [exact Hr1|]. rewrite Hrel, abs_rel by (done || lia).
    eapply runs_bind; [exact Hr2|]. eapply runs_bind; [exact Hr3|]. eapply runs_bind; [exact Hr4|].
    rewrite Hrel, abs_rel by (done || lia). eapply runs_bind; [exact Hr5|].
    eapply runs_bind; [eapply runs_load; [apply Ha5'|done]|]. cbn [set_name iKeyDefArrayLength].
    fold len fs. rewrite (u64_id fs) by (cbn in *; lia).
    eapply runs_bind; [exact Hr6|]. eapply runs_bind; [exact Hr7|]. rewrite Hrel by (done || lia).
    eapply runs_bind; [eapply runs_load; [apply Ha7|done]|]. cbn [set_fields set_name iKeyDefArrayLength ptKeyDefArray].
    eapply runs_bind; [exact Hr8|]. done.
  - grows_chain.
  - eapply at_below_grows; [exact Ha7|exact Hg8|not_written].
  - exact Ha8.
Qed.

(** ** The rows *)

(** Row [j] lies at [c + sz * j]. *)
Definition rows_at (m : memory) (T c sz : Z) (rows : list bytes) : Prop :=
  forall j row, rows !! j = Some row -> at_below D m T (c + sz * Z.of_nat j) (O_row row).

(** While the cursor is fetched: the content block is the last one in use and
    has room for [cap] rows, of which [done] are there. *)
Record fetching (m : memory) (T std c sz cap : Z) (d : T_SearchTableDef) (done : list bytes) : Prop := {
  fe_std : at_below D m T std (O_std d);
  fe_std_below : std < c - 40;
  fe_members : iContentSize d = cap /\ pvContent d = REL c /\ iStdSize d = sz;
  fe_block : at_below D m T (c - 40) (used_block (calcActualSize (sz * cap)) (sz * cap));
  fe_last : T = c - 40 + calcActualSize (sz * cap);
  fe_rows : rows_at m T c sz done;
  fe_room : zlen done <= cap /\ 10 <= cap;
}.

Definition fetch_writes (std c a : Z) : Prop := a = std \/ c - 40 <= a.

(** The content block doubles. *)
Lemma fetch_doubles E T s std c sz cap d done :
  heap_ok D E T s -> fetching (mem s) T std c sz cap d done -> 0 < sz -> sz * cap < 2 ^ 60 -> cap < 2 ^ 29 -> 
  T + calcActualSize (sz * (cap * 2)) + 40 <= E ->
  exists s', let T' := c - 40 + calcActualSize (sz * (cap * 2)) in let d' := set_content (cap * 2) (iContentCnt d) (REL c) d in
    runs (iSize ← pure_of (int_range (iContentSize d * 2));
          _ ← update_std D std (set_content iSize (iContentCnt d) (pvContent d));
          p ← shmRealloc D (pvContent d) (u64 (iStdSize d * iSize));
          _ ← update_std D std (set_content iSize (iContentCnt d) p);
          mret (negb (p =? NULL))) s true s' /\
    grows D E (fetch_writes std c) T s T' s' /\ fetching (mem s') T' std c sz (cap * 2) d' done.
Proof.
  intros Ho [Hstd Hsb (Ecap & Epv & Esz) Hblk HT Hrows (Hlen & Hcap)] Hsz Hmul Hc29 Hroom.
  pose proof (ho_range _ _ _ _ Ho) as HTr. assert (0 <= sz * (cap * 2) < 2 ^ 62) as Hr2 by (cbn in *; nia).
  assert (0 <= sz * cap < 2 ^ 62) as Hr1 by (cbn in *; nia).
  pose proof (calcActualSize_bounds _ Hr1) as Hc1. pose proof (calcActualSize_bounds _ Hr2) as Hc2.
  destruct (update_std_rep D E T s std d (set_content (cap * 2) (iContentCnt d) (REL c)) Ho Hstd) as (s1 & Hr & Hg1 & Ha1).
  pose proof (at_below_grows _ _ _ _ _ _ _ _ _ Hblk Hg1 ltac:(not_written)) as Hb1.
  destruct (realloc_in_place D E T s1 c _ _ (sz * (cap * 2)) (g_ok _ _ _ _ _ _ _ Hg1) Hb1) as (s2 & Hrr & Hg2 & Hb2);
    [lia|lia|lia|done|nia|lia|].
  set (T' := c - 40 + calcActualSize (sz * (cap * 2))) in *.
  pose proof (at_below_grows _ _ _ _ _ _ _ _ _ Ha1 Hg2 ltac:(not_written)) as Ha2.
  destruct (update_std_rep D E T' s2 std _ (set_content (cap * 2) (iContentCnt d) (REL c)) (g_ok _ _ _ _ _ _ _ Hg2) Ha2) as (s3 & Hr3 & Hg3 & Ha3).
  exists s3. split_and!.
  - rewrite Ecap, Epv, Esz. eapply runs_bind; [apply runs_pure, int_range_ok; cbn in *; lia|]. eapply runs_bind; [exact Hr|].
    rewrite u64_id by (cbn in *; lia). eapply runs_bind; [exact Hrr|]. eapply runs_bind; [exact Hr3|].
    unfold RELATIVE_ADDRESS, NULL. destruct (Z.eqb_spec (c - pvShmBuf D) 0) as [E0|]; [|done].
    destruct Hblk as (_ & ? & _). lia.
  - unfold fetch_writes. grows_chain.
  - split; [exact Ha3|done|done| |done| |lia].
    + eapply at_below_grows; [exact Hb2|exact Hg3|not_written].
    + intros j row Hj. specialize (Hrows j row Hj). destruct Hblk as (_ & ? & _).
      eapply at_below_grows; [eapply at_below_grows; [eapply at_below_grows; [exact Hrows|exact Hg1|]|exact Hg2|]|exact Hg3|]; intros Hw; unfold only in Hw; nia.
Qed.
(** A row is copied behind the others. *)
Lemma fetch_stores E T s std c sz cap d done row :
  heap_ok D E T s -> fetching (mem s) T std c sz cap d done -> 0 < sz -> sz * cap < 2 ^ 60 -> zlen done < cap ->
  zlen row = sz -> Forall (λ r, zlen r = sz) done ->
  exists s', runs (if zlen row =? iStdSize d then store D (ABS (pvContent d) + iStdSize d * zlen done) (O_row row) else pure_of Fault) s tt s' /\
    grows D E (fetch_writes std c) T s T s' /\ fetching (mem s') T std c sz cap d (done ++ [row]).
Proof.
  intros Ho [Hstd Hsb (Ecap & Epv & Esz) Hblk HT Hrows (Hlen & Hcap)] Hsz Hmul Hlt Hrow Hall.
  pose proof (ho_range _ _ _ _ Ho) as HTr. assert (0 <= sz * cap < 2 ^ 62) as Hr1 by (cbn in *; nia).
  pose proof (calcActualSize_bounds _ Hr1) as Hc1. pose proof (zlen_nonneg done) as Hd0.
  assert (sz * zlen done + sz <= sz * cap) as Hfit by nia. assert (0 <= sz * zlen done) as Hp0 by nia.
  destruct (store_fresh D E T (c - 40) _ s (c + sz * zlen done) (O_row row) Ho Hblk) as (s' & Hr & Hg & Ha & Hkeep);
    [nia|cbn [sizeof]; lia|nia|]. cbn [sizeof] in Hkeep. rewrite Hrow in Hkeep.
  exists s'. split_and!.
  - rewrite Esz, Epv, abs_rel, Hrow, Z.eqb_refl. exact Hr.
  - eapply grows_weaken; [exact Hg|]. unfold fetch_writes. written.
  - split; [|done|done| |done| |rewrite zlen_app; change (zlen [row]) with 1; lia].
    + eapply at_below_grows; [exact Hstd|exact Hg|not_written].
    + eapply at_below_mono; [exact Hblk|lia|]. apply Hkeep; [exact Hblk|nia|].
      right. cbn [fst snd used_block sizeof]. unfold sizeof_T_MemoryBlock. lia.
    + intros j r Hj. apply lookup_app_Some in Hj as [Hj|[Hj1 Hj2]].
      * specialize (Hrows j r Hj). pose proof (lookup_lt_Some _ _ _ Hj) as Hjl.
        assert (zlen r = sz) as Hr' by (by eapply (Forall_lookup_1 _ _ _ _ Hall)).
        eapply at_below_mono; [exact Hrows|lia|]. assert (Z.of_nat j + 1 <= zlen done) as Hjz by (unfold zlen; lia).
        apply Hkeep; [exact Hrows|nia|]. right. cbn [fst snd sizeof]. nia.
      * apply list_lookup_singleton_Some in Hj2 as [Ej <-]. replace (Z.of_nat j) with (zlen done) by (unfold zlen; lia). exact Ha.
Qed.

(** The loop takes all rows. *)
Lemma fetch_loop_rep E std c sz N : forall rows T s cap d done,
  heap_ok D E T s -> fetching (mem s) T std c sz cap d done -> 0 < sz ->
  Forall (λ r, zlen r = sz) done -> Forall (λ r, zlen r = sz) rows -> zlen done + zlen rows = N ->
  cap <= 10 + 2 * N -> N < 2 ^ 28 -> sz * (10 + 2 * N) < 2 ^ 60 -> c + 3 * (sz * (10 + 2 * N)) + 200 <= E ->
  exists s' T' cap' d', runs (fetch_loop D rows std (zlen done)) s (Some N) s' /\
    grows D E (fetch_writes std c) T s T' s' /\ fetching (mem s') T' std c sz cap' d' (done ++ rows) /\
    cap' <= 10 + 2 * N /\ d' = set_content cap' (iContentCnt d) (REL c) d.
Proof.
  induction rows as [|row rows IH]; intros T s cap d done Ho Hf Hsz Hdone Hrows HN Hcap HN28 Hmul HE.
  { exists s, T, cap, d. rewrite app_nil_r. change (zlen (@nil bytes)) with 0 in HN. replace N with (zlen done) by lia.
    split_and!; [done|by apply grows_refl|done|lia|]. destruct (fe_members _ _ _ _ _ _ _ _ Hf) as (<- & <- & _). by destruct d. }
  apply Forall_cons in Hrows as [Hrow Hrows]. rewrite zlen_cons in HN. pose proof (zlen_nonneg rows). pose proof (zlen_nonneg done).
  pose proof (fe_room _ _ _ _ _ _ _ _ Hf) as [Hlen Hcap10]. destruct (fe_members _ _ _ _ _ _ _ _ Hf) as (Ecap & _ & _).
  assert (exists s1 T1 cap1 d1, runs (if iContentSize d - 1 <? zlen done then
       iSize ← pure_of (int_range (iContentSize d * 2));
       _ ← update_std D std (set_content iSize (iContentCnt d) (pvContent d));
       p ← shmRealloc D (pvContent d) (u64 (iStdSize d * iSize));
       _ ← update_std D std (set_content iSize (iContentCnt d) p);
       mret (negb (p =? NULL)) else mret true) s true s1 /\ grows D E (fetch_writes std c) T s T1 s1 /\
     fetching (mem s1) T1 std c sz cap1 d1 done /\ zlen done < cap1 <= 10 + 2 * N /\ d1 = set_content cap1 (iContentCnt d) (REL c) d)
    as (s1 & T1 & cap1 & d1 & Hr1 & Hg1 & Hf1 & Hcap1 & Ed1).
  { rewrite Ecap. destruct (Z.ltb_spec (cap - 1) (zlen done)).
    - assert (cap = zlen done) as Hceq by lia. pose proof (fe_last _ _ _ _ _ _ _ _ Hf) as HT.
      assert (sz * (cap * 2) <= sz * (10 + 2 * N)) as Hm2 by nia. assert (sz * cap <= sz * (10 + 2 * N)) as Hm1 by nia.
      assert (0 <= sz * cap) as Hp1 by nia. assert (0 <= sz * (cap * 2)) as Hp2 by nia.
      pose proof (calcActualSize_bounds (sz * cap)) as Hc1. specialize (Hc1 ltac:(cbn in *; lia)).
      pose proof (calcActualSize_bounds (sz * (cap * 2))) as Hc2. specialize (Hc2 ltac:(cbn in *; lia)).
      destruct (fetch_doubles E T s std c sz cap d done Ho Hf Hsz) as (s1 & Hr & Hg & Hf1); [lia|cbn in *; lia|lia|].
      rewrite Ecap in Hr. exists s1, (c - 40 + calcActualSize (sz * (cap * 2))), (cap * 2), (set_content (cap * 2) (iContentCnt d) (REL c) d).
      split_and!; [exact Hr|exact Hg|exact Hf1|lia|lia|done].
    - exists s, T, cap, d. split_and!; [done|by apply grows_refl|done|lia|lia|].
      destruct (fe_members _ _ _ _ _ _ _ _ Hf) as (<- & <- & _). by destruct d. }
  assert (sz * cap1 <= sz * (10 + 2 * N)) as Hm1 by nia.
  destruct (fetch_stores E T1 s1 std c sz cap1 d1 done row (g_ok _ _ _ _ _ _ _ Hg1) Hf1 Hsz) as (s2 & Hr2 & Hg2 & Hf2); [lia|lia|done|done|].
  destruct (IH T1 s2 cap1 d1 (done ++ [row])) as (s' & T' & cap' & d' & Hr & Hg & Hf' & Hcap' & Ed');
    [apply Hg2|exact Hf2|done|apply Forall_app; split; [done|by constructor]|done|rewrite zlen_app; change (zlen [row]) with 1; lia|lia|done|done|done|].
  exists s', T', cap', d'. split_and!; [| |by rewrite <- app_assoc in Hf'|done|by rewrite Ed', Ed1].
  - cbn [fetch_loop]. eapply runs_bind; [eapply runs_load; [apply (fe_std _ _ _ _ _ _ _ _ Hf)|done]|].
    eapply runs_bind; [exact Hr1|]. eapply runs_bind; [eapply runs_load; [apply (fe_std _ _ _ _ _ _ _ _ Hf1)|done]|].
    eapply runs_bind; [exact Hr2|]. rewrite zlen_app in Hr. exact Hr.
  - eapply grows_same; [exact Hg1|]. by eapply grows_same.
Qed.
(** What the rows take at most, the old block and the new one at the same
    time included. *)
Definition rows_need (def : LocalTableDef) : Z := 3 * (iStdSize (l_def def) * (10 + 2 * zlen (cur_rows (l_cursor def)))) + 300.

Record rows_ok (def : LocalTableDef) : Prop := {
  ro_opens : cur_opens (l_cursor def) = true;
  ro_ends : cur_not_found (l_cursor def) = true;
  ro_size : 0 < iStdSize (l_def def);
  ro_rows : Forall (λ r, zlen r = iStdSize (l_def def)) (cur_rows (l_cursor def));
  ro_count : zlen (cur_rows (l_cursor def)) < 2 ^ 28;
  ro_total : iStdSize (l_def def) * (10 + 2 * zlen (cur_rows (l_cursor def))) < 2 ^ 60;
}.

(** The copy of a definition once its rows are there. *)
Definition with_rows (def : LocalTableDef) (cap c : Z) (d : T_SearchTableDef) : T_SearchTableDef :=
  set_content cap (zlen (cur_rows (l_cursor def))) (REL c) d.

Lemma load_rows_rep def E T s std d :
  heap_ok D E T s -> rows_ok def -> at_below D (mem s) T std (O_std d) -> iStdSize d = iStdSize (l_def def) ->
  T + rows_need def <= E ->
  exists s' T' cap, runs (load_rows D def std) s 0 s' /\ grows D E (only std) T s T' s' /\ T' <= T + rows_need def /\
    at_below D (mem s') T' std (O_std (with_rows def cap (T + 40) d)) /\
    rows_at (mem s') T' (T + 40) (iStdSize (l_def def)) (cur_rows (l_cursor def)).
Proof.
  intros Ho [Hop Hnf Hsz Hrows Hcnt Htot] Hstd Esz Hroom. unfold rows_need in *. pose proof (ho_range _ _ _ _ Ho) as HTr.
  set (sz := iStdSize (l_def def)) in *. set (rows := cur_rows (l_cursor def)) in *. set (N := zlen rows) in *.
  assert (0 <= N) as HN0 by apply zlen_nonneg. assert (0 <= sz * 10 <= sz * (10 + 2 * N)) as Hten by nia.
  assert (0 <= sz * 10 < 2 ^ 62) as Hten' by (cbn in *; lia). pose proof (calcActualSize_bounds _ Hten') as Hc1.
  set (T1 := T + calcActualSize (sz * 10)).
  destruct (malloc_grows D E T s _ Ho Hten') as (s1 & Hr1 & Hg1 & Hb1); [lia|]. fold T1 in Hg1, Hb1.
  pose proof (at_below_grows _ _ _ _ _ _ _ _ _ Hstd Hg1 ltac:(not_written)) as Ha1.
  destruct (update_std_rep D E T1 s1 _ _ (λ d, set_content (iContentSize d) (iContentCnt d) (REL (T + 40)) d) (g_ok _ _ _ _ _ _ _ Hg1) Ha1)
    as (s2 & Hr2 & Hg2 & Ha2).
  destruct (update_std_rep D E T1 s2 _ _ (set_content 10 0 (REL (T + 40))) (g_ok _ _ _ _ _ _ _ Hg2) Ha2) as (s3 & Hr3 & Hg3 & Ha3).
  assert (std < T) as Hlt by (destruct Hstd as (_ & ? & _); lia).
  pose proof (at_below_grows _ _ _ _ _ _ _ _ _ Hb1 Hg2 ltac:(not_written)) as Hb2.
  pose proof (at_below_grows _ _ _ _ _ _ _ _ _ Hb2 Hg3 ltac:(not_written)) as Hb3.
  destruct (fetch_loop_rep E std (T + 40) sz N rows T1 s3 10 (set_content 10 0 (REL (T + 40)) d) []) as (s4 & T' & cap & d' & Hr4 & Hg4 & Hf4 & Hcap & Ed');
    [exact (g_ok _ _ _ _ _ _ _ Hg3)| |done|by constructor|done|done|lia|done|done|lia|].
  { split; [exact Ha3|lia|by cbn; rewrite Esz| |lia| |split; [done|lia]].
    - replace (T + 40 - 40) with T by lia. exact Hb3.
    - intros j row Hj. done. }
  destruct Hf4 as [Hstd4 _ _ _ HT4 Hrows4 (_ & Hcap10)]. cbn [app] in Hrows4.
  destruct (update_std_rep D E T' s4 std _ (λ d, set_content (iContentSize d) N (pvContent d) d) (g_ok _ _ _ _ _ _ _ Hg4) Hstd4)
    as (s5 & Hr5 & Hg5 & Ha5).
  exists s5, T', cap. split_and!.
  - unfold load_rows. rewrite Hop. cbn [negb]. fold sz. rewrite (u64_id (sz * 10)) by (cbn in *; lia).
    eapply runs_bind; [exact Hr1|]. eapply runs_bind; [exact Hr2|]. rewrite (rel_not_null D E T s) by (done || lia).
    eapply runs_bind; [exact Hr3|]. eapply runs_bind; [exact Hr4|]. eapply runs_bind; [exact Hr5|]. by rewrite Hnf.
  - eapply grows_step; [exact Hg1|written|]. eapply grows_same; [eapply grows_weaken; [exact Hg2|written]|].
    eapply grows_same; [eapply grows_weaken; [exact Hg3|written]|].
    eapply grows_same; [eapply grows_weaken; [exact Hg4|]|eapply grows_weaken; [exact Hg5|written]].
    intros a Ha [->|Hw]; unfold only; [tauto|lia].
  - assert (0 <= sz * cap <= sz * (10 + 2 * N)) as Hcm by nia.
    pose proof (calcActualSize_bounds (sz * cap)) as Hc2. specialize (Hc2 ltac:(cbn in *; lia)). lia.
  - rewrite Ed' in Ha5. exact Ha5.
  - intros j row Hj. specialize (Hrows4 j row Hj). eapply at_below_grows; [exact Hrows4|exact Hg5|]. intros Hw. unfold only in Hw. nia.
Qed.
End load_facts.
