(* ===== verification/ShmKeyFacts.v ===== *)
(** * The text of a key

    Keys are C strings that fit the buffer, and a search for the values of a
    row forms the key of that row. *)

From Stdlib Require Import Floats.SpecFloat.
From S2P Require Import Prelude LibC Buffers CFloat BasString BasHashTypes ShmMem ShmSearch.

#[local] Hint Extern 1 (cchar _) => unfold cchar; lia : core.

Lemma cstring_app s t : cstring s -> cstring t -> cstring (s ++ t).
Proof. intros Hs Ht. by apply Forall_app. Qed.

Lemma cstring_cons c s : cchar c -> cstring s -> cstring (c :: s).
Proof. by constructor. Qed.

Lemma cstring_replicate n c : cchar c -> cstring (replicate n c).
Proof. intros Hc. by apply Forall_replicate. Qed.

Lemma cstring_take n s : cstring s -> cstring (take n s).
Proof. intros Hs. by apply Forall_take. Qed.

#[local] Hint Resolve cstring_app cstring_cons cstring_replicate cstring_take : core.

Lemma cstring_nil : cstring [].
Proof. constructor. Qed.

#[local] Hint Resolve cstring_nil : core.

Lemma dec_nat_cstring n : 0 <= n -> cstring (dec_nat n).
Proof. intros Hn. apply digits_cstring. by apply dec_nat_spec. Qed.

#[local] Hint Resolve dec_nat_cstring : core.

Lemma pad_right_cstring w c s : cchar c -> cstring s -> cstring (pad_right w c s).
Proof. intros Hc Hs. unfold pad_right. auto. Qed.

Lemma pad_left_cstring w c s : cchar c -> cstring s -> cstring (pad_left w c s).
Proof. intros Hc Hs. unfold pad_left. auto. Qed.

#[local] Hint Resolve pad_right_cstring pad_left_cstring : core.

Lemma dec0_cstring w z : cstring (dec0 w z).
Proof.
  unfold dec0. destruct (Z.ltb_spec z 0); [apply cstring_cons; [done|]|];
    apply pad_left_cstring; try done; apply dec_nat_cstring; lia.
Qed.

Lemma dec_cstring z : cstring (dec z).
Proof. unfold dec. destruct (Z.ltb_spec z 0); [apply cstring_cons; [done|]|]; apply dec_nat_cstring; lia. Qed.

Lemma sprintf_long_cstring w z : cstring (sprintf_long w z).
Proof. unfold sprintf_long. destruct (w <? 0); [|apply dec0_cstring]. apply pad_right_cstring; [done|apply dec_cstring]. Qed.

Lemma finite_units_nonneg p f : 0 <= finite_units p f.
Proof.
  destruct f as [| | |s m e]; simpl; try lia. destruct (Z.leb_spec 0 e).
  - pose proof (Z.pow_nonneg 2 e). pose proof (Z.pow_nonneg 10 (Z.of_nat p)). nia.
  - pose proof (Z.pow_pos_nonneg 2 (- e)). pose proof (Z.pow_nonneg 10 (Z.of_nat p)).
    unfold div_half_even. cbv zeta. pose proof (Z.div_pos (Zpos m * 10 ^ Z.of_nat p) (2 ^ (- e)) ltac:(nia) ltac:(lia)).
    repeat case_match; lia.
Qed.

Lemma print_units_cstring p h : 0 <= h -> cstring (print_units p h).
Proof.
  intros Hh. unfold print_units. pose proof (Z.pow_pos_nonneg 10 (Z.of_nat p)).
  apply cstring_app; [apply dec_nat_cstring, Z.div_pos; lia|]. destruct p; [done|]. apply cstring_cons; [done|apply dec0_cstring].
Qed.

Lemma sprintf_double_cstring w p f : cstring (sprintf_double w p f).
Proof.
  unfold sprintf_double. cbv zeta. set (q := if p <? 0 then 6%nat else Z.to_nat p).
  assert (cstring (if float_sign f then [45] else [])) as Hs by (destruct (float_sign f); auto).
  assert (cstring (lit "inf") /\ cstring (lit "nan")) as [Hi Hn] by (split; apply (bool_decide_unpack _); vm_compute; exact I).
  pose proof (print_units_cstring q (finite_units q f) (finite_units_nonneg q f)).
  destruct f; destruct (w <? 0); auto.
Qed.

(** Bytes of the row. *)
Definition is_row (r : bytes) : Prop := Forall (λ c, 0 <= c < 256) r.

Lemma content_is_cstring s : is_row s -> cstring (content s).
Proof.
  induction 1 as [|c s Hc Hs IH]; simpl; [done|]. destruct (Z.eqb_spec c 0); [done|]. apply cstring_cons; [|done]. unfold cchar. lia.
Qed.

Lemma sprintf_text_cstring w s t : is_row s -> sprintf_text w s = Ok t -> cstring t.
Proof.
  intros Hs%content_is_cstring. unfold sprintf_text. destruct (w <? 0).
  - intros (n & _ & [= <-])%outcome_bind_ok. auto.
  - case_match; [|done]. intros [= <-]. auto.
Qed.

Lemma field_cstring f row t : is_row row -> field_of_row f row = Ok (Some t) -> cstring t.
Proof.
  intros Hr. unfold field_of_row. destruct (eType f).
  - case_match; [|done]. intros (u & Hu & [= <-])%outcome_bind_ok. eapply sprintf_text_cstring; [|exact Hu]. by apply Forall_drop.
  - intros (z & _ & [= <-])%outcome_bind_ok. apply sprintf_long_cstring.
  - intros (z & _ & E)%outcome_bind_ok. generalize dependent (double_of_bits z). intros d [= <-]. apply sprintf_double_cstring.
  - done.
Qed.

(** Appending keeps the key a string of at most 511 bytes. *)
Definition is_key (k : bytes) : Prop := cstring k /\ zlen k < 512.

Lemma append_key_ok key t r : is_key key -> cstring t -> append_key key t = Ok r -> is_key r /\ r = key ++ t.
Proof.
  intros [Hk _] Ht. unfold append_key. destruct (Z.ltb_spec (zlen key + zlen t) 512); [|done]. intros [= <-].
  split; [|done]. split; [auto|]. rewrite zlen_app. lia.
Qed.

Lemma form_key_loop_ok fields row : is_row row -> forall n i key r,
  is_key key -> form_key_loop n fields i row key = Ok (Some r) -> is_key r.
Proof.
  intros Hrow n. induction n as [|n IH]; intros i key r Hk; cbn [form_key_loop]; [by intros [= <-]|].
  intros (f & _ & (t & Ht & He)%outcome_bind_ok)%outcome_bind_ok. destruct t as [t|]; [|done]. apply outcome_bind_ok in He as (k & Hk' & He).
  eapply IH; [|exact He]. eapply append_key_ok; [exact Hk|by eapply field_cstring|exact Hk'].
Qed.

Lemma formKey_is_key fields n row k : is_row row -> formKey fields n row = Ok (Some k) -> is_key k.
Proof. intros Hr. apply form_key_loop_ok; [done|]. split; [done|]. change (zlen (@nil Z)) with 0. lia. Qed.

(** ** The values of a row as arguments *)

Definition value_of (row : bytes) (f : T_SearchFieldDef) : vararg :=
  match eType f with
  | FIELD_TYPE_CHAR => A_text (content (drop (Z.to_nat (iOffset f)) row))
  | FIELD_TYPE_LONG => match word_at row (iOffset f) with Ok z => A_long (s64 z) | _ => A_list end
  | FIELD_TYPE_DOUBLE => match word_at row (iOffset f) with Ok z => A_double (double_of_bits z) | _ => A_list end
  | FIELD_TYPE_OTHER => A_list
  end.

Lemma sprintf_text_content w s t : is_row s -> sprintf_text w s = Ok t -> sprintf_text w (content s ++ [0]) = Ok t.
Proof.
  intros Hs%content_is_cstring. unfold sprintf_text. rewrite (content_app (content s) []) by done. destruct (w <? 0).
  - intros (n & _ & [= <-])%outcome_bind_ok. by rewrite strlen_app.
  - rewrite (bool_decide_eq_false_2 (content s = content s ++ [0])), orb_true_r; [by case_match|].
    intros E%(f_equal length). rewrite length_app in E. simpl in E. lia.
Qed.

Lemma field_of_value f row t ap :
  is_row row -> field_of_row f row = Ok (Some t) -> field_of_arg f (value_of row f :: ap) = Ok (Some (t, ap)).
Proof.
  intros Hr. unfold field_of_row, field_of_arg, value_of. destruct (eType f).
  - case_match; [|done]. intros (u & Hu & [= <-])%outcome_bind_ok. by rewrite (sprintf_text_content _ _ u) by (done || by apply Forall_drop).
  - intros (z & -> & [= <-])%outcome_bind_ok. done.
  - intros (z & -> & E)%outcome_bind_ok. generalize dependent (double_of_bits z). intros d [= <-]. done.
  - done.
Qed.

Lemma form_vararg_values fields row ap : is_row row -> forall n i key r,
  form_key_loop n fields (Z.of_nat i) row key = Ok (Some r) ->
  form_vararg_loop n fields (Z.of_nat i) ((value_of row <$> take n (drop i fields)) ++ ap) key = Ok (Some r).
Proof.
  intros Hrow n. induction n as [|n IH]; intros i key r; cbn [form_key_loop form_vararg_loop]; [done|].
  intros (f & Hf & (t & Ht & He)%outcome_bind_ok)%outcome_bind_ok. rewrite Hf. cbn [mbind outcome_bind].
  apply zget_Ok in Hf as [_ Hf]. rewrite Nat2Z.id in Hf. destruct t as [t|]; [|done].
  apply outcome_bind_ok in He as (k & Hk & He). rewrite (drop_S _ _ _ Hf). cbn [take fmap list_fmap app].
  rewrite (field_of_value f row t _ Hrow Ht). cbn [mbind outcome_bind]. rewrite Hk. cbn [mbind outcome_bind].
  replace (Z.of_nat i + 1) with (Z.of_nat (S i)) in * by lia. by apply IH.
Qed.

Definition values_of (fields : list T_SearchFieldDef) (iKeyDefArrayLength : Z) (row : bytes) : list vararg :=
  value_of row <$> take (Z.to_nat iKeyDefArrayLength) fields.

Lemma formKeyVararg_values fields n row k ap :
  is_row row -> formKey fields n row = Ok (Some k) -> formKeyVararg fields n (values_of fields n row ++ ap) = Ok (Some k).
Proof. intros Hr Hk. exact (form_vararg_values fields row ap Hr (Z.to_nat n) 0 [] k Hk). Qed.

(** The key of a search depends on the fields it reads only. *)
Lemma form_vararg_take fields : forall n i ap key, form_vararg_loop n (take (i + n) fields) (Z.of_nat i) ap key = form_vararg_loop n fields (Z.of_nat i) ap key.
Proof.
  induction n as [|n IH]; intros i ap key; cbn [form_vararg_loop]; [done|].
  assert (zget (take (i + S n) fields) (Z.of_nat i) = zget fields (Z.of_nat i)) as ->.
  { unfold zget. destruct (Z.ltb_spec (Z.of_nat i) 0); [done|]. rewrite Nat2Z.id, lookup_take_lt by lia. done. }
  replace (Z.of_nat i + 1) with (Z.of_nat (S i)) by lia. replace (i + S n)%nat with (S i + n)%nat by lia.
  destruct (zget fields (Z.of_nat i)) as [f| |]; cbn [mbind outcome_bind]; [|done..].
  destruct (field_of_arg f ap) as [[[t ap']|]| |]; cbn [mbind outcome_bind]; [|done..].
  destruct (append_key key t); cbn [mbind outcome_bind]; [by rewrite IH|done..].
Qed.

Lemma formKeyVararg_take fields n ap : formKeyVararg (take (Z.to_nat n) fields) n ap = formKeyVararg fields n ap.
Proof. exact (form_vararg_take fields (Z.to_nat n) 0 ap []). Qed.
