(* ===== verification/ShmIndexFacts.v ===== *)
(** * The indexes of a loaded table

    The hash table of the keys refers to the last row of each key, the array
    of the keys has them in the order of the rows. *)

From S2P Require Import Prelude LibC Buffers BasString BasProbe BasHashTypes BasTable ShmMem ShmMemFacts ShmAlloc ShmHash ShmHashFacts ShmSearch ShmKeyFacts ShmTableFacts ShmLoadFacts.

(** The last place of a key. *)
Fixpoint last_place (key : bytes) (keys : list bytes) : option nat :=
  match keys with
  | [] => None
  | k :: keys =>
      match last_place key keys with
      | Some j => Some (S j)
      | None => if decide (k = key) then Some O else None
      end
  end.

Lemma last_place_Some key keys j :
  last_place key keys = Some j <-> keys !! j = Some key /\ (forall i, (j < i)%nat -> keys !! i <> Some key).
Proof.
  revert j. induction keys as [|k keys IH]; intros j; simpl; [split; [done|intros [? _]; done]|].
  destruct (last_place key keys) as [q|].
  - pose proof (proj1 (IH q) eq_refl) as [Hq Hlast]. split.
    + intros [= <-]. split; [done|]. intros [|i] Hi; [lia|]. apply Hlast. lia.
    + intros [Hj Hmax]. f_equal. destruct j as [|j].
      * exfalso. by apply (Hmax (S q)); [lia|].
      * f_equal. destruct (Nat.lt_trichotomy q j) as [?|[?|?]]; [|done|].
        -- exfalso. by eapply Hlast.
        -- exfalso. by apply (Hmax (S q)); [lia|].
  - assert (forall i, keys !! i <> Some key) as Hnone.
    { intros i Hi. assert (exists q, keys !! q = Some key /\ forall p, (q < p)%nat -> keys !! p <> Some key) as (q & Hq).
      { clear IH. revert i Hi. induction keys as [|x keys IH]; intros i Hi; [done|].
        destruct (decide (key ∈ keys)) as [[p Hp]%list_elem_of_lookup_1|Hno].
        - destruct (IH p Hp) as (q & Hq & Hm). exists (S q). split; [done|]. intros [|p'] ?; [lia|]. apply Hm. lia.
        - exists O. split.
          + destruct i as [|i]; [done|]. exfalso. apply Hno. by eapply list_elem_of_lookup_2.
          + intros [|p] ? Hp; [lia|]. apply Hno. by eapply list_elem_of_lookup_2. }
      by pose proof (proj2 (IH q) Hq). }
    case_decide as Hk.
    + split.
      * intros [= <-]. subst. split; [done|]. intros [|i] ?; [lia|]. apply Hnone.
      * intros [Hj _]. destruct j as [|j]; [done|]. by apply Hnone in Hj.
    + split; [done|]. intros [Hj _]. destruct j as [|j]; simpl in Hj; [congruence|by apply Hnone in Hj].
Qed.

Section index_facts.
Context `{BasGlobal} `{BasHashConst} `{Hlaws : !BasHashLaws} `{ShmLayout} `{Hsizes : !SizeLaws} (D : T_ShmAppDesc).
Abbreviation ABS := (ABSOLUTE_ADDRESS D).
Abbreviation REL := (RELATIVE_ADDRESS D).
#[local] Set Default Proof Using "Type Hsizes Hlaws".

(** The keys of the rows. *)
Definition keys_of (def : LocalTableDef) (rows keys : list bytes) : Prop :=
  Forall2 (λ row k, formKey (l_fields def) (iKeyDefArrayLength (l_def def)) row = Ok (Some k)) rows keys.

(** The map of a hash index: rows from [i] on, at [c]. *)
Fixpoint insert_keys (c sz i : Z) (keys : list bytes) (M : gmap bytes Z) : gmap bytes Z :=
  match keys with
  | [] => M
  | k :: keys => insert_keys c sz (i + 1) keys (<[k := REL (c + sz * i)]> M)
  end.

Lemma insert_keys_lookup c sz key : forall keys i M,
  insert_keys c sz i keys M !! key =
  match last_place key keys with Some j => Some (REL (c + sz * (i + Z.of_nat j))) | None => M !! key end.
Proof.
  induction keys as [|k keys IH]; intros i M; simpl; [done|]. rewrite IH.
  destruct (last_place key keys) as [j|].
  - do 3 f_equal. lia.
  - case_decide as Hk; [subst; rewrite lookup_insert_eq; do 3 f_equal; lia|by rewrite lookup_insert_ne].
Qed.

Definition keys_need (N : Z) (keys : list bytes) : Z := foldr (λ k acc, put_need N k + acc) 0 keys.

Lemma keys_need_nonneg N keys : 0 <= N -> sizeof_T_HashEntry < 2 ^ 62 -> 0 <= keys_need N keys.
Proof.
  intros HN Hse. unfold keys_need. induction keys as [|k keys IH]; cbn [foldr]; [lia|]. pose proof (put_need_nonneg N k HN Hse). lia.
Qed.

(** What lies below [T0] is kept by what writes at or above it. *)
Lemma kept E W T0 T s T' s' a o :
  at_below D (mem s) T0 a o -> T0 <= T -> grows D E W T s T' s' -> (forall x, W x -> T0 <= x) -> at_below D (mem s') T0 a o.
Proof.
  intros (Ha & Har & He) Hle Hg HW. split; [|done]. apply (g_frame _ _ _ _ _ _ _ Hg).
  - split; [done|lia].
  - intros Hw%HW. lia.
Qed.

Lemma key_of_row_rep def s c sz i row k :
  mem s !! (c + sz * i) = Some (O_row row) -> formKey (l_fields def) (iKeyDefArrayLength (l_def def)) row = Ok (Some k) ->
  runs (key_of_row D def (REL c) sz i) s (c + sz * i, Some k) s.
Proof.
  intros Hrow Hk. unfold key_of_row. rewrite abs_rel. eapply runs_bind; [by eapply runs_load|].
  eapply runs_bind; [by apply runs_pure|]. done.
Qed.

(** [new_text] and what follows it, from the run of both. *)
Lemma split_put E T s k ht v s' :
  heap_ok D E T s -> zlen k + 1 < 2 ^ 62 -> T + calcActualSize (zlen k + 1) + 40 <= E ->
  runs (p ← new_text D k; shmHashTableInsert D ht p v) s 0 s' ->
  exists s1 p, runs (new_text D k) s p s1 /\ p =? SHM_NULL = false /\ runs (shmHashTableInsert D ht p v) s1 0 s'.
Proof.
  intros Ho Hk Hroom Hrun. destruct (new_text_grows D E T k s Ho Hk Hroom) as (s1 & Hr1 & Hg1 & _).
  exists s1, (REL (T + 40)). split; [done|]. split; [by apply (rel_not_null D E T s)|].
  unfold mbind at 1, sm_bind in Hrun. rewrite Hr1 in Hrun. exact Hrun.
Qed.

Lemma put_room N k T E : 0 <= N -> sizeof_T_HashEntry < 2 ^ 62 -> T + put_need N k + 40 <= E -> T + calcActualSize (zlen k + 1) + 40 <= E.
Proof.
  intros HN Hse Hroom. unfold put_need in Hroom. pose proof multiplicand_range. pose proof init_size_range.
  assert (0 <= max_slots N) as Hm by (unfold max_slots; nia). pose proof (insert_need_pos (max_slots N) Hm Hse). lia.
Qed.

Section hash_index.
Variables (def : LocalTableDef) (E std : Z) (d : T_SearchTableDef) (c ht N T0 : Z).
Hypotheses (Hpt : ptHashTable d = REL ht) (Hpv : pvContent d = REL c) (Hse : sizeof_T_HashEntry < 2 ^ 62)
  (HN : max_slots N * BAS_HASHTABLE_EXPAND_MULTIPLICAND <= 1073741824).
#[local] Set Default Proof Using "All".

Lemma hash_index_loop_rep : forall rows keys i T s M ppt l L n,
  heap_ok D E T s -> T0 <= T -> at_below D (mem s) T0 std (O_std d) ->
  (forall j row, rows !! j = Some row -> at_below D (mem s) T0 (c + iStdSize d * (i + Z.of_nat j)) (O_row row)) ->
  Forall is_row rows -> keys_of def rows keys -> table_inv D M (mem s) T ht ppt l L n ->
  (forall a, owned D ht ppt l a -> T0 <= a) -> n + zlen rows <= N -> T + keys_need N keys + 40 <= E ->
  exists s' T' ppt' l' L' n', runs (hash_index_loop D (length rows) def std i) s 0 s' /\
    T' <= T + keys_need N keys /\ grows D E (since T0) T s T' s' /\
    table_inv D (insert_keys c (iStdSize d) i keys M) (mem s') T' ht ppt' l' L' n' /\ (forall a, owned D ht ppt' l' a -> T0 <= a).
Proof.
  induction rows as [|row rows IH]; intros keys i T s M ppt l L n Ho HT0 Hstd Hrows Hbytes Hkeys Hinv How Hn Hroom.
  { apply Forall2_nil_inv_l in Hkeys as ->. exists s, T, ppt, l, L, n. split_and!; [done|cbn; lia|by apply grows_refl|done|done]. }
  apply Forall2_cons_inv_l in Hkeys as (k & keys' & Hk & Hkeys & ->). apply Forall_cons in Hbytes as [Hrow Hbytes].
  assert (0 <= n) as Hn0 by (pose proof (occupied_nonneg L); pose proof (ti_used _ _ _ _ _ _ _ _ _ Hinv); lia).
  rewrite zlen_cons in Hn. pose proof (zlen_nonneg rows). cbn [keys_need foldr] in *. fold (keys_need N keys') in *.
  pose proof (keys_need_nonneg N keys' ltac:(lia) Hse) as Hkn.
  pose proof (formKey_is_key _ _ _ _ Hrow Hk) as [Hkc Hkl]. pose proof (zlen_nonneg k).
  assert (zlen k + 1 < 2 ^ 62) as Hkl' by (cbn; lia).
  destruct (put_grows D M N E T ht ppt l L n k (REL (c + iStdSize d * i)) s) as (s1 & T1 & ppt1 & l1 & L1 & n1 & Hr1 & HT1 & Hg1 & Hi1 & Hn1 & How1);
    [done..|lia|done|lia|].
  destruct (split_put E T s k (REL ht) _ s1 Ho Hkl' (put_room N k T E ltac:(lia) Hse ltac:(lia)) Hr1) as (s0 & p & Hr0 & Hp & Hr1').
  pose proof (g_le _ _ _ _ _ _ _ Hg1) as HTle.
  destruct (IH keys' (i + 1) T1 s1 (<[k := REL (c + iStdSize d * i)]> M) ppt1 l1 L1 n1 (g_ok _ _ _ _ _ _ _ Hg1)) as (s' & T' & ppt' & l' & L' & n' & Hr & HT' & Hg & Hi & How');
    [lia|by eapply kept|intros j r Hj; replace (i + 1 + Z.of_nat j) with (i + Z.of_nat (S j)) by lia; eapply kept; [by apply Hrows|done..]
    |done|done|done|intros a Ha; destruct (How1 a Ha); [by apply How|lia]|lia|lia|].
  exists s', T', ppt', l', L', n'. split_and!; [|lia| |done|done].
  - cbn [hash_index_loop length]. eapply runs_bind; [eapply runs_load; [apply Hstd|done]|].
    specialize (Hrows O row eq_refl). rewrite Z.add_0_r in Hrows. rewrite Hpv, Hpt.
    eapply runs_bind; [eapply key_of_row_rep; [apply Hrows|exact Hk]|].
    eapply runs_bind; [by apply runs_pure|]. eapply runs_bind; [exact Hr0|]. rewrite Hp.
    eapply runs_bind; [exact Hr1'|]. exact Hr.
  - eapply grows_same; [eapply grows_weaken; [exact Hg1|intros a _ Ha; by apply How]|exact Hg].
Qed.
End hash_index.

Definition hash_index_need (keys : list bytes) : Z := create_need + keys_need (zlen keys) keys.

(** What the index functions find: the copy of the definition with its rows. *)
Record rows_loaded (m : memory) (T std : Z) (d : T_SearchTableDef) (c : Z) (rows : list bytes) : Prop := {
  rl_std : at_below D m T std (O_std d);
  rl_content : pvContent d = REL c;
  rl_count : iContentCnt d = zlen rows;
  rl_rows : rows_at D m T c (iStdSize d) rows;
}.

Lemma set_ptHashTable_same h d :
  ptHashTable (set_ptHashTable h d) = h /\ pvContent (set_ptHashTable h d) = pvContent d /\
  iContentCnt (set_ptHashTable h d) = iContentCnt d /\ iStdSize (set_ptHashTable h d) = iStdSize d.
Proof. unfold set_ptHashTable. destruct index_shared; done. Qed.

Lemma set_ppcKeys_same h d :
  ppcKeys (set_ppcKeys h d) = h /\ pvContent (set_ppcKeys h d) = pvContent d /\
  iContentCnt (set_ppcKeys h d) = iContentCnt d /\ iStdSize (set_ppcKeys h d) = iStdSize d.
Proof. unfold set_ppcKeys. destruct index_shared; done. Qed.

Lemma set_ppcKeys_shared h d : index_shared = true -> ptHashTable (set_ppcKeys h d) = h.
Proof. intros E. unfold set_ppcKeys. by rewrite E. Qed.

(** Rows are no definitions. *)
Lemma rows_not_std m T c sz rows std d :
  rows_at D m T c sz rows -> m !! std = Some (O_std d) -> forall j row, rows !! j = Some row -> c + sz * Z.of_nat j <> std.
Proof. intros Hr Hs j row Hj E. destruct (Hr j row Hj) as (Ha & _). rewrite E in Ha. congruence. Qed.

Lemma rows_at_grows E W T s T' s' c sz rows :
  rows_at D (mem s) T c sz rows -> grows D E W T s T' s' -> (forall j row, rows !! j = Some row -> ~ W (c + sz * Z.of_nat j)) ->
  rows_at D (mem s') T' c sz rows.
Proof. intros Hr Hg HW j row Hj. eapply at_below_grows; [by apply Hr|exact Hg|by eapply HW]. Qed.

Lemma hash_index_rep def E T s std d c rows keys :
  heap_ok D E T s -> rows_loaded (mem s) T std d c rows -> Forall is_row rows -> keys_of def rows keys ->
  sizeof_T_HashTable < 2 ^ 62 -> sizeof_T_HashEntry < 2 ^ 62 -> max_slots (zlen keys) * BAS_HASHTABLE_EXPAND_MULTIPLICAND <= 1073741824 ->
  T + hash_index_need keys + 40 <= E ->
  exists s' T' ht ppt l L n, runs (hash_index D def std) s 0 s' /\ grows D E (only std) T s T' s' /\ T' <= T + hash_index_need keys /\
    rows_loaded (mem s') T' std (set_ptHashTable (REL ht) d) c rows /\
    table_inv D (insert_keys c (iStdSize d) 0 keys ∅) (mem s') T' ht ppt l L n /\ (forall a, owned D ht ppt l a -> T <= a).
Proof.
  intros Ho [Hstd Hpv Hcnt Hrows] Hbytes Hkeys Hst Hse HN Hroom. unfold hash_index_need in *.
  pose proof (zlen_nonneg keys) as Hk0. pose proof (keys_need_nonneg (zlen keys) keys Hk0 Hse) as Hkn.
  assert (zlen rows = zlen keys) as Hlen by (unfold zlen; by rewrite (Forall2_length _ _ _ Hkeys)).
  destruct (create_grows D E T s Ho Hst) as (s1 & ppt1 & l1 & L1 & Hr1 & Hg1 & Hi1 & How1); [lia|]. set (T1 := T + create_need) in *.
  assert (std < T) as Hlt by (destruct Hstd as (_ & ? & _); lia).
  assert (T <= T1) as HT1 by exact (g_le _ _ _ _ _ _ _ Hg1).
  assert (at_below D (mem s1) T std (O_std d)) as Ha1 by (eapply (kept E (λ _, False) T T s T1); [exact Hstd|lia|exact Hg1|done]).
  assert (at_below D (mem s1) T1 std (O_std d)) as Ha1' by (eapply at_below_mono; [exact Ha1|lia|apply Ha1]).
  destruct (update_std_rep D E T1 s1 std d (set_ptHashTable (REL (T + 40))) (g_ok _ _ _ _ _ _ _ Hg1) Ha1') as (s2 & Hr2 & Hg2 & Ha2).
  assert (at_below D (mem s2) T std (O_std (set_ptHashTable (REL (T + 40)) d))) as Ha2'.
  { split; [apply Ha2|]. destruct Ha1 as (_ & Hr & He). split; [exact Hr|exact He]. }
  destruct (set_ptHashTable_same (REL (T + 40)) d) as (E1 & E2 & E3 & E4).
  assert (table_inv D ∅ (mem s2) T1 (T + 40) ppt1 l1 L1 0) as Hi2.
  { eapply (table_inv_frame D ∅ (only std)); [exact Hi1|lia|apply Hg2|]. intros a ->. split.
    - intros Hw%How1. lia.
    - intros t Ht. destruct Ha1 as (Ha1 & _). congruence. }
  assert (rows_at D (mem s2) T c (iStdSize d) rows) as Hrows2.
  { intros j row Hj. pose proof (Hrows j row Hj) as Ha. assert (at_below D (mem s1) T (c + iStdSize d * Z.of_nat j) (O_row row)) as Hb
      by (eapply (kept E (λ _, False) T T s T1); [exact Ha|lia|exact Hg1|done]).
    split; [|apply Hb]. apply (g_frame _ _ _ _ _ _ _ Hg2); [eapply at_below_mono; [exact Hb|lia|apply Hb]|]. intros Ew. unfold only in Ew.
    destruct Hb as (Hb & _), Ha1 as (Ha1 & _). rewrite Ew in Hb. congruence. }
  destruct (hash_index_loop_rep def E std (set_ptHashTable (REL (T + 40)) d) c (T + 40) (zlen keys) T E1 (eq_trans E2 Hpv) Hse HN rows keys 0 T1 s2 ∅ ppt1 l1 L1 0)
    as (s' & T' & ppt & l & L & n & Hr & HT' & Hg & Hi & How);
    [exact (g_ok _ _ _ _ _ _ _ Hg2)|lia|exact Ha2'|rewrite E4; intros j row Hj; by apply Hrows2|done|done|done|done|lia|lia|].
  rewrite E4 in Hi. pose proof (g_le _ _ _ _ _ _ _ Hg) as HTle.
  assert (forall a o, at_below D (mem s2) T a o -> at_below D (mem s') T' a o) as Hkeep.
  { intros a o Ha. assert (at_below D (mem s') T a o) as Ha' by (eapply (kept E (since T) T T1 s2 T'); [exact Ha|lia|exact Hg|by intros]).
    eapply at_below_mono; [exact Ha'|lia|apply Ha']. }
  exists s', T', (T + 40), ppt, l, L, n. split_and!; [| |lia| |exact Hi|exact How].
  - unfold hash_index. eapply runs_bind; [exact Hr1|]. eapply runs_bind; [exact Hr2|]. rewrite (rel_not_null D E T s T Ho) by lia.
    eapply runs_bind; [eapply runs_load; [apply Ha2'|done]|]. rewrite E3, Hcnt. unfold zlen. rewrite Nat2Z.id. exact Hr.
  - eapply grows_step; [exact Hg1|written|]. eapply grows_same; [eapply grows_weaken; [exact Hg2|written]|].
    eapply grows_weaken; [exact Hg|written].
  - split; [by apply Hkeep|congruence|congruence|rewrite E4]. intros j row Hj. by apply Hkeep, Hrows2.
Qed.

(** ** The array of the keys *)

Lemma store_word_rep E T s a l i v :
  heap_ok D E T s -> at_below D (mem s) T a (O_slots l) -> 0 <= i < zlen l ->
  exists s', runs (store_word D a i v) s tt s' /\ grows D E (only a) T s T s' /\ at_below D (mem s') T a (O_slots (<[Z.to_nat i := v]> l)).
Proof.
  intros Ho Ha Hi. destruct (overwrite D E T s a _ (O_slots (<[Z.to_nat i := v]> l)) Ho Ha) as (s' & Hr & Hrest);
    [cbn [sizeof]; by rewrite zlen_insert|].
  exists s'. split; [|exact Hrest]. unfold store_word. eapply runs_bind; [eapply runs_load; [apply Ha|done]|].
  eapply runs_bind; [by apply runs_pure, zset_in_range|]. exact Hr.
Qed.

(** The words [w] are the relative addresses of the texts [keys]. *)
Definition texts_at (m : memory) (T : Z) (w : list Z) (keys : list bytes) : Prop :=
  Forall2 (λ x k, at_below D m T (ABS x) (O_text k)) w keys.

Definition texts_need (keys : list bytes) : Z := foldr (λ k acc, calcActualSize (zlen k + 1) + acc) 0 keys.

Lemma texts_need_nonneg keys : 0 <= texts_need keys.
Proof.
  induction keys as [|k keys IH]; cbn [texts_need foldr]; [done|]. fold (texts_need keys).
  assert (0 <= calcActualSize (zlen k + 1)) by (apply uwrap_range; lia). lia.
Qed.

Lemma texts_at_grows E W T s T' s' w keys :
  texts_at (mem s) T w keys -> grows D E W T s T' s' -> (forall a o, W a -> mem s !! a = Some o -> as_text o = None) -> texts_at (mem s') T' w keys.
Proof.
  intros Hw Hg HW. eapply Forall2_impl; [exact Hw|]. intros x k Ha. eapply at_below_grows; [exact Ha|exact Hg|].
  intros Hx. destruct Ha as (Ha & _). by pose proof (HW _ _ Hx Ha).
Qed.

Section key_index.
Variables (def : LocalTableDef) (E std : Z) (d : T_SearchTableDef) (c T0 ppc : Z).
Hypotheses (Hpv : pvContent d = REL c) (Hppc : T0 <= ppc).
#[local] Set Default Proof Using "All".

Lemma key_index_loop_rep : forall rows keys T s w found,
  heap_ok D E T s -> T0 <= T -> at_below D (mem s) T0 std (O_std d) ->
  (forall j row, rows !! j = Some row -> at_below D (mem s) T0 (c + iStdSize d * (zlen found + Z.of_nat j)) (O_row row)) ->
  Forall is_row rows -> keys_of def rows keys ->
  at_below D (mem s) T ppc (O_slots w) -> zlen w = zlen found + zlen rows -> texts_at (mem s) T (take (length found) w) found ->
  T + texts_need keys + 40 <= E ->
  exists s' T' w', runs (key_index_loop D (length rows) def std ppc (zlen found)) s 0 s' /\
    T' <= T + texts_need keys /\ grows D E (since T0) T s T' s' /\
    at_below D (mem s') T' ppc (O_slots w') /\ texts_at (mem s') T' w' (found ++ keys).
Proof.
  induction rows as [|row rows IH]; intros keys T s w found Ho HT0 Hstd Hrows Hbytes Hkeys Hw Hlen Htexts Hroom.
  { apply Forall2_nil_inv_l in Hkeys as ->. exists s, T, w. change (zlen (@nil bytes)) with 0 in Hlen.
    rewrite take_ge in Htexts by (unfold zlen in Hlen; lia). rewrite app_nil_r.
    split_and!; [done|cbn; lia|by apply grows_refl|done|done]. }
  apply Forall2_cons_inv_l in Hkeys as (k & keys' & Hk & Hkeys & ->). apply Forall_cons in Hbytes as [Hrow Hbytes].
  rewrite zlen_cons in Hlen. pose proof (zlen_nonneg rows). pose proof (zlen_nonneg found). cbn [texts_need foldr] in *. fold (texts_need keys') in *.
  pose proof (texts_need_nonneg keys') as Hkn. pose proof (formKey_is_key _ _ _ _ Hrow Hk) as [Hkc Hkl].
  assert (zlen k + 1 < 2 ^ 62) as Hkl' by (cbn; lia).
  destruct (new_text_grows D E T k s Ho Hkl') as (s1 & Hr1 & Hg1 & Ht1); [lia|]. set (T1 := T + calcActualSize (zlen k + 1)) in *.
  assert (T <= T1) as HT1 by exact (g_le _ _ _ _ _ _ _ Hg1).
  pose proof (at_below_grows _ _ _ _ _ _ _ _ _ Hw Hg1 ltac:(not_written)) as Hw1.
  destruct (store_word_rep E T1 s1 ppc w (zlen found) (REL (T + 40)) (g_ok _ _ _ _ _ _ _ Hg1) Hw1) as (s2 & Hr2 & Hg2 & Hw2); [lia|].
  assert (forall a o, at_below D (mem s) T0 a o -> at_below D (mem s2) T0 a o) as Hkeep.
  { intros a o Ha. assert (at_below D (mem s1) T0 a o) as Ha1 by (eapply (kept E (λ _, False) T0 T s T1); [exact Ha|lia|exact Hg1|done]).
    eapply (kept E (only ppc) T0 T1 s1 T1); [exact Ha1|lia|exact Hg2|]. intros x ->. exact Hppc. }
  assert (forall a o, only ppc a -> mem s1 !! a = Some o -> as_text o = None) as Hno.
  { intros a o -> Ha. destruct Hw1 as (Hw1 & _). by rewrite Hw1 in Ha; injection Ha as <-. }
  assert (texts_at (mem s2) T1 (take (length (found ++ [k])) (<[Z.to_nat (zlen found) := REL (T + 40)]> w)) (found ++ [k])) as Htexts2.
  { assert (length found < length w)%nat as Hlt by (unfold zlen in *; lia). unfold zlen. rewrite Nat2Z.id, length_app. cbn [length].
    rewrite Nat.add_1_r, (take_S_r _ _ (REL (T + 40))) by (by apply list_lookup_insert_eq). rewrite take_insert_ge by lia. apply Forall2_app.
    - eapply texts_at_grows; [|exact Hg2|exact Hno]. eapply texts_at_grows; [exact Htexts|exact Hg1|done].
    - constructor; [|constructor]. rewrite abs_rel. eapply at_below_grows; [exact Ht1|exact Hg2|]. intros Eq. eapply Hno in Eq; [|apply Ht1]. done. }
  destruct (IH keys' T1 s2 (<[Z.to_nat (zlen found) := REL (T + 40)]> w) (found ++ [k]) (g_ok _ _ _ _ _ _ _ Hg2))
    as (s' & T' & w' & Hr & HT' & Hg & Hw' & Hts);
    [lia|by apply Hkeep|intros j r Hj; rewrite zlen_app; change (zlen [k]) with 1;
      replace (zlen found + 1 + Z.of_nat j) with (zlen found + Z.of_nat (S j)) by lia; by apply Hkeep, Hrows
    |done|done|exact Hw2|rewrite zlen_insert, zlen_app; change (zlen [k]) with 1; lia|exact Htexts2|lia|].
  rewrite zlen_app in Hr. rewrite <- app_assoc in Hts.
  exists s', T', w'. split_and!; [|lia| |done|done].
  - cbn [key_index_loop length]. eapply runs_bind; [eapply runs_load; [apply Hstd|done]|].
    specialize (Hrows O row eq_refl). rewrite Z.add_0_r in Hrows. rewrite Hpv.
    eapply runs_bind; [eapply key_of_row_rep; [apply Hrows|exact Hk]|].
    eapply runs_bind; [by apply runs_pure|]. eapply runs_bind; [exact Hr1|]. rewrite (rel_not_null D E T s T Ho) by lia.
    eapply runs_bind; [exact Hr2|]. exact Hr.
  - eapply grows_same; [eapply grows_weaken; [exact Hg1|done]|]. eapply grows_same; [|exact Hg].
    eapply grows_weaken; [exact Hg2|]. intros a _ ->. exact Hppc.
Qed.
End key_index.

Definition key_index_need (keys : list bytes) : Z := calcActualSize (8 * zlen keys) + texts_need keys.

Lemma rows_loaded_grows (W : Z -> Prop) E T s T' s' std d c rows :
  rows_loaded (mem s) T std d c rows -> grows D E W T s T' s' ->
  (forall a o, W a -> mem s !! a = Some o -> as_row o = None /\ as_std o = None) -> rows_loaded (mem s') T' std d c rows.
Proof.
  intros [Hstd Hpv Hcnt Hrows] Hg HW. split; [|done|done|].
  - eapply at_below_grows; [exact Hstd|exact Hg|]. intros Hw. destruct Hstd as (Ha & _). by destruct (HW _ _ Hw Ha).
  - eapply rows_at_grows; [exact Hrows|exact Hg|]. intros j row Hj Hw. destruct (Hrows j row Hj) as (Ha & _). by destruct (HW _ _ Hw Ha).
Qed.

(** Changing an index pointer leaves the rows. *)
Lemma rows_loaded_update E T s T' s' std d d' c rows :
  rows_loaded (mem s) T std d c rows -> grows D E (only std) T s T' s' -> at_below D (mem s') T' std (O_std d') ->
  pvContent d' = pvContent d -> iContentCnt d' = iContentCnt d -> iStdSize d' = iStdSize d -> rows_loaded (mem s') T' std d' c rows.
Proof.
  intros [Hstd Hpv Hcnt Hrows] Hg Ha E1 E2 E3. split; [done|congruence|congruence|]. rewrite E3.
  eapply rows_at_grows; [exact Hrows|exact Hg|]. intros j row Hj Eq. eapply rows_not_std; [exact Hrows|apply Hstd|exact Hj|exact Eq].
Qed.

Lemma key_index_rep def E T s std d c rows keys :
  heap_ok D E T s -> rows_loaded (mem s) T std d c rows -> Forall is_row rows -> keys_of def rows keys ->
  zlen keys < 2 ^ 56 -> T + key_index_need keys + 40 <= E ->
  exists s' T' ppc w, runs (key_index D def std) s 0 s' /\ grows D E (only std) T s T' s' /\ T' <= T + key_index_need keys /\
    rows_loaded (mem s') T' std (set_ppcKeys (REL ppc) d) c rows /\
    at_below D (mem s') T' ppc (O_slots w) /\ texts_at (mem s') T' w keys /\ T <= ppc.
Proof using All.
  intros Ho Hl Hbytes Hkeys Hmax Hroom. unfold key_index_need in *. pose proof (zlen_nonneg keys) as Hk0. pose proof (texts_need_nonneg keys).
  assert (zlen rows = zlen keys) as Hlen by (unfold zlen; by rewrite (Forall2_length _ _ _ Hkeys)).
  pose proof (rl_std _ _ _ _ _ _ Hl) as Hstd. pose proof (rl_content _ _ _ _ _ _ Hl) as Hpv. pose proof (rl_count _ _ _ _ _ _ Hl) as Hcnt.
  assert (0 <= 8 * zlen keys < 2 ^ 62) as Hsz by (cbn in *; lia). pose proof (calcActualSize_bounds _ Hsz) as Hact.
  destruct (malloc_grows D E T s _ Ho Hsz) as (s1 & Hr1 & Hg1 & Hb1); [lia|]. set (T1 := T + calcActualSize (8 * zlen keys)) in *.
  assert (T <= T1) as HT1 by exact (g_le _ _ _ _ _ _ _ Hg1).
  assert (rows_loaded (mem s1) T1 std d c rows) as Hl1 by (eapply rows_loaded_grows; [exact Hl|exact Hg1|done]).
  destruct (update_std_rep D E T1 s1 std d (set_ppcKeys (REL (T + 40))) (g_ok _ _ _ _ _ _ _ Hg1) (rl_std _ _ _ _ _ _ Hl1)) as (s2 & Hr2 & Hg2 & Ha2).
  destruct (set_ppcKeys_same (REL (T + 40)) d) as (E1 & E2 & E3 & E4).
  assert (rows_loaded (mem s2) T1 std (set_ppcKeys (REL (T + 40)) d) c rows) as Hl2 by (by eapply rows_loaded_update).
  assert (std < T) as Hlt by (destruct Hstd as (_ & ? & _); lia).
  pose proof (at_below_grows _ _ _ _ _ _ _ _ _ Hb1 Hg2 ltac:(not_written)) as Hb2.
  set (words := (λ i, stale_word (T + 40 + 8 * Z.of_nat i)) <$> seq 0 (Z.to_nat (zlen keys))).
  assert (zlen words = zlen keys) as Hws by (unfold words, zlen; rewrite length_fmap, length_seq; lia).
  destruct (store_fresh D E T1 T _ s2 (T + 40) (O_slots words) (g_ok _ _ _ _ _ _ _ Hg2) Hb2) as (s3 & Hr3 & Hg3 & Hw3 & _);
    [lia|cbn [sizeof]; rewrite Hws; lia|lia|].
  (* what lay below the old end *)
  assert (forall a o, at_below D (mem s2) T a o -> at_below D (mem s3) T a o) as Hkeep.
  { intros a o Ha. eapply (kept E (since T) T T1 s2 T1); [exact Ha|lia|exact Hg3|by intros]. }
  assert (at_below D (mem s2) T std (O_std (set_ppcKeys (REL (T + 40)) d))) as Hstd2 by (split; [apply Ha2|apply Hstd]).
  assert (forall j row, rows !! j = Some row -> at_below D (mem s2) T (c + iStdSize d * Z.of_nat j) (O_row row)) as Hrows2.
  { intros j row Hj. destruct (rl_rows _ _ _ _ _ _ Hl j row Hj) as (_ & Hrg). pose proof (rl_rows _ _ _ _ _ _ Hl2 j row Hj) as (Hr & _).
    rewrite E4 in Hr. by split. }
  destruct (key_index_loop_rep def E std (set_ppcKeys (REL (T + 40)) d) c T (T + 40) (eq_trans E2 Hpv) ltac:(lia) rows keys T1 s3 words []
    (g_ok _ _ _ _ _ _ _ Hg3) HT1 (Hkeep _ _ Hstd2)) as (s' & T' & w & Hr & HT' & Hg & Hw & Hts);
    [rewrite E4; intros j row Hj; by apply Hkeep, Hrows2|done|done|exact Hw3
    |change (zlen (@nil bytes)) with 0; lia|constructor|lia|].
  exists s', T', (T + 40), w. split_and!; [| |lia| |exact Hw|exact Hts|lia].
  - unfold key_index. eapply runs_bind; [eapply runs_load; [apply Hstd|done]|]. rewrite Hcnt, Hlen, u64_id by (cbn in *; lia).
    eapply runs_bind; [exact Hr1|]. eapply runs_bind; [exact Hr2|]. rewrite (rel_not_null D E T s T Ho), abs_rel by lia.
    eapply runs_bind; [exact Hr3|]. rewrite <- Hlen. unfold zlen at 1. rewrite Nat2Z.id. exact Hr.
  - eapply grows_step; [exact Hg1|written|]. eapply grows_same; [eapply grows_weaken; [exact Hg2|written]|].
    eapply grows_same; [eapply grows_weaken; [exact Hg3|written]|eapply grows_weaken; [exact Hg|written]].
  - pose proof (g_le _ _ _ _ _ _ _ Hg). assert (forall a o, at_below D (mem s2) T a o -> at_below D (mem s') T' a o) as Hfin.
    { intros a o Ha%Hkeep. assert (at_below D (mem s') T a o) as Ha' by (eapply (kept E (since T) T T1 s3 T'); [exact Ha|lia|exact Hg|by intros]).
      eapply at_below_mono; [exact Ha'|lia|apply Ha']. }
    split; [by apply Hfin|congruence|congruence|rewrite E4]. intros j row Hj. by apply Hfin, Hrows2.
Qed.
End index_facts.
