(* ===== verification/ShmCatalogue.v ===== *)
(** * The segment as a catalogue of search tables

    What the segment holds when tables have been loaded: one hash table of
    their names, and for every name a definition, rows and an index that no
    other table's objects overlap.  Loading one more table adds it and leaves
    the others. *)

From S2P Require Import Prelude LibC Buffers BasString BasProbe BasHashTypes BasTable ShmMem.
From S2P Require Import ShmAlloc ShmMemFacts ShmHash ShmSearch ShmHashFacts.
From S2P Require Import ShmTableFacts ShmLoadFacts ShmKeyFacts ShmIndexFacts.

(** Rows, definitions, texts and fields, which only the loader of their own
    table writes. *)
Definition is_content (o : obj) : bool :=
  match o with O_row _ | O_std _ | O_text _ | O_fields _ => true | _ => false end.

Section catalogue.
Context `{BasGlobal} `{BasHashConst} `{Hlaws : !BasHashLaws} `{ShmLayout} `{Hsizes : !SizeLaws} (D : T_ShmAppDesc).
Abbreviation ABS := (ABSOLUTE_ADDRESS D).
Abbreviation REL := (RELATIVE_ADDRESS D).
Abbreviation base := (pvShmBuf D).
#[local] Set Default Proof Using "Type Hsizes Hlaws".

(** ** One loaded table *)

(** The index of a table and the addresses of its own objects [X]. *)
Definition index_rep (m : memory) (T : Z) (d : T_SearchTableDef) (c : Z) (keys : list bytes) (X : Z -> Prop) : Prop :=
  match eSearchType d with
  | SEARCH_TYPE_HASH => exists ht ppt l L n, ptHashTable d = REL ht /\
      table_inv D (insert_keys D c (iStdSize d) 0 keys ∅) m T ht ppt l L n /\ (forall a, X a <-> owned D ht ppt l a)
  | SEARCH_TYPE_TABLE => False
  | _ => exists ppc w, ppcKeys d = REL ppc /\ (index_shared = true -> ptHashTable d = REL ppc) /\ at_below D m T ppc (O_slots w) /\ texts_at D m T w keys /\ (forall a, X a <-> a = ppc)
  end.

Record loaded (m : memory) (T std : Z) (def : LocalTableDef) (keys : list bytes) (d : T_SearchTableDef) (c f : Z) (X : Z -> Prop) : Prop := {
  ld_rows : rows_loaded D m T std d c (cur_rows (l_cursor def));
  ld_type : eSearchType d = eSearchType (l_def def);
  ld_size : iStdSize d = iStdSize (l_def def);
  ld_length : iKeyDefArrayLength d = iKeyDefArrayLength (l_def def);
  ld_fields_pointer : ptKeyDefArray d = REL f;
  ld_fields : fields_at D m T f def;
  ld_keys : keys_of def (cur_rows (l_cursor def)) keys;
  ld_bytes : Forall is_row (cur_rows (l_cursor def));
  ld_bounds : 0 <= iKeyDefArrayLength (l_def def) /\ zlen (cur_rows (l_cursor def)) < 2 ^ 28;
  ld_index : index_rep m T d c keys X;
}.

(** A hash table's own objects are no content. *)
Lemma owned_object M m T ht ppt l L n a :
  table_inv D M m T ht ppt l L n -> owned D ht ppt l a -> exists o, at_below D m T a o /\ is_content o = false /\ as_buf o = None.
Proof.
  intros [[Htab Hs Hblk Hbr] _ _ _] [->|[->|[->|(w & Hw & Hne & ->)]]].
  - eexists. by split_and!.
  - eexists. split_and!; [apply Hs|done|done].
  - destruct (sr_array _ _ _ _ _ _ Hs) as (_ & Hr & _). eexists. split_and!; [split; [exact Hblk|]|done|done].
    cbn [used_block sizeof]. unfold sizeof_T_MemoryBlock. lia.
  - apply list_elem_of_lookup_1 in Hw as (i & Hi). destruct (Forall2_lookup_l _ _ _ _ _ (sr_entries _ _ _ _ _ _ Hs) Hi) as (o & Ho & Hrep).
    destruct o as [kv|]; [|done]. destruct Hrep as (_ & pk & He & _). eexists. by split_and!.
Qed.

Lemma index_object m T d c keys X a : index_rep m T d c keys X -> X a -> exists o, at_below D m T a o /\ is_content o = false /\ as_buf o = None.
Proof.
  unfold index_rep. destruct (eSearchType d); try done.
  - intros (ht & ppt & l & L & n & _ & Hi & HX) Ha%HX. by eapply owned_object.
  - intros (ppc & w & _ & _ & Hw & _ & HX) ->%HX. eexists. by split_and!.
  - intros (ppc & w & _ & _ & Hw & _ & HX) ->%HX. eexists. by split_and!.
Qed.

(** A command that writes neither content nor the index leaves the table. *)
Definition spares (m : memory) (X W : Z -> Prop) : Prop :=
  forall a, W a -> ~ X a /\ forall o, m !! a = Some o -> is_content o = false.

Lemma content_kept (X W : Z -> Prop) E T s T' s' a o :
  at_below D (mem s) T a o -> is_content o = true -> grows D E W T s T' s' -> spares (mem s) X W -> at_below D (mem s') T' a o.
Proof.
  intros Ha Hc Hg HW. eapply at_below_grows; [exact Ha|exact Hg|]. intros Hw. destruct Ha as (Ha & _), (HW a Hw) as [_ Hno].
  pose proof (Hno o Ha). congruence.
Qed.

Lemma index_kept (W : Z -> Prop) E T s T' s' d c keys X :
  index_rep (mem s) T d c keys X -> grows D E W T s T' s' -> (forall a, W a -> ~ X a /\ forall t, mem s !! a <> Some (O_text t)) ->
  index_rep (mem s') T' d c keys X.
Proof.
  intros Hi Hg HW. unfold index_rep in *. destruct (eSearchType d); [|..|done| ].
  - destruct Hi as (ht & ppt & l & L & n & E1 & Ht & HX). exists ht, ppt, l, L, n. split_and!; [done| |done].
    eapply table_inv_frame; [exact Ht|apply Hg|apply Hg|]. intros a Ha. destruct (HW a Ha) as [Hx Ht']. split; [by rewrite <- HX|done].
  - destruct Hi as (ppc & w & E1 & E2 & Hw & Hts & HX). exists ppc, w. split_and!; [done|done| | |done].
    + eapply at_below_grows; [exact Hw|exact Hg|]. intros Ha. destruct (HW _ Ha) as [Hx _]. by apply Hx, HX.
    + eapply Forall2_impl; [exact Hts|]. intros x k Hx. eapply at_below_grows; [exact Hx|exact Hg|]. intros Ha.
      destruct (HW _ Ha) as [_ Ht]. by apply (Ht k), Hx.
  - destruct Hi as (ppc & w & E1 & E2 & Hw & Hts & HX). exists ppc, w. split_and!; [done|done| | |done].
    + eapply at_below_grows; [exact Hw|exact Hg|]. intros Ha. destruct (HW _ Ha) as [Hx _]. by apply Hx, HX.
    + eapply Forall2_impl; [exact Hts|]. intros x k Hx. eapply at_below_grows; [exact Hx|exact Hg|]. intros Ha.
      destruct (HW _ Ha) as [_ Ht]. by apply (Ht k), Hx.
Qed.

Lemma loaded_kept (W : Z -> Prop) E T s T' s' std def keys d c f X :
  loaded (mem s) T std def keys d c f X -> grows D E W T s T' s' -> spares (mem s) X W -> loaded (mem s') T' std def keys d c f X.
Proof.
  intros [Hr Ht Hz Hl Hp Hf Hk Hby Hbd Hi] Hg HW. split; [|done..| |done|done|done|].
  - eapply rows_loaded_grows; [exact Hr|exact Hg|]. intros a o Ha Ho. destruct (HW a Ha) as [_ Hno]. specialize (Hno o Ho). by destruct o.
  - intros Hpos. eapply content_kept; [by apply Hf|done|exact Hg|exact HW].
  - eapply index_kept; [exact Hi|exact Hg|]. intros a Ha. destruct (HW a Ha) as [Hx Hno]. split; [done|]. intros t Ho. by specialize (Hno _ Ho).
Qed.

(** ** The table of the names *)

Inductive section_rep (m : memory) (T : Z) (b : T_ShmSearchBuf) (M : gmap bytes Z) (k : Z) : (Z -> Prop) -> Prop :=
  | section_none : zget (aptHashTable b) (iSection b) = Ok SHM_NULL -> M = ∅ -> section_rep m T b M k (λ _, False)
  | section_some ht ppt l L n :
      zget (aptHashTable b) (iSection b) = Ok (REL ht) -> table_inv D M m T ht ppt l L n -> n <= k ->
      section_rep m T b M k (owned D ht ppt l).

(** [k] loads have been made, [C] are the tables. *)
Record catalogue (E T : Z) (s : shm) (k : Z) (C : gmap bytes (Z * LocalTableDef)) : Prop := {
  ca_heap : heap_ok D E T s;
  ca_count : 0 <= k;
  ca_section : exists b Y, at_below D (mem s) T base (O_buf b) /\ bSupport7x24 b <> BAS_TRUE /\
    section_rep (mem s) T b ((λ p, REL p.1) <$> C) k Y /\
    forall name std def, C !! name = Some (std, def) ->
      exists keys d c f X, loaded (mem s) T std def keys d c f X /\ (forall a, X a -> ~ Y a);
}.

Lemma section_table_rep E T s b M k Y :
  heap_ok D E T s -> at_below D (mem s) T base (O_buf b) -> bSupport7x24 b <> BAS_TRUE -> section_rep (mem s) T b M k Y -> 0 <= k ->
  sizeof_T_HashTable < 2 ^ 62 -> T + create_need + 40 <= E ->
  exists s' T' b' ht ppt l L n, runs (section_table D) s (REL ht) s' /\ grows D E (only base) T s T' s' /\ T' <= T + create_need /\
    at_below D (mem s') T' base (O_buf b') /\ bSupport7x24 b' = bSupport7x24 b /\ zget (aptHashTable b') (iSection b') = Ok (REL ht) /\
    table_inv D M (mem s') T' ht ppt l L n /\ n <= k /\ (forall a, owned D ht ppt l a -> Y a \/ T <= a) /\ base <= ht.
Proof.
  intros Ho Hb H7 Hsec Hk Hst Hroom.
  assert (load_section b = iSection b) as Els by (unfold load_section; by destruct (Z.eqb_spec (bSupport7x24 b) BAS_TRUE)).
  assert (0 <= create_need) as Hcn.
  { unfold create_need. pose proof init_size_range. assert (0 <= calcActualSize sizeof_T_HashTable) by (apply uwrap_range; lia). lia. }
  destruct Hsec as [Hz ->|ht ppt l L n Hz Hi Hn].
  - destruct (create_grows D E T s Ho Hst Hroom) as (s1 & ppt & l & L & Hr1 & Hg1 & Hi1 & How1). set (T1 := T + create_need) in *.
    pose proof (at_below_grows _ _ _ _ _ _ _ _ _ Hb Hg1 ltac:(not_written)) as Hb1.
    set (tables := <[Z.to_nat (iSection b) := REL (T + 40)]> (aptHashTable b)).
    set (b' := mk_search_buf (bSupport7x24 b) (iSection b) tables).
    destruct (overwrite D E T1 s1 base _ (O_buf b') (g_ok _ _ _ _ _ _ _ Hg1) Hb1) as (s2 & Hr2 & Hg2 & Hb2); [done|].
    pose proof (zget_Ok_range _ _ _ Hz) as Hrange. assert (base < T) as Hbt by (destruct Hb as (_ & ? & _); lia).
    exists s2, T1, b', (T + 40), ppt, l, L, 0. split_and!; [| |lia|done|done| | |done|intros a Ha; right; by apply How1|lia].
    + unfold section_table. eapply runs_bind; [eapply runs_load; [apply Hb|done]|]. rewrite Els.
      eapply runs_bind; [by apply runs_pure|]. rewrite Z.eqb_refl. eapply runs_bind; [exact Hr1|].
      rewrite (rel_not_null D E T s T Ho) by lia. eapply runs_bind; [eapply runs_load; [apply Hb1|done]|]. rewrite Els.
      eapply runs_bind; [by apply runs_pure, zset_in_range|]. eapply runs_bind; [exact Hr2|]. done.
    + eapply grows_step; [exact Hg1|done|eapply grows_weaken; [exact Hg2|written]].
    + cbn [b' aptHashTable iSection]. apply zget_lookup; [lia|]. unfold tables. apply list_lookup_insert_eq. unfold zlen in Hrange. lia.
    + eapply (table_inv_frame D ∅ (only base)); [exact Hi1|lia|apply Hg2|]. intros a ->. split.
      * intros Hw%How1. lia.
      * intros t Ht. destruct Hb1 as (Hb1 & _). congruence.
  - destruct (tr_table _ _ _ _ _ _ _ _ (ti_rep _ _ _ _ _ _ _ _ _ Hi)) as (_ & Hrt & _).
    exists s, T, b, ht, ppt, l, L, n. split_and!; [|by apply grows_refl|lia|done|done|done|done|done|by left|lia].
    unfold section_table. eapply runs_bind; [eapply runs_load; [apply Hb|done]|]. rewrite Els.
    eapply runs_bind; [by apply runs_pure|]. assert (REL ht =? SHM_NULL = false) as -> by (unfold RELATIVE_ADDRESS, SHM_NULL; lia). done.
Qed.

Lemma insert_grows M N E T ht ppt l L n key pk v s :
  heap_ok D E T s -> table_inv D M (mem s) T ht ppt l L n -> at_below D (mem s) T (ABS pk) (O_text key) -> cstring key ->
  sizeof_T_HashEntry < 2 ^ 62 -> n <= N -> max_slots N * BAS_HASHTABLE_EXPAND_MULTIPLICAND <= 1073741824 ->
  T + insert_need (max_slots N) + 40 <= E ->
  exists s' T' ppt' l' L' n', runs (shmHashTableInsert D (REL ht) pk v) s 0 s' /\ T' <= T + insert_need (max_slots N) /\
    grows D E (owned D ht ppt l) T s T' s' /\ table_inv D (<[key := v]> M) (mem s') T' ht ppt' l' L' n' /\ n' <= n + 1 /\
    (forall a, owned D ht ppt' l' a -> owned D ht ppt l a \/ T <= a).
Proof.
  intros [Ht Hd] Hi Htxt Hc Hse Hn HN Hroom. pose proof multiplicand_range as Hmul.
  pose proof (ti_size _ _ _ _ _ _ _ _ _ Hi) as Hsz. change (zlen l <= max_slots n) in Hsz. pose proof (max_slots_mono n N Hn) as Hm.
  pose proof (insert_need_mono (zlen l) (max_slots N)) as Hin. specialize (Hin ltac:(lia)).
  destruct (insert_rep D M (mem s) E T ht ppt l L n key pk v s)
    as (m' & T' & ppt' & l' & L' & n' & Hr & HT' & Ht' & Hd' & Hi' & Hn' & Hf & How); [done..|nia|lia|].
  exists (mk_shm m' T' (iLogFlag s)), T', ppt', l', L', n'. split_and!; [exact Hr|lia| |exact Hi'|done|exact How].
  split; [lia|by split|exact Hf|done].
Qed.

(** ** Building the index *)

Definition index_need (keys : list bytes) : Z := Z.max (hash_index_need keys) (key_index_need keys).

Lemma build_index_rep def E T s std d c keys :
  let rows := cur_rows (l_cursor def) in
  heap_ok D E T s -> rows_loaded D (mem s) T std d c rows -> Forall is_row rows -> keys_of def rows keys ->
  eSearchType d <> SEARCH_TYPE_TABLE -> sizeof_T_HashTable < 2 ^ 62 -> sizeof_T_HashEntry < 2 ^ 62 ->
  zlen keys < 2 ^ 56 -> max_slots (zlen keys) * BAS_HASHTABLE_EXPAND_MULTIPLICAND <= 1073741824 -> T + index_need keys + 40 <= E ->
  exists s' T' h k t X, runs (build_index D def std) s 0 s' /\ grows D E (only std) T s T' s' /\ T' <= T + index_need keys /\
    rows_loaded D (mem s') T' std (set_index h k t d) c rows /\ index_rep (mem s') T' (set_index h k t d) c keys X /\
    (forall a, X a -> T <= a).
Proof using All.
  intros rows Ho Hl Hbytes Hkeys Hty Hst Hse Hmax HN Hroom. unfold index_need in *.
  assert (forall p, exists h k t, set_ptHashTable p d = set_index h k t d) as Hh by (intros; unfold set_ptHashTable; case_match; eauto).
  assert (forall p, exists h k t, set_ppcKeys p d = set_index h k t d) as Hk by (intros; unfold set_ppcKeys; case_match; eauto).
  assert (eSearchType d = SEARCH_TYPE_HASH -> exists s' T' h k t X, runs (hash_index D def std) s 0 s' /\ grows D E (only std) T s T' s' /\
    T' <= T + hash_index_need keys /\ rows_loaded D (mem s') T' std (set_index h k t d) c rows /\ index_rep (mem s') T' (set_index h k t d) c keys X /\
    (forall a, X a -> T <= a)) as Hhash.
  { intros Ety. destruct (hash_index_rep D def E T s std d c rows keys) as (s' & T' & ht & ppt & l & L & n & Hr & Hg & HT' & Hl' & Hi & How); [done..|lia|].
    destruct (set_ptHashTable_same (REL ht) d) as (E1 & _ & _ & E4). destruct (Hh (REL ht)) as (h & k & t & Eh). rewrite Eh in *.
    exists s', T', h, k, t, (owned D ht ppt l). split_and!; [done..| |exact How].
    unfold index_rep. cbn [set_index eSearchType]. rewrite Ety. exists ht, ppt, l, L, n. rewrite E4. split_and!; [exact E1|exact Hi|done]. }
  assert (eSearchType d <> SEARCH_TYPE_HASH -> exists s' T' h k t X, runs (key_index D def std) s 0 s' /\ grows D E (only std) T s T' s' /\
    T' <= T + key_index_need keys /\ rows_loaded D (mem s') T' std (set_index h k t d) c rows /\ index_rep (mem s') T' (set_index h k t d) c keys X /\
    (forall a, X a -> T <= a)) as Hbin.
  { intros Ety. destruct (key_index_rep D def E T s std d c rows keys) as (s' & T' & ppc & w & Hr & Hg & HT' & Hl' & Hw & Hts & Hge); [done..|lia|].
    destruct (set_ppcKeys_same (REL ppc) d) as (E1 & _). pose proof (set_ppcKeys_shared (REL ppc) d) as E2. destruct (Hk (REL ppc)) as (h & k & t & Eh). rewrite Eh in *.
    exists s', T', h, k, t, (only ppc). split_and!; [done..| |by intros a ->].
    unfold index_rep. cbn [set_index eSearchType]. destruct (eSearchType d); [done| |done|]; exists ppc, w; by split_and!. }
  assert (eSearchType d = SEARCH_TYPE_HASH \/ eSearchType d <> SEARCH_TYPE_HASH) as [Ety|Ety] by (destruct (eSearchType d); auto).
  - destruct (Hhash Ety) as (s' & T' & h & k & t & X & Hr & Hg & HT' & Hrest). exists s', T', h, k, t, X. split_and!; [|exact Hg|lia|apply Hrest..].
    unfold build_index. eapply runs_bind; [eapply runs_load; [apply Hl|done]|]. by rewrite Ety.
  - destruct (Hbin Ety) as (s' & T' & h & k & t & X & Hr & Hg & HT' & Hrest). exists s', T', h, k, t, X. split_and!; [|exact Hg|lia|apply Hrest..].
    unfold build_index. eapply runs_bind; [eapply runs_load; [apply Hl|done]|]. by destruct (eSearchType d).
Qed.
End catalogue.

(** ** Loading a table into the catalogue

    The name and the definition, the rows, the index; what lay in the segment
    before is left to the tables that own it. *)

Section load.
Context `{BasGlobal} `{BasHashConst} `{Hlaws : !BasHashLaws} `{ShmLayout} `{Hsizes : !SizeLaws} (D : T_ShmAppDesc).
Abbreviation ABS := (ABSOLUTE_ADDRESS D).
Abbreviation REL := (RELATIVE_ADDRESS D).
Abbreviation base := (pvShmBuf D).
Hypotheses (Hst : sizeof_T_HashTable < 2 ^ 62) (Hse : sizeof_T_HashEntry < 2 ^ 62).
#[local] Set Default Proof Using "All".

(** What the first four commands take. *)
Definition name_need (k : Z) (def : LocalTableDef) : Z :=
  create_need + calcActualSize (zlen (l_name def) + 1) + std_need def + insert_need (max_slots k).

(** Below the old end only the search buffer and the table of the names are
    written. *)
Definition load_writes (Y : Z -> Prop) (a : Z) : Prop := a = base \/ Y a.

Lemma name_need_nonneg k def : 0 <= k -> 0 <= name_need k def.
Proof.
  intros Hk. unfold name_need, create_need, std_need, fields_need. pose proof init_size_range. pose proof multiplicand_range.
  assert (0 <= max_slots k) as Hms by (unfold max_slots; nia). pose proof (insert_need_pos (max_slots k) Hms Hse).
  assert (forall z, 0 <= calcActualSize z) as Hc by (intros; apply uwrap_range; lia). pose proof (Hc sizeof_T_HashTable).
  pose proof (Hc sizeof_T_SearchTableDef). pose proof (Hc (zlen (l_name def) + 1)).
  pose proof (Hc (sizeof_T_SearchFieldDef * iKeyDefArrayLength (l_def def))). lia.
Qed.

Lemma name_rep E T s b M k Y def :
  heap_ok D E T s -> at_below D (mem s) T base (O_buf b) -> bSupport7x24 b <> BAS_TRUE -> section_rep D (mem s) T b M k Y -> 0 <= k ->
  def_ok def -> max_slots k * BAS_HASHTABLE_EXPAND_MULTIPLICAND <= 1073741824 -> T + name_need k def + 40 <= E ->
  exists s1 s2 s3 s4 T4 ht pk std, 
    runs (section_table D) s (REL ht) s1 /\ runs (new_text D (l_name def)) s1 (REL pk) s2 /\ runs (new_std D def) s2 (REL std) s3 /\
    runs (shmHashTableInsert D (REL ht) (REL pk) (REL std)) s3 0 s4 /\ base <= ht /\ base <= pk /\ T <= std /\
    grows D E (load_writes Y) T s T4 s4 /\ T4 <= T + name_need k def /\
    (exists b' ppt l L n, at_below D (mem s4) T4 base (O_buf b') /\ bSupport7x24 b' <> BAS_TRUE /\
      zget (aptHashTable b') (iSection b') = Ok (REL ht) /\ table_inv D (<[l_name def := REL std]> M) (mem s4) T4 ht ppt l L n /\ n <= k + 1 /\
      (forall a, owned D ht ppt l a -> Y a \/ T <= a)) /\
    exists name f, at_below D (mem s4) T4 std (O_std (copied_std D def name f)) /\ fields_at D (mem s4) T4 f def.
Proof.
  intros Ho Hb H7 Hsec Hk Hdef HN Hroom. unfold name_need in *. pose proof (do_name _ Hdef) as [Hnc Hnl]. pose proof (zlen_nonneg (l_name def)).
  assert (0 <= max_slots k) as Hms by (unfold max_slots; pose proof init_size_range; pose proof multiplicand_range; nia).
  pose proof (insert_need_pos (max_slots k) Hms Hse) as Hip.
  assert (0 <= std_need def) as Hsn.
  { unfold std_need, fields_need. assert (forall z, 0 <= calcActualSize z) as Hc by (intros; apply uwrap_range; lia).
    pose proof (Hc sizeof_T_SearchTableDef). pose proof (Hc (zlen (l_name def) + 1)).
    pose proof (Hc (sizeof_T_SearchFieldDef * iKeyDefArrayLength (l_def def))). lia. }
  pose proof (calcActualSize_bounds (zlen (l_name def) + 1) ltac:(lia)) as Hact.
  destruct (section_table_rep D E T s b M k Y Ho Hb H7 Hsec Hk Hst)
    as (s1 & T1 & b' & ht & ppt & l & L & n & Hr1 & Hg1 & HT1 & Hb1 & E7 & Hz1 & Hi1 & Hn1 & How1 & Hht); [lia|].
  pose proof (g_le _ _ _ _ _ _ _ Hg1) as HTle1. pose proof (ho_range _ _ _ _ Ho) as HTr.
  destruct (new_text_grows D E T1 (l_name def) s1 (g_ok _ _ _ _ _ _ _ Hg1) Hnl) as (s2 & Hr2 & Hg2 & Ht2); [lia|].
  set (T2 := T1 + calcActualSize (zlen (l_name def) + 1)) in *.
  destruct (new_std_rep D def E T2 s2 (g_ok _ _ _ _ _ _ _ Hg2) Hdef) as (s3 & name & f & Hr3 & Hg3 & Ha3 & Hf3); [lia|].
  set (T3 := T2 + std_need def) in *.
  assert (table_inv D M (mem s3) T3 ht ppt l L n) as Hi3.
  { eapply table_inv_mono; [|exact (g_le _ _ _ _ _ _ _ Hg3)|apply Hg3]. eapply table_inv_mono; [exact Hi1|exact (g_le _ _ _ _ _ _ _ Hg2)|apply Hg2]. }
  pose proof (at_below_grows _ _ _ _ _ _ _ _ _ Ht2 Hg3 ltac:(not_written)) as Ht3.
  destruct (insert_grows D M k E T3 ht ppt l L n (l_name def) (REL (T1 + 40)) (REL (T2 + 40)) s3 (g_ok _ _ _ _ _ _ _ Hg3) Hi3)
    as (s4 & T4 & ppt' & l' & L' & n' & Hr4 & HT4 & Hg4 & Hi4 & Hn4 & How4); [by rewrite abs_rel|done|done|done|done|lia|].
  pose proof (g_le _ _ _ _ _ _ _ Hg4) as HTle4.
  (* what the insertion leaves *)
  assert (forall a o, at_below D (mem s3) T3 a o -> ~ owned D ht ppt l a -> at_below D (mem s4) T4 a o) as Hkeep
    by (intros a o Ha Hno; by eapply at_below_grows).
  assert (forall a o, at_below D (mem s3) T3 a o -> is_content o = true -> ~ owned D ht ppt l a) as Hcontent.
  { intros a o (Ha & _) Hc Hw. destruct (owned_object D M (mem s3) T3 ht ppt l L n a Hi3 Hw) as (o' & (Ho' & _) & Hc' & _). congruence. }
  assert (at_below D (mem s3) T3 base (O_buf b')) as Hb3
    by (eapply at_below_grows; [eapply at_below_grows; [exact Hb1|exact Hg2|not_written]|exact Hg3|not_written]).
  exists s1, s2, s3, s4, T4, ht, (T1 + 40), (T2 + 40). split_and!; [done|done|done|done|done|lia|lia| |lia| |].
  - eapply grows_step; [exact Hg1|by left|]. eapply grows_same; [eapply grows_weaken; [exact Hg2|done]|].
    eapply grows_same; [eapply grows_weaken; [exact Hg3|done]|].
    eapply grows_weaken; [exact Hg4|]. intros a _ [Ha|Ha]%How1; [by left; right|by right].
  - exists b', ppt', l', L', n'. split_and!; [|congruence|done|exact Hi4|lia|].
    + apply Hkeep; [exact Hb3|]. intros Hw. destruct (owned_object D M (mem s3) T3 ht ppt l L n base Hi3 Hw) as (o & (Ho' & _) & _ & Hbuf).
      destruct Hb3 as (Hb3 & _). rewrite Hb3 in Ho'. by injection Ho' as <-.
    + intros a Ha. destruct (How4 a Ha) as [Ha'|]; [by apply How1|right; lia].
  - exists name, f. split.
    + apply Hkeep; [exact Ha3|by eapply Hcontent].
    + intros Hpos. specialize (Hf3 Hpos). apply Hkeep; [exact Hf3|by eapply Hcontent].
Qed.

(** ** The whole load *)

Record load_ok (def : LocalTableDef) (keys : list bytes) : Prop := {
  lk_def : def_ok def;
  lk_rows : rows_ok def;
  lk_room : cur_room (l_cursor def) = true;
  lk_bytes : Forall is_row (cur_rows (l_cursor def));
  lk_keys : keys_of def (cur_rows (l_cursor def)) keys;
  lk_type : eSearchType (l_def def) <> SEARCH_TYPE_TABLE;
  lk_slots : max_slots (zlen keys) * BAS_HASHTABLE_EXPAND_MULTIPLICAND <= 1073741824;
}.

Definition load_need (k : Z) (def : LocalTableDef) (keys : list bytes) : Z :=
  name_need k def + rows_need def + index_need keys.

Lemma rows_need_nonneg def : rows_ok def -> 0 <= rows_need def.
Proof. intros [_ _ Hsz _ _ _]. unfold rows_need. pose proof (zlen_nonneg (cur_rows (l_cursor def))). nia. Qed.

Lemma index_need_nonneg keys : 0 <= index_need keys.
Proof.
  unfold index_need, key_index_need. assert (0 <= calcActualSize (8 * zlen keys)) by (apply uwrap_range; lia).
  pose proof (texts_need_nonneg keys). lia.
Qed.

Lemma load_need_nonneg k def keys : 0 <= k -> load_ok def keys -> 0 <= load_need k def keys.
Proof.
  intros Hk Hl. unfold load_need. pose proof (name_need_nonneg k def Hk). pose proof (rows_need_nonneg def (lk_rows _ _ Hl)).
  pose proof (index_need_nonneg keys). lia.
Qed.

(** The log message reads the free block. *)
Lemma log_reads E T s : heap_ok D E T s ->
  runs (flag ← get_log_flag; _ ← (if flag =? 1 then p ← get_free_block; _ ← load as_block p; mret tt else mret tt); mret 0) s 0 s.
Proof.
  intros [[Hf (b & Hb & _) _] _]. eapply runs_bind; [done|]. eapply runs_bind; [|done].
  destruct (iLogFlag s =? 1); [|done]. eapply runs_bind; [done|]. rewrite Hf. eapply runs_bind; [by eapply runs_load|]. done.
Qed.

(** The rows and the index of a table whose definition is there. *)
Lemma contents_rep def keys E T s std name f :
  heap_ok D E T s -> load_ok def keys -> at_below D (mem s) T std (O_std (copied_std D def name f)) -> fields_at D (mem s) T f def ->
  T + rows_need def + index_need keys + 40 <= E ->
  exists s1 s' T' d c X, runs (load_rows D def std) s 0 s1 /\ runs (build_index D def std) s1 0 s' /\ grows D E (only std) T s T' s' /\
    T' <= T + rows_need def + index_need keys /\ loaded D (mem s') T' std def keys d c f X /\ (forall a, X a -> T <= a).
Proof.
  intros Ho [Hdef Hrok Hroom Hbytes Hkeys Hty HN] Hstd Hf HE. pose proof (rows_need_nonneg _ Hrok). pose proof (index_need_nonneg keys).
  destruct (load_rows_rep D def E T s std _ Ho Hrok Hstd) as (s1 & T1 & cap & Hr1 & Hg1 & HT1 & Ha1 & Hrows1); [done|lia|].
  set (d1 := with_rows D def cap (T + 40) (copied_std D def name f)) in *.
  assert (rows_loaded D (mem s1) T1 std d1 (T + 40) (cur_rows (l_cursor def))) as Hl1 by (by split).
  assert (zlen keys < 2 ^ 56) as Hmax.
  { unfold zlen. rewrite <- (Forall2_length _ _ _ Hkeys). pose proof (ro_count _ Hrok) as Hc. unfold zlen in Hc. cbn in *. lia. }
  destruct (build_index_rep D def E T1 s1 std d1 (T + 40) keys (g_ok _ _ _ _ _ _ _ Hg1) Hl1 Hbytes Hkeys Hty Hst Hse Hmax HN)
    as (s' & T' & h & k & t & X & Hr2 & Hg2 & HT2 & Hl2 & Hi2 & HX); [lia|].
  pose proof (g_le _ _ _ _ _ _ _ Hg1). assert (std < T) as Hlt by (destruct Hstd as (_ & ? & _); lia).
  assert (grows D E (only std) T s T' s') as Hg by (by eapply grows_same).
  exists s1, s', T', (set_index h k t d1), (T + 40), X. split_and!; [exact Hr1|exact Hr2|exact Hg|lia| |intros a Ha; specialize (HX a Ha); lia].
  split; [exact Hl2|done|done|done|done| |done|done| |exact Hi2]; [|split; [apply Hdef|apply Hrok]].
  intros Hpos. specialize (Hf Hpos). eapply at_below_grows; [exact Hf|exact Hg|]. intros Eq. destruct Hf as (Hf & _), Hstd as (Hstd & _).
  rewrite Eq in Hf. congruence.
Qed.

Lemma load_extends E T s k C def keys :
  catalogue D E T s k C -> load_ok def keys -> max_slots k * BAS_HASHTABLE_EXPAND_MULTIPLICAND <= 1073741824 ->
  T + load_need k def keys + 40 <= E ->
  exists s' T' std, runs (basLoadSearchTable D def) s 0 s' /\ catalogue D E T' s' (k + 1) (<[l_name def := (std, def)]> C) /\
    T' <= T + load_need k def keys.
Proof.
  intros [Ho Hk (b & Y & Hb & H7 & Hsec & HC)] Hload HN Hroom. unfold load_need in *.
  pose proof (rows_need_nonneg _ (lk_rows _ _ Hload)). pose proof (index_need_nonneg keys).
  destruct (name_rep E T s b _ k Y def Ho Hb H7 Hsec Hk (lk_def _ _ Hload) HN)
    as (s1 & s2 & s3 & s4 & T4 & ht & pk & std & Hr1 & Hr2 & Hr3 & Hr4 & Hht & Hpk & Hstd & Hg4 & HT4 & Hnew & name & f & Ha4 & Hf4); [lia|].
  destruct Hnew as (b' & ppt & l & L & n & Hb4 & H7' & Hz4 & Hi4 & Hn4 & How4).
  destruct (contents_rep def keys E T4 s4 std name f (g_ok _ _ _ _ _ _ _ Hg4) Hload Ha4 Hf4)
    as (s5 & s' & T' & d & c & X & Hr5 & Hr6 & Hg6 & HT6 & Hld & HX); [lia|].
  assert (forall p, base <= p -> REL p =? SHM_NULL = false) as Hnn by (intros; unfold RELATIVE_ADDRESS, SHM_NULL; lia).
  pose proof (ho_range _ _ _ _ Ho) as HTr.
  (* the commands after the definition write to it only *)
  assert (mem s4 !! std = Some (O_std (copied_std D def name f))) as Hm4 by apply Ha4.
  assert (spares (mem s) (λ _, False) (load_writes Y)) as Hsp0.
  { intros a Hw. split; [by intros []|]. intros o Ho'. destruct Hw as [->|Hw]; [destruct Hb as (Hb & _); by assert (o = O_buf b) as -> by congruence|].
    destruct Hsec as [_ _|ht0 ppt0 l0 L0 n0 _ Hi0 _]; [by destruct Hw|].
    destruct (owned_object D _ _ _ _ _ _ _ _ a Hi0 Hw) as (o' & (Ho'' & _) & Hc & _). congruence. }
  exists s', T', std. split_and!; [| |lia].
  - unfold basLoadSearchTable. eapply runs_bind; [exact Hr1|]. rewrite Hnn by done. rewrite (lk_room _ _ Hload). cbn [negb].
    eapply runs_bind; [exact Hr2|]. rewrite Hnn by done. eapply runs_bind; [exact Hr3|]. rewrite (Hnn std) by lia. rewrite abs_rel.
    eapply runs_bind; [exact Hr4|]. eapply runs_bind; [exact Hr5|]. eapply runs_bind; [exact Hr6|]. eapply log_reads, (g_ok _ _ _ _ _ _ _ Hg6).
  - split; [exact (g_ok _ _ _ _ _ _ _ Hg6)|lia|]. exists b', (owned D ht ppt l). split_and!; [|done| |].
    + eapply at_below_grows; [exact Hb4|exact Hg6|]. intros Eq. unfold only in Eq. destruct Hb as (_ & ? & _). lia.
    + rewrite fmap_insert. cbn [fst]. eapply section_some; [exact Hz4| |exact Hn4].
      eapply table_inv_frame; [exact Hi4|apply Hg6|apply Hg6|]. intros a ->. split.
      * intros Hw. destruct (owned_object D _ _ _ _ _ _ _ _ std Hi4 Hw) as (o' & (Ho' & _) & Hc & _). rewrite Hm4 in Ho'. by injection Ho' as <-.
      * intros t Ht. congruence.
    + intros name' std' def' Hl. destruct (decide (name' = l_name def)) as [->|Hne].
      * rewrite lookup_insert_eq in Hl. injection Hl as <- <-. exists keys, d, c, f, X. split; [exact Hld|].
        intros a Ha%HX Hw. destruct (owned_object D _ _ _ _ _ _ _ _ a Hi4 Hw) as (o' & (_ & ? & _) & _). lia.
      * rewrite lookup_insert_ne in Hl by done. destruct (HC _ _ _ Hl) as (keys' & d' & c' & f' & X' & Hld' & Hdis).
        assert (forall a, X' a -> a < T /\ a <> base) as HXa.
        { intros a Ha. destruct (index_object D _ _ _ _ _ _ a (ld_index _ _ _ _ _ _ _ _ _ _ Hld') Ha) as (o & (Hao & ? & _) & _ & Hbuf).
          split; [lia|]. intros ->. destruct Hb as (Hb & _). rewrite Hb in Hao. by injection Hao as <-. }
        exists keys', d', c', f', X'. split.
        -- eapply (loaded_kept D (load_writes Y)); [exact Hld'|eapply grows_step; [exact Hg4|done|eapply grows_weaken; [exact Hg6|]]|].
           ++ intros a _ ->. by right.
           ++ intros a Ha. split; [|by apply Hsp0]. intros Hx. destruct Ha as [->|Hy]; [by apply HXa in Hx as [_ ?]|by eapply Hdis].
        -- intros a Hx Hw. destruct (How4 a Hw) as [Hy|Hge]; [by eapply Hdis|]. apply HXa in Hx. lia.
Qed.
End load.
