(* ===== verification/ShmSearchFacts.v ===== *)
(** * The order of the keys

    [strcmp] is a total order on C strings; in a sorted array the halving and
    the scanning searches find the place of a key, and the keys with a given
    beginning lie next to each other. *)

From S2P Require Import Prelude LibC Buffers BasString BasProbe BasHashTypes BasTable ShmMem.
From S2P Require Import ShmAlloc ShmMemFacts ShmHash ShmSearch ShmHashFacts.
From S2P Require Import ShmTableFacts ShmLoadFacts ShmKeyFacts ShmIndexFacts ShmCatalogue.

Lemma strcmp_antisym a : forall b, strcmp b a = - strcmp a b.
Proof.
  induction a as [|x a IH]; intros [|y b]; simpl; try lia.
  destruct (Z.eqb_spec x y), (Z.eqb_spec y x); try lia. subst. destruct (y =? 0); [lia|apply IH].
Qed.

Lemma strcmp_refl a : strcmp a a = 0.
Proof. pose proof (strcmp_antisym a a). lia. Qed.

Lemma strcmp_le_trans a : forall b c, cstring a -> cstring b -> cstring c -> strcmp a b <= 0 -> strcmp b c <= 0 -> strcmp a c <= 0.
Proof.
  induction a as [|x a IH]; intros b c Ha Hb Hc; destruct b as [|y b], c as [|z c]; simpl; try lia;
    try (apply Forall_cons in Ha as [Hx Ha]); try (apply Forall_cons in Hb as [Hy Hb]); try (apply Forall_cons in Hc as [Hz Hc]); unfold cchar in *; try lia.
  destruct (Z.eqb_spec x y) as [->|], (Z.eqb_spec y z) as [->|].
  - destruct (Z.eqb_spec z 0); [lia|]. rewrite ?Z.eqb_refl. by apply IH.
  - lia.
  - destruct (Z.eqb_spec x z); [done|]. lia.
  - destruct (Z.eqb_spec x z); lia.
Qed.

(** Keys in the order of [strcmp]. *)
Definition sorted_keys (keys : list bytes) : Prop :=
  forall i j a b, (i <= j)%nat -> keys !! i = Some a -> keys !! j = Some b -> strcmp a b <= 0.

(** Above a key that is too large, all keys are. *)
Lemma sorted_above keys key i j a b :
  sorted_keys keys -> Forall cstring keys -> cstring key -> (i <= j)%nat -> keys !! i = Some a -> keys !! j = Some b ->
  0 < strcmp a key -> 0 < strcmp b key.
Proof.
  intros Hs Hk Hc Hij Ha Hb Hpos. pose proof (Hs i j a b Hij Ha Hb) as Hab. destruct (Z.lt_ge_cases 0 (strcmp b key)) as [|Hle]; [done|].
  pose proof (strcmp_le_trans a b key (Forall_lookup_1 _ _ _ _ Hk Ha) (Forall_lookup_1 _ _ _ _ Hk Hb) Hc Hab Hle). lia.
Qed.

Lemma sorted_at_least keys key i j a b :
  sorted_keys keys -> Forall cstring keys -> cstring key -> (i <= j)%nat -> keys !! i = Some a -> keys !! j = Some b ->
  0 <= strcmp a key -> 0 <= strcmp b key.
Proof.
  intros Hs Hk Hc Hij Ha Hb Hpos. pose proof (strcmp_antisym a key) as Ea. pose proof (strcmp_antisym b key) as Eb.
  pose proof (strcmp_le_trans key a b Hc (Forall_lookup_1 _ _ _ _ Hk Ha) (Forall_lookup_1 _ _ _ _ Hk Hb)) as Ht.
  specialize (Ht ltac:(lia) (Hs i j a b Hij Ha Hb)). lia.
Qed.

(** The place that separates the keys up to [key] from the others tells its
    last occurrence. *)
Lemma place_is_last keys key p :
  sorted_keys keys -> Forall cstring keys -> cstring key ->
  (forall i k, Z.of_nat i <= p -> keys !! i = Some k -> strcmp k key <= 0) ->
  (forall i k, p < Z.of_nat i -> keys !! i = Some k -> 0 < strcmp k key) ->
  (p = -1 -> last_place key keys = None) /\
  (forall k, 0 <= p -> keys !! Z.to_nat p = Some k -> last_place key keys = if strcmp k key =? 0 then Some (Z.to_nat p) else None).
Proof.
  intros Hs Hk Hc Hbelow Habove. assert (forall j, last_place key keys = Some j -> Z.of_nat j <= p) as Hmax.
  { intros j [Hj _]%last_place_Some. destruct (Z.lt_ge_cases p (Z.of_nat j)) as [Hlt|]; [|done].
    pose proof (Habove j key Hlt Hj). rewrite strcmp_refl in *. lia. }
  split.
  - intros ->. destruct (last_place key keys) as [j|]; [|done]. specialize (Hmax j eq_refl). lia.
  - intros k Hp Hkp. pose proof (strcmp_eq k key (Forall_lookup_1 _ _ _ _ Hk Hkp) Hc) as Heq. destruct (Z.eqb_spec (strcmp k key) 0) as [E|E].
    + apply Heq in E as ->. apply last_place_Some. split; [done|]. intros i Hi Hki. pose proof (Habove i key ltac:(lia) Hki).
      rewrite strcmp_refl in *. lia.
    + destruct (last_place key keys) as [j|] eqn:Ej; [|done]. pose proof (Hmax j eq_refl) as Hj. apply last_place_Some in Ej as [Ej _].
      pose proof (Hs j (Z.to_nat p) key k ltac:(lia) Ej Hkp). pose proof (strcmp_antisym k key).
      pose proof (Hbelow (Z.to_nat p) k ltac:(lia) Hkp). lia.
Qed.

(** ** Beginnings *)

Lemma prefix_between p k :
  cstring p -> Forall (λ c, 0 < c < 255) k -> p `prefix_of` k <-> 0 <= strcmp k p /\ strcmp k (p ++ [255]) <= 0.
Proof.
  intros Hp. revert k. induction Hp as [|x p Hx Hp IH]; intros k Hk.
  - split; [|intros _; apply prefix_nil]. intros _. destruct k as [|y k]; simpl; [lia|]. apply Forall_cons in Hk as [Hy _].
    destruct (Z.eqb_spec y 255); lia.
  - destruct k as [|y k]; simpl.
    + unfold cchar in Hx. split; [by intros ?%prefix_nil_not|lia].
    + apply Forall_cons in Hk as [Hy Hk]. destruct (Z.eqb_spec y x) as [->|Hne].
      * destruct (Z.eqb_spec x 0); [unfold cchar in Hx; lia|]. rewrite <- IH by done. split; [by intros ?%prefix_cons_inv_2|by apply prefix_cons].
      * split; [by intros ->%prefix_cons_inv_1|lia].
Qed.

(** ** The searches over an array of keys *)

Section searches.
Context `{BasHashConst} `{ShmLayout} (D : T_ShmAppDesc) (ptSTD : T_SearchTableDef) (s : shm) (keys : list bytes).
Hypotheses (Hcount : iContentCnt ptSTD = zlen keys)
  (Hkeys : forall i k, keys !! i = Some k -> runs (key_at D ptSTD (Z.of_nat i)) s k s).

#[local] Set Default Proof Using "Type Hkeys".

(** The halving search keeps a place that is not too large below one that is,
    and ends with neighbours. *)
Lemma bisect_loop_rep key : zlen keys < 2 ^ 30 -> forall fuel low high,
  -1 <= low < high -> high <= zlen keys -> high - low <= Z.of_nat fuel ->
  (forall i k, Z.of_nat i <= low -> keys !! i = Some k -> strcmp k key <= 0) ->
  (forall i k, high <= Z.of_nat i -> keys !! i = Some k -> 0 < strcmp k key) ->
  sorted_keys keys -> Forall cstring keys -> cstring key ->
  exists p, runs (bisect_loop D fuel ptSTD (Some key) low high) s p s /\ -1 <= p < zlen keys /\
    (forall i k, Z.of_nat i <= p -> keys !! i = Some k -> strcmp k key <= 0) /\
    (forall i k, p < Z.of_nat i -> keys !! i = Some k -> 0 < strcmp k key).
Proof.
  intros Hlen fuel. induction fuel as [|fuel IH]; intros low high Hl Hh Hf Hbelow Habove Hs Hk Hc; [lia|].
  cbn [bisect_loop]. destruct (Z.ltb_spec 1 (high - low)).
  - set (mid := Z.shiftr (low + high) 1). assert (low < mid < high) as Hmid.
    { unfold mid. rewrite Z.shiftr_div_pow2 by lia. change (2 ^ 1) with 2. div_lia. }
    destruct (lookup_lt_is_Some_2 keys (Z.to_nat mid)) as [k Hm]; [unfold zlen in *; lia|].
    pose proof (Hkeys _ _ Hm) as Hat. rewrite Z2Nat.id in Hat by lia.
    destruct (Z.ltb_spec 0 (strcmp k key)) as [Hgt|Hle].
    + destruct (IH low mid) as (p & Hr & Hp); [lia|lia|lia|done| |done|done|done|].
      { intros i x Hi Hx. eapply (sorted_above keys key (Z.to_nat mid) i k x); [done|done|done|lia|done|done|done]. }
      exists p. split; [|exact Hp]. eapply runs_bind; [apply runs_pure, int_range_ok; cbn in *; lia|]. fold mid.
      eapply runs_bind; [exact Hat|]. eapply runs_bind; [by apply runs_pure|]. destruct (Z.ltb_spec 0 (strcmp k key)); [exact Hr|lia].
    + destruct (IH mid high) as (p & Hr & Hp); [lia|lia|lia| |done|done|done|done|].
      { intros i x Hi Hx. destruct (Z.lt_ge_cases 0 (strcmp x key)) as [Hgt|]; [|done].
        pose proof (sorted_above keys key i (Z.to_nat mid) x k Hs Hk Hc ltac:(lia) Hx Hm Hgt). lia. }
      exists p. split; [|exact Hp]. eapply runs_bind; [apply runs_pure, int_range_ok; cbn in *; lia|]. fold mid.
      eapply runs_bind; [exact Hat|]. eapply runs_bind; [by apply runs_pure|]. destruct (Z.ltb_spec 0 (strcmp k key)); [lia|exact Hr].
  - exists low. split_and!; [done|lia|lia|done|]. intros i k Hi. apply Habove. lia.
Qed.

(** It finds the last place of a key, or another place when the key is not
    there. *)
Lemma bisect_rep key : zlen keys < 2 ^ 30 -> sorted_keys keys -> Forall cstring keys -> cstring key ->
  exists p, runs (bisect D ptSTD (Some key)) s p s /\ -1 <= p < zlen keys /\
    (forall i k, Z.of_nat i <= p -> keys !! i = Some k -> strcmp k key <= 0) /\
    (forall i k, p < Z.of_nat i -> keys !! i = Some k -> 0 < strcmp k key).
Proof using All.
  intros Hlen Hs Hk Hc. unfold bisect. rewrite Hcount. pose proof (zlen_nonneg keys). apply bisect_loop_rep; try done; try lia.
  intros i k Hi Hx%lookup_lt_Some. unfold zlen in *. lia.
Qed.

(** The scanning search stops at the first key that passes its test. *)
Lemma scan_keys_rep stop key : forall n i, (i + n = length keys)%nat ->
  exists p, runs (scan_keys D n stop ptSTD key (Z.of_nat i)) s (Z.of_nat p) s /\ (i <= p <= length keys)%nat /\
    (forall j k, (i <= j < p)%nat -> keys !! j = Some k -> stop (strcmp k key) = false) /\
    (forall k, keys !! p = Some k -> stop (strcmp k key) = true).
Proof.
  induction n as [|n IH]; intros i Hn; cbn [scan_keys].
  - exists i. split_and!; [done|lia|lia|lia|]. intros k Hp%lookup_lt_Some. lia.
  - destruct (lookup_lt_is_Some_2 keys i) as [k Hi]; [lia|]. destruct (stop (strcmp k key)) eqn:E.
    + exists i. split_and!; [|lia|lia|lia|by intros k' Hk'; assert (k' = k) as -> by congruence].
      eapply runs_bind; [by apply Hkeys|]. by rewrite E.
    + destruct (IH (S i)) as (p & Hr & Hp & Hno & Hyes); [lia|]. exists p. split_and!; [|lia|lia| |done].
      * eapply runs_bind; [by apply Hkeys|]. rewrite E. by replace (Z.of_nat i + 1) with (Z.of_nat (S i)) by lia.
      * intros j k' Hj Hk'. destruct (decide (j = i)) as [->|]; [by assert (k' = k) as -> by congruence|]. eapply Hno; [|done]. lia.
Qed.

Lemma scan_all_rep stop key : exists p, runs (scan_keys D (Z.to_nat (iContentCnt ptSTD)) stop ptSTD key 0) s (Z.of_nat p) s /\ (p <= length keys)%nat /\
    (forall j k, (j < p)%nat -> keys !! j = Some k -> stop (strcmp k key) = false) /\
    (forall k, keys !! p = Some k -> stop (strcmp k key) = true).
Proof using All.
  destruct (scan_keys_rep stop key (length keys) 0 ltac:(lia)) as (p & Hr & Hp & Hno & Hyes).
  exists p. rewrite Hcount. unfold zlen. rewrite Nat2Z.id. split_and!; [exact Hr|lia|intros j k Hj; apply Hno; lia|done].
Qed.

(** Between the two scans lie the keys with the given beginning. *)
Lemma prefix_scans key : sorted_keys keys -> Forall (Forall (λ c, 0 < c < 255)) keys -> cstring key ->
  exists low high, runs (lowbinarySearch D ptSTD key) s (Z.of_nat low) s /\ runs (highbinarySearch D ptSTD (key ++ [255])) s (Z.of_nat high) s /\
    (low <= high <= length keys)%nat /\
    forall i k, keys !! i = Some k -> key `prefix_of` k <-> (low <= i < high)%nat.
Proof using All.
  intros Hs Hk Hc. assert (Forall cstring keys) as Hks.
  { eapply Forall_impl; [exact Hk|]. intros k Hb. eapply Forall_impl; [exact Hb|]. simpl. unfold cchar. lia. }
  assert (cstring (key ++ [255])) as Hc' by (apply Forall_app; split; [done|]; constructor; [unfold cchar; lia|constructor]).
  destruct (scan_all_rep (λ c, 0 <=? c) key) as (low & Hr1 & Hl & Hno1 & Hyes1).
  destruct (scan_all_rep (λ c, 0 <? c) (key ++ [255])) as (high & Hr2 & Hh & Hno2 & Hyes2).
  assert (forall i k, keys !! i = Some k -> (low <= i)%nat <-> 0 <= strcmp k key) as Hlow.
  { intros i k Hi. split.
    - intros Hle. destruct (lookup_lt_is_Some_2 keys low) as [x Hx]; [pose proof (lookup_lt_Some _ _ _ Hi); lia|].
      pose proof (Hyes1 x Hx). eapply (sorted_at_least keys key low i x k); [done..|lia].
    - intros Hge. destruct (decide (low <= i)%nat); [done|]. pose proof (Hno1 i k ltac:(lia) Hi). cbn in *. lia. }
  assert (forall i k, keys !! i = Some k -> (high <= i)%nat <-> 0 < strcmp k (key ++ [255])) as Hhigh.
  { intros i k Hi. split.
    - intros Hle. destruct (lookup_lt_is_Some_2 keys high) as [x Hx]; [pose proof (lookup_lt_Some _ _ _ Hi); lia|].
      pose proof (Hyes2 x Hx). eapply (sorted_above keys (key ++ [255]) high i x k); [done..|lia].
    - intros Hge. destruct (decide (high <= i)%nat); [done|]. pose proof (Hno2 i k ltac:(lia) Hi). cbn in *. lia. }
  exists low, high. split_and!; [exact Hr1|exact Hr2| |lia|].
  - destruct (decide (low <= high)%nat); [done|]. destruct (lookup_lt_is_Some_2 keys high) as [x Hx]; [lia|].
    pose proof (proj1 (Hhigh high x Hx) ltac:(lia)) as Hgt. pose proof (Hno1 high x ltac:(lia) Hx) as Hlt. cbn in Hlt.
    pose proof (strcmp_antisym key (key ++ [255])). assert (strcmp key (key ++ [255]) <= 0) as Hle.
    { clear. induction key as [|y key IH]; simpl; [lia|]. rewrite Z.eqb_refl. by destruct (y =? 0); [lia|]. }
    pose proof (strcmp_le_trans x key (key ++ [255]) (Forall_lookup_1 _ _ _ _ Hks Hx) Hc Hc' ltac:(lia) Hle). lia.
  - intros i k Hi. rewrite prefix_between; [|done|by eapply (Forall_lookup_1 _ _ _ _ Hk)].
    pose proof (Hlow i k Hi) as HL. pose proof (Hhigh i k Hi) as HH. split.
    + intros [Ha Hb]. split; [by apply HL|]. destruct (decide (high <= i)%nat) as [Hge|]; [|lia]. apply HH in Hge. lia.
    + intros [Ha Hb]. split; [by apply HL|]. destruct (Z.lt_ge_cases 0 (strcmp k (key ++ [255]))) as [Hgt|]; [|done]. apply HH in Hgt. lia.
Qed.
End searches.

(** ** Searching the loaded tables

    The definition a searching process gets, and the row each kind of index
    gives for a key. *)

Section search.
Context `{BasGlobal} `{BasHashConst} `{Hlaws : !BasHashLaws} `{ShmLayout} `{Hsizes : !SizeLaws} (D : T_ShmAppDesc).
Abbreviation ABS := (ABSOLUTE_ADDRESS D).
Abbreviation REL := (RELATIVE_ADDRESS D).
Abbreviation base := (pvShmBuf D).
#[local] Set Default Proof Using "Type Hsizes Hlaws".

(** The definition with absolute addresses. *)
Definition absolute (d : T_SearchTableDef) : T_SearchTableDef :=
  let d := set_name (ABS (pcSearchName d)) d in
  let d := set_fields (ABS (ptKeyDefArray d)) d in
  let d := set_ptHashTable (ABS (ptHashTable d)) d in
  set_content (iContentSize d) (iContentCnt d) (ABS (pvContent d)) d.

Definition quiet (s : shm) : shm := mk_shm (mem s) (ptFreeBlock s) 0.

Lemma get_rep E T s k C name :
  catalogue D E T s k C -> cstring name ->
  match C !! name with
  | Some (std, def) => forall d, mem s !! std = Some (O_std d) ->
      runs (basGetShmSearchTableDef D true (Some name)) s (Some (absolute d)) (quiet s)
  | None => runs (basGetShmSearchTableDef D true (Some name)) s None (quiet s)
  end.
Proof.
  intros [Ho _ (b & Y & Hb & _ & Hsec & HC)] Hc. pose proof (ho_range _ _ _ _ Ho) as HTr.
  destruct Hsec as [Hz HM|ht ppt l L n Hz Hi Hn].
  - assert (C !! name = None) as ->.
    { apply fmap_None with (f := λ p : Z * LocalTableDef, REL p.1). rewrite <- lookup_fmap. by rewrite HM. }
    eapply runs_bind; [done|]. cbn [negb]. eapply runs_bind; [eapply runs_load; [apply Hb|done]|].
    eapply runs_bind; [apply runs_pure; exact Hz|]. by rewrite Z.eqb_refl.
  - destruct (tr_table _ _ _ _ _ _ _ _ (ti_rep _ _ _ _ _ _ _ _ _ Hi)) as (_ & Hrt & _).
    pose proof (search_rep D _ (mem s) T ht ppt l L n name (quiet s) eq_refl (ti_rep _ _ _ _ _ _ _ _ _ Hi) (ti_map _ _ _ _ _ _ _ _ _ Hi) Hc) as Hr.
    rewrite lookup_fmap in Hr.
    assert (forall r, (ptSTD ← shmHashTableSearch D ht name;
      if ptSTD =? NULL then mret None else d ← load as_std ptSTD; mret (Some (absolute d))) (quiet s) = r ->
      basGetShmSearchTableDef D true (Some name) s = r) as Hget.
    { intros r <-. eapply runs_bind; [done|]. cbn [negb]. eapply runs_bind; [eapply runs_load; [apply Hb|done]|].
      eapply runs_bind; [apply runs_pure; exact Hz|]. assert (REL ht =? SHM_NULL = false) as -> by (unfold RELATIVE_ADDRESS, SHM_NULL; lia).
      by rewrite abs_rel. }
    destruct (C !! name) as [[std def]|] eqn:E1; cbn [fmap option_fmap option_map fst] in Hr.
    + intros d Hd. apply Hget. destruct (HC _ _ _ E1) as (keys & d' & c & f & X & Hld & _).
      destruct (rl_std _ _ _ _ _ _ _ (ld_rows _ _ _ _ _ _ _ _ _ _ Hld)) as (_ & Hrs & _). rewrite abs_rel in Hr.
      eapply runs_bind; [exact Hr|]. destruct (Z.eqb_spec std NULL); [unfold NULL in *; lia|].
      eapply runs_bind; [eapply runs_load; [exact Hd|done]|]. done.
    + apply Hget. eapply runs_bind; [exact Hr|]. done.
Qed.

(** What the search for a key answers: the last row that has it. *)
Definition answers (m : memory) (rows keys : list bytes) (key : bytes) (a : Z) : Prop :=
  match last_place key keys with
  | Some j => exists row, rows !! j = Some row /\ m !! a = Some (O_row row)
  | None => a = NULL
  end.

Lemma fields_of_rep s T std def keys d c f X :
  loaded D (mem s) T std def keys d c f X ->
  exists fields, runs (fields_of (absolute d)) s fields s /\
    forall ap, formKeyVararg fields (iKeyDefArrayLength (absolute d)) ap = formKeyVararg (l_fields def) (iKeyDefArrayLength (l_def def)) ap.
Proof.
  intros [Hr Ht Hz Hl Hp Hf Hk Hby [Hpos _] Hi]. unfold fields_of.
  assert (iKeyDefArrayLength (absolute d) = iKeyDefArrayLength (l_def def)) as -> by (unfold absolute, set_ptHashTable; case_match; done).
  assert (ptKeyDefArray (absolute d) = f) as -> by (unfold absolute, set_ptHashTable; case_match; cbn; rewrite Hp, abs_rel; done).
  destruct (Z.ltb_spec 0 (iKeyDefArrayLength (l_def def))) as [Hlt|].
  - eexists. split; [eapply runs_load; [by apply Hf|done]|]. intros ap. apply formKeyVararg_take.
  - exists []. split; [done|]. intros ap. by replace (iKeyDefArrayLength (l_def def)) with 0 by lia.
Qed.

Lemma row_found m T std d c rows j row :
  rows_loaded D m T std d c rows -> rows !! j = Some row -> m !! (c + iStdSize d * Z.of_nat j) = Some (O_row row).
Proof. intros Hl Hj. by apply (rl_rows _ _ _ _ _ _ _ Hl). Qed.

Lemma search_hash_rep s T std def keys d c f X ap key :
  loaded D (mem s) T std def keys d c f X -> eSearchType (l_def def) = SEARCH_TYPE_HASH -> cstring key ->
  formKeyVararg (l_fields def) (iKeyDefArrayLength (l_def def)) ap = Ok (Some key) ->
  exists a, runs (search_hash D (absolute d) ap) s a s /\ answers (mem s) (cur_rows (l_cursor def)) keys key a.
Proof.
  intros Hld Hty Hc Hkey. destruct (fields_of_rep s _ _ _ _ _ _ _ _ Hld) as (fields & Hf & Hform).
  pose proof (ld_index _ _ _ _ _ _ _ _ _ _ Hld) as Hi. unfold index_rep in Hi. rewrite (ld_type _ _ _ _ _ _ _ _ _ _ Hld), Hty in Hi.
  destruct Hi as (ht & ppt & l & L & n & Eh & Hi & _).
  assert (ptHashTable (absolute d) = ht) as Eht.
  { unfold absolute, set_ptHashTable. case_match; cbn; by rewrite Eh, abs_rel. }
  pose proof (search_rep D _ (mem s) T ht ppt l L n key s eq_refl (ti_rep _ _ _ _ _ _ _ _ _ Hi) (ti_map _ _ _ _ _ _ _ _ _ Hi) Hc) as Hr.
  rewrite insert_keys_lookup in Hr. eexists. split.
  - unfold search_hash. eapply runs_bind; [exact Hf|]. rewrite Hform. eapply runs_bind; [by apply runs_pure|].
    eapply runs_bind; [by apply runs_pure|]. rewrite Eht. exact Hr.
  - unfold answers. destruct (last_place key keys) as [j|] eqn:Ej; [|done].
    apply last_place_Some in Ej as [Hj _]. destruct (Forall2_lookup_r _ _ _ _ _ (ld_keys _ _ _ _ _ _ _ _ _ _ Hld) Hj) as (row & Hrow & _).
    exists row. split; [done|]. rewrite abs_rel, Z.add_0_l. eapply row_found; [apply Hld|done].
Qed.

Lemma keys_cstring def rows keys : Forall is_row rows -> keys_of def rows keys -> Forall cstring keys.
Proof.
  intros Hr Hk. apply Forall_forall. intros k Hin. apply list_elem_of_lookup_1 in Hin as (i & Hi).
  destruct (Forall2_lookup_r _ _ _ _ _ Hk Hi) as (row & Hrow & Hf). by eapply formKey_is_key; [eapply (Forall_lookup_1 _ _ _ _ Hr Hrow)|].
Qed.

(** What the searches over the array of keys need of it. *)
Lemma binary_keys s T std def keys d c f X :
  loaded D (mem s) T std def keys d c f X -> eSearchType (l_def def) = SEARCH_TYPE_BINARY -> index_shared = true ->
  iContentCnt (absolute d) = zlen keys /\ (forall i k, keys !! i = Some k -> runs (key_at D (absolute d) (Z.of_nat i)) s k s) /\
  zlen keys < 2 ^ 30 /\ Forall cstring keys /\ pvContent (absolute d) = c /\ iStdSize (absolute d) = iStdSize d /\
  eSearchType (absolute d) = SEARCH_TYPE_BINARY.
Proof.
  intros Hld Hty Hsh. pose proof (ld_keys _ _ _ _ _ _ _ _ _ _ Hld) as Hk. pose proof (ld_rows _ _ _ _ _ _ _ _ _ _ Hld) as Hr.
  pose proof (ld_bounds _ _ _ _ _ _ _ _ _ _ Hld) as [_ Hb]. pose proof (ld_index _ _ _ _ _ _ _ _ _ _ Hld) as Hi. unfold index_rep in Hi.
  rewrite (ld_type _ _ _ _ _ _ _ _ _ _ Hld), Hty in Hi. destruct Hi as (ppc & w & _ & Eh & Hw & Hts & _). specialize (Eh Hsh).
  assert (zlen (cur_rows (l_cursor def)) = zlen keys) as Hlen by (unfold zlen; by rewrite (Forall2_length _ _ _ Hk)).
  unfold absolute, set_ptHashTable, key_at. rewrite Hsh. cbn [set_name set_fields set_index set_content iContentCnt ppcKeys pvContent iStdSize ptHashTable eSearchType].
  rewrite (rl_count _ _ _ _ _ _ _ Hr), (rl_content _ _ _ _ _ _ _ Hr), abs_rel, Eh, abs_rel, (ld_type _ _ _ _ _ _ _ _ _ _ Hld).
  split_and!; [done| |cbn in *; lia|by eapply keys_cstring; [apply Hld|]|done|done|done].
  intros i k Hi. destruct (Forall2_lookup_r _ _ _ _ _ Hts Hi) as (x & Hx & Ha).
  eapply runs_bind; [eapply runs_load_word; [apply Hw|apply zget_lookup; [lia|by rewrite Nat2Z.id]]|]. eapply runs_load; [apply Ha|done].
Qed.

Lemma search_binary_rep s T std def keys d c f X ap key :
  loaded D (mem s) T std def keys d c f X -> eSearchType (l_def def) = SEARCH_TYPE_BINARY -> index_shared = true ->
  sorted_keys keys -> cstring key ->
  formKeyVararg (l_fields def) (iKeyDefArrayLength (l_def def)) ap = Ok (Some key) ->
  exists a, runs (search_binary D (absolute d) ap) s a s /\ answers (mem s) (cur_rows (l_cursor def)) keys key a.
Proof.
  intros Hld Hty Hsh Hs Hc Hkey. destruct (fields_of_rep s _ _ _ _ _ _ _ _ Hld) as (fields & Hf & Hform).
  destruct (binary_keys s _ _ _ _ _ _ _ _ Hld Hty Hsh) as (Hcnt & Hat & Hlen & Hks & Epv & Esz & _).
  destruct (bisect_rep D (absolute d) s keys Hcnt Hat key Hlen Hs Hks Hc) as (p & Hr & Hp & Hbelow & Habove).
  destruct (place_is_last keys key p Hs Hks Hc Hbelow Habove) as [Hnone Hsome].
  assert (forall r, (low ← bisect D (absolute d) (Some key); if low =? -1 then mret NULL else
    k ← key_at D (absolute d) low; s ← pure_of (or_fault (Some key));
    if negb (strcmp k s =? 0) then mret NULL else mret (pvContent (absolute d) + iStdSize (absolute d) * low)) s = r -> search_binary D (absolute d) ap s = r) as Hrun.
  { intros r <-. unfold search_binary. eapply runs_bind; [exact Hf|]. rewrite Hform. eapply runs_bind; [by apply runs_pure|]. done. }
  unfold answers. destruct (decide (p = -1)) as [->|Hne].
  - exists NULL. split; [apply Hrun; eapply runs_bind; [exact Hr|done]|]. by rewrite Hnone.
  - destruct (lookup_lt_is_Some_2 keys (Z.to_nat p)) as [k Hk]; [unfold zlen in Hp; lia|].
    pose proof (Hat _ _ Hk) as Hka. rewrite Z2Nat.id in Hka by lia. specialize (Hsome k ltac:(lia) Hk). rewrite Hsome.
    exists (if strcmp k key =? 0 then c + iStdSize d * p else NULL). split.
    + apply Hrun. eapply runs_bind; [exact Hr|]. destruct (Z.eqb_spec p (-1)); [done|]. eapply runs_bind; [exact Hka|].
      eapply runs_bind; [by apply runs_pure|]. rewrite Epv, Esz. by destruct (strcmp k key =? 0).
    + destruct (strcmp k key =? 0); [|done]. destruct (Forall2_lookup_r _ _ _ _ _ (ld_keys _ _ _ _ _ _ _ _ _ _ Hld) Hk) as (row & Hrow & _).
      exists row. split; [done|]. pose proof (row_found _ _ _ _ _ _ _ _ (ld_rows _ _ _ _ _ _ _ _ _ _ Hld) Hrow) as Ha.
      by rewrite Z2Nat.id in Ha by lia.
Qed.

(** ** The catalogue answers *)

Lemma keys_of_inj def rows keys keys' : keys_of def rows keys -> keys_of def rows keys' -> keys = keys'.
Proof.
  unfold keys_of. intros Hk. revert keys'. induction Hk as [|row k rows keys Hrow Hk IH]; intros keys' Hk'.
  - by apply Forall2_nil_inv_l in Hk' as ->.
  - apply Forall2_cons_inv_l in Hk' as (k' & keys'' & Hrow' & Hk' & ->). f_equal; [congruence|by apply IH].
Qed.

Definition searchable (def : LocalTableDef) (keys : list bytes) : Prop :=
  eSearchType (l_def def) = SEARCH_TYPE_HASH \/
  eSearchType (l_def def) = SEARCH_TYPE_BINARY /\ index_shared = true /\ sorted_keys keys.

Lemma catalogue_search E T s k C name std def keys ap key :
  catalogue D E T s k C -> C !! name = Some (std, def) -> cstring name -> cstring key ->
  keys_of def (cur_rows (l_cursor def)) keys -> searchable def keys ->
  formKeyVararg (l_fields def) (iKeyDefArrayLength (l_def def)) ap = Ok (Some key) ->
  exists d a, runs (basGetShmSearchTableDef D true (Some name)) s (Some d) (quiet s) /\
    runs (basSearchTableByShmDef D (Some d) ap) (quiet s) a (quiet s) /\ answers (mem s) (cur_rows (l_cursor def)) keys key a.
Proof.
  intros Hcat HC Hn Hc Hkeys Hty Hkey. pose proof (get_rep E T s k C name Hcat Hn) as Hget. rewrite HC in Hget.
  destruct (ca_section _ _ _ _ _ _ Hcat) as (b & Y & _ & _ & _ & Hall). destruct (Hall _ _ _ HC) as (keys' & d & c & f & X & Hld & _).
  rewrite <- (keys_of_inj _ _ _ _ Hkeys (ld_keys _ _ _ _ _ _ _ _ _ _ Hld)) in Hld.
  assert (eSearchType (absolute d) = eSearchType (l_def def)) as Et.
  { rewrite <- (ld_type _ _ _ _ _ _ _ _ _ _ Hld). unfold absolute, set_ptHashTable. by case_match. }
  specialize (Hget d). assert (exists a, runs (basSearchTableByShmDef D (Some (absolute d)) ap) (quiet s) a (quiet s) /\
    answers (mem s) (cur_rows (l_cursor def)) keys key a) as (a & Hr & Ha).
  { unfold basSearchTableByShmDef. rewrite Et. destruct Hty as [Hty|(Hty & Hsh & Hs)]; rewrite Hty.
    - by eapply (search_hash_rep (quiet s)).
    - by eapply (search_binary_rep (quiet s)). }
  exists (absolute d), a. split; [|done]. apply Hget. by apply (rl_std _ _ _ _ _ _ _ (ld_rows _ _ _ _ _ _ _ _ _ _ Hld)).
Qed.

(** ** The iterator *)

Lemma catalogue_iterate E T s k C name std def keys iKeyCnt ap key :
  let n := Z.min iKeyCnt (iKeyDefArrayLength (l_def def)) in
  catalogue D E T s k C -> C !! name = Some (std, def) -> cstring name -> cstring key -> zlen key + 1 < 512 ->
  keys_of def (cur_rows (l_cursor def)) keys -> eSearchType (l_def def) = SEARCH_TYPE_BINARY -> index_shared = true ->
  sorted_keys keys -> Forall (Forall (λ c, 0 < c < 255)) keys ->
  form_vararg_loop (Z.to_nat n) (l_fields def) 0 ap [] = Ok (Some key) ->
  exists it low high, runs (basShmIterator D true true (Some name) iKeyCnt ap) s (Some it) (quiet s) /\
    iValueSize it = iStdSize (l_def def) /\ pvEndValue it = pvBeginValue it + iValueSize it * Z.of_nat (high - low) /\
    pvCurrValue it = pvBeginValue it /\ (low <= high <= length keys)%nat /\
    (forall j row, cur_rows (l_cursor def) !! (low + j)%nat = Some row -> mem s !! (pvBeginValue it + iValueSize it * Z.of_nat j) = Some (O_row row)) /\
    (forall i x, keys !! i = Some x -> key `prefix_of` x <-> (low <= i < high)%nat).
Proof.
  intros n Hcat HC Hn Hc Hlen Hkeys Hty Hsh Hs Hb Hkey. pose proof (get_rep E T s k C name Hcat Hn) as Hget. rewrite HC in Hget.
  destruct (ca_section _ _ _ _ _ _ Hcat) as (b & Y & _ & _ & _ & Hall). destruct (Hall _ _ _ HC) as (keys' & d & c & f & X & Hld & _).
  rewrite <- (keys_of_inj _ _ _ _ Hkeys (ld_keys _ _ _ _ _ _ _ _ _ _ Hld)) in Hld.
  specialize (Hget d (proj1 (rl_std _ _ _ _ _ _ _ (ld_rows _ _ _ _ _ _ _ _ _ _ Hld)))).
  destruct (binary_keys (quiet s) _ _ _ _ _ _ _ _ Hld Hty Hsh) as (Hcnt & Hat & _ & _ & Epv & Esz & Ety).
  destruct (prefix_scans D (absolute d) (quiet s) keys Hcnt Hat key Hs Hb Hc) as (low & high & Hr1 & Hr2 & Hlh & Hprefix).
  assert (iKeyDefArrayLength (absolute d) = iKeyDefArrayLength (l_def def)) as El.
  { rewrite <- (ld_length _ _ _ _ _ _ _ _ _ _ Hld). unfold absolute, set_ptHashTable. by case_match. }
  assert (ptKeyDefArray (absolute d) = f) as Ef.
  { unfold absolute, set_ptHashTable. case_match; cbn; by rewrite (ld_fields_pointer _ _ _ _ _ _ _ _ _ _ Hld), abs_rel. }
  rewrite (ld_size _ _ _ _ _ _ _ _ _ _ Hld) in Esz. set (sz := iStdSize (l_def def)) in *.
  assert (exists fields, runs (if 0 <? n then load as_fields f else mret []) (quiet s) fields (quiet s) /\
    form_vararg_loop (Z.to_nat n) fields 0 ap [] = Ok (Some key)) as (fields & Hf & Hform).
  { destruct (Z.ltb_spec 0 n) as [Hp|].
    - assert (0 < iKeyDefArrayLength (l_def def)) as Hlp by lia. eexists.
      split; [eapply runs_load; [by apply (ld_fields _ _ _ _ _ _ _ _ _ _ Hld)|done]|].
      pose proof (form_vararg_take (take (Z.to_nat (iKeyDefArrayLength (l_def def))) (l_fields def)) (Z.to_nat n) 0 ap []) as E1.
      pose proof (form_vararg_take (l_fields def) (Z.to_nat n) 0 ap []) as E2. cbn [Nat.add] in E1, E2.
      rewrite take_take, Nat.min_l in E1 by lia. change (Z.of_nat 0) with 0 in *. congruence.
    - exists []. split; [done|]. by replace (Z.to_nat n) with O in * by lia. }
  exists (mk_iterator sz (c + sz * Z.of_nat low) (c + sz * Z.of_nat high) (c + sz * Z.of_nat low)), low, high.
  cbn [iValueSize pvBeginValue pvEndValue pvCurrValue]. split_and!; [|done|rewrite Nat2Z.inj_sub by lia; lia|done|lia|lia| |exact Hprefix].
  - unfold basShmIterator. eapply runs_bind; [exact Hget|]. cbv beta iota. rewrite bool_decide_eq_true_2 by exact Ety. cbn [negb].
    rewrite El, Ef. eapply runs_bind; [exact Hf|]. eapply runs_bind; [apply runs_pure; exact Hform|].
    eapply runs_bind; [exact Hr1|]. eapply runs_bind; [apply runs_pure; unfold append_key; change (zlen [255]) with 1|].
    { destruct (Z.ltb_spec (zlen key + 1) 512); [done|lia]. }
    eapply runs_bind; [exact Hr2|]. rewrite Esz, Epv. done.
  - intros j row Hj. pose proof (row_found _ _ _ _ _ _ _ _ (ld_rows _ _ _ _ _ _ _ _ _ _ Hld) Hj) as Ha.
    rewrite (ld_size _ _ _ _ _ _ _ _ _ _ Hld) in Ha. fold sz in Ha. by replace (c + sz * Z.of_nat low + sz * Z.of_nat j) with (c + sz * Z.of_nat (low + j)) by lia.
Qed.

(** ** The empty catalogue *)

(** [basInitShmBlock] in a process without a second section. *)
Lemma init_rep s b :
  mem s !! base = Some (O_buf b) -> disjoint_mem (mem s) -> bDescSupport7x24 D <> BAS_TRUE -> bSupport7x24 b <> BAS_TRUE -> iSection b = 0 ->
  0 < zlen (aptHashTable b) -> 0 < base -> sizeof_T_ShmSearchBuf + 64 <= iShmSize D -> base + iShmSize D < 2 ^ 62 ->
  exists s' T E, runs (basInitShmBlock D) s tt s' /\ catalogue D E T s' 0 ∅ /\
    T <= base + sizeof_T_ShmSearchBuf + 8 /\ base + iShmSize D - 15 <= E.
Proof.
  intros Hb Hd HD H7 Hsec Hz Hbase Hsize Hmax. destruct sizes_pos as (_ & _ & _ & _ & Hsb). set (sb := sizeof_T_ShmSearchBuf) in *.
  set (pad := 8 - u64 (base + sb) mod 8). assert (1 <= pad <= 8) as Hpad by (unfold pad; pose proof (Z.mod_pos_bound (u64 (base + sb)) 8); lia).
  set (T := base + sb + pad). set (size := iShmSize D - sb - pad).
  assert (s64 size = size) as Es by (apply s64_id; unfold size; cbn in *; lia).
  set (heap := size - u64 size mod 8). assert (size - 7 <= heap <= size) as Hheap by (unfold heap; pose proof (Z.mod_pos_bound (u64 size) 8); lia).
  set (b' := mk_search_buf (bSupport7x24 b) (iSection b) (<[Z.to_nat 0 := SHM_NULL]> (aptHashTable b))).
  set (m1 := put (mem s) base (O_buf b')).
  set (h := match m1 !! T ≫= as_block with Some h => h | None => stale_block T end).
  set (m2 := put m1 T (O_block (mk_block (caMagicWord h) (u64 heap) (iActualSize h) NULL NULL))).
  exists (mk_shm m2 T (iLogFlag s)), T, (T + heap). split_and!; [| |lia|lia].
  - unfold basInitShmBlock. eapply runs_bind; [eapply runs_load; [exact Hb|done]|].
    destruct (Z.eqb_spec (bDescSupport7x24 D) BAS_TRUE); [done|].
    eapply runs_bind; [apply runs_pure, zset_in_range; lia|].
    eapply runs_bind; [apply runs_store, in_segment_true; cbn [sizeof]; fold sb; lia|]. cbv zeta. fold sb pad T size. rewrite Es. fold heap.
    eapply runs_bind; [done|]. eapply runs_bind; [apply runs_store, in_segment_true; cbn [sizeof]; unfold sizeof_T_MemoryBlock; lia|]. done.
  - assert (m1 !! base = Some (O_buf b')) as Hm1 by apply put_eq.
    split; [|done|].
    + split; [split; [done| |lia]|by apply disjoint_put, disjoint_put]. eexists. cbn [mem]. split; [apply put_eq|]. split_and!; [|done|done].
      cbn [iSize]. rewrite u64_id by (cbn in *; lia). lia.
    + exists b', (λ _, False). split_and!; [|done| |by intros ? ? ? ?].
      * split; [apply put_below; [done|lia|cbn [sizeof]; fold sb; lia]|]. cbn [sizeof]. fold sb. lia.
      * rewrite fmap_empty. apply section_none; [|done]. cbn [b' aptHashTable iSection]. rewrite Hsec. apply zget_lookup; [lia|].
        apply list_lookup_insert_eq. unfold zlen in Hz. lia.
Qed.
End search.
