(* ===== verification/BasHashTheorems.v ===== *)
(** * What the hash table of the bas library does

    The map it implements for keys whose hashes differ, what is freed, and
    what goes wrong when a key is removed or two hashes are equal. *)

From S2P Require Import Prelude LibC Buffers CHeap BasString BasProbe BasHashTypes BasTable BasHash BasHashFacts ShmSamples.

(** The caller's keys: the comparison decides equality, no two keys in use
    have the same hash, and the value that an expansion reads without setting
    it is no hash in use. *)
Record distinct_hashes `{Indeterminate} {K : Type} (hf : K -> Z) (ef : K -> K -> Z) (P : K -> Prop) : Prop := {
  dh_equal : forall a b, P a -> P b -> ef a b = 0 <-> a = b;
  dh_inj : forall a b, P a -> P b -> mix hf a = mix hf b -> a = b;
  dh_indeterminate : forall i a, P a -> indeterminate i <> mix hf a;
}.

(** A new table and calls on it. *)
Definition calls_on_new `{BasGlobal} `{BasHashConst} `{Allocator} `{Indeterminate} {K V : Type} (hf : K -> Z) (ef : K -> K -> Z)
    (iFreeKey iFreeValue : Z) (cs : list (bas_call (K := K) (V := V))) : cmd (list (Z + option V)) :=
  t ← basHashTableCreate hf ef iFreeKey iFreeValue;
  match t with Some t => run_calls t cs | None => mret [] end.

(** A table that has been removed from: [insert a; insert b; remove a;
    search b]. *)
Definition remove_between `{BasGlobal} `{BasHashConst} `{Allocator} `{Indeterminate} (a b : Z) : cmd (option Z * option Z * option Z) :=
  t ← basHashTableCreate (λ k : Z, k) (λ x y, x - y) BAS_FALSE BAS_FALSE;
  t ← lift (or_fault t);
  r ← basHashTableInsert t a 100;
  r ← basHashTableInsert r.2 b 200;
  before ← lift (basHashTableSearch r.2 b);
  q ← basHashTableRemove r.2 a;
  after ← lift (basHashTableSearch q.2 b);
  mret (before, q.1.1, after).

Section samples.
Definition sample_room : Allocator := {| grants _ _ := true; junk _ _ := 0; stays _ _ := true |}.
#[local] Existing Instance sample_room.
Definition sample_indeterminate : Indeterminate := λ _, 4294967295.
#[local] Existing Instance sample_indeterminate.

Definition sample_keys (k : Z) : Prop := k ∈ [0; 1; 2; 3; 4; 5].

Lemma sample_distinct : distinct_hashes (λ k : Z, k) (λ x y, x - y) sample_keys.
Proof.
  unfold sample_keys. split.
  - intros a b _ _. split; lia.
  - intros a b Ha Hb. cut (Forall (λ a, Forall (λ b, mix (λ k : Z, k) a = mix (λ k : Z, k) b -> a = b) [0; 1; 2; 3; 4; 5]) [0; 1; 2; 3; 4; 5]).
    { intros Hall. rewrite Forall_forall in Hall. specialize (Hall a Ha). rewrite Forall_forall in Hall. by apply Hall. }
    apply (bool_decide_unpack _). vm_compute. exact I.
  - intros i a Ha. change (indeterminate i) with 4294967295. cut (Forall (λ a, 4294967295 <> mix (λ k : Z, k) a) [0; 1; 2; 3; 4; 5]).
    { intros Hall. rewrite Forall_forall in Hall. by apply Hall. }
    apply (bool_decide_unpack _). vm_compute. exact I.
Qed.

Lemma sample_has_room : has_room.
Proof. done. Qed.
End samples.

(** C16: a table made by [basHashTableCreate] answers every sequence of
    insertions and searches, through its expansions, as the finite map from
    keys to values does: an insertion replaces or adds and answers 0, a search
    gives the value last inserted or NULL.  This needs memory, keys whose
    hashes differ from each other and from the value that [basHashTableExpand]
    reads without setting it, and no more slots than an [int] and [malloc] can
    count. *)
Theorem bas_table_refines_map `{BasGlobal} `{BasHashConst} `{Hlaws : !BasHashLaws} `{Allocator} `{Indeterminate} {K V : Type} `{Countable K}
    (hf : K -> Z) (ef : K -> K -> Z) (P : K -> Prop) (iFreeKey iFreeValue : Z) (cs : list (bas_call (K := K) (V := V))) :
  has_room -> distinct_hashes hf ef P -> 0 <= sizeof_T_HashEntry < 2147483648 -> 0 <= sizeof_T_HashTable < 2147483648 ->
  Forall (λ c, P (bas_key c)) cs -> slots_bound (inserts cs) * BAS_HASHTABLE_EXPAND_MULTIPLICAND <= 2 ^ 27 ->
  exists d, gives d (calls_on_new hf ef iFreeKey iFreeValue cs) (bas_answers ∅ cs).
Proof.
  intros Hroom [Heq Hinj Hind] Hse Hst HP HN. assert (0 <= inserts cs) as Hi0 by apply countb_bounds.
  assert (1 <= BAS_HASHTABLE_EXPAND_MULTIPLICAND) as Hm
    by (destruct multiplicand_pow2 as (j & _ & ->); pose proof (Z.pow_pos_nonneg 2 (Z.of_nat j)); lia).
  assert (0 < BAS_HASHTABLE_INIT_SIZE) as HI by (destruct init_size_pow2 as (j & _ & ->); apply Z.pow_pos_nonneg; lia). assert (BAS_HASHTABLE_INIT_SIZE <= 2 ^ 27) as HI27 by (unfold slots_bound in HN; nia).
  destruct (create_inv (V := V) hf ef P iFreeKey iFreeValue Hroom Hse Heq Hinj Hind Hst HI27) as (Hg & Hinv & Hl).
  destruct (run_calls_inv hf ef P iFreeKey iFreeValue Hroom Hse Heq Hinj Hind cs ∅ empty_slots 0 (inserts cs) Hinv HP) as (d & Hr);
    [rewrite Hl; unfold slots_bound; lia|lia|done|].
  exists (2 + d). apply (gives_bind 2 d _ _ _ _ _ Hg); [exact Hr|done].
Qed.

Definition sample_calls : list (bas_call (K := Z) (V := Z)) :=
  [Bas_put 0 10; Bas_put 3 13; Bas_put 1 11; Bas_put 3 23; Bas_get 0; Bas_get 3; Bas_get 2; Bas_put 4 14; Bas_put 5 15; Bas_get 1].

Lemma bas_table_refines_map_witness : exists d, gives d
  (@calls_on_new _ _ sample_room sample_indeterminate Z Z (λ k, k) (λ x y, x - y) 0 0 sample_calls)
  [inl 0; inl 0; inl 0; inl 0; inr (Some 10); inr (Some 23); inr None; inl 0; inl 0; inr (Some 11)].
Proof.
  assert (bas_answers ∅ sample_calls = [inl 0; inl 0; inl 0; inl 0; inr (Some 10); inr (Some 23); inr None; inl 0; inl 0; inr (Some 11)]) as <-
    by (vm_compute; reflexivity).
  apply (@bas_table_refines_map _ _ _ sample_room sample_indeterminate Z Z _ _ (λ k, k) (λ x y, x - y) sample_keys 0 0 sample_calls).
  - exact sample_has_room.
  - exact sample_distinct.
  - cbn. lia.
  - cbn. lia.
  - apply (bool_decide_unpack _). vm_compute. exact I.
  - vm_compute. discriminate.
Defined.

(** [basHashTableDestroy] frees every entry, with the keys and the values
    when the table was told to, in the order of the slots, then the array and
    the table, and nothing twice. *)
Theorem bas_destroy_frees `{BasGlobal} {K V : Type}
    (t : T_HashTable (option (list (option (T_HashEntry K V)))) (K -> Z) (K -> K -> Z)) l :
  pptTable t = Some l -> iMask t = zlen l - 1 -> zlen l < 2147483648 ->
  gives (- (2 + freed_blocks t l)) (basHashTableDestroy t) (freed t l).
Proof. apply destroy_gives. Qed.

Definition sample_table : T_HashTable (option (list (option (T_HashEntry Z Z)))) (Z -> Z) (Z -> Z -> Z) :=
  mk_hash_table (Some [None; Some (mk_entry 5 1 11); None; Some (mk_entry 7 3 13)]) 0 2 3 2 (λ k, k) (λ x y, x - y) BAS_TRUE BAS_FALSE.

Lemma bas_destroy_frees_witness : gives (-6) (basHashTableDestroy sample_table) (mk_released [1; 3] []).
Proof.
  exact (bas_destroy_frees sample_table [None; Some (mk_entry 5 1 11); None; Some (mk_entry 7 3 13)] eq_refl eq_refl eq_refl).
Defined.

(** [basHashTableRemove] answers the value of the key and frees the entry,
    and the key when the table was told to; the slots then hold the map
    without the key.  A key that is not there changes nothing. *)
Theorem bas_remove_deletes `{BasGlobal} `{BasHashConst} `{Hlaws : !BasHashLaws} `{Allocator} `{Indeterminate} {K V : Type} `{Countable K}
    (hf : K -> Z) (ef : K -> K -> Z) (P : K -> Prop) (iFreeKey iFreeValue : Z) (M : gmap K V) L n key :
  has_room -> distinct_hashes hf ef P -> 0 <= sizeof_T_HashEntry < 2147483648 -> inv hf P M L n -> P key ->
  exists L', gives (if bool_decide (is_Some (M !! key)) then if iFreeKey =? BAS_TRUE then -2 else -1 else 0)
    (basHashTableRemove (table_of hf ef iFreeKey iFreeValue L n) key)
    (M !! key, mk_released (if bool_decide (is_Some (M !! key)) && (iFreeKey =? BAS_TRUE) then [key] else []) [],
     table_of hf ef iFreeKey iFreeValue L' (if bool_decide (is_Some (M !! key)) then n - 1 else n)) /\
    maps_to L' (delete key M) /\ zlen L' = zlen L.
Proof.
  intros Hroom [Heq Hinj Hind] Hse Hi Hk. exact (remove_gives hf ef P iFreeKey iFreeValue Hroom Hse Heq Hinj Hind M L n key Hi Hk).
Qed.

Definition sample_slots : list (option (Z * Z)) := [Some (3, 13); None; None; None].

Lemma sample_inv : inv (λ k : Z, k) sample_keys {[3 := 13]} sample_slots 1.
Proof.
  set (L := replicate 4 None : list (option (Z * Z))). assert (table_ok (mix (λ k : Z, k)) L) as Hok by exact (table_ok_empty (mix (λ k : Z, k)) 2 ltac:(lia)).
  assert (found_at (mix (λ k : Z, k)) L 3 0) as Hf by (exists O; split; [vm_compute; reflexivity|lia]).
  assert (sample_slots = <[Z.to_nat 0 := Some (3, 13)]> L) as E by reflexivity. split; rewrite ?E.
  - by apply table_ok_insert.
  - apply (maps_to_insert (mix (λ k : Z, k))); [done|done|apply maps_to_empty|done|done].
  - intros k v Hin. apply list_elem_of_lookup_1 in Hin as (q & Hq). destruct q as [|[|[|[|q]]]]; cbn in Hq; try done.
    injection Hq as <- <-. apply (bool_decide_unpack _). vm_compute. exact I.
  - reflexivity.
  - reflexivity.
Qed.

Lemma bas_remove_deletes_witness : exists L', gives (-2)
  (basHashTableRemove (table_of (λ k : Z, k) (λ x y, x - y) BAS_TRUE 0 sample_slots 1) 3)
  (Some 13, mk_released [3] [], table_of (λ k : Z, k) (λ x y, x - y) BAS_TRUE 0 L' 0) /\ maps_to L' (delete 3 {[3 := 13]}) /\ zlen L' = 4.
Proof.
  destruct (@bas_remove_deletes _ _ _ sample_room sample_indeterminate Z Z _ _ (λ k, k) (λ x y, x - y) sample_keys BAS_TRUE 0 {[3 := 13]} sample_slots 1 3)
    as (L' & Hg & Hrest); [exact sample_has_room|exact sample_distinct|cbn; lia|exact sample_inv|apply (bool_decide_unpack _); vm_compute; exact I|].
  exists L'. rewrite lookup_singleton_eq in Hg. split; [exact Hg|exact Hrest].
Defined.

(** Removing a key can hide another.  The slot of a removed entry becomes
    empty, and the search for a key that was placed behind it stops there: with
    keys 0 and 3, whose hashes share their home slot in a table of four, key 3
    has its value before key 0 is removed and none afterwards. *)
Theorem bas_remove_hides_keys :
  exists h, @remove_between _ _ sample_room sample_indeterminate 0 3 (mk_heap 0 0) = Ok ((Some 200, Some 100, None), h).
Proof. eexists. vm_compute. reflexivity. Qed.

(** A key with the hash of another one finds that one's value, although the
    comparison says that they differ. *)
Theorem bas_equal_hash_confused `{BasGlobal} `{BasHashConst} `{Hlaws : !BasHashLaws} `{Allocator} `{Indeterminate} {K V : Type} `{Countable K}
    (hf : K -> Z) (ef : K -> K -> Z) (P : K -> Prop) (iFreeKey iFreeValue : Z) (M : gmap K V) L n key other :
  has_room -> distinct_hashes hf ef P -> 0 <= sizeof_T_HashEntry < 2147483648 -> inv hf P M L n -> P key ->
  mix hf other = mix hf key -> (forall k, P k -> ef other k <> 0) ->
  basHashTableSearch (table_of hf ef iFreeKey iFreeValue L n) other = Ok (M !! key).
Proof.
  intros Hroom [Heq Hinj Hind] Hse Hi Hk Hm Hef.
  rewrite (equal_hash_found hf ef P iFreeKey iFreeValue Hroom Hse Heq Hinj Hind M L n key other Hi Hk Hm Hef).
  exact (search_inv hf ef P iFreeKey iFreeValue Hroom Hse Heq Hinj Hind M L n key Hi Hk).
Qed.
