(* ===== verification/ShmTheorems.v ===== *)
(** * What the search tables in shared memory do

    The hash table of the segment is a finite map, its probing ends, blocks
    keep their contents; tables loaded one after another are found and
    searched; and what the code gets wrong. *)

From S2P Require Import Prelude LibC Buffers BasString BasProbe BasHashTypes BasTable ShmMem ShmMemFacts ShmAlloc ShmHash ShmHashFacts ShmSearch ShmKeyFacts ShmTableFacts ShmLoadFacts ShmIndexFacts ShmCatalogue ShmSearchFacts ShmSamples.

(** ** Definitions of the statements *)

Section statements.
Context `{BasGlobal} `{BasHashConst} `{ShmLayout} (D : T_ShmAppDesc).

(** A new hash table and calls on it. *)
Definition calls_on_new_shm (cs : list table_call) : sm (list Z) :=
  h ← shmHashTableCreate D; run_table D (ABSOLUTE_ADDRESS D h) cs.

(** Tables loaded one after another, with the results. *)
Fixpoint load_all (defs : list LocalTableDef) : sm (list Z) :=
  match defs with
  | [] => mret []
  | def :: defs => r ← basLoadSearchTable D def; rs ← load_all defs; mret (r :: rs)
  end.

(** The table a name has after the loads. *)
Definition tables_of (loads : list (LocalTableDef * list bytes)) : gmap bytes LocalTableDef :=
  foldl (λ M p, <[l_name p.1 := p.1]> M) ∅ loads.

(** What the loads take from load [k] on. *)
Fixpoint loads_need (k : Z) (loads : list (LocalTableDef * list bytes)) : Z :=
  match loads with
  | [] => 0
  | p :: loads => load_need k p.1 p.2 + loads_need (k + 1) loads
  end.
End statements.

(** The structs of the missing header have sizes below [2^62]. *)
Definition small_sizes `{BasHashConst} : Prop := sizeof_T_HashTable < 2 ^ 62 /\ sizeof_T_HashEntry < 2 ^ 62.

(** A segment as [basInitShmBlock] needs it, with one section. *)
Record fresh_segment `{BasGlobal} `{BasHashConst} `{ShmLayout} (D : T_ShmAppDesc) (s : shm) (b : T_ShmSearchBuf) : Prop := {
  fs_buf : mem s !! pvShmBuf D = Some (O_buf b);
  fs_disjoint : disjoint_mem (mem s);
  fs_single : bDescSupport7x24 D <> BAS_TRUE /\ bSupport7x24 b <> BAS_TRUE /\ iSection b = 0;
  fs_slot : 0 < zlen (aptHashTable b);
  fs_range : 0 < pvShmBuf D /\ sizeof_T_ShmSearchBuf + 64 <= iShmSize D /\ pvShmBuf D + iShmSize D < 2 ^ 62;
}.

Section theorems.
Context `{BasGlobal} `{BasHashConst} `{Hlaws : !BasHashLaws} `{ShmLayout} `{Hsizes : !SizeLaws} (D : T_ShmAppDesc).
#[local] Set Default Proof Using "Type Hsizes Hlaws".

(** ** The loads *)

Lemma load_all_rep E : small_sizes -> forall loads T s k C,
  catalogue D E T s k C -> Forall (λ p, load_ok p.1 p.2) loads ->
  max_slots (k + zlen loads) * BAS_HASHTABLE_EXPAND_MULTIPLICAND <= 1073741824 -> 
  T + loads_need k loads + 40 <= E ->
  exists s' T' C', runs (load_all D loads.*1) s (replicate (length loads) 0) s' /\ catalogue D E T' s' (k + zlen loads) C' /\
    snd <$> C' = foldl (λ M p, <[l_name p.1 := p.1]> M) (snd <$> C) loads.
Proof.
  intros [Hst Hse]. induction loads as [|[def keys] loads IH]; intros T s k C Hcat Hok HN Hroom.
  { exists s, T, C. change (zlen (@nil (LocalTableDef * list bytes))) with 0. rewrite Z.add_0_r. split_and!; [done|exact Hcat|done]. }
  apply Forall_cons in Hok as [Hl Hok]. rewrite zlen_cons in HN. pose proof (zlen_nonneg loads). pose proof (ca_count _ _ _ _ _ _ Hcat) as Hk.
  cbn [loads_need fst snd] in *. pose proof multiplicand_range.
  assert (0 <= loads_need (k + 1) loads) as Hrest.
  { clear - D Hok Hk Hst Hse Hsizes Hlaws. assert (0 <= k + 1) as Hk1 by lia. revert Hk1. generalize (k + 1). clear Hk k.
    induction Hok as [|p loads Hl Hok IH]; intros k Hk; cbn [loads_need]; [lia|]. pose proof (load_need_nonneg D Hst Hse k p.1 p.2 Hk Hl).
    specialize (IH (k + 1)). lia. }
  pose proof (max_slots_mono k (k + (1 + zlen loads)) ltac:(lia)) as Hms.
  destruct (load_extends D Hst Hse E T s k C def keys Hcat Hl) as (s1 & T1 & std & Hr1 & Hcat1 & HT1); [nia|lia|].
  destruct (IH T1 s1 (k + 1) _ Hcat1 Hok) as (s' & T' & C' & Hr & Hcat' & HC').
  { by replace (k + 1 + zlen loads) with (k + (1 + zlen loads)) by lia. }
  { lia. }
  exists s', T', C'. split_and!.
  - cbn [load_all fmap list_fmap fst length replicate]. eapply runs_bind; [exact Hr1|]. eapply runs_bind; [exact Hr|]. done.
  - rewrite zlen_cons. by replace (k + (1 + zlen loads)) with (k + 1 + zlen loads) by lia.
  - rewrite HC', fmap_insert. done.
Qed.
End theorems.

(** ** Concrete tables *)

Definition sample_keys : list bytes := [lit "CNY 001"; lit "EUR 007"; lit "USD 012"; lit "USD 300"].

Definition sample_rates : LocalTableDef := sample_def SEARCH_TYPE_HASH sample_rows.
Definition sample_codes : LocalTableDef :=
  mk_local (l_def (sample_def SEARCH_TYPE_BINARY sample_rows)) (lit "codes") sample_fields (mk_cursor true true sample_rows true).

Definition sample_loads : list (LocalTableDef * list bytes) := [(sample_rates, sample_keys); (sample_codes, sample_keys)].

Definition sample_buf : T_ShmSearchBuf := mk_search_buf 0 0 [SHM_NULL; SHM_NULL].

Lemma sample_keys_of type name : keys_of (mk_local (l_def (sample_def type sample_rows)) name sample_fields (mk_cursor true true sample_rows true)) sample_rows sample_keys.
Proof. repeat (constructor; [vm_compute; reflexivity|]). constructor. Qed.

Lemma sample_load_ok type name : type <> SEARCH_TYPE_TABLE -> cstring name -> zlen name < 100 ->
  load_ok (mk_local (l_def (sample_def type sample_rows)) name sample_fields (mk_cursor true true sample_rows true)) sample_keys.
Proof.
  intros Ht Hn Hl. split; cbn [l_cursor cur_room cur_rows l_def sample_def eSearchType].
  - split; cbn [l_name l_def l_fields]; [vm_compute; split; discriminate|vm_compute; reflexivity|split; [exact Hn|cbn; lia]|vm_compute; reflexivity].
  - split; cbn [l_cursor cur_opens cur_rows cur_not_found]; [done|done|done| |done|done].
    apply (bool_decide_unpack _). vm_compute. exact I.
  - done.
  - apply (bool_decide_unpack _). vm_compute. exact I.
  - apply sample_keys_of.
  - done.
  - vm_compute. discriminate.
Qed.

Lemma sample_loads_ok : Forall (λ p, load_ok p.1 p.2) sample_loads.
Proof.
  constructor; [|constructor; [|constructor]].
  - apply (sample_load_ok SEARCH_TYPE_HASH (lit "rates")); [done|apply (bool_decide_unpack _); vm_compute; exact I|done].
  - apply (sample_load_ok SEARCH_TYPE_BINARY (lit "codes")); [done|apply (bool_decide_unpack _); vm_compute; exact I|done].
Qed.

Lemma sample_sizes_small : small_sizes.
Proof. done. Qed.

Lemma sample_fresh : fresh_segment sample_desc sample_empty sample_buf.
Proof.
  split; [done| |done|done|done]. intros a o a' o' Ha Ha'. cbn [sample_empty mem] in *. apply lookup_singleton_Some in Ha as [<- _].
  by apply lookup_singleton_Some in Ha' as [<- _].
Qed.

Lemma sample_sorted : sorted_keys sample_keys.
Proof.
  intros i j a b Hij Ha Hb. destruct i as [|[|[|[|i]]]]; cbn in Ha; try done; injection Ha as <-;
    (destruct j as [|[|[|[|j]]]]; cbn in Hb; try done; injection Hb as <-); try lia; vm_compute; discriminate.
Qed.

(** An initialised segment, and one with a table. *)
Lemma sample_initial : exists s T E, catalogue sample_desc E T s 0 ∅ /\ T <= 4136 /\ 69617 <= E.
Proof.
  destruct sample_fresh as [Hb Hd (HD & H7 & Hsec) Hz (Hbase & Hsize & Hmax)].
  destruct (init_rep sample_desc sample_empty sample_buf) as (s & T & E & _ & Hcat & HT & HE); [done..|].
  exists s, T, E. split; [exact Hcat|]. cbn in *. lia.
Qed.

Lemma sample_loaded : exists s T E std, catalogue sample_desc E T s 1 {[lit "codes" := (std, sample_codes)]} /\ T <= 9200 /\ 69617 <= E.
Proof.
  destruct sample_initial as (s & T & E & Hcat & HT & HE). pose proof (Forall_inv (Forall_inv_tail sample_loads_ok)) as Hok.
  destruct sample_sizes_small as [Hst Hse].
  assert (load_need 0 sample_codes sample_keys = 4988) as Hneed by (vm_compute; reflexivity).
  destruct (load_extends sample_desc Hst Hse E T s 0 ∅ sample_codes sample_keys Hcat Hok) as (s' & T' & std & _ & Hcat' & HT'); [done|lia|].
  exists s', T', E, std. split; [exact Hcat'|lia].
Qed.

(** C2: a process that initialises a segment and loads any number of tables
    into it can search all of them: for every name the definition is found, and
    the search for a key, through the hash index or by halving the sorted keys,
    gives the last row with that key, or NULL when there is none.  Each load
    leaves the tables loaded before.  The segment must have room for what the
    loads need, the sizes bounded by [loads_need]; for BINARY tables the three
    index pointers must be one union. *)
Theorem loaded_tables_are_searched `{BasGlobal} `{BasHashConst} `{Hlaws : !BasHashLaws} `{ShmLayout} `{Hsizes : !SizeLaws}
    (D : T_ShmAppDesc) s b (loads : list (LocalTableDef * list bytes)) :
  small_sizes -> fresh_segment D s b -> Forall (λ p, load_ok p.1 p.2) loads ->
  max_slots (zlen loads) * BAS_HASHTABLE_EXPAND_MULTIPLICAND <= 1073741824 ->
  sizeof_T_ShmSearchBuf + 63 + loads_need 0 loads <= iShmSize D ->
  exists s', runs (_ ← basInitShmBlock D; load_all D loads.*1) s (replicate (length loads) 0) s' /\
    forall name def keys ap key,
      tables_of loads !! name = Some def -> cstring name -> keys_of def (cur_rows (l_cursor def)) keys -> searchable def keys ->
      formKeyVararg (l_fields def) (iKeyDefArrayLength (l_def def)) ap = Ok (Some key) -> cstring key ->
      exists d a, runs (basGetShmSearchTableDef D true (Some name)) s' (Some d) (quiet s') /\
        runs (basSearchTableByShmDef D (Some d) ap) (quiet s') a (quiet s') /\ answers (mem s') (cur_rows (l_cursor def)) keys key a.
Proof.
  intros Hss [Hb Hd (HD & H7 & Hsec) Hz (Hbase & Hsize & Hmax)] Hok HN Hroom.
  destruct (init_rep D s b) as (s1 & T & E & Hr1 & Hcat & HT & HE); [done..|].
  destruct (load_all_rep D E Hss loads T s1 0 ∅ Hcat Hok) as (s' & T' & C' & Hr & Hcat' & HC'); [done|lia|].
  exists s'. split; [eapply runs_bind; [exact Hr1|exact Hr]|].
  intros name def keys ap key Hname Hc Hkeys Hty Hform Hkey. rewrite fmap_empty in HC'.
  assert (exists std, C' !! name = Some (std, def)) as (std & Hstd).
  { unfold tables_of in Hname. rewrite <- HC', lookup_fmap in Hname. destruct (C' !! name) as [[std def']|]; [|done].
    injection Hname as ->. by exists std. }
  exact (catalogue_search D E T' s' _ C' name std def keys ap key Hcat' Hstd Hc Hkey Hkeys Hty Hform).
Qed.

Lemma loaded_tables_are_searched_witness : exists s',
  runs (_ ← basInitShmBlock sample_desc; load_all sample_desc [sample_rates; sample_codes]) sample_empty [0; 0] s' /\
  (exists d a, runs (basGetShmSearchTableDef sample_desc true (Some (lit "rates"))) s' (Some d) (quiet s') /\
    runs (basSearchTableByShmDef sample_desc (Some d) [A_text (lit "USD"); A_long 12]) (quiet s') a (quiet s') /\
    mem s' !! a = Some (O_row (sample_row (lit "USD") 12))) /\
  exists d, runs (basGetShmSearchTableDef sample_desc true (Some (lit "codes"))) s' (Some d) (quiet s') /\
    runs (basSearchTableByShmDef sample_desc (Some d) [A_text (lit "JPY"); A_long 1]) (quiet s') NULL (quiet s').
Proof.
  destruct (loaded_tables_are_searched sample_desc sample_empty sample_buf sample_loads) as (s' & Hr & Hall);
    [exact sample_sizes_small|exact sample_fresh|exact sample_loads_ok|vm_compute; discriminate|vm_compute; discriminate|].
  exists s'. split; [exact Hr|]. split.
  - destruct (Hall (lit "rates") sample_rates sample_keys [A_text (lit "USD"); A_long 12] (lit "USD 012")) as (d & a & Hg & Hs & row & Hrow & Ha);
      [vm_compute; reflexivity|apply (bool_decide_unpack _); vm_compute; exact I|apply sample_keys_of|by left|vm_compute; reflexivity
      |apply (bool_decide_unpack _); vm_compute; exact I|].
    exists d, a. split; [exact Hg|]. split; [exact Hs|]. rewrite Ha. f_equal. f_equal. vm_compute in Hrow. injection Hrow as <-. vm_compute. reflexivity.
  - destruct (Hall (lit "codes") sample_codes sample_keys [A_text (lit "JPY"); A_long 1] (lit "JPY 001")) as (d & a & Hg & Hs & Ha);
      [vm_compute; reflexivity|apply (bool_decide_unpack _); vm_compute; exact I|apply sample_keys_of|right; split; [reflexivity|split; [reflexivity|exact sample_sorted]]
      |vm_compute; reflexivity|apply (bool_decide_unpack _); vm_compute; exact I|].
    exists d. split; [exact Hg|]. change (a = NULL) in Ha. rewrite <- Ha. exact Hs.
Defined.

(** C10: one more load keeps what the segment holds: the heap has one free
    block at its end and no two objects overlap, every table loaded before has
    its definition, rows and index, and the new one is found under its name. *)
Theorem load_keeps_catalogue `{BasGlobal} `{BasHashConst} `{Hlaws : !BasHashLaws} `{ShmLayout} `{Hsizes : !SizeLaws}
    (D : T_ShmAppDesc) E T s k C def keys :
  small_sizes -> catalogue D E T s k C -> load_ok def keys -> max_slots k * BAS_HASHTABLE_EXPAND_MULTIPLICAND <= 1073741824 ->
  T + load_need k def keys + 40 <= E ->
  exists s' T' std, runs (basLoadSearchTable D def) s 0 s' /\ catalogue D E T' s' (k + 1) (<[l_name def := (std, def)]> C) /\
    T' <= T + load_need k def keys.
Proof. intros [Hst Hse]. by apply load_extends. Qed.

Lemma load_keeps_catalogue_witness : exists E T s C s' T' std,
  catalogue sample_desc E T s 1 C /\ is_Some (C !! lit "codes") /\ runs (basLoadSearchTable sample_desc sample_rates) s 0 s' /\
  catalogue sample_desc E T' s' 2 (<[lit "rates" := (std, sample_rates)]> C).
Proof.
  destruct sample_loaded as (s & T & E & std & Hcat & HT & HE).
  assert (load_need 1 sample_rates sample_keys = 5084) as Hneed by (vm_compute; reflexivity).
  destruct (load_keeps_catalogue sample_desc E T s 1 _ sample_rates sample_keys sample_sizes_small Hcat (Forall_inv sample_loads_ok))
    as (s' & T' & std' & Hr & Hcat' & _); [vm_compute; discriminate|lia|].
  exists E, T, s, {[lit "codes" := (std, sample_codes)]}, s', T', std'. split; [exact Hcat|]. split; [|split; [exact Hr|exact Hcat']].
  rewrite lookup_singleton_eq. by eexists.
Defined.

(** C15: the iterator over a BINARY table with sorted keys delimits exactly the
    rows whose keys begin with the given first fields: its current value is the
    first of them, its end lies behind the last. *)
Theorem iterator_delimits_prefix `{BasGlobal} `{BasHashConst} `{Hlaws : !BasHashLaws} `{ShmLayout} `{Hsizes : !SizeLaws}
    (D : T_ShmAppDesc) E T s k C name std def keys iKeyCnt ap key :
  let n := Z.min iKeyCnt (iKeyDefArrayLength (l_def def)) in
  catalogue D E T s k C -> C !! name = Some (std, def) -> cstring name -> cstring key -> zlen key + 1 < 512 ->
  keys_of def (cur_rows (l_cursor def)) keys -> eSearchType (l_def def) = SEARCH_TYPE_BINARY -> index_shared = true ->
  sorted_keys keys -> Forall (Forall (λ c, 0 < c < 255)) keys ->
  form_vararg_loop (Z.to_nat n) (l_fields def) 0 ap [] = Ok (Some key) ->
  exists it low high, runs (basShmIterator D true true (Some name) iKeyCnt ap) s (Some it) (quiet s) /\
    iValueSize it = iStdSize (l_def def) /\ pvEndValue it = pvBeginValue it + iValueSize it * Z.of_nat (high - low) /\
    pvCurrValue it = pvBeginValue it /\ (low <= high <= length keys)%nat /\
    (forall j row, cur_rows (l_cursor def) !! (low + j)%nat = Some row -> mem s !! (pvBeginValue it + iValueSize it * Z.of_nat j) = Some (O_row row)) /\
    (forall i x, keys !! i = Some x -> key `prefix_of` x <-> (low <= i < high)%nat).
Proof. exact (catalogue_iterate D E T s k C name std def keys iKeyCnt ap key). Qed.

Lemma iterator_delimits_prefix_witness : exists s it low high,
  runs (basShmIterator sample_desc true true (Some (lit "codes")) 1 [A_text (lit "USD")]) s (Some it) (quiet s) /\
  pvEndValue it = pvBeginValue it + iValueSize it * Z.of_nat (high - low) /\
  forall i x, sample_keys !! i = Some x -> lit "USD " `prefix_of` x <-> (low <= i < high)%nat.
Proof.
  destruct sample_loaded as (s & T & E & std & Hcat & _). exists s.
  destruct (iterator_delimits_prefix sample_desc E T s 1 {[lit "codes" := (std, sample_codes)]} (lit "codes") std sample_codes sample_keys 1 [A_text (lit "USD")] (lit "USD "))
    as (it & low & high & Hr & _ & Hend & _ & _ & _ & Hp);
    [exact Hcat|apply lookup_singleton_eq|apply (bool_decide_unpack _); vm_compute; exact I|apply (bool_decide_unpack _); vm_compute; exact I
    |vm_compute; reflexivity|apply sample_keys_of|reflexivity|reflexivity|exact sample_sorted|apply (bool_decide_unpack _); vm_compute; exact I|vm_compute; reflexivity|].
  exists it, low, high. split; [exact Hr|]. split; [exact Hend|exact Hp].
Defined.

(** C5: the hash table in the segment, made in a heap with room, answers
    every sequence of insertions and searches, through its expansions, as the
    finite map from keys to addresses does, and changes nothing that lay below
    the free block before. *)
Theorem shm_table_refines_map `{BasGlobal} `{BasHashConst} `{Hlaws : !BasHashLaws} `{ShmLayout} `{Hsizes : !SizeLaws}
    (D : T_ShmAppDesc) E T s cs :
  small_sizes -> heap_ok D E T s -> Forall (λ c, cstring (call_key c) /\ zlen (call_key c) + 1 < 2 ^ 62) cs ->
  max_slots (puts cs) * BAS_HASHTABLE_EXPAND_MULTIPLICAND <= 1073741824 -> T + create_need + calls_need (puts cs) cs + 40 <= E ->
  exists s', runs (calls_on_new_shm D cs) s (map_answers D ∅ cs) s' /\
    forall a o, at_below D (mem s) T a o -> mem s' !! a = Some o.
Proof.
  intros [Hst Hse] Ho Hcs HN Hroom. assert (0 <= puts cs) as Hp by apply countb_bounds.
  pose proof (calls_need_nonneg (puts cs) cs Hp Hse) as Hcn.
  destruct (create_grows D E T s Ho Hst) as (s1 & ppt & l & L & Hr1 & Hg1 & Hi1 & How1); [lia|].
  destruct (g_ok _ _ _ _ _ _ _ Hg1) as [Ht1 Hd1].
  destruct (run_table_rep D (puts cs) E cs ∅ _ (T + 40) ppt l L 0 s1 Ht1 Hd1 Hi1 Hcs Hse) as (s' & T' & Hr & _ & _ & Hf); [lia|done|lia|].
  exists s'. split.
  - unfold calls_on_new_shm. eapply runs_bind; [exact Hr1|]. rewrite abs_rel. exact Hr.
  - intros a o Ha. assert (at_below D (mem s1) (T + create_need) a o) as Ha1 by (eapply at_below_grows; [exact Ha|exact Hg1|not_written]).
    apply Hf; [exact Ha1|]. intros Hw%How1. destruct Ha as (_ & ? & _). lia.
Qed.

Lemma shm_table_refines_map_witness : exists s s',
  runs (calls_on_new_shm sample_desc [Put (lit "a") 1; Put (lit "b") 2; Put (lit "a") 3; Get (lit "a"); Put (lit "c") 4; Put (lit "d") 5; Get (lit "b"); Get (lit "e")])
    s [0; 0; 0; 4099; 0; 0; 4098; 0] s'.
Proof.
  destruct sample_initial as (s & T & E & Hcat & HT & HE). exists s.
  set (cs := [Put (lit "a") 1; Put (lit "b") 2; Put (lit "a") 3; Get (lit "a"); Put (lit "c") 4; Put (lit "d") 5; Get (lit "b"); Get (lit "e")]).
  assert (create_need + calls_need (puts cs) cs = 4152) as Hneed by (vm_compute; reflexivity).
  destruct (shm_table_refines_map sample_desc E T s cs sample_sizes_small (ca_heap _ _ _ _ _ _ Hcat)) as (s' & Hr & _);
    [apply (bool_decide_unpack _); vm_compute; exact I|vm_compute; discriminate|lia|].
  exists s'. rewrite Hr. vm_compute map_answers. reflexivity.
Defined.

(** C14: the probing of both hash tables, over [2^k] slots of which one is
    empty or holds the key, ends at the first such slot of its walk, whatever
    the hash value: the perturbation dies out and the walk then visits every
    slot. *)
Theorem probing_ends (k : nat) (stop : Z -> outcome bool) (full : Z -> bool) iHashValue p :
  (k <= 30)%nat -> 0 <= iHashValue < 2 ^ 32 -> (forall q, 0 <= q < 2 ^ Z.of_nat k -> stop q = Ok (full q)) ->
  0 <= p < 2 ^ Z.of_nat k -> full p = true ->
  let mask := 2 ^ Z.of_nat k - 1 in let slot := walk mask (Z.land iHashValue mask) iHashValue in
  exists n, probe stop mask iHashValue = Ok (slot n) /\ full (slot n) = true /\ forall j, (j < n)%nat -> full (slot j) = false.
Proof. intros Hk Hh Hstop Hp Hfull. exact (probe_stops k ltac:(lia) stop iHashValue full p Hh Hstop Hp Hfull). Qed.

Lemma probing_ends_witness : exists n,
  probe (λ q, Ok (q =? 3)) 7 3735928559 = Ok (walk 7 (Z.land 3735928559 7) 3735928559 n) /\ walk 7 (Z.land 3735928559 7) 3735928559 n = 3.
Proof.
  destruct (probing_ends 3 (λ q, Ok (q =? 3)) (λ q, q =? 3) 3735928559 3) as (n & Hp & Hf & _); [lia|lia|done|done|done|].
  exists n. split; [exact Hp|]. apply Z.eqb_eq. exact Hf.
Defined.

(** C35: [shmRealloc] to a larger size answers a block with the old contents,
    each object at its old distance from the start: the old block enlarged when
    it touches the free one, a block behind all others otherwise.  All other
    objects stay, and the heap stays well formed. *)
Theorem realloc_keeps_contents `{BasGlobal} `{BasHashConst} `{ShmLayout} `{Hsizes : !SizeLaws} (D : T_ShmAppDesc) E T s a n old sz :
  heap_ok D E T s -> mem s !! (a - 40) = Some (used_block n old) -> pvShmBuf D <= a - 40 -> a - 40 + n <= T ->
  0 <= old -> old + 40 < n -> 0 <= sz < 2 ^ 62 -> n < calcActualSize sz -> T + calcActualSize sz + 40 <= E ->
  exists s' T' a', runs (shmRealloc D (RELATIVE_ADDRESS D a) sz) s (RELATIVE_ADDRESS D a') s' /\ heap_ok D E T' s' /\
    (if a - 40 + n =? T then a' = a else a' = T + 40) /\
    mem s' !! (a' - 40) = Some (used_block (calcActualSize sz) sz) /\
    (forall x o, mem s !! x = Some o -> inside a old (x, o) -> mem s' !! (x + (a' - a)) = Some o) /\
    (forall x o, at_below D (mem s) T x o -> x <> a - 40 -> mem s' !! x = Some o).
Proof.
  intros [Ht Hd] Hh Hb Hend Hold Hn Hsz Hgrow Hroom.
  destruct (realloc_grows D E T s a n old sz) as (m & T' & a' & Hr & Ht' & Hlt & ET & Ea & Hb' & Hin & Hk & Hd'); [done..|].
  exists (mk_shm m T' (iLogFlag s)), T', a'. split_and!; [exact Hr|split; [exact Ht'|by apply Hd']|exact Ea|exact Hb'|exact Hin|].
  intros x o (Hx & Hxr & Hxe) Hne. apply Hk; [done|lia|lia|done|]. exact (Hd _ _ _ _ Hh Hx (not_eq_sym Hne)).
Qed.

Lemma realloc_keeps_contents_witness : exists s T s' a',
  runs (shmRealloc sample_desc (RELATIVE_ADDRESS sample_desc (T + 40)) 1000) s (RELATIVE_ADDRESS sample_desc a') s' /\ a' = T + 40 /\
  mem s' !! T = Some (used_block (calcActualSize 1000) 1000).
Proof.
  destruct sample_initial as (s0 & T & E & Hcat & HT & HE).
  destruct (malloc_grows sample_desc E T s0 100 (ca_heap _ _ _ _ _ _ Hcat)) as (s & _ & Hg & Hb & _); [lia|change (calcActualSize 100) with 144; lia|].
  change (calcActualSize 100) with 144 in Hg, Hb. exists s, T. pose proof (ho_range _ _ _ _ (ca_heap _ _ _ _ _ _ Hcat)).
  destruct (realloc_keeps_contents sample_desc E (T + 144) s (T + 40) 144 100 1000 (g_ok _ _ _ _ _ _ _ Hg)) as (s' & T' & a' & Hr & Ho & Ea & Hb' & _);
    [replace (T + 40 - 40) with T by lia; exact Hb|lia|lia|lia|lia|lia|reflexivity|change (calcActualSize 1000) with 1048; lia|].
  assert (a' = T + 40) as -> by (replace (T + 40 - 40 + 144) with (T + 144) in Ea by lia; by rewrite Z.eqb_refl in Ea).
  exists s', (T + 40). split; [exact Hr|]. split; [reflexivity|]. by replace (T + 40 - 40) with T in Hb' by lia.
Defined.

(** C38: a search for the values of a row forms the key of that row: text up
    to its NUL and cut or filled to the field, numbers with their width, a
    floating-point number from its bits. *)
Theorem row_values_form_its_key fields n row k ap :
  is_row row -> formKey fields n row = Ok (Some k) -> formKeyVararg fields n (values_of fields n row ++ ap) = Ok (Some k) /\ is_key k.
Proof. intros Hr Hk. split; [by apply formKeyVararg_values|by eapply formKey_is_key]. Qed.

Lemma row_values_form_its_key_witness :
  formKeyVararg sample_fields 2 [A_text (lit "EUR"); A_long 7] = Ok (Some (lit "EUR 007")) /\ is_key (lit "EUR 007").
Proof.
  apply (row_values_form_its_key sample_fields 2 (sample_row (lit "EUR") 7) (lit "EUR 007") []);
    [apply (bool_decide_unpack _); vm_compute; exact I|vm_compute; reflexivity].
Defined.

(** Without room for a hash table nothing notices.  [shmMalloc] answers
    NULL, and [shmHashTableCreate] compares with [SHM_NULL]: it takes the start
    of the segment for the new table, overwrites the search buffer there and
    then its own table with the slots, and reads the table back. *)
Theorem create_without_room_faults `{BasGlobal} `{BasHashConst} `{ShmLayout} (D : T_ShmAppDesc) E T s :
  tail_ok D E T s -> E - T < calcActualSize sizeof_T_HashTable -> E - T < calcActualSize (8 * BAS_HASHTABLE_INIT_SIZE) ->
  shmHashTableCreate D s = Fault.
Proof.
  intros Ht H1' H2'. pose proof (malloc_full D E T s _ Ht H1') as Hr1. pose proof (malloc_full D E T s _ Ht H2') as Hr2.
  unfold shmHashTableCreate. eapply runs_bind; [exact Hr1|]. change (NULL =? SHM_NULL) with false. cbv iota.
  eapply runs_bind; [exact Hr2|]. set (base := ABSOLUTE_ADDRESS D NULL). set (t := mk_hash_table NULL 0 0 0 0 NULL NULL 0 0 : shm_table).
  apply store_then_fault. change (NULL =? SHM_NULL) with false. cbv iota.
  eapply runs_bind; [eapply runs_load; [apply put_eq|done]|]. cbn [pptTable t]. fold base.
  apply store_then_fault. eapply load_then_fault; [apply put_eq|done].
Qed.

Lemma create_without_room_faults_witness :
  shmHashTableCreate sample_desc (mk_shm {[4096 := O_buf sample_buf; 4200 := O_block (mk_block [] 48 0 NULL NULL)]} 4200 0) = Fault.
Proof.
  apply (create_without_room_faults sample_desc 4248 4200).
  - split; [reflexivity|eexists; split; [vm_compute; reflexivity|by split]|cbn; lia].
  - vm_compute. reflexivity.
  - vm_compute. reflexivity.
Defined.

(** [basShmSearchTable] does not pass on its arguments but its [va_list],
    as the one argument of a function that reads its own: for every HASH or
    BINARY table with a key field this is undefined behaviour, whatever is
    searched. *)
Theorem shm_search_by_name_faults `{BasGlobal} `{BasHashConst} `{Hlaws : !BasHashLaws} `{ShmLayout} `{Hsizes : !SizeLaws}
    (D : T_ShmAppDesc) E T s k C name std def f fields ap :
  catalogue D E T s k C -> C !! name = Some (std, def) -> cstring name ->
  eSearchType (l_def def) = SEARCH_TYPE_HASH \/ eSearchType (l_def def) = SEARCH_TYPE_BINARY ->
  l_fields def = f :: fields -> eType f <> FIELD_TYPE_OTHER -> 0 < iKeyDefArrayLength (l_def def) ->
  basShmSearchTable D true (Some name) ap s = Fault.
Proof.
  intros Hcat HC Hn Hty Hfs Hf Hlen. pose proof (get_rep D E T s k C name Hcat Hn) as Hget. rewrite HC in Hget.
  destruct (ca_section _ _ _ _ _ _ Hcat) as (b & Y & _ & _ & _ & Hall). destruct (Hall _ _ _ HC) as (keys & d & c & a & X & Hld & _).
  specialize (Hget d (proj1 (rl_std _ _ _ _ _ _ _ (ld_rows _ _ _ _ _ _ _ _ _ _ Hld)))).
  unfold basShmSearchTable. eapply runs_bind; [exact Hget|]. unfold basSearchTableByShmDef.
  assert (eSearchType (absolute D d) = eSearchType (l_def def)) as ->
    by (rewrite <- (ld_type _ _ _ _ _ _ _ _ _ _ Hld); unfold absolute, set_ptHashTable; by case_match).
  destruct (fields_of_rep D (quiet s) _ _ _ _ _ _ _ _ Hld) as (g & Hg & Hform).
  assert (formKeyVararg (l_fields def) (iKeyDefArrayLength (l_def def)) [A_list] = Fault) as Hfault.
  { rewrite Hfs. unfold formKeyVararg. destruct (Z.to_nat (iKeyDefArrayLength (l_def def))) as [|n] eqn:En; [lia|].
    cbn [form_vararg_loop]. change (zget (f :: fields) 0) with (Ok f). cbn [mbind outcome_bind]. unfold field_of_arg.
    by destruct (eType f). }
  destruct Hty as [->| ->]; [unfold search_hash|unfold search_binary]; (eapply runs_bind; [exact Hg|]); rewrite Hform, Hfault; done.
Qed.

Lemma shm_search_by_name_faults_witness : exists s,
  basShmSearchTable sample_desc true (Some (lit "codes")) [A_text (lit "USD"); A_long 12] s = Fault.
Proof.
  destruct sample_loaded as (s & T & E & std & Hcat & _). exists s.
  apply (shm_search_by_name_faults sample_desc E T s 1 {[lit "codes" := (std, sample_codes)]} (lit "codes") std sample_codes
    (mk_field FIELD_TYPE_CHAR 0 4 0) [mk_field FIELD_TYPE_LONG 8 3 0]);
    [exact Hcat|apply lookup_singleton_eq|apply (bool_decide_unpack _); vm_compute; exact I|by right|reflexivity|done|vm_compute; reflexivity].
Defined.
