(* ===== verification/Annotations.v ===== *)
(** * Removing comments from C sources ([Frame_Multitool/Bin_Text/Bin_DelCodeAnnotation.c])

    The program copies its input to its output without the comments, one
    character at a time, with a mode and the last character read.  A source is
    seen as a list of pieces (code, comments, strings) as the program reads
    them, which is not always as C does; every source is such a list, and its
    output is given piece by piece. *)

From S2P Require Import Prelude LibC CHeap.

(** ** The program *)

Inductive annotation_mode : Type :=
  | literal
  | single
  | multiple
  | string_mode.

(** The body of the loop: the mode, what becomes [last], and the characters
    written. *)
Definition annotation_step (mode : annotation_mode) (last current : Z) : annotation_mode * Z * bytes :=
  match mode with
  | single =>
      if negb (last =? 92) && ((current =? 10) || (current =? 13)) then (literal, 0, [current])
      else (single, current, [])
  | multiple =>
      if (last =? 42) && (current =? 47) then (literal, 0, []) else (multiple, current, [])
  | string_mode =>
      if last =? 92 then (string_mode, current, [last; current])
      else if negb (current =? 92) then
        (if current =? 34 then literal else string_mode, current, [current])
      else (string_mode, current, [])
  | literal =>
      if last =? 47 then
        if current =? 47 then (single, current, [])
        else if current =? 42 then (multiple, current, [])
        else (literal, current, [last; current])
      else if negb (current =? 47) then
        (if current =? 34 then string_mode else literal, current, [current])
      else (literal, current, [])
  end.

(** [getchar] gives the bytes of the input one by one; [current] is a [char],
    so that the byte 255 is taken for the end.  [putchar] writes the byte. *)
Fixpoint annotation_loop (mode : annotation_mode) (last : Z) (input : bytes) : bytes :=
  match input with
  | [] => []
  | b :: input =>
      let current := schar b in
      if current =? EOF then []
      else
        let r := annotation_step mode last current in
        map u8 r.2 ++ annotation_loop r.1.1 r.1.2 input
  end.

Definition delete_annotations (input : bytes) : bytes := annotation_loop literal 0 input.

(** ** Sources *)

(** A character of a string, or [k + 1] backslashes and the character behind
    them, which does not end the string. *)
Inductive string_item : Type :=
  | Plain (c : Z)
  | Escaped (k : nat) (c : Z).

(** [Short_comment] is a star between two slashes. *)
Inductive source_piece : Type :=
  | Code (c : Z)
  | Slash (c : Z)
  | Line_comment (body : bytes) (line_end : Z)
  | Block_comment (body : bytes)
  | Short_comment
  | Quoted (items : list string_item).

(** What a source may end in: a slash, a comment or a string that is not
    ended, with the backslashes at its end. *)
Inductive unfinished : Type :=
  | Finished
  | Lone_slash
  | Open_line (body : bytes)
  | Open_block (body : bytes)
  | Open_string (items : list string_item) (k : nat).

Definition backslashes (k : nat) : bytes := replicate k 92.

Definition render_item (i : string_item) : bytes :=
  match i with Plain c => [c] | Escaped k c => backslashes (S k) ++ [c] end.
Definition render_items (items : list string_item) : bytes := concat (map render_item items).

Definition render_piece (p : source_piece) : bytes :=
  match p with
  | Code c => [c]
  | Slash c => [47; c]
  | Line_comment body e => [47; 47] ++ body ++ [e]
  | Block_comment body => [47; 42] ++ body ++ [42; 47]
  | Short_comment => [47; 42; 47]
  | Quoted items => [34] ++ render_items items ++ [34]
  end.
Definition render (ps : list source_piece) : bytes := concat (map render_piece ps).

Definition render_unfinished (u : unfinished) : bytes :=
  match u with
  | Finished => []
  | Lone_slash => [47]
  | Open_line body => [47; 47] ++ body
  | Open_block body => [47; 42] ++ body
  | Open_string items k => [34] ++ render_items items ++ backslashes k
  end.

(** What is left of each: of [k + 1] backslashes in a string, every one but the
    first is written twice. *)
Definition keep_item (i : string_item) : bytes :=
  match i with Plain c => [c] | Escaped k c => backslashes (2 * k + 1) ++ [c] end.
Definition keep_items (items : list string_item) : bytes := concat (map keep_item items).

Definition keep_piece (p : source_piece) : bytes :=
  match p with
  | Line_comment _ e => [e]
  | Block_comment _ | Short_comment => []
  | Quoted items => [34] ++ keep_items items ++ [34]
  | p => render_piece p
  end.
Definition without_comments (ps : list source_piece) : bytes := concat (map keep_piece ps).

Definition keep_unfinished (u : unfinished) : bytes :=
  match u with
  | Finished | Lone_slash | Open_line _ | Open_block _ => []
  | Open_string items k => [34] ++ keep_items items ++ backslashes (2 * (k - 1))
  end.

(** Any byte but the one that looks like the end of the input. *)
Definition source_char (c : Z) : Prop := 0 <= c < 255.
Definition newline (c : Z) : Prop := c = 10 \/ c = 13.

#[export] Instance source_char_dec c : Decision (source_char c).
Proof. unfold source_char. apply _. Defined.
#[export] Instance newline_dec c : Decision (newline c).
Proof. unfold newline. apply _. Defined.

(** In a line comment a line feed stands behind a backslash only. *)
Fixpoint line_open (last : Z) (body : bytes) : Prop :=
  match body with
  | [] => True
  | c :: body => source_char c /\ (newline c -> last = 92) /\ line_open c body
  end.

(** And the last character before its end is no backslash. *)
Definition line_body (before : Z) (body : bytes) : Prop := line_open before body /\ default before (last body) <> 92.

(** In a block comment no star is followed by a slash; the star that opens it
    counts for the program. *)
Fixpoint block_body (last : Z) (body : bytes) : Prop :=
  match body with
  | [] => True
  | c :: body => source_char c /\ ~ (last = 42 /\ c = 47) /\ block_body c body
  end.

Definition item_ok (i : string_item) : Prop :=
  match i with
  | Plain c => source_char c /\ c <> 34 /\ c <> 92
  | Escaped _ c => source_char c /\ c <> 92
  end.

Definition piece_ok (p : source_piece) : Prop :=
  match p with
  | Code c => source_char c /\ c <> 47 /\ c <> 34
  | Slash c => source_char c /\ c <> 47 /\ c <> 42
  | Line_comment body e => line_body 47 body /\ newline e
  | Block_comment body => block_body 42 body
  | Short_comment => True
  | Quoted items => Forall item_ok items
  end.

Definition unfinished_ok (u : unfinished) : Prop :=
  match u with
  | Finished | Lone_slash => True
  | Open_line body => line_open 47 body
  | Open_block body => block_body 42 body
  | Open_string items _ => Forall item_ok items
  end.

#[export] Instance line_open_dec body : forall before, Decision (line_open before body).
Proof. induction body as [|c body IH]; intros before; cbn [line_open]; [|specialize (IH c)]; apply _. Defined.
#[export] Instance block_body_dec body : forall before, Decision (block_body before body).
Proof. induction body as [|c body IH]; intros before; cbn [block_body]; [|specialize (IH c)]; apply _. Defined.
#[export] Instance item_ok_dec i : Decision (item_ok i).
Proof. destruct i; cbn [item_ok]; apply _. Defined.
#[export] Instance piece_ok_dec p : Decision (piece_ok p).
Proof. destruct p; cbn [piece_ok]; unfold line_body; apply _. Defined.
#[export] Instance unfinished_ok_dec u : Decision (unfinished_ok u).
Proof. destruct u; cbn [unfinished_ok]; apply _. Defined.

(** ** One piece after the other *)

Lemma schar_is_eof b : 0 <= b < 255 -> (schar b =? EOF) = false.
Proof.
  intros Hb. unfold schar, swrap, EOF. change (2 ^ (8 - 1)) with 128. change (2 ^ 8) with 256.
  apply Z.eqb_neq. div_lia.
Qed.

Lemma u8_schar b : 0 <= b < 256 -> u8 (schar b) = b.
Proof. intros Hb. unfold schar, swrap, uwrap. change (2 ^ (8 - 1)) with 128. change (2 ^ 8) with 256. div_lia. Qed.

Lemma schar_is b k : 0 <= b < 256 -> 0 <= k < 128 -> (schar b =? k) = (b =? k).
Proof.
  intros Hb Hk. unfold schar, swrap. change (2 ^ (8 - 1)) with 128. change (2 ^ 8) with 256.
  destruct (Z.eqb_spec b k); [apply Z.eqb_eq|apply Z.eqb_neq]; div_lia.
Qed.

(** One character of the text: the step compares bytes. *)
Lemma annotation_char mode last c input :
  source_char c ->
  annotation_loop mode last (c :: input) =
    map u8 (annotation_step mode last (schar c)).2 ++
    annotation_loop (annotation_step mode last (schar c)).1.1 (annotation_step mode last (schar c)).1.2 input.
Proof. intros Hc. cbn [annotation_loop]. by rewrite schar_is_eof. Qed.

(** Takes the next character through the step, in the mode it is in. *)
Ltac next_char :=
  rewrite annotation_char by (unfold source_char in *; lia); cbn [annotation_step];
  repeat match goal with
  | |- context [schar ?c =? ?k] => rewrite (schar_is c k) by (unfold source_char in *; lia)
  end;
  repeat match goal with
  | |- context [?c =? ?k] => destruct (Z.eqb_spec c k); try (unfold newline in *; lia)
  end; cbn [andb orb negb fst snd map app]; rewrite ?u8_schar by (unfold source_char in *; lia).

Lemma line_run : forall body before rest,
  0 <= before < 256 -> line_open before body ->
  annotation_loop single (schar before) (body ++ rest) = annotation_loop single (schar (default before (last body))) rest.
Proof.
  induction body as [|c body IH]; intros before rest Hl Hb; [done|].
  destruct Hb as (Hc & Hn & Hb). assert (0 <= c < 256) by (unfold source_char in Hc; lia).
  rewrite last_cons. cbn [app]. next_char; rewrite IH by done; by destruct (last body).
Qed.

Lemma line_end_run e before rest :
  newline e -> 0 <= before < 256 -> before <> 92 ->
  annotation_loop single (schar before) (e :: rest) = e :: annotation_loop literal 0 rest.
Proof. intros He Hl H92. assert (source_char e) by (destruct He; subst; unfold source_char; lia). by next_char. Qed.

Lemma line_open_last body : forall before, 0 <= before < 256 -> line_open before body -> 0 <= default before (last body) < 256.
Proof.
  induction body as [|c body IH]; intros before Hb Ho; [done|]. destruct Ho as (Hc & _ & Ho). unfold source_char in Hc.
  rewrite last_cons. pose proof (IH c ltac:(lia) Ho). destruct (last body); simpl in *; lia.
Qed.

Lemma block_run : forall body before rest,
  0 <= before < 256 -> block_body before body ->
  annotation_loop multiple (schar before) (body ++ rest) = annotation_loop multiple (schar (default before (last body))) rest.
Proof.
  induction body as [|c body IH]; intros before rest Hl Hb; [done|].
  destruct Hb as (Hc & Hn & Hb). assert (0 <= c < 256) by (unfold source_char in Hc; lia).
  rewrite last_cons. cbn [app]. next_char; rewrite IH by done; by destruct (last body).
Qed.

Lemma block_body_last body : forall before, 0 <= before < 256 -> block_body before body -> 0 <= default before (last body) < 256.
Proof.
  induction body as [|c body IH]; intros before Hb Ho; [done|]. destruct Ho as (Hc & _ & Ho). unfold source_char in Hc.
  rewrite last_cons. pose proof (IH c ltac:(lia) Ho). destruct (last body); simpl in *; lia.
Qed.

(** Backslashes behind a backslash are each written twice. *)
Lemma backslashes_run k rest :
  annotation_loop string_mode 92 (backslashes k ++ rest) = backslashes (2 * k) ++ annotation_loop string_mode 92 rest.
Proof.
  induction k as [|k IH]; [done|]. replace (2 * S k)%nat with (S (S (2 * k))) by lia. cbn [backslashes replicate app].
  rewrite annotation_char by (unfold source_char; lia). change (schar 92) with 92. cbn [annotation_step Z.eqb Pos.eqb fst snd map app].
  change (u8 92) with 92. fold (backslashes k). by rewrite IH.
Qed.

Lemma quoted_run : forall items before rest,
  0 <= before < 256 -> before <> 92 -> Forall item_ok items ->
  exists after, 0 <= after < 256 /\ after <> 92 /\
    annotation_loop string_mode (schar before) (render_items items ++ rest) =
      keep_items items ++ annotation_loop string_mode (schar after) rest.
Proof.
  unfold render_items, keep_items.
  induction items as [|i items IH]; intros before rest Hl H92 Hok; cbn [map concat app]; [by exists before|].
  apply Forall_cons in Hok as [Hi Hok]. destruct i as [c|k c].
  - destruct Hi as (Hc & ? & ?). destruct (IH c rest) as (after & ? & ? & Hr); [unfold source_char in Hc; lia|done..|].
    exists after. split_and!; [lia|lia|done|]. cbn [render_item keep_item app]. next_char. by rewrite Hr.
  - destruct Hi as (Hc & ?). destruct (IH c rest) as (after & ? & ? & Hr); [unfold source_char in Hc; lia|done..|].
    exists after. split_and!; [lia|lia|done|]. cbn [render_item keep_item]. rewrite <- !app_assoc. cbn [backslashes replicate app].
    rewrite annotation_char by (unfold source_char; lia). change (schar 92) with 92. cbn [annotation_step].
    rewrite (schar_is before 92) by lia. destruct (Z.eqb_spec before 92); [done|]. cbn [Z.eqb Pos.eqb negb fst snd map app].
    fold (backslashes k). rewrite backslashes_run. change (92 :: replicate (k + (k + 0)) 92) with (backslashes (S (2 * k))).
    replace (2 * k + 1)%nat with (S (2 * k)) by lia.
    rewrite annotation_char by done. cbn [annotation_step Z.eqb Pos.eqb fst snd map app]. change (u8 92) with 92.
    rewrite u8_schar by (unfold source_char in Hc; lia). rewrite Hr.
    replace (S (2 * k)) with (2 * k + 1)%nat by lia. unfold backslashes. rewrite replicate_add, <- app_assoc. done.
Qed.

Lemma quoted_end before rest :
  0 <= before < 256 -> before <> 92 ->
  annotation_loop string_mode (schar before) (34 :: rest) = 34 :: annotation_loop literal 34 rest.
Proof. intros. assert (source_char 34) by (unfold source_char; lia). by next_char. Qed.

Lemma piece_run p before rest :
  piece_ok p -> before <> 47 ->
  exists after, after <> 47 /\
    annotation_loop literal before (render_piece p ++ rest) = keep_piece p ++ annotation_loop literal after rest.
Proof.
  intros Hp Hl. destruct p as [c|c|body e|body| |items]; cbn [render_piece keep_piece app].
  - destruct Hp as (Hc & ? & ?). exists (schar c). split; [|by next_char].
    apply Z.eqb_neq. rewrite schar_is by (unfold source_char in Hc; lia). by apply Z.eqb_neq.
  - destruct Hp as (Hc & ? & ?). exists (schar c). split; [|by next_char; next_char].
    apply Z.eqb_neq. rewrite schar_is by (unfold source_char in Hc; lia). by apply Z.eqb_neq.
  - destruct Hp as [[Ho Hb] He]. exists 0. split; [done|]. next_char. next_char.
    rewrite <- app_assoc, line_run by done. cbn [app]. apply line_end_run; [done|by apply line_open_last|done].
  - exists 0. split; [done|]. next_char. next_char. rewrite <- app_assoc, block_run by done.
    pose proof (block_body_last body 42 ltac:(lia) Hp). cbn [app]. next_char; next_char; done.
  - exists 0. split; [done|]. next_char. next_char. by next_char.
  - exists 34. split; [done|]. next_char. rewrite <- !app_assoc. cbn [app]. f_equal.
    destruct (quoted_run items 34 (34 :: rest)) as (after & ? & ? & ->); [lia|done|done|]. f_equal. by apply quoted_end.
Qed.

Lemma pieces_run ps rest : forall before, Forall piece_ok ps -> before <> 47 ->
  exists after, after <> 47 /\
    annotation_loop literal before (render ps ++ rest) = without_comments ps ++ annotation_loop literal after rest.
Proof.
  unfold render, without_comments.
  induction ps as [|p ps IH]; intros before Hok Hl; [by exists before|]. apply Forall_cons in Hok as [Hp Hok].
  cbn [map concat]. rewrite <- !app_assoc. destruct (piece_run p before (concat (map render_piece ps) ++ rest) Hp Hl) as (a1 & Ha1 & ->).
  destruct (IH a1 Hok Ha1) as (a2 & Ha2 & ->). exists a2. by rewrite <- app_assoc.
Qed.

Lemma unfinished_run u before :
  unfinished_ok u -> before <> 47 -> annotation_loop literal before (render_unfinished u) = keep_unfinished u.
Proof.
  intros Hu Hl. destruct u as [| |body|body|items k]; cbn [render_unfinished keep_unfinished app]; [done|by next_char| | |].
  - next_char. next_char. by rewrite <- (app_nil_r body), line_run by done.
  - next_char. next_char. by rewrite <- (app_nil_r body), block_run by done.
  - next_char. cbn [unfinished_ok] in Hu. destruct (quoted_run items 34 (backslashes k)) as (after & ? & ? & ->); [lia|done|done|].
    do 2 f_equal. destruct k as [|k]; [done|]. cbn [backslashes replicate]. next_char.
    fold (backslashes k). change (schar 92) with 92. rewrite <- (app_nil_r (backslashes k)), backslashes_run.
    replace (S k - 1)%nat with k by lia. by rewrite app_nil_r.
Qed.

(** ** Every source is made of pieces *)

Lemma line_splits t : forall before, Forall source_char t ->
  (exists body e rest, t = body ++ e :: rest /\ line_body before body /\ newline e) \/ line_open before t.
Proof.
  induction t as [|c t IH]; intros before Hs; [by right|]. apply Forall_cons in Hs as [Hc Hs].
  destruct (decide (newline c /\ before <> 92)) as [[Hn Hb]|Hno]; [left; by exists [], c, t|].
  assert (newline c -> before = 92) as Hn by (intros Hn; destruct (decide (before = 92)); [done|by destruct Hno]).
  destruct (IH c Hs) as [(body & e & rest & -> & [Ho Hl] & He)|Ho]; [left|by right].
  exists (c :: body), e, rest. split_and!; [done| |done]. split; [done|]. rewrite last_cons. by destruct (last body).
Qed.

Lemma block_splits t : forall before, Forall source_char t ->
  (exists rest, before = 42 /\ t = 47 :: rest) \/
  (exists body rest, t = body ++ 42 :: 47 :: rest /\ block_body before body) \/ block_body before t.
Proof.
  induction t as [|c t IH]; intros before Hs; [by right; right|]. apply Forall_cons in Hs as [Hc Hs].
  destruct (decide (before = 42 /\ c = 47)) as [[-> ->]|Hno]; [left; by exists t|]. right.
  destruct (IH c Hs) as [(rest & -> & ->)|[(body & rest & -> & Hb)|Hb]]; [left; by exists [], rest|left|by right].
  by exists (c :: body), rest.
Qed.

(** The backslashes at the head of a text. *)
Lemma backslash_run t : exists k rest, t = backslashes k ++ rest /\ hd 0 rest <> 92.
Proof.
  induction t as [|c t (k & rest & -> & Hr)]; [by exists 0%nat, []|].
  destruct (decide (c = 92)) as [->|Hc]; [by exists (S k), rest|by exists 0%nat, (c :: backslashes k ++ rest)].
Qed.

Lemma string_splits n : forall t, (length t <= n)%nat -> Forall source_char t ->
  (exists items rest, t = render_items items ++ 34 :: rest /\ Forall item_ok items) \/
  (exists items k, t = render_items items ++ backslashes k /\ Forall item_ok items).
Proof.
  induction n as [|n IH]; intros t Hn Hs; [destruct t; [|simpl in Hn; lia]; right; by exists [], 0%nat|].
  destruct (backslash_run t) as (k & rest & -> & Hr). apply Forall_app in Hs as [_ Hs].
  rewrite length_app in Hn. unfold backslashes at 1 in Hn. rewrite length_replicate in Hn.
  destruct rest as [|c rest]; [right; exists [], k; by rewrite app_nil_r|]. cbn [hd length] in *. apply Forall_cons in Hs as [Hc Hs].
  assert (forall i, item_ok i -> render_item i = backslashes k ++ [c] ->
    (exists items rest', backslashes k ++ c :: rest = render_items items ++ 34 :: rest' /\ Forall item_ok items) \/
    (exists items j, backslashes k ++ c :: rest = render_items items ++ backslashes j /\ Forall item_ok items)) as Hitem.
  { intros i Hi Ei. change (backslashes k ++ c :: rest) with (backslashes k ++ [c] ++ rest). rewrite app_assoc, <- Ei.
    destruct (IH rest) as [(items & r & -> & Hok)|(items & j & -> & Hok)]; [lia|done|left; exists (i :: items), r|right; exists (i :: items), j];
      (split; [|by constructor]); unfold render_items; cbn [map concat]; by rewrite <- app_assoc. }
  destruct k as [|k].
  - destruct (decide (c = 34)) as [->|]; [left; by exists [], rest|]. by apply (Hitem (Plain c)).
  - by apply (Hitem (Escaped k c)).
Qed.

(** Any source but one with the byte 255 is a list of pieces with an unfinished
    one at its end. *)
Lemma source_splits n : forall t, (length t <= n)%nat -> Forall source_char t ->
  exists ps u, t = render ps ++ render_unfinished u /\ Forall piece_ok ps /\ unfinished_ok u.
Proof.
  induction n as [|n IH]; intros t Hn Hs; [destruct t; [|simpl in Hn; lia]; by exists [], Finished|].
  destruct t as [|c t]; [by exists [], Finished|]. apply Forall_cons in Hs as [Hc Hs]. cbn [length] in Hn.
  assert (forall p rest, piece_ok p -> c :: t = render_piece p ++ rest ->
    exists ps u, c :: t = render ps ++ render_unfinished u /\ Forall piece_ok ps /\ unfinished_ok u) as Hpiece.
  { intros p rest Hp E. assert (Forall source_char (render_piece p ++ rest)) as Hr by (rewrite <- E; by constructor).
    apply Forall_app in Hr as [_ Hr]. apply (f_equal length) in E as El. rewrite length_app in El. cbn [length] in El.
    assert (1 <= length (render_piece p))%nat by (destruct p; simpl; lia).
    destruct (IH rest) as (ps & u & -> & Hps & Hu); [lia|done|]. exists (p :: ps), u. rewrite E. unfold render. cbn [map concat].
    rewrite <- app_assoc. split_and!; [done|by constructor|done]. }
  destruct (decide (c = 34)) as [->|]; [|destruct (decide (c = 47)) as [->|]; [|by apply (Hpiece (Code c) t)]].
  - destruct (string_splits (length t) t) as [(items & rest & -> & Hi)|(items & k & -> & Hi)]; [lia|done| |].
    + apply (Hpiece (Quoted items) rest); [done|]. cbn [render_piece app]. by rewrite <- app_assoc.
    + by exists [], (Open_string items k).
  - destruct t as [|d t]; [by exists [], Lone_slash|]. apply Forall_cons in Hs as [Hd Hs].
    destruct (decide (d = 47)) as [->|]; [|destruct (decide (d = 42)) as [->|]; [|by apply (Hpiece (Slash d) t)]].
    + destruct (line_splits t 47 Hs) as [(body & e & rest & -> & Hb & He)|Ho]; [|by exists [], (Open_line t)].
      apply (Hpiece (Line_comment body e) rest); [done|]. cbn [render_piece app]. by rewrite <- app_assoc.
    + destruct (block_splits t 42 Hs) as [(rest & _ & ->)|[(body & rest & -> & Hb)|Hb]];
        [by apply (Hpiece Short_comment rest)| |by exists [], (Open_block t)].
      apply (Hpiece (Block_comment body) rest); [done|]. cbn [render_piece app]. by rewrite <- app_assoc.
Qed.

(** ** The whole source *)

(** The pieces of a source, as the program delimits them. *)
Definition pieces_of (input : bytes) (ps : list source_piece) (u : unfinished) : Prop :=
  input = render ps ++ render_unfinished u /\ Forall piece_ok ps /\ unfinished_ok u.

(** C23: every source without the byte 255 is a list of pieces as the program
    delimits them, the last perhaps unfinished, and the program writes them
    without the comments: a line comment leaves the end of its line, a block
    comment nothing, what looks like a comment in a string is kept.  The pieces
    are not always those of C, and the output is not always the source: a
    character constant with a quote begins a string, a slash between code and a
    quote does not let one begin, a star between two slashes is a whole comment,
    every backslash of a run in a string but the first is written twice and the
    run escapes what is behind it, and a slash at the end is lost. *)
Theorem annotations_removed input :
  Forall source_char input ->
  (exists ps u, pieces_of input ps u) /\
  (forall ps u, pieces_of input ps u -> delete_annotations input = without_comments ps ++ keep_unfinished u).
Proof.
  intros Hs. split.
  - destruct (source_splits (length input) input) as (ps & u & H); [lia|done|]. by exists ps, u.
  - intros ps u (-> & Hps & Hu). unfold delete_annotations.
    destruct (pieces_run ps (render_unfinished u) 0 Hps) as (after & Ha & ->); [done|]. by rewrite unfinished_run.
Qed.

(** Code with a division, a block comment, a string with an escaped quote, two
    slashes and two backslashes before its end, which the program takes for an
    escape, so that the comment behind it is kept. *)
Definition sample_source : bytes :=
  lit "x=a/b;/* a*b */" ++ [34; 97; 92; 34; 47; 47; 34] ++ lit "//c" ++ [10; 34; 92; 92; 34] ++ lit "//d".

Lemma annotations_removed_witness :
  delete_annotations sample_source =
    lit "x=a/b;" ++ [34; 97; 92; 34; 47; 47; 34; 10; 34; 92; 92; 92; 34] ++ lit "//d".
Proof.
  destruct (annotations_removed sample_source) as [_ H]; [by apply (bool_decide_unpack _)|].
  apply (H (map Code (lit "x=a") ++ [Slash 98; Code 59; Block_comment (lit " a*b "); Quoted [Plain 97; Escaped 0 34; Plain 47; Plain 47];
    Line_comment (lit "c") 10]) (Open_string [Escaped 1 34; Plain 47; Plain 47; Plain 100] 0)).
  split_and!; [reflexivity|by apply (bool_decide_unpack _)..].
Defined.

(** Where the program differs: behind an escaped backslash a string does not
    end and gains a backslash; the star of [/*] closes the comment with the next
    slash; a quote as a character constant opens a string; the byte 255 ends
    the input; a slash at the end is lost. *)
Theorem annotations_left :
  delete_annotations ([34; 92; 92; 34] ++ lit "//c") = [34; 92; 92; 92; 34] ++ lit "//c" /\
  delete_annotations (lit "a/*/b*/c") = lit "ab*/c" /\
  delete_annotations (lit "'" ++ [34] ++ lit "'//c") = lit "'" ++ [34] ++ lit "'//c" /\
  delete_annotations (lit "a" ++ [255] ++ lit "b") = lit "a" /\
  delete_annotations (lit "a/") = lit "a".
Proof. by vm_compute. Qed.
