(* ===== verification/BasConfig.v ===== *)
(** * Configuration of the bas library ([bas_profile.c], [bas_expand_macro.c],
    [bas_getopt.c]): definitions

    The profile with its sections and entries, the expansion of macros by the
    environment, and the options of the command line.  Log messages and error
    messages are left out. *)

From S2P Require Import Prelude LibC Buffers BasString CHeap LibString.

(** ** [bas_profile.c] *)

(** The constants of [limits.h], and those of the missing headers
    [bas_global.h] and [bas_profile.h]. *)
Definition _POSIX_MAX_INPUT : Z := 255.
Definition _POSIX_PATH_MAX : Z := 256.

Class ProfileConst : Type := {
  BAS_SUCCESS : Z;
  BAS_FAILURE : Z;
  PFL_MEMO_CHARACTER : Z;
  _IS_COMMENT : Z -> bool;
  _IS_STRING_BORDER : Z -> bool;
}.

(** [c == ' ' || c == '\t'] *)
Definition is_blank (c : Z) : bool := (c =? 32) || (c =? 9).

Section profile.
Context `{ProfileConst}.

(** The result, and the static [gsaConfigFileName]; [APPHOME] is what [getenv]
    gives. *)
Definition tPflInit (APPHOME : option bytes) : outcome (Z * bytes) :=
  let gsaConfigFileName := memset 0 (_POSIX_PATH_MAX + 1) in
  match APPHOME with
  | None => Ok (BAS_FAILURE, gsaConfigFileName)
  | Some spTmp =>
      n ← strlen spTmp;
      if _POSIX_PATH_MAX + 13 <? n then Ok (BAS_FAILURE, gsaConfigFileName)
      else
        gsaConfigFileName ← strcpy gsaConfigFileName spTmp;
        gsaConfigFileName ← strcat gsaConfigFileName (lit "/etc/app.ini" ++ [0]);
        Ok (BAS_SUCCESS, gsaConfigFileName)
  end.

(** The inner loop of [_vClearBlank]: blanks from [j] downwards become NUL. *)
Definition clear_back (n : nat) (j : Z) (vspLine : bytes) : outcome bytes :=
  for_loop n j (-1) (λ j vspLine,
    c ← zget vspLine j;
    if is_blank c then vspLine ← zset vspLine j 0; Ok (vspLine, true) else Ok (vspLine, false)) vspLine.

(** Its first loop; the fuel is the length of the array. *)
Fixpoint cut_comment (fuel : nat) (i : Z) (vspLine : bytes) : outcome bytes :=
  match fuel with
  | O => NoFuel
  | S fuel =>
      c ← zget vspLine i;
      if c =? 0 then Ok vspLine
      else if (c =? PFL_MEMO_CHARACTER) || (c =? 10) then
        vspLine ← zset vspLine i 0;
        if i =? 0 then Ok vspLine else clear_back (Z.to_nat i) (i - 1) vspLine
      else cut_comment fuel (i + 1) vspLine
  end.

(** [while (vspLine[i] != '=' && i < strlen(vspLine)) i++;] *)
Fixpoint find_equals (fuel : nat) (i : Z) (vspLine : bytes) : outcome Z :=
  match fuel with
  | O => NoFuel
  | S fuel =>
      c ← zget vspLine i;
      n ← strlen vspLine;
      if negb (c =? 61) && (i <? n) then find_equals fuel (i + 1) vspLine else Ok i
  end.

(** The position, from [j] in steps of [d], of the first byte that is no blank. *)
Fixpoint skip_blanks (fuel : nat) (j d : Z) (vspLine : bytes) : outcome Z :=
  match fuel with
  | O => NoFuel
  | S fuel =>
      c ← zget vspLine j;
      if is_blank c then skip_blanks fuel (j + d) d vspLine else Ok j
  end.

(** The second half: the blanks around the first equals sign. *)
Definition squeeze_equals (fuel : nat) (vspLine : bytes) : outcome bytes :=
  i ← find_equals fuel 0 vspLine;
  n ← strlen vspLine;
  if i =? n then Ok vspLine
  else
    j ← skip_blanks fuel (i - 1) (-1) vspLine;
    k ← skip_blanks fuel (i + 1) 1 vspLine;
    let buf := memset 0 _POSIX_MAX_INPUT in
    name ← peek vspLine 0 (j + 1);
    buf ← poke buf 0 name;
    buf ← zset buf (j + 1) 61;
    tail ← strlen (drop (Z.to_nat (j + 2)) buf);
    buf ← poke buf (j + 2 + tail) (content (drop (Z.to_nat k) vspLine) ++ [0]);
    strcpy vspLine buf.

Definition _vClearBlank (vspLine : bytes) : outcome bytes :=
  let fuel := S (length vspLine) in
  vspLine ← cut_comment fuel 0 vspLine;
  squeeze_equals fuel vspLine.

Definition _tIsSection (vspLine : bytes) : outcome bool := c ← zget vspLine 0; Ok (c =? 91).

Definition _tIsThisSection (vspLine vspSection : bytes) : outcome bool :=
  n ← strlen vspSection;
  same ← same_bytes (Z.to_nat n) vspLine 1 vspSection 0;
  if same : bool then c ← zget vspLine (n + 1); Ok (c =? 93) else Ok false.

Definition _tIsThisEntry (vspLine vspEntry : bytes) : outcome bool :=
  n ← strlen vspEntry;
  same ← same_bytes (Z.to_nat n) vspLine 0 vspEntry 0;
  if same : bool then c ← zget vspLine n; Ok (c =? 61) else Ok false.

(** [while (vspLine[i++] != '=');] *)
Fixpoint behind_equals (fuel : nat) (i : Z) (vspLine : bytes) : outcome Z :=
  match fuel with
  | O => NoFuel
  | S fuel => c ← zget vspLine i; if c =? 61 then Ok (i + 1) else behind_equals fuel (i + 1) vspLine
  end.

Definition _vCutContent (vspLine vspDest : bytes) : outcome bytes :=
  i ← behind_equals (S (length vspLine)) 0 vspLine;
  strcpy vspDest (drop (Z.to_nat i) vspLine).

(** The loop over the lines: the value written, [None] when there is none. *)
Fixpoint profile_loop (fuel : nat) (vspSection vspEntry vspValue saLine : bytes) (fp : FILE) (tInSection : bool) :
    outcome (option bytes) :=
  match fuel with
  | O => NoFuel
  | S fuel =>
      r ← fgets saLine _POSIX_MAX_INPUT fp;
      match r.1 with
      | None => Ok None
      | Some saLine =>
          saLine ← _vClearBlank saLine;
          section ← _tIsSection saLine;
          if section : bool then
            tInSection ← _tIsThisSection saLine vspSection;
            profile_loop fuel vspSection vspEntry vspValue saLine r.2 tInSection
          else if negb tInSection then profile_loop fuel vspSection vspEntry vspValue saLine r.2 tInSection
          else
            entry ← _tIsThisEntry saLine vspEntry;
            if entry : bool then value ← _vCutContent saLine vspValue; Ok (Some value)
            else profile_loop fuel vspSection vspEntry vspValue saLine r.2 tInSection
      end
  end.

(** The result and the caller's [vspValue]; [vspFilename] is the file itself,
    [saLine] what the local array holds before the first line. *)
Definition tPflGetString (vspSection vspEntry : bytes) (vspFilename : option bytes) (vspValue saLine : bytes) :
    outcome (Z * bytes) :=
  match fopen_r vspFilename with
  | None => Ok (BAS_FAILURE, vspValue)
  | Some fp =>
      value ← profile_loop (S (length (f_data fp))) vspSection vspEntry vspValue saLine fp false;
      Ok (match value with Some value => (BAS_SUCCESS, value) | None => (BAS_FAILURE, vspValue) end)
  end.

(** The three number readers differ in the conversion only: the result and the
    number. *)
Definition profile_number (convert : bytes -> Z) (vspSection vspEntry : bytes) (vspFilename : option bytes)
    (buf saLine : bytes) : outcome (Z * Z) :=
  r ← tPflGetString vspSection vspEntry vspFilename buf saLine;
  if negb (r.1 =? BAS_SUCCESS) then Ok (BAS_FAILURE, 0)
  else Ok (BAS_SUCCESS, convert (content r.2)).

Definition tPflGetInt := profile_number atoi.
Definition tPflGetShort := profile_number (λ s, s16 (atoi s)).
Definition tPflGetLong := profile_number atol.

(** ** Trimming *)

(** [while (j < tLen && (s[j] == ' ' || s[j] == '\t')) j++;] with [n] bytes to
    go. *)
Fixpoint leading_blanks (n : nat) (j : Z) (s : bytes) : outcome Z :=
  match n with
  | O => Ok j
  | S n => c ← zget s j; if is_blank c then leading_blanks n (j + 1) s else Ok j
  end.

(** The result and the string. *)
Definition tLTrim (vspString : bytes) : outcome (Z * bytes) :=
  tLen ← strlen vspString;
  c ← zget vspString 0;
  if negb (is_blank c) then Ok (tLen, vspString)
  else
    j ← leading_blanks (Z.to_nat tLen) 0 vspString;
    s ← for_loop (Z.to_nat (tLen - j)) 0 1 (λ i s, c ← zget s (i + j); s ← zset s i c; Ok (s, true)) vspString;
    s ← zset s (tLen - j) 0;
    Ok (tLen - j, s).

Definition trimmed_off (c : Z) : bool := is_blank c || (c =? 10).

(** The state of the loop is the string and [i]. *)
Definition tRTrim (vspString : bytes) : outcome (Z * bytes) :=
  n ← strlen vspString;
  r ← for_loop (Z.to_nat n) (n - 1) (-1) (λ i s,
        c ← zget s.1 i;
        if trimmed_off c then t ← zset s.1 i 0; Ok ((t, i - 1), true) else Ok ((s.1, i), false)) (vspString, n - 1);
  Ok (r.2 + 1, r.1).

Definition tAllTrim (vspString : bytes) : outcome (Z * bytes) :=
  r ← tRTrim vspString; tLTrim r.2.

Definition _tTrimComment (vspString : bytes) : outcome (Z * bytes) :=
  tLen ← strlen vspString;
  s ← for_loop (Z.to_nat tLen) 0 1 (λ i s,
        c ← zget s i;
        if _IS_COMMENT c then s ← zset s i 0; Ok (s, true) else Ok (s, true)) vspString;
  Ok (tLen, s).

(** One round of [_tTrimExtraSpace]: the string, [i], [tInString], [tInSpace]. *)
Definition extra_space_step (j : Z) (st : bytes * Z * bool * bool) : outcome (bytes * Z * bool * bool) :=
  let '(s, i, tInString, tInSpace) := st in
  c ← zget s j;
  if _IS_STRING_BORDER c then s ← zset s i c; Ok (s, i + 1, negb tInString, false)
  else if tInString then s ← zset s i c; Ok (s, i + 1, tInString, tInSpace)
  else if c =? 61 then
    let i := if tInSpace && (0 <? i) then i - 1 else i in
    s ← zset s i c; Ok (s, i + 1, tInString, true)
  else if is_blank c then
    if negb tInSpace then s ← zset s i c; Ok (s, i + 1, tInString, true)
    else Ok (s, i, tInString, tInSpace)
  else s ← zset s i c; Ok (s, i + 1, tInString, false).

Definition _tTrimExtraSpace (vspString : bytes) : outcome (Z * bytes) :=
  tLen ← strlen vspString;
  st ← for_loop (Z.to_nat tLen) 0 1 (λ j st, st ← extra_space_step j st; Ok (st, true)) (vspString, 0, false, true);
  let i := st.1.1.2 in
  s ← zset st.1.1.1 i 0;
  Ok (i, s).
End profile.

(** ** [bas_expand_macro.c] *)

Section macro.
(** The environment: the value of a name. *)
Context (getenv : bytes -> option bytes).

(** [isalpha( *s) || *s == '_'], in the C locale. *)
Definition macro_char (c : Z) : bool :=
  ((65 <=? c) && (c <=? 90)) || ((97 <=? c) && (c <=? 122)) || (c =? 95).

(** [s], the state, whether the last character was a backslash, the buffer with
    the place [p] points to, and the name with the place [q] points to. *)
Fixpoint macro_loop (s : bytes) (iState : Z) (bPrevIsEscape : bool) (mcaBuffer : bytes) (p : Z)
    (caMacro : bytes) (q : Z) : outcome bytes :=
  match s with
  | [] => Ok mcaBuffer
  | c :: s =>
      if c =? 0 then Ok mcaBuffer
      else if iState =? 0 then
        if (c =? 36) && negb bPrevIsEscape then
          macro_loop
            match s with d :: t => if (d =? 123) || (d =? 40) then t else s | [] => s end
            1 bPrevIsEscape mcaBuffer p caMacro 0
        else
          mcaBuffer ← zset mcaBuffer p c;
          macro_loop s 0 (c =? 92) mcaBuffer (p + 1) caMacro q
      else if negb (macro_char c) then
        caMacro ← zset caMacro q 0;
        r ← match getenv (content caMacro) with
            | None => Ok (mcaBuffer, p)
            | Some value =>
                mcaBuffer ← poke mcaBuffer p (content value ++ [0]);
                Ok (mcaBuffer, p + zlen (content value))
            end;
        r ← (if (c =? 125) || (c =? 41) then Ok r
             else mcaBuffer ← zset r.1 r.2 c; Ok (mcaBuffer, r.2 + 1));
        macro_loop s 0 (c =? 92) r.1 r.2 caMacro q
      else
        caMacro ← zset caMacro q c;
        macro_loop s 1 (c =? 92) mcaBuffer p caMacro (q + 1)
  end.

(** The static buffer afterwards; [caMacro] is what the local array holds. *)
Definition basExpandMacro (caMacro pcStr : bytes) : outcome bytes :=
  macro_loop pcStr 0 false (memset 0 4096) 0 caMacro 0.

(** [strcpy(mcaFullName, getenv("APPHOME"))], or [HOME] when it is not set. *)
Definition home_name (mcaFullName : bytes) : outcome bytes :=
  match getenv (lit "APPHOME") with
  | None => match getenv (lit "HOME") with None => Fault | Some v => strcpy mcaFullName (content v ++ [0]) end
  | Some v => strcpy mcaFullName (content v ++ [0])
  end.

(** The static buffer afterwards; [pcDefaultDir] is [None] for NULL. *)
Definition basGetFileFullName (caMacro caFileName mcaFullName pcFileName : bytes) (pcDefaultDir : option bytes) :
    outcome bytes :=
  file ← basExpandMacro caMacro pcFileName;
  caFileName ← strcpy caFileName file;
  c ← zget caFileName 0;
  if c =? 47 then strcpy mcaFullName caFileName
  else
    mcaFullName ←
      match pcDefaultDir with
      | None => home_name mcaFullName
      | Some pcDefaultDir =>
          if hd 0 pcDefaultDir =? 47 then
            dir ← basExpandMacro caMacro pcDefaultDir; strcpy mcaFullName dir
          else
            mcaFullName ← home_name mcaFullName;
            mcaFullName ← strcat mcaFullName (lit "/" ++ [0]);
            dir ← basExpandMacro caMacro pcDefaultDir; strcat mcaFullName dir
      end;
    n ← strlen mcaFullName;
    c ← zget mcaFullName (n - 1);
    mcaFullName ← (if negb (c =? 47) then strcat mcaFullName (lit "/" ++ [0]) else Ok mcaFullName);
    file ← basExpandMacro caMacro pcFileName;
    strcat mcaFullName file.
End macro.

(** ** [bas_getopt.c] *)

(** [EMSG], the empty string, or a place in one of the arguments. *)
Inductive arg_place : Type :=
  | Emsg
  | At (arg off : Z).

(** The variables of the file, and the static [place]; [gpcOptarg] is [None]
    for NULL. *)
Record opt_state : Type := mk_opt {
  giOptind : Z;
  giOptopt : Z;
  giOptreset : Z;
  gpcOptarg : option arg_place;
  place : arg_place;
}.

Definition opt_initial : opt_state := mk_opt 1 0 0 None Emsg.

Section getopt.
(** [nargv\[nargc\]] is NULL. *)
Context (nargv : list bytes) (ostr : bytes).
Let nargc : Z := zlen nargv.

(** [*place]: the terminator follows the last byte. *)
Definition char_at (p : arg_place) : outcome Z :=
  match p with
  | Emsg => Ok 0
  | At arg off => s ← zget nargv arg; zget (s ++ [0]) off
  end.

Definition next_place (p : arg_place) : arg_place :=
  match p with Emsg => Emsg | At arg off => At arg (off + 1) end.

(** [nargv\[i\]], which may be NULL. *)
Definition argument (i : Z) : outcome arg_place :=
  if (0 <=? i) && (i <=? nargc) then Ok (At i 0) else Fault.

(** [strchr(s, c)] for a character other than NUL: what follows it. *)
Fixpoint strchr_rest (s : bytes) (c : Z) : option bytes :=
  match s with
  | [] => None
  | x :: s => if x =? 0 then None else if schar x =? c then Some s else strchr_rest s c
  end.

(** [while (giOptind < nargc && *place != '-') place = nargv\[++giOptind\];] *)
Fixpoint find_option (fuel : nat) (giOptind : Z) (place : arg_place) : outcome (Z * arg_place) :=
  match fuel with
  | O => NoFuel
  | S fuel =>
      if giOptind <? nargc then
        c ← char_at place;
        if negb (c =? 45) then
          place ← argument (giOptind + 1); find_option fuel (giOptind + 1) place
        else Ok (giOptind, place)
      else Ok (giOptind, place)
  end.

(** The place behind the dash of the next argument that is an option, [None]
    when there is none. *)
Definition option_dash (giOptind : Z) : outcome (Z * option arg_place) :=
  place ← argument giOptind;
  first ← (if nargc <=? giOptind then Ok (true, place)
           else c ← char_at place; Ok (negb (c =? 45), next_place place));
  if first.1 : bool then
    r ← find_option (S (Z.to_nat (nargc - giOptind))) giOptind first.2;
    if nargc <=? r.1 then Ok (r.1, None)
    else
      c ← char_at r.2;
      if negb (c =? 45) then Ok (r.1, None) else Ok (r.1, Some (next_place r.2))
  else Ok (giOptind, Some first.2).

(** The first half: the next option letter, [false] for the return of -1. *)
Definition option_letter (g : opt_state) : outcome (bool * opt_state) :=
  c ← (if giOptreset g =? 0 then char_at (place g) else Ok 0);
  if c =? 0 then
    d ← option_dash (giOptind g);
    match d.2 with
    | None => Ok (false, mk_opt d.1 (giOptopt g) 0 (gpcOptarg g) Emsg)
    | Some place =>
        giOptopt ← char_at place;
        let giOptopt := schar giOptopt in
        let place := next_place place in
        if giOptopt =? 0 then
          if bool_decide (strchr_rest ostr 45 = None)
          then Ok (false, mk_opt d.1 giOptopt 0 (gpcOptarg g) Emsg)
          else Ok (true, mk_opt d.1 45 0 (gpcOptarg g) Emsg)
        else
          c ← char_at place;
          if (giOptopt =? 45) && (c =? 0) then Ok (false, mk_opt (d.1 + 1) giOptopt 0 (gpcOptarg g) Emsg)
          else Ok (true, mk_opt d.1 giOptopt 0 (gpcOptarg g) place)
    end
  else
    Ok (true, mk_opt (giOptind g) (schar c) 0 (gpcOptarg g) (next_place (place g))).

(** [if ( *place == 0) ++giOptind;] *)
Definition end_of_argument (g : opt_state) : outcome opt_state :=
  c ← char_at (place g);
  Ok (mk_opt (if c =? 0 then giOptind g + 1 else giOptind g) (giOptopt g) (giOptreset g) (gpcOptarg g) (place g)).

(** The argument of an option. *)
Definition option_argument (g : opt_state) : outcome (Z * opt_state) :=
  c ← char_at (place g);
  if negb (c =? 0) then
    Ok (giOptopt g, mk_opt (giOptind g + 1) (giOptopt g) (giOptreset g) (Some (place g)) Emsg)
  else if giOptind g + 1 <? nargc then
    arg ← argument (giOptind g + 1);
    Ok (giOptopt g, mk_opt (giOptind g + 2) (giOptopt g) (giOptreset g) (Some arg) Emsg)
  else
    Ok (if hd 0 ostr =? 58 then 58 else 63,
        mk_opt (giOptind g + 1) (giOptopt g) (giOptreset g) (gpcOptarg g) Emsg).

(** The second half: the letter among the options of the caller. *)
Definition option_found (g : opt_state) : outcome (Z * opt_state) :=
  match (if giOptopt g =? 58 then None else strchr_rest ostr (giOptopt g)) with
  | None => g ← end_of_argument g; Ok (63, g)
  | Some oli =>
      if negb (hd 0 oli =? 58) then
        g ← end_of_argument (mk_opt (giOptind g) (giOptopt g) (giOptreset g) None (place g));
        Ok (giOptopt g, g)
      else option_argument g
  end.

Definition basGetopt (g : opt_state) : outcome (Z * opt_state) :=
  r ← option_letter g;
  if negb r.1 then Ok (-1, r.2) else option_found r.2.

(** [while ((c = basGetopt(nargc, nargv, ostr)) != -1) ...]: the codes and what
    [gpcOptarg] points to. *)
Definition text_at (p : arg_place) : outcome bytes :=
  match p with Emsg => Ok [] | At arg off => s ← zget nargv arg; Ok (drop (Z.to_nat off) s) end.

Fixpoint read_options (fuel : nat) (g : opt_state) : outcome (list (Z * option bytes) * opt_state) :=
  match fuel with
  | O => NoFuel
  | S fuel =>
      r ← basGetopt g;
      if r.1 =? -1 then Ok ([], r.2)
      else
        arg ← match gpcOptarg r.2 with None => Ok None | Some p => s ← text_at p; Ok (Some s) end;
        rest ← read_options fuel r.2;
        Ok ((r.1, arg) :: rest.1, rest.2)
  end.
End getopt.
