(* ===== verification/BasConfigFacts.v ===== *)
(** * What the configuration routines of the bas library do

    Macros are expanded piece by piece, the options of a command line are read
    as they were grouped, and a profile is looked up line by line. *)

From S2P Require Import Prelude LibC Buffers BasString BasStringFacts CHeap LibString.
From S2P Require Import LibStringFacts BasConfig.

(** ** Strings in zeroed buffers *)

#[local] Opaque memset.

(** A buffer of [n] bytes with [s] at its beginning and zeros behind it. *)
Definition zeroed (n : Z) (s : bytes) : bytes := s ++ memset 0 (n - zlen s).

Lemma zeroed_nil n : memset 0 n = zeroed n [].
Proof. unfold zeroed. cbn [app]. f_equal. unfold zlen. simpl. lia. Qed.

Lemma zeroed_put n s c : zlen s < n -> zset (zeroed n s) (zlen s) c = Ok (zeroed n (s ++ [c])).
Proof.
  intros Hn. unfold zeroed. rewrite memset_S by lia. rewrite zset_middle by done.
  rewrite <- app_assoc. cbn [app]. do 4 f_equal. zlen_lia.
Qed.

Lemma zeroed_poke n s t : zlen s + zlen t < n -> poke (zeroed n s) (zlen s) (t ++ [0]) = Ok (zeroed n (s ++ t)).
Proof.
  intros Hn. pose proof (zlen_nonneg t). unfold zeroed.
  replace (n - zlen s) with ((zlen t + 1) + (n - zlen (s ++ t) - 1)) by (rewrite zlen_app; lia).
  rewrite memset_split by (rewrite ?zlen_app; lia).
  rewrite poke_layout; [|done|rewrite zlen_memset0 by lia; zlen_lia].
  f_equal. rewrite <- !app_assoc. do 2 f_equal. cbn [app].
  rewrite (memset_S (n - zlen (s ++ t))) by (rewrite zlen_app; lia). done.
Qed.

Lemma zeroed_end n s : zlen s < n -> exists r, zeroed n s = s ++ 0 :: r.
Proof. intros Hn. unfold zeroed. rewrite memset_S by lia. by eexists. Qed.

(** ** Macros *)

(** A text is a list of characters and of macros: a dollar, at most one opening
    bracket, a name and the character that ends the name.  A macro at the end
    of the text is not ended. *)
Inductive macro_piece : Type :=
  | Text (c : Z)
  | Macro (opening name : bytes) (ending : Z)
  | Unfinished (opening name : bytes).

Definition render_macro (p : macro_piece) : bytes :=
  match p with
  | Text c => [c]
  | Macro opening name e => [36] ++ opening ++ name ++ [e]
  | Unfinished opening name => [36] ++ opening ++ name
  end.
Definition macro_source (ps : list macro_piece) : bytes := concat (map render_macro ps).

Definition opening_ok (opening : bytes) : Prop := opening = [] \/ opening = [123] \/ opening = [40].
Definition name_ok (name : bytes) : Prop := Forall (λ c, macro_char c = true) name /\ zlen name < 128.

(** A dollar of the text stands behind a backslash; [escape] says whether one
    stands before. *)
Fixpoint macro_text (escape : bool) (ps : list macro_piece) : Prop :=
  match ps with
  | [] => True
  | Text c :: ps => cchar c /\ (c = 36 -> escape = true) /\ macro_text (c =? 92) ps
  | Macro opening name e :: ps =>
      escape = false /\ opening_ok opening /\ name_ok name /\ cchar e /\ macro_char e = false /\
      (opening = [] -> name = [] -> e <> 123 /\ e <> 40) /\ macro_text (e =? 92) ps
  | Unfinished opening name :: ps => escape = false /\ opening_ok opening /\ name_ok name /\ ps = []
  end.

Lemma macro_char_range c : macro_char c = true -> 65 <= c <= 122 /\ c <> 92.
Proof. unfold macro_char. lia. Qed.

Section macros.
Context (getenv : bytes -> option bytes).

(** What a macro stands for: nothing when the name is not in the environment;
    a closing bracket goes with it, any other character stays. *)
Definition expand_piece (p : macro_piece) : bytes :=
  match p with
  | Text c => [c]
  | Macro _ name e => from_option content [] (getenv name) ++ (if (e =? 125) || (e =? 41) then [] else [e])
  | Unfinished _ _ => []
  end.
Definition expand_text (ps : list macro_piece) : bytes := concat (map expand_piece ps).

(** The name is collected into [caMacro]. *)
Lemma collect_name rest buf p : forall name done t,
  Forall (λ c, macro_char c = true) name -> zlen name < zlen t ->
  exists t', zlen t' = zlen t - zlen name /\
    macro_loop getenv (name ++ rest) 1 false buf p (done ++ t) (zlen done) =
    macro_loop getenv rest 1 false buf p ((done ++ name) ++ t') (zlen (done ++ name)).
Proof.
  induction name as [|c name IH]; intros done t Hn Ht.
  - exists t. rewrite app_nil_r. split; [|done]. zlen_lia.
  - apply Forall_cons in Hn as [Hc Hn]. pose proof (macro_char_range c Hc).
    destruct t as [|x t]; [zlen_lia|]. destruct (IH (done ++ [c]) t Hn) as (t' & Ht' & Hrun); [zlen_lia|].
    exists t'. split; [zlen_lia|]. cbn [app macro_loop]. destruct (Z.eqb_spec c 0); [lia|].
    cbn [Z.eqb]. rewrite Hc. cbn [negb]. rewrite zset_middle by done. cbn [mbind outcome_bind].
    destruct (Z.eqb_spec c 92); [lia|]. rewrite (cons_middle c done name), <- (app_assoc done [c] t) in *.
    rewrite zlen_app in Hrun. rewrite (app_assoc done [c] name). exact Hrun.
Qed.

(** The dollar with its bracket. *)
Lemma open_macro opening name r buf p m q :
  opening_ok opening -> Forall (λ c, macro_char c = true) name ->
  (opening = [] -> name = [] -> hd 0 r <> 123 /\ hd 0 r <> 40) ->
  macro_loop getenv (36 :: opening ++ name ++ r) 0 false buf p m q =
  macro_loop getenv (name ++ r) 1 false buf p m 0.
Proof.
  intros Ho Hn Hr. cbn [macro_loop Z.eqb Pos.eqb andb negb].
  destruct Ho as [->|[->| ->]]; [|done..]. cbn [app].
  destruct name as [|c name]; cbn [app].
  - destruct r as [|d r]; [done|]. destruct (Hr eq_refl eq_refl) as [H1 H2]. cbn [hd] in H1, H2.
    destruct (Z.eqb_spec d 123), (Z.eqb_spec d 40); done.
  - apply Forall_cons in Hn as [Hc _]. pose proof (macro_char_range c Hc).
    destruct (Z.eqb_spec c 123), (Z.eqb_spec c 40); done || lia.
Qed.

(** The character [e] behind the name: the buffer gets the value, and [e] unless
    it closes the macro. *)
Lemma finish_macro name e rest out t :
  Forall (λ c, macro_char c = true) name -> 0 < zlen t -> cchar e -> macro_char e = false ->
  zlen out + zlen (expand_piece (Macro [] name e)) < 4096 ->
  exists t', zlen t' = zlen t - 1 /\
    macro_loop getenv (e :: rest) 1 false (zeroed 4096 out) (zlen out) (name ++ t) (zlen name) =
    macro_loop getenv rest 0 (e =? 92) (zeroed 4096 (out ++ expand_piece (Macro [] name e)))
      (zlen (out ++ expand_piece (Macro [] name e))) (name ++ 0 :: t') (zlen name).
Proof.
  intros Hn Ht He Hm Hlen. destruct t as [|x t]; [zlen_lia|]. exists t. split; [zlen_lia|].
  destruct He as [He1 He2]. cbn [expand_piece] in *. rewrite zlen_app in Hlen.
  set (tail := if (e =? 125) || (e =? 41) then [] else [e]) in *. pose proof (zlen_nonneg tail).
  cbn [macro_loop]. destruct (Z.eqb_spec e 0); [lia|]. cbn [Z.eqb Pos.eqb]. rewrite Hm. cbn [negb].
  rewrite zset_middle by done. cbn [mbind outcome_bind].
  rewrite content_app by (eapply Forall_impl; [exact Hn|]; intros c Hc; apply macro_char_range in Hc; unfold cchar; lia).
  assert (match getenv name with
    | Some value => mcaBuffer ← poke (zeroed 4096 out) (zlen out) (content value ++ [0]);
                    Ok (mcaBuffer, zlen out + zlen (content value))
    | None => Ok (zeroed 4096 out, zlen out)
    end = Ok (zeroed 4096 (out ++ from_option content [] (getenv name)), zlen (out ++ from_option content [] (getenv name))))
    as ->.
  { destruct (getenv name) as [v|]; cbn [from_option] in *; [|by rewrite app_nil_r].
    rewrite zeroed_poke by lia. cbn [mbind outcome_bind]. by rewrite zlen_app. }
  cbn [mbind outcome_bind fst snd]. set (out' := out ++ from_option content [] (getenv name)) in *.
  unfold tail. destruct ((e =? 125) || (e =? 41)) eqn:E; cbn [mbind outcome_bind fst snd].
  - by rewrite app_nil_r.
  - subst tail. rewrite zeroed_put by (subst out'; rewrite zlen_app; zlen_lia). cbn [mbind outcome_bind fst snd].
    subst out'. rewrite app_assoc. by rewrite (zlen_app _ [e]).
Qed.

(** Piece by piece. *)
Lemma expand_run r ps : forall escape out m q,
  macro_text escape ps -> zlen m = 128 -> zlen out + zlen (expand_text ps) < 4096 ->
  macro_loop getenv (macro_source ps ++ 0 :: r) 0 escape (zeroed 4096 out) (zlen out) m q =
    Ok (zeroed 4096 (out ++ expand_text ps)).
Proof.
  unfold macro_source, expand_text. induction ps as [|p ps IH]; intros escape out m q Hps Hm Hlen.
  { cbn. by rewrite app_nil_r. }
  cbn [map concat] in *. rewrite zlen_app in Hlen. rewrite <- app_assoc.
  pose proof (zlen_nonneg (concat (map expand_piece ps))).
  destruct p as [c|opening name e|opening name].
  - destruct Hps as ([Hc1 Hc2] & Hd & Hps). cbn [render_macro expand_piece app] in *.
    cbn [macro_loop]. destruct (Z.eqb_spec c 0); [lia|]. cbn [Z.eqb].
    replace ((c =? 36) && negb escape) with false.
    2:{ destruct (Z.eqb_spec c 36) as [E|]; [|done]. by rewrite (Hd E). }
    rewrite zeroed_put by (zlen_lia). cbn [mbind outcome_bind].
    replace (zlen out + 1) with (zlen (out ++ [c])) by zlen_lia.
    rewrite IH by (done || (rewrite zlen_app; zlen_lia)). by rewrite <- app_assoc.
  - destruct Hps as (-> & Ho & [Hn Hl] & He & Hm' & Hbr & Hps).
    cbn [render_macro app]. rewrite <- !app_assoc, open_macro; [|done..].
    pose proof (zlen_nonneg name).
    destruct (collect_name (([e] ++ concat (map render_macro ps) ++ 0 :: r)) (zeroed 4096 out) (zlen out) name [] m Hn)
      as (t & Ht & Hrun); [lia|]. cbn [app] in Hrun. change (zlen []) with 0 in Hrun. cbn [app]. rewrite Hrun.
    destruct (finish_macro name e (concat (map render_macro ps) ++ 0 :: r) out t Hn) as (t' & Ht' & ->);
      [lia|done|done|change (expand_piece (Macro [] name e)) with (expand_piece (Macro opening name e)); lia|].
    change (expand_piece (Macro [] name e)) with (expand_piece (Macro opening name e)).
    rewrite IH; [by rewrite <- app_assoc|done|zlen_lia|rewrite zlen_app; lia].
  - destruct Hps as (-> & Ho & [Hn Hl] & ->). cbn [render_macro expand_piece map concat app] in *.
    rewrite <- !app_assoc, open_macro; [|done..]. pose proof (zlen_nonneg name).
    destruct (collect_name (0 :: r) (zeroed 4096 out) (zlen out) name [] m Hn) as (t & Ht & Hrun); [lia|].
    cbn [app] in Hrun. change (zlen []) with 0 in Hrun. rewrite Hrun. cbn. by rewrite app_nil_r.
Qed.

Lemma expand_macro_run r ps m :
  macro_text false ps -> zlen m = 128 -> zlen (expand_text ps) < 4096 ->
  basExpandMacro getenv m (macro_source ps ++ 0 :: r) = Ok (zeroed 4096 (expand_text ps)).
Proof.
  intros Hps Hm Hlen. unfold basExpandMacro. rewrite zeroed_nil. by apply (expand_run r ps false [] m 0).
Qed.
End macros.

(** ** File names *)

(** Without room. *)
Lemma strcpy_full dst s q : cstring s -> zlen dst <= zlen s -> strcpy dst (s ++ 0 :: q) = Fault.
Proof.
  intros Hs Hl. unfold strcpy. rewrite strlen_app, content_app by done. cbn [mbind outcome_bind]. unfold poke.
  destruct (Z.leb_spec (0 + zlen (s ++ [0])) (zlen dst)); [zlen_lia|]. by rewrite andb_false_r.
Qed.

Lemma strcat_full s r t q : cstring s -> cstring t -> zlen r < zlen t -> strcat (s ++ 0 :: r) (t ++ 0 :: q) = Fault.
Proof.
  intros Hs Ht Hl. unfold strcat. rewrite !strlen_app, content_app by done. cbn [mbind outcome_bind]. unfold poke.
  destruct (Z.leb_spec (zlen s + zlen (t ++ [0])) (zlen (s ++ 0 :: r))); [zlen_lia|]. by rewrite andb_false_r.
Qed.

Section file_names.
Context (getenv : bytes -> option bytes).
Hypothesis Hgetenv : forall name v, getenv name = Some v -> cstring v.
#[local] Set Default Proof Using "Type Hgetenv".

Lemma expand_cstring ps : forall escape, macro_text escape ps -> cstring (expand_text getenv ps).
Proof.
  unfold expand_text. induction ps as [|p ps IH]; intros escape Hps; [constructor|]. cbn [map concat].
  apply Forall_app. destruct p as [c|opening name e|opening name]; cbn [expand_piece].
  - destruct Hps as (Hc & _ & Hps). split; [by apply Forall_singleton|by eapply IH].
  - destruct Hps as (_ & _ & _ & He & _ & _ & Hps). split; [|by eapply IH]. apply Forall_app. split.
    + destruct (getenv name) as [v|] eqn:E; [|constructor]. apply Hgetenv in E. simpl. by rewrite content_cstring.
    + destruct ((e =? 125) || (e =? 41)); [constructor|by apply Forall_singleton].
  - destruct Hps as (_ & _ & _ & ->). split; constructor.
Qed.

(** The application's directory. *)
Definition home : option bytes :=
  match getenv (lit "APPHOME") with None => getenv (lit "HOME") | v => v end.

(** The directory a relative name is looked up in. *)
Definition base_name (dir : option (list macro_piece)) : option bytes :=
  match dir with
  | None => home
  | Some d =>
      if hd 0 (macro_source d) =? 47 then Some (expand_text getenv d)
      else (λ h, h ++ [47] ++ expand_text getenv d) <$> home
  end.

Definition with_slash (base : bytes) : bytes := if bool_decide (last base = Some 47) then base else base ++ [47].

Definition full_name (file : list macro_piece) (dir : option (list macro_piece)) : option bytes :=
  let f := expand_text getenv file in
  if hd 0 f =? 47 then Some f else (λ base, with_slash base ++ f) <$> base_name dir.

Lemma home_name_run dst h : home = Some h -> zlen h < zlen dst -> home_name getenv dst = Ok (h ++ 0 :: drop (S (length h)) dst).
Proof.
  unfold home, home_name. intros Hh Hl.
  assert (forall n v, getenv n = Some v -> v = h -> strcpy dst (content v ++ [0]) = Ok (h ++ 0 :: drop (S (length h)) dst)) as Hcp.
  { intros n v Hv ->. apply Hgetenv in Hv. rewrite content_cstring by done. by apply strcpy_fit. }
  destruct (getenv (lit "APPHOME")) as [v|] eqn:E1; [eapply Hcp; [exact E1|congruence]|].
  destruct (getenv (lit "HOME")) as [v|] eqn:E2; [eapply Hcp; [exact E2|congruence]|done].
Qed.

Lemma home_cstring h : home = Some h -> cstring h.
Proof. unfold home. destruct (getenv (lit "APPHOME")) eqn:E; intros Hh; [simplify_eq|]; by eapply Hgetenv. Qed.

(** A buffer of 2048 bytes with a string. *)
Definition holds (b s : bytes) : Prop := exists r, b = s ++ 0 :: r /\ zlen b = 2048.

Lemma put_string dst s q :
  zlen dst = 2048 -> cstring s -> zlen s < 2048 -> exists b, strcpy dst (s ++ 0 :: q) = Ok b /\ holds b s.
Proof.
  intros Hd Hs Hl. eexists. split; [apply strcpy_fit; [done|lia]|]. eexists. split; [done|].
  unfold zlen in *. rewrite length_app. cbn [length]. rewrite length_drop. lia.
Qed.

Lemma append_string b s t q :
  holds b s -> cstring s -> cstring t -> zlen s + zlen t < 2048 ->
  exists b', strcat b (t ++ 0 :: q) = Ok b' /\ holds b' (s ++ t).
Proof.
  intros (r & -> & Hb) Hs Ht Hl. rewrite zlen_app, zlen_cons in Hb.
  destruct (strcat_holds s r t q Hs Ht) as (r' & -> & Hz); [lia|]. eexists. split; [done|]. exists r'.
  split; [done|]. rewrite Hz, zlen_app, zlen_cons. lia.
Qed.

(** The directory of a relative name. *)
Lemma base_run m mf dir base :
  zlen m = 128 -> zlen mf = 2048 -> from_option (macro_text false) True dir ->
  base_name dir = Some base -> zlen base < 2048 ->
  exists b, (match (λ d, macro_source d ++ [0]) <$> dir with
    | None => home_name getenv mf
    | Some pcDefaultDir =>
        if hd 0 pcDefaultDir =? 47 then dir ← basExpandMacro getenv m pcDefaultDir; strcpy mf dir
        else
          mcaFullName ← home_name getenv mf;
          mcaFullName ← strcat mcaFullName (lit "/" ++ [0]);
          dir ← basExpandMacro getenv m pcDefaultDir; strcat mcaFullName dir
    end) = Ok b /\ holds b base /\ cstring base.
Proof.
  intros Hm Hmf Hdir Hbase Hl. destruct dir as [d|]; cbn [base_name from_option fmap option_fmap option_map] in *.
  - assert (hd 0 (macro_source d ++ [0]) = hd 0 (macro_source d)) as -> by (by destruct (macro_source d)).
    destruct (hd 0 (macro_source d) =? 47).
    + injection Hbase as <-. pose proof (expand_cstring d false Hdir) as Hc.
      rewrite expand_macro_run by (done || lia). cbn [mbind outcome_bind].
      destruct (zeroed_end 4096 (expand_text getenv d)) as [q ->]; [lia|].
      destruct (put_string mf (expand_text getenv d) q) as (b & -> & Hb); [done|done|lia|]. by exists b.
    + destruct home as [h|] eqn:Eh; [|done]. injection Hbase as <-. cbn [app] in Hl.
      rewrite zlen_app, zlen_cons in Hl. pose proof (zlen_nonneg (expand_text getenv d)). pose proof (zlen_nonneg h).
      pose proof (home_cstring h Eh) as Hh. pose proof (expand_cstring d false Hdir) as Hc.
      rewrite (home_name_run mf h) by (done || lia). cbn [mbind outcome_bind].
      destruct (put_string mf h [] Hmf Hh) as (b0 & Hcp & Hb0); [lia|]. rewrite strcpy_fit in Hcp by (done || lia).
      injection Hcp as ->. assert (cstring [47]) as H47 by (by apply Forall_singleton).
      destruct (append_string b0 h [47] [] Hb0 Hh H47) as (b1 & Hrun1 & Hb1); [zlen_lia|].
      change (lit "/" ++ [0]) with ([47] ++ 0 :: []). rewrite Hrun1. cbn [mbind outcome_bind].
      rewrite expand_macro_run by (done || lia). cbn [mbind outcome_bind].
      destruct (zeroed_end 4096 (expand_text getenv d)) as [q ->]; [lia|].
      assert (cstring (h ++ [47])) as Hh1 by (by apply Forall_app).
      destruct (append_string b1 (h ++ [47]) (expand_text getenv d) q Hb1 Hh1 Hc) as (b2 & -> & Hb2); [zlen_lia|].
      exists b2. rewrite <- (app_assoc h) in Hb2. split_and!; [done|done|]. apply Forall_app. split; [done|].
      by apply (Forall_app_2 _ [47]).
  - rewrite (home_name_run mf base) by (done || lia).
    destruct (put_string mf base [] Hmf (home_cstring base Hbase)) as (b & Hcp & Hb); [lia|].
    rewrite strcpy_fit in Hcp by (lia || by apply home_cstring). injection Hcp as ->. exists b.
    split_and!; [done|done|by apply home_cstring].
Qed.

Lemma last_byte s x r : zget ((s ++ [x]) ++ 0 :: r) (zlen (s ++ [x]) - 1) = Ok x.
Proof. rewrite <- app_assoc. apply zget_middle. zlen_lia. Qed.

(** The slash behind the directory. *)
Lemma slash_run b base :
  holds b base -> cstring base -> base <> [] -> zlen (with_slash base) < 2048 ->
  exists b', (n ← strlen b; c ← zget b (n - 1);
    if negb (c =? 47) then strcat b (lit "/" ++ [0]) else Ok b) = Ok b' /\ holds b' (with_slash base) /\ cstring (with_slash base).
Proof.
  intros Hb Hc Hne Hl. destruct (exists_last Hne) as (s & x & ->). unfold with_slash in *. rewrite last_snoc in *.
  destruct Hb as (r & -> & Hz). rewrite strlen_app by done. cbn [mbind outcome_bind]. rewrite last_byte.
  cbn [mbind outcome_bind]. destruct (Z.eqb_spec x 47) as [->|Hx]; cbn [negb].
  - rewrite bool_decide_eq_true_2 by done. eexists. split_and!; [done| |done]. by exists r.
  - rewrite bool_decide_eq_false_2 in * by congruence. assert (cstring [47]) as H47 by (by apply Forall_singleton).
    destruct (append_string ((s ++ [x]) ++ 0 :: r) (s ++ [x]) [47] []) as (b' & Hrun & Hb'); [by exists r|done|done|zlen_lia|].
    exists b'. split_and!; [exact Hrun|done|by apply Forall_app].
Qed.

Lemma with_slash_length base : zlen (with_slash base) <= zlen base + 1.
Proof. unfold with_slash. case_bool_decide; [lia|zlen_lia]. Qed.

Lemma full_name_run m cf mf file dir r name :
  zlen m = 128 -> zlen cf = 2048 -> zlen mf = 2048 ->
  macro_text false file -> from_option (macro_text false) True dir -> base_name dir <> Some [] ->
  full_name file dir = Some name -> zlen name < 2048 ->
  exists b, basGetFileFullName getenv m cf mf (macro_source file ++ 0 :: r) ((λ d, macro_source d ++ [0]) <$> dir) = Ok b /\
    holds b name.
Proof.
  intros Hm Hcf Hmf Hfile Hdir Hne Hname Hl. unfold full_name in Hname. pose proof (expand_cstring file false Hfile) as Hc.
  assert (zlen (expand_text getenv file) < 2048) as Hlf.
  { destruct (hd 0 (expand_text getenv file) =? 47); [by injection Hname as ->|].
    destruct (base_name dir) as [base|]; [|done]. injection Hname as <-. rewrite zlen_app in Hl.
    pose proof (zlen_nonneg (with_slash base)). lia. }
  unfold basGetFileFullName. rewrite expand_macro_run by (done || lia). cbn [mbind outcome_bind].
  destruct (zeroed_end 4096 (expand_text getenv file)) as [q Hq]; [lia|]. rewrite !Hq.
  destruct (put_string cf (expand_text getenv file) q Hcf Hc Hlf) as (c & -> & (r' & -> & Hz)). cbn [mbind outcome_bind].
  assert (zget (expand_text getenv file ++ 0 :: r') 0 = Ok (hd 0 (expand_text getenv file))) as ->
    by (by destruct (expand_text getenv file)).
  cbn [mbind outcome_bind]. destruct (hd 0 (expand_text getenv file) =? 47).
  { injection Hname as <-. by apply put_string. }
  destruct (base_name dir) as [base|] eqn:Eb; [|done]. injection Hname as <-.
  rewrite zlen_app in Hl. pose proof (zlen_nonneg (expand_text getenv file)).
  assert (zlen base <= zlen (with_slash base)) by (unfold with_slash; case_bool_decide; zlen_lia).
  destruct (base_run m mf dir base Hm Hmf Hdir Eb) as (b0 & -> & Hb0 & Hbase); [lia|]. cbn [mbind outcome_bind].
  destruct (slash_run b0 base Hb0 Hbase) as (b1 & Hrun & Hb1 & Hslash); [congruence|lia|]. revert Hrun.
  destruct (strlen b0) as [n| |]; cbn [mbind outcome_bind]; [|done..].
  destruct (zget b0 (n - 1)) as [c0| |]; cbn [mbind outcome_bind]; [|done..]. intros ->. cbn [mbind outcome_bind].
  by apply append_string.
Qed.
End file_names.

(** ** Options *)

(** An argument of the command line: option letters, the last of which may have
    its value behind it or in the next argument, or an operand.  [lead] is what
    stands before the dash: nothing, or the one character that makes it an
    operand which the code takes for options. *)
Inductive cmd_arg : Type :=
  | Group (lead flags : bytes)
  | Joined (lead flags : bytes) (o : Z) (value : bytes)
  | Separate (lead flags : bytes) (o : Z) (value : bytes)
  | Operand (s : bytes).

Definition render_arg (a : cmd_arg) : list bytes :=
  match a with
  | Group lead flags => [lead ++ 45 :: flags]
  | Joined lead flags o value => [lead ++ 45 :: flags ++ o :: value]
  | Separate lead flags o value => [lead ++ 45 :: flags ++ [o]; value]
  | Operand s => [s]
  end.

Definition flag_options (flags : bytes) : list (Z * option bytes) := (λ c, (c, None)) <$> flags.
Definition arg_options (a : cmd_arg) : list (Z * option bytes) :=
  match a with
  | Group _ flags => flag_options flags
  | Joined _ flags o value | Separate _ flags o value => flag_options flags ++ [(o, Some value)]
  | Operand _ => []
  end.

Section options.
Context (ostr : bytes).

(** A letter the caller lists, without and with an argument. *)
Definition is_option (arg : bool) (c : Z) : Prop :=
  0 < c < 128 /\ c <> 45 /\ c <> 58 /\
  exists rest, strchr_rest ostr c = Some rest /\ (hd 0 rest =? 58) = arg.

(** The operand the code looks at first, behind an option or at the beginning:
    it looks at the second character instead of the first. *)
Definition first_operand (s : bytes) : Prop :=
  match s with [] => False | c :: t => c <> 45 /\ hd 0 t <> 45 end.

(** An operand behind another one. *)
Definition later_operand (s : bytes) : Prop := hd 0 s <> 45.

Definition operands (ops : list bytes) : Prop :=
  match ops with [] => True | s :: ops => first_operand s /\ Forall later_operand ops end.

(** An argument of options: [first] says that no operand stands before it. *)
Definition lead_ok (first : bool) (lead : bytes) : Prop :=
  match lead with [] => True | [x] => first = true /\ x <> 45 | _ => False end.

Definition arg_ok (first : bool) (a : cmd_arg) : Prop :=
  match a with
  | Group lead flags => lead_ok first lead /\ flags <> [] /\ Forall (is_option false) flags
  | Joined lead flags o value =>
      lead_ok first lead /\ Forall (is_option false) flags /\ is_option true o /\ value <> [] /\ cstring value
  | Separate lead flags o value => lead_ok first lead /\ Forall (is_option false) flags /\ is_option true o
  | Operand s => if first then first_operand s else later_operand s
  end.

Fixpoint args_ok (first : bool) (args : list cmd_arg) : Prop :=
  match args with
  | [] => True
  | a :: args => arg_ok first a /\ args_ok (match a with Operand _ => false | _ => true end) args
  end.

Lemma schar_ascii c : 0 < c < 128 -> schar c = c.
Proof. intros Hc. apply swrap_id; [lia|]. change (2 ^ (8 - 1)) with 128. lia. Qed.

Context (argv : list bytes).

(** [os] are the options the next calls read, and [g'] the state behind them. *)
Definition reads (g : opt_state) (os : list (Z * option bytes)) (g' : opt_state) : Prop :=
  forall fuel, read_options argv ostr (length os + fuel) g = (r ← read_options argv ostr fuel g'; Ok (os ++ r.1, r.2)).

Lemma reads_nil g : reads g [] g.
Proof. intros fuel. cbn [length Nat.add app]. by destruct (read_options argv ostr fuel g) as [[]| |]. Qed.

Lemma reads_app g1 os1 g2 os2 g3 : reads g1 os1 g2 -> reads g2 os2 g3 -> reads g1 (os1 ++ os2) g3.
Proof.
  intros H1 H2 fuel. rewrite length_app, <- Nat.add_assoc, H1, H2.
  destruct (read_options argv ostr fuel g3) as [r| |]; [|done..]. cbn. by rewrite app_assoc.
Qed.

Lemma reads_one g c g' arg :
  basGetopt argv ostr g = Ok (c, g') -> c <> -1 ->
  match gpcOptarg g' with None => arg = None | Some p => exists s, text_at argv p = Ok s /\ arg = Some s end ->
  reads g [(c, arg)] g'.
Proof.
  intros Hg Hc Ha fuel. cbn [length Nat.add read_options]. rewrite Hg. cbn [mbind outcome_bind fst snd].
  destruct (Z.eqb_spec c (-1)); [done|]. destruct (gpcOptarg g') as [p|].
  - destruct Ha as (s & -> & ->). cbn [mbind outcome_bind]. by destruct (read_options argv ostr fuel g').
  - subst arg. cbn [mbind outcome_bind]. by destruct (read_options argv ostr fuel g').
Qed.

(** The letter [c] at [off] in argument [k] is the next to be read. *)
Definition letter (g : opt_state) (k c off : Z) : Prop :=
  exists arg, option_letter argv ostr g = Ok (true, mk_opt k c 0 arg (At k (off + 1))).

(** All of the arguments before [i] are read. *)
Definition at_argument (g : opt_state) (i : Z) : Prop :=
  giOptind g = i /\ giOptreset g = 0 /\ char_at argv (place g) = Ok 0.

Lemma char_in k s off pre c post :
  zget argv k = Ok s -> s = pre ++ c :: post -> off = zlen pre -> char_at argv (At k off) = Ok c.
Proof.
  intros Hk -> ->. cbn [char_at]. rewrite Hk. cbn [mbind outcome_bind]. rewrite <- app_assoc. by apply zget_middle.
Qed.

Lemma char_end k s : zget argv k = Ok s -> char_at argv (At k (zlen s)) = Ok 0.
Proof. intros Hk. cbn [char_at]. rewrite Hk. cbn [mbind outcome_bind]. by apply zget_middle. Qed.

(** Inside an argument the next letter is there. *)
Lemma letter_inside k s pre c post i o arg :
  zget argv k = Ok s -> s = pre ++ c :: post -> 0 < c < 128 -> i = k ->
  letter (mk_opt i o 0 arg (At k (zlen pre))) k c (zlen pre).
Proof.
  intros Hk Hs Hc ->. exists arg. unfold option_letter. cbn [giOptreset place Z.eqb].
  rewrite (char_in k s _ pre c post) by done. cbn [mbind outcome_bind]. destruct (Z.eqb_spec c 0); [lia|].
  by rewrite schar_ascii.
Qed.

(** One letter without an argument. *)
Lemma flag_reads g k c s pre post :
  letter g k c (zlen pre) -> is_option false c -> zget argv k = Ok s -> s = pre ++ c :: post -> hd 1 post <> 0 ->
  reads g [(c, None)] (mk_opt (if bool_decide (post = []) then k + 1 else k) c 0 None (At k (zlen pre + 1))).
Proof.
  intros [arg Hg] (Hc & Hc1 & Hc2 & rest & Hr & Hf) Hk Hs Hp. apply reads_one; [|lia|done].
  unfold basGetopt. rewrite Hg. cbn [mbind outcome_bind fst snd negb]. unfold option_found. cbn [giOptopt].
  destruct (Z.eqb_spec c 58); [done|]. rewrite Hr, Hf. cbn [negb]. unfold end_of_argument. cbn [place giOptind giOptopt giOptreset gpcOptarg].
  assert (char_at argv (At k (zlen pre + 1)) = Ok (hd 0 post)) as ->.
  { destruct post as [|d post]; cbn [hd].
    - replace (zlen pre + 1) with (zlen s) by (subst s; zlen_lia). by apply char_end.
    - apply (char_in k s _ (pre ++ [c]) d post); [done|by rewrite <- app_assoc|zlen_lia]. }
  cbn [mbind outcome_bind]. repeat f_equal. destruct post as [|d post]; cbn [hd] in *; [done|].
  rewrite bool_decide_eq_false_2 by done. by destruct (Z.eqb_spec d 0).
Qed.

(** A run of them: behind it the argument ends, or its next letter is read. *)
Lemma flags_reads k s post :
  zget argv k = Ok s -> match post with [] => True | d :: _ => 0 < d < 128 end ->
  forall fl c pre g,
    letter g k c (zlen pre) -> Forall (is_option false) (c :: fl) -> s = pre ++ c :: fl ++ post ->
    exists g', reads g (flag_options (c :: fl)) g' /\
      match post with [] => at_argument g' (k + 1) | d :: _ => letter g' k d (zlen (pre ++ c :: fl)) end.
Proof.
  intros Hk Hpost. induction fl as [|c' fl IH]; intros c pre g Hg Hok Hs.
  - apply Forall_cons in Hok as [Hc _]. cbn [app] in Hs. eexists. split.
    + apply (flag_reads g k c s pre post Hg Hc Hk Hs). destruct post; cbn; lia.
    + destruct post as [|d post].
      * cbn. split_and!; [done|done|]. replace (zlen pre + 1) with (zlen s) by (subst s; zlen_lia). by apply char_end.
      * rewrite bool_decide_eq_false_2 by done. rewrite zlen_app. change (zlen [c]) with 1.
        replace (zlen pre + 1) with (zlen (pre ++ [c])) by zlen_lia.
        apply (letter_inside k s (pre ++ [c]) d post); [done|by rewrite <- app_assoc|done|done].
  - apply Forall_cons in Hok as [Hc Hok]. assert (is_option false c') as (Hc' & _) by (by apply Forall_cons in Hok as [? _]).
    destruct (IH c' (pre ++ [c]) (mk_opt k c 0 None (At k (zlen pre + 1)))) as (g' & Hr & Hend).
    + replace (zlen pre + 1) with (zlen (pre ++ [c])) by zlen_lia.
      apply (letter_inside k s (pre ++ [c]) c' (fl ++ post)); [done|by rewrite <- app_assoc|done|done].
    + done.
    + by rewrite <- app_assoc.
    + exists g'. split; [|by rewrite <- app_assoc in Hend].
      eapply (reads_app _ [(c, None)]); [|exact Hr].
      apply (flag_reads g k c s pre (c' :: fl ++ post) Hg Hc Hk Hs). cbn. lia.
Qed.

(** A letter whose value is behind it, or in the next argument. *)
Lemma joined_reads g k o s pre value :
  letter g k o (zlen pre) -> is_option true o -> zget argv k = Ok s -> s = pre ++ o :: value -> value <> [] -> cstring value ->
  exists g', reads g [(o, Some value)] g' /\ at_argument g' (k + 1).
Proof.
  intros [arg Hg] (Ho & Ho1 & Ho2 & rest & Hr & Hf) Hk Hs Hne Hv. destruct value as [|d value]; [done|].
  apply Forall_cons in Hv as [[Hd _] _].
  exists (mk_opt (k + 1) o 0 (Some (At k (zlen pre + 1))) Emsg). split; [|done]. apply reads_one; [|lia|].
  - unfold basGetopt. rewrite Hg. cbn [mbind outcome_bind fst snd negb]. unfold option_found. cbn [giOptopt].
    destruct (Z.eqb_spec o 58); [done|]. rewrite Hr, Hf. cbn [negb]. unfold option_argument.
    cbn [place giOptind giOptopt giOptreset gpcOptarg].
    rewrite (char_in k s _ (pre ++ [o]) d value); [|done|by rewrite <- app_assoc|zlen_lia].
    cbn [mbind outcome_bind]. by destruct (Z.eqb_spec d 0); [lia|].
  - cbn [gpcOptarg]. exists (d :: value). split; [|done]. unfold text_at. rewrite Hk. cbn [mbind outcome_bind]. f_equal.
    rewrite Hs. change (pre ++ o :: d :: value) with (pre ++ [o] ++ d :: value). rewrite app_assoc.
    apply drop_app_length'. unfold zlen. rewrite length_app. cbn [length]. lia.
Qed.

Lemma separate_reads g k o s pre value :
  letter g k o (zlen pre) -> is_option true o -> zget argv k = Ok s -> s = pre ++ [o] -> zget argv (k + 1) = Ok value ->
  exists g', reads g [(o, Some value)] g' /\ at_argument g' (k + 2).
Proof.
  intros [arg Hg] (Ho & Ho1 & Ho2 & rest & Hr & Hf) Hk Hs Hv. pose proof (zget_Ok_range _ _ _ Hv) as Hrange.
  exists (mk_opt (k + 2) o 0 (Some (At (k + 1) 0)) Emsg). split; [|done]. apply reads_one; [|lia|].
  - unfold basGetopt. rewrite Hg. cbn [mbind outcome_bind fst snd negb]. unfold option_found. cbn [giOptopt].
    destruct (Z.eqb_spec o 58); [done|]. rewrite Hr, Hf. cbn [negb]. unfold option_argument.
    cbn [place giOptind giOptopt giOptreset gpcOptarg].
    replace (zlen pre + 1) with (zlen s) by (subst s; zlen_lia). rewrite char_end by done. cbn [mbind outcome_bind Z.eqb negb].
    destruct (Z.ltb_spec (k + 1) (zlen argv)); [|lia]. unfold argument.
    destruct (Z.leb_spec 0 (k + 1)); [|lia]. destruct (Z.leb_spec (k + 1) (zlen argv)); [|lia]. done.
  - cbn [gpcOptarg]. exists value. split; [|done]. unfold text_at. by rewrite Hv.
Qed.

(** ** From one argument to the next *)

(** What the code finds behind the operands: nothing, or a dash. *)
Definition dashed (after : list bytes) : Prop := match after with [] => True | s :: _ => hd 0 s = 45 end.

Lemma argument_run i : 0 <= i <= zlen argv -> argument argv i = Ok (At i 0).
Proof. intros Hi. unfold argument. destruct (Z.leb_spec 0 i), (Z.leb_spec i (zlen argv)); done || lia. Qed.

(** The first two characters of an argument. *)
Lemma char_0 before s after : argv = before ++ s :: after -> char_at argv (At (zlen before) 0) = Ok (hd 0 s).
Proof.
  intros Hargv. assert (zget argv (zlen before) = Ok s) as Hk by (rewrite Hargv; by apply zget_middle).
  destruct s as [|c t]; [exact (char_end _ _ Hk)|by apply (char_in (zlen before) (c :: t) 0 [] c t)].
Qed.

Lemma char_1 before c t after : argv = before ++ (c :: t) :: after -> char_at argv (At (zlen before) 1) = Ok (hd 0 t).
Proof.
  intros Hargv. assert (zget argv (zlen before) = Ok (c :: t)) as Hk by (rewrite Hargv; by apply zget_middle).
  destruct t as [|d t]; [exact (char_end _ _ Hk)|by apply (char_in (zlen before) (c :: d :: t) 1 [c] d t)].
Qed.

Lemma skip_operands after : dashed after -> forall ops before fuel,
  argv = before ++ ops ++ after -> Forall later_operand ops -> (length ops < fuel)%nat ->
  find_option argv fuel (zlen before) (At (zlen before) 0) = Ok (zlen before + zlen ops, At (zlen before + zlen ops) 0).
Proof.
  intros Hd. induction ops as [|s ops IH]; intros before fuel Hargv Hops Hf; (destruct fuel as [|fuel]; [simpl in Hf; lia|]).
  - cbn [find_option app] in *. replace (zlen before + zlen []) with (zlen before) by zlen_lia.
    destruct after as [|s after].
    + rewrite app_nil_r in Hargv. rewrite Hargv. by rewrite Z.ltb_irrefl.
    + destruct (Z.ltb_spec (zlen before) (zlen argv)); [|done]. rewrite (char_0 before s after) by done.
      cbn [dashed] in Hd. by rewrite Hd.
  - cbn [find_option]. apply Forall_cons in Hops as [Hs Hops].
    assert (zlen before < zlen argv) as Hlt by (rewrite Hargv; zlen_lia).
    destruct (Z.ltb_spec (zlen before) (zlen argv)); [|lia]. rewrite (char_0 before s (ops ++ after)) by done.
    cbn [mbind outcome_bind]. destruct (Z.eqb_spec (hd 0 s) 45); [done|]. cbn [negb].
    rewrite argument_run by zlen_lia. cbn [mbind outcome_bind].
    replace (zlen before + 1) with (zlen (before ++ [s])) by zlen_lia.
    rewrite IH; [|by rewrite <- app_assoc|done|simpl in Hf; lia].
    by replace (zlen (before ++ [s]) + zlen ops) with (zlen before + zlen (s :: ops)) by zlen_lia.
Qed.

(** The second half of [option_dash], at the argument behind the operands. *)
Lemma dash_end k before after :
  dashed after -> argv = before ++ after -> k = zlen before ->
  (if zlen argv <=? k then Ok (k, None)
   else c ← char_at argv (At k 0); if negb (c =? 45) then Ok (k, None) else Ok (k, Some (next_place (At k 0)))) =
  Ok (k, match after with [] => None | _ :: _ => Some (At k 1) end).
Proof.
  intros Hd Hargv ->. assert (zlen argv = zlen before + zlen after) as Hlen by (rewrite Hargv; zlen_lia).
  destruct after as [|s after].
  - change (zlen []) with 0 in Hlen. by destruct (Z.leb_spec (zlen argv) (zlen before)); [|lia].
  - rewrite zlen_cons in Hlen. pose proof (zlen_nonneg after).
    destruct (Z.leb_spec (zlen argv) (zlen before)); [lia|]. rewrite (char_0 before s after) by done.
    cbn [dashed] in Hd. by rewrite Hd.
Qed.

Lemma dash_run before ops after :
  dashed after -> argv = before ++ ops ++ after -> operands ops ->
  option_dash argv (zlen before) =
    Ok (zlen before + zlen ops, match after with [] => None | _ :: _ => Some (At (zlen before + zlen ops) 1) end).
Proof.
  intros Hd Hargv Hops. assert (zlen argv = zlen before + zlen ops + zlen after) as Hlen by (rewrite Hargv; zlen_lia).
  pose proof (zlen_nonneg before). pose proof (zlen_nonneg after).
  assert (argv = (before ++ ops) ++ after) as Hargv' by (by rewrite <- app_assoc).
  assert (zlen before + zlen ops = zlen (before ++ ops)) as Hk by (by rewrite zlen_app).
  unfold option_dash. rewrite argument_run by (pose proof (zlen_nonneg ops); lia). cbn [mbind outcome_bind].
  destruct ops as [|s ops].
  - cbn [app] in *. replace (zlen before + zlen []) with (zlen before) in * by zlen_lia.
    destruct (Z.leb_spec (zlen argv) (zlen before)).
    + cbn [mbind outcome_bind fst snd]. rewrite (skip_operands after Hd [] before) by (done || simpl; lia).
      cbn [mbind outcome_bind fst snd]. replace (zlen before + zlen []) with (zlen before) by zlen_lia. by apply (dash_end _ before).
    + destruct after as [|s after]; [change (zlen []) with 0 in Hlen; lia|].
      rewrite (char_0 before s after) by done. cbn [dashed] in Hd. by rewrite Hd.
  - destruct Hops as [Hs Hops]. rewrite zlen_cons in *. pose proof (zlen_nonneg ops).
    destruct (Z.leb_spec (zlen argv) (zlen before)); [lia|]. destruct s as [|c t]; [done|]. destruct Hs as [Hc Ht].
    rewrite (char_0 before (c :: t) (ops ++ after)) by done. cbn [mbind outcome_bind fst snd next_place hd].
    destruct (Z.eqb_spec c 45); [done|]. cbn [negb]. change (0 + 1) with 1. cbn [find_option].
    destruct (Z.ltb_spec (zlen before) (zlen argv)); [|lia].
    rewrite (char_1 before c t (ops ++ after)) by done. cbn [mbind outcome_bind]. destruct (Z.eqb_spec (hd 0 t) 45); [done|]. cbn [negb].
    rewrite argument_run by lia. cbn [mbind outcome_bind]. replace (zlen before + 1) with (zlen (before ++ [c :: t])) by zlen_lia.
    rewrite (skip_operands after Hd ops (before ++ [c :: t])); [|by rewrite <- app_assoc|done|unfold zlen in *; lia].
    cbn [mbind outcome_bind fst snd]. replace (zlen (before ++ [c :: t]) + zlen ops) with (zlen before + (1 + zlen ops)) by zlen_lia.
    by apply (dash_end _ (before ++ (c :: t) :: ops)).
Qed.

(** An operand whose second character is a dash, behind an option. *)
Lemma dash_second before x t after :
  argv = before ++ (x :: 45 :: t) :: after -> x <> 45 -> option_dash argv (zlen before) = Ok (zlen before, Some (At (zlen before) 2)).
Proof.
  intros Hargv Hx. assert (zlen before < zlen argv) as Hlt by (rewrite Hargv; zlen_lia). pose proof (zlen_nonneg before).
  unfold option_dash. rewrite argument_run by lia. cbn [mbind outcome_bind].
  destruct (Z.leb_spec (zlen argv) (zlen before)); [lia|]. rewrite (char_0 before (x :: 45 :: t) after) by done.
  cbn [mbind outcome_bind fst snd next_place hd]. destruct (Z.eqb_spec x 45); [done|]. cbn [negb]. change (0 + 1) with 1.
  cbn [find_option]. destruct (Z.ltb_spec (zlen before) (zlen argv)); [|lia].
  rewrite (char_1 before x (45 :: t) after) by done. cbn [mbind outcome_bind hd Z.eqb Pos.eqb negb fst snd].
  destruct (Z.leb_spec (zlen argv) (zlen before)); [lia|]. by rewrite (char_1 before x (45 :: t) after).
Qed.

(** The first letter of an argument, behind its dash. *)
Lemma first_letter g before ops lead c t after :
  argv = before ++ ops ++ (lead ++ 45 :: c :: t) :: after -> operands ops -> lead_ok (bool_decide (ops = [])) lead ->
  at_argument g (zlen before) -> 0 < c < 128 -> c <> 45 ->
  letter g (zlen before + zlen ops) c (zlen (lead ++ [45])).
Proof.
  intros Hargv Hops Hlead (Hi & Hr & Hp) Hc Hc45. exists (gpcOptarg g). unfold option_letter.
  rewrite Hr, Hp, Hi. cbn [Z.eqb mbind outcome_bind].
  assert (option_dash argv (zlen before) = Ok (zlen before + zlen ops, Some (At (zlen before + zlen ops) (zlen (lead ++ [45]))))) as ->.
  { destruct lead as [|x [|y lead]]; [by rewrite (dash_run before ops ((45 :: c :: t) :: after))| |done].
    destruct Hlead as [Hnil%bool_decide_eq_true Hx]. subst ops. cbn [app] in Hargv.
    rewrite (dash_second before x (c :: t) after) by done. by replace (zlen before + zlen []) with (zlen before) by zlen_lia. }
  cbn [mbind outcome_bind fst snd].
  assert (zget argv (zlen before + zlen ops) = Ok (lead ++ 45 :: c :: t)) as Hk.
  { rewrite Hargv, app_assoc. apply zget_middle. by rewrite zlen_app. }
  rewrite (char_in _ (lead ++ 45 :: c :: t) _ (lead ++ [45]) c t Hk) by (done || by rewrite <- app_assoc).
  cbn [mbind outcome_bind next_place]. rewrite schar_ascii by done. destruct (Z.eqb_spec c 0); [lia|].
  assert (exists d, char_at argv (At (zlen before + zlen ops) (zlen (lead ++ [45]) + 1)) = Ok d) as [d ->].
  { replace (zlen (lead ++ [45]) + 1) with (zlen (lead ++ [45; c])) by zlen_lia. destruct t as [|d t].
    - exists 0. exact (char_end _ _ Hk).
    - exists d. apply (char_in _ (lead ++ 45 :: c :: d :: t) _ (lead ++ [45; c]) d t); [done|by rewrite <- app_assoc|done]. }
  by destruct (Z.eqb_spec c 45).
Qed.

(** The end: no argument is left, or two dashes. *)
Lemma last_call g before ops after :
  argv = before ++ ops ++ after -> after = [] \/ (exists rest, after = [45; 45] :: rest) -> operands ops ->
  at_argument g (zlen before) ->
  exists g', basGetopt argv ostr g = Ok (-1, g') /\
    giOptind g' = zlen before + zlen ops + (if bool_decide (after = []) then 0 else 1).
Proof.
  intros Hargv Hafter Hops (Hi & Hr & Hp). unfold basGetopt, option_letter. rewrite Hr, Hp, Hi. cbn [Z.eqb mbind outcome_bind].
  assert (dashed after) as Hd by (by destruct Hafter as [->|[rest ->]]).
  rewrite (dash_run before ops after) by done. cbn [mbind outcome_bind fst snd].
  destruct Hafter as [->|[rest ->]]; cbn [mbind outcome_bind fst snd negb].
  - eexists. split; [done|]. cbn [giOptind]. rewrite bool_decide_eq_true_2 by done. lia.
  - rewrite <- zlen_app. assert (argv = (before ++ ops) ++ [45; 45] :: rest) as Hargv' by (by rewrite <- app_assoc).
    rewrite (char_1 (before ++ ops) 45 [45] rest) by done. cbn [hd mbind outcome_bind next_place].
    rewrite schar_ascii by lia. cbn [Z.eqb Pos.eqb].
    assert (zget argv (zlen (before ++ ops)) = Ok [45; 45]) as Hk by (rewrite Hargv'; by apply zget_middle).
    change (1 + 1) with (zlen [45; 45]). rewrite (char_end _ _ Hk). eexists. split; [done|done].
Qed.

(** Letters without an argument, and then one more. *)
Lemma letters_reads g k lead flags o post :
  (forall c t, flags ++ o :: post = c :: t -> c <> 45 -> 0 < c < 128 -> letter g k c (zlen (lead ++ [45]))) ->
  zget argv k = Ok (lead ++ 45 :: flags ++ o :: post) -> Forall (is_option false) flags -> 0 < o < 128 -> o <> 45 ->
  exists g', reads g (flag_options flags) g' /\ letter g' k o (zlen (lead ++ 45 :: flags)).
Proof.
  intros Hg Hk Hfl Ho Ho45. destruct flags as [|c flags]; cbn [app] in *.
  - exists g. split; [apply reads_nil|by apply (Hg o post)].
  - assert (is_option false c) as (Hc & Hc45 & _) by (by apply Forall_cons in Hfl as [? _]).
    destruct (flags_reads k (lead ++ 45 :: c :: flags ++ o :: post) (o :: post) Hk Ho flags c (lead ++ [45]) g) as (g' & Hr & Hl);
      [by apply (Hg c (flags ++ o :: post))|done|by rewrite <- app_assoc|].
    exists g'. split; [done|]. by rewrite <- app_assoc in Hl.
Qed.

(** One argument with options. *)
Lemma arg_reads g before ops a after :
  (match a with Operand _ => False | _ => True end) -> arg_ok (bool_decide (ops = [])) a -> operands ops ->
  argv = before ++ ops ++ render_arg a ++ after -> at_argument g (zlen before) ->
  exists g', reads g (arg_options a) g' /\ at_argument g' (zlen (before ++ ops ++ render_arg a)).
Proof.
  intros Ha Hok Hops Hargv Hg. set (k := zlen before + zlen ops).
  assert (forall s rest, argv = before ++ ops ++ s :: rest -> zget argv k = Ok s) as Hk.
  { intros s rest Harg. rewrite Harg, app_assoc. apply zget_middle. by rewrite zlen_app. }
  assert (forall lead body rest, argv = before ++ ops ++ (lead ++ 45 :: body) :: rest -> lead_ok (bool_decide (ops = [])) lead ->
    forall c t, body = c :: t -> c <> 45 -> 0 < c < 128 -> letter g k c (zlen (lead ++ [45]))) as Hl.
  { intros lead body rest Harg Hlead c t -> ? ?. by apply (first_letter g before ops lead c t rest). }
  destruct a as [lead flags|lead flags o value|lead flags o value|s]; [| | |done]; cbn [render_arg arg_options app] in *.
  - destruct Hok as (Hlead & Hne & Hfl). destruct flags as [|c flags]; [done|].
    assert (is_option false c) as (Hc & Hc45 & _) by (by apply Forall_cons in Hfl as [? _]).
    destruct (flags_reads k (lead ++ 45 :: c :: flags) [] (Hk _ _ Hargv) I flags c (lead ++ [45]) g) as (g' & Hr & Hb);
      [by apply (Hl _ _ _ Hargv Hlead c flags)|done|by rewrite app_nil_r, <- app_assoc|].
    exists g'. split; [done|]. by replace (zlen (before ++ ops ++ [lead ++ 45 :: c :: flags])) with (k + 1) by (subst k; zlen_lia).
  - destruct Hok as (Hlead & Hfl & Ho & Hne & Hv). pose proof Ho as (Hoc & Ho45 & _).
    destruct (letters_reads g k lead flags o value (Hl _ _ _ Hargv Hlead) (Hk _ _ Hargv) Hfl Hoc Ho45) as (g1 & Hr1 & Hl1).
    destruct (joined_reads g1 k o (lead ++ 45 :: flags ++ o :: value) (lead ++ 45 :: flags) value Hl1 Ho (Hk _ _ Hargv)) as (g2 & Hr2 & Hb2);
      [by rewrite <- app_assoc|done|done|]. exists g2. split; [by eapply reads_app|].
    by replace (zlen (before ++ ops ++ [lead ++ 45 :: flags ++ o :: value])) with (k + 1) by (subst k; zlen_lia).
  - destruct Hok as (Hlead & Hfl & Ho). pose proof Ho as (Hoc & Ho45 & _).
    assert (zget argv (k + 1) = Ok value) as Hv.
    { rewrite Hargv. change ((lead ++ 45 :: flags ++ [o]) :: value :: after) with ([lead ++ 45 :: flags ++ [o]] ++ value :: after).
      rewrite !app_assoc. apply zget_middle. subst k. rewrite !zlen_app. done. }
    destruct (letters_reads g k lead flags o [] (Hl _ _ _ Hargv Hlead) (Hk _ _ Hargv) Hfl Hoc Ho45) as (g1 & Hr1 & Hl1).
    destruct (separate_reads g1 k o (lead ++ 45 :: flags ++ [o]) (lead ++ 45 :: flags) value Hl1 Ho (Hk _ _ Hargv)) as (g2 & Hr2 & Hb2);
      [by rewrite <- app_assoc|done|]. exists g2. split; [by eapply reads_app|].
    by replace (zlen (before ++ ops ++ [lead ++ 45 :: flags ++ [o]; value])) with (k + 2) by (subst k; zlen_lia).
Qed.

(** All of them. *)
Lemma args_reads tail : forall args before ops g,
  argv = before ++ ops ++ concat (map render_arg args) ++ tail -> operands ops -> args_ok (bool_decide (ops = [])) args ->
  at_argument g (zlen before) ->
  exists g' before' ops', reads g (concat (map arg_options args)) g' /\ argv = before' ++ ops' ++ tail /\
    operands ops' /\ at_argument g' (zlen before').
Proof.
  induction args as [|a args IH]; intros before ops g Hargv Hops Hok Hg.
  - exists g, before, ops. split; [apply reads_nil|done].
  - destruct Hok as [Ha Hok]. cbn [map concat] in *. rewrite <- app_assoc in Hargv.
    assert (match a with Operand _ => False | _ => True end ->
      exists g' before' ops', reads g (arg_options a ++ concat (map arg_options args)) g' /\
        argv = before' ++ ops' ++ tail /\ operands ops' /\ at_argument g' (zlen before')) as Hoption.
    { intros Hnot. destruct (arg_reads g before ops a _ Hnot Ha Hops Hargv Hg) as (g1 & Hr1 & Hb1).
      destruct (IH (before ++ ops ++ render_arg a) [] g1) as (g' & before' & ops' & Hr & Hrest);
        [by rewrite Hargv, <- !app_assoc|done|by destruct a|done|].
      exists g', before', ops'. split; [by eapply reads_app|done]. }
    destruct a as [lead flags|lead flags o value|lead flags o value|s]; [by apply Hoption..|].
    apply (IH before (ops ++ [s]) g); [by rewrite <- app_assoc| |by destruct ops|done].
    cbn [arg_ok] in Ha. destruct ops as [|s' ops]; [by split|]. destruct Hops as [Hs Hops]. split; [done|].
    apply Forall_app. split; [done|]. by apply Forall_singleton.
Qed.
End options.

(** ** The profile, line by line

    What [_vClearBlank] leaves of the lines of a profile, and what the look-up
    finds in a file made of such lines. *)

#[local] Opaque memset.

(** What the look-up needs of the character that begins a remark. *)
Class ProfileLaws `{ProfileConst} : Prop := {
  memo_char : cchar PFL_MEMO_CHARACTER;
  memo_apart : PFL_MEMO_CHARACTER ∉ [9; 10; 32; 61; 91; 93];
  success_not_failure : BAS_SUCCESS <> BAS_FAILURE;
}.

Section profile.
Context `{Hlaws : ProfileLaws}.
#[local] Set Default Proof Using "Type Hlaws".

(** ** Lines *)

Definition blanks (b : bytes) : Prop := Forall (λ c, is_blank c = true) b.

(** A character of a line in front of its remark. *)
Definition line_char (c : Z) : Prop := cchar c /\ c <> PFL_MEMO_CHARACTER /\ c <> 10.

(** No blank at the end. *)
Definition no_blank_end (s : bytes) : Prop := forall t c, s = t ++ [c] -> is_blank c = false.

Lemma no_blank_end_last s : no_blank_end s <-> from_option (λ c, is_blank c = false) True (last s).
Proof.
  destruct s as [|c s _] using rev_ind; [by split; [|intros _ [] ?]|]. rewrite last_snoc. cbn [from_option]. split.
  - intros H0. by apply (H0 s).
  - intros Hc t c' E. by apply app_inj_2 in E as [_ [= ->]].
Qed.

(** The blanks and the remark at the end of a line. *)
Definition line_tail (b : bytes) (remark : option bytes) : bytes :=
  b ++ from_option (λ r, PFL_MEMO_CHARACTER :: r) [] remark.

Inductive profile_line : Type :=
  | Section_line (name : bytes)
  | Entry_line (key before after value : bytes)
  | Other_line (text : bytes).

Definition render_line (l : profile_line) : bytes :=
  match l with
  | Section_line name => [91] ++ name ++ [93]
  | Entry_line key before after value => key ++ before ++ [61] ++ after ++ value
  | Other_line text => text
  end.

(** What [_vClearBlank] makes of it. *)
Definition cleared_line (l : profile_line) : bytes :=
  match l with
  | Section_line name => [91] ++ name ++ [93]
  | Entry_line key _ _ value => key ++ [61] ++ value
  | Other_line text => text
  end.

Definition line_ok (l : profile_line) : Prop :=
  match l with
  | Section_line name => Forall line_char name /\ 61 ∉ name /\ 93 ∉ name
  | Entry_line key before after value =>
      Forall line_char key /\ 61 ∉ key /\ key <> [] /\ hd 0 key <> 91 /\ no_blank_end key /\ blanks before /\ blanks after /\
      Forall line_char value /\ is_blank (hd 0 value) = false /\ no_blank_end value
  | Other_line text => Forall line_char text /\ 61 ∉ text /\ hd 0 text <> 91 /\ no_blank_end text
  end.

#[export] Instance no_blank_end_dec s : Decision (no_blank_end s).
Proof.
  destruct (from_option (λ c, negb (is_blank c)) true (last s)) eqn:E; [left|right]; rewrite no_blank_end_last;
    (destruct (last s) as [c|]; cbn in *; [by destruct (is_blank c)|done]).
Defined.
#[export] Instance line_char_dec c : Decision (line_char c).
Proof. unfold line_char. apply _. Defined.
#[export] Instance blanks_dec b : Decision (blanks b).
Proof. unfold blanks. apply _. Defined.
#[export] Instance line_ok_dec l : Decision (line_ok l).
Proof. destruct l; unfold line_ok; apply _. Defined.

(** ** Removing what follows *)

Lemma is_blank_spec c : is_blank c = true <-> c = 32 \/ c = 9.
Proof. unfold is_blank. lia. Qed.

Lemma clear_back_run r : forall b core k, k = length (core ++ b) ->
  blanks b -> no_blank_end core ->
  clear_back k (zlen (core ++ b) - 1) (core ++ b ++ r) = Ok (core ++ memset 0 (zlen b) ++ r).
Proof.
  intros b. revert r. induction b as [|c b IH] using rev_ind; intros r core k -> Hb Hcore; unfold clear_back.
  - rewrite app_nil_r. cbn [app]. destruct core as [|x core _] using rev_ind; [done|].
    rewrite length_app. cbn [length]. rewrite Nat.add_1_r. cbn [for_loop].
    rewrite <- app_assoc. cbn [app]. rewrite zget_middle by zlen_lia. cbn [mbind outcome_bind].
    rewrite (Hcore core x eq_refl). by rewrite <- app_assoc.
  - apply Forall_app in Hb as [Hb Hc]. apply Forall_cons in Hc as [Hc _].
    rewrite app_assoc, length_app. cbn [length]. rewrite Nat.add_1_r. cbn [for_loop].
    rewrite <- (app_assoc b), (app_assoc core b). cbn [app].
    rewrite zget_middle by zlen_lia. cbn [mbind outcome_bind]. rewrite Hc.
    rewrite zset_middle by zlen_lia. cbn [mbind outcome_bind fst snd].
    replace (zlen ((core ++ b) ++ [c]) - 1 + -1) with (zlen (core ++ b) - 1) by zlen_lia.
    rewrite <- (app_assoc core b). pose proof (IH (0 :: r) core _ eq_refl Hb Hcore) as Hrun.
    unfold clear_back in Hrun. rewrite Hrun. do 2 f_equal.
    replace (zlen (b ++ [c])) with (zlen b + 1) by zlen_lia. rewrite memset_split by (pose proof (zlen_nonneg b); lia).
    by rewrite <- app_assoc, (memset_S 1).
Qed.

Lemma cut_comment_run c core b r :
  (c = PFL_MEMO_CHARACTER \/ c = 10) -> blanks b -> no_blank_end core -> forall t a fuel,
  a ++ t = core ++ b -> Forall line_char t -> (length t < fuel)%nat ->
  exists r', cut_comment fuel (zlen a) (core ++ b ++ c :: r) = Ok (core ++ 0 :: r') /\ zlen (core ++ 0 :: r') = zlen (core ++ b ++ c :: r).
Proof.
  intros Hc Hb Hcore. induction t as [|x t IH]; intros a fuel Ha Ht Hf; (destruct fuel as [|fuel]; [simpl in Hf; lia|]); cbn [cut_comment].
  - rewrite app_nil_r in Ha. subst a. rewrite (app_assoc core b). rewrite zget_middle by done. cbn [mbind outcome_bind].
    destruct memo_char as [Hm1 _]. assert ((c =? 0) = false) as -> by (destruct Hc; subst; lia).
    assert ((c =? PFL_MEMO_CHARACTER) || (c =? 10) = true) as -> by (destruct Hc; subst; lia).
    rewrite zset_middle by done. cbn [mbind outcome_bind]. exists (memset 0 (zlen b) ++ r).
    assert (zlen (core ++ 0 :: memset 0 (zlen b) ++ r) = zlen ((core ++ b) ++ c :: r)) as Hz.
    { rewrite !zlen_app, !zlen_cons, zlen_app, zlen_memset0 by apply zlen_nonneg. lia. }
    split; [|done]. destruct (Z.eqb_spec (zlen (core ++ b)) 0) as [E|E].
    + destruct core, b; try (exfalso; zlen_lia). done.
    + rewrite <- app_assoc. rewrite clear_back_run; [by rewrite memset_shift| |done|done]. unfold zlen. by rewrite Nat2Z.id.
  - apply Forall_cons in Ht as [(Hx & Hx1 & Hx2) Ht]. rewrite app_assoc, <- Ha, <- app_assoc. cbn [app].
    rewrite zget_middle by done. cbn [mbind outcome_bind]. destruct Hx as [Hx0 _].
    destruct (Z.eqb_spec x 0); [lia|]. destruct (Z.eqb_spec x PFL_MEMO_CHARACTER); [done|].
    destruct (Z.eqb_spec x 10); [done|]. cbn [orb].
    replace (zlen a + 1) with (zlen (a ++ [x])) by zlen_lia.
    destruct (IH (a ++ [x]) fuel) as (r' & Hrun & Hz); [by rewrite <- app_assoc|done|simpl in Hf; lia|].
    exists r'. replace (a ++ x :: t ++ c :: r) with (core ++ b ++ c :: r); [done|].
    rewrite app_assoc, <- Ha. by rewrite <- app_assoc.
Qed.

(** ** Around the sign *)

Lemma find_equals_run n x w : forall b a fuel,
  strlen (a ++ b ++ x :: w) = Ok n -> zlen (a ++ b) <= n -> x = 61 \/ zlen (a ++ b) = n -> 61 ∉ b -> (length b < fuel)%nat ->
  find_equals fuel (zlen a) (a ++ b ++ x :: w) = Ok (zlen (a ++ b)).
Proof.
  induction b as [|c b IH]; intros a fuel Hn Hle Hx Hb Hf; (destruct fuel as [|fuel]; [simpl in Hf; lia|]); cbn [find_equals app] in *.
  - rewrite app_nil_r in *. rewrite zget_middle by done. cbn [mbind outcome_bind]. rewrite Hn. cbn [mbind outcome_bind].
    destruct Hx as [->|Hx]; [done|]. destruct (Z.ltb_spec (zlen a) n); [lia|]. by rewrite andb_false_r.
  - apply not_elem_of_cons in Hb as [Hc Hb]. rewrite zget_middle by done. cbn [mbind outcome_bind]. rewrite Hn.
    cbn [mbind outcome_bind]. destruct (Z.eqb_spec c 61); [congruence|]. cbn [negb andb].
    pose proof (zlen_nonneg b). destruct (Z.ltb_spec (zlen a) n); [|rewrite zlen_app, zlen_cons in Hle; lia].
    replace (zlen a + 1) with (zlen (a ++ [c])) by zlen_lia.
    change (a ++ c :: b ++ x :: w) with (a ++ [c] ++ b ++ x :: w) in *. change (a ++ c :: b) with (a ++ [c] ++ b) in *.
    rewrite (app_assoc a [c]) in *. rewrite (app_assoc a [c]) in *. apply IH; try done. simpl in Hf. lia.
Qed.

Lemma blanks_up x w : forall b a fuel,
  blanks b -> is_blank x = false -> (length b < fuel)%nat ->
  skip_blanks fuel (zlen a) 1 (a ++ b ++ x :: w) = Ok (zlen (a ++ b)).
Proof.
  induction b as [|c b IH]; intros a fuel Hb Hx Hf; (destruct fuel as [|fuel]; [simpl in Hf; lia|]); cbn [skip_blanks app].
  - rewrite app_nil_r. rewrite zget_middle by done. cbn [mbind outcome_bind]. by rewrite Hx.
  - apply Forall_cons in Hb as [Hc Hb]. rewrite zget_middle by done. cbn [mbind outcome_bind]. rewrite Hc.
    replace (zlen a + 1) with (zlen (a ++ [c])) by zlen_lia.
    change (a ++ c :: b ++ x :: w) with (a ++ [c] ++ b ++ x :: w). change (a ++ c :: b) with (a ++ [c] ++ b).
    rewrite !(app_assoc a [c]). apply IH; [done|done|simpl in Hf; lia].
Qed.

Lemma blanks_down x w : forall b a fuel,
  blanks b -> is_blank x = false -> (length b < fuel)%nat ->
  skip_blanks fuel (zlen ((a ++ [x]) ++ b) - 1) (-1) ((a ++ [x]) ++ b ++ w) = Ok (zlen a).
Proof.
  intros b. revert w. induction b as [|c b IH] using rev_ind; intros w a fuel Hb Hx Hf; (destruct fuel as [|fuel]; [lia|]); cbn [skip_blanks].
  - rewrite app_nil_r. cbn [app]. rewrite <- app_assoc. cbn [app]. rewrite zget_middle by zlen_lia.
    cbn [mbind outcome_bind]. rewrite Hx. f_equal. zlen_lia.
  - apply Forall_app in Hb as [Hb Hc]. apply Forall_cons in Hc as [Hc _]. rewrite length_app in Hf. cbn [length] in Hf.
    rewrite <- (app_assoc b). cbn [app]. rewrite (app_assoc (a ++ [x]) b (c :: w)).
    rewrite zget_middle by zlen_lia. cbn [mbind outcome_bind]. rewrite Hc.
    replace (zlen ((a ++ [x]) ++ b ++ [c]) - 1 + -1) with (zlen ((a ++ [x]) ++ b) - 1) by zlen_lia.
    rewrite <- (app_assoc (a ++ [x]) b (c :: w)). apply IH; [done|done|lia].
Qed.

Lemma plain_cstring s : Forall line_char s -> cstring s.
Proof. intros Hs. eapply Forall_impl; [exact Hs|]. by intros c (Hc & _). Qed.

Lemma blanks_cstring b : blanks b -> cstring b.
Proof.
  intros Hb. eapply Forall_impl; [exact Hb|]. intros c Hc%is_blank_spec. unfold cchar. lia.
Qed.

Lemma blanks_no_equals b : blanks b -> 61 ∉ b.
Proof. intros Hb Hin. unfold blanks in Hb. rewrite Forall_forall in Hb. by apply Hb in Hin. Qed.

Lemma squeeze_nothing s r fuel :
  cstring s -> 61 ∉ s -> (length s < fuel)%nat -> squeeze_equals fuel (s ++ 0 :: r) = Ok (s ++ 0 :: r).
Proof.
  intros Hs Hno Hf. unfold squeeze_equals.
  assert (find_equals fuel 0 (s ++ 0 :: r) = Ok (zlen s)) as ->
    by (apply (find_equals_run (zlen s) 0 r s [] fuel); [by apply strlen_app|done|by right|done|done]).
  cbn [mbind outcome_bind]. rewrite strlen_app by done. cbn [mbind outcome_bind]. by rewrite Z.eqb_refl.
Qed.

Lemma poke_zeroed n t : zlen t <= n -> poke (memset 0 n) 0 t = Ok (zeroed n t).
Proof.
  intros Ht. pose proof (zlen_nonneg t). unfold zeroed. replace n with (zlen t + (n - zlen t)) at 1 by lia.
  rewrite memset_split by lia. rewrite poke_prefix; [done|]. by rewrite zlen_memset0 by lia.
Qed.

Lemma squeeze_entry key before after value r fuel :
  let s := key ++ before ++ [61] ++ after ++ value in
  Forall line_char key -> 61 ∉ key -> key <> [] -> no_blank_end key -> blanks before -> blanks after ->
  Forall line_char value -> is_blank (hd 0 value) = false -> zlen s < 255 -> (length s < fuel)%nat ->
  exists r', squeeze_equals fuel (s ++ 0 :: r) = Ok ((key ++ [61] ++ value) ++ 0 :: r') /\
    zlen ((key ++ [61] ++ value) ++ 0 :: r') = zlen (s ++ 0 :: r).
Proof.
  intros s Hk Hk61 Hne Hkend Hb Ha Hv Hvhd Hlen Hf.
  apply plain_cstring in Hk as Hkc. apply plain_cstring in Hv as Hvc.
  assert (cstring s) as Hs.
  { subst s. repeat apply Forall_app_2; try done; try by apply blanks_cstring. by apply Forall_singleton. }
  assert (s ++ 0 :: r = key ++ before ++ 61 :: after ++ value ++ 0 :: r) as HL by (subst s; by rewrite <- !app_assoc).
  assert (zlen s = zlen key + zlen before + 1 + zlen after + zlen value) as Hz by (subst s; zlen_lia).
  pose proof (zlen_nonneg key). pose proof (zlen_nonneg before). pose proof (zlen_nonneg after). pose proof (zlen_nonneg value).
  unfold squeeze_equals. rewrite strlen_app by done.
  assert (find_equals fuel 0 (s ++ 0 :: r) = Ok (zlen (key ++ before))) as ->.
  { rewrite HL, app_assoc. apply (find_equals_run (zlen s) 61 _ (key ++ before) []).
    - cbn [app]. rewrite <- app_assoc, <- HL. by apply strlen_app.
    - cbn [app]. rewrite zlen_app. lia.
    - by left.
    - rewrite elem_of_app. intros [|Hin]; [done|by apply (blanks_no_equals before)].
    - subst s. rewrite !length_app in Hf. rewrite length_app. cbn [length] in Hf. lia. }
  cbn [mbind outcome_bind]. destruct (Z.eqb_spec (zlen (key ++ before)) (zlen s)) as [E|_]; [rewrite zlen_app in E; lia|].
  destruct (exists_last Hne) as (kinit & kx & Ekey).
  assert (skip_blanks fuel (zlen (key ++ before) - 1) (-1) (s ++ 0 :: r) = Ok (zlen kinit)) as ->.
  { rewrite HL, Ekey. apply blanks_down; [done|by apply (Hkend kinit)|].
    subst s. rewrite !length_app in Hf. lia. }
  cbn [mbind outcome_bind].
  assert (skip_blanks fuel (zlen (key ++ before) + 1) 1 (s ++ 0 :: r) = Ok (zlen (key ++ before ++ [61] ++ after))) as ->.
  { replace (zlen (key ++ before) + 1) with (zlen (key ++ before ++ [61])) by zlen_lia.
    assert (exists w, s ++ 0 :: r = (key ++ before ++ [61]) ++ after ++ hd 0 value :: w) as [w ->].
    { rewrite HL. destruct value as [|v value]; [exists r|exists (value ++ 0 :: r)]; by rewrite <- !app_assoc. }
    rewrite blanks_up; [by rewrite <- !app_assoc|done|done|]. subst s. rewrite !length_app in Hf. lia. }
  cbn [mbind outcome_bind].
  assert (zlen kinit + 1 = zlen key) as Hkz by (rewrite Ekey; zlen_lia).
  rewrite Hkz. replace (zlen kinit + 2) with (zlen (key ++ [61])) by zlen_lia.
  assert (peek (s ++ 0 :: r) 0 (zlen key) = Ok key) as -> by (rewrite HL; by apply peek_prefix).
  cbn [mbind outcome_bind]. unfold _POSIX_MAX_INPUT. rewrite poke_zeroed by lia. cbn [mbind outcome_bind].
  rewrite zeroed_put by lia. cbn [mbind outcome_bind].
  assert (strlen (drop (Z.to_nat (zlen (key ++ [61]))) (zeroed 255 (key ++ [61]))) = Ok 0) as ->.
  { unfold zeroed. rewrite drop_app_length' by (unfold zlen; lia). rewrite memset_S by zlen_lia. done. }
  cbn [mbind outcome_bind]. rewrite Z.add_0_r.
  assert (content (drop (Z.to_nat (zlen (key ++ before ++ [61] ++ after))) (s ++ 0 :: r)) = value) as ->.
  { rewrite HL. replace (key ++ before ++ 61 :: after ++ value ++ 0 :: r)
      with ((key ++ before ++ [61] ++ after) ++ value ++ 0 :: r) by (by rewrite <- !app_assoc).
    rewrite drop_app_length' by (unfold zlen; lia). by apply content_app. }
  rewrite zeroed_poke by zlen_lia. cbn [mbind outcome_bind].
  destruct (zeroed_end 255 ((key ++ [61]) ++ value)) as [q ->]; [zlen_lia|].
  assert (cstring ((key ++ [61]) ++ value)) as Hc by (repeat apply Forall_app_2; try done; by apply Forall_singleton).
  rewrite <- (app_assoc key [61] value) in *.
  rewrite strcpy_fit; [|done|rewrite HL; zlen_lia]. eexists. split; [done|].
  rewrite HL. unfold zlen. rewrite !length_app. cbn [length]. rewrite length_drop, !length_app. cbn [length]. rewrite !length_app. cbn [length]. lia.
Qed.

(** ** One line *)

Lemma plain_char c : c ∈ [9; 32; 61; 91; 93] -> line_char c.
Proof.
  intros Hc. pose proof memo_apart as Hm. unfold line_char, cchar.
  repeat (apply elem_of_cons in Hc as [->|Hc]; [split_and!; [lia|lia|intros E; apply Hm; rewrite <- E; set_solver|lia]|]).
  by apply not_elem_of_nil in Hc.
Qed.

Lemma blanks_plain b : blanks b -> Forall line_char b.
Proof.
  intros Hb. eapply Forall_impl; [exact Hb|]. intros c [->| ->]%is_blank_spec; apply plain_char; set_solver.
Qed.

Lemma sign_plain c : c ∈ [61; 91; 93] -> Forall line_char [c].
Proof. intros Hc. apply Forall_singleton, plain_char. set_solver. Qed.

Lemma snoc_no_blank_end t c : is_blank c = false -> no_blank_end (t ++ [c]).
Proof. intros Hc t' c' E. by apply app_inj_2 in E as [_ [= ->]]. Qed.

Lemma app_no_blank_end t u : u <> [] -> no_blank_end u -> no_blank_end (t ++ u).
Proof.
  intros Hne Hu. destruct (exists_last Hne) as (u' & c & ->). rewrite app_assoc. apply snoc_no_blank_end.
  by apply (Hu u').
Qed.

Lemma line_plain l : line_ok l -> Forall line_char (render_line l).
Proof.
  destruct l as [name|key before after value|text]; cbn [line_ok render_line].
  - intros (Hn & _). repeat apply Forall_app_2; [by apply sign_plain; set_solver|done|by apply sign_plain; set_solver].
  - intros (Hk & _ & _ & _ & _ & Hb & Ha & Hv & _). repeat apply Forall_app_2; try done;
      [by apply blanks_plain|by apply sign_plain; set_solver|by apply blanks_plain].
  - by intros (Ht & _).
Qed.

(** Where the blanks at the end of a line begin. *)
Lemma line_core l b :
  line_ok l -> blanks b ->
  exists core b', render_line l ++ b = core ++ b' /\ no_blank_end core /\ blanks b' /\ zlen core <= zlen (render_line l) /\
    forall r fuel, zlen core < 255 -> (length core < fuel)%nat ->
      exists r', squeeze_equals fuel (core ++ 0 :: r) = Ok (cleared_line l ++ 0 :: r') /\
        zlen (cleared_line l ++ 0 :: r') = zlen (core ++ 0 :: r).
Proof.
  intros Hl Hb. pose proof (plain_cstring _ (line_plain l Hl)) as Hc.
  assert (61 ∉ render_line l -> no_blank_end (render_line l) -> cleared_line l = render_line l ->
    exists core b', render_line l ++ b = core ++ b' /\ no_blank_end core /\ blanks b' /\ zlen core <= zlen (render_line l) /\
    forall r fuel, zlen core < 255 -> (length core < fuel)%nat ->
      exists r', squeeze_equals fuel (core ++ 0 :: r) = Ok (cleared_line l ++ 0 :: r') /\
        zlen (cleared_line l ++ 0 :: r') = zlen (core ++ 0 :: r)) as Hno.
  { intros H61 Hend E. exists (render_line l), b. split_and!; [done|done|done|lia|]. intros r fuel _ Hf. exists r.
    rewrite E. split; [by apply squeeze_nothing|done]. }
  destruct l as [name|key before after value|text]; cbn [line_ok render_line cleared_line] in *.
  - destruct Hl as (Hn & H61 & H93). apply Hno; [set_solver| |done]. rewrite app_assoc. by apply snoc_no_blank_end.
  - destruct Hl as (Hk & H61 & Hne & H91 & Hkend & Hbef & Haft & Hv & Hvhd & Hvend). clear Hno.
    destruct value as [|v value].
    + exists (key ++ before ++ [61] ++ [] ++ []), (after ++ b). split_and!.
      * by rewrite !app_nil_r, <- !app_assoc.
      * rewrite !app_nil_r, app_assoc. by apply snoc_no_blank_end.
      * by apply Forall_app_2.
      * rewrite !app_nil_r. zlen_lia.
      * intros r fuel Hlen Hf. apply squeeze_entry; done || apply Forall_nil_2.
    + exists (key ++ before ++ [61] ++ after ++ v :: value), b. split_and!; [done| |done|lia|].
      * rewrite !app_assoc. by apply app_no_blank_end.
      * intros r fuel Hlen Hf. by apply squeeze_entry.
  - destruct Hl as (Ht & H61 & H91 & Hend). by apply Hno.
Qed.

Lemma clear_line_run l b remark r :
  line_ok l -> blanks b -> zlen (render_line l ++ line_tail b remark) < 254 ->
  exists r', _vClearBlank ((render_line l ++ line_tail b remark) ++ 10 :: 0 :: r) = Ok (cleared_line l ++ 0 :: r') /\
    zlen (cleared_line l ++ 0 :: r') = zlen ((render_line l ++ line_tail b remark) ++ 10 :: 0 :: r).
Proof.
  intros Hl Hb Hlen. destruct (line_core l b Hl Hb) as (core & b' & Ecore & Hend & Hb' & Hle & Hsq).
  assert (exists c w, (c = PFL_MEMO_CHARACTER \/ c = 10) /\
    (render_line l ++ line_tail b remark) ++ 10 :: 0 :: r = core ++ b' ++ c :: w) as (c & w & Hc & HL).
  { unfold line_tail. destruct remark as [x|]; cbn [from_option].
    - exists PFL_MEMO_CHARACTER, (x ++ 10 :: 0 :: r). split; [by left|]. rewrite !app_assoc, Ecore. by rewrite <- !app_assoc.
    - exists 10, (0 :: r). split; [by right|]. rewrite app_nil_r, Ecore. by rewrite <- !app_assoc. }
  assert (Forall line_char (core ++ b')) as Hp by (rewrite <- Ecore; apply Forall_app_2; [by apply line_plain|by apply blanks_plain]).
  unfold _vClearBlank. rewrite HL. set (fuel := S (length (core ++ b' ++ c :: w))).
  destruct (cut_comment_run c core b' w Hc Hb' Hend (core ++ b') [] fuel) as (r1 & Hrun & Hz); [done|done|subst fuel; rewrite !length_app; lia|].
  change (zlen []) with 0 in Hrun. rewrite Hrun. cbn [mbind outcome_bind].
  destruct (Hsq r1 fuel) as (r' & -> & Hz'); [rewrite zlen_app in Hlen; pose proof (zlen_nonneg (line_tail b remark)); lia|subst fuel; rewrite !length_app; lia|].
  exists r'. split; [done|lia].
Qed.

(** ** What a line is *)

Lemma prefix_rest p : forall s, is_prefix p s = true <-> exists t, s = p ++ t.
Proof.
  induction p as [|c p IH]; intros s; [split; [by exists s|done]|].
  destruct s as [|d s]; cbn [is_prefix]; [split; [done|by intros [t [=]]]|].
  rewrite andb_true_iff, IH, Z.eqb_eq. split.
  - by intros (-> & t & ->); exists t.
  - intros [t [= -> ->]]. split; [done|by exists t].
Qed.

Lemma first_sign (c : Z) : forall a b u t : bytes, c ∉ a -> c ∉ b -> a ++ c :: u = b ++ c :: t -> a = b.
Proof.
  induction a as [|x a IH]; intros [|y b] u t Ha Hb E; simpl in E; [done|simplify_eq; set_solver..|].
  injection E as -> E. f_equal. eapply IH; [set_solver|set_solver|exact E].
Qed.

Lemma section_run l r : line_ok l -> _tIsSection (cleared_line l ++ 0 :: r) = Ok (match l with Section_line _ => true | _ => false end).
Proof.
  unfold _tIsSection. destruct l as [name|key before after value|text]; cbn [line_ok cleared_line].
  - done.
  - intros (_ & _ & Hne & H91 & _). destruct key as [|c key]; [done|]. cbn [app hd] in *. rewrite zget_0_cons. cbn [mbind outcome_bind].
    by destruct (Z.eqb_spec c 91).
  - intros (_ & _ & H91 & _). destruct text as [|c text]; [done|]. cbn [app hd] in *. rewrite zget_0_cons. cbn [mbind outcome_bind].
    by destruct (Z.eqb_spec c 91).
Qed.

Lemma this_section_run name r sec q :
  Forall line_char name -> 93 ∉ name -> cstring sec ->
  _tIsThisSection (([91] ++ name ++ [93]) ++ 0 :: r) (sec ++ 0 :: q) = Ok (bool_decide (name = sec)).
Proof.
  intros Hn H93 Hs. unfold _tIsThisSection. rewrite strlen_app by done. cbn [mbind outcome_bind].
  assert (cstring ([91] ++ name ++ [93])) as Hc.
  { apply plain_cstring. repeat apply Forall_app_2; [by apply sign_plain; set_solver|done|by apply sign_plain; set_solver]. }
  assert (same_bytes (Z.to_nat (zlen sec)) (([91] ++ name ++ [93]) ++ 0 :: r) 1 (sec ++ 0 :: q) 0 = Ok (is_prefix sec (name ++ [93]))) as ->
    by (apply (same_bytes_at sec ([91] ++ name ++ [93]) r (0 :: q) 1); done || (simpl; lia)).
  cbn [app mbind outcome_bind]. destruct (is_prefix sec (name ++ [93])) eqn:E.
  - apply prefix_rest in E as [t E]. assert (91 :: (name ++ [93]) ++ 0 :: r = (91 :: sec) ++ (t ++ [0]) ++ r) as ->.
    { rewrite E. cbn [app]. by rewrite <- !app_assoc. }
    assert (exists w, (t ++ [0]) ++ r = hd 0 t :: w) as [w ->] by (destruct t; by eexists).
    rewrite zget_middle by zlen_lia. cbn [mbind outcome_bind]. f_equal.
    destruct t as [|d t] using rev_ind; [|clear IHt].
    + rewrite app_nil_r in E. rewrite bool_decide_eq_false_2; [done|]. intros ->.
      apply (f_equal length) in E. rewrite length_app in E. simpl in E. lia.
    + rewrite app_assoc in E. apply app_inj_2 in E as [E [= <-]]; [|done]. destruct t as [|d t].
      * rewrite app_nil_r in E. subst. by rewrite bool_decide_eq_true_2.
      * cbn [app hd]. rewrite bool_decide_eq_false_2.
        -- apply Z.eqb_neq. intros ->. apply H93. rewrite E. set_solver.
        -- intros ->. apply (f_equal length) in E. rewrite length_app in E. simpl in E. lia.
  - rewrite bool_decide_eq_false_2; [done|]. intros ->. assert (is_prefix sec (sec ++ [93]) = true); [|congruence].
    apply prefix_rest. by exists [93].
Qed.

(** An entry's name is compared up to the sign. *)
Lemma this_entry_run s r ent q :
  cstring s -> cstring ent ->
  exists b : bool, _tIsThisEntry (s ++ 0 :: r) (ent ++ 0 :: q) = Ok b /\ (b = true <-> exists t, s = ent ++ 61 :: t).
Proof.
  intros Hs He. unfold _tIsThisEntry. rewrite strlen_app by done. cbn [mbind outcome_bind].
  assert (same_bytes (Z.to_nat (zlen ent)) (s ++ 0 :: r) 0 (ent ++ 0 :: q) 0 = Ok (is_prefix ent s)) as ->
    by (apply (same_bytes_at ent s r (0 :: q) 0); done || lia).
  cbn [mbind outcome_bind].
  destruct (is_prefix ent s) eqn:E.
  - apply prefix_rest in E as [t ->]. rewrite <- app_assoc.
    assert (exists w, t ++ 0 :: r = hd 0 t :: w) as [w ->] by (destruct t; by eexists).
    rewrite zget_middle by done. cbn [mbind outcome_bind]. eexists. split; [done|]. rewrite Z.eqb_eq. split.
    + intros Hd. destruct t as [|d t]; [done|]. cbn [hd] in Hd. subst d. by exists t.
    + intros [t' E]. apply app_inv_head in E. by subst t.
  - exists false. split; [done|]. split; [done|]. intros [t ->].
    assert (is_prefix ent (ent ++ 61 :: t) = true); [|congruence]. apply prefix_rest. by eexists.
Qed.

Lemma entry_run l r ent q :
  line_ok l -> match l with Section_line _ => False | _ => True end -> cstring ent -> 61 ∉ ent ->
  _tIsThisEntry (cleared_line l ++ 0 :: r) (ent ++ 0 :: q) =
    Ok (match l with Entry_line key _ _ _ => bool_decide (key = ent) | _ => false end).
Proof.
  intros Hl Hns He H61. pose proof (line_plain l Hl) as Hp.
  destruct l as [name|key before after value|text]; cbn [line_ok cleared_line render_line] in *; [done| |].
  - destruct Hl as (Hk & Hk61 & _ & _ & _ & _ & _ & Hv & _).
    destruct (this_entry_run (key ++ [61] ++ value) r ent q) as (b & -> & Hb).
    { apply plain_cstring. repeat apply Forall_app_2; try done. by apply sign_plain; set_solver. }
    { done. }
    f_equal. apply eq_bool_prop_intro. rewrite bool_decide_spec. rewrite Is_true_true, Hb. split.
    + intros [t E]. by apply (first_sign 61 key ent value t).
    + intros ->. by exists value.
  - destruct Hl as (Ht & Ht61 & _). destruct (this_entry_run text r ent q) as (b & -> & Hb); [by apply plain_cstring|done|].
    destruct b; [|done]. destruct Hb as [Hb _]. destruct (Hb eq_refl) as [t ->]. exfalso. set_solver.
Qed.

Lemma behind_equals_run x w : forall b a fuel,
  x = 61 -> 61 ∉ b -> (length b < fuel)%nat -> behind_equals fuel (zlen a) (a ++ b ++ x :: w) = Ok (zlen (a ++ b) + 1).
Proof.
  induction b as [|c b IH]; intros a fuel -> Hb Hf; (destruct fuel as [|fuel]; [simpl in Hf; lia|]); cbn [behind_equals app].
  - rewrite app_nil_r. by rewrite zget_middle.
  - apply not_elem_of_cons in Hb as [Hc Hb]. rewrite zget_middle by done. cbn [mbind outcome_bind].
    destruct (Z.eqb_spec c 61); [congruence|]. replace (zlen a + 1) with (zlen (a ++ [c])) by zlen_lia.
    change (a ++ c :: b ++ 61 :: w) with (a ++ [c] ++ b ++ 61 :: w). change (a ++ c :: b) with (a ++ [c] ++ b).
    rewrite !(app_assoc a [c]). apply IH; [done|done|simpl in Hf; lia].
Qed.

Lemma cut_content_run key value r dst :
  61 ∉ key -> cstring value -> zlen value < zlen dst ->
  _vCutContent ((key ++ [61] ++ value) ++ 0 :: r) dst = Ok (value ++ 0 :: drop (S (length value)) dst).
Proof.
  intros Hk Hv Hd. unfold _vCutContent. rewrite <- !app_assoc. cbn [app].
  assert (behind_equals (S (length (key ++ 61 :: value ++ 0 :: r))) 0 (key ++ 61 :: value ++ 0 :: r) = Ok (zlen key + 1)) as ->
    by (apply (behind_equals_run 61 _ key []); [done|done|rewrite length_app; lia]).
  cbn [mbind outcome_bind]. change (61 :: value ++ 0 :: r) with ([61] ++ value ++ 0 :: r). rewrite app_assoc.
  rewrite drop_app_length' by (rewrite length_app; unfold zlen; simpl; lia). by apply strcpy_fit.
Qed.

(** ** The file *)

(** A line with the blanks and the remark at its end. *)
Record written_line : Type := mk_line { fl_line : profile_line; fl_blanks : bytes; fl_remark : option bytes }.

Definition line_text (l : written_line) : bytes := render_line (fl_line l) ++ line_tail (fl_blanks l) (fl_remark l).
Definition profile_text (ls : list written_line) : bytes := concat (map (λ l, line_text l ++ [10]) ls).

Definition written_line_ok (l : written_line) : Prop :=
  line_ok (fl_line l) /\ blanks (fl_blanks l) /\ from_option (Forall (λ c, c <> 10)) True (fl_remark l) /\ zlen (line_text l) < 254.

#[export] Instance written_line_ok_dec l : Decision (written_line_ok l).
Proof. unfold written_line_ok. destruct (fl_remark l); cbn [from_option]; apply _. Defined.

(** The value of the first entry with the name in the sections with the name. *)
Fixpoint profile_lookup (section entry : bytes) (inside : bool) (ls : list profile_line) : option bytes :=
  match ls with
  | [] => None
  | Section_line name :: ls => profile_lookup section entry (bool_decide (name = section)) ls
  | Entry_line key _ _ value :: ls =>
      if inside && bool_decide (key = entry) then Some value else profile_lookup section entry inside ls
  | Other_line _ :: ls => profile_lookup section entry inside ls
  end.

Lemma line_text_one l : written_line_ok l -> Forall (λ c, c <> 10) (line_text l).
Proof.
  intros (Hl & Hb & Hr & _). unfold line_text, line_tail. repeat apply Forall_app_2.
  - eapply Forall_impl; [by apply line_plain|]. by intros c (_ & _ & Hc).
  - eapply Forall_impl; [by apply blanks_plain|]. by intros c (_ & _ & Hc).
  - destruct (fl_remark l) as [x|]; cbn [from_option] in *; [|constructor]. constructor; [|done].
    intros E. pose proof memo_apart as Hm. rewrite E in Hm. set_solver.
Qed.

Lemma fgets_profile_line l a b saLine :
  written_line_ok l -> zlen saLine = 256 ->
  exists r, fgets saLine _POSIX_MAX_INPUT (at_rest a ((line_text l ++ [10]) ++ b)) =
      Ok (Some (line_text l ++ 10 :: 0 :: r), at_rest (a ++ line_text l ++ [10]) b) /\
    zlen (line_text l ++ 10 :: 0 :: r) = 256.
Proof.
  intros Hok Hz. pose proof Hok as (_ & _ & _ & Hlen). pose proof (zlen_nonneg (line_text l)).
  destruct (split_at saLine (S (S (length (line_text l))))) as (d & r & -> & Hd); [unfold zlen in *; lia|].
  exists r. unfold _POSIX_MAX_INPUT. rewrite fgets_line; [| lia |by destruct (line_text l)| |].
  - split; [by rewrite <- app_assoc|]. rewrite zlen_app in Hz. zlen_lia.
  - rewrite <- app_assoc. cbn [app]. rewrite read_line_whole; [done|by apply line_text_one|unfold zlen in *; lia].
  - zlen_lia.
Qed.

Lemma profile_loop_run sec q ent q' dst : cstring sec -> cstring ent -> 61 ∉ ent -> forall ls a saLine inside fuel,
  zlen saLine = 256 -> Forall written_line_ok ls -> (length ls < fuel)%nat ->
  (forall v, profile_lookup sec ent inside (map fl_line ls) = Some v -> zlen v < zlen dst) ->
  profile_loop fuel (sec ++ 0 :: q) (ent ++ 0 :: q') dst saLine (at_rest a (profile_text ls)) inside =
    Ok ((λ v, v ++ 0 :: drop (S (length v)) dst) <$> profile_lookup sec ent inside (map fl_line ls)).
Proof.
  intros Hsec Hent H61. induction ls as [|l ls IH]; intros a saLine inside fuel Hz Hok Hf Hv;
    (destruct fuel as [|fuel]; [simpl in Hf; lia|]); cbn [profile_loop].
  { unfold profile_text. cbn [map concat]. by rewrite fgets_end. }
  apply Forall_cons in Hok as [Hl Hok]. unfold profile_text. cbn [map concat].
  destruct (fgets_profile_line l a (concat (map (λ l, line_text l ++ [10]) ls)) saLine Hl Hz) as (r & -> & Hz1).
  cbn [mbind outcome_bind fst snd]. pose proof Hl as (Hline & Hb & _ & Hlen).
  destruct (clear_line_run (fl_line l) (fl_blanks l) (fl_remark l) r Hline Hb Hlen) as (r' & Hclear & Hz2).
  fold (line_text l) in Hclear, Hz2. rewrite Hclear. cbn [mbind outcome_bind]. rewrite section_run by done.
  cbn [mbind outcome_bind]. rewrite Hz1 in Hz2.
  fold (profile_text ls). cbn [map profile_lookup] in *. cbn [length] in Hf.
  destruct (fl_line l) as [name|key before after value|text] eqn:El.
  - cbn [cleared_line] in *. destruct Hline as (Hn & _ & H93). rewrite this_section_run by done. cbn [mbind outcome_bind].
    apply IH; [done|done|lia|done].
  - destruct inside; cbn [negb andb] in *; [|apply IH; [done|done|lia|done]].
    rewrite entry_run by done. cbn [mbind outcome_bind]. case_bool_decide as E; [|apply IH; [done|done|lia|done]].
    destruct Hline as (_ & Hk61 & _ & _ & _ & _ & _ & Hpv & _). cbn [cleared_line].
    rewrite cut_content_run; [done|done|by apply plain_cstring|by apply Hv].
  - destruct inside; cbn [negb] in *; [|apply IH; [done|done|lia|done]].
    rewrite entry_run by done. cbn [mbind outcome_bind]. apply IH; [done|done|lia|done].
Qed.

Lemma profile_lines_length ls : (length ls <= length (profile_text ls))%nat.
Proof.
  unfold profile_text. induction ls as [|l ls IH]; [done|]. cbn [map concat length]. rewrite !length_app. cbn [length]. lia.
Qed.

Lemma profile_run sec q ent q' ls dst saLine :
  cstring sec -> cstring ent -> 61 ∉ ent -> zlen saLine = 256 -> Forall written_line_ok ls ->
  (forall v, profile_lookup sec ent false (map fl_line ls) = Some v -> zlen v < zlen dst) ->
  tPflGetString (sec ++ 0 :: q) (ent ++ 0 :: q') (Some (profile_text ls)) dst saLine =
    Ok (match profile_lookup sec ent false (map fl_line ls) with
        | Some v => (BAS_SUCCESS, v ++ 0 :: drop (S (length v)) dst)
        | None => (BAS_FAILURE, dst)
        end).
Proof.
  intros Hsec Hent H61 Hz Hok Hv. unfold tPflGetString. cbn [fopen_r fmap option_fmap option_map f_data].
  change (mk_file (profile_text ls) 0) with (at_rest [] (profile_text ls)).
  rewrite (profile_loop_run sec q ent q' dst Hsec Hent H61 ls [] saLine false) by (try done; pose proof (profile_lines_length ls); lia).
  cbn [mbind outcome_bind]. by destruct (profile_lookup sec ent false (map fl_line ls)).
Qed.

(** An indented entry has another name: it is as if it were not there. *)
Lemma lookup_indented sec ent b before after v l1 l2 : b <> [] -> forall inside,
  profile_lookup sec ent inside (l1 ++ Entry_line (b ++ ent) before after v :: l2) = profile_lookup sec ent inside (l1 ++ l2).
Proof.
  intros Hb. induction l1 as [|l l1 IH]; intros inside; cbn [app profile_lookup].
  - rewrite bool_decide_eq_false_2, andb_false_r; [done|]. intros E. apply (f_equal length) in E. rewrite length_app in E.
    destruct b; [done|]. simpl in E. lia.
  - destruct l as [name|key bf af w|text]; [by rewrite IH| |by rewrite IH]. by rewrite IH.
Qed.

(** A value is shorter than its line. *)
Lemma lookup_short sec ent ls : Forall written_line_ok ls -> forall inside v,
  profile_lookup sec ent inside (map fl_line ls) = Some v -> zlen v < 254.
Proof.
  induction 1 as [|l ls Hl Hls IH]; intros inside v Hv; [done|]. cbn [map profile_lookup] in Hv.
  destruct Hl as (_ & _ & _ & Hlen). unfold line_text in Hlen.
  destruct (fl_line l) as [name|key before after value|text]; [by eapply IH| |by eapply IH].
  destruct (inside && bool_decide (key = ent)); [|by eapply IH]. injection Hv as <-. cbn [render_line] in Hlen. zlen_lia.
Qed.

Lemma lookup_cstring sec ent ls : Forall written_line_ok ls -> forall inside v,
  profile_lookup sec ent inside (map fl_line ls) = Some v -> cstring v.
Proof.
  induction 1 as [|l ls Hl Hls IH]; intros inside v Hv; [done|]. cbn [map profile_lookup] in Hv.
  destruct Hl as (Hl & _).
  destruct (fl_line l) as [name|key before after value|text]; [by eapply IH| |by eapply IH].
  destruct (inside && bool_decide (key = ent)); [|by eapply IH]. injection Hv as <-.
  destruct Hl as (_ & _ & _ & _ & _ & _ & _ & Hv & _). by apply plain_cstring.
Qed.

(** ** Trimming a string *)

Lemma rtrim_loop_run : forall (w b core : bytes),
  Forall (λ c, trimmed_off c = true) b -> (forall t c, core = t ++ [c] -> trimmed_off c = false) ->
  for_loop (length (core ++ b)) (zlen (core ++ b) - 1) (-1) (λ i s,
    c ← zget s.1 i;
    if trimmed_off c then t ← zset s.1 i 0; Ok ((t, i - 1), true) else Ok ((s.1, i), false))
    (core ++ b ++ w, zlen (core ++ b) - 1) =
  Ok (core ++ memset 0 (zlen b) ++ w, zlen core - 1).
Proof.
  intros w b. revert w. induction b as [|c b IH] using rev_ind; intros w core Hb Hcore.
  - rewrite app_nil_r. cbn [app]. destruct core as [|x core _] using rev_ind; [done|].
    rewrite length_app. cbn [length]. rewrite Nat.add_1_r. cbn [for_loop fst].
    rewrite <- app_assoc. cbn [app]. rewrite zget_middle by zlen_lia. cbn [mbind outcome_bind].
    rewrite (Hcore core x eq_refl). cbn [mbind outcome_bind fst snd]. by rewrite <- app_assoc.
  - apply Forall_app in Hb as [Hb Hc]. apply Forall_cons in Hc as [Hc _].
    rewrite app_assoc, length_app. cbn [length]. rewrite Nat.add_1_r. cbn [for_loop fst].
    rewrite <- (app_assoc b), (app_assoc core b). cbn [app].
    rewrite zget_middle by zlen_lia. cbn [mbind outcome_bind]. rewrite Hc.
    rewrite zset_middle by zlen_lia. cbn [mbind outcome_bind fst snd].
    replace (zlen ((core ++ b) ++ [c]) - 1 + -1) with (zlen (core ++ b) - 1) by zlen_lia.
    replace (zlen ((core ++ b) ++ [c]) - 1 - 1) with (zlen (core ++ b) - 1) by zlen_lia.
    rewrite <- (app_assoc core b). rewrite (IH (0 :: w) core Hb Hcore). do 3 f_equal.
    replace (zlen (b ++ [c])) with (zlen b + 1) by zlen_lia. rewrite memset_split by (pose proof (zlen_nonneg b); lia).
    by rewrite <- app_assoc, (memset_S 1).
Qed.

Lemma leading_blanks_run (x : Z) (w : bytes) : forall (b a : bytes) (n : nat),
  blanks b -> is_blank x = false -> (length b < n)%nat ->
  leading_blanks n (zlen a) (a ++ b ++ x :: w) = Ok (zlen (a ++ b)).
Proof.
  induction b as [|c b IH]; intros a n Hb Hx Hn; (destruct n as [|n]; [simpl in Hn; lia|]); cbn [leading_blanks app].
  - rewrite app_nil_r. rewrite zget_middle by done. cbn [mbind outcome_bind]. by rewrite Hx.
  - apply Forall_cons in Hb as [Hc Hb]. rewrite zget_middle by done. cbn [mbind outcome_bind]. rewrite Hc.
    replace (zlen a + 1) with (zlen (a ++ [c])) by zlen_lia.
    change (a ++ c :: b ++ x :: w) with (a ++ [c] ++ b ++ x :: w). change (a ++ c :: b) with (a ++ [c] ++ b).
    rewrite !(app_assoc a [c]). apply IH; [done|done|simpl in Hn; lia].
Qed.

(** The bytes move down over what stands before them. *)
Lemma move_down_run (w : bytes) (j : Z) : forall t d pre : bytes, zlen d = j -> 0 < j ->
  exists d', zlen d' = j /\
    for_loop (length t) (zlen pre) 1 (λ i s, c ← zget s (i + j); s ← zset s i c; Ok (s, true)) (pre ++ d ++ t ++ w) =
    Ok (pre ++ t ++ d' ++ w).
Proof.
  induction t as [|c t IH]; intros d pre Hd Hj; [by exists d|]. cbn [length for_loop].
  destruct d as [|x d]; [zlen_lia|]. rewrite app_assoc. cbn [app]. rewrite zget_middle by zlen_lia.
  cbn [mbind outcome_bind]. rewrite <- app_assoc. cbn [app]. rewrite zset_middle by done. cbn [mbind outcome_bind fst snd].
  destruct (IH (d ++ [c]) (pre ++ [c])) as (d' & Hd' & Hrun); [zlen_lia|done|]. exists d'. split; [done|].
  replace (zlen pre + 1) with (zlen (pre ++ [c])) by zlen_lia.
  rewrite <- !app_assoc in Hrun. cbn [app] in Hrun. exact Hrun.
Qed.

Lemma all_trim_run (a core b r : bytes) :
  blanks a -> Forall (λ c, trimmed_off c = true) b -> cstring (a ++ core ++ b) -> core <> [] ->
  is_blank (hd 0 core) = false -> (forall t c, core = t ++ [c] -> trimmed_off c = false) ->
  exists r', tAllTrim (a ++ core ++ b ++ 0 :: r) = Ok (zlen core, core ++ 0 :: r').
Proof.
  intros Ha Hb Hs Hne Hhd Hlast. unfold tAllTrim, tRTrim.
  assert (strlen (a ++ core ++ b ++ 0 :: r) = Ok (zlen ((a ++ core) ++ b))) as ->.
  { rewrite <- (app_assoc a core b). rewrite <- (strlen_app (a ++ core ++ b) r Hs). by rewrite <- !app_assoc. }
  cbn [mbind outcome_bind]. unfold zlen at 1. rewrite Nat2Z.id, (app_assoc a core).
  rewrite (rtrim_loop_run (0 :: r) b (a ++ core) Hb).
  2:{ intros t c E. destruct (exists_last Hne) as (core' & x & ->). rewrite app_assoc in E.
      apply app_inj_2 in E as [_ [= ->]]; [|done]. by apply (Hlast core'). }
  cbn [mbind outcome_bind fst snd]. unfold tLTrim. rewrite memset_shift.
  set (w := memset 0 (zlen b) ++ r). rewrite <- (app_assoc a).
  assert (cstring (a ++ core)) as Hac by (rewrite app_assoc in Hs; by apply Forall_app in Hs as [? _]).
  rewrite (app_assoc a core (0 :: w)), strlen_app by done. rewrite <- (app_assoc a). cbn [mbind outcome_bind].
  destruct core as [|x core]; [done|]. cbn [hd] in Hhd. destruct a as [|y a].
  - cbn [app]. rewrite zget_0_cons. cbn [mbind outcome_bind]. rewrite Hhd. cbn [negb]. by exists w.
  - cbn [app]. rewrite zget_0_cons. cbn [mbind outcome_bind]. apply Forall_cons in Ha as Ha'. destruct Ha' as [-> _]. cbn [negb].
    assert (leading_blanks (Z.to_nat (zlen (y :: a ++ x :: core))) 0 (y :: a ++ x :: core ++ 0 :: w) = Ok (zlen (y :: a))) as ->.
    { apply (leading_blanks_run x (core ++ 0 :: w) (y :: a) []); [done|done|].
      unfold zlen. rewrite Nat2Z.id. cbn [length]. rewrite length_app. cbn [length]. lia. }
    cbn [mbind outcome_bind].
    destruct (move_down_run (0 :: w) (zlen (y :: a)) (x :: core) (y :: a) [] eq_refl) as (d & Hd & Hrun); [zlen_lia|].
    assert (zlen (y :: a ++ x :: core) - zlen (y :: a) = zlen (x :: core)) as -> by zlen_lia.
    replace (Z.to_nat (zlen (x :: core))) with (length (x :: core)) by (unfold zlen; lia). change (zlen []) with 0 in Hrun. cbn [app] in Hrun. rewrite Hrun.
    cbn [mbind outcome_bind]. destruct d as [|z d]; [zlen_lia|]. cbn [app].
    change (x :: core ++ z :: d ++ 0 :: w) with ((x :: core) ++ z :: d ++ 0 :: w). rewrite zset_middle by done.
    cbn [mbind outcome_bind]. by eexists.
Qed.
End profile.
