(* ===== verification/BasConfigTheorems.v ===== *)
(** * What the configuration routines of the bas library guarantee

    Entries are found in profiles, macros are expanded, options are read as
    they were written; and where a length or an argument leads the code astray. *)

From S2P Require Import Prelude LibC Buffers BasString BasStringFacts CHeap LibString LibStringFacts.
From S2P Require Import BasConfig BasConfigFacts.

(** Constants for the examples. *)
#[local] Instance sample_profile_const : ProfileConst :=
  {| BAS_SUCCESS := 0; BAS_FAILURE := -1; PFL_MEMO_CHARACTER := 35; _IS_COMMENT c := c =? 35; _IS_STRING_BORDER c := c =? 34 |}.

#[local] Instance sample_profile_laws : ProfileLaws.
Proof. by split; [unfold cchar; simpl; lia|apply (bool_decide_unpack _)|]. Qed.

(** ** Profiles *)

(** C20: [tPflGetString] looks a profile up: it gives the value of the first
    entry with the name in the sections with the name, and the failure code when
    there is none.  Blanks at the end of a line and around the sign, and remarks,
    make no difference; blanks in front of a name are part of it, so that an
    indented entry is as if it were not there. *)
Theorem profile_entry_found `{Hlaws : ProfileLaws} sec q ent q' ls dst saLine :
  cstring sec -> cstring ent -> 61 ∉ ent -> zlen saLine = 256 -> Forall written_line_ok ls ->
  (forall v, profile_lookup sec ent false (map fl_line ls) = Some v -> zlen v < zlen dst) ->
  tPflGetString (sec ++ 0 :: q) (ent ++ 0 :: q') (Some (profile_text ls)) dst saLine =
    Ok (match profile_lookup sec ent false (map fl_line ls) with
        | Some v => (BAS_SUCCESS, v ++ 0 :: drop (S (length v)) dst)
        | None => (BAS_FAILURE, dst)
        end) /\
  (forall b before after v l1 l2, b <> [] ->
    profile_lookup sec ent false (l1 ++ Entry_line (b ++ ent) before after v :: l2) = profile_lookup sec ent false (l1 ++ l2)).
Proof. intros. split; [by apply profile_run|intros; by apply lookup_indented]. Qed.

(** A remark, another section with the same entry, and the entry with blanks
    around it. *)
Definition sample_profile : list written_line :=
  [mk_line (Other_line []) [] (Some (lit " settings"));
   mk_line (Section_line (lit "log")) [] None;
   mk_line (Entry_line (lit "level") [] [] (lit "9")) [] None;
   mk_line (Section_line (lit "db")) [32] None;
   mk_line (Other_line []) [] None;
   mk_line (Entry_line (lit "level") [9; 32] [32] (lit "3=x")) [32; 32] (Some (lit "low"))].

Lemma sample_profile_ok : Forall written_line_ok sample_profile.
Proof. by apply (bool_decide_unpack _). Qed.

Lemma profile_entry_found_witness :
  tPflGetString (lit "db" ++ [0]) (lit "level" ++ [0])
    (Some (lit "# settings" ++ [10] ++ lit "[log]" ++ [10] ++ lit "level=9" ++ [10] ++ lit "[db] " ++ [10; 10] ++
           lit "level" ++ [9; 32] ++ lit "= 3=x  #low" ++ [10])) (replicate 8 7) (replicate 256 7) =
    Ok (0, lit "3=x" ++ [0; 7; 7; 7; 7]).
Proof.
  exact (proj1 (profile_entry_found (lit "db") [] (lit "level") [] sample_profile (replicate 8 7) (replicate 256 7)
    ltac:(by apply (bool_decide_unpack _)) ltac:(by apply (bool_decide_unpack _)) ltac:(by apply (bool_decide_unpack _)) eq_refl
    sample_profile_ok ltac:(by intros v [= <-]))).
Defined.

(** The number readers convert what the look-up finds; without an entry the
    number is 0. *)
Theorem profile_numbers_read `{Hlaws : ProfileLaws} convert sec q ent q' ls buf saLine :
  cstring sec -> cstring ent -> 61 ∉ ent -> zlen buf = 255 -> zlen saLine = 256 -> Forall written_line_ok ls ->
  profile_number convert (sec ++ 0 :: q) (ent ++ 0 :: q') (Some (profile_text ls)) buf saLine =
    Ok (match profile_lookup sec ent false (map fl_line ls) with
        | Some v => (BAS_SUCCESS, convert v)
        | None => (BAS_FAILURE, 0)
        end).
Proof.
  intros Hsec Hent H61 Hbuf Hz Hok. unfold profile_number.
  rewrite profile_run; [|done..|intros v Hv; apply lookup_short in Hv; [lia|done]]. cbn [mbind outcome_bind].
  destruct (profile_lookup sec ent false (map fl_line ls)) as [v|] eqn:E; cbn [fst snd].
  - rewrite Z.eqb_refl. cbn [negb]. apply lookup_cstring in E; [|done]. by rewrite content_app.
  - destruct (Z.eqb_spec BAS_FAILURE BAS_SUCCESS) as [E'|]; [|done]. symmetry in E'. by apply success_not_failure in E'.
Qed.

Lemma profile_numbers_read_witness :
  tPflGetInt (lit "db" ++ [0]) (lit "level" ++ [0]) (Some (profile_text sample_profile)) (replicate 255 7) (replicate 256 7) = Ok (0, 3).
Proof.
  exact (profile_numbers_read atoi (lit "db") [] (lit "level") [] sample_profile (replicate 255 7) (replicate 256 7)
    ltac:(by apply (bool_decide_unpack _)) ltac:(by apply (bool_decide_unpack _)) ltac:(by apply (bool_decide_unpack _)) eq_refl eq_refl
    sample_profile_ok).
Defined.

(** [tPflInit] makes the name of the profile for a directory of up to 244
    characters and refuses one of more than 269; in between the name is written
    past the end of its array. *)
Theorem profile_name_bounds `{ProfileConst} s q :
  cstring s ->
  (zlen s <= 244 -> exists b, tPflInit (Some (s ++ 0 :: q)) = Ok (BAS_SUCCESS, b) /\ content b = s ++ lit "/etc/app.ini") /\
  (244 < zlen s <= 269 -> tPflInit (Some (s ++ 0 :: q)) = Fault) /\
  (269 < zlen s -> exists b, tPflInit (Some (s ++ 0 :: q)) = Ok (BAS_FAILURE, b)).
Proof.
  intros Hs. pose proof (zlen_nonneg s). unfold tPflInit, _POSIX_PATH_MAX. rewrite strlen_app by done. cbn [mbind outcome_bind].
  assert (zlen (memset 0 (256 + 1)) = 257) as Hm by done.
  assert (cstring (lit "/etc/app.ini")) as Ha by (by apply (bool_decide_unpack _)).
  assert (zlen s < 257 -> zlen (drop (S (length s)) (memset 0 (256 + 1))) = 256 - zlen s) as Hd.
  { intros Hl. unfold zlen in *. rewrite length_drop. lia. }
  change (lit "/etc/app.ini" ++ [0]) with (lit "/etc/app.ini" ++ 0 :: []).
  split; [|split]; intros Hl; destruct (Z.ltb_spec (256 + 13) (zlen s)); try lia.
  - rewrite strcpy_fit by (done || lia). cbn [mbind outcome_bind].
    destruct (strcat_holds s (drop (S (length s)) (memset 0 (256 + 1))) (lit "/etc/app.ini") []) as (r & -> & _);
      [done|done|rewrite Hd by lia; change (zlen (lit "/etc/app.ini")) with 12; lia|].
    eexists. split; [done|]. apply content_app. by apply Forall_app_2.
  - destruct (Z.leb_spec 257 (zlen s)); [by rewrite strcpy_full by (done || lia)|].
    rewrite strcpy_fit by (done || lia). cbn [mbind outcome_bind].
    rewrite strcat_full; [done..|]. rewrite Hd by lia. change (zlen (lit "/etc/app.ini")) with 12. lia.
  - by eexists.
Qed.

Lemma profile_name_bounds_witness :
  tPflInit (Some (replicate 250 97 ++ [0])) = Fault.
Proof.
  apply (profile_name_bounds (replicate 250 97) []); [by apply (bool_decide_unpack _)|].
  unfold zlen. rewrite length_replicate. lia.
Defined.

(** [tAllTrim] leaves the text without the blanks before and the blanks and line
    feeds behind it, and answers its length. *)
Theorem text_trimmed `{Hlaws : ProfileLaws} a core b r :
  blanks a -> Forall (λ c, trimmed_off c = true) b -> cstring (a ++ core ++ b) -> core <> [] ->
  is_blank (hd 0 core) = false -> (forall t c, core = t ++ [c] -> trimmed_off c = false) ->
  exists r', tAllTrim (a ++ core ++ b ++ 0 :: r) = Ok (zlen core, core ++ 0 :: r').
Proof. apply all_trim_run. Qed.

(** [_tTrimExtraSpace] leaves one blank between words, none around an equals
    sign, and strings as they are; [_tTrimComment] answers the old length. *)
Theorem line_trimmed :
  (r ← _tTrimExtraSpace (lit "  a   b  =  c d" ++ [34; 32; 32; 34] ++ lit " e" ++ [0]); Ok (r.1, content r.2)) =
    Ok (13, lit "a b=c d" ++ [34; 32; 32; 34] ++ lit " e") /\
  (r ← _tTrimComment (lit "ab#cd" ++ [0]); Ok (r.1, content r.2)) = Ok (5, lit "ab").
Proof. by vm_compute. Qed.

(** ** Macros *)

(** C24: [basExpandMacro] replaces every macro by its value in the environment,
    or by nothing; an escaped dollar is kept with its backslash, the bracket that
    closes a macro goes with it, and a macro that the text ends in is dropped. *)
Theorem macros_expanded getenv ps m r :
  macro_text false ps -> zlen m = 128 -> zlen (expand_text getenv ps) < 4096 ->
  basExpandMacro getenv m (macro_source ps ++ 0 :: r) = Ok (zeroed 4096 (expand_text getenv ps)).
Proof. apply expand_macro_run. Qed.

Definition sample_env (name : bytes) : option bytes :=
  if bool_decide (name = lit "HOME") then Some (lit "/home/app") else if bool_decide (name = lit "LOG") then Some (lit "log") else None.

Definition sample_macros : list macro_piece :=
  [Macro [123] (lit "HOME") 125; Text 47; Macro [] (lit "LOG") 46; Text 92; Text 36; Text 52; Macro [40] (lit "NONE") 41; Unfinished [] (lit "LOG")].

Lemma sample_macros_ok : macro_text false sample_macros.
Proof.
  cbn. unfold cchar, name_ok, opening_ok. split_and!; try lia; try done; try (by left); try (by right; left); try (by right; right).
  all: try (by apply (bool_decide_unpack _)). all: by repeat constructor.
Qed.

Lemma macros_expanded_witness :
  content <$> (match basExpandMacro sample_env (replicate 128 7) (lit "${HOME}/$LOG.\$4$(NONE)$LOG" ++ [0]) with Ok b => Some b | _ => None end) =
    Some (lit "/home/app/log.\$4").
Proof.
  change (lit "${HOME}/$LOG.\$4$(NONE)$LOG" ++ [0]) with (macro_source sample_macros ++ 0 :: []).
  rewrite (macros_expanded sample_env sample_macros (replicate 128 7) [] sample_macros_ok eq_refl ltac:(by vm_compute)).
  by vm_compute.
Defined.

(** C25: [basGetFileFullName] leaves an absolute name as it is expanded; a
    relative one is put behind the default directory, which a relative default
    has behind the application's, with one slash between them. *)
Theorem file_names_completed getenv m cf mf file dir r name :
  (forall n v, getenv n = Some v -> cstring v) ->
  zlen m = 128 -> zlen cf = 2048 -> zlen mf = 2048 ->
  macro_text false file -> from_option (macro_text false) True dir -> base_name getenv dir <> Some [] ->
  full_name getenv file dir = Some name -> zlen name < 2048 ->
  exists b, basGetFileFullName getenv m cf mf (macro_source file ++ 0 :: r) ((λ d, macro_source d ++ [0]) <$> dir) = Ok b /\
    holds b name.
Proof. intros. by apply full_name_run. Qed.

Lemma file_names_completed_witness :
  exists b, basGetFileFullName sample_env (replicate 128 7) (replicate 2048 7) (replicate 2048 7) (lit "a.$LOG-" ++ [0]) (Some (lit "etc" ++ [0])) = Ok b /\
    holds b (lit "/home/app/etc/a.log-").
Proof.
  apply (file_names_completed sample_env (replicate 128 7) (replicate 2048 7) (replicate 2048 7)
    [Text 97; Text 46; Macro [] (lit "LOG") 45] (Some [Text 101; Text 116; Text 99]) []).
  - intros n v. unfold sample_env. repeat case_bool_decide; intros [= <-]; by apply (bool_decide_unpack _).
  - reflexivity.
  - reflexivity.
  - reflexivity.
  - cbn. unfold cchar, name_ok, opening_ok. split_and!; try lia; try done; try (by left). by repeat constructor.
  - cbn. unfold cchar. split_and!; done || lia.
  - by vm_compute.
  - by vm_compute.
  - by vm_compute.
Defined.

(** ** Options *)

(** C21: called until it answers -1, [basGetopt] reads from a command line of
    letters the caller lists their options with their values, in the order they
    were written, and stops at the end or behind two dashes.  Operands are passed
    over, with one exception: of the operand at the beginning or directly behind
    options the code looks at the second character, so [x-v] is read as the
    option [v] there ([lead]), and an empty operand there is not covered (it is
    read past its end); behind another operand both are passed over. *)
Theorem options_are_read ostr prog args tail fuel :
  let argv := prog :: concat (map render_arg args) ++ tail in
  let os := concat (map arg_options args) in
  args_ok ostr true args -> tail = [] \/ (exists rest, tail = [45; 45] :: rest) -> (length os < fuel)%nat ->
  exists g, read_options argv ostr fuel opt_initial = Ok (os, g) /\
    giOptind g = zlen argv - zlen (tl tail).
Proof.
  intros argv os Hargs Htail Hf.
  destruct (args_reads ostr argv tail args [prog] [] opt_initial) as (g1 & before & ops & Hr & Hargv & Hops & Hb);
    [done..|].
  destruct (last_call ostr argv g1 before ops tail Hargv Htail Hops Hb) as (g & Hg & Hind).
  exists g. replace fuel with (length os + S (fuel - length os - 1))%nat by lia. rewrite (Hr _).
  cbn [read_options]. rewrite Hg. cbn [mbind outcome_bind fst snd Z.eqb Pos.eqb]. split; [by rewrite app_nil_r|].
  rewrite Hind, Hargv. destruct Htail as [->|[rest ->]]; cbn [tl].
  - rewrite bool_decide_eq_true_2 by done. zlen_lia.
  - rewrite bool_decide_eq_false_2 by done. zlen_lia.
Qed.

(** The operand [c-b] stands behind another operand and is passed over; [d-a]
    stands behind options and gives the option [a]. *)
Lemma options_are_read_witness :
  exists g, read_options (map lit ["prog"; "-ab"; "file"; "c-b"; "-ovalue"; "d-a"; "-ax"; "next"; "--"; "-b"]) (lit "abo:x:") 10 opt_initial =
      Ok ([(97, None); (98, None); (111, Some (lit "value")); (97, None); (97, None); (120, Some (lit "next"))], g) /\ giOptind g = 9.
Proof.
  apply (options_are_read (lit "abo:x:") (lit "prog")
    [Group [] (lit "ab"); Operand (lit "file"); Operand (lit "c-b"); Joined [] [] 111 (lit "value"); Group (lit "d") (lit "a");
     Separate [] (lit "a") 120 (lit "next")] [lit "--"; lit "-b"] 10).
  - assert (forall c arg rest, 0 < c < 128 -> c <> 45 -> c <> 58 -> strchr_rest (lit "abo:x:") c = Some rest -> (hd 0 rest =? 58) = arg ->
      is_option (lit "abo:x:") arg c) as Hopt
      by (intros c arg rest ? ? ? ? ?; split; [lia|split; [lia|split; [lia|by exists rest]]]).
    assert (is_option (lit "abo:x:") false 97) as Ha by (eapply Hopt; done || lia).
    assert (is_option (lit "abo:x:") false 98) as Hb by (eapply Hopt; done || lia).
    assert (is_option (lit "abo:x:") true 111) as Ho by (eapply Hopt; done || lia).
    assert (is_option (lit "abo:x:") true 120) as Hx by (eapply Hopt; done || lia).
    cbn [args_ok arg_ok lead_ok]. split_and!; try done; try (by apply (bool_decide_unpack _));
      change (lit "ab") with [97; 98]; change (lit "a") with [97]; by auto.
  - right. by eexists.
  - simpl. lia.
Defined.

(** The second character of an operand is taken for the dash of an option, and
    an empty argument is read past its end. *)
Theorem operands_misread :
  (exists g, read_options (map lit ["prog"; "a-v"]) (lit "v") 10 opt_initial = Ok ([(118, None)], g)) /\
  read_options [lit "prog"; []; lit "-v"] (lit "v") 10 opt_initial = Fault.
Proof. split; [eexists; by vm_compute|by vm_compute]. Qed.
